(* ===== verification/_CoqProject ===== *)
-Q . S2P
Prelude.v
BpfFilter.v
BpfValidate.v
BpfState.v
BpfChannel.v
BpfRecord.v
BpfQueue.v
BpfInv.v
BpfOps.v
BpfSystem.v
BpfWhole.v
BpfSpec.v
Udivdi3.v
CString.v
ConfigText.v
ConfigText6.v
Inet.v
ConfigLine.v
Checksum.v
Limbs.v
C68kPrim.v
C68kMont.v
C68kMul.v
C68kModmul.v
C68kDiv.v
C68kPowm.v
C68kScan.v
C68kExp.v
MbufAlloc.v
MbufCode.v
MbufInv.v
MbufFree.v
MbufGet.v
MbufChain.v
MbufJoin.v
MbufPull.v
MbufPullup.v
MbufCluster.v
MbufClaims.v
Srcsel.v
SrcselSpec.v
SrcselPtp.v
SrcselRoute.v
RxVerify.v
RxSpec.v
RxClaims.v
TxCopy.v
TxSum.v
TxFrame.v
TxBlock.v
TxStream.v
TxBatch.v
TxClaims.v
Poly1305.v
Poly1305Spec.v
Poly1305Claims.v
Chacha20.v
ChachaSpec.v
ChachaAead.v
ChachaClaims.v
Sha256.v
Sha256Spec.v
Sha256Claims.v
Aes.v
AesTables.v
AesSpec.v
AesKeys.v
AesBlocks.v
AesClaims.v
Fe25519.v
FeSpec.v
FeField.v
X25519.v
Ed25519.v
EdScalar.v
EdSpec.v
EdClaims.v
