(* ===== verification/Prelude.v ===== *)
(** * AmiNetXDuo, verified

    AmiNetXDuo is a TCP/IP stack for the Amiga: a bsdsocket.library over NetX Duo,
    with its drivers, a packet capture layer, configuration files, cryptography for
    the 68000 family and a set of tools.  NetX Duo, ThreadX and NetX Secure are git
    submodules and not part of the sources.  This library models parts of the
    repository's own C in Rocq and proves what makes them correct.  Paths below are
    relative to the repository (src/).

    ** Parts and how they interact

    - Packet capture (src/bpf).  Drivers hand every frame to the taps; a tap runs the
      channel's filter program over a scatter view of the frame and appends a record
      to the channel's store buffer; readers swap the buffers under the lock and copy
      outside it; ioctl installs filters, sizes and interfaces.
    - Configuration text (src/config/config_text.c, config_text6.c) and the inet_*
      functions of bsdsocket.library (src/bsdsocket/inet.c), which share the digit
      loops and the IPv6 text.
    - The 64-bit arithmetic the compiler calls (src/common/ami_udivdi3.c), reached
      from every other part, in particular from the limb divide of crypto68k.
    - The internet checksum over packet chains (src/net68k/n68k_checksum.c).
    - Multi-precision arithmetic (src/crypto68k): limb primitives, Montgomery and
      Karatsuba products, long division, modular exponentiation for RSA and DH.

    ** Files

    Prelude: machine words as [Z] with their wrap-around, [outcome] for code that can
    fault or run out of fuel, tactics, the hint database [word], lists.

    Packet capture.
    - BpfFilter: views, loads and the interpreter (bpf_filter.c).
    - BpfValidate: the load-time validator (bpf_validate.c).
    - BpfState: channel table, registry, heap and the state monad (bpf_internal.h).
    - BpfChannel: every operation of bpf_channel.c, bpf_tap.c and bpf_tap_tx.c, one
      definition per stretch between lock and unlock.
    - BpfRecord, BpfLogic, BpfQueue: records as bytes, a weakest precondition that
      demands a result, a channel's buffers as a queue of records.
    - BpfInv, BpfOps: the invariant, and that every stretch keeps it.
    - BpfSystem: the interleavings of any number of tasks as a step relation.
    - BpfDemo, BpfWhole, BpfSpec: a concrete run; the operations end to end; the
      promises of the layer.

    Text.
    - CString: C strings that are only read, digit loops.
    - ConfigText, ConfigText6, ConfigLine: config_text.c and config_text6.c; numbers,
      addresses, the in-place tokeniser over an edited buffer.
    - Inet: inet.c with in6.c, errno.c and bsd_af_in as it uses them.

    Arithmetic.
    - Udivdi3: ami_udivdi3.c.
    - Checksum: n68k_checksum.c.
    - Limbs: one memory of limbs, areas that may overlap, frames ([keeps]).
    - C68kPrim, C68kMont, C68kDiv, C68kPowm: the code of c68k_prim.c, c68k_mont.c,
      c68k_div.c and c68k_powm.c; C68kMul, C68kModmul, C68kScan, C68kExp: what it
      computes.  The vendored huge-number routines are the operations [hn_ops] with
      the laws [hn_laws]; [SimpleHn] shows that the laws can be met.

    ** What the theorems show

    - Capture: no interleaving of locked stretches faults, leaks, frees twice or
      miscounts ([BpfSpec.no_interleaving_faults], [heap_accounted],
      [bound_count_exact]); a channel is a bounded FIFO of records
      ([capture_appends], [read_delivers], [look_takes_whole_records]); a reader
      copies what it saw ([reader_isolated]); installed filters are validated ones;
      validated programs settle and no program reads outside the packet
      ([validated_program_settles], [filter_view_total], [filter_view_linear]); open,
      close, ioctl, read and stale handles ([BpfWhole]).
    - Text: printers and parsers are inverse and the parsers accept exactly the
      documented texts ([ip4_roundtrip], [ip6_roundtrip], [ntop_pton],
      [pton4_exact], [inet_parse_exact], [parse_ulong_exact]); the in-place
      tokeniser, pair reader, comment stripper and line reader refine their
      definitions on texts ([tokenize_refines], [tokenize_roundtrip],
      [pair_refines], [line_cleaned], [file_lines_read]).
    - Arithmetic: 64-bit division and multiplication are exact; the checksum is the
      one of RFC 1071 for every way a chain is cut; the Karatsuba product is the
      product; the correction loop of the long division ends and the remainder is
      exact; modular exponentiation is [x^e mod m], with its refusals.

    ** Bounds and fuel

    Loops over a list or a counter are structural.  Loops the code leaves unbounded
    take a fuel whose exhaustion is [Spin], and the theorems show the call returns a
    value: the digit corrections of the divide (3 passes), the correction of the long
    division (3), leading zeros (32), the Karatsuba recursion (the width), the window
    fit (6), the window's low end (the window), the exponent scan (the bits), the IPv6
    groups (9), the tokeniser (the buffer length), the filter interpreter (the
    program length, since jumps go forward).  The wait of a BPF read has the budget of
    slices the code gives it.  Exponents have fewer than 2^26 limbs and moduli fewer
    than 2^24, so that no [UINT] of the exponentiation wraps.

    ** Not modelled

    Sockets, netstack, SANA-II, the network device drivers, TLS sessions and the tools
    are driven by NetX Duo, Exec and hardware, which are not in the sources; the BPF
    platform glue (locks, timers, signals) is Exec calls.  Of crypto68k the assembly
    arms, the CPU selection, ciphers, hashes and curves; of src/config the keyword
    tables and record filling; of src/bsdsocket everything but the address functions.

    ** Plan

    Next: mbuf chains and clusters (src/mbuf), receive verification (src/net68k),
    IPv6 source selection (src/ipv6), the configuration records over the text layer,
    usergroup.library's parsers, the ciphers and hashes of crypto68k. *)

From Stdlib Require Import ZArith Lia.
From stdpp Require Import base numbers list.

#[global] Open Scope Z_scope.

(** ** Machine words

    A [ULONG] is a [Z] in [0, 2^32); every operation that can leave the range
    is followed by the reduction the hardware makes. *)

Definition u8 (z : Z) : Z := z mod 2 ^ 8.
Definition u16 (z : Z) : Z := z mod 2 ^ 16.
Definition u32 (z : Z) : Z := z mod 2 ^ 32.
Definition u64 (z : Z) : Z := z mod 2 ^ 64.

(** A signed reading of a [w]-bit pattern (two's complement). *)
Definition sext (w z : Z) : Z :=
  let r := z mod 2 ^ w in if r <? 2 ^ (w - 1) then r else r - 2 ^ w.
Definition s32 (z : Z) : Z := sext 32 z.
Definition s64 (z : Z) : Z := sext 64 z.

Definition is_u8 (z : Z) : Prop := 0 <= z < 2 ^ 8.
Definition is_u16 (z : Z) : Prop := 0 <= z < 2 ^ 16.
Definition is_u32 (z : Z) : Prop := 0 <= z < 2 ^ 32.
Definition is_u64 (z : Z) : Prop := 0 <= z < 2 ^ 64.

Declare Scope word_scope.
Delimit Scope word_scope with word.
Notation "x +w y" := (u32 (x + y)) (at level 50, left associativity) : word_scope.
Notation "x -w y" := (u32 (x - y)) (at level 50, left associativity) : word_scope.
Notation "x *w y" := (u32 (x * y)) (at level 40, left associativity) : word_scope.
Notation "x <<w y" := (u32 (Z.shiftl x y)) (at level 60, no associativity) : word_scope.
#[global] Open Scope word_scope.

Create HintDb word.

(** [word_lia] is [lia] after the word predicates are unfolded and every division
    and remainder by a constant is named. *)
Ltac wunfold := unfold is_u8, is_u16, is_u32, is_u64, u8, u16, u32, u64 in *.
Ltac word_lia := wunfold; Z.div_mod_to_equations; lia.

(** Case analysis on the leftmost boolean comparison of the goal. *)
Ltac bcase :=
  match goal with
  | |- context [Z.leb ?a ?b] => destruct (Z.leb_spec a b)
  | |- context [Z.ltb ?a ?b] => destruct (Z.ltb_spec a b)
  | |- context [Z.eqb ?a ?b] => destruct (Z.eqb_spec a b)
  end; simpl andb; simpl orb; simpl negb; cbv iota.
Ltac bcases := repeat (bcase; try (exfalso; word_lia)).

Lemma u8_range z : is_u8 (u8 z).
Proof. word_lia. Qed.
Lemma u16_range z : is_u16 (u16 z).
Proof. word_lia. Qed.
Lemma u32_range z : is_u32 (u32 z).
Proof. word_lia. Qed.
Lemma u64_range z : is_u64 (u64 z).
Proof. word_lia. Qed.
Lemma u32_small z : is_u32 z -> u32 z = z.
Proof. intros; apply Z.mod_small; wunfold; lia. Qed.
Lemma u16_small z : is_u16 z -> u16 z = z.
Proof. intros; apply Z.mod_small; wunfold; lia. Qed.
Lemma u8_small z : is_u8 z -> u8 z = z.
Proof. intros; apply Z.mod_small; wunfold; lia. Qed.
Lemma u64_small z : is_u64 z -> u64 z = z.
Proof. intros; apply Z.mod_small; wunfold; lia. Qed.

Lemma s32_small z : 0 <= z < 2 ^ 31 -> s32 z = z.
Proof. intros Hz. unfold s32, sext. bcases; word_lia. Qed.

#[export] Hint Resolve u8_range u16_range u32_range u64_range : word.

(** ** Outcomes of code that touches memory

    [Val] is an ordinary return, [Fault] an access outside the object it was
    made to, [Spin] a loop that ran out of the fuel it was given. *)

Inductive outcome (A : Type) : Type :=
| Val (a : A)
| Fault
| Spin.
Arguments Val {A} _.
Arguments Fault {A}.
Arguments Spin {A}.

Definition obind {A B} (m : outcome A) (f : A -> outcome B) : outcome B :=
  match m with Val a => f a | Fault => Fault | Spin => Spin end.

Notation "'let!' x := m 'in' k" := (obind m (fun x => k))
  (at level 10, x pattern, m at level 100, k at level 200).

(** A checked array read. *)
Definition fetch {A} (l : list A) (i : Z) : outcome A :=
  if i <? 0 then Fault
  else match l !! Z.to_nat i with Some x => Val x | None => Fault end.

Lemma fetch_val {A} (l : list A) i :
  0 <= i < Z.of_nat (length l) -> exists x, fetch l i = Val x /\ l !! Z.to_nat i = Some x.
Proof.
  intros H. destruct (lookup_lt_is_Some_2 l (Z.to_nat i)) as [x Hx]; [lia|].
  exists x. unfold fetch. rewrite Hx. destruct (Z.ltb_spec i 0); [lia|done].
Qed.

(** ** Big-endian words in byte lists *)

(** [be_join acc bs] is the accumulation [acc = (acc << 8) | b] over [bs], as
    the loaders write it, in 32 bits. *)
Fixpoint be_join (acc : Z) (bs : list Z) : Z :=
  match bs with
  | [] => acc
  | b :: r => be_join (Z.lor (acc <<w 8) b) r
  end.

Definition be32 (v : Z) : list Z :=
  [u8 (Z.shiftr v 24); u8 (Z.shiftr v 16); u8 (Z.shiftr v 8); u8 v].
Definition be16 (v : Z) : list Z := [u8 (Z.shiftr v 8); u8 v].

Definition bytes_ok (l : list Z) : Prop := Forall is_u8 l.

(** [slice l off len]: [len] elements of [l] from [off] on. *)
Definition slice {A} (l : list A) (off len : Z) : list A :=
  take (Z.to_nat len) (drop (Z.to_nat off) l).

(** [splice l off bs]: [l] with [bs] written over it at [off]. *)
Definition splice {A} (l : list A) (off : Z) (bs : list A) : list A :=
  take (Z.to_nat off) l ++ bs ++ drop (Z.to_nat off + length bs) l.

Lemma fetch_lookup {A} (l : list A) (i : Z) (x : A) :
  0 <= i -> l !! Z.to_nat i = Some x -> fetch l i = Val x.
Proof. intros Hi Hx. unfold fetch. rewrite Hx. by destruct (Z.ltb_spec i 0); [lia|]. Qed.

Lemma be_join_app acc l1 l2 : be_join acc (l1 ++ l2) = be_join (be_join acc l1) l2.
Proof. revert acc; induction l1 as [|b l1 IH]; intros acc; simpl; [done|apply IH]. Qed.

(** Bitwise operations stay inside a width. *)
Lemma lor_range w a b : 0 <= w -> 0 <= a < 2 ^ w -> 0 <= b < 2 ^ w -> 0 <= Z.lor a b < 2 ^ w.
Proof.
  intros Hw Ha Hb. split; [apply Z.lor_nonneg; lia|].
  destruct (Z.eq_dec (Z.lor a b) 0) as [->|Hn]; [lia|].
  apply Z.log2_lt_pow2; [pose proof (Z.lor_nonneg a b); lia|].
  rewrite Z.log2_lor by lia.
  destruct (Z.eq_dec a 0) as [->|Ha0], (Z.eq_dec b 0) as [->|Hb0];
    [rewrite Z.lor_0_l in Hn; lia| | |];
    apply Z.max_lub_lt; rewrite ?Z.log2_nonpos by lia;
    try (apply Z.log2_lt_pow2; lia);
    try (destruct (Z.eq_dec w 0); subst; simpl in *; lia).
Qed.

Lemma land_range w a b : 0 <= w -> 0 <= a < 2 ^ w -> 0 <= b -> 0 <= Z.land a b < 2 ^ w.
Proof.
  intros Hw Ha Hb. split; [apply Z.land_nonneg; lia|].
  destruct (Z.eq_dec (Z.land a b) 0) as [->|Hn]; [lia|].
  apply Z.log2_lt_pow2; [pose proof (Z.land_nonneg a b); lia|].
  pose proof (Z.log2_land a b ltac:(lia) Hb).
  destruct (Z.eq_dec a 0) as [->|]; [rewrite Z.land_0_l in Hn; lia|].
  pose proof (proj1 (Z.log2_lt_pow2 a w ltac:(lia)) ltac:(lia)). lia.
Qed.

Lemma u32_lor a b : is_u32 a -> is_u32 b -> is_u32 (Z.lor a b).
Proof. apply lor_range; lia. Qed.
Lemma u32_land a b : is_u32 a -> 0 <= b -> is_u32 (Z.land a b).
Proof. apply land_range; lia. Qed.
Lemma u32_div a b : is_u32 a -> 0 < b -> is_u32 (a / b).
Proof.
  intros [H1 H2] Hb. split; [apply Z.div_pos; lia|].
  apply Z.le_lt_trans with a; [|lia]. apply Z.div_le_upper_bound; nia.
Qed.
Lemma u32_shiftr a b : is_u32 a -> 0 <= b -> is_u32 (Z.shiftr a b).
Proof.
  intros H Hb. rewrite Z.shiftr_div_pow2 by done. apply u32_div; [done|].
  apply Z.pow_pos_nonneg; lia.
Qed.
Lemma is_u8_u32 z : is_u8 z -> is_u32 z.
Proof. word_lia. Qed.

#[export] Hint Resolve u32_lor u32_shiftr is_u8_u32 : word.

Lemma be_join_range acc bs : is_u32 acc -> bytes_ok bs -> is_u32 (be_join acc bs).
Proof.
  revert acc; induction bs as [|b r IH]; intros acc Ha Hbs; simpl; [done|].
  inversion Hbs; subst. apply IH; auto with word.
Qed.

(** ** Slices and splices *)

Lemma slice_length {A} (l : list A) off len :
  0 <= off -> 0 <= len -> off + len <= Z.of_nat (length l) ->
  Z.of_nat (length (slice l off len)) = len.
Proof. intros. unfold slice. rewrite length_take, length_drop. lia. Qed.

Lemma slice_lookup {A} (l : list A) off len i :
  0 <= off -> (i < Z.to_nat len)%nat -> slice l off len !! i = l !! (Z.to_nat off + i)%nat.
Proof. intros. unfold slice. rewrite lookup_take_lt by done. by rewrite lookup_drop. Qed.

Lemma slice_lookup_ge {A} (l : list A) off len i :
  (Z.to_nat len <= i)%nat -> slice l off len !! i = None.
Proof. intros. unfold slice. apply lookup_ge_None. rewrite length_take. lia. Qed.

Lemma slice_ext {A} (l1 l2 : list A) off1 off2 len :
  0 <= off1 -> 0 <= off2 ->
  (forall i, (i < Z.to_nat len)%nat -> l1 !! (Z.to_nat off1 + i)%nat = l2 !! (Z.to_nat off2 + i)%nat) ->
  slice l1 off1 len = slice l2 off2 len.
Proof.
  intros H1 H2 H. apply list_eq. intros i.
  destruct (decide (i < Z.to_nat len)%nat).
  - rewrite !slice_lookup by done. by apply H.
  - by rewrite !slice_lookup_ge by lia.
Qed.

Lemma slice_slice {A} (l : list A) a n b m :
  0 <= a -> 0 <= b -> 0 <= m -> b + m <= n -> slice (slice l a n) b m = slice l (a + b) m.
Proof.
  intros. apply slice_ext; [lia..|]. intros i Hi. rewrite slice_lookup by lia. f_equal. lia.
Qed.

Lemma slice_all {A} (l : list A) n : Z.of_nat (length l) = n -> slice l 0 n = l.
Proof. intros <-. unfold slice. rewrite Nat2Z.id. simpl. by rewrite take_ge. Qed.

Lemma splice_length {A} (l : list A) off bs :
  0 <= off -> off + Z.of_nat (length bs) <= Z.of_nat (length l) ->
  length (splice l off bs) = length l.
Proof. intros. unfold splice. rewrite !length_app, length_take, length_drop. lia. Qed.

Lemma splice_lookup_out {A} (l : list A) off bs i :
  0 <= off -> off + Z.of_nat (length bs) <= Z.of_nat (length l) ->
  Z.of_nat i < off \/ off + Z.of_nat (length bs) <= Z.of_nat i ->
  splice l off bs !! i = l !! i.
Proof.
  intros H1 H2 [H|H]; unfold splice.
  - rewrite lookup_app_l by (rewrite length_take; lia). by rewrite lookup_take_lt by lia.
  - rewrite lookup_app_r by (rewrite length_take; lia). rewrite length_take.
    rewrite lookup_app_r by lia. rewrite lookup_drop. f_equal. lia.
Qed.

Lemma splice_lookup_in {A} (l : list A) off bs i :
  0 <= off -> off + Z.of_nat (length bs) <= Z.of_nat (length l) ->
  off <= Z.of_nat i < off + Z.of_nat (length bs) ->
  splice l off bs !! i = bs !! (i - Z.to_nat off)%nat.
Proof.
  intros H1 H2 H. unfold splice.
  rewrite lookup_app_r by (rewrite length_take; lia). rewrite length_take.
  rewrite lookup_app_l by lia. f_equal. lia.
Qed.

Lemma slice_splice_same {A} (l : list A) off bs :
  0 <= off -> off + Z.of_nat (length bs) <= Z.of_nat (length l) ->
  slice (splice l off bs) off (Z.of_nat (length bs)) = bs.
Proof.
  intros H1 H2. apply list_eq. intros i. destruct (decide (i < length bs)%nat).
  - rewrite slice_lookup by lia. rewrite splice_lookup_in by lia. f_equal. lia.
  - rewrite slice_lookup_ge by lia. symmetry. apply lookup_ge_None. lia.
Qed.

Lemma slice_splice_out {A} (l : list A) off bs o n :
  0 <= off -> off + Z.of_nat (length bs) <= Z.of_nat (length l) -> 0 <= o ->
  o + n <= off \/ off + Z.of_nat (length bs) <= o ->
  slice (splice l off bs) o n = slice l o n.
Proof.
  intros H1 H2 Ho H. apply slice_ext; [done..|]. intros i Hi.
  apply splice_lookup_out; [done..|]. destruct H; [left|right]; lia.
Qed.

Lemma splice_splice {A} (l : list A) off a b :
  0 <= off -> off + Z.of_nat (length a + length b) <= Z.of_nat (length l) ->
  splice (splice l off a) (off + Z.of_nat (length a)) b = splice l off (a ++ b).
Proof.
  intros H1 H2. assert (Hl : length (splice l off a) = length l) by (apply splice_length; lia).
  apply list_eq. intros i.
  assert (Hab : length (a ++ b) = (length a + length b)%nat) by apply length_app.
  destruct (decide (off <= Z.of_nat i < off + Z.of_nat (length a + length b))).
  - rewrite (splice_lookup_in l off (a ++ b)) by lia.
    destruct (decide (Z.of_nat i < off + Z.of_nat (length a))).
    + rewrite splice_lookup_out by lia. rewrite splice_lookup_in by lia.
      by rewrite lookup_app_l by lia.
    + rewrite splice_lookup_in by lia. rewrite lookup_app_r by lia. f_equal. lia.
  - rewrite (splice_lookup_out l off (a ++ b)) by lia.
    rewrite splice_lookup_out by lia. apply splice_lookup_out; lia.
Qed.

(** ** Words and their bytes *)

Lemma lor_shift_add k a b : 0 <= k -> 0 <= b < 2 ^ k -> Z.lor (Z.shiftl a k) b = a * 2 ^ k + b.
Proof.
  intros Hk Hb. destruct (Z.eq_dec b 0) as [->|Hb0].
  { by rewrite Z.lor_0_r, Z.add_0_r, Z.shiftl_mul_pow2. }
  pose proof (Z.add_lor_land (Z.shiftl a k) b) as Hs.
  assert (Hl : Z.land (Z.shiftl a k) b = 0).
  { apply Z.bits_inj'. intros n Hn. rewrite Z.land_spec, Z.bits_0.
    destruct (decide (n < k)).
    - by rewrite Z.shiftl_spec_low.
    - rewrite (Z.bits_above_log2 b n), andb_false_r; [done|lia|].
      apply Z.log2_lt_pow2; [lia|]. apply Z.lt_le_trans with (2 ^ k); [lia|].
      apply Z.pow_le_mono_r; lia. }
  rewrite Hl, Z.shiftl_mul_pow2 in Hs by lia. rewrite Z.shiftl_mul_pow2 by lia. lia.
Qed.

Lemma lor_shift8 a b : 0 <= a -> is_u8 b -> Z.lor (Z.shiftl a 8) b = a * 256 + b.
Proof. intros _ Hb. by rewrite lor_shift_add by word_lia. Qed.

Lemma be_join_cons acc b r :
  0 <= acc < 2 ^ 24 -> is_u8 b -> be_join acc (b :: r) = be_join (acc * 256 + b) r.
Proof.
  intros Ha Hb. simpl. rewrite u32_small by (rewrite Z.shiftl_mul_pow2 by lia; word_lia).
  by rewrite lor_shift8 by (lia || done).
Qed.

Lemma be_join_be32 v : is_u32 v -> be_join 0 (be32 v) = v.
Proof.
  intros Hv. unfold be32. rewrite !Z.shiftr_div_pow2 by lia.
  do 4 (rewrite be_join_cons; [|word_lia|apply u8_range]). simpl. word_lia.
Qed.

Lemma be_join_be16 v : is_u16 v -> be_join 0 (be16 v) = v.
Proof.
  intros Hv. unfold be16. rewrite !Z.shiftr_div_pow2 by lia.
  do 2 (rewrite be_join_cons; [|word_lia|apply u8_range]). simpl. word_lia.
Qed.

(** A field of a word, masked out of it. *)
Lemma land_field x a b : 0 <= a -> 0 <= b -> Z.land x (Z.shiftl (Z.ones a) b) = (x / 2 ^ b) mod 2 ^ a * 2 ^ b.
Proof.
  intros Ha Hb. rewrite <- Z.shiftr_div_pow2, <- Z.land_ones, <- Z.shiftl_mul_pow2 by lia.
  apply Z.bits_inj'. intros k Hk. rewrite Z.land_spec. destruct (Z_lt_ge_dec k b).
  - rewrite !Z.shiftl_spec_low by lia. by rewrite andb_false_r.
  - rewrite !Z.shiftl_spec by lia. rewrite Z.land_spec, Z.shiftr_spec by lia.
    by replace (k - b + b) with k by lia.
Qed.
