(* ===== verification/BpfFilter.v ===== *)
(** The BPF filter machine: scatter views over a packet, the packet loads, and
    the interpreter (src/src/bpf/bpf_filter.c). *)

From Stdlib Require Import ZArith Lia.
From stdpp Require Import base numbers list.
From S2P Require Import Prelude.

(** ** Encodings (include/aminetxduo/bpf.h) *)

Definition BPF_CLASS (code : Z) : Z := Z.land code 0x07.
Definition BPF_SIZE (code : Z) : Z := Z.land code 0x18.
Definition BPF_MODE (code : Z) : Z := Z.land code 0xe0.
Definition BPF_OP (code : Z) : Z := Z.land code 0xf0.
Definition BPF_SRC (code : Z) : Z := Z.land code 0x08.
Definition BPF_RVAL (code : Z) : Z := Z.land code 0x18.
Definition BPF_MISCOP (code : Z) : Z := Z.land code 0xf8.

Abbreviation BPF_LD := 0x00 (only parsing).
Abbreviation BPF_LDX := 0x01 (only parsing).
Abbreviation BPF_ST := 0x02 (only parsing).
Abbreviation BPF_STX := 0x03 (only parsing).
Abbreviation BPF_ALU := 0x04 (only parsing).
Abbreviation BPF_JMP := 0x05 (only parsing).
Abbreviation BPF_RET := 0x06 (only parsing).
Abbreviation BPF_MISC := 0x07 (only parsing).
Abbreviation BPF_W := 0x00 (only parsing).
Abbreviation BPF_H := 0x08 (only parsing).
Abbreviation BPF_B := 0x10 (only parsing).
Abbreviation BPF_IMM := 0x00 (only parsing).
Abbreviation BPF_ABS := 0x20 (only parsing).
Abbreviation BPF_IND := 0x40 (only parsing).
Abbreviation BPF_MEM := 0x60 (only parsing).
Abbreviation BPF_LEN := 0x80 (only parsing).
Abbreviation BPF_MSH := 0xa0 (only parsing).
Abbreviation BPF_ADD := 0x00 (only parsing).
Abbreviation BPF_SUB := 0x10 (only parsing).
Abbreviation BPF_MUL := 0x20 (only parsing).
Abbreviation BPF_DIV := 0x30 (only parsing).
Abbreviation BPF_OR := 0x40 (only parsing).
Abbreviation BPF_AND := 0x50 (only parsing).
Abbreviation BPF_LSH := 0x60 (only parsing).
Abbreviation BPF_RSH := 0x70 (only parsing).
Abbreviation BPF_NEG := 0x80 (only parsing).
Abbreviation BPF_JA := 0x00 (only parsing).
Abbreviation BPF_JEQ := 0x10 (only parsing).
Abbreviation BPF_JGT := 0x20 (only parsing).
Abbreviation BPF_JGE := 0x30 (only parsing).
Abbreviation BPF_JSET := 0x40 (only parsing).
Abbreviation BPF_K := 0x00 (only parsing).
Abbreviation BPF_X := 0x08 (only parsing).
Abbreviation BPF_A := 0x10 (only parsing).
Abbreviation BPF_TAX := 0x00 (only parsing).
Abbreviation BPF_TXA := 0x80 (only parsing).
Abbreviation BPF_MEMWORDS := 16 (only parsing).
Abbreviation BPF_MAXINSNS := 512 (only parsing).
Abbreviation AMI_BPF_MAX_SEGS := 8 (only parsing).

(** [struct bpf_insn]: [UWORD code; UBYTE jt, jf; LONG k]. *)
Record bpf_insn := BpfInsn { bi_code : Z; bi_jt : Z; bi_jf : Z; bi_k : Z }.

(** ** Views

    [AmiBpfSeg] is a pointer and a length; the bytes that can be read through
    the pointer are [seg_base].  The [nsegs] entries of [seg[]] that are in use
    are the list [v_seg]. *)

Record AmiBpfSeg := BpfSeg { seg_base : list Z; seg_len : Z }.
Record AmiBpfView := BpfView { v_wirelen : Z; v_caplen : Z; v_seg : list AmiBpfSeg }.

Definition ami_bpf_view_linear (frame : list Z) (len : Z) : AmiBpfView :=
  BpfView len len [BpfSeg frame len].

(** The view and the return value. *)
Definition ami_bpf_view_add (view : AmiBpfView) (base : list Z) (len : Z) : AmiBpfView * Z :=
  if AMI_BPF_MAX_SEGS <=? Z.of_nat (length (v_seg view)) then (view, -1)
  else if len =? 0 then (view, 0)
  else (BpfView (v_wirelen view +w len) (v_caplen view +w len)
                (v_seg view ++ [BpfSeg base len]), 0).

(** The loop of [ami_bpf_view_at] from the segment whose first byte is at
    [base]: the pointer (as the bytes it reads through and the index it stands
    at) and [*avail]. *)
Fixpoint view_at_from (segs : list AmiBpfSeg) (base off : Z) : option (list Z * Z * Z) :=
  match segs with
  | [] => None
  | s :: rest =>
      if off <? (base +w seg_len s)
      then Some (seg_base s, off -w base, (base +w seg_len s) -w off)
      else view_at_from rest (base +w seg_len s) off
  end.

Definition ami_bpf_view_at (view : AmiBpfView) (off : Z) : option (list Z * Z * Z) :=
  view_at_from (v_seg view) 0 off.

(** [for (i = 0; i < n; i++) value = (value << 8) | p[i]]. *)
Fixpoint load_run (p : list Z) (idx : Z) (n : nat) (value : Z) : outcome Z :=
  match n with
  | O => Val value
  | S n' => let! b := fetch p idx in load_run p (idx + 1) n' (Z.lor (value <<w 8) b)
  end.

(** The straddling loop: every byte is looked up afresh; [None] is FALSE. *)
Fixpoint load_straddle (view : AmiBpfView) (off i : Z) (n : nat) (value : Z)
  : outcome (option Z) :=
  match n with
  | O => Val (Some value)
  | S n' =>
      match ami_bpf_view_at view (off +w i) with
      | None => Val None
      | Some (p, idx, _) =>
          let! b := fetch p idx in
          load_straddle view off (i + 1) n' (Z.lor (value <<w 8) b)
      end
  end.

Definition ami_bpf_load (view : AmiBpfView) (off size : Z) : outcome (option Z) :=
  if size =? 0 then Val None
  else if (v_caplen view <? size) || ((v_caplen view -w size) <? off) then Val None
  else match ami_bpf_view_at view off with
       | None => Val None
       | Some (p, idx, avail) =>
           if size <=? avail
           then let! v := load_run p idx (Z.to_nat size) 0 in Val (Some v)
           else load_straddle view off 0 (Z.to_nat size) 0
       end.

Definition ami_bpf_size_bytes (code : Z) : Z :=
  if BPF_SIZE code =? BPF_W then 4
  else if BPF_SIZE code =? BPF_H then 2
  else if BPF_SIZE code =? BPF_B then 1
  else 0.

(** ** The interpreter

    The C function has one return value for every way a program is refused at
    run time.  The model keeps the ways apart ([bpf_why]) and forgets them again
    in [exit_value]. *)

Inductive bpf_why := WhyEncoding | WhyMemIndex | WhyLoad | WhyDivZero | WhyJump | WhyOffEnd.
Inductive bpf_exit := ExitRet (v : Z) | ExitReject (w : bpf_why).
Definition exit_value (e : bpf_exit) : Z :=
  match e with ExitRet v => v | ExitReject _ => 0 end.

Record bpf_regs := BpfRegs { r_A : Z; r_X : Z; r_pc : Z; r_mem : list Z }.
Inductive bpf_next := Goon (r : bpf_regs) | Stop (e : bpf_exit).

Definition set_A (r : bpf_regs) (v : Z) : bpf_regs := BpfRegs v (r_X r) (r_pc r) (r_mem r).
Definition set_X (r : bpf_regs) (v : Z) : bpf_regs := BpfRegs (r_A r) v (r_pc r) (r_mem r).
Definition set_pc (r : bpf_regs) (v : Z) : bpf_regs := BpfRegs (r_A r) (r_X r) v (r_mem r).
Definition set_mem (r : bpf_regs) (k v : Z) : bpf_regs :=
  BpfRegs (r_A r) (r_X r) (r_pc r) (<[Z.to_nat k := v]> (r_mem r)).

Definition refuse (w : bpf_why) : outcome bpf_next := Val (Stop (ExitReject w)).
Definition goon (r : bpf_regs) : outcome bpf_next := Val (Goon r).

Definition step_ld (view : AmiBpfView) (code k : Z) (r : bpf_regs) : outcome bpf_next :=
  let mode := BPF_MODE code in
  if mode =? BPF_IMM then goon (set_A r k)
  else if mode =? BPF_LEN then goon (set_A r (v_wirelen view))
  else if mode =? BPF_MEM then
    if BPF_MEMWORDS <=? k then refuse WhyMemIndex
    else let! m := fetch (r_mem r) k in goon (set_A r m)
  else if mode =? BPF_ABS then
    let! l := ami_bpf_load view k (ami_bpf_size_bytes code) in
    match l with None => refuse WhyLoad | Some v => goon (set_A r v) end
  else if mode =? BPF_IND then
    let tmp := r_X r +w k in
    if tmp <? r_X r then refuse WhyLoad
    else
      let! l := ami_bpf_load view tmp (ami_bpf_size_bytes code) in
      match l with None => refuse WhyLoad | Some v => goon (set_A r v) end
  else refuse WhyEncoding.

Definition step_ldx (view : AmiBpfView) (code k : Z) (r : bpf_regs) : outcome bpf_next :=
  let mode := BPF_MODE code in
  if mode =? BPF_IMM then goon (set_X r k)
  else if mode =? BPF_LEN then goon (set_X r (v_wirelen view))
  else if mode =? BPF_MEM then
    if BPF_MEMWORDS <=? k then refuse WhyMemIndex
    else let! m := fetch (r_mem r) k in goon (set_X r m)
  else if mode =? BPF_MSH then
    if negb (BPF_SIZE code =? BPF_B) then refuse WhyEncoding
    else
      let! l := ami_bpf_load view k 1 in
      match l with
      | None => refuse WhyLoad
      | Some tmp => goon (set_X r ((Z.land tmp 0x0F) <<w 2))
      end
  else refuse WhyEncoding.

Definition step_alu (code k : Z) (r : bpf_regs) : outcome bpf_next :=
  let operand := if BPF_SRC code =? BPF_X then r_X r else k in
  let op := BPF_OP code in
  let a := r_A r in
  if op =? BPF_ADD then goon (set_A r (a +w operand))
  else if op =? BPF_SUB then goon (set_A r (a -w operand))
  else if op =? BPF_MUL then goon (set_A r (a *w operand))
  else if op =? BPF_DIV then
    if operand =? 0 then refuse WhyDivZero else goon (set_A r (a / operand))
  else if op =? BPF_OR then goon (set_A r (Z.lor a operand))
  else if op =? BPF_AND then goon (set_A r (Z.land a operand))
  else if op =? BPF_LSH then goon (set_A r (if 31 <? operand then 0 else a <<w operand))
  else if op =? BPF_RSH then goon (set_A r (if 31 <? operand then 0 else Z.shiftr a operand))
  else if op =? BPF_NEG then goon (set_A r (0 -w a))
  else refuse WhyEncoding.

(** [count] and [r_pc r] are as the C code has them at the switch: [pc] already
    stands after the instruction. *)
Definition step_jmp (count : Z) (i : bpf_insn) (code k : Z) (r : bpf_regs) : outcome bpf_next :=
  let room := count -w r_pc r in
  let op := BPF_OP code in
  if op =? BPF_JA then
    if room <? k then refuse WhyJump else goon (set_pc r (r_pc r +w k))
  else
    let operand := if BPF_SRC code =? BPF_X then r_X r else k in
    let taken :=
      if op =? BPF_JGT then Some (operand <? r_A r)
      else if op =? BPF_JGE then Some (operand <=? r_A r)
      else if op =? BPF_JEQ then Some (r_A r =? operand)
      else if op =? BPF_JSET then Some (negb (Z.land (r_A r) operand =? 0))
      else None in
    match taken with
    | None => refuse WhyEncoding
    | Some t =>
        let jump := if t then bi_jt i else bi_jf i in
        if room <? jump then refuse WhyJump else goon (set_pc r (r_pc r +w jump))
    end.

Definition step_ret (code k : Z) (r : bpf_regs) : outcome bpf_next :=
  if BPF_RVAL code =? BPF_K then Val (Stop (ExitRet k))
  else if BPF_RVAL code =? BPF_A then Val (Stop (ExitRet (r_A r)))
  else refuse WhyEncoding.

Definition step_misc (code : Z) (r : bpf_regs) : outcome bpf_next :=
  if BPF_MISCOP code =? BPF_TAX then goon (set_X r (r_A r))
  else if BPF_MISCOP code =? BPF_TXA then goon (set_A r (r_X r))
  else refuse WhyEncoding.

(** The body of the [while (pc < count)] loop. *)
Definition bpf_step (insns : list bpf_insn) (count : Z) (view : AmiBpfView) (r0 : bpf_regs)
  : outcome bpf_next :=
  let! i := fetch insns (r_pc r0) in
  let code := bi_code i in
  let k := u32 (bi_k i) in
  let r := set_pc r0 (r_pc r0 +w 1) in
  let class := BPF_CLASS code in
  if class =? BPF_LD then step_ld view code k r
  else if class =? BPF_LDX then step_ldx view code k r
  else if class =? BPF_ST then
    if BPF_MEMWORDS <=? k then refuse WhyMemIndex else goon (set_mem r k (r_A r))
  else if class =? BPF_STX then
    if BPF_MEMWORDS <=? k then refuse WhyMemIndex else goon (set_mem r k (r_X r))
  else if class =? BPF_ALU then step_alu code k r
  else if class =? BPF_JMP then step_jmp count i code k r
  else if class =? BPF_RET then step_ret code k r
  else if class =? BPF_MISC then step_misc code r
  else refuse WhyEncoding.

Fixpoint bpf_loop (fuel : nat) (insns : list bpf_insn) (count : Z) (view : AmiBpfView)
    (r : bpf_regs) : outcome bpf_exit :=
  if r_pc r <? count then
    match fuel with
    | O => Spin
    | S fuel' =>
        let! n := bpf_step insns count view r in
        match n with
        | Stop e => Val e
        | Goon r' => bpf_loop fuel' insns count view r'
        end
    end
  else Val (ExitReject WhyOffEnd).

Definition bpf_regs0 : bpf_regs := BpfRegs 0 0 0 (replicate 16 0).

(** How the run of a program over a view ends; [pc] grows by at least one per
    iteration, so [count] iterations are fuel enough. *)
Definition bpf_run (insns : list bpf_insn) (count : Z) (view : AmiBpfView) : outcome bpf_exit :=
  bpf_loop (Z.to_nat count) insns count view bpf_regs0.

Definition ami_bpf_filter_view (insns : option (list bpf_insn)) (count : Z)
    (view : option AmiBpfView) : outcome Z :=
  match insns with
  | None => Val (u32 (-1))
  | Some prog =>
      if count =? 0 then Val (u32 (-1))
      else match view with
           | None => Val 0
           | Some v => let! e := bpf_run prog count v in Val (exit_value e)
           end
  end.

Definition ami_bpf_filter (insns : option (list bpf_insn)) (count : Z) (frame : list Z)
    (wirelen caplen : Z) : outcome Z :=
  ami_bpf_filter_view insns count (Some (BpfView wirelen caplen [BpfSeg frame caplen])).

(** ** What a view denotes *)

Definition seg_ok (s : AmiBpfSeg) : Prop :=
  0 <= seg_len s <= Z.of_nat (length (seg_base s)) /\ bytes_ok (seg_base s).
Definition seg_bytes (s : AmiBpfSeg) : list Z := take (Z.to_nat (seg_len s)) (seg_base s).
Definition flat (segs : list AmiBpfSeg) : list Z := concat (map seg_bytes segs).

(** A view the stack may hand to the interpreter: every segment lies in the
    memory it points into, and the lengths fit the [ULONG]s they are added in. *)
Definition view_ok (v : AmiBpfView) : Prop :=
  Forall seg_ok (v_seg v) /\ is_u32 (v_wirelen v) /\ is_u32 (v_caplen v) /\
  is_u32 (Z.of_nat (length (flat (v_seg v)))).

Lemma seg_bytes_length s : seg_ok s -> Z.of_nat (length (seg_bytes s)) = seg_len s.
Proof. intros [H _]. unfold seg_bytes. rewrite length_take. lia. Qed.

Lemma seg_bytes_ok s : seg_ok s -> bytes_ok (seg_bytes s).
Proof. intros [_ H]. by apply Forall_take. Qed.

Lemma flat_ok segs : Forall seg_ok segs -> bytes_ok (flat segs).
Proof.
  induction 1 as [|s r Hs Hr IH]; [constructor|].
  unfold flat; simpl. apply Forall_app; split; [by apply seg_bytes_ok|exact IH].
Qed.

(** [ami_bpf_view_at] finds the byte at [off] of the concatenation, and the
    [avail] bytes from there on can be read through the pointer it returns. *)
Lemma view_at_from_spec segs base off :
  Forall seg_ok segs -> 0 <= base <= off ->
  base + Z.of_nat (length (flat segs)) < 2 ^ 32 ->
  match view_at_from segs base off with
  | None => Z.of_nat (length (flat segs)) <= off - base
  | Some (p, idx, avail) =>
      0 <= idx /\ 0 < avail /\ off - base + avail <= Z.of_nat (length (flat segs)) /\
      forall j, 0 <= j < avail ->
        p !! Z.to_nat (idx + j) = flat segs !! Z.to_nat (off - base + j)
  end.
Proof.
  intros Hs. revert base. induction Hs as [|s r Hs Hr IH]; intros base Hb Hlen; simpl; [lia|].
  unfold flat in *; simpl in *. rewrite length_app in *.
  pose proof (seg_bytes_length s Hs) as Hl.
  rewrite (u32_small (base + seg_len s)) by word_lia.
  destruct (Z.ltb_spec off (base + seg_len s)).
  - rewrite !u32_small by word_lia. repeat split; [lia..|].
    intros j Hj. rewrite lookup_app_l by lia. unfold seg_bytes. rewrite lookup_take_lt by lia.
    done.
  - specialize (IH (base + seg_len s) ltac:(lia) ltac:(lia)).
    destruct (view_at_from r (base + seg_len s) off) as [[[p idx] avail]|]; [|lia].
    destruct IH as (H0 & H1 & H2 & H3). repeat split; [lia..|].
    intros j Hj. rewrite H3 by done. rewrite lookup_app_r by lia. f_equal. lia.
Qed.

Lemma load_run_spec p idx n value bs :
  0 <= idx -> length bs = n ->
  (forall j, 0 <= j < Z.of_nat n -> p !! Z.to_nat (idx + j) = bs !! Z.to_nat j) ->
  load_run p idx n value = Val (be_join value bs).
Proof.
  revert idx value bs. induction n as [|n IH]; intros idx value bs Hi Hl Hj;
    destruct bs as [|b bs]; simpl in *; try done.
  rewrite (fetch_lookup p idx b); [simpl|lia|].
  - apply IH; [lia|lia|]. intros j Hj'. specialize (Hj (j + 1) ltac:(lia)).
    replace (idx + (j + 1)) with (idx + 1 + j) in Hj by lia. rewrite Hj.
    replace (Z.to_nat (j + 1)) with (S (Z.to_nat j)) by lia. done.
  - specialize (Hj 0 ltac:(lia)). rewrite Z.add_0_r in Hj. exact Hj.
Qed.

Lemma load_straddle_spec v off i n value :
  view_ok v -> is_u32 off -> 0 <= i -> is_u32 (off + i + Z.of_nat n) ->
  load_straddle v off i n value =
  if off + i + Z.of_nat n <=? Z.of_nat (length (flat (v_seg v)))
  then Val (Some (be_join value (slice (flat (v_seg v)) (off + i) (Z.of_nat n))))
  else if (n =? 0)%nat then Val (Some value) else Val None.
Proof.
  intros (Hs & _ & _ & Hf) Hoff. revert i value.
  induction n as [|n IH]; intros i value Hi Hr.
  { simpl. unfold slice. simpl. by destruct (_ <=? _). }
  simpl load_straddle. rewrite (u32_small (off + i)) by word_lia. unfold ami_bpf_view_at.
  pose proof (view_at_from_spec (v_seg v) 0 (off + i) Hs ltac:(word_lia) ltac:(word_lia)) as Hv.
  destruct (view_at_from _ _ _) as [[[p idx] avail]|].
  - destruct Hv as (H0 & H1 & H2 & H3). specialize (H3 0 ltac:(lia)).
    rewrite Z.add_0_r, Z.sub_0_r, Z.add_0_r in H3.
    destruct (lookup_lt_is_Some_2 (flat (v_seg v)) (Z.to_nat (off + i))) as [b Hb].
    { word_lia. }
    rewrite (fetch_lookup p idx b) by (lia || congruence). simpl.
    rewrite IH by word_lia.
    destruct (Z.leb_spec (off + (i + 1) + Z.of_nat n) (Z.of_nat (length (flat (v_seg v)))));
      destruct (Z.leb_spec (off + i + Z.of_nat (S n)) (Z.of_nat (length (flat (v_seg v))))); try lia.
    + do 2 f_equal. unfold slice. replace (Z.to_nat (Z.of_nat (S n))) with (S n) by lia.
      rewrite (drop_S _ b _ Hb). simpl. rewrite Nat2Z.id.
      by replace (Z.to_nat (off + (i + 1))) with (S (Z.to_nat (off + i))) by word_lia.
    + destruct n as [|n]; [word_lia|]. done.
  - destruct (Z.leb_spec (off + i + Z.of_nat (S n)) (Z.of_nat (length (flat (v_seg v))))); [word_lia|].
    done.
Qed.

(** The packet load in terms of the bytes the view denotes. *)
Definition load_flat (bytes : list Z) (caplen off size : Z) : option Z :=
  if (0 <? size) && (off + size <=? Z.min caplen (Z.of_nat (length bytes)))
  then Some (be_join 0 (slice bytes off size)) else None.

Lemma ami_bpf_load_flat v off size :
  view_ok v -> is_u32 off -> 0 <= size <= 4 ->
  ami_bpf_load v off size = Val (load_flat (flat (v_seg v)) (v_caplen v) off size).
Proof.
  intros Hv Hoff Hsz. pose proof Hv as (Hs & Hw & Hc & Hf).
  unfold ami_bpf_load, load_flat.
  destruct (Z.eqb_spec size 0) as [->|Hn]; [done|].
  destruct (Z.ltb_spec 0 size); [|lia]. simpl andb.
  destruct (Z.ltb_spec (v_caplen v) size) as [Hlt|Hge]; simpl orb; [by bcases|].
  rewrite (u32_small (v_caplen v - size)) by word_lia.
  destruct (Z.ltb_spec (v_caplen v - size) off) as [Hlt|Hle]; [by bcases|].
  unfold ami_bpf_view_at.
  pose proof (view_at_from_spec (v_seg v) 0 off Hs ltac:(word_lia) ltac:(word_lia)) as Hva.
  destruct (view_at_from _ _ _) as [[[p idx] avail]|]; [|by bcases].
  destruct Hva as (Hi & Ha & Hb & Hj). rewrite Z.sub_0_r in *.
  destruct (Z.leb_spec size avail).
  - rewrite (load_run_spec p idx _ 0 (slice (flat (v_seg v)) off size)); [by bcases|lia| |].
    + unfold slice. rewrite length_take, length_drop. word_lia.
    + intros j Hj'. unfold slice. rewrite lookup_take_lt by lia. rewrite lookup_drop.
      rewrite Hj by lia. f_equal. word_lia.
  - rewrite load_straddle_spec by (done || word_lia).
    rewrite Z.add_0_r, Z2Nat.id by lia.
    destruct (Nat.eqb_spec (Z.to_nat size) 0); [lia|]. by bcases.
Qed.

(** ** Steps

    [step_ok] is the safety and progress of one iteration: no access leaves its
    object, the registers stay 32-bit words, and [pc] moves forward without
    leaving the program. *)

Definition insn_ok (i : bpf_insn) : Prop := is_u8 (bi_jt i) /\ is_u8 (bi_jf i).
Definition regs_ok (r : bpf_regs) : Prop :=
  is_u32 (r_A r) /\ is_u32 (r_X r) /\ length (r_mem r) = 16%nat /\ Forall is_u32 (r_mem r).

Definition next_ok (count pc : Z) (n : bpf_next) : Prop :=
  match n with
  | Goon r => regs_ok r /\ pc < r_pc r <= count
  | Stop e => is_u32 (exit_value e)
  end.

Lemma size_bytes_range code : 0 <= ami_bpf_size_bytes code <= 4.
Proof. unfold ami_bpf_size_bytes. repeat case_match; lia. Qed.

Lemma load_flat_range v off size x :
  view_ok v -> load_flat (flat (v_seg v)) (v_caplen v) off size = Some x -> is_u32 x.
Proof.
  intros (Hs & _) H. unfold load_flat in H. case_match; [|done]. simplify_eq.
  apply be_join_range; [word_lia|]. apply Forall_take, Forall_drop, flat_ok, Hs.
Qed.

Lemma regs_set_A r v : regs_ok r -> is_u32 v -> regs_ok (set_A r v).
Proof. unfold regs_ok; simpl; tauto. Qed.
Lemma regs_set_X r v : regs_ok r -> is_u32 v -> regs_ok (set_X r v).
Proof. unfold regs_ok; simpl; tauto. Qed.
Lemma regs_set_pc r v : regs_ok r -> regs_ok (set_pc r v).
Proof. unfold regs_ok; simpl; tauto. Qed.
Lemma regs_set_mem r k v : regs_ok r -> is_u32 v -> regs_ok (set_mem r k v).
Proof.
  intros (?&?&?&?) ?. unfold regs_ok; simpl; split_and!; try done.
  - by rewrite length_insert.
  - by apply Forall_insert.
Qed.
#[export] Hint Resolve regs_set_A regs_set_X regs_set_pc regs_set_mem : word.

Lemma mem_fetch r k :
  regs_ok r -> is_u32 k -> (16 <=? k) = false ->
  exists m, fetch (r_mem r) k = Val m /\ is_u32 m.
Proof.
  intros (_&_&Hl&Hf) Hk Hb. apply Z.leb_gt in Hb.
  destruct (fetch_val (r_mem r) k) as (m & Hm & Hlk); [rewrite Hl; word_lia|].
  exists m. split; [done|]. by eapply Forall_lookup_1.
Qed.

Section Step.
Context (view : AmiBpfView) (Hview : view_ok view).
Context (count : Z) (Hcount : is_u32 count).

(** Every branch of the per-class steps: the register file [r] already has the
    incremented [pc]. *)
Let good (pc : Z) (o : outcome bpf_next) : Prop := exists n, o = Val n /\ next_ok count pc n.

Lemma good_refuse pc w : good pc (refuse w).
Proof. eexists; split; [done|]. simpl. word_lia. Qed.
Lemma good_goon pc r : regs_ok r -> pc < r_pc r <= count -> good pc (goon r).
Proof. intros. eexists; split; [done|]. by split. Qed.

Lemma good_load pc off size (f : Z -> bpf_regs) :
  is_u32 off -> 0 <= size <= 4 ->
  (forall x, is_u32 x -> regs_ok (f x) /\ pc < r_pc (f x) <= count) ->
  good pc (let! l := ami_bpf_load view off size in
           match l with None => refuse WhyLoad | Some x => goon (f x) end).
Proof.
  intros Ho Hsz Hf. rewrite ami_bpf_load_flat by done. simpl.
  destruct (load_flat _ _ _ _) as [x|] eqn:E; [|apply good_refuse].
  apply load_flat_range in E; [|done]. apply good_goon; by apply Hf.
Qed.

Context (code k : Z) (Hk : is_u32 k) (r : bpf_regs) (Hr : regs_ok r).
Context (pc : Z) (Hpc0 : 0 <= pc) (Hpc : r_pc r = pc + 1) (Hle : pc + 1 <= count).

Lemma step_ld_good : good pc (step_ld view code k r).
Proof.
  pose proof Hr as (HA & HX & _). pose proof Hview as (_ & Hw & _).
  unfold step_ld. repeat case_match;
    try (apply good_refuse); try (apply good_goon; simpl; [by auto with word|lia]).
  - destruct (mem_fetch r k) as (m & -> & Hm); try done. simpl.
    apply good_goon; simpl; [by auto with word|lia].
  - apply good_load; [done|apply size_bytes_range|]. intros; split; [by auto with word|simpl; lia].
  - apply good_load; [by auto with word|apply size_bytes_range|].
    intros; split; [by auto with word|simpl; lia].
Qed.

Lemma step_ldx_good : good pc (step_ldx view code k r).
Proof.
  pose proof Hr as (HA & HX & _). pose proof Hview as (_ & Hw & _).
  unfold step_ldx. repeat case_match;
    try (apply good_refuse); try (apply good_goon; simpl; [by auto with word|lia]).
  - destruct (mem_fetch r k) as (m & -> & Hm); try done. simpl.
    apply good_goon; simpl; [by auto with word|lia].
  - apply good_load; [done|lia|]. intros; split; [by auto with word|simpl; lia].
Qed.

Lemma step_alu_good : good pc (step_alu code k r).
Proof.
  pose proof Hr as (HA & HX & _). unfold step_alu.
  set (operand := if BPF_SRC code =? BPF_X then r_X r else k).
  assert (Hop : is_u32 operand) by (unfold operand; by case_match).
  repeat case_match; try (apply good_refuse); apply good_goon; simpl; try lia;
    apply regs_set_A; auto with word.
  - apply u32_div; [done|]. word_lia.
  - apply u32_land; word_lia.
  - word_lia.
  - word_lia.
  - apply u32_shiftr; word_lia.
Qed.

Lemma step_ret_good : good pc (step_ret code k r).
Proof.
  pose proof Hr as (HA & _). unfold step_ret. repeat case_match; try apply good_refuse;
    eexists; split; try done; by simpl.
Qed.

Lemma step_misc_good : good pc (step_misc code r).
Proof.
  pose proof Hr as (HA & HX & _). unfold step_misc.
  repeat case_match; try apply good_refuse; apply good_goon; simpl; try lia; auto with word.
Qed.

Lemma step_jmp_good i : insn_ok i -> good pc (step_jmp count i code k r).
Proof.
  intros [Ht Hf]. unfold step_jmp. rewrite (u32_small (count - r_pc r)) by word_lia.
  assert (Hj : forall j, is_u32 j ->
    good pc (if count - r_pc r <? j then refuse WhyJump else goon (set_pc r (r_pc r +w j)))).
  { intros j Hj. bcase; [apply good_refuse|].
    apply good_goon; [by auto with word|]. simpl. rewrite u32_small by word_lia. word_lia. }
  destruct (BPF_OP code =? BPF_JA); [by apply Hj|].
  match goal with |- good _ (match ?o with _ => _ end) => destruct o as [t|] end;
    [|apply good_refuse].
  apply Hj. destruct t; auto with word.
Qed.
End Step.

Lemma bpf_step_ok insns view r :
  view_ok view -> Forall insn_ok insns -> is_u32 (Z.of_nat (length insns)) ->
  regs_ok r -> 0 <= r_pc r < Z.of_nat (length insns) ->
  exists n, bpf_step insns (Z.of_nat (length insns)) view r = Val n /\
            next_ok (Z.of_nat (length insns)) (r_pc r) n.
Proof.
  intros Hv Hi Hc Hr Hpc. unfold bpf_step.
  destruct (fetch_val insns (r_pc r)) as (i & -> & Hlk); [lia|]. simpl.
  pose proof (Forall_lookup_1 _ _ _ _ Hi Hlk) as Hiok.
  rewrite (u32_small (r_pc r + 1)) by word_lia.
  assert (Hr' : regs_ok (set_pc r (r_pc r + 1))) by auto with word.
  pose proof Hr as (HA & HX & _).
  repeat case_match.
  - apply step_ld_good; auto with word; simpl; lia.
  - apply step_ldx_good; auto with word; simpl; lia.
  - by apply good_refuse.
  - apply good_goon; [by auto with word|simpl; lia].
  - by apply good_refuse.
  - apply good_goon; [by auto with word|simpl; lia].
  - apply step_alu_good; auto with word; simpl; lia.
  - apply step_jmp_good; auto with word; simpl; lia.
  - apply step_ret_good; auto with word; simpl; lia.
  - apply step_misc_good; auto with word; simpl; lia.
  - by apply good_refuse.
Qed.

Lemma bpf_loop_total fuel insns view r :
  view_ok view -> Forall insn_ok insns -> is_u32 (Z.of_nat (length insns)) ->
  regs_ok r -> 0 <= r_pc r -> Z.of_nat (length insns) <= r_pc r + Z.of_nat fuel ->
  exists e, bpf_loop fuel insns (Z.of_nat (length insns)) view r = Val e /\
            is_u32 (exit_value e).
Proof.
  intros Hv Hi Hc. revert r. induction fuel as [|fuel IH]; intros r Hr Hpc Hf; simpl.
  - bcase; [lia|]. eexists; split; [done|]. simpl; word_lia.
  - bcase; [|eexists; split; [done|]; simpl; word_lia].
    destruct (bpf_step_ok insns view r) as (n & -> & Hn); auto with lia.
    simpl. destruct n as [r'|e]; [|eauto].
    destruct Hn as [Hr' Hpc']. apply IH; [done|lia|lia].
Qed.

Lemma bpf_regs0_ok : regs_ok bpf_regs0.
Proof. unfold regs_ok; simpl. split_and!; try word_lia; repeat constructor; word_lia. Qed.

Lemma bpf_run_total insns view :
  view_ok view -> Forall insn_ok insns -> is_u32 (Z.of_nat (length insns)) ->
  exists e, bpf_run insns (Z.of_nat (length insns)) view = Val e /\ is_u32 (exit_value e).
Proof.
  intros. apply bpf_loop_total; auto using bpf_regs0_ok; simpl; lia.
Qed.

(** An accept-IP filter ([ldh [12]; jeq #0x800; ret #96; ret #0]) and a frame cut
    inside its type field. *)
Definition ip_filter : list bpf_insn :=
  [BpfInsn 0x28 0 0 12; BpfInsn 0x15 0 1 0x800; BpfInsn 6 0 0 96; BpfInsn 6 0 0 0].
Definition cut_frame : AmiBpfView :=
  BpfView 60 16 [BpfSeg (replicate 12 255 ++ [8]) 13; BpfSeg [0; 69; 0] 3].

Lemma ip_filter_ok : Forall insn_ok ip_filter.
Proof. by repeat constructor. Qed.
Lemma cut_frame_ok : view_ok cut_frame.
Proof.
  split_and!; simpl; [|word_lia..].
  do 2 (constructor; [split; [simpl; lia|unfold bytes_ok; simpl; repeat (constructor; [word_lia|]); constructor]|]).
  constructor.
Qed.



(** ** Scatter views and linear frames *)

Definition same_loads (v1 v2 : AmiBpfView) : Prop :=
  v_wirelen v1 = v_wirelen v2 /\
  forall off size, is_u32 off -> 0 <= size <= 4 -> ami_bpf_load v1 off size = ami_bpf_load v2 off size.

Lemma bpf_step_same_loads insns count v1 v2 r :
  same_loads v1 v2 -> bpf_step insns count v1 r = bpf_step insns count v2 r.
Proof.
  intros [Hw Hl]. unfold bpf_step. destruct (fetch insns (r_pc r)) as [i| |]; simpl; try done.
  assert (Hld : forall off code, is_u32 off ->
    ami_bpf_load v1 off (ami_bpf_size_bytes code) = ami_bpf_load v2 off (ami_bpf_size_bytes code))
    by (intros; apply Hl; [done|apply size_bytes_range]).
  unfold step_ld, step_ldx. rewrite Hw.
  repeat (case_match; try done); try (rewrite Hld by auto with word; done).
  all: rewrite Hl by (lia || auto with word); done.
Qed.

Lemma bpf_loop_same_loads fuel insns count v1 v2 r :
  same_loads v1 v2 -> bpf_loop fuel insns count v1 r = bpf_loop fuel insns count v2 r.
Proof.
  intros H. revert r. induction fuel as [|fuel IH]; intros r; simpl; [done|].
  rewrite (bpf_step_same_loads _ _ _ _ _ H). case_match; [|done].
  destruct (bpf_step insns count v2 r) as [[r'|e]| |]; simpl; auto.
Qed.

#[export] Instance same_loads_equiv : Equivalence same_loads.
Proof.
  split.
  - intros v. by split.
  - intros v1 v2 [Hw Hl]. split; [done|]. intros. symmetry. by apply Hl.
  - intros v1 v2 v3 [Hw Hl] [Hw' Hl']. split; [congruence|]. intros. rewrite Hl by done. by apply Hl'.
Qed.

#[export] Instance bpf_run_proper insns count : Proper (same_loads ==> eq) (bpf_run insns count).
Proof. intros v1 v2 H. by apply bpf_loop_same_loads. Qed.

Lemma load_flat_take bytes caplen off size :
  is_u32 off ->
  0 <= caplen <= Z.of_nat (length bytes) ->
  load_flat (take (Z.to_nat caplen) bytes) caplen off size = load_flat bytes caplen off size.
Proof.
  intros Ho Hc. unfold load_flat. rewrite length_take.
  replace (Z.min caplen (Z.of_nat (Z.to_nat caplen `min` length bytes))) with caplen by lia.
  rewrite Z.min_l by lia. destruct (Z.ltb_spec 0 size); simpl; [|done]. bcase; [|done].
  do 2 f_equal. unfold slice. rewrite skipn_firstn_comm, take_take. f_equal. word_lia.
Qed.

Lemma linear_same_loads v :
  view_ok v -> v_caplen v <= Z.of_nat (length (flat (v_seg v))) ->
  same_loads v (BpfView (v_wirelen v) (v_caplen v) [BpfSeg (flat (v_seg v)) (v_caplen v)]).
Proof.
  intros Hv Hc. pose proof Hv as (Hs & Hw & Hcap & Hf). split; [done|]. intros off size Ho Hsz.
  assert (Hflat : flat [BpfSeg (flat (v_seg v)) (v_caplen v)] =
                  take (Z.to_nat (v_caplen v)) (flat (v_seg v))).
  { unfold flat at 1. simpl. by rewrite app_nil_r. }
  rewrite !ami_bpf_load_flat; try done.
  - simpl v_seg. simpl v_caplen. rewrite Hflat, load_flat_take; try done. word_lia.
  - unfold view_ok. simpl v_seg. rewrite Hflat, length_take. simpl.
    split_and!; try done; [|word_lia].
    constructor; [|constructor]. split; simpl; [word_lia|]. by apply flat_ok.
Qed.

(** Filtering the scatter view of a packet gives the verdict of filtering the
    same bytes laid out in one buffer, however the segments cut the packet. *)
Theorem filter_view_linear insns count v :
  view_ok v -> v_caplen v <= Z.of_nat (length (flat (v_seg v))) ->
  ami_bpf_filter_view insns count (Some v) =
  ami_bpf_filter insns count (flat (v_seg v)) (v_wirelen v) (v_caplen v).
Proof.
  intros Hv Hc. unfold ami_bpf_filter, ami_bpf_filter_view.
  destruct insns as [prog|]; [|done]. bcase; [done|].
  pose proof (linear_same_loads v Hv Hc) as E. revert E.
  generalize (BpfView (v_wirelen v) (v_caplen v) [BpfSeg (flat (v_seg v)) (v_caplen v)]).
  intros v' E. by rewrite E.
Qed.

Lemma filter_view_linear_witness :
  ami_bpf_filter (Some ip_filter) 4 (flat (v_seg cut_frame)) 60 16 = Val 96.
Proof.
  transitivity (ami_bpf_filter_view (Some ip_filter) 4 (Some cut_frame)); [symmetry|reflexivity].
  apply (filter_view_linear (Some ip_filter) 4 cut_frame cut_frame_ok). simpl; lia.
Defined.
