(* ===== verification/BpfValidate.v ===== *)
(** The load-time BPF validator (src/src/bpf/bpf_validate.c) and what a validated
    program can do in the interpreter of [BpfFilter]. *)

From Stdlib Require Import ZArith Lia.
From stdpp Require Import base numbers list.
From S2P Require Import Prelude BpfFilter.

(** The body of the loop, for an instruction with [room] instructions after it:
    [false] is [return -1]. *)
Definition insn_valid (room : Z) (p : bpf_insn) : bool :=
  let code := bi_code p in
  let k := u32 (bi_k p) in
  let class := BPF_CLASS code in
  if (class =? BPF_LD) || (class =? BPF_LDX) then
    let mode := BPF_MODE code in
    if (mode =? BPF_ABS) || (mode =? BPF_IND) then
      negb (negb (class =? BPF_LD) || (ami_bpf_size_bytes code =? 0))
    else if (mode =? BPF_IMM) || (mode =? BPF_LEN) then
      negb (negb (BPF_SIZE code =? BPF_W))
    else if mode =? BPF_MEM then
      negb (negb (BPF_SIZE code =? BPF_W) || (BPF_MEMWORDS <=? k))
    else if mode =? BPF_MSH then
      negb (negb (class =? BPF_LDX) || negb (BPF_SIZE code =? BPF_B))
    else false
  else if (class =? BPF_ST) || (class =? BPF_STX) then
    if negb (BPF_SIZE code =? 0) || negb (BPF_MODE code =? 0) then false
    else negb (BPF_MEMWORDS <=? k)
  else if class =? BPF_ALU then
    let op := BPF_OP code in
    if (op =? BPF_ADD) || (op =? BPF_SUB) || (op =? BPF_MUL) || (op =? BPF_OR) ||
       (op =? BPF_AND) || (op =? BPF_LSH) || (op =? BPF_RSH) then true
    else if op =? BPF_DIV then negb ((BPF_SRC code =? BPF_K) && (k =? 0))
    else if op =? BPF_NEG then true
    else false
  else if class =? BPF_JMP then
    let op := BPF_OP code in
    if op =? BPF_JA then negb (room <=? k)
    else if (op =? BPF_JEQ) || (op =? BPF_JGT) || (op =? BPF_JGE) || (op =? BPF_JSET) then
      negb ((room <=? bi_jt p) || (room <=? bi_jf p))
    else false
  else if class =? BPF_RET then (BPF_RVAL code =? BPF_K) || (BPF_RVAL code =? BPF_A)
  else if class =? BPF_MISC then (BPF_MISCOP code =? BPF_TAX) || (BPF_MISCOP code =? BPF_TXA)
  else false.

(** [for (i = 0; i < count; i++)], from [i] with [n] iterations left. *)
Fixpoint validate_from (insns : list bpf_insn) (count i : Z) (n : nat) : outcome bool :=
  match n with
  | O => Val true
  | S n' =>
      let! p := fetch insns i in
      if insn_valid (count -w (i +w 1)) p
      then validate_from insns count (i + 1) n' else Val false
  end.

Definition ami_bpf_validate (insns : option (list bpf_insn)) (count : Z) : outcome Z :=
  match insns with
  | None => Val (-1)
  | Some prog =>
      if (count =? 0) || (BPF_MAXINSNS <? count) then Val (-1)
      else
        let! ok := validate_from prog count 0 (Z.to_nat count) in
        if negb ok then Val (-1)
        else
          let! last := fetch prog (count -w 1) in
          if negb (BPF_CLASS (bi_code last) =? BPF_RET) then Val (-1) else Val 0
  end.

(** ** What acceptance means *)

Definition program_valid (prog : list bpf_insn) : Prop :=
  (1 <= length prog <= 512)%nat /\
  (forall i p, prog !! i = Some p ->
     insn_valid (Z.of_nat (length prog) - (Z.of_nat i + 1)) p = true) /\
  (exists p, last prog = Some p /\ BPF_CLASS (bi_code p) = BPF_RET).

Lemma validate_from_spec prog i n :
  (length prog <= 512)%nat -> (i + n = length prog)%nat ->
  exists b, validate_from prog (Z.of_nat (length prog)) (Z.of_nat i) n = Val b /\
    (b = true <-> forall j p, (i <= j)%nat -> prog !! j = Some p ->
       insn_valid (Z.of_nat (length prog) - (Z.of_nat j + 1)) p = true).
Proof.
  intros Hl. revert i. induction n as [|n IH]; intros i Hi; simpl.
  - exists true. split; [done|]. split; [|done]. intros _ j p Hj Hp.
    apply lookup_lt_Some in Hp. lia.
  - destruct (fetch_val prog (Z.of_nat i)) as (p & -> & Hp); [lia|]. simpl.
    rewrite Nat2Z.id in Hp.
    rewrite (u32_small (Z.of_nat i + 1)) by word_lia. rewrite u32_small by word_lia.
    destruct (insn_valid _ p) eqn:E.
    + replace (Z.of_nat i + 1) with (Z.of_nat (S i)) by lia.
      destruct (IH (S i) ltac:(lia)) as (b & -> & Hb). exists b. split; [done|].
      rewrite Hb. split; [|auto with lia].
      intros Hall j q Hj Hq. destruct (decide (j = i)) as [->|]; [|apply Hall; auto with lia].
      congruence.
    + exists false. split; [done|]. split; [done|]. intros Hall.
      specialize (Hall i p ltac:(lia) Hp). congruence.
Qed.

Lemma validate_iff prog :
  exists s, ami_bpf_validate (Some prog) (Z.of_nat (length prog)) = Val s /\
    (s = 0 \/ s = -1) /\ (s = 0 <-> program_valid prog).
Proof.
  unfold ami_bpf_validate, program_valid.
  destruct ((Z.of_nat (length prog) =? 0) || (512 <? Z.of_nat (length prog))) eqn:E.
  { exists (-1). split_and!; [done|by right|]. split; [done|]. lia. }
  destruct (validate_from_spec prog 0 (length prog)) as (b & Hb & Hall); [lia|lia|].
  change (Z.of_nat 0) with 0 in Hb. rewrite Nat2Z.id, Hb. simpl.
  destruct b; simpl.
  - rewrite u32_small by word_lia.
    destruct (fetch_val prog (Z.of_nat (length prog) - 1)) as (p & -> & Hp); [lia|]. simpl.
    assert (Hlast : last prog = Some p).
    { rewrite last_lookup, <- Hp. f_equal. lia. }
    destruct (Z.eqb_spec (BPF_CLASS (bi_code p)) 6) as [Hc|Hc]; simpl.
    + exists 0. split_and!; [done|by left|]. split; [intros _|done].
      split_and!; [lia|lia| |eauto]. intros i q Hq. by apply (proj1 Hall eq_refl); [lia|].
    + exists (-1). split_and!; [done|by right|]. split; [done|].
      intros (_ & _ & q & Hq & Hq'). congruence.
  - exists (-1). split_and!; [done|by right|]. split; [done|].
    intros (_ & Hv & _). assert (false = true) by (apply Hall; intros; by apply Hv). done.
Qed.

(** ** Running a valid program

    [settled] are the exits left to a valid program: a return, or a refusal that
    depends on the packet (a load past its end, a divisor in X that is zero). *)

Definition settled (e : bpf_exit) : Prop :=
  match e with
  | ExitRet _ => True
  | ExitReject w => w = WhyLoad \/ w = WhyDivZero
  end.

(** [fine count pc n]: [n] goes on to the next instruction or to a later one
    inside the program, or it is settled. *)
Definition fine (count pc : Z) (n : bpf_next) : Prop :=
  match n with
  | Goon r => r_pc r < count \/ r_pc r = pc + 1
  | Stop e => settled e
  end.

Lemma fine_load view off size (f : Z -> bpf_regs) count pc n :
  (forall x, r_pc (f x) = pc + 1) ->
  (let! l := ami_bpf_load view off size in
   match l with None => refuse WhyLoad | Some x => goon (f x) end) = Val n ->
  fine count pc n.
Proof.
  intros Hf. destruct (ami_bpf_load view off size) as [[x|]| |]; simpl; unfold refuse, goon;
    intros H; simplify_eq; simpl; auto.
Qed.

Lemma fine_fetch mem k (f : Z -> bpf_regs) count pc n :
  (forall x, r_pc (f x) = pc + 1) ->
  (let! m := fetch mem k in goon (f m)) = Val n -> fine count pc n.
Proof.
  intros Hf. destruct (fetch mem k); simpl; unfold goon; intros H; simplify_eq; simpl; auto.
Qed.

Lemma step_jmp_fine count pc i r n :
  is_u32 count -> 0 <= r_pc r <= count -> insn_ok i ->
  BPF_CLASS (bi_code i) = BPF_JMP -> insn_valid (count - r_pc r) i = true ->
  step_jmp count i (bi_code i) (u32 (bi_k i)) r = Val n ->
  fine count pc n.
Proof.
  intros Hc Hp [Ht Hf] Hcl. unfold insn_valid, step_jmp. rewrite Hcl. simpl.
  rewrite (u32_small (count - r_pc r)) by word_lia.
  assert (Hj : forall j, is_u32 j -> j < count - r_pc r ->
    (if count - r_pc r <? j then refuse WhyJump else goon (set_pc r (r_pc r +w j))) = Val n ->
    fine count pc n).
  { intros j Hj Hlt. bcase; [lia|]. unfold goon. intros E; injection E as <-. simpl. left.
    rewrite u32_small by word_lia. lia. }
  destruct (BPF_OP (bi_code i) =? BPF_JA) eqn:Hop.
  { intros Hv. apply Hj; [by auto with word|lia]. }
  intros Hv. 
  match goal with |- (match ?o with _ => _ end) = _ -> _ => destruct o as [t|] eqn:Ho end.
  - apply Hj; [destruct t; auto with word|].
    destruct ((BPF_OP (bi_code i) =? BPF_JEQ) || (BPF_OP (bi_code i) =? BPF_JGT) ||
      (BPF_OP (bi_code i) =? BPF_JGE) || (BPF_OP (bi_code i) =? BPF_JSET)); [|done].
    destruct t; lia.
  - exfalso. by repeat (case_match; try done).
Qed.

Lemma bpf_step_fine prog view r i n :
  is_u32 (Z.of_nat (length prog)) -> Forall insn_ok prog ->
  0 <= r_pc r < Z.of_nat (length prog) ->
  prog !! Z.to_nat (r_pc r) = Some i ->
  insn_valid (Z.of_nat (length prog) - (r_pc r + 1)) i = true ->
  bpf_step prog (Z.of_nat (length prog)) view r = Val n ->
  fine (Z.of_nat (length prog)) (r_pc r) n /\
  (BPF_CLASS (bi_code i) = BPF_RET -> forall r', n <> Goon r').
Proof.
  intros Hc Hok Hpc Hi Hv. unfold bpf_step.
  rewrite (fetch_lookup _ _ _ (proj1 Hpc) Hi). simpl.
  rewrite (u32_small (r_pc r + 1)) by word_lia.
  pose proof (Forall_lookup_1 _ _ _ _ Hok Hi) as Hiok.
  destruct (Z.eqb_spec (BPF_CLASS (bi_code i)) 5) as [Hcl|Hcl].
  { rewrite Hcl. simpl. intros H. split; [|intros; exfalso; lia].
    apply (step_jmp_fine _ _ i (set_pc r (r_pc r + 1))); simpl; auto with lia. }
  revert Hv. unfold insn_valid, step_ld, step_ldx, step_alu, step_ret, step_misc.
  destruct (Z.eqb_spec (BPF_CLASS (bi_code i)) 0) as [E0|E0]; simpl;
    [|destruct (Z.eqb_spec (BPF_CLASS (bi_code i)) 1) as [E1|E1]; simpl].
  1,2: intros Hv H; split; [|intros; exfalso; lia]; revert H;
    repeat (case_match; simpl in *; try done);
    try (by apply fine_load); try (by apply fine_fetch);
    unfold goon, refuse; intros; simplify_eq; simpl; auto; exfalso; lia.
  repeat (case_match; simpl in *; try done);
    unfold goon, refuse; intros; simplify_eq; simpl; split; intros; auto; exfalso; lia.
Qed.

Lemma bpf_loop_settled fuel prog view r :
  view_ok view -> Forall insn_ok prog -> program_valid prog ->
  regs_ok r -> 0 <= r_pc r < Z.of_nat (length prog) ->
  Z.of_nat (length prog) <= r_pc r + Z.of_nat fuel ->
  exists e, bpf_loop fuel prog (Z.of_nat (length prog)) view r = Val e /\ settled e.
Proof.
  intros Hv Hok (Hlen & Hval & p & Hlast & Hret). revert r.
  induction fuel as [|fuel IH]; intros r Hr Hpc Hf; simpl; [lia|]. bcase; [|lia].
  assert (Hc : is_u32 (Z.of_nat (length prog))) by word_lia.
  destruct (lookup_lt_is_Some_2 prog (Z.to_nat (r_pc r))) as [i Hi]; [lia|].
  destruct (bpf_step_ok prog view r) as (n & Hn & Hnok); [done..|].
  pose proof (Hval _ _ Hi) as Hvi. rewrite Z2Nat.id in Hvi by lia.
  destruct (bpf_step_fine prog view r i n) as (Hs & Hnr); [done..|].
  rewrite Hn. simpl. destruct n as [r'|e]; [|by eauto].
  destruct Hnok as [Hr' Hpc']. apply IH; [done| |lia]. split; [lia|].
  destruct Hs as [?|Heq]; [done|].
  destruct (decide (r_pc r' = Z.of_nat (length prog))) as [Hend|]; [|lia].
  exfalso. apply (fun H => Hnr H r' eq_refl).
  rewrite last_lookup in Hlast. replace (Nat.pred (length prog)) with (Z.to_nat (r_pc r)) in Hlast by lia.
  congruence.
Qed.


