(* ===== verification/BpfState.v ===== *)
(** The state of the BPF capture layer (src/src/bpf/bpf_internal.h): the channel
    table with its two buffers per channel, the interface registry, the heap the
    buffers and the filters are allocated in, and the monad the operations of
    [BpfChannel] are written in. *)

From Stdlib Require Import ZArith Lia.
From stdpp Require Import base numbers list gmap.
From S2P Require Import Prelude BpfFilter BpfValidate.

(** ** Constants (bpf.h, bpf_internal.h) *)

Abbreviation AMI_BPF_EINVAL := (-1) (only parsing).
Abbreviation AMI_BPF_ENXIO := (-2) (only parsing).
Abbreviation AMI_BPF_EPERM := (-3) (only parsing).
Abbreviation AMI_BPF_EBUSY := (-4) (only parsing).
Abbreviation AMI_BPF_EINTR := (-5) (only parsing).
Abbreviation AMI_BPF_ENOBUFS := (-7) (only parsing).
Abbreviation AMI_BPF_EMSGSIZE := (-8) (only parsing).
Abbreviation AMI_BPF_MAX_CHANNELS := 4 (only parsing).
Abbreviation AMI_BPF_MAX_IFACES := 5 (only parsing).
Abbreviation AMI_BPF_IFNAMSIZ := 16 (only parsing).
Abbreviation AMI_BPF_DEFAULT_BLEN := 4096 (only parsing).
Abbreviation AMI_BPF_HDR_BYTES := 18 (only parsing).
Abbreviation AMI_BPF_HDRLEN := 20 (only parsing).
Abbreviation AMI_BPF_ETH_HDR_LEN := 14 (only parsing).
Abbreviation AMI_BPF_TICKS_PER_SEC := 50 (only parsing).
Abbreviation AMI_BPF_WAIT_SLICE := 1 (only parsing).
Abbreviation BPF_MAXBUFSIZE := 0x8000 (only parsing).
Abbreviation BPF_MINBUFSIZE := 32 (only parsing).
Abbreviation DLT_EN10MB := 1 (only parsing).

(** [BPF_WORDALIGN(x)], in 32 bits: [(x + 3) & ~3]. *)
Definition BPF_WORDALIGN (x : Z) : Z := Z.land (x +w 3) (u32 (Z.lnot 3)).

(** ** Data *)

(** A heap block is a capture buffer or a copied filter program. *)
Inductive block := BBytes (l : list Z) | BInsns (l : list bpf_insn).

(** A pointer into a block. *)
Definition ptr : Type := positive * Z.

(** [AmiBpfIf].  A cookie, a task or a hook is its address; 0 is NULL. *)
Record AmiBpfIf := BpfIf {
  if_used : bool;
  if_name : list Z;
  if_cookie : Z;
  if_dlt : Z;
  if_mtu : Z;
  if_inject : Z
}.

(** [AmiBpfChan].  [ch_iface] points into the interface table by index. *)
Record AmiBpfChan := BpfChan {
  ch_open : bool;
  ch_owner : Z;
  ch_iface : option nat;
  ch_ifname : list Z;
  ch_blen : Z;
  ch_bufbase : option positive;
  ch_store : option (positive * Z);
  ch_hold : option (positive * Z);
  ch_store_len : Z;
  ch_hold_len : Z;
  ch_hold_pos : Z;
  ch_reading : bool;
  ch_release_pending : bool;
  ch_filter : option positive;
  ch_filter_len : Z;
  ch_dlt : Z;
  ch_immediate : bool;
  ch_promisc : bool;
  ch_rtimeout_sec : Z;
  ch_rtimeout_usec : Z;
  ch_notify_task : Z;
  ch_notify_mask : Z;
  ch_irq_task : Z;
  ch_irq_mask : Z;
  ch_recv_count : Z;
  ch_drop_count : Z
}.

(** Field updates. *)
Definition w_owner (v : Z) (c : AmiBpfChan) : AmiBpfChan :=
  BpfChan (ch_open c) v (ch_iface c) (ch_ifname c) (ch_blen c) (ch_bufbase c) (ch_store c)
    (ch_hold c) (ch_store_len c) (ch_hold_len c) (ch_hold_pos c) (ch_reading c)
    (ch_release_pending c) (ch_filter c) (ch_filter_len c) (ch_dlt c) (ch_immediate c)
    (ch_promisc c) (ch_rtimeout_sec c) (ch_rtimeout_usec c) (ch_notify_task c) (ch_notify_mask c)
    (ch_irq_task c) (ch_irq_mask c) (ch_recv_count c) (ch_drop_count c).
Definition w_iface (v : option nat) (c : AmiBpfChan) : AmiBpfChan :=
  BpfChan (ch_open c) (ch_owner c) v (ch_ifname c) (ch_blen c) (ch_bufbase c) (ch_store c)
    (ch_hold c) (ch_store_len c) (ch_hold_len c) (ch_hold_pos c) (ch_reading c)
    (ch_release_pending c) (ch_filter c) (ch_filter_len c) (ch_dlt c) (ch_immediate c)
    (ch_promisc c) (ch_rtimeout_sec c) (ch_rtimeout_usec c) (ch_notify_task c) (ch_notify_mask c)
    (ch_irq_task c) (ch_irq_mask c) (ch_recv_count c) (ch_drop_count c).
Definition w_ifname (v : list Z) (c : AmiBpfChan) : AmiBpfChan :=
  BpfChan (ch_open c) (ch_owner c) (ch_iface c) v (ch_blen c) (ch_bufbase c) (ch_store c)
    (ch_hold c) (ch_store_len c) (ch_hold_len c) (ch_hold_pos c) (ch_reading c)
    (ch_release_pending c) (ch_filter c) (ch_filter_len c) (ch_dlt c) (ch_immediate c)
    (ch_promisc c) (ch_rtimeout_sec c) (ch_rtimeout_usec c) (ch_notify_task c) (ch_notify_mask c)
    (ch_irq_task c) (ch_irq_mask c) (ch_recv_count c) (ch_drop_count c).
Definition w_blen (v : Z) (c : AmiBpfChan) : AmiBpfChan :=
  BpfChan (ch_open c) (ch_owner c) (ch_iface c) (ch_ifname c) v (ch_bufbase c) (ch_store c)
    (ch_hold c) (ch_store_len c) (ch_hold_len c) (ch_hold_pos c) (ch_reading c)
    (ch_release_pending c) (ch_filter c) (ch_filter_len c) (ch_dlt c) (ch_immediate c)
    (ch_promisc c) (ch_rtimeout_sec c) (ch_rtimeout_usec c) (ch_notify_task c) (ch_notify_mask c)
    (ch_irq_task c) (ch_irq_mask c) (ch_recv_count c) (ch_drop_count c).
Definition w_bufbase (v : option positive) (c : AmiBpfChan) : AmiBpfChan :=
  BpfChan (ch_open c) (ch_owner c) (ch_iface c) (ch_ifname c) (ch_blen c) v (ch_store c)
    (ch_hold c) (ch_store_len c) (ch_hold_len c) (ch_hold_pos c) (ch_reading c)
    (ch_release_pending c) (ch_filter c) (ch_filter_len c) (ch_dlt c) (ch_immediate c)
    (ch_promisc c) (ch_rtimeout_sec c) (ch_rtimeout_usec c) (ch_notify_task c) (ch_notify_mask c)
    (ch_irq_task c) (ch_irq_mask c) (ch_recv_count c) (ch_drop_count c).
Definition w_store (v : option (positive * Z)) (c : AmiBpfChan) : AmiBpfChan :=
  BpfChan (ch_open c) (ch_owner c) (ch_iface c) (ch_ifname c) (ch_blen c) (ch_bufbase c) v
    (ch_hold c) (ch_store_len c) (ch_hold_len c) (ch_hold_pos c) (ch_reading c)
    (ch_release_pending c) (ch_filter c) (ch_filter_len c) (ch_dlt c) (ch_immediate c)
    (ch_promisc c) (ch_rtimeout_sec c) (ch_rtimeout_usec c) (ch_notify_task c) (ch_notify_mask c)
    (ch_irq_task c) (ch_irq_mask c) (ch_recv_count c) (ch_drop_count c).
Definition w_hold (v : option (positive * Z)) (c : AmiBpfChan) : AmiBpfChan :=
  BpfChan (ch_open c) (ch_owner c) (ch_iface c) (ch_ifname c) (ch_blen c) (ch_bufbase c)
    (ch_store c) v (ch_store_len c) (ch_hold_len c) (ch_hold_pos c) (ch_reading c)
    (ch_release_pending c) (ch_filter c) (ch_filter_len c) (ch_dlt c) (ch_immediate c)
    (ch_promisc c) (ch_rtimeout_sec c) (ch_rtimeout_usec c) (ch_notify_task c) (ch_notify_mask c)
    (ch_irq_task c) (ch_irq_mask c) (ch_recv_count c) (ch_drop_count c).
Definition w_store_len (v : Z) (c : AmiBpfChan) : AmiBpfChan :=
  BpfChan (ch_open c) (ch_owner c) (ch_iface c) (ch_ifname c) (ch_blen c) (ch_bufbase c)
    (ch_store c) (ch_hold c) v (ch_hold_len c) (ch_hold_pos c) (ch_reading c)
    (ch_release_pending c) (ch_filter c) (ch_filter_len c) (ch_dlt c) (ch_immediate c)
    (ch_promisc c) (ch_rtimeout_sec c) (ch_rtimeout_usec c) (ch_notify_task c) (ch_notify_mask c)
    (ch_irq_task c) (ch_irq_mask c) (ch_recv_count c) (ch_drop_count c).
Definition w_hold_len (v : Z) (c : AmiBpfChan) : AmiBpfChan :=
  BpfChan (ch_open c) (ch_owner c) (ch_iface c) (ch_ifname c) (ch_blen c) (ch_bufbase c)
    (ch_store c) (ch_hold c) (ch_store_len c) v (ch_hold_pos c) (ch_reading c)
    (ch_release_pending c) (ch_filter c) (ch_filter_len c) (ch_dlt c) (ch_immediate c)
    (ch_promisc c) (ch_rtimeout_sec c) (ch_rtimeout_usec c) (ch_notify_task c) (ch_notify_mask c)
    (ch_irq_task c) (ch_irq_mask c) (ch_recv_count c) (ch_drop_count c).
Definition w_hold_pos (v : Z) (c : AmiBpfChan) : AmiBpfChan :=
  BpfChan (ch_open c) (ch_owner c) (ch_iface c) (ch_ifname c) (ch_blen c) (ch_bufbase c)
    (ch_store c) (ch_hold c) (ch_store_len c) (ch_hold_len c) v (ch_reading c)
    (ch_release_pending c) (ch_filter c) (ch_filter_len c) (ch_dlt c) (ch_immediate c)
    (ch_promisc c) (ch_rtimeout_sec c) (ch_rtimeout_usec c) (ch_notify_task c) (ch_notify_mask c)
    (ch_irq_task c) (ch_irq_mask c) (ch_recv_count c) (ch_drop_count c).
Definition w_reading (v : bool) (c : AmiBpfChan) : AmiBpfChan :=
  BpfChan (ch_open c) (ch_owner c) (ch_iface c) (ch_ifname c) (ch_blen c) (ch_bufbase c)
    (ch_store c) (ch_hold c) (ch_store_len c) (ch_hold_len c) (ch_hold_pos c) v
    (ch_release_pending c) (ch_filter c) (ch_filter_len c) (ch_dlt c) (ch_immediate c)
    (ch_promisc c) (ch_rtimeout_sec c) (ch_rtimeout_usec c) (ch_notify_task c) (ch_notify_mask c)
    (ch_irq_task c) (ch_irq_mask c) (ch_recv_count c) (ch_drop_count c).
Definition w_release_pending (v : bool) (c : AmiBpfChan) : AmiBpfChan :=
  BpfChan (ch_open c) (ch_owner c) (ch_iface c) (ch_ifname c) (ch_blen c) (ch_bufbase c)
    (ch_store c) (ch_hold c) (ch_store_len c) (ch_hold_len c) (ch_hold_pos c) (ch_reading c) v
    (ch_filter c) (ch_filter_len c) (ch_dlt c) (ch_immediate c) (ch_promisc c) (ch_rtimeout_sec c)
    (ch_rtimeout_usec c) (ch_notify_task c) (ch_notify_mask c) (ch_irq_task c) (ch_irq_mask c)
    (ch_recv_count c) (ch_drop_count c).
Definition w_filter (v : option positive) (c : AmiBpfChan) : AmiBpfChan :=
  BpfChan (ch_open c) (ch_owner c) (ch_iface c) (ch_ifname c) (ch_blen c) (ch_bufbase c)
    (ch_store c) (ch_hold c) (ch_store_len c) (ch_hold_len c) (ch_hold_pos c) (ch_reading c)
    (ch_release_pending c) v (ch_filter_len c) (ch_dlt c) (ch_immediate c) (ch_promisc c)
    (ch_rtimeout_sec c) (ch_rtimeout_usec c) (ch_notify_task c) (ch_notify_mask c) (ch_irq_task c)
    (ch_irq_mask c) (ch_recv_count c) (ch_drop_count c).
Definition w_filter_len (v : Z) (c : AmiBpfChan) : AmiBpfChan :=
  BpfChan (ch_open c) (ch_owner c) (ch_iface c) (ch_ifname c) (ch_blen c) (ch_bufbase c)
    (ch_store c) (ch_hold c) (ch_store_len c) (ch_hold_len c) (ch_hold_pos c) (ch_reading c)
    (ch_release_pending c) (ch_filter c) v (ch_dlt c) (ch_immediate c) (ch_promisc c)
    (ch_rtimeout_sec c) (ch_rtimeout_usec c) (ch_notify_task c) (ch_notify_mask c) (ch_irq_task c)
    (ch_irq_mask c) (ch_recv_count c) (ch_drop_count c).
Definition w_dlt (v : Z) (c : AmiBpfChan) : AmiBpfChan :=
  BpfChan (ch_open c) (ch_owner c) (ch_iface c) (ch_ifname c) (ch_blen c) (ch_bufbase c)
    (ch_store c) (ch_hold c) (ch_store_len c) (ch_hold_len c) (ch_hold_pos c) (ch_reading c)
    (ch_release_pending c) (ch_filter c) (ch_filter_len c) v (ch_immediate c) (ch_promisc c)
    (ch_rtimeout_sec c) (ch_rtimeout_usec c) (ch_notify_task c) (ch_notify_mask c) (ch_irq_task c)
    (ch_irq_mask c) (ch_recv_count c) (ch_drop_count c).
Definition w_immediate (v : bool) (c : AmiBpfChan) : AmiBpfChan :=
  BpfChan (ch_open c) (ch_owner c) (ch_iface c) (ch_ifname c) (ch_blen c) (ch_bufbase c)
    (ch_store c) (ch_hold c) (ch_store_len c) (ch_hold_len c) (ch_hold_pos c) (ch_reading c)
    (ch_release_pending c) (ch_filter c) (ch_filter_len c) (ch_dlt c) v (ch_promisc c)
    (ch_rtimeout_sec c) (ch_rtimeout_usec c) (ch_notify_task c) (ch_notify_mask c) (ch_irq_task c)
    (ch_irq_mask c) (ch_recv_count c) (ch_drop_count c).
Definition w_promisc (v : bool) (c : AmiBpfChan) : AmiBpfChan :=
  BpfChan (ch_open c) (ch_owner c) (ch_iface c) (ch_ifname c) (ch_blen c) (ch_bufbase c)
    (ch_store c) (ch_hold c) (ch_store_len c) (ch_hold_len c) (ch_hold_pos c) (ch_reading c)
    (ch_release_pending c) (ch_filter c) (ch_filter_len c) (ch_dlt c) (ch_immediate c) v
    (ch_rtimeout_sec c) (ch_rtimeout_usec c) (ch_notify_task c) (ch_notify_mask c) (ch_irq_task c)
    (ch_irq_mask c) (ch_recv_count c) (ch_drop_count c).
Definition w_rtimeout_sec (v : Z) (c : AmiBpfChan) : AmiBpfChan :=
  BpfChan (ch_open c) (ch_owner c) (ch_iface c) (ch_ifname c) (ch_blen c) (ch_bufbase c)
    (ch_store c) (ch_hold c) (ch_store_len c) (ch_hold_len c) (ch_hold_pos c) (ch_reading c)
    (ch_release_pending c) (ch_filter c) (ch_filter_len c) (ch_dlt c) (ch_immediate c)
    (ch_promisc c) v (ch_rtimeout_usec c) (ch_notify_task c) (ch_notify_mask c) (ch_irq_task c)
    (ch_irq_mask c) (ch_recv_count c) (ch_drop_count c).
Definition w_rtimeout_usec (v : Z) (c : AmiBpfChan) : AmiBpfChan :=
  BpfChan (ch_open c) (ch_owner c) (ch_iface c) (ch_ifname c) (ch_blen c) (ch_bufbase c)
    (ch_store c) (ch_hold c) (ch_store_len c) (ch_hold_len c) (ch_hold_pos c) (ch_reading c)
    (ch_release_pending c) (ch_filter c) (ch_filter_len c) (ch_dlt c) (ch_immediate c)
    (ch_promisc c) (ch_rtimeout_sec c) v (ch_notify_task c) (ch_notify_mask c) (ch_irq_task c)
    (ch_irq_mask c) (ch_recv_count c) (ch_drop_count c).
Definition w_notify_task (v : Z) (c : AmiBpfChan) : AmiBpfChan :=
  BpfChan (ch_open c) (ch_owner c) (ch_iface c) (ch_ifname c) (ch_blen c) (ch_bufbase c)
    (ch_store c) (ch_hold c) (ch_store_len c) (ch_hold_len c) (ch_hold_pos c) (ch_reading c)
    (ch_release_pending c) (ch_filter c) (ch_filter_len c) (ch_dlt c) (ch_immediate c)
    (ch_promisc c) (ch_rtimeout_sec c) (ch_rtimeout_usec c) v (ch_notify_mask c) (ch_irq_task c)
    (ch_irq_mask c) (ch_recv_count c) (ch_drop_count c).
Definition w_notify_mask (v : Z) (c : AmiBpfChan) : AmiBpfChan :=
  BpfChan (ch_open c) (ch_owner c) (ch_iface c) (ch_ifname c) (ch_blen c) (ch_bufbase c)
    (ch_store c) (ch_hold c) (ch_store_len c) (ch_hold_len c) (ch_hold_pos c) (ch_reading c)
    (ch_release_pending c) (ch_filter c) (ch_filter_len c) (ch_dlt c) (ch_immediate c)
    (ch_promisc c) (ch_rtimeout_sec c) (ch_rtimeout_usec c) (ch_notify_task c) v (ch_irq_task c)
    (ch_irq_mask c) (ch_recv_count c) (ch_drop_count c).
Definition w_irq_task (v : Z) (c : AmiBpfChan) : AmiBpfChan :=
  BpfChan (ch_open c) (ch_owner c) (ch_iface c) (ch_ifname c) (ch_blen c) (ch_bufbase c)
    (ch_store c) (ch_hold c) (ch_store_len c) (ch_hold_len c) (ch_hold_pos c) (ch_reading c)
    (ch_release_pending c) (ch_filter c) (ch_filter_len c) (ch_dlt c) (ch_immediate c)
    (ch_promisc c) (ch_rtimeout_sec c) (ch_rtimeout_usec c) (ch_notify_task c) (ch_notify_mask c)
    v (ch_irq_mask c) (ch_recv_count c) (ch_drop_count c).
Definition w_irq_mask (v : Z) (c : AmiBpfChan) : AmiBpfChan :=
  BpfChan (ch_open c) (ch_owner c) (ch_iface c) (ch_ifname c) (ch_blen c) (ch_bufbase c)
    (ch_store c) (ch_hold c) (ch_store_len c) (ch_hold_len c) (ch_hold_pos c) (ch_reading c)
    (ch_release_pending c) (ch_filter c) (ch_filter_len c) (ch_dlt c) (ch_immediate c)
    (ch_promisc c) (ch_rtimeout_sec c) (ch_rtimeout_usec c) (ch_notify_task c) (ch_notify_mask c)
    (ch_irq_task c) v (ch_recv_count c) (ch_drop_count c).
Definition w_recv_count (v : Z) (c : AmiBpfChan) : AmiBpfChan :=
  BpfChan (ch_open c) (ch_owner c) (ch_iface c) (ch_ifname c) (ch_blen c) (ch_bufbase c)
    (ch_store c) (ch_hold c) (ch_store_len c) (ch_hold_len c) (ch_hold_pos c) (ch_reading c)
    (ch_release_pending c) (ch_filter c) (ch_filter_len c) (ch_dlt c) (ch_immediate c)
    (ch_promisc c) (ch_rtimeout_sec c) (ch_rtimeout_usec c) (ch_notify_task c) (ch_notify_mask c)
    (ch_irq_task c) (ch_irq_mask c) v (ch_drop_count c).
Definition w_drop_count (v : Z) (c : AmiBpfChan) : AmiBpfChan :=
  BpfChan (ch_open c) (ch_owner c) (ch_iface c) (ch_ifname c) (ch_blen c) (ch_bufbase c)
    (ch_store c) (ch_hold c) (ch_store_len c) (ch_hold_len c) (ch_hold_pos c) (ch_reading c)
    (ch_release_pending c) (ch_filter c) (ch_filter_len c) (ch_dlt c) (ch_immediate c)
    (ch_promisc c) (ch_rtimeout_sec c) (ch_rtimeout_usec c) (ch_notify_task c) (ch_notify_mask c)
    (ch_irq_task c) (ch_irq_mask c) (ch_recv_count c) v.
Definition w_open (v : bool) (c : AmiBpfChan) : AmiBpfChan :=
  BpfChan v (ch_owner c) (ch_iface c) (ch_ifname c) (ch_blen c) (ch_bufbase c) (ch_store c)
    (ch_hold c) (ch_store_len c) (ch_hold_len c) (ch_hold_pos c) (ch_reading c)
    (ch_release_pending c) (ch_filter c) (ch_filter_len c) (ch_dlt c) (ch_immediate c)
    (ch_promisc c) (ch_rtimeout_sec c) (ch_rtimeout_usec c) (ch_notify_task c) (ch_notify_mask c)
    (ch_irq_task c) (ch_irq_mask c) (ch_recv_count c) (ch_drop_count c).

(** What [ami_bpf_zero_bytes] leaves in a row of either table. *)
Definition zero_name : list Z := replicate 16 0.
Definition chan_zero : AmiBpfChan :=
  BpfChan false 0 None zero_name 0 None None None 0 0 0 false false None 0 0 false false
    0 0 0 0 0 0 0 0.
Definition if_zero : AmiBpfIf := BpfIf false zero_name 0 0 0 0.

(** What leaves the layer: a signal sent to a task, a call of the capture hook,
    a frame handed to an injector. *)
Inductive bpf_event :=
| EvSignal (task mask : Z)
| EvCapture (hook capturing : Z)
| EvInject (inject cookie ether_type : Z) (dst : option (list Z)) (payload : list Z).

Record bpf_state := BpfState {
  st_chan : list AmiBpfChan;
  st_gen : list Z;
  st_bound : Z;
  st_iface : list AmiBpfIf;
  st_capture_hook : Z;
  st_heap : gmap positive block;
  st_log : list bpf_event
}.

Definition s_chan (v : list AmiBpfChan) (s : bpf_state) : bpf_state :=
  BpfState v (st_gen s) (st_bound s) (st_iface s) (st_capture_hook s) (st_heap s) (st_log s).
Definition s_gen (v : list Z) (s : bpf_state) : bpf_state :=
  BpfState (st_chan s) v (st_bound s) (st_iface s) (st_capture_hook s) (st_heap s) (st_log s).
Definition s_bound (v : Z) (s : bpf_state) : bpf_state :=
  BpfState (st_chan s) (st_gen s) v (st_iface s) (st_capture_hook s) (st_heap s) (st_log s).
Definition s_iface (v : list AmiBpfIf) (s : bpf_state) : bpf_state :=
  BpfState (st_chan s) (st_gen s) (st_bound s) v (st_capture_hook s) (st_heap s) (st_log s).
Definition s_capture_hook (v : Z) (s : bpf_state) : bpf_state :=
  BpfState (st_chan s) (st_gen s) (st_bound s) (st_iface s) v (st_heap s) (st_log s).
Definition s_heap (v : gmap positive block) (s : bpf_state) : bpf_state :=
  BpfState (st_chan s) (st_gen s) (st_bound s) (st_iface s) (st_capture_hook s) v (st_log s).
Definition s_log (v : list bpf_event) (s : bpf_state) : bpf_state :=
  BpfState (st_chan s) (st_gen s) (st_bound s) (st_iface s) (st_capture_hook s) (st_heap s) v.

(** The state when the library is loaded. *)
Definition bpf_state0 : bpf_state :=
  BpfState (replicate 4 chan_zero) (replicate 4 0) 0 (replicate 5 if_zero) 0 ∅ [].

(** ** The monad

    State passing with faults: an access outside a table or a block, or a second
    [ami_free] of a block, is [Fault]. *)

Definition M (A : Type) : Type := bpf_state -> outcome (A * bpf_state).

#[export] Instance M_ret : MRet M := fun A a s => Val (a, s).
#[export] Instance M_bind : MBind M := fun A B f m s =>
  match m s with Val (a, s') => f a s' | Fault => Fault | Spin => Spin end.

Definition get {A} (f : bpf_state -> A) : M A := fun s => Val (f s, s).
Definition put (f : bpf_state -> bpf_state) : M unit := fun s => Val (tt, f s).
Definition lift {A} (o : outcome A) : M A := fun s => let! a := o in Val (a, s).
Definition fault {A} : M A := fun _ => Fault.

Definition chan (i : Z) : M AmiBpfChan := fun s => let! c := fetch (st_chan s) i in Val (c, s).
Definition put_chan (i : Z) (c : AmiBpfChan) : M unit :=
  put (fun s => s_chan (<[Z.to_nat i := c]> (st_chan s)) s).
Definition generation (i : Z) : M Z := fun s => let! g := fetch (st_gen s) i in Val (g, s).
Definition log (e : bpf_event) : M unit := put (fun s => s_log (st_log s ++ [e]) s).

(** [ami_alloc(size)]: [ok] says whether memory is there; the block is cleared
    ([MEMF_CLEAR]). *)
Definition ami_alloc (ok : bool) (b : block) : M (option positive) := fun s =>
  if ok then
    let p := fresh (dom (st_heap s)) in Val (Some p, s_heap (<[p := b]> (st_heap s)) s)
  else Val (None, s).

Definition ami_free (p : option positive) : M unit := fun s =>
  match p with
  | None => Val (tt, s)
  | Some b =>
      match st_heap s !! b with
      | None => Fault
      | Some _ => Val (tt, s_heap (delete b (st_heap s)) s)
      end
  end.

(** Reads and writes of a run of bytes through a pointer. *)
Definition load_bytes (p : ptr) (n : Z) : M (list Z) := fun s =>
  match st_heap s !! p.1 with
  | Some (BBytes l) =>
      if (0 <=? p.2) && (0 <=? n) && (p.2 + n <=? Z.of_nat (length l))
      then Val (slice l p.2 n, s) else Fault
  | _ => Fault
  end.

Definition store_bytes (p : ptr) (bs : list Z) : M unit := fun s =>
  match st_heap s !! p.1 with
  | Some (BBytes l) =>
      if (0 <=? p.2) && (p.2 + Z.of_nat (length bs) <=? Z.of_nat (length l))
      then Val (tt, s_heap (<[p.1 := BBytes (splice l p.2 bs)]> (st_heap s)) s) else Fault
  | _ => Fault
  end.

(** The filter a channel points at. *)
Definition load_insns (p : option positive) : M (option (list bpf_insn)) := fun s =>
  match p with
  | None => Val (None, s)
  | Some b => match st_heap s !! b with
              | Some (BInsns l) => Val (Some l, s)
              | _ => Fault
              end
  end.

Definition ptr_add (p : ptr) (n : Z) : ptr := (p.1, p.2 + n).
Definition deref (p : option ptr) : M ptr := match p with Some q => mret q | None => fault end.
