(* ===== verification/BpfChannel.v ===== *)
(** The BPF capture channels (src/src/bpf/bpf_channel.c), the interface registry
    and the taps (bpf_tap.c, bpf_tap_tx.c).

    Every stretch of code between [ami_bpf_lock()] and [ami_bpf_unlock()] is one
    definition in the monad of [BpfState]; an operation that drops the lock in
    the middle is the composition of its stretches. *)

From Stdlib Require Import ZArith Lia.
From stdpp Require Import base numbers list gmap.
From S2P Require Import Prelude BpfFilter BpfValidate BpfState.

(** ** Byte helpers *)

(** [ami_bpf_copy_bytes]: the bytes the three loops store, for a destination and
    a source at the given addresses. *)
Fixpoint copy_lead (d : Z) (src : list Z) : list Z * list Z :=
  match src with
  | b :: rest =>
      if negb (Z.land d 3 =? 0)
      then let '(out, more) := copy_lead (d + 1) rest in (b :: out, more)
      else ([], src)
  | [] => ([], [])
  end.
Fixpoint copy_longs (fuel : nat) (src : list Z) : list Z * list Z :=
  match fuel, src with
  | S f, b0 :: b1 :: b2 :: b3 :: rest =>
      let '(out, more) := copy_longs f rest in (b0 :: b1 :: b2 :: b3 :: out, more)
  | _, _ => ([], src)
  end.
Definition ami_bpf_copy_bytes (d s : Z) (src : list Z) : list Z :=
  if (8 <=? Z.of_nat (length src)) && (Z.land d 3 =? Z.land s 3) then
    let '(lead, src1) := copy_lead d src in
    let '(longs, src2) := copy_longs (length src1) src1 in
    lead ++ longs ++ src2
  else src.

(** [ami_bpf_put32]/[ami_bpf_put16] store in native order, which is big-endian
    on the 68k. *)
Definition ami_bpf_put32 (p : ptr) (value : Z) : M unit := store_bytes p (be32 value).
Definition ami_bpf_put16 (p : ptr) (value : Z) : M unit := store_bytes p (be16 value).
Definition ami_bpf_get32 (p : ptr) : M Z := bs ← load_bytes p 4; mret (be_join 0 bs).
Definition ami_bpf_get16 (p : ptr) : M Z := bs ← load_bytes p 2; mret (be_join 0 bs).

(** ** Handles *)

(** [inl status] is NULL with [*status] set, [inr] the channel. *)
Definition ami_bpf_chan_get (owner channel : Z) : M (Z + AmiBpfChan) :=
  if (channel <? 0) || (AMI_BPF_MAX_CHANNELS <=? channel) then mret (inl AMI_BPF_ENXIO)
  else
    ch ← chan channel;
    if negb (ch_open ch) then mret (inl AMI_BPF_ENXIO)
    else if negb (ch_owner ch =? owner) then mret (inl AMI_BPF_EPERM)
    else mret (inr ch).

(** Run [k] on the channel of a handle, or return its status. *)
Definition with_chan {A} (owner channel : Z) (err : Z -> A) (k : AmiBpfChan -> M A) : M A :=
  r ← ami_bpf_chan_get owner channel;
  match r with inl status => mret (err status) | inr ch => k ch end.

(** ** The bound count *)

Definition ami_bpf_capture_notify (capturing : Z) : M unit :=
  fn ← get st_capture_hook;
  if negb (fn =? 0) then log (EvCapture fn capturing) else mret tt.

Definition ami_bpf_bound_inc : M unit :=
  _ ← put (fun s => s_bound (u16 (st_bound s + 1)) s);
  n ← get st_bound;
  if n =? 1 then ami_bpf_capture_notify 1 else mret tt.

Definition ami_bpf_bound_dec : M unit :=
  n ← get st_bound;
  if n =? 0 then mret tt
  else
    _ ← put (fun s => s_bound (u16 (st_bound s - 1)) s);
    n' ← get st_bound;
    if n' =? 0 then ami_bpf_capture_notify 0 else mret tt.

(** ** Copying out of a scatter view *)

(** A checked run of [n] bytes of a segment. *)
Definition seg_run (p : list Z) (start n : Z) : outcome (list Z) :=
  if (0 <=? start) && (0 <=? n) && (start + n <=? Z.of_nat (length p))
  then Val (slice p start n) else Fault.

(** The segment loop: the bytes copied, and what is left of [len]. *)
Fixpoint view_copy_from (segs : list AmiBpfSeg) (base off len : Z) : outcome (list Z * Z) :=
  match segs with
  | [] => Val ([], len)
  | s :: rest =>
      if len <=? 0 then Val ([], len)
      else if (base +w seg_len s) <=? off
      then view_copy_from rest (base +w seg_len s) off len
      else
        let start := if base <? off then off -w base else 0 in
        let take0 := seg_len s -w start in
        let n := if len <? take0 then len else take0 in
        let! bs := seg_run (seg_base s) start n in
        let! r := view_copy_from rest (base +w seg_len s) (off +w n) (len -w n) in
        Val (bs ++ r.1, r.2)
  end.

Definition ami_bpf_view_copy (view : AmiBpfView) (off len : Z) : outcome (list Z) :=
  let! r := view_copy_from (v_seg view) 0 off len in
  Val (r.1 ++ replicate (Z.to_nat r.2) 0).

(** ** The interface registry (bpf_tap.c) *)

Fixpoint find_iface (p : AmiBpfIf -> bool) (l : list AmiBpfIf) (i : nat) : option nat :=
  match l with
  | [] => None
  | x :: r => if p x then Some i else find_iface p r (S i)
  end.

Definition ami_bpf_iface_by_cookie (cookie : Z) : M (option nat) :=
  if cookie =? 0 then mret None
  else get (fun s => find_iface (fun x => if_used x && (if_cookie x =? cookie)) (st_iface s) 0).

(** The comparison loops over two 16-byte names: equal up to and including a
    NUL inside them. *)
Fixpoint name_match (a b : list Z) : bool :=
  match a, b with
  | x :: a', y :: b' => if negb (x =? y) then false else if x =? 0 then true else name_match a' b'
  | _, _ => false
  end.

Definition ami_bpf_iface_by_name (name : list Z) : M (option nat) :=
  get (fun s => find_iface (fun x => if_used x && name_match (if_name x) name) (st_iface s) 0).

Definition iface_at (i : nat) : M AmiBpfIf := fun s =>
  match st_iface s !! i with Some x => Val (x, s) | None => Fault end.

(** The two loops that copy a name into 16 bytes: at most 15 characters, then
    NULs. *)
Fixpoint name_prefix (n : nat) (name : list Z) : outcome (list Z) :=
  match n with
  | O => Val []
  | S n' => match name with
            | [] => Fault
            | c :: r => if c =? 0 then Val []
                        else let! t := name_prefix n' r in Val (c :: t)
            end
  end.
Definition copy_ifname (name : list Z) : outcome (list Z) :=
  let! t := name_prefix 15 name in Val (t ++ replicate (16 - length t) 0).

(** ** Lifecycle *)

Definition ami_bpf_init : M Z :=
  _ ← put (s_chan (replicate 4 chan_zero));
  _ ← put (s_gen (replicate 4 0));
  n ← get st_bound;
  _ ← (if negb (n =? 0)
       then _ ← put (s_bound 0); ami_bpf_capture_notify 0
       else mret tt);
  _ ← put (s_iface (replicate 5 if_zero));
  mret 0.

(** The locked half of [ami_bpf_chan_release]: the two blocks to free, when the
    slot was retired.  [expected_owner] 0 is the unconditional form. *)
Definition chan_release_locked (i : Z) (force : bool) (expected_owner : Z)
  : M (option (option positive * option positive)) :=
  ch ← chan i;
  if negb (expected_owner =? 0) && (negb (ch_open ch) || negb (ch_owner ch =? expected_owner))
  then mret None
  else
    _ ← (if decide (ch_iface ch = None) then mret tt else ami_bpf_bound_dec);
    if ch_reading ch && negb force then
      _ ← put_chan i (w_release_pending true (w_iface None (w_owner 0 ch)));
      mret None
    else
      _ ← put_chan i chan_zero;
      mret (Some (ch_bufbase ch, ch_filter ch)).

Definition free_two (blocks : option (option positive * option positive)) : M unit :=
  match blocks with
  | None => mret tt
  | Some (bufbase, filter) => _ ← ami_free bufbase; ami_free filter
  end.

Definition ami_bpf_chan_release (i : Z) (force : bool) (expected_owner : Z) : M unit :=
  blocks ← chan_release_locked i force expected_owner; free_two blocks.

(** [for (i = 0; i < n; i++) f(i)] from [i]. *)
Fixpoint for_chan (n : nat) (i : Z) (f : Z -> M unit) : M unit :=
  match n with
  | O => mret tt
  | S n' => _ ← f i; for_chan n' (i + 1) f
  end.

Definition ami_bpf_close_owner (owner : Z) : M unit :=
  for_chan 4 0 (fun i =>
    ch ← chan i;
    if ch_open ch && (ch_owner ch =? owner)
    then ami_bpf_chan_release i false owner else mret tt).

Definition ami_bpf_cleanup : M unit :=
  for_chan 4 0 (fun i =>
    ch ← chan i;
    if ch_open ch then ami_bpf_chan_release i true 0 else mret tt).

(** The first channel that is not open; 4 when there is none. *)
Fixpoint first_free (l : list AmiBpfChan) (i : Z) : Z :=
  match l with
  | [] => i
  | c :: r => if negb (ch_open c) then i else first_free r (i + 1)
  end.

Definition ami_bpf_open (owner channel : Z) : M Z :=
  if AMI_BPF_MAX_CHANNELS <=? channel then mret AMI_BPF_ENXIO
  else
    i ← (if channel <? 0 then get (fun s => first_free (st_chan s) 0) else mret channel);
    if i =? AMI_BPF_MAX_CHANNELS then mret AMI_BPF_EBUSY
    else
      ch ← chan i;
      if ch_open ch then mret AMI_BPF_EBUSY
      else
        _ ← put_chan i (w_dlt DLT_EN10MB (w_blen AMI_BPF_DEFAULT_BLEN
                         (w_owner owner (w_open true chan_zero))));
        g ← generation i;
        let g' := g +w 1 in
        _ ← put (fun s => s_gen (<[Z.to_nat i := if g' =? 0 then 1 else g']> (st_gen s)) s);
        mret i.

(** The locked half of [ami_bpf_close], and the whole. *)
Definition close_locked (owner channel : Z) : M (Z + option positive * option positive) :=
  with_chan owner channel inl (fun ch =>
    if ch_reading ch then mret (inl AMI_BPF_EBUSY)
    else
      _ ← (if decide (ch_iface ch = None) then mret tt else ami_bpf_bound_dec);
      _ ← put_chan channel chan_zero;
      mret (inr (ch_bufbase ch, ch_filter ch))).

Definition ami_bpf_close (owner channel : Z) : M Z :=
  r ← close_locked owner channel;
  match r with
  | inl status => mret status
  | inr blocks => _ ← free_two (Some blocks); mret 0
  end.

(** ** Binding channels to interfaces *)

Definition ami_bpf_chan_unbind_locked (ifp : nat) : M unit :=
  for_chan 4 0 (fun i =>
    ch ← chan i;
    if ch_open ch && bool_decide (ch_iface ch = Some ifp)
    then _ ← put_chan i (w_iface None ch); ami_bpf_bound_dec
    else mret tt).

Definition ami_bpf_chan_rebind_locked (ifp : nat) : M unit :=
  x ← iface_at ifp;
  for_chan 4 0 (fun i =>
    ch ← chan i;
    if negb (ch_open ch) || ch_release_pending ch || bool_decide (ch_iface ch <> None) ||
       bool_decide (ch_store ch = None)
    then mret tt
    else if name_match (ch_ifname ch) (if_name x)
    then _ ← put_chan i (w_dlt (if_dlt x) (w_iface (Some ifp) ch)); ami_bpf_bound_inc
    else mret tt).

Definition ami_bpf_attach_interface (name : option (list Z)) (cookie dlt mtu inject : Z) : M Z :=
  match name with
  | None => mret (-1)
  | Some nm =>
      if cookie =? 0 then mret (-1)
      else
        byc ← ami_bpf_iface_by_cookie cookie;
        slot ← (match byc with
                | Some i => mret (Some i)
                | None => get (fun s => find_iface (fun x => negb (if_used x)) (st_iface s) 0)
                end);
        match slot with
        | None => mret (-1)
        | Some i =>
            nm16 ← lift (copy_ifname nm);
            _ ← put (fun s => s_iface (<[i := BpfIf true nm16 cookie dlt mtu inject]> (st_iface s)) s);
            _ ← ami_bpf_chan_rebind_locked i;
            mret 0
        end
  end.

Definition ami_bpf_detach_interface (cookie : Z) : M unit :=
  ifp ← ami_bpf_iface_by_cookie cookie;
  match ifp with
  | None => mret tt
  | Some i =>
      _ ← ami_bpf_chan_unbind_locked i;
      put (fun s => s_iface (<[i := if_zero]> (st_iface s)) s)
  end.

Definition ami_bpf_set_capture_hook (fn : Z) : M unit :=
  _ ← put (s_capture_hook fn);
  if negb (fn =? 0) then n ← get st_bound; log (EvCapture fn n) else mret tt.

(** ** The tap *)

Definition ami_bpf_rotate (ch : AmiBpfChan) : AmiBpfChan :=
  w_store_len 0 (w_store (ch_hold ch)
    (w_hold_pos 0 (w_hold_len (ch_store_len ch) (w_hold (ch_store ch) ch)))).

Definition ami_bpf_notify (task mask : Z) : M unit :=
  if (task =? 0) || (mask =? 0) then mret tt else log (EvSignal task mask).

(** [caplen] and [totlen] of the record for a verdict [slen] over a view, in a
    buffer of [blen] bytes. *)
Definition record_lens (slen wirelen vcaplen blen : Z) : Z * Z :=
  let c0 := if slen <? wirelen then slen else wirelen in
  let c1 := if vcaplen <? c0 then vcaplen else c0 in
  let t0 := AMI_BPF_HDRLEN +w c1 in
  if blen <? t0 then (blen -w AMI_BPF_HDRLEN, blen) else (c1, t0).

(** The stores that write one record at [rec]. *)
Definition write_record (rec : ptr) (sec usec caplen : Z) (view : AmiBpfView) : M unit :=
  _ ← ami_bpf_put32 (ptr_add rec 0) sec;
  _ ← ami_bpf_put32 (ptr_add rec 4) usec;
  _ ← ami_bpf_put32 (ptr_add rec 8) caplen;
  _ ← ami_bpf_put32 (ptr_add rec 12) (v_wirelen view);
  _ ← ami_bpf_put16 (ptr_add rec 16) AMI_BPF_HDRLEN;
  _ ← store_bytes (ptr_add rec AMI_BPF_HDR_BYTES)
        (replicate (Z.to_nat (AMI_BPF_HDRLEN - AMI_BPF_HDR_BYTES)) 0);
  data ← lift (ami_bpf_view_copy view 0 caplen);
  store_bytes (ptr_add rec AMI_BPF_HDRLEN) data.

(** The part of the loop body after the filter has said how much to keep. *)
Definition capture_record (i : Z) (ch0 : AmiBpfChan) (view : AmiBpfView) (slen sec usec : Z)
  : M unit :=
  let '(caplen, totlen) := record_lens slen (v_wirelen view) (v_caplen view) (ch_blen ch0) in
  let curlen0 := BPF_WORDALIGN (ch_store_len ch0) in
  let full := ch_blen ch0 <? (curlen0 +w totlen) in
  if full && negb ((ch_hold_len ch0 =? 0) && negb (ch_reading ch0))
  then put_chan i (w_drop_count (ch_drop_count ch0 +w 1) ch0)
  else
    let ch := if full then ami_bpf_rotate ch0 else ch0 in
    let curlen := if full then 0 else curlen0 in
    st ← deref (ch_store ch);
    _ ← write_record (ptr_add st curlen) sec usec caplen view;
    _ ← put_chan i (w_store_len (curlen +w totlen) ch);
    if full || ch_immediate ch then
      _ ← ami_bpf_notify (ch_notify_task ch) (ch_notify_mask ch);
      ami_bpf_notify (ch_irq_task ch) (ch_irq_mask ch)
    else mret tt.

(** One iteration of [ami_bpf_capture] for channel [i]; [true] when the loop goes
    on, [false] when the function returns because the cookie is unknown.  [lock]
    is the answer of [ami_bpf_try_lock], [now] that of [ami_bpf_now]. *)
Definition capture_chan (lock : bool) (now : Z * Z) (cookie : Z) (view : AmiBpfView) (i : Z)
  : M bool :=
  ch ← chan i;
  if negb (ch_open ch) || bool_decide (ch_store ch = None) then mret true
  else if negb lock then mret true
  else
    ifp ← ami_bpf_iface_by_cookie cookie;
    match ifp with
    | None => mret false
    | Some n =>
        if negb (ch_open ch) || bool_decide (ch_iface ch <> Some n) ||
           bool_decide (ch_store ch = None) || (ch_blen ch <=? AMI_BPF_HDRLEN)
        then mret true
        else
          let ch1 := w_recv_count (ch_recv_count ch +w 1) ch in
          _ ← put_chan i ch1;
          prog ← load_insns (ch_filter ch1);
          slen ← lift (ami_bpf_filter_view prog (ch_filter_len ch1) (Some view));
          if slen =? 0 then mret true
          else _ ← capture_record i ch1 view slen now.1 now.2; mret true
    end.

Fixpoint capture_from (n : nat) (i : Z) (lock : Z -> bool) (now : Z * Z) (cookie : Z)
    (view : AmiBpfView) : M unit :=
  match n with
  | O => mret tt
  | S n' =>
      more ← capture_chan (lock i) now cookie view i;
      if (more : bool) then capture_from n' (i + 1) lock now cookie view else mret tt
  end.

Definition ami_bpf_capture (lock : Z -> bool) (now : Z * Z) (cookie : Z) (view : AmiBpfView)
  : M unit :=
  capture_from 4 0 lock now cookie view.

(** ** bpf_read *)

(** The tick budget of [BIOCSRTIMEOUT]: rounded up, and saturated. *)
Definition read_budget (sec usec : Z) : Z :=
  let tick_usec := 1000000 / AMI_BPF_TICKS_PER_SEC in
  let fraction0 := usec / tick_usec in
  let fraction := if negb (usec mod tick_usec =? 0) then fraction0 +w 1 else fraction0 in
  if (u32 (Z.lnot 0) -w fraction) / AMI_BPF_TICKS_PER_SEC <? sec
  then u32 (Z.lnot 0)
  else (sec *w AMI_BPF_TICKS_PER_SEC) +w fraction.

(** The first locked stretch: a status, or the generation and the budget. *)
Definition read_enter (owner channel : Z) (buffer : bool) (len : Z) : M (Z + Z * Z) :=
  with_chan owner channel inl (fun ch =>
    g ← generation channel;
    if negb buffer || (len <=? 0) then mret (inl AMI_BPF_EINVAL)
    else mret (inr (g, read_budget (ch_rtimeout_sec ch) (ch_rtimeout_usec ch)))).

(** [while (pos < ch->hold_len)]: the last [end] and [pos]. *)
Fixpoint read_scan (fuel : nat) (hold : ptr) (hold_len hold_pos len pos end_ : Z) : M (Z * Z) :=
  if pos <? hold_len then
    match fuel with
    | O => lift Spin
    | S fuel' =>
        hdrlen ← ami_bpf_get16 (ptr_add hold (pos + 16));
        caplen ← ami_bpf_get32 (ptr_add hold (pos + 8));
        let reclen := hdrlen +w caplen in
        if u32 len <? ((pos +w reclen) -w hold_pos) then mret (pos, end_)
        else read_scan fuel' hold hold_len hold_pos len (pos +w BPF_WORDALIGN reclen) (pos +w reclen)
    end
  else mret (pos, end_).

(** What a look at the channel in the wait loop leads to. *)
Inductive read_look :=
| ReadReturn (status : Z)
| ReadWait (irq_mask : Z)
| ReadCopy (src : ptr) (nbytes pos : Z).

(** One turn of the [for (;;)] up to the unlock, the record scan included; each
    record is at least 20 bytes, so [hold_len] turns are fuel enough. *)
Definition read_poll (owner channel gen len : Z) : M read_look :=
  r ← ami_bpf_chan_get owner channel;
  match r with
  | inl status => mret (ReadReturn status)
  | inr ch0 =>
      g ← generation channel;
      if negb (g =? gen) then mret (ReadReturn AMI_BPF_ENXIO)
      else if ch_reading ch0 then mret (ReadReturn 0)
      else
        let ch := if (ch_hold_len ch0 =? 0) && (0 <? ch_store_len ch0)
                  then ami_bpf_rotate ch0 else ch0 in
        _ ← put_chan channel ch;
        if ch_hold_len ch =? 0 then mret (ReadWait (ch_irq_mask ch))
        else
          hold ← deref (ch_hold ch);
          se ← read_scan (Z.to_nat (ch_hold_len ch)) hold (ch_hold_len ch) (ch_hold_pos ch) len
                 (ch_hold_pos ch) (ch_hold_pos ch);
          let '(pos, end_) := (se : Z * Z) in
          if end_ =? ch_hold_pos ch then mret (ReadReturn AMI_BPF_EINVAL)
          else
            _ ← put_chan channel (w_reading true ch);
            mret (ReadCopy (ptr_add hold (ch_hold_pos ch)) (end_ -w ch_hold_pos ch) pos)
  end.

(** The last locked stretch; the value is [pending]. *)
Definition read_finish (channel pos : Z) : M bool :=
  ch ← chan channel;
  let ch1 := if ch_hold_len ch <=? pos then w_hold_pos 0 (w_hold_len 0 ch) else w_hold_pos pos ch in
  _ ← put_chan channel (w_reading false ch1);
  mret (ch_release_pending ch).

(** Copy-out and finish: the return value and the caller's bytes. *)
Definition read_copy_out (channel : Z) (src : ptr) (nbytes pos : Z) : M (Z * list Z) :=
  bs ← load_bytes src nbytes;
  pending ← read_finish channel pos;
  _ ← (if (pending : bool) then ami_bpf_chan_release channel false 0 else mret tt);
  mret (s32 nbytes, bs).

Section Read.
(** What the rest of the system does while the reader sleeps for the n-th time,
    and the signals it finds set after that many sleeps. *)
Variable world : nat -> bpf_state -> bpf_state.
Variable signals_set : nat -> Z -> Z.

(** The wait loop, [waited] slices in; [budget - waited] turns are fuel enough. *)
Fixpoint read_wait (fuel : nat) (n : nat) (owner channel gen len waited budget : Z)
  : M (Z * list Z) :=
  look ← read_poll owner channel gen len;
  match look with
  | ReadReturn status => mret (status, [])
  | ReadCopy src nbytes pos => read_copy_out channel src nbytes pos
  | ReadWait irq_mask =>
      if budget <=? waited then mret (0, [])
      else if negb (signals_set n irq_mask =? 0) then mret (AMI_BPF_EINTR, [])
      else match fuel with
           | O => lift Spin
           | S fuel' =>
               _ ← put (world n);
               read_wait fuel' (S n) owner channel gen len (waited +w AMI_BPF_WAIT_SLICE) budget
           end
  end.

Definition ami_bpf_read (owner channel : Z) (buffer : bool) (len : Z) : M (Z * list Z) :=
  r ← read_enter owner channel buffer len;
  match r with
  | inl status => mret (status, [])
  | inr (gen, budget) => read_wait (Z.to_nat budget) 0 owner channel gen len 0 budget
  end.
End Read.

Definition ami_bpf_capturing : M Z := get st_bound.

Definition ami_bpf_buffered (ch : AmiBpfChan) : Z :=
  (ch_hold_len ch -w ch_hold_pos ch) +w ch_store_len ch.

Definition ami_bpf_data_waiting (owner channel : Z) : M Z :=
  with_chan owner channel id (fun ch =>
    mret (if negb (ami_bpf_buffered ch =? 0) then 1 else 0)).

(** ** bpf_write *)

Section Write.
(** The status the injector at an address returns for its arguments. *)
Variable inject_status : Z -> Z -> Z -> option (list Z) -> list Z -> Z.

Definition call_inject (inject cookie ether_type : Z) (dst : option (list Z)) (payload : list Z)
  : M Z :=
  _ ← log (EvInject inject cookie ether_type dst payload);
  mret (inject_status inject cookie ether_type dst payload).

(** [buffer] is the bytes at the caller's address, [None] for NULL. *)
Definition ami_bpf_write (owner channel : Z) (buffer : option (list Z)) (len : Z) : M Z :=
  with_chan owner channel id (fun ch =>
    match buffer with
    | None => mret AMI_BPF_EINVAL
    | Some frame =>
        if len <=? 0 then mret AMI_BPF_EINVAL
        else match ch_iface ch with
        | None => mret AMI_BPF_ENXIO
        | Some n =>
            ifp ← iface_at n;
            if if_inject ifp =? 0 then mret AMI_BPF_ENXIO
            else if negb (ch_dlt ch =? DLT_EN10MB) then
              if negb (if_mtu ifp =? 0) && (if_mtu ifp <? u32 len) then mret AMI_BPF_EMSGSIZE
              else
                payload ← lift (seg_run frame 0 len);
                status ← call_inject (if_inject ifp) (if_cookie ifp) 0 None payload;
                mret (if status <? 0 then AMI_BPF_ENOBUFS else len)
            else if len <? AMI_BPF_ETH_HDR_LEN then mret AMI_BPF_EINVAL
            else
              hi ← lift (fetch frame 12);
              lo ← lift (fetch frame 13);
              let ether_type := u16 (Z.lor (u16 (Z.shiftl hi 8)) lo) in
              if negb (if_mtu ifp =? 0) && (if_mtu ifp <? u32 (len - AMI_BPF_ETH_HDR_LEN))
              then mret AMI_BPF_EMSGSIZE
              else
                payload ← lift (seg_run frame AMI_BPF_ETH_HDR_LEN (len - AMI_BPF_ETH_HDR_LEN));
                status ← call_inject (if_inject ifp) (if_cookie ifp) ether_type (Some frame) payload;
                mret (if status <? 0 then AMI_BPF_ENOBUFS else len)
        end
    end).
End Write.

(** ** The masks; [task] is [ami_bpf_current_task()]. *)

Definition ami_bpf_set_notify_mask (task owner channel signal_mask : Z) : M Z :=
  with_chan owner channel id (fun ch =>
    _ ← put_chan channel (w_notify_task (if negb (signal_mask =? 0) then task else 0)
                           (w_notify_mask signal_mask ch));
    mret 0).

Definition ami_bpf_set_interrupt_mask (task owner channel signal_mask : Z) : M Z :=
  with_chan owner channel id (fun ch =>
    _ ← put_chan channel (w_irq_task (if negb (signal_mask =? 0) then task else 0)
                           (w_irq_mask signal_mask ch));
    mret 0).

(** ** bpf_ioctl *)

(** The ioctl encoding of bpf.h. *)
Definition IOC_DIRMASK : Z := 0xe0000000.
Definition ioc (inout group num len : Z) : Z :=
  Z.lor (Z.lor inout (Z.shiftl (Z.land len 0x1fff) 16)) (Z.lor (Z.shiftl group 8) num).
Definition BIOCGBLEN : Z := ioc 0x40000000 66 102 4.
Definition BIOCSBLEN : Z := ioc 0xc0000000 66 102 4.
Definition BIOCSETF : Z := ioc 0x80000000 66 103 8.
Definition BIOCFLUSH : Z := ioc 0x20000000 66 104 0.
Definition BIOCPROMISC : Z := ioc 0x20000000 66 105 0.
Definition BIOCGDLT : Z := ioc 0x40000000 66 106 4.
Definition BIOCGETIF : Z := ioc 0x40000000 66 107 32.
Definition BIOCSETIF : Z := ioc 0x80000000 66 108 32.
Definition BIOCSRTIMEOUT : Z := ioc 0x80000000 66 109 8.
Definition BIOCGRTIMEOUT : Z := ioc 0x40000000 66 110 8.
Definition BIOCGSTATS : Z := ioc 0x40000000 66 111 8.
Definition BIOCIMMEDIATE : Z := ioc 0x80000000 66 112 4.
Definition BIOCVERSION : Z := ioc 0x40000000 66 113 4.
Definition AMI_BPF_FIONREAD : Z := ioc 0x40000000 102 127 4.
Definition AMI_BPF_SIOCGIFADDR : Z := ioc 0xc0000000 105 33 32.
Definition AMI_BPF_CMD (c : Z) : Z := Z.land (u32 c) (Z.lor IOC_DIRMASK 0xFFFF).

(** The [buffer] argument: NULL, bytes at an odd or even address, or a
    [struct bpf_program] whose instruction array is NULL or at an odd or even
    address. *)
Inductive ioctl_arg :=
| ArgNull
| ArgBytes (odd : bool) (bytes : list Z)
| ArgProg (odd : bool) (bf_len : Z) (bf_insns : option (bool * list bpf_insn)).

(** The result of an ioctl: its return value and what it left in the buffer. *)
Definition reply : Type := Z * ioctl_arg.

Definition is_null (a : ioctl_arg) : bool := match a with ArgNull => true | _ => false end.
Definition is_odd (a : ioctl_arg) : bool :=
  match a with ArgNull => false | ArgBytes o _ => o | ArgProg o _ _ => o end.

Definition arg_read (a : ioctl_arg) (off n : Z) : outcome (list Z) :=
  match a with ArgBytes _ bytes => seg_run bytes off n | _ => Fault end.
Definition arg_read32 (a : ioctl_arg) (off : Z) : outcome Z :=
  let! bs := arg_read a off 4 in Val (be_join 0 bs).
Definition arg_write (a : ioctl_arg) (off : Z) (bs : list Z) : outcome ioctl_arg :=
  match a with
  | ArgBytes o bytes =>
      if (0 <=? off) && (off + Z.of_nat (length bs) <=? Z.of_nat (length bytes))
      then Val (ArgBytes o (splice bytes off bs)) else Fault
  | _ => Fault
  end.

(** [if (buffer == NULL) return AMI_BPF_EINVAL], then the channel under lock. *)
Definition ioctl_chan (owner channel : Z) (need : bool) (a : ioctl_arg)
    (k : AmiBpfChan -> M reply) : M reply :=
  if need && is_null a then mret (AMI_BPF_EINVAL, a)
  else with_chan owner channel (fun s => (s, a)) k.

Definition ioctl_put (a : ioctl_arg) (bs : list Z) : M reply :=
  a' ← lift (arg_write a 0 bs); mret (0, a').

Definition ioctl_fionread (owner channel : Z) (a : ioctl_arg) : M reply :=
  ioctl_chan owner channel true a (fun ch => ioctl_put a (be32 (ami_bpf_buffered ch))).

Definition ioctl_gblen (owner channel : Z) (a : ioctl_arg) : M reply :=
  ioctl_chan owner channel true a (fun ch => ioctl_put a (be32 (ch_blen ch))).

(** The clamp of a buffer size, shared by BIOCSBLEN and BIOCSETIF. *)
Definition clamp_blen (want : Z) : Z :=
  let w1 := if want <? BPF_MINBUFSIZE then BPF_MINBUFSIZE else want in
  let w2 := if BPF_MAXBUFSIZE <? w1 then BPF_MAXBUFSIZE else w1 in
  BPF_WORDALIGN w2.

Definition ioctl_sblen (owner channel : Z) (a : ioctl_arg) : M reply :=
  if is_null a then mret (AMI_BPF_EINVAL, a)
  else
    want0 ← lift (arg_read32 a 0);
    let want := clamp_blen want0 in
    with_chan owner channel (fun s => (s, a)) (fun ch =>
      if decide (ch_bufbase ch = None) then
        _ ← put_chan channel (w_blen want ch);
        ioctl_put a (be32 want)
      else mret (AMI_BPF_EINVAL, a)).

Definition ioctl_flush (owner channel : Z) (a : ioctl_arg) : M reply :=
  ioctl_chan owner channel false a (fun ch =>
    _ ← put_chan channel (w_drop_count 0 (w_recv_count 0 (w_hold_pos 0 (w_hold_len 0
                            (w_store_len 0 ch)))));
    mret (0, a)).

Definition ioctl_promisc (owner channel : Z) (a : ioctl_arg) : M reply :=
  ioctl_chan owner channel false a (fun ch =>
    _ ← put_chan channel (w_promisc true ch); mret (0, a)).

Definition ioctl_gdlt (owner channel : Z) (a : ioctl_arg) : M reply :=
  ioctl_chan owner channel true a (fun ch => ioctl_put a (be32 (ch_dlt ch))).

Definition ioctl_getif (owner channel : Z) (a : ioctl_arg) : M reply :=
  ioctl_chan owner channel true a (fun ch =>
    if decide (ch_iface ch = None) then mret (AMI_BPF_EINVAL, a)
    else ioctl_put a (ch_ifname ch)).

Section Addr.
(** [ami_bpf_cookie_address]: the address the registered hook gives for a
    cookie; 0 when there is no hook. *)
Variable cookie_address : Z -> Z.

(** The 16 bytes of the [sockaddr_in]. *)
Definition sockaddr_bytes (addr : Z) : list Z :=
  [16; 2; 0; 0; u8 (Z.shiftr addr 24); u8 (Z.shiftr addr 16); u8 (Z.shiftr addr 8); u8 addr;
   0; 0; 0; 0; 0; 0; 0; 0].

Definition ioctl_gifaddr (owner channel : Z) (a : ioctl_arg) : M reply :=
  ioctl_chan owner channel true a (fun ch =>
    match ch_iface ch with
    | None => mret (AMI_BPF_EINVAL, a)
    | Some n =>
        ifp ← iface_at n;
        let cookie := if_cookie ifp in
        let addr := if cookie =? 0 then 0 else cookie_address cookie in
        a' ← lift (arg_write a AMI_BPF_IFNAMSIZ (sockaddr_bytes addr));
        mret (0, a')
    end).
End Addr.

Definition ioctl_srtimeout (owner channel : Z) (a : ioctl_arg) : M reply :=
  if is_null a then mret (AMI_BPF_EINVAL, a)
  else
    sec ← lift (arg_read32 a 0);
    usec ← lift (arg_read32 a 4);
    with_chan owner channel (fun s => (s, a)) (fun ch =>
      _ ← put_chan channel (w_rtimeout_usec usec (w_rtimeout_sec sec ch)); mret (0, a)).

Definition ioctl_grtimeout (owner channel : Z) (a : ioctl_arg) : M reply :=
  ioctl_chan owner channel true a (fun ch =>
    ioctl_put a (be32 (ch_rtimeout_sec ch) ++ be32 (ch_rtimeout_usec ch))).

Definition ioctl_gstats (owner channel : Z) (a : ioctl_arg) : M reply :=
  ioctl_chan owner channel true a (fun ch =>
    ioctl_put a (be32 (ch_recv_count ch) ++ be32 (ch_drop_count ch))).

Definition ioctl_immediate (owner channel : Z) (a : ioctl_arg) : M reply :=
  if is_null a then mret (AMI_BPF_EINVAL, a)
  else
    v ← lift (arg_read32 a 0);
    with_chan owner channel (fun s => (s, a)) (fun ch =>
      _ ← put_chan channel (w_immediate (negb (v =? 0)) ch); mret (0, a)).

Definition ioctl_version (owner channel : Z) (a : ioctl_arg) : M reply :=
  ioctl_chan owner channel true a (fun _ => ioctl_put a (be16 1 ++ be16 1)).

(** *** BIOCSETIF and BIOCSETF: a snapshot, an allocation, a commit. *)

Definition ami_bpf_ioctl_snapshot (owner channel : Z) : M (Z + Z * Z * bool) :=
  with_chan owner channel inl (fun ch =>
    g ← generation channel;
    mret (inr (g, ch_blen ch, bool_decide (ch_bufbase ch <> None)))).

Definition ami_bpf_ioctl_revalidate (owner channel gen : Z) : M (Z + AmiBpfChan) :=
  r ← ami_bpf_chan_get owner channel;
  match r with
  | inl status => mret (inl status)
  | inr ch =>
      g ← generation channel;
      if negb (g =? gen) then mret (inl AMI_BPF_ENXIO) else mret (inr ch)
  end.

(** The locked commit of BIOCSETIF: the status and the block to free. *)
Definition setif_commit (owner channel gen blen : Z) (base : option positive) (ifname : list Z)
  : M (Z * option positive) :=
  r ← ami_bpf_ioctl_revalidate owner channel gen;
  match r with
  | inl status => mret (status, base)
  | inr ch =>
      ifp ← ami_bpf_iface_by_name ifname;
      match ifp with
      | None => mret (AMI_BPF_EINVAL, base)
      | Some n =>
          x ← iface_at n;
          let '(ch1, stale) :=
            match base with
            | None => (ch, None)
            | Some b =>
                if decide (ch_bufbase ch = None) then
                  (w_hold_pos 0 (w_hold_len 0 (w_store_len 0 (w_blen blen
                     (w_hold (Some (b, blen)) (w_store (Some (b, 0)) (w_bufbase (Some b) ch)))))),
                   None)
                else (ch, Some b)
            end in
          _ ← (if decide (ch_iface ch = None) then ami_bpf_bound_inc else mret tt);
          _ ← put_chan channel (w_ifname (if_name x) (w_dlt (if_dlt x) (w_iface (Some n) ch1)));
          mret (0, stale)
      end
  end.

(** Between the snapshot and the commit: two cleared buffers, unless the channel
    has its own. *)
Definition setif_prepare (alloc_ok : bool) (blen : Z) (has_buffer : bool) : M (option positive) :=
  if has_buffer then mret None
  else ami_alloc alloc_ok (BBytes (replicate (Z.to_nat (2 *w blen)) 0)).

Definition ami_bpf_ioctl_setif (alloc_ok : bool) (owner channel : Z) (name : list Z) : M Z :=
  ifname ← lift (copy_ifname name);
  r ← ami_bpf_ioctl_snapshot owner channel;
  match r with
  | inl status => mret status
  | inr (gen, blen0, has_buffer) =>
      let blen := clamp_blen blen0 in
      base ← setif_prepare alloc_ok blen has_buffer;
      if negb has_buffer && bool_decide (base = None) then mret AMI_BPF_ENOBUFS
      else
        r2 ← setif_commit owner channel gen blen base ifname;
        _ ← ami_free r2.2;
        mret r2.1
  end.

(** The locked commit of BIOCSETF: the status and the block to free. *)
Definition setf_commit (owner channel gen count : Z) (copy : option positive)
  : M (Z * option positive) :=
  r ← ami_bpf_ioctl_revalidate owner channel gen;
  match r with
  | inl status => mret (status, copy)
  | inr ch =>
      _ ← put_chan channel (w_hold_pos 0 (w_hold_len 0 (w_store_len 0
             (w_filter_len count (w_filter copy ch)))));
      mret (0, ch_filter ch)
  end.

(** What stands between the snapshot and the commit: the private copy of the
    program, validated; an error status when there is none. *)
Definition setf_prepare (alloc_ok : bool) (count : Z) (insns : option (bool * list bpf_insn))
  : M (Z + option positive) :=
  if count =? 0 then mret (inr None)
  else match insns with
  | None => mret (inl AMI_BPF_EINVAL)
  | Some (odd, prog_insns) =>
      if (BPF_MAXINSNS <? count) || odd then mret (inl AMI_BPF_EINVAL)
      else
        let copy := take (Z.to_nat count) prog_insns in
        p ← ami_alloc alloc_ok (BInsns copy);
        match p with
        | None => mret (inl AMI_BPF_ENOBUFS)
        | Some b =>
            if (length prog_insns <? Z.to_nat count)%nat then fault
            else
              v ← lift (ami_bpf_validate (Some copy) count);
              if negb (v =? 0) then _ ← ami_free (Some b); mret (inl AMI_BPF_EINVAL)
              else mret (inr (Some b))
        end
  end.

(** [prog] is [bf_len] and [bf_insns]. *)
Definition ami_bpf_ioctl_setf (alloc_ok : bool) (owner channel : Z)
    (prog : option (Z * option (bool * list bpf_insn))) : M Z :=
  match prog with
  | None => mret AMI_BPF_EINVAL
  | Some (count, insns) =>
      r ← ami_bpf_ioctl_snapshot owner channel;
      match r with
      | inl status => mret status
      | inr (gen, _, _) =>
          p ← setf_prepare alloc_ok count insns;
          match p with
          | inl status => mret status
          | inr copy =>
              r2 ← setf_commit owner channel gen count copy;
              _ ← ami_free r2.2;
              mret r2.1
          end
      end
  end.

Section Ioctl.
Variable cookie_address : Z -> Z.
Variable alloc_ok : bool.

(** The dispatch: on direction, group and number only. *)
Definition ami_bpf_ioctl (owner channel command : Z) (a : ioctl_arg) : M reply :=
  with_chan owner channel (fun s => (s, a)) (fun _ =>
    let cmd := AMI_BPF_CMD command in
    let bytes_only := (cmd =? AMI_BPF_CMD BIOCGETIF) || (cmd =? AMI_BPF_CMD BIOCSETIF) ||
                      (cmd =? AMI_BPF_CMD AMI_BPF_SIOCGIFADDR) in
    if negb bytes_only && negb (is_null a) && is_odd a then mret (AMI_BPF_EINVAL, a)
    else if cmd =? AMI_BPF_CMD AMI_BPF_FIONREAD then ioctl_fionread owner channel a
    else if cmd =? AMI_BPF_CMD BIOCGBLEN then ioctl_gblen owner channel a
    else if cmd =? AMI_BPF_CMD BIOCSBLEN then ioctl_sblen owner channel a
    else if cmd =? AMI_BPF_CMD BIOCSETF then
      prog ← (match a with
              | ArgNull => mret None
              | ArgProg _ n insns => mret (Some (n, insns))
              | ArgBytes _ _ => fault
              end);
      s ← ami_bpf_ioctl_setf alloc_ok owner channel prog; mret (s, a)
    else if cmd =? AMI_BPF_CMD BIOCFLUSH then ioctl_flush owner channel a
    else if cmd =? AMI_BPF_CMD BIOCPROMISC then ioctl_promisc owner channel a
    else if cmd =? AMI_BPF_CMD BIOCGDLT then ioctl_gdlt owner channel a
    else if cmd =? AMI_BPF_CMD BIOCGETIF then ioctl_getif owner channel a
    else if cmd =? AMI_BPF_CMD AMI_BPF_SIOCGIFADDR then ioctl_gifaddr cookie_address owner channel a
    else if cmd =? AMI_BPF_CMD BIOCSETIF then
      match a with
      | ArgNull => mret (AMI_BPF_EINVAL, a)
      | ArgBytes _ bytes =>
          s ← ami_bpf_ioctl_setif alloc_ok owner channel bytes; mret (s, a)
      | ArgProg _ _ _ => fault
      end
    else if cmd =? AMI_BPF_CMD BIOCSRTIMEOUT then ioctl_srtimeout owner channel a
    else if cmd =? AMI_BPF_CMD BIOCGRTIMEOUT then ioctl_grtimeout owner channel a
    else if cmd =? AMI_BPF_CMD BIOCGSTATS then ioctl_gstats owner channel a
    else if cmd =? AMI_BPF_CMD BIOCIMMEDIATE then ioctl_immediate owner channel a
    else if cmd =? AMI_BPF_CMD BIOCVERSION then ioctl_version owner channel a
    else mret (AMI_BPF_EINVAL, a)).
End Ioctl.

(** ** The taps (bpf_tap.c, bpf_tap_tx.c) *)

Definition ami_bpf_tap_view (lock : Z -> bool) (now : Z * Z) (cookie : Z)
    (view : option AmiBpfView) : M unit :=
  n ← get st_bound;
  match view with
  | None => mret tt
  | Some v => if n =? 0 then mret tt else ami_bpf_capture lock now cookie v
  end.

Definition ami_bpf_tap_rx (lock : Z -> bool) (now : Z * Z) (cookie : Z)
    (frame : option (list Z)) (len : Z) : M unit :=
  n ← get st_bound;
  match frame with
  | None => mret tt
  | Some f =>
      if (n =? 0) || (len =? 0) then mret tt
      else ami_bpf_tap_view lock now cookie (Some (ami_bpf_view_linear f len))
  end.

(** An [NX_PACKET] of a chain, as the tap reads it: its buffer and the offsets
    of the prepend and append pointers in it. *)
Record nx_packet := NxPacket { nx_buf : list Z; nx_prepend : Z; nx_append : Z }.

(** The walk over the packet chain. *)
Fixpoint tap_tx_view (view : AmiBpfView) (chain : list nx_packet) : AmiBpfView :=
  match chain with
  | [] => view
  | p :: rest =>
      if nx_append p <=? nx_prepend p then tap_tx_view view rest
      else
        let '(view', st) := ami_bpf_view_add view (drop (Z.to_nat (nx_prepend p)) (nx_buf p))
                              (u32 (nx_append p - nx_prepend p)) in
        if negb (st =? 0) then view' else tap_tx_view view' rest
  end.

(** The synthesised link header. *)
Definition tx_eth (ether_type dst_msw dst_lsw : Z) (src_mac : option (list Z)) : list Z :=
  [u8 (Z.shiftr dst_msw 8); u8 dst_msw; u8 (Z.shiftr dst_lsw 24); u8 (Z.shiftr dst_lsw 16);
   u8 (Z.shiftr dst_lsw 8); u8 dst_lsw] ++
  (match src_mac with Some m => take 6 m | None => replicate 6 0 end) ++
  [u8 (Z.shiftr ether_type 8); u8 ether_type].

(** [packet]: NULL, or the chain and the [nx_packet_length] of its head.
    [lock0] is the answer of the tap's own [ami_bpf_try_lock]. *)
Definition ami_bpf_tap_tx (lock0 : bool) (lock : Z -> bool) (now : Z * Z) (cookie : Z)
    (packet : option (list nx_packet * Z)) (has_link_header : bool)
    (ether_type dst_msw dst_lsw : Z) (src_mac : option (list Z)) : M unit :=
  n ← get st_bound;
  match packet with
  | None => mret tt
  | Some (chain, packet_length) =>
      if n =? 0 then mret tt
      else if negb lock0 then mret tt
      else
        ifp ← ami_bpf_iface_by_cookie cookie;
        match ifp with
        | None => mret tt
        | Some i =>
            x ← iface_at i;
            let synth := negb has_link_header && (if_dlt x =? DLT_EN10MB) in
            let view0 := BpfView 0 0 [] in
            let view1 := if synth
                         then (ami_bpf_view_add view0 (tx_eth ether_type dst_msw dst_lsw src_mac)
                                 AMI_BPF_ETH_HDR_LEN).1
                         else view0 in
            let wirelen := if synth then packet_length +w AMI_BPF_ETH_HDR_LEN else packet_length in
            let view2 := tap_tx_view view1 chain in
            ami_bpf_capture lock now cookie (BpfView wirelen (v_caplen view2) (v_seg view2))
        end
  end.
