(* ===== verification/BpfRecord.v ===== *)
(** Capture records: their bytes, how a consumer walks them, how a buffer holds a
    sequence of them, and what the record writer and the view copy of
    [BpfChannel] store. *)

From Stdlib Require Import ZArith Lia.
From stdpp Require Import base numbers list gmap.
From S2P Require Import Prelude BpfFilter BpfValidate BpfState BpfChannel.

(** ** Alignment *)

Definition align4 (x : Z) : Z := 4 * ((x + 3) / 4).

Lemma align4_bounds x : x <= align4 x < x + 4.
Proof. unfold align4. word_lia. Qed.

Lemma align4_idem x : x mod 4 = 0 -> align4 x = x.
Proof. unfold align4. intros. word_lia. Qed.

Lemma align4_add x y : x mod 4 = 0 -> align4 (x + y) = x + align4 y.
Proof. unfold align4. intros. word_lia. Qed.

Lemma align4_mod x : align4 x mod 4 = 0.
Proof. unfold align4. rewrite Z.mul_comm. by apply Z.mod_mul. Qed.

Lemma align4_mono_le x y : x <= y -> y mod 4 = 0 -> align4 x <= y.
Proof. unfold align4. intros. word_lia. Qed.

Lemma wordalign_align4 x : 0 <= x < 2 ^ 32 - 4 -> BPF_WORDALIGN x = align4 x.
Proof.
  intros Hx. unfold BPF_WORDALIGN. rewrite u32_small by word_lia.
  replace (u32 (Z.lnot 3)) with (Z.land (Z.ones 32) (Z.lnot 3)) by reflexivity.
  rewrite Z.land_assoc, Z.land_ones, Z.mod_small by lia.
  change 3 with (Z.ones 2) at 2. rewrite <- Z.ldiff_land, Z.ldiff_ones_r by lia.
  rewrite Z.shiftl_mul_pow2, Z.shiftr_div_pow2 by lia. unfold align4. word_lia.
Qed.

(** ** Records *)

Record bpf_rec := BpfRec { rec_sec : Z; rec_usec : Z; rec_datalen : Z; rec_data : list Z }.

Definition rec_caplen (r : bpf_rec) : Z := Z.of_nat (length (rec_data r)).
Definition rec_len (r : bpf_rec) : Z := AMI_BPF_HDRLEN + rec_caplen r.

(** The wire record of the header comment of bpf_channel.c: four longwords, the
    word 20, two pad bytes, the captured bytes. *)
Definition rec_bytes (r : bpf_rec) : list Z :=
  be32 (rec_sec r) ++ be32 (rec_usec r) ++ be32 (rec_caplen r) ++ be32 (rec_datalen r) ++
  be16 AMI_BPF_HDRLEN ++ [0; 0] ++ rec_data r.

Definition rec_ok (r : bpf_rec) : Prop :=
  is_u32 (rec_sec r) /\ is_u32 (rec_usec r) /\ is_u32 (rec_datalen r) /\
  rec_len r <= BPF_MAXBUFSIZE.

Lemma rec_bytes_length r : Z.of_nat (length (rec_bytes r)) = rec_len r.
Proof. unfold rec_bytes, rec_len, rec_caplen, be32, be16. simpl. lia. Qed.

Lemma rec_len_ge r : 20 <= rec_len r.
Proof. unfold rec_len, rec_caplen. lia. Qed.

(** ** A run of records in a buffer

    [recs_at bytes base pos len rs]: the buffer that starts at [base] of [bytes]
    holds exactly the records [rs] between [pos] and [len], each on a longword
    boundary. *)

Fixpoint recs_at (bytes : list Z) (base pos len : Z) (rs : list bpf_rec) : Prop :=
  match rs with
  | [] => pos = align4 len
  | r :: rs' =>
      rec_ok r /\ pos + rec_len r <= len /\
      slice bytes (base + pos) (rec_len r) = rec_bytes r /\
      recs_at bytes base (pos + align4 (rec_len r)) len rs'
  end.

Lemma recs_at_empty bytes base : recs_at bytes base 0 0 [].
Proof. reflexivity. Qed.

Lemma recs_at_le bytes base pos len rs :
  recs_at bytes base pos len rs -> pos <= align4 len.
Proof.
  destruct rs as [|r rs]; simpl; [lia|]. intros (_ & H & _).
  pose proof (rec_len_ge r). pose proof (align4_bounds len). lia.
Qed.

Lemma recs_at_ext bytes bytes' base pos len rs :
  0 <= base -> 0 <= pos ->
  (forall o n, pos <= o -> 0 <= n -> o + n <= len ->
     slice bytes' (base + o) n = slice bytes (base + o) n) ->
  recs_at bytes base pos len rs -> recs_at bytes' base pos len rs.
Proof.
  intros Hb. revert pos. induction rs as [|r rs IH]; intros pos Hp Hext; simpl; [done|].
  intros (Hok & Hle & Hs & Hr). pose proof (rec_len_ge r). pose proof (align4_bounds (rec_len r)).
  split_and!; [done|done| |].
  - rewrite Hext by lia. done.
  - apply IH; [lia| |done]. intros o n Ho Hn Hon. apply Hext; lia.
Qed.

Lemma recs_at_snoc bytes base pos len rs r :
  0 <= base -> 0 <= pos -> pos mod 4 = 0 -> 0 <= len -> rec_ok r ->
  base + align4 len + rec_len r <= Z.of_nat (length bytes) ->
  recs_at bytes base pos len rs ->
  recs_at (splice bytes (base + align4 len) (rec_bytes r)) base pos
          (align4 len + rec_len r) (rs ++ [r]).
Proof.
  intros Hb Hp Hm Hl Hok Hlen Hrs. pose proof (align4_bounds len). pose proof (rec_len_ge r).
  pose proof (rec_bytes_length r) as Hrl. pose proof (align4_mod len) as Ham.
  revert pos Hp Hm Hrs. induction rs as [|q rs IH]; intros pos Hp Hm; simpl.
  - intros ->. split_and!; [done|lia| |].
    + rewrite <- Hrl. apply slice_splice_same; lia.
    + by rewrite align4_add.
  - intros (Hq & Hle & Hs & Hr). pose proof (rec_len_ge q). pose proof (align4_bounds (rec_len q)).
    split_and!; [done|lia| |].
    + rewrite slice_splice_out by lia. done.
    + apply IH; [lia| |done]. rewrite <- Z.add_mod_idemp_r, align4_mod, Z.add_0_r by lia. done.
Qed.

(** ** The consumer

    "Consumers step with [BPF_WORDALIGN(bh_hdrlen + bh_caplen)] and read data at
    record + [bh_hdrlen]" (bpf.h). *)
Fixpoint decode_records (fuel : nat) (bs : list Z) : list bpf_rec :=
  match fuel with
  | O => []
  | S f =>
      if Z.of_nat (length bs) <? AMI_BPF_HDR_BYTES then []
      else
        let caplen := be_join 0 (slice bs 8 4) in
        let hdrlen := be_join 0 (slice bs 16 2) in
        BpfRec (be_join 0 (slice bs 0 4)) (be_join 0 (slice bs 4 4)) (be_join 0 (slice bs 12 4))
               (slice bs hdrlen caplen)
        :: decode_records f (drop (Z.to_nat (BPF_WORDALIGN (hdrlen + caplen))) bs)
  end.

(** The fields of a record that stands at the head of [bs]. *)
Lemma rec_fields bs r rest :
  rec_ok r -> bs = rec_bytes r ++ rest ->
  be_join 0 (slice bs 0 4) = rec_sec r /\ be_join 0 (slice bs 4 4) = rec_usec r /\
  be_join 0 (slice bs 8 4) = rec_caplen r /\ be_join 0 (slice bs 12 4) = rec_datalen r /\
  be_join 0 (slice bs 16 2) = AMI_BPF_HDRLEN /\
  slice bs AMI_BPF_HDRLEN (rec_caplen r) = rec_data r.
Proof.
  intros (H1 & H2 & H3 & H4) ->. unfold rec_len in *.
  assert (is_u32 (rec_caplen r)) by (unfold rec_caplen in *; word_lia).
  split_and!.
  - by rewrite <- (be_join_be32 (rec_sec r)).
  - by rewrite <- (be_join_be32 (rec_usec r)).
  - by rewrite <- (be_join_be32 (rec_caplen r)).
  - by rewrite <- (be_join_be32 (rec_datalen r)).
  - reflexivity.
  - unfold slice, rec_caplen. rewrite Nat2Z.id. change (Z.to_nat AMI_BPF_HDRLEN) with 20%nat.
    unfold rec_bytes, be32, be16. simpl. by rewrite drop_0, take_app_length.
Qed.

(** ** Reading whole records

    [fit len used rs] splits [rs] into the longest prefix that fits in [len] bytes
    and the rest, as the scan of [ami_bpf_read] counts it. *)
Fixpoint fit (len used : Z) (rs : list bpf_rec) : list bpf_rec * list bpf_rec :=
  match rs with
  | [] => ([], [])
  | r :: rs' =>
      if len <? used + rec_len r then ([], rs)
      else let '(a, b) := fit len (used + align4 (rec_len r)) rs' in (r :: a, b)
  end.

Lemma fit_app len used rs : (fit len used rs).1 ++ (fit len used rs).2 = rs.
Proof.
  revert used. induction rs as [|r rs IH]; intros used; simpl; [done|].
  bcase; [done|]. specialize (IH (used + align4 (rec_len r))).
  destruct (fit _ _ _) as [a b]. simpl in *. by rewrite IH.
Qed.

(** Where the last of a run of records starting at [pos] ends, and where the next
    one would start. *)
Fixpoint recs_end (pos : Z) (rs : list bpf_rec) : Z :=
  match rs with
  | [] => pos
  | [r] => pos + rec_len r
  | r :: rs' => recs_end (pos + align4 (rec_len r)) rs'
  end.
Fixpoint recs_next (pos : Z) (rs : list bpf_rec) : Z :=
  match rs with
  | [] => pos
  | r :: rs' => recs_next (pos + align4 (rec_len r)) rs'
  end.

Lemma recs_at_next bytes base pos len a b :
  recs_at bytes base pos len (a ++ b) -> recs_at bytes base (recs_next pos a) len b.
Proof.
  revert pos. induction a as [|r a IH]; intros pos; simpl; [done|].
  intros (_ & _ & _ & H). by apply IH.
Qed.

Lemma recs_end_bounds bytes base pos len rs :
  rs <> [] -> recs_at bytes base pos len rs -> pos + 20 <= recs_end pos rs <= len.
Proof.
  revert pos. induction rs as [|r rs IH]; intros pos Hne; [done|].
  simpl. intros (Hok & Hle & _ & Hr). pose proof (rec_len_ge r).
  destruct rs as [|q rs]; [lia|]. specialize (IH _ ltac:(done) Hr).
  pose proof (align4_bounds (rec_len r)). lia.
Qed.

(** A consumer that walks a run of records finds exactly them. *)
Lemma decode_recs_at fuel bs pos rs :
  0 <= pos -> pos mod 4 = 0 -> (length rs <= fuel)%nat ->
  recs_at bs 0 pos (Z.of_nat (length bs)) rs ->
  decode_records fuel (drop (Z.to_nat pos) bs) = rs.
Proof.
  revert pos rs. induction fuel as [|fuel IH]; intros pos rs Hp Hm Hf Hrs.
  { destruct rs; [done|simpl in *; lia]. }
  simpl. destruct rs as [|r rs]; simpl in Hrs.
  - rewrite Hrs. pose proof (align4_bounds (Z.of_nat (length bs))).
    rewrite length_drop. bcase; [done|lia].
  - destruct Hrs as (Hok & Hle & Hs & Hrs). pose proof (rec_len_ge r).
    rewrite length_drop. bcase; [lia|].
    destruct (rec_fields (drop (Z.to_nat pos) bs) r
      (drop (Z.to_nat (rec_len r)) (drop (Z.to_nat pos) bs))) as (-> & -> & -> & -> & -> & ->).
    { done. }
    { rewrite <- Hs. unfold slice. rewrite Z.add_0_l. by rewrite take_drop. }
    change (20 + rec_caplen r) with (rec_len r).
    rewrite wordalign_align4 by (destruct Hok as (_&_&_&?); lia).
    rewrite drop_drop. pose proof (align4_bounds (rec_len r)).
    replace (Z.to_nat pos + Z.to_nat (align4 (rec_len r)))%nat
      with (Z.to_nat (pos + align4 (rec_len r))) by lia.
    rewrite (IH _ rs); [by destruct r|lia| |simpl in Hf; lia|done].
    rewrite <- Z.add_mod_idemp_r, align4_mod, Z.add_0_r by lia. done.
Qed.

Lemma recs_end_ge pos r a : pos + rec_len r <= recs_end pos (r :: a).
Proof.
  revert pos r. induction a as [|q a IH]; intros pos r; [simpl; lia|].
  change (recs_end pos (r :: q :: a)) with (recs_end (pos + align4 (rec_len r)) (q :: a)).
  specialize (IH (pos + align4 (rec_len r)) q).
  pose proof (rec_len_ge q). pose proof (align4_bounds (rec_len r)). lia.
Qed.

Lemma recs_end_le bytes base pos len a b :
  a <> [] -> recs_at bytes base pos len (a ++ b) -> recs_end pos a <= len.
Proof.
  revert pos. induction a as [|r a IH]; intros pos Hne; [done|].
  intros (Hok & Hle & _ & Hr). destruct a as [|q a]; [done|].
  by apply (IH (pos + align4 (rec_len r))).
Qed.

(** The bytes from the first to the end of the last of a prefix of the records
    are themselves a run of exactly that prefix. *)
Lemma recs_at_prefix_gen bytes base pos0 pos len a b :
  0 <= base -> 0 <= pos0 <= pos -> (pos - pos0) mod 4 = 0 -> a <> [] ->
  recs_at bytes base pos len (a ++ b) ->
  recs_at (slice bytes (base + pos0) (recs_end pos a - pos0)) 0 (pos - pos0)
          (recs_end pos a - pos0) a.
Proof.
  intros Hb. revert pos. induction a as [|r a IH]; intros pos Hp Hm Hne Hrs; [done|].
  pose proof Hrs as (Hok & Hle & Hs & Hr). fold recs_at in *.
  pose proof (rec_len_ge r). pose proof (align4_bounds (rec_len r)).
  pose proof (recs_end_ge pos r a) as Hend. cbn [recs_at].
  split_and!; [done|lia| |].
  - rewrite Z.add_0_l, slice_slice by lia. rewrite <- Hs. f_equal. lia.
  - assert (Hm' : (pos + align4 (rec_len r) - pos0) mod 4 = 0).
    { replace (pos + align4 (rec_len r) - pos0) with ((pos - pos0) + align4 (rec_len r)) by lia.
      rewrite <- Z.add_mod_idemp_r, align4_mod, Z.add_0_r by lia. done. }
    destruct a as [|q a].
    + simpl. replace (pos + rec_len r - pos0) with ((pos - pos0) + rec_len r) by lia.
      by rewrite align4_add.
    + replace (pos - pos0 + align4 (rec_len r)) with (pos + align4 (rec_len r) - pos0) by lia.
      change (recs_end pos (r :: q :: a)) with (recs_end (pos + align4 (rec_len r)) (q :: a)).
      apply IH; [lia|done|done|done].
Qed.

(** There are no more records than bytes. *)
Lemma recs_at_count bytes base pos len rs :
  recs_at bytes base pos len rs -> pos + 20 * Z.of_nat (length rs) <= Z.max pos (align4 len).
Proof.
  revert pos. induction rs as [|r rs IH]; intros pos; simpl; [lia|].
  intros (_ & Hle & _ & Hr). specialize (IH _ Hr).
  pose proof (rec_len_ge r). pose proof (align4_bounds (rec_len r)). pose proof (align4_bounds len).
  lia.
Qed.

Lemma recs_prefix_decode bytes base pos len a b :
  0 <= base -> 0 <= pos -> a <> [] -> base + len <= Z.of_nat (length bytes) ->
  recs_at bytes base pos len (a ++ b) ->
  let bs := slice bytes (base + pos) (recs_end pos a - pos) in
  decode_records (length bs) bs = a.
Proof.
  intros Hb Hp Hne Hlen Hrs bs.
  pose proof (recs_end_le _ _ _ _ _ _ Hne Hrs) as Hle.
  assert (Hge : pos + 20 <= recs_end pos a).
  { destruct a as [|r a]; [done|]. pose proof (recs_end_ge pos r a). pose proof (rec_len_ge r). lia. }
  assert (Hl : Z.of_nat (length bs) = recs_end pos a - pos) by (apply slice_length; lia).
  assert (Hrun : recs_at bs 0 0 (Z.of_nat (length bs)) a).
  { pose proof (recs_at_prefix_gen bytes base pos pos len a b Hb ltac:(lia)) as H.
    rewrite Z.sub_diag in H. rewrite Hl. apply H; done. }
  apply (decode_recs_at (length bs) bs 0 a); [lia|done| |done].
  pose proof (recs_at_count _ _ _ _ _ Hrun). pose proof (align4_bounds (Z.of_nat (length bs))). lia.
Qed.

(** ** The copy loops *)

Lemma copy_lead_app d src : (copy_lead d src).1 ++ (copy_lead d src).2 = src.
Proof.
  revert d. induction src as [|b src IH]; intros d; simpl; [done|].
  destruct (negb _); [|done]. specialize (IH (d + 1)).
  destruct (copy_lead (d + 1) src). simpl in *. by rewrite IH.
Qed.

Lemma copy_longs_app fuel src : (copy_longs fuel src).1 ++ (copy_longs fuel src).2 = src.
Proof.
  revert src. induction fuel as [|f IH]; intros src; simpl; [done|].
  destruct src as [|b0 [|b1 [|b2 [|b3 src]]]]; try done. specialize (IH src).
  destruct (copy_longs f src). simpl in *. by rewrite IH.
Qed.

(** The lead-in stops on a longword boundary of the destination. *)
Lemma copy_lead_aligned d src :
  (copy_lead d src).2 <> [] -> Z.land (d + Z.of_nat (length (copy_lead d src).1)) 3 = 0.
Proof.
  revert d. induction src as [|b src IH]; intros d; simpl; [done|].
  destruct (Z.eqb_spec (Z.land d 3) 0) as [E|E]; simpl; [by rewrite Z.add_0_r|].
  specialize (IH (d + 1)). destruct (copy_lead (d + 1) src). simpl in *. intros H.
  rewrite <- (IH H). f_equal. lia.
Qed.

Lemma copy_bytes_id d s src : ami_bpf_copy_bytes d s src = src.
Proof.
  unfold ami_bpf_copy_bytes. destruct (_ && _); [|done].
  pose proof (copy_lead_app d src) as H1. destruct (copy_lead d src) as [lead src1].
  pose proof (copy_longs_app (length src1) src1) as H2.
  destruct (copy_longs (length src1) src1) as [longs src2]. simpl in *. by rewrite H2.
Qed.

(** ** The view copy *)

Lemma view_copy_from_spec segs base off len :
  Forall seg_ok segs -> 0 <= base <= off -> 0 <= len ->
  off + len < 2 ^ 32 -> base + Z.of_nat (length (flat segs)) < 2 ^ 32 ->
  exists bs r, view_copy_from segs base off len = Val (bs, r) /\
    bs = slice (flat segs) (off - base) len /\ r = len - Z.of_nat (length bs).
Proof.
  revert base off len. induction segs as [|s rest IH]; intros base off len Hs Hb Hl Hol Hf.
  - exists [], len. split_and!; [done| |simpl; lia]. unfold slice.
    change (flat []) with (@nil Z). by rewrite drop_nil, take_nil.
  - apply Forall_cons in Hs as [Hs Hrest]. pose proof (seg_bytes_length s Hs) as Hsl.
    pose proof Hs as [Hsl' _].
    assert (Hflat : flat (s :: rest) = seg_bytes s ++ flat rest) by done.
    rewrite Hflat in *. rewrite length_app in Hf. cbn [view_copy_from].
    destruct (Z.leb_spec len 0).
    { exists [], len. assert (len = 0) as -> by lia. split_and!; [done| |simpl; lia]. done. }
    rewrite u32_small by word_lia.
    destruct (Z.leb_spec (base + seg_len s) off).
    { destruct (IH (base + seg_len s) off len) as (bs & r & E & Ebs & Er); [done|lia..|].
      exists bs, r. split_and!; [done| |done]. rewrite Ebs. unfold slice.
      rewrite drop_app_ge by lia. do 2 f_equal. lia. }
    assert (Hst : (if base <? off then off -w base else 0) = off - base).
    { destruct (Z.ltb_spec base off); [apply u32_small; word_lia|lia]. }
    cbv zeta. rewrite Hst. rewrite (u32_small (seg_len s - _)) by word_lia.
    set (n := if len <? _ then _ else _).
    assert (Hn : 0 <= n <= len /\ n <= seg_len s - (off - base) /\
                 (n < len -> n = seg_len s - (off - base))).
    { unfold n. destruct (Z.ltb_spec len (seg_len s - (off - base))); lia. }
    unfold seg_run. destruct (Z.leb_spec 0 (off - base)); [|lia].
    destruct (Z.leb_spec 0 n); [|lia]. destruct (Z.leb_spec (off - base + n) (Z.of_nat (length (seg_base s)))); [|lia].
    cbn [andb obind]. rewrite (u32_small (off + n)), (u32_small (len - n)) by word_lia.
    assert (Hrun : slice (seg_base s) (off - base) n = slice (seg_bytes s) (off - base) n).
    { unfold seg_bytes. apply slice_ext; [lia..|]. intros i Hi. by rewrite lookup_take_lt by lia. }
    assert (Hrl : Z.of_nat (length (slice (seg_bytes s) (off - base) n)) = n)
      by (apply slice_length; lia).
    destruct (decide (n = len)) as [->|Hnl].
    + exists (slice (seg_bytes s) (off - base) len), 0. rewrite Z.sub_diag.
      assert (E0 : forall l b o, view_copy_from l b o 0 = Val ([], 0)) by (by intros [|? ?]).
      rewrite E0. cbn [obind fst snd]. rewrite app_nil_r, Hrun. split_and!; [done| |lia].
      unfold slice. rewrite drop_app_le by lia. rewrite take_app_le; [done|].
      rewrite length_drop. lia.
    + destruct (IH (base + seg_len s) (off + n) (len - n)) as (bs & r & E & Ebs & Er); [done|lia..|].
      rewrite E. cbn [obind fst snd]. eexists _, r. split; [done|].
      rewrite Hrun, length_app. split; [|lia]. rewrite Ebs.
      assert (Hoff : off + n - (base + seg_len s) = 0) by lia. rewrite Hoff. unfold slice.
      rewrite drop_app_le by lia. rewrite drop_0.
      rewrite take_app. rewrite length_drop. f_equal.
      * rewrite !take_ge; [done|rewrite length_drop; lia..].
      * f_equal. lia.
Qed.

(** The bytes of a view at [0, len): what the segments hold, then zeros. *)
Definition view_bytes (v : AmiBpfView) (len : Z) : list Z :=
  take (Z.to_nat len) (flat (v_seg v)) ++
  replicate (Z.to_nat len - length (flat (v_seg v))) 0.

Lemma view_bytes_length v len : 0 <= len -> Z.of_nat (length (view_bytes v len)) = len.
Proof. intros. unfold view_bytes. rewrite length_app, length_take, length_replicate. lia. Qed.

Lemma view_copy_spec v len :
  view_ok v -> is_u32 len -> ami_bpf_view_copy v 0 len = Val (view_bytes v len).
Proof.
  intros (Hs & _ & _ & Hf) Hl. unfold ami_bpf_view_copy.
  destruct (view_copy_from_spec (v_seg v) 0 0 len) as (bs & r & -> & -> & ->); [done|word_lia..|].
  cbn [obind fst snd]. unfold view_bytes, slice. cbn [Z.to_nat Z.sub]. rewrite drop_0.
  rewrite length_take. do 3 f_equal. lia.
Qed.

(** The prefix [fit] chooses does fit, and the next record would not. *)
Lemma fit_end len used pos rs :
  (fit len used rs).1 <> [] -> recs_end pos (fit len used rs).1 - pos + used <= len.
Proof.
  revert used pos. induction rs as [|r rs IH]; intros used pos; simpl; [done|].
  bcase; [done|]. specialize (IH (used + align4 (rec_len r)) (pos + align4 (rec_len r))).
  destruct (fit len (used + align4 (rec_len r)) rs) as [a b]. simpl in *. intros _.
  destruct a as [|q a]; [lia|]. specialize (IH ltac:(done)). lia.
Qed.

Lemma fit_maximal len used rs r b :
  (fit len used rs).2 = r :: b -> len < recs_next used (fit len used rs).1 + rec_len r.
Proof.
  revert used. induction rs as [|q rs IH]; intros used; simpl; [done|].
  bcase; [by intros [= -> ->]|]. specialize (IH (used + align4 (rec_len q))).
  destruct (fit len (used + align4 (rec_len q)) rs) as [a b']. simpl in *. done.
Qed.
