(* ===== verification/BpfQueue.v ===== *)
(** A weakest precondition for the monad of [BpfState] that demands a result
    (no fault, no loop out of fuel), with the rules of the primitives, and the
    specifications of the record writer and of the record scan of
    [BpfChannel]. *)

From Stdlib Require Import ZArith Lia.
From stdpp Require Import base numbers list gmap.
From S2P Require Import Prelude BpfFilter BpfValidate BpfState BpfChannel BpfRecord.

(** ** Weakest preconditions *)

Definition wp {A} (m : M A) (Q : A -> bpf_state -> Prop) (s : bpf_state) : Prop :=
  exists a s', m s = Val (a, s') /\ Q a s'.

Lemma wp_ret {A} (a : A) Q s : Q a s -> wp (mret a) Q s.
Proof. intros H. by exists a, s. Qed.

Lemma wp_bind {A B} (m : M A) (k : A -> M B) Q s :
  wp m (fun a => wp (k a) Q) s -> wp (m ≫= k) Q s.
Proof.
  intros (a & s' & E & b & s'' & E' & H). exists b, s''. split; [|done].
  unfold mbind, M_bind. by rewrite E.
Qed.

Lemma wp_mono {A} (m : M A) (Q Q' : A -> bpf_state -> Prop) s :
  wp m Q s -> (forall a s', Q a s' -> Q' a s') -> wp m Q' s.
Proof. intros (a & s' & E & H) HQ. exists a, s'. auto. Qed.

Lemma wp_get {A} (f : bpf_state -> A) Q s : Q (f s) s -> wp (get f) Q s.
Proof. intros H. by exists (f s), s. Qed.

Lemma wp_put f Q s : Q tt (f s) -> wp (put f) Q s.
Proof. intros H. by exists tt, (f s). Qed.

Lemma wp_lift {A} (o : outcome A) (a : A) Q s : o = Val a -> Q a s -> wp (lift o) Q s.
Proof. intros -> H. by exists a, s. Qed.

Lemma wp_chan i c Q s :
  0 <= i -> st_chan s !! Z.to_nat i = Some c -> Q c s -> wp (chan i) Q s.
Proof. intros Hi Hc H. exists c, s. unfold chan. by rewrite (fetch_lookup _ _ c). Qed.

Lemma wp_generation i g Q s :
  0 <= i -> st_gen s !! Z.to_nat i = Some g -> Q g s -> wp (generation i) Q s.
Proof. intros Hi Hc H. exists g, s. unfold generation. by rewrite (fetch_lookup _ _ g). Qed.

Lemma wp_iface_at n x Q s : st_iface s !! n = Some x -> Q x s -> wp (iface_at n) Q s.
Proof. intros Hx H. exists x, s. unfold iface_at. by rewrite Hx. Qed.

Lemma wp_load_insns p l Q s :
  match p with None => l = None | Some b => exists prog, l = Some prog /\ st_heap s !! b = Some (BInsns prog) end ->
  Q l s -> wp (load_insns p) Q s.
Proof.
  intros Hp H. exists l, s. unfold load_insns. destruct p as [b|]; [|by subst].
  destruct Hp as (prog & -> & ->). done.
Qed.

Lemma wp_load_bytes p n bytes Q s :
  st_heap s !! p.1 = Some (BBytes bytes) -> 0 <= p.2 -> 0 <= n ->
  p.2 + n <= Z.of_nat (length bytes) ->
  Q (slice bytes p.2 n) s -> wp (load_bytes p n) Q s.
Proof.
  intros Hb H1 H2 H3 H. exists (slice bytes p.2 n), s. split; [|done].
  unfold load_bytes. rewrite Hb. by rewrite !(proj2 (Z.leb_le _ _)) by lia.
Qed.

Lemma wp_store_bytes p bs bytes Q s :
  st_heap s !! p.1 = Some (BBytes bytes) -> 0 <= p.2 ->
  p.2 + Z.of_nat (length bs) <= Z.of_nat (length bytes) ->
  Q tt (s_heap (<[p.1 := BBytes (splice bytes p.2 bs)]> (st_heap s)) s) ->
  wp (store_bytes p bs) Q s.
Proof.
  intros Hb H1 H2 H. eexists tt, _. split; [|exact H].
  unfold store_bytes. rewrite Hb. by rewrite !(proj2 (Z.leb_le _ _)) by lia.
Qed.

Lemma wp_alloc_ok b Q s :
  (forall p, st_heap s !! p = None -> Q (Some p) (s_heap (<[p := b]> (st_heap s)) s)) ->
  wp (ami_alloc true b) Q s.
Proof.
  intros H. eexists _, _. split; [reflexivity|]. apply H.
  apply not_elem_of_dom. apply is_fresh.
Qed.

Lemma wp_alloc_fail b Q s : Q None s -> wp (ami_alloc false b) Q s.
Proof. intros H. by exists None, s. Qed.

(** One step of symbolic execution: open a bind, take a pure value. *)
Ltac wp_step :=
  lazymatch goal with
  | |- wp (_ ≫= _) _ _ => apply wp_bind
  | |- wp (mret _) _ _ => apply wp_ret
  | |- wp (get _) _ _ => apply wp_get
  | |- wp (put _) _ _ => apply wp_put
  | |- wp (put_chan _ _) _ _ => apply wp_put
  | |- wp (log _) _ _ => apply wp_put
  end; cbv beta.
Ltac wp_steps := repeat wp_step.

(** ** The record writer *)

Lemma s_heap_twice (h1 h2 : gmap positive block) s : s_heap h2 (s_heap h1 s) = s_heap h2 s.
Proof. done. Qed.

(** A store right behind what was already spliced in. *)
Lemma wp_store_next b base off done bs bytes s s0 Q :
  st_heap s = <[b := BBytes (splice bytes base done)]> (st_heap s0) ->
  s = s_heap (st_heap s) s0 ->
  off = Z.of_nat (length done) -> 0 <= base ->
  base + Z.of_nat (length done + length bs) <= Z.of_nat (length bytes) ->
  Q tt (s_heap (<[b := BBytes (splice bytes base (done ++ bs))]> (st_heap s0)) s0) ->
  wp (store_bytes (ptr_add (b, base) off) bs) Q s.
Proof.
  intros Hh Hs -> Hb Hl HQ. eapply wp_store_bytes.
  - simpl. rewrite Hh. apply lookup_insert_eq.
  - simpl. lia.
  - simpl. rewrite splice_length by lia. lia.
  - simpl. rewrite Hh, insert_insert_eq, splice_splice by lia. by rewrite Hs, s_heap_twice.
Qed.

Lemma write_record_wp b base r view bytes Q s :
  st_heap s !! b = Some (BBytes bytes) -> 0 <= base -> view_ok view ->
  rec_datalen r = v_wirelen view -> is_u32 (rec_caplen r) ->
  rec_data r = view_bytes view (rec_caplen r) ->
  base + rec_len r <= Z.of_nat (length bytes) ->
  Q tt (s_heap (<[b := BBytes (splice bytes base (rec_bytes r))]> (st_heap s)) s) ->
  wp (write_record (b, base) (rec_sec r) (rec_usec r) (rec_caplen r) view) Q s.
Proof.
  intros Hb Hbase Hv Hw Hc Hd Hl HQ. unfold write_record, ami_bpf_put32, ami_bpf_put16.
  pose proof (rec_bytes_length r) as Hrl. unfold rec_len in *.
  assert (Hrec0 : 0 <= rec_caplen r) by (unfold rec_caplen; lia).
  wp_step. eapply wp_store_bytes; [exact Hb|simpl; lia..|].
  cbn [ptr_add fst snd]. rewrite Z.add_0_r.
  do 4 (wp_step; eapply wp_store_next; [reflexivity|reflexivity|reflexivity|done|simpl; lia|]).
  wp_step. eapply wp_store_next; [reflexivity|reflexivity|reflexivity|done|simpl; lia|].
  wp_step. eapply wp_lift; [by apply view_copy_spec|].
  eapply wp_store_next; [reflexivity|reflexivity|reflexivity|done| |].
  - rewrite <- Hd. unfold rec_caplen in *. simpl. lia.
  - rewrite <- Hd, <- Hw. exact HQ.
Qed.

(** ** The record scan *)

(** The header fields of the record at [pos], through the pointers the scan
    makes. *)
Lemma read_header b ho bytes pos len r rs s :
  st_heap s !! b = Some (BBytes bytes) -> 0 <= ho -> 0 <= pos ->
  ho + len <= Z.of_nat (length bytes) -> recs_at bytes ho pos len (r :: rs) ->
  ami_bpf_get16 (ptr_add (b, ho) (pos + 16)) s = Val (AMI_BPF_HDRLEN, s) /\
  ami_bpf_get32 (ptr_add (b, ho) (pos + 8)) s = Val (rec_caplen r, s).
Proof.
  intros Hb Hho Hp Hl (Hok & Hle & Hs & _). pose proof (rec_len_ge r) as Hr.
  destruct (rec_fields (rec_bytes r) r [] Hok) as (_ & _ & Hcap & _ & Hhdr & _).
  { by rewrite app_nil_r. }
  rewrite <- Hs in Hcap, Hhdr. rewrite slice_slice in Hcap, Hhdr by lia.
  unfold ami_bpf_get16, ami_bpf_get32, mbind, M_bind, load_bytes, ptr_add. simpl fst; simpl snd.
  rewrite Hb. rewrite !(proj2 (Z.leb_le _ _)) by lia.
  cbn [andb]. unfold mret, M_ret. rewrite !Z.add_assoc, Hcap, Hhdr. done.
Qed.

(** The scan goes over the longest prefix of whole records that fits in the
    caller's [len] bytes. *)
Lemma read_scan_spec fuel b ho bytes hp pos len hl end_ rs s :
  st_heap s !! b = Some (BBytes bytes) -> 0 <= ho -> 0 <= hp <= pos -> hl <= BPF_MAXBUFSIZE ->
  ho + hl <= Z.of_nat (length bytes) -> 0 <= len < 2 ^ 31 -> pos <= BPF_MAXBUFSIZE + 4 ->
  (length rs <= fuel)%nat ->
  recs_at bytes ho pos hl rs ->
  let a := (fit len (pos - hp) rs).1 in
  read_scan fuel (b, ho) hl hp len pos end_ s =
    Val ((recs_next pos a, if decide (a = []) then end_ else recs_end pos a), s).
Proof.
  intros Hb Hho. revert pos end_ rs. induction fuel as [|fuel IH]; intros pos end_ rs Hhp Hhl Hbl Hlen Hpos Hf Hrs;
    (destruct rs as [|r rs]; [cbn in Hrs |- *; pose proof (align4_bounds hl);
       destruct (Z.ltb_spec pos hl); [lia|done]|]).
  { simpl in Hf. lia. }
  destruct (read_header b ho bytes pos hl r rs s) as [E16 E32]; [done|lia..|done|].
  pose proof Hrs as (Hok & Hle & _ & Hr). pose proof (rec_len_ge r). fold recs_at in Hr.
  pose proof (align4_bounds (rec_len r)).
  cbn [read_scan]. destruct (Z.ltb_spec pos hl); [|lia].
  unfold mbind, M_bind. rewrite E16, E32. change (20 + rec_caplen r) with (rec_len r).
  rewrite (u32_small (rec_len r)) by word_lia.
  rewrite (u32_small (pos + rec_len r)) by word_lia. rewrite (u32_small (pos + _ - hp)) by word_lia.
  rewrite (u32_small len) by word_lia. rewrite wordalign_align4 by lia.
  rewrite (u32_small (pos + align4 _)) by word_lia. cbn [fit].
  replace (pos + rec_len r - hp) with (pos - hp + rec_len r) by lia.
  destruct (Z.ltb_spec len (pos - hp + rec_len r)) as [Hlt|Hge]; [done|].
  simpl in Hf. rewrite (IH (pos + align4 (rec_len r)) _ rs); [|lia..|done].
  replace (pos + align4 (rec_len r) - hp) with (pos - hp + align4 (rec_len r)) by lia.
  destruct (fit len (pos - hp + align4 (rec_len r)) rs) as [a a'].
  cbn [fst recs_next recs_end]. by destruct a.
Qed.

(** A channel's two buffers as a queue of records: what [rotate], the record
    writer of the tap, the look of [ami_bpf_read], its copy-out and its finish do
    to the queue. *)

(** ** The representation *)

(** Buffer sizes are what [clamp_blen] lets through. *)
Definition blen_ok (n : Z) : Prop := BPF_MINBUFSIZE <= n <= BPF_MAXBUFSIZE /\ n mod 4 = 0.

Lemma clamp_blen_ok want : is_u32 want -> blen_ok (clamp_blen want).
Proof.
  intros Hw. unfold clamp_blen.
  assert (H : forall w, 32 <= w <= 32768 -> blen_ok (BPF_WORDALIGN w)).
  { intros w Hr. rewrite wordalign_align4 by lia. pose proof (align4_bounds w).
    split; [|apply align4_mod]. pose proof (align4_mono_le w 32768 ltac:(lia) eq_refl). lia. }
  apply H. destruct (Z.ltb_spec want 32); [simpl; lia|].
  destruct (Z.ltb_spec 32768 want); lia.
Qed.

(** [halves h c b bytes so]: the channel's block [b] holds two buffers of [blen]
    bytes; the store buffer starts at [so], the hold buffer is the other one. *)
Definition halves (h : gmap positive block) (c : AmiBpfChan) (b : positive) (bytes : list Z)
    (so : Z) : Prop :=
  h !! b = Some (BBytes bytes) /\ Z.of_nat (length bytes) = 2 * ch_blen c /\
  (so = 0 \/ so = ch_blen c) /\
  ch_store c = Some (b, so) /\ ch_hold c = Some (b, ch_blen c - so).

(** [bufs h c rh rs]: the hold buffer has the records [rh] left to read, the
    store buffer the records [rs]. *)
Definition bufs (h : gmap positive block) (c : AmiBpfChan) (rh rs : list bpf_rec) : Prop :=
  match ch_bufbase c with
  | None =>
      ch_store c = None /\ ch_hold c = None /\ ch_store_len c = 0 /\ ch_hold_len c = 0 /\
      ch_hold_pos c = 0 /\ ch_reading c = false /\ rh = [] /\ rs = []
  | Some b =>
      exists bytes so, halves h c b bytes so /\
      0 <= ch_store_len c <= ch_blen c /\ recs_at bytes so 0 (ch_store_len c) rs /\
      ch_hold_len c <= ch_blen c /\ ch_hold_pos c mod 4 = 0 /\
      (0 <= ch_hold_pos c < ch_hold_len c \/ ch_hold_pos c = 0 /\ ch_hold_len c = 0) /\
      recs_at bytes (ch_blen c - so) (ch_hold_pos c) (ch_hold_len c) rh
  end.

(** [bufs] looks only at the buffer fields and at the channel's own block. *)
Lemma bufs_ext h h' c c' rh rs :
  ch_bufbase c' = ch_bufbase c -> ch_store c' = ch_store c -> ch_hold c' = ch_hold c ->
  ch_store_len c' = ch_store_len c -> ch_hold_len c' = ch_hold_len c ->
  ch_hold_pos c' = ch_hold_pos c -> ch_blen c' = ch_blen c ->
  (ch_bufbase c = None -> ch_reading c' = ch_reading c) ->
  (forall b, ch_bufbase c = Some b -> h' !! b = h !! b) ->
  bufs h c rh rs -> bufs h' c' rh rs.
Proof.
  unfold bufs, halves. intros -> -> -> -> -> -> -> Hr Hh. destruct (ch_bufbase c) as [b|].
  - by rewrite (Hh b).
  - by rewrite Hr.
Qed.

Lemma recs_at_zero bytes base rs : recs_at bytes base 0 0 rs -> rs = [].
Proof. destruct rs as [|r rs]; [done|]. intros (_ & H & _). pose proof (rec_len_ge r). lia. Qed.

Lemma recs_at_pos bytes base pos len rs :
  0 <= pos < len -> recs_at bytes base pos len rs -> rs <> [].
Proof. intros H Hr ->. simpl in Hr. pose proof (align4_bounds len). lia. Qed.

(** [ami_bpf_rotate] with an empty hold buffer: the store becomes the hold. *)
Lemma bufs_rotate h c b rh rs :
  ch_bufbase c = Some b -> ch_hold_len c = 0 -> bufs h c rh rs ->
  rh = [] /\ bufs h (ami_bpf_rotate c) rs [].
Proof.
  unfold bufs. intros Hb Hh. rewrite Hb.
  intros (bytes & so & (H1 & H2 & H3 & H4 & H5) & Hsl & Hrs & Hhl & Hm & Hp & Hrh).
  assert (Hp0 : ch_hold_pos c = 0) by lia. rewrite Hh, Hp0 in Hrh.
  split; [by apply recs_at_zero in Hrh|]. simpl. rewrite Hb.
  exists bytes, (ch_blen c - so). unfold halves; simpl. split_and!; try done; try lia.
  - rewrite H4. do 2 f_equal. lia.
  - by replace (ch_blen c - (ch_blen c - so)) with so by lia.
Qed.

(** ** The record of a packet *)

Definition packet_rec (sec usec : Z) (view : AmiBpfView) (caplen : Z) : bpf_rec :=
  BpfRec sec usec (v_wirelen view) (view_bytes view caplen).

(** A view as the taps build one: [caplen] counts bytes of the segments, and a
    header still fits in front of it in a [ULONG]. *)
Definition tap_view_ok (v : AmiBpfView) : Prop :=
  view_ok v /\ v_caplen v + AMI_BPF_HDRLEN < 2 ^ 32.

Lemma record_lens_spec slen view blen :
  tap_view_ok view -> is_u32 slen -> blen_ok blen ->
  exists caplen, record_lens slen (v_wirelen view) (v_caplen view) blen = (caplen, 20 + caplen) /\
    caplen = Z.min (Z.min slen (v_wirelen view)) (Z.min (v_caplen view) (blen - 20)) /\
    0 <= caplen /\ 20 + caplen <= blen.
Proof.
  intros ((_ & Hw & Hc & _) & Hs) Hsl [Hb _]. unfold record_lens.
  set (c0 := if slen <? _ then _ else _).
  assert (Hc0 : c0 = Z.min slen (v_wirelen view)) by (unfold c0; destruct (Z.ltb_spec slen (v_wirelen view)); lia).
  set (c1 := if v_caplen view <? _ then _ else _).
  assert (Hc1 : c1 = Z.min c0 (v_caplen view)) by (unfold c1; destruct (Z.ltb_spec (v_caplen view) c0); lia).
  rewrite (u32_small (20 + c1)) by word_lia.
  destruct (Z.ltb_spec blen (20 + c1)).
  - exists (blen - 20). rewrite u32_small by word_lia. split_and!; [f_equal|..]; word_lia.
  - exists c1. split_and!; [done|..]; word_lia.
Qed.

Lemma packet_rec_ok sec usec view caplen blen :
  is_u32 sec -> is_u32 usec -> tap_view_ok view -> blen_ok blen -> 0 <= caplen -> 20 + caplen <= blen ->
  rec_ok (packet_rec sec usec view caplen) /\ rec_caplen (packet_rec sec usec view caplen) = caplen /\
  rec_len (packet_rec sec usec view caplen) = 20 + caplen.
Proof.
  intros H1 H2 ((_ & Hw & _) & _) [Hb _] Hc Hl.
  assert (Hcap : rec_caplen (packet_rec sec usec view caplen) = caplen) by (by apply view_bytes_length).
  unfold rec_ok, rec_len. rewrite Hcap. split_and!; try done; simpl; lia.
Qed.

(** ** The tap's record writer on the queue *)

(** A record written behind the store's records, in the store's half only. *)
Lemma bufs_append h c b bytes so rh rs r :
  blen_ok (ch_blen c) -> ch_bufbase c = Some b -> halves h c b bytes so -> bufs h c rh rs ->
  rec_ok r -> align4 (ch_store_len c) + rec_len r <= ch_blen c ->
  let cur := align4 (ch_store_len c) in
  bufs (<[b := BBytes (splice bytes (so + cur) (rec_bytes r))]> h)
       (w_store_len (cur + rec_len r) c) rh (rs ++ [r]).
Proof.
  intros [Hbl _] Hb Hv Hbufs Hok Hfit cur. unfold bufs in *. rewrite Hb in Hbufs.
  destruct Hbufs as (bytes' & so' & (H1 & H2 & H3 & H4 & H5) & Hsl & Hrs & Hhl & Hm & Hp & Hrh).
  destruct Hv as (V1 & V2 & V3 & V4 & V5).
  assert (bytes' = bytes) as -> by congruence. assert (so' = so) as -> by congruence.
  pose proof (rec_bytes_length r) as Hrl. pose proof (rec_len_ge r).
  pose proof (align4_bounds (ch_store_len c)). simpl. rewrite Hb.
  exists (splice bytes (so + cur) (rec_bytes r)), so. unfold halves; simpl.
  rewrite lookup_insert_eq, splice_length by lia.
  split_and!; try done; try lia.
  - apply recs_at_snoc; try done; try lia.
  - eapply recs_at_ext; [lia..| |exact Hrh]. intros o n Ho Hn Hon.
    apply slice_splice_out; lia.
Qed.

Lemma wp_notify task mask Q s :
  (forall l, Q tt (s_log l s)) -> wp (ami_bpf_notify task mask) Q s.
Proof.
  intros H. unfold ami_bpf_notify. destruct (_ || _); wp_step; [|apply H].
  specialize (H (st_log s)). by destruct s.
Qed.

(** The fields the tap looks at, in terms of the queue. *)
Lemma bufs_facts h c b rh rs :
  ch_bufbase c = Some b -> bufs h c rh rs ->
  0 <= ch_store_len c <= ch_blen c /\ (ch_hold_len c =? 0) = bool_decide (rh = []) /\
  exists bytes so, halves h c b bytes so.
Proof.
  intros Hb Hbufs. unfold bufs in Hbufs. rewrite Hb in Hbufs.
  destruct Hbufs as (bytes & so & Hh & Hsl' & _ & _ & _ & Hp & Hrh). split_and!; [lia|lia| |eauto].
  destruct Hp as [Hp|[Hp0 Hl0]].
  - rewrite bool_decide_false by (by eapply recs_at_pos). apply Z.eqb_neq. lia.
  - rewrite Hp0, Hl0 in Hrh. apply recs_at_zero in Hrh as ->. by rewrite Hl0.
Qed.

Lemma halves_rotate h c b bytes so :
  halves h c b bytes so -> halves h (ami_bpf_rotate c) b bytes (ch_blen c - so).
Proof.
  intros (h1 & h2 & h3 & h4 & h5). unfold halves; simpl. split_and!; try done; try lia.
  rewrite h4. do 2 f_equal. lia.
Qed.

(** The channel the record goes to: rotated first when the store is full. *)
Lemma bufs_make_room h c b rh rs (full : bool) :
  ch_bufbase c = Some b -> bufs h c rh rs -> full = false \/ rh = [] ->
  let c1 := if full then ami_bpf_rotate c else c in
  (exists bytes so, halves h c1 b bytes so) /\
  bufs h c1 (if full then rs else rh) (if full then [] else rs) /\
  0 <= ch_store_len c1 /\ ch_blen c1 = ch_blen c /\ ch_bufbase c1 = Some b /\
  align4 (ch_store_len c1) = (if full then 0 else align4 (ch_store_len c)).
Proof.
  intros Hb Hbufs Hcase. destruct (bufs_facts h c b rh rs Hb Hbufs) as (Hst & Hhl & bytes & so & Hh).
  destruct full; simpl; [|split_and!; eauto; lia].
  destruct Hcase as [?| ->]; [done|].
  destruct (bufs_rotate h c b [] rs Hb) as [_ Hr]; [|done|].
  { apply Z.eqb_eq. by rewrite Hhl. }
  split_and!; try done. eexists _, _. by apply halves_rotate.
Qed.

(** What [capture_record] does to a channel that holds [rh] and [rs]: the packet
    is dropped and counted when the store is full and cannot rotate, and stands at
    the end of the queue otherwise. *)
Lemma capture_record_wp i c view slen sec usec b rh rs s Q :
  tap_view_ok view -> is_u32 slen -> is_u32 sec -> is_u32 usec ->
  blen_ok (ch_blen c) -> ch_bufbase c = Some b -> bufs (st_heap s) c rh rs ->
  let caplen := Z.min (Z.min slen (v_wirelen view)) (Z.min (v_caplen view) (ch_blen c - 20)) in
  let r := packet_rec sec usec view caplen in
  let full := ch_blen c <? align4 (ch_store_len c) + rec_len r in
  let c1 := if full then ami_bpf_rotate c else c in
  let cur := align4 (ch_store_len c1) in
  (full = true -> rh <> [] \/ ch_reading c = true ->
     Q tt (s_chan (<[Z.to_nat i := w_drop_count (ch_drop_count c +w 1) c]> (st_chan s)) s)) ->
  (full = false \/ (rh = [] /\ ch_reading c = false) -> forall bytes so l,
     halves (st_heap s) c1 b bytes so -> cur + rec_len r <= ch_blen c ->
     let c' := w_store_len (cur + rec_len r) c1 in
     let h' := <[b := BBytes (splice bytes (so + cur) (rec_bytes r))]> (st_heap s) in
     bufs h' c' (if full then rs else rh) ((if full then [] else rs) ++ [r]) ->
     Q tt (s_log l (s_chan (<[Z.to_nat i := c']> (st_chan s)) (s_heap h' s)))) ->
  wp (capture_record i c view slen sec usec) Q s.
Proof.
  intros Hv Hsl Hsec Husec Hbl Hb Hbufs caplen r full c1 cur Hdrop Hkeep.
  destruct (record_lens_spec slen view (ch_blen c) Hv Hsl Hbl) as (cl & E & -> & Hc0 & Hc1).
  fold caplen in E, Hc0, Hc1. unfold capture_record. rewrite E. cbv zeta.
  destruct (packet_rec_ok sec usec view caplen (ch_blen c)) as (Hrok & Hrcap & Hrlen); try done.
  fold r in Hrok, Hrcap, Hrlen. pose proof Hbl as [Hbl' Hblm]. rewrite <- Hrlen.
  destruct (bufs_facts _ _ _ _ _ Hb Hbufs) as (Hst & Hhl & _).
  rewrite wordalign_align4 by lia. pose proof (align4_bounds (ch_store_len c)).
  pose proof (rec_len_ge r). rewrite (u32_small (align4 _ + _)) by word_lia. fold full.
  rewrite Hhl. destruct (full && _) eqn:Ed.
  { apply andb_prop in Ed as [Ef Ed]. wp_step. apply Hdrop; [done|].
    destruct (bool_decide_reflect (rh = [])); [|by left].
    destruct (ch_reading c); [by right|done]. }
  assert (Hcase : full = false \/ rh = [] /\ ch_reading c = false).
  { destruct full; [right|by left]. destruct (bool_decide_reflect (rh = [])); [|done].
    by destruct (ch_reading c). }
  destruct (bufs_make_room (st_heap s) c b rh rs full) as
    ((bytes & so1 & Hh1) & Hbufs1 & Hst1 & Hbl1 & Hb1 & Hcur); [done|done|tauto|].
  fold c1 in Hh1, Hbufs1, Hst1, Hbl1, Hb1, Hcur. fold cur in Hcur. rewrite <- Hcur. fold c1.
  assert (Hfit : cur + rec_len r <= ch_blen c).
  { rewrite Hcur. unfold full. destruct (Z.ltb_spec (ch_blen c) (align4 (ch_store_len c) + rec_len r)); lia. }
  pose proof Hh1 as (h1 & h2 & h3 & h4 & h5). rewrite Hbl1 in *.
  wp_step. rewrite h4. cbn [deref]. wp_step. wp_step.
  pose proof (align4_bounds (ch_store_len c1)) as Hac. fold cur in Hac.
  unfold ptr_add; cbn [fst snd]. rewrite <- Hrcap.
  apply (write_record_wp b (so1 + cur) r view bytes); try done; try lia.
  { by destruct Hv. }
  { rewrite Hrcap. word_lia. }
  { unfold r at 1. simpl. by rewrite Hrcap. }
  assert (Hbuf' := bufs_append (st_heap s) c1 b bytes so1 _ _ r ltac:(by rewrite Hbl1) Hb1 Hh1 Hbufs1
    Hrok ltac:(rewrite Hbl1; exact Hfit)). cbv zeta in Hbuf'. fold cur in Hbuf'.
  specialize (Hkeep Hcase bytes so1). rewrite (u32_small (cur + _)) by word_lia.
  wp_step. wp_step. destruct (full || ch_immediate c1).
  - wp_step. apply wp_notify. intros l1. apply wp_notify. intros l2. by apply (Hkeep l2).
  - wp_step. specialize (Hkeep (st_log s)). by apply Hkeep.
Qed.

(** ** The look of [ami_bpf_read] on the queue *)

(** What a reader sees: the records in the hold buffer, or those of the store
    when the hold buffer is empty. *)
Definition readable (rh rs : list bpf_rec) : list bpf_rec := if decide (rh = []) then rs else rh.

(** The channel after the look: rotated when that was needed. *)
Definition looked (c : AmiBpfChan) : AmiBpfChan :=
  if (ch_hold_len c =? 0) && (0 <? ch_store_len c) then ami_bpf_rotate c else c.

(** [taken h c src n pos q a]: [src] and [n] delimit the bytes of the records
    [a], a prefix of the hold buffer's records [q], and [pos] is the place of the
    record behind them. *)
Definition taken (h : gmap positive block) (c : AmiBpfChan) (src : ptr) (n pos : Z)
    (q a : list bpf_rec) : Prop :=
  exists b bytes so q', ch_bufbase c = Some b /\ halves h c b bytes so /\
    q = a ++ q' /\ a <> [] /\ recs_at bytes (ch_blen c - so) (ch_hold_pos c) (ch_hold_len c) q /\
    0 <= ch_hold_pos c /\ ch_hold_pos c mod 4 = 0 /\ ch_hold_len c <= ch_blen c /\
    src = (b, ch_blen c - so + ch_hold_pos c) /\
    n = recs_end (ch_hold_pos c) a - ch_hold_pos c /\ pos = recs_next (ch_hold_pos c) a.

Lemma fit_nonempty_prefix len rs : exists q', rs = (fit len 0 rs).1 ++ q'.
Proof. exists (fit len 0 rs).2. symmetry. apply fit_app. Qed.

Lemma looked_bufs h c rh rs :
  bufs h c rh rs ->
  exists rs', bufs h (looked c) (readable rh rs) rs' /\ readable rh rs ++ rs' = rh ++ rs /\
    (ch_hold_len (looked c) =? 0) = bool_decide (rh ++ rs = []) /\
    (ch_bufbase c = None -> readable rh rs = []).
Proof.
  intros H. unfold looked, readable. destruct (ch_bufbase c) as [b|] eqn:Hb; cycle 1.
  { pose proof H as H'. unfold bufs in H'. rewrite Hb in H'. destruct H' as (_ & _ & E1 & E2 & _ & _ & -> & ->).
    exists []. rewrite E1, E2. simpl. by rewrite E2. }
  pose proof H as H'. destruct (bufs_facts h c b rh rs Hb H') as (Hst & Hhl & _). rewrite Hhl.
  unfold bufs in H'. rewrite Hb in H'.
  destruct H' as (bytes & so & _ & Hsl & Hrs & _ & _ & _ & _).
  destruct (bool_decide_reflect (rh = [])) as [->|Hne]; cycle 1.
  { rewrite decide_False by done. exists rs. simpl. rewrite Hhl.
    rewrite (bool_decide_false (rh ++ rs = [])) by (by destruct rh). done. }
  rewrite decide_True by done. apply Z.eqb_eq in Hhl.
  destruct (Z.ltb_spec 0 (ch_store_len c)).
  - exists []. destruct (bufs_rotate h c b [] rs Hb Hhl H) as [_ Hr]. simpl.
    rewrite app_nil_r. split_and!; try done.
    rewrite bool_decide_false by (by eapply (recs_at_pos _ _ 0)). apply Z.eqb_neq. lia.
  - assert (Hz : ch_store_len c = 0) by lia. rewrite Hz in Hrs. apply recs_at_zero in Hrs as ->.
    exists []. simpl. by rewrite Hhl.
Qed.

Lemma read_poll_wp owner channel gen g len c rh rs s Q :
  0 <= channel < 4 -> st_chan s !! Z.to_nat channel = Some c -> ch_open c = true ->
  ch_owner c = owner -> st_gen s !! Z.to_nat channel = Some g -> 0 < len < 2 ^ 31 ->
  blen_ok (ch_blen c) -> bufs (st_heap s) c rh rs ->
  let q := readable rh rs in
  let a := (fit len 0 q).1 in
  let seen v := s_chan (<[Z.to_nat channel := v]> (st_chan s)) s in
  (g <> gen -> Q (ReadReturn AMI_BPF_ENXIO) s) ->
  (g = gen -> ch_reading c = true -> Q (ReadReturn 0) s) ->
  (g = gen -> ch_reading c = false -> rh ++ rs = [] ->
     Q (ReadWait (ch_irq_mask c)) (seen (looked c))) ->
  (g = gen -> ch_reading c = false -> q <> [] -> a = [] ->
     Q (ReadReturn AMI_BPF_EINVAL) (seen (looked c))) ->
  (g = gen -> ch_reading c = false -> a <> [] -> forall src n pos,
     taken (st_heap s) (looked c) src n pos q a -> is_u32 n ->
     Q (ReadCopy src n pos) (seen (w_reading true (looked c)))) ->
  wp (read_poll owner channel gen len) Q s.
Proof.
  intros Hch Hc Hopen Hown Hg Hlen Hbl Hbufs q a seen Hgen Hrd Hwait Hnofit Hcopy.
  unfold read_poll, ami_bpf_chan_get.
  rewrite (proj2 (Z.ltb_ge _ _)), (proj2 (Z.leb_gt _ _)) by lia. cbn [orb].
  wp_steps. apply (wp_chan _ c); [lia|done|]. rewrite Hopen, Hown, Z.eqb_refl. cbn [negb].
  wp_steps. apply (wp_generation _ g); [lia|done|].
  destruct (Z.eqb_spec g gen) as [Eg|Eg]; cbn [negb]; [|wp_step; auto].
  destruct (ch_reading c) eqn:Erd; [wp_step; auto|].
  change (if _ && _ then _ else c) with (looked c).
  destruct (looked_bufs _ _ _ _ Hbufs) as (rs' & Hb' & Hq & Hz & Hnone). fold q in Hb', Hq, Hnone.
  wp_steps. fold (seen (looked c)). rewrite Hz. destruct (bool_decide_reflect (rh ++ rs = [])) as [He|He].
  { wp_step. replace (ch_irq_mask (looked c)) with (ch_irq_mask c); [auto|].
    unfold looked. by destruct (_ && _). }
  assert (Hbl' : ch_blen (looked c) = ch_blen c) by (unfold looked; by destruct (_ && _)).
  assert (Hbb : ch_bufbase (looked c) = ch_bufbase c) by (unfold looked; by destruct (_ && _)).
  assert (Hqne : q <> []).
  { intros E. unfold q, readable in E. destruct (decide (rh = [])) as [->|]; [by simpl in He|done]. }
  destruct (ch_bufbase c) as [b|] eqn:Hb; [|by specialize (Hnone eq_refl)].
  unfold bufs in Hb'. rewrite Hbb in Hb'.
  destruct Hb' as (bytes & so & Hh & Hsl & Hrs & Hhl & Hm & Hp & Hrh).
  pose proof Hh as (H1 & H2 & H3 & H4 & H5). rewrite Hbl' in *. pose proof Hbl as [Hbl1 _].
  rewrite H5. cbn [deref]. wp_steps.
  pose proof (recs_at_count _ _ _ _ _ Hrh) as Hcnt. pose proof (align4_bounds (ch_hold_len (looked c))).
  eexists _, _. split.
  { apply (read_scan_spec _ _ _ bytes _ _ _ _ _ q); try done; try lia. }
  rewrite Z.sub_diag. fold a.
  destruct (fit_nonempty_prefix len q) as (q' & Eq). fold a in Eq.
  destruct (decide (a = [])) as [Ea|Ea].
  { rewrite Z.eqb_refl. wp_step. auto. }
  assert (Hend : ch_hold_pos (looked c) + 20 <= recs_end (ch_hold_pos (looked c)) a <= ch_hold_len (looked c)).
  { rewrite Eq in Hrh. pose proof (recs_end_le _ _ _ _ _ _ Ea Hrh).
    destruct a as [|r a']; [done|]. pose proof (recs_end_ge (ch_hold_pos (looked c)) r a').
    pose proof (rec_len_ge r). lia. }
  destruct (Z.eqb_spec (recs_end (ch_hold_pos (looked c)) a) (ch_hold_pos (looked c))); [lia|].
  wp_steps. unfold seen in Hcopy. rewrite u32_small by word_lia. unfold seen. simpl st_chan.
  rewrite list_insert_insert_eq. apply Hcopy; [done..| |word_lia].
  exists b, bytes, so, q'. rewrite Hbl'. split_and!; try done; lia.
Qed.
