(* ===== verification/BpfInv.v ===== *)
(** The invariant of the capture layer: the tasks that stand between two locked
    stretches of an operation, what a channel, a task and the heap look like
    whenever the lock is free, and the framing lemmas the operations are checked
    with. *)

From Stdlib Require Import ZArith Lia.
From stdpp Require Import base numbers list gmap sorting.
From S2P Require Import Prelude BpfFilter BpfValidate BpfState BpfChannel BpfRecord BpfQueue.

(** ** Tasks

    Where a task that dropped the lock stands, with what it keeps in its local
    variables.  [TCopy] also carries the bytes it is to deliver. *)
Inductive task :=
| TWait (owner channel gen len waited budget : Z)
| TCopy (i : nat) (src : ptr) (nbytes pos : Z) (snap : list Z)
| TFinish (i : nat) (pos : Z)
| TRelease (i : nat)
| TSetif (owner channel gen blen : Z) (base : option positive) (ifname : list Z)
| TSetf (owner channel gen count : Z) (copy : option positive)
| TFree (blocks : list positive)
| TSnapif (owner channel gen blen : Z) (has_buffer : bool) (ifname : list Z)
| TSnapf (owner channel gen count : Z) (insns : list bpf_insn).

Definition opt_list {A} (o : option A) : list A := match o with Some a => [a] | None => [] end.

Definition chan_blocks (c : AmiBpfChan) : list positive :=
  opt_list (ch_bufbase c) ++ opt_list (ch_filter c).
Definition task_blocks (t : task) : list positive :=
  match t with
  | TSetif _ _ _ _ base _ => opt_list base
  | TSetf _ _ _ _ copy => opt_list copy
  | TFree bs => bs
  | _ => []
  end.

(** The reader of channel [i] that is past the look; the reader that has yet to
    carry out a release it found pending. *)
Definition is_reader (i : nat) (t : task) : nat :=
  match t with
  | TCopy j _ _ _ _ | TFinish j _ => if decide (j = i) then 1%nat else 0%nat
  | _ => 0%nat
  end.
Definition is_releaser (i : nat) (t : task) : nat :=
  match t with TRelease j => if decide (j = i) then 1%nat else 0%nat | _ => 0%nat end.

Definition readers (i : nat) (ts : list task) : nat := sum_list_with (is_reader i) ts.
Definition releasers (i : nat) (ts : list task) : nat := sum_list_with (is_releaser i) ts.

(** ** The invariant *)

Definition filter_repr (h : gmap positive block) (p : option positive) (len : Z) : Prop :=
  match p with
  | None => len = 0
  | Some b => exists prog, h !! b = Some (BInsns prog) /\ Z.of_nat (length prog) = len /\
                Forall insn_ok prog /\ program_valid prog
  end.

Definition chan_wf (h : gmap positive block) (ifs : list AmiBpfIf) (c : AmiBpfChan) : Prop :=
  if ch_open c then
    blen_ok (ch_blen c) /\ filter_repr h (ch_filter c) (ch_filter_len c) /\
    (exists rh rs, bufs h c rh rs) /\
    (if ch_release_pending c then ch_owner c = 0 /\ ch_iface c = None else ch_owner c <> 0) /\
    (forall n, ch_iface c = Some n -> exists x, ifs !! n = Some x /\ if_used x = true)
  else c = chan_zero.

(** The position a reader will put back is the place of a record, or the buffer
    was emptied under it. *)
Definition finish_ok (h : gmap positive block) (c : AmiBpfChan) (pos : Z) : Prop :=
  0 <= pos /\ pos mod 4 = 0 /\
  (ch_hold_len c = 0 \/
   exists b bytes so rest, ch_bufbase c = Some b /\ halves h c b bytes so /\
     recs_at bytes (ch_blen c - so) pos (ch_hold_len c) rest).

(** The bytes a reader copies outside the lock lie in the hold buffer, and are
    still those it saw under the lock. *)
Definition copy_ok (h : gmap positive block) (c : AmiBpfChan) (src : ptr) (n : Z)
    (snap : list Z) : Prop :=
  exists b bytes so, ch_bufbase c = Some b /\ halves h c b bytes so /\
    src.1 = b /\ ch_blen c - so <= src.2 /\ 0 <= n /\ src.2 + n <= ch_blen c - so + ch_blen c /\
    slice bytes src.2 n = snap.

Definition reader_ok (h : gmap positive block) (c : AmiBpfChan) (t : task) : Prop :=
  match t with
  | TCopy _ src n pos snap => copy_ok h c src n snap /\ finish_ok h c pos
  | TFinish _ pos => finish_ok h c pos
  | _ => True
  end.

Definition task_ok (chans : list AmiBpfChan) (h : gmap positive block) (t : task) : Prop :=
  match t with
  | TCopy i _ _ _ _ | TFinish i _ => exists c, chans !! i = Some c /\ reader_ok h c t
  | TRelease i => (i < 4)%nat
  | TWait owner _ _ len _ _ => owner <> 0 /\ 0 < len < 2 ^ 31
  | TSetif owner _ _ blen base _ =>
      owner <> 0 /\ blen_ok blen /\
      (forall b, base = Some b -> h !! b = Some (BBytes (replicate (Z.to_nat (2 * blen)) 0)))
  | TSetf owner _ _ count copy => owner <> 0 /\ filter_repr h copy count
  | TFree _ => True
  | TSnapif owner _ _ blen _ _ => owner <> 0 /\ blen_ok blen
  | TSnapf owner _ _ count insns =>
      owner <> 0 /\ 0 <= count <= 512 /\ Forall insn_ok insns /\ count <= Z.of_nat (length insns)
  end.

Definition bound_of (c : AmiBpfChan) : nat := if decide (ch_iface c = None) then 0%nat else 1%nat.
Definition releasing (c : AmiBpfChan) : bool := ch_release_pending c && negb (ch_reading c).
Definition b2n (b : bool) : nat := if b then 1%nat else 0%nat.

Definition owned (ts : list task) (chans : list AmiBpfChan) : list positive :=
  concat (map chan_blocks chans) ++ concat (map task_blocks ts).

Record Inv (ts : list task) (s : bpf_state) : Prop := {
  inv_nchan : length (st_chan s) = 4%nat;
  inv_ngen : length (st_gen s) = 4%nat;
  inv_nif : length (st_iface s) = 5%nat;
  inv_chan : forall i c, st_chan s !! i = Some c ->
    chan_wf (st_heap s) (st_iface s) c /\
    readers i ts = b2n (ch_reading c) /\ releasers i ts = b2n (releasing c);
  inv_task : Forall (task_ok (st_chan s) (st_heap s)) ts;
  inv_bound : st_bound s = Z.of_nat (sum_list_with bound_of (st_chan s));
  inv_heap : owned ts (st_chan s) ≡ₚ elements (dom (st_heap s));
  inv_cname : Forall (fun c => length (ch_ifname c) = 16%nat) (st_chan s);
  inv_iname : Forall (fun x => length (if_name x) = 16%nat) (st_iface s)
}.

(** ** Lists with one entry replaced *)

Lemma concat_map_insert {A B} (f : A -> list B) (l : list A) i c c' :
  l !! i = Some c ->
  exists rest, concat (map f l) ≡ₚ f c ++ rest /\ concat (map f (<[i := c']> l)) ≡ₚ f c' ++ rest.
Proof.
  intros Hi. exists (concat (map f (take i l)) ++ concat (map f (drop (S i) l))).
  rewrite (insert_take_drop l i c' ltac:(by eapply lookup_lt_Some)).
  rewrite <- (take_drop_middle l i c Hi) at 1.
  rewrite !map_app, !concat_app. simpl. split; solve_Permutation.
Qed.

Lemma sum_with_insert {A} (f : A -> nat) (l : list A) i c c' :
  l !! i = Some c ->
  (sum_list_with f (<[i := c']> l) + f c = sum_list_with f l + f c')%nat.
Proof.
  intros Hi. rewrite (insert_take_drop l i c' ltac:(by eapply lookup_lt_Some)).
  rewrite <- (take_drop_middle l i c Hi) at 3.
  rewrite !sum_list_with_app. simpl. lia.
Qed.

#[export] Instance readers_perm i : Proper (Permutation ==> eq) (readers i).
Proof. intros l1 l2 H. unfold readers. by rewrite H. Qed.
#[export] Instance releasers_perm i : Proper (Permutation ==> eq) (releasers i).
Proof. intros l1 l2 H. unfold releasers. by rewrite H. Qed.

Lemma readers_app i l1 l2 : readers i (l1 ++ l2) = (readers i l1 + readers i l2)%nat.
Proof. apply sum_list_with_app. Qed.
Lemma releasers_app i l1 l2 : releasers i (l1 ++ l2) = (releasers i l1 + releasers i l2)%nat.
Proof. apply sum_list_with_app. Qed.

Lemma owned_perm ts ts' chans : ts ≡ₚ ts' -> owned ts chans ≡ₚ owned ts' chans.
Proof. intros H. unfold owned. by rewrite H. Qed.

Lemma owned_app ts1 ts2 chans :
  owned (ts1 ++ ts2) chans ≡ₚ concat (map task_blocks ts1) ++ owned ts2 chans.
Proof. unfold owned. rewrite map_app, concat_app. solve_Permutation. Qed.

(** The order of the tasks does not matter. *)
Lemma Inv_perm ts ts' s : ts ≡ₚ ts' -> Inv ts s -> Inv ts' s.
Proof.
  intros Hp []. constructor; try done.
  - intros i c Hc. rewrite <- Hp. auto.
  - by rewrite <- Hp.
  - by rewrite <- (owned_perm _ _ _ Hp).
Qed.
#[export] Instance Inv_proper : Proper (Permutation ==> eq ==> iff) Inv.
Proof. intros ts ts' Hp s ? <-. split; apply Inv_perm; [done|by symmetry]. Qed.

(** ** Framing *)

Lemma opt_list_elem {A} (o : option A) (b : A) : b ∈ opt_list o <-> o = Some b.
Proof. destruct o; simpl; [rewrite list_elem_of_singleton|rewrite elem_of_nil]; naive_solver. Qed.

Lemma bufbase_block c b : ch_bufbase c = Some b -> b ∈ chan_blocks c.
Proof. intros H. apply elem_of_app. left. by apply opt_list_elem. Qed.
Lemma filter_block c b : ch_filter c = Some b -> b ∈ chan_blocks c.
Proof. intros H. apply elem_of_app. right. by apply opt_list_elem. Qed.

Lemma filter_repr_ext h h' p len :
  (forall b, p = Some b -> h' !! b = h !! b) -> filter_repr h p len -> filter_repr h' p len.
Proof. destruct p as [b|]; simpl; [|done]. intros H. by rewrite H. Qed.

Lemma chan_wf_ext h h' ifs c :
  (forall b, b ∈ chan_blocks c -> h' !! b = h !! b) -> chan_wf h ifs c -> chan_wf h' ifs c.
Proof.
  intros H. unfold chan_wf. destruct (ch_open c); [|done].
  intros (H1 & H2 & (rh & rs & H3) & H4 & H5). split_and!; [by destruct H1..| | |done|done].
  - eapply filter_repr_ext; [|done]. intros b Hb. apply H. by apply filter_block.
  - exists rh, rs. eapply bufs_ext; [done..| |done]. intros b Hb. apply H. by apply bufbase_block.
Qed.

Lemma halves_ext h h' c b bytes so :
  h' !! b = h !! b -> halves h c b bytes so -> halves h' c b bytes so.
Proof. unfold halves. by intros ->. Qed.

(** A reader's facts depend on the buffer fields and on the buffer block. *)
Lemma reader_ok_ext h h' c c' t :
  ch_bufbase c' = ch_bufbase c -> ch_store c' = ch_store c -> ch_hold c' = ch_hold c ->
  ch_blen c' = ch_blen c -> ch_hold_len c' = ch_hold_len c \/ ch_hold_len c' = 0 ->
  (forall b, ch_bufbase c = Some b -> h' !! b = h !! b) ->
  reader_ok h c t -> reader_ok h' c' t.
Proof.
  intros E1 E2 E3 E4 E5 Hh.
  assert (Hhalves : forall b bytes so, ch_bufbase c = Some b ->
            halves h c b bytes so -> halves h' c' b bytes so).
  { intros b bytes so Hb. unfold halves. rewrite E2, E3, E4. by rewrite Hh. }
  assert (Hf : forall pos, finish_ok h c pos -> finish_ok h' c' pos).
  { intros pos (H1 & H2 & H3). unfold finish_ok. split_and!; [done|done|].
    destruct E5 as [E5|E5]; [|by left]. rewrite E5.
    destruct H3 as [H3|(b & bytes & so & rest & Hb & Hv & Hr)]; [by left|right].
    exists b, bytes, so, rest. rewrite E1, E4. auto. }
  destruct t; simpl; try done; [|by apply Hf].
  intros ((b & bytes & so & Hb & Hv & H) & H'). split; [|by apply Hf].
  exists b, bytes, so. rewrite E1, E4. auto.
Qed.

(** A task looks at the heap only through the buffer of the channel it reads and
    through the blocks it owns. *)
Lemma task_ok_heap chans h h' t :
  (forall i c b, chans !! i = Some c -> ch_bufbase c = Some b -> h' !! b = h !! b) ->
  (forall b, b ∈ task_blocks t -> h' !! b = h !! b) ->
  task_ok chans h t -> task_ok chans h' t.
Proof.
  intros Hc Hd. destruct t as [|j src n pos snap|j pos| | | | | |]; simpl; try done.
  - intros (c & Hj & Hr). exists c. split; [done|].
    refine (reader_ok_ext h h' c c (TCopy j src n pos snap) _ _ _ _ _ _ Hr); auto. intros b. by apply (Hc j).
  - intros (c & Hj & Hr). exists c. split; [done|].
    refine (reader_ok_ext h h' c c (TFinish j pos) _ _ _ _ _ _ Hr); auto. intros b. by apply (Hc j).
  - intros (? & ? & Ht). split_and!; try done. intros b Hb. rewrite Hd; [auto|]. by apply opt_list_elem.
  - intros (? & Ht). split_and!; try done.
    eapply filter_repr_ext; [|done]. intros b Hb. apply Hd. by apply opt_list_elem.
Qed.

Lemma Inv_nodup ts s : Inv ts s -> NoDup (owned ts (st_chan s)).
Proof. intros H. rewrite (inv_heap _ _ H). apply NoDup_elements. Qed.

Lemma Inv_live ts s b : Inv ts s -> b ∈ owned ts (st_chan s) -> exists x, st_heap s !! b = Some x.
Proof.
  intros H Hb. rewrite (inv_heap _ _ H) in Hb. apply elem_of_elements, elem_of_dom in Hb. exact Hb.
Qed.

Lemma elem_concat_map {A B} (f : A -> list B) l x b : x ∈ l -> b ∈ f x -> b ∈ concat (map f l).
Proof.
  intros Hx Hb. induction Hx as [l|x y l Hx IH]; simpl; apply elem_of_app; [by left|right; auto].
Qed.

Lemma nodup_concat_disj {A B} (f : A -> list B) l i j x y b :
  NoDup (concat (map f l)) -> l !! i = Some x -> l !! j = Some y -> i <> j ->
  b ∈ f x -> b ∈ f y -> False.
Proof.
  intros Hn Hx Hy Hij Hbx Hby.
  destruct (concat_map_insert f l i x x Hx) as (rest & Hp & _).
  assert (Hin : b ∈ rest).
  { rewrite <- (take_drop_middle l i x Hx) in Hp, Hy. rewrite map_app, concat_app in Hp. simpl in Hp.
    assert (Hp' : concat (map f (take i l)) ++ concat (map f (drop (S i) l)) ≡ₚ rest).
    { apply (Permutation_app_inv_l (f x)). rewrite <- Hp. solve_Permutation. }
    rewrite <- Hp'. pose proof (lookup_lt_Some _ _ _ Hx) as Hl. apply elem_of_app.
    destruct (decide (j < i)%nat).
    - left. rewrite lookup_app_l in Hy by (rewrite length_take; lia).
      eapply elem_concat_map; [by eapply list_elem_of_lookup_2|done].
    - right. rewrite lookup_app_r in Hy by (rewrite length_take; lia). rewrite length_take in Hy.
      replace (j - i `min` length l)%nat with (S (j - i - 1)) in Hy by lia. simpl in Hy.
      eapply elem_concat_map; [by eapply list_elem_of_lookup_2|done]. }
  rewrite Hp in Hn. apply NoDup_app in Hn as (_ & Hd & _). by apply (Hd b).
Qed.

(** A block of a channel belongs to no other channel and to no task. *)
Lemma Inv_chan_disj ts s i j c d b :
  Inv ts s -> st_chan s !! i = Some c -> st_chan s !! j = Some d -> i <> j ->
  b ∈ chan_blocks c -> b ∉ chan_blocks d.
Proof.
  intros H Hc Hd Hij Hbc Hbd. pose proof (Inv_nodup _ _ H) as Hn.
  apply NoDup_app in Hn as (Hn & _). exact (nodup_concat_disj chan_blocks _ i j c d b Hn Hc Hd Hij Hbc Hbd).
Qed.

Lemma Inv_task_disj ts s i c t b :
  Inv ts s -> st_chan s !! i = Some c -> t ∈ ts -> b ∈ task_blocks t -> b ∉ chan_blocks c.
Proof.
  intros H Hc Ht Hbt Hbc. pose proof (Inv_nodup _ _ H) as Hn.
  apply NoDup_app in Hn as (_ & Hn & _). apply (Hn b).
  - eapply elem_concat_map; [by eapply list_elem_of_lookup_2|done].
  - by eapply elem_concat_map.
Qed.

(** A task stays well-formed when channel [i] changes and the heap changes only
    in that channel's blocks. *)
Lemma task_ok_frame ts s h' i c c' t :
  Inv ts s -> st_chan s !! i = Some c -> t ∈ ts ->
  (forall b, b ∉ chan_blocks c -> h' !! b = st_heap s !! b) ->
  (is_reader i t = 1%nat -> reader_ok (st_heap s) c t -> reader_ok h' c' t) ->
  task_ok (st_chan s) (st_heap s) t -> task_ok (<[i := c']> (st_chan s)) h' t.
Proof.
  intros H Hc Hin Eheap Hi Ht. pose proof (lookup_lt_Some _ _ _ Hc) as Hl.
  assert (Hd : forall b, b ∈ task_blocks t -> h' !! b = st_heap s !! b).
  { intros b Hb. apply Eheap. by eapply Inv_task_disj. }
  assert (Hreader : forall j, is_reader j t = 1%nat ->
            (exists d, st_chan s !! j = Some d /\ reader_ok (st_heap s) d t) ->
            exists d, <[i := c']> (st_chan s) !! j = Some d /\ reader_ok h' d t).
  { intros j Hj (d & Hd' & Hr). destruct (decide (j = i)) as [->|Hne].
    - rewrite Hd' in Hc. injection Hc as ->. exists c'. rewrite list_lookup_insert_eq by done. auto.
    - exists d. rewrite list_lookup_insert_ne by done. split; [done|].
      eapply reader_ok_ext; [done..|by left| |done]. intros b Hb. apply Eheap.
      eapply (Inv_chan_disj _ _ j i); try done. by apply bufbase_block. }
  destruct t as [| j| j | | | | | |]; try done.
  - apply (Hreader j); [simpl; by rewrite decide_True|done].
  - apply (Hreader j); [simpl; by rewrite decide_True|done].
  - destruct Ht as (? & ? & Ht). simpl. split_and!; try done.
    intros b Hb. rewrite Hd; [auto|]. simpl. by apply opt_list_elem.
  - destruct Ht as (? & Ht). simpl. split_and!; try done.
    eapply filter_repr_ext; [|done]. intros b Hb. apply Hd. by apply opt_list_elem.
Qed.

(** ** One channel changes

    [inv_update]: channel [i] goes from [c] to [c'], the tasks [T] are replaced by
    [T'], and the heap changes only in the channel's own blocks. *)

Lemma inv_update T T' ts0 s s' i c c' :
  Inv (T ++ ts0) s -> st_chan s !! i = Some c ->
  st_chan s' = <[i := c']> (st_chan s) -> st_gen s' = st_gen s -> st_iface s' = st_iface s ->
  st_bound s' + Z.of_nat (bound_of c) = st_bound s + Z.of_nat (bound_of c') ->
  dom (st_heap s') = dom (st_heap s) ->
  (forall b, b ∉ chan_blocks c -> st_heap s' !! b = st_heap s !! b) ->
  chan_blocks c' ++ concat (map task_blocks T') ≡ₚ chan_blocks c ++ concat (map task_blocks T) ->
  (length (ch_ifname c) = 16%nat -> length (ch_ifname c') = 16%nat) ->
  chan_wf (st_heap s') (st_iface s) c' ->
  (forall j, j <> i -> readers j T' = readers j T /\ releasers j T' = releasers j T) ->
  (readers i T' + b2n (ch_reading c) = readers i T + b2n (ch_reading c'))%nat ->
  (releasers i T' + b2n (releasing c) = releasers i T + b2n (releasing c'))%nat ->
  Forall (task_ok (<[i := c']> (st_chan s)) (st_heap s')) T' ->
  (forall t, t ∈ ts0 -> is_reader i t = 1%nat ->
     reader_ok (st_heap s) c t -> reader_ok (st_heap s') c' t) ->
  Inv (T' ++ ts0) s'.
Proof.
  intros H Hc Echan Egen Eif Ebound Edom Eheap Hblocks Hname Hwf Hcnt Hrd Hrl HT' Hts0.
  pose proof (lookup_lt_Some _ _ _ Hc) as Hi.
  assert (Hi' : <[i := c']> (st_chan s) !! i = Some c') by (by apply list_lookup_insert_eq).
  destruct (inv_chan _ _ H i c Hc) as (_ & Hrd0 & Hrl0). rewrite readers_app in Hrd0.
  rewrite releasers_app in Hrl0.
  constructor; rewrite ?Echan, ?Egen, ?Eif, ?length_insert.
  - apply (inv_nchan _ _ H).
  - apply (inv_ngen _ _ H).
  - apply (inv_nif _ _ H).
  - intros j d Hd. rewrite readers_app, releasers_app. destruct (decide (j = i)) as [->|Hj].
    + rewrite Hi' in Hd. injection Hd as <-. split_and!; [done|lia|lia].
    + rewrite list_lookup_insert_ne in Hd by done.
      destruct (inv_chan _ _ H j d Hd) as (Hw & H1 & H2).
      rewrite readers_app in H1. rewrite releasers_app in H2.
      destruct (Hcnt j Hj) as [-> ->]. split_and!; [|done|done].
      eapply chan_wf_ext; [|done]. intros b Hb. apply Eheap. by eapply (Inv_chan_disj _ _ j i).
  - apply Forall_app. split; [done|]. pose proof (inv_task _ _ H) as Ht.
    apply Forall_app in Ht as [_ Ht]. rewrite Forall_forall in Ht |- *. intros t Hin.
    eapply task_ok_frame; eauto. apply elem_of_app. by right.
  - rewrite (inv_bound _ _ H) in Ebound.
    pose proof (sum_with_insert bound_of (st_chan s) i c c' Hc). lia.
  - rewrite Edom, <- (inv_heap _ _ H), !owned_app. unfold owned.
    destruct (concat_map_insert chan_blocks (st_chan s) i c c' Hc) as (rest & H1 & H2).
    rewrite H1, H2.
    transitivity ((chan_blocks c' ++ concat (map task_blocks T')) ++ rest ++ concat (map task_blocks ts0));
      [solve_Permutation|]. rewrite Hblocks. solve_Permutation.
  - pose proof (inv_cname _ _ H) as Hn. apply Forall_insert; [done|]. apply Hname.
    by eapply (Forall_lookup_1 _ _ _ _ Hn).
  - apply (inv_iname _ _ H).
Qed.

(** Only fields that neither own a block nor count for the tasks change. *)
Lemma inv_put ts s i c c' :
  Inv ts s -> st_chan s !! i = Some c ->
  ch_iface c' = ch_iface c -> ch_bufbase c' = ch_bufbase c -> ch_filter c' = ch_filter c ->
  ch_reading c' = ch_reading c -> ch_release_pending c' = ch_release_pending c ->
  ch_store c' = ch_store c -> ch_hold c' = ch_hold c ->
  (ch_bufbase c <> None -> ch_blen c' = ch_blen c) ->
  ch_hold_len c' = ch_hold_len c \/ ch_hold_len c' = 0 ->
  ch_ifname c' = ch_ifname c ->
  chan_wf (st_heap s) (st_iface s) c' ->
  Inv ts (s_chan (<[i := c']> (st_chan s)) s).
Proof.
  intros H Hc E1 E2 E3 E4 E5 E6 E7 E8 E9 E10 Hwf.
  apply (inv_update [] [] ts s _ i c c'); unfold releasing, bound_of, chan_blocks;
    rewrite ?E1, ?E2, ?E3, ?E4, ?E5, ?E10; try done.
  intros t Hin Ht Hr. destruct (ch_bufbase c) as [b|] eqn:Hb.
  - eapply reader_ok_ext; [..|exact Hr]; try congruence; try done. apply E8. congruence.
  - destruct (inv_chan _ _ H i c Hc) as (_ & Hn & _). exfalso.
    assert (Hrd : ch_reading c = false).
    { destruct (inv_chan _ _ H i c Hc) as (Hw & _). unfold chan_wf in Hw.
      destruct (ch_open c); [|by subst]. destruct Hw as (_ & _ & (rh & rs & Hbf) & _).
      unfold bufs in Hbf. rewrite Hb in Hbf. tauto. }
    rewrite Hrd in Hn. apply list_elem_of_split in Hin as (l1 & l2 & ->).
    rewrite readers_app in Hn. unfold readers in Hn. simpl in Hn. rewrite Ht in Hn. lia.
Qed.
