(* ===== verification/BpfOps.v ===== *)
(** Every stretch of the channel operations keeps the invariant of [BpfInv]. *)

From Stdlib Require Import ZArith Lia.
From stdpp Require Import base numbers list gmap sorting.
From S2P Require Import Prelude BpfFilter BpfValidate BpfState BpfChannel BpfRecord BpfQueue.
From S2P Require Import BpfInv.

(** [keeps ts m]: with the tasks [ts] at rest, [m] returns and keeps [Inv]. *)
Definition keeps {A} (ts : list task) (m : M A) : Prop :=
  forall s, Inv ts s -> wp m (fun _ => Inv ts) s.

Lemma keeps_ret {A} ts (a : A) : keeps ts (mret a).
Proof. intros s H. by apply wp_ret. Qed.

Lemma keeps_bind {A B} ts (m : M A) (k : A -> M B) :
  keeps ts m -> (forall a, keeps ts (k a)) -> keeps ts (m ≫= k).
Proof.
  intros Hm Hk s H. apply wp_bind. eapply wp_mono; [by apply Hm|]. intros a s' H'. by apply Hk.
Qed.

Create HintDb bpf.
#[export] Hint Resolve keeps_ret keeps_bind : bpf.

(** ** Parts of the state the invariant does not look at *)

Lemma Inv_log ts s l : Inv ts s -> Inv ts (s_log l s).
Proof. intros []. by constructor. Qed.
Lemma Inv_hook ts s fn : Inv ts s -> Inv ts (s_capture_hook fn s).
Proof. intros []. by constructor. Qed.
Lemma Inv_gen ts s g : length g = 4%nat -> Inv ts s -> Inv ts (s_gen g s).
Proof. intros Hg []. by constructor. Qed.
#[export] Hint Resolve Inv_log Inv_hook : bpf.

(** ** The state a notification or the counters leave *)

Lemma wp_capture_notify v Q s : (forall l, Q tt (s_log l s)) -> wp (ami_bpf_capture_notify v) Q s.
Proof.
  intros H. unfold ami_bpf_capture_notify. wp_steps. destruct (negb _); wp_step; [apply H|].
  specialize (H (st_log s)). by destruct s.
Qed.

Lemma wp_bound_inc Q s :
  0 <= st_bound s < 2 ^ 16 - 1 ->
  (forall l, Q tt (s_log l (s_bound (st_bound s + 1) s))) -> wp ami_bpf_bound_inc Q s.
Proof.
  intros Hb H. unfold ami_bpf_bound_inc. wp_steps. rewrite (u16_small (st_bound s + 1)) by word_lia.
  simpl. destruct (_ =? 1).
  - apply wp_capture_notify. exact H.
  - wp_step. specialize (H (st_log s)). by destruct s.
Qed.

Lemma wp_bound_dec Q s :
  0 < st_bound s < 2 ^ 16 ->
  (forall l, Q tt (s_log l (s_bound (st_bound s - 1) s))) -> wp ami_bpf_bound_dec Q s.
Proof.
  intros Hb H. unfold ami_bpf_bound_dec. wp_steps. destruct (Z.eqb_spec (st_bound s) 0); [lia|].
  wp_steps. rewrite (u16_small (st_bound s - 1)) by word_lia. simpl. destruct (_ =? 0).
  - apply wp_capture_notify. exact H.
  - wp_step. specialize (H (st_log s)). by destruct s.
Qed.

Lemma Inv_bound_le ts s : Inv ts s -> 0 <= st_bound s <= 4.
Proof.
  intros H. rewrite (inv_bound _ _ H). pose proof (inv_nchan _ _ H) as Hn.
  assert (Hs : (sum_list_with bound_of (st_chan s) <= length (st_chan s))%nat); [|lia].
  clear. induction (st_chan s) as [|c l IH]; simpl; [lia|]. unfold bound_of at 1.
  destruct (decide (ch_iface c = None)); lia.
Qed.

(** A bound channel is counted. *)
Lemma Inv_bound_pos ts s i c :
  Inv ts s -> st_chan s !! i = Some c -> ch_iface c <> None -> 0 < st_bound s.
Proof.
  intros H Hc Hi. rewrite (inv_bound _ _ H).
  pose proof (sum_with_insert bound_of (st_chan s) i c chan_zero Hc) as Hs.
  unfold bound_of at 2 4 in Hs. rewrite decide_False in Hs by done. simpl in Hs. lia.
Qed.

(** ** Handles *)

Lemma Inv_chan_at ts s i : Inv ts s -> 0 <= i < 4 -> exists c, st_chan s !! Z.to_nat i = Some c.
Proof. intros H Hi. apply lookup_lt_is_Some_2. rewrite (inv_nchan _ _ H). lia. Qed.
Lemma Inv_gen_at ts s i : Inv ts s -> 0 <= i < 4 -> exists g, st_gen s !! Z.to_nat i = Some g.
Proof. intros H Hi. apply lookup_lt_is_Some_2. rewrite (inv_ngen _ _ H). lia. Qed.

(** What is known of a channel a handle of a real owner leads to. *)
Record handled (s : bpf_state) (owner i : Z) (c : AmiBpfChan) : Prop := {
  hd_range : 0 <= i < 4;
  hd_at : st_chan s !! Z.to_nat i = Some c;
  hd_open : ch_open c = true;
  hd_owner : ch_owner c = owner;
  hd_pending : ch_release_pending c = false;
  hd_blen : blen_ok (ch_blen c);
  hd_filter : filter_repr (st_heap s) (ch_filter c) (ch_filter_len c);
  hd_bufs : exists rh rs, bufs (st_heap s) c rh rs;
  hd_iface : forall n, ch_iface c = Some n -> exists x, st_iface s !! n = Some x /\ if_used x = true
}.

Lemma Inv_handled ts s owner i c :
  Inv ts s -> owner <> 0 -> 0 <= i < 4 -> st_chan s !! Z.to_nat i = Some c ->
  ch_open c = true -> ch_owner c = owner -> handled s owner i c.
Proof.
  intros H Ho Hi Hc Hopen Hown. destruct (inv_chan _ _ H _ _ Hc) as (Hw & _).
  unfold chan_wf in Hw. rewrite Hopen in Hw. destruct Hw as (H1 & H2 & H3 & H4 & H5).
  destruct (ch_release_pending c) eqn:Ep; [destruct H4; congruence|]. by constructor.
Qed.

Lemma wp_chan_get ts owner channel Q s :
  Inv ts s -> owner <> 0 -> (forall status, Q (inl status) s) ->
  (forall c, handled s owner channel c -> Q (inr c) s) ->
  wp (ami_bpf_chan_get owner channel) Q s.
Proof.
  intros H Ho Herr Hok. unfold ami_bpf_chan_get.
  destruct (_ || _) eqn:Er; [wp_step; apply Herr|].
  apply orb_false_elim in Er as [E1 E2].
  destruct (Inv_chan_at ts s channel H ltac:(lia)) as (c & Hc).
  wp_step. apply (wp_chan _ c); [lia|done|].
  destruct (ch_open c) eqn:Eo; cbn [negb]; [|wp_step; apply Herr].
  destruct (Z.eqb_spec (ch_owner c) owner); cbn [negb]; wp_step; [|apply Herr].
  apply Hok. eapply Inv_handled; try done; lia.
Qed.

Lemma wp_with_chan {A} ts owner channel err (k : AmiBpfChan -> M A) Q s :
  Inv ts s -> owner <> 0 -> (forall status, Q (err status) s) ->
  (forall c, handled s owner channel c -> wp (k c) Q s) ->
  wp (with_chan owner channel err k) Q s.
Proof.
  intros H Ho Herr Hk. unfold with_chan. wp_step.
  eapply (wp_chan_get ts); [done|done| |]; intros; cbv beta iota; [wp_step; apply Herr|auto].
Qed.

(** ** Fields the buffers, the filter and the accounting do not depend on *)

Definition same_core (c c' : AmiBpfChan) : Prop :=
  ch_open c' = ch_open c /\ ch_owner c' = ch_owner c /\ ch_iface c' = ch_iface c /\
  ch_blen c' = ch_blen c /\ ch_bufbase c' = ch_bufbase c /\ ch_store c' = ch_store c /\
  ch_hold c' = ch_hold c /\ ch_store_len c' = ch_store_len c /\ ch_hold_len c' = ch_hold_len c /\
  ch_hold_pos c' = ch_hold_pos c /\ ch_reading c' = ch_reading c /\
  ch_release_pending c' = ch_release_pending c /\ ch_filter c' = ch_filter c /\
  ch_filter_len c' = ch_filter_len c /\ ch_ifname c' = ch_ifname c.

Lemma chan_wf_same_core h ifs c c' :
  same_core c c' -> ch_open c = true -> chan_wf h ifs c -> chan_wf h ifs c'.
Proof.
  intros (E1 & E2 & E3 & E4 & E5 & E6 & E7 & E8 & E9 & E10 & E11 & E12 & E13 & E14 & E15) Ho.
  unfold chan_wf. rewrite E1, Ho, E2, E3, E4, E12, E13, E14.
  intros (H1 & H2 & (rh & rs & H3) & H4). split_and!; try apply H1; try apply H4; [done|].
  exists rh, rs. eapply bufs_ext; [..|exact H3]; auto.
Qed.

Lemma Inv_wf ts s i c :
  Inv ts s -> st_chan s !! i = Some c -> chan_wf (st_heap s) (st_iface s) c.
Proof. intros H Hc. apply (inv_chan _ _ H i c Hc). Qed.

Lemma inv_put_soft ts s i c c' :
  Inv ts s -> st_chan s !! i = Some c -> ch_open c = true -> same_core c c' ->
  Inv ts (s_chan (<[i := c']> (st_chan s)) s).
Proof.
  intros H Hc Ho Hs. pose proof (Inv_wf _ _ _ _ H Hc) as Hw.
  pose proof (chan_wf_same_core _ _ _ _ Hs Ho Hw) as Hw'.
  destruct Hs as (E1 & E2 & E3 & E4 & E5 & E6 & E7 & E8 & E9 & E10 & E11 & E12 & E13 & E14 & E15).
  by apply (inv_put ts s i c c'); auto.
Qed.

(** The record of a handle, put back with soft changes. *)
Lemma wp_put_soft {A} ts owner channel c c' (k : unit -> M A) Q s :
  Inv ts s -> handled s owner channel c -> same_core c c' ->
  (Inv ts (s_chan (<[Z.to_nat channel := c']> (st_chan s)) s) ->
   wp (k tt) Q (s_chan (<[Z.to_nat channel := c']> (st_chan s)) s)) ->
  wp (put_chan channel c' ≫= k) Q s.
Proof.
  intros H Hh Hs Hk. wp_steps. apply Hk.
  eapply inv_put_soft; eauto; [apply (hd_at _ _ _ _ Hh)|apply (hd_open _ _ _ _ Hh)].
Qed.

(** ** Masks, queries and bpf_write *)

Ltac handle H c Hh := intros; eapply (wp_with_chan _ _ _ _ _ _ _ H); [done|done|intros c Hh].

Lemma set_notify_mask_keeps ts task owner channel mask :
  owner <> 0 -> keeps ts (ami_bpf_set_notify_mask task owner channel mask).
Proof.
  intros Ho s H. handle H c Hh. eapply wp_put_soft; [done|done|done|]. intros. by wp_step.
Qed.

Lemma set_interrupt_mask_keeps ts task owner channel mask :
  owner <> 0 -> keeps ts (ami_bpf_set_interrupt_mask task owner channel mask).
Proof.
  intros Ho s H. handle H c Hh. eapply wp_put_soft; [done|done|done|]. intros. by wp_step.
Qed.

Lemma data_waiting_keeps ts owner channel : owner <> 0 -> keeps ts (ami_bpf_data_waiting owner channel).
Proof. intros Ho s H. handle H c Hh. by wp_step. Qed.

Lemma seg_run_val p start n :
  0 <= start -> 0 <= n -> start + n <= Z.of_nat (length p) -> seg_run p start n = Val (slice p start n).
Proof. intros. unfold seg_run. by rewrite !(proj2 (Z.leb_le _ _)) by lia. Qed.

(** The caller's buffer holds the [len] bytes it says. *)
Lemma write_keeps inj ts owner channel buffer len :
  owner <> 0 -> match buffer with Some f => len <= Z.of_nat (length f) | None => True end ->
  keeps ts (ami_bpf_write inj owner channel buffer len).
Proof.
  intros Ho Hb s H. handle H c Hh. destruct buffer as [frame|]; [|by wp_step].
  destruct (Z.leb_spec len 0); [by wp_step|].
  destruct (ch_iface c) as [n|] eqn:Ei; [|by wp_step].
  destruct (hd_iface _ _ _ _ Hh n Ei) as (x & Hx & _).
  wp_step. apply (wp_iface_at _ x); [done|].
  destruct (if_inject x =? 0); [by wp_step|].
  destruct (negb _).
  - destruct (_ && _); [by wp_step|]. wp_step. eapply wp_lift; [apply seg_run_val; lia|].
    unfold call_inject. wp_steps. eauto with bpf.
  - destruct (Z.ltb_spec len 14); [by wp_step|].
    destruct (fetch_val frame 12) as (hi & Ehi & _); [lia|].
    destruct (fetch_val frame 13) as (lo & Elo & _); [lia|].
    wp_step. eapply wp_lift; [exact Ehi|]. wp_step. eapply wp_lift; [exact Elo|]. cbv zeta.
    destruct (_ && _); [by wp_step|]. wp_step. eapply wp_lift; [apply seg_run_val; lia|].
    unfold call_inject. wp_steps. eauto with bpf.
Qed.

(** ** Opening *)

Lemma first_free_spec l i :
  let r := first_free l i in
  i <= r <= i + Z.of_nat (length l) /\
  (r < i + Z.of_nat (length l) -> exists c, l !! Z.to_nat (r - i) = Some c /\ ch_open c = false).
Proof.
  revert i. induction l as [|c l IH]; intros i; simpl; [lia|].
  destruct (ch_open c) eqn:E; simpl.
  - destruct (IH (i + 1)) as [H1 H2]. split; [lia|]. intros Hlt.
    destruct H2 as (d & Hd & Hd'); [lia|]. exists d. split; [|done].
    replace (Z.to_nat (first_free l (i + 1) - i)) with (S (Z.to_nat (first_free l (i + 1) - (i + 1)))) by lia.
    done.
  - split; [lia|]. intros _. exists c. by rewrite Z.sub_diag.
Qed.

(** A channel that is not open is the zeroed one. *)
Lemma Inv_closed_zero ts s i c :
  Inv ts s -> st_chan s !! i = Some c -> ch_open c = false -> c = chan_zero.
Proof. intros H Hc Ho. pose proof (Inv_wf _ _ _ _ H Hc) as Hw. unfold chan_wf in Hw. by rewrite Ho in Hw. Qed.

Definition opened (owner : Z) : AmiBpfChan :=
  w_dlt DLT_EN10MB (w_blen AMI_BPF_DEFAULT_BLEN (w_owner owner (w_open true chan_zero))).

Lemma opened_wf h ifs owner : owner <> 0 -> chan_wf h ifs (opened owner).
Proof.
  intros Ho. unfold chan_wf; simpl. split_and!; try done.
  by exists [], [].
Qed.

Lemma open_keeps ts owner channel : owner <> 0 -> keeps ts (ami_bpf_open owner channel).
Proof.
  intros Ho s H. unfold ami_bpf_open. destruct (Z.leb_spec 4 channel); [by wp_step|].
  wp_step. eapply (wp_mono _ (fun i s' => s' = s /\ 0 <= i <= 4)).
  { destruct (Z.ltb_spec channel 0); wp_step; (split; [done|]); [|lia].
    pose proof (first_free_spec (st_chan s) 0) as [Hf _]. rewrite (inv_nchan _ _ H) in Hf. lia. }
  intros i s' [-> Hi]. destruct (Z.eqb_spec i 4); [by wp_step|].
  destruct (Inv_chan_at ts s i H ltac:(lia)) as (c & Hc).
  wp_step. apply (wp_chan _ c); [lia|done|]. destruct (ch_open c) eqn:Eo; [by wp_step|].
  pose proof (Inv_closed_zero _ _ _ _ H Hc Eo) as ->.
  destruct (Inv_gen_at ts s i H ltac:(lia)) as (g & Hg).
  wp_steps. apply (wp_generation _ g); [lia|done|]. cbv zeta. wp_steps.
  apply (Inv_gen _ (s_chan (<[Z.to_nat i := opened owner]> (st_chan s)) s)).
  { simpl. rewrite length_insert. apply (inv_ngen _ _ H). }
  apply (inv_put ts s (Z.to_nat i) chan_zero); try done; [by right|by apply opened_wf].
Qed.

(** ** Releasing *)

(** A channel is retired: its blocks pass to a task that frees them. *)
Definition release_task (blocks : option (option positive * option positive)) : list task :=
  match blocks with
  | None => []
  | Some (bufbase, filter) => [TFree (opt_list bufbase ++ opt_list filter)]
  end.

Lemma chan_zero_wf h ifs : chan_wf h ifs chan_zero.
Proof. done. Qed.

(** A channel with no reader past the look. *)
Lemma Inv_no_reader ts s i c t :
  Inv ts s -> st_chan s !! i = Some c -> ch_reading c = false -> t ∈ ts -> is_reader i t <> 1%nat.
Proof.
  intros H Hc Hr Hin Ht. destruct (inv_chan _ _ H i c Hc) as (_ & Hn & _). rewrite Hr in Hn.
  apply list_elem_of_split in Hin as (l1 & l2 & ->).
  rewrite readers_app in Hn. unfold readers in Hn. simpl in Hn. rewrite Ht in Hn. lia.
Qed.

(** Retiring the slot of a channel that nobody reads; [T] is the releaser that
    does it, if the release was pending. *)
Lemma inv_retire T ts s i c bound :
  Inv (T ++ ts) s -> st_chan s !! i = Some c -> ch_reading c = false ->
  bound + Z.of_nat (bound_of c) = st_bound s ->
  T = (if ch_release_pending c then [TRelease i] else []) ->
  forall l, Inv ([TFree (chan_blocks c)] ++ ts)
    (s_chan (<[i := chan_zero]> (st_chan s)) (s_log l (s_bound bound s))).
Proof.
  intros H Hc Hr Hb HT l.
  apply (inv_update T _ ts s _ i c chan_zero); try done.
  - change (bound_of chan_zero) with 0%nat. change (st_bound (s_chan _ _)) with bound. lia.
  - destruct (ch_release_pending c); subst T; simpl; rewrite ?app_nil_r; done.
  - intros j Hj. destruct (ch_release_pending c); subst T; [|done]. simpl.
    unfold releasers; simpl. by rewrite decide_False.
  - rewrite Hr. by destruct (ch_release_pending c); subst T.
  - unfold releasing. rewrite Hr. destruct (ch_release_pending c); subst T; [|done].
    unfold releasers; simpl. by rewrite decide_True.
  - by constructor.
  - intros t Hin Ht. exfalso. eapply (Inv_no_reader _ _ i c t); try done.
    apply elem_of_app. by right.
Qed.

(** The bound count goes down with the channel. *)
Lemma wp_unbind_count ts c i Q s :
  Inv ts s -> st_chan s !! i = Some c ->
  (forall l bound, bound + Z.of_nat (bound_of c) = st_bound s -> Q tt (s_log l (s_bound bound s))) ->
  wp (if decide (ch_iface c = None) then mret tt else ami_bpf_bound_dec) Q s.
Proof.
  intros H Hc HQ. unfold bound_of in HQ. destruct (decide (ch_iface c = None)) as [Hn|Hn].
  - wp_step. specialize (HQ (st_log s) (st_bound s)). destruct s. apply HQ. simpl. lia.
  - pose proof (Inv_bound_le _ _ H). pose proof (Inv_bound_pos _ _ _ _ H Hc Hn).
    apply wp_bound_dec; [lia|]. intros l. apply HQ. lia.
Qed.

Lemma close_locked_inv ts owner channel s :
  owner <> 0 -> Inv ts s ->
  wp (close_locked owner channel)
     (fun r => Inv ((match r with inl _ => [] | inr b => release_task (Some b) end) ++ ts)) s.
Proof.
  intros Ho H. handle H c Hh. destruct (ch_reading c) eqn:Er; [by wp_step|].
  wp_step. eapply wp_unbind_count; [done|apply (hd_at _ _ _ _ Hh)|]. intros l bound Hb.
  wp_steps. eapply (inv_retire [] ts s (Z.to_nat channel) c bound); try done.
  - apply (hd_at _ _ _ _ Hh).
  - by rewrite (hd_pending _ _ _ _ Hh).
Qed.

(** [ami_bpf_close_owner] reaching a channel a reader is copying out of: the
    channel is unbound and left to the reader. *)
Lemma inv_defer ts s i c bound :
  Inv ts s -> st_chan s !! i = Some c -> ch_open c = true -> ch_reading c = true ->
  ch_owner c <> 0 ->
  bound + Z.of_nat (bound_of c) = st_bound s ->
  forall l, Inv ts (s_chan (<[i := w_release_pending true (w_iface None (w_owner 0 c))]> (st_chan s))
                      (s_log l (s_bound bound s))).
Proof.
  intros H Hc Ho Hr Hown Hb l. eapply (inv_update [] [] ts s _ i c); try done.
  - change (bound_of (w_release_pending _ _)) with 0%nat.
    change (st_bound (s_chan _ _)) with bound. lia.
  - pose proof (Inv_wf _ _ _ _ H Hc) as Hw. unfold chan_wf in *. simpl. rewrite Ho in *.
    destruct Hw as (H1 & H2 & (rh & rs & H3) & _). split_and!; try apply H1; try done.
    exists rh, rs. refine (bufs_ext _ _ c _ rh rs _ _ _ _ _ _ _ _ _ H3); done.
  - unfold releasing. simpl. rewrite Hr. by rewrite andb_false_r.
Qed.

Lemma release_owner_inv ts i owner s :
  owner <> 0 -> 0 <= i < 4 -> Inv ts s ->
  wp (chan_release_locked i false owner) (fun r => Inv (release_task r ++ ts)) s.
Proof.
  intros Ho Hi H. unfold chan_release_locked. destruct (Inv_chan_at ts s i H Hi) as (c & Hc).
  wp_step. apply (wp_chan _ c); [lia|done|]. rewrite (proj2 (Z.eqb_neq owner 0)) by done. cbn [negb andb].
  destruct (ch_open c) eqn:Eo; cbn [negb orb]; [|by wp_step].
  destruct (Z.eqb_spec (ch_owner c) owner) as [Ew|]; cbn [negb]; [|by wp_step].
  wp_step. eapply wp_unbind_count; [done..|]. intros l bound Hb. rewrite andb_true_r.
  destruct (ch_reading c) eqn:Er; wp_steps.
  - apply (inv_defer ts s (Z.to_nat i) c bound); congruence.
  - pose proof (Inv_handled ts s owner i c H Ho Hi Hc Eo Ew) as Hh.
    apply (inv_retire [] ts s (Z.to_nat i) c bound); try done. by rewrite (hd_pending _ _ _ _ Hh).
Qed.

(** The reader that found a release pending carries it out. *)
Lemma release_pending_inv ts i s :
  Inv ([TRelease i] ++ ts) s ->
  wp (chan_release_locked (Z.of_nat i) false 0) (fun r => Inv (release_task r ++ ts)) s.
Proof.
  intros H. pose proof (inv_task _ _ H) as Ht. apply Forall_app in Ht as [Ht _].
  apply Forall_inv in Ht. simpl in Ht.
  destruct (Inv_chan_at _ s (Z.of_nat i) H ltac:(lia)) as (c & Hc). rewrite Nat2Z.id in Hc.
  destruct (inv_chan _ _ H i c Hc) as (Hw & _ & Hrl). rewrite releasers_app in Hrl.
  unfold releasers at 1 in Hrl. simpl in Hrl. rewrite decide_True in Hrl by done.
  assert (Hrel : ch_release_pending c = true /\ ch_reading c = false).
  { unfold releasing in Hrl. destruct (ch_release_pending c), (ch_reading c); simpl in Hrl; try lia; done. }
  destruct Hrel as [Hp Hr]. unfold chan_release_locked.
  wp_step. apply (wp_chan _ c); [lia|by rewrite Nat2Z.id|]. cbn [negb andb Z.eqb].
  wp_step. eapply wp_unbind_count; [done..|]. intros l bound Hb. rewrite Hr. cbn [andb negb].
  wp_steps. rewrite Nat2Z.id. apply (inv_retire [TRelease i] ts s i c bound); try done. by rewrite Hp.
Qed.

(** Freeing a block a task owns. *)
Lemma free_inv ts s b bs :
  Inv (TFree (b :: bs) :: ts) s ->
  wp (ami_free (Some b)) (fun _ => Inv (TFree bs :: ts)) s.
Proof.
  intros H. pose proof (Inv_nodup _ _ H) as Hn.
  assert (Hp : owned (TFree (b :: bs) :: ts) (st_chan s) ≡ₚ b :: owned (TFree bs :: ts) (st_chan s)).
  { unfold owned. simpl. solve_Permutation. }
  rewrite Hp in Hn. apply NoDup_cons in Hn as [Hnb _].
  destruct (Inv_live _ _ b H) as (x & Hx); [rewrite Hp; by left|].
  eexists tt, _. split; [unfold ami_free; by rewrite Hx|].
  assert (Hne : forall b', b' ∈ owned (TFree bs :: ts) (st_chan s) ->
                  delete b (st_heap s) !! b' = st_heap s !! b').
  { intros b' Hb'. apply lookup_delete_ne. congruence. }
  constructor; simpl; try apply H.
  - intros i c Hc. destruct (inv_chan _ _ H i c Hc) as (Hw & H1 & H2). split_and!; [|done|done].
    eapply chan_wf_ext; [|done]. intros b' Hb'. apply Hne. apply elem_of_app. left.
    eapply elem_concat_map; [by eapply list_elem_of_lookup_2|done].
  - pose proof (inv_task _ _ H) as Ht. apply Forall_cons in Ht as [_ Ht]. constructor; [done|].
    rewrite Forall_forall in Ht |- *. intros t Hin. specialize (Ht t Hin).
    assert (Hd : forall b', b' ∈ task_blocks t -> delete b (st_heap s) !! b' = st_heap s !! b').
    { intros b' Hb'. apply Hne. apply elem_of_app. right. simpl. apply elem_of_app. right.
      by eapply elem_concat_map. }
    eapply task_ok_heap; [|exact Hd|exact Ht].
    intros i c b' Hc Hb'. apply Hne. apply elem_of_app. left.
    eapply elem_concat_map; [by eapply list_elem_of_lookup_2|by apply bufbase_block].
  - rewrite dom_delete_L. apply (Permutation_cons_inv (a := b)). rewrite <- Hp, (inv_heap _ _ H).
    assert (Hin : b ∈ dom (st_heap s)) by (apply elem_of_dom; by rewrite Hx).
    rewrite <- elements_union_singleton by (rewrite elem_of_difference, elem_of_singleton; tauto).
    by rewrite <- union_difference_singleton_L.
Qed.

(** ** Binding *)

Lemma wp_for_chan n i f (I : Z -> bpf_state -> Prop) s :
  I i s ->
  (forall j s', i <= j < i + Z.of_nat n -> I j s' -> wp (f j) (fun _ => I (j + 1)) s') ->
  wp (for_chan n i f) (fun _ => I (i + Z.of_nat n)) s.
Proof.
  revert i s. induction n as [|n IH]; intros i s HI Hf; cbn [for_chan].
  - wp_step. by rewrite Z.add_0_r.
  - wp_step. eapply wp_mono; [apply Hf; [lia|done]|]. intros [] s' H'. cbv beta.
    replace (i + Z.of_nat (S n)) with (i + 1 + Z.of_nat n) by lia. apply IH; [done|].
    intros j s'' Hj. apply Hf. lia.
Qed.

(** A channel's binding changes. *)
Lemma inv_rebind ts s i c v d bound :
  Inv ts s -> st_chan s !! i = Some c -> ch_open c = true -> ch_release_pending c = false ->
  (forall n, v = Some n -> exists x, st_iface s !! n = Some x /\ if_used x = true) ->
  bound + Z.of_nat (bound_of c) = st_bound s + (if decide (v = None) then 0 else 1) ->
  forall l, Inv ts (s_chan (<[i := w_dlt d (w_iface v c)]> (st_chan s)) (s_log l (s_bound bound s))).
Proof.
  intros H Hc Ho Hp Hv Hb l. eapply (inv_update [] [] ts s _ i c); try done.
  - change (st_bound (s_chan _ _)) with bound. rewrite Hb. unfold bound_of at 1. simpl.
    destruct (decide (v = None)); lia.
  - pose proof (Inv_wf _ _ _ _ H Hc) as Hw. unfold chan_wf in *. simpl. rewrite Ho, Hp in *.
    destruct Hw as (H1 & H2 & (rh & rs & H3) & H4 & _). split_and!; try apply H1; try done.
    exists rh, rs. refine (bufs_ext _ _ c _ rh rs _ _ _ _ _ _ _ _ _ H3); done.
Qed.

Lemma Inv_ifaces ts s ifs :
  length ifs = 5%nat -> Forall (fun x => length (if_name x) = 16%nat) ifs ->
  (forall i c n, st_chan s !! i = Some c -> ch_iface c = Some n ->
     exists x, ifs !! n = Some x /\ if_used x = true) ->
  Inv ts s -> Inv ts (s_iface ifs s).
Proof.
  intros Hl Hnm Hn H. constructor; try apply H; try done. intros i c Hc.
  destruct (inv_chan _ _ H i c Hc) as (Hw & H1 & H2). split_and!; [|done|done].
  unfold chan_wf in *. destruct (ch_open c); [|done].
  destruct Hw as (W1 & W2 & W3 & W4 & W5). split_and!; try apply W1; try done.
  intros n. by apply (Hn i c n).
Qed.

(** A channel bound to an interface is open and not on its way out. *)
Lemma Inv_bound_open ts s i c n :
  Inv ts s -> st_chan s !! i = Some c -> ch_iface c = Some n ->
  ch_open c = true /\ ch_release_pending c = false /\
  exists x, st_iface s !! n = Some x /\ if_used x = true.
Proof.
  intros H Hc Hn. pose proof (Inv_wf _ _ _ _ H Hc) as Hw. unfold chan_wf in Hw.
  destruct (ch_open c); [|by subst c]. destruct Hw as (_ & _ & _ & Hp & Hif).
  split; [done|]. destruct (ch_release_pending c); [destruct Hp; congruence|]. eauto.
Qed.

Lemma unbind_inv ts ifp s :
  Inv ts s ->
  wp (ami_bpf_chan_unbind_locked ifp) (fun _ s' => Inv ts s' /\ st_iface s' = st_iface s /\
       (forall i c, st_chan s' !! i = Some c -> ch_iface c <> Some ifp)) s.
Proof.
  intros H. eapply wp_mono.
  - apply (wp_for_chan 4 0 _ (fun j s' => Inv ts s' /\ st_iface s' = st_iface s /\
      (forall i c, Z.of_nat i < j -> st_chan s' !! i = Some c -> ch_iface c <> Some ifp))).
    { split_and!; [done|done|]. intros. lia. }
    intros j s' Hj (H' & Eif & Hpre). destruct (Inv_chan_at ts s' j H' ltac:(lia)) as (c & Hc).
    wp_step. apply (wp_chan _ c); [lia|done|].
    assert (Hlt : forall s'', st_iface s'' = st_iface s' -> Inv ts s'' -> forall c',
              st_chan s'' = <[Z.to_nat j := c']> (st_chan s') -> ch_iface c' <> Some ifp ->
              Inv ts s'' /\ st_iface s'' = st_iface s /\
              (forall i d, Z.of_nat i < j + 1 -> st_chan s'' !! i = Some d -> ch_iface d <> Some ifp)).
    { intros s'' E1 E2 c' E3 E4. split_and!; [done|congruence|]. intros i d Hi Hd. rewrite E3 in Hd.
      destruct (decide (i = Z.to_nat j)) as [->|Hne].
      - rewrite list_lookup_insert_eq in Hd by (by eapply lookup_lt_Some). congruence.
      - rewrite list_lookup_insert_ne in Hd by done. apply (Hpre i d); [lia|done]. }
    destruct (bool_decide_reflect (ch_iface c = Some ifp)) as [Ei|Ei].
    + destruct (Inv_bound_open _ _ _ _ _ H' Hc Ei) as (Eo & Ep & _). rewrite Eo. cbn [andb].
      pose proof (Inv_bound_le _ _ H'). pose proof (Inv_bound_pos _ _ _ _ H' Hc ltac:(congruence)).
      wp_steps. apply wp_bound_dec; [simpl; lia|]. intros l.
      refine (Hlt _ _ _ (w_iface None c) _ _); [done| |done|done].
      apply (inv_rebind ts s' (Z.to_nat j) c None (ch_dlt c) (st_bound s' - 1)); try done.
      unfold bound_of. rewrite Ei. simpl. lia.
    + rewrite andb_false_r. wp_step. apply (Hlt _ eq_refl H' c); [|done].
      by rewrite list_insert_id.
  - intros [] s' (H' & E & Hall). split_and!; [done|done|]. intros i c Hc.
    apply (Hall i c); [|done]. apply lookup_lt_Some in Hc. rewrite (inv_nchan _ _ H') in Hc. lia.
Qed.

Lemma find_iface_lookup p l i n :
  find_iface p l i = Some n -> exists x, l !! (n - i)%nat = Some x /\ p x = true /\ (i <= n)%nat.
Proof.
  revert i. induction l as [|x l IH]; intros i; simpl; [done|]. destruct (p x) eqn:E.
  - intros [= <-]. exists x. rewrite Nat.sub_diag. auto.
  - intros H. destruct (IH (S i) H) as (y & Hy & Hp & Hle). exists y.
    replace (n - i)%nat with (S (n - S i)) by lia. split_and!; [done|done|lia].
Qed.

Lemma iface_by_cookie_wp cookie Q s :
  Q None s ->
  (forall n x, st_iface s !! n = Some x -> if_used x = true -> if_cookie x = cookie -> Q (Some n) s) ->
  wp (ami_bpf_iface_by_cookie cookie) Q s.
Proof.
  intros H1 H2. unfold ami_bpf_iface_by_cookie. destruct (_ =? _); wp_step; [done|].
  destruct (find_iface _ _ _) as [n|] eqn:E; [|done].
  apply find_iface_lookup in E as (x & Hx & Hp & _). rewrite Nat.sub_0_r in Hx.
  apply andb_prop in Hp as [Hp1 Hp2]. apply Z.eqb_eq in Hp2. by apply (H2 n x).
Qed.

Lemma detach_keeps ts cookie : keeps ts (ami_bpf_detach_interface cookie).
Proof.
  intros s H. unfold ami_bpf_detach_interface. wp_step. apply iface_by_cookie_wp; [by wp_step|].
  intros n x Hx _ _. wp_step. eapply wp_mono; [by apply unbind_inv|].
  intros [] s' (H' & E & Hno). wp_step. apply Inv_ifaces; [..|done].
  - rewrite length_insert. apply (inv_nif _ _ H').
  - apply Forall_insert; [apply (inv_iname _ _ H')|done].
  - intros i c m Hc Hm. destruct (Inv_bound_open _ _ _ _ _ H' Hc Hm) as (_ & _ & y & Hy & Hu).
    exists y. split; [|done]. rewrite list_lookup_insert_ne; [done|].
    intros ->. by apply (Hno i c Hc).
Qed.

(** A C string, or at least the characters the copy looks at. *)
Definition name_ok (n : nat) (name : list Z) : Prop := (n <= length name)%nat \/ 0 ∈ name.

Lemma name_prefix_val n name :
  name_ok n name -> exists t, name_prefix n name = Val t /\ (length t <= n)%nat.
Proof.
  revert name. induction n as [|n IH]; intros name Hn; simpl; [exists []; auto|].
  destruct name as [|c r].
  { destruct Hn as [Hn|Hn]; [simpl in Hn; lia|by apply elem_of_nil in Hn]. }
  destruct (Z.eqb_spec c 0); [exists []; simpl; auto with lia|].
  destruct (IH r) as (t & -> & Ht).
  { destruct Hn as [Hn|Hn]; [left; simpl in Hn; lia|right].
    apply elem_of_cons in Hn as [?|?]; [congruence|done]. }
  exists (c :: t). simpl. auto with lia.
Qed.

Lemma copy_ifname_val name :
  name_ok 15 name -> exists t, copy_ifname name = Val t /\ length t = 16%nat.
Proof.
  intros Hn. unfold copy_ifname. destruct (name_prefix_val 15 name Hn) as (t & -> & Ht). simpl.
  eexists. split; [done|]. rewrite length_app, length_replicate. lia.
Qed.

Lemma rebind_inv ts ifp x s :
  Inv ts s -> st_iface s !! ifp = Some x -> if_used x = true ->
  wp (ami_bpf_chan_rebind_locked ifp) (fun _ => Inv ts) s.
Proof.
  intros H Hx Hu. unfold ami_bpf_chan_rebind_locked. wp_step. apply (wp_iface_at _ x); [done|].
  eapply wp_mono.
  - apply (wp_for_chan 4 0 _ (fun _ s' => Inv ts s' /\ st_iface s' = st_iface s)); [done|].
    intros j s' Hj (H' & Eif). destruct (Inv_chan_at ts s' j H' ltac:(lia)) as (c & Hc).
    wp_step. apply (wp_chan _ c); [lia|done|].
    destruct (negb _ || _ || _ || _) eqn:Ec; [by wp_step|].
    repeat (apply orb_false_elim in Ec as [Ec ?]). apply negb_false_iff in Ec.
    assert (Hi : ch_iface c = None).
    { destruct (ch_iface c); [|done]. rewrite bool_decide_true in * by done. done. }
    destruct (name_match _ _); [|by wp_step]. pose proof (Inv_bound_le _ _ H').
    wp_steps. apply wp_bound_inc; [simpl; lia|]. intros l. split; [|done].
    apply (inv_rebind ts s' (Z.to_nat j) c (Some ifp) (if_dlt x) (st_bound s' + 1)); try done.
    + intros n [= <-]. exists x. by rewrite Eif.
    + unfold bound_of. rewrite Hi. simpl. lia.
  - by intros [] s' [H' _].
Qed.

Lemma attach_keeps ts name cookie dlt mtu inject :
  match name with Some nm => name_ok 15 nm | None => True end ->
  keeps ts (ami_bpf_attach_interface name cookie dlt mtu inject).
Proof.
  intros Hn s H. unfold ami_bpf_attach_interface. destruct name as [nm|]; [|by wp_step].
  destruct (cookie =? 0); [by wp_step|].
  destruct (copy_ifname_val nm Hn) as (nm16 & Enm & Hnm).
  assert (Hslot : forall n, (n < 5)%nat ->
    wp (nm16 ← lift (copy_ifname nm);
        _ ← put (fun s => s_iface (<[n := BpfIf true nm16 cookie dlt mtu inject]> (st_iface s)) s);
        _ ← ami_bpf_chan_rebind_locked n; mret 0) (fun _ : Z => Inv ts) s).
  { intros n Hlt. wp_step. eapply wp_lift; [exact Enm|]. wp_steps.
    set (x := BpfIf true nm16 cookie dlt mtu inject).
    eapply wp_mono; [apply (rebind_inv ts n x)|].
    - apply Inv_ifaces; [..|done].
      + rewrite length_insert. apply (inv_nif _ _ H).
      + apply Forall_insert; [apply (inv_iname _ _ H)|done].
      + intros i c m Hc Hm. destruct (decide (m = n)) as [->|Hne].
        * exists x. rewrite list_lookup_insert_eq by (rewrite (inv_nif _ _ H); lia). done.
        * destruct (Inv_bound_open _ _ _ _ _ H Hc Hm) as (_ & _ & y & Hy & Hu).
          exists y. by rewrite list_lookup_insert_ne.
    - simpl. apply list_lookup_insert_eq. rewrite (inv_nif _ _ H). lia.
    - done.
    - intros [] s' H'. by wp_step. }
  wp_step. apply iface_by_cookie_wp.
  - wp_steps. destruct (find_iface _ _ _) as [n|] eqn:E; [|by wp_step].
    apply find_iface_lookup in E as (y & Hy & _). rewrite Nat.sub_0_r in Hy. apply Hslot.
    apply lookup_lt_Some in Hy. by rewrite (inv_nif _ _ H) in Hy.
  - intros n x Hx _ _. wp_step. wp_step. apply Hslot.
    apply lookup_lt_Some in Hx. by rewrite (inv_nif _ _ H) in Hx.
Qed.

Lemma set_capture_hook_keeps ts fn : keeps ts (ami_bpf_set_capture_hook fn).
Proof.
  intros s H. unfold ami_bpf_set_capture_hook. wp_steps. destruct (negb _); wp_steps; auto with bpf.
Qed.

(** ** The tap *)

(** A write into the store half leaves what a reader holds on to. *)
Lemma reader_ok_store h c b bytes so cur bs v t :
  ch_bufbase c = Some b -> halves h c b bytes so -> 0 <= ch_blen c -> 0 <= cur ->
  cur + Z.of_nat (length bs) <= ch_blen c -> ch_hold_len c <= ch_blen c ->
  reader_ok h c t ->
  reader_ok (<[b := BBytes (splice bytes (so + cur) bs)]> h) (w_store_len v c) t.
Proof.
  intros Hb Hh Hbl Hcur Hfit Hhl Hr.
  pose proof Hh as (H1 & H2 & H3 & H4 & H5).
  assert (Hh' : halves (<[b := BBytes (splice bytes (so + cur) bs)]> h) (w_store_len v c) b
                  (splice bytes (so + cur) bs) so).
  { unfold halves; simpl. rewrite lookup_insert_eq, splice_length by lia. done. }
  assert (Huniq : forall b' bytes' so', ch_bufbase c = Some b' -> halves h c b' bytes' so' ->
            b' = b /\ bytes' = bytes /\ so' = so).
  { intros b' bytes' so' Eb (V1 & _ & _ & V4 & _). assert (b' = b) by congruence. subst b'.
    split_and!; congruence. }
  assert (Hf : forall pos, finish_ok h c pos ->
            finish_ok (<[b := BBytes (splice bytes (so + cur) bs)]> h) (w_store_len v c) pos).
  { intros pos (F1 & F2 & F3). split_and!; [done|done|]. destruct F3 as [F3|F3]; [by left|right].
    destruct F3 as (b' & bytes' & so' & rest & Eb & Hv & Hrec).
    destruct (Huniq _ _ _ Eb Hv) as (-> & -> & ->). eexists b, _, so, rest.
    split_and!; [done|exact Hh'|]. simpl. eapply recs_at_ext; [lia..| |exact Hrec].
    intros o n Ho Hn Hon. apply slice_splice_out; lia. }
  destruct t; simpl in *; try done; [|by apply Hf].
  destruct Hr as [(b' & bytes' & so' & Eb & Hv & E1 & E2 & E3 & E4 & E5) Hfin].
  destruct (Huniq _ _ _ Eb Hv) as (-> & -> & ->). split; [|by apply Hf].
  eexists b, _, so. split_and!; [done|exact Hh'|done|simpl; lia|lia|simpl; lia|].
  rewrite slice_splice_out by lia. done.
Qed.

(** The filter of a channel gives a verdict on every packet. *)
Lemma filter_verdict h p len view :
  filter_repr h p len -> view_ok view ->
  exists l v, match p with None => l = None
              | Some b => exists prog, l = Some prog /\ h !! b = Some (BInsns prog) end /\
    ami_bpf_filter_view l len (Some view) = Val v /\ is_u32 v.
Proof.
  intros Hf Hv. destruct p as [b|]; simpl in Hf.
  - destruct Hf as (prog & Hb & Hl & Hok & Hval). exists (Some prog). unfold ami_bpf_filter_view.
    destruct (Z.eqb_spec len 0).
    { eexists. split_and!; [eauto|done|]. simpl. word_lia. }
    destruct (bpf_run_total prog view) as (e & He & Hr); [done|done| |].
    { destruct Hval as [Hlen _]. word_lia. }
    rewrite <- Hl, He. simpl. eexists. split_and!; [eauto|done|done].
  - subst len. exists None. eexists. split_and!; [done|done|]. simpl. word_lia.
Qed.

(** An open channel with a store pointer has its buffers. *)
Lemma store_bufbase h c rh rs : bufs h c rh rs -> ch_store c <> None -> exists b, ch_bufbase c = Some b.
Proof. unfold bufs. destruct (ch_bufbase c); [eauto|tauto]. Qed.

Lemma bufs_hold_len h c b rh rs : ch_bufbase c = Some b -> bufs h c rh rs -> ch_hold_len c <= ch_blen c.
Proof. unfold bufs. intros ->. by intros (? & ? & _ & _ & _ & ? & _). Qed.

(** Writing the record of a packet keeps the invariant. *)
Lemma capture_record_inv ts i c view slen sec usec s :
  Inv ts s -> 0 <= i -> st_chan s !! Z.to_nat i = Some c -> ch_open c = true ->
  ch_store c <> None -> tap_view_ok view -> is_u32 slen -> is_u32 sec -> is_u32 usec ->
  wp (capture_record i c view slen sec usec) (fun _ => Inv ts) s.
Proof.
  intros H Hi Hc Ho Hst Hview Hsl Hsec Husec.
  pose proof (Inv_wf _ _ _ _ H Hc) as Hw. unfold chan_wf in Hw. rewrite Ho in Hw.
  destruct Hw as (Hbl & Hfl & (rh & rs & Hbufs) & Hp & Hif).
  destruct (store_bufbase _ _ _ _ Hbufs Hst) as (b & Hb).
  pose proof (bufs_hold_len _ _ _ _ _ Hb Hbufs) as Hhl. pose proof Hbl as [Hbl' _].
  eapply capture_record_wp; try done.
  { intros _ _. by eapply inv_put_soft. }
  cbv zeta. set (r := packet_rec _ _ _ _). set (full := _ <? _).
  set (c1 := if full then _ else _). intros Hcase bytes so l Hh Hfit Hbufs'. apply Inv_log.
  assert (Hc1 : ch_ifname c1 = ch_ifname c /\
    ch_open c1 = ch_open c /\ ch_iface c1 = ch_iface c /\ ch_bufbase c1 = ch_bufbase c /\
    ch_filter c1 = ch_filter c /\ ch_filter_len c1 = ch_filter_len c /\ ch_reading c1 = ch_reading c /\
    ch_release_pending c1 = ch_release_pending c /\ ch_owner c1 = ch_owner c /\
    ch_blen c1 = ch_blen c) by (unfold c1; by destruct full).
  destruct Hc1 as (C0 & C1 & C2 & C3 & C4 & C5 & C6 & C7 & C8 & C9).
  assert (Hnf : ch_filter c <> Some b).
  { intros E. destruct Hh as (Hhb & _). rewrite E in Hfl. destruct Hfl as (prog & Hprog & _). congruence. }
  eapply (inv_update [] [] ts s _ (Z.to_nat i) c); simpl; try done;
    unfold bound_of, releasing, chan_blocks; simpl; rewrite ?C0, ?C2, ?C3, ?C4, ?C6, ?C7; try done.
  - apply dom_insert_lookup_L. destruct Hh as (-> & _). done.
  - intros b' Hb'. apply lookup_insert_ne. intros <-. apply Hb'. apply elem_of_app. left.
    by apply opt_list_elem.
  - unfold chan_wf. simpl. rewrite C1, Ho, C2, C4, C5, C7, C8, C9. split; [done|].
    split; [|split; [by eauto|by split]].
    eapply filter_repr_ext; [|done]. intros b' Hb'. apply lookup_insert_ne. congruence.
  - intros t Hin Ht Hr. destruct Hcase as [Hf|[_ Hrd]].
    + unfold c1 in *. rewrite Hf in *. pose proof (align4_bounds (ch_store_len c)).
      destruct (bufs_facts _ _ _ _ _ Hb Hbufs) as (Hs0 & _). pose proof (rec_bytes_length r).
      apply reader_ok_store; try done; lia.
    + exfalso. by eapply (Inv_no_reader ts s (Z.to_nat i) c t).
Qed.

Lemma capture_chan_inv ts lock now cookie view i s :
  0 <= i < 4 -> tap_view_ok view -> is_u32 now.1 -> is_u32 now.2 -> Inv ts s ->
  wp (capture_chan lock now cookie view i) (fun _ => Inv ts) s.
Proof.
  intros Hi Hview Hs1 Hs2 H. unfold capture_chan.
  destruct (Inv_chan_at ts s i H Hi) as (c & Hc). wp_step. apply (wp_chan _ c); [lia|done|].
  destruct (negb (ch_open c) || _) eqn:E1; [by wp_step|]. destruct lock; cbn [negb]; [|by wp_step].
  apply orb_false_elim in E1 as [Eo Es]. apply negb_false_iff in Eo. apply bool_decide_eq_false in Es.
  wp_step. apply iface_by_cookie_wp; [by wp_step|]. intros n x Hx Hu Hck.
  destruct (_ || _ || _ || _); [by wp_step|]. cbv zeta.
  set (c1 := w_recv_count _ c). wp_step. wp_step.
  assert (H1 : Inv ts (s_chan (<[Z.to_nat i := c1]> (st_chan s)) s)) by (by eapply inv_put_soft).
  assert (Hc1 : st_chan (s_chan (<[Z.to_nat i := c1]> (st_chan s)) s) !! Z.to_nat i = Some c1).
  { apply list_lookup_insert_eq. by eapply lookup_lt_Some. }
  pose proof (Inv_wf _ _ _ _ H1 Hc1) as Hw. unfold chan_wf in Hw. simpl ch_open in Hw. rewrite Eo in Hw.
  destruct Hw as (_ & Hfl & _).
  destruct (filter_verdict _ _ _ view Hfl (proj1 Hview)) as (l & v & Hl & Ev & Hv).
  wp_step. eapply wp_load_insns; [exact Hl|]. wp_step. eapply wp_lift; [exact Ev|].
  destruct (v =? 0); [by wp_step|]. wp_step. eapply wp_mono.
  - apply (capture_record_inv ts i c1 view v); try done. lia.
  - intros [] s' H'. by wp_step.
Qed.

(** ** Reading *)

Lemma looked_fields c :
  ch_ifname (looked c) = ch_ifname c /\
  ch_open (looked c) = ch_open c /\ ch_iface (looked c) = ch_iface c /\
  ch_bufbase (looked c) = ch_bufbase c /\ ch_filter (looked c) = ch_filter c /\
  ch_filter_len (looked c) = ch_filter_len c /\ ch_reading (looked c) = ch_reading c /\
  ch_release_pending (looked c) = ch_release_pending c /\ ch_owner (looked c) = ch_owner c /\
  ch_blen (looked c) = ch_blen c.
Proof. unfold looked. by destruct (_ && _). Qed.

(** The look leaves the channel rotated, and [T] is the reader that is now past
    it, if any. *)
Lemma inv_look T rd ts s owner channel c :
  Inv ts s -> handled s owner channel c -> owner <> 0 -> ch_reading c = false ->
  (rd = false -> T = []) ->
  (rd = true -> ch_bufbase c <> None /\ exists src n pos snap, T = [TCopy (Z.to_nat channel) src n pos snap] /\
     copy_ok (st_heap s) (w_reading true (looked c)) src n snap /\
     finish_ok (st_heap s) (w_reading true (looked c)) pos) ->
  Inv (T ++ ts) (s_chan (<[Z.to_nat channel := w_reading rd (looked c)]> (st_chan s)) s).
Proof.
  intros H Hh Hown Hr HT0 HT1. destruct Hh as [Hrange Hat Ho Hw Hp Hbl Hfl (rh & rs & Hbufs) Hif].
  destruct (looked_fields c) as (C0 & C1 & C2 & C3 & C4 & C5 & C6 & C7 & C8 & C9).
  destruct (looked_bufs _ _ _ _ Hbufs) as (rs' & Hb' & _).
  assert (Hnil : concat (map task_blocks T) = [] /\ (forall j, releasers j T = 0%nat) /\
    (forall j, readers j T = if decide (j = Z.to_nat channel) then b2n rd else 0%nat)).
  { destruct rd; [|rewrite (HT0 eq_refl); split_and!; try done; intros j; by destruct (decide _)].
    destruct (HT1 eq_refl) as (_ & src & n & pos & snap & -> & _). split_and!; try done.
    intros j. unfold readers. simpl. by repeat destruct (decide _); subst. }
  destruct Hnil as (N1 & N2 & N3).
  eapply (inv_update [] T ts s _ (Z.to_nat channel) c); try done;
    unfold bound_of, releasing, chan_blocks; simpl; rewrite ?C0, ?C2, ?C3, ?C4, ?C6, ?C7, ?N1, ?N2, ?N3; try done.
  - unfold chan_wf; simpl. rewrite C1, Ho, C2, C4, C5, C7, C8, C9, Hp. split; [done|].
    split; [done|]. split; [|split; [congruence|done]]. exists (readable rh rs), rs'.
    refine (bufs_ext _ _ (looked c) _ _ _ _ _ _ _ _ _ _ _ _ Hb'); try done.
    intros E. simpl. rewrite C6, Hr. destruct rd; [|done].
    destruct (HT1 eq_refl) as [Hnn _]. congruence.
  - intros j Hj. rewrite N2, N3. by rewrite decide_False.
  - rewrite decide_True by done. rewrite Hr. simpl. lia.
  - rewrite Hp. done.
  - destruct rd; [|by rewrite (HT0 eq_refl)].
    destruct (HT1 eq_refl) as (_ & src & n & pos & snap & -> & HT). constructor; [|done].
    exists (w_reading true (looked c)). split; [|done].
    apply list_lookup_insert_eq. by eapply lookup_lt_Some.
  - intros t Hin Ht. exfalso. by eapply (Inv_no_reader ts s (Z.to_nat channel) c t).
Qed.

Lemma recs_next_facts pos a : 0 <= pos -> pos mod 4 = 0 -> 0 <= recs_next pos a /\ recs_next pos a mod 4 = 0.
Proof.
  revert pos. induction a as [|r a IH]; intros pos H1 H2; simpl; [done|].
  pose proof (rec_len_ge r). pose proof (align4_bounds (rec_len r)). apply IH; [lia|].
  rewrite <- Z.add_mod_idemp_r, align4_mod, Z.add_0_r by lia. done.
Qed.

(** The bytes a look found, as they stand in memory. *)
Definition snap_of (s : bpf_state) (src : ptr) (n : Z) : list Z :=
  match st_heap s !! src.1 with Some (BBytes l) => slice l src.2 n | _ => [] end.

Lemma taken_reader h c src n pos q a :
  taken h c src n pos q a -> 0 <= ch_blen c ->
  exists b bytes, h !! b = Some (BBytes bytes) /\ src.1 = b /\
  copy_ok h (w_reading true c) src n (slice bytes src.2 n) /\ finish_ok h (w_reading true c) pos /\
  decode_records (length (slice bytes src.2 n)) (slice bytes src.2 n) = a.
Proof.
  intros (b & bytes & so & q' & Hb & Hh & -> & Ha & Hr & Hp & Hm & Hl & -> & -> & ->) Hbl.
  pose proof Hh as (H1 & H2 & H3 & H4 & H5). exists b, bytes. simpl.
  pose proof (recs_end_le _ _ _ _ _ _ Ha Hr) as Hend.
  assert (Hge : ch_hold_pos c <= recs_end (ch_hold_pos c) a).
  { destruct a as [|r a]; [done|]. pose proof (recs_end_ge (ch_hold_pos c) r a).
    pose proof (rec_len_ge r). lia. }
  destruct (recs_next_facts (ch_hold_pos c) a Hp Hm) as [N1 N2].
  split_and!; [done|done| | |].
  - exists b, bytes, so. simpl. split_and!; try done; lia.
  - split_and!; [done|done|]. right. exists b, bytes, so, q'. simpl. split_and!; try done.
    by apply recs_at_next.
  - apply (recs_prefix_decode bytes (ch_blen c - so) (ch_hold_pos c) (ch_hold_len c) a q'); try done; lia.
Qed.

(** A handle leads to a status or to a channel. *)
Lemma chan_get_cases ts owner channel s :
  Inv ts s -> owner <> 0 ->
  (exists status, ami_bpf_chan_get owner channel s = Val (inl status, s) /\
     (status = AMI_BPF_ENXIO \/ status = AMI_BPF_EPERM)) \/
  (exists c, handled s owner channel c /\ ami_bpf_chan_get owner channel s = Val (inr c, s)).
Proof.
  intros H Ho. unfold ami_bpf_chan_get.
  destruct (_ || _) eqn:Er; [left; eauto|]. apply orb_false_elim in Er as [E1 E2].
  destruct (Inv_chan_at ts s channel H ltac:(lia)) as (c & Hc).
  unfold mbind, M_bind, chan. rewrite (fetch_lookup _ _ c) by (lia || done). simpl.
  destruct (ch_open c) eqn:Eo; cbn [negb]; [|left; eauto].
  destruct (Z.eqb_spec (ch_owner c) owner) as [Ew|Ew]; cbn [negb]; [|left; eauto].
  right. exists c. split; [|done]. eapply Inv_handled; try done; lia.
Qed.

Definition look_tasks (channel : Z) (s : bpf_state) (look : read_look) : list task :=
  match look with
  | ReadCopy src n pos => [TCopy (Z.to_nat channel) src n pos (snap_of s src n)]
  | _ => []
  end.

Lemma w_reading_id c : w_reading (ch_reading c) c = c.
Proof. by destruct c. Qed.

Lemma read_poll_inv ts owner channel gen len s :
  owner <> 0 -> 0 < len < 2 ^ 31 -> Inv ts s ->
  wp (read_poll owner channel gen len) (fun look s' => Inv (look_tasks channel s' look ++ ts) s') s.
Proof.
  intros Ho Hlen H. destruct (chan_get_cases ts owner channel s H Ho) as [(st & E & _)|(c & Hh & _)].
  { exists (ReadReturn st), s. split; [|done]. unfold read_poll, mbind, M_bind. by rewrite E. }
  pose proof Hh as [Hr Hat Hop Hw Hp Hbl Hfl (rh & rs & Hbufs) Hif].
  destruct (Inv_gen_at ts s channel H Hr) as (g & Hg).
  destruct (looked_fields c) as (C0 & C1 & C2 & C3 & C4 & C5 & C6 & C7 & C8 & C9).
  assert (Hseen : ch_reading c = false ->
            Inv ts (s_chan (<[Z.to_nat channel := looked c]> (st_chan s)) s)).
  { intros Hrd. rewrite <- (w_reading_id (looked c)), C6, Hrd.
    by apply (inv_look [] false ts s owner channel c). }
  eapply read_poll_wp; try done; simpl; auto.
  intros _ Hrd Ha src n pos Htk Hn.
  destruct (taken_reader _ _ _ _ _ _ _ Htk) as (b & bytes & Hb & Hsrc & Hcp & Hfin & _).
  { rewrite C9. destruct Hbl. lia. }
  assert (Hsnap : snap_of (s_chan (<[Z.to_nat channel := w_reading true (looked c)]> (st_chan s)) s) src n
                  = slice bytes src.2 n) by (unfold snap_of; rewrite Hsrc; simpl; by rewrite Hb).
  rewrite Hsnap. eapply (inv_look [_] true ts s owner channel c); try done.
  intros _. split; [|eauto 10]. destruct Htk as (b' & _ & _ & _ & Hb' & _). congruence.
Qed.

(** The copy-out, outside the lock: it delivers what the look found. *)
Lemma read_copy_inv ts i src n pos snap s :
  Inv ([TCopy i src n pos snap] ++ ts) s ->
  wp (load_bytes src n) (fun bs s' => s' = s /\ bs = snap /\ Inv ([TFinish i pos] ++ ts) s') s.
Proof.
  intros H. pose proof (inv_task _ _ H) as Ht. simpl in Ht. apply Forall_cons in Ht as [Ht Hts].
  destruct Ht as (c & Hc & (b & bytes & so & Hb & Hh & E1 & E2 & E3 & E4 & E5) & Hfin).
  pose proof Hh as (H1 & H2 & H3 & _).
  eapply wp_load_bytes; [rewrite E1; exact H1|lia..|]. split_and!; [done|done|].
  destruct H. constructor; try done. simpl. constructor; [|done]. by exists c.
Qed.

(** The channel after the copy-out: the delivered records are gone. *)
Definition finished (c : AmiBpfChan) (pos : Z) : AmiBpfChan :=
  w_reading false (if ch_hold_len c <=? pos then w_hold_pos 0 (w_hold_len 0 c) else w_hold_pos pos c).

Lemma bufs_finish h c pos rh rs :
  blen_ok (ch_blen c) -> bufs h c rh rs -> ch_reading c = true -> finish_ok h c pos ->
  exists rh', bufs h (finished c pos) rh' rs.
Proof.
  intros [Hbl _] Hbufs Hr (Hp0 & Hpm & Hfin). unfold bufs in *.
  destruct (ch_bufbase c) as [b|] eqn:Eb; [|exfalso; destruct Hbufs as (_ & _ & _ & _ & _ & Hf & _); congruence].
  destruct Hbufs as (bytes & so & Hh & B1 & B2 & B3 & B4 & B5 & B6).
  unfold finished. destruct (Z.leb_spec (ch_hold_len c) pos).
  - exists []. simpl. rewrite Eb. exists bytes, so. split_and!; try done; try lia; by right.
  - destruct Hfin as [?|(b' & bytes' & so' & rest & Eb' & Hh' & Hrec)]; [lia|].
    assert (b' = b) as -> by congruence. exists rest. simpl. rewrite Eb. exists bytes', so'.
    destruct Hh as (V1 & _ & _ & V4 & _). destruct Hh' as (W1 & W2 & W3 & W4 & W5).
    assert (so' = so) as -> by congruence. assert (bytes' = bytes) as -> by congruence.
    split_and!; try done; lia.
Qed.

Lemma read_finish_inv ts i pos s :
  Inv ([TFinish i pos] ++ ts) s ->
  wp (read_finish (Z.of_nat i) pos)
     (fun pending => Inv ((if (pending : bool) then [TRelease i] else []) ++ ts)) s.
Proof.
  intros H. pose proof (inv_task _ _ H) as Ht. simpl in Ht. apply Forall_cons in Ht as [Ht Hts].
  destruct Ht as (c & Hc & Hp0 & Hpm & Hfin).
  pose proof (lookup_lt_Some _ _ _ Hc) as Hi. rewrite (inv_nchan _ _ H) in Hi.
  destruct (inv_chan _ _ H i c Hc) as (Hw & Hrd & Hrl). rewrite readers_app in Hrd.
  unfold readers at 1 in Hrd. simpl in Hrd. rewrite decide_True in Hrd by done.
  assert (Hr : ch_reading c = true) by (destruct (ch_reading c); simpl in Hrd; [done|lia]).
  unfold chan_wf in Hw. destruct (ch_open c) eqn:Ho; [|by subst c].
  destruct Hw as (Hbl & Hfl & (rh & rs & Hbufs) & Hpd & Hif).
  unfold read_finish. wp_step. apply (wp_chan _ c); [lia|by rewrite Nat2Z.id|]. cbv zeta.
  wp_steps. rewrite Nat2Z.id. fold (finished c pos).
  destruct (bufs_finish _ _ pos _ _ Hbl Hbufs Hr) as (rh' & Hbufs'); [done|].
  assert (Hc1 : ch_ifname (finished c pos) = ch_ifname c /\
    ch_open (finished c pos) = ch_open c /\ ch_iface (finished c pos) = ch_iface c /\
    ch_bufbase (finished c pos) = ch_bufbase c /\ ch_filter (finished c pos) = ch_filter c /\
    ch_filter_len (finished c pos) = ch_filter_len c /\ ch_reading (finished c pos) = false /\
    ch_release_pending (finished c pos) = ch_release_pending c /\
    ch_owner (finished c pos) = ch_owner c /\ ch_blen (finished c pos) = ch_blen c)
    by (unfold finished; by destruct (_ <=? _)).
  destruct Hc1 as (C0 & C1 & C2 & C3 & C4 & C5 & C6 & C7 & C8 & C9).
  remember (finished c pos) as c1 eqn:Ec1. clear Ec1.
  set (T' := if ch_release_pending c then [TRelease i] else []).
  eapply (inv_update [TFinish i pos] T' ts s _ i c); try done;
    unfold bound_of, releasing, chan_blocks; simpl; rewrite ?C0, ?C2, ?C3, ?C4, ?C6, ?C7; try done.
  - unfold T'. by destruct (ch_release_pending c).
  - unfold chan_wf; simpl. rewrite C1, Ho, C2, C4, C5, C7, C8, C9. split; [done|].
    split; [done|]. split; [by eauto|done].
  - intros j Hj. unfold readers, releasers. unfold T'. destruct (ch_release_pending c); simpl;
      rewrite !decide_False by done; done.
  - unfold T', readers. simpl. rewrite Hr, decide_True by done. by destruct (ch_release_pending c).
  - unfold T', releasers. rewrite Hr. destruct (ch_release_pending c); simpl; [|done]. by rewrite decide_True.
  - unfold T'. destruct (ch_release_pending c); [|done]. constructor; [done|done].
  - intros t Hin Ht. exfalso. apply list_elem_of_split in Hin as (l1 & l2 & ->).
    rewrite readers_app in Hrd. unfold readers at 2 in Hrd. simpl in Hrd. rewrite Ht, Hr in Hrd. simpl in Hrd. lia.
Qed.

(** ** BIOCSETIF and BIOCSETF *)

(** Tasks that are not readers or releasers may be replaced by others that own
    the same blocks. *)
Definition quiet (t : task) : Prop := forall i, is_reader i t = 0%nat /\ is_releaser i t = 0%nat.

Lemma quiet_zero T : Forall quiet T -> forall i, readers i T = 0%nat /\ releasers i T = 0%nat.
Proof.
  intros HT i. induction HT as [|t T Ht _ [IH1 IH2]]; [done|]. destruct (Ht i) as [H1 H2].
  unfold readers, releasers in *. simpl. lia.
Qed.

Lemma Inv_tasks T T' ts s :
  Forall quiet T -> Forall quiet T' -> Forall (task_ok (st_chan s) (st_heap s)) T' ->
  concat (map task_blocks T') ≡ₚ concat (map task_blocks T) ->
  Inv (T ++ ts) s -> Inv (T' ++ ts) s.
Proof.
  intros HT HT' Hok Hb H. constructor; try apply H.
  - intros i c Hc. destruct (inv_chan _ _ H i c Hc) as (Hw & H1 & H2).
    rewrite readers_app in *. rewrite releasers_app in *.
    destruct (quiet_zero T HT i). destruct (quiet_zero T' HT' i). split_and!; [done|lia|lia].
  - pose proof (inv_task _ _ H) as Ht. apply Forall_app in Ht as [_ Ht]. by apply Forall_app.
  - rewrite <- (inv_heap _ _ H), !owned_app. by rewrite Hb.
Qed.

Lemma snapshot_wp ts owner channel Q s :
  Inv ts s -> owner <> 0 -> (forall status, Q (inl status) s) ->
  (forall g blen has, blen_ok blen -> Q (inr (g, blen, has)) s) ->
  wp (ami_bpf_ioctl_snapshot owner channel) Q s.
Proof.
  intros H Ho Herr Hok. eapply wp_with_chan; [done|done|done|]. intros c Hh.
  destruct (Inv_gen_at ts s channel H (hd_range _ _ _ _ Hh)) as (g & Hg).
  wp_step. apply (wp_generation _ g); [apply (hd_range _ _ _ _ Hh)|done|]. wp_step.
  apply Hok. apply (hd_blen _ _ _ _ Hh).
Qed.

(** A fresh block goes to the task that allocated it. *)
Lemma inv_alloc ts s t p b :
  Inv ts s -> st_heap s !! p = None -> task_blocks t = [p] ->
  (forall i, is_reader i t = 0%nat) -> (forall i, is_releaser i t = 0%nat) ->
  task_ok (st_chan s) (<[p := b]> (st_heap s)) t ->
  Inv (t :: ts) (s_heap (<[p := b]> (st_heap s)) s).
Proof.
  intros H Hp Hb Hr Hl Ht.
  assert (Hne : forall q, q ∈ owned ts (st_chan s) -> <[p := b]> (st_heap s) !! q = st_heap s !! q).
  { intros q Hq. apply lookup_insert_ne. intros <-. destruct (Inv_live _ _ _ H Hq). congruence. }
  constructor; try apply H.
  - intros i c Hc. destruct (inv_chan _ _ H i c Hc) as (Hw & H1 & H2).
    unfold readers, releasers in *. simpl. rewrite Hr, Hl. split_and!; [|done|done].
    eapply chan_wf_ext; [|done]. intros q Hq. apply Hne. apply elem_of_app. left.
    eapply elem_concat_map; [by eapply list_elem_of_lookup_2|done].
  - constructor; [done|]. pose proof (inv_task _ _ H) as Hts. rewrite Forall_forall in Hts |- *.
    intros u Hin. eapply task_ok_heap; [| |by apply Hts].
    + intros i c q Hc Hq. apply Hne. apply elem_of_app. left.
      eapply elem_concat_map; [by eapply list_elem_of_lookup_2|by apply bufbase_block].
    + intros q Hq. apply Hne. apply elem_of_app. right. by eapply elem_concat_map.
  - simpl. rewrite dom_insert_L, elements_union_singleton by (by apply not_elem_of_dom).
    rewrite <- (inv_heap _ _ H). unfold owned. simpl. rewrite Hb. solve_Permutation.
Qed.

(** The task that commits, with a buffer it allocated or without one. *)
Lemma setif_alloc_inv ts owner channel gen blen has ifname (ok : bool) s :
  Inv ([TSnapif owner channel gen blen has ifname] ++ ts) s ->
  wp (setif_prepare ok (clamp_blen blen) has)
     (fun base => Inv ((if negb has && bool_decide (base = None) then []
                        else [TSetif owner channel gen (clamp_blen blen) base ifname]) ++ ts)) s.
Proof.
  intros H. pose proof (inv_task _ _ H) as Ht. apply Forall_app in Ht as [Ht _].
  apply Forall_inv in Ht as (Ho & Hbl).
  pose proof (clamp_blen_ok blen ltac:(destruct Hbl; word_lia)) as Hcl.
  assert (Hn : Forall quiet [TSnapif owner channel gen blen has ifname]) by (by constructor).
  unfold setif_prepare. destruct has; [wp_step|destruct ok].
  - cbn [negb andb]. eapply Inv_tasks; [done|by constructor| |done|done].
    constructor; [|done]. simpl. split_and!; [done|apply Hcl..|done].
  - apply wp_alloc_ok. intros p Hp. cbn [negb andb]. rewrite bool_decide_false by done.
    apply inv_alloc; try done. { by apply (Inv_tasks _ [] ts s Hn). }
    simpl. split_and!; [done|apply Hcl..|]. intros b' [= <-]. rewrite lookup_insert_eq.
    rewrite u32_small; [done|]. destruct Hcl. word_lia.
  - apply wp_alloc_fail. cbn [negb andb]. rewrite bool_decide_true by done.
    by apply (Inv_tasks _ [] ts s Hn).
Qed.

Lemma revalidate_wp ts owner channel gen Q s :
  Inv ts s -> owner <> 0 -> (forall status, Q (inl status) s) ->
  (forall c, handled s owner channel c -> Q (inr c) s) ->
  wp (ami_bpf_ioctl_revalidate owner channel gen) Q s.
Proof.
  intros H Ho Herr Hok. unfold ami_bpf_ioctl_revalidate. wp_step.
  eapply wp_chan_get; [done|done| |]; cbv beta iota; [intros; wp_step; apply Herr|].
  intros c Hh. destruct (Inv_gen_at ts s channel H (hd_range _ _ _ _ Hh)) as (g & Hg).
  wp_step. apply (wp_generation _ g); [apply (hd_range _ _ _ _ Hh)|done|].
  destruct (negb _); wp_step; auto.
Qed.

(** The channel BIOCSETIF leaves: bound to [n], and with the fresh buffers when
    it had none. *)
Definition setif_chan (c : AmiBpfChan) (blen : Z) (base : option positive) : AmiBpfChan :=
  match base with
  | Some b =>
      if decide (ch_bufbase c = None) then
        w_hold_pos 0 (w_hold_len 0 (w_store_len 0 (w_blen blen
          (w_hold (Some (b, blen)) (w_store (Some (b, 0)) (w_bufbase (Some b) c))))))
      else c
  | None => c
  end.
Definition setif_stale (c : AmiBpfChan) (base : option positive) : option positive :=
  if decide (ch_bufbase c = None) then None else base.

Lemma setif_chan_bufs h c blen base :
  blen_ok blen -> (exists rh rs, bufs h c rh rs) ->
  (forall b, base = Some b -> h !! b = Some (BBytes (replicate (Z.to_nat (2 * blen)) 0))) ->
  exists rh rs, bufs h (setif_chan c blen base) rh rs.
Proof.
  intros Hbl Hbufs Hb. destruct base as [b|]; [|done]. simpl. destruct (decide _) as [E|]; [|done].
  exists [], []. unfold bufs; simpl. exists (replicate (Z.to_nat (2 * blen)) 0), 0.
  unfold halves; simpl. rewrite length_replicate, Z.sub_0_r. destruct Hbl as [Hbl _].
  split_and!; try done; try lia; auto.
Qed.

Lemma setif_chan_fields c blen base :
  ch_open (setif_chan c blen base) = ch_open c /\ ch_owner (setif_chan c blen base) = ch_owner c /\
  ch_iface (setif_chan c blen base) = ch_iface c /\ ch_filter (setif_chan c blen base) = ch_filter c /\
  ch_filter_len (setif_chan c blen base) = ch_filter_len c /\
  ch_reading (setif_chan c blen base) = ch_reading c /\
  ch_release_pending (setif_chan c blen base) = ch_release_pending c /\
  (blen_ok blen -> blen_ok (ch_blen c) -> blen_ok (ch_blen (setif_chan c blen base))) /\
  (ch_bufbase c <> None -> setif_chan c blen base = c) /\
  opt_list (ch_bufbase (setif_chan c blen base)) ++ opt_list (setif_stale c base)
    = opt_list (ch_bufbase c) ++ opt_list base.
Proof.
  unfold setif_chan, setif_stale. destruct base as [b|]; [|destruct (decide (ch_bufbase c = None)); tauto].
  destruct (decide (ch_bufbase c = None)) as [E|E]; [|tauto]. simpl. rewrite E. tauto.
Qed.

Lemma inv_setif ts s t base owner channel c blen n d nm bound :
  Inv ([t] ++ ts) s -> quiet t -> task_blocks t = opt_list base -> owner <> 0 -> handled s owner channel c ->
  blen_ok blen ->
  (forall b, base = Some b -> st_heap s !! b = Some (BBytes (replicate (Z.to_nat (2 * blen)) 0))) ->
  (exists x, st_iface s !! n = Some x /\ if_used x = true) ->
  bound + Z.of_nat (bound_of c) = st_bound s + 1 ->
  length nm = 16%nat -> forall l, Inv ([TFree (opt_list (setif_stale c base))] ++ ts)
    (s_chan (<[Z.to_nat channel := w_ifname nm (w_dlt d (w_iface (Some n) (setif_chan c blen base)))]>
       (st_chan s)) (s_log l (s_bound bound s))).
Proof.
  intros H Hq Htb Ho [Hr Hat Hop Hw Hp Hbl Hfl Hbufs Hif] Hblen Hbase Hn Hb Hnm l.
  destruct (setif_chan_fields c blen base) as (C1 & C2 & C3 & C4 & C5 & C6 & C7 & C8 & C9 & C10).
  destruct (setif_chan_bufs _ c blen base Hblen Hbufs Hbase) as (rh & rs & Hbufs').
  remember (setif_chan c blen base) as c1 eqn:Ec1. clear Ec1.
  eapply (inv_update [t] [TFree (opt_list (setif_stale c base))] ts s _ (Z.to_nat channel) c); try done;
    unfold releasing, chan_blocks; simpl; rewrite ?Htb, ?C4, ?C6, ?C7, ?app_nil_r; try done.
  - transitivity (opt_list (ch_filter c) ++ (opt_list (ch_bufbase c1) ++ opt_list (setif_stale c base)));
      [solve_Permutation|]. rewrite C10. solve_Permutation.
  - unfold chan_wf; simpl. rewrite C1, Hop, C2, C4, C5, C7, Hp. split; [auto|].
    split; [done|]. split; [|split; [congruence|]].
    + exists rh, rs. refine (bufs_ext _ _ c1 _ rh rs _ _ _ _ _ _ _ _ _ Hbufs'); done.
    + by intros m [= <-].
  - intros j Hj. unfold readers, releasers. simpl. by destruct (Hq j) as [-> ->].
  - unfold readers. simpl. destruct (Hq (Z.to_nat channel)) as [-> _]. done.
  - unfold releasers. simpl. destruct (Hq (Z.to_nat channel)) as [_ ->]. done.
  - by constructor.
  - intros u Hin Hu Hrd. destruct (decide (ch_bufbase c = None)) as [E|E].
    + exfalso. eapply (Inv_no_reader _ s (Z.to_nat channel) c u); [exact H|done| |by apply elem_of_app; right|done].
      destruct Hbufs as (rh' & rs' & Hbufs). unfold bufs in Hbufs. rewrite E in Hbufs. tauto.
    + rewrite (C9 E) in *. done.
Qed.

Lemma setif_commit_inv ts owner channel gen blen base ifname s :
  Inv ([TSetif owner channel gen blen base ifname] ++ ts) s ->
  wp (setif_commit owner channel gen blen base ifname)
     (fun r => Inv ([TFree (opt_list r.2)] ++ ts)) s.
Proof.
  intros H. pose proof (inv_task _ _ H) as Ht. apply Forall_app in Ht as [Ht _].
  apply Forall_inv in Ht as (Ho & Hbl & Hbase).
  assert (Hgive : Inv ([TFree (opt_list base)] ++ ts) s).
  { refine (Inv_tasks _ _ ts s _ _ _ _ H); by try constructor. }
  unfold setif_commit. wp_step. eapply revalidate_wp; [exact H|done| |]; cbv beta iota.
  { intros status. by wp_step. }
  intros c Hh. wp_step. unfold ami_bpf_iface_by_name. wp_step.
  destruct (find_iface _ _ _) as [n|] eqn:E; [|by wp_step].
  apply find_iface_lookup in E as (x & Hx & Hu & _). rewrite Nat.sub_0_r in Hx.
  apply andb_prop in Hu as [Hu _]. wp_step. apply (wp_iface_at _ x); [done|].
  replace (match base with None => _ | Some b => _ end) with (setif_chan c blen base, setif_stale c base);
    cycle 1.
  { unfold setif_chan, setif_stale. destruct base; repeat destruct (decide _); done. }
  wp_step. pose proof (Inv_bound_le _ _ H).
  pose proof (Forall_lookup_1 _ _ _ _ (inv_iname _ _ H) Hx) as Hnm. cbv beta in Hnm.
  assert (Hfin := fun bound => inv_setif ts s _ base owner channel c blen n (if_dlt x) (if_name x) bound
    H ltac:(done) eq_refl Ho Hh Hbl Hbase ltac:(eauto)).
  unfold bound_of in Hfin. destruct (decide (ch_iface c = None)).
  - apply wp_bound_inc; [lia|]. intros l. wp_steps. apply (Hfin (st_bound s + 1)); [lia|done].
  - wp_steps. specialize (Hfin (st_bound s) ltac:(lia) Hnm (st_log s)). by destruct s.
Qed.

(** The task that commits, with a validated copy or with none. *)
Lemma setf_prepare_inv ts owner channel gen count odd insns (ok : bool) s :
  Inv ([TSnapf owner channel gen count insns] ++ ts) s ->
  wp (setf_prepare ok count (Some (odd, insns)))
     (fun r => Inv ((match r with inl _ => [] | inr copy => [TSetf owner channel gen count copy] end) ++ ts)) s.
Proof.
  intros H. pose proof (inv_task _ _ H) as Ht. apply Forall_app in Ht as [Ht _].
  apply Forall_inv in Ht as (Ho & Hcount & Hins & Hlen).
  assert (Hdrop : Inv ts s) by (refine (Inv_tasks _ [] ts s _ _ _ _ H); by try constructor).
  unfold setf_prepare. destruct (Z.eqb_spec count 0) as [->|Hc0].
  { wp_step. refine (Inv_tasks _ [TSetf owner channel gen 0 None] ts s _ _ _ _ H); by try constructor. }
  destruct (_ || odd); [by wp_step|]. cbv zeta. set (prog := take (Z.to_nat count) insns).
  assert (Hpl : Z.of_nat (length prog) = count) by (unfold prog; rewrite length_take; lia).
  wp_step. destruct ok; [|apply wp_alloc_fail; by wp_step]. apply wp_alloc_ok. intros p Hp.
  rewrite (proj2 (Nat.ltb_ge _ _)) by lia.
  destruct (validate_iff prog) as (v & Ev & _ & Hv). rewrite Hpl in Ev.
  wp_step. eapply wp_lift; [exact Ev|].
  destruct (Z.eqb_spec v 0) as [->|Hv0]; cbn [negb]; wp_step.
  - apply (inv_alloc ts s (TSetf owner channel gen count (Some p)) p (BInsns prog)); try done.
    simpl. split; [done|]. exists prog. rewrite lookup_insert_eq. split_and!; try done.
    + by apply Forall_take.
    + by apply Hv.
  - eapply wp_mono.
    + apply (free_inv ts _ p []). by apply inv_alloc.
    + intros [] s' H'. wp_step. refine (Inv_tasks [TFree []] [] ts s' _ _ _ _ H'); by try constructor.
Qed.

(** BIOCSETF installs the copy, empties both buffers and hands the old program
    over to be freed. *)
Definition setf_chan (c : AmiBpfChan) (count : Z) (copy : option positive) : AmiBpfChan :=
  w_hold_pos 0 (w_hold_len 0 (w_store_len 0 (w_filter_len count (w_filter copy c)))).

Lemma bufs_flushed h c c' :
  blen_ok (ch_blen c) ->
  ch_bufbase c' = ch_bufbase c -> ch_store c' = ch_store c -> ch_hold c' = ch_hold c ->
  ch_blen c' = ch_blen c -> ch_reading c' = ch_reading c ->
  ch_store_len c' = 0 -> ch_hold_len c' = 0 -> ch_hold_pos c' = 0 ->
  (exists rh rs, bufs h c rh rs) -> bufs h c' [] [].
Proof.
  intros [Hbl _] E1 E2 E3 E4 E5 E6 E7 E8 (rh & rs & Hbufs). unfold bufs, halves in *.
  rewrite E1, E2, E3, E4, E5, E6, E7, E8. destruct (ch_bufbase c) as [b|].
  - destruct Hbufs as (bytes & so & Hh & _). exists bytes, so. split_and!; try done; try apply Hh; try lia.
  - tauto.
Qed.

Lemma setf_commit_inv ts owner channel gen count copy s :
  Inv ([TSetf owner channel gen count copy] ++ ts) s ->
  wp (setf_commit owner channel gen count copy)
     (fun r => Inv ([TFree (opt_list r.2)] ++ ts)) s.
Proof.
  intros H. pose proof (inv_task _ _ H) as Ht. apply Forall_app in Ht as [Ht _].
  apply Forall_inv in Ht as (Ho & Hfr).
  unfold setf_commit. wp_step. eapply revalidate_wp; [exact H|done| |]; cbv beta iota.
  { intros status. wp_step. refine (Inv_tasks _ _ ts s _ _ _ _ H); by try constructor. }
  intros c Hh. wp_steps. fold (setf_chan c count copy).
  destruct Hh as [Hr Hat Hop Hw Hp Hbl Hfl Hbufs Hif].
  eapply (inv_update [_] [TFree (opt_list (ch_filter c))] ts s _ (Z.to_nat channel) c); try done.
  - unfold chan_blocks; simpl. rewrite !app_nil_r. solve_Permutation.
  - unfold chan_wf; simpl. rewrite Hop, Hp. split; [done|]. split; [done|].
    split; [|split; [congruence|done]]. exists [], []. by eapply bufs_flushed.
  - by constructor.
  - intros t Hin Ht Hrd. refine (reader_ok_ext _ _ c _ t _ _ _ _ _ _ Hrd); try done. by right.
Qed.

(** ** The other requests *)

(** The caller's argument is NULL or has [n] bytes. *)
Definition arg_has (n : Z) (a : ioctl_arg) : Prop :=
  match a with
  | ArgNull => True
  | ArgBytes _ l => bytes_ok l /\ n <= Z.of_nat (length l)
  | ArgProg _ _ _ => False
  end.

Lemma wp_ioctl_put ts a n bs s :
  is_null a = false -> arg_has n a -> Z.of_nat (length bs) <= n -> Inv ts s ->
  wp (ioctl_put a bs) (fun _ => Inv ts) s.
Proof.
  intros Hn Ha Hl H. destruct a as [|o l|]; [done| |done]. destruct Ha as [_ Ha].
  unfold ioctl_put. wp_step. eapply wp_lift; [|by wp_step]. unfold arg_write.
  by rewrite !(proj2 (Z.leb_le _ _)) by lia.
Qed.

Lemma arg_read_val a n off k :
  is_null a = false -> arg_has n a -> 0 <= off -> 0 <= k -> off + k <= n ->
  exists l, bytes_ok l /\ arg_read a off k = Val (slice l off k).
Proof.
  intros Hn Ha H1 H2 H3. destruct a as [|o l|]; [done| |done]. destruct Ha as [Hb Ha].
  exists l. split; [done|]. simpl. apply seg_run_val; lia.
Qed.

Lemma arg_read32_val a n off :
  is_null a = false -> arg_has n a -> 0 <= off -> off + 4 <= n ->
  exists v, arg_read32 a off = Val v /\ is_u32 v.
Proof.
  intros Hn Ha H1 H2. unfold arg_read32.
  destruct (arg_read_val a n off 4) as (l & Hl & ->); try done; try lia. simpl.
  eexists. split; [done|]. apply be_join_range; [word_lia|]. by apply Forall_take, Forall_drop.
Qed.

Section Requests.
Context (ts : list task) (owner channel : Z) (a : ioctl_arg) (s : bpf_state).
Hypothesis Howner : owner <> 0.
Hypothesis Hinv : Inv ts s.

Lemma ioctl_chan_wp need k :
  (forall c, handled s owner channel c -> (need = true -> is_null a = false) ->
     wp (k c) (fun _ => Inv ts) s) ->
  wp (ioctl_chan owner channel need a k) (fun _ => Inv ts) s.
Proof using Howner Hinv.
  intros Hk. unfold ioctl_chan. destruct (need && is_null a) eqn:E; [by wp_step|].
  eapply wp_with_chan; [exact Hinv|done|done|]. intros c Hh. apply Hk; [done|].
  intros ->. by destruct (is_null a).
Qed.

(** Requests that only report. *)
Lemma report_inv (f : AmiBpfChan -> list Z) n :
  arg_has n a -> (forall c, handled s owner channel c -> Z.of_nat (length (f c)) <= n) ->
  wp (ioctl_chan owner channel true a (fun ch => ioctl_put a (f ch))) (fun _ => Inv ts) s.
Proof using Howner Hinv.
  intros Ha Hf. apply ioctl_chan_wp. intros c Hh Hn. by eapply wp_ioctl_put; eauto.
Qed.

Lemma sblen_inv : arg_has 4 a -> wp (ioctl_sblen owner channel a) (fun _ => Inv ts) s.
Proof using Howner Hinv.
  intros Ha. unfold ioctl_sblen. destruct (is_null a) eqn:En; [by wp_step|].
  destruct (arg_read32_val a 4 0) as (v & Ev & Hv); try done; try lia.
  wp_step. eapply wp_lift; [exact Ev|]. cbv zeta.
  eapply wp_with_chan; [exact Hinv|done|done|]. intros c Hh.
  destruct (decide (ch_bufbase c = None)) as [Eb|]; [|by wp_step].
  destruct Hh as [Hr Hat Hop Hw Hp Hbl Hfl (rh & rs & Hbufs) Hif].
  wp_steps. apply (wp_ioctl_put ts _ 4); try done.
  eapply inv_put; try done; [by left|]. unfold chan_wf; simpl. rewrite Hop, Hp.
  split; [by apply clamp_blen_ok|]. split; [done|]. split; [|split; [congruence|done]].
  exists rh, rs. unfold bufs in *. simpl. rewrite Eb in *. done.
Qed.

Lemma flush_inv : wp (ioctl_flush owner channel a) (fun _ => Inv ts) s.
Proof using Howner Hinv.
  apply ioctl_chan_wp. intros c [Hr Hat Hop Hw Hp Hbl Hfl Hbufs Hif] _. wp_steps.
  eapply inv_put; try done; [by right|]. unfold chan_wf; simpl. rewrite Hop, Hp.
  split; [done|]. split; [done|]. split; [|split; [congruence|done]].
  exists [], []. by eapply bufs_flushed.
Qed.

Lemma promisc_inv : wp (ioctl_promisc owner channel a) (fun _ => Inv ts) s.
Proof using Howner Hinv.
  apply ioctl_chan_wp. intros c Hh _. eapply wp_put_soft; [done|done|done|]. intros. by wp_step.
Qed.

Lemma gifaddr_inv cookie_address :
  arg_has 32 a -> wp (ioctl_gifaddr cookie_address owner channel a) (fun _ => Inv ts) s.
Proof using Howner Hinv.
  intros Ha. apply ioctl_chan_wp. intros c Hh Hn. destruct (ch_iface c) as [n|] eqn:Ei; [|by wp_step].
  destruct (hd_iface _ _ _ _ Hh n Ei) as (x & Hx & _). wp_step. apply (wp_iface_at _ x); [done|].
  cbv zeta. wp_step. destruct a as [|o l|]; [by specialize (Hn eq_refl)| |done]. destruct Ha as [_ Ha].
  eapply wp_lift; [|by wp_step]. unfold arg_write. by rewrite !(proj2 (Z.leb_le _ _)) by (simpl; lia).
Qed.

Lemma getif_inv : arg_has 16 a -> wp (ioctl_getif owner channel a) (fun _ => Inv ts) s.
Proof using Howner Hinv.
  intros Ha. apply ioctl_chan_wp. intros c Hh Hn. destruct (decide _); [by wp_step|].
  pose proof (Forall_lookup_1 _ _ _ _ (inv_cname _ _ Hinv) (hd_at _ _ _ _ Hh)) as Hl.
  cbv beta in Hl. eapply wp_ioctl_put; eauto. lia.
Qed.

Lemma srtimeout_inv : arg_has 8 a -> wp (ioctl_srtimeout owner channel a) (fun _ => Inv ts) s.
Proof using Howner Hinv.
  intros Ha. unfold ioctl_srtimeout. destruct (is_null a) eqn:En; [by wp_step|].
  destruct (arg_read32_val a 8 0) as (v & Ev & Hv); try done; try lia.
  destruct (arg_read32_val a 8 4) as (w & Ew & Hw); try done; try lia.
  wp_step. eapply wp_lift; [exact Ev|]. wp_step. eapply wp_lift; [exact Ew|].
  eapply wp_with_chan; [exact Hinv|done|done|]. intros c Hh.
  eapply wp_put_soft; [done|done|done|]. intros. by wp_step.
Qed.

Lemma immediate_inv : arg_has 4 a -> wp (ioctl_immediate owner channel a) (fun _ => Inv ts) s.
Proof using Howner Hinv.
  intros Ha. unfold ioctl_immediate. destruct (is_null a) eqn:En; [by wp_step|].
  destruct (arg_read32_val a 4 0) as (v & Ev & Hv); try done; try lia.
  wp_step. eapply wp_lift; [exact Ev|].
  eapply wp_with_chan; [exact Hinv|done|done|]. intros c Hh.
  eapply wp_put_soft; [done|done|done|]. intros. by wp_step.
Qed.
End Requests.
