(* ===== verification/BpfSystem.v ===== *)
(** The capture layer as a transition system: the stretches its operations are
    made of, run in any order by any number of tasks, and what holds in every
    state that can be reached. *)

From Stdlib Require Import ZArith Lia.
From stdpp Require Import base numbers list gmap sorting relations.
From S2P Require Import Prelude BpfFilter BpfValidate BpfState BpfChannel BpfRecord BpfQueue.
From S2P Require Import BpfInv BpfOps.

(** ** Stretches *)

(** The requests of [ami_bpf_ioctl] that are one locked stretch, with the size of
    the argument each one needs. *)
Inductive request (cookie_address : Z -> Z) (owner channel : Z) (a : ioctl_arg) : M reply -> Prop :=
| rq_fionread : arg_has 4 a -> request cookie_address owner channel a (ioctl_fionread owner channel a)
| rq_gblen : arg_has 4 a -> request cookie_address owner channel a (ioctl_gblen owner channel a)
| rq_sblen : arg_has 4 a -> request cookie_address owner channel a (ioctl_sblen owner channel a)
| rq_flush : request cookie_address owner channel a (ioctl_flush owner channel a)
| rq_promisc : request cookie_address owner channel a (ioctl_promisc owner channel a)
| rq_gdlt : arg_has 4 a -> request cookie_address owner channel a (ioctl_gdlt owner channel a)
| rq_getif : arg_has 16 a -> request cookie_address owner channel a (ioctl_getif owner channel a)
| rq_gifaddr : arg_has 32 a ->
    request cookie_address owner channel a (ioctl_gifaddr cookie_address owner channel a)
| rq_srtimeout : arg_has 8 a -> request cookie_address owner channel a (ioctl_srtimeout owner channel a)
| rq_grtimeout : arg_has 8 a -> request cookie_address owner channel a (ioctl_grtimeout owner channel a)
| rq_gstats : arg_has 8 a -> request cookie_address owner channel a (ioctl_gstats owner channel a)
| rq_immediate : arg_has 4 a -> request cookie_address owner channel a (ioctl_immediate owner channel a)
| rq_version : arg_has 4 a -> request cookie_address owner channel a (ioctl_version owner channel a).

(** What the reader does with a look: [sig] are the signals it finds set. *)
Definition after_look (owner channel gen len waited budget sig : Z) (s : bpf_state)
    (look : read_look) : list task :=
  match look with
  | ReadReturn _ => []
  | ReadCopy _ _ _ => look_tasks channel s look
  | ReadWait _ =>
      if budget <=? waited then []
      else if negb (sig =? 0) then []
      else [TWait owner channel gen len (waited +w AMI_BPF_WAIT_SLICE) budget]
  end.

(** [stretch T m]: [m] is a stretch that the tasks [T] stand before ([[]] for the
    start of an operation); its value are the tasks that stand behind it. *)
Inductive stretch : list task -> M (list task) -> Prop :=
| st_open owner channel :
    owner <> 0 -> stretch [] (_ ← ami_bpf_open owner channel; mret [])
| st_attach name cookie dlt mtu inject :
    match name with Some nm => name_ok 15 nm | None => True end ->
    stretch [] (_ ← ami_bpf_attach_interface name cookie dlt mtu inject; mret [])
| st_detach cookie : stretch [] (_ ← ami_bpf_detach_interface cookie; mret [])
| st_hook fn : stretch [] (_ ← ami_bpf_set_capture_hook fn; mret [])
| st_capture lock now cookie view i :
    0 <= i < 4 -> tap_view_ok view -> is_u32 now.1 -> is_u32 now.2 ->
    stretch [] (_ ← capture_chan lock now cookie view i; mret [])
| st_notify_mask task owner channel mask :
    owner <> 0 -> stretch [] (_ ← ami_bpf_set_notify_mask task owner channel mask; mret [])
| st_interrupt_mask task owner channel mask :
    owner <> 0 -> stretch [] (_ ← ami_bpf_set_interrupt_mask task owner channel mask; mret [])
| st_data_waiting owner channel :
    owner <> 0 -> stretch [] (_ ← ami_bpf_data_waiting owner channel; mret [])
| st_write inj owner channel buffer len :
    owner <> 0 -> match buffer with Some f => len <= Z.of_nat (length f) | None => True end ->
    stretch [] (_ ← ami_bpf_write inj owner channel buffer len; mret [])
| st_request cookie_address owner channel a m :
    owner <> 0 -> request cookie_address owner channel a m -> stretch [] (_ ← m; mret [])
| st_read_enter owner channel buffer len :
    owner <> 0 -> len < 2 ^ 31 ->
    stretch [] (r ← read_enter owner channel buffer len;
                mret (match r with
                      | inl _ => []
                      | inr (gen, budget) => [TWait owner channel gen len 0 budget]
                      end))
| st_read_poll owner channel gen len waited budget sig :
    stretch [TWait owner channel gen len waited budget]
            (look ← read_poll owner channel gen len;
             s ← get id;
             mret (after_look owner channel gen len waited budget sig s look))
| st_read_copy i src nbytes pos snap :
    stretch [TCopy i src nbytes pos snap] (_ ← load_bytes src nbytes; mret [TFinish i pos])
| st_read_finish i pos :
    stretch [TFinish i pos] (pending ← read_finish (Z.of_nat i) pos;
                             mret (if (pending : bool) then [TRelease i] else []))
| st_release i :
    stretch [TRelease i] (r ← chan_release_locked (Z.of_nat i) false 0; mret (release_task r))
| st_close owner channel :
    owner <> 0 ->
    stretch [] (r ← close_locked owner channel;
                mret (match r with inl _ => [] | inr b => release_task (Some b) end))
| st_close_owner owner i :
    owner <> 0 -> 0 <= i < 4 ->
    stretch [] (r ← chan_release_locked i false owner; mret (release_task r))
| st_free b bs : stretch [TFree (b :: bs)] (_ ← ami_free (Some b); mret [TFree bs])
| st_free_done : stretch [TFree []] (mret [])
| st_setif owner channel name :
    owner <> 0 -> name_ok 15 name ->
    stretch [] (ifname ← lift (copy_ifname name);
                r ← ami_bpf_ioctl_snapshot owner channel;
                mret (match r with
                      | inl _ => []
                      | inr (gen, blen, has) => [TSnapif owner channel gen blen has ifname]
                      end))
| st_setif_prepare owner channel gen blen (has : bool) ifname ok :
    stretch [TSnapif owner channel gen blen has ifname]
            (base ← setif_prepare ok (clamp_blen blen) has;
             mret (if negb has && bool_decide (base = None) then []
                   else [TSetif owner channel gen (clamp_blen blen) base ifname]))
| st_setif_commit owner channel gen blen base ifname :
    stretch [TSetif owner channel gen blen base ifname]
            (r ← setif_commit owner channel gen blen base ifname; mret [TFree (opt_list r.2)])
| st_setf owner channel count insns :
    owner <> 0 -> 0 <= count <= 512 -> Forall insn_ok insns -> count <= Z.of_nat (length insns) ->
    stretch [] (r ← ami_bpf_ioctl_snapshot owner channel;
                mret (match r with
                      | inl _ => []
                      | inr (gen, _, _) => [TSnapf owner channel gen count insns]
                      end))
| st_setf_prepare owner channel gen count insns odd ok :
    stretch [TSnapf owner channel gen count insns]
            (r ← setf_prepare ok count (Some (odd, insns));
             mret (match r with inl _ => [] | inr copy => [TSetf owner channel gen count copy] end))
| st_setf_commit owner channel gen count copy :
    stretch [TSetf owner channel gen count copy]
            (r ← setf_commit owner channel gen count copy; mret [TFree (opt_list r.2)]).

(** ** Every stretch returns and keeps the invariant *)

Lemma keeps_stretch {A} ts (m : M A) s :
  keeps ts m -> Inv ts s -> wp (_ ← m; mret []) (fun T' s' => Inv (T' ++ ts) s') s.
Proof.
  intros Hm H. apply wp_bind. eapply wp_mono; [by apply Hm|]. intros a s' H'. by apply wp_ret.
Qed.

Lemma wp_then_ret {A} (m : M A) (f : A -> list task) ts s :
  wp m (fun r s' => Inv (f r ++ ts) s') s ->
  wp (r ← m; mret (f r)) (fun T' s' => Inv (T' ++ ts) s') s.
Proof.
  intros Hm. apply wp_bind. eapply wp_mono; [exact Hm|]. intros a s' H'. by apply wp_ret.
Qed.

Lemma request_keeps ca owner channel a m ts :
  owner <> 0 -> request ca owner channel a m -> keeps ts m.
Proof.
  intros Ho Hr s H. destruct Hr.
  - by apply (report_inv ts owner channel a s Ho H (fun ch => be32 (ami_bpf_buffered ch)) 4).
  - by apply (report_inv ts owner channel a s Ho H (fun ch => be32 (ch_blen ch)) 4).
  - by apply sblen_inv.
  - by apply flush_inv.
  - by apply promisc_inv.
  - by apply (report_inv ts owner channel a s Ho H (fun ch => be32 (ch_dlt ch)) 4).
  - by apply getif_inv.
  - by apply gifaddr_inv.
  - by apply srtimeout_inv.
  - by apply (report_inv ts owner channel a s Ho H
      (fun ch => be32 (ch_rtimeout_sec ch) ++ be32 (ch_rtimeout_usec ch)) 8).
  - by apply (report_inv ts owner channel a s Ho H
      (fun ch => be32 (ch_recv_count ch) ++ be32 (ch_drop_count ch)) 8).
  - by apply immediate_inv.
  - by apply (report_inv ts owner channel a s Ho H (fun _ => be16 1 ++ be16 1) 4).
Qed.

Lemma quiet_task t : (forall i, is_reader i t = 0%nat) -> (forall i, is_releaser i t = 0%nat) -> Forall quiet [t].
Proof. intros H1 H2. by constructor. Qed.

(** A task that owns nothing is added or dropped. *)
Lemma Inv_spawn t ts s :
  task_blocks t = [] -> (forall i, is_reader i t = 0%nat) -> (forall i, is_releaser i t = 0%nat) ->
  task_ok (st_chan s) (st_heap s) t -> Inv ts s -> Inv ([t] ++ ts) s.
Proof.
  intros Hb H1 H2 Hok H. apply (Inv_tasks [] [t] ts s); try done; [by apply quiet_task|by constructor|].
  simpl. by rewrite Hb.
Qed.

Lemma Inv_quit t ts s :
  task_blocks t = [] -> (forall i, is_reader i t = 0%nat) -> (forall i, is_releaser i t = 0%nat) ->
  Inv ([t] ++ ts) s -> Inv ts s.
Proof.
  intros Hb H1 H2 H. apply (Inv_tasks [t] [] ts s); try done; [by apply quiet_task|].
  simpl. by rewrite Hb.
Qed.

Lemma read_enter_inv ts owner channel buffer len s :
  owner <> 0 -> len < 2 ^ 31 -> Inv ts s ->
  wp (read_enter owner channel buffer len)
     (fun r s' => s' = s /\ Inv ((match r with inl _ => []
                       | inr (gen, budget) => [TWait owner channel gen len 0 budget] end) ++ ts) s') s.
Proof.
  intros Ho Hl H. eapply wp_with_chan; [done|done|done|]. intros c Hh.
  destruct (Inv_gen_at ts s channel H (hd_range _ _ _ _ Hh)) as (g & Hg).
  wp_step. apply (wp_generation _ g); [apply (hd_range _ _ _ _ Hh)|done|].
  destruct (negb buffer); cbn [orb]; [by wp_step|].
  destruct (Z.leb_spec len 0); wp_step; [done|]. split; [done|]. by apply Inv_spawn.
Qed.

Lemma poll_stretch_inv ts owner channel gen len waited budget sig s :
  Inv ([TWait owner channel gen len waited budget] ++ ts) s ->
  wp (look ← read_poll owner channel gen len; s ← get id;
      mret (after_look owner channel gen len waited budget sig s look))
     (fun T' s' => Inv (T' ++ ts) s') s.
Proof.
  intros H. pose proof (inv_task _ _ H) as Ht. apply Forall_app in Ht as [Ht _].
  apply Forall_inv in Ht as (Ho & Hl). apply Inv_quit in H; try done.
  wp_step. eapply wp_mono; [by apply read_poll_inv|]. intros look s' H'. cbv beta. wp_steps.
  destruct look as [st|irq|src n pos]; simpl; [done| |done].
  destruct (_ <=? _); [done|]. destruct (negb _); [done|]. by apply Inv_spawn.
Qed.

Lemma stretch_inv T m ts s :
  stretch T m -> Inv (T ++ ts) s -> wp m (fun T' s' => Inv (T' ++ ts) s') s.
Proof.
  intros Hst H. destruct Hst; try (apply keeps_stretch; [|done]).
  - by apply open_keeps.
  - by apply attach_keeps.
  - apply detach_keeps.
  - apply set_capture_hook_keeps.
  - intros s' H'. by apply capture_chan_inv.
  - by apply set_notify_mask_keeps.
  - by apply set_interrupt_mask_keeps.
  - by apply data_waiting_keeps.
  - by apply write_keeps.
  - by eapply request_keeps.
  - apply wp_then_ret. eapply wp_mono; [by apply (read_enter_inv ts)|]. by intros r s' [_ H'].
  - by apply poll_stretch_inv.
  - apply (wp_then_ret _ (fun _ => [TFinish i pos])). eapply wp_mono; [by apply (read_copy_inv ts)|].
    by intros bs s' (_ & _ & H').
  - apply (wp_then_ret _ (fun pending : bool => if pending then [TRelease i] else [])).
    by apply read_finish_inv.
  - apply wp_then_ret. by apply release_pending_inv.
  - apply (wp_then_ret _ (fun r => match r with inl _ => [] | inr b => release_task (Some b) end)).
    by apply close_locked_inv.
  - apply wp_then_ret. by apply release_owner_inv.
  - apply (wp_then_ret _ (fun _ => [TFree bs])). by apply free_inv.
  - apply wp_ret. by apply (Inv_quit (TFree [])).
  - destruct (copy_ifname_val name) as (nm & Enm & _); [done|].
    wp_step. eapply wp_lift; [exact Enm|]. apply wp_then_ret.
    eapply snapshot_wp; [exact H|done|done|]. intros g blen has Hbl. by apply Inv_spawn.
  - apply (wp_then_ret _ (fun base => if negb has && bool_decide (base = None) then []
      else [TSetif owner channel gen (clamp_blen blen) base ifname])). by apply setif_alloc_inv.
  - apply (wp_then_ret _ (fun r => [TFree (opt_list r.2)])). by apply setif_commit_inv.
  - apply wp_then_ret. eapply snapshot_wp; [exact H|done|done|]. intros g blen has Hbl.
    by apply Inv_spawn.
  - apply wp_then_ret. by apply setf_prepare_inv.
  - apply (wp_then_ret _ (fun r => [TFree (opt_list r.2)])). by apply setf_commit_inv.
Qed.

(** ** Executions *)

Definition config : Type := list task * bpf_state.

Inductive sys_step : config -> config -> Prop :=
| SysStep T m ts ts0 s T' s' :
    stretch T m -> ts ≡ₚ T ++ ts0 -> m s = Val (T', s') -> sys_step (ts, s) (T' ++ ts0, s').

Definition reachable (c : config) : Prop := rtc sys_step ([], bpf_state0) c.

Lemma Inv_init : Inv [] bpf_state0.
Proof.
  constructor; try done.
  - intros i c Hc. apply lookup_replicate in Hc as [-> _]. done.
  - repeat constructor.
  - repeat constructor.
Qed.

Lemma sys_step_inv c c' : sys_step c c' -> Inv c.1 c.2 -> Inv c'.1 c'.2.
Proof.
  destruct 1 as [T m ts ts0 s T' s' Hst Hp E]. simpl. intros H. rewrite Hp in H.
  destruct (stretch_inv T m ts0 s Hst H) as (T2 & s2 & E2 & H2). rewrite E in E2. by injection E2 as -> ->.
Qed.

Lemma reachable_inv c : reachable c -> Inv c.1 c.2.
Proof.
  unfold reachable. intros H. remember ([], bpf_state0) as c0 eqn:E0.
  assert (H0 : Inv c0.1 c0.2) by (subst c0; apply Inv_init). clear E0.
  induction H as [|x y z Hxy Hyz IH]; [done|]. apply IH. by eapply sys_step_inv.
Qed.

(** Schedules that can be executed, and one concrete run of the capture layer: an
    interface is attached, a channel opened, bound and given a filter, a frame
    captured, and a reader taken to the copy-out.  The theorems of [BpfSpec] are
    instantiated at it. *)

#[export] Instance bpf_insn_eq_dec : EqDecision bpf_insn.
Proof. solve_decision. Defined.
#[export] Instance task_eq_dec : EqDecision task.
Proof. solve_decision. Defined.

(** A schedule: what each stretch stands behind, and the stretch. *)
Fixpoint run_schedule (l : list (list task * M (list task))) (c : config) : option config :=
  match l with
  | [] => Some c
  | (T, m) :: r =>
      if decide (c.1 = T)
      then match m c.2 with Val (T', s') => run_schedule r (T', s') | _ => None end
      else None
  end.

Lemma run_schedule_reachable l c c' :
  Forall (fun p => stretch p.1 p.2) l -> reachable c -> run_schedule l c = Some c' -> reachable c'.
Proof.
  intros Hl. revert c. induction Hl as [|[T m] l Hp Hl IH]; intros [ts s] Hc; simpl; [congruence|].
  destruct (decide (ts = T)) as [->|]; [|done]. destruct (m s) as [[T' s']| |] eqn:E; [|done..].
  apply IH. rewrite <- (app_nil_r T'). eapply rtc_r; [exact Hc|].
  eapply (SysStep T m T []); [exact Hp|by rewrite app_nil_r|done].
Qed.

Definition demo_view : AmiBpfView := ami_bpf_view_linear [1;2;3;4;5;6] 6.
Definition demo : list (list task * M (list task)) := [
  ([], _ ← ami_bpf_attach_interface (Some [101; 48; 0]) 5 1 1500 0; mret []);
  ([], _ ← ami_bpf_open 7 (-1); mret []);
  ([], _ ← ioctl_sblen 7 0 (ArgBytes false (be32 64)); mret []);
  ([], ifname ← lift (copy_ifname [101; 48; 0]);
       r ← ami_bpf_ioctl_snapshot 7 0;
       mret (match r with inl _ => [] | inr (gen, blen, has) => [TSnapif 7 0 gen blen has ifname] end));
  ([TSnapif 7 0 1 64 false ([101; 48] ++ replicate 14 0)],
       base ← setif_prepare true (clamp_blen 64) false;
       mret (if negb false && bool_decide (base = None) then []
             else [TSetif 7 0 1 (clamp_blen 64) base ([101; 48] ++ replicate 14 0)]));
  ([TSetif 7 0 1 (clamp_blen 64) (Some 1%positive) ([101; 48] ++ replicate 14 0)],
       r ← setif_commit 7 0 1 (clamp_blen 64) (Some 1%positive) ([101; 48] ++ replicate 14 0);
       mret [TFree (opt_list r.2)]);
  ([TFree []], mret []);
  ([], r ← ami_bpf_ioctl_snapshot 7 0;
       mret (match r with inl _ => [] | inr (gen, _, _) => [TSnapf 7 0 gen 1 [BpfInsn 6 0 0 96]] end));
  ([TSnapf 7 0 1 1 [BpfInsn 6 0 0 96]],
       r ← setf_prepare true 1 (Some (false, [BpfInsn 6 0 0 96]));
       mret (match r with inl _ => [] | inr copy => [TSetf 7 0 1 1 copy] end));
  ([TSetf 7 0 1 1 (Some 2%positive)],
       r ← setf_commit 7 0 1 1 (Some 2%positive); mret [TFree (opt_list r.2)]);
  ([TFree []], mret []);
  ([], _ ← capture_chan true (1, 2) 5 demo_view 0; mret []);
  ([], r ← read_enter 7 0 true 64;
       mret (match r with inl _ => [] | inr (gen, budget) => [TWait 7 0 gen 64 0 budget] end));
  ([TWait 7 0 1 64 0 0],
       look ← read_poll 7 0 1 64; s ← get id; mret (after_look 7 0 1 64 0 0 0 s look))
].

Lemma demo_view_ok : tap_view_ok demo_view.
Proof.
  split; [|by vm_compute]. repeat split; try done; try (vm_compute; congruence).
  repeat constructor; simpl; word_lia.
Qed.

Lemma demo_name_ok : name_ok 15 [101; 48; 0].
Proof. right. set_solver. Qed.

Lemma demo_stretches : Forall (fun p => stretch p.1 p.2) demo.
Proof.
  repeat apply Forall_cons_2; [..|constructor].
  - apply st_attach, demo_name_ok.
  - by apply st_open.
  - apply (st_request (fun _ => 0) 7 0 (ArgBytes false (be32 64))); [done|]. apply rq_sblen.
    split; [|by vm_compute]. repeat constructor; apply u8_range.
  - by apply st_setif, demo_name_ok.
  - apply st_setif_prepare.
  - apply st_setif_commit.
  - apply st_free_done.
  - apply st_setf; [done|lia| |simpl; lia]. repeat constructor; simpl; word_lia.
  - apply st_setf_prepare.
  - apply st_setf_commit.
  - apply st_free_done.
  - apply st_capture; [lia|apply demo_view_ok|(unfold is_u32; simpl; lia)..].
  - apply st_read_enter; [done|lia].
  - apply st_read_poll.
Qed.

(** The channel holds one record; then a reader is about to copy it out. *)
Definition demo_idle : config :=
  Eval vm_compute in default ([], bpf_state0) (run_schedule (take 12 demo) ([], bpf_state0)).
Definition demo_copying : config :=
  Eval vm_compute in default ([], bpf_state0) (run_schedule demo ([], bpf_state0)).

Lemma demo_idle_reachable : reachable demo_idle.
Proof.
  apply (run_schedule_reachable (take 12 demo) ([], bpf_state0)).
  - apply Forall_take, demo_stretches.
  - constructor.
  - by vm_compute.
Qed.

Lemma demo_copying_reachable : reachable demo_copying.
Proof.
  apply (run_schedule_reachable demo ([], bpf_state0)).
  - apply demo_stretches.
  - constructor.
  - by vm_compute.
Qed.

(** The channel of the run. *)
Definition demo_chan : AmiBpfChan := Eval vm_compute in default chan_zero (st_chan demo_idle.2 !! 0%nat).

Definition demo_rec : bpf_rec := BpfRec 1 2 6 [1; 2; 3; 4; 5; 6].

Lemma demo_chan_bufs : bufs (st_heap demo_idle.2) demo_chan [] [demo_rec].
Proof.
  destruct (st_heap demo_idle.2 !! 1%positive) as [[bytes|]|] eqn:E; [|vm_compute in E; congruence..].
  exists bytes, 0. vm_compute in E. injection E as <-. unfold halves. simpl ch_store_len. simpl ch_hold_pos.
  split_and!; try done; try (by left); try (by right); try (vm_compute; congruence).
Qed.

Lemma demo_handled : handled demo_idle.2 7 0 demo_chan.
Proof.
  apply (Inv_handled [] _ 7 0 demo_chan (reachable_inv _ demo_idle_reachable)); (lia || done).
Qed.
