(* ===== verification/BpfWhole.v ===== *)
(** The operations of the capture layer as a caller sees them, end to end: every
    request, every tap and every read returns and keeps the invariant; the wait of
    [ami_bpf_read]; what open, close and stale handles do. *)

From Stdlib Require Import ZArith Lia.
From stdpp Require Import base numbers list gmap sorting relations.
From S2P Require Import Prelude BpfFilter BpfValidate BpfState BpfChannel BpfRecord BpfQueue.
From S2P Require Import BpfInv BpfOps BpfSystem.

(** ** Freeing what an operation retired *)

Lemma free_opt_inv ts o bs s :
  Inv (TFree (opt_list o ++ bs) :: ts) s -> wp (ami_free o) (fun _ => Inv (TFree bs :: ts)) s.
Proof.
  intros H. destruct o as [b|]; [by apply free_inv|]. by exists tt, s.
Qed.

Lemma Inv_freed ts s : Inv (TFree [] :: ts) s -> Inv ts s.
Proof. by apply (Inv_quit (TFree [])). Qed.

Lemma free_last_inv ts o s : Inv ([TFree (opt_list o)] ++ ts) s -> wp (ami_free o) (fun _ => Inv ts) s.
Proof.
  intros H. rewrite <- (app_nil_r (opt_list o)) in H. eapply wp_mono; [by apply (free_opt_inv ts o [])|].
  intros [] s' H'. by apply Inv_freed.
Qed.

Lemma free_two_inv ts r s : Inv (release_task r ++ ts) s -> wp (free_two r) (fun _ => Inv ts) s.
Proof.
  destruct r as [[bufbase filter]|]; simpl; intros H; [|by wp_step].
  wp_step. eapply wp_mono; [by apply (free_opt_inv ts bufbase (opt_list filter))|]. intros [] s' H'.
  by apply free_last_inv.
Qed.

Lemma close_keeps ts owner channel : owner <> 0 -> keeps ts (ami_bpf_close owner channel).
Proof.
  intros Ho s H. unfold ami_bpf_close. wp_step. eapply wp_mono; [by apply close_locked_inv|].
  intros [st|bl] s' H'; [by wp_step|]. wp_step. eapply wp_mono; [by apply (free_two_inv ts (Some bl))|].
  intros [] s2 H2. by wp_step.
Qed.

Lemma close_owner_keeps ts owner : owner <> 0 -> keeps ts (ami_bpf_close_owner owner).
Proof.
  intros Ho s H. apply (wp_for_chan 4 0 _ (fun _ => Inv ts)); [done|]. intros j s' Hj H'.
  destruct (Inv_chan_at ts s' j H' ltac:(lia)) as (c & Hc). wp_step. apply (wp_chan _ c); [lia|done|].
  destruct (_ && _); [|by wp_step]. unfold ami_bpf_chan_release. wp_step.
  eapply wp_mono; [apply (release_owner_inv ts j owner); (lia || done)|]. intros r s2 H2.
  by apply free_two_inv.
Qed.

(** ** BIOCSETIF, BIOCSETF and the dispatch *)

Lemma setif_keeps ts ok owner channel name :
  owner <> 0 -> name_ok 15 name -> keeps ts (ami_bpf_ioctl_setif ok owner channel name).
Proof.
  intros Ho Hn s H. unfold ami_bpf_ioctl_setif.
  destruct (copy_ifname_val name Hn) as (nm & Enm & _). wp_step. eapply wp_lift; [exact Enm|].
  wp_step. eapply snapshot_wp; [exact H|done|intros; by wp_step|]. intros g blen has Hbl. cbv beta iota zeta.
  wp_step. eapply wp_mono.
  { apply (setif_alloc_inv ts owner channel g blen has nm ok). by apply Inv_spawn. }
  intros base s' H'. cbv beta in H' |- *. revert H'. destruct (negb has && _); intros H'; [by wp_step|].
  wp_step. eapply wp_mono; [by apply setif_commit_inv|]. intros r s2 H2. wp_step.
  eapply wp_mono; [exact (free_last_inv ts r.2 s2 H2)|]. intros [] s3 H3. by wp_step.
Qed.

(** The caller's program: its array has the [bf_len] instructions it says. *)
Definition prog_ok (prog : option (Z * option (bool * list bpf_insn))) : Prop :=
  match prog with
  | Some (count, insns) =>
      is_u32 count /\
      match insns with
      | Some (_, l) => Forall insn_ok l /\ (count <= BPF_MAXINSNS -> count <= Z.of_nat (length l))
      | None => True
      end
  | None => True
  end.

Lemma setf_keeps ts ok owner channel prog :
  owner <> 0 -> prog_ok prog -> keeps ts (ami_bpf_ioctl_setf ok owner channel prog).
Proof.
  intros Ho Hp s H. unfold ami_bpf_ioctl_setf. destruct prog as [[count insns]|]; [|by wp_step].
  destruct Hp as [Hc Hins].
  wp_step. eapply snapshot_wp; [exact H|done|intros; by wp_step|]. intros g blen has Hbl. cbv beta iota.
  assert (Hcommit : forall copy s', Inv ([TSetf owner channel g count copy] ++ ts) s' ->
    wp (r2 ← setf_commit owner channel g count copy; _ ← ami_free r2.2; mret r2.1) (fun _ => Inv ts) s').
  { intros copy s' H'. wp_step. eapply wp_mono; [by apply setf_commit_inv|]. intros r s2 H2. wp_step.
    eapply wp_mono; [exact (free_last_inv ts r.2 s2 H2)|]. intros [] s3 H3. by wp_step. }
  wp_step. destruct insns as [[odd l]|].
  - destruct Hins as [Hok Hl]. destruct (decide (count <= 512)).
    + eapply wp_mono; [apply (setf_prepare_inv ts owner channel g count odd l ok)|].
      { apply Inv_spawn; try done. simpl. split_and!; try done; wunfold; lia. }
      intros [st|copy] s' H'; [by wp_step|by apply Hcommit].
    + unfold setf_prepare. destruct (Z.eqb_spec count 0); [lia|].
      rewrite (proj2 (Z.ltb_lt _ _)) by lia. cbn [orb]. wp_steps. done.
  - unfold setf_prepare. destruct (Z.eqb_spec count 0) as [->|]; wp_step; [|by wp_step].
    apply Hcommit. by apply Inv_spawn.
Qed.

(** What the caller passes with a command: NULL or a buffer of the size the
    command transfers; for BIOCSETF a program. *)
Definition ioctl_bytes (cmd : Z) : Z :=
  if (cmd =? AMI_BPF_CMD AMI_BPF_SIOCGIFADDR) || (cmd =? AMI_BPF_CMD BIOCGETIF) ||
     (cmd =? AMI_BPF_CMD BIOCSETIF) then 32
  else if (cmd =? AMI_BPF_CMD BIOCSRTIMEOUT) || (cmd =? AMI_BPF_CMD BIOCGRTIMEOUT) ||
          (cmd =? AMI_BPF_CMD BIOCGSTATS) then 8
  else 4.
Definition ioctl_arg_ok (cmd : Z) (a : ioctl_arg) : Prop :=
  if cmd =? AMI_BPF_CMD BIOCSETF then
    match a with
    | ArgNull => True
    | ArgProg _ n insns => prog_ok (Some (n, insns))
    | ArgBytes _ _ => False
    end
  else arg_has (ioctl_bytes cmd) a.

Lemma arg_has_le n m a : n <= m -> arg_has m a -> arg_has n a.
Proof. intros Hl. destruct a; simpl; [done| |done]. intros [? ?]. split; [done|lia]. Qed.

(** Every [ami_bpf_ioctl] call returns, whatever the command word: it neither
    reads nor writes outside the caller's buffer and keeps the channel table, the
    heap and the tasks in flight consistent; an unknown command is EINVAL. *)
Theorem ioctl_safe cookie_address alloc_ok ts s owner channel command a :
  Inv ts s -> owner <> 0 -> ioctl_arg_ok (AMI_BPF_CMD command) a ->
  exists r s', ami_bpf_ioctl cookie_address alloc_ok owner channel command a s = Val (r, s') /\ Inv ts s'.
Proof.
  intros H Ho Ha.
  enough (Hk : wp (ami_bpf_ioctl cookie_address alloc_ok owner channel command a) (fun _ => Inv ts) s)
    by exact Hk.
  unfold ami_bpf_ioctl. eapply wp_with_chan; [exact H|done|done|]. intros c Hh. cbv zeta.
  set (cmd := AMI_BPF_CMD command) in *. unfold ioctl_arg_ok in Ha.
  destruct (_ && is_odd a); [by wp_step|].
  assert (H4 : cmd <> AMI_BPF_CMD BIOCSETF -> arg_has 4 a).
  { intros Hn. rewrite (proj2 (Z.eqb_neq _ _)) in Ha by done. eapply arg_has_le; [|exact Ha].
    unfold ioctl_bytes. destruct (_ || _ || _); [lia|]. destruct (_ || _ || _); lia. }
  assert (Hrq : forall m, request cookie_address owner channel a m -> wp m (fun _ => Inv ts) s).
  { intros m Hm. by apply (request_keeps cookie_address owner channel a m ts Ho Hm). }
  destruct (cmd =? AMI_BPF_CMD BIOCSETF) eqn:Ef; cycle 1.
  - apply Z.eqb_neq in Ef. specialize (H4 Ef). unfold ioctl_bytes in Ha.
    repeat (match goal with |- wp (if ?b then _ else _) _ _ =>
      destruct b eqn:?; [first [apply Hrq; constructor; exact H4 | apply Hrq; constructor; exact Ha
        | apply Hrq; constructor; revert Ha; apply arg_has_le; lia | idtac]|] end).
    all: try by wp_step.
    + apply Hrq, rq_getif. revert Ha. apply arg_has_le. by rewrite orb_true_r.
    + destruct a as [|o l|]; [by wp_step| |done]. destruct Ha as [_ Ha]. wp_step.
      eapply wp_mono; [apply (setif_keeps ts alloc_ok owner channel l Ho); [left|done]|].
      { revert Ha. rewrite orb_true_r. lia. }
      intros st s' H'. by wp_step.
  - apply Z.eqb_eq in Ef.
    assert (E : forall k, k <> AMI_BPF_CMD BIOCSETF -> (cmd =? k) = false)
      by (intros k Hk; apply Z.eqb_neq; congruence).
    rewrite !E by done. wp_step.
    eapply (wp_mono _ (fun prog s' => s' = s /\ prog_ok prog)).
    { destruct a; [by wp_step|done|by wp_step]. }
    intros prog s' [-> Hp]. wp_step. eapply wp_mono; [by apply (setf_keeps ts alloc_ok owner channel prog)|].
    intros st s' H'. by wp_step.
Qed.

Lemma ioctl_safe_witness :
  exists r s', ami_bpf_ioctl (fun _ => 0) true 7 0 BIOCSBLEN (ArgBytes false [0; 0; 0; 99]) bpf_state0
    = Val (r, s') /\ Inv [] s'.
Proof.
  apply (ioctl_safe (fun _ => 0) true [] bpf_state0 7 0 BIOCSBLEN (ArgBytes false [0; 0; 0; 99]));
    [exact Inv_init|discriminate|]. split; [|vm_compute; discriminate]. repeat constructor; vm_compute; congruence.
Defined.

(** The dispatch looks at the direction, group and number of a command only:
    two command words that agree on them are the same request, whatever length
    they encode. *)
Theorem ioctl_ignores_length cookie_address alloc_ok owner channel inout group num len1 len2 a s :
  is_u8 group -> is_u8 num -> In inout [0x20000000; 0x40000000; 0x80000000; 0xc0000000] ->
  ami_bpf_ioctl cookie_address alloc_ok owner channel (ioc inout group num len1) a s =
  ami_bpf_ioctl cookie_address alloc_ok owner channel (ioc inout group num len2) a s.
Proof.
  intros Hg Hn Hi.
  assert (Hcmd : forall len, AMI_BPF_CMD (ioc inout group num len) =
            Z.lor inout (Z.lor (Z.shiftl group 8) num)); [|by unfold ami_bpf_ioctl; rewrite !Hcmd].
  intros len. unfold AMI_BPF_CMD, ioc.
  assert (Hgn : 0 <= Z.lor (Z.shiftl group 8) num < 2 ^ 16).
  { apply lor_range; [lia| |word_lia]. rewrite Z.shiftl_mul_pow2 by lia. word_lia. }
  set (gn := Z.lor (Z.shiftl group 8) num) in *. clearbody gn.
  assert (Hin : 0 <= inout < 2 ^ 32) by (repeat destruct Hi as [<-|Hi]; [lia..|done]).
  assert (Hl : 0 <= Z.shiftl (Z.land len 8191) 16 < 2 ^ 32).
  { rewrite Z.shiftl_mul_pow2 by lia. change 8191 with (Z.ones 13). rewrite Z.land_ones by lia.
    pose proof (Z.mod_pos_bound len (2 ^ 13) ltac:(lia)). lia. }
  unfold u32. rewrite Z.mod_small by (apply lor_range; [lia|by apply lor_range|]; lia).
  rewrite <- Z.lor_assoc, !Z.land_lor_distr_l.
  assert (E1 : Z.land inout (Z.lor IOC_DIRMASK 65535) = inout) by (by repeat destruct Hi as [<-|Hi]).
  assert (E2 : Z.land (Z.shiftl (Z.land len 8191) 16) (Z.lor IOC_DIRMASK 65535) = 0).
  { change (Z.lor IOC_DIRMASK 65535) with (Z.lor (Z.shiftl 0xe000 16) (Z.ones 16)).
    rewrite Z.land_lor_distr_r, <- Z.shiftl_land, <- Z.land_assoc, Z.land_0_r, Z.land_ones by lia.
    rewrite Z.shiftl_0_l, Z.lor_0_l.
    rewrite (Z.shiftl_mul_pow2 _ 16), Z.mod_mul by lia. done. }
  assert (E3 : Z.land gn (Z.lor IOC_DIRMASK 65535) = gn).
  { rewrite <- (Z.mod_small gn (2 ^ 16)) at 1 by lia. rewrite <- Z.land_ones, <- Z.land_assoc by lia.
    change (Z.land (Z.ones 16) (Z.lor IOC_DIRMASK 65535)) with (Z.ones 16).
    rewrite Z.land_ones, Z.mod_small by lia. done. }
  by rewrite E1, E2, E3, Z.lor_0_l.
Qed.

Lemma ioctl_ignores_length_witness :
  ami_bpf_ioctl (fun _ => 0) true 7 0 (ioc 0x40000000 66 102 4) ArgNull demo_idle.2 =
  ami_bpf_ioctl (fun _ => 0) true 7 0 (ioc 0x40000000 66 102 1) ArgNull demo_idle.2.
Proof.
  apply (ioctl_ignores_length (fun _ => 0) true 7 0 0x40000000 66 102 4 1 ArgNull demo_idle.2);
    [word_lia|word_lia|simpl; auto].
Defined.

(** ** The taps *)

Lemma capture_from_keeps ts n i lock now cookie view :
  0 <= i -> i + Z.of_nat n <= 4 -> tap_view_ok view -> is_u32 now.1 -> is_u32 now.2 ->
  keeps ts (capture_from n i lock now cookie view).
Proof.
  intros Hi Hn Hv H1 H2. revert i Hi Hn. induction n as [|n IH]; intros i Hi Hn s H; cbn [capture_from].
  - by wp_step.
  - wp_step. eapply wp_mono; [apply (capture_chan_inv ts); (lia || done)|]. intros [] s' H'; [|by wp_step].
    apply IH; [lia..|done].
Qed.

(** What the walk over the packet chain collects. *)
Definition nx_bytes (p : nx_packet) : list Z :=
  if nx_append p <=? nx_prepend p then [] else slice (nx_buf p) (nx_prepend p) (nx_append p - nx_prepend p).
Definition nx_ok (p : nx_packet) : Prop :=
  0 <= nx_prepend p /\ nx_append p <= Z.of_nat (length (nx_buf p)) /\ bytes_ok (nx_buf p) /\
  Z.of_nat (length (nx_buf p)) < 2 ^ 32.

(** A view under construction: every segment lies in its buffer and [caplen] is
    the number of bytes they hold. *)
Definition view_built (v : AmiBpfView) : Prop :=
  Forall seg_ok (v_seg v) /\ v_caplen v = Z.of_nat (length (flat (v_seg v))).

Lemma flat_snoc segs s : flat (segs ++ [s]) = flat segs ++ seg_bytes s.
Proof. unfold flat. rewrite map_app, concat_app. simpl. by rewrite app_nil_r. Qed.

Lemma view_add_built view base len :
  view_built view -> bytes_ok base -> 0 <= len <= Z.of_nat (length base) ->
  v_caplen view + len < 2 ^ 32 ->
  let '(view', st) := ami_bpf_view_add view base len in
  view_built view' /\ v_caplen view <= v_caplen view' <= v_caplen view + len /\
  (st = 0 -> flat (v_seg view') = flat (v_seg view) ++ take (Z.to_nat len) base) /\
  (st <> 0 -> view' = view /\ AMI_BPF_MAX_SEGS <= Z.of_nat (length (v_seg view))).
Proof.
  intros [Hs Hc] Hb Hl Hsum. unfold ami_bpf_view_add.
  destruct (Z.leb_spec AMI_BPF_MAX_SEGS (Z.of_nat (length (v_seg view)))); [split_and!; try done; lia|].
  destruct (Z.eqb_spec len 0) as [->|].
  { split_and!; try done; try lia. intros _. simpl. by rewrite app_nil_r. }
  assert (Hlen : length (seg_bytes (BpfSeg base len)) = Z.to_nat len)
    by (unfold seg_bytes; simpl; rewrite length_take; lia).
  rewrite (u32_small (v_caplen view + len)) by word_lia. unfold view_built; simpl.
  rewrite flat_snoc, length_app, Hlen. split_and!; try done; try lia.
  apply Forall_app. split; [done|]. repeat constructor; simpl; (lia || done).
Qed.

Lemma tap_tx_view_built view chain :
  view_built view -> Forall nx_ok chain ->
  v_caplen view + Z.of_nat (length (concat (map nx_bytes chain))) < 2 ^ 32 ->
  let view' := tap_tx_view view chain in
  view_built view' /\ v_caplen view <= v_caplen view' /\
  v_caplen view' <= v_caplen view + Z.of_nat (length (concat (map nx_bytes chain))) /\
  exists k, flat (v_seg view') = flat (v_seg view) ++ concat (map nx_bytes (take k chain)) /\
    ((k < length chain)%nat -> AMI_BPF_MAX_SEGS <= Z.of_nat (length (v_seg view'))).
Proof.
  intros Hv Hch. revert view Hv. induction Hch as [|p chain Hp Hch IH]; intros view Hv Hsum.
  { split_and!; try done; try (simpl; lia). exists 0%nat. simpl. rewrite app_nil_r. split; [done|lia]. }
  cbn [tap_tx_view]. simpl in Hsum |- *. rewrite length_app in Hsum |- *. unfold nx_bytes at 1 in Hsum.
  unfold nx_bytes at 1. destruct Hp as (P1 & P2 & P3 & P4).
  destruct (Z.leb_spec (nx_append p) (nx_prepend p)) as [Hle|Hgt].
  - simpl in Hsum |- *. destruct (IH view Hv Hsum) as (I1 & I2 & I3 & k & I4 & I5).
    split_and!; try done. exists (S k). simpl. unfold nx_bytes at 1.
    rewrite (proj2 (Z.leb_le _ _)) by lia. split; [done|]. intros Hk. apply I5. lia.
  - assert (Hsl : Z.of_nat (length (slice (nx_buf p) (nx_prepend p) (nx_append p - nx_prepend p)))
                  = nx_append p - nx_prepend p) by (apply slice_length; lia).
    rewrite (u32_small (nx_append p - nx_prepend p)) by word_lia.
    pose proof (view_add_built view (drop (Z.to_nat (nx_prepend p)) (nx_buf p)) (nx_append p - nx_prepend p)
      Hv ltac:(by apply Forall_drop) ltac:(rewrite length_drop; lia) ltac:(lia)) as Ha.
    destruct (ami_bpf_view_add _ _ _) as [view1 st]. destruct Ha as (A1 & A2 & A3 & A4).
    destruct (Z.eqb_spec st 0) as [->|Hst]; cbn [negb].
    + destruct (IH view1 A1 ltac:(lia)) as (I1 & I2 & I3 & k & I4 & I5).
      split_and!; try done; try lia. exists (S k). simpl. unfold nx_bytes at 1.
      rewrite (proj2 (Z.leb_gt _ _)) by lia. rewrite I4, A3 by done. unfold slice. rewrite app_assoc.
      split; [done|]. intros Hk. apply I5. lia.
    + destruct (A4 Hst) as [-> Hmax]. split_and!; try done; try lia. exists 0%nat. simpl.
      rewrite app_nil_r. done.
Qed.

(** The link header the transmit tap puts in front of the packet, if any. *)
Definition tx_header (x : AmiBpfIf) (has_link_header : bool) (ether_type dst_msw dst_lsw : Z)
    (src_mac : option (list Z)) : list Z :=
  if negb has_link_header && (if_dlt x =? DLT_EN10MB)
  then tx_eth ether_type dst_msw dst_lsw src_mac else [].

Lemma tx_eth_bytes ether_type dst_msw dst_lsw src_mac :
  match src_mac with Some m => (6 <= length m)%nat /\ bytes_ok m | None => True end ->
  bytes_ok (tx_eth ether_type dst_msw dst_lsw src_mac) /\
  length (tx_eth ether_type dst_msw dst_lsw src_mac) = 14%nat.
Proof.
  intros Hm. unfold tx_eth. rewrite !length_app. split.
  - apply Forall_app. split; [repeat constructor; apply u8_range|].
    apply Forall_app. split; [|repeat constructor; apply u8_range].
    destruct src_mac; [apply Forall_take; apply Hm|]. repeat constructor; word_lia.
  - destruct src_mac as [m|]; [|done]. rewrite length_take. destruct Hm as [Hm _]. cbn [length]. lia.
Qed.

(** The transmit tap captures the frame as it goes out: the synthesised
    Ethernet header (when the packet carries none and the link is Ethernet)
    followed by the bytes of the packet chain, cut short only when the view is out
    of segments; the wire length counts header and packet.  The call returns and
    keeps the invariant. *)
Theorem tap_tx_captures ts s lock now cookie chain plen link ether_type msw lsw mac n x :
  Inv ts s -> 0 < st_bound s -> is_u32 now.1 -> is_u32 now.2 -> is_u32 plen -> Forall nx_ok chain ->
  Z.of_nat (length (concat (map nx_bytes chain))) + 34 < 2 ^ 32 ->
  match mac with Some m => (6 <= length m)%nat /\ bytes_ok m | None => True end ->
  ami_bpf_iface_by_cookie cookie s = Val (Some n, s) -> st_iface s !! n = Some x ->
  let hdr := tx_header x link ether_type msw lsw mac in
  exists view k s',
    ami_bpf_tap_tx true lock now cookie (Some (chain, plen)) link ether_type msw lsw mac s = Val (tt, s') /\
    ami_bpf_capture lock now cookie view s = Val (tt, s') /\ Inv ts s' /\
    flat (v_seg view) = hdr ++ concat (map nx_bytes (take k chain)) /\
    v_caplen view = Z.of_nat (length (flat (v_seg view))) /\
    v_wirelen view = u32 (plen + Z.of_nat (length hdr)) /\
    ((k < length chain)%nat -> AMI_BPF_MAX_SEGS <= Z.of_nat (length (v_seg view))).
Proof.
  intros H Hb H1 H2 Hplen Hch Hlen Hmac Hck Hx hdr.
  destruct (tx_eth_bytes ether_type msw lsw mac Hmac) as [Eb El].
  set (synth := negb link && (if_dlt x =? 1)).
  set (view1 := if synth then (ami_bpf_view_add (BpfView 0 0 []) (tx_eth ether_type msw lsw mac) 14).1
                else BpfView 0 0 []).
  assert (Hv1 : view_built view1 /\ flat (v_seg view1) = hdr /\ v_caplen view1 = Z.of_nat (length hdr)).
  { unfold view1, hdr, tx_header. fold synth. destruct synth; [|done].
    revert Eb El. generalize (tx_eth ether_type msw lsw mac). intros eth Eb El.
    unfold view_built, flat, seg_bytes; simpl. rewrite take_ge by lia. rewrite app_nil_r, El.
    split_and!; try done. repeat constructor; simpl; (lia || done). }
  destruct Hv1 as (B1 & B2 & B3).
  assert (Hhdr : Z.of_nat (length hdr) <= 14) by (unfold hdr, tx_header; destruct (_ && _); [lia|simpl; lia]).
  destruct (tap_tx_view_built view1 chain B1 Hch ltac:(lia)) as ([V1 V2] & V3 & V4 & k & V5 & V6).
  set (wl := if synth then plen +w 14 else plen).
  set (view := BpfView wl (v_caplen (tap_tx_view view1 chain)) (v_seg (tap_tx_view view1 chain))).
  assert (Hok : tap_view_ok view).
  { assert (Hw : is_u32 wl) by (unfold wl; destruct synth; [apply u32_range|done]).
    unfold tap_view_ok, view_ok, view; simpl. rewrite <- V2. split_and!; try done; word_lia. }
  destruct (capture_from_keeps ts 4 0 lock now cookie view ltac:(lia) ltac:(lia) Hok H1 H2 s H)
    as ([] & s' & E & H').
  exists view, k, s'. split_and!; try done.
  - unfold ami_bpf_tap_tx, mbind, M_bind, get. simpl. destruct (Z.eqb_spec (st_bound s) 0); [lia|].
    rewrite Hck. unfold iface_at. rewrite Hx. exact E.
  - simpl. by rewrite V5, B2.
  - simpl. unfold wl, hdr, tx_header. fold synth. destruct synth; [by rewrite El|].
    simpl. rewrite Z.add_0_r. by rewrite u32_small.
Qed.

Lemma tap_tx_captures_witness :
  exists view k s',
    ami_bpf_tap_tx true (fun _ => true) (1, 1) 5 (Some ([NxPacket [9; 8; 7; 6] 1 3], 2)) false 0x800 1 2 None
      demo_idle.2 = Val (tt, s') /\
    ami_bpf_capture (fun _ => true) (1, 1) 5 view demo_idle.2 = Val (tt, s') /\ Inv demo_idle.1 s' /\
    flat (v_seg view) = [0; 1; 0; 0; 0; 2; 0; 0; 0; 0; 0; 0; 8; 0] ++
                        concat (map nx_bytes (take k [NxPacket [9; 8; 7; 6] 1 3])) /\
    v_wirelen view = 16.
Proof.
  destruct (tap_tx_captures demo_idle.1 demo_idle.2 (fun _ => true) (1, 1) 5 [NxPacket [9; 8; 7; 6] 1 3] 2
    false 0x800 1 2 None 0%nat (default if_zero (st_iface demo_idle.2 !! 0%nat)))
    as (view & k & s' & E1 & E2 & E3 & E4 & _ & E6 & _);
    [exact (reachable_inv _ demo_idle_reachable)|reflexivity|(unfold is_u32; simpl; lia)..| |simpl; lia
    |exact I|reflexivity|reflexivity|].
  - repeat constructor; simpl; word_lia.
  - exists view, k, s'. split_and!; try done.
Defined.

(** ** The wait of [ami_bpf_read] *)

(** The tick budget of a read timeout is the timeout rounded up to ticks, and
    the largest [ULONG] when that does not fit: a long timeout never turns into a
    short one. *)
Theorem read_budget_saturates sec usec :
  is_u32 sec -> is_u32 usec ->
  read_budget sec usec = Z.min (2 ^ 32 - 1) (50 * sec + (usec + 19999) / 20000).
Proof.
  intros Hs Hu. unfold read_budget. change (1000000 / 50) with 20000.
  set (f := if negb _ then _ else _).
  assert (Hf : f = (usec + 19999) / 20000 /\ 0 <= f <= 214749).
  { unfold f. destruct (Z.eqb_spec (usec mod 20000) 0); cbn [negb]; [word_lia|].
    rewrite u32_small by word_lia. word_lia. }
  destruct Hf as [<- Hf]. clearbody f. change (u32 (Z.lnot 0)) with (2 ^ 32 - 1).
  rewrite (u32_small (2 ^ 32 - 1 - f)) by word_lia.
  destruct (Z.ltb_spec ((2 ^ 32 - 1 - f) / 50) sec); [word_lia|].
  rewrite (u32_small (sec * 50)), u32_small by word_lia. word_lia.
Qed.

Lemma read_budget_saturates_witness : read_budget 1 1 = 51 /\ read_budget 4000000000 0 = 2 ^ 32 - 1.
Proof.
  split; [rewrite (read_budget_saturates 1 1) by word_lia; reflexivity|].
  rewrite (read_budget_saturates 4000000000 0) by word_lia. reflexivity.
Defined.

Section ReadTotal.
Variable world : nat -> bpf_state -> bpf_state.
Variable signals_set : nat -> Z -> Z.
Hypothesis world_inv : forall n s, Inv [] s -> Inv [] (world n s).

Lemma read_copy_out_inv i src n pos snap s :
  Inv [TCopy i src n pos snap] s ->
  wp (read_copy_out (Z.of_nat i) src n pos) (fun r s' => Inv [] s' /\ r = (s32 n, snap)) s.
Proof using.
  intros H. unfold read_copy_out. wp_step.
  eapply wp_mono; [by apply (read_copy_inv [])|]. intros bs s1 (-> & -> & H1). wp_step.
  eapply wp_mono; [by apply (read_finish_inv [])|]. intros [] s2 H2; cbv beta iota in *; wp_step; cycle 1.
  { by wp_steps. }
  unfold ami_bpf_chan_release. wp_step. eapply wp_mono; [by apply (release_pending_inv [])|].
  intros r s3 H3. eapply wp_mono; [exact (free_two_inv [] r s3 H3)|]. intros [] s4 H4. by wp_step.
Qed.

Lemma read_wait_total fuel n owner channel gen len waited budget s :
  owner <> 0 -> 0 < len < 2 ^ 31 -> 0 <= channel -> 0 <= waited -> is_u32 budget ->
  waited + Z.of_nat fuel = budget -> Inv [] s ->
  wp (read_wait world signals_set fuel n owner channel gen len waited budget) (fun _ => Inv []) s.
Proof using world_inv.
  intros Ho Hl Hch. revert n waited s.
  assert (Hcopy : forall src nb pos snap s', Inv [TCopy (Z.to_nat channel) src nb pos snap] s' ->
    wp (read_copy_out channel src nb pos) (fun _ => Inv []) s').
  { intros src nb pos snap s' H'. rewrite <- (Z2Nat.id channel) by done.
    eapply wp_mono; [by apply read_copy_out_inv|]. by intros r s2 [? _]. }
  induction fuel as [|fuel IH]; intros n waited s Hw Hb Hf H; cbn [read_wait]; wp_step;
    (eapply wp_mono; [by apply (read_poll_inv [])|]);
    intros [st|irq|src nb pos] s' H'; cbv beta iota; try by wp_step.
  - rewrite (proj2 (Z.leb_le _ _)) by lia. by wp_step.
  - exact (Hcopy _ _ _ _ _ H').
  - destruct (Z.leb_spec budget waited); [by wp_step|]. destruct (negb _); [by wp_step|].
    wp_steps. rewrite u32_small by word_lia. apply IH; [lia|done|lia|by apply world_inv].
  - exact (Hcopy _ _ _ _ _ H').
Qed.
End ReadTotal.



(** ** Handles and generations *)

(** The generation [ami_bpf_open] gives a slot. *)
Definition next_gen (g : Z) : Z := if u32 (g + 1) =? 0 then 1 else u32 (g + 1).

Lemma next_gen_iter k g :
  is_u32 g -> 0 < Z.of_nat k -> Nat.iter k next_gen g = (Z.max g 1 - 1 + (if g =? 0 then Z.of_nat k - 1 else Z.of_nat k)) mod (2 ^ 32 - 1) + 1.
Proof.
  intros Hg. induction k as [|k IH]; [lia|]. intros _. cbn [Nat.iter].
  destruct (decide (k = 0%nat)) as [->|Hk].
  - simpl. unfold next_gen. destruct (Z.eqb_spec g 0) as [->|]; [done|].
    destruct (Z.eq_dec g (2 ^ 32 - 1)) as [->|]; [done|].
    rewrite u32_small by word_lia. destruct (Z.eqb_spec (g + 1) 0); word_lia.
  - change (next_gen (Nat.iter k next_gen g) = (Z.max g 1 - 1 +
      (if g =? 0 then Z.of_nat (S k) - 1 else Z.of_nat (S k))) mod (2 ^ 32 - 1) + 1).
    rewrite IH by lia. set (x := Z.max g 1 - 1 + (if g =? 0 then Z.of_nat k - 1 else Z.of_nat k)).
    replace (Z.max g 1 - 1 + (if g =? 0 then Z.of_nat (S k) - 1 else Z.of_nat (S k))) with (x + 1)
      by (unfold x; destruct (g =? 0); lia).
    clearbody x. unfold next_gen.
    pose proof (Z.mod_pos_bound x (2 ^ 32 - 1) ltac:(lia)) as Hx.
    rewrite <- (Z.add_mod_idemp_l x 1) by lia. set (y := x mod (2 ^ 32 - 1)) in *.
    destruct (Z.eq_dec y (2 ^ 32 - 2)) as [->|]; [done|].
    rewrite u32_small by word_lia. rewrite (Z.mod_small (y + 1)) by lia.
    destruct (Z.eqb_spec (y + 1 + 1) 0); lia.
Qed.

(** The generation differs from what it was for the next 2^32 - 2 opens. *)
Lemma next_gen_fresh k g : is_u32 g -> 0 < Z.of_nat k < 2 ^ 32 - 1 -> Nat.iter k next_gen g <> g.
Proof.
  intros Hg Hk. rewrite next_gen_iter by (done || lia). destruct (Z.eqb_spec g 0) as [->|].
  - pose proof (Z.mod_pos_bound (Z.max 0 1 - 1 + (Z.of_nat k - 1)) (2 ^ 32 - 1) ltac:(lia)). lia.
  - intros E. replace (Z.max g 1 - 1 + Z.of_nat k) with (g - 1 + Z.of_nat k) in E by word_lia.
    assert (E' : (g - 1 + Z.of_nat k) mod (2 ^ 32 - 1) = g - 1) by lia. word_lia.
Qed.

(** A handle that outlived its channel does nothing: when the slot was closed
    and opened again any number of times short of 2^32 - 1, a reader that slept
    meanwhile and a BIOCSETIF or BIOCSETF between snapshot and commit are refused,
    the state is untouched and the committer gets its block back. *)
Theorem stale_handle_refused ts s owner channel g k len blen base ifname count copy :
  Inv ts s -> owner <> 0 -> is_u32 g -> 0 < Z.of_nat k < 2 ^ 32 - 1 -> 0 <= channel < 4 ->
  st_gen s !! Z.to_nat channel = Some (Nat.iter k next_gen g) ->
  exists st, (st = AMI_BPF_ENXIO \/ st = AMI_BPF_EPERM) /\
    read_poll owner channel g len s = Val (ReadReturn st, s) /\
    setif_commit owner channel g blen base ifname s = Val ((st, base), s) /\
    setf_commit owner channel g count copy s = Val ((st, copy), s).
Proof.
  intros H Ho Hg Hk Hr Hgen. pose proof (next_gen_fresh k g Hg Hk) as Hne.
  unfold read_poll, setif_commit, setf_commit, ami_bpf_ioctl_revalidate, mbind, M_bind.
  destruct (chan_get_cases ts owner channel s H Ho) as [(st & E & Hst)|(c & Hh & E)]; rewrite !E.
  { exists st. by split_and!. }
  exists (-2). split; [by left|]. unfold generation. rewrite (fetch_lookup _ _ (Nat.iter k next_gen g)) by (lia || done).
  cbn [obind]. destruct (Z.eqb_spec (Nat.iter k next_gen g) g); [done|]. by split_and!.
Qed.

Lemma stale_handle_refused_witness :
  exists st, (st = AMI_BPF_ENXIO \/ st = AMI_BPF_EPERM) /\
    read_poll 7 0 0 64 demo_idle.2 = Val (ReadReturn st, demo_idle.2) /\
    setif_commit 7 0 0 64 (Some 9%positive) [] demo_idle.2 = Val ((st, Some 9%positive), demo_idle.2) /\
    setf_commit 7 0 0 1 (Some 9%positive) demo_idle.2 = Val ((st, Some 9%positive), demo_idle.2).
Proof.
  apply (stale_handle_refused demo_idle.1 demo_idle.2 7 0 0 1 64 64 (Some 9%positive) [] 1 (Some 9%positive));
    [exact (reachable_inv _ demo_idle_reachable)|discriminate|word_lia|lia|lia|reflexivity].
Defined.

Lemma first_free_least l i j c :
  Z.of_nat j < first_free l i - i -> l !! j = Some c -> ch_open c = true.
Proof.
  revert i j. induction l as [|d l IH]; intros i j Hj Hc; [done|]. simpl in Hj.
  destruct (ch_open d) eqn:E; simpl in Hj; [|lia]. destruct j as [|j]; [simpl in Hc; congruence|].
  apply (IH (i + 1) j); [lia|done].
Qed.

(** [ami_bpf_open] either refuses and changes nothing (ENXIO for a number past
    the table, EBUSY for a slot in use or a full table) or gives the caller a slot
    that was closed, cleared, with a generation of its own; asked for any slot, it
    gives the first closed one. *)
Theorem open_spec ts s owner channel :
  Inv ts s -> owner <> 0 ->
  exists r s', ami_bpf_open owner channel s = Val (r, s') /\
    (r < 0 -> s' = s /\
       (r = AMI_BPF_ENXIO /\ 4 <= channel \/
        r = AMI_BPF_EBUSY /\ (0 <= channel -> exists c, st_chan s !! Z.to_nat channel = Some c /\ ch_open c = true) /\
          (channel < 0 -> Forall (fun c => ch_open c = true) (st_chan s)))) /\
    (0 <= r -> r < 4 /\ (0 <= channel -> r = channel) /\ exists g,
       st_chan s !! Z.to_nat r = Some chan_zero /\ st_gen s !! Z.to_nat r = Some g /\
       s' = s_gen (<[Z.to_nat r := next_gen g]> (st_gen s))
              (s_chan (<[Z.to_nat r := opened owner]> (st_chan s)) s) /\
       (channel < 0 -> forall j c, Z.of_nat j < r -> st_chan s !! j = Some c -> ch_open c = true)).
Proof.
  intros H Ho. unfold ami_bpf_open. destruct (Z.leb_spec 4 channel).
  { eexists _, s. split; [done|]. split; [|lia]. intros _. split; [done|]. by left. }
  set (i := if channel <? 0 then first_free (st_chan s) 0 else channel).
  assert (Hi : 0 <= i <= 4 /\ (0 <= channel -> i = channel) /\
    (channel < 0 -> forall j c, Z.of_nat j < i -> st_chan s !! j = Some c -> ch_open c = true)).
  { unfold i. destruct (Z.ltb_spec channel 0); [|split_and!; try lia].
    pose proof (first_free_spec (st_chan s) 0) as [Hf _]. rewrite (inv_nchan _ _ H) in Hf.
    split_and!; [lia|lia|lia|]. intros _ j c Hj. apply (first_free_least _ 0). lia. }
  destruct Hi as (Hi & Hi1 & Hi2).
  assert (Eget : (if channel <? 0 then get (fun s => first_free (st_chan s) 0) else mret channel) s
                 = Val (i, s)) by (unfold i; by destruct (channel <? 0)).
  unfold mbind at 1, M_bind at 1. rewrite Eget. destruct (Z.eqb_spec i 4) as [E4|].
  { eexists _, s. split; [done|]. split; [|lia]. intros _. split; [done|]. right.
    split_and!; [done|lia|]. intros Hc. apply Forall_lookup. intros j c Hj. apply (Hi2 Hc j c); [|done].
    apply lookup_lt_Some in Hj. rewrite (inv_nchan _ _ H) in Hj. lia. }
  destruct (Inv_chan_at ts s i H ltac:(lia)) as (c & Hc). destruct (Inv_gen_at ts s i H ltac:(lia)) as (g & Hg).
  unfold mbind, M_bind, chan, generation. rewrite (fetch_lookup _ _ c) by (lia || done). cbn [obind].
  destruct (ch_open c) eqn:Eo.
  { eexists _, s. split; [done|]. split; [|lia]. intros _. split; [done|]. right. split; [done|].
    split; [intros Hpos; rewrite <- (Hi1 Hpos); eauto|]. intros Hneg. exfalso.
    pose proof (first_free_spec (st_chan s) 0) as [_ Hf]. rewrite (inv_nchan _ _ H) in Hf.
    assert (Ei : i = first_free (st_chan s) 0) by (unfold i; by rewrite (proj2 (Z.ltb_lt _ _))).
    rewrite <- Ei, Z.sub_0_r in Hf. destruct Hf as (d & Hd & Hd'); [lia|]. congruence. }
  pose proof (Inv_closed_zero _ _ _ _ H Hc Eo) as ->.
  simpl. rewrite (fetch_lookup _ _ g) by (lia || done). simpl. eexists i, _. split; [reflexivity|].
  split; [lia|]. intros _. split; [lia|]. split; [done|]. exists g. split_and!; done.
Qed.

Lemma open_spec_witness : exists r s', ami_bpf_open 7 2 bpf_state0 = Val (r, s') /\ r = 2.
Proof.
  destruct (open_spec [] bpf_state0 7 2 Inv_init ltac:(discriminate)) as (r & s' & E & _).
  exists r, s'. split; [exact E|]. vm_compute in E. congruence.
Defined.

Lemma free_opt_eq o s :
  (forall b, o = Some b -> is_Some (st_heap s !! b)) ->
  exists h, ami_free o s = Val (tt, s_heap h s) /\
    forall b, h !! b = if decide (o = Some b) then None else st_heap s !! b.
Proof.
  intros Ho. destruct o as [p|]; simpl.
  - destruct (Ho p eq_refl) as (x & ->). eexists. split; [done|]. intros b.
    destruct (decide (Some p = Some b)) as [[= ->]|]; [apply lookup_delete_eq|].
    apply lookup_delete_ne. congruence.
  - exists (st_heap s). split; [by destruct s|done].
Qed.

(** Closing a channel that is not being read frees its buffers and its filter
    and nothing else, and clears the slot; a channel a reader is copying out of is
    EBUSY and untouched. *)
Theorem close_spec ts s owner channel c :
  Inv ts s -> owner <> 0 -> handled s owner channel c ->
  (ch_reading c = true -> ami_bpf_close owner channel s = Val (AMI_BPF_EBUSY, s)) /\
  (ch_reading c = false -> exists s', ami_bpf_close owner channel s = Val (0, s') /\
     st_chan s' = <[Z.to_nat channel := chan_zero]> (st_chan s) /\ st_gen s' = st_gen s /\
     st_iface s' = st_iface s /\
     (forall b, st_heap s' !! b = if decide (b ∈ chan_blocks c) then None else st_heap s !! b) /\
     st_bound s' = st_bound s - Z.of_nat (bound_of c)).
Proof.
  intros H Ho Hh. pose proof Hh as [Hr Hat Hop Hw Hp Hbl Hfl Hbufs Hif].
  assert (E : ami_bpf_chan_get owner channel s = Val (inr c, s)).
  { unfold ami_bpf_chan_get. rewrite (proj2 (Z.ltb_ge _ _)), (proj2 (Z.leb_gt _ _)) by lia. cbn [orb].
    unfold mbind, M_bind, chan. rewrite (fetch_lookup _ _ c) by (lia || done). simpl.
    by rewrite Hop, Hw, Z.eqb_refl. }
  split; intros Hrd.
  { unfold ami_bpf_close, close_locked, with_chan, mbind, M_bind. rewrite E, Hrd. done. }
  assert (Hrun : wp (ami_bpf_close owner channel) (fun r s' => r = 0 /\
     st_chan s' = <[Z.to_nat channel := chan_zero]> (st_chan s) /\ st_gen s' = st_gen s /\
     st_iface s' = st_iface s /\
     (forall b, st_heap s' !! b = if decide (b ∈ chan_blocks c) then None else st_heap s !! b) /\
     st_bound s' = st_bound s - Z.of_nat (bound_of c)) s); cycle 1.
  { destruct Hrun as (r & s' & E' & -> & Hs'). by exists s'. }
  unfold ami_bpf_close, close_locked, with_chan. wp_step. wp_step. exists (inr c), s. split; [exact E|].
  cbv beta iota. rewrite Hrd. wp_step. eapply wp_unbind_count; [exact H|done|]. intros l bound Hb. wp_steps.
  assert (Hlive : forall b, b ∈ chan_blocks c -> is_Some (st_heap s !! b)).
  { intros b Hb'. apply (Inv_live ts s b H). apply elem_of_app. left.
    eapply elem_concat_map; [by eapply list_elem_of_lookup_2|done]. }
  set (s1 := s_chan _ _).
  destruct (free_opt_eq (ch_bufbase c) s1) as (h1 & E1 & Hh1).
  { intros b Hb'. apply (Hlive b). by apply bufbase_block. }
  destruct (free_opt_eq (ch_filter c) (s_heap h1 s1)) as (h2 & E2 & Hh2).
  { intros b Hb'. simpl. rewrite Hh1. rewrite decide_False; [apply (Hlive b); by apply filter_block|].
    intros Eb. destruct Hbufs as (rh & rs & Hbufs). unfold bufs in Hbufs. rewrite Eb in Hbufs.
    destruct Hbufs as (bytes & so & (Hb1 & _) & _). rewrite Hb' in Hfl. destruct Hfl as (prog & Hprog & _).
    congruence. }
  cbn [free_two]. wp_step. exists tt, (s_heap h1 s1). split; [exact E1|]. exists tt, (s_heap h2 s1).
  split; [exact E2|]. wp_step. split_and!; try done.
  - intros b. simpl. rewrite Hh2. simpl. rewrite Hh1. unfold chan_blocks.
    destruct (decide (b ∈ _)) as [Hin|Hnin].
    + apply elem_of_app in Hin as [Hin|Hin]; apply opt_list_elem in Hin; repeat destruct (decide _); congruence.
    + rewrite elem_of_app, !opt_list_elem in Hnin. repeat destruct (decide _); try done; tauto.
  - simpl. lia.
Qed.

Lemma close_spec_witness :
  (ch_reading demo_chan = true -> ami_bpf_close 7 0 demo_idle.2 = Val (AMI_BPF_EBUSY, demo_idle.2)) /\
  (ch_reading demo_chan = false -> exists s', ami_bpf_close 7 0 demo_idle.2 = Val (0, s') /\
     st_chan s' = <[Z.to_nat 0 := chan_zero]> (st_chan demo_idle.2) /\ st_gen s' = st_gen demo_idle.2 /\
     st_iface s' = st_iface demo_idle.2 /\
     (forall b, st_heap s' !! b = if decide (b ∈ chan_blocks demo_chan) then None else st_heap demo_idle.2 !! b) /\
     st_bound s' = st_bound demo_idle.2 - Z.of_nat (bound_of demo_chan)).
Proof.
  apply (close_spec demo_idle.1 demo_idle.2 7 0 demo_chan);
    [exact (reachable_inv _ demo_idle_reachable)|discriminate|exact demo_handled].
Defined.
