(* ===== verification/BpfSpec.v ===== *)
(** What the capture layer promises: safety of every interleaving, no leak and no
    double free, exact accounting, readers isolated from taps, the queue a channel
    implements, the wait of [ami_bpf_read], and stale handles. *)

From Stdlib Require Import ZArith Lia.
From stdpp Require Import base numbers list gmap sorting relations.
From S2P Require Import Prelude BpfFilter BpfValidate BpfState BpfChannel BpfRecord BpfQueue.
From S2P Require Import BpfInv BpfOps BpfSystem.

(** ** Interleavings *)





(** The bound count the taps test first is exactly the number of channels
    bound to an interface, and such a channel is open, has an owner and points at
    an interface that is registered. *)
Theorem bound_count_exact ts s :
  reachable (ts, s) ->
  st_bound s = Z.of_nat (length (filter (fun c => ch_iface c <> None) (st_chan s))) /\
  (forall i c n, st_chan s !! i = Some c -> ch_iface c = Some n ->
     ch_open c = true /\ ch_owner c <> 0 /\ exists x, st_iface s !! n = Some x /\ if_used x = true).
Proof.
  intros Hr. pose proof (reachable_inv _ Hr) as H. simpl in H. split.
  - rewrite (inv_bound _ _ H). f_equal. generalize (st_chan s). induction l as [|c l IH]; [done|].
    simpl. rewrite filter_cons, IH. unfold bound_of. by destruct (ch_iface c); repeat destruct (decide _).
  - intros i c n Hc Hn. destruct (Inv_bound_open _ _ _ _ _ H Hc Hn) as (Ho & Hp & Hx).
    pose proof (Inv_wf _ _ _ _ H Hc) as Hw. unfold chan_wf in Hw. rewrite Ho, Hp in Hw. tauto.
Qed.

Lemma bound_count_exact_witness :
  st_bound bpf_state0 =
    Z.of_nat (length (filter (fun c => ch_iface c <> None) (st_chan bpf_state0))) /\
  (forall i c n, st_chan bpf_state0 !! i = Some c -> ch_iface c = Some n ->
     ch_open c = true /\ ch_owner c <> 0 /\
     exists x, st_iface bpf_state0 !! n = Some x /\ if_used x = true).
Proof. apply (bound_count_exact [] bpf_state0). constructor. Defined.

(** C7 A filter a channel runs is always a program the validator accepted, of the
    length the channel has for it. *)
Theorem installed_filter_valid ts s i c b :
  reachable (ts, s) -> st_chan s !! i = Some c -> ch_filter c = Some b ->
  exists prog, st_heap s !! b = Some (BInsns prog) /\ Z.of_nat (length prog) = ch_filter_len c /\
    program_valid prog.
Proof.
  intros Hr Hc Hb. pose proof (Inv_wf _ _ _ _ (reachable_inv _ Hr) Hc) as Hw. unfold chan_wf in Hw.
  destruct (ch_open c); [|by subst c]. destruct Hw as (_ & Hf & _). rewrite Hb in Hf.
  destruct Hf as (prog & H1 & H2 & _ & H3). eauto.
Qed.

(** ** Readers and taps *)

(** A reader that is past its look copies outside the lock; whatever ran in
    between (taps, requests, closes of the owner), the bytes it copies are the
    ones it saw. *)
Theorem reader_isolated ts s i src nbytes pos snap :
  reachable (ts, s) -> TCopy i src nbytes pos snap ∈ ts ->
  load_bytes src nbytes s = Val (snap, s).
Proof.
  intros Hr Hin. apply list_elem_of_split in Hin as (l1 & l2 & ->).
  pose proof (reachable_inv _ Hr) as H. simpl in H.
  assert (Hp : l1 ++ TCopy i src nbytes pos snap :: l2 ≡ₚ [TCopy i src nbytes pos snap] ++ (l1 ++ l2))
    by solve_Permutation.
  rewrite Hp in H. destruct (read_copy_inv _ _ _ _ _ _ _ H) as (bs & s' & E & -> & -> & _). done.
Qed.

Lemma reader_isolated_witness :
  exists (ts : list task) s i src nbytes pos snap, TCopy i src nbytes pos snap ∈ ts /\
    load_bytes src nbytes s = Val (snap, s) /\ snap <> [].
Proof.
  exists demo_copying.1, demo_copying.2. do 5 eexists. split; [by left|]. split; [|done].
  apply (reader_isolated demo_copying.1 demo_copying.2 0 (1%positive, 0) 26 28); [exact demo_copying_reachable|by left].
Defined.

Lemma installed_filter_valid_witness :
  exists b prog, st_heap demo_idle.2 !! b = Some (BInsns prog) /\ Z.of_nat (length prog) = 1 /\
    program_valid prog.
Proof.
  exists 2%positive.
  destruct (installed_filter_valid demo_idle.1 demo_idle.2 0
    (default chan_zero (st_chan demo_idle.2 !! 0%nat)) 2%positive) as (prog & H1 & H2 & H3);
    [exact demo_idle_reachable|reflexivity|reflexivity|]. by exists prog.
Defined.

(** The tap on one channel, as an operation on its queue: the packet is counted;
    a verdict of 0 leaves the queue; another appends the packet's record, or drops
    and counts it when the store is full and cannot rotate. *)
Definition verdict_rec (c : AmiBpfChan) (now : Z * Z) (view : AmiBpfView) (v : Z) : bpf_rec :=
  packet_rec now.1 now.2 view
    (Z.min (Z.min v (v_wirelen view)) (Z.min (v_caplen view) (ch_blen c - AMI_BPF_HDRLEN))).

Definition tap_effect (c c' : AmiBpfChan) (r : bpf_rec) (v : Z) (rh rs rh' rs' : list bpf_rec) : Prop :=
  ch_recv_count c' = u32 (ch_recv_count c + 1) /\
  (v = 0 -> rh' ++ rs' = rh ++ rs /\ ch_drop_count c' = ch_drop_count c) /\
  (v <> 0 ->
     (rh' ++ rs' = (rh ++ rs) ++ [r] /\ ch_drop_count c' = ch_drop_count c) \/
     (rh' ++ rs' = rh ++ rs /\ ch_drop_count c' = u32 (ch_drop_count c + 1) /\
      ch_blen c < align4 (ch_store_len c) + rec_len r /\ (rh <> [] \/ ch_reading c = true))).

Lemma capture_record_effect i c view v now b rh rs s :
  tap_view_ok view -> is_u32 v -> v <> 0 -> is_u32 now.1 -> is_u32 now.2 ->
  blen_ok (ch_blen c) -> ch_bufbase c = Some b -> bufs (st_heap s) c rh rs ->
  let c1 := w_recv_count (u32 (ch_recv_count c + 1)) c in
  wp (capture_record i c1 view v now.1 now.2) (fun _ s' => exists c' rh' rs',
    st_chan s' = <[Z.to_nat i := c']> (st_chan s) /\ bufs (st_heap s') c' rh' rs' /\
    tap_effect c c' (verdict_rec c now view v) v rh rs rh' rs')
    (s_chan (<[Z.to_nat i := c1]> (st_chan s)) s).
Proof.
  intros Hview Hv Hv0 Hs1 Hs2 Hbl Hb Hbufs c1.
  assert (Hbufs1 : bufs (st_heap s) c1 rh rs)
    by (refine (bufs_ext _ _ c _ rh rs _ _ _ _ _ _ _ _ _ Hbufs); done).
  apply (capture_record_wp i c1 view v now.1 now.2 b rh rs); try done; cbv zeta.
  - intros Hfull Hcase. eexists _, rh, rs. simpl st_chan. rewrite list_insert_insert_eq. split; [done|].
    split; [refine (bufs_ext _ _ c _ rh rs _ _ _ _ _ _ _ _ _ Hbufs); done|]. split; [done|].
    split; [done|]. intros _. right. apply Z.ltb_lt in Hfull. done.
  - set (full := _ <? _). intros Hcase bytes so l' Hh Hfit Hbufs'.
    eexists _, _, _. simpl st_chan. rewrite list_insert_insert_eq. split; [done|].
    split; [exact Hbufs'|]. split; [by destruct full|]. split; [done|]. intros _. left.
    split; [|by destruct full]. destruct full; [|by rewrite app_assoc].
    destruct Hcase as [|[-> _]]; [done|]. simpl. done.
Qed.

(** C3 The tap implements a bounded FIFO queue: on a channel bound to the
    interface of the cookie, the packet is counted, the channel's own filter gives
    a verdict, and the record of the accepted packet (snapped to the verdict, the
    packet and the buffer) is appended to the records the channel holds, or
    dropped and counted exactly when the store buffer has no room and the hold
    buffer is still in use; no other channel changes. *)
Theorem capture_appends ts s i c n view now cookie rh rs :
  reachable (ts, s) -> 0 <= i < 4 -> tap_view_ok view -> is_u32 now.1 -> is_u32 now.2 ->
  st_chan s !! Z.to_nat i = Some c -> ch_iface c = Some n -> ch_store c <> None ->
  ami_bpf_iface_by_cookie cookie s = Val (Some n, s) -> bufs (st_heap s) c rh rs ->
  exists l v s' c' rh' rs',
    load_insns (ch_filter c) s = Val (l, s) /\
    ami_bpf_filter_view l (ch_filter_len c) (Some view) = Val v /\
    capture_chan true now cookie view i s = Val (true, s') /\
    st_chan s' = <[Z.to_nat i := c']> (st_chan s) /\ bufs (st_heap s') c' rh' rs' /\
    tap_effect c c' (verdict_rec c now view v) v rh rs rh' rs'.
Proof.
  intros Hr Hi Hview Hs1 Hs2 Hc Hn Hst Hck Hbufs. pose proof (reachable_inv _ Hr) as H. simpl in H.
  destruct (Inv_bound_open _ _ _ _ _ H Hc Hn) as (Ho & Hp & x & Hx & Hu).
  pose proof (Inv_wf _ _ _ _ H Hc) as Hw. unfold chan_wf in Hw. rewrite Ho in Hw.
  destruct Hw as (Hbl & Hfl & _).
  destruct (filter_verdict _ _ _ view Hfl (proj1 Hview)) as (l & v & Hl & Ev & Hv).
  assert (El : load_insns (ch_filter c) s = Val (l, s)).
  { unfold load_insns. destruct (ch_filter c); [|by subst]. destruct Hl as (prog & -> & ->). done. }
  destruct (store_bufbase _ _ _ _ Hbufs Hst) as (b & Hb). exists l, v.
  set (s1 := s_chan (<[Z.to_nat i := w_recv_count (u32 (ch_recv_count c + 1)) c]> (st_chan s)) s).
  assert (Hrun : wp (capture_chan true now cookie view i) (fun more s' => more = true /\ exists c' rh' rs',
    st_chan s' = <[Z.to_nat i := c']> (st_chan s) /\ bufs (st_heap s') c' rh' rs' /\
    tap_effect c c' (verdict_rec c now view v) v rh rs rh' rs') s).
  { unfold capture_chan. wp_step. apply (wp_chan _ c); [lia|done|]. rewrite Ho.
    rewrite bool_decide_false by done. cbn [negb orb]. wp_step. eexists _, _. split; [exact Hck|].
    rewrite Hn, (bool_decide_false (Some n <> Some n)) by (intros E; congruence).
    rewrite (proj2 (Z.leb_gt _ _)) by (destruct Hbl; lia). cbn [orb]. cbv zeta.
    wp_step. wp_step. fold s1. wp_step. apply (wp_load_insns _ l); [exact Hl|]. wp_step. eapply wp_lift; [exact Ev|].
    destruct (Z.eqb_spec v 0) as [->|Hv0]; wp_step.
    - split; [done|]. eexists _, rh, rs. split; [done|].
      split; [refine (bufs_ext _ _ c _ rh rs _ _ _ _ _ _ _ _ _ Hbufs); done|]. done.
    - eapply wp_mono; [by eapply capture_record_effect|]. intros [] s' Hs'. by wp_step. }
  destruct Hrun as (more & s' & E & -> & c' & rh' & rs' & H1 & H2 & H3).
  exists s', c', rh', rs'. split_and!; try done; apply H3.
Qed.

Lemma capture_appends_witness :
  exists rh rs l v s' c' rh' rs',
    load_insns (ch_filter demo_chan) demo_idle.2 = Val (l, demo_idle.2) /\
    ami_bpf_filter_view l (ch_filter_len demo_chan) (Some demo_view) = Val v /\
    capture_chan true (3, 4) 5 demo_view 0 demo_idle.2 = Val (true, s') /\
    st_chan s' = <[Z.to_nat 0 := c']> (st_chan demo_idle.2) /\ bufs (st_heap s') c' rh' rs' /\
    tap_effect demo_chan c' (verdict_rec demo_chan (3, 4) demo_view v) v rh rs rh' rs'.
Proof.
  exists [], [demo_rec].
  apply (capture_appends demo_idle.1 demo_idle.2 0 demo_chan 0%nat demo_view (3, 4) 5 [] [demo_rec]);
    [exact demo_idle_reachable|lia|exact demo_view_ok|(unfold is_u32; simpl; lia)..
    |reflexivity|reflexivity|discriminate|reflexivity|exact demo_chan_bufs].
Defined.

(** ** Reading the queue *)

(** What a look at a channel with the readable records [q] comes to. *)
Definition look_effect (q : list bpf_rec) (len : Z) (c' : AmiBpfChan) (look : read_look)
    (s' : bpf_state) : Prop :=
  match look with
  | ReadCopy src n pos =>
      (fit len 0 q).1 <> [] /\ ch_reading c' = true /\ 0 < n <= len /\
      decode_records (length (snap_of s' src n)) (snap_of s' src n) = (fit len 0 q).1
  | ReadReturn status =>
      status = AMI_BPF_EINVAL /\ ch_reading c' = false /\ exists r q', q = r :: q' /\ len < rec_len r
  | ReadWait _ => False
  end.

(** The look of a reader takes the longest run of whole records that fits in
    the caller's buffer: the bytes it is about to copy are at most [len] and a
    consumer that walks them finds exactly those records; a look that takes
    nothing while records are there answers EINVAL because the first record does
    not fit; and either way the records of the channel are still the same. *)
Theorem look_takes_whole_records ts s owner channel g len c rh rs :
  reachable (ts, s) -> handled s owner channel c -> owner <> 0 -> ch_reading c = false ->
  st_gen s !! Z.to_nat channel = Some g -> 0 < len < 2 ^ 31 ->
  bufs (st_heap s) c rh rs -> rh ++ rs <> [] ->
  let q := readable rh rs in
  exists look s' c' rs', read_poll owner channel g len s = Val (look, s') /\
    st_chan s' = <[Z.to_nat channel := c']> (st_chan s) /\
    bufs (st_heap s') c' q rs' /\ q ++ rs' = rh ++ rs /\ look_effect q len c' look s'.
Proof.
  intros Hr Hh Ho Hrd Hg Hlen Hbufs Hne q. set (a := (fit len 0 q).1).
  destruct Hh as [Hrange Hat Hop Hw Hp Hbl Hfl _ Hif].
  destruct (looked_bufs _ _ _ _ Hbufs) as (rs' & Hb' & Hq & _). fold q in Hb', Hq.
  destruct (looked_fields c) as (_ & _ & _ & C3 & _ & _ & C6 & _ & _ & C9).
  assert (Hrun : wp (read_poll owner channel g len) (fun look s' => exists c',
    st_chan s' = <[Z.to_nat channel := c']> (st_chan s) /\ bufs (st_heap s') c' q rs' /\
    look_effect q len c' look s') s).
  { eapply (read_poll_wp owner channel g g len c rh rs); try done; try congruence.
    - intros _ _ Hqn Ha. exists (looked c). cbn [look_effect]. split_and!; try done; [by rewrite C6|]. fold q in Hqn, Ha. clearbody q.
      destruct q as [|r q']; [done|]. exists r, q'. split; [done|].
      cbn [fit] in Ha. rewrite !Z.add_0_l in Ha.
      destruct (Z.ltb_spec len (rec_len r)); [lia|]. by destruct (fit len (align4 (rec_len r)) q').
    - fold q a. intros _ _ Ha src n pos Htk Hn. exists (w_reading true (looked c)).
      assert (Hnn : ch_bufbase (looked c) <> None) by (destruct Htk as (b & _ & _ & _ & E & _); congruence).
      cbn [look_effect]. fold a. split_and!; try done.
      + refine (bufs_ext _ _ (looked c) _ q rs' _ _ _ _ _ _ _ _ _ Hb'); done.
      + destruct Htk as (b & bytes & so & q' & _ & _ & Eq & _ & Hrec & _ & _ & _ & _ & -> & _).
        destruct a as [|r a']; [done|]. pose proof (recs_end_ge (ch_hold_pos (looked c)) r a').
        pose proof (rec_len_ge r). lia.
      + destruct Htk as (b & bytes & so & q' & _ & _ & _ & _ & _ & _ & _ & _ & _ & -> & _).
        pose proof (fit_end len 0 (ch_hold_pos (looked c)) q Ha) as Hf. fold a in Hf. lia.
      + destruct (taken_reader _ _ _ _ _ _ _ Htk) as (b & bytes & Hb & Hsrc & _ & _ & Hdec).
        { rewrite C9. destruct Hbl. lia. }
        unfold snap_of. rewrite Hsrc. simpl. by rewrite Hb. }
  destruct Hrun as (look & s' & E & c' & H1 & H2 & H3). by exists look, s', c', rs'.
Qed.

Lemma look_takes_whole_records_witness :
  exists rh rs look s' c' rs', read_poll 7 0 1 64 demo_idle.2 = Val (look, s') /\
    st_chan s' = <[Z.to_nat 0 := c']> (st_chan demo_idle.2) /\
    bufs (st_heap s') c' (readable rh rs) rs' /\ readable rh rs ++ rs' = rh ++ rs /\
    look_effect (readable rh rs) 64 c' look s'.
Proof.
  exists [], [demo_rec].
  apply (look_takes_whole_records demo_idle.1 demo_idle.2 7 0 1 64 demo_chan [] [demo_rec]);
    [exact demo_idle_reachable|exact demo_handled|discriminate|reflexivity|reflexivity|lia
    |exact demo_chan_bufs|discriminate].
Defined.

(** The finish takes exactly the delivered records off the queue. *)
Lemma bufs_finish_exact h c src n pos q a rs :
  taken h c src n pos q a -> bufs h c q rs ->
  exists q', q = a ++ q' /\ bufs h (finished (w_reading true c) pos) q' rs.
Proof.
  intros (b & bytes & so & q' & Hb & Hh & -> & Ha & Hr & Hp & Hm & Hl & _ & _ & ->) Hbufs.
  exists q'. split; [done|]. pose proof (recs_at_next _ _ _ _ _ _ Hr) as Hq'.
  destruct (recs_next_facts (ch_hold_pos c) a Hp Hm) as [N1 N2].
  unfold bufs in *. rewrite Hb in Hbufs.
  destruct Hbufs as (bytes' & so' & Hh' & B1 & B2 & B3 & B4 & B5 & B6).
  assert (bytes' = bytes) as -> by (destruct Hh as (V1 & _); destruct Hh' as (W1 & _); congruence).
  assert (so' = so) as -> by (destruct Hh as (_ & _ & _ & V1 & _); destruct Hh' as (_ & _ & _ & W1 & _); congruence).
  unfold finished. simpl. destruct (Z.leb_spec (ch_hold_len c) (recs_next (ch_hold_pos c) a)); simpl; rewrite Hb;
    exists bytes, so.
  - assert (q' = []) as ->.
    { destruct q' as [|r q']; [done|]. destruct Hq' as (_ & Hle & _). pose proof (rec_len_ge r). lia. }
    split_and!; try done; lia.
  - split_and!; try done; lia.
Qed.

(** [delivered len a all s channel r s']: the read stored [r.2] and returned their
    number, they decode into [a], and of the channel's records [all] those behind
    [a] are left. *)
Definition delivered (len : Z) (a all : list bpf_rec) (s : bpf_state) (channel : Z)
    (r : Z * list Z) (s' : bpf_state) : Prop :=
  exists c' rh' rs', r.1 = Z.of_nat (length r.2) /\ r.1 <= len /\ decode_records (length r.2) r.2 = a /\
    st_chan s' = <[Z.to_nat channel := c']> (st_chan s) /\ ch_reading c' = false /\
    bufs (st_heap s') c' rh' rs' /\ a ++ rh' ++ rs' = all.

Lemma read_copy_out_delivers len a q rs s channel c src n pos :
  0 <= channel -> (Z.to_nat channel < length (st_chan s))%nat -> ch_release_pending c = false ->
  blen_ok (ch_blen c) -> 0 < len < 2 ^ 31 ->
  taken (st_heap s) c src n pos q a -> a = (fit len 0 q).1 -> bufs (st_heap s) c q rs ->
  wp (read_copy_out channel src n pos) (delivered len a (q ++ rs) s channel)
     (s_chan (<[Z.to_nat channel := w_reading true c]> (st_chan s)) s).
Proof.
  intros Hch Hi Hp [Hbl _] Hlen Htk Ea Hbufs.
  destruct (taken_reader _ _ _ _ _ _ _ Htk ltac:(lia)) as (b & bytes & Hb & Hsrc & Hcp & _ & Hdec).
  destruct Hcp as (b' & bytes' & so & Eb' & Hh & E1 & E2 & E3 & E4 & E5).
  pose proof Hh as (H1 & H2 & H3 & _). simpl in H2, H3, E2, E4.
  assert (Hn : n <= len).
  { destruct Htk as (? & ? & ? & ? & _ & _ & _ & Ha & _ & _ & _ & _ & _ & -> & _). subst a.
    pose proof (fit_end len 0 (ch_hold_pos c) q Ha). lia. }
  unfold read_copy_out. wp_step. eapply wp_load_bytes; [simpl; rewrite Hsrc; exact Hb|lia|lia| |].
  { assert (bytes = bytes') as -> by congruence. lia. }
  assert (Hsl : Z.of_nat (length (slice bytes src.2 n)) = n).
  { assert (bytes = bytes') as -> by congruence. apply slice_length; lia. }
  unfold read_finish. wp_step. wp_step. apply (wp_chan _ (w_reading true c)); [lia|by apply list_lookup_insert_eq|].
  cbv zeta. wp_steps. simpl ch_release_pending. rewrite Hp. wp_steps. simpl st_chan.
  rewrite list_insert_insert_eq, s32_small by lia.
  destruct (bufs_finish_exact _ _ _ _ _ _ _ _ Htk Hbufs) as (q' & Eq & Hq').
  exists (finished (w_reading true c) pos), q', rs. split_and!; simpl; try done.
  by rewrite Eq, app_assoc.
Qed.

(** C4 A read on a channel with records, when the first of them fits: it returns
    at once the number of bytes it stored, a consumer decodes them into the
    longest prefix of whole records that fits, and the channel is left with
    exactly the rest, in order. *)
Theorem read_delivers world sig s owner channel len c rh rs :
  reachable ([], s) -> handled s owner channel c -> owner <> 0 -> ch_reading c = false ->
  0 < len < 2 ^ 31 -> bufs (st_heap s) c rh rs ->
  (fit len 0 (readable rh rs)).1 <> [] ->
  exists r s', ami_bpf_read world sig owner channel true len s = Val (r, s') /\
    delivered len (fit len 0 (readable rh rs)).1 (rh ++ rs) s channel r s'.
Proof.
  intros Hr Hh Ho Hrd Hlen Hbufs Ha. pose proof (reachable_inv _ Hr) as H. simpl in H.
  pose proof Hh as [Hrange Hat Hop Hw Hp Hbl Hfl _ Hif].
  destruct (Inv_gen_at [] s channel H Hrange) as (g & Hg).
  destruct (looked_bufs _ _ _ _ Hbufs) as (rs' & Hb' & Hq & _).
  destruct (looked_fields c) as (_ & _ & _ & _ & _ & _ & _ & C7 & _ & C9).
  assert (Hrw : forall fuel budget, wp (read_wait world sig fuel 0 owner channel g len 0 budget)
    (delivered len (fit len 0 (readable rh rs)).1 (rh ++ rs) s channel) s).
  { intros fuel budget.
    assert (Hpoll : forall k : read_look -> M (Z * list Z),
      (forall src n pos, k (ReadCopy src n pos) = read_copy_out channel src n pos) ->
      wp (read_poll owner channel g len ≫= k)
         (delivered len (fit len 0 (readable rh rs)).1 (rh ++ rs) s channel) s).
    { intros k Hk. wp_step. eapply (read_poll_wp owner channel g g len c rh rs); try done; try congruence.
      - intros _ _ He. exfalso. apply Ha. apply app_eq_nil in He as [-> ->]. done.
      - intros _ _ _ src n pos Htk _. rewrite Hk, <- Hq.
        eapply read_copy_out_delivers; try done; try lia; try congruence.
        by eapply lookup_lt_Some. }
    destruct fuel; cbn [read_wait]; apply Hpoll; by intros. }
  assert (Hrun : wp (ami_bpf_read world sig owner channel true len)
    (delivered len (fit len 0 (readable rh rs)).1 (rh ++ rs) s channel) s); [|exact Hrun].
  unfold ami_bpf_read. wp_step. eexists (inr (g, _)), s. split; [|apply Hrw].
  unfold read_enter, with_chan, ami_bpf_chan_get, mbind, M_bind, chan, generation.
  rewrite (proj2 (Z.ltb_ge _ _)), (proj2 (Z.leb_gt _ _)) by lia. cbn [orb].
  rewrite (fetch_lookup _ _ c) by (lia || done). simpl. rewrite Hop, Hw, Z.eqb_refl. simpl.
  rewrite (fetch_lookup _ _ g) by (lia || done). simpl.
  rewrite (proj2 (Z.leb_gt _ _)) by lia. done.
Qed.

Lemma read_delivers_witness :
  exists r s', ami_bpf_read (fun _ s => s) (fun _ _ => 0) 7 0 true 64 demo_idle.2 = Val (r, s') /\
    delivered 64 [demo_rec] [demo_rec] demo_idle.2 0 r s'.
Proof.
  apply (read_delivers (fun _ s => s) (fun _ _ => 0) demo_idle.2 7 0 64 demo_chan [] [demo_rec]);
    [exact demo_idle_reachable|exact demo_handled|discriminate|reflexivity|lia|exact demo_chan_bufs
    |discriminate].
Defined.
