(* ===== verification/Udivdi3.v ===== *)
(** The compiler runtime of the 68000 builds (src/src/common/ami_udivdi3.c): 32 and
    64-bit multiply, divide and shift, in the portable form that has neither
    MULU.L nor DIVU.L.  The divide is Knuth's algorithm D in base 65536. *)

From Stdlib Require Import ZArith Lia.
From stdpp Require Import base numbers list.
From S2P Require Import Prelude.

(** ** Multiplication *)

(** 16x16 -> 32 on the low words. *)
Definition ami_umul16 (a b : Z) : Z := u32 (u16 a * u16 b).

Definition ami_umul16x32 (q v : Z) : Z :=
  ami_umul16 q v +w (ami_umul16 q (Z.shiftr v 16) <<w 16).

Definition ami_umul32_wide (a b : Z) : Z :=
  let a_lo := u16 a in
  let a_hi := u16 (Z.shiftr a 16) in
  let b_lo := u16 b in
  let b_hi := u16 (Z.shiftr b 16) in
  let ll := a_lo *w b_lo in
  let lh := a_lo *w b_hi in
  let hl := a_hi *w b_lo in
  let hh := a_hi *w b_hi in
  let mid := (Z.shiftr ll 16 +w u16 lh) +w u16 hl in
  Z.lor (u64 (Z.shiftl (((hh +w Z.shiftr lh 16) +w Z.shiftr hl 16) +w Z.shiftr mid 16) 32))
        (Z.lor (mid <<w 16) (u16 ll)).

Definition ami_umul32_low (a b : Z) : Z :=
  let a_lo := u16 a in
  let a_hi := u16 (Z.shiftr a 16) in
  let b_lo := u16 b in
  let b_hi := u16 (Z.shiftr b 16) in
  (a_lo *w b_lo) +w (((a_lo *w b_hi) +w (a_hi *w b_lo)) <<w 16).

Definition __muldi3 (a b : Z) : Z :=
  let a_lo := u32 a in
  let b_lo := u32 b in
  let product := ami_umul32_wide a_lo b_lo in
  u64 (product + u64 (Z.shiftl (ami_umul32_low a_lo (u32 (Z.shiftr b 32)) +w
                                ami_umul32_low (u32 (Z.shiftr a 32)) b_lo) 32)).

Definition __mulsi3 (a b : Z) : Z := u32 (ami_umul32_wide a b).

(** ** The soft divide *)

(** One DIVU.W: quotient and remainder. *)
Definition ami_divu32_16_step (numerator divisor : Z) : Z * Z :=
  (numerator / divisor, numerator mod divisor).

Definition ami_divu32_16 (numerator divisor : Z) : Z * Z :=
  let '(q_hi, rem) := ami_divu32_16_step (Z.shiftr numerator 16) divisor in
  let '(q_lo, remainder) :=
    ami_divu32_16_step (Z.lor (rem <<w 16) (Z.land numerator 0xFFFF)) divisor in
  (Z.lor (q_hi <<w 16) q_lo, remainder).

Definition ami_clz32 (value : Z) : Z :=
  let '(n, v) := if Z.land value 0xFFFF0000 =? 0 then (0 + 16, value <<w 16) else (0, value) in
  let '(n, v) := if Z.land v 0xFF000000 =? 0 then (n + 8, v <<w 8) else (n, v) in
  let '(n, v) := if Z.land v 0xF0000000 =? 0 then (n + 4, v <<w 4) else (n, v) in
  let '(n, v) := if Z.land v 0xC0000000 =? 0 then (n + 2, v <<w 2) else (n, v) in
  if Z.land v 0x80000000 =? 0 then n + 1 else n.

(** The correction loop of one digit: the quotient digit. *)
Fixpoint fix_digit (fuel : nat) (q rhat v1 v0 un : Z) : outcome Z :=
  match fuel with
  | O => Spin
  | S f =>
      if negb (Z.shiftr q 16 =? 0) || (Z.lor (rhat <<w 16) un <? ami_umul16 q v0) then
        let q' := q -w 1 in
        let rhat' := rhat +w v1 in
        if Z.shiftr rhat' 16 =? 0 then fix_digit f q' rhat' v1 v0 un else Val q'
      else Val q
  end.

(** Each pass that goes on adds at least 2^15 to [rhat], which stays below 2^16. *)
Definition digit_fuel : nat := 3.

Definition ami_divu64_32_soft (hi lo divisor : Z) : outcome (Z * Z) :=
  if divisor <? 0x10000 then
    let '(q1, rhat) := ami_divu32_16_step (Z.lor (hi <<w 16) (Z.shiftr lo 16)) divisor in
    let '(q0, remainder) := ami_divu32_16_step (Z.lor (rhat <<w 16) (Z.land lo 0xFFFF)) divisor in
    Val (Z.lor (q1 <<w 16) q0, remainder)
  else
    let s := ami_clz32 divisor in
    let d := divisor <<w s in
    let v1 := Z.shiftr d 16 in
    let v0 := Z.land d 0xFFFF in
    let un32 := Z.lor (hi <<w s) (if negb (s =? 0) then Z.shiftr lo (32 - s) else 0) in
    let un10 := lo <<w s in
    let un1 := Z.shiftr un10 16 in
    let un0 := Z.land un10 0xFFFF in
    let '(q1h, rhat1) := ami_divu32_16 un32 v1 in
    let! q1 := fix_digit digit_fuel q1h rhat1 v1 v0 un1 in
    let un21 := ((un32 <<w 16) +w un1) -w ami_umul16x32 q1 d in
    let '(q0h, rhat0) := ami_divu32_16 un21 v1 in
    let! q0 := fix_digit digit_fuel q0h rhat0 v1 v0 un0 in
    Val (Z.lor (q1 <<w 16) q0,
         Z.shiftr (((un21 <<w 16) +w un0) -w ami_umul16x32 q0 d) s).

Definition ami_divu64_32 (hi lo divisor : Z) : outcome (Z * Z) := ami_divu64_32_soft hi lo divisor.

(** ** 64-bit division *)

Definition b2z (b : bool) : Z := if b then 1 else 0.
Definition join64 (hi lo : Z) : Z := Z.lor (u64 (Z.shiftl hi 32)) lo.

(** The value and [*remainder]. *)
Definition __udivmoddi4 (numerator denominator : Z) : outcome (Z * Z) :=
  let n_hi := u32 (Z.shiftr numerator 32) in
  let n_lo := u32 numerator in
  let d_hi := u32 (Z.shiftr denominator 32) in
  let d_lo := u32 denominator in
  if denominator =? 0 then Val (u64 (Z.lnot 0), 0)
  else if d_hi =? 0 then
    if n_hi <? d_lo then ami_divu64_32 n_hi n_lo d_lo
    else
      let! (q_hi, rem) := ami_divu64_32 0 n_hi d_lo in
      let! (q_lo, rem2) := ami_divu64_32 rem n_lo d_lo in
      Val (join64 q_hi q_lo, rem2)
  else if n_hi <? d_hi then Val (0, numerator)
  else
    let bm := ami_clz32 d_hi in
    if bm =? 0 then
      if (d_hi <? n_hi) || (d_lo <=? n_lo) then
        let m_hi := (n_hi -w d_hi) -w b2z (n_lo <? d_lo) in
        Val (1, join64 m_hi (n_lo -w d_lo))
      else Val (0, join64 n_hi n_lo)
    else
      let b := 32 -w bm in
      let d_hi' := Z.lor (d_hi <<w bm) (Z.shiftr d_lo b) in
      let d_lo' := d_lo <<w bm in
      let n_2 := Z.shiftr n_hi b in
      let n_hi' := Z.lor (n_hi <<w bm) (Z.shiftr n_lo b) in
      let n_lo' := n_lo <<w bm in
      let! (q_lo, n_hi2) := ami_divu64_32 n_2 n_hi' d_hi' in
      let m := ami_umul32_wide q_lo d_lo' in
      let m_hi := u32 (Z.shiftr m 32) in
      let m_lo := u32 m in
      let '(q, m_hi', m_lo') :=
        if (n_hi2 <? m_hi) || ((m_hi =? n_hi2) && (n_lo' <? m_lo))
        then (q_lo -w 1, (m_hi -w d_hi') -w b2z (m_lo <? d_lo'), m_lo -w d_lo')
        else (q_lo, m_hi, m_lo) in
      let r_hi := (n_hi2 -w m_hi') -w b2z (n_lo' <? m_lo') in
      let r_lo := n_lo' -w m_lo' in
      Val (q, join64 (Z.shiftr r_hi bm) (Z.lor (r_hi <<w b) (Z.shiftr r_lo bm))).

Definition __udivdi3 (numerator denominator : Z) : outcome Z :=
  let! (q, _) := __udivmoddi4 numerator denominator in Val q.
Definition __umoddi3 (numerator denominator : Z) : outcome Z :=
  let! (_, r) := __udivmoddi4 numerator denominator in Val r.

(** Negation of a signed value wraps. *)
Definition __divdi3 (numerator denominator : Z) : outcome Z :=
  let '(n, negate) := if numerator <? 0 then (s64 (- numerator), true) else (numerator, false) in
  let '(d, negate) := if denominator <? 0 then (s64 (- denominator), negb negate)
                      else (denominator, negate) in
  let! (quotient, _) := __udivmoddi4 (u64 n) (u64 d) in
  Val (if (negate : bool) then s64 (- s64 quotient) else s64 quotient).

Definition __moddi3 (numerator denominator : Z) : outcome Z :=
  let '(n, negate) := if numerator <? 0 then (s64 (- numerator), true) else (numerator, false) in
  let d := if denominator <? 0 then s64 (- denominator) else denominator in
  let! (_, remainder) := __udivmoddi4 (u64 n) (u64 d) in
  Val (if (negate : bool) then s64 (- s64 remainder) else s64 remainder).

(** ** The 32-bit set *)

Definition ami_udivmodsi (numerator denominator : Z) : outcome (Z * Z) :=
  if denominator =? 0 then Val (u32 (Z.lnot 0), 0)
  else ami_divu64_32_soft 0 numerator denominator.

Definition __udivsi3 (numerator denominator : Z) : outcome Z :=
  let! (q, _) := ami_udivmodsi numerator denominator in Val q.
Definition __umodsi3 (numerator denominator : Z) : outcome Z :=
  let! (_, r) := ami_udivmodsi numerator denominator in Val r.

Definition __divsi3 (numerator denominator : Z) : outcome Z :=
  let '(n, negate) := if numerator <? 0 then (s32 (- numerator), true) else (numerator, false) in
  let '(d, negate) := if denominator <? 0 then (s32 (- denominator), negb negate)
                      else (denominator, negate) in
  let! (quotient, _) := ami_udivmodsi (u32 n) (u32 d) in
  Val (if (negate : bool) then s32 (- s32 quotient) else s32 quotient).

Definition __modsi3 (numerator denominator : Z) : outcome Z :=
  let '(n, negate) := if numerator <? 0 then (s32 (- numerator), true) else (numerator, false) in
  let d := if denominator <? 0 then s32 (- denominator) else denominator in
  let! (_, remainder) := ami_udivmodsi (u32 n) (u32 d) in
  Val (if (negate : bool) then s32 (- s32 remainder) else s32 remainder).

(** ** 64-bit shifts *)

Definition __lshrdi3 (value count : Z) : Z :=
  let hi := u32 (Z.shiftr value 32) in
  let lo := u32 value in
  if count <=? 0 then value
  else if 64 <=? count then 0
  else if 32 <=? count then Z.shiftr hi (count - 32)
  else join64 (Z.shiftr hi count) (Z.lor (Z.shiftr lo count) (hi <<w (32 - count))).

Definition __ashldi3 (value count : Z) : Z :=
  let hi := u32 (Z.shiftr value 32) in
  let lo := u32 value in
  if count <=? 0 then value
  else if 64 <=? count then 0
  else if 32 <=? count then u64 (Z.shiftl (lo <<w (count - 32)) 32)
  else join64 (Z.lor (hi <<w count) (Z.shiftr lo (32 - count))) (lo <<w count).

(** [>>] of a negative [s32] is arithmetic. *)
Definition __ashrdi3 (value count : Z) : Z :=
  let hi := s32 (u32 (Z.shiftr (u64 value) 32)) in
  let lo := u32 (u64 value) in
  if count <=? 0 then value
  else if 64 <=? count then (if value <? 0 then -1 else 0)
  else if 32 <=? count then Z.shiftr hi (count - 32)
  else s64 (join64 (u32 (Z.shiftr hi count)) (Z.lor (Z.shiftr lo count) (u32 hi <<w (32 - count)))).

(** ** Word arithmetic *)

Lemma shl16 a : Z.shiftl a 16 = a * 65536.
Proof. by rewrite Z.shiftl_mul_pow2. Qed.
Lemma shr16 a : Z.shiftr a 16 = a / 65536.
Proof. by rewrite Z.shiftr_div_pow2. Qed.
Lemma land16 a : Z.land a 0xFFFF = a mod 65536.
Proof. change 0xFFFF with (Z.ones 16). by rewrite Z.land_ones. Qed.

(** A word put together from a high and a low half. *)
Lemma lor16 a b : 0 <= b < 65536 -> Z.lor (a <<w 16) b = (a mod 65536) * 65536 + b.
Proof.
  intros Hb. replace (a <<w 16) with (Z.shiftl (a mod 65536) 16) by (rewrite !shl16; word_lia).
  by rewrite lor_shift_add by lia.
Qed.

Lemma join64_add hi lo : is_u32 hi -> is_u32 lo -> join64 hi lo = hi * 2 ^ 32 + lo.
Proof.
  intros Hh Hl. unfold join64. rewrite u64_small by (rewrite Z.shiftl_mul_pow2 by lia; word_lia).
  by rewrite lor_shift_add by word_lia.
Qed.

(** ** Multiplication *)

Lemma umul16_spec a b : 0 <= a < 65536 -> 0 <= b < 65536 -> ami_umul16 a b = a * b.
Proof.
  intros Ha Hb. unfold ami_umul16. rewrite (u16_small a), (u16_small b) by word_lia.
  apply u32_small. unfold is_u32. nia.
Qed.

Lemma umul16x32_spec q v : 0 <= q < 65536 -> is_u32 v -> ami_umul16x32 q v = u32 (q * v).
Proof.
  intros Hq Hv. unfold ami_umul16x32, ami_umul16. rewrite shr16, shl16.
  rewrite (u16_small q) by word_lia. rewrite (u16_small (v / 65536)) by word_lia.
  unfold u32, u16. change (2 ^ 16) with 65536.
  rewrite Z.mul_mod_idemp_l, <- Z.add_mod by lia.
  rewrite (Z.div_mod v 65536) at 3 by lia. f_equal. ring.
Qed.

(** The four partial products put together. *)
Lemma umul32_wide_spec a b : is_u32 a -> is_u32 b -> ami_umul32_wide a b = a * b.
Proof.
  intros Ha Hb. unfold ami_umul32_wide. rewrite !shr16, !shl16.
  set (a0 := u16 a). set (a1 := u16 (a / 65536)). set (b0 := u16 b). set (b1 := u16 (b / 65536)).
  assert (Ea : a = a1 * 65536 + a0 /\ 0 <= a0 < 65536 /\ 0 <= a1 < 65536) by (unfold a0, a1; word_lia).
  assert (Eb : b = b1 * 65536 + b0 /\ 0 <= b0 < 65536 /\ 0 <= b1 < 65536) by (unfold b0, b1; word_lia).
  clearbody a0 a1 b0 b1. destruct Ea as (-> & Ha0 & Ha1). destruct Eb as (-> & Hb0 & Hb1).
  rewrite !(u32_small (_ * _)) by (unfold is_u32; nia).
  set (ll := a0 * b0). set (lh := a0 * b1). set (hl := a1 * b0). set (hh := a1 * b1).
  assert (B : 0 <= ll <= 65535 * 65535 /\ 0 <= lh <= 65535 * 65535 /\ 0 <= hl <= 65535 * 65535 /\
              0 <= hh <= 65535 * 65535) by (unfold ll, lh, hl, hh; nia).
  replace ((a1 * 65536 + a0) * (b1 * 65536 + b0)) with (hh * 2 ^ 32 + (lh + hl) * 65536 + ll)
    by (unfold ll, lh, hl, hh; ring).
  clearbody ll lh hl hh.
  rewrite (u32_small (ll / 65536 + u16 lh)) by word_lia.
  set (mid := u32 (ll / 65536 + u16 lh + u16 hl)).
  assert (Hmid : mid = ll / 65536 + lh mod 65536 + hl mod 65536) by (unfold mid; apply u32_small; word_lia).
  rewrite (u32_small (hh + lh / 65536)) by word_lia.
  rewrite (u32_small (hh + lh / 65536 + hl / 65536)) by word_lia.
  rewrite (u32_small (_ + mid / 65536)) by word_lia.
  rewrite <- shl16, lor16 by word_lia. fold (join64 (hh + lh / 65536 + hl / 65536 + mid / 65536) (mid mod 65536 * 65536 + u16 ll)).
  rewrite join64_add by word_lia. word_lia.
Qed.

Lemma umul32_low_spec a b : is_u32 a -> is_u32 b -> ami_umul32_low a b = u32 (a * b).
Proof.
  intros Ha Hb. unfold ami_umul32_low. rewrite !shr16, shl16.
  set (a0 := u16 a). set (a1 := u16 (a / 65536)). set (b0 := u16 b). set (b1 := u16 (b / 65536)).
  assert (Ea : a = a1 * 65536 + a0) by (unfold a0, a1; word_lia).
  assert (Eb : b = b1 * 65536 + b0) by (unfold b0, b1; word_lia).
  clearbody a0 a1 b0 b1. subst a b. unfold u32. change (2 ^ 32) with (65536 * 65536).
  rewrite <- (Z.add_mod (a0 * b1)), Z.mul_mod_idemp_l, <- Z.add_mod by lia.
  replace ((a1 * 65536 + a0) * (b1 * 65536 + b0)) with
    (a0 * b0 + (a0 * b1 + a1 * b0) * 65536 + (a1 * b1) * (65536 * 65536)) by ring.
  by rewrite Z.mod_add by lia.
Qed.

(** [__muldi3] is multiplication modulo 2^64, and [__mulsi3] modulo 2^32. *)
Theorem muldi3_correct a b :
  is_u64 a -> is_u64 b -> __muldi3 a b = u64 (a * b) /\ __mulsi3 (u32 a) (u32 b) = u32 (a * b).
Proof.
  intros Ha Hb. unfold __muldi3, __mulsi3. rewrite umul32_wide_spec by apply u32_range. split.
  - rewrite !Z.shiftr_div_pow2, !umul32_low_spec, !Z.shiftl_mul_pow2 by (lia || apply u32_range).
    set (a0 := u32 a). set (a1 := u32 (a / 2 ^ 32)). set (b0 := u32 b). set (b1 := u32 (b / 2 ^ 32)).
    assert (Ea : a = a1 * 2 ^ 32 + a0) by (unfold a0, a1; word_lia).
    assert (Eb : b = b1 * 2 ^ 32 + b0) by (unfold b0, b1; word_lia).
    clearbody a0 a1 b0 b1. subst a b. unfold u32, u64. rewrite <- Z.add_mod by lia.
    rewrite Z.add_mod_idemp_r by lia.
    set (x := a0 * b1 + a1 * b0). pose proof (Z.div_mod x (2 ^ 32) ltac:(lia)) as Ex.
    replace ((a1 * 2 ^ 32 + a0) * (b1 * 2 ^ 32 + b0)) with
      (a0 * b0 + x mod 2 ^ 32 * 2 ^ 32 + (a1 * b1 + x / 2 ^ 32) * 2 ^ 64)
      by (change (2 ^ 64) with (2 ^ 32 * 2 ^ 32); unfold x in *; nia).
    by rewrite Z.mod_add by lia.
  - unfold u32. by rewrite <- Z.mul_mod by lia.
Qed.

Lemma muldi3_correct_witness :
  __muldi3 0x123456789 0xABCDEF0123 = 0x79AAAB8275CBB0BB /\ __mulsi3 0x23456789 0xCDEF0123 = 0x75CBB0BB.
Proof.
  destruct (muldi3_correct 0x123456789 0xABCDEF0123) as [E1 E2]; [word_lia|word_lia|].
  change 0x23456789 with (u32 0x123456789). change 0xCDEF0123 with (u32 0xABCDEF0123).
  rewrite E1, E2. by vm_compute.
Defined.

(** ** Dividing *)

(** Long division, one digit at a time. *)
Lemma div_digits B n h l d :
  0 < d -> n = h * B + l ->
  n / d = h / d * B + (h mod d * B + l) / d /\ n mod d = (h mod d * B + l) mod d.
Proof.
  intros Hd ->. rewrite (Z.div_mod h d) at 1 4 by lia.
  replace ((d * (h / d) + h mod d) * B + l) with (h / d * B * d + (h mod d * B + l)) by ring.
  rewrite Z.div_add_l, (Z.add_comm (_ * d)), Z.mod_add by lia. done.
Qed.

Lemma divu32_16_spec n d : is_u32 n -> 0 < d < 65536 -> ami_divu32_16 n d = (n / d, n mod d).
Proof.
  intros Hn Hd. unfold ami_divu32_16, ami_divu32_16_step. rewrite shr16, land16.
  pose proof (Z.mod_pos_bound (n / 65536) d ltac:(lia)) as Hr.
  pose proof (Z.mod_pos_bound n 65536 ltac:(lia)) as Hl.
  rewrite (lor16 (n / 65536 mod d) (n mod 65536)) by lia. rewrite (Z.mod_small (n / 65536 mod d)) by lia.
  destruct (div_digits 65536 n (n / 65536) (n mod 65536) d ltac:(lia) ltac:(word_lia)) as [-> ->].
  set (r := n / 65536 mod d) in *. set (l := n mod 65536) in *. clearbody r l.
  assert (Hx : 0 <= (r * 65536 + l) / d < 65536).
  { split; [apply Z.div_pos; lia|]. apply Z.div_lt_upper_bound; lia. }
  rewrite lor16 by lia. f_equal. rewrite (Z.mod_small (n / 65536 / d)); [done|].
  split; [apply Z.div_pos; word_lia|]. apply Z.div_lt_upper_bound; [lia|]. word_lia.
Qed.

(** Counting the leading zeros normalises. *)
Lemma land_top v k m :
  is_u32 v -> 0 <= k <= 32 -> m = Z.shiftl (Z.ones (32 - k)) k ->
  (Z.land v m =? 0) = (v <? 2 ^ k).
Proof.
  intros Hv Hk ->.
  assert (E : Z.land v (Z.shiftl (Z.ones (32 - k)) k) = v / 2 ^ k * 2 ^ k).
  { rewrite <- Z.shiftl_mul_pow2, <- Z.shiftr_div_pow2 by lia. apply Z.bits_inj'. intros n Hn.
    rewrite Z.land_spec. destruct (decide (n < k)).
    - rewrite !Z.shiftl_spec_low by lia. apply andb_false_r.
    - rewrite !Z.shiftl_spec, Z.shiftr_spec by lia. replace (n - k + k) with n by lia.
      destruct (decide (n < 32)).
      + rewrite Z.ones_spec_low by lia. apply andb_true_r.
      + rewrite Z.ones_spec_high, andb_false_r by lia. symmetry.
        destruct (Z.eq_dec v 0) as [->|]; [apply Z.bits_0|]. apply Z.bits_above_log2; [word_lia|].
        apply Z.lt_le_trans with 32; [apply Z.log2_lt_pow2; word_lia|lia]. }
  rewrite E. pose proof (Z.pow_pos_nonneg 2 k ltac:(lia) ltac:(lia)) as Hp.
  pose proof (Z.div_mod v (2 ^ k) ltac:(lia)). pose proof (Z.mod_pos_bound v (2 ^ k) Hp).
  destruct (Z.ltb_spec v (2 ^ k)).
  - rewrite Z.div_small by word_lia. done.
  - apply Z.eqb_neq. nia.
Qed.

(** One step: [v] is below 2^[k] and is shifted up by [32 - k], or is left. *)
Lemma clz_step value n v k j m :
  j = 32 - k -> is_u32 v -> 16 <= k < 32 -> m = Z.shiftl (Z.ones (32 - k)) k -> 0 <= n -> v = value * 2 ^ n ->
  2 ^ (2 * k - 32) <= v ->
  exists n' v', (if Z.land v m =? 0 then (n + j, v <<w j) else (n, v)) = (n', v') /\
    n <= n' <= n + j /\ is_u32 v' /\ v' = value * 2 ^ n' /\ 2 ^ k <= v'.
Proof.
  intros -> Hv Hk Hm Hn Ev Hlow. rewrite (land_top v k) by (done || lia).
  destruct (Z.ltb_spec v (2 ^ k)) as [Hlt|Hge]; [|exists n, v; split_and!; try done; lia].
  exists (n + (32 - k)), (v * 2 ^ (32 - k)).
  pose proof (Z.pow_pos_nonneg 2 (32 - k) ltac:(lia) ltac:(lia)) as Hp.
  assert (E32 : 2 ^ 32 = 2 ^ k * 2 ^ (32 - k)) by (rewrite <- Z.pow_add_r by lia; f_equal; lia).
  assert (Ek : 2 ^ k = 2 ^ (2 * k - 32) * 2 ^ (32 - k)) by (rewrite <- Z.pow_add_r by lia; f_equal; lia).
  assert (Hs : is_u32 (v * 2 ^ (32 - k))) by (unfold is_u32 in *; rewrite E32; nia).
  rewrite Z.shiftl_mul_pow2, u32_small by (lia || done). split_and!; try done; try lia.
  - rewrite Ev, <- Z.mul_assoc, <- Z.pow_add_r by lia. done.
  - rewrite Ek. apply Z.mul_le_mono_nonneg_r; lia.
Qed.

Lemma clz32_spec v :
  0 < v -> is_u32 v -> 0 <= ami_clz32 v <= 31 /\ 2 ^ 31 <= v * 2 ^ ami_clz32 v < 2 ^ 32.
Proof.
  intros Hv Hw. unfold ami_clz32.
  destruct (clz_step v 0 v 16 16 0xFFFF0000) as (n1 & v1 & -> & N1 & W1 & E1 & L1); try done; try lia.
  destruct (clz_step v n1 v1 24 8 0xFF000000) as (n2 & v2 & -> & N2 & W2 & E2 & L2); try done; try lia.
  destruct (clz_step v n2 v2 28 4 0xF0000000) as (n3 & v3 & -> & N3 & W3 & E3 & L3); try done; try lia.
  destruct (clz_step v n3 v3 30 2 0xC0000000) as (n4 & v4 & -> & N4 & W4 & E4 & L4); try done; try lia.
  destruct (clz_step v n4 v4 31 1 0x80000000) as (n5 & v5 & E & N5 & W5 & E5 & L5); try done; try lia.
  replace (if Z.land v4 _ =? 0 then _ else _) with n5.
  - rewrite <- E5. unfold is_u32 in W5. lia.
  - destruct (Z.land v4 _ =? 0); congruence.
Qed.

(** ** One quotient digit

    [d] is normalised, [u] the running remainder below [d] and [un] the next
    digit of the numerator: the loop ends with the digit [(u * 65536 + un) / d]. *)
Section Digit.
Variables d v1 v0 u un : Z.
Hypothesis Hd : 2 ^ 31 <= d < 2 ^ 32.
Hypothesis Hv1 : v1 = d / 65536.
Hypothesis Hv0 : v0 = d mod 65536.
Hypothesis Hu : 0 <= u < d.
Hypothesis Hun : 0 <= un < 65536.

Lemma fix_digit_spec fuel q rhat :
  u = q * v1 + rhat -> 0 <= q <= 65537 -> 0 <= rhat < 65536 -> (u * 65536 + un) / d <= q ->
  65536 - rhat <= Z.of_nat fuel * v1 ->
  fix_digit (S fuel) q rhat v1 v0 un = Val ((u * 65536 + un) / d).
Proof using All.
  assert (Hv : d = v1 * 65536 + v0 /\ 32768 <= v1 < 65536 /\ 0 <= v0 < 65536) by word_lia.
  destruct Hv as (Ed & Hv1r & Hv0r).
  pose proof (Z.div_mod (u * 65536 + un) d ltac:(lia)) as Hdiv.
  pose proof (Z.mod_pos_bound (u * 65536 + un) d ltac:(lia)) as Hmod.
  set (Q := (u * 65536 + un) / d) in *. set (R := (u * 65536 + un) mod d) in *.
  assert (HQ : 0 <= Q < 65536) by nia. clearbody Q R.
  revert q rhat. induction fuel as [|fuel IH]; intros q rhat Eu Hq Hr Hge Hf; [lia|].
  cbn [fix_digit]. rewrite shr16, lor16, (Z.mod_small rhat) by lia.
  assert (Hgood : (negb (q / 65536 =? 0) || (rhat * 65536 + un <? ami_umul16 q v0)) = false -> q = Q).
  { intros E. apply orb_false_elim in E as [E1 E2]. apply negb_false_iff, Z.eqb_eq in E1.
    assert (Hq' : q < 65536) by word_lia. rewrite umul16_spec in E2 by lia. apply Z.ltb_ge in E2. nia. }
  assert (Hbad : (negb (q / 65536 =? 0) || (rhat * 65536 + un <? ami_umul16 q v0)) = true -> Q < q).
  { intros E. destruct (Z_lt_ge_dec q 65536); [|lia].
    rewrite umul16_spec, Z.div_small, Z.eqb_refl in E by lia. simpl in E. apply Z.ltb_lt in E. nia. }
  destruct (negb _ || _); [|by rewrite Hgood]. specialize (Hbad eq_refl). clear Hgood.
  rewrite (u32_small (q - 1)) by word_lia. rewrite (u32_small (rhat + v1)), shr16 by word_lia.
  destruct (Z.eqb_spec ((rhat + v1) / 65536) 0) as [E|E].
  - assert (Hr' : rhat + v1 < 65536) by word_lia.
    apply IH; [rewrite Eu; ring|lia|lia|lia|]. rewrite Nat2Z.inj_succ in Hf. nia.
  - assert (Hr' : 65536 <= rhat + v1) by word_lia. f_equal.
    assert (Hmul : (q - 1) * d = u * 65536 - (rhat + v1) * 65536 + (q - 1) * v0) by (rewrite Eu, Ed; ring).
    assert (Hv0q : (q - 1) * v0 <= 65536 * 65535) by nia.
    assert (Hle : q - 1 < Q + 1) by (apply (Z.mul_lt_mono_pos_r d); lia). lia.
Qed.

Lemma digit_spec :
  let '(qh, rhat) := ami_divu32_16 u v1 in
  fix_digit digit_fuel qh rhat v1 v0 un = Val ((u * 65536 + un) / d).
Proof using All.
  assert (Hv : d = v1 * 65536 + v0 /\ 32768 <= v1 < 65536 /\ 0 <= v0 < 65536) by word_lia.
  destruct Hv as (Ed & Hv1r & Hv0r).
  rewrite divu32_16_spec by word_lia.
  pose proof (Z.div_mod u v1 ltac:(lia)) as Hdiv. pose proof (Z.mod_pos_bound u v1 ltac:(lia)) as Hmod.
  pose proof (Z.div_mod (u * 65536 + un) d ltac:(lia)) as HdivN.
  pose proof (Z.mod_pos_bound (u * 65536 + un) d ltac:(lia)) as HmodN.
  assert (Hq : 0 <= u / v1 <= 65537).
  { split; [apply Z.div_pos; lia|]. apply Z.lt_succ_r, Z.div_lt_upper_bound; lia. }
  apply fix_digit_spec; [lia|done|lia| |unfold digit_fuel; lia].
  apply Z.lt_succ_r, Z.div_lt_upper_bound; [lia|].
  assert (E : Z.succ (u / v1) * v1 > u) by lia. nia.
Qed.
End Digit.

(** ** Shifting a double word *)

(** What falls out of a word shifted left by [s] is what a right shift by
    [32 - s] keeps. *)
Lemma shift_split lo s :
  is_u32 lo -> 0 <= s <= 32 -> lo * 2 ^ s = lo / 2 ^ (32 - s) * 2 ^ 32 + u32 (lo * 2 ^ s) /\
    0 <= lo / 2 ^ (32 - s) < 2 ^ s.
Proof.
  intros Hlo Hs. pose proof (Z.pow_pos_nonneg 2 s ltac:(lia) ltac:(lia)) as P1.
  pose proof (Z.pow_pos_nonneg 2 (32 - s) ltac:(lia) ltac:(lia)) as P2.
  assert (E32 : 2 ^ 32 = 2 ^ (32 - s) * 2 ^ s) by (rewrite <- Z.pow_add_r by lia; f_equal; lia).
  split.
  - assert (E : lo * 2 ^ s / 2 ^ 32 = lo / 2 ^ (32 - s)) by (rewrite E32; apply Z.div_mul_cancel_r; lia).
    rewrite <- E. unfold u32. pose proof (Z.div_mod (lo * 2 ^ s) (2 ^ 32)). lia.
  - split; [apply Z.div_pos; word_lia|]. apply Z.div_lt_upper_bound; [lia|]. rewrite <- E32. word_lia.
Qed.

(** The high word of a double word shifted left by [s < 32]. *)
Lemma shift_high hi lo s :
  is_u32 lo -> 0 <= s < 32 -> 0 <= hi -> hi * 2 ^ s < 2 ^ 32 ->
  Z.lor (hi <<w s) (Z.shiftr lo (32 - s)) = hi * 2 ^ s + lo / 2 ^ (32 - s).
Proof.
  intros Hlo Hs Hhi Hb. destruct (shift_split lo s Hlo ltac:(lia)) as [_ Hr].
  pose proof (Z.pow_pos_nonneg 2 s ltac:(lia) ltac:(lia)).
  rewrite u32_small by (rewrite Z.shiftl_mul_pow2 by lia; unfold is_u32; nia).
  rewrite Z.shiftr_div_pow2 by lia. apply lor_shift_add; lia.
Qed.

(** The running remainder after a digit. *)
Lemma digit_rest u un d q :
  0 <= un < 65536 -> 0 <= u -> 2 ^ 31 <= d < 2 ^ 32 -> 0 <= q < 65536 -> q = (u * 65536 + un) / d ->
  ((u <<w 16) +w un) -w ami_umul16x32 q d = (u * 65536 + un) mod d.
Proof.
  intros Hun Hu Hd Hq Eq. rewrite umul16x32_spec, shl16 by (done || word_lia).
  pose proof (Z.mod_pos_bound (u * 65536 + un) d ltac:(lia)) as Hm.
  rewrite <- (u32_small ((u * 65536 + un) mod d)) by word_lia.
  rewrite (Z.mod_eq (u * 65536 + un) d), <- Eq by lia. unfold u32.
  rewrite Z.add_mod_idemp_l, <- Zminus_mod by lia. f_equal. ring.
Qed.

Lemma soft_small hi lo d :
  is_u32 lo -> 0 <= hi < d -> d < 65536 ->
  ami_divu64_32_soft hi lo d = Val ((hi * 2 ^ 32 + lo) / d, (hi * 2 ^ 32 + lo) mod d).
Proof.
  intros Hlo Hhi Hd. unfold ami_divu64_32_soft. rewrite (proj2 (Z.ltb_lt _ _)) by lia.
  unfold ami_divu32_16_step. rewrite shr16, land16, (lor16 hi), (Z.mod_small hi) by word_lia.
  set (h := hi * 65536 + lo / 65536).
  assert (Hq1 : 0 <= h / d < 65536).
  { split; [apply Z.div_pos; unfold h; word_lia|]. apply Z.div_lt_upper_bound; unfold h; word_lia. }
  pose proof (Z.mod_pos_bound h d ltac:(lia)) as Hr. pose proof (Z.mod_pos_bound lo 65536 ltac:(lia)) as Hl.
  rewrite (lor16 (h mod d) (lo mod 65536)), (Z.mod_small (h mod d)) by lia.
  assert (Hq0 : 0 <= (h mod d * 65536 + lo mod 65536) / d < 65536).
  { split; [apply Z.div_pos; lia|]. apply Z.div_lt_upper_bound; lia. }
  rewrite lor16, (Z.mod_small (h / d)) by lia.
  destruct (div_digits 65536 (hi * 2 ^ 32 + lo) h (lo mod 65536) d) as [-> ->]; [lia|unfold h; word_lia|done].
Qed.

Lemma divu64_32_soft_spec hi lo d :
  is_u32 hi -> is_u32 lo -> is_u32 d -> hi < d ->
  ami_divu64_32_soft hi lo d = Val ((hi * 2 ^ 32 + lo) / d, (hi * 2 ^ 32 + lo) mod d).
Proof.
  intros Hhi Hlo Hd Hlt. destruct (Z_lt_ge_dec d 65536) as [Hs|Hs]; [apply soft_small; word_lia|].
  unfold ami_divu64_32_soft. rewrite (proj2 (Z.ltb_ge _ _)) by lia.
  destruct (clz32_spec d) as [Hc Hn]; [word_lia|done|]. set (s := ami_clz32 d) in *. clearbody s.
  pose proof (Z.pow_pos_nonneg 2 s ltac:(lia) ltac:(lia)) as Ps.
  destruct (shift_split lo s Hlo ltac:(lia)) as [Hsplit Hcarry].
  assert (Ed : d <<w s = d * 2 ^ s) by (rewrite Z.shiftl_mul_pow2, u32_small by (lia || word_lia); done).
  assert (Eu : Z.lor (hi <<w s) (if negb (s =? 0) then Z.shiftr lo (32 - s) else 0) =
               hi * 2 ^ s + lo / 2 ^ (32 - s)).
  { rewrite <- shift_high by (done || (unfold is_u32 in *; nia) || lia).
    destruct (Z.eqb_spec s 0) as [->|]; [|done]. simpl. f_equal.
    rewrite Z.shiftr_div_pow2, Z.div_small by word_lia. done. }
  assert (El : lo <<w s = u32 (lo * 2 ^ s)) by (by rewrite Z.shiftl_mul_pow2 by lia).
  cbv zeta. rewrite Ed, Eu, El, !shr16, !land16.
  set (D := d * 2 ^ s) in *. set (u := hi * 2 ^ s + lo / 2 ^ (32 - s)) in *. set (w := u32 (lo * 2 ^ s)) in *.
  assert (Hu : 0 <= u < D) by (unfold u, D, is_u32 in *; nia).
  assert (Hw : is_u32 w) by apply u32_range.
  assert (HN : (hi * 2 ^ 32 + lo) * 2 ^ s = (u * 65536 + w / 65536) * 65536 + w mod 65536).
  { replace ((u * 65536 + w / 65536) * 65536 + w mod 65536) with (u * 2 ^ 32 + w) by word_lia.
    unfold u. lia. }
  clearbody u w.
  pose proof (digit_spec D (D / 65536) (D mod 65536) u (w / 65536) Hn eq_refl eq_refl Hu ltac:(word_lia)) as Hd1.
  destruct (ami_divu32_16 u (D / 65536)) as [q1h r1h]. rewrite Hd1. cbn [obind].
  set (h := u * 65536 + w / 65536) in *.
  assert (Hq1 : 0 <= h / D < 65536).
  { split; [apply Z.div_pos; unfold h; word_lia|]. apply Z.div_lt_upper_bound; unfold h; word_lia. }
  rewrite (digit_rest u (w / 65536) D (h / D)) by (done || word_lia). fold h.
  pose proof (Z.mod_pos_bound h D ltac:(lia)) as Hr.
  pose proof (digit_spec D (D / 65536) (D mod 65536) (h mod D) (w mod 65536) Hn eq_refl eq_refl ltac:(lia) ltac:(word_lia)) as Hd0.
  destruct (ami_divu32_16 (h mod D) (D / 65536)) as [q0h r0h]. rewrite Hd0. cbn [obind].
  set (x := h mod D * 65536 + w mod 65536) in *.
  assert (Hq0 : 0 <= x / D < 65536).
  { split; [apply Z.div_pos; unfold x; word_lia|]. apply Z.div_lt_upper_bound; unfold x; word_lia. }
  rewrite (digit_rest (h mod D) (w mod 65536) D (x / D)) by (done || word_lia). fold x.
  rewrite lor16, (Z.mod_small (h / D)) by lia.
  destruct (div_digits 65536 ((hi * 2 ^ 32 + lo) * 2 ^ s) h (w mod 65536) D) as [Eq Er]; [lia|done|].
  fold x in Eq, Er. rewrite <- Eq, <- Er. unfold D. rewrite Z.div_mul_cancel_r by lia.
  rewrite Z.mul_mod_distr_r by lia. rewrite Z.shiftr_div_pow2, Z.div_mul by lia. done.
Qed.

(** ** 64-bit division *)

Lemma split64 n : is_u64 n ->
  n = u32 (Z.shiftr n 32) * 2 ^ 32 + u32 n /\ is_u32 (u32 (Z.shiftr n 32)) /\ is_u32 (u32 n).
Proof. intros Hn. rewrite Z.shiftr_div_pow2 by lia. word_lia. Qed.

(** A borrow between the two words of a double word. *)
Lemma sub64 ah al bh bl :
  is_u32 ah -> is_u32 al -> is_u32 bh -> is_u32 bl ->
  let x := ah * 2 ^ 32 + al - (bh * 2 ^ 32 + bl) in
  ((ah -w bh) -w b2z (al <? bl)) = u64 x / 2 ^ 32 /\ (al -w bl) = u64 x mod 2 ^ 32.
Proof.
  intros H1 H2 H3 H4 x. unfold b2z, x. destruct (Z.ltb_spec al bl); word_lia.
Qed.

Lemma lt64 ah al bh bl :
  is_u32 al -> is_u32 bl ->
  (ah <? bh) || ((bh =? ah) && (al <? bl)) = (ah * 2 ^ 32 + al <? bh * 2 ^ 32 + bl).
Proof.
  intros H2 H4. destruct (Z.ltb_spec ah bh), (Z.eqb_spec bh ah), (Z.ltb_spec al bl);
    destruct (Z.ltb_spec (ah * 2 ^ 32 + al) (bh * 2 ^ 32 + bl)); simpl; try done; word_lia.
Qed.

(** A double word shifted right by less than a word. *)
Lemma shr64 hi lo k :
  is_u32 hi -> is_u32 lo -> 0 < k < 32 ->
  join64 (Z.shiftr hi k) (Z.lor (hi <<w (32 - k)) (Z.shiftr lo k)) = (hi * 2 ^ 32 + lo) / 2 ^ k.
Proof.
  intros Hh Hl Hk. pose proof (Z.pow_pos_nonneg 2 k ltac:(lia) ltac:(lia)) as Pk.
  pose proof (Z.pow_pos_nonneg 2 (32 - k) ltac:(lia) ltac:(lia)) as Pb.
  assert (E32 : 2 ^ 32 = 2 ^ (32 - k) * 2 ^ k) by (rewrite <- Z.pow_add_r by lia; f_equal; lia).
  pose proof (Z.div_mod hi (2 ^ k) ltac:(lia)) as Eh. pose proof (Z.mod_pos_bound hi (2 ^ k) Pk) as Hm.
  rewrite !Z.shiftr_div_pow2 by lia. set (h1 := hi / 2 ^ k) in *. set (h0 := hi mod 2 ^ k) in *.
  assert (Hh1 : is_u32 h1) by (apply u32_div; [done|lia]).
  assert (Hl1 : 0 <= lo / 2 ^ k < 2 ^ (32 - k)).
  { split; [apply Z.div_pos; word_lia|]. apply Z.div_lt_upper_bound; [lia|]. rewrite Z.mul_comm, <- E32. word_lia. }
  assert (Ew : hi <<w (32 - k) = Z.shiftl h0 (32 - k)).
  { rewrite !Z.shiftl_mul_pow2 by lia. symmetry. unfold u32. apply (Z.mod_unique_pos _ _ h1); [nia|].
    rewrite Eh, E32. ring. }
  rewrite Ew, lor_shift_add by lia.
  assert (Hlow : is_u32 (h0 * 2 ^ (32 - k) + lo / 2 ^ k)) by (unfold is_u32; nia).
  rewrite join64_add by done. rewrite Eh, E32.
  replace ((2 ^ k * h1 + h0) * (2 ^ (32 - k) * 2 ^ k) + lo) with
    ((h1 * (2 ^ (32 - k) * 2 ^ k) + h0 * 2 ^ (32 - k)) * 2 ^ k + lo) by ring.
  rewrite Z.div_add_l by lia. ring.
Qed.

(** The estimate from the top word of a normalised divisor is right or one too
    big. *)
Lemma estimate N D dh dl nh nl bm q r d :
  D = dh * 2 ^ 32 + dl -> 2 ^ 31 <= dh < 2 ^ 32 -> 0 <= dl < 2 ^ 32 -> 0 <= nl < 2 ^ 32 ->
  N = nh * 2 ^ 32 + nl -> nh = q * dh + r -> 0 <= r < dh -> 0 <= q ->
  0 < bm < 32 -> D = d * 2 ^ bm -> N < 2 ^ 64 * 2 ^ bm ->
  0 <= q < 2 ^ 32 /\
  (if r * 2 ^ 32 + nl <? q * dl then (q - 1) * D <= N < q * D else q * D <= N < (q + 1) * D).
Proof.
  intros ED Hdh Hdl Hnl EN Enh Hr Hq Hbm Ed HN.
  pose proof (Z.pow_pos_nonneg 2 bm ltac:(lia) ltac:(lia)) as Pb.
  assert (Hp1 : 2 ^ bm <= 2 ^ 31) by (apply Z.pow_le_mono_r; lia).
  assert (Hq1 : q < 2 * 2 ^ bm).
  { assert (Hnh : nh < 2 ^ 32 * 2 ^ bm).
    { apply (Z.mul_lt_mono_pos_r (2 ^ 32)); [lia|]. nia. }
    nia. }
  assert (Hm : q * dl < 2 ^ 63).
  { destruct (Z_lt_ge_dec bm 31) as [Hlt|Hge].
    - assert (2 ^ bm <= 2 ^ 30) by (apply Z.pow_le_mono_r; lia). nia.
    - assert (bm = 31) as -> by lia.
      assert (Hdl31 : dl <= 2 ^ 31).
      { assert (Emod : dl mod 2 ^ 31 = 0).
        { replace dl with (d * 2 ^ 31 + (- (dh * 2)) * 2 ^ 31) by lia.
          rewrite <- Z.mul_add_distr_r, Z.mod_mul by lia. done. }
        word_lia. }
      nia. }
  assert (EqD : N - q * D = r * 2 ^ 32 + nl - q * dl) by (rewrite EN, ED, Enh; ring).
  split; [lia|]. destruct (Z.ltb_spec (r * 2 ^ 32 + nl) (q * dl)); nia.
Qed.

(** A divisor of one word. *)
Lemma udiv_word nh nl d :
  is_u32 nh -> is_u32 nl -> 0 < d -> is_u32 d ->
  (if nh <? d then ami_divu64_32 nh nl d
   else let! (q_hi, rem) := ami_divu64_32 0 nh d in
        let! (q_lo, rem2) := ami_divu64_32 rem nl d in Val (join64 q_hi q_lo, rem2)) =
  Val ((nh * 2 ^ 32 + nl) / d, (nh * 2 ^ 32 + nl) mod d).
Proof.
  intros Hnh Hnl Hd0 Hd. unfold ami_divu64_32. destruct (Z.ltb_spec nh d); [by apply divu64_32_soft_spec|].
  rewrite divu64_32_soft_spec by (done || word_lia). cbn [obind]. rewrite Z.mul_0_l, Z.add_0_l.
  pose proof (Z.mod_pos_bound nh d ltac:(lia)) as Hr.
  rewrite divu64_32_soft_spec by (done || word_lia). cbn [obind].
  destruct (div_digits (2 ^ 32) (nh * 2 ^ 32 + nl) nh nl d) as [-> ->]; [lia|done|].
  rewrite join64_add; [done| |].
  - apply u32_div; [done|lia].
  - split; [apply Z.div_pos; word_lia|]. apply Z.div_lt_upper_bound; word_lia.
Qed.

(** A divisor with the top bit set. *)
Lemma udiv_top nh nl dh dl :
  is_u32 nh -> is_u32 nl -> is_u32 dl -> 2 ^ 31 <= dh -> dh <= nh ->
  (if (dh <? nh) || (dl <=? nl)
   then Val (1, join64 ((nh -w dh) -w b2z (nl <? dl)) (nl -w dl)) else Val (0, join64 nh nl)) =
  Val ((nh * 2 ^ 32 + nl) / (dh * 2 ^ 32 + dl), (nh * 2 ^ 32 + nl) mod (dh * 2 ^ 32 + dl)).
Proof.
  intros Hnh Hnl Hdl Hdh Hle. set (n := nh * 2 ^ 32 + nl). set (d := dh * 2 ^ 32 + dl).
  destruct ((dh <? nh) || (dl <=? nl)) eqn:E.
  - assert (Hge : d <= n < 2 * d) by (unfold n, d; destruct (Z.ltb_spec dh nh); simpl in E; word_lia).
    destruct (sub64 nh nl dh dl) as [-> ->]; [done|done|word_lia|done|].
    fold n d. rewrite (u64_small (n - d)) by (unfold n, d in *; word_lia).
    rewrite join64_add by (unfold n, d in *; word_lia).
    assert (Eq : 1 = n / d) by (apply (Z.div_unique_pos n d 1 (n - d)); lia).
    rewrite Z.mod_eq, <- Eq by lia. f_equal. f_equal. word_lia.
  - apply orb_false_elim in E as [E1 E2]. apply Z.ltb_ge in E1. apply Z.leb_gt in E2.
    assert (nh = dh) by lia. rewrite join64_add by done. fold n.
    rewrite Z.div_small, Z.mod_small by (unfold n, d; word_lia). done.
Qed.

(** The correction and the remainder, as double words. *)
Lemma udiv_fix N D q r nl dh dl bm b :
  D = dh * 2 ^ 32 + dl -> is_u32 dh -> is_u32 dl -> is_u32 nl -> is_u32 r -> 0 <= q < 2 ^ 32 ->
  0 < bm < 32 -> b = 32 - bm -> N - q * D = r * 2 ^ 32 + nl - q * dl ->
  (if r * 2 ^ 32 + nl <? q * dl then (q - 1) * D <= N < q * D else q * D <= N < (q + 1) * D) ->
  D < 2 ^ 64 ->
  let m := ami_umul32_wide q dl in
  let m_hi := u32 (Z.shiftr m 32) in
  let m_lo := u32 m in
  (let '(q', m_hi', m_lo') :=
     if (r <? m_hi) || ((m_hi =? r) && (nl <? m_lo))
     then (q -w 1, (m_hi -w dh) -w b2z (m_lo <? dl), m_lo -w dl) else (q, m_hi, m_lo) in
   let r_hi := (r -w m_hi') -w b2z (nl <? m_lo') in
   let r_lo := nl -w m_lo' in
   Val (q', join64 (Z.shiftr r_hi bm) (Z.lor (r_hi <<w b) (Z.shiftr r_lo bm)))) =
  Val (N / D, N mod D / 2 ^ bm).
Proof.
  intros ED Hdh Hdl Hnl Hr Hq Hbm Eb EN Hest HD m m_hi m_lo.
  assert (Em : m = q * dl) by (by apply umul32_wide_spec). assert (Hm : is_u64 m) by (rewrite Em; unfold is_u64, is_u32 in *; nia).
  destruct (split64 m Hm) as (Esm & Hmh & Hml). fold m_hi m_lo in Esm, Hmh, Hml. clearbody m_hi m_lo.
  rewrite (lt64 r nl m_hi m_lo) by done. rewrite <- Esm, Em.
  assert (Hfin : forall q' m_hi' m_lo', is_u32 m_hi' -> is_u32 m_lo' ->
    u64 (r * 2 ^ 32 + nl - (m_hi' * 2 ^ 32 + m_lo')) = u64 (N - q' * D) -> q' * D <= N < (q' + 1) * D ->
    Val (q', join64 (Z.shiftr ((r -w m_hi') -w b2z (nl <? m_lo')) bm)
               (Z.lor (((r -w m_hi') -w b2z (nl <? m_lo')) <<w b) (Z.shiftr (nl -w m_lo') bm))) =
    Val (N / D, N mod D / 2 ^ bm)).
  { intros q' mh ml H1 H2 E H3. destruct (sub64 r nl mh ml) as [-> ->]; [done..|]. rewrite E.
    rewrite (u64_small (N - q' * D)) by (unfold is_u64; lia). rewrite Eb, shr64 by word_lia.
    assert (Eq : q' = N / D) by (apply (Z.div_unique_pos N D q' (N - q' * D)); lia).
    rewrite (Z.mod_eq N D), <- Eq by lia. rewrite (Z.mul_comm D q'). f_equal. f_equal. f_equal. word_lia. }
  destruct (Z.ltb_spec (r * 2 ^ 32 + nl) (q * dl)) as [Hlt|Hge].
  - assert (Hq0 : 0 < q) by (destruct (Z.eq_dec q 0) as [->|]; unfold is_u32 in *; lia).
    rewrite (u32_small (q - 1)) by word_lia. apply Hfin; [apply u32_range|apply u32_range| |lia].
    destruct (sub64 m_hi m_lo dh dl) as [-> ->]; [done..|].
    rewrite <- Esm, Em, <- ED. set (y := u64 (q * dl - D)).
    replace (y / 2 ^ 32 * 2 ^ 32 + y mod 2 ^ 32) with y by word_lia.
    replace (N - (q - 1) * D) with (r * 2 ^ 32 + nl - (q * dl - D)) by lia.
    unfold y, u64. by rewrite Zminus_mod_idemp_r.
  - apply Hfin; [done|done| |done]. f_equal. lia.
Qed.

(** A divisor of two words below 2^63: normalise, estimate, correct. *)
Lemma udiv_norm nh nl dh dl :
  is_u32 nh -> is_u32 nl -> is_u32 dh -> is_u32 dl -> 0 < dh <= nh -> ami_clz32 dh <> 0 ->
  __udivmoddi4 (nh * 2 ^ 32 + nl) (dh * 2 ^ 32 + dl) =
  Val ((nh * 2 ^ 32 + nl) / (dh * 2 ^ 32 + dl), (nh * 2 ^ 32 + nl) mod (dh * 2 ^ 32 + dl)).
Proof.
  intros Hnh Hnl Hdh Hdl Hle Hc0. set (n := nh * 2 ^ 32 + nl). set (d := dh * 2 ^ 32 + dl).
  assert (Hnu : u32 (Z.shiftr n 32) = nh /\ u32 n = nl /\ u32 (Z.shiftr d 32) = dh /\ u32 d = dl).
  { unfold n, d. rewrite !Z.shiftr_div_pow2 by lia. word_lia. }
  destruct Hnu as (E1 & E2 & E3 & E4). unfold __udivmoddi4. rewrite E1, E2, E3, E4.
  assert (Hd : 0 < d) by (unfold d; word_lia). rewrite (proj2 (Z.eqb_neq d 0)) by lia.
  rewrite (proj2 (Z.eqb_neq dh 0)), (proj2 (Z.ltb_ge nh dh)), (proj2 (Z.eqb_neq _ 0)) by (lia || done).
  destruct (clz32_spec dh ltac:(lia) Hdh) as [Hc Hn]. set (bm := ami_clz32 dh) in *. clearbody bm.
  assert (Hbm : 0 < bm < 32) by lia. pose proof (Z.pow_pos_nonneg 2 bm ltac:(lia) ltac:(lia)) as Pb.
  assert (E32 : 2 ^ 32 = 2 ^ (32 - bm) * 2 ^ bm) by (rewrite <- Z.pow_add_r by lia; f_equal; lia).
  pose proof (Z.pow_pos_nonneg 2 (32 - bm) ltac:(lia) ltac:(lia)) as Pc.
  rewrite (u32_small (32 - bm)) by word_lia.
  destruct (shift_split dl bm Hdl ltac:(lia)) as [Sdl Cdl].
  destruct (shift_split nl bm Hnl ltac:(lia)) as [Snl Cnl].
  destruct (shift_split nh bm Hnh ltac:(lia)) as [Snh Cnh].
  rewrite (shift_high dh dl bm) by (done || lia).
  assert (Ew : u32 (nh * 2 ^ bm) = nh mod 2 ^ (32 - bm) * 2 ^ bm)
    by (unfold u32; rewrite E32, Z.mul_mod_distr_r by lia; done).
  assert (Enh : Z.lor (nh <<w bm) (Z.shiftr nl (32 - bm)) = u32 (nh * 2 ^ bm) + nl / 2 ^ (32 - bm)).
  { rewrite (Z.shiftl_mul_pow2 nh), Ew, Z.shiftr_div_pow2 by lia.
    rewrite <- (Z.shiftl_mul_pow2 (nh mod _) bm) at 1 by lia. apply lor_shift_add; lia. }
  rewrite Enh. rewrite !(Z.shiftl_mul_pow2 _ bm), (Z.shiftr_div_pow2 nh) by lia.
  set (dh' := dh * 2 ^ bm + dl / 2 ^ (32 - bm)) in *. set (dl' := u32 (dl * 2 ^ bm)) in *.
  set (n2 := nh / 2 ^ (32 - bm)) in *. set (nl' := u32 (nl * 2 ^ bm)) in *.
  set (nh' := u32 (nh * 2 ^ bm) + nl / 2 ^ (32 - bm)) in *.
  assert (ED : d * 2 ^ bm = dh' * 2 ^ 32 + dl') by (unfold d, dh'; lia).
  assert (EN : n * 2 ^ bm = (n2 * 2 ^ 32 + nh') * 2 ^ 32 + nl') by (unfold n, nh'; lia).
  assert (Hdh' : 2 ^ 31 <= dh' < 2 ^ 32).
  { assert (dh < 2 ^ (32 - bm)) by (apply (Z.mul_lt_mono_pos_r (2 ^ bm)); lia). unfold dh'. nia. }
  assert (Hnh' : is_u32 nh').
  { unfold nh'. rewrite Ew. pose proof (Z.mod_pos_bound nh (2 ^ (32 - bm)) Pc). unfold is_u32. nia. }
  assert (Hn2 : 0 <= n2 < 2 ^ 31).
  { assert (2 ^ bm <= 2 ^ 31) by (apply Z.pow_le_mono_r; lia). lia. }
  assert (Hdl' : is_u32 dl') by apply u32_range. assert (Hnl' : is_u32 nl') by apply u32_range.
  unfold ami_divu64_32. rewrite divu64_32_soft_spec by (done || word_lia). cbn [obind].
  set (a := n2 * 2 ^ 32 + nh') in *.
  pose proof (Z.div_mod a dh' ltac:(lia)) as Ea. pose proof (Z.mod_pos_bound a dh' ltac:(lia)) as Ha.
  assert (Hq : 0 <= a / dh') by (apply Z.div_pos; unfold a; word_lia).
  destruct (estimate (n * 2 ^ bm) (d * 2 ^ bm) dh' dl' a nl' bm (a / dh') (a mod dh') d) as [Hqr Hest];
    try done; try word_lia; try lia.
  etransitivity; [apply (udiv_fix (n * 2 ^ bm) (d * 2 ^ bm) (a / dh') (a mod dh') nl' dh' dl' bm (32 - bm));
    try done; try word_lia|].
  rewrite Z.div_mul_cancel_r, Z.mul_mod_distr_r, Z.div_mul by lia. done.
Qed.

Lemma udivmoddi4_spec n d :
  is_u64 n -> is_u64 d -> d <> 0 -> __udivmoddi4 n d = Val (n / d, n mod d).
Proof.
  intros Hn Hd Hd0. destruct (split64 n Hn) as (En & Hnh & Hnl). destruct (split64 d Hd) as (Ed & Hdh & Hdl).
  set (nh := u32 (Z.shiftr n 32)) in *. set (nl := u32 n) in *.
  set (dh := u32 (Z.shiftr d 32)) in *. set (dl := u32 d) in *.
  destruct (decide (0 < dh <= nh /\ ami_clz32 dh <> 0)) as [[Hle Hc]|Hno].
  { rewrite En, Ed at 1. rewrite udiv_norm by done. by rewrite <- En, <- Ed. }
  unfold __udivmoddi4. rewrite (proj2 (Z.eqb_neq d 0)) by done. fold nh nl dh dl. cbv zeta.
  destruct (Z.eqb_spec dh 0) as [Hz|Hz].
  { rewrite udiv_word by (done || word_lia). rewrite <- En. by replace dl with d by lia. }
  destruct (Z.ltb_spec nh dh) as [Hlt|Hge].
  { rewrite Z.div_small, Z.mod_small by word_lia. done. }
  assert (Hdh0 : 0 < dh) by word_lia. destruct (clz32_spec dh Hdh0 Hdh) as [Hc Hn1].
  destruct (Z.eqb_spec (ami_clz32 dh) 0) as [Hz0|Hnz]; [|exfalso; apply Hno; split; [lia|done]].
  rewrite Hz0 in Hn1. rewrite udiv_top by (done || lia). by rewrite <- En, <- Ed.
Qed.

(** ** What the entry points compute *)

(** C37 The 64-bit unsigned divide and modulo are exact for every numerator and
    every divisor but zero, and a zero divisor gives all ones and remainder zero
    instead of a trap; no correction loop runs on. *)
Theorem udivdi3_correct n d :
  is_u64 n -> is_u64 d ->
  __udivdi3 n d = Val (if d =? 0 then 2 ^ 64 - 1 else n / d) /\
  __umoddi3 n d = Val (if d =? 0 then 0 else n mod d).
Proof.
  intros Hn Hd. unfold __udivdi3, __umoddi3. destruct (Z.eqb_spec d 0) as [->|Hd0]; [done|].
  by rewrite udivmoddi4_spec.
Qed.

Lemma udivdi3_correct_witness :
  __udivdi3 0xFEDCBA9876543210 0x123456789 = Val 0xE0000000 /\
  __umoddi3 0xFEDCBA9876543210 0x123456789 = Val 0x96543210.
Proof.
  destruct (udivdi3_correct 0xFEDCBA9876543210 0x123456789) as [-> ->]; [word_lia|word_lia|]. by vm_compute.
Defined.

(** Signed values. *)
Definition is_s64 (z : Z) : Prop := - 2 ^ 63 <= z < 2 ^ 63.
Definition is_s32 (z : Z) : Prop := - 2 ^ 31 <= z < 2 ^ 31.

Lemma sext_small w z : 0 < w -> - 2 ^ (w - 1) <= z < 2 ^ (w - 1) -> sext w z = z.
Proof.
  intros Hw Hz. unfold sext.
  assert (E : 2 ^ w = 2 * 2 ^ (w - 1)) by (rewrite <- Z.pow_succ_r by lia; f_equal; lia).
  destruct (Z_lt_ge_dec z 0).
  - rewrite <- (Z.mod_unique_pos z (2 ^ w) (-1) (z + 2 ^ w)) by lia. destruct (Z.ltb_spec (z + 2 ^ w) (2 ^ (w - 1))); lia.
  - rewrite Z.mod_small by lia. destruct (Z.ltb_spec z (2 ^ (w - 1))); lia.
Qed.

(** The magnitude of a signed value, as the negation leaves it. *)
Lemma magnitude64 z : is_s64 z -> u64 (if z <? 0 then s64 (- z) else z) = Z.abs z.
Proof.
  intros Hz. unfold is_s64 in Hz. destruct (Z.ltb_spec z 0); [|word_lia].
  destruct (Z.eq_dec z (- 2 ^ 63)) as [->|]; [done|].
  unfold s64. rewrite sext_small by (simpl; lia). word_lia.
Qed.
Lemma magnitude32 z : is_s32 z -> u32 (if z <? 0 then s32 (- z) else z) = Z.abs z.
Proof.
  intros Hz. unfold is_s32 in Hz. destruct (Z.ltb_spec z 0); [|word_lia].
  destruct (Z.eq_dec z (- 2 ^ 31)) as [->|]; [done|].
  unfold s32. rewrite sext_small by (simpl; lia). word_lia.
Qed.

Lemma sext_neg w z : 0 < w -> sext w (- sext w z) = sext w (- z).
Proof.
  intros Hw. unfold sext at 1 3. replace ((- sext w z) mod 2 ^ w) with ((- z) mod 2 ^ w); [done|].
  pose proof (Z.pow_pos_nonneg 2 w ltac:(lia) ltac:(lia)) as Hp.
  unfold sext. pose proof (Z.div_mod z (2 ^ w) ltac:(lia)) as E.
  destruct (_ <? _); rewrite E at 1.
  - replace (- (2 ^ w * (z / 2 ^ w) + z mod 2 ^ w)) with (- (z mod 2 ^ w) + (- (z / 2 ^ w)) * 2 ^ w) by ring.
    by rewrite Z.mod_add by lia.
  - replace (- (2 ^ w * (z / 2 ^ w) + z mod 2 ^ w)) with
      (- (z mod 2 ^ w - 2 ^ w) + (- (z / 2 ^ w) - 1) * 2 ^ w) by ring.
    by rewrite Z.mod_add by lia.
Qed.

(** Truncating division from the magnitudes and the signs. *)
Lemma quot_abs n d : d <> 0 ->
  Z.quot n d = (if xorb (n <? 0) (d <? 0) then - (Z.abs n / Z.abs d) else Z.abs n / Z.abs d) /\
  Z.rem n d = (if n <? 0 then - (Z.abs n mod Z.abs d) else Z.abs n mod Z.abs d).
Proof.
  intros Hd.
  assert (Hq : Z.quot (Z.abs n) (Z.abs d) = Z.abs n / Z.abs d) by (apply Z.quot_div_nonneg; lia).
  assert (Hr : Z.rem (Z.abs n) (Z.abs d) = Z.abs n mod Z.abs d) by (apply Z.rem_mod_nonneg; lia).
  rewrite <- Hq, <- Hr. destruct (Z.ltb_spec n 0), (Z.ltb_spec d 0); simpl;
    rewrite ?(Z.abs_neq n), ?(Z.abs_neq d), ?(Z.abs_eq n), ?(Z.abs_eq d) by lia;
    rewrite ?Z.quot_opp_opp, ?Z.quot_opp_l, ?Z.quot_opp_r, ?Z.rem_opp_opp, ?Z.rem_opp_l, ?Z.rem_opp_r by lia;
    lia.
Qed.

(** Signed 64-bit division truncates toward zero and the remainder takes the
    sign of the numerator, for every pair of operands with a divisor that is not
    zero; the one quotient that does not fit, of the least value by -1, wraps. *)
Theorem divdi3_correct n d :
  is_s64 n -> is_s64 d -> d <> 0 ->
  __divdi3 n d = Val (s64 (Z.quot n d)) /\ __moddi3 n d = Val (Z.rem n d).
Proof.
  intros Hn Hd Hd0. pose proof (magnitude64 n Hn) as Mn. pose proof (magnitude64 d Hd) as Md.
  destruct (quot_abs n d Hd0) as [-> ->]. unfold is_s64 in *.
  assert (Hrem : 0 <= Z.abs n mod Z.abs d < Z.abs d) by (apply Z.mod_pos_bound; lia).
  assert (Hs : s64 (Z.abs n mod Z.abs d) = Z.abs n mod Z.abs d) by (apply sext_small; simpl; lia).
  assert (Hs' : s64 (- (Z.abs n mod Z.abs d)) = - (Z.abs n mod Z.abs d)) by (apply sext_small; simpl; lia).
  unfold __divdi3, __moddi3.
  destruct (n <? 0), (d <? 0); cbn [negb xorb]; rewrite Mn, Md, udivmoddi4_spec by word_lia; cbn [obind];
    rewrite ?Hs, ?Hs'; (split; [|done]); try done; unfold s64; by rewrite sext_neg.
Qed.

Lemma divdi3_correct_witness :
  __divdi3 (-7) 2 = Val (s64 (Z.quot (-7) 2)) /\ __moddi3 (-7) 2 = Val (Z.rem (-7) 2).
Proof. apply (divdi3_correct (-7) 2); [unfold is_s64; lia|unfold is_s64; lia|discriminate]. Defined.

Lemma udivmodsi_spec n d :
  is_u32 n -> is_u32 d -> d <> 0 -> ami_udivmodsi n d = Val (n / d, n mod d).
Proof.
  intros Hn Hd Hd0. unfold ami_udivmodsi. rewrite (proj2 (Z.eqb_neq d 0)) by done.
  rewrite divu64_32_soft_spec by (done || word_lia). done.
Qed.

(** The 32-bit divides of the 68000 build: unsigned exact with the same answer
    for zero, signed truncating. *)
Theorem divsi3_correct n d :
  (is_u32 n -> is_u32 d ->
     __udivsi3 n d = Val (if d =? 0 then 2 ^ 32 - 1 else n / d) /\
     __umodsi3 n d = Val (if d =? 0 then 0 else n mod d)) /\
  (is_s32 n -> is_s32 d -> d <> 0 ->
     __divsi3 n d = Val (s32 (Z.quot n d)) /\ __modsi3 n d = Val (Z.rem n d)).
Proof.
  split.
  - intros Hn Hd. unfold __udivsi3, __umodsi3. destruct (Z.eqb_spec d 0) as [->|Hd0]; [done|].
    by rewrite udivmodsi_spec.
  - intros Hn Hd Hd0. pose proof (magnitude32 n Hn) as Mn. pose proof (magnitude32 d Hd) as Md.
    destruct (quot_abs n d Hd0) as [-> ->]. unfold is_s32 in *.
    assert (Hrem : 0 <= Z.abs n mod Z.abs d < Z.abs d) by (apply Z.mod_pos_bound; lia).
    assert (Hs : s32 (Z.abs n mod Z.abs d) = Z.abs n mod Z.abs d) by (apply sext_small; simpl; lia).
    assert (Hs' : s32 (- (Z.abs n mod Z.abs d)) = - (Z.abs n mod Z.abs d)) by (apply sext_small; simpl; lia).
    unfold __divsi3, __modsi3.
    destruct (n <? 0), (d <? 0); cbn [negb xorb]; rewrite Mn, Md, udivmodsi_spec by word_lia; cbn [obind];
      rewrite ?Hs, ?Hs'; (split; [|done]); try done; unfold s32; by rewrite sext_neg.
Qed.

Lemma divsi3_correct_witness :
  (__udivsi3 100 7 = Val 14 /\ __umodsi3 100 7 = Val 2) /\ __divsi3 (-100) 7 = Val (-14).
Proof.
  split; [apply (proj1 (divsi3_correct 100 7)); word_lia|].
  apply (proj2 (divsi3_correct (-100) 7)); [unfold is_s32; lia|unfold is_s32; lia|discriminate].
Defined.

(** ** Shifts *)

Lemma lshrdi3_spec v c : is_u64 v -> __lshrdi3 v c = Z.shiftr v (Z.max c 0).
Proof.
  intros Hv. destruct (split64 v Hv) as (Ev & Hh & Hl). unfold __lshrdi3. cbv zeta.
  set (hi := u32 (Z.shiftr v 32)) in *. set (lo := u32 v) in *.
  destruct (Z.leb_spec c 0); [by rewrite Z.max_r, Z.shiftr_0_r by lia|].
  rewrite Z.max_l, (Z.shiftr_div_pow2 v) by lia.
  destruct (Z.leb_spec 64 c).
  { rewrite Z.div_small; [done|]. pose proof (Z.pow_le_mono_r 2 64 c ltac:(lia) ltac:(lia)). word_lia. }
  destruct (Z.leb_spec 32 c).
  - rewrite Z.shiftr_div_pow2, Ev by lia. replace c with (32 + (c - 32)) at 2 by lia.
    rewrite Z.pow_add_r, <- Z.div_div by lia. f_equal. word_lia.
  - rewrite Z.lor_comm, shr64, <- Ev by (done || lia). done.
Qed.

Lemma ashldi3_spec v c : is_u64 v -> __ashldi3 v c = u64 (Z.shiftl v (Z.max c 0)).
Proof.
  intros Hv. destruct (split64 v Hv) as (Ev & Hh & Hl). unfold __ashldi3. cbv zeta.
  set (hi := u32 (Z.shiftr v 32)) in *. set (lo := u32 v) in *.
  destruct (Z.leb_spec c 0); [by rewrite Z.max_r, Z.shiftl_0_r, u64_small by (lia || done)|].
  rewrite Z.max_l, (Z.shiftl_mul_pow2 v) by lia.
  destruct (Z.leb_spec 64 c).
  { symmetry. replace c with (c - 64 + 64) by lia. rewrite Z.pow_add_r, Z.mul_assoc by lia.
    unfold u64. by rewrite Z.mod_mul. }
  destruct (Z.leb_spec 32 c).
  - rewrite !Z.shiftl_mul_pow2, Ev by lia. set (s := c - 32). replace c with (32 + s) by lia.
    rewrite Z.pow_add_r by lia.
    replace ((hi * 2 ^ 32 + lo) * (2 ^ 32 * 2 ^ s)) with (lo * 2 ^ s * 2 ^ 32 + hi * 2 ^ s * 2 ^ 64) by ring.
    set (x := lo * 2 ^ s). set (y := hi * 2 ^ s). clearbody x y. word_lia.
  - destruct (shift_split lo c Hl ltac:(lia)) as [El Hr].
    assert (Hc : Z.lor (hi <<w c) (Z.shiftr lo (32 - c)) = u32 (hi * 2 ^ c) + lo / 2 ^ (32 - c)).
    { replace (hi <<w c) with (Z.shiftl (hi mod 2 ^ (32 - c)) c).
      - rewrite Z.shiftr_div_pow2, lor_shift_add by lia. f_equal. unfold u32.
        replace (2 ^ 32) with (2 ^ (32 - c) * 2 ^ c) by (rewrite <- Z.pow_add_r by lia; f_equal; lia).
        rewrite Z.mul_mod_distr_r by lia. done.
      - rewrite !Z.shiftl_mul_pow2 by lia. unfold u32.
        replace (2 ^ 32) with (2 ^ (32 - c) * 2 ^ c) by (rewrite <- Z.pow_add_r by lia; f_equal; lia).
        by rewrite Z.mul_mod_distr_r by lia. }
    assert (Hm : exists k, hi * 2 ^ c = k * 2 ^ 32 + u32 (hi * 2 ^ c) /\ u32 (hi * 2 ^ c) + 2 ^ c <= 2 ^ 32).
    { exists (hi * 2 ^ c / 2 ^ 32). split; [word_lia|]. unfold u32.
      replace (2 ^ 32) with (2 ^ (32 - c) * 2 ^ c) by (rewrite <- Z.pow_add_r by lia; f_equal; lia).
      rewrite Z.mul_mod_distr_r by lia.
      pose proof (Z.mod_pos_bound hi (2 ^ (32 - c)) ltac:(lia)). nia. }
    destruct Hm as (k & Ek & Hk). pose proof (u32_range (hi * 2 ^ c)) as Hu.
    rewrite Hc, join64_add, (Z.shiftl_mul_pow2 lo) by (word_lia || apply u32_range || lia).
    assert (E : v * 2 ^ c = (hi * 2 ^ c) * 2 ^ 32 + lo * 2 ^ c) by (rewrite Ev at 1; ring).
    pose proof (u32_range (lo * 2 ^ c)) as Hx.
    set (x := u32 (lo * 2 ^ c)) in *. clearbody x. rewrite E, El.
    unfold u64. apply (Z.mod_unique_pos _ _ k); unfold is_u32 in *; lia.
Qed.

Lemma ashrdi3_spec v c : is_s64 v -> __ashrdi3 v c = Z.shiftr v (Z.max c 0).
Proof.
  intros Hv. unfold is_s64 in Hv. unfold __ashrdi3. cbv zeta.
  destruct (Z.leb_spec c 0); [by rewrite Z.max_r, Z.shiftr_0_r by lia|].
  rewrite Z.max_l, (Z.shiftr_div_pow2 v) by lia.
  assert (Hhi : s32 (u32 (Z.shiftr (u64 v) 32)) = v / 2 ^ 32).
  { rewrite Z.shiftr_div_pow2 by lia. unfold s32, sext. bcase; word_lia. }
  rewrite Hhi. destruct (Z.leb_spec 64 c).
  { pose proof (Z.pow_le_mono_r 2 64 c ltac:(lia) ltac:(lia)) as Hp.
    destruct (Z.ltb_spec v 0); [|by rewrite Z.div_small by lia].
    apply (Z.div_unique_pos _ _ _ (v + 2 ^ c)); lia. }
  destruct (Z.leb_spec 32 c).
  { rewrite Z.shiftr_div_pow2 by lia. replace c with (32 + (c - 32)) at 2 by lia.
    by rewrite Z.pow_add_r, <- Z.div_div by lia. }
  set (hi := v / 2 ^ 32) in *. set (lo := u32 (u64 v)).
  assert (Ev : v = hi * 2 ^ 32 + lo) by (unfold hi, lo; word_lia).
  assert (Hlo : is_u32 lo) by apply u32_range. assert (Hb : - 2 ^ 31 <= hi < 2 ^ 31) by (unfold hi; word_lia).
  pose proof (Z.pow_pos_nonneg 2 c ltac:(lia) ltac:(lia)) as Pc.
  rewrite Z.shiftr_div_pow2 by lia. clearbody hi lo. subst v.
  pose proof (shr64 (u32 hi) lo c (u32_range hi) Hlo ltac:(lia)) as E. rewrite Z.lor_comm in E.
  assert (HL : is_u32 (Z.lor (Z.shiftr lo c) (u32 hi <<w (32 - c)))).
  { apply u32_lor; [by apply u32_shiftr; [|lia]|apply u32_range]. }
  set (L := Z.lor _ _) in *. clearbody L.
  rewrite join64_add in E by (done || (apply u32_shiftr; [apply u32_range|lia])).
  rewrite join64_add by (done || apply u32_range). rewrite Z.shiftr_div_pow2 in E by lia.
  assert (E32 : 2 ^ 32 = 2 ^ (32 - c) * 2 ^ c) by (rewrite <- Z.pow_add_r by lia; f_equal; lia).
  assert (Hq : - 2 ^ 31 <= hi / 2 ^ c < 2 ^ 31).
  { split; [apply Z.div_le_lower_bound|apply Z.div_lt_upper_bound]; nia. }
  assert (Hx : hi / 2 ^ c * 2 ^ 32 + L = (hi * 2 ^ 32 + lo) / 2 ^ c).
  { assert (Hu : exists k, u32 hi = hi + k * (2 ^ (32 - c) * 2 ^ c)).
    { exists (- (hi / 2 ^ 32)). rewrite <- E32. word_lia. }
    destruct Hu as [k Hu]. rewrite Hu in E. rewrite Z.mul_assoc, Z.div_add in E by lia.
    replace ((hi + k * 2 ^ (32 - c) * 2 ^ c) * 2 ^ 32 + lo) with
      (hi * 2 ^ 32 + lo + k * 2 ^ (32 - c) * 2 ^ 32 * 2 ^ c) in E by ring.
    rewrite Z.div_add in E by lia. lia. }
  rewrite <- Hx. unfold s64, sext. unfold is_u32 in HL.
  replace ((u32 (hi / 2 ^ c) * 2 ^ 32 + L) mod 2 ^ 64) with ((hi / 2 ^ c * 2 ^ 32 + L) mod 2 ^ 64) by word_lia.
  apply (sext_small 64); [lia|]. simpl. lia.
Qed.

(** The three 64-bit shifts agree with the mathematical ones for every count:
    a count below zero or zero leaves the value, one of 64 or more shifts every
    bit out (the sign stays for the arithmetic shift), and the counts between move
    bits across the two words. *)
Theorem shifts_correct v w c :
  is_u64 v -> is_s64 w ->
  __lshrdi3 v c = Z.shiftr v (Z.max c 0) /\
  __ashldi3 v c = u64 (Z.shiftl v (Z.max c 0)) /\
  __ashrdi3 w c = Z.shiftr w (Z.max c 0).
Proof. intros Hv Hw. split_and!; [by apply lshrdi3_spec|by apply ashldi3_spec|by apply ashrdi3_spec]. Qed.

Lemma shifts_correct_witness :
  __lshrdi3 0x8000000000000001 33 = 0x40000000 /\ __ashldi3 0x8000000000000001 33 = 0x200000000 /\
  __ashrdi3 (-5) 33 = -1.
Proof.
  destruct (shifts_correct 0x8000000000000001 (-5) 33) as (-> & -> & ->);
    [word_lia|unfold is_s64; lia|by vm_compute].
Defined.
