(* ===== verification/CString.v ===== *)
(** C strings and the digit loops the text parsers share.

    A [const char *] that is only read is the list of the bytes from it on: [chr]
    is [*s], [tl] is [s + 1], and the end of the list reads as the terminating
    NUL.  Every loop of the sources tests characters that a NUL is not, so a NUL
    inside the list stops them as it would in memory.  A [char] is its unsigned
    value: the parsers compare it with ASCII characters only, and no byte of 128
    or more passes one of those tests, whichever signedness [char] has. *)

From Stdlib Require Import ZArith Lia String Ascii.
From stdpp Require Import base numbers list strings.
From S2P Require Import Prelude.
#[local] Open Scope Z_scope.

Definition chr (s : list Z) : Z := match s with c :: _ => c | [] => 0 end.

(** A literal of the sources. *)
Definition str (s : string) : list Z :=
  map (fun a => Z.of_nat (nat_of_ascii a)) (list_ascii_of_string s).

(** The bytes of a C string: none is the terminator. *)
Definition cstring (s : list Z) : Prop := Forall (fun c => 0 < c < 256) s.

Definition is_blank (c : Z) : bool := (c =? 32) || (c =? 9).

(** [while (p( *s)) s++]. *)
Fixpoint skip_while (p : Z -> bool) (s : list Z) : list Z :=
  match s with
  | c :: r => if p c then skip_while p r else s
  | [] => []
  end.

(** ** Digits *)

Definition dec_digit (c : Z) : option Z :=
  if (48 <=? c) && (c <=? 57) then Some (c - 48) else None.

Definition hex_digit (c : Z) : option Z :=
  if (48 <=? c) && (c <=? 57) then Some (c - 48)
  else if (97 <=? c) && (c <=? 102) then Some (c - 97 + 10)
  else if (65 <=? c) && (c <=? 70) then Some (c - 65 + 10)
  else None.

(** The accumulation every bounded number of the sources is read with:
    [if (value > (max - digit) / base) return FALSE; value = value * base + digit;]
    up to the first character that is not a digit.  The counter of digits cannot
    wrap: a string is shorter than the address space. *)
Fixpoint accumulate (digit : Z -> option Z) (max base value digits : Z) (s : list Z)
  : option (Z * Z * list Z) :=
  match digit (chr s), s with
  | Some d, _ :: r =>
      if (max - d) / base <? value then None
      else accumulate digit max base (u32 (value * base + d)) (digits + 1) r
  | _, _ => Some (value, digits, s)
  end.

(** The digits at the head of a text and what follows them. *)
Fixpoint dspan (digit : Z -> option Z) (s : list Z) : list Z * list Z :=
  match s with
  | c :: r => match digit c with
              | Some d => let '(ds, t) := dspan digit r in (d :: ds, t)
              | None => ([], s)
              end
  | [] => ([], [])
  end.

(** The number digits spell, and the text of digits. *)
Fixpoint dval (base acc : Z) (ds : list Z) : Z :=
  match ds with [] => acc | d :: r => dval base (acc * base + d) r end.

Definition digit_set (digit : Z -> option Z) (base : Z) : Prop :=
  forall c d, digit c = Some d -> 0 <= d < base /\ c <> 0 /\ is_blank c = false.

Lemma dec_digit_set base : 10 <= base -> digit_set dec_digit base.
Proof. intros Hb c d. unfold dec_digit, is_blank. bcases; intros [= <-]; split_and!; try lia; done. Qed.
Lemma hex_digit_set : digit_set hex_digit 16.
Proof. intros c d. unfold hex_digit, is_blank. bcases; intros [= <-]; split_and!; try lia; done. Qed.

Lemma dval_mono base acc ds : 1 <= base -> 0 <= acc -> Forall (fun d => 0 <= d) ds -> acc <= dval base acc ds.
Proof.
  intros Hb. revert acc. induction ds as [|d ds IH]; intros acc Ha Hd; simpl; [lia|].
  inversion Hd; subst. apply Z.le_trans with (acc * base + d); [nia|]. apply IH; [nia|done].
Qed.

Lemma dval_app base acc a b : dval base acc (a ++ b) = dval base (dval base acc a) b.
Proof. revert acc. induction a; intros; simpl; auto. Qed.

(** The characters [cs] spell the digits [ds]. *)
Definition spells (digit : Z -> option Z) (cs ds : list Z) : Prop :=
  Forall2 (fun c d => digit c = Some d) cs ds.

Lemma spells_digits digit base cs ds :
  digit_set digit base -> spells digit cs ds -> Forall (fun d => 0 <= d < base) ds.
Proof.
  intros Hset H. induction H as [|c d cs ds Hc _ IH]; constructor; [|done].
  by destruct (Hset c d Hc).
Qed.

Lemma spells_nonneg digit base cs ds :
  digit_set digit base -> spells digit cs ds -> Forall (fun d => 0 <= d) ds.
Proof. intros Hset H. eapply Forall_impl; [by eapply spells_digits|]. simpl. lia. Qed.

Section Accumulate.
Context (digit : Z -> option Z) (base max : Z).
Hypothesis Hdigit : digit_set digit base.
Hypothesis Hbase : 1 <= base.
Hypothesis Hmax : base - 1 <= max < 2 ^ 32.

Lemma dspan_digits s : Forall (fun d => 0 <= d < base) (fst (dspan digit s)).
Proof.
  induction s as [|c r IH]; simpl; [constructor|].
  destruct (digit c) as [d|] eqn:E; [|constructor].
  destruct (dspan digit r) as [ds t]. constructor; [apply (Hdigit c d E)|done].
Qed.

Lemma dspan_nonneg s : Forall (fun d => 0 <= d) (fst (dspan digit s)).
Proof. eapply Forall_impl; [apply dspan_digits|]. simpl. lia. Qed.

(** The bounded accumulation reads the digits at the head of the text, and
    refuses exactly the numbers above the bound: nothing wraps. *)
Lemma accumulate_spec value digits s :
  0 <= value <= max ->
  accumulate digit max base value digits s =
    (let '(ds, t) := dspan digit s in
     if dval base value ds <=? max then Some (dval base value ds, digits + Z.of_nat (length ds), t)
     else None).
Proof.
  revert value digits. induction s as [|c r IH]; intros value digits Hv; simpl.
  { destruct (digit 0) as [d|]; (rewrite (proj2 (Z.leb_le _ _)) by lia); by rewrite Z.add_0_r. }
  destruct (digit c) as [d|] eqn:E.
  2: { simpl. rewrite (proj2 (Z.leb_le _ _)) by lia. by rewrite Z.add_0_r. }
  destruct (Hdigit c d E) as (Hd & _). pose proof (dspan_nonneg r) as Hn.
  specialize (IH (value * base + d) (digits + 1)). destruct (dspan digit r) as [ds t]. simpl in *.
  destruct (Z.ltb_spec ((max - d) / base) value) as [Hlt|Hge].
  - pose proof (dval_mono base (value * base + d) ds Hbase ltac:(nia) Hn).
    assert (max < value * base + d).
    { destruct (Z_lt_ge_dec max (value * base + d)); [done|].
      assert (value <= (max - d) / base); [|lia]. apply Z.div_le_lower_bound; nia. }
    by rewrite (proj2 (Z.leb_gt _ _)) by lia.
  - assert (Hb : value * base + d <= max).
    { pose proof (Z.mul_div_le (max - d) base ltac:(lia)).
      pose proof (Z.mul_le_mono_nonneg_l value _ base ltac:(lia) Hge). lia. }
    rewrite u32_small by (split; nia). rewrite IH by (split; nia).
    destruct (dval base (value * base + d) ds <=? max); [|done]. do 3 f_equal. lia.
Qed.
End Accumulate.

(** A text that starts with the characters [cs] of the digits [ds]. *)
Lemma dspan_app digit cs ds t :
  spells digit cs ds -> digit (chr t) = None -> dspan digit (cs ++ t) = (ds, t).
Proof.
  intros H Ht. induction H as [|c d cs ds Hc _ IH]; simpl.
  - destruct t as [|c r]; [done|]. simpl in *. by rewrite Ht.
  - by rewrite Hc, IH.
Qed.

Lemma dspan_inv digit s :
  exists cs, s = cs ++ snd (dspan digit s) /\ spells digit cs (fst (dspan digit s)).
Proof.
  induction s as [|c r [cs [E F]]]; simpl; [exists []; by split; [|constructor]|].
  destruct (digit c) as [d|] eqn:Ed; [|exists []; by split; [|constructor]].
  destruct (dspan digit r) as [ds t]. simpl in *. exists (c :: cs). rewrite E at 1. by split; [|constructor].
Qed.

Lemma dspan_stop digit s : digit 0 = None -> digit (chr (snd (dspan digit s))) = None.
Proof.
  intros H0. induction s as [|c r IH]; simpl; [done|].
  destruct (digit c) as [d|] eqn:Ed; [|done]. by destruct (dspan digit r).
Qed.

(** ** Blanks *)

Definition blanks (s : list Z) : Prop := Forall (fun c => is_blank c = true) s.

Lemma skip_blanks_app p b s :
  Forall (fun c => p c = true) b -> p (chr s) = false -> skip_while p (b ++ s) = s.
Proof.
  intros Hb Hs. induction Hb as [|c b Hc _ IH]; simpl.
  - destruct s as [|c r]; [done|]. simpl in *. by rewrite Hs.
  - by rewrite Hc.
Qed.

Lemma skip_while_inv p s :
  exists b, s = b ++ skip_while p s /\ Forall (fun c => p c = true) b.
Proof.
  induction s as [|c r [b [E F]]]; simpl; [by exists []|].
  destruct (p c) eqn:Hc; [|by exists []]. exists (c :: b). simpl. rewrite <- E. by split; [|constructor].
Qed.

Lemma skip_while_stop p s : p 0 = false -> p (chr (skip_while p s)) = false.
Proof.
  intros H0. induction s as [|c r IH]; simpl; [done|]. by destruct (p c) eqn:Hc.
Qed.

(** A string is exhausted where its terminator is read. *)
Lemma chr_nul s : cstring s -> chr s = 0 -> s = [].
Proof. intros Hs H. destruct s as [|c r]; [done|]. inversion Hs; simpl in *; lia. Qed.

Lemma cstring_app a b : cstring (a ++ b) <-> cstring a /\ cstring b.
Proof. apply Forall_app. Qed.

(** ** Codecs

    What a printer and a parser of the same values promise to the code that uses
    both: every value that is [codec_ok] prints, inside the space a caller has to
    provide, and the parser reads the text back as that value. *)
Class TextCodec {A : Type} (ok : A -> Prop) (format : A -> outcome (list Z))
    (parse : list Z -> option A) (bound : nat) : Prop := {
  codec_prints : forall a, ok a -> exists s, format a = Val s /\ cstring s /\ (length s <= bound)%nat;
  codec_reads : forall a s, ok a -> format a = Val s -> parse s = Some a }.

(** A property of every byte, checked on each of them. *)
Lemma every_byte (P : Z -> bool) :
  forallb P (map Z.of_nat (seq 0 256)) = true -> forall v, 0 <= v <= 255 -> P v = true.
Proof.
  intros H v Hv. rewrite forallb_forall in H. apply H. apply in_map_iff. exists (Z.to_nat v).
  split; [lia|]. apply in_seq. lia.
Qed.
