(* ===== verification/ConfigText.v ===== *)
(** The read-only text layer of the configuration parsers
    ([src/config/config_text.c]): string helpers, diagnostics, numbers, MAC and
    IPv4 addresses.  The line reader and the tokeniser, which edit their buffer,
    are in [ConfigLine].

    An out-parameter the source may leave NULL is part of the result here; a
    caller that passes NULL drops it. *)

From Stdlib Require Import ZArith Lia String.
From stdpp Require Import base numbers list strings.
From S2P Require Import Prelude CString.
#[local] Open Scope Z_scope.

(** ** String helpers *)

(** A [char *] or NULL. *)
Abbreviation nullable := (option (list Z)).

(** Consecutive bytes written to a buffer, [Fault] when one is outside it. *)
Definition store_at (buf : list Z) (off : Z) (bs : list Z) : outcome (list Z) :=
  if (0 <=? off) && (off + Z.of_nat (length bs) <=? Z.of_nat (length buf))
  then Val (splice buf off bs) else Fault.

Fixpoint ami_cfg_strlen (s : list Z) : Z :=
  match s with
  | c :: r => if c =? 0 then 0 else 1 + ami_cfg_strlen r
  | [] => 0
  end.

Definition ami_cfg_zero (buf : list Z) (len : Z) : outcome (list Z) :=
  store_at buf 0 (replicate (Z.to_nat len) 0).

Definition to_lower (c : Z) : Z := if (65 <=? c) && (c <=? 90) then c + 32 else c.

Fixpoint ami_cfg_stricmp (a b : list Z) : Z :=
  match a, b with
  | ca :: ra, cb :: rb =>
      if negb (ca =? 0) && negb (cb =? 0) then
        if negb (to_lower ca =? to_lower cb) then to_lower ca - to_lower cb
        else ami_cfg_stricmp ra rb
      else to_lower ca - to_lower cb
  | _, _ => to_lower (chr a) - to_lower (chr b)
  end.

(** The bytes a copy bounded by [dstlen] moves: [i + 1 < dstlen && *src != 0]. *)
Fixpoint copy_loop (dstlen i : Z) (src : list Z) : list Z :=
  match src with
  | c :: r => if (i + 1 <? dstlen) && negb (c =? 0) then c :: copy_loop dstlen (i + 1) r else []
  | [] => []
  end.

Definition ami_cfg_copy_string (dst : nullable) (dstlen : Z) (src : nullable) : outcome nullable :=
  match dst with
  | None => Val None
  | Some d =>
      if dstlen =? 0 then Val (Some d)
      else let! d := store_at d 0 (copy_loop dstlen 0 (default [] src) ++ [0]) in Val (Some d)
  end.

Fixpoint join_parts (dstlen pos : Z) (parts : list nullable) : list Z :=
  match parts with
  | [] => []
  | None :: r => join_parts dstlen pos r
  | Some src :: r =>
      let put := copy_loop dstlen pos src in
      put ++ join_parts dstlen (pos + Z.of_nat (length put)) r
  end.

Definition ami_cfg_join3 (dst : nullable) (dstlen : Z) (a b c : nullable) : outcome nullable :=
  match dst with
  | None => Val None
  | Some d =>
      if dstlen =? 0 then Val (Some d)
      else let! d := store_at d 0 (join_parts dstlen 0 [a; b; c] ++ [0]) in Val (Some d)
  end.

(** ** Diagnostics *)

Record AmiCfgProblem := {
  cp_file : list Z; cp_line : Z; cp_severity : Z; cp_text : nullable; cp_text_code : Z;
  cp_hint : Z; cp_hint_text : nullable }.

(** The file-scope variables; [ds_reports] is what the reporter was called with,
    with its user pointer, latest first. *)
Record diag_state := {
  ds_reporter : option Z; ds_user : Z; ds_file : list Z; ds_reports : list (AmiCfgProblem * Z) }.

Definition diag_state0 : diag_state :=
  {| ds_reporter := None; ds_user := 0; ds_file := str "the configuration"; ds_reports := [] |}.

Definition ami_config_set_reporter (reporter : option Z) (user : Z) (d : diag_state) : diag_state :=
  {| ds_reporter := reporter; ds_user := user; ds_file := ds_file d; ds_reports := ds_reports d |}.

Definition ami_cfg_problem_file (path : nullable) (d : diag_state) : diag_state :=
  {| ds_reporter := ds_reporter d; ds_user := ds_user d;
     ds_file := default (str "the configuration") path; ds_reports := ds_reports d |}.

Definition ami_cfg_problems_wanted (d : diag_state) : bool :=
  match ds_reporter d with Some _ => true | None => false end.

Definition report (p : AmiCfgProblem) (d : diag_state) : diag_state :=
  {| ds_reporter := ds_reporter d; ds_user := ds_user d; ds_file := ds_file d;
     ds_reports := (p, ds_user d) :: ds_reports d |}.

Definition ami_cfg_problem (line severity : Z) (text : nullable) (hint : Z) (d : diag_state) : diag_state :=
  match ds_reporter d, text with
  | Some _, Some _ =>
      report {| cp_file := ds_file d; cp_line := line; cp_severity := severity; cp_text := text;
                cp_text_code := 0; cp_hint := hint; cp_hint_text := None |} d
  | _, _ => d
  end.

Definition AMI_CFG_ADVICE_NONE : Z := 0.

Definition ami_cfg_problem_built (line severity : Z) (text hint : nullable) (d : diag_state) : diag_state :=
  match ds_reporter d, text with
  | Some _, Some _ =>
      report {| cp_file := ds_file d; cp_line := line; cp_severity := severity; cp_text := text;
                cp_text_code := 0; cp_hint := AMI_CFG_ADVICE_NONE; cp_hint_text := hint |} d
  | _, _ => d
  end.

Definition ami_cfg_problem_code (line severity text hint : Z) (d : diag_state) : diag_state :=
  match ds_reporter d with
  | Some _ =>
      if text =? 0 then d
      else report {| cp_file := ds_file d; cp_line := line; cp_severity := severity; cp_text := None;
                     cp_text_code := text; cp_hint := hint; cp_hint_text := None |} d
  | None => d
  end.

(** ** Numbers *)

Definition ULONG_MAX : Z := 2 ^ 32 - 1.

Definition ulong_digit (base c : Z) : option Z :=
  if (48 <=? c) && (c <=? 57) then Some (c - 48)
  else if (base =? 16) && (97 <=? c) && (c <=? 102) then Some (c - 97 + 10)
  else if (base =? 16) && (65 <=? c) && (c <=? 70) then Some (c - 65 + 10)
  else None.

Definition ami_cfg_parse_ulong (s : nullable) : option Z :=
  match s with
  | None => None
  | Some s =>
      let s := skip_while is_blank s in
      let '(base, s) :=
        if (chr s =? 48) && ((chr (tl s) =? 120) || (chr (tl s) =? 88)) then (16, tl (tl s)) else (10, s) in
      match accumulate (ulong_digit base) ULONG_MAX base 0 0 s with
      | None => None
      | Some (value, digits, s) =>
          let s := skip_while is_blank s in
          if (digits =? 0) || negb (chr s =? 0) then None else Some value
      end
  end.

Definition ami_cfg_parse_long (s : nullable) : option Z :=
  match s with
  | None => None
  | Some s =>
      let s := skip_while is_blank s in
      let '(negative, s) :=
        if (chr s =? 45) || (chr s =? 43) then (chr s =? 45, tl s) else (false, s) in
      match ami_cfg_parse_ulong (Some s) with
      | None => None
      | Some magnitude =>
          if negative then
            if 0x80000000 <? magnitude then None
            else Some (if magnitude =? 0x80000000 then s32 0x80000000 else - magnitude)
          else if 0x7FFFFFFF <? magnitude then None
          else Some (s32 magnitude)
      end
  end.

Definition AMI_CFG_MAC_SIZE : nat := 6.

(** The two digits of one byte. *)
Fixpoint mac_byte (digits : nat) (byte : Z) (s : list Z) : option (Z * list Z) :=
  match digits with
  | O => Some (byte, s)
  | S n => match hex_digit (chr s) with
           | None => None
           | Some nibble => mac_byte n (Z.lor (byte <<w 4) nibble) (tl s)
           end
  end.

(** The bytes still to read; [first] is [i == 0]. *)
Fixpoint mac_loop (left : nat) (first : bool) (out : list Z) (s : list Z) : option (list Z * list Z) :=
  match left with
  | O => Some (out, s)
  | S n =>
      let s := if negb first && ((chr s =? 58) || (chr s =? 45)) then tl s else s in
      match mac_byte 2 0 s with
      | None => None
      | Some (byte, s) => mac_loop n false (out ++ [u8 byte]) s
      end
  end.

(** What the caller's array holds when the parse fails is not looked at. *)
Definition ami_cfg_parse_mac (s : nullable) : option (list Z) :=
  match s with
  | None => None
  | Some s =>
      match mac_loop AMI_CFG_MAC_SIZE true [] s with
      | None => None
      | Some (out, s) => if chr s =? 0 then Some out else None
      end
  end.

Definition bool_yes : list (list Z) := [str "yes"; str "true"; str "on"; str "1"].
Definition bool_no : list (list Z) := [str "no"; str "false"; str "off"; str "0"].

Definition ami_cfg_parse_bool (s : nullable) : option bool :=
  match s with
  | None => None
  | Some s =>
      if existsb (fun y => ami_cfg_stricmp s y =? 0) bool_yes then Some true
      else if existsb (fun n => ami_cfg_stricmp s n =? 0) bool_no then Some false
      else None
  end.

(** ** IPv4 addresses *)

(** The parts of a dotted number; [room] is [4 - count]. *)
Fixpoint split_parts (room : nat) (parts : list Z) (s : list Z) : option (list Z * list Z) :=
  match accumulate dec_digit 255 10 0 0 s with
  | None => None
  | Some (value, digits, s) =>
      match room with
      | O => None
      | S room =>
          if digits =? 0 then None
          else
            let parts := parts ++ [value] in
            if chr s =? 46 then split_parts room parts (tl s) else Some (parts, s)
      end
  end.

(** [None] is the return of 0. *)
Definition split_dotted (s : nullable) : option (list Z) :=
  match s with
  | None => None
  | Some s =>
      let s := skip_while is_blank s in
      if chr s =? 0 then None
      else match split_parts 4 [] s with
           | None => None
           | Some (parts, s) =>
               let s := skip_while is_blank s in
               if chr s =? 0 then Some parts else None
           end
  end.

Definition ami_config_parse_ip (text : nullable) : option Z :=
  match split_dotted text with
  | Some [p0; p1; p2; p3] =>
      Some (Z.lor (Z.lor (Z.lor (p0 <<w 24) (p1 <<w 16)) (p2 <<w 8)) p3)
  | _ => None
  end.

Definition ami_cfg_parse_net_number (s : nullable) : option Z :=
  match split_dotted s with
  | None => None
  | Some parts => Some (fold_left (fun value p => Z.lor (value <<w 8) p) parts 0)
  end.

(** [do digits[n++] = '0' + v % 10; while ((v /= 10) != 0)] with room for [room]
    digits; the digits come out latest first, as [while (n > 0)] writes them. *)
Fixpoint dec_digits (room : nat) (v : Z) (out : list Z) : outcome (list Z) :=
  match room with
  | O => Fault
  | S room =>
      let out := (48 + v mod 10) :: out in
      let v := v / 10 in
      if v =? 0 then Val out else dec_digits room v out
  end.

(** The octets from [octet] down to 0. *)
Fixpoint format_octets (octet : nat) (addr : Z) : outcome (list Z) :=
  let! digits := dec_digits 3 (Z.land (Z.shiftr addr (Z.of_nat octet * 8)) 0xFF) [] in
  match octet with
  | O => Val digits
  | S o => let! rest := format_octets o addr in Val (digits ++ 46 :: rest)
  end.

(** The text, without the NUL; the value returned is its length. *)
Definition ami_format_ip4 (addr : Z) : outcome (list Z) := format_octets 3 addr.

Definition ami_config_format_ip (addr : Z) (buf : nullable) (buflen : Z) : outcome nullable :=
  match buf with
  | None => Val None
  | Some b =>
      if buflen =? 0 then Val (Some b)
      else let! text := ami_format_ip4 addr in
           let! tmp := store_at (replicate 16 0) 0 (text ++ [0]) in
           ami_cfg_copy_string (Some b) buflen (Some tmp)
  end.

(** [while ( *p is a digit && value <= 100000)]. *)
Fixpoint env_digits (value : Z) (p : list Z) : Z * list Z :=
  match p with
  | c :: r =>
      if (48 <=? c) && (c <=? 57) && (value <=? 100000)
      then env_digits (u32 (u32 (value * 10) + (c - 48))) r else (value, p)
  | [] => (value, [])
  end.

Definition is_env_blank (c : Z) : bool := (c =? 32) || (c =? 9) || (c =? 10) || (c =? 13).

Definition ami_cfg_env_number (text : list Z) (lo hi fallback : Z) : Z :=
  let p := skip_while is_blank text in
  if (chr p <? 48) || (57 <? chr p) then fallback
  else
    let '(value, p) := env_digits 0 p in
    let p := skip_while is_env_blank p in
    if negb (chr p =? 0) || (value <? lo) || (hi <? value) then fallback else value.

(** ** Numbers: the texts that are accepted, and what they mean *)

Lemma ulong_digit_set base : base = 10 \/ base = 16 -> digit_set (ulong_digit base) base.
Proof.
  intros Hb c d. unfold ulong_digit, is_blank.
  destruct Hb as [-> | ->]; simpl andb; bcases; intros [= <-]; split_and!; try lia; done.
Qed.

(** What the prefix of a number selects. *)
Definition number_prefix (pre : list Z) (base : Z) : Prop :=
  (pre = [] /\ base = 10) \/ ((pre = str "0x" \/ pre = str "0X") /\ base = 16).

(** An unsigned number as the configuration files spell it. *)
Definition ulong_text (s : list Z) (v : Z) : Prop :=
  exists b1 pre base cs ds b2,
    s = b1 ++ pre ++ cs ++ b2 /\ blanks b1 /\ blanks b2 /\ number_prefix pre base /\ cs <> [] /\
    spells (ulong_digit base) cs ds /\ v = dval base 0 ds.

Lemma number_base s :
  exists pre base t,
    (if (chr s =? 48) && ((chr (tl s) =? 120) || (chr (tl s) =? 88)) then (16, tl (tl s)) else (10, s)) =
      (base, t) /\ s = pre ++ t /\ number_prefix pre base.
Proof.
  destruct s as [|a [|b r]]; simpl.
  - exists [], 10, []. split_and!; [done..|by left].
  - exists [], 10, [a]. rewrite andb_false_r. split_and!; [done..|by left].
  - destruct (Z.eqb_spec a 48) as [->|]; [|exists [], 10, (a :: b :: r); split_and!; [done..|by left]].
    destruct (Z.eqb_spec b 120) as [->|]; simpl; [exists (str "0x"), 16, r; split_and!; [done..|right; auto]|].
    destruct (Z.eqb_spec b 88) as [->|]; [exists (str "0X"), 16, r; split_and!; [done..|right; auto]|].
    exists [], 10, (48 :: b :: r). split_and!; [done..|by left].
Qed.

(** The prefix is recognised back in a text that has one. *)
Lemma number_base_app pre base cs ds b2 :
  number_prefix pre base -> spells (ulong_digit base) cs ds -> blanks b2 ->
  let s := pre ++ cs ++ b2 in
  (if (chr s =? 48) && ((chr (tl s) =? 120) || (chr (tl s) =? 88)) then (16, tl (tl s)) else (10, s)) =
    (base, cs ++ b2).
Proof.
  intros Hp Hc Hb s. subst s. destruct Hp as [[-> ->]|[[-> | ->] ->]]; [|done..].
  assert (Hx : forall c d, ulong_digit 10 c = Some d -> (c =? 120) || (c =? 88) = false).
  { intros c d. unfold ulong_digit. simpl andb. bcases; try done. }
  assert (Hblank : forall r : list Z, blanks r -> (chr r =? 120) || (chr r =? 88) = false).
  { intros r Hr. destruct Hr as [|c r Hc' _]; [done|]. simpl. unfold is_blank in Hc'. revert Hc'. bcases; done. }
  destruct Hc as [|c d cs ds Hd Hc].
  - cbn [app]. destruct Hb as [|c r Hc' _]; [done|]. cbn [chr tl].
    unfold is_blank in Hc'. revert Hc'. bcases; done.
  - cbn [app chr tl]. destruct Hc as [|c' d' cs ds Hd' Hc]; cbn [app chr].
    + by rewrite Hblank, andb_false_r.
    + by rewrite (Hx c' d' Hd'), andb_false_r.
Qed.

Lemma blanks_nodigit base b : blanks b -> base = 10 \/ base = 16 -> ulong_digit base (chr b) = None.
Proof.
  intros Hb Hbase. destruct Hb as [|c r Hc _]; simpl.
  - by destruct Hbase as [-> | ->].
  - destruct (ulong_digit base c) as [d|] eqn:E; [|done].
    destruct (ulong_digit_set base Hbase c d E) as (_ & _ & H). by rewrite H in Hc.
Qed.

Lemma prefix_base pre base : number_prefix pre base -> base = 10 \/ base = 16.
Proof. intros [[_ ->]|[_ ->]]; auto. Qed.

Lemma skip_all b : blanks b -> skip_while is_blank b = [].
Proof. intros Hb. rewrite <- (app_nil_r b). by apply skip_blanks_app. Qed.

Lemma parse_ulong_spec s v :
  cstring s -> ami_cfg_parse_ulong (Some s) = Some v <-> ulong_text s v /\ v < 2 ^ 32.
Proof.
  intros Hs. unfold ami_cfg_parse_ulong. split.
  - destruct (skip_while_inv is_blank s) as (b1 & E1 & Hb1).
    set (s1 := skip_while is_blank s) in *. clearbody s1. destruct (number_base s1) as (pre & base & t & -> & E2 & Hp).
    pose proof (prefix_base _ _ Hp) as Hbase.
    rewrite (accumulate_spec (ulong_digit base) base ULONG_MAX (ulong_digit_set base Hbase))
      by (unfold ULONG_MAX; lia).
    destruct (dspan_inv (ulong_digit base) t) as (cs & E3 & Hd).
    destruct (dspan (ulong_digit base) t) as [ds t'] eqn:Edp. cbn [fst snd] in *.
    destruct (Z.leb_spec (dval base 0 ds) ULONG_MAX) as [Hle|]; [|done].
    destruct (skip_while_inv is_blank t') as (b2 & E4 & Hb2).
    destruct (Z.eqb_spec (0 + Z.of_nat (length ds)) 0) as [|Hn]; [done|]. cbn [orb].
    destruct (Z.eqb_spec (chr (skip_while is_blank t')) 0) as [Hz|]; [|done]. intros [= <-].
    assert (Ht : skip_while is_blank t' = []).
    { apply chr_nul; [|done]. rewrite E1, E2, E3, E4 in Hs.
      do 4 (apply cstring_app in Hs as [_ Hs]). exact Hs. }
    split; [|unfold ULONG_MAX in Hle; lia]. exists b1, pre, base, cs, ds, b2.
    rewrite Ht, app_nil_r in E4. subst. split_and!; try done.
    intros ->. inversion Hd; subst. simpl in Hn. lia.
  - intros ((b1 & pre & base & cs & ds & b2 & -> & Hb1 & Hb2 & Hp & Hne & Hd & ->) & Hv).
    pose proof (prefix_base _ _ Hp) as Hbase. pose proof (ulong_digit_set base Hbase) as Hset.
    assert (Hhead : is_blank (chr (pre ++ cs ++ b2)) = false).
    { destruct Hp as [[-> ->]|[[-> | ->] ->]]; [|done..].
      destruct Hd as [|c d cs ds Hc _]; [done|]. cbn [app chr]. by apply (Hset c d). }
    rewrite skip_blanks_app by done. rewrite (number_base_app pre base cs ds b2) by done.
    rewrite (accumulate_spec _ base ULONG_MAX Hset) by (unfold ULONG_MAX; lia).
    rewrite (dspan_app _ cs ds b2 Hd) by by apply blanks_nodigit.
    rewrite (proj2 (Z.leb_le _ _)) by (unfold ULONG_MAX; lia).
    rewrite skip_all by done. destruct Hd as [|c d cs ds _ _]; [done|].
    rewrite (proj2 (Z.eqb_neq _ _)) by (simpl; lia). done.
Qed.

(** The unsigned number parser accepts exactly blanks, an optional 0x, at least
    one digit of the base and blanks again, when the number they spell fits in 32
    bits, and returns that number: a longer spelling is refused, never wrapped. *)
Theorem parse_ulong_exact s v :
  cstring s -> ami_cfg_parse_ulong (Some s) = Some v <-> ulong_text s v /\ v < 2 ^ 32.
Proof. apply parse_ulong_spec. Qed.

Lemma parse_ulong_exact_witness : ~ ulong_text (str "4294967296") 4294967295 /\ ulong_text (str " 0xFFFFFFFF") 4294967295.
Proof.
  assert (Hs : cstring (str "4294967296") /\ cstring (str " 0xFFFFFFFF")) by (split; repeat constructor).
  split.
  - intros H. enough (ami_cfg_parse_ulong (Some (str "4294967296")) = Some 4294967295) by done.
    apply (parse_ulong_exact _ 4294967295 (proj1 Hs)). split; [exact H|lia].
  - apply (parse_ulong_exact _ 4294967295 (proj2 Hs)). reflexivity.
Defined.

(** A signed number: the sign, then an unsigned one (which may have blanks of its
    own in front). *)
Definition long_text (s : list Z) (v : Z) : Prop :=
  exists b sign t m,
    s = b ++ sign ++ t /\ blanks b /\ is_blank (chr (sign ++ t)) = false /\ ulong_text t m /\
    ((sign = [] /\ chr t <> 45 /\ chr t <> 43 /\ v = m) \/ (sign = str "+" /\ v = m) \/ (sign = str "-" /\ v = - m)).

Lemma ulong_text_nonneg s m : ulong_text s m -> 0 <= m.
Proof.
  intros (b1 & pre & base & cs & ds & b2 & _ & _ & _ & Hp & _ & Hd & ->).
  pose proof (prefix_base _ _ Hp) as Hb. apply dval_mono; [lia|lia|].
  exact (spells_nonneg _ base cs ds (ulong_digit_set base Hb) Hd).
Qed.

(** The sign is told apart from the number. *)
Lemma long_sign s :
  exists sign t,
    s = sign ++ t /\
    (if (chr s =? 45) || (chr s =? 43) then (chr s =? 45, tl s) else (false, s)) =
      (bool_decide (sign = str "-"), t) /\
    ((sign = [] /\ chr t <> 45 /\ chr t <> 43) \/ sign = str "+" \/ sign = str "-").
Proof.
  destruct s as [|c r]; [exists [], []; split_and!; [done..|by left]|]. cbn [chr tl].
  destruct (Z.eqb_spec c 45) as [->|]; [exists (str "-"), r; split_and!; [done..|auto]|].
  destruct (Z.eqb_spec c 43) as [->|]; [exists (str "+"), r; split_and!; [done..|auto]|].
  exists [], (c :: r). split_and!; [done..|by left].
Qed.

(** The signed parser accepts exactly an optional sign before an unsigned
    number, and only values of a 32-bit signed word, the least one included. *)
Theorem parse_long_exact s v :
  cstring s -> ami_cfg_parse_long (Some s) = Some v <-> long_text s v /\ - 2 ^ 31 <= v < 2 ^ 31.
Proof.
  intros Hs. unfold ami_cfg_parse_long. split.
  - destruct (skip_while_inv is_blank s) as (b & E & Hb).
    pose proof (skip_while_stop is_blank s eq_refl) as Hstop.
    set (s1 := skip_while is_blank s) in *. clearbody s1.
    destruct (long_sign s1) as (sign & t & -> & -> & Hsign).
    assert (Ht : cstring t) by (subst s; apply cstring_app in Hs as [_ Hs]; by apply cstring_app in Hs as [_ Hs]).
    destruct (ami_cfg_parse_ulong (Some t)) as [m|] eqn:Em; [|done].
    apply parse_ulong_spec in Em as [Hm Hm32]; [|done]. pose proof (ulong_text_nonneg _ _ Hm).
    intros Hv. assert (Hr : (sign = str "-" /\ v = - m /\ m <= 2 ^ 31) \/ (sign <> str "-" /\ v = m /\ m < 2 ^ 31)).
    { revert Hv. destruct (decide (sign = str "-")) as [->|Hn].
      - rewrite bool_decide_true by done. left. revert Hv. bcases; intros [= <-]; subst; split_and!; try done; lia.
      - rewrite bool_decide_false by done. right. revert Hv. bcases; intros [= <-].
        rewrite s32_small by lia. split_and!; try done; lia. }
    split; [|lia]. exists b, sign, t, m. split_and!; try done.
    destruct Hr as [(-> & -> & _)|(Hn & -> & _)]; [by right; right|].
    destruct Hsign as [(-> & H1 & H2)|[-> | ->]]; [by left|by right; left|done].
  - intros ((b & sign & t & m & -> & Hb & Hstop & Hm & Hsign) & Hv).
    pose proof (ulong_text_nonneg _ _ Hm). rewrite skip_blanks_app by done.
    assert (Ht : cstring t) by (apply cstring_app in Hs as [_ Hs]; by apply cstring_app in Hs as [_ Hs]).
    assert (Em : ami_cfg_parse_ulong (Some t) = Some m).
    { apply parse_ulong_spec; [done|]. split; [done|]. destruct Hsign as [(_ & _ & _ & ->)|[[_ ->]|[_ ->]]]; lia. }
    destruct Hsign as [(-> & H1 & H2 & ->)|[[-> ->]|[-> ->]]].
    + cbn [app]. rewrite (proj2 (Z.eqb_neq _ _) H1), (proj2 (Z.eqb_neq _ _) H2). cbn [orb]. rewrite Em.
      bcases. by rewrite s32_small by lia.
    + change (str "+") with [43]. cbn [app chr tl Z.eqb Pos.eqb orb]. rewrite Em.
      bcases. by rewrite s32_small by lia.
    + change (str "-") with [45]. cbn [app chr tl Z.eqb Pos.eqb orb]. rewrite Em. bcases; [by subst|done].
Qed.

Lemma parse_long_exact_witness : long_text (str "-2147483648") (- 2 ^ 31) /\ ~ long_text (str "2147483648") (2 ^ 31 - 1).
Proof.
  assert (Hs : cstring (str "-2147483648") /\ cstring (str "2147483648")) by (split; repeat constructor).
  split.
  - apply (parse_long_exact _ (- 2 ^ 31) (proj1 Hs)). reflexivity.
  - intros H. enough (ami_cfg_parse_long (Some (str "2147483648")) = Some (2 ^ 31 - 1)) by done.
    apply (parse_long_exact _ (2 ^ 31 - 1) (proj2 Hs)). split; [exact H|lia].
Defined.

(** ** Comparing strings *)

Lemma stricmp_spec a b :
  cstring a -> cstring b ->
  ami_cfg_stricmp b a = - ami_cfg_stricmp a b /\
  (ami_cfg_stricmp a b = 0 <-> map to_lower a = map to_lower b).
Proof.
  assert (Hl : forall c, 0 < c < 256 -> 0 < to_lower c) by (intros c Hc; unfold to_lower; bcases; lia).
  intros Ha. revert b. induction Ha as [|ca a Hca Ha IH]; intros b Hb; destruct Hb as [|cb b Hcb Hb].
  - done.
  - simpl. specialize (Hl cb Hcb). change (to_lower 0) with 0. split; [lia|]. split; [lia|done].
  - simpl. specialize (Hl ca Hca). change (to_lower 0) with 0. split; [lia|]. split; [lia|done].
  - simpl. rewrite !(proj2 (Z.eqb_neq _ 0)) by lia. cbn [negb andb].
    rewrite (Z.eqb_sym (to_lower cb)). destruct (Z.eqb_spec (to_lower ca) (to_lower cb)) as [E|E]; cbn [negb].
    + destruct (IH b Hb) as [H1 H2]. split; [done|]. rewrite H2, E. split; [by intros ->|by intros [= ->]].
    + split; [lia|]. split; [lia|intros [= H _]; done].
Qed.

(** The comparison is antisymmetric, and it says equal exactly when the two
    strings agree letter by letter up to ASCII case. *)
Theorem stricmp_equality a b :
  cstring a -> cstring b ->
  ami_cfg_stricmp b a = - ami_cfg_stricmp a b /\
  (ami_cfg_stricmp a b = 0 <-> map to_lower a = map to_lower b).
Proof. apply stricmp_spec. Qed.

Lemma stricmp_equality_witness : ami_cfg_stricmp (str "Device") (str "dEVICE") = 0.
Proof. apply (stricmp_equality (str "Device") (str "dEVICE")); [repeat constructor..|reflexivity]. Defined.

(** ** Bounded copies *)

Lemma copy_loop_spec dstlen i src :
  cstring src -> copy_loop dstlen i src = take (Z.to_nat (dstlen - 1 - i)) src.
Proof.
  intros Hs. revert i. induction Hs as [|c r Hc _ IH]; intros i; simpl; [by rewrite take_nil|].
  rewrite (proj2 (Z.eqb_neq c 0)), andb_true_r by lia. destruct (Z.ltb_spec (i + 1) dstlen).
  - rewrite IH. by replace (Z.to_nat (dstlen - 1 - i)) with (S (Z.to_nat (dstlen - 1 - (i + 1)))) by lia.
  - by replace (Z.to_nat (dstlen - 1 - i)) with 0%nat by lia.
Qed.

Lemma join_parts_spec dstlen pos parts :
  0 <= pos -> Forall (fun p => cstring (default [] p)) parts ->
  join_parts dstlen pos parts = take (Z.to_nat (dstlen - 1 - pos)) (concat (map (default []) parts)).
Proof.
  intros Hpos Hp. revert pos Hpos. induction Hp as [|p r Hc _ IH]; intros pos Hpos; simpl; [by rewrite take_nil|].
  destruct p as [src|]; cbn [default] in *; [|by apply IH].
  rewrite copy_loop_spec by done. rewrite IH by lia. rewrite take_app, length_take. unfold id. f_equal. f_equal. lia.
Qed.

Lemma store_at_val buf bs :
  (length bs <= length buf)%nat -> store_at buf 0 bs = Val (bs ++ drop (length bs) buf).
Proof. intros H. unfold store_at. bcases. unfold splice. by rewrite Nat.add_0_l. Qed.

(** The bounded copy and the three-part join write inside the destination
    whatever the sources: they leave the longest part of the text that fits, its
    NUL inside the length given, and every byte after that as it was. *)
Theorem bounded_copies d dstlen src a b c :
  0 < dstlen <= Z.of_nat (length d) -> cstring (default [] src) ->
  Forall (fun p => cstring (default [] p)) [a; b; c] ->
  let put text := take (Z.to_nat (dstlen - 1)) text ++ [0] in
  let whole := default [] a ++ default [] b ++ default [] c in
  ami_cfg_copy_string (Some d) dstlen src =
    Val (Some (put (default [] src) ++ drop (length (put (default [] src))) d)) /\
  ami_cfg_join3 (Some d) dstlen a b c = Val (Some (put whole ++ drop (length (put whole)) d)).
Proof.
  intros Hlen Hs Hp put whole. unfold ami_cfg_copy_string, ami_cfg_join3.
  rewrite (proj2 (Z.eqb_neq dstlen 0)) by lia.
  rewrite copy_loop_spec by done. rewrite (join_parts_spec dstlen 0 [a; b; c]) by done. rewrite Z.sub_0_r.
  assert (Hput : forall t, (length (put t) <= length d)%nat).
  { intros t. unfold put. rewrite length_app, length_take. simpl. lia. }
  assert (E : concat (map (default []) [a; b; c]) = whole) by (unfold whole; simpl; by rewrite app_nil_r).
  rewrite E. fold (put (default [] src)). fold (put whole).
  by rewrite !store_at_val by apply Hput.
Qed.

Lemma bounded_copies_witness :
  ami_cfg_join3 (Some (replicate 10 255)) 8 (Some (str "DEVS:")) None (Some (str "Internet")) =
    Val (Some (str "DEVS:In" ++ [0; 255; 255])).
Proof.
  apply (bounded_copies (replicate 10 255) 8 None (Some (str "DEVS:")) None (Some (str "Internet")));
    [simpl; lia|constructor|repeat constructor].
Defined.

(** ** Dotted numbers *)

(** A part as the strict parser takes it: decimal digits for a byte. *)
Definition octet_text (cs : list Z) (v : Z) : Prop :=
  exists ds, spells dec_digit cs ds /\ cs <> [] /\ v = dval 10 0 ds /\ v <= 255.

Inductive dotted : list Z -> list Z -> Prop :=
| dotted_one cs v : octet_text cs v -> dotted cs [v]
| dotted_more cs v text vs : octet_text cs v -> dotted text vs -> dotted (cs ++ 46 :: text) (v :: vs).

Lemma accumulate_octet s :
  accumulate dec_digit 255 10 0 0 s =
    (let '(ds, t) := dspan dec_digit s in
     if dval 10 0 ds <=? 255 then Some (dval 10 0 ds, 0 + Z.of_nat (length ds), t) else None).
Proof. apply accumulate_spec; [by apply dec_digit_set|lia..]. Qed.

Lemma split_parts_app room parts text vs t :
  dotted text vs -> (length vs <= room)%nat -> dec_digit (chr t) = None -> chr t <> 46 ->
  split_parts room parts (text ++ t) = Some (parts ++ vs, t).
Proof.
  intros H. revert room parts. induction H as [cs v (ds & Hd & Hne & -> & Hv)|cs v text vs (ds & Hd & Hne & -> & Hv) _ IH];
    intros room parts Hr Ht Hdot; cbn [length] in Hr; (destruct room as [|room]; [lia|]);
    cbn [split_parts]; rewrite accumulate_octet.
  - rewrite (dspan_app _ _ _ _ Hd Ht). rewrite (proj2 (Z.leb_le _ _)) by done.
    destruct Hd; [done|]. rewrite (proj2 (Z.eqb_neq _ _)) by (simpl; lia). by rewrite (proj2 (Z.eqb_neq _ _)).
  - rewrite <- app_assoc, (dspan_app _ _ _ _ Hd) by done. rewrite (proj2 (Z.leb_le _ _)) by done.
    destruct Hd; [done|]. rewrite (proj2 (Z.eqb_neq _ _)) by (simpl; lia).
    cbn [app chr tl Z.eqb Pos.eqb]. rewrite IH by (done || lia). by rewrite <- app_assoc.
Qed.

Lemma split_parts_inv room parts s ps t :
  split_parts room parts s = Some (ps, t) ->
  exists text vs, ps = parts ++ vs /\ s = text ++ t /\ dotted text vs /\ (length vs <= room)%nat.
Proof.
  revert parts s. induction room as [|room IH]; intros parts s; cbn [split_parts]; rewrite accumulate_octet;
    destruct (dspan_inv dec_digit s) as (cs & E & Hd); destruct (dspan dec_digit s) as [ds t']; cbn [fst snd] in *;
    (destruct (Z.leb_spec (dval 10 0 ds) 255) as [Hle|]; [|done]); [done|].
  destruct (Z.eqb_spec (0 + Z.of_nat (length ds)) 0) as [|Hn]; [done|].
  assert (Hoct : octet_text cs (dval 10 0 ds)).
  { exists ds. split_and!; try done. intros ->. inversion Hd; subst. simpl in Hn. lia. }
  destruct (Z.eqb_spec (chr t') 46) as [Hdot|_].
  - intros H. destruct (IH _ _ H) as (text & vs & -> & Et & Hdt & Hlen).
    destruct t' as [|c t']; [done|]. cbn [chr tl] in *. subst c t'.
    exists (cs ++ 46 :: text), (dval 10 0 ds :: vs). rewrite <- app_assoc. split; [done|].
    split; [by rewrite E, <- app_assoc|].
    split; [by constructor|simpl; lia].
  - intros [= <- <-]. exists cs, [dval 10 0 ds]. split_and!; [done..|by constructor|simpl; lia].
Qed.

Lemma octet_range cs v : octet_text cs v -> 0 <= v <= 255.
Proof.
  intros (ds & Hd & _ & -> & Hv). split; [|done]. apply dval_mono; [lia..|].
  exact (spells_nonneg _ 10 cs ds (dec_digit_set 10 ltac:(lia)) Hd).
Qed.

Lemma dotted_range text vs : dotted text vs -> Forall (fun v => 0 <= v <= 255) vs.
Proof. induction 1; constructor; try (by eapply octet_range); auto. Qed.

Lemma dotted_head text vs : dotted text vs -> is_blank (chr text) = false /\ chr text <> 0.
Proof.
  assert (Ho : forall cs v r, octet_text cs v -> is_blank (chr (cs ++ r)) = false /\ chr (cs ++ r) <> 0).
  { intros cs v r (ds & Hd & Hne & _). destruct Hd as [|c d cs ds Hc _]; [done|]. simpl.
    by destruct (dec_digit_set 10 ltac:(lia) c d Hc) as (_ & ? & ?). }
  intros [cs v H|cs v text' vs' H _]; [rewrite <- (app_nil_r cs)|]; by eapply Ho.
Qed.

Lemma blanks_stop b : blanks b -> dec_digit (chr b) = None /\ chr b <> 46.
Proof.
  intros [|c r Hc _]; [done|]. simpl. unfold is_blank in Hc. unfold dec_digit. revert Hc. bcases; intros; done || (split; done || lia).
Qed.

(** What the splitter accepts: blanks, one to four decimal bytes, blanks. *)
Definition dotted_line (s vs : list Z) : Prop :=
  exists b1 text b2, s = b1 ++ text ++ b2 /\ blanks b1 /\ blanks b2 /\ dotted text vs /\ (length vs <= 4)%nat.

Lemma split_dotted_spec s vs : cstring s -> split_dotted (Some s) = Some vs <-> dotted_line s vs.
Proof.
  intros Hs. unfold split_dotted. split.
  - destruct (skip_while_inv is_blank s) as (b1 & E1 & Hb1). set (s1 := skip_while is_blank s) in *. clearbody s1.
    destruct (chr s1 =? 0); [done|]. destruct (split_parts 4 [] s1) as [[ps t]|] eqn:E; [|done].
    destruct (split_parts_inv _ _ _ _ _ E) as (text & vs' & -> & -> & Hd & Hlen).
    destruct (skip_while_inv is_blank t) as (b2 & E2 & Hb2).
    destruct (Z.eqb_spec (chr (skip_while is_blank t)) 0) as [Hz|]; [|done]. intros [= <-].
    rewrite (chr_nul (skip_while is_blank t)) in E2; [|subst; do 2 (apply cstring_app in Hs as [_ Hs])|done].
    + rewrite app_nil_r in E2. subst. by exists b1, text, b2.
    + rewrite E2 in Hs. by apply cstring_app in Hs as [_ Hs].
  - intros (b1 & text & b2 & -> & Hb1 & Hb2 & Hd & Hlen). destruct (dotted_head _ _ Hd) as [H1 H2].
    assert (Hc : chr (text ++ b2) = chr text) by (destruct text; [by destruct H2|done]).
    rewrite skip_blanks_app by (done || by rewrite Hc). rewrite Hc, (proj2 (Z.eqb_neq _ _)) by done.
    destruct (blanks_stop b2 Hb2) as [H3 H4].
    by rewrite (split_parts_app 4 [] text vs b2), skip_all.
Qed.

(** Four bytes of an address, most significant first. *)
Lemma pack_octets p0 p1 p2 p3 :
  0 <= p0 <= 255 -> 0 <= p1 <= 255 -> 0 <= p2 <= 255 -> 0 <= p3 <= 255 ->
  Z.lor (Z.lor (Z.lor (p0 <<w 24) (p1 <<w 16)) (p2 <<w 8)) p3 = dval 256 0 [p0; p1; p2; p3].
Proof.
  intros. assert (E : forall p k, 0 <= p <= 255 -> 0 <= k <= 24 -> p <<w k = Z.shiftl p k).
  { intros p k Hp Hk. apply u32_small. rewrite Z.shiftl_mul_pow2 by lia.
    pose proof (Z.pow_le_mono_r 2 k 24 ltac:(lia) ltac:(lia)). unfold is_u32. nia. }
  rewrite !E by lia.
  replace (Z.shiftl p0 24) with (Z.shiftl (Z.shiftl (Z.shiftl p0 8) 8) 8) by (by rewrite !Z.shiftl_shiftl).
  replace (Z.shiftl p1 16) with (Z.shiftl (Z.shiftl p1 8) 8) by (by rewrite !Z.shiftl_shiftl).
  rewrite <- !Z.shiftl_lor. rewrite !lor_shift_add by lia. simpl. lia.
Qed.

(** The strict IPv4 parser accepts exactly blanks, four decimal bytes with dots
    between them and blanks, and packs the bytes in order; no long octet wraps
    into a byte. *)
Theorem parse_ip_exact s a :
  cstring s ->
  ami_config_parse_ip (Some s) = Some a <->
    exists p0 p1 p2 p3, dotted_line s [p0; p1; p2; p3] /\ a = dval 256 0 [p0; p1; p2; p3].
Proof.
  intros Hs. unfold ami_config_parse_ip. split.
  - destruct (split_dotted (Some s)) as [vs|] eqn:E; [|done]. apply split_dotted_spec in E; [|done].
    destruct vs as [|p0 [|p1 [|p2 [|p3 [|]]]]]; try done. intros [= <-].
    exists p0, p1, p2, p3. split; [done|]. destruct E as (? & ? & ? & _ & _ & _ & Hd & _).
    apply dotted_range in Hd. rewrite !Forall_cons in Hd. apply pack_octets; apply Hd.
  - intros (p0 & p1 & p2 & p3 & Hl & ->). pose proof (proj2 (split_dotted_spec s _ Hs) Hl) as ->.
    destruct Hl as (? & ? & ? & _ & _ & _ & Hd & _).
    apply dotted_range in Hd. rewrite !Forall_cons in Hd. f_equal. apply pack_octets; apply Hd.
Qed.

Lemma parse_ip_exact_witness :
  exists p0 p1 p2 p3, dotted_line (str "192.168.001.254 ") [p0; p1; p2; p3] /\ 0xC0A801FE = dval 256 0 [p0; p1; p2; p3].
Proof. apply (parse_ip_exact (str "192.168.001.254 ") 0xC0A801FE); [repeat constructor|reflexivity]. Defined.

(** ** Printing addresses *)

(** The one spelling of a byte that the printer uses. *)
Definition canonical (cs : list Z) (v : Z) : Prop :=
  octet_text cs v /\ (length cs <= 3)%nat /\ (length cs = 1%nat \/ chr cs <> 48).

Lemma dec_digit_inv c d : dec_digit c = Some d -> c = 48 + d /\ 0 <= d < 10.
Proof. unfold dec_digit. bcases; intros [= <-]. lia. Qed.

Lemma canonical_digits cs v : canonical cs v -> dec_digits 3 v [] = Val cs.
Proof.
  intros ((ds & Hd & Hne & -> & _) & Hlen & Hz).
  destruct Hd as [|c1 x cs xs H1 Hd]; [done|]. apply dec_digit_inv in H1 as [-> H1].
  destruct Hd as [|c2 y cs ys H2 Hd]; [|apply dec_digit_inv in H2 as [-> H2];
    destruct Hd as [|c3 z cs zs H3 Hd]; [|apply dec_digit_inv in H3 as [-> H3];
      destruct Hd; [|simpl in Hlen; lia]]]; cbn [dval dec_digits chr length] in *.
  - rewrite Z.div_small, Z.mod_small by lia. done.
  - replace ((0 * 10 + x) * 10 + y) with (y + x * 10) by lia.
    rewrite Z.div_add, Z.mod_add, Z.div_small, Z.mod_small, Z.add_0_l by lia.
    rewrite (proj2 (Z.eqb_neq x 0)), Z.mod_small, Z.div_small by lia. done.
  - replace (((0 * 10 + x) * 10 + y) * 10 + z) with (z + (y + x * 10) * 10) by lia.
    rewrite Z.div_add, Z.mod_add, Z.div_small, (Z.mod_small z), Z.add_0_l by lia.
    rewrite (proj2 (Z.eqb_neq (y + x * 10) 0)) by lia.
    rewrite Z.div_add, Z.mod_add, Z.div_small, (Z.mod_small y), Z.add_0_l by lia.
    rewrite (proj2 (Z.eqb_neq x 0)), Z.mod_small, Z.div_small by lia. done.
Qed.

(** Every byte has a canonical spelling. *)
Definition canonical_check (v : Z) : bool :=
  match dec_digits 3 v [] with
  | Val cs =>
      forallb (fun c => (48 <=? c) && (c <=? 57)) cs && (dval 10 0 (map (fun c => c - 48) cs) =? v) &&
      (1 <=? length cs)%nat && (length cs <=? 3)%nat && ((length cs =? 1)%nat || negb (chr cs =? 48))
  | _ => false
  end.

Lemma canonical_byte v : 0 <= v <= 255 -> exists cs, dec_digits 3 v [] = Val cs /\ canonical cs v.
Proof.
  intros Hv. pose proof (every_byte canonical_check ltac:(by vm_compute) v Hv) as H.
  unfold canonical_check in H. destruct (dec_digits 3 v []) as [cs| |]; [|done..]. exists cs. split; [done|].
  rewrite !andb_true_iff, orb_true_iff, Nat.leb_le, Nat.leb_le, Nat.eqb_eq, Z.eqb_eq, negb_true_iff, Z.eqb_neq in H.
  destruct H as ((((H1 & H2) & H3) & H4) & H5). split; [|done]. exists (map (fun c => c - 48) cs).
  split_and!; [|by intros ->; simpl in H3; lia|done|lia].
  clear -H1. induction cs as [|c r IH]; simpl in *; [constructor|]. apply andb_true_iff in H1 as [Hc Hr].
  constructor; [unfold dec_digit; by rewrite Hc|by apply IH].
Qed.

(** The printed form: four canonical bytes. *)
Definition printed4 (text : list Z) (a : Z) : Prop :=
  exists c0 p0 c1 p1 c2 p2 c3 p3,
    text = c0 ++ 46 :: c1 ++ 46 :: c2 ++ 46 :: c3 /\ a = dval 256 0 [p0; p1; p2; p3] /\
    canonical c0 p0 /\ canonical c1 p1 /\ canonical c2 p2 /\ canonical c3 p3.

Lemma octet_of a k : is_u32 a -> 0 <= k -> Z.land (Z.shiftr a k) 0xFF = (a / 2 ^ k) mod 256.
Proof. intros Ha Hk. change 0xFF with (Z.ones 8). by rewrite Z.land_ones, Z.shiftr_div_pow2. Qed.

Lemma canonical_range cs v : canonical cs v -> 0 <= v <= 255.
Proof. intros (H & _). by eapply octet_range. Qed.

Lemma format_ip4_spec a text : is_u32 a -> ami_format_ip4 a = Val text <-> printed4 text a.
Proof.
  intros Ha. unfold ami_format_ip4, format_octets. rewrite !octet_of by (done || lia).
  change (2 ^ (Z.of_nat 3 * 8)) with 16777216. change (2 ^ (Z.of_nat 2 * 8)) with 65536.
  change (2 ^ (Z.of_nat 1 * 8)) with 256. change (2 ^ (Z.of_nat 0 * 8)) with 1. split.
  - destruct (canonical_byte ((a / 16777216) mod 256)) as (c0 & -> & H0); [word_lia|].
    destruct (canonical_byte ((a / 65536) mod 256)) as (c1 & -> & H1); [word_lia|].
    destruct (canonical_byte ((a / 256) mod 256)) as (c2 & -> & H2); [word_lia|].
    destruct (canonical_byte ((a / 1) mod 256)) as (c3 & -> & H3); [word_lia|].
    cbn [obind]. intros [= <-]. eexists c0, _, c1, _, c2, _, c3, _. split_and!; try done. simpl. word_lia.
  - intros (c0 & p0 & c1 & p1 & c2 & p2 & c3 & p3 & -> & -> & H0 & H1 & H2 & H3).
    pose proof (canonical_range _ _ H0). pose proof (canonical_range _ _ H1).
    pose proof (canonical_range _ _ H2). pose proof (canonical_range _ _ H3). cbn [dval] in *.
    replace ((((((0 * 256 + p0) * 256 + p1) * 256 + p2) * 256 + p3) / 16777216) mod 256) with p0 by word_lia.
    replace ((((((0 * 256 + p0) * 256 + p1) * 256 + p2) * 256 + p3) / 65536) mod 256) with p1 by word_lia.
    replace ((((((0 * 256 + p0) * 256 + p1) * 256 + p2) * 256 + p3) / 256) mod 256) with p2 by word_lia.
    replace ((((((0 * 256 + p0) * 256 + p1) * 256 + p2) * 256 + p3) / 1) mod 256) with p3 by word_lia.
    rewrite (canonical_digits _ _ H0), (canonical_digits _ _ H1), (canonical_digits _ _ H2), (canonical_digits _ _ H3).
    done.
Qed.

Lemma canonical_cstring cs v : canonical cs v -> cstring cs.
Proof.
  intros ((ds & Hd & _) & _). induction Hd as [|c d cs ds Hc _ IH]; constructor; [|done].
  apply dec_digit_inv in Hc as [-> ?]. lia.
Qed.

Lemma printed4_dotted text a : printed4 text a ->
  exists p0 p1 p2 p3, dotted text [p0; p1; p2; p3] /\ a = dval 256 0 [p0; p1; p2; p3].
Proof.
  intros (c0 & p0 & c1 & p1 & c2 & p2 & c3 & p3 & -> & -> & (H0 & _) & (H1 & _) & (H2 & _) & (H3 & _)).
  exists p0, p1, p2, p3. split; [|done]. by repeat constructor.
Qed.

Lemma printed4_text text a : printed4 text a -> cstring text /\ (length text <= 15)%nat.
Proof.
  intros (c0 & p0 & c1 & p1 & c2 & p2 & c3 & p3 & -> & _ & H0 & H1 & H2 & H3). split.
  - rewrite cstring_app. split; [by eapply canonical_cstring|]. constructor; [lia|].
    rewrite cstring_app. split; [by eapply canonical_cstring|]. constructor; [lia|].
    rewrite cstring_app. split; [by eapply canonical_cstring|]. constructor; [lia|]. by eapply canonical_cstring.
  - destruct H0 as (_ & ? & _), H1 as (_ & ? & _), H2 as (_ & ? & _), H3 as (_ & ? & _).
    rewrite length_app. cbn [length]. rewrite length_app. cbn [length]. rewrite length_app. cbn [length]. lia.
Qed.

Lemma printed4_exists a : is_u32 a -> exists text, ami_format_ip4 a = Val text /\ printed4 text a.
Proof.
  intros Ha. assert (Hr : forall k, 0 <= (a / k) mod 256 <= 255) by (intros k; word_lia).
  destruct (ami_format_ip4 a) as [text| |] eqn:E; [exists text; split; [done|by apply format_ip4_spec]|exfalso..];
    revert E; unfold ami_format_ip4, format_octets; rewrite !octet_of by (done || lia);
    destruct (canonical_byte _ (Hr (2 ^ (Z.of_nat 3 * 8)))) as (c0 & -> & _);
    destruct (canonical_byte _ (Hr (2 ^ (Z.of_nat 2 * 8)))) as (c1 & -> & _);
    destruct (canonical_byte _ (Hr (2 ^ (Z.of_nat 1 * 8)))) as (c2 & -> & _);
    destruct (canonical_byte _ (Hr (2 ^ (Z.of_nat 0 * 8)))) as (c3 & -> & _); done.
Qed.

Lemma parse_dotted text p0 p1 p2 p3 :
  cstring text -> dotted text [p0; p1; p2; p3] ->
  ami_config_parse_ip (Some text) = Some (dval 256 0 [p0; p1; p2; p3]).
Proof.
  intros Hc Hd. assert (Hl : dotted_line text [p0; p1; p2; p3]).
  { exists [], text, []. rewrite app_nil_r. split_and!; try done; constructor. }
  unfold ami_config_parse_ip. rewrite (proj2 (split_dotted_spec text _ Hc) Hl).
  apply dotted_range in Hd. rewrite !Forall_cons in Hd. f_equal. apply pack_octets; apply Hd.
Qed.

#[export] Instance ip4_codec : TextCodec is_u32 ami_format_ip4 (fun s => ami_config_parse_ip (Some s)) 15.
Proof.
  split.
  - intros a Ha. destruct (printed4_exists a Ha) as (text & E & Hp). exists text.
    destruct (printed4_text _ _ Hp). done.
  - intros a s Ha E. apply format_ip4_spec in E as Hp; [|done]. destruct (printed4_text _ _ Hp) as [Hc _].
    destruct (printed4_dotted _ _ Hp) as (p0 & p1 & p2 & p3 & Hd & ->). by apply parse_dotted.
Qed.

(** Every 32-bit address prints in at most 15 characters, without a stray write
    to the three-digit scratch, and the strict parser reads the text back as the
    same address; the bounded form leaves that text and its NUL in any buffer of
    16 bytes or more. *)
Theorem ip4_roundtrip a buf :
  is_u32 a -> 16 <= Z.of_nat (length buf) ->
  exists text, ami_format_ip4 a = Val text /\ (length text <= 15)%nat /\
    ami_config_parse_ip (Some text) = Some a /\
    ami_config_format_ip a (Some buf) (Z.of_nat (length buf)) =
      Val (Some (text ++ 0 :: drop (S (length text)) buf)).
Proof.
  intros Ha Hb. destruct (codec_prints a Ha) as (text & E & Hc & Hlen). exists text.
  split_and!; [done..|by apply (codec_reads (TextCodec := ip4_codec) a)|].
  unfold ami_config_format_ip. rewrite (proj2 (Z.eqb_neq _ 0)) by lia. rewrite E. cbn [obind].
  rewrite store_at_val by (rewrite length_app, length_replicate; simpl; lia). cbn [obind].
  unfold ami_cfg_copy_string. rewrite (proj2 (Z.eqb_neq _ 0)) by lia. cbn [default].
  assert (Hcp : forall rest n, (length text < n)%nat ->
    copy_loop (Z.of_nat n) 0 ((text ++ [0]) ++ rest) = text).
  { intros rest n Hn. clear -Hc Hn. change 0 with (Z.of_nat 0) at 1.
    assert (G : forall i, (i + length text < n)%nat -> copy_loop (Z.of_nat n) (Z.of_nat i) ((text ++ [0]) ++ rest) = text).
    { clear Hn. induction Hc as [|c r Hc _ IH]; intros i Hi; simpl in *.
      - by rewrite andb_false_r.
      - rewrite (proj2 (Z.eqb_neq c 0)), (proj2 (Z.ltb_lt _ _)) by lia. simpl. f_equal.
        specialize (IH (S i) ltac:(lia)). by rewrite Nat2Z.inj_succ, <- Z.add_1_r in IH. }
    apply (G 0%nat). lia. }
  unfold id. rewrite Hcp by lia. rewrite store_at_val by (rewrite length_app; simpl; lia). cbn [obind].
  rewrite length_app, <- app_assoc. simpl. by rewrite Nat.add_1_r.
Qed.

Lemma ip4_roundtrip_witness :
  exists text, ami_format_ip4 0xC0A801FE = Val text /\ (length text <= 15)%nat /\
    ami_config_parse_ip (Some text) = Some 0xC0A801FE /\
    ami_config_format_ip 0xC0A801FE (Some (replicate 20 255)) 20 =
      Val (Some (text ++ 0 :: drop (S (length text)) (replicate 20 255))).
Proof. apply (ip4_roundtrip 0xC0A801FE (replicate 20 255)); [word_lia|simpl; lia]. Defined.

(** ** Hardware addresses *)

(** The bytes of an address, the separator in front of each but the first. *)
Inductive mac_text : nat -> bool -> list Z -> list Z -> Prop :=
| mac_end first : mac_text 0 first [] []
| mac_more n first sep a b x y s out :
    sep = [] \/ (first = false /\ (sep = str ":" \/ sep = str "-")) ->
    hex_digit a = Some x -> hex_digit b = Some y -> mac_text n false s out ->
    mac_text (S n) first (sep ++ a :: b :: s) (x * 16 + y :: out).

Lemma hex_range c d : hex_digit c = Some d -> 0 <= d < 16 /\ 0 < c < 256 /\ c <> 58 /\ c <> 45.
Proof. unfold hex_digit. bcases; intros [= <-]; lia. Qed.

Lemma mac_pair x y : 0 <= x < 16 -> 0 <= y < 16 -> u8 (Z.lor (Z.lor (0 <<w 4) x <<w 4) y) = x * 16 + y.
Proof.
  intros Hx Hy. rewrite Z.shiftl_0_l. change (u32 0) with 0. rewrite Z.lor_0_l.
  rewrite u32_small by (rewrite Z.shiftl_mul_pow2 by lia; word_lia). rewrite lor_shift_add by lia.
  apply u8_small. word_lia.
Qed.

(** Reading one byte is reading two digits. *)
Lemma mac_byte_spec s :
  mac_byte 2 0 s =
    match s with
    | a :: b :: r => match hex_digit a, hex_digit b with
                     | Some x, Some y => Some (Z.lor (Z.lor (0 <<w 4) x <<w 4) y, r)
                     | _, _ => None
                     end
    | _ => None
    end.
Proof.
  destruct s as [|a [|b r]]; [done|cbn [mac_byte chr tl]; by destruct (hex_digit a)|].
  cbn [mac_byte chr tl]. destruct (hex_digit a); [|done]. by destruct (hex_digit b).
Qed.

Lemma mac_loop_reads n first out s bs :
  mac_text n first s bs -> mac_loop n first out s = Some (out ++ bs, []).
Proof.
  intros H. revert out. induction H as [f|n first sep a b x y s bs Hsep Ha Hb _ IH]; intros out; cbn [mac_loop].
  { by rewrite app_nil_r. }
  pose proof (hex_range _ _ Ha) as Hx. pose proof (hex_range _ _ Hb) as Hy.
  assert (Hskip : (if negb first && ((chr (sep ++ a :: b :: s) =? 58) || (chr (sep ++ a :: b :: s) =? 45))
                   then tl (sep ++ a :: b :: s) else sep ++ a :: b :: s) = a :: b :: s).
  { destruct Hsep as [->|[-> [-> | ->]]]; [|done..]. cbn [app chr].
    rewrite !(proj2 (Z.eqb_neq a _)) by lia. by rewrite andb_false_r. }
  rewrite Hskip, mac_byte_spec, Ha, Hb, IH, mac_pair by lia. by rewrite <- app_assoc.
Qed.

Lemma mac_loop_text n first out s r t :
  mac_loop n first out s = Some (r, t) -> chr t = 0 -> cstring s ->
  exists bs, r = out ++ bs /\ mac_text n first s bs.
Proof.
  revert first out s. induction n as [|n IH]; intros first out s; cbn [mac_loop].
  { intros [= <- <-] H0 Hs. exists []. rewrite app_nil_r. split; [done|].
    rewrite (chr_nul s Hs H0). constructor. }
  assert (Hskip : exists sep, s = sep ++ (if negb first && ((chr s =? 58) || (chr s =? 45)) then tl s else s) /\
    (sep = [] \/ (first = false /\ (sep = str ":" \/ sep = str "-")))).
  { destruct first; [exists []; auto|]. destruct s as [|c s]; [exists []; auto|]. cbn [chr tl negb andb].
    destruct (Z.eqb_spec c 58) as [->|]; [exists (str ":"); auto|].
    destruct (Z.eqb_spec c 45) as [->|]; [exists (str "-"); auto|exists []; auto]. }
  destruct Hskip as (sep & Es & Hsep). rewrite mac_byte_spec.
  set (s1 := if negb first && _ then tl s else s) in *. clearbody s1.
  destruct s1 as [|a [|b s1]]; [done..|]. destruct (hex_digit a) as [x|] eqn:Ha; [|done].
  destruct (hex_digit b) as [y|] eqn:Hb; [|done]. intros H H0 Hs. rewrite Es in *.
  apply cstring_app in Hs as [_ Hs]. do 2 (inversion Hs as [|? ? ? Hs']; subst; clear Hs; rename Hs' into Hs).
  destruct (IH _ _ _ H H0 Hs) as (bs & -> & Hm). exists (x * 16 + y :: bs).
  rewrite mac_pair, <- app_assoc by (by eapply hex_range). split; [done|]. by constructor.
Qed.

(** A hardware address is accepted exactly when it is six pairs of hexadecimal
    digits, each pair after the first with a colon, a hyphen or nothing before it;
    the six bytes are the pairs. *)
Theorem parse_mac_exact s out :
  cstring s -> ami_cfg_parse_mac (Some s) = Some out <-> mac_text 6 true s out.
Proof.
  intros Hs. unfold ami_cfg_parse_mac, AMI_CFG_MAC_SIZE. split.
  - destruct (mac_loop 6 true [] s) as [[r t]|] eqn:E; [|done].
    destruct (Z.eqb_spec (chr t) 0) as [H0|]; [|done]. intros [= <-].
    by destruct (mac_loop_text _ _ _ _ _ _ E H0 Hs) as (bs & -> & Hm).
  - intros H. by rewrite (mac_loop_reads _ _ [] _ _ H).
Qed.

Lemma parse_mac_exact_witness :
  mac_text 6 true (str "00:1a-2B3c4d:5e") [0; 26; 43; 60; 77; 94] /\ ~ mac_text 6 true (str "00:1a:2B:3c:4d") [0].
Proof.
  split.
  - apply (parse_mac_exact (str "00:1a-2B3c4d:5e")); [repeat constructor|reflexivity].
  - intros H. apply (parse_mac_exact (str "00:1a:2B:3c:4d") [0]) in H; [discriminate|repeat constructor].
Defined.

(** ** Numbers in environment variables *)

(** The largest number the digit loop reads to its end. *)
Definition ENV_LIMIT : Z := 1000009.

Lemma env_digits_spec value p :
  0 <= value <= ENV_LIMIT ->
  if dval 10 value (fst (dspan dec_digit p)) <=? ENV_LIMIT
  then env_digits value p = (dval 10 value (fst (dspan dec_digit p)), snd (dspan dec_digit p))
  else exists w q, env_digits value p = (w, q) /\ dec_digit (chr q) <> None.
Proof.
  unfold ENV_LIMIT. revert value. induction p as [|c r IH]; intros value Hv; cbn [dspan env_digits].
  { cbn [fst snd dval]. by rewrite (proj2 (Z.leb_le _ _)) by lia. }
  destruct ((48 <=? c) && (c <=? 57)) eqn:Hc.
  - pose proof (dspan_nonneg dec_digit 10 (dec_digit_set 10 ltac:(lia)) r) as Hn.
    assert (Hd : dec_digit c = Some (c - 48)) by (unfold dec_digit; by rewrite Hc).
    specialize (IH (value * 10 + (c - 48))). rewrite Hd.
    assert (Hr : 0 <= c - 48 < 10) by (revert Hc; bcases; done || lia).
    destruct (dspan dec_digit r) as [ds t]. cbn [fst snd dval] in *.
    destruct (Z.leb_spec value 100000) as [Hle|Hgt]; cbn [andb].
    + rewrite (u32_small (value * 10)) by word_lia. rewrite u32_small by word_lia. apply IH. lia.
    + pose proof (dval_mono 10 (value * 10 + (c - 48)) ds ltac:(lia) ltac:(lia) Hn).
      rewrite (proj2 (Z.leb_gt _ _)) by lia. exists value, (c :: r). split; [done|]. cbn [chr]. by rewrite Hd.
  - unfold dec_digit. rewrite Hc. cbn [fst snd dval andb]. by rewrite (proj2 (Z.leb_le _ _)) by lia.
Qed.

(** One number: blanks, digits, blanks or line ends. *)
Definition env_text (s : list Z) (v : Z) : Prop :=
  exists b1 cs ds b2,
    s = b1 ++ cs ++ b2 /\ blanks b1 /\ Forall (fun c => is_env_blank c = true) b2 /\
    spells dec_digit cs ds /\ cs <> [] /\ v = dval 10 0 ds.

Lemma digit_not_env c : dec_digit c <> None -> is_env_blank c = false /\ c <> 0.
Proof. unfold dec_digit, is_env_blank. bcases; intros Hd; done || (split; done || lia). Qed.

Lemma env_reads text v lo hi fallback :
  env_text text v -> lo <= v <= hi -> hi <= ENV_LIMIT -> ami_cfg_env_number text lo hi fallback = v.
Proof.
  intros (b1 & cs & ds & b2 & -> & Hb1 & Hb2 & Hd & Hne & Ev) Hv Hhi. unfold ami_cfg_env_number.
  assert (Hc : exists c r d, cs = c :: r /\ dec_digit c = Some d).
  { destruct Hd as [|c d cs ds Hc _]; [done|]. by exists c, cs, d. }
  destruct Hc as (c & r & d & -> & Hc). pose proof (dec_digit_inv _ _ Hc) as [Ec Hr].
  assert (Hb : is_blank c = false) by (by destruct (dec_digit_set 10 ltac:(lia) c d Hc) as (_ & _ & ?)).
  rewrite skip_blanks_app by done. cbn [app chr].
  rewrite (proj2 (Z.ltb_ge c 48)), (proj2 (Z.ltb_ge 57 c)) by lia. cbn [orb].
  assert (Hstop : dec_digit (chr b2) = None).
  { destruct Hb2 as [|e b2 He _]; [done|]. cbn [chr]. destruct (dec_digit e) eqn:E; [|done].
    destruct (digit_not_env e) as [H _]; [by rewrite E|]. by rewrite H in He. }
  pose proof (env_digits_spec 0 ((c :: r) ++ b2) ltac:(unfold ENV_LIMIT; lia)) as H.
  rewrite (dspan_app _ _ _ _ Hd Hstop) in H. cbn [fst snd] in H. rewrite <- Ev in H.
  rewrite (proj2 (Z.leb_le v ENV_LIMIT)) in H by lia. cbn [app] in H. rewrite H.
  rewrite <- (app_nil_r b2), skip_blanks_app by done. cbn [chr Z.eqb negb orb].
  by rewrite (proj2 (Z.ltb_ge v lo)), (proj2 (Z.ltb_ge hi v)) by lia.
Qed.

Lemma env_refuses text lo hi fallback v :
  cstring text -> hi <= ENV_LIMIT -> ami_cfg_env_number text lo hi fallback = v ->
  v <> fallback -> env_text text v /\ lo <= v <= hi.
Proof.
  intros Hs Hhi Hv Hf. unfold ami_cfg_env_number in Hv.
  destruct (skip_while_inv is_blank text) as (b1 & E1 & Hb1).
  set (p := skip_while is_blank text) in *. clearbody p. subst text. apply cstring_app in Hs as [_ Hs].
  destruct ((chr p <? 48) || (57 <? chr p)) eqn:Hhead; [by subst v|].
  pose proof (env_digits_spec 0 p ltac:(unfold ENV_LIMIT; lia)) as H.
  destruct (dspan_inv dec_digit p) as (cs & Ep & Hd). destruct (dspan dec_digit p) as [ds t] eqn:Edp.
  cbn [fst snd] in *. destruct (Z.leb_spec (dval 10 0 ds) ENV_LIMIT) as [Hle|_].
  2: { destruct H as (w & q & E & Hq). rewrite E in Hv. destruct (digit_not_env _ Hq) as [H1 H2].
       destruct q as [|c q]; [done|]. cbn [chr skip_while] in *. rewrite H1 in Hv. cbn [chr] in Hv.
       rewrite (proj2 (Z.eqb_neq c 0)) in Hv by done. by subst v. }
  rewrite H in Hv. destruct (skip_while_inv is_env_blank t) as (b2 & Et & Hb2).
  destruct (Z.eqb_spec (chr (skip_while is_env_blank t)) 0) as [Hz|]; cbn [negb orb] in Hv; [|by subst v].
  destruct (Z.ltb_spec (dval 10 0 ds) lo); cbn [orb] in Hv; [by subst v|].
  destruct (Z.ltb_spec hi (dval 10 0 ds)); [by subst v|]. subst v. split; [|done].
  rewrite (chr_nul (skip_while is_env_blank t)) in Et; [|rewrite Ep, Et in Hs|done].
  - rewrite app_nil_r in Et. subst t. exists b1, cs, ds, b2. rewrite <- Ep. split_and!; try done.
    intros ->. cbn [app] in Ep. subst p. inversion Hd; subst. revert Hhead. clear -Hb2 Edp.
    destruct Hb2 as [|c b2 Hc _]; [done|]. cbn [chr]. unfold is_env_blank in Hc. revert Hc. bcases; done.
  - do 2 (apply cstring_app in Hs as [_ Hs]). exact Hs.
Qed.

(** The environment number is the number the text spells when it is one, alone
    but for blanks and line ends, and lies in the range; anything else gives the
    fallback.  True for every range below the point where the digit loop stops
    early, which no caller's range passes. *)
Theorem env_number_exact text lo hi fallback :
  cstring text -> hi <= ENV_LIMIT ->
  (forall v, env_text text v -> lo <= v <= hi -> ami_cfg_env_number text lo hi fallback = v) /\
  ((forall v, env_text text v -> ~ lo <= v <= hi) -> ami_cfg_env_number text lo hi fallback = fallback).
Proof.
  intros Hs Hhi. split; [intros v Ht Hv; by eapply env_reads|]. intros Hno.
  destruct (Z.eq_dec (ami_cfg_env_number text lo hi fallback) fallback) as [|Hne]; [done|].
  destruct (env_refuses text lo hi fallback _ Hs Hhi eq_refl Hne) as [Ht Hr]. by destruct (Hno _ Ht).
Qed.

Lemma env_number_exact_witness : ami_cfg_env_number (str " 512 " ++ [10]) 16 4096 0 = 512.
Proof.
  apply (proj1 (env_number_exact (str " 512 " ++ [10]) 16 4096 0 ltac:(repeat constructor) ltac:(by compute)) 512);
    [|lia].
  exists (str " "), (str "512"), [5; 1; 2], (str " " ++ [10]). split_and!; try done; repeat constructor.
Defined.
