(* ===== verification/ConfigText6.v ===== *)
(** IPv6 addresses to and from text ([src/config/config_text6.c]).

    The eight groups are the array the source has: eight cells, each empty until
    it is written, a write outside the array or a read of an empty cell a [Fault].
    The loop over the groups has fuel for nine rounds; each round but the last
    fills a cell, so it is enough, which [parse_ip6_safe] shows. *)

From Stdlib Require Import ZArith Lia String.
From stdpp Require Import base numbers list strings.
From S2P Require Import Prelude CString ConfigText.
#[local] Open Scope Z_scope.

Definition ip6_hex_digit (c : Z) : option Z := hex_digit c.

(** [*s] ends the address: NUL, a prefix, a zone or a blank. *)
Definition ends_address (c : Z) : bool :=
  (c =? 0) || (c =? 47) || (c =? 37) || (c =? 32) || (c =? 9).

(** The characters the look-ahead for a dotted quad passes over. *)
Definition in_group (c : Z) : bool :=
  negb (c =? 0) && negb (c =? 58) && negb (c =? 47) && negb (c =? 37) &&
  negb (c =? 32) && negb (c =? 9) && negb (c =? 46).

(** ** The group array *)

Abbreviation groups := (list (option Z)).

Definition no_groups : groups := replicate 8 None.

Definition put_group (g : groups) (i v : Z) : outcome groups :=
  if (0 <=? i) && (i <? Z.of_nat (length g)) then Val (<[Z.to_nat i := Some v]> g) else Fault.

Definition get_group (g : groups) (i : Z) : outcome Z :=
  let! cell := fetch g i in match cell with Some v => Val v | None => Fault end.

(** ** Parsing *)

(** The dotted quad copied out of the text, [None] when it is longer than the
    scratch takes. *)
Fixpoint take_quad (n : Z) (s : list Z) : option (list Z * list Z) :=
  match s with
  | c :: r =>
      if ends_address c then Some ([], s)
      else if 16 - 1 <=? n then None
      else match take_quad (n + 1) r with
           | Some (q, t) => Some (c :: q, t)
           | None => None
           end
  | [] => Some ([], [])
  end.

(** One to four hexadecimal digits; a fifth is an error. *)
Fixpoint hex_group (value digits : Z) (s : list Z) : option (Z * Z * list Z) :=
  match ip6_hex_digit (chr s), s with
  | Some digit, _ :: r =>
      if 4 <=? digits then None else hex_group (Z.lor (value <<w 4) digit) (digits + 1) r
  | _, _ => Some (value, digits, s)
  end.

(** What the loop leaves: groups, [count], [gap] and the rest of the text.
    [Val None] is a return of FALSE. *)
Definition ip6_parsed : Type := (groups * Z * Z * list Z).

(** After a group: a colon, a second colon, or the end of the address. *)
Definition after_group (loop : groups -> Z -> Z -> list Z -> outcome (option ip6_parsed))
    (g : groups) (count gap : Z) (s : list Z) : outcome (option ip6_parsed) :=
  if negb (chr s =? 58) then Val (Some (g, count, gap, s))
  else
    let s := tl s in
    if chr s =? 58 then
      if 0 <=? gap then Val None
      else
        let gap := count in
        let s := tl s in
        if ends_address (chr s) then Val (Some (g, count, gap, s)) else loop g count gap s
    else if ends_address (chr s) then Val None
    else loop g count gap s.

Fixpoint ip6_loop (fuel : nat) (g : groups) (count gap : Z) (s : list Z) : outcome (option ip6_parsed) :=
  match fuel with
  | O => Spin
  | S fuel =>
      if ends_address (chr s) then Val (Some (g, count, gap, s))
      else if chr (skip_while in_group s) =? 46 then
        match take_quad 0 s with
        | None => Val None
        | Some (quad, rest) =>
            match ami_config_parse_ip (Some quad) with
            | None => Val None
            | Some v4 =>
                if 8 <? count + 2 then Val None
                else
                  let! g := put_group g count (u16 (Z.shiftr v4 16)) in
                  let! g := put_group g (count + 1) (u16 (Z.land v4 0xFFFF)) in
                  Val (Some (g, count + 2, gap, rest))
            end
        end
      else
        match hex_group 0 0 s with
        | None => Val None
        | Some (value, digits, s) =>
            if (digits =? 0) || (8 <=? count) then Val None
            else
              let! g := put_group g count (u16 value) in
              after_group (ip6_loop fuel) g (count + 1) gap s
        end
  end.

(** The zone identifier, [None] when it does not fit or is empty. *)
Fixpoint zone_loop (zone_len n : Z) (s : list Z) : option (list Z * list Z) :=
  match s with
  | c :: r =>
      if (c =? 0) || (c =? 47) || (c =? 32) || (c =? 9) then Some ([], s)
      else if zone_len <=? n + 1 then None
      else match zone_loop zone_len (n + 1) r with
           | Some (z, t) => Some (c :: z, t)
           | None => None
           end
  | [] => Some ([], [])
  end.

(** [zone_len] is [None] for a NULL buffer. *)
Definition ip6_zone (zone_len : option Z) (s : list Z) : option (option (list Z) * list Z) :=
  if chr s =? 37 then
    match zone_len with
    | None => None
    | Some zone_len =>
        if zone_len =? 0 then None
        else match zone_loop zone_len 0 (tl s) with
             | None => None
             | Some (z, t) => if (length z =? 0)%nat then None else Some (Some z, t)
             end
    end
  else Some (None, s).

(** [want] is [prefix_out != NULL]. *)
Definition ip6_prefix (want : bool) (s : list Z) : option (option Z * list Z) :=
  if chr s =? 47 then
    if negb want then None
    else match accumulate dec_digit 128 10 0 0 (tl s) with
         | None => None
         | Some (prefix, digits, s) => if digits =? 0 then None else Some (Some prefix, s)
         end
  else Some (None, s).

(** [for (i = count; i > gap; i--) group[i - 1 + (8 - count)] = group[i - 1]], [n]
    rounds left. *)
Fixpoint shift_groups (n : nat) (i count : Z) (g : groups) : outcome groups :=
  match n with
  | O => Val g
  | S n =>
      let! v := get_group g (i - 1) in
      let! g := put_group g (i - 1 + (8 - count)) v in
      shift_groups n (i - 1) count g
  end.

(** [for (i = gap; i < gap + (8 - count); i++) group[i] = 0], [n] rounds left. *)
Fixpoint zero_groups (n : nat) (i : Z) (g : groups) : outcome groups :=
  match n with
  | O => Val g
  | S n => let! g := put_group g i 0 in zero_groups n (i + 1) g
  end.

(** The groups in their places, [Val None] when their number is wrong. *)
Definition spread_groups (g : groups) (count gap : Z) : outcome (option groups) :=
  if gap <? 0 then Val (if count =? 8 then Some g else None)
  else if 8 <=? count then Val None
  else
    let! g := shift_groups (Z.to_nat (count - gap)) count count g in
    let! g := zero_groups (Z.to_nat (8 - count)) gap g in
    Val (Some g).

(** The words [i], ... of the address, [n] of them. *)
Fixpoint group_words (n : nat) (i : Z) (g : groups) : outcome (list Z) :=
  match n with
  | O => Val []
  | S n =>
      let! hi := get_group g (i * 2) in
      let! lo := get_group g (i * 2 + 1) in
      let! r := group_words n (i + 1) g in
      Val (Z.lor (hi <<w 16) lo :: r)
  end.

(** The words, the prefix when there was one, and the zone when there was one. *)
Definition ip6_result : Type := (list Z * option Z * option (list Z)).

Definition ami_cfg_parse_ip6_inner (text : nullable) (want_prefix : bool) (zone_len : option Z)
  : outcome (option ip6_result) :=
  match text with
  | None => Val None
  | Some s =>
      let s := skip_while is_blank s in
      if (chr s =? 58) && negb (chr (tl s) =? 58) then Val None
      else
        let '(gap, s) := if chr s =? 58 then (0, tl (tl s)) else (-1, s) in
        let! r := ip6_loop 9 no_groups 0 gap s in
        match r with
        | None => Val None
        | Some (g, count, gap, s) =>
            match ip6_zone zone_len s with
            | None => Val None
            | Some (zone, s) =>
                match ip6_prefix want_prefix s with
                | None => Val None
                | Some (prefix, s) =>
                    if negb (chr (skip_while is_blank s) =? 0) then Val None
                    else
                      let! g := spread_groups g count gap in
                      match g with
                      | None => Val None
                      | Some g => let! out := group_words 4 0 g in Val (Some (out, prefix, zone))
                      end
                end
            end
        end
  end.

(** The two callers: one cannot carry a zone, the other starts from an empty one. *)
Definition ami_config_parse_ip6 (text : nullable) (want_prefix : bool) : outcome (option (list Z * option Z)) :=
  let! r := ami_cfg_parse_ip6_inner text want_prefix None in
  Val (match r with Some (out, prefix, _) => Some (out, prefix) | None => None end).

Definition ami_config_parse_ip6_zone (text : nullable) (want_prefix : bool) (zone_len : option Z)
  : outcome (option (list Z * option Z * list Z)) :=
  let! r := ami_cfg_parse_ip6_inner text want_prefix zone_len in
  Val (match r with Some (out, prefix, zone) => Some (out, prefix, default [] zone) | None => None end).

(** ** Formatting *)

Definition ip6_groups (addr : list Z) : list Z :=
  concat (map (fun w => [u16 (Z.shiftr w 16); u16 (Z.land w 0xFFFF)]) addr).

(** The scan for the longest run of zero groups, from group [i] on. *)
Fixpoint zero_runs (gs : list Z) (i best_at best_len run_at run_len : Z) : Z * Z :=
  match gs with
  | [] => (best_at, best_len)
  | v :: gs =>
      if v =? 0 then
        let '(run_at, run_len) := if run_at <? 0 then (i, 0) else (run_at, run_len) in
        let run_len := run_len + 1 in
        let '(best_at, best_len) :=
          if best_len <? run_len then (run_at, run_len) else (best_at, best_len) in
        zero_runs gs (i + 1) best_at best_len run_at run_len
      else zero_runs gs (i + 1) best_at best_len (-1) 0
  end.

Definition best_run (gs : list Z) : Z * Z :=
  let '(best_at, best_len) := zero_runs gs 0 (-1) 0 (-1) 0 in
  if best_len <? 2 then (-1, best_len) else (best_at, best_len).

Definition hex_char (nibble : Z) : Z := if nibble <? 10 then 48 + nibble else 97 + nibble - 10.

(** The digits of a group, with room for [room] of them. *)
Fixpoint hex_digits (room : nat) (v : Z) (out : list Z) : outcome (list Z) :=
  match room with
  | O => Fault
  | S room =>
      let out := hex_char (Z.land v 0xF) :: out in
      let v := u16 (Z.shiftr v 4) in
      if v =? 0 then Val out else hex_digits room v out
  end.

(** The loop over the groups from [i] on; [gs] are the groups left and [group] the
    whole array. *)
Fixpoint emit_groups (group : list Z) (best_at best_len i : Z) (gs : list Z) : outcome (list Z) :=
  match gs with
  | [] => Val []
  | v :: gs =>
      if (0 <=? best_at) && (best_at <=? i) && (i <? best_at + best_len) then
        let! rest := emit_groups group best_at best_len (i + 1) gs in
        Val ((if i =? best_at then [58] else []) ++ rest)
      else
        let colon := if negb (i =? 0) then [58] else [] in
        let! g5 := fetch group 5 in
        if (i =? 6) && (best_at =? 0) && ((best_len =? 6) || ((best_len =? 5) && (g5 =? 0xFFFF))) then
          let! g6 := fetch group 6 in
          let! g7 := fetch group 7 in
          let! quad := ami_format_ip4 (Z.lor (g6 <<w 16) g7) in
          Val (colon ++ quad)
        else
          let! digits := hex_digits 4 v [] in
          let! rest := emit_groups group best_at best_len (i + 1) gs in
          Val (colon ++ digits ++ rest)
  end.

(** The text without its NUL. *)
Definition ami_format_ip6 (addr : list Z) : outcome (list Z) :=
  let group := ip6_groups addr in
  let '(best_at, best_len) := best_run group in
  let! text := emit_groups group best_at best_len 0 group in
  Val (text ++ if (0 <=? best_at) && (best_at + best_len =? 8) then [58] else []).

Definition AMI_CFG_IP6_STRLEN : Z := 46.
Definition AMI_CFG_IP6_ZONE_LEN : Z := 16.
Definition AMI_CFG_IP6_ZONE_STRLEN : Z := AMI_CFG_IP6_STRLEN + 1 + AMI_CFG_IP6_ZONE_LEN.

Definition ami_config_format_ip6 (addr : nullable) (buf : nullable) (buflen : Z) : outcome nullable :=
  match buf with
  | None => Val None
  | Some b =>
      if buflen =? 0 then Val (Some b)
      else
        let! b := store_at b 0 [0] in
        match addr with
        | None => Val (Some b)
        | Some addr =>
            if buflen <? AMI_CFG_IP6_STRLEN then Val (Some b)
            else let! text := ami_format_ip6 addr in
                 let! b := store_at b 0 (text ++ [0]) in Val (Some b)
        end
  end.

Definition ami_config_format_ip6_zone (addr : nullable) (zone : nullable) (buf : nullable) (buflen : Z)
  : outcome nullable :=
  match buf with
  | None => Val None
  | Some b =>
      if buflen =? 0 then Val (Some b)
      else if chr (default [] zone) =? 0 then ami_config_format_ip6 addr (Some b) buflen
      else if buflen <? AMI_CFG_IP6_ZONE_STRLEN then let! b := store_at b 0 [0] in Val (Some b)
      else
        let! r := ami_config_format_ip6 addr (Some b) buflen in
        match r with
        | None => Val None
        | Some b =>
            if chr b =? 0 then Val (Some b)
            else
              let used := ami_cfg_strlen b in
              let! b := store_at b used (37 :: copy_loop buflen (used + 1) (default [] zone) ++ [0]) in
              Val (Some b)
        end
  end.

(** ** The array through the loop *)

(** The first cells of [g] hold the groups [l]. *)
Definition filled (g : groups) (l : list Z) : Prop :=
  length g = 8%nat /\ (length l <= 8)%nat /\ take (length l) g = map Some l /\ Forall is_u16 l.

Abbreviation zlen l := (Z.of_nat (length l)).

Lemma filled_nil : filled no_groups [].
Proof. by split_and!; [|simpl; lia| |constructor]. Qed.

Lemma put_group_filled g l v :
  filled g l -> (length l < 8)%nat -> is_u16 v ->
  exists g', put_group g (zlen l) v = Val g' /\ filled g' (l ++ [v]).
Proof.
  intros (Hg & Hl & Ht & Hu) Hlt Hv. unfold put_group.
  rewrite (proj2 (Z.leb_le _ _)), (proj2 (Z.ltb_lt _ _)) by lia. eexists. split; [done|].
  rewrite Nat2Z.id. split_and!.
  - by rewrite length_insert.
  - rewrite length_app. simpl. lia.
  - rewrite length_app, map_app, <- Ht. simpl. rewrite Nat.add_1_r.
    rewrite (take_S_r _ _ (Some v)) by (apply list_lookup_insert_eq; lia). by rewrite take_insert_ge by lia.
  - apply Forall_app. split; [done|]. by constructor.
Qed.

(** Every accepted group is a 16-bit value, and the fuel outlasts the array. *)
Definition parsed_ok (r : option ip6_parsed) : Prop :=
  match r with
  | None => True
  | Some (g, count, gap, _) => exists l, filled g l /\ count = zlen l /\ -1 <= gap <= count
  end.

Lemma after_group_safe loop g l gap s :
  (forall gap s, -1 <= gap <= zlen l -> exists r, loop g (zlen l) gap s = Val r /\ parsed_ok r) ->
  filled g l -> -1 <= gap <= zlen l ->
  exists r, after_group loop g (zlen l) gap s = Val r /\ parsed_ok r.
Proof.
  intros Hloop Hf Hgap. unfold after_group.
  destruct (negb (chr s =? 58)); [eexists; split; [done|by exists l]|].
  destruct (chr (tl s) =? 58).
  - destruct (0 <=? gap); [by eexists|].
    destruct (ends_address _); [eexists; split; [done|exists l; split_and!; done || lia]|apply Hloop; lia].
  - destruct (ends_address _); [by eexists|by apply Hloop].
Qed.

Lemma ip6_loop_safe fuel g l gap s :
  filled g l -> -1 <= gap <= zlen l -> (9 <= length l + fuel)%nat ->
  exists r, ip6_loop fuel g (zlen l) gap s = Val r /\ parsed_ok r.
Proof.
  revert g l gap s. induction fuel as [|fuel IH]; intros g l gap s Hf Hgap Hfuel; cbn [ip6_loop].
  { destruct Hf as (_ & ? & _). lia. }
  destruct (ends_address _); [eexists; split; [done|by exists l]|].
  destruct (chr (skip_while in_group s) =? 46).
  - destruct (take_quad 0 s) as [[quad rest]|]; [|by eexists].
    destruct (ami_config_parse_ip (Some quad)) as [v4|]; [|by eexists].
    destruct (Z.ltb_spec 8 (zlen l + 2)); [by eexists|].
    destruct (put_group_filled g l (u16 (Z.shiftr v4 16)) Hf) as (g1 & -> & H1); [lia|apply u16_range|].
    cbn [obind]. destruct (put_group_filled g1 _ (u16 (Z.land v4 0xFFFF)) H1) as (g2 & E2 & H2);
      [rewrite length_app; simpl; lia|apply u16_range|].
    replace (zlen (l ++ [u16 (Z.shiftr v4 16)])) with (zlen l + 1) in E2 by (rewrite length_app; simpl; lia).
    rewrite E2. cbn [obind]. eexists. split; [done|]. eexists. split; [done|].
    rewrite !length_app. simpl. lia.
  - destruct (hex_group 0 0 s) as [[[value digits] t]|]; [|by eexists].
    destruct (_ || _) eqn:Hb; [by eexists|]. apply orb_false_iff in Hb as [_ Hb%Z.leb_gt].
    destruct (put_group_filled g l (u16 value) Hf) as (g1 & -> & H1); [lia|apply u16_range|]. cbn [obind].
    replace (zlen l + 1) with (zlen (l ++ [u16 value])) by (rewrite length_app; simpl; lia).
    assert (Hlen : zlen (l ++ [u16 value]) = zlen l + 1) by (rewrite length_app; simpl; lia).
    apply after_group_safe; [|done|lia]. intros gap' s' Hg'. apply IH; [done..|]. lia.
Qed.

(** A gap opens between the groups before it and the groups after it. *)
Lemma spread_gap g l1 l2 :
  filled g (l1 ++ l2) -> (length (l1 ++ l2) < 8)%nat ->
  spread_groups g (zlen (l1 ++ l2)) (zlen l1) =
    Val (Some (map Some (l1 ++ replicate (8 - length (l1 ++ l2)) 0 ++ l2))).
Proof.
  intros (Hg & _ & Ht & _) Hlt.
  do 8 (destruct g as [|? g]; [done|]). destruct g; [|done].
  assert (Hl : forall l : list Z, (length l < 8)%nat ->
    l = [] \/ (exists a, l = [a]) \/ (exists a b, l = [a; b]) \/ (exists a b c, l = [a; b; c]) \/
    (exists a b c d, l = [a; b; c; d]) \/ (exists a b c d e, l = [a; b; c; d; e]) \/
    (exists a b c d e f, l = [a; b; c; d; e; f]) \/ (exists a b c d e f h, l = [a; b; c; d; e; f; h])).
  { intros l Hl. destruct l as [|a [|b [|c [|d [|e [|f [|h [|]]]]]]]]; simpl in Hl; try lia; naive_solver. }
  assert (H1 : (length l1 < 8)%nat) by (rewrite length_app in Hlt; lia).
  destruct (Hl l1 H1) as [E|[(?&E)|[(?&?&E)|[(?&?&?&E)|[(?&?&?&?&E)|[(?&?&?&?&?&E)|[(?&?&?&?&?&?&E)|(?&?&?&?&?&?&?&E)]]]]]]];
    subst l1; cbn [app length] in *;
    (destruct l2 as [|? [|? [|? [|? [|? [|? [|? [|]]]]]]]]; cbn [length] in *; try lia);
    simpl in Ht; try injection Ht as; subst; reflexivity.
Qed.

Lemma group_words_safe (l : list Z) :
  length l = 8%nat -> Forall is_u16 l ->
  exists out, group_words 4 0 (map Some l) = Val out /\ length out = 4%nat /\ Forall is_u32 out.
Proof.
  intros Hl Hu. do 8 (destruct l as [|? l]; [done|]). destruct l; [|done]. rewrite !Forall_cons in Hu.
  eexists. split; [reflexivity|]. split; [done|].
  repeat constructor; apply u32_lor; try apply u32_range; wunfold; lia.
Qed.

Lemma spread_safe g l gap :
  filled g l -> -1 <= gap <= zlen l ->
  exists r, spread_groups g (zlen l) gap = Val r /\
    match r with
    | None => True
    | Some g' => exists l', g' = map Some l' /\ length l' = 8%nat /\ Forall is_u16 l'
    end.
Proof.
  intros Hf Hgap. pose proof Hf as (Hg & Hl & Ht & Hu). destruct (Z.ltb_spec gap 0).
  - unfold spread_groups. rewrite (proj2 (Z.ltb_lt _ _)) by lia. eexists. split; [done|].
    destruct (Z.eqb_spec (zlen l) 8); [|done]. exists l. split_and!; [|lia|done].
    rewrite <- Ht. symmetry. apply take_ge. lia.
  - destruct (Z_lt_ge_dec (zlen l) 8).
    + set (l1 := take (Z.to_nat gap) l). set (l2 := drop (Z.to_nat gap) l).
      assert (El : l = l1 ++ l2) by (symmetry; apply take_drop).
      assert (E1 : gap = zlen l1) by (unfold l1; rewrite length_take; lia).
      rewrite E1. rewrite El in Hf |- *. rewrite spread_gap by (done || (rewrite <- El; lia)).
      eexists. split; [done|]. eexists. split; [done|]. rewrite El, Forall_app in Hu. split.
      * rewrite !length_app, length_replicate. rewrite El, length_app in Hl. lia.
      * rewrite !Forall_app. split_and!; try apply Hu. apply Forall_replicate. word_lia.
    + unfold spread_groups. rewrite (proj2 (Z.ltb_ge _ _)), (proj2 (Z.leb_le _ _)) by lia. by eexists.
Qed.

Lemma zone_loop_bound zone_len n s z t :
  zone_loop zone_len n s = Some (z, t) -> z <> [] -> n + zlen z < zone_len.
Proof.
  revert n z. induction s as [|c r IH]; intros n z; cbn [zone_loop]; [by intros [= <- _]|].
  destruct (_ || _ || _ || _); [by intros [= <- _]|]. destruct (Z.leb_spec zone_len (n + 1)); [done|].
  destruct (zone_loop zone_len (n + 1) r) as [[z' t']|] eqn:E; [|done]. intros [= <- <-] _.
  destruct z' as [|a z']; [simpl; lia|]. specialize (IH _ _ E ltac:(done)). simpl in *. lia.
Qed.

Lemma ip6_zone_bound zone_len s zone t :
  ip6_zone zone_len s = Some (zone, t) ->
  match zone with
  | None => True
  | Some z => exists n, zone_len = Some n /\ 0 < zlen z < n
  end.
Proof.
  unfold ip6_zone. destruct (chr s =? 37); [|by intros [= <- _]]. destruct zone_len as [n|]; [|done].
  destruct (n =? 0); [done|]. destruct (zone_loop n 0 (tl s)) as [[z t']|] eqn:E; [|done].
  destruct (Nat.eqb_spec (length z) 0) as [|Hz]; [done|]. intros [= <- _]. exists n. split; [done|].
  pose proof (zone_loop_bound _ _ _ _ _ E ltac:(by intros ->)). lia.
Qed.

Lemma ip6_prefix_bound want s prefix t :
  ip6_prefix want s = Some (prefix, t) ->
  match prefix with None => True | Some p => want = true /\ 0 <= p <= 128 end.
Proof.
  unfold ip6_prefix. destruct (chr s =? 47); [|by intros [= <- _]]. destruct want; [|done]. cbn [negb].
  rewrite (accumulate_spec dec_digit 10 128) by (lia || by apply dec_digit_set).
  pose proof (dspan_nonneg dec_digit 10 (dec_digit_set 10 ltac:(lia)) (tl s)) as Hn.
  destruct (dspan dec_digit (tl s)) as [ds t']. cbn [fst] in Hn.
  destruct (Z.leb_spec (dval 10 0 ds) 128); [|done]. destruct (_ =? 0); [done|]. intros [= <- _].
  split; [done|]. split; [|done]. by apply dval_mono.
Qed.

(** The IPv6 parser settles every text: it never reads a group it has not
    written, never writes outside its eight groups and never loops on.  What it
    accepts is four 32-bit words, a prefix of at most 128 only where the caller
    takes one, and a zone only where the caller has room for it and its NUL. *)
Theorem parse_ip6_safe text want_prefix zone_len :
  exists r, ami_cfg_parse_ip6_inner text want_prefix zone_len = Val r /\
    match r with
    | None => True
    | Some (out, prefix, zone) =>
        length out = 4%nat /\ Forall is_u32 out /\
        match prefix with None => True | Some p => want_prefix = true /\ 0 <= p <= 128 end /\
        match zone with None => True | Some z => exists n, zone_len = Some n /\ 0 < zlen z < n end
    end.
Proof.
  unfold ami_cfg_parse_ip6_inner. destruct text as [s|]; [|by eexists].
  set (s0 := skip_while is_blank s). destruct ((chr s0 =? 58) && _); [by eexists|].
  assert (Hgap : exists gap t, (if chr s0 =? 58 then (0, tl (tl s0)) else (-1, s0)) = (gap, t) /\ -1 <= gap <= zlen (@nil Z)).
  { destruct (chr s0 =? 58); eexists _, _; split; try done; simpl; lia. }
  destruct Hgap as (gap & t & -> & Hgap). change 0 with (zlen (@nil Z)) at 1.
  destruct (ip6_loop_safe 9 no_groups [] gap t filled_nil Hgap) as (r & -> & Hr); [simpl; lia|]. cbn [obind].
  destruct r as [[[[g count] gap'] t']|]; [|by eexists]. destruct Hr as (l & Hf & -> & Hg).
  destruct (ip6_zone zone_len t') as [[zone t1]|] eqn:Ez; [|by eexists]. apply ip6_zone_bound in Ez.
  destruct (ip6_prefix want_prefix t1) as [[prefix t2]|] eqn:Ep; [|by eexists]. apply ip6_prefix_bound in Ep.
  destruct (negb _); [by eexists|].
  destruct (spread_safe g l gap' Hf Hg) as (r & -> & Hr). cbn [obind]. destruct r as [g'|]; [|by eexists].
  destruct Hr as (l' & -> & Hl' & Hu). destruct (group_words_safe l' Hl' Hu) as (out & -> & Hlen & Hout).
  eexists. split; [done|]. done.
Qed.

(** ** The text of a group *)

Lemma hex_char_digit d : 0 <= d < 16 -> hex_digit (hex_char d) = Some d.
Proof. intros Hd. unfold hex_char. destruct (Z.ltb_spec d 10); unfold hex_digit; bcases; f_equal; lia. Qed.

Lemma hex_digits_spec room v out :
  0 <= v < 16 ^ Z.of_nat room -> (room <= 4)%nat -> (0 < room)%nat ->
  exists cs ds, hex_digits room v out = Val (cs ++ out) /\ spells hex_digit cs ds /\ dval 16 0 ds = v /\
    (1 <= length cs <= room)%nat.
Proof.
  revert v out. induction room as [|room IH]; intros v out Hv Hr H0; [lia|]. cbn [hex_digits].
  assert (Hb : v < 65536).
  { apply Z.lt_le_trans with (16 ^ Z.of_nat (S room)); [lia|].
    change 65536 with (16 ^ 4). apply Z.pow_le_mono_r; lia. }
  change 0xF with (Z.ones 4). rewrite Z.land_ones, Z.shiftr_div_pow2 by lia. change (2 ^ 4) with 16.
  rewrite u16_small by word_lia. destruct (Z.eqb_spec (v / 16) 0) as [Hz|Hz].
  - exists [hex_char (v mod 16)], [v mod 16]. split_and!; [done| | |simpl; lia..].
    + constructor; [apply hex_char_digit; word_lia|constructor].
    + simpl. word_lia.
  - rewrite Nat2Z.inj_succ, Z.pow_succ_r in Hv by lia.
    destruct room as [|room]; [simpl in Hv; word_lia|].
    destruct (IH (v / 16) (hex_char (v mod 16) :: out)) as (cs & ds & -> & Hs & Hd & Hl); [|lia..|].
    { split; [word_lia|]. apply Z.div_lt_upper_bound; lia. }
    exists (cs ++ [hex_char (v mod 16)]), (ds ++ [v mod 16]). split_and!.
    + by rewrite <- app_assoc.
    + apply Forall2_app; [done|]. constructor; [apply hex_char_digit; word_lia|constructor].
    + rewrite dval_app, Hd. simpl. word_lia.
    + rewrite length_app. simpl. lia.
    + rewrite length_app. simpl. lia.
Qed.

Definition hex_text (v : Z) : list Z := match hex_digits 4 v [] with Val cs => cs | _ => [] end.

Lemma hex_text_spec v : is_u16 v ->
  hex_digits 4 v [] = Val (hex_text v) /\ (1 <= length (hex_text v) <= 4)%nat /\
  exists ds, spells hex_digit (hex_text v) ds /\ dval 16 0 ds = v.
Proof.
  intros Hv. destruct (hex_digits_spec 4 v []) as (cs & ds & E & Hs & Hd & Hl); [word_lia|lia..|].
  unfold hex_text. rewrite E, app_nil_r. split_and!; [done|lia..|by exists ds].
Qed.

Lemma hex_chars cs ds : spells hex_digit cs ds ->
  Forall (fun c => in_group c = true /\ ends_address c = false /\ is_blank c = false /\ c <> 58 /\ 0 < c < 256) cs.
Proof.
  intros H. induction H as [|c d cs ds Hc _ IH]; constructor; [|done].
  apply hex_range in Hc as Hr. revert Hc. unfold hex_digit, in_group, ends_address, is_blank.
  destruct Hr as (_ & Hr & H58 & H45). bcases; intros [= <-]; split_and!; done || lia.
Qed.

Lemma hex_text_chars v : is_u16 v ->
  Forall (fun c => in_group c = true /\ ends_address c = false /\ is_blank c = false /\ c <> 58 /\ 0 < c < 256) (hex_text v).
Proof. intros Hv. destruct (hex_text_spec v Hv) as (_ & _ & ds & Hs & _). by eapply hex_chars. Qed.

(** The head of a group is none of the characters that end or separate. *)
Lemma hex_text_head v t : is_u16 v ->
  chr (hex_text v ++ t) <> 58 /\ ends_address (chr (hex_text v ++ t)) = false /\
  is_blank (chr (hex_text v ++ t)) = false.
Proof.
  intros Hv. destruct (hex_text_spec v Hv) as (_ & Hl & _). pose proof (hex_text_chars v Hv) as Hc.
  destruct (hex_text v) as [|c r]; [simpl in Hl; lia|]. inversion Hc; subst. simpl. tauto.
Qed.

(** What may follow a group in printed text. *)
Definition group_stop (t : list Z) : Prop := chr t = 0 \/ chr t = 58.

Lemma hex_group_reads value digits cs ds t :
  spells hex_digit cs ds -> group_stop t -> 0 <= value < 16 ^ digits -> 0 <= digits ->
  digits + zlen cs <= 4 ->
  hex_group value digits (cs ++ t) = Some (dval 16 value ds, digits + zlen cs, t).
Proof.
  intros H Ht. revert value digits. induction H as [|c d cs ds Hc _ IH]; intros value digits Hv H0 Hl.
  - simpl. rewrite Z.add_0_r. destruct Ht as [Ht|Ht]; destruct t as [|c t]; simpl in *; subst; done.
  - cbn [app hex_group chr length] in *. unfold ip6_hex_digit. rewrite Hc. rewrite (proj2 (Z.leb_gt _ _)) by lia.
    apply hex_range in Hc as (Hd & _).
    assert (Hp : 16 ^ digits <= 16 ^ 3) by (apply Z.pow_le_mono_r; lia).
    rewrite u32_small by (rewrite Z.shiftl_mul_pow2 by lia; word_lia). rewrite lor_shift_add by lia.
    change (2 ^ 4) with 16. rewrite IH; [|rewrite Z.pow_add_r by lia; lia|lia..]. cbn [dval]. do 3 f_equal. lia.
Qed.

(** One round of the loop on a printed group. *)
Lemma ip6_loop_hex f g m gap v t :
  filled g m -> (length m < 8)%nat -> is_u16 v -> group_stop t ->
  exists g', filled g' (m ++ [v]) /\
    ip6_loop (S f) g (zlen m) gap (hex_text v ++ t) = after_group (ip6_loop f) g' (zlen (m ++ [v])) gap t.
Proof.
  intros Hf Hm Hv Ht. destruct (put_group_filled g m v Hf Hm Hv) as (g' & E & Hf'). exists g'. split; [done|].
  destruct (hex_text_head v t Hv) as (_ & H2 & _). cbn [ip6_loop]. rewrite H2.
  pose proof (hex_text_chars v Hv) as Hc. destruct (hex_text_spec v Hv) as (_ & Hl & ds & Hs & Hd).
  rewrite (skip_blanks_app in_group (hex_text v) t);
    [|eapply Forall_impl; [exact Hc|]; by intros c (? & _)|by destruct Ht as [-> | ->]].
  rewrite (proj2 (Z.eqb_neq (chr t) 46)) by (destruct Ht as [-> | ->]; lia).
  rewrite (hex_group_reads 0 0 _ ds) by (done || lia). rewrite Hd, u16_small by done.
  rewrite (proj2 (Z.eqb_neq _ 0)), (proj2 (Z.leb_gt _ _)) by lia. cbn [orb]. rewrite E. cbn [obind].
  f_equal. rewrite length_app. simpl. lia.
Qed.

(** ** Printed addresses *)

(** Groups with a colon in front of each, and with colons between them. *)
Definition colon_groups (l : list Z) : list Z := concat (map (fun v => 58 :: hex_text v) l).
Definition join_groups (l : list Z) : list Z :=
  match l with [] => [] | v :: l => hex_text v ++ colon_groups l end.

Lemma colon_groups_stop l t : group_stop t -> group_stop (colon_groups l ++ t).
Proof. intros Ht. destruct l as [|v l]; [done|]. by right. Qed.

(** The loop reads a run of colon-separated groups. *)
Lemma after_groups l f g m gap t :
  filled g m -> (length (m ++ l) <= 8)%nat -> Forall is_u16 l -> group_stop t ->
  exists g', filled g' (m ++ l) /\
    after_group (ip6_loop (length l + f)) g (zlen m) gap (colon_groups l ++ t) =
    after_group (ip6_loop f) g' (zlen (m ++ l)) gap t.
Proof.
  revert g m. induction l as [|v l IH]; intros g m Hf Hl Hu Ht.
  { exists g. by rewrite app_nil_r. }
  apply Forall_cons in Hu as [Hv Hu]. rewrite length_app in Hl. cbn [length] in Hl.
  destruct (ip6_loop_hex (length l + f) g m gap v (colon_groups l ++ t) Hf) as (g1 & Hf1 & E1);
    [lia|done|by apply colon_groups_stop|].
  destruct (IH g1 (m ++ [v]) Hf1) as (g2 & Hf2 & E2); [rewrite !length_app; simpl; lia|done..|].
  exists g2. rewrite <- app_assoc in Hf2, E2. split; [done|]. cbn [app] in E2. rewrite <- E2, <- E1.
  destruct (hex_text_head v (colon_groups l ++ t) Hv) as (H1 & H2 & _).
  unfold after_group at 1. cbn [colon_groups map concat app chr tl length Nat.add].
  rewrite <- app_assoc. fold (colon_groups l). change (58 =? 58) with true. cbn [negb].
  by rewrite (proj2 (Z.eqb_neq _ 58)), H2 by done.
Qed.

Lemma loop_groups v l f g m gap t :
  filled g m -> (length (m ++ v :: l) <= 8)%nat -> Forall is_u16 (v :: l) -> group_stop t ->
  exists g', filled g' (m ++ v :: l) /\
    ip6_loop (length (v :: l) + f) g (zlen m) gap (join_groups (v :: l) ++ t) =
    after_group (ip6_loop f) g' (zlen (m ++ v :: l)) gap t.
Proof.
  intros Hf Hl Hu Ht. apply Forall_cons in Hu as [Hv Hu].
  assert (Hm : (length m < 8)%nat) by (rewrite length_app in Hl; simpl in Hl; lia).
  destruct (ip6_loop_hex (length l + f) g m gap v (colon_groups l ++ t) Hf Hm Hv) as (g1 & Hf1 & E1);
    [by apply colon_groups_stop|].
  destruct (after_groups l f g1 (m ++ [v]) gap t Hf1) as (g2 & Hf2 & E2);
    [rewrite <- app_assoc; done|done..|].
  exists g2. rewrite <- app_assoc in Hf2, E2. split; [done|]. cbn [app] in E2.
  cbn [join_groups length Nat.add]. rewrite <- app_assoc, E1. exact E2.
Qed.

(** A dotted quad that ends the text fills two groups. *)
Lemma loop_quad f g m gap quad a :
  filled g m -> (length m <= 6)%nat -> is_u32 a -> printed4 quad a ->
  exists g', filled g' (m ++ [a / 65536; a mod 65536]) /\
    ip6_loop (S f) g (zlen m) gap quad = Val (Some (g', zlen m + 2, gap, [])).
Proof.
  intros Hf Hm Ha Hp. destruct (printed4_text _ _ Hp) as [Hcs Hlen].
  destruct (printed4_dotted _ _ Hp) as (p0 & p1 & p2 & p3 & Hd & Ev).
  assert (Hchar : Forall (fun c => ends_address c = false) quad).
  { clear -Hp. destruct Hp as (c0 & p0 & c1 & p1 & c2 & p2 & c3 & p3 & -> & _ & H0 & H1 & H2 & H3).
    assert (Hc : forall cs v, canonical cs v -> Forall (fun c => ends_address c = false) cs).
    { intros cs v ((ds & Hd & _) & _). induction Hd as [|c d cs ds Hc _ IH]; constructor; [|done].
      revert Hc. unfold dec_digit, ends_address. bcases; done. }
    apply Forall_app; split; [by eapply Hc|constructor; [done|]].
    apply Forall_app; split; [by eapply Hc|constructor; [done|]].
    apply Forall_app; split; [by eapply Hc|constructor; [done|]]. by eapply Hc. }
  assert (Hdot : chr (skip_while in_group quad) = 46).
  { clear -Hp. destruct Hp as (c0 & p0 & c1 & p1 & c2 & p2 & c3 & p3 & -> & _ & ((ds & Hd & _) & _) & _).
    rewrite skip_blanks_app; [done| |done]. induction Hd as [|c d cs ds Hc _ IH]; constructor; [|done].
    revert Hc. unfold dec_digit, in_group. bcases; done. }
  assert (Htq : forall n, n + zlen quad <= 15 -> take_quad n quad = Some (quad, [])).
  { clear -Hchar. induction Hchar as [|c r Hc _ IH]; intros n Hn; [done|]. cbn [take_quad]. rewrite Hc.
    cbn [length] in Hn. rewrite (proj2 (Z.leb_gt _ _)) by lia. by rewrite IH by lia. }
  assert (Hends : ends_address (chr quad) = false).
  { destruct (dotted_head _ _ Hd) as [_ Hz]. destruct Hchar; [done|done]. }
  cbn [ip6_loop]. rewrite Hends, Hdot. change (46 =? 46) with true. cbn iota.
  rewrite Htq by lia. rewrite (parse_dotted quad p0 p1 p2 p3 Hcs Hd), <- Ev.
  rewrite (proj2 (Z.ltb_ge _ _)) by lia.
  replace (u16 (Z.shiftr a 16)) with (a / 65536) by (rewrite Z.shiftr_div_pow2 by lia; word_lia).
  replace (u16 (Z.land a 0xFFFF)) with (a mod 65536)
    by (change 0xFFFF with (Z.ones 16); rewrite Z.land_ones by lia; word_lia).
  destruct (put_group_filled g m (a / 65536) Hf) as (g1 & -> & H1); [lia|word_lia|]. cbn [obind].
  destruct (put_group_filled g1 _ (a mod 65536) H1) as (g2 & E2 & H2); [rewrite length_app; simpl; lia|word_lia|].
  replace (zlen (m ++ [a / 65536])) with (zlen m + 1) in E2 by (rewrite length_app; simpl; lia).
  rewrite E2. cbn [obind]. exists g2. split; [by rewrite <- app_assoc in H2|done].
Qed.

(** The texts that are printed for eight groups. *)
Inductive printed6 : list Z -> list Z -> Prop :=
| printed_full gs : length gs = 8%nat -> printed6 (join_groups gs) gs
| printed_gap l1 n l2 :
    (length l1 + n + length l2 = 8)%nat -> (0 < n)%nat ->
    printed6 (join_groups l1 ++ 58 :: 58 :: join_groups l2) (l1 ++ replicate n 0 ++ l2)
| printed_quad n l quad a :
    (n + length l = 6)%nat -> (0 < n)%nat -> is_u32 a -> printed4 quad a ->
    printed6 (58 :: 58 :: concat (map (fun v => hex_text v ++ [58]) l) ++ quad)
             (replicate n 0 ++ l ++ [a / 65536; a mod 65536]).

(** What the parser makes of the groups and a gap. *)
Lemma inner_finish s0 gap s g l1 l2 L want_prefix zone_len :
  (chr s0 =? 58) && negb (chr (tl s0) =? 58) = false -> is_blank (chr s0) = false ->
  (if chr s0 =? 58 then (0, tl (tl s0)) else (-1, s0)) = (gap, s) ->
  ip6_loop 9 no_groups 0 gap s =
    Val (Some (g, zlen (l1 ++ l2), if decide (L = l1 ++ l2) then -1 else zlen l1, [])) ->
  filled g (l1 ++ l2) ->
  ((L = l1 ++ l2 /\ length L = 8%nat) \/
   (L <> l1 ++ l2 /\ (length (l1 ++ l2) < 8)%nat /\ L = l1 ++ replicate (8 - length (l1 ++ l2)) 0 ++ l2)) ->
  ami_cfg_parse_ip6_inner (Some s0) want_prefix zone_len =
    let! out := group_words 4 0 (map Some L) in Val (Some (out, None, None)).
Proof.
  intros H1 H2 H3 Hloop Hf HL. unfold ami_cfg_parse_ip6_inner.
  assert (Es : skip_while is_blank s0 = s0) by (destruct s0 as [|c r]; [done|]; simpl in *; by rewrite H2).
  rewrite Es, H1, H3, Hloop. cbn [obind ip6_zone ip6_prefix chr Z.eqb skip_while negb].
  destruct HL as [[E HL]|(Hne & Hlt & HL)].
  - rewrite decide_True by done. destruct Hf as (Hg & _ & Ht & _). rewrite <- E in *.
    unfold spread_groups. rewrite (proj2 (Z.eqb_eq _ _)) by lia. cbn [Z.ltb Z.compare obind].
    by rewrite <- Ht, take_ge by lia.
  - rewrite decide_False by done. rewrite spread_gap by done. cbn [obind]. by rewrite <- HL.
Qed.

Lemma join_head l t : Forall is_u16 l -> l <> [] ->
  chr (join_groups l ++ t) <> 58 /\ ends_address (chr (join_groups l ++ t)) = false /\
  is_blank (chr (join_groups l ++ t)) = false.
Proof.
  intros Hu Hl. destruct l as [|v l]; [done|]. apply Forall_cons in Hu as [Hv _].
  cbn [join_groups]. rewrite <- app_assoc. by apply hex_text_head.
Qed.

(** The loop on the groups after a gap. *)
Lemma loop_rest l2 f g m gap :
  filled g m -> (length (m ++ l2) <= 8)%nat -> Forall is_u16 l2 ->
  exists g', filled g' (m ++ l2) /\
    ip6_loop (S (length l2 + f)) g (zlen m) gap (join_groups l2) = Val (Some (g', zlen (m ++ l2), gap, [])).
Proof.
  intros Hf Hl Hu. destruct l2 as [|v l2].
  - exists g. by rewrite app_nil_r.
  - destruct (loop_groups v l2 (S f) g m gap [] Hf Hl Hu) as (g' & Hf' & E); [by left|].
    exists g'. split; [done|]. rewrite app_nil_r, Nat.add_succ_r in E. by rewrite E.
Qed.

Lemma printed_full_reads gs want_prefix zone_len :
  length gs = 8%nat -> Forall is_u16 gs ->
  ami_cfg_parse_ip6_inner (Some (join_groups gs)) want_prefix zone_len =
    let! out := group_words 4 0 (map Some gs) in Val (Some (out, None, None)).
Proof.
  intros Hl Hu. destruct (join_head gs [] Hu) as (H1 & H2 & H3); [by intros ->|]. rewrite app_nil_r in *.
  destruct (loop_rest gs 0 no_groups [] (-1) filled_nil) as (g' & Hf' & E); [simpl; lia|done|].
  apply Z.eqb_neq in H1. rewrite Hl in E.
  apply (inner_finish _ (-1) (join_groups gs) g' gs []); rewrite ?app_nil_r; try done.
  - by rewrite H1.
  - by rewrite H1.
  - by rewrite decide_True.
  - by left.
Qed.

Lemma printed_gap_reads l1 n l2 want_prefix zone_len :
  (length l1 + n + length l2 = 8)%nat -> (0 < n)%nat -> Forall is_u16 l1 -> Forall is_u16 l2 ->
  ami_cfg_parse_ip6_inner (Some (join_groups l1 ++ 58 :: 58 :: join_groups l2)) want_prefix zone_len =
    let! out := group_words 4 0 (map Some (l1 ++ replicate n 0 ++ l2)) in Val (Some (out, None, None)).
Proof.
  intros Hl Hn Hu1 Hu2.
  assert (HL : l1 ++ replicate n 0 ++ l2 <> l1 ++ l2).
  { intros E%(f_equal length). rewrite !length_app, length_replicate in E. lia. }
  assert (HL' : (length (l1 ++ l2) < 8)%nat /\
    l1 ++ replicate n 0 ++ l2 = l1 ++ replicate (8 - length (l1 ++ l2)) 0 ++ l2).
  { rewrite length_app. split; [lia|]. do 3 f_equal. lia. }
  destruct l1 as [|v l1].
  - destruct (loop_rest l2 (8 - length l2) no_groups [] 0 filled_nil) as (g' & Hf' & E); [simpl in *; lia|done|].
    replace (S (length l2 + (8 - length l2)))%nat with 9%nat in E by (simpl in *; lia).
    apply (inner_finish _ 0 (join_groups l2) g' [] l2); try done; [|by right].
    by rewrite decide_False.
  - destruct (join_head (v :: l1) (58 :: 58 :: join_groups l2) Hu1) as (H1 & H2 & H3); [done|].
    apply Z.eqb_neq in H1.
    destruct (loop_groups v l1 (9 - length (v :: l1)) no_groups [] (-1) (58 :: 58 :: join_groups l2) filled_nil)
      as (g1 & Hf1 & E1); [simpl in *; lia|done|by right|].
    destruct (loop_rest l2 (9 - length (v :: l1) - 1 - length l2) g1 ([] ++ v :: l1) (zlen (v :: l1)) Hf1)
      as (g2 & Hf2 & E2); [simpl; rewrite length_app; simpl in *; lia|done|].
    replace (length (v :: l1) + (9 - length (v :: l1)))%nat with 9%nat in E1 by (simpl in *; lia).
    apply (inner_finish _ (-1) (join_groups (v :: l1) ++ 58 :: 58 :: join_groups l2) g2 (v :: l1) l2); try done;
      [by rewrite H1|by rewrite H1| |by right].
    rewrite decide_False by done. change (zlen (@nil Z)) with 0 in E1. rewrite E1. cbn [app] in *. unfold after_group.
    cbn [chr tl Z.eqb Pos.eqb negb Z.leb Z.compare].
    replace (S (length l2 + (9 - length (v :: l1) - 1 - length l2))) with (9 - length (v :: l1))%nat in E2
      by (simpl in *; lia).
    destruct l2 as [|w l2].
    + cbn [join_groups chr]. rewrite app_nil_r in *. change (ends_address 0) with true. cbn iota.
      rewrite <- E2. destruct (9 - length (v :: l1))%nat eqn:Hk; [simpl in *; lia|done].
    + destruct (join_head (w :: l2) [] Hu2) as (_ & H5 & _); [done|]. rewrite app_nil_r in H5.
      rewrite H5. exact E2.
Qed.

Lemma quad_head quad a : printed4 quad a -> chr quad <> 58 /\ ends_address (chr quad) = false.
Proof.
  intros (c0 & p0 & ? & ? & ? & ? & ? & ? & -> & _ & ((ds & Hd & Hne & _) & _) & _).
  destruct Hd as [|c d cs ds Hc _]; [done|]. cbn [app chr].
  apply dec_digit_inv in Hc as [-> Hd]. unfold ends_address. bcases; split; done || lia.
Qed.

Definition group_colons (l : list Z) : list Z := concat (map (fun v => hex_text v ++ [58]) l).

Lemma loop_then_quad l f g m gap quad a :
  filled g m -> (length m + length l <= 6)%nat -> Forall is_u16 l -> is_u32 a -> printed4 quad a ->
  exists g', filled g' (m ++ l ++ [a / 65536; a mod 65536]) /\
    ip6_loop (S (length l + f)) g (zlen m) gap (group_colons l ++ quad) =
      Val (Some (g', zlen (m ++ l ++ [a / 65536; a mod 65536]), gap, [])).
Proof.
  intros Hf Hl Hu Ha Hp. revert g m Hf Hl. induction Hu as [|v l Hv Hu IH]; intros g m Hf Hl; cbn [length] in Hl.
  - destruct (loop_quad f g m gap quad a Hf) as (g' & Hf' & E); [lia|done..|]. exists g'. split; [done|].
    cbn [group_colons map concat app length Nat.add]. rewrite E, length_app. cbn [length].
    do 5 f_equal. lia.
  - destruct (ip6_loop_hex (S (length l + f)) g m gap v (58 :: group_colons l ++ quad) Hf) as (g1 & Hf1 & E1);
      [lia|done|by right|].
    destruct (IH g1 (m ++ [v]) Hf1) as (g2 & Hf2 & E2); [rewrite length_app; simpl; lia|].
    exists g2. rewrite <- app_assoc in Hf2, E2. split; [done|]. cbn [app] in E2.
    assert (Hh : chr (group_colons l ++ quad) <> 58 /\ ends_address (chr (group_colons l ++ quad)) = false).
    { destruct Hu as [|w l Hw _]; [by eapply quad_head|]. cbn [group_colons map concat]. rewrite <- !app_assoc.
      destruct (hex_text_head w ([58] ++ concat (map (fun v => hex_text v ++ [58]) l) ++ quad) Hw) as (? & ? & _). done. }
    destruct Hh as [H1 H2].
    replace (group_colons (v :: l) ++ quad) with (hex_text v ++ 58 :: group_colons l ++ quad)
      by (cbn [group_colons map concat]; by rewrite <- !app_assoc).
    cbn [length Nat.add]. rewrite E1. unfold after_group. cbn [chr tl Z.eqb Pos.eqb negb].
    rewrite (proj2 (Z.eqb_neq _ _) H1), H2. exact E2.
Qed.

Lemma printed_quad_reads n l quad a want_prefix zone_len :
  (n + length l = 6)%nat -> (0 < n)%nat -> Forall is_u16 l -> is_u32 a -> printed4 quad a ->
  ami_cfg_parse_ip6_inner (Some (58 :: 58 :: group_colons l ++ quad)) want_prefix zone_len =
    let! out := group_words 4 0 (map Some (replicate n 0 ++ l ++ [a / 65536; a mod 65536])) in
    Val (Some (out, None, None)).
Proof.
  intros Hl Hn Hu Ha Hp. set (l2 := l ++ [a / 65536; a mod 65536]).
  assert (Hlen : length l2 = (8 - n)%nat) by (unfold l2; rewrite length_app; simpl; lia).
  destruct (loop_then_quad l (8 - length l) no_groups [] 0 quad a filled_nil) as (g' & Hf & E); [simpl; lia|done..|].
  replace (S (length l + (8 - length l)))%nat with 9%nat in E by lia. cbn [app] in *. fold l2 in Hf, E.
  assert (HL : replicate n 0 ++ l2 <> [] ++ l2).
  { intros H%(f_equal length). rewrite !length_app, length_replicate in H. simpl in H. lia. }
  apply (inner_finish _ 0 (group_colons l ++ quad) g' [] l2); try done.
  - rewrite decide_False by done. exact E.
  - right. split; [done|]. cbn [app]. split; [lia|]. do 2 f_equal. lia.
Qed.

(** Every printed text is read back as its groups. *)
Lemma printed6_reads text gs want_prefix zone_len :
  printed6 text gs -> Forall is_u16 gs ->
  ami_cfg_parse_ip6_inner (Some text) want_prefix zone_len =
    let! out := group_words 4 0 (map Some gs) in Val (Some (out, None, None)).
Proof.
  intros [gs' Hl|l1 n l2 Hl Hn|n l quad a Hl Hn Ha Hp] Hu.
  - by apply printed_full_reads.
  - rewrite !Forall_app in Hu. apply printed_gap_reads; tauto.
  - rewrite !Forall_app in Hu. apply printed_quad_reads; tauto.
Qed.

(** ** What is printed *)

Lemma run_shape gs i best_at best_len run_at run_len :
  zero_runs gs i best_at best_len run_at run_len =
  zero_runs (map (fun v => if v =? 0 then 0 else 1) gs) i best_at best_len run_at run_len.
Proof.
  revert i best_at best_len run_at run_len. induction gs as [|v gs IH]; intros; cbn [map zero_runs]; [done|].
  destruct (v =? 0); cbn [Z.eqb]; [|apply IH].
  destruct (run_at <? 0); destruct (best_len <? _); apply IH.
Qed.

(** The patterns of zero groups, and what the scan finds in each of them. *)
Fixpoint patterns (n : nat) : list (list Z) :=
  match n with
  | O => [[]]
  | S n => map (cons 0) (patterns n) ++ map (cons 1) (patterns n)
  end.

Definition zero_at (gs : list Z) (k : nat) : bool := match gs !! k with Some v => v =? 0 | None => false end.
Definition zero_run (gs : list Z) (at_ len : nat) : bool := forallb (zero_at gs) (seq at_ len).

(** [(at, len)] is the leftmost longest run of two or more, [at < 0] for none. *)
Definition best_run_check (gs : list Z) : bool :=
  let '(at_, len) := best_run gs in
  let runs := list_prod (seq 0 8) (seq 2 7) in
  if at_ <? 0 then (at_ =? -1) && forallb (fun '(a, n) => negb (zero_run gs a n)) runs
  else
    (2 <=? len) && (at_ + len <=? 8) && zero_run gs (Z.to_nat at_) (Z.to_nat len) &&
    forallb (fun '(a, n) => negb (zero_run gs a n) || (Z.of_nat n <? len) ||
                            ((Z.of_nat n =? len) && (at_ <=? Z.of_nat a))) runs.

Lemma patterns_all gs : In (map (fun v => if v =? 0 then 0 else 1) gs) (patterns (length gs)).
Proof.
  induction gs as [|v gs IH]; simpl; [by left|]. apply in_app_iff.
  destruct (v =? 0); [left|right]; by apply in_map.
Qed.

Lemma forallb_ext {A} (p q : A -> bool) l : (forall x, p x = q x) -> forallb p l = forallb q l.
Proof. intros H. induction l as [|x l IH]; simpl; [done|]. by rewrite H, IH. Qed.

Lemma zero_run_shape gs a n : zero_run (map (fun v => if v =? 0 then 0 else 1) gs) a n = zero_run gs a n.
Proof.
  unfold zero_run. apply forallb_ext. intros k. unfold zero_at. rewrite list_lookup_fmap.
  destruct (gs !! k) as [v|]; [|done]. simpl. by destruct (v =? 0).
Qed.

Lemma best_run_checked gs : length gs = 8%nat -> best_run_check gs = true.
Proof.
  intros Hl. pose proof (patterns_all gs) as Hin. rewrite Hl in Hin.
  assert (Hall : forallb best_run_check (patterns 8) = true) by (vm_compute; reflexivity).
  rewrite forallb_forall in Hall. specialize (Hall _ Hin). revert Hall.
  unfold best_run_check, best_run. rewrite <- run_shape.
  destruct (zero_runs gs 0 (-1) 0 (-1) 0) as [a l].
  destruct (if l <? 2 then (-1, l) else (a, l)) as [at_ len]. rewrite zero_run_shape.
  intros H. rewrite <- H. destruct (at_ <? 0).
  - f_equal. apply forallb_ext. intros [x y]. by rewrite zero_run_shape.
  - f_equal. apply forallb_ext. intros [x y]. by rewrite zero_run_shape.
Qed.

Lemma zero_run_split gs a n :
  zero_run gs a n = true -> (a + n <= length gs)%nat ->
  gs = take a gs ++ replicate n 0 ++ drop (a + n) gs.
Proof.
  intros H Hl. rewrite <- (take_drop a gs) at 1. f_equal. rewrite <- (take_drop n (drop a gs)) at 1.
  rewrite drop_drop. f_equal. apply list_eq. intros k. unfold zero_run in H. rewrite forallb_forall in H.
  destruct (decide (k < n)%nat).
  - rewrite lookup_take_lt, lookup_drop, lookup_replicate_2 by lia.
    specialize (H (a + k)%nat). unfold zero_at in H. destruct (gs !! (a + k)%nat) as [v|] eqn:E.
    + rewrite (proj1 (Z.eqb_eq v 0)); [done|]. apply H, in_seq. lia.
    + apply lookup_ge_None in E. lia.
  - rewrite lookup_take_ge by lia. symmetry. apply lookup_replicate_None. lia.
Qed.

Section Emit.
Context (group : list Z) (g5 : Z) (b n : Z).
Hypothesis Hgroup : fetch group 5 = Val g5.

(** The address is printed with a dotted tail. *)
Let dotted_tail : bool := (b =? 0) && ((n =? 6) || ((n =? 5) && (g5 =? 0xFFFF))).

Lemma emit_step v i rest r :
  is_u16 v -> (0 <=? b) && (b <=? i) && (i <? b + n) = false -> i <> 6 \/ dotted_tail = false ->
  emit_groups group b n (i + 1) rest = Val r ->
  emit_groups group b n i (v :: rest) =
    Val ((if negb (i =? 0) then [58] else []) ++ hex_text v ++ r).
Proof.
  intros Hv Hrun Hdot Hr. cbn [emit_groups]. rewrite Hrun, Hgroup. cbn [obind].
  assert (Hno : (i =? 6) && (b =? 0) && ((n =? 6) || (n =? 5) && (g5 =? 0xFFFF)) = false).
  { rewrite <- andb_assoc. fold dotted_tail. destruct Hdot as [Hd| ->]; [|apply andb_false_r].
    by rewrite (proj2 (Z.eqb_neq i 6)). }
  rewrite Hno. destruct (hex_text_spec v Hv) as [-> _]. cbn [obind]. by rewrite Hr.
Qed.

Lemma emit_colon vs i rest r :
  Forall is_u16 vs -> 0 < i ->
  (forall k, i <= k < i + zlen vs -> (0 <=? b) && (b <=? k) && (k <? b + n) = false) ->
  i + zlen vs <= 6 \/ dotted_tail = false ->
  emit_groups group b n (i + zlen vs) rest = Val r ->
  emit_groups group b n i (vs ++ rest) = Val (colon_groups vs ++ r).
Proof.
  intros Hu. revert i. induction Hu as [|v vs Hv Hu IH]; intros i Hi Hrun Hdot Hr.
  - simpl in Hr. by rewrite Z.add_0_r in Hr.
  - cbn [length] in *. cbn [app]. rewrite (emit_step v i (vs ++ rest) (colon_groups vs ++ r)); [|done| | |].
    + rewrite (proj2 (Z.eqb_neq i 0)) by lia. cbn [negb app colon_groups map concat]. by rewrite <- app_assoc.
    + apply Hrun. lia.
    + destruct Hdot; [left; lia|by right].
    + apply IH; [lia| | |].
      * intros k Hk. apply Hrun. lia.
      * destruct Hdot; [left; lia|by right].
      * replace (i + 1 + zlen vs) with (i + Z.of_nat (S (length vs))) by lia. done.
Qed.

Lemma emit_run k i rest r :
  0 <= b <= i -> i + Z.of_nat k <= b + n ->
  emit_groups group b n (i + Z.of_nat k) rest = Val r ->
  emit_groups group b n i (replicate k 0 ++ rest) =
    Val ((if (i =? b) && (0 <? k)%nat then [58] else []) ++ r).
Proof.
  revert i. induction k as [|k IH]; intros i Hb Hn Hr.
  - simpl in Hr. rewrite Z.add_0_r in Hr. by rewrite andb_false_r.
  - cbn [replicate app emit_groups].
    rewrite (proj2 (Z.leb_le 0 b)), (proj2 (Z.leb_le b i)), (proj2 (Z.ltb_lt i _)) by lia. cbn [andb].
    rewrite IH; [|lia..|by replace (i + 1 + Z.of_nat k) with (i + Z.of_nat (S k)) by lia]. cbn [obind].
    rewrite (proj2 (Z.eqb_neq (i + 1) b)) by lia. cbn [andb app].
    change (0 <? S k)%nat with true. by rewrite andb_true_r.
Qed.

(** The groups at the front, which have no colon before the first. *)
Lemma emit_front l1 rest r :
  Forall is_u16 l1 ->
  (forall k, 0 <= k < zlen l1 -> (0 <=? b) && (b <=? k) && (k <? b + n) = false) ->
  zlen l1 <= 6 \/ dotted_tail = false ->
  emit_groups group b n (zlen l1) rest = Val r ->
  emit_groups group b n 0 (l1 ++ rest) = Val (join_groups l1 ++ r).
Proof.
  intros Hu Hrun Hdot Hr. destruct Hu as [|v l1 Hv Hu]; [done|]. cbn [length app join_groups] in *.
  rewrite (emit_step v 0 (l1 ++ rest) (colon_groups l1 ++ r)); [|done| |by left|].
  - cbn [Z.eqb negb app]. by rewrite <- app_assoc.
  - apply Hrun. lia.
  - apply emit_colon; [done|lia| | |].
    + intros k Hk. apply Hrun. lia.
    + destruct Hdot; [left; lia|by right].
    + by replace (0 + 1 + zlen l1) with (Z.of_nat (S (length l1))) by lia.
Qed.
End Emit.

(** The whole text from the groups, without the words they came from. *)
Abbreviation format_groups gs :=
  (let '(best_at, best_len) := best_run gs in
   let! text := emit_groups gs best_at best_len 0 gs in
   Val (text ++ if (0 <=? best_at) && (best_at + best_len =? 8) then [58] else [])).

Lemma emit_full gs n :
  length gs = 8%nat -> Forall is_u16 gs -> emit_groups gs (-1) n 0 gs = Val (join_groups gs).
Proof.
  intros Hl Hu. destruct (fetch_val gs 5) as (g5 & H5 & _); [lia|].
  rewrite <- (app_nil_r gs) at 2. rewrite (emit_front gs g5 (-1) n H5 gs [] []); try done; [|by right].
  by rewrite app_nil_r.
Qed.

Section Gap.
Context (l1 l2 : list Z) (n : nat).
Abbreviation gs := (l1 ++ replicate n 0 ++ l2).
Abbreviation b := (zlen l1).
Hypothesis Hlen : length gs = 8%nat.
Hypothesis Hn : (2 <= n)%nat.
Hypothesis Hu1 : Forall is_u16 l1.
Hypothesis Hu2 : Forall is_u16 l2.

Lemma gap_lengths : (length l1 + n + length l2 = 8)%nat.
Proof. rewrite !length_app, length_replicate in Hlen. lia. Qed.

(** Everything up to the end of the run, given the text of what follows it. *)
Lemma emit_to_gap g5 r :
  fetch gs 5 = Val g5 -> emit_groups gs b (Z.of_nat n) (b + Z.of_nat n) l2 = Val r ->
  emit_groups gs b (Z.of_nat n) 0 gs = Val (join_groups l1 ++ 58 :: r).
Proof.
  intros H5 Hr. pose proof gap_lengths. rewrite (emit_front gs g5 b (Z.of_nat n) H5 l1 _ (58 :: r)); [done|done| |left; lia|].
  - intros k Hk. rewrite (proj2 (Z.leb_gt b k)) by lia. by rewrite andb_false_r.
  - rewrite (emit_run gs b (Z.of_nat n) n b l2 r) by (done || lia).
    rewrite Z.eqb_refl, (proj2 (Nat.ltb_lt 0 n)) by lia. done.
Qed.

Lemma emit_gap_plain g5 :
  fetch gs 5 = Val g5 -> (b =? 0) && ((Z.of_nat n =? 6) || (Z.of_nat n =? 5) && (g5 =? 0xFFFF)) = false ->
  emit_groups gs b (Z.of_nat n) 0 gs = Val (join_groups l1 ++ 58 :: colon_groups l2).
Proof.
  intros H5 Hdot. pose proof gap_lengths. apply (emit_to_gap g5); [done|].
  rewrite <- (app_nil_r l2) at 2. rewrite (emit_colon gs g5 b (Z.of_nat n) H5 l2 _ [] []); [by rewrite app_nil_r|done|lia| |by right|done].
  intros k Hk. rewrite (proj2 (Z.ltb_ge k _)) by lia. by rewrite andb_false_r.
Qed.
End Gap.

(** The dotted tail, after the groups between the run and it. *)
Lemma emit_quad n l h w :
  (n + length l = 6)%nat -> (n = 6%nat \/ n = 5%nat /\ l = [0xFFFF]) -> Forall is_u16 l -> is_u16 h -> is_u16 w ->
  let gs := replicate n 0 ++ l ++ [h; w] in
  exists quad, printed4 quad (h * 65536 + w) /\
    emit_groups gs 0 (Z.of_nat n) 0 gs = Val (58 :: 58 :: group_colons l ++ quad).
Proof.
  intros Hl Hcase Hu Hh Hw gs. assert (Ha : is_u32 (h * 65536 + w)) by word_lia.
  destruct (printed4_exists _ Ha) as (quad & Eq & Hq). exists quad. split; [done|].
  assert (E32 : Z.lor (h <<w 16) w = h * 65536 + w).
  { rewrite u32_small by (rewrite Z.shiftl_mul_pow2 by lia; word_lia). by rewrite lor_shift_add by word_lia. }
  rewrite <- E32 in Eq. destruct Hcase as [-> |[-> ->]].
  - destruct l; [|simpl in Hl; lia]. unfold gs. cbv -[ami_format_ip4 Z.lor Z.shiftl u32]. by rewrite Eq.
  - unfold gs. cbv -[ami_format_ip4 Z.lor Z.shiftl u32 hex_digits hex_text]. rewrite Eq.
    by destruct (hex_text_spec 0xFFFF ltac:(word_lia)) as [-> _].
Qed.

(** The scan's result, as the shape of the groups. *)
Lemma best_run_shape gs :
  length gs = 8%nat ->
  fst (best_run gs) = -1 \/
  exists l1 n l2, gs = l1 ++ replicate n 0 ++ l2 /\ (2 <= n)%nat /\ best_run gs = (zlen l1, Z.of_nat n).
Proof.
  intros Hl. pose proof (best_run_checked gs Hl) as Hc. unfold best_run_check in Hc.
  destruct (best_run gs) as [a n]. destruct (Z.ltb_spec a 0) as [Ha|Ha].
  { left. apply andb_true_iff in Hc as [Hc _]. by apply Z.eqb_eq in Hc. }
  rewrite !andb_true_iff, !Z.leb_le in Hc. destruct Hc as (((Hn & Ha8) & Hz) & _). right.
  exists (take (Z.to_nat a) gs), (Z.to_nat n), (drop (Z.to_nat a + Z.to_nat n) gs).
  split; [apply zero_run_split; [done|lia]|]. split; [lia|]. rewrite length_take. f_equal; lia.
Qed.

Lemma colon_join l : colon_groups l ++ (if (length l =? 0)%nat then [58] else []) = 58 :: join_groups l.
Proof. destruct l as [|v l]; [done|]. cbn [length Nat.eqb]. by rewrite app_nil_r. Qed.

Lemma format_printed gs :
  length gs = 8%nat -> Forall is_u16 gs -> exists text, format_groups gs = Val text /\ printed6 text gs.
Proof.
  intros Hl Hu. destruct (best_run_shape gs Hl) as [Hnone|(l1 & n & l2 & -> & Hn & ->)].
  { destruct (best_run gs) as [a n]. cbn [fst] in Hnone. subst a. rewrite emit_full by done.
    eexists. split; [done|]. cbn [Z.leb Z.compare andb]. rewrite app_nil_r. by apply printed_full. }
  rewrite !Forall_app in Hu. destruct Hu as (Hu1 & _ & Hu2). pose proof (gap_lengths l1 l2 n Hl) as Hlen.
  destruct (fetch_val (l1 ++ replicate n 0 ++ l2) 5) as (g5 & H5 & L5); [lia|].
  destruct ((zlen l1 =? 0) && ((Z.of_nat n =? 6) || (Z.of_nat n =? 5) && (g5 =? 0xFFFF))) eqn:Hdot.
  - rewrite andb_true_iff, orb_true_iff, andb_true_iff, !Z.eqb_eq in Hdot. destruct Hdot as [H0 Hcase].
    assert (l1 = []) as -> by (apply nil_length_inv; lia). cbn [app length] in *.
    assert (Hshape : exists l h w, l2 = l ++ [h; w] /\ (n + length l = 6)%nat /\ (n = 6%nat \/ n = 5%nat /\ l = [0xFFFF])).
    { destruct Hcase as [H6|[H6 H7]].
      - assert (n = 6%nat) as -> by lia. destruct l2 as [|h [|w [|]]]; simpl in Hlen; try lia.
        exists [], h, w. simpl. auto.
      - assert (n = 5%nat) as -> by lia. destruct l2 as [|x [|h [|w [|]]]]; simpl in Hlen; try lia.
        simpl in L5. injection L5 as ->. exists [g5], h, w. subst g5. simpl. auto. }
    destruct Hshape as (l & h & w & -> & Hnl & Hc). apply Forall_app in Hu2 as [Hul Huw].
    rewrite !Forall_cons in Huw. destruct Huw as (Hh & Hw & _).
    destruct (emit_quad n l h w Hnl Hc Hul Hh Hw) as (quad & Hq & E). cbv zeta in E.
    change (Z.of_nat 0) with 0. rewrite E. eexists. split; [done|].
    rewrite (proj2 (Z.eqb_neq _ 8)), andb_false_r, app_nil_r by lia.
    assert (Ha : is_u32 (h * 65536 + w)) by word_lia.
    replace [h; w] with [(h * 65536 + w) / 65536; (h * 65536 + w) mod 65536] by (f_equal; [word_lia|f_equal; word_lia]).
    apply printed_quad; [lia..|done|done].
  - rewrite (emit_gap_plain l1 l2 n Hl Hn Hu1 Hu2 g5 H5 Hdot). eexists. split; [done|].
    replace (if (0 <=? zlen l1) && (zlen l1 + Z.of_nat n =? 8) then [58] else [])
      with (if (length l2 =? 0)%nat then [58] else []).
    + rewrite <- app_assoc. cbn [app]. rewrite colon_join. apply printed_gap; lia.
    + rewrite (proj2 (Z.leb_le 0 _)) by lia. cbn [andb].
      destruct (Nat.eqb_spec (length l2) 0), (Z.eqb_spec (zlen l1 + Z.of_nat n) 8); done || lia.
Qed.

(** ** Round trip *)

Definition ip6_addr (addr : list Z) : Prop := length addr = 4%nat /\ Forall is_u32 addr.

Lemma ip6_groups_ok addr : ip6_addr addr -> length (ip6_groups addr) = 8%nat /\ Forall is_u16 (ip6_groups addr).
Proof.
  intros [Hl Hu]. do 4 (destruct addr as [|? addr]; [done|]). destruct addr; [|done]. split; [done|].
  repeat constructor; apply u16_range.
Qed.

Lemma join_words w : is_u32 w -> Z.lor (u16 (Z.shiftr w 16) <<w 16) (u16 (Z.land w 0xFFFF)) = w.
Proof.
  intros Hw. change 0xFFFF with (Z.ones 16). rewrite Z.land_ones, Z.shiftr_div_pow2 by lia.
  rewrite !u16_small by word_lia. rewrite u32_small by (rewrite Z.shiftl_mul_pow2 by lia; word_lia).
  rewrite lor_shift_add by word_lia. word_lia.
Qed.

Lemma group_words_back addr : ip6_addr addr -> group_words 4 0 (map Some (ip6_groups addr)) = Val addr.
Proof.
  intros [Hl Hu]. destruct addr as [|w0 [|w1 [|w2 [|w3 [|]]]]]; try done. rewrite !Forall_cons in Hu.
  destruct Hu as (H0 & H1 & H2 & H3 & _).
  transitivity (Val [Z.lor (u16 (Z.shiftr w0 16) <<w 16) (u16 (Z.land w0 0xFFFF));
                     Z.lor (u16 (Z.shiftr w1 16) <<w 16) (u16 (Z.land w1 0xFFFF));
                     Z.lor (u16 (Z.shiftr w2 16) <<w 16) (u16 (Z.land w2 0xFFFF));
                     Z.lor (u16 (Z.shiftr w3 16) <<w 16) (u16 (Z.land w3 0xFFFF))]); [reflexivity|].
  by rewrite !join_words.
Qed.

(** Printed text fits: at most five characters a group, or the dotted tail. *)
Lemma colon_groups_text l : Forall is_u16 l -> cstring (colon_groups l) /\ (length (colon_groups l) <= 5 * length l)%nat.
Proof.
  induction 1 as [|v l Hv _ [IHc IHl]]; [by split; [constructor|]|].
  destruct (hex_text_spec v Hv) as (_ & Hlen & _). cbn [colon_groups map concat]. split.
  - cbn [app]. constructor; [lia|]. apply cstring_app. split; [|done].
    eapply Forall_impl; [by apply hex_text_chars|]. simpl. tauto.
  - fold (colon_groups l). rewrite length_app. cbn [length]. lia.
Qed.

Lemma join_groups_text l : Forall is_u16 l -> cstring (join_groups l) /\ (length (join_groups l) + 1 <= 5 * length l \/ l = [])%nat.
Proof.
  intros Hu. destruct Hu as [|v l Hv Hu]; [split; [constructor|by right]|].
  destruct (colon_groups_text (v :: l)) as [Hc Hl]; [by constructor|]. cbn [colon_groups map concat app] in Hc, Hl.
  inversion Hc; subst. split; [done|]. left. exact Hl || (cbn [join_groups length app] in *; unfold colon_groups; lia).
Qed.

Lemma group_colons_text l : Forall is_u16 l -> cstring (group_colons l) /\ (length (group_colons l) <= 5 * length l)%nat.
Proof.
  induction 1 as [|v l Hv _ [IHc IHl]]; [by split; [constructor|]|].
  destruct (hex_text_spec v Hv) as (_ & Hlen & _). cbn [group_colons map concat]. split.
  - apply cstring_app. split; [|done]. apply cstring_app. split; [|repeat constructor].
    eapply Forall_impl; [by apply hex_text_chars|]. simpl. tauto.
  - fold (group_colons l). rewrite !length_app. cbn [length]. lia.
Qed.

Lemma printed6_text text gs : printed6 text gs -> Forall is_u16 gs -> cstring text /\ (length text <= 45)%nat.
Proof.
  intros [gs' Hl|l1 n l2 Hl Hn|n l quad a Hl Hn Ha Hp] Hu.
  - destruct (join_groups_text gs' Hu) as [Hc [Hlen| ->]]; [split; [done|lia]|done].
  - rewrite !Forall_app in Hu. destruct Hu as (H1 & _ & H2).
    destruct (join_groups_text l1 H1) as [Hc1 Hl1]. destruct (join_groups_text l2 H2) as [Hc2 Hl2].
    split; [apply cstring_app; split; [done|]; by repeat (constructor; [lia|])|].
    rewrite length_app. cbn [length]. destruct Hl1 as [Hl1| ->], Hl2 as [Hl2| ->]; cbn [join_groups length] in *; lia.
  - rewrite !Forall_app in Hu. destruct Hu as (_ & Hu & _). destruct (group_colons_text l Hu) as [Hc Hlen].
    destruct (printed4_text _ _ Hp) as [Hcq Hlq]. fold (group_colons l).
    split; [repeat (constructor; [lia|]); by apply cstring_app|]. cbn [length]. rewrite length_app.
    destruct n as [|n]; [lia|]. destruct (decide (length l <= 5)%nat); lia.
Qed.

Lemma ip6_prints addr : ip6_addr addr ->
  exists text, ami_format_ip6 addr = Val text /\ printed6 text (ip6_groups addr).
Proof. intros Ha. destruct (ip6_groups_ok addr Ha) as [Hl Hu]. exact (format_printed _ Hl Hu). Qed.

Lemma ip6_reads addr text want_prefix zone_len :
  ip6_addr addr -> ami_format_ip6 addr = Val text ->
  ami_cfg_parse_ip6_inner (Some text) want_prefix zone_len = Val (Some (addr, None, None)).
Proof.
  intros Ha E. destruct (ip6_prints addr Ha) as (t & E' & Hp). rewrite E in E'. injection E' as <-.
  destruct (ip6_groups_ok addr Ha) as [Hl Hu]. rewrite (printed6_reads _ _ _ _ Hp Hu).
  by rewrite group_words_back.
Qed.

(** The parser [inet_pton] uses. *)
Definition read_ip6 (s : list Z) : option (list Z) :=
  match ami_config_parse_ip6 (Some s) false with Val (Some (out, _)) => Some out | _ => None end.

#[export] Instance ip6_codec : TextCodec ip6_addr ami_format_ip6 read_ip6 45.
Proof.
  split.
  - intros addr Ha. destruct (ip6_prints addr Ha) as (text & E & Hp). exists text. split; [done|].
    destruct (ip6_groups_ok addr Ha) as [_ Hu]. by apply (printed6_text _ (ip6_groups addr)).
  - intros addr s Ha E. unfold read_ip6, ami_config_parse_ip6. by rewrite (ip6_reads addr s false None Ha E).
Qed.

(** C40 Every IPv6 address prints in at most 45 characters and is read back as the
    same four words by both parsers, with or without a place for a prefix or a
    zone; the bounded printer leaves that text and its NUL in a buffer of 46 bytes
    or more, and an empty string in a shorter one. *)
Theorem ip6_roundtrip addr buf want_prefix zone_len :
  ip6_addr addr -> (0 < length buf)%nat ->
  exists text, ami_format_ip6 addr = Val text /\ (length text <= 45)%nat /\
    ami_cfg_parse_ip6_inner (Some text) want_prefix zone_len = Val (Some (addr, None, None)) /\
    ami_config_format_ip6 (Some addr) (Some buf) (Z.of_nat (length buf)) =
      Val (Some (if decide (46 <= length buf)%nat then text ++ 0 :: drop (S (length text)) buf
                 else 0 :: drop 1 buf)).
Proof.
  intros Ha Hb. destruct (codec_prints (TextCodec := ip6_codec) addr Ha) as (text & E & Hc & Hl). exists text.
  split_and!; [done..|by apply ip6_reads|].
  unfold ami_config_format_ip6. rewrite (proj2 (Z.eqb_neq _ 0)) by lia.
  rewrite store_at_val by (simpl; lia). cbn [obind]. unfold AMI_CFG_IP6_STRLEN.
  destruct (decide (46 <= length buf)%nat).
  - rewrite (proj2 (Z.ltb_ge _ _)), E by lia. cbn [obind].
    assert (Hlen : length ([0] ++ drop (length [0]) buf) = length buf)
      by (rewrite length_app, length_drop; simpl; lia).
    rewrite store_at_val by (rewrite length_app, Hlen; simpl; lia). cbn [obind].
    rewrite length_app, <- app_assoc. cbn [length app]. rewrite Nat.add_1_r.
    do 4 f_equal. cbn [drop]. by rewrite drop_drop.
  - by rewrite (proj2 (Z.ltb_lt _ _)) by lia.
Qed.

Lemma ip6_roundtrip_witness :
  exists text, ami_format_ip6 [0x20010db8; 0; 0; 1] = Val text /\ (length text <= 45)%nat /\
    ami_cfg_parse_ip6_inner (Some text) true None = Val (Some ([0x20010db8; 0; 0; 1], None, None)) /\
    ami_config_format_ip6 (Some [0x20010db8; 0; 0; 1]) (Some (replicate 20 255)) 20 = Val (Some (0 :: replicate 19 255)).
Proof.
  apply (ip6_roundtrip [0x20010db8; 0; 0; 1] (replicate 20 255) true None); [|simpl; lia].
  split; [done|]. repeat constructor; word_lia.
Defined.

(** The run of groups that is written as "::" is the leftmost of the longest
    runs of two or more zero groups, and there is none when no two neighbours are
    zero (RFC 5952 section 4.2). *)
Theorem elided_run_canonical addr :
  ip6_addr addr ->
  let gs := ip6_groups addr in
  let zeros a n := (forall k, (a <= k < a + n)%nat -> gs !! k = Some 0) in
  let '(at_, len) := best_run gs in
  if decide (at_ < 0) then forall a n, (2 <= n)%nat -> ~ zeros a n
  else 2 <= len /\ at_ + len <= 8 /\ zeros (Z.to_nat at_) (Z.to_nat len) /\
       forall a n, (2 <= n)%nat -> zeros a n -> Z.of_nat n < len \/ (Z.of_nat n = len /\ at_ <= Z.of_nat a).
Proof.
  intros Ha gs zeros. destruct (ip6_groups_ok addr Ha) as [Hl _]. fold gs in Hl.
  assert (Hz : forall a n, zeros a n <-> zero_run gs a n = true).
  { intros a n. unfold zeros, zero_run, zero_at. rewrite forallb_forall. split.
    - intros H k Hk%in_seq. by rewrite H.
    - intros H k Hk. specialize (H k ltac:(apply in_seq; lia)).
      destruct (gs !! k) as [v|]; [|done]. apply Z.eqb_eq in H. by subst v. }
  assert (Hin : forall a n, (2 <= n)%nat -> zeros a n -> In (a, n) (list_prod (seq 0 8) (seq 2 7))).
  { intros a n Hn H. apply in_prod; apply in_seq; split; try lia.
    - pose proof (lookup_lt_Some gs a 0 (H a ltac:(lia))). lia.
    - pose proof (lookup_lt_Some gs (a + n - 1) 0 (H (a + n - 1)%nat ltac:(lia))). lia. }
  pose proof (best_run_checked gs Hl) as Hc. unfold best_run_check in Hc. destruct (best_run gs) as [at_ len].
  destruct (Z.ltb_spec at_ 0) as [Hat|Hat].
  - rewrite decide_True by done. intros a n Hn H. apply andb_true_iff in Hc as [_ Hc].
    rewrite forallb_forall in Hc. specialize (Hc _ (Hin a n Hn H)). simpl in Hc. apply Hz in H. by rewrite H in Hc.
  - rewrite decide_False by lia. rewrite !andb_true_iff, !Z.leb_le in Hc. destruct Hc as (((H1 & H2) & H3) & H4).
    split_and!; [done..|by apply Hz|]. intros a n Hn H. rewrite forallb_forall in H4.
    specialize (H4 _ (Hin a n Hn H)). simpl in H4. apply Hz in H. rewrite H in H4. revert H4. bcases; done || lia.
Qed.

Lemma elided_run_canonical_witness : ip6_addr [0x20010000; 0; 0x10000; 1] /\
  let gs := ip6_groups [0x20010000; 0; 0x10000; 1] in
  let zeros a n := (forall k, (a <= k < a + n)%nat -> gs !! k = Some 0) in
  let '(at_, len) := best_run gs in
  if decide (at_ < 0) then forall a n, (2 <= n)%nat -> ~ zeros a n
  else 2 <= len /\ at_ + len <= 8 /\ zeros (Z.to_nat at_) (Z.to_nat len) /\
       forall a n, (2 <= n)%nat -> zeros a n -> Z.of_nat n < len \/ (Z.of_nat n = len /\ at_ <= Z.of_nat a).
Proof.
  assert (H : ip6_addr [0x20010000; 0; 0x10000; 1]) by (split; [done|]; repeat constructor; word_lia).
  split; [exact H|]. exact (elided_run_canonical [0x20010000; 0; 0x10000; 1] H).
Defined.
