(* ===== verification/Inet.v ===== *)
(** The address conversions of bsdsocket.library ([src/bsdsocket/inet.c], the
    IPv6 byte order of [in6.c], [bsd_set_errno] of [errno.c] and [bsd_af_in]).

    m68k is big-endian, so [BSD_HTONL] and [BSD_NTOHL] are the identity and a
    [struct in_addr] is read as four bytes, most significant first.  [ipv6] is the
    build option AMINETXDUO_IPV6. *)

From Stdlib Require Import ZArith Lia String.
From stdpp Require Import base numbers list strings.
From S2P Require Import Prelude CString ConfigText ConfigText6.
#[local] Open Scope Z_scope.

(** ** The opener's base *)

(** What these vectors touch of [struct AmiSocketBase].  The application's errno
    variable is its size and its contents; [sb_Hooked] are the codes handed to the
    error hook, latest first. *)
Record AmiSocketBase := {
  sb_Errno : Z; sb_ErrnoVar : option (Z * Z); sb_Hooked : list Z;
  sb_NtoABuf : list Z; sb_Fam23 : Z }.

Definition bsd_set_errno (code : Z) (base : AmiSocketBase) : AmiSocketBase :=
  {| sb_Errno := code;
     sb_ErrnoVar :=
       match sb_ErrnoVar base with
       | None => None
       | Some (size, old) =>
           Some (size, if size =? 1 then sext 8 code else if size =? 2 then sext 16 code
                       else if size =? 4 then s32 code else old)
       end;
     sb_Hooked := code :: sb_Hooked base; sb_NtoABuf := sb_NtoABuf base; sb_Fam23 := sb_Fam23 base |}.

Definition AF_INET : Z := 2.
Definition AF_INET6 : Z := 28.
Definition BSD_AF_INET6_23 : Z := 23.
Definition AMI_EFAULT : Z := 14.
Definition AMI_ENOSPC : Z := 28.
Definition AMI_EAFNOSUPPORT : Z := 47.
Definition INADDR_NONE : Z := 0xFFFFFFFF.

Definition bsd_af_in (ipv6 : bool) (base : AmiSocketBase) (af : Z) : Z * AmiSocketBase :=
  if ipv6 && (af =? BSD_AF_INET6_23) then
    (AF_INET6, {| sb_Errno := sb_Errno base; sb_ErrnoVar := sb_ErrnoVar base; sb_Hooked := sb_Hooked base;
                  sb_NtoABuf := sb_NtoABuf base; sb_Fam23 := 1 |})
  else (af, base).

(** ** The 4.3BSD parser *)

Definition inet_digit (base c : Z) : option Z :=
  match ulong_digit base c with
  | Some digit => if base <=? digit then None else Some digit
  | None => None
  end.

(** The radix of a part: 10, or 8 after a zero, or 16 after [0x]; with the digits
    counted so far. *)
Definition inet_radix (cp : list Z) : Z * Z * list Z :=
  if chr cp =? 48 then
    let cp := tl cp in
    if (chr cp =? 120) || (chr cp =? 88) then (16, 0, tl cp) else (8, 1, cp)
  else (10, 0, cp).

(** One part and what follows it; [None] when it has no digit or does not fit in
    32 bits. *)
Definition inet_part (cp : list Z) : option (Z * list Z) :=
  let '(base, digits, cp) := inet_radix cp in
  match accumulate (inet_digit base) 0xFFFFFFFF base 0 digits cp with
  | None => None
  | Some (value, digits, cp) => if digits =? 0 then None else Some (value, cp)
  end.

(** The parts of the address; [room] is [4 - n]. *)
Fixpoint inet_parts (room : nat) (parts : list Z) (cp : list Z) : option (list Z * list Z) :=
  match inet_part cp with
  | None => None
  | Some (value, cp) =>
      match room with
      | O => None
      | S room =>
          let parts := parts ++ [value] in
          if chr cp =? 46 then inet_parts room parts (tl cp) else Some (parts, cp)
      end
  end.

(** [packed |= parts[i] << (24 - i * 8)] over the leading parts. *)
Fixpoint pack_lead (i : Z) (lead : list Z) (packed : Z) : option Z :=
  match lead with
  | [] => Some packed
  | p :: r => if 0xFF <? p then None else pack_lead (i + 1) r (Z.lor packed (p <<w (24 - i * 8)))
  end.

(** The address and its parts. *)
Definition bsd_inet_parse (cp : nullable) : option (Z * list Z) :=
  match cp with
  | None => None
  | Some cp =>
      match inet_parts 4 [] cp with
      | None => None
      | Some (parts, cp) =>
          if negb (chr cp =? 0) then None
          else
            let n := Z.of_nat (length parts) in
            let last_part := List.last parts 0 in
            if Z.shiftr 0xFFFFFFFF ((n - 1) * 8) <? last_part then None
            else match pack_lead 0 (take (length parts - 1) parts) last_part with
                 | None => None
                 | Some packed => Some (packed, parts)
                 end
      end
  end.

(** ** The strict parser *)

Fixpoint pton_digits (value digits : Z) (cp : list Z) : option (Z * Z * list Z) :=
  match cp with
  | c :: r =>
      if (48 <=? c) && (c <=? 57) then
        if 3 <? digits + 1 then None else pton_digits (u32 (value * 10 + (c - 48))) (digits + 1) r
      else Some (value, digits, cp)
  | [] => Some (value, digits, cp)
  end.

(** The parts still to read; [first] is [part == 0]. *)
Fixpoint pton_parts (left : nat) (first : bool) (addr : Z) (cp : list Z) : option (Z * list Z) :=
  match left with
  | O => Some (addr, cp)
  | S n =>
      if negb first && negb (chr cp =? 46) then None
      else
        let cp := if first then cp else tl cp in
        match pton_digits 0 0 cp with
        | None => None
        | Some (value, digits, rest) =>
            if (digits =? 0) || (255 <? value) then None
            else if (1 <? digits) && (chr cp =? 48) then None
            else pton_parts n false (Z.lor (addr <<w 8) value) rest
        end
  end.

Definition bsd_inet_pton4 (cp : nullable) : option Z :=
  match cp with
  | None => None
  | Some cp =>
      match pton_parts 4 true 0 cp with
      | None => None
      | Some (addr, cp) => if chr cp =? 0 then Some addr else None
      end
  end.

(** ** The vectors *)

Definition bsd_inet_addr (cp : nullable) : Z :=
  match bsd_inet_parse cp with Some (addr, _) => addr | None => INADDR_NONE end.

(** The result and the address written, if any. *)
Definition bsd_inet_aton (cp : nullable) : Z * option Z :=
  match bsd_inet_parse cp with Some (value, _) => (1, Some value) | None => (0, None) end.

Fixpoint pack_network (parts : list Z) (net : Z) : Z :=
  match parts with
  | [] => net
  | p :: r => if 0xFF <? p then INADDR_NONE else pack_network r (Z.lor (net <<w 8) (Z.land p 0xFF))
  end.

Definition bsd_inet_network (cp : nullable) : Z :=
  match bsd_inet_parse cp with Some (_, parts) => pack_network parts 0 | None => INADDR_NONE end.

(** The result is the buffer of the base. *)
Definition bsd_Inet_NtoA (ip : Z) (base : AmiSocketBase) : outcome AmiSocketBase :=
  let! text := ami_format_ip4 ip in
  let! buf := store_at (sb_NtoABuf base) 0 (text ++ [0]) in
  Val {| sb_Errno := sb_Errno base; sb_ErrnoVar := sb_ErrnoVar base; sb_Hooked := sb_Hooked base;
         sb_NtoABuf := buf; sb_Fam23 := sb_Fam23 base |}.

Definition BSD_IN_CLASSA (i : Z) : bool := Z.land i 0x80000000 =? 0.
Definition BSD_IN_CLASSB (i : Z) : bool := Z.land i 0xC0000000 =? 0x80000000.

Definition bsd_Inet_LnaOf (addr : Z) : Z :=
  if BSD_IN_CLASSA addr then Z.land addr 0x00FFFFFF
  else if BSD_IN_CLASSB addr then Z.land addr 0x0000FFFF
  else Z.land addr 0x000000FF.

Definition bsd_Inet_NetOf (addr : Z) : Z :=
  if BSD_IN_CLASSA addr then Z.shiftr (Z.land addr 0xFF000000) 24
  else if BSD_IN_CLASSB addr then Z.shiftr (Z.land addr 0xFFFF0000) 16
  else Z.shiftr (Z.land addr 0xFFFFFF00) 8.

Definition bsd_Inet_MakeAddr (net host : Z) : Z :=
  if net <? 128 then Z.lor (net <<w 24) (Z.land host 0x00FFFFFF)
  else if net <? 65536 then Z.lor (net <<w 16) (Z.land host 0x0000FFFF)
  else if net <? 0x01000000 then Z.lor (net <<w 8) (Z.land host 0x000000FF)
  else Z.lor net host.

Definition in6_word (b0 b1 b2 b3 : Z) : Z :=
  Z.lor (Z.lor (Z.lor (b0 <<w 24) (b1 <<w 16)) (b2 <<w 8)) b3.

(** The words from [i] on, [n] of them. *)
Fixpoint in6_words (n : nat) (i : Z) (bytes : list Z) : outcome (list Z) :=
  match n with
  | O => Val []
  | S n =>
      let! b0 := fetch bytes (i * 4) in
      let! b1 := fetch bytes (i * 4 + 1) in
      let! b2 := fetch bytes (i * 4 + 2) in
      let! b3 := fetch bytes (i * 4 + 3) in
      let! r := in6_words n (i + 1) bytes in
      Val (in6_word b0 b1 b2 b3 :: r)
  end.
Definition bsd_in6_to_words (bytes : list Z) : outcome (list Z) := in6_words 4 0 bytes.

Definition bsd_words_to_in6 (words : list Z) : list Z := concat (map be32 words).

(** A 32-bit load from the bytes of a [struct in_addr]. *)
Definition load_in_addr (src : list Z) : outcome Z :=
  let! b0 := fetch src 0 in
  let! b1 := fetch src 1 in
  let! b2 := fetch src 2 in
  let! b3 := fetch src 3 in
  Val (be_join 0 [b0; b1; b2; b3]).

(** The text goes out, or ENOSPC: [None] is a return of NULL. *)
Definition ntop_out (text dst : list Z) (size : Z) (base : AmiSocketBase)
  : outcome (option (list Z) * AmiSocketBase) :=
  if size <=? Z.of_nat (length text) then Val (None, bsd_set_errno AMI_ENOSPC base)
  else let! dst := store_at dst 0 (text ++ [0]) in Val (Some dst, base).

Definition bsd_inet_ntop (ipv6 : bool) (af : Z) (src dst : nullable) (size : Z) (base : AmiSocketBase)
  : outcome (option (list Z) * AmiSocketBase) :=
  match src, dst with
  | Some src, Some dst =>
      let '(af, base) := bsd_af_in ipv6 base af in
      if ipv6 && (af =? AF_INET6) then
        let! words := bsd_in6_to_words src in
        let! text := ami_format_ip6 words in
        ntop_out text dst size base
      else if negb (af =? AF_INET) then Val (None, bsd_set_errno AMI_EAFNOSUPPORT base)
      else
        let! addr := load_in_addr src in
        let! text := ami_format_ip4 addr in
        ntop_out text dst size base
  | _, _ => Val (None, bsd_set_errno AMI_EFAULT base)
  end.

(** The return value and the destination afterwards. *)
Definition bsd_inet_pton (ipv6 : bool) (af : Z) (src dst : nullable) (base : AmiSocketBase)
  : outcome (Z * nullable * AmiSocketBase) :=
  let '(af, base) := bsd_af_in ipv6 base af in
  if ipv6 && (af =? AF_INET6) then
    match src, dst with
    | Some src, Some dst =>
        let! r := ami_config_parse_ip6 (Some src) false in
        match r with
        | None => Val (0, Some dst, base)
        | Some (words, _) => let! dst := store_at dst 0 (bsd_words_to_in6 words) in Val (1, Some dst, base)
        end
    | _, _ => Val (-1, dst, bsd_set_errno AMI_EFAULT base)
    end
  else if negb (af =? AF_INET) then Val (-1, dst, bsd_set_errno AMI_EAFNOSUPPORT base)
  else
    match src, dst with
    | Some src, Some dst =>
        match bsd_inet_pton4 (Some src) with
        | None => Val (0, Some dst, base)
        | Some addr => let! dst := store_at dst 0 (be32 addr) in Val (1, Some dst, base)
        end
    | _, _ => Val (-1, dst, bsd_set_errno AMI_EFAULT base)
    end.

(** ** The strict parser takes exactly the printed form *)

Lemma pton_digits_spec value digits s :
  0 <= digits <= 3 -> 0 <= value < 10 ^ digits ->
  pton_digits value digits s =
    (let '(ds, t) := dspan dec_digit s in
     if digits + zlen ds <=? 3 then Some (dval 10 value ds, digits + zlen ds, t) else None).
Proof.
  revert value digits. induction s as [|c r IH]; intros value digits Hd Hv; cbn [pton_digits dspan].
  { simpl. rewrite Z.add_0_r, (proj2 (Z.leb_le _ _)) by lia. done. }
  unfold dec_digit at 1. destruct ((48 <=? c) && (c <=? 57)) eqn:Hc.
  - assert (0 <= c - 48 < 10) by (revert Hc; bcases; done || lia).
    destruct (Z.ltb_spec 3 (digits + 1)).
    + destruct (dspan dec_digit r) as [ds t]. cbn [length]. by rewrite (proj2 (Z.leb_gt _ _)) by lia.
    + assert (10 ^ (digits + 1) <= 10 ^ 3) by (apply Z.pow_le_mono_r; lia).
      assert (10 ^ (digits + 1) = 10 * 10 ^ digits) by (rewrite Z.pow_add_r by lia; lia).
      rewrite u32_small by (unfold is_u32; lia). rewrite IH by lia.
      destruct (dspan dec_digit r) as [ds t]. cbn [length dval].
      replace (digits + Z.of_nat (S (length ds))) with (digits + 1 + zlen ds) by lia. done.
  - simpl. rewrite Z.add_0_r, (proj2 (Z.leb_le _ _)) by lia. done.
Qed.

(** One part: the guards are the canonical spelling. *)
Lemma pton_part_inv cp value digits rest :
  pton_digits 0 0 cp = Some (value, digits, rest) ->
  (digits =? 0) || (255 <? value) = false -> (1 <? digits) && (chr cp =? 48) = false ->
  exists cs, cp = cs ++ rest /\ canonical cs value.
Proof.
  rewrite pton_digits_spec by lia. destruct (dspan_inv dec_digit cp) as (cs & E & Hs).
  destruct (dspan dec_digit cp) as [ds t]. cbn [fst snd] in *.
  destruct (Z.leb_spec (0 + zlen ds) 3); [|done]. intros [= <- <- <-] [H1 H2]%orb_false_iff H3.
  apply Z.eqb_neq in H1. apply Z.ltb_ge in H2. pose proof (Forall2_length _ _ _ Hs) as Hlen.
  exists cs. split; [done|]. split_and!.
  - exists ds. split_and!; try done. intros ->. simpl in Hlen. lia.
  - lia.
  - destruct cs as [|c cs]; [simpl in *; lia|]. rewrite E in H3. cbn [app chr] in *.
    destruct (decide (length (c :: cs) = 1%nat)); [by left|right]. intros ->.
    rewrite (proj2 (Z.ltb_lt _ _)) in H3 by (simpl in *; lia). done.
Qed.

Lemma pton_part_app cs v t :
  canonical cs v -> dec_digit (chr t) = None ->
  exists digits, pton_digits 0 0 (cs ++ t) = Some (v, digits, t) /\
    (digits =? 0) || (255 <? v) = false /\ (1 <? digits) && (chr (cs ++ t) =? 48) = false.
Proof.
  intros ((ds & Hs & Hne & -> & Hv) & Hlen & Hz) Ht. exists (0 + zlen ds).
  pose proof (Forall2_length _ _ _ Hs) as Hl. destruct cs as [|c cs]; [done|]. cbn [app chr length] in *.
  rewrite pton_digits_spec, (dspan_app dec_digit (c :: cs) ds t Hs Ht : dspan dec_digit (c :: cs ++ t) = _) by lia.
  rewrite (proj2 (Z.leb_le _ _)) by lia. split; [done|].
  rewrite (proj2 (Z.eqb_neq _ 0)), (proj2 (Z.ltb_ge 255 _)) by lia. split; [done|].
  destruct Hz as [Hz|Hz]; [by rewrite (proj2 (Z.ltb_ge _ _)) by lia|].
  by rewrite (proj2 (Z.eqb_neq _ _) Hz), andb_false_r.
Qed.

Lemma pton_pack p0 p1 p2 p3 :
  0 <= p0 <= 255 -> 0 <= p1 <= 255 -> 0 <= p2 <= 255 -> 0 <= p3 <= 255 ->
  Z.lor (Z.lor (Z.lor (Z.lor (0 <<w 8) p0 <<w 8) p1 <<w 8) p2 <<w 8) p3 = dval 256 0 [p0; p1; p2; p3].
Proof.
  intros. change (Z.lor (Z.lor (Z.lor (Z.lor (0 <<w 8) p0 <<w 8) p1 <<w 8) p2 <<w 8) p3)
    with (be_join 0 [p0; p1; p2; p3]).
  rewrite !be_join_cons by (lia || word_lia). done.
Qed.

(** Reading a part is taking its canonical spelling off the text. *)
Lemma pton_parts_inv n first addr s a t :
  pton_parts (S n) first addr s = Some (a, t) ->
  exists cs v rest, s = (if first then [] else [46]) ++ cs ++ rest /\ canonical cs v /\
    pton_parts n false (Z.lor (addr <<w 8) v) rest = Some (a, t).
Proof.
  cbn [pton_parts]. destruct (negb first && negb (chr s =? 46)) eqn:Hdot; [done|].
  assert (Es : s = (if first then [] else [46]) ++ (if first then s else tl s)).
  { destruct first; [done|]. destruct s as [|c s]; [done|]. cbn [chr tl negb andb app] in *.
    apply negb_false_iff, Z.eqb_eq in Hdot. by subst c. }
  set (cp := if first then s else tl s) in *. clearbody cp.
  destruct (pton_digits 0 0 cp) as [[[v d] rest]|] eqn:E; [|done].
  destruct ((d =? 0) || (255 <? v)) eqn:G; [done|]. destruct ((1 <? d) && (chr cp =? 48)) eqn:Z; [done|].
  destruct (pton_part_inv _ _ _ _ E G Z) as (cs & -> & Hc). intros H. by exists cs, v, rest.
Qed.

Lemma pton_parts_app n (first : bool) addr cs v t :
  canonical cs v -> dec_digit (chr t) = None ->
  pton_parts (S n) first addr ((if first then [] else [46]) ++ cs ++ t) =
    pton_parts n false (Z.lor (addr <<w 8) v) t.
Proof.
  intros Hc Ht. destruct (pton_part_app cs v t Hc Ht) as (d & E & G & Z).
  destruct first; cbn [pton_parts app chr tl negb andb Z.eqb Pos.eqb]; by rewrite E, G, Z.
Qed.

Lemma pton4_printed s a : cstring s -> bsd_inet_pton4 (Some s) = Some a <-> printed4 s a.
Proof.
  intros Hs. unfold bsd_inet_pton4. split.
  - destruct (pton_parts 4 true 0 s) as [[addr t]|] eqn:E; [|done].
    destruct (Z.eqb_spec (chr t) 0) as [Ht|]; [|done]. intros [= <-].
    destruct (pton_parts_inv _ _ _ _ _ _ E) as (c0 & p0 & r0 & E0 & H0 & F0).
    destruct (pton_parts_inv _ _ _ _ _ _ F0) as (c1 & p1 & r1 & E1 & H1 & F1).
    destruct (pton_parts_inv _ _ _ _ _ _ F1) as (c2 & p2 & r2 & E2 & H2 & F2).
    destruct (pton_parts_inv _ _ _ _ _ _ F2) as (c3 & p3 & r3 & E3 & H3 & F3).
    cbn [pton_parts] in F3. injection F3 as <- <-.
    assert (Hr : r3 = []).
    { apply chr_nul; [|done]. rewrite E0, E1, E2, E3 in Hs. unfold cstring in *. rewrite !Forall_app in Hs. tauto. }
    subst. exists c0, p0, c1, p1, c2, p2, c3, p3. cbn [app]. rewrite app_nil_r.
    split; [done|]. split; [|done]. apply pton_pack; by eapply canonical_range.
  - intros (c0 & p0 & c1 & p1 & c2 & p2 & c3 & p3 & -> & -> & H0 & H1 & H2 & H3).
    rewrite (pton_parts_app 3 true 0 c0 p0 (46 :: c1 ++ 46 :: c2 ++ 46 :: c3) H0 eq_refl
      : pton_parts 4 true 0 (c0 ++ 46 :: c1 ++ 46 :: c2 ++ 46 :: c3) = _).
    rewrite (pton_parts_app 2 false _ c1 p1 (46 :: c2 ++ 46 :: c3) H1 eq_refl
      : pton_parts 3 false _ (46 :: c1 ++ 46 :: c2 ++ 46 :: c3) = _).
    rewrite (pton_parts_app 1 false _ c2 p2 (46 :: c3) H2 eq_refl : pton_parts 2 false _ (46 :: c2 ++ 46 :: c3) = _).
    rewrite <- (app_nil_r c3).
    rewrite (pton_parts_app 0 false _ c3 p3 [] H3 eq_refl : pton_parts 1 false _ (46 :: c3 ++ []) = _).
    cbn [pton_parts chr Z.eqb]. f_equal. apply pton_pack; by eapply canonical_range.
Qed.

(** inet_pton takes exactly the addresses the printer writes: four decimal
    bytes, no leading zero, nothing around them.  So two spellings never name one
    address, and no octal, hexadecimal or short form passes. *)
Theorem pton4_exact s a :
  cstring s -> bsd_inet_pton4 (Some s) = Some a <-> is_u32 a /\ ami_format_ip4 a = Val s.
Proof.
  intros Hs. rewrite pton4_printed by done. split.
  - intros Hp. assert (Ha : is_u32 a).
    { destruct Hp as (c0 & p0 & c1 & p1 & c2 & p2 & c3 & p3 & _ & -> & H0 & H1 & H2 & H3).
      apply canonical_range in H0, H1, H2, H3. simpl. word_lia. }
    split; [done|]. by apply format_ip4_spec.
  - intros [Ha E]. by apply format_ip4_spec.
Qed.

Lemma pton4_exact_witness :
  is_u32 0x7F000001 /\ ami_format_ip4 0x7F000001 = Val (str "127.0.0.1").
Proof. apply (pton4_exact (str "127.0.0.1") 0x7F000001); [repeat constructor|reflexivity]. Defined.

(** ** Network and host parts *)

(** The network and the host part of an address put it together again, for
    every class of address, the ones above class C included. *)
Theorem make_net_lna addr :
  is_u32 addr -> bsd_Inet_MakeAddr (bsd_Inet_NetOf addr) (bsd_Inet_LnaOf addr) = addr.
Proof.
  intros Ha. unfold bsd_Inet_NetOf, bsd_Inet_LnaOf, BSD_IN_CLASSA, BSD_IN_CLASSB.
  change 0x80000000 with (Z.shiftl (Z.ones 1) 31). change 0xC0000000 with (Z.shiftl (Z.ones 2) 30).
  change 0xFF000000 with (Z.shiftl (Z.ones 8) 24). change 0xFFFF0000 with (Z.shiftl (Z.ones 16) 16).
  change 0xFFFFFF00 with (Z.shiftl (Z.ones 24) 8).
  change 0x00FFFFFF with (Z.ones 24). change 0x0000FFFF with (Z.ones 16). change 0x000000FF with (Z.ones 8).
  rewrite !land_field, !Z.land_ones, !Z.shiftr_div_pow2, !Z.div_mul by lia.
  unfold bsd_Inet_MakeAddr.
  change 0x00FFFFFF with (Z.ones 24). change 0x0000FFFF with (Z.ones 16). change 0x000000FF with (Z.ones 8).
  assert (E : forall n h k, 0 <= n -> n * 2 ^ k < 2 ^ 32 -> 0 <= k -> 0 <= h < 2 ^ k ->
    Z.lor (n <<w k) (Z.land h (Z.ones k)) = n * 2 ^ k + h).
  { intros n h k Hn Hb Hk Hh. rewrite Z.land_ones, Z.mod_small by lia.
    rewrite u32_small by (rewrite Z.shiftl_mul_pow2 by lia; unfold is_u32; nia). by apply lor_shift_add. }
  destruct (Z.eqb_spec ((addr / 2 ^ 31) mod 2 ^ 1 * 2 ^ 31) 0) as [HA|HA].
  - rewrite (proj2 (Z.ltb_lt _ _)) by word_lia. rewrite E by word_lia. word_lia.
  - destruct (Z.eqb_spec ((addr / 2 ^ 30) mod 2 ^ 2 * 2 ^ 30) (Z.shiftl (Z.ones 1) 31)) as [HB|HB];
      change (Z.shiftl (Z.ones 1) 31) with (2 ^ 31) in HB.
    + rewrite (proj2 (Z.ltb_ge _ 128)), (proj2 (Z.ltb_lt _ 65536)) by word_lia. rewrite E by word_lia. word_lia.
    + rewrite (proj2 (Z.ltb_ge _ 128)), (proj2 (Z.ltb_ge _ 65536)), (proj2 (Z.ltb_lt _ _)) by word_lia.
      rewrite E by word_lia. word_lia.
Qed.

Lemma make_net_lna_witness :
  bsd_Inet_MakeAddr (bsd_Inet_NetOf 0xAC10FE01) (bsd_Inet_LnaOf 0xAC10FE01) = 0xAC10FE01.
Proof. apply (make_net_lna 0xAC10FE01). word_lia. Defined.

(** ** The 4.3BSD forms *)

(** A part: decimal, octal after a zero, hexadecimal after [0x]. *)
Inductive inet_number : list Z -> Z -> Prop :=
| inet_dec cs ds : spells (inet_digit 10) cs ds -> cs <> [] -> chr cs <> 48 -> inet_number cs (dval 10 0 ds)
| inet_oct cs ds : spells (inet_digit 8) cs ds -> inet_number (48 :: cs) (dval 8 0 ds)
| inet_hex x cs ds : x = 120 \/ x = 88 -> spells (inet_digit 16) cs ds -> cs <> [] ->
    inet_number (48 :: x :: cs) (dval 16 0 ds).

Lemma inet_digit_set base : base = 8 \/ base = 10 \/ base = 16 -> digit_set (inet_digit base) base.
Proof.
  intros Hb c d. unfold inet_digit, ulong_digit, is_blank.
  destruct Hb as [-> |[-> | ->]]; simpl andb; repeat (bcase; try (exfalso; lia)); intros [= <-]; split_and!; try lia; done.
Qed.

Lemma inet_digit_stop base t : base = 8 \/ base = 10 \/ base = 16 -> chr t = 0 \/ chr t = 46 -> inet_digit base (chr t) = None.
Proof. by intros [-> |[-> | ->]] [-> | ->]. Qed.

Lemma accumulate_part base digits s :
  base = 8 \/ base = 10 \/ base = 16 ->
  accumulate (inet_digit base) 0xFFFFFFFF base 0 digits s =
    (let '(ds, t) := dspan (inet_digit base) s in
     if dval base 0 ds <=? 0xFFFFFFFF then Some (dval base 0 ds, digits + zlen ds, t) else None).
Proof. intros Hb. apply accumulate_spec; [by apply inet_digit_set|lia..]. Qed.

Lemma inet_part_reads cs v t :
  inet_number cs v -> v < 2 ^ 32 -> chr t = 0 \/ chr t = 46 -> inet_part (cs ++ t) = Some (v, t).
Proof.
  intros Hn Hv Ht. unfold inet_part. destruct Hn as [cs ds Hs Hne H48|cs ds Hs|x cs ds Hx Hs Hne].
  - assert (E : inet_radix (cs ++ t) = (10, 0, cs ++ t)).
    { destruct cs; [done|]. unfold inet_radix. cbn [app chr] in *. by rewrite (proj2 (Z.eqb_neq _ 48)). }
    rewrite E, accumulate_part, (dspan_app _ _ _ _ Hs) by (auto || apply inet_digit_stop; auto).
    rewrite (proj2 (Z.leb_le _ _)) by lia. destruct Hs; [done|]. by rewrite (proj2 (Z.eqb_neq _ 0)) by (simpl; lia).
  - assert (E : inet_radix ((48 :: cs) ++ t) = (8, 1, cs ++ t)).
    { unfold inet_radix. cbn [app chr tl Z.eqb Pos.eqb].
      assert (Hx : (chr (cs ++ t) =? 120) || (chr (cs ++ t) =? 88) = false); [|by rewrite Hx].
      destruct Hs as [|c d cs ds Hc _]; cbn [app chr]; [by destruct Ht as [-> | ->]|].
      revert Hc. unfold inet_digit, ulong_digit. simpl andb. repeat (bcase; try (exfalso; lia)); done. }
    rewrite E, accumulate_part, (dspan_app _ _ _ _ Hs) by (auto || apply inet_digit_stop; auto).
    rewrite (proj2 (Z.leb_le _ _)) by lia. by rewrite (proj2 (Z.eqb_neq _ 0)) by lia.
  - assert (E : inet_radix ((48 :: x :: cs) ++ t) = (16, 0, cs ++ t)) by (by destruct Hx as [-> | ->]).
    rewrite E, accumulate_part, (dspan_app _ _ _ _ Hs) by (auto || apply inet_digit_stop; auto).
    rewrite (proj2 (Z.leb_le _ _)) by lia. destruct Hs; [done|]. by rewrite (proj2 (Z.eqb_neq _ 0)) by (simpl; lia).
Qed.

Lemma inet_part_inv s v t :
  inet_part s = Some (v, t) -> exists cs, s = cs ++ t /\ inet_number cs v /\ v < 2 ^ 32.
Proof.
  unfold inet_part. destruct (inet_radix s) as [[base d0] s'] eqn:Er.
  assert (Hb : base = 8 \/ base = 10 \/ base = 16).
  { revert Er. unfold inet_radix. destruct (_ =? 48); [destruct (_ || _)|]; intros [= <- _ _]; auto. }
  rewrite accumulate_part by done. destruct (dspan_inv (inet_digit base) s') as (cs & E & Hs).
  destruct (dspan (inet_digit base) s') as [ds t']. cbn [fst snd] in *.
  destruct (Z.leb_spec (dval base 0 ds) 0xFFFFFFFF); [|done].
  destruct (Z.eqb_spec (d0 + zlen ds) 0) as [|Hd]; [done|]. intros [= <- <-].
  pose proof (Forall2_length _ _ _ Hs) as Hlen.
  revert Er. unfold inet_radix. destruct (Z.eqb_spec (chr s) 48) as [H48|H48].
  - destruct s as [|c s]; [done|]. cbn [chr tl] in *. subst c.
    destruct ((chr s =? 120) || (chr s =? 88)) eqn:Hx; intros [= <- <- <-].
    + destruct s as [|x s]; [done|]. cbn [chr tl] in *. exists (48 :: x :: cs). rewrite E at 1.
      split_and!; [done| |lia]. apply orb_true_iff in Hx. rewrite !Z.eqb_eq in Hx.
      constructor; [done|done|]. intros ->. simpl in *. lia.
    + exists (48 :: cs). rewrite E at 1. split_and!; [done|by constructor|lia].
  - intros [= <- <- <-]. exists cs. split_and!; [done| |lia]. constructor; [done| |].
    + intros ->. simpl in *. lia.
    + destruct cs as [|c cs]; [simpl in *; lia|]. by rewrite E in H48.
Qed.

Inductive inet_dotted : list Z -> list Z -> Prop :=
| inet_one cs v : inet_number cs v -> v < 2 ^ 32 -> inet_dotted cs [v]
| inet_more cs v text vs :
    inet_number cs v -> v < 2 ^ 32 -> inet_dotted text vs -> inet_dotted (cs ++ 46 :: text) (v :: vs).

Lemma inet_parts_app room parts text vs :
  inet_dotted text vs -> (length vs <= room)%nat -> inet_parts room parts text = Some (parts ++ vs, []).
Proof.
  intros H. revert room parts. induction H as [cs v Hn Hv|cs v text vs Hn Hv _ IH]; intros room parts Hr;
    cbn [length] in Hr; (destruct room as [|room]; [lia|]); cbn [inet_parts].
  - rewrite <- (app_nil_r cs), (inet_part_reads cs v []) by auto. done.
  - rewrite (inet_part_reads cs v (46 :: text)) by auto. cbn [chr tl Z.eqb Pos.eqb].
    rewrite IH by lia. by rewrite <- app_assoc.
Qed.

Lemma inet_parts_inv room parts s ps t :
  inet_parts room parts s = Some (ps, t) ->
  exists text vs, ps = parts ++ vs /\ s = text ++ t /\ inet_dotted text vs /\ (1 <= length vs <= room)%nat.
Proof.
  revert parts s. induction room as [|room IH]; intros parts s; cbn [inet_parts];
    (destruct (inet_part s) as [[v r]|] eqn:E; [|done]); [done|].
  destruct (inet_part_inv _ _ _ E) as (cs & -> & Hn & Hv). destruct (Z.eqb_spec (chr r) 46) as [Hdot|].
  - intros H. destruct (IH _ _ H) as (text & vs & -> & Er & Hd & Hl). destruct r as [|c r]; [done|].
    cbn [chr tl] in *. subst. exists (cs ++ 46 :: text), (v :: vs). rewrite <- !app_assoc. by split_and!; [..|constructor|simpl; lia|simpl; lia].
  - intros [= <- <-]. exists cs, [v]. by split_and!; [..|constructor|simpl; lia|simpl; lia].
Qed.

(** What the parts of an address are worth: all but the last are bytes, the last
    takes the bytes that are left. *)
Definition inet_value (vs : list Z) : option Z :=
  match vs with
  | [a] => if a <? 2 ^ 32 then Some a else None
  | [a; b] => if (a <? 256) && (b <? 2 ^ 24) then Some (a * 2 ^ 24 + b) else None
  | [a; b; c] => if (a <? 256) && (b <? 256) && (c <? 2 ^ 16) then Some (a * 2 ^ 24 + b * 2 ^ 16 + c) else None
  | [a; b; c; d] =>
      if (a <? 256) && (b <? 256) && (c <? 256) && (d <? 2 ^ 8)
      then Some (a * 2 ^ 24 + b * 2 ^ 16 + c * 2 ^ 8 + d) else None
  | _ => None
  end.

(** The packing of the source, for parts that are not negative. *)
Definition inet_pack (parts : list Z) : option Z :=
  let last_part := List.last parts 0 in
  if Z.shiftr 0xFFFFFFFF ((Z.of_nat (length parts) - 1) * 8) <? last_part then None
  else pack_lead 0 (take (length parts - 1) parts) last_part.

Lemma byte_shift p k : 0 <= p <= 255 -> 0 <= k <= 24 -> p <<w k = Z.shiftl p k.
Proof.
  intros Hp Hk. apply u32_small. rewrite Z.shiftl_mul_pow2 by lia.
  pose proof (Z.pow_le_mono_r 2 k 24 ltac:(lia) ltac:(lia)). unfold is_u32. nia.
Qed.

Lemma inet_pack_value vs :
  (1 <= length vs <= 4)%nat -> Forall (fun v => 0 <= v < 2 ^ 32) vs -> inet_pack vs = inet_value vs.
Proof.
  intros Hl Hu. unfold inet_pack.
  destruct vs as [|a [|b [|c [|d [|]]]]]; cbn [length] in Hl; try lia; rewrite !Forall_cons in Hu;
    cbn [length List.last take pack_lead inet_value Nat.sub].
  - change (Z.shiftr 0xFFFFFFFF _) with 0xFFFFFFFF. bcases; done.
  - change (Z.shiftr 0xFFFFFFFF _) with 0xFFFFFF. bcases; try done.
    rewrite byte_shift, Z.lor_comm, lor_shift_add by lia. done.
  - change (Z.shiftr 0xFFFFFFFF _) with 0xFFFF. bcases; try done.
    rewrite !byte_shift by lia. change (24 - 0 * 8) with 24. change (24 - (0 + 1) * 8) with 16.
    rewrite (Z.lor_comm c), <- Z.lor_assoc, (Z.lor_comm c).
    rewrite (lor_shift_add 16 b c), lor_shift_add by lia. f_equal. lia.
  - change (Z.shiftr 0xFFFFFFFF _) with 0xFF. bcases; try done.
    rewrite !byte_shift by lia. change (24 - 0 * 8) with 24. change (24 - (0 + 1) * 8) with 16.
    change (24 - (0 + 1 + 1) * 8) with 8.
    rewrite (Z.lor_comm d), <- !Z.lor_assoc, (Z.lor_assoc d), (Z.lor_comm d), <- Z.lor_assoc, (Z.lor_comm d).
    rewrite (lor_shift_add 8 c d), (lor_shift_add 16), lor_shift_add by lia. f_equal. lia.
Qed.

Lemma inet_number_nonneg cs v : inet_number cs v -> 0 <= v.
Proof.
  intros [cs' ds Hs _ _|cs' ds Hs|x cs' ds _ Hs _]; apply dval_mono; try lia;
    (eapply spells_nonneg; [apply inet_digit_set|exact Hs]); auto.
Qed.

Lemma inet_dotted_range s vs : inet_dotted s vs -> Forall (fun v => 0 <= v < 2 ^ 32) vs.
Proof. induction 1; constructor; auto; split; auto; by eapply inet_number_nonneg. Qed.

Lemma inet_parse_spec s a vs :
  cstring s -> bsd_inet_parse (Some s) = Some (a, vs) <-> inet_dotted s vs /\ inet_value vs = Some a.
Proof.
  intros Hs. unfold bsd_inet_parse. split.
  - destruct (inet_parts 4 [] s) as [[ps t]|] eqn:E; [|done].
    destruct (inet_parts_inv _ _ _ _ _ E) as (text & vs' & -> & -> & Hd & Hl). cbn [app].
    destruct (Z.eqb_spec (chr t) 0) as [Ht|]; [|done]. cbn [negb].
    apply cstring_app in Hs as [_ Hs]. rewrite (chr_nul t Hs Ht), app_nil_r.
    pose proof (inet_pack_value vs' Hl (inet_dotted_range _ _ Hd)) as Hp. unfold inet_pack in Hp.
    destruct (_ <? List.last vs' 0); [done|]. rewrite Hp.
    destruct (inet_value vs') as [p|] eqn:Ev; [|done]. by intros [= <- <-].
  - intros [Hd Hv].
    assert (Hl : (1 <= length vs <= 4)%nat).
    { destruct vs as [|? [|? [|? [|? [|]]]]]; simpl in *; try done; lia. }
    rewrite (inet_parts_app 4 [] s vs Hd) by lia. cbn [app chr Z.eqb negb].
    pose proof (inet_pack_value vs Hl (inet_dotted_range _ _ Hd)) as Hp. unfold inet_pack in Hp. rewrite Hv in Hp.
    destruct (_ <? List.last vs 0); [done|]. by rewrite Hp.
Qed.

(** The 4.3BSD parser behind inet_addr and inet_aton accepts exactly one to four
    parts with dots between them, each decimal, octal after a zero or hexadecimal
    after 0x, all but the last a byte and the last within the bytes left over; the
    address is their sum and no part wraps. *)
Theorem inet_parse_exact s a vs :
  cstring s -> bsd_inet_parse (Some s) = Some (a, vs) <-> inet_dotted s vs /\ inet_value vs = Some a.
Proof. apply inet_parse_spec. Qed.

Lemma inet_parse_exact_witness :
  inet_dotted (str "0x7f.0377.65535") [127; 255; 65535] /\ inet_value [127; 255; 65535] = Some 0x7FFFFFFF.
Proof. apply (inet_parse_exact (str "0x7f.0377.65535") 0x7FFFFFFF); [repeat constructor|reflexivity]. Defined.

(** ** The parsers agree on printed addresses *)

Lemma canonical_inet cs v : canonical cs v -> inet_number cs v /\ v < 2 ^ 32.
Proof.
  intros Hc. pose proof (canonical_range _ _ Hc) as Hr. destruct Hc as ((ds & Hs & Hne & -> & Hv) & Hlen & Hz).
  split; [|lia].
  assert (Hs' : forall cs ds, spells dec_digit cs ds -> spells (inet_digit 10) cs ds).
  { clear. intros cs ds H. induction H as [|c d cs ds Hc _ IH]; constructor; [|done].
    revert Hc. unfold dec_digit, inet_digit, ulong_digit. simpl andb. bcases; intros [= <-]; done || lia. }
  destruct (decide (chr cs = 48)) as [H48|H48]; [|constructor; auto].
  destruct Hz as [Hz|]; [|done]. destruct cs as [|c [|]]; try done. simpl in H48. subst c.
  inversion Hs as [|? d ? ds' Hd Hn]; subst. inversion Hn; subst. injection Hd as <-.
  apply (inet_oct [] []). constructor.
Qed.

Lemma printed4_inet text a : printed4 text a ->
  exists vs, inet_dotted text vs /\ inet_value vs = Some a.
Proof.
  intros (c0 & p0 & c1 & p1 & c2 & p2 & c3 & p3 & -> & -> & H0 & H1 & H2 & H3). exists [p0; p1; p2; p3].
  pose proof (canonical_range _ _ H0). pose proof (canonical_range _ _ H1).
  pose proof (canonical_range _ _ H2). pose proof (canonical_range _ _ H3).
  apply canonical_inet in H0 as [? ?], H1 as [? ?], H2 as [? ?], H3 as [? ?]. split.
  - by repeat (constructor; [done|done|]); constructor.
  - simpl. bcases. f_equal. lia.
Qed.

(** All four readers agree with the printer: the text of an address reads back
    as that address through inet_addr, inet_aton, inet_pton's parser and the
    configuration parser, whichever of them a program uses. *)
Theorem readers_agree a :
  is_u32 a ->
  exists text, ami_format_ip4 a = Val text /\
    bsd_inet_addr (Some text) = a /\ bsd_inet_aton (Some text) = (1, Some a) /\
    bsd_inet_pton4 (Some text) = Some a /\ ami_config_parse_ip (Some text) = Some a.
Proof.
  intros Ha. destruct (printed4_exists a Ha) as (text & E & Hp). exists text. split; [done|].
  destruct (printed4_text _ _ Hp) as [Hc _]. destruct (printed4_inet _ _ Hp) as (vs & Hd & Hv).
  pose proof (proj2 (inet_parse_spec text a vs Hc) (conj Hd Hv)) as Hparse.
  unfold bsd_inet_addr, bsd_inet_aton. rewrite Hparse. split_and!; [done..|by apply pton4_printed|].
  by apply (codec_reads (TextCodec := ip4_codec) a).
Qed.

Lemma readers_agree_witness :
  exists text, ami_format_ip4 0xC0A80001 = Val text /\
    bsd_inet_addr (Some text) = 0xC0A80001 /\ bsd_inet_aton (Some text) = (1, Some 0xC0A80001) /\
    bsd_inet_pton4 (Some text) = Some 0xC0A80001 /\ ami_config_parse_ip (Some text) = Some 0xC0A80001.
Proof. apply (readers_agree 0xC0A80001). word_lia. Defined.

(** ** inet_ntop and inet_pton, against the codec interface *)

#[export] Instance ip4_pton_codec : TextCodec is_u32 ami_format_ip4 (fun s => bsd_inet_pton4 (Some s)) 15.
Proof.
  split; [apply (codec_prints (TextCodec := ip4_codec))|].
  intros a s Ha E. apply format_ip4_spec in E; [|done]. apply pton4_printed; [|done]. by eapply printed4_text.
Qed.

Section Client.
Context {A : Type} (ok : A -> Prop) (format : A -> outcome (list Z)) (parse : list Z -> option A) (bound : nat).
Context {codec : TextCodec ok format parse bound}.

(** What a printer's caller gets: the text in its buffer, or ENOSPC. *)
Lemma codec_ntop a dst size base :
  ok a -> 0 <= size <= Z.of_nat (length dst) ->
  exists text, format a = Val text /\ parse text = Some a /\ (length text <= bound)%nat /\
    ntop_out text dst size base =
      if decide (Z.of_nat (length text) < size)
      then Val (Some (text ++ 0 :: drop (S (length text)) dst), base)
      else Val (None, bsd_set_errno AMI_ENOSPC base).
Proof.
  intros Ha Hs. destruct (codec_prints a Ha) as (text & E & _ & Hl). exists text.
  split_and!; [done|by apply (codec_reads a)|done|]. unfold ntop_out.
  destruct (decide (Z.of_nat (length text) < size)).
  - rewrite (proj2 (Z.leb_gt _ _)) by lia. rewrite store_at_val by (rewrite length_app; simpl; lia). cbn [obind].
    rewrite length_app, <- app_assoc. simpl. by rewrite Nat.add_1_r.
  - by rewrite (proj2 (Z.leb_le _ _)) by lia.
Qed.
End Client.

Lemma be32_bytes b0 b1 b2 b3 :
  is_u8 b0 -> is_u8 b1 -> is_u8 b2 -> is_u8 b3 -> be32 (dval 256 0 [b0; b1; b2; b3]) = [b0; b1; b2; b3].
Proof.
  intros. unfold be32. rewrite !Z.shiftr_div_pow2 by lia. cbn [dval].
  f_equal; [word_lia|]. f_equal; [word_lia|]. f_equal; [word_lia|]. f_equal. word_lia.
Qed.

Lemma octets_u32 b0 b1 b2 b3 : is_u8 b0 -> is_u8 b1 -> is_u8 b2 -> is_u8 b3 -> is_u32 (dval 256 0 [b0; b1; b2; b3]).
Proof. intros. cbn [dval]. word_lia. Qed.

Lemma load_in_addr_spec src :
  length src = 4%nat -> bytes_ok src -> exists a, load_in_addr src = Val a /\ is_u32 a /\ be32 a = src.
Proof.
  intros Hl Hb. destruct src as [|b0 [|b1 [|b2 [|b3 [|]]]]]; try done. unfold bytes_ok in Hb. rewrite !Forall_cons in Hb.
  destruct Hb as (H0 & H1 & H2 & H3 & _). exists (dval 256 0 [b0; b1; b2; b3]).
  split; [|split; [by apply octets_u32|by apply be32_bytes]].
  unfold load_in_addr. cbn [fetch]. change (fetch [b0; b1; b2; b3] 0) with (Val b0).
  change (fetch [b0; b1; b2; b3] 1) with (Val b1). change (fetch [b0; b1; b2; b3] 2) with (Val b2).
  change (fetch [b0; b1; b2; b3] 3) with (Val b3). cbn [obind]. f_equal.
  rewrite !be_join_cons by (done || word_lia). done.
Qed.

Lemma in6_words_spec src :
  length src = 16%nat -> bytes_ok src ->
  exists ws, bsd_in6_to_words src = Val ws /\ ip6_addr ws /\ bsd_words_to_in6 ws = src.
Proof.
  intros Hl Hb. do 16 (destruct src as [|? src]; [done|]). destruct src; [|done].
  unfold bytes_ok in Hb. rewrite !Forall_cons in Hb. decompose [and] Hb. clear Hb.
  assert (Hw : forall b0 b1 b2 b3, is_u8 b0 -> is_u8 b1 -> is_u8 b2 -> is_u8 b3 ->
    in6_word b0 b1 b2 b3 = dval 256 0 [b0; b1; b2; b3]).
  { intros. apply pack_octets; word_lia. }
  eexists. split; [reflexivity|]. rewrite !Hw by done. split.
  - split; [done|]. repeat constructor; by apply octets_u32.
  - unfold bsd_words_to_in6. cbn [map concat]. by rewrite !be32_bytes.
Qed.

(** The families the two vectors take, and the bytes of an address of each. *)
Definition inet_family (ipv6 : bool) (af : Z) (size : nat) : Prop :=
  (af = AF_INET /\ size = 4%nat) \/ (ipv6 = true /\ (af = AF_INET6 \/ af = BSD_AF_INET6_23) /\ size = 16%nat).

Lemma store_all dst bs : length dst = length bs -> store_at dst 0 bs = Val bs.
Proof. intros H. rewrite store_at_val by lia. by rewrite drop_ge, app_nil_r by lia. Qed.

(** inet_ntop and inet_pton are inverse on the addresses of both families: into
    a buffer with room for the text it is written with its NUL and inet_pton gives
    the same bytes back; without room nothing is written and errno is ENOSPC.
    Forty-six bytes are always room enough. *)
Theorem ntop_pton ipv6 af src dst size out base :
  inet_family ipv6 af (length src) -> bytes_ok src -> 0 <= size <= Z.of_nat (length dst) ->
  length out = length src ->
  exists text base', (length text <= 45)%nat /\
    bsd_inet_ntop ipv6 af (Some src) (Some dst) size base =
      Val (if decide (Z.of_nat (length text) < size)
           then (Some (text ++ 0 :: drop (S (length text)) dst), base')
           else (None, bsd_set_errno AMI_ENOSPC base')) /\
    sb_Errno base' = sb_Errno base /\
    exists base'', bsd_inet_pton ipv6 af (Some text) (Some out) base = Val (1, Some src, base'') /\
      sb_Errno base'' = sb_Errno base.
Proof.
  intros Hfam Hb Hs Hout. unfold bsd_inet_ntop, bsd_inet_pton. destruct Hfam as [[-> Hl]|(-> & Haf & Hl)].
  - destruct (load_in_addr_spec src Hl Hb) as (a & Ea & Ha & Hbe).
    assert (Eaf : bsd_af_in ipv6 base AF_INET = (AF_INET, base)) by (unfold bsd_af_in; by destruct ipv6).
    destruct (codec_ntop (codec := ip4_pton_codec) _ _ _ _ a dst size base Ha Hs) as (text & E & Hp & Hlen & Ent).
    exists text, base. split; [lia|]. rewrite Eaf. change (AF_INET =? AF_INET6) with false.
    rewrite andb_false_r. change (negb (AF_INET =? AF_INET)) with false. cbn iota.
    rewrite Ea. cbn [obind]. rewrite E. cbn [obind]. rewrite Ent, Hp. split; [by destruct (decide _)|].
    split; [done|]. exists base. rewrite store_all by (rewrite Hbe; lia). cbn [obind]. by rewrite Hbe.
  - destruct (in6_words_spec src Hl Hb) as (ws & Ew & Hw & Hback).
    assert (Eaf : exists base', bsd_af_in true base af = (AF_INET6, base') /\ sb_Errno base' = sb_Errno base).
    { unfold bsd_af_in. destruct Haf as [-> | ->]; eexists; by split. }
    destruct Eaf as (base' & Eaf & Herr).
    destruct (codec_ntop (codec := ip6_codec) _ _ _ _ ws dst size base' Hw Hs) as (text & E & Hp & Hlen & Ent).
    exists text, base'. split; [lia|]. rewrite Eaf. change (true && (AF_INET6 =? AF_INET6)) with true. cbn iota.
    rewrite Ew. cbn [obind]. rewrite E. cbn [obind]. rewrite Ent. split; [by destruct (decide _)|].
    split; [done|]. exists base'. split; [|done].
    unfold ami_config_parse_ip6. rewrite (ip6_reads ws text false None Hw E). cbn [obind].
    rewrite store_all by (rewrite Hback; lia). cbn [obind]. by rewrite Hback.
Qed.

Definition base0 : AmiSocketBase :=
  {| sb_Errno := 0; sb_ErrnoVar := None; sb_Hooked := []; sb_NtoABuf := replicate 16 0; sb_Fam23 := 0 |}.

Lemma ntop_pton_witness :
  exists text base', (length text <= 45)%nat /\
    bsd_inet_ntop true 23 (Some (replicate 15 0 ++ [1])) (Some (replicate 46 255)) 46 base0 =
      Val (if decide (Z.of_nat (length text) < 46)
           then (Some (text ++ 0 :: drop (S (length text)) (replicate 46 255)), base')
           else (None, bsd_set_errno AMI_ENOSPC base')) /\
    sb_Errno base' = sb_Errno base0 /\
    exists base'', bsd_inet_pton true 23 (Some text) (Some (replicate 16 255)) base0 =
        Val (1, Some (replicate 15 0 ++ [1]), base'') /\
      sb_Errno base'' = sb_Errno base0.
Proof.
  apply (ntop_pton true 23 (replicate 15 0 ++ [1]) (replicate 46 255) 46 (replicate 16 255) base0).
  - right. split; [reflexivity|]. split; [right; reflexivity|reflexivity].
  - repeat constructor; word_lia.
  - simpl. lia.
  - reflexivity.
Defined.

(** ** Network numbers *)

Inductive plain_dotted : list Z -> list Z -> Prop :=
| plain_one cs v : canonical cs v -> plain_dotted cs [v]
| plain_more cs v text vs : canonical cs v -> plain_dotted text vs -> plain_dotted (cs ++ 46 :: text) (v :: vs).

Lemma plain_both text vs :
  plain_dotted text vs -> cstring text /\ dotted text vs /\ inet_dotted text vs /\ Forall (fun v => 0 <= v <= 255) vs.
Proof.
  induction 1 as [cs v Hc|cs v text vs Hc _ (IH1 & IH2 & IH3 & IH4)];
    pose proof (canonical_cstring _ _ Hc); pose proof (canonical_range _ _ Hc);
    pose proof (canonical_inet _ _ Hc) as [? ?]; destruct Hc as (Ho & _).
  - split_and!; [done|by constructor|by constructor|by constructor].
  - split_and!; [|by constructor|by constructor|by constructor].
    apply cstring_app. split; [done|]. by constructor; [lia|].
Qed.

Lemma pack_bytes vs acc :
  Forall (fun v => 0 <= v <= 255) vs -> 0 <= acc -> acc * 256 ^ zlen vs + 256 ^ zlen vs <= 2 ^ 32 ->
  fold_left (fun value p => Z.lor (value <<w 8) p) vs acc = dval 256 acc vs /\
  pack_network vs acc = dval 256 acc vs.
Proof.
  intros Hv. revert acc. induction Hv as [|v vs Hv Hvs IH]; intros acc Ha Hb; [done|].
  cbn [length] in Hb. rewrite Nat2Z.inj_succ, Z.pow_succ_r in Hb by lia. cbn [fold_left pack_network dval].
  pose proof (Z.pow_pos_nonneg 256 (zlen vs) ltac:(lia) ltac:(lia)) as Hp.
  assert (E : Z.lor (acc <<w 8) v = acc * 256 + v).
  { rewrite u32_small by (rewrite Z.shiftl_mul_pow2 by lia; change (2 ^ 8) with 256; unfold is_u32; nia).
    by rewrite lor_shift_add by lia. }
  assert (Ev : Z.land v 0xFF = v) by (change 0xFF with (Z.ones 8); rewrite Z.land_ones, Z.mod_small by lia; done).
  rewrite Ev, E, (proj2 (Z.ltb_ge _ _)) by lia. apply IH; nia.
Qed.

(** The library's inet_network and the configuration files' network numbers
    follow one rule: on one to four plain decimal bytes both pack them to the
    right, whatever their number. *)
Theorem network_numbers_agree text vs :
  plain_dotted text vs -> (length vs <= 4)%nat ->
  bsd_inet_network (Some text) = dval 256 0 vs /\ ami_cfg_parse_net_number (Some text) = Some (dval 256 0 vs).
Proof.
  intros Hp Hl. destruct (plain_both _ _ Hp) as (Hc & Hd & Hi & Hv).
  assert (Hb : 0 * 256 ^ zlen vs + 256 ^ zlen vs <= 2 ^ 32).
  { rewrite Z.mul_0_l, Z.add_0_l. change (2 ^ 32) with (256 ^ 4). apply Z.pow_le_mono_r; lia. }
  destruct (pack_bytes vs 0 Hv ltac:(lia) Hb) as [E1 E2]. split.
  - assert (Hval : exists a, inet_value vs = Some a).
    { assert (Hne : vs <> []) by (by inversion Hp).
      destruct vs as [|a [|b [|c [|d [|]]]]]; simpl in Hl; try done; try lia; rewrite !Forall_cons in Hv;
        cbn [inet_value]; bcases; eauto. }
    destruct Hval as (a & Ha). unfold bsd_inet_network.
    by rewrite (proj2 (inet_parse_spec text a vs Hc) (conj Hi Ha)).
  - unfold ami_cfg_parse_net_number. rewrite (proj2 (split_dotted_spec text vs Hc)); [by rewrite E1|].
    exists [], text, []. rewrite app_nil_r. split_and!; try done; constructor.
Qed.

Lemma network_numbers_agree_witness :
  bsd_inet_network (Some (str "192.168.1")) = 0x00C0A801 /\
  ami_cfg_parse_net_number (Some (str "192.168.1")) = Some 0x00C0A801.
Proof.
  apply (network_numbers_agree (str "192.168.1") [192; 168; 1]); [|simpl; lia].
  assert (H : forall v, 0 <= v <= 255 -> forall cs, dec_digits 3 v [] = Val cs -> canonical cs v).
  { intros v Hv cs E. destruct (canonical_byte v Hv) as (cs' & E' & Hc). rewrite E in E'. by injection E' as <-. }
  apply (plain_more (str "192") 192 (str "168.1")); [by apply H; [lia|vm_compute]|].
  apply (plain_more (str "168") 168 (str "1")); [by apply H; [lia|vm_compute]|].
  constructor. by apply H; [lia|vm_compute].
Defined.
