(* ===== verification/ConfigLine.v ===== *)
(** The line reader and the tokeniser of the configuration files (the second part
    of [src/config/config_text.c]).

    They work in place on the file's buffer: a string they return is a position
    in the buffer they have edited, so two of them share memory and a later call
    could damage what an earlier one returned.  The model keeps the buffer: a
    [char *] is a position, reads and writes outside the buffer are [Fault], and
    the strings a call returns are read from the buffer afterwards ([str_at]).
    Every loop advances through the buffer, so its length is fuel enough.  Where
    the source looks at the next character after another test, the model reads it
    first: behind a character that is not the NUL there is always another. *)

From Stdlib Require Import ZArith Lia String.
From stdpp Require Import base numbers list strings.
From S2P Require Import Prelude CString ConfigText.
#[local] Open Scope Z_scope.

Definition rd (buf : list Z) (p : nat) : outcome Z :=
  match buf !! p with Some c => Val c | None => Fault end.
Definition wr (buf : list Z) (p : nat) (c : Z) : outcome (list Z) :=
  if (p <? length buf)%nat then Val (<[p := c]> buf) else Fault.

(** [while (go( *p)) p++]. *)
Fixpoint scan (go : Z -> bool) (fuel : nat) (buf : list Z) (p : nat) : outcome nat :=
  match fuel with
  | O => Spin
  | S fuel => let! c := rd buf p in if go c then scan go fuel buf (S p) else Val p
  end.

Abbreviation fuel_of buf := (S (length buf)).

(** ** Lines *)

Definition in_line (c : Z) : bool := negb (c =? 0) && negb (c =? 10) && negb (c =? 13).

(** The start of the line, or [None] at the end; the buffer; the cursor. *)
Definition ami_cfg_next_line (buf : list Z) (cursor : option nat)
  : outcome (option nat * list Z * option nat) :=
  match cursor with
  | None => Val (None, buf, cursor)
  | Some start =>
      let! c := rd buf start in
      if c =? 0 then Val (None, buf, cursor)
      else
        let! p := scan in_line (fuel_of buf) buf start in
        let! c := rd buf p in
        if c =? 0 then Val (Some start, buf, Some p)
        else
          let! buf := wr buf p 0 in
          let p := S p in
          let! d := rd buf p in
          let p := if ((c =? 13) && (d =? 10)) || ((c =? 10) && (d =? 13)) then S p else p in
          Val (Some start, buf, Some p)
  end.

Definition lead_space (c : Z) : bool := (c =? 32) || (c =? 9) || (c =? 12) || (c =? 11).
Definition trail_space (c : Z) : bool := lead_space c || (c =? 13).

(** [while (end > s && space(end[-1])) end--], [n] is [end - s]. *)
Fixpoint trim_end (buf : list Z) (s n : nat) : outcome nat :=
  match n with
  | O => Val s
  | S m => let! c := rd buf (s + m) in if trail_space c then trim_end buf s m else Val (s + n)%nat
  end.

Definition ami_cfg_trim (buf : list Z) (s : option nat) : outcome (option nat * list Z) :=
  match s with
  | None => Val (None, buf)
  | Some s =>
      let! s := scan lead_space (fuel_of buf) buf s in
      let! e := scan (fun c => negb (c =? 0)) (fuel_of buf) buf s in
      let! e := trim_end buf s (e - s) in
      let! buf := wr buf e 0 in
      Val (Some s, buf)
  end.

Fixpoint strip_loop (fuel : nat) (chars : list Z) (in_quotes : bool) (buf : list Z) (s : nat)
  : outcome (list Z) :=
  match fuel with
  | O => Spin
  | S fuel =>
      let! c := rd buf s in
      if c =? 0 then Val buf
      else if c =? 34 then strip_loop fuel chars (negb in_quotes) buf (S s)
      else
        let! d := rd buf (S s) in
        if (c =? 42) && in_quotes && negb (d =? 0) then strip_loop fuel chars in_quotes buf (S (S s))
        else if in_quotes then strip_loop fuel chars in_quotes buf (S s)
        else if existsb (Z.eqb c) chars then wr buf s 0
        else strip_loop fuel chars in_quotes buf (S s)
  end.

Definition ami_cfg_strip_comment (buf : list Z) (s : option nat) (chars : nullable) : outcome (list Z) :=
  match s, chars with
  | Some s, Some chars => strip_loop (fuel_of buf) chars false buf s
  | _, _ => Val buf
  end.

(** ** Items *)

Definition unescape (c : Z) : Z :=
  if (c =? 110) || (c =? 78) then 10 else if (c =? 101) || (c =? 69) then 27 else c.

(** The loop: where the reading and the writing stopped. *)
Fixpoint unquote_loop (fuel : nat) (buf : list Z) (p out : nat) : outcome (list Z * nat * nat) :=
  match fuel with
  | O => Spin
  | S fuel =>
      let! c := rd buf p in
      if (c =? 0) || (c =? 34) then Val (buf, p, out)
      else
        let! d := rd buf (S p) in
        if (c =? 42) && negb (d =? 0) then
          let! buf := wr buf out (unescape d) in
          unquote_loop fuel buf (S (S p)) (S out)
        else
          let! buf := wr buf out c in
          unquote_loop fuel buf (S p) (S out)
  end.

Definition unquote_content (buf : list Z) (p out : nat) : outcome (list Z * nat) :=
  let! (buf, p, out) := unquote_loop (fuel_of buf) buf p out in
  let! c := rd buf p in
  let p := if c =? 34 then S p else p in
  let! buf := wr buf out 0 in
  Val (buf, p).

Definition ami_cfg_unquote (buf : list Z) (s : option nat) : outcome (list Z) :=
  match s with
  | None => Val buf
  | Some s =>
      let! c := rd buf s in
      if c =? 34 then let! (buf, _) := unquote_content buf (S s) s in Val buf else Val buf
  end.

Definition in_item (c : Z) : bool := negb (c =? 0) && negb (is_blank c).

(** The item, the buffer and the cursor. *)
Definition scan_item (buf : list Z) (cursor : nat) : outcome (option nat * list Z * nat) :=
  let! p := scan is_blank (fuel_of buf) buf cursor in
  let! c := rd buf p in
  if c =? 0 then Val (None, buf, p)
  else if c =? 34 then
    let! (buf, cursor) := unquote_content buf (S p) (S p) in
    Val (Some (S p), buf, cursor)
  else
    let start := p in
    let! p := scan in_item (fuel_of buf) buf p in
    let! c := rd buf p in
    if c =? 0 then Val (Some start, buf, p)
    else let! buf := wr buf p 0 in Val (Some start, buf, S p).

(** [room] is [max - n]. *)
Fixpoint tokenize_loop (room : nat) (buf : list Z) (line : nat) : outcome (list nat * list Z) :=
  match room with
  | O => Val ([], buf)
  | S room =>
      let! (item, buf, line) := scan_item buf line in
      match item with
      | None => Val ([], buf)
      | Some item => let! (tokens, buf) := tokenize_loop room buf line in Val (item :: tokens, buf)
      end
  end.

(** The tokens, whose number is the result, and the buffer. *)
Definition ami_cfg_tokenize (buf : list Z) (line : option nat) (max : nat) : outcome (list nat * list Z) :=
  match line with
  | None => Val ([], buf)
  | Some line => tokenize_loop max buf line
  end.

Definition in_key (c : Z) : bool := negb (c =? 0) && negb (is_blank c) && negb (c =? 61).

(** A key and its value, [None] inside for the static empty string; the buffer and
    the cursor. *)
Definition ami_cfg_next_pair (buf : list Z) (cursor : option nat)
  : outcome (option (nat * option nat) * list Z * option nat) :=
  match cursor with
  | None => Val (None, buf, cursor)
  | Some p =>
      let! p := scan is_blank (fuel_of buf) buf p in
      let! c := rd buf p in
      if c =? 0 then Val (None, buf, Some p)
      else
        let k := p in
        let! kend := scan in_key (fuel_of buf) buf p in
        let! p := scan is_blank (fuel_of buf) buf kend in
        let! c := rd buf p in
        let! p := if c =? 61 then scan is_blank (fuel_of buf) buf (S p) else Val p in
        let! buf := wr buf kend 0 in
        let! (item, buf, p) := scan_item buf p in
        Val (Some (k, item), buf, Some p)
  end.

(** ** Strings in a buffer *)

(** The C string at [p] is [s]. *)
Definition str_at (buf : list Z) (p : nat) (s : list Z) : Prop :=
  cstring s /\ exists rest, drop p buf = s ++ 0 :: rest.

Lemma drop_cons_lookup {A} (l : list A) p x r : drop p l = x :: r -> l !! p = Some x /\ drop (S p) l = r /\ (p < length l)%nat.
Proof.
  intros H. assert (Hx : l !! p = Some x) by (rewrite <- (Nat.add_0_r p), <- lookup_drop, H; done).
  split; [done|]. split; [|by eapply lookup_lt_Some].
  rewrite <- (Nat.add_1_r p), <- drop_drop, H. done.
Qed.

Lemma str_at_lt buf p s : str_at buf p s -> (p + length s < length buf)%nat.
Proof.
  intros (_ & rest & E). apply (f_equal length) in E. rewrite length_drop, length_app in E. simpl in E. lia.
Qed.

Lemma str_at_cons buf p c s : str_at buf p (c :: s) -> rd buf p = Val c /\ str_at buf (S p) s /\ c <> 0.
Proof.
  intros (Hc & rest & E). inversion Hc; subst. destruct (drop_cons_lookup _ _ _ _ E) as (Hx & E' & _).
  unfold rd. rewrite Hx. split_and!; [done| |lia]. split; [done|]. by exists rest.
Qed.

Lemma str_at_nil buf p : str_at buf p [] -> rd buf p = Val 0.
Proof. intros (_ & rest & E). destruct (drop_cons_lookup _ _ _ _ E) as (Hx & _). unfold rd. by rewrite Hx. Qed.

Lemma str_at_rd buf p s : str_at buf p s -> rd buf p = Val (chr s).
Proof. destruct s; [apply str_at_nil|]. intros H. by apply str_at_cons in H as [? _]. Qed.

Lemma str_at_app buf p a b : str_at buf p (a ++ b) -> str_at buf (p + length a) b.
Proof.
  revert p. induction a as [|c a IH]; intros p H; cbn [app length] in *; [by rewrite Nat.add_0_r|].
  apply str_at_cons in H as (_ & H & _). rewrite Nat.add_succ_r. by apply (IH (S p)).
Qed.

(** A write before a position does not move the string there, and one after it
    leaves the bytes before. *)
Lemma wr_val buf p c : (p < length buf)%nat -> wr buf p c = Val (<[p := c]> buf).
Proof. intros H. unfold wr. by rewrite (proj2 (Nat.ltb_lt _ _)). Qed.

Lemma drop_insert_before (buf : list Z) p q c : (p < q)%nat -> drop q (<[p := c]> buf) = drop q buf.
Proof. apply drop_insert_lt. Qed.

Lemma str_at_same buf buf' p s : drop p buf' = drop p buf -> str_at buf p s -> str_at buf' p s.
Proof. intros E (Hc & rest & H). split; [done|]. exists rest. by rewrite E. Qed.

(** A string that ends before a position where two buffers begin to differ. *)
Lemma str_at_take buf buf' p s q :
  (p + length s < q)%nat -> take q buf' = take q buf -> str_at buf p s -> str_at buf' p s.
Proof.
  intros Hq E (Hc & rest & H). split; [done|]. exists (drop (S (length s)) (drop p buf')).
  rewrite <- (take_drop (S (length s)) (drop p buf')) at 1. rewrite !take_drop_commute.
  replace (take (p + S (length s)) buf') with (take (p + S (length s)) buf).
  - rewrite <- take_drop_commute, H. change (0 :: ?r) with ([0] ++ r). rewrite !app_assoc.
    rewrite take_app_length' by (rewrite length_app; simpl; lia). done.
  - assert (G : forall l : list Z, take (p + S (length s)) l = take (p + S (length s)) (take q l))
      by (intros l; by rewrite take_take, Nat.min_l by lia).
    rewrite (G buf), (G buf'). by rewrite E.
Qed.

Lemma scan_str go fuel buf p a b :
  str_at buf p (a ++ b) -> Forall (fun c => go c = true) a -> go (chr b) = false -> (length a < fuel)%nat ->
  scan go fuel buf p = Val (p + length a)%nat.
Proof.
  revert p fuel. induction a as [|c a IH]; intros p fuel H Ha Hb Hf; (destruct fuel as [|fuel]; [simpl in Hf; lia|]);
    cbn [scan app length] in *.
  - rewrite (str_at_rd _ _ _ H). cbn [obind]. rewrite Hb. by rewrite Nat.add_0_r.
  - apply str_at_cons in H as (-> & H & _). cbn [obind]. inversion Ha as [|? ? Hc Ha']; subst. rewrite Hc.
    rewrite (IH (S p) fuel H Ha' Hb) by lia. f_equal. lia.
Qed.

(** What a scan leaves, for the text at the position. *)
Lemma scan_skip go buf p s :
  str_at buf p s -> go 0 = false ->
  scan go (fuel_of buf) buf p = Val (p + (length s - length (skip_while go s)))%nat /\
  str_at buf (p + (length s - length (skip_while go s)))%nat (skip_while go s).
Proof.
  intros H H0. destruct (skip_while_inv go s) as (a & E & Ha). pose proof (str_at_lt _ _ _ H) as Hlt.
  assert (Hl : (length s - length (skip_while go s))%nat = length a) by (rewrite E at 1; rewrite length_app; lia).
  rewrite Hl. rewrite E in H. split; [|by apply str_at_app].
  apply (scan_str go _ buf p a (skip_while go s)); [done|done|by apply skip_while_stop|].
  rewrite E, length_app in Hlt. lia.
Qed.

(** ** What the tokens of a line are

    The reference: a function of the text alone, with nothing edited in place. *)

(** The contents of a quoted item and the text where they stop. *)
Fixpoint quoted (s : list Z) : list Z * list Z :=
  match s with
  | [] => ([], [])
  | c :: r =>
      if c =? 34 then ([], s)
      else match r with
           | d :: r' => if c =? 42 then let '(t, u) := quoted r' in (unescape d :: t, u)
                        else let '(t, u) := quoted r in (c :: t, u)
           | [] => let '(t, u) := quoted r in (c :: t, u)
           end
  end.

Fixpoint item_chars (s : list Z) : list Z :=
  match s with c :: r => if in_item c then c :: item_chars r else [] | [] => [] end.

Definition next_item (s : list Z) : option (list Z * list Z) :=
  let s := skip_while is_blank s in
  match s with
  | [] => None
  | c :: r => if c =? 34 then let '(t, u) := quoted r in Some (t, tl u)
              else Some (item_chars s, tl (skip_while in_item s))
  end.

Fixpoint line_tokens (max : nat) (s : list Z) : list (list Z) :=
  match max with
  | O => []
  | S max => match next_item s with
             | None => []
             | Some (t, r) => t :: line_tokens max r
             end
  end.

Lemma quoted_ind (P : list Z -> Prop) :
  P [] -> (forall r, P (34 :: r)) ->
  (forall d r, P r -> P (42 :: d :: r)) ->
  (forall c r, c <> 34 -> (c <> 42 \/ r = []) -> P r -> P (c :: r)) -> forall s, P s.
Proof.
  intros H0 H34 H42 Hc s. assert (G : P s /\ P (tl s)); [|tauto].
  induction s as [|c r [IH1 IH2]]; [done|]. split; [|done].
  destruct (decide (c = 34)) as [->|]; [done|].
  destruct (decide (c = 42)) as [->|]; [|by apply Hc; auto].
  destruct r as [|d r]; [by apply Hc; auto|by apply H42].
Qed.

Lemma quoted_plain c r : c <> 34 -> c <> 42 \/ r = [] -> quoted (c :: r) = (c :: (quoted r).1, (quoted r).2).
Proof.
  intros H34 H42. simpl. rewrite (proj2 (Z.eqb_neq _ _) H34). destruct r as [|d r]; [done|].
  destruct H42 as [H42|]; [|done]. rewrite (proj2 (Z.eqb_neq _ _) H42). by destruct (quoted (d :: r)).
Qed.

Lemma quoted_escape d r : quoted (42 :: d :: r) = (unescape d :: (quoted r).1, (quoted r).2).
Proof. simpl. by destruct (quoted r). Qed.

(** The contents are no longer than the text they came from. *)
Lemma quoted_length s : (length (quoted s).1 + length (quoted s).2 <= length s)%nat.
Proof.
  induction s as [|r|d r IH|c r H34 H42 IH] using quoted_ind; [done|done| |].
  - rewrite quoted_escape. simpl. lia.
  - rewrite quoted_plain by done. simpl. lia.
Qed.

Lemma quoted_cstring s : cstring s -> cstring (quoted s).1 /\ cstring (quoted s).2.
Proof.
  induction s as [|r|d r IH|c r H34 H42 IH] using quoted_ind; intros Hs; [done| | |].
  - split; [constructor|done].
  - rewrite quoted_escape. do 2 (inversion Hs as [|? ? ? Hs']; subst; clear Hs; rename Hs' into Hs).
    destruct (IH Hs). split; [|done]. constructor; [|done]. unfold unescape. bcases; lia.
  - rewrite quoted_plain by done. inversion Hs; subst. destruct IH; [done|]. split; [|done]. by constructor.
Qed.

(** ** The editor refines the reference *)

Lemma take_snoc_insert (buf : list Z) out c :
  (out < length buf)%nat -> take (S out) (<[out := c]> buf) = take out buf ++ [c].
Proof.
  intros H. rewrite (take_S_r _ _ c) by (by apply list_lookup_insert_eq). by rewrite take_insert_ge by lia.
Qed.

(** The loop writes behind its reading: what is still to read is untouched. *)
Lemma unquote_loop_spec s fuel buf p out :
  str_at buf p s -> (out <= p)%nat -> (length s < fuel)%nat ->
  exists buf', unquote_loop fuel buf p out =
      Val (buf', p + (length s - length (quoted s).2), out + length (quoted s).1)%nat /\
    length buf' = length buf /\
    take (out + length (quoted s).1) buf' = take out buf ++ (quoted s).1 /\
    drop (p + (length s - length (quoted s).2)) buf' = drop (p + (length s - length (quoted s).2)) buf.
Proof.
  revert fuel buf p out. induction s as [|r|d r IH|c r H34 H42 IH] using quoted_ind;
    intros fuel buf p out Hs Hout Hf; (destruct fuel as [|fuel]; [simpl in Hf; lia|]); cbn [unquote_loop].
  - rewrite (str_at_nil _ _ Hs). cbn [obind Z.eqb orb quoted length fst snd].
    exists buf. rewrite !Nat.add_0_r, app_nil_r. done.
  - apply str_at_cons in Hs as (-> & _). cbn [obind Z.eqb Pos.eqb orb quoted length fst snd].
    exists buf. rewrite Nat.sub_diag, !Nat.add_0_r, app_nil_r. done.
  - pose proof (str_at_lt _ _ _ Hs) as Hlt. apply str_at_cons in Hs as (-> & Hs & _).
    apply str_at_cons in Hs as (-> & Hs & Hd). cbn [obind Z.eqb Pos.eqb orb andb negb].
    rewrite (proj2 (Z.eqb_neq d 0)) by done. cbn [negb length] in *.
    rewrite wr_val by lia. cbn [obind]. rewrite quoted_escape. cbn [fst snd length].
    destruct (IH fuel (<[out := unescape d]> buf) (S (S p)) (S out)) as (buf' & E & Hl & Ht & Hdr).
    + apply (str_at_same buf); [by rewrite drop_insert_before by lia|done].
    + lia.
    + lia.
    + pose proof (quoted_length r) as Hq.
      replace (p + (S (S (length r)) - length (quoted r).2))%nat with (S (S p) + (length r - length (quoted r).2))%nat by lia.
      exists buf'. rewrite <- Nat.add_succ_comm. rewrite length_insert in Hl. split_and!; [done|done| |].
      * rewrite Ht, take_snoc_insert, <- app_assoc by lia. done.
      * rewrite Hdr, drop_insert_before by lia. done.
  - pose proof (str_at_lt _ _ _ Hs) as Hlt. apply str_at_cons in Hs as (-> & Hs & Hc0). cbn [obind length] in *.
    rewrite (proj2 (Z.eqb_neq c 0)), (proj2 (Z.eqb_neq c 34)) by done. cbn [orb].
    rewrite (str_at_rd _ _ _ Hs). cbn [obind].
    assert (Hesc : (c =? 42) && negb (chr r =? 0) = false).
    { destruct H42 as [H42| ->]; [by rewrite (proj2 (Z.eqb_neq c 42))|by rewrite andb_false_r]. }
    rewrite Hesc, wr_val by lia. cbn [obind]. rewrite quoted_plain by done. cbn [fst snd length].
    destruct (IH fuel (<[out := c]> buf) (S p) (S out)) as (buf' & E & Hl & Ht & Hdr).
    + apply (str_at_same buf); [by rewrite drop_insert_before by lia|done].
    + lia.
    + lia.
    + pose proof (quoted_length r) as Hq.
      replace (p + (S (length r) - length (quoted r).2))%nat with (S p + (length r - length (quoted r).2))%nat by lia.
      exists buf'. rewrite <- Nat.add_succ_comm. rewrite length_insert in Hl. split_and!; [done|done| |].
      * rewrite Ht, take_snoc_insert, <- app_assoc by lia. done.
      * rewrite Hdr, drop_insert_before by lia. done.
Qed.

Lemma quoted_stop s : (quoted s).2 = [] \/ exists r, (quoted s).2 = 34 :: r.
Proof.
  induction s as [|r|d r IH|c r H34 H42 IH] using quoted_ind; [by left|right; by exists r| |].
  - by rewrite quoted_escape.
  - by rewrite quoted_plain.
Qed.

Lemma quoted_suffix s : exists a, s = a ++ (quoted s).2.
Proof.
  induction s as [|r|d r [a IH]|c r H34 H42 [a IH]] using quoted_ind; [by exists []|by exists []| |].
  - exists (42 :: d :: a). rewrite quoted_escape. simpl. by rewrite <- IH.
  - exists (c :: a). rewrite quoted_plain by done. simpl. by rewrite <- IH.
Qed.

(** [buf'] is [buf] edited between [lo] and [hi] only. *)
Definition edited (buf buf' : list Z) (lo hi : nat) : Prop :=
  length buf' = length buf /\ take lo buf' = take lo buf /\ drop hi buf' = drop hi buf.

Lemma edited_refl buf lo hi : edited buf buf lo hi.
Proof. done. Qed.

Lemma edited_mono buf buf' lo hi lo' hi' :
  edited buf buf' lo hi -> (lo' <= lo)%nat -> (hi <= hi')%nat -> edited buf buf' lo' hi'.
Proof.
  intros (Hl & Ht & Hd) H1 H2. split_and!; [done| |].
  - replace lo' with (Nat.min lo' lo) by lia. by rewrite <- !take_take, Ht.
  - replace hi' with (hi + (hi' - hi))%nat by lia. by rewrite <- !drop_drop, Hd.
Qed.

Lemma edited_trans b1 b2 b3 lo hi : edited b1 b2 lo hi -> edited b2 b3 lo hi -> edited b1 b3 lo hi.
Proof. intros (? & ? & ?) (? & ? & ?). split_and!; congruence. Qed.

Lemma edited_insert buf p c lo hi : (lo <= p < hi)%nat -> edited buf (<[p := c]> buf) lo hi.
Proof. intros H. split_and!; [by rewrite length_insert|by apply take_insert_ge; lia|by apply drop_insert_lt; lia]. Qed.

Lemma edited_nothing buf buf' n : edited buf buf' n n -> buf' = buf.
Proof. intros (_ & Ht & Hd). rewrite <- (take_drop n buf'), Ht, Hd. apply take_drop. Qed.

(** A string that ended before the edit is still there. *)
Lemma edited_str buf buf' lo hi p s :
  edited buf buf' lo hi -> str_at buf p s ->
  (p + length s < lo)%nat \/ (p + length s = lo /\ lo = hi)%nat -> str_at buf' p s.
Proof.
  intros He Hs [H|[H ->]].
  - destruct He as (_ & Ht & _). by apply (str_at_take buf buf' p s lo).
  - by rewrite (edited_nothing _ _ _ He).
Qed.

Lemma insert_same (buf : list Z) p c : buf !! p = Some c -> <[p := c]> buf = buf.
Proof. apply list_insert_id. Qed.

(** A quoted item in place: its contents, and the cursor behind it. *)
Lemma unquote_content_spec s buf p out :
  str_at buf p s -> (out <= p)%nat ->
  exists buf' p', unquote_content buf p out = Val (buf', p') /\ edited buf buf' out (p + length s) /\
    str_at buf' out (quoted s).1 /\ str_at buf' p' (tl (quoted s).2) /\
    (p' + length (tl (quoted s).2) = p + length s)%nat /\
    ((out + length (quoted s).1 < p')%nat \/ ((out + length (quoted s).1 = p')%nat /\ tl (quoted s).2 = [])).
Proof.
  intros Hs Hout. pose proof (str_at_lt _ _ _ Hs) as Hlt. pose proof (quoted_length s) as Hq.
  destruct (unquote_loop_spec s (fuel_of buf) buf p out Hs Hout) as (b1 & E & Hl & Ht & Hd); [lia|].
  destruct (quoted_cstring s (proj1 Hs)) as [Hc1 Hc2]. destruct (quoted s) as [t u] eqn:Eq. cbn [fst snd] in *.
  destruct (quoted_suffix s) as (a & Ea). rewrite Eq in Ea. cbn [snd] in Ea.
  assert (Ha : (length s - length u)%nat = length a) by (rewrite Ea, length_app; lia). rewrite Ha in *.
  set (p1 := (p + length a)%nat) in *. set (o1 := (out + length t)%nat) in *.
  assert (Hsl : length s = (length a + length u)%nat) by (by rewrite Ea, length_app).
  assert (Hu : str_at b1 p1 u) by (apply (str_at_same buf); [done|]; rewrite Ea in Hs; by apply str_at_app).
  assert (Ho1 : (o1 <= p1)%nat) by (unfold o1, p1; lia).
  assert (Hform : <[o1 := 0]> b1 = take out buf ++ t ++ 0 :: drop (S o1) b1).
  { rewrite insert_take_drop by lia. by rewrite Ht, <- app_assoc. }
  assert (Hto : length (take out buf) = out) by (rewrite length_take; lia).
  assert (Hrest : forall q, (p1 <= q)%nat -> drop q b1 = drop q buf).
  { intros q Hq'. replace q with (p1 + (q - p1))%nat by lia. by rewrite <- !drop_drop, Hd. }
  unfold unquote_content. rewrite E. cbn [obind]. rewrite (str_at_rd _ _ _ Hu). cbn [obind].
  rewrite wr_val by lia. cbn [obind].
  set (p' := if chr u =? 34 then S p1 else p1). exists (<[o1 := 0]> b1), p'. split; [done|].
  assert (Hp' : (p' + length (tl u) = p + length s)%nat /\ ((o1 < p')%nat \/ (o1 = p' /\ u = []))).
  { unfold p'. pose proof (quoted_stop s) as Hstop. rewrite Eq in Hstop. cbn [snd] in Hstop.
    destruct Hstop as [-> |[r ->]]; cbn [chr tl length Z.eqb Pos.eqb] in *; unfold p1 in *; lia || (split; [lia|]).
    destruct (decide (o1 < p + length a)%nat); [by left|right; split; [lia|done]]. }
  destruct Hp' as [Hpl Hcase].
  assert (Hdrop : forall q, (p' <= q)%nat -> drop q (<[o1 := 0]> b1) = drop q buf).
  { intros q Hq'. assert (p1 <= q)%nat by (revert Hq'; unfold p'; destruct (chr u =? 34); lia).
    destruct Hcase as [Hlt'|[Heq ->]].
    - by rewrite drop_insert_before, Hrest by lia.
    - rewrite insert_same; [by apply Hrest|]. unfold p' in Heq. cbn [chr Z.eqb] in Heq. rewrite Heq.
      destruct Hu as (_ & rest & Hu). by destruct (drop_cons_lookup _ _ _ _ Hu). }
  split_and!; [split_and!| | |done|].
  - by rewrite length_insert.
  - by rewrite Hform, take_app_length'.
  - apply Hdrop. lia.
  - split; [done|]. exists (drop (S o1) b1). rewrite Hform. by apply drop_app_length'.
  - assert (Htl : str_at b1 p' (tl u)).
    { unfold p'. destruct u as [|c u]; [done|]. cbn [tl chr]. pose proof (quoted_stop s) as Hstop. rewrite Eq in Hstop.
      destruct Hstop as [|[r Hr]]; [done|]. cbn [snd] in Hr. injection Hr as -> ->. by apply str_at_cons in Hu as (_ & Hu & _). }
    apply (str_at_same b1); [|done]. rewrite Hdrop by lia. symmetry. apply Hrest.
    unfold p'. destruct (chr u =? 34); lia.
  - destruct Hcase as [|[? ->]]; [by left|by right].
Qed.

Lemma item_chars_skip s : s = item_chars s ++ skip_while in_item s.
Proof. induction s as [|c r IH]; simpl; [done|]. destruct (in_item c); [simpl; by rewrite <- IH|done]. Qed.

Lemma item_chars_cstring s : cstring s -> cstring (item_chars s).
Proof. intros H. rewrite (item_chars_skip s) in H. by apply cstring_app in H as [? _]. Qed.

(** What one call leaves for a text at its cursor. *)
Definition item_done (buf buf' : list Z) (cur : nat) (s : list Z) (item : option nat) (cur' : nat) : Prop :=
  edited buf buf' cur (cur + length s) /\
  match next_item s with
  | None => item = None
  | Some (t, r) =>
      exists st, item = Some st /\ (cur <= st)%nat /\ str_at buf' st t /\ str_at buf' cur' r /\
        (cur' + length r = cur + length s)%nat /\
        ((st + length t < cur')%nat \/ ((st + length t = cur')%nat /\ r = []))
  end.

Lemma scan_item_spec buf cur s :
  str_at buf cur s ->
  exists item buf' cur', scan_item buf cur = Val (item, buf', cur') /\ item_done buf buf' cur s item cur'.
Proof.
  intros Hs. unfold scan_item, item_done, next_item.
  destruct (scan_skip is_blank buf cur s Hs eq_refl) as [-> Hs1]. cbn [obind].
  destruct (skip_while_inv is_blank s) as (b & Eb & _). set (s1 := skip_while is_blank s) in *.
  assert (Hl : length s = (length b + length s1)%nat) by (by rewrite Eb, length_app).
  replace (length s - length s1)%nat with (length b) in * by lia. set (p := (cur + length b)%nat) in *.
  rewrite (str_at_rd _ _ _ Hs1). cbn [obind]. clearbody s1. destruct s1 as [|c r].
  { exists None, buf, p. by split_and!; [..|apply edited_refl|]. }
  pose proof (str_at_cons _ _ _ _ Hs1) as (_ & Hr & Hc0). cbn [chr].
  rewrite (proj2 (Z.eqb_neq c 0)) by done. cbn [length] in *. destruct (Z.eqb_spec c 34) as [->|Hc].
  - destruct (unquote_content_spec r buf (S p) (S p) Hr) as (buf' & p' & E & He & Ht & Hu & Hlen & Hcase); [lia|].
    rewrite E. cbn [obind]. destruct (quoted r) as [t u]. cbn [fst snd] in *.
    exists (Some (S p)), buf', p'. split; [done|]. split.
    + apply (edited_mono _ _ _ _ _ _ He); lia.
    + exists (S p). split_and!; try done; lia.
  - destruct (scan_skip in_item buf p (c :: r) Hs1 eq_refl) as [-> Hs2]. cbn [obind].
    pose proof (item_chars_skip (c :: r)) as Ei. pose proof (item_chars_cstring _ (proj1 Hs1)) as Hic.
    set (t := item_chars (c :: r)) in *. set (s2 := skip_while in_item (c :: r)) in *.
    assert (Hlen : length (c :: r) = (length t + length s2)%nat) by (rewrite Ei at 1; apply length_app).
    replace (length (c :: r) - length s2)%nat with (length t) in * by lia. cbn [length] in Hlen.
    rewrite (str_at_rd _ _ _ Hs2). cbn [obind]. set (q := (p + length t)%nat) in *.
    pose proof (str_at_lt _ _ _ Hs2) as Hlt.
    assert (Htext : str_at buf p t \/ s2 <> []).
    { destruct s2; [left|by right]. by rewrite Ei, app_nil_r in Hs1. }
    clearbody t s2. destruct s2 as [|d r2]; cbn [chr tl].
    + exists (Some p), buf, q. split; [done|]. split; [apply edited_refl|].
      exists p. destruct Htext as [Htext|]; [|done]. split_and!; try done; [lia|simpl in *; lia|].
      right. split; [done|done].
    + pose proof (str_at_cons _ _ _ _ Hs2) as (_ & Hr2 & Hd0). cbn [length] in *.
      rewrite (proj2 (Z.eqb_neq d 0)) by done. rewrite wr_val by lia. cbn [obind].
      exists (Some p), (<[q := 0]> buf), (S q). split; [done|]. split.
      * apply edited_insert. unfold q, p. lia.
      * exists p. split_and!; try done; [lia| | | |].
        -- split; [done|]. exists (drop (S q) buf). destruct Hs1 as (_ & rest & E1).
           rewrite drop_insert_ge, E1, Ei by (unfold q; lia). replace (q - p)%nat with (length t) by (unfold q; lia).
           rewrite <- app_assoc, insert_app_r_alt, Nat.sub_diag by lia. cbn [app insert list_insert].
           f_equal. f_equal. symmetry.
           assert (Hdq : drop q buf = (d :: r2) ++ 0 :: rest).
           { unfold q. rewrite <- drop_drop, E1, Ei, <- app_assoc. by apply drop_app_length'. }
           by destruct (drop_cons_lookup _ _ _ _ Hdq) as (_ & ? & _).
        -- apply (str_at_same buf); [by apply drop_insert_lt; lia|done].
        -- unfold q, p in *. lia.
        -- left. unfold q. lia.
Qed.

Lemma next_item_nil : next_item [] = None.
Proof. done. Qed.

Lemma line_tokens_nil max : line_tokens max [] = [].
Proof. by destruct max. Qed.

Lemma tokenize_loop_spec room buf line s :
  str_at buf line s ->
  exists ps buf', tokenize_loop room buf line = Val (ps, buf') /\
    edited buf buf' line (line + length s) /\ Forall2 (str_at buf') ps (line_tokens room s).
Proof.
  revert buf line s. induction room as [|room IH]; intros buf line s Hs; cbn [tokenize_loop line_tokens].
  { exists [], buf. split_and!; [done|apply edited_refl|constructor]. }
  destruct (scan_item_spec buf line s Hs) as (item & b1 & cur & -> & He & Hi). cbn [obind].
  destruct (next_item s) as [[t r]|].
  - destruct Hi as (st & -> & Hst & Ht & Hr & Hlen & Hcase).
    destruct (IH b1 cur r Hr) as (ps & b2 & -> & He2 & Hps). cbn [obind].
    exists (st :: ps), b2. split; [done|]. split.
    + apply (edited_trans _ b1); [done|]. apply (edited_mono _ _ _ _ _ _ He2); lia.
    + constructor; [|done]. apply (edited_str b1 b2 cur (cur + length r)); [done|done|].
      destruct Hcase as [|[? ->]]; [by left|right]. simpl. lia.
  - subst item. exists [], b1. split_and!; [done|done|constructor].
Qed.

(** C39 The tokeniser, which edits the line in place and returns positions in it,
    is the tokeniser on texts: after the call the i-th position holds the i-th
    token, all of them at once, at most [max] of them, and nothing outside the
    line has changed.  It does so for every line in any buffer. *)
Theorem tokenize_refines buf line s max :
  str_at buf line s ->
  exists ps buf', ami_cfg_tokenize buf (Some line) max = Val (ps, buf') /\
    Forall2 (str_at buf') ps (line_tokens max s) /\ edited buf buf' line (line + length s).
Proof.
  intros Hs. destruct (tokenize_loop_spec max buf line s Hs) as (ps & buf' & E & He & Hps).
  exists ps, buf'. done.
Qed.

Lemma tokenize_refines_witness :
  exists ps buf', ami_cfg_tokenize (str "dev=x  ydev" ++ [0; 7]) (Some 7%nat) 4 = Val (ps, buf') /\
    Forall2 (str_at buf') ps [str "ydev"] /\ edited (str "dev=x  ydev" ++ [0; 7]) buf' 7 11.
Proof.
  apply (tokenize_refines (str "dev=x  ydev" ++ [0; 7]) 7 (str "ydev") 4).
  split; [repeat constructor|]. by exists [7].
Defined.

(** ** Writing tokens so that they are read back *)

Definition escape (c : Z) : list Z :=
  if (c =? 34) || (c =? 42) then [42; c]
  else if c =? 10 then [42; 110]
  else if c =? 27 then [42; 101]
  else [c].

Definition quote (tok : list Z) : list Z := 34 :: concat (map escape tok) ++ [34].

(** A line of items: each quoted, or bare when it is followed by a blank or the end
    of the line. *)
Inductive item_line : list Z -> list (list Z) -> Prop :=
| line_end b : blanks b -> item_line b []
| line_quoted b tok text toks :
    blanks b -> cstring tok -> item_line text toks -> item_line (b ++ quote tok ++ text) (tok :: toks)
| line_bare b tok text toks :
    blanks b -> tok <> [] -> Forall (fun c => in_item c = true) tok -> chr tok <> 34 ->
    is_blank (chr text) = true \/ text = [] -> item_line text toks -> item_line (b ++ tok ++ text) (tok :: toks).

Lemma quoted_quote tok text : cstring tok -> quoted (concat (map escape tok) ++ 34 :: text) = (tok, 34 :: text).
Proof.
  intros Hc. induction Hc as [|c tok Hc _ IH]; [done|]. cbn [map concat]. rewrite <- app_assoc.
  unfold escape at 1.
  destruct (Z.eqb_spec c 34) as [->|H34]; cbn [orb]; [cbn [app]; rewrite quoted_escape, IH; done|].
  destruct (Z.eqb_spec c 42) as [->|H42]; [cbn [app]; rewrite quoted_escape, IH; done|].
  destruct (Z.eqb_spec c 10) as [->|]; [cbn [app]; rewrite quoted_escape, IH; done|].
  destruct (Z.eqb_spec c 27) as [->|]; [cbn [app]; rewrite quoted_escape, IH; done|].
  cbn [app]. rewrite quoted_plain, IH by auto. done.
Qed.

Lemma item_line_tl text toks : item_line text toks -> is_blank (chr text) = true -> item_line (tl text) toks.
Proof.
  intros H Hb. destruct H as [b Hbl|b tok text toks Hbl Hc Hl|b tok text toks Hbl Hne Hin Hq Hs Hl].
  - destruct Hbl as [|c b _ Hbl]; [done|]. by constructor.
  - destruct Hbl as [|c b _ Hbl]; [done|]. by apply (line_quoted b).
  - destruct Hbl as [|c b _ Hbl]; [|by apply (line_bare b)].
    destruct Hin as [|c tok Hc _]; [done|]. cbn [app chr] in Hb. unfold in_item in Hc.
    rewrite Hb in Hc. by rewrite andb_false_r in Hc.
Qed.

Lemma skip_items tok text :
  Forall (fun c => in_item c = true) tok -> is_blank (chr text) = true \/ text = [] ->
  item_chars (tok ++ text) = tok /\ skip_while in_item (tok ++ text) = text.
Proof.
  intros Ht Hs. assert (Hstop : in_item (chr text) = false).
  { destruct Hs as [Hs| ->]; [|done]. unfold in_item. by rewrite Hs, andb_false_r. }
  split; [|by apply skip_blanks_app].
  induction Ht as [|c tok Hc _ IH]; simpl.
  - destruct text as [|c text]; [done|]. simpl in *. by rewrite Hstop.
  - by rewrite Hc, IH.
Qed.

(** The tokens of a line of items are the items, up to the limit. *)
Lemma item_line_tokens text toks max : item_line text toks -> line_tokens max text = take max toks.
Proof.
  revert text toks. induction max as [|max IH]; intros text toks H; [done|]. cbn [line_tokens].
  destruct H as [b Hb|b tok text toks Hb Hc Hl|b tok text toks Hb Hne Hin Hq Hs Hl]; unfold next_item.
  - rewrite <- (app_nil_r b), skip_blanks_app by done. done.
  - rewrite skip_blanks_app by done. unfold quote. cbn [app]. rewrite Z.eqb_refl.
    rewrite <- app_assoc. cbn [app]. rewrite quoted_quote by done. cbn [tl take]. by rewrite (IH text toks).
  - destruct tok as [|c tok]; [done|].
    assert (Hbl : is_blank (chr ((c :: tok) ++ text)) = false).
    { inversion Hin as [|? ? Hc _]; subst. cbn [app chr]. unfold in_item in Hc. by destruct (is_blank c), (c =? 0). }
    rewrite skip_blanks_app by done. cbn [app]. cbn [chr] in Hq. rewrite (proj2 (Z.eqb_neq c 34)) by done.
    destruct (skip_items (c :: tok) text Hin Hs) as [E1 E2]. cbn [app] in E1, E2. rewrite E1, E2. cbn [take].
    f_equal. destruct Hs as [Hs| ->]; [apply IH; by apply item_line_tl|by apply IH].
Qed.

(** Reading undoes writing: whatever bytes the tokens hold, quotes, asterisks,
    line feeds and blanks included, a line that spells them quoted and escaped, or
    bare where that is possible, gives exactly those tokens. *)
Theorem tokenize_roundtrip buf line text toks max :
  str_at buf line text -> item_line text toks -> (length toks <= max)%nat ->
  exists ps buf', ami_cfg_tokenize buf (Some line) max = Val (ps, buf') /\ Forall2 (str_at buf') ps toks.
Proof.
  intros Hs Hl Hm. destruct (tokenize_loop_spec max buf line text Hs) as (ps & buf' & E & _ & Hps).
  rewrite (item_line_tokens text toks max Hl), take_ge in Hps by done. by exists ps, buf'.
Qed.

Lemma tokenize_roundtrip_witness :
  exists ps buf', ami_cfg_tokenize (quote [65; 34; 42; 10] ++ [32; 66; 0]) (Some 0%nat) 3 = Val (ps, buf') /\
    Forall2 (str_at buf') ps [[65; 34; 42; 10]; [66]].
Proof.
  apply (tokenize_roundtrip (quote [65; 34; 42; 10] ++ [32; 66; 0]) 0 (quote [65; 34; 42; 10] ++ [32; 66])
           [[65; 34; 42; 10]; [66]] 3).
  - split; [repeat constructor|]. by exists [].
  - apply (line_quoted [] [65; 34; 42; 10] [32; 66] [[66]]); [constructor|repeat constructor|].
    apply (line_bare [32] [66] [] []); [by repeat constructor|done|by repeat constructor|done|by right|].
    constructor. constructor.
  - simpl. lia.
Defined.

(** ** Pairs *)

Fixpoint key_chars (s : list Z) : list Z :=
  match s with c :: r => if in_key c then c :: key_chars r else [] | [] => [] end.

(** The key, the value (empty when there is none) and the rest of the line. *)
Definition next_pair_text (s : list Z) : option (list Z * list Z * list Z) :=
  match skip_while is_blank s with
  | [] => None
  | s1 =>
      let r := skip_while is_blank (skip_while in_key s1) in
      let r := if chr r =? 61 then skip_while is_blank (tl r) else r in
      match next_item r with
      | None => Some (key_chars s1, [], [])
      | Some (v, r) => Some (key_chars s1, v, r)
      end
  end.

Lemma key_chars_skip s : s = key_chars s ++ skip_while in_key s.
Proof. induction s as [|c r IH]; simpl; [done|]. destruct (in_key c); [simpl; by rewrite <- IH|done]. Qed.

(** A string cut short by a NUL written behind its first part. *)
Lemma str_at_cut buf p a b :
  str_at buf p (a ++ b) -> str_at (<[(p + length a)%nat := 0]> buf) p a.
Proof.
  intros (Hc & rest & E). apply cstring_app in Hc as [Ha _]. split; [done|].
  rewrite drop_insert_ge by lia. replace (p + length a - p)%nat with (length a) by lia.
  rewrite E, <- app_assoc, insert_app_r_alt, Nat.sub_diag by lia.
  destruct b as [|c b]; [by exists rest|]. cbn [app insert list_insert]. by eexists.
Qed.

(** Skipping over a position that is at the end, or past a character. *)
Lemma skip_at buf p s go :
  str_at buf p s -> go 0 = false ->
  exists n, scan go (fuel_of buf) buf p = Val (p + n)%nat /\ str_at buf (p + n) (skip_while go s) /\
    (n + length (skip_while go s) = length s)%nat.
Proof.
  intros Hs H0. destruct (scan_skip go buf p s Hs H0) as [E Hs']. eexists. split; [exact E|]. split; [done|].
  destruct (skip_while_inv go s) as (a & Ea & _). apply (f_equal length) in Ea. rewrite length_app in Ea. lia.
Qed.

(** The separator: blanks, at most one equals sign, blanks. *)
Lemma skip_equals buf p s :
  str_at buf p s ->
  exists n, (let! c := rd buf p in if c =? 61 then scan is_blank (fuel_of buf) buf (S p) else Val p) = Val (p + n)%nat /\
    (let r := if chr s =? 61 then skip_while is_blank (tl s) else s in
     str_at buf (p + n) r /\ (n + length r = length s)%nat).
Proof.
  intros Hs. rewrite (str_at_rd _ _ _ Hs). cbn [obind]. destruct s as [|c s]; cbn [chr tl].
  { exists 0%nat. rewrite Nat.add_0_r. done. }
  destruct (Z.eqb_spec c 61) as [->|].
  - apply str_at_cons in Hs as (_ & Hs & _). destruct (skip_at _ _ _ is_blank Hs eq_refl) as (n & -> & Hr & Hn).
    exists (S n). rewrite Nat.add_succ_r. split; [done|]. simpl. split; [done|lia].
  - exists 0%nat. rewrite Nat.add_0_r. done.
Qed.

(** Between a key and its value there is something to skip, unless the line ends. *)
Lemma pair_separator s :
  cstring s ->
  let s3 := skip_while is_blank (skip_while in_key s) in
  let s4 := if chr s3 =? 61 then skip_while is_blank (tl s3) else s3 in
  length s4 = length (skip_while in_key s) -> s4 = [].
Proof.
  intros Hc s3 s4 Hl. pose proof (skip_while_stop in_key s eq_refl) as Hstop.
  destruct (skip_while_inv in_key s) as (k & Ek & _). rewrite Ek in Hc. apply cstring_app in Hc as [_ Hc].
  destruct (skip_while_inv is_blank (skip_while in_key s)) as (a & Ea & _). fold s3 in Ea.
  pose proof (skip_while_stop is_blank (skip_while in_key s) eq_refl) as Hb. fold s3 in Hb.
  apply (f_equal length) in Ea as El. rewrite length_app in El. unfold s4 in *. clear s4.
  destruct s3 as [|d s3]; [done|]. exfalso. cbn [chr tl length] in *.
  destruct (Z.eqb_spec d 61) as [->|Hd].
  - destruct (skip_while_inv is_blank s3) as (b & Eb & _). apply (f_equal length) in Eb. rewrite length_app in Eb. lia.
  - destruct a; [|simpl in El, Hl; lia]. cbn [app] in Ea. rewrite Ea in Hstop, Hc. inversion Hc; subst. cbn [chr] in Hstop.
    unfold in_key in Hstop. rewrite Hb, (proj2 (Z.eqb_neq d 0)), (proj2 (Z.eqb_neq d 61)) in Hstop by lia. done.
Qed.

(** Reading a pair in place is reading it from the text: after the call the key
    and the value stand at the positions returned, at the same time, with the
    blanks and the equals sign between them gone, a missing value is the empty
    string, and the cursor stands before what is left of the line. *)
Theorem pair_refines buf cur s :
  str_at buf cur s ->
  exists r buf' cur', ami_cfg_next_pair buf (Some cur) = Val (r, buf', Some cur') /\
    edited buf buf' cur (cur + S (length s)) /\
    match next_pair_text s with
    | None => r = None
    | Some (key, value, rest) =>
        exists k v, r = Some (k, v) /\ str_at buf' k key /\
          match v with Some v => str_at buf' v value | None => value = [] end /\
          (rest <> [] -> str_at buf' cur' rest)
    end.
Proof.
  intros Hs. unfold ami_cfg_next_pair, next_pair_text.
  destruct (skip_at _ _ _ is_blank Hs eq_refl) as (n1 & -> & Hs1 & Hn1). cbn [obind].
  rewrite (str_at_rd _ _ _ Hs1). cbn [obind]. set (s1 := skip_while is_blank s) in *. clearbody s1.
  destruct s1 as [|c0 s0]; cbn [chr].
  { exists None, buf, (cur + n1)%nat. by split_and!; [..|]. }
  pose proof (str_at_cons _ _ _ _ Hs1) as (_ & _ & Hc0). rewrite (proj2 (Z.eqb_neq c0 0)) by done.
  set (s1 := c0 :: s0) in *. set (k := (cur + n1)%nat) in *. pose proof (key_chars_skip s1) as Ek.
  destruct (skip_at _ _ _ in_key Hs1 eq_refl) as (nk & -> & Hs2 & Hnk). cbn [obind].
  assert (Hkl : nk = length (key_chars s1)) by (pose proof (f_equal length Ek) as El; rewrite length_app in El; lia).
  set (kend := (k + nk)%nat) in *.
  destruct (skip_at _ _ _ is_blank Hs2 eq_refl) as (n3 & -> & Hs3 & Hn3). cbn [obind].
  set (s3 := skip_while is_blank (skip_while in_key s1)) in *.
  destruct (skip_equals _ _ _ Hs3) as (n4 & E4 & Hs4 & Hn4).
  rewrite (str_at_rd _ _ _ Hs3) in *. cbn [obind] in *. rewrite E4. cbn [obind].
  set (s4 := if chr s3 =? 61 then skip_while is_blank (tl s3) else s3) in *. set (p := (kend + n3 + n4)%nat) in *.
  pose proof (str_at_lt _ _ _ Hs4) as Hlt. rewrite wr_val by lia. cbn [obind].
  assert (Hkey : str_at (<[kend := 0]> buf) k (key_chars s1)).
  { unfold kend. rewrite Hkl. rewrite Ek in Hs1. by apply str_at_cut in Hs1. }
  (* the position of the NUL is behind the value, or is the end of the line *)
  assert (Hgap : (kend < p)%nat \/ (kend = p /\ s4 = [])).
  { destruct (decide (n3 + n4 = 0)%nat) as [Hz|]; [|left; lia]. right. split; [lia|].
    apply (pair_separator s1); [apply Hs1|]. fold s3. fold s4. lia. }
  assert (Hs5 : str_at (<[kend := 0]> buf) p s4).
  { destruct Hgap as [Hg|[Hg E]].
    - apply (str_at_same buf); [by apply drop_insert_lt|done].
    - rewrite insert_same; [done|]. rewrite Hg. rewrite E in Hs4. destruct Hs4 as (_ & rest & Hd).
      by destruct (drop_cons_lookup _ _ _ _ Hd). }
  destruct (scan_item_spec _ _ _ Hs5) as (item & buf' & cur' & -> & He & Hi). cbn [obind].
  exists (Some (k, item)), buf', cur'. split; [done|].
  assert (Hkey' : str_at buf' k (key_chars s1)).
  { apply (edited_str _ _ _ _ _ _ He Hkey). unfold kend in Hgap. destruct Hgap as [Hg|[Hg ->]]; [left; lia|right].
    cbn [length]. lia. }
  assert (Hpos : (p + length s4 = cur + length s)%nat) by (unfold p, kend, k; lia).
  split.
  - apply (edited_trans _ (<[kend := 0]> buf)).
    + apply edited_insert. unfold p, kend, k in *. lia.
    + apply (edited_mono _ _ _ _ _ _ He); unfold p, kend, k in *; lia.
  - destruct (next_item s4) as [[v r]|].
    + destruct Hi as (st & -> & _ & Hv & Hr & _). exists k, (Some st). by split_and!.
    + subst item. by exists k, None.
Qed.

Lemma pair_refines_witness :
  exists r buf' cur', ami_cfg_next_pair (str "device = a2065.device unit=0" ++ [0]) (Some 0%nat) = Val (r, buf', Some cur') /\
    edited (str "device = a2065.device unit=0" ++ [0]) buf' 0 29 /\
    exists k v, r = Some (k, v) /\ str_at buf' k (str "device") /\
      match v with Some v => str_at buf' v (str "a2065.device") | None => str "a2065.device" = [] end /\
      (str "unit=0" <> [] -> str_at buf' cur' (str "unit=0")).
Proof.
  apply (pair_refines (str "device = a2065.device unit=0" ++ [0]) 0 (str "device = a2065.device unit=0")).
  split; [repeat constructor|]. by exists [].
Defined.

(** ** Lines of a file *)

(** [while ((line = ami_cfg_next_line(&cursor)) != NULL)]: the lines, in order. *)
Fixpoint read_lines (fuel : nat) (buf : list Z) (cursor : option nat) : outcome (list nat * list Z) :=
  match fuel with
  | O => Spin
  | S fuel =>
      let! (line, buf, cursor) := ami_cfg_next_line buf cursor in
      match line with
      | None => Val ([], buf)
      | Some line => let! (lines, buf) := read_lines fuel buf cursor in Val (line :: lines, buf)
      end
  end.

(** The line ends of the systems the files come from. *)
Definition line_break (b : list Z) : Prop := b = [10] \/ b = [13] \/ b = [13; 10] \/ b = [10; 13].

Definition file_text (brk : list Z) (lines : list (list Z)) : list Z := concat (map (fun l => l ++ brk) lines).

Definition line_chars (l : list Z) : Prop := cstring l /\ Forall (fun c => in_line c = true) l.

Lemma file_text_head brk lines :
  line_break brk -> Forall line_chars lines ->
  chr (file_text brk lines) = 0 \/ chr (file_text brk lines) = chr brk \/ in_line (chr (file_text brk lines)) = true.
Proof.
  intros Hb Hl. destruct Hl as [|l lines [_ Hl] _]; [by left|]. cbn [file_text map concat].
  destruct Hl as [|c l Hc _]; [right; left|by right; right].
  by destruct Hb as [-> |[-> |[-> | ->]]].
Qed.

(** One line, its end and what is left. *)
Lemma next_line_spec buf cur l brk rest :
  str_at buf cur (l ++ brk ++ rest) -> line_chars l -> line_break brk ->
  chr rest = 0 \/ chr rest = chr brk \/ in_line (chr rest) = true ->
  exists buf', ami_cfg_next_line buf (Some cur) = Val (Some cur, buf', Some (cur + length (l ++ brk))%nat) /\
    edited buf buf' cur (cur + length (l ++ brk)) /\ str_at buf' cur l /\ str_at buf' (cur + length (l ++ brk)) rest.
Proof.
  intros Hs [Hl Hin] Hb Hrest.
  assert (Hbc : in_line (chr (brk ++ rest)) = false /\ chr (l ++ brk ++ rest) <> 0 /\ (0 < length brk)%nat).
  { split_and!; [by destruct Hb as [-> |[-> |[-> | ->]]]| |by destruct Hb as [-> |[-> |[-> | ->]]]; simpl; lia].
    destruct Hl as [|c l Hc _]; [by destruct Hb as [-> |[-> |[-> | ->]]]|simpl; lia]. }
  destruct Hbc as (Hstop & Hne & Hbl). pose proof (str_at_lt _ _ _ Hs) as Hlt. rewrite !length_app in Hlt.
  unfold ami_cfg_next_line. rewrite (str_at_rd _ _ _ Hs). cbn [obind]. rewrite (proj2 (Z.eqb_neq _ 0)) by done.
  rewrite (scan_str in_line _ buf cur l (brk ++ rest)) by (done || lia). cbn [obind].
  pose proof (str_at_cut _ _ _ _ Hs) as Hcut. pose proof (str_at_app _ _ _ _ Hs) as Hs1.
  rewrite (str_at_rd _ _ _ Hs1). cbn [obind].
  assert (Hc : chr (brk ++ rest) = chr brk /\ chr brk <> 0) by (by destruct Hb as [-> |[-> |[-> | ->]]]).
  destruct Hc as [-> Hc0]. rewrite (proj2 (Z.eqb_neq _ 0)) by done. rewrite wr_val by lia. cbn [obind].
  set (q := (cur + length l)%nat) in *. set (b1 := <[q := 0]> buf) in *.
  assert (Hs2 : str_at b1 (S q) (tl (brk ++ rest))).
  { apply (str_at_same buf); [by apply drop_insert_lt; lia|].
    destruct (brk ++ rest) as [|c r] eqn:E; [by destruct Hb as [-> |[-> |[-> | ->]]]|].
    by apply str_at_cons in Hs1 as (_ & ? & _). }
  rewrite (str_at_rd _ _ _ Hs2). cbn [obind]. exists b1. rewrite length_app.
  set (two := ((chr brk =? 13) && (chr (tl (brk ++ rest)) =? 10)) || ((chr brk =? 10) && (chr (tl (brk ++ rest)) =? 13))).
  assert (Htwo : (if two then S (S q) else S q) = (cur + (length l + length brk))%nat /\
                 str_at b1 (cur + (length l + length brk)) rest).
  { unfold two, q in *.
    destruct Hb as [-> |[-> |[-> | ->]]]; cbn [app tl chr length Z.eqb Pos.eqb andb orb] in *.
    - assert ((chr rest =? 13) = false) as -> by (destruct Hrest as [-> |[-> |H]]; [done|done|]; revert H; unfold in_line; bcases; done).
      cbn [orb]. split; [lia|]. by replace (cur + (length l + 1))%nat with (S (cur + length l)) by lia.
    - assert ((chr rest =? 10) = false) as -> by (destruct Hrest as [-> |[-> |H]]; [done|done|]; revert H; unfold in_line; bcases; done).
      cbn [orb]. split; [lia|]. by replace (cur + (length l + 1))%nat with (S (cur + length l)) by lia.
    - split; [lia|]. apply str_at_cons in Hs2 as (_ & Hs2 & _).
      by replace (cur + (length l + 2))%nat with (S (S (cur + length l))) by lia.
    - split; [lia|]. apply str_at_cons in Hs2 as (_ & Hs2 & _).
      by replace (cur + (length l + 2))%nat with (S (S (cur + length l))) by lia. }
  destruct Htwo as [E Hr]. rewrite E. split_and!; [done| |done|done].
  apply edited_insert. unfold q. lia.
Qed.

(** A configuration file is read as its lines, whichever of the four line ends
    it uses: the reader returns every line once, in order, empty ones included, as
    strings that all stand in the buffer when it is done, and then the end. *)
Theorem file_lines_read brk lines buf cur fuel :
  line_break brk -> Forall line_chars lines -> str_at buf cur (file_text brk lines) ->
  (length lines < fuel)%nat ->
  exists ps buf', read_lines fuel buf (Some cur) = Val (ps, buf') /\ Forall2 (str_at buf') ps lines.
Proof.
  intros Hb Hl Hs Hf.
  assert (G : exists ps buf', read_lines fuel buf (Some cur) = Val (ps, buf') /\
    edited buf buf' cur (cur + length (file_text brk lines)) /\ Forall2 (str_at buf') ps lines);
    [|destruct G as (ps & buf' & E & _ & H); by exists ps, buf'].
  revert buf cur fuel Hs Hf. induction Hl as [|l lines Hl Hls IH]; intros buf cur fuel Hs Hf;
    (destruct fuel as [|fuel]; [simpl in Hf; lia|]); cbn [read_lines].
  - unfold ami_cfg_next_line. rewrite (str_at_rd _ _ _ Hs). cbn [obind file_text map concat chr Z.eqb].
    exists [], buf. split_and!; [done|apply edited_refl|constructor].
  - cbn [file_text map concat] in Hs. rewrite <- app_assoc in Hs.
    destruct (next_line_spec buf cur l brk (file_text brk lines) Hs Hl Hb) as (b1 & E1 & He1 & Hl1 & Hr1);
      [by apply file_text_head|].
    rewrite E1. cbn [obind length] in *. destruct (IH b1 _ fuel Hr1) as (ps & b2 & E2 & He2 & Hps); [lia|].
    rewrite E2. cbn [obind]. exists (cur :: ps), b2. split; [done|].
    assert (Hlen : length (file_text brk (l :: lines)) = (length (l ++ brk) + length (file_text brk lines))%nat)
      by (cbn [file_text map concat]; by rewrite length_app).
    assert (Hbl : (0 < length brk)%nat) by (destruct Hb as [-> |[-> |[-> | ->]]]; simpl; lia).
    rewrite length_app in *. split.
    + apply (edited_trans _ b1); [apply (edited_mono _ _ _ _ _ _ He1); lia|apply (edited_mono _ _ _ _ _ _ He2); lia].
    + constructor; [|done]. apply (edited_str _ _ _ _ _ _ He2 Hl1). left. lia.
Qed.

Lemma file_lines_read_witness :
  exists ps buf', read_lines 4 (file_text [13; 10] [str "device=x"; []; str "unit=0"] ++ [0]) (Some 0%nat) = Val (ps, buf') /\
    Forall2 (str_at buf') ps [str "device=x"; []; str "unit=0"].
Proof.
  apply (file_lines_read [13; 10] [str "device=x"; []; str "unit=0"] _ 0 4).
  - right. right. by left.
  - repeat constructor.
  - split; [repeat constructor|]. by exists [].
  - simpl. lia.
Defined.

(** ** Trimming and comments *)

Definition rtrim (s : list Z) : list Z := rev (skip_while trail_space (rev s)).

Lemma rtrim_snoc s c : rtrim (s ++ [c]) = if trail_space c then rtrim s else s ++ [c].
Proof.
  unfold rtrim. rewrite rev_app_distr. cbn [rev app skip_while]. destruct (trail_space c); [done|].
  cbn [rev]. by rewrite rev_involutive.
Qed.

Lemma trim_end_spec buf s l n :
  str_at buf s l -> (n <= length l)%nat -> trim_end buf s n = Val (s + length (rtrim (take n l)))%nat.
Proof.
  intros Hs. induction n as [|n IH]; intros Hn; cbn [trim_end].
  { by rewrite Nat.add_0_r. }
  destruct (lookup_lt_is_Some_2 l n) as [c Hc]; [lia|].
  assert (Hr : rd buf (s + n) = Val c).
  { rewrite <- (take_drop n l) in Hs. apply str_at_app in Hs. rewrite length_take, Nat.min_l in Hs by lia.
    rewrite (drop_S l c n) in Hs by done. by apply str_at_cons in Hs as (? & _). }
  rewrite Hr. cbn [obind]. rewrite (take_S_r l n c) by done. rewrite rtrim_snoc.
  destruct (trail_space c); [apply IH; lia|].
  rewrite length_app, length_take, Nat.min_l by lia. simpl. f_equal. lia.
Qed.

Lemma rtrim_prefix s : exists t, s = rtrim s ++ t.
Proof.
  destruct (skip_while_inv trail_space (rev s)) as (a & E & _). exists (rev a).
  unfold rtrim. rewrite <- rev_app_distr, <- E. by rewrite rev_involutive.
Qed.

(** Trimming leaves the text between the blanks, in place. *)
Lemma trim_refines buf p s :
  str_at buf p s ->
  exists q buf', ami_cfg_trim buf (Some p) = Val (Some q, buf') /\
    str_at buf' q (rtrim (skip_while lead_space s)) /\ edited buf buf' p (p + S (length s)).
Proof.
  intros Hs. unfold ami_cfg_trim. destruct (skip_at _ _ _ lead_space Hs eq_refl) as (n & -> & Hs1 & Hn). cbn [obind].
  set (s1 := skip_while lead_space s) in *. set (q := (p + n)%nat) in *.
  pose proof (str_at_lt _ _ _ Hs1) as Hlt.
  rewrite (scan_str (fun c => negb (c =? 0)) _ buf q s1 []); [|by rewrite app_nil_r| |done|lia].
  - cbn [obind]. replace (q + length s1 - q)%nat with (length s1) by lia.
    rewrite (trim_end_spec buf q s1) by (done || lia). rewrite take_ge by done. cbn [obind].
    destruct (rtrim_prefix s1) as (t & Et).
    assert (Htl : (length (rtrim s1) <= length s1)%nat) by (rewrite Et at 2; rewrite length_app; lia).
    rewrite wr_val by lia. cbn [obind]. eexists _, _. split; [done|]. split.
    + rewrite Et in Hs1. by apply str_at_cut in Hs1.
    + apply edited_insert. unfold q. lia.
  - destruct Hs1 as [Hc _]. eapply Forall_impl; [exact Hc|]. intros c Hc'. simpl in Hc'.
    by rewrite (proj2 (Z.eqb_neq c 0)) by lia.
Qed.

(** The text before a comment: the characters that start one count outside quotes
    only, and an escaped quote does not end them. *)
Fixpoint uncommented (chars : list Z) (in_quotes : bool) (s : list Z) : list Z :=
  match s with
  | [] => []
  | c :: r =>
      if c =? 34 then c :: uncommented chars (negb in_quotes) r
      else match r with
           | d :: r' =>
               if (c =? 42) && in_quotes then c :: d :: uncommented chars in_quotes r'
               else if negb in_quotes && existsb (Z.eqb c) chars then []
               else c :: uncommented chars in_quotes r
           | [] => if negb in_quotes && existsb (Z.eqb c) chars then [] else [c]
           end
  end.

Lemma strip_loop_spec chars s fuel in_quotes buf p :
  str_at buf p s -> (length s < fuel)%nat ->
  exists buf', strip_loop fuel chars in_quotes buf p = Val buf' /\
    str_at buf' p (uncommented chars in_quotes s) /\ edited buf buf' p (p + S (length s)).
Proof.
  assert (Hpush : forall buf buf' p c s t hi, str_at buf p (c :: s) -> str_at buf' (S p) t -> edited buf buf' (S p) hi ->
    str_at buf' p (c :: t)).
  { intros b b' q c u t hi Hs [Hc (rest & Ht)] (_ & He & _). destruct Hs as (Hs & rest' & Hd).
    inversion Hs; subst. split; [by constructor|]. exists rest.
    destruct (drop_cons_lookup _ _ _ _ Hd) as (Hl & _ & _).
    assert (Hl' : b' !! q = Some c) by (rewrite <- (lookup_take_lt b' (S q)), He, lookup_take_lt by lia; done).
    rewrite (drop_S b' c q Hl'), Ht. done. }
  assert (Hcut : forall b q c r, str_at b q (c :: r) -> str_at (<[q := 0]> b) q []).
  { intros b q c r Hs. pose proof (str_at_cut b q [] (c :: r) Hs) as H. simpl in H. by rewrite Nat.add_0_r in H. }
  assert (Hn : exists n, (length s <= n)%nat) by (by exists (length s)). destruct Hn as [n Hle].
  revert s fuel in_quotes buf p Hle. induction n as [|n IH]; intros s fuel in_quotes buf p Hle Hs Hf;
    (destruct fuel as [|fuel]; [lia|]); cbn [strip_loop].
  { destruct s; [|simpl in Hle; lia]. rewrite (str_at_nil _ _ Hs). cbn [obind]. by exists buf. }
  destruct s as [|c r]; [rewrite (str_at_nil _ _ Hs); cbn [obind]; by exists buf|].
  pose proof (str_at_lt _ _ _ Hs) as Hlt. pose proof Hs as Hs0. apply str_at_cons in Hs as (-> & Hr & Hc0). cbn [obind length] in *.
  rewrite (proj2 (Z.eqb_neq c 0)) by done. cbn [uncommented].
  destruct (Z.eqb_spec c 34) as [->|H34].
  { destruct (IH r fuel (negb in_quotes) buf (S p)) as (b' & E & Hst & He); [lia|done|lia|].
    exists b'. split_and!; [done|by eapply Hpush|]. apply (edited_mono _ _ _ _ _ _ He); lia. }
  rewrite (str_at_rd _ _ _ Hr). cbn [obind].
  assert (Hgo : forall u, uncommented chars in_quotes r = u -> in_quotes = true \/ existsb (Z.eqb c) chars = false ->
    exists b', strip_loop fuel chars in_quotes buf (S p) = Val b' /\ str_at b' p (c :: u) /\
      edited buf b' p (p + S (S (length r)))).
  { intros u <- _. destruct (IH r fuel in_quotes buf (S p)) as (b' & E & Hst & He); [lia|done|lia|].
    exists b'. split_and!; [done|by eapply Hpush|]. apply (edited_mono _ _ _ _ _ _ He); lia. }
  assert (Hstop : exists b', wr buf p 0 = Val b' /\ str_at b' p [] /\ edited buf b' p (p + S (S (length r)))).
  { rewrite wr_val by lia. eexists. split_and!; [done|by eapply Hcut|]. apply edited_insert. lia. }
  destruct r as [|d r']; cbn [chr].
  - rewrite andb_false_r. destruct in_quotes; cbn [negb andb]; [by apply Hgo; auto|].
    destruct (existsb (Z.eqb c) chars); [done|by apply Hgo; auto].
  - pose proof (str_at_cons _ _ _ _ Hr) as (_ & Hr' & Hd0). rewrite (proj2 (Z.eqb_neq d 0)) by done.
    cbn [negb]. rewrite andb_true_r. destruct ((c =? 42) && in_quotes) eqn:Hesc.
    + destruct (IH r' fuel in_quotes buf (S (S p))) as (b' & E & Hst & He); [simpl in *; lia|done|simpl in *; lia|].
      exists b'. split_and!; [done| |apply (edited_mono _ _ _ _ _ _ He); simpl; lia].
      eapply (Hpush buf b' p); [exact Hs0| |apply (edited_mono _ _ _ _ (S p) (S (S p) + S (length r')) He); lia].
      by eapply (Hpush buf b' (S p)).
    + destruct in_quotes; cbn [negb andb]; [by apply Hgo; auto|].
      destruct (existsb (Z.eqb c) chars); [done|by apply Hgo; auto].
Qed.

Lemma uncommented_length chars n s q : (length s <= n)%nat -> (length (uncommented chars q s) <= length s)%nat.
Proof.
  revert s q. induction n as [|n IH]; intros s q Hn; [by destruct s; [|simpl in Hn; lia]|].
  destruct s as [|c r]; [done|]. cbn [length] in Hn.
  assert (E : (length (uncommented chars q (c :: r)) <= S (length (uncommented chars (negb q) r)) \/
    length (uncommented chars q (c :: r)) <= S (length (uncommented chars q r)) \/
    length (uncommented chars q (c :: r)) <= S (S (length (uncommented chars q (tl r)))) /\ r <> [])%nat).
  { simpl. destruct (c =? 34); [left; done|]. destruct r as [|d r]; [right; left; destruct (_ && _); simpl; lia|].
    destruct ((c =? 42) && q); [right; right; by split|]. destruct (negb q && _); right; left; simpl; lia. }
  pose proof (IH r q ltac:(lia)). pose proof (IH r (negb q) ltac:(lia)).
  destruct E as [E|[E|[E Hr]]]; [simpl in *; lia|simpl in *; lia|]. destruct r as [|d r]; [done|].
  pose proof (IH r q ltac:(simpl in *; lia)). cbn [tl length] in *. lia.
Qed.

(** Cleaning a line in place, comment off and blanks trimmed, leaves exactly the
    text before the first comment character outside quotes, without its leading
    and trailing blanks, and touches nothing outside the line. *)
Theorem line_cleaned buf p s chars :
  str_at buf p s ->
  exists b1 q b2, ami_cfg_strip_comment buf (Some p) (Some chars) = Val b1 /\
    ami_cfg_trim b1 (Some p) = Val (Some q, b2) /\
    str_at b2 q (rtrim (skip_while lead_space (uncommented chars false s))) /\
    edited buf b2 p (p + S (length s)).
Proof.
  intros Hs. pose proof (str_at_lt _ _ _ Hs) as Hlt.
  destruct (strip_loop_spec chars s (fuel_of buf) false buf p Hs) as (b1 & E1 & Hs1 & He1); [lia|].
  destruct (trim_refines b1 p _ Hs1) as (q & b2 & E2 & Hs2 & He2). exists b1, q, b2. split_and!; [done..|].
  apply (edited_trans _ b1); [done|]. apply (edited_mono _ _ _ _ _ _ He2); [done|].
  pose proof (uncommented_length chars (length s) s false (Nat.le_refl _)). lia.
Qed.

Definition noted : list Z := str " a=" ++ [34; 35; 34] ++ str " # note".

Lemma line_cleaned_witness :
  exists b1 q b2, ami_cfg_strip_comment (noted ++ [0]) (Some 0%nat) (Some (str "#;")) = Val b1 /\
    ami_cfg_trim b1 (Some 0%nat) = Val (Some q, b2) /\ str_at b2 q (str "a=" ++ [34; 35; 34]) /\
    edited (noted ++ [0]) b2 0 14.
Proof.
  apply (line_cleaned (noted ++ [0]) 0 noted (str "#;")).
  split; [repeat constructor|]. by exists [].
Defined.
