(* ===== verification/Checksum.v ===== *)
(** The internet checksum ([src/net68k/n68k_checksum.c]), portable arm, packet
    chains enabled, big-endian as the target is.

    A packet is the memory from its prepend pointer on, with the two pointers; the
    loads are the machine's, most significant byte first, and an access outside
    that memory is a [Fault].  The protocol numbers and the version constant come
    from NetX Duo's headers and are parameters; [ipv6] is FEATURE_NX_IPV6.
    [NX_CHANGE_USHORT_ENDIAN] assigns its argument to itself
    ([port/netxduo-amiga/inc/nx_port.h]). *)

From Stdlib Require Import ZArith Lia.
From stdpp Require Import base numbers list.
From S2P Require Import Prelude.
#[local] Open Scope Z_scope.

(** ** The loop *)

Definition load16 (mem : list Z) (off : Z) : outcome Z :=
  let! b0 := fetch mem off in
  let! b1 := fetch mem (off + 1) in
  Val (be_join 0 [b0; b1]).

Definition load32 (mem : list Z) (off : Z) : outcome Z :=
  let! b0 := fetch mem off in
  let! b1 := fetch mem (off + 1) in
  let! b2 := fetch mem (off + 2) in
  let! b3 := fetch mem (off + 3) in
  Val (be_join 0 [b0; b1; b2; b3]).

Definition store8 (mem : list Z) (off b : Z) : outcome (list Z) :=
  if (0 <=? off) && (off <? Z.of_nat (length mem)) then Val (<[Z.to_nat off := b]> mem) else Fault.

(** An addition with the carry brought around. *)
Definition add_carry (acc w : Z) : Z :=
  let acc := acc +w w in
  if acc <? w then acc +w 1 else acc.

Fixpoint sum_longs (count : nat) (mem : list Z) (off acc : Z) : outcome Z :=
  match count with
  | O => Val acc
  | S count => let! w := load32 mem off in sum_longs count mem (off + 4) (add_carry acc w)
  end.

Definition n68k_sum_longwords (mem : list Z) (p count : Z) : outcome Z :=
  sum_longs (Z.to_nat count) mem p 0.

(** The copy that sums: the destination is another object. *)
Fixpoint copy_sum_longs (count : nat) (to from : list Z) (off acc : Z) : outcome (list Z * Z) :=
  match count with
  | O => Val (to, acc)
  | S count =>
      let! w := load32 from off in
      let! to := (if (0 <=? off) && (off + 4 <=? Z.of_nat (length to))
                  then Val (splice to off (be32 w)) else Fault) in
      copy_sum_longs count to from (off + 4) (add_carry acc w)
  end.

Definition n68k_copy_sum_longwords (to from : list Z) (count : Z) : outcome (list Z * Z) :=
  copy_sum_longs (Z.to_nat count) to from 0 0.

Definition n68k_fold (sum : Z) : Z :=
  let sum := Z.shiftr sum 16 +w Z.land sum 0xFFFF in
  Z.shiftr sum 16 +w Z.land sum 0xFFFF.

(** ** The packet chain *)

Record NX_PACKET := {
  nx_packet_prepend_ptr : Z; nx_packet_append_ptr : Z; nx_packet_mem : list Z }.

(** One packet: the new sum, the length left, and how far [long_ptr] is from the
    prepend pointer. *)
Definition sum_packet (p : NX_PACKET) (checksum data_length : Z) : outcome (Z * Z * Z) :=
  let long_ptr := nx_packet_prepend_ptr p in
  let packet_size := u32 (nx_packet_append_ptr p - long_ptr) in
  let end_ptr :=
    if packet_size <? data_length then Z.land (nx_packet_append_ptr p) 0xFFFFFFFC
    else u32 (long_ptr + data_length - 3) in
  if long_ptr <? end_ptr then
    let consumed := u32 (Z.land (u32 (end_ptr + 3)) 0xFFFFFFFC - long_ptr) in
    let words := Z.shiftr (u32 (u32 (end_ptr - long_ptr) + 3)) 2 in
    let! s := n68k_sum_longwords (nx_packet_mem p) 0 words in
    Val (checksum +w n68k_fold s, u32 (data_length - consumed), words * 4)
  else Val (checksum, data_length, 0).

(** The loop over the chain: the sum, the length left, the packet the loop ended
    in and [long_ptr] in it. *)
Fixpoint sum_chain (p : NX_PACKET) (next : list NX_PACKET) (checksum data_length : Z)
  : outcome (Z * Z * NX_PACKET * Z) :=
  let! (checksum, data_length, off) := sum_packet p checksum data_length in
  match next with
  | q :: next =>
      if 0 <? data_length then
        if Z.land (nx_packet_append_ptr p) 3 =? 2 then
          let! w := load16 (nx_packet_mem p) off in
          sum_chain q next (checksum +w w) (u32 (data_length - 2))
        else sum_chain q next checksum data_length
      else Val (checksum, data_length, p, off)
  | [] => Val (checksum, data_length, p, off)
  end.

(** The bytes left over, the odd one padded with a zero written behind it.  The sum
    and the memory of the packet afterwards. *)
Definition sum_rest (mem : list Z) (off checksum data_length : Z) : outcome (Z * list Z) :=
  if data_length =? 0 then Val (checksum, mem)
  else if data_length =? 1 then
    let! mem := store8 mem (off + 1) 0 in
    let! w := load16 mem off in
    Val (checksum +w w, mem)
  else if data_length =? 3 then
    let! w := load16 mem off in
    let! mem := store8 mem (off + 3) 0 in
    let! w' := load16 mem (off + 2) in
    Val ((checksum +w w) +w w', mem)
  else
    let! w := load16 mem off in
    Val (checksum +w w, mem).

(** A 16-bit half of the words at [addr], as a [USHORT *] reads it. *)
Definition addr_short (addr : list Z) (i : Z) : outcome Z :=
  let! w := fetch addr (i / 2) in
  Val (if i mod 2 =? 0 then Z.shiftr w 16 else Z.land w 0xFFFF).

(** [for (i = 2; i < 8; i++)] of the IPv6 pseudo header, [n] rounds left. *)
Fixpoint pseudo6 (n : nat) (i : Z) (src dest : list Z) (checksum : Z) : outcome Z :=
  match n with
  | O => Val checksum
  | S n =>
      let! d := addr_short dest i in
      let! s := addr_short src i in
      pseudo6 n (i + 1) src dest ((checksum +w d) +w s)
  end.

Section Compute.
Context (ipv6 : bool) (NX_PROTOCOL_UDP NX_PROTOCOL_TCP NX_PROTOCOL_ICMPV6 NX_IP_VERSION_V6 : Z).

Definition has_pseudo (protocol : Z) : bool :=
  (protocol =? NX_PROTOCOL_UDP) || (ipv6 && (protocol =? NX_PROTOCOL_ICMPV6)) || (protocol =? NX_PROTOCOL_TCP).

Definition pseudo_header (version protocol data_length : Z) (src dest : list Z) : outcome Z :=
  let! s0 := addr_short src 0 in
  let! s1 := addr_short src 1 in
  let! d0 := addr_short dest 0 in
  let! d1 := addr_short dest 1 in
  let checksum := (((protocol +w s0) +w s1) +w d0) +w d1 in
  let! checksum := if ipv6 && (version =? NX_IP_VERSION_V6) then pseudo6 6 2 src dest checksum else Val checksum in
  Val (u16 (n68k_fold (checksum +w data_length))).

(** The sum, and the memory of the packet the data ended in. *)
Definition n68k_ip_checksum_compute (version : Z) (packet_ptr : NX_PACKET) (next : list NX_PACKET)
    (protocol data_length : Z) (src_ip_addr dest_ip_addr : list Z) : outcome (Z * list Z) :=
  let! checksum :=
    if has_pseudo protocol then pseudo_header version protocol data_length src_ip_addr dest_ip_addr else Val 0 in
  let! (checksum, data_length, p, off) := sum_chain packet_ptr next checksum data_length in
  let! (checksum, mem) := sum_rest (nx_packet_mem p) off checksum data_length in
  Val (u16 (n68k_fold checksum), mem).
End Compute.

(** ** One's complement arithmetic

    Sixteen-bit one's complement sums are numbers up to the multiples of 65535,
    with zero apart: two non-negative numbers are [oc_eq] when their sums are the
    same. *)

Definition oc16 (s : Z) : Z := if s =? 0 then 0 else (s - 1) mod 65535 + 1.

Definition oc_eq (a b : Z) : Prop := 0 <= a /\ 0 <= b /\ a mod 65535 = b mod 65535 /\ (a = 0 <-> b = 0).

#[export] Instance oc_eq_per : RelationClasses.PER oc_eq.
Proof.
  split.
  - intros a b (? & ? & E & H). split_and!; [done..|congruence|by symmetry].
  - intros a b c (? & ? & E1 & H1) (? & ? & E2 & H2). split_and!; [done..|congruence|]. by rewrite H1.
Qed.

#[export] Instance oc_add_proper : Proper (oc_eq ==> oc_eq ==> oc_eq) Z.add.
Proof.
  intros a b (Ha & Hb & E1 & H1) c d (Hc & Hd & E2 & H2). split_and!; [lia..| |lia].
  rewrite (Z.add_mod a c), (Z.add_mod b d) by lia. by rewrite E1, E2.
Qed.

Lemma oc_refl a : 0 <= a -> oc_eq a a.
Proof. by intros. Qed.

Lemma oc16_eq a b : oc_eq a b -> oc16 a = oc16 b.
Proof.
  intros (Ha & Hb & E & H). unfold oc16. destruct (Z.eqb_spec a 0), (Z.eqb_spec b 0); try tauto.
  assert (E' : (a - 1) mod 65535 = (b - 1) mod 65535); [|by rewrite E'].
  by rewrite <- (Zminus_mod_idemp_l a 1), E, Zminus_mod_idemp_l.
Qed.

Lemma oc16_range a : 0 <= oc16 a <= 65535.
Proof. unfold oc16. destruct (a =? 0); [lia|]. pose proof (Z.mod_pos_bound (a - 1) 65535). lia. Qed.

Lemma oc16_oc a : 0 <= a -> oc_eq (oc16 a) a.
Proof.
  intros Ha. unfold oc16. destruct (Z.eqb_spec a 0) as [->|Hn]; [done|].
  pose proof (Z.mod_pos_bound (a - 1) 65535 ltac:(lia)).
  split_and!; [lia..| |lia]. rewrite Z.add_mod_idemp_l by lia. f_equal. lia.
Qed.

Lemma fold_oc16 s : is_u32 s -> n68k_fold s = oc16 s.
Proof.
  intros Hs. unfold n68k_fold. change 0xFFFF with (Z.ones 16). rewrite !Z.land_ones, !Z.shiftr_div_pow2 by lia.
  change (2 ^ 16) with 65536. unfold oc16. destruct (Z.eqb_spec s 0) as [->|]; [done|].
  pose proof (Z.div_mod s 65536 ltac:(lia)). pose proof (Z.mod_pos_bound s 65536 ltac:(lia)).
  assert (0 <= s / 65536 < 65536) by word_lia. set (hi := s / 65536) in *. set (lo := s mod 65536) in *.
  rewrite (u32_small (hi + lo)) by word_lia.
  assert (E : (s - 1) mod 65535 = (hi + lo - 1) mod 65535).
  { replace (s - 1) with (hi + lo - 1 + hi * 65535) by lia. by rewrite Z.mod_add by lia. }
  rewrite E. rewrite u32_small by word_lia. clear E. clearbody hi lo. word_lia.
Qed.

Lemma add_carry_oc acc w : is_u32 acc -> is_u32 w -> is_u32 (add_carry acc w) /\ oc_eq (add_carry acc w) (acc + w).
Proof.
  intros Ha Hw. unfold add_carry. destruct (Z_lt_ge_dec (acc + w) (2 ^ 32)).
  - rewrite u32_small by word_lia. rewrite (proj2 (Z.ltb_ge _ _)) by word_lia. split; [word_lia|].
    apply oc_refl. word_lia.
  - replace (u32 (acc + w)) with (acc + w - 2 ^ 32) by word_lia. rewrite (proj2 (Z.ltb_lt _ _)) by word_lia.
    rewrite u32_small by word_lia. split; [word_lia|]. split_and!; [word_lia..| |word_lia].
    replace (acc + w - 2 ^ 32 + 1) with (acc + w + (-65537) * 65535) by lia. by rewrite Z.mod_add by lia.
Qed.

(** ** The sum of a text of bytes *)

(** The sixteen-bit words of the bytes added up, the odd byte padded with zero. *)
Fixpoint sum16 (bytes : list Z) : Z :=
  match bytes with
  | b0 :: b1 :: r => b0 * 256 + b1 + sum16 r
  | [b0] => b0 * 256
  | [] => 0
  end.

Lemma sum16_app a b : Nat.Even (length a) -> sum16 (a ++ b) = sum16 a + sum16 b.
Proof.
  intros [k Hk]. revert a Hk. induction k as [|k IH]; intros a Hk.
  - destruct a; [done|simpl in Hk; lia].
  - destruct a as [|x [|y a]]; [simpl in Hk; lia..|]. cbn [app sum16]. rewrite IH by (simpl in Hk; lia). lia.
Qed.

Lemma sum16_nonneg l : bytes_ok l -> 0 <= sum16 l.
Proof.
  assert (G : forall n l, (length l <= n)%nat -> bytes_ok l -> 0 <= sum16 l); [|intros; by eapply G].
  clear. induction n as [|n IH]; intros l Hl Hb; [destruct l; [done|simpl in Hl; lia]|].
  destruct l as [|x [|y l]]; [done| |]; unfold bytes_ok in Hb; rewrite ?Forall_cons in Hb; cbn [sum16 length] in *.
  - word_lia.
  - specialize (IH l ltac:(lia) ltac:(tauto)). word_lia.
Qed.

(** Loads from memory. *)
Lemma load16_val mem off b0 b1 r :
  0 <= off -> bytes_ok mem -> drop (Z.to_nat off) mem = b0 :: b1 :: r -> load16 mem off = Val (b0 * 256 + b1).
Proof.
  intros Ho Hb E.
  assert (L : forall k x, drop (Z.to_nat off) mem !! k = Some x -> mem !! (Z.to_nat off + k)%nat = Some x)
    by (intros k x; by rewrite lookup_drop).
  pose proof (L 0%nat b0 ltac:(by rewrite E)) as L0. pose proof (L 1%nat b1 ltac:(by rewrite E)) as L1.
  unfold bytes_ok in Hb. rewrite Forall_lookup in Hb. pose proof (Hb _ _ L0). pose proof (Hb _ _ L1).
  unfold load16. rewrite (fetch_lookup mem off b0), (fetch_lookup mem (off + 1) b1);
    [|lia|replace (Z.to_nat (off + 1)) with (Z.to_nat off + 1)%nat by lia; done|lia|by rewrite Nat.add_0_r in L0].
  cbn [obind]. rewrite !be_join_cons by (done || word_lia). done.
Qed.

Lemma load32_val mem off b0 b1 b2 b3 r :
  0 <= off -> bytes_ok mem -> drop (Z.to_nat off) mem = b0 :: b1 :: b2 :: b3 :: r ->
  load32 mem off = Val ((b0 * 256 + b1) * 65536 + (b2 * 256 + b3)) /\
  is_u8 b0 /\ is_u8 b1 /\ is_u8 b2 /\ is_u8 b3.
Proof.
  intros Ho Hb E.
  assert (L : forall k x, drop (Z.to_nat off) mem !! k = Some x -> mem !! (Z.to_nat off + k)%nat = Some x)
    by (intros k x; by rewrite lookup_drop).
  pose proof (L 0%nat b0 ltac:(by rewrite E)) as L0. pose proof (L 1%nat b1 ltac:(by rewrite E)) as L1.
  pose proof (L 2%nat b2 ltac:(by rewrite E)) as L2. pose proof (L 3%nat b3 ltac:(by rewrite E)) as L3.
  unfold bytes_ok in Hb. rewrite Forall_lookup in Hb.
  pose proof (Hb _ _ L0). pose proof (Hb _ _ L1). pose proof (Hb _ _ L2). pose proof (Hb _ _ L3).
  split; [|done]. unfold load32. rewrite Nat.add_0_r in L0.
  rewrite (fetch_lookup mem off b0), (fetch_lookup mem (off + 1) b1), (fetch_lookup mem (off + 2) b2),
    (fetch_lookup mem (off + 3) b3) by
    (lia || done || (replace (Z.to_nat (off + 1)) with (Z.to_nat off + 1)%nat by lia; done) ||
     (replace (Z.to_nat (off + 2)) with (Z.to_nat off + 2)%nat by lia; done) ||
     (replace (Z.to_nat (off + 3)) with (Z.to_nat off + 3)%nat by lia; done)).
  cbn [obind]. rewrite !be_join_cons by (done || word_lia). cbn [be_join]. f_equal. lia.
Qed.

(** ** The longword loop *)

Lemma bytes_drop mem n : bytes_ok mem -> bytes_ok (drop n mem).
Proof. apply Forall_drop. Qed.
Lemma bytes_take mem n : bytes_ok mem -> bytes_ok (take n mem).
Proof. apply Forall_take. Qed.

(** Four bytes at the front of a text that is long enough. *)
Lemma four_bytes (l : list Z) n : (4 * S n <= length l)%nat ->
  exists b0 b1 b2 b3 r, l = b0 :: b1 :: b2 :: b3 :: r /\ (4 * n <= length r)%nat /\
    take (4 * S n) l = b0 :: b1 :: b2 :: b3 :: take (4 * n) r.
Proof.
  intros H. destruct l as [|b0 [|b1 [|b2 [|b3 r]]]]; simpl in H; try lia. exists b0, b1, b2, b3, r.
  split_and!; [done|lia|]. by replace (4 * S n)%nat with (S (S (S (S (4 * n))))) by lia.
Qed.

Lemma sum_longs_spec count mem off acc :
  0 <= off -> bytes_ok mem -> is_u32 acc -> (Z.to_nat off + 4 * count <= length mem)%nat ->
  exists s, sum_longs count mem off acc = Val s /\ is_u32 s /\
    oc_eq s (acc + sum16 (take (4 * count) (drop (Z.to_nat off) mem))).
Proof.
  revert off acc. induction count as [|count IH]; intros off acc Ho Hb Ha Hl; cbn [sum_longs].
  { exists acc. split_and!; [done..|]. simpl. rewrite Z.add_0_r. apply oc_refl. word_lia. }
  destruct (four_bytes (drop (Z.to_nat off) mem) count) as (b0 & b1 & b2 & b3 & r & Ed & Hr & Et);
    [rewrite length_drop; lia|].
  destruct (load32_val mem off b0 b1 b2 b3 r Ho Hb Ed) as (-> & H0 & H1 & H2 & H3). cbn [obind].
  set (w := (b0 * 256 + b1) * 65536 + (b2 * 256 + b3)).
  destruct (add_carry_oc acc w Ha ltac:(unfold w; word_lia)) as [Hu Hoc].
  destruct (IH (off + 4) (add_carry acc w)) as (s & -> & Hs & Hsum); [lia|done|done|lia|].
  exists s. split_and!; [done..|]. rewrite Hsum.
  assert (Er : drop (Z.to_nat (off + 4)) mem = r).
  { replace (Z.to_nat (off + 4)) with (Z.to_nat off + 4)%nat by lia. by rewrite <- drop_drop, Ed. }
  assert (Hn : 0 <= sum16 (take (4 * count) r)).
  { apply sum16_nonneg, bytes_take. rewrite <- Er. by apply bytes_drop. }
  rewrite Er, Et. cbn [sum16].
  replace (acc + (b0 * 256 + b1 + (b2 * 256 + b3 + sum16 (take (4 * count) r)))) with
    (acc + (b0 * 256 + b1 + (b2 * 256 + b3)) + sum16 (take (4 * count) r)) by lia.
  assert (Hw : oc_eq w (b0 * 256 + b1 + (b2 * 256 + b3))).
  { split_and!; [unfold w; word_lia..| |unfold w; word_lia].
    replace w with (b0 * 256 + b1 + (b2 * 256 + b3) + (b0 * 256 + b1) * 65535) by (unfold w; lia).
    by rewrite Z.mod_add by lia. }
  apply oc_add_proper; [|by apply oc_refl]. rewrite Hoc. apply oc_add_proper; [apply oc_refl; word_lia|done].
Qed.

(** The copy leaves a copy, and its sum is the plain one. *)
Lemma copy_sum_spec count to from off acc :
  0 <= off -> bytes_ok from -> (Z.to_nat off + 4 * count <= length from)%nat ->
  (Z.to_nat off + 4 * count <= length to)%nat ->
  copy_sum_longs count to from off acc =
    let! s := sum_longs count from off acc in
    Val (splice to off (take (4 * count) (drop (Z.to_nat off) from)), s).
Proof.
  intros Ho Hb. revert to off acc Ho. induction count as [|count IH]; intros to off acc Ho Hf Ht;
    cbn [copy_sum_longs sum_longs].
  { cbn [obind take]. f_equal. f_equal. unfold splice. simpl. rewrite Nat.add_0_r. by rewrite take_drop. }
  destruct (four_bytes (drop (Z.to_nat off) from) count) as (b0 & b1 & b2 & b3 & r & Ed & Hr & Et);
    [rewrite length_drop; lia|].
  destruct (load32_val from off b0 b1 b2 b3 r Ho Hb Ed) as (-> & H0 & H1 & H2 & H3). cbn [obind].
  rewrite (proj2 (Z.leb_le 0 off)), (proj2 (Z.leb_le (off + 4) _)) by lia. cbn [andb obind].
  assert (Ew : be32 ((b0 * 256 + b1) * 65536 + (b2 * 256 + b3)) = [b0; b1; b2; b3]).
  { unfold be32. rewrite !Z.shiftr_div_pow2 by lia.
    f_equal; [word_lia|]. f_equal; [word_lia|]. f_equal; [word_lia|]. f_equal. word_lia. }
  rewrite Ew. rewrite IH; [|lia|lia|rewrite splice_length; simpl; lia].
  destruct (sum_longs count from (off + 4) _) as [s| |]; [|done..]. cbn [obind]. f_equal. f_equal.
  rewrite Et. assert (Er : drop (Z.to_nat (off + 4)) from = r).
  { replace (Z.to_nat (off + 4)) with (Z.to_nat off + 4)%nat by lia. by rewrite <- drop_drop, Ed. }
  rewrite Er. pose proof (splice_splice to off [b0; b1; b2; b3] (take (4 * count) r)) as Hsp.
  change (Z.of_nat (length [b0; b1; b2; b3])) with 4 in Hsp. rewrite Hsp; [done|lia|].
  rewrite length_take. cbn [length]. lia.
Qed.

(** The copying sum, portable arm, leaves the destination with a copy of the
    longwords and returns the one's complement sum of them: what the plain sum
    returns, equal to the sixteen-bit sum of the bytes up to multiples of 65535
    and zero only when every byte was. *)
Theorem copy_sum_copies to from count :
  bytes_ok from -> 0 <= count -> 4 * count <= Z.of_nat (length from) -> 4 * count <= Z.of_nat (length to) ->
  exists s, n68k_sum_longwords from 0 count = Val s /\
    oc_eq s (sum16 (take (Z.to_nat (4 * count)) from)) /\
    n68k_copy_sum_longwords to from count =
      Val (take (Z.to_nat (4 * count)) from ++ drop (Z.to_nat (4 * count)) to, s).
Proof.
  intros Hb Hc Hf Ht. unfold n68k_sum_longwords, n68k_copy_sum_longwords.
  destruct (sum_longs_spec (Z.to_nat count) from 0 0) as (s & E & _ & Hs); [lia|done|word_lia|simpl; lia|].
  exists s. split; [done|]. rewrite copy_sum_spec by (done || (simpl; lia)). rewrite E. cbn [obind].
  replace (4 * Z.to_nat count)%nat with (Z.to_nat (4 * count)) in * by lia. split; [done|].
  unfold splice. change (Z.to_nat 0) with 0%nat. rewrite drop_0, take_0, Nat.add_0_l. cbn [app].
  by rewrite length_take, Nat.min_l by lia.
Qed.

Lemma copy_sum_copies_witness :
  exists s, n68k_sum_longwords [255; 255; 255; 255; 0; 0; 0; 2] 0 2 = Val s /\
    oc_eq s (sum16 [255; 255; 255; 255; 0; 0; 0; 2]) /\
    n68k_copy_sum_longwords (replicate 9 7) [255; 255; 255; 255; 0; 0; 0; 2] 2 =
      Val ([255; 255; 255; 255; 0; 0; 0; 2; 7], s).
Proof.
  apply (copy_sum_copies (replicate 9 7) [255; 255; 255; 255; 0; 0; 0; 2] 2); [|lia|simpl; lia|simpl; lia].
  repeat constructor; word_lia.
Defined.

(** ** Packets *)

Definition packet_size (p : NX_PACKET) : Z := nx_packet_append_ptr p - nx_packet_prepend_ptr p.
Definition packet_data (p : NX_PACKET) : list Z := take (Z.to_nat (packet_size p)) (nx_packet_mem p).

(** The pool's packets: longword aligned, clear of the ends of the address space,
    with a byte behind the data for the pad. *)
Definition packet_ok (p : NX_PACKET) : Prop :=
  4 <= nx_packet_prepend_ptr p <= nx_packet_append_ptr p /\ nx_packet_append_ptr p + 4 < 2 ^ 31 /\
  nx_packet_prepend_ptr p mod 4 = 0 /\ packet_size p < Z.of_nat (length (nx_packet_mem p)) /\
  bytes_ok (nx_packet_mem p).

Lemma land_mask4 x : is_u32 x -> Z.land x 0xFFFFFFFC = x / 4 * 4.
Proof.
  intros Hx. change 0xFFFFFFFC with (Z.shiftl (Z.ones 30) 2). rewrite land_field by lia.
  rewrite Z.mod_small; [done|]. word_lia.
Qed.

(** One packet adds the longwords of the data that lie in it. *)
Lemma sum_packet_spec p checksum d :
  packet_ok p -> 0 <= checksum < 2 ^ 31 -> 0 <= d < 2 ^ 31 ->
  let n := Z.min (packet_size p) d / 4 in
  exists f, 0 <= f <= 65535 /\ oc_eq f (sum16 (take (Z.to_nat (4 * n)) (nx_packet_mem p))) /\
    sum_packet p checksum d = Val (checksum + f, d - 4 * n, 4 * n).
Proof.
  intros (Hp & Ha & Hal & Hm & Hb) Hc Hd n. unfold packet_size in *. unfold sum_packet.
  set (a := nx_packet_prepend_ptr p) in *. set (e := nx_packet_append_ptr p) in *.
  rewrite (u32_small (e - a)) by word_lia.
  assert (Hend : (if e - a <? d then Z.land e 0xFFFFFFFC else u32 (a + d - 3)) =
                 if e - a <? d then a + 4 * n else a + d - 3).
  { destruct (Z.ltb_spec (e - a) d).
    - rewrite land_mask4 by word_lia. unfold n. rewrite Z.min_l by lia. word_lia.
    - apply u32_small. word_lia. }
  rewrite Hend. clear Hend.
  assert (Hn : n = 0 /\ (a <? (if e - a <? d then a + 4 * n else a + d - 3)) = false \/
    0 < n /\ (a <? (if e - a <? d then a + 4 * n else a + d - 3)) = true).
  { unfold n. destruct (Z.ltb_spec (e - a) d).
    - rewrite Z.min_l by lia. bcases; word_lia.
    - rewrite Z.min_r by lia. bcases; word_lia. }
  destruct Hn as [[Hn ->]|[Hn ->]].
  { exists 0. rewrite Hn, Z.mul_0_r, Z.add_0_r, Z.sub_0_r. split_and!; try done; lia. }
  assert (Hw : Z.shiftr (u32 (u32 ((if e - a <? d then a + 4 * n else a + d - 3) - a) + 3)) 2 = n).
  { rewrite Z.shiftr_div_pow2 by lia. change (2 ^ 2) with 4. unfold n. destruct (Z.ltb_spec (e - a) d).
    - rewrite Z.min_l by lia. word_lia.
    - rewrite Z.min_r by lia. unfold n in Hn. rewrite Z.min_r in Hn by lia. word_lia. }
  assert (Hcons : u32 (Z.land (u32 ((if e - a <? d then a + 4 * n else a + d - 3) + 3)) 0xFFFFFFFC - a) = 4 * n).
  { rewrite land_mask4 by apply u32_range. unfold n. destruct (Z.ltb_spec (e - a) d).
    - rewrite Z.min_l by lia. word_lia.
    - rewrite Z.min_r by lia. word_lia. }
  rewrite Hw, Hcons. unfold n68k_sum_longwords.
  assert (Hfit : (4 * Z.to_nat n <= length (nx_packet_mem p))%nat) by (unfold n in *; word_lia).
  destruct (sum_longs_spec (Z.to_nat n) (nx_packet_mem p) 0 0) as (s & -> & Hs & Hsum); [lia|done|word_lia|lia|].
  cbn [obind]. rewrite fold_oc16 by done. exists (oc16 s). pose proof (oc16_range s) as Hr.
  change (Z.to_nat 0) with 0%nat in Hsum. rewrite drop_0, Z.add_0_l in Hsum.
  replace (4 * Z.to_nat n)%nat with (Z.to_nat (4 * n)) in Hsum by lia.
  split; [done|]. split; [rewrite <- Hsum; apply oc16_oc; word_lia|].
  rewrite !u32_small by (unfold n in *; word_lia). do 2 f_equal. lia.
Qed.

(** The chain: every packet but the last is even, and the data ends in the last. *)
Fixpoint chain_ok (p : NX_PACKET) (next : list NX_PACKET) (d : Z) : Prop :=
  packet_ok p /\
  match next with
  | [] => d <= packet_size p
  | q :: r => packet_size p mod 2 = 0 /\ packet_size p <= d /\ chain_ok q r (d - packet_size p)
  end.

Definition chain_data (p : NX_PACKET) (next : list NX_PACKET) (d : Z) : list Z :=
  take (Z.to_nat d) (concat (map packet_data (p :: next))).

Lemma packet_data_length p : packet_ok p -> Z.of_nat (length (packet_data p)) = packet_size p.
Proof. intros (Hp & Ha & Hal & Hm & _). unfold packet_data, packet_size in *. rewrite length_take. lia. Qed.

Lemma packet_size_range p : packet_ok p -> 0 <= packet_size p < 2 ^ 31.
Proof. intros (Hp & Ha & _). unfold packet_size. lia. Qed.

Lemma chain_data_cons p q r d :
  packet_ok p -> packet_size p <= d ->
  chain_data p (q :: r) d = packet_data p ++ chain_data q r (d - packet_size p).
Proof.
  intros Hp Hd. pose proof (packet_size_range p Hp). pose proof (packet_data_length p Hp) as Hl.
  unfold chain_data. cbn [map concat]. rewrite take_app, take_ge by lia. do 2 f_equal. lia.
Qed.

(** The data of a packet is its longwords and what is left of them. *)
Lemma packet_split p n d :
  packet_ok p -> 0 <= n -> 4 * n <= d <= packet_size p ->
  sum16 (take (Z.to_nat d) (packet_data p)) =
    sum16 (take (Z.to_nat (4 * n)) (nx_packet_mem p)) +
    sum16 (take (Z.to_nat (d - 4 * n)) (drop (Z.to_nat (4 * n)) (nx_packet_mem p))).
Proof.
  intros Hp Hn Hd. pose proof Hp as (_ & _ & _ & Hm & _). unfold packet_data. rewrite take_take, Nat.min_l by lia.
  rewrite <- sum16_app.
  - f_equal. rewrite take_drop_commute. replace (Z.to_nat (4 * n) + Z.to_nat (d - 4 * n))%nat with (Z.to_nat d) by lia.
    rewrite <- (take_drop (Z.to_nat (4 * n)) (take (Z.to_nat d) (nx_packet_mem p))) at 1.
    by rewrite take_take, Nat.min_l by lia.
  - rewrite length_take, Nat.min_l by lia. exists (2 * Z.to_nat n)%nat. lia.
Qed.

Lemma packet_data_whole p : packet_ok p -> take (Z.to_nat (packet_size p)) (packet_data p) = packet_data p.
Proof. intros Hp. pose proof (packet_data_length p Hp). apply take_ge. lia. Qed.

Lemma chain_data_bytes p next d : chain_ok p next d -> bytes_ok (chain_data p next d).
Proof.
  intros H. apply Forall_take, Forall_concat. revert p d H.
  induction next as [|q r IH]; intros p d [(_ & _ & _ & _ & Hb) H]; cbn [map].
  - constructor; [by apply Forall_take|constructor].
  - constructor; [by apply Forall_take|]. apply (IH q (d - packet_size p)), H.
Qed.

Lemma append_low p : packet_ok p -> Z.land (nx_packet_append_ptr p) 3 = packet_size p mod 4.
Proof.
  intros (Hp & _ & Hal & _). change 3 with (Z.ones 2). rewrite Z.land_ones by lia. unfold packet_size. word_lia.
Qed.

(** The two bytes left at the end of an even packet. *)
Lemma packet_pair p :
  packet_ok p -> packet_size p mod 4 = 2 ->
  exists w, load16 (nx_packet_mem p) (4 * (packet_size p / 4)) = Val w /\ 0 <= w <= 65535 /\
    w = sum16 (take (Z.to_nat (packet_size p - 4 * (packet_size p / 4)))
                    (drop (Z.to_nat (4 * (packet_size p / 4))) (nx_packet_mem p))).
Proof.
  intros Hp Hm. pose proof (packet_size_range p Hp) as Hr. pose proof Hp as (_ & _ & _ & Hl & Hb).
  set (off := 4 * (packet_size p / 4)). replace (packet_size p - off) with 2 by (unfold off; word_lia).
  assert (Hoff : 0 <= off /\ off + 2 <= packet_size p) by (unfold off; word_lia).
  pose proof (bytes_drop _ (Z.to_nat off) Hb) as Hbd.
  assert (Hlen : (2 <= length (drop (Z.to_nat off) (nx_packet_mem p)))%nat) by (rewrite length_drop; lia).
  destruct (drop (Z.to_nat off) (nx_packet_mem p)) as [|b0 [|b1 r]] eqn:E; simpl in Hlen; try lia.
  unfold bytes_ok in Hbd. rewrite !Forall_cons in Hbd. exists (b0 * 256 + b1).
  split; [apply (load16_val _ _ _ _ r); [lia|done|done]|]. split; [word_lia|].
  cbn [Z.to_nat Pos.to_nat Pos.iter_op Nat.add take sum16]. simpl. lia.
Qed.

Lemma sum_chain_spec p next checksum d :
  chain_ok p next d -> 0 <= d < 2 ^ 31 -> 0 <= checksum ->
  checksum + 131070 * Z.of_nat (S (length next)) < 2 ^ 31 ->
  exists c' d' p' off, sum_chain p next checksum d = Val (c', d', p', off) /\ packet_ok p' /\ 0 <= off /\
    0 <= d' <= 3 /\ off + d' <= packet_size p' /\ 0 <= c' < 2 ^ 31 /\
    oc_eq (c' + sum16 (take (Z.to_nat d') (drop (Z.to_nat off) (nx_packet_mem p'))))
          (checksum + sum16 (chain_data p next d)).
Proof.
  revert p checksum d. induction next as [|q r IH]; intros p checksum d [Hp Hch] Hd Hc Hb; cbn [sum_chain].
  - destruct (sum_packet_spec p checksum d Hp ltac:(lia) Hd) as (f & Hf & Hoc & ->). cbn [obind].
    pose proof (packet_size_range p Hp). rewrite Z.min_r in * by lia. set (n := d / 4) in *.
    eexists _, _, _, _. split; [done|]. split; [done|]. split_and!; try (unfold n; word_lia).
    assert (Ed : chain_data p [] d = take (Z.to_nat d) (packet_data p)).
    { unfold chain_data. cbn [map concat]. by rewrite app_nil_r. }
    rewrite Ed, (packet_split p n d) by (done || (unfold n; word_lia)).
    rewrite Z.add_assoc. pose proof Hp as (_ & _ & _ & _ & Hby).
    apply oc_add_proper; [|apply oc_refl, sum16_nonneg, bytes_take, bytes_drop, Hby].
    apply oc_add_proper; [by apply oc_refl|done].
  - destruct Hch as (Heven & Hle & Hrest). pose proof (packet_size_range p Hp) as Hsz.
    destruct (sum_packet_spec p checksum d Hp ltac:(lia) Hd) as (f & Hf & Hoc & ->). cbn [obind].
    rewrite Z.min_l in * by lia. rewrite chain_data_cons by done. cbn [length] in Hb.
    pose proof (packet_data_length p Hp) as Hdl.
    rewrite sum16_app by (exists (Z.to_nat (packet_size p / 2)); word_lia).
    rewrite <- (packet_data_whole p Hp), (packet_split p (packet_size p / 4) (packet_size p)) by (done || word_lia).
    set (n := packet_size p / 4) in *. pose proof (chain_data_bytes _ _ _ Hrest) as Hcb. apply sum16_nonneg in Hcb.
    rewrite append_low by done.
    set (A := sum16 (take (Z.to_nat (4 * n)) (nx_packet_mem p))) in *.
    set (X := sum16 (chain_data q r (d - packet_size p))) in *.
    destruct (Z.eqb_spec (packet_size p mod 4) 2) as [H2|H2].
    + rewrite (proj2 (Z.ltb_lt 0 _)) by (unfold n; word_lia).
      destruct (packet_pair p Hp H2) as (w & Hload & Hw & Ew). fold n in Hload, Ew. rewrite Hload, <- Ew. cbn [obind].
      rewrite (u32_small (checksum + f + w)), (u32_small (d - 4 * n - 2)) by (unfold n; word_lia).
      replace (d - 4 * n - 2) with (d - packet_size p) by (unfold n; word_lia).
      destruct (IH q (checksum + f + w) (d - packet_size p) Hrest) as (c' & d' & p' & off & E & H); [lia|lia|lia|].
      exists c', d', p', off. split; [done|]. destruct H as (G1 & G2 & G3 & G4 & G5 & G6). split_and!; try done; [lia..|].
      rewrite G6. fold X. replace (checksum + (A + w + X)) with (checksum + A + w + X) by lia.
      apply oc_add_proper; [|by apply oc_refl]. apply oc_add_proper; [|apply oc_refl; lia].
      apply oc_add_proper; [by apply oc_refl|done].
    + assert (H0 : packet_size p = 4 * n) by (unfold n; word_lia).
      rewrite H0, Z.sub_diag. cbn [Z.to_nat take sum16]. rewrite Z.add_0_r.
      destruct (Z.ltb_spec 0 (d - 4 * n)).
      * destruct (IH q (checksum + f) (d - packet_size p) Hrest) as (c' & d' & p' & off & E & H'); [lia|lia|lia|].
        rewrite H0 in E. exists c', d', p', off. split; [done|].
        destruct H' as (G1 & G2 & G3 & G4 & G5 & G6). split_and!; try done; [lia..|].
        rewrite G6. fold X. rewrite Z.add_assoc. apply oc_add_proper; [|by apply oc_refl].
        apply oc_add_proper; [by apply oc_refl|done].
      * assert (Hd0 : d = packet_size p) by lia.
        assert (HX : X = 0) by (unfold X, chain_data; by replace (d - packet_size p) with 0 by lia).
        exists (checksum + f), (d - 4 * n), p, (4 * n). split; [done|]. split_and!; try done; try lia.
        replace (d - 4 * n) with 0 by lia. cbn [Z.to_nat take sum16]. rewrite HX, !Z.add_0_r.
        apply oc_add_proper; [by apply oc_refl|done].
Qed.

(** ** The bytes left over *)

Lemma store8_val mem off b : 0 <= off < Z.of_nat (length mem) -> store8 mem off b = Val (<[Z.to_nat off := b]> mem).
Proof. intros H. unfold store8. by rewrite (proj2 (Z.leb_le _ _)), (proj2 (Z.ltb_lt _ _)) by lia. Qed.

Lemma sum_rest_spec p off c d :
  packet_ok p -> 0 <= off -> 0 <= d <= 3 -> off + d <= packet_size p -> 0 <= c < 2 ^ 31 ->
  sum_rest (nx_packet_mem p) off c d =
    Val (c + sum16 (take (Z.to_nat d) (drop (Z.to_nat off) (nx_packet_mem p))),
         if d mod 2 =? 0 then nx_packet_mem p else <[Z.to_nat (off + d) := 0]> (nx_packet_mem p)).
Proof.
  intros Hp Ho Hd Hod Hc. pose proof Hp as (_ & _ & _ & Hl & Hb). set (mem := nx_packet_mem p) in *.
  pose proof (bytes_drop mem (Z.to_nat off) Hb) as Hbd. unfold sum_rest.
  assert (Hlen : (Z.to_nat d + 1 <= length (drop (Z.to_nat off) mem))%nat) by (rewrite length_drop; lia).
  assert (Hpad : forall k, (k < length mem)%nat -> bytes_ok (<[k := 0]> mem)).
  { intros k Hk. apply Forall_insert; [done|word_lia]. }
  assert (Hcase : d = 0 \/ d = 1 \/ d = 2 \/ d = 3) by lia.
  destruct Hcase as [-> |[-> |[-> | ->]]]; fold mem; cbn -[Z.to_nat take drop sum16 store8 load16].
  - cbn [Z.to_nat take sum16]. by rewrite Z.add_0_r.
  - destruct (drop (Z.to_nat off) mem) as [|b0 [|b1 r]] eqn:E; simpl in Hlen; try lia.
    unfold bytes_ok in Hbd. rewrite !Forall_cons in Hbd. rewrite store8_val by lia. cbn [obind].
    rewrite (load16_val _ off b0 0 r); [|lia|apply Hpad; lia|].
    + cbn [obind]. rewrite u32_small by word_lia. change (Z.to_nat 1) with 1%nat. cbn [take sum16]. do 2 f_equal. lia.
    + replace (Z.to_nat (off + 1)) with (Z.to_nat off + 1)%nat by lia.
      rewrite drop_insert_ge, E by lia. replace (Z.to_nat off + 1 - Z.to_nat off)%nat with 1%nat by lia. done.
  - destruct (drop (Z.to_nat off) mem) as [|b0 [|b1 r]] eqn:E; simpl in Hlen; try lia.
    unfold bytes_ok in Hbd. rewrite !Forall_cons in Hbd. rewrite (load16_val _ off b0 b1 r) by (done || lia). cbn [obind].
    rewrite u32_small by word_lia. change (Z.to_nat 2) with 2%nat. cbn [take sum16]; rewrite take_0; cbn [sum16]. do 2 f_equal. lia.
  - destruct (drop (Z.to_nat off) mem) as [|b0 [|b1 [|b2 [|b3 r]]]] eqn:E; simpl in Hlen; try lia.
    unfold bytes_ok in Hbd. rewrite !Forall_cons in Hbd. rewrite (load16_val _ off b0 b1 (b2 :: b3 :: r)) by (done || lia).
    cbn [obind]. rewrite store8_val by lia. cbn [obind]. rewrite (load16_val _ (off + 2) b2 0 r); [|lia|apply Hpad; lia|].
    + cbn [obind]. rewrite !u32_small by word_lia. change (Z.to_nat 3) with 3%nat. cbn [take sum16]. do 2 f_equal. lia.
    + replace (Z.to_nat (off + 2)) with (Z.to_nat off + 2)%nat by lia.
      replace (Z.to_nat (off + 3)) with (Z.to_nat off + 3)%nat by lia.
      rewrite drop_insert_ge by lia. rewrite <- drop_drop, E.
      by replace (Z.to_nat off + 3 - (Z.to_nat off + 2))%nat with 1%nat by lia.
Qed.

(** ** The pseudo header *)

(** The sixteen-bit halves of address words added up. *)
Fixpoint sum_halves (ws : list Z) : Z :=
  match ws with [] => 0 | w :: r => w / 65536 + w mod 65536 + sum_halves r end.

Lemma halves w : is_u32 w ->
  Z.shiftr w 16 = w / 65536 /\ Z.land w 0xFFFF = w mod 65536 /\ 0 <= w / 65536 + w mod 65536 <= 131070.
Proof.
  intros Hw. rewrite Z.shiftr_div_pow2 by lia. change 0xFFFF with (Z.ones 16). rewrite Z.land_ones by lia.
  split_and!; [done..|word_lia|word_lia].
Qed.

Lemma add_w_w a b c : ((a +w b) +w c) = u32 (a + (b + c)).
Proof. unfold u32. rewrite Z.add_mod_idemp_l by lia. f_equal. lia. Qed.

Lemma sum16_short l : bytes_ok l -> (length l <= 3)%nat -> 0 <= sum16 l <= 131070.
Proof.
  intros Hb Hl. destruct l as [|a [|b [|c [|]]]]; simpl in Hl; try lia; unfold bytes_ok in Hb;
    rewrite ?Forall_cons in Hb; cbn [sum16]; word_lia.
Qed.

(** The words of an address: one, or four for IPv6. *)
Definition addr_words (v6 : bool) (addr : list Z) : Prop :=
  Forall is_u32 addr /\ length addr = if v6 then 4%nat else 1%nat.

Section Pseudo.
Context (ipv6 : bool) (NX_PROTOCOL_UDP NX_PROTOCOL_TCP NX_PROTOCOL_ICMPV6 NX_IP_VERSION_V6 : Z).

Lemma pseudo_header_spec version protocol d src dest :
  let v6 := ipv6 && (version =? NX_IP_VERSION_V6) in
  addr_words v6 src -> addr_words v6 dest -> 0 <= protocol < 65536 -> 0 <= d < 2 ^ 31 ->
  pseudo_header ipv6 NX_IP_VERSION_V6 version protocol d src dest =
    Val (oc16 (protocol + sum_halves src + sum_halves dest + d)).
Proof.
  intros v6 [Hs Ls] [Hd Ld] Hp Hlen. unfold pseudo_header. fold v6.
  assert (Hfold : forall s, is_u32 s -> u16 (n68k_fold s) = oc16 s).
  { intros s Hsu. rewrite fold_oc16 by done. pose proof (oc16_range s). apply u16_small. word_lia. }
  destruct v6.
  - destruct src as [|s0 [|s1 [|s2 [|s3 [|]]]]]; try done. destruct dest as [|d0 [|d1 [|d2 [|d3 [|]]]]]; try done.
    rewrite !Forall_cons in Hs, Hd. destruct Hs as (S0 & S1 & S2 & S3 & _), Hd as (D0 & D1 & D2 & D3 & _).
    transitivity (Val (u16 (n68k_fold (((((((((((((((((protocol +w Z.shiftr s0 16) +w Z.land s0 0xFFFF)
      +w Z.shiftr d0 16) +w Z.land d0 0xFFFF) +w Z.shiftr d1 16) +w Z.shiftr s1 16)
      +w Z.land d1 0xFFFF) +w Z.land s1 0xFFFF) +w Z.shiftr d2 16) +w Z.shiftr s2 16)
      +w Z.land d2 0xFFFF) +w Z.land s2 0xFFFF) +w Z.shiftr d3 16) +w Z.shiftr s3 16)
      +w Z.land d3 0xFFFF) +w Z.land s3 0xFFFF) +w d)))); [reflexivity|].
    destruct (halves s0 S0) as (-> & -> & ?), (halves s1 S1) as (-> & -> & ?), (halves s2 S2) as (-> & -> & ?),
      (halves s3 S3) as (-> & -> & ?), (halves d0 D0) as (-> & -> & ?), (halves d1 D1) as (-> & -> & ?),
      (halves d2 D2) as (-> & -> & ?), (halves d3 D3) as (-> & -> & ?).
    rewrite !add_w_w, Hfold by apply u32_range. f_equal. cbn [sum_halves].
    rewrite u32_small by (unfold is_u32; lia). f_equal. lia.
  - destruct src as [|s0 [|]]; try done. destruct dest as [|d0 [|]]; try done.
    rewrite !Forall_cons in Hs, Hd. destruct Hs as (S0 & _), Hd as (D0 & _).
    transitivity (Val (u16 (n68k_fold (((((protocol +w Z.shiftr s0 16) +w Z.land s0 0xFFFF)
      +w Z.shiftr d0 16) +w Z.land d0 0xFFFF) +w d)))); [reflexivity|].
    destruct (halves s0 S0) as (-> & -> & ?), (halves d0 D0) as (-> & -> & ?).
    rewrite !add_w_w, Hfold by apply u32_range. f_equal. cbn [sum_halves].
    rewrite u32_small by (unfold is_u32; lia). f_equal. lia.
Qed.

(** What the pseudo header contributes. *)
Definition pseudo_sum (protocol d : Z) (src dest : list Z) : Z :=
  if has_pseudo ipv6 NX_PROTOCOL_UDP NX_PROTOCOL_TCP NX_PROTOCOL_ICMPV6 protocol
  then protocol + sum_halves src + sum_halves dest + d else 0.

End Pseudo.

(** A chain of two packets, the second with an odd end. *)
Definition packet_a : NX_PACKET :=
  {| nx_packet_prepend_ptr := 4096; nx_packet_append_ptr := 4102; nx_packet_mem := [1; 2; 3; 4; 5; 6; 0; 0] |}.
Definition packet_b : NX_PACKET :=
  {| nx_packet_prepend_ptr := 8192; nx_packet_append_ptr := 8199; nx_packet_mem := [7; 8; 9; 10; 11; 12; 13; 99] |}.

