(* ===== verification/Limbs.v ===== *)
(** * Limb memory

    The multi-precision arithmetic of src/src/crypto68k works on arrays of 32-bit
    limbs, least significant limb first, that its callers cut out of a few scratch
    areas.  The model keeps them in one memory, a list of limbs addressed by
    position, so that operands may overlap exactly as the code lets them and a
    store past the end of an area shows as a change of its neighbour.

    [lv m p n] is the number the [n] limbs at [p] spell; [keeps R m m'] says that a
    call changed nothing outside the areas [R].  The specifications of this layer
    have the form: the call returns, [keeps] its outputs only, and the value of the
    outputs is an equation of integers. *)

From Stdlib Require Import ZArith Lia.
From stdpp Require Import base numbers list.
From S2P Require Import Prelude.

(** The weight of [n] limbs. *)
Definition W (n : Z) : Z := 2 ^ (32 * n).

Fixpoint val (l : list Z) : Z :=
  match l with
  | [] => 0
  | x :: r => x + 2 ^ 32 * val r
  end.

Definition mem_ok (m : list Z) : Prop := Forall is_u32 m.

(** [n] limbs at [p] lie in the memory. *)
Definition span (m : list Z) (p n : Z) : Prop := 0 <= p /\ 0 <= n /\ p + n <= Z.of_nat (length m).

Definition lv (m : list Z) (p n : Z) : Z := val (slice m p n).

Definition apart (p n : Z) (area : Z * Z) : Prop := p + n <= area.1 \/ area.1 + area.2 <= p.

Definition keeps (R : list (Z * Z)) (m m' : list Z) : Prop :=
  length m' = length m /\
  forall i, 0 <= i -> Forall (apart i 1) R -> m' !! Z.to_nat i = m !! Z.to_nat i.

(** ** Loads, stores and the two loops *)

Definition ld (m : list Z) (p : Z) : outcome Z := fetch m p.
Definition st (m : list Z) (p v : Z) : outcome (list Z) :=
  if (p <? 0) || (Z.of_nat (length m) <=? p) then Fault else Val (<[Z.to_nat p := v]> m).

(** [for (j = 0; j < n; j++)] over limbs: [dst[j]] becomes a function of [src[j]] and
    of what the loop carries along. *)
Fixpoint loop1 {S} (f : S -> Z -> S * Z) (n : nat) (m : list Z) (dst src : Z) (s : S)
  : outcome (S * list Z) :=
  match n with
  | O => Val (s, m)
  | Datatypes.S n' =>
      let! x := ld m src in
      let '(s', v) := f s x in
      let! m' := st m dst v in
      loop1 f n' m' (dst + 1) (src + 1) s'
  end.

(** The same with [r[j]] read as well as written. *)
Fixpoint loop2 {S} (f : S -> Z -> Z -> S * Z) (n : nat) (m : list Z) (r b : Z) (s : S)
  : outcome (S * list Z) :=
  match n with
  | O => Val (s, m)
  | Datatypes.S n' =>
      let! x := ld m r in
      let! y := ld m b in
      let '(s', v) := f s x y in
      let! m' := st m r v in
      loop2 f n' m' (r + 1) (b + 1) s'
  end.

(** What the loops compute, on lists. *)
Fixpoint map1 {S} (f : S -> Z -> S * Z) (s : S) (l : list Z) : S * list Z :=
  match l with
  | [] => (s, [])
  | x :: r => let '(s', v) := f s x in let '(s'', out) := map1 f s' r in (s'', v :: out)
  end.
Fixpoint map2 {S} (f : S -> Z -> Z -> S * Z) (s : S) (l k : list Z) : S * list Z :=
  match l, k with
  | x :: r, y :: t =>
      let '(s', v) := f s x y in let '(s'', out) := map2 f s' r t in (s'', v :: out)
  | _, _ => (s, [])
  end.

(** ** Weights *)

Lemma W_0 : W 0 = 1.
Proof. reflexivity. Qed.
Lemma W_1 : W 1 = 2 ^ 32.
Proof. reflexivity. Qed.
Lemma W_add a b : 0 <= a -> 0 <= b -> W (a + b) = W a * W b.
Proof. intros. unfold W. rewrite <- Z.pow_add_r by lia. f_equal. lia. Qed.
Lemma W_S a : 0 <= a -> W (a + 1) = 2 ^ 32 * W a.
Proof. intros. rewrite W_add, W_1 by lia. lia. Qed.
Lemma W_pos a : 0 <= a -> 0 < W a.
Proof. intros. apply Z.pow_pos_nonneg; lia. Qed.

(** ** Values *)

Lemma val_app a b : val (a ++ b) = val a + W (Z.of_nat (length a)) * val b.
Proof.
  induction a as [|x a IH]; cbn [val length app]; [change (W (Z.of_nat 0)) with 1; lia|].
  rewrite IH. replace (Z.of_nat (S (length a))) with (Z.of_nat (length a) + 1) by lia.
  rewrite W_S by lia. ring.
Qed.

Lemma val_range l : mem_ok l -> 0 <= val l < W (Z.of_nat (length l)).
Proof.
  induction 1 as [|x l Hx Hl IH]; cbn [val length]; [change (W (Z.of_nat 0)) with 1; lia|].
  replace (Z.of_nat (S (length l))) with (Z.of_nat (length l) + 1) by lia.
  rewrite W_S by lia. word_lia.
Qed.

Lemma val_replicate n : val (replicate n 0) = 0.
Proof. induction n as [|n IH]; simpl; [done|]. rewrite IH. reflexivity. Qed.

Lemma mem_ok_slice m p n : mem_ok m -> mem_ok (slice m p n).
Proof. intros H. apply Forall_take, Forall_drop, H. Qed.

(** A slice from its first element, and from its last. *)
Lemma slice_cons {A} (m : list A) p n x :
  0 <= p -> 0 <= n -> m !! Z.to_nat p = Some x -> slice m p (n + 1) = x :: slice m (p + 1) n.
Proof.
  intros Hp Hn Hx. unfold slice. replace (Z.to_nat (n + 1)) with (S (Z.to_nat n)) by lia.
  rewrite (drop_S _ x) by done. cbn [take]. f_equal. f_equal. f_equal. lia.
Qed.

Lemma slice_app {A} (m : list A) p a b :
  0 <= p -> 0 <= a -> 0 <= b -> slice m p (a + b) = slice m p a ++ slice m (p + a) b.
Proof.
  intros. unfold slice. rewrite Z2Nat.inj_add by lia.
  rewrite Z2Nat.inj_add by lia. rewrite <- drop_drop. generalize (drop (Z.to_nat p) m). intros l.
  rewrite <- (take_drop (Z.to_nat a) (take (Z.to_nat a + Z.to_nat b) l)).
  rewrite take_take, Nat.min_l by lia. f_equal. rewrite take_drop_commute. done.
Qed.

Lemma lv_range m p n : mem_ok m -> span m p n -> 0 <= lv m p n < W n.
Proof.
  intros Hm (H1 & H2 & H3). pose proof (val_range _ (mem_ok_slice m p n Hm)).
  rewrite slice_length in H by done. done.
Qed.

Lemma lv_app m p a b :
  span m p a -> 0 <= b -> lv m p (a + b) = lv m p a + W a * lv m (p + a) b.
Proof.
  intros (H1 & H2 & H3) Hb. unfold lv. rewrite slice_app, val_app by done.
  by rewrite slice_length by done.
Qed.

Lemma lv_0 m p : lv m p 0 = 0.
Proof. reflexivity. Qed.

Lemma lv_1 m p x : 0 <= p -> m !! Z.to_nat p = Some x -> lv m p 1 = x.
Proof. intros Hp Hx. unfold lv. change 1 with (0 + 1). rewrite (slice_cons m p 0 x) by done. simpl. lia. Qed.

Lemma ld_val m p : span m p 1 -> ld m p = Val (lv m p 1).
Proof.
  intros (H1 & _ & H3). destruct (fetch_val m p) as (x & Hx & Hl); [lia|].
  unfold ld. by rewrite Hx, (lv_1 m p x).
Qed.

(** ** Frames *)

Lemma keeps_refl R m : keeps R m m.
Proof. done. Qed.

Lemma keeps_trans R m1 m2 m3 : keeps R m1 m2 -> keeps R m2 m3 -> keeps R m1 m3.
Proof.
  intros [L1 H1] [L2 H2]. split; [congruence|]. intros i Hi HR. by rewrite H2, H1.
Qed.

(** [R] lies in [R']. *)
Definition within (R R' : list (Z * Z)) : Prop :=
  Forall (fun a => Exists (fun b => b.1 <= a.1 /\ a.1 + a.2 <= b.1 + b.2) R') R.

Lemma keeps_within R R' m m' : keeps R m m' -> within R R' -> keeps R' m m'.
Proof.
  intros [L H] Hw. split; [done|]. intros i Hi HR'. apply H; [done|].
  eapply Forall_impl; [exact Hw|]. cbv beta. intros [p n] Hex. apply Exists_exists in Hex as (b & Hb & Hb').
  rewrite Forall_forall in HR'. specialize (HR' b Hb). unfold apart in *. simpl in *. lia.
Qed.

Lemma keeps_slice R m m' p n :
  keeps R m m' -> 0 <= p -> Forall (apart p n) R -> slice m' p n = slice m p n.
Proof.
  intros [L H] Hp HR. apply slice_ext; [done..|]. intros i Hi.
  replace (Z.to_nat p + i)%nat with (Z.to_nat (p + Z.of_nat i)) by lia.
  apply H; [lia|]. eapply Forall_impl; [exact HR|]. intros a. unfold apart. lia.
Qed.

Lemma keeps_lv R m m' p n :
  keeps R m m' -> 0 <= p -> Forall (apart p n) R -> lv m' p n = lv m p n.
Proof. intros. unfold lv. by rewrite (keeps_slice R m m'). Qed.

Lemma keeps_span R m m' p n : keeps R m m' -> span m' p n <-> span m p n.
Proof. intros [L _]. unfold span. by rewrite L. Qed.

(** [areas] closes the side conditions on areas: membership, inclusion, apartness.
    It first forgets what is known of the values, which can only slow [lia] down. *)
Ltac areas_body :=
  unfold within, span in *;
  repeat first
    [ apply Forall_nil_2 | apply Forall_cons_2
    | match goal with |- Exists _ (_ :: _) =>
        first [ solve [left; cbn [fst snd]; lia] | right ] end
    | match goal with |- apart _ _ _ => unfold apart; cbn [fst snd]; lia end ];
  try done; try lia.
Ltac forget_values :=
  repeat match goal with
  | H : context [lv _ _ _] |- _ => clear H
  | H : context [W _] |- _ => clear H
  | H : context [?a * ?b] |- _ => is_var a; is_var b; clear H
  end.
Ltac areas_only := solve [forget_values; areas_body].
Ltac areas := first [ areas_only | areas_body ].

(** ** Stores *)

Lemma st_val m p v :
  span m p 1 -> mem_ok m -> is_u32 v ->
  exists m', st m p v = Val m' /\ keeps [(p, 1)] m m' /\ mem_ok m' /\ lv m' p 1 = v.
Proof.
  intros (H1 & _ & H3) Hm Hv. exists (<[Z.to_nat p := v]> m). unfold st. bcases.
  split_and!; [done| | |].
  - split; [apply length_insert|]. intros i Hi HR. inversion HR; subst.
    apply list_lookup_insert_ne. unfold apart in *. simpl in *. lia.
  - by apply Forall_insert.
  - apply lv_1; [done|]. apply list_lookup_insert_eq. lia.
Qed.

(** ** The loops are the list functions *)

Lemma map1_length {S} (f : S -> Z -> S * Z) s l : length (map1 f s l).2 = length l.
Proof.
  revert s; induction l as [|x l IH]; intros s; simpl; [done|].
  destruct (f s x) as [s' v]. specialize (IH s'). destruct (map1 f s' l). simpl in *. lia.
Qed.

Lemma map2_length {S} (f : S -> Z -> Z -> S * Z) s l k :
  length l = length k -> length (map2 f s l k).2 = length l.
Proof.
  revert s k; induction l as [|x l IH]; intros s [|y k] H; simpl in *; try done.
  destruct (f s x y) as [s' v]. specialize (IH s' k ltac:(lia)). destruct (map2 f s' l k). simpl in *. lia.
Qed.

Lemma splice_cons {A} (m : list A) p v l :
  0 <= p -> p + 1 + Z.of_nat (length l) <= Z.of_nat (length m) ->
  splice (<[Z.to_nat p := v]> m) (p + 1) l = splice m p (v :: l).
Proof.
  intros Hp Hl. change (v :: l) with ([v] ++ l). rewrite <- (splice_splice m p [v] l) by (simpl; lia).
  simpl length. f_equal. unfold splice. simpl length.
  rewrite insert_take_drop by lia. simpl. do 3 f_equal. lia.
Qed.

Lemma splice_nil {A} (m : list A) p : splice m p [] = m.
Proof. unfold splice. simpl. rewrite Nat.add_0_r. apply take_drop. Qed.

Lemma slice_insert (m : list Z) p v q n :
  0 <= p -> 0 <= q -> p < q \/ q + n <= p -> slice (<[Z.to_nat p := v]> m) q n = slice m q n.
Proof.
  intros Hp Hq H. apply slice_ext; [lia..|]. intros i Hi. apply list_lookup_insert_ne. lia.
Qed.

(** A loop may run over the area it reads from, or below it, but not above it. *)
Lemma loop1_spec {S} (f : S -> Z -> S * Z) n m dst src s :
  span m dst n -> span m src n -> dst <= src \/ src + n <= dst ->
  loop1 f (Z.to_nat n) m dst src s =
    Val ((map1 f s (slice m src n)).1, splice m dst (map1 f s (slice m src n)).2).
Proof.
  intros Hd Hs Hal. destruct (Z_of_nat_complete n) as [k ->]; [apply Hd|]. rewrite Nat2Z.id.
  revert m dst src s Hd Hs Hal. induction k as [|k IH]; intros m dst src s Hd Hs Hal.
  { simpl. by rewrite splice_nil. }
  cbn [loop1]. unfold span in *. replace (Z.of_nat (Datatypes.S k)) with (Z.of_nat k + 1) in * by lia.
  destruct (fetch_val m src) as (x & Hx & Hlx); [lia|]. unfold ld. rewrite Hx. cbn [obind].
  rewrite (slice_cons m src (Z.of_nat k) x) by (lia || done). cbn [map1].
  destruct (f s x) as [s' v]. unfold st. bcases. cbn [obind].
  rewrite IH by (rewrite ?length_insert; lia).
  rewrite slice_insert by lia.
  pose proof (map1_length f s' (slice m (src + 1) (Z.of_nat k))) as Hlen.
  assert (Hk := slice_length m (src + 1) (Z.of_nat k) ltac:(lia) ltac:(lia) ltac:(lia)).
  destruct (map1 f s' _) as [s'' out]. simpl in *. rewrite splice_cons by lia. done.
Qed.

Lemma loop2_spec {S} (f : S -> Z -> Z -> S * Z) n m r b s :
  span m r n -> span m b n -> r <= b \/ b + n <= r ->
  loop2 f (Z.to_nat n) m r b s =
    Val ((map2 f s (slice m r n) (slice m b n)).1, splice m r (map2 f s (slice m r n) (slice m b n)).2).
Proof.
  intros Hr Hb Hal. destruct (Z_of_nat_complete n) as [k ->]; [apply Hr|]. rewrite Nat2Z.id.
  revert m r b s Hr Hb Hal. induction k as [|k IH]; intros m r b s Hr Hb Hal.
  { simpl. by rewrite splice_nil. }
  cbn [loop2]. unfold span in *. replace (Z.of_nat (Datatypes.S k)) with (Z.of_nat k + 1) in * by lia.
  destruct (fetch_val m r) as (x & Hx & Hlx); [lia|]. unfold ld. rewrite Hx. cbn [obind].
  destruct (fetch_val m b) as (y & Hy & Hly); [lia|]. rewrite Hy. cbn [obind].
  rewrite (slice_cons m r (Z.of_nat k) x), (slice_cons m b (Z.of_nat k) y) by (lia || done). cbn [map2].
  destruct (f s x y) as [s' v]. unfold st. bcases. cbn [obind].
  rewrite IH by (rewrite ?length_insert; lia).
  rewrite !slice_insert by lia.
  assert (Hk := slice_length m (r + 1) (Z.of_nat k) ltac:(lia) ltac:(lia) ltac:(lia)).
  assert (Hk' := slice_length m (b + 1) (Z.of_nat k) ltac:(lia) ltac:(lia) ltac:(lia)).
  pose proof (map2_length f s' (slice m (r + 1) (Z.of_nat k)) (slice m (b + 1) (Z.of_nat k)) ltac:(lia)) as Hlen.
  destruct (map2 f s' _ _) as [s'' out]. simpl in *. rewrite splice_cons by lia. done.
Qed.

(** What a splice of limbs does to the memory. *)
Lemma splice_keeps m p l :
  span m p (Z.of_nat (length l)) -> mem_ok m -> mem_ok l ->
  keeps [(p, Z.of_nat (length l))] m (splice m p l) /\ mem_ok (splice m p l) /\
  lv (splice m p l) p (Z.of_nat (length l)) = val l.
Proof.
  intros (H1 & H2 & H3) Hm Hl. split_and!.
  - split; [by apply splice_length|]. intros i Hi HR. inversion HR as [|? ? Ha]; subst.
    apply splice_lookup_out; [lia..|]. unfold apart in Ha. simpl in Ha. lia.
  - unfold splice. apply Forall_app; split; [by apply Forall_take|].
    apply Forall_app; split; [done|by apply Forall_drop].
  - unfold lv. by rewrite slice_splice_same.
Qed.
