(* ===== verification/C68kPrim.v ===== *)
(** * Limb primitives (src/src/crypto68k/c68k_prim.c)

    The portable C of the multi-precision primitives: multiply-accumulate,
    multiply-subtract, add, subtract, carry, compare and the two-by-one divide.
    [HN_UBASE2] is the 64-bit accumulator.  On the 68000 the 64-bit divide of
    [c68k_div_2by1] reaches [__udivdi3] and [__umoddi3] of ami_udivdi3.c, and so it
    does here.  [c68k_yield_hook] hands the processor to other tasks and has no
    access to the operands: its calls are left out, the interval between them
    ([c68k_yield_stride]) is kept. *)

From Stdlib Require Import ZArith Lia.
From stdpp Require Import base numbers list.
From S2P Require Import Prelude.
From S2P Require Import Udivdi3.
From S2P Require Import Limbs.

(** ** The code *)

Definition C68K_YIELD_PRODUCTS : Z := 256.

Definition c68k_yield_stride (hooked : bool) (products : Z) : Z :=
  if negb hooked then 0xFFFFFFFF
  else
    let products := if products =? 0 then 1 else products in
    let stride := ((C68K_YIELD_PRODUCTS +w products) -w 1) / products in
    if negb (stride =? 0) then stride else 1.

(** Four 16-bit products; the same result from both arms of the conditional. *)
Definition c68k_wide_mul (a b : Z) : Z :=
  let a_lo := Z.land a 0xFFFF in
  let a_hi := Z.shiftr a 16 in
  let b_lo := Z.land b 0xFFFF in
  let b_hi := Z.shiftr b 16 in
  let ll := a_lo *w b_lo in
  let lh := a_lo *w b_hi in
  let hl := a_hi *w b_lo in
  let hh := a_hi *w b_hi in
  let mid := (Z.shiftr ll 16 +w Z.land lh 0xFFFF) +w Z.land hl 0xFFFF in
  Z.lor (u64 (Z.shiftl (((hh +w Z.shiftr lh 16) +w Z.shiftr hl 16) +w Z.shiftr mid 16) 32))
        (Z.lor (mid <<w 16) (Z.land ll 0xFFFF)).

Definition addmul_step (a product rj bj : Z) : Z * Z :=
  let product := u64 (u64 (Z.shiftr product 32 + rj) + c68k_wide_mul a bj) in
  (product, u32 product).

Definition c68k_addmul_1_c (m : list Z) (r b n a : Z) : outcome (Z * list Z) :=
  let! (product, m) := loop2 (addmul_step a) (Z.to_nat n) m r b 0 in
  Val (u32 (Z.shiftr product 32), m).

Definition c68k_addmul_1 (m : list Z) (r b n a : Z) : outcome (Z * list Z) :=
  c68k_addmul_1_c m r b n a.

(** [borrow] out of [left - right - borrow]. *)
Definition borrow_out (borrow left_ right_ : Z) : Z :=
  if negb (borrow =? 0) then b2z (left_ <=? right_) else b2z (left_ <? right_).

(** The carried pair is [product] and [borrow]. *)
Definition submul_step (a : Z) (s : Z * Z) (rj bj : Z) : (Z * Z) * Z :=
  let '(product, borrow) := s in
  let product := u64 (Z.shiftr product 32 + u64 (a * bj)) in
  let lo := u32 product in
  ((product, borrow_out borrow rj lo), (rj -w lo) -w borrow).

Definition c68k_submul_1 (m : list Z) (r b n a : Z) : outcome (Z * list Z) :=
  let! (s, m) := loop2 (submul_step a) (Z.to_nat n) m r b (0, 0) in
  Val (u32 (Z.shiftr s.1 32 + s.2), m).

(** The quotient and [*rem]. *)
Definition c68k_div_2by1 (hi lo d : Z) : outcome (Z * Z) :=
  let num := Z.lor (u64 (Z.shiftl hi 32)) lo in
  let! r := __umoddi3 num d in
  let! q := __udivdi3 num d in
  Val (u32 q, u32 r).

Definition carry_step (sum src : Z) : Z * Z :=
  let sum := u64 (Z.shiftr sum 32 + src) in (sum, u32 sum).

Definition c68k_add_carry (m : list Z) (dst src n carry : Z) : outcome (Z * list Z) :=
  let! (sum, m) := loop1 carry_step (Z.to_nat n) m dst src (u64 (Z.shiftl carry 32)) in
  Val (u32 (Z.shiftr sum 32), m).

Definition add_step (sum rj bj : Z) : Z * Z :=
  let sum := u64 (u64 (Z.shiftr sum 32 + rj) + bj) in (sum, u32 sum).

Definition c68k_add (m : list Z) (r b n : Z) : outcome (Z * list Z) :=
  let! (sum, m) := loop2 add_step (Z.to_nat n) m r b 0 in
  Val (u32 (Z.shiftr sum 32), m).

Definition sub_step (borrow left_ right_ : Z) : Z * Z :=
  (borrow_out borrow left_ right_, (left_ -w right_) -w borrow).

Definition c68k_sub (m : list Z) (r b n : Z) : outcome (Z * list Z) :=
  loop2 sub_step (Z.to_nat n) m r b 0.

(** [for (j = n; j > 0; j--)]. *)
Fixpoint cmp_from (m : list Z) (a b : Z) (j : nat) : outcome Z :=
  match j with
  | O => Val 0
  | S j' =>
      let! x := ld m (a + Z.of_nat j') in
      let! y := ld m (b + Z.of_nat j') in
      if negb (x =? y) then Val (if y <? x then 1 else -1) else cmp_from m a b j'
  end.

Definition c68k_cmp (m : list Z) (a b n : Z) : outcome Z := cmp_from m a b (Z.to_nat n).

(** ** Products and quotients of limbs *)

Lemma wide_mul_spec a b : is_u32 a -> is_u32 b -> c68k_wide_mul a b = a * b.
Proof.
  intros Ha Hb. unfold c68k_wide_mul. change 0xFFFF with (Z.ones 16).
  rewrite !Z.land_ones, !Z.shiftr_div_pow2 by lia. change (2 ^ 16) with 65536.
  assert (Ea := Z.div_mod a 65536 ltac:(lia)). assert (Eb := Z.div_mod b 65536 ltac:(lia)).
  assert (Ra : 0 <= a mod 65536 < 65536 /\ 0 <= a / 65536 < 65536) by word_lia.
  assert (Rb : 0 <= b mod 65536 < 65536 /\ 0 <= b / 65536 < 65536) by word_lia.
  set (al := a mod 65536) in *. set (ah := a / 65536) in *.
  set (bl := b mod 65536) in *. set (bh := b / 65536) in *.
  assert (P1 : 0 <= al * bl <= 65535 * 65535) by nia. assert (P2 : 0 <= al * bh <= 65535 * 65535) by nia.
  assert (P3 : 0 <= ah * bl <= 65535 * 65535) by nia. assert (P4 : 0 <= ah * bh <= 65535 * 65535) by nia.
  rewrite (u32_small (al * bl)), (u32_small (al * bh)), (u32_small (ah * bl)), (u32_small (ah * bh)) by word_lia.
  assert (E : a * b = ah * bh * 2 ^ 32 + (al * bh + ah * bl) * 65536 + al * bl) by (rewrite Ea, Eb; ring).
  rewrite E. clear E. set (ll := al * bl) in *. set (lh := al * bh) in *.
  set (hl := ah * bl) in *. set (hh := ah * bh) in *. clearbody ll lh hl hh. clear - P1 P2 P3 P4.
  rewrite (u32_small (ll / 65536 + lh mod 65536)) by word_lia.
  rewrite (u32_small (ll / 65536 + lh mod 65536 + hl mod 65536)) by word_lia.
  set (mid := ll / 65536 + lh mod 65536 + hl mod 65536).
  assert (Hm : 0 <= mid < 3 * 65536) by (unfold mid; word_lia).
  assert (E16 : u32 (Z.shiftl mid 16) = Z.shiftl (mid mod 65536) 16)
    by (rewrite !Z.shiftl_mul_pow2 by lia; word_lia).
  rewrite E16.
  rewrite (lor_shift_add 16) by word_lia.
  assert (Hh : is_u32 (hh + lh / 65536 + hl / 65536 + mid / 65536)) by (unfold mid; word_lia).
  rewrite !u32_small by word_lia. rewrite u64_small by (rewrite Z.shiftl_mul_pow2 by lia; word_lia).
  rewrite lor_shift_add by word_lia. unfold mid. word_lia.
Qed.

Lemma div_2by1_spec hi lo d :
  is_u32 hi -> is_u32 lo -> hi < d < 2 ^ 32 ->
  c68k_div_2by1 hi lo d = Val ((hi * 2 ^ 32 + lo) / d, (hi * 2 ^ 32 + lo) mod d).
Proof.
  intros Hh Hl Hd. unfold c68k_div_2by1, __umoddi3, __udivdi3.
  rewrite u64_small by (rewrite Z.shiftl_mul_pow2 by lia; word_lia).
  rewrite lor_shift_add by word_lia.
  rewrite udivmoddi4_spec by word_lia. cbn [obind].
  assert (is_u32 ((hi * 2 ^ 32 + lo) / d)).
  { split; [apply Z.div_pos; word_lia|apply Z.div_lt_upper_bound; word_lia]. }
  pose proof (Z.mod_pos_bound (hi * 2 ^ 32 + lo) d ltac:(word_lia)).
  rewrite !u32_small by word_lia. done.
Qed.

(** The stride is at least one, so the countdowns that test for zero do reach it,
    and one interval is less than 256 products and one row. *)
Lemma yield_stride_spec hooked products :
  is_u32 products -> products <= 2 ^ 31 ->
  let s := c68k_yield_stride hooked products in
  1 <= s < 2 ^ 32 /\ (hooked = true -> (s - 1) * products < C68K_YIELD_PRODUCTS).
Proof.
  intros Hp Hp'. unfold c68k_yield_stride, C68K_YIELD_PRODUCTS. destruct hooked; simpl negb; cbv iota; [|lia].
  set (p := if products =? 0 then 1 else products).
  assert (Hq : 0 < p <= 2 ^ 31 /\ (products = p \/ products = 0)) by (unfold p; bcases; word_lia).
  replace ((256 +w p) -w 1) with (256 + p - 1) by word_lia.
  pose proof (Z.div_mod (256 + p - 1) p ltac:(lia)). pose proof (Z.mod_pos_bound (256 + p - 1) p ltac:(lia)).
  assert (1 <= (256 + p - 1) / p) by (apply Z.div_le_lower_bound; lia).
  assert ((256 + p - 1) / p <= 256 + p - 1) by (apply Z.div_le_upper_bound; nia).
  bcases. split; [lia|]. intros _. destruct Hq as [Hq [E|E]]; rewrite E; nia.
Qed.

(** ** What the list steps compute *)

Ltac step_lists :=
  repeat match goal with
  | H : mem_ok (_ :: _) |- _ => apply Forall_cons_1 in H as [? ?]
  end.

Lemma addmul_map a rs : forall bs product,
  is_u32 a -> mem_ok rs -> mem_ok bs -> length rs = length bs -> is_u64 product ->
  let r := map2 (addmul_step a) product rs bs in
  is_u64 r.1 /\ mem_ok r.2 /\
  val r.2 + W (Z.of_nat (length rs)) * (r.1 / 2 ^ 32) = val rs + a * val bs + product / 2 ^ 32.
Proof.
  induction rs as [|x rs IH]; intros [|y bs] product Ha Hr Hb Hlen Hp; try done.
  { simpl. change (W (Z.of_nat 0)) with 1. split_and!; [done|constructor|lia]. }
  step_lists. cbn [map2]. set (q := product / 2 ^ 32 + x + a * y).
  assert (Hxy : 0 <= a * y <= (2 ^ 32 - 1) * (2 ^ 32 - 1)) by (unfold is_u32 in *; nia).
  assert (E : addmul_step a product x y = (q, u32 q)).
  { unfold addmul_step. rewrite wide_mul_spec, Z.shiftr_div_pow2 by (done || lia).
    by rewrite (u64_small (product / 2 ^ 32 + x)), u64_small by word_lia. }
  rewrite E.
  assert (Hq : is_u64 q) by (unfold q; word_lia).
  destruct (IH bs q) as (H64 & Hok & Hv); try done; [simpl in Hlen; lia|].
  destruct (map2 _ q rs bs) as [p' out]. cbn [fst snd] in *. cbn [length val].
  replace (Z.of_nat (S (length rs))) with (Z.of_nat (length rs) + 1) by lia. rewrite W_S by lia.
  split_and!; [done|constructor; [apply u32_range|done]|].
  assert (Eq : u32 q + 2 ^ 32 * (q / 2 ^ 32) = q) by word_lia.
  apply (f_equal (Z.mul (2 ^ 32))) in Hv. unfold q in *. lia.
Qed.

Lemma add_map rs : forall bs sum,
  mem_ok rs -> mem_ok bs -> length rs = length bs -> is_u64 sum -> sum / 2 ^ 32 <= 1 ->
  let r := map2 add_step sum rs bs in
  is_u64 r.1 /\ r.1 / 2 ^ 32 <= 1 /\ mem_ok r.2 /\
  val r.2 + W (Z.of_nat (length rs)) * (r.1 / 2 ^ 32) = val rs + val bs + sum / 2 ^ 32.
Proof.
  induction rs as [|x rs IH]; intros [|y bs] sum Hr Hb Hlen Hs Hc; try done.
  { simpl. change (W (Z.of_nat 0)) with 1. split_and!; [done|done|constructor|lia]. }
  step_lists. cbn [map2]. set (q := sum / 2 ^ 32 + x + y).
  assert (E : add_step sum x y = (q, u32 q)).
  { unfold add_step. rewrite Z.shiftr_div_pow2 by lia.
    by rewrite (u64_small (sum / 2 ^ 32 + x)), u64_small by word_lia. }
  rewrite E.
  destruct (IH bs q) as (H64 & Hc' & Hok & Hv); try done; [simpl in Hlen; lia|unfold q; word_lia..|].
  destruct (map2 _ q rs bs) as [p' out]. cbn [fst snd] in *. cbn [length val].
  replace (Z.of_nat (S (length rs))) with (Z.of_nat (length rs) + 1) by lia. rewrite W_S by lia.
  split_and!; [done|done|constructor; [apply u32_range|done]|].
  assert (Eq : u32 q + 2 ^ 32 * (q / 2 ^ 32) = q) by (unfold q; word_lia).
  apply (f_equal (Z.mul (2 ^ 32))) in Hv. unfold q in *. lia.
Qed.

Lemma carry_map l : forall sum,
  mem_ok l -> is_u64 sum ->
  let r := map1 carry_step sum l in
  is_u64 r.1 /\ mem_ok r.2 /\ val r.2 + W (Z.of_nat (length l)) * (r.1 / 2 ^ 32) = val l + sum / 2 ^ 32.
Proof.
  induction l as [|x l IH]; intros sum Hl Hs; try done.
  { simpl. change (W (Z.of_nat 0)) with 1. split_and!; [done|constructor|lia]. }
  step_lists. cbn [map1]. set (q := sum / 2 ^ 32 + x).
  assert (E : carry_step sum x = (q, u32 q)).
  { unfold carry_step. rewrite Z.shiftr_div_pow2 by lia. by rewrite u64_small by word_lia. }
  rewrite E.
  destruct (IH q) as (H64 & Hok & Hv); try done; [unfold q; word_lia|].
  destruct (map1 _ q l) as [p' out]. cbn [fst snd] in *. cbn [length val].
  replace (Z.of_nat (S (length l))) with (Z.of_nat (length l) + 1) by lia. rewrite W_S by lia.
  split_and!; [done|constructor; [apply u32_range|done]|].
  assert (Eq : u32 q + 2 ^ 32 * (q / 2 ^ 32) = q) by (unfold q; word_lia).
  apply (f_equal (Z.mul (2 ^ 32))) in Hv. unfold q in *. lia.
Qed.

Lemma borrow_spec borrow x y :
  is_u32 x -> is_u32 y -> 0 <= borrow <= 1 ->
  0 <= borrow_out borrow x y <= 1 /\ (x -w y) -w borrow = x - y - borrow + 2 ^ 32 * borrow_out borrow x y.
Proof.
  intros Hx Hy Hb. unfold borrow_out, b2z. bcases; word_lia.
Qed.

Lemma sub_map rs : forall bs borrow,
  mem_ok rs -> mem_ok bs -> length rs = length bs -> 0 <= borrow <= 1 ->
  let r := map2 sub_step borrow rs bs in
  0 <= r.1 <= 1 /\ mem_ok r.2 /\
  val r.2 = val rs - val bs - borrow + W (Z.of_nat (length rs)) * r.1.
Proof.
  induction rs as [|x rs IH]; intros [|y bs] borrow Hr Hb Hlen Hc; try done.
  { cbn [map2 fst snd val length]. change (W (Z.of_nat 0)) with 1. split_and!; [lia|lia|constructor|lia]. }
  step_lists. cbn [map2].
  change (sub_step borrow x y) with (borrow_out borrow x y, (x -w y) -w borrow).
  destruct (borrow_spec borrow x y) as [Hbo Hv0]; try done. set (b' := borrow_out borrow x y) in *.
  destruct (IH bs b') as (Hc' & Hok & Hv); try done; [simpl in Hlen; lia|].
  destruct (map2 _ b' rs bs) as [p' out]. cbn [fst snd] in *. cbn [length val].
  replace (Z.of_nat (S (length rs))) with (Z.of_nat (length rs) + 1) by lia. rewrite W_S by lia.
  split_and!; [lia|lia|constructor; [apply u32_range|done]|]. rewrite Hv, Hv0. ring.
Qed.

Lemma submul_map a rs : forall bs product borrow,
  is_u32 a -> mem_ok rs -> mem_ok bs -> length rs = length bs ->
  is_u64 product -> product / 2 ^ 32 <= 2 ^ 32 - 2 -> 0 <= borrow <= 1 ->
  let r := map2 (submul_step a) (product, borrow) rs bs in
  is_u64 r.1.1 /\ r.1.1 / 2 ^ 32 <= 2 ^ 32 - 2 /\ 0 <= r.1.2 <= 1 /\ mem_ok r.2 /\
  val r.2 = val rs - a * val bs - product / 2 ^ 32 - borrow +
            W (Z.of_nat (length rs)) * (r.1.1 / 2 ^ 32 + r.1.2).
Proof.
  induction rs as [|x rs IH]; intros [|y bs] product borrow Ha Hr Hb Hlen Hp Hp2 Hc; try done.
  { cbn [map2 fst snd val length]. change (W (Z.of_nat 0)) with 1.
    split_and!; try (by constructor); word_lia. }
  step_lists. cbn [map2]. set (q := product / 2 ^ 32 + a * y).
  assert (Hxy : 0 <= a * y <= (2 ^ 32 - 1) * (2 ^ 32 - 1)) by (unfold is_u32 in *; nia).
  assert (E : submul_step a (product, borrow) x y =
              ((q, borrow_out borrow x (u32 q)), (x -w u32 q) -w borrow)).
  { unfold submul_step. rewrite Z.shiftr_div_pow2 by lia.
    by rewrite (u64_small (a * y)), u64_small by word_lia. }
  rewrite E.
  destruct (borrow_spec borrow x (u32 q)) as [Hbo Hv0]; [done|apply u32_range|done|].
  set (b' := borrow_out borrow x (u32 q)) in *.
  destruct (IH bs q b') as (H64 & Hq2 & Hc' & Hok & Hv); try done;
    [simpl in Hlen; lia|unfold q; word_lia|unfold q; word_lia|].
  destruct (map2 _ (q, b') rs bs) as [[p' c'] out]. cbn [fst snd] in *. cbn [length val].
  replace (Z.of_nat (S (length rs))) with (Z.of_nat (length rs) + 1) by lia. rewrite W_S by lia.
  split_and!; try word_lia. constructor; [apply u32_range|done].
Qed.

(** ** The primitives on memory *)

Lemma splice_result m p l n :
  Z.of_nat (length l) = n -> span m p n -> mem_ok m -> mem_ok l ->
  keeps [(p, n)] m (splice m p l) /\ mem_ok (splice m p l) /\ lv (splice m p l) p n = val l.
Proof. intros <-. apply splice_keeps. Qed.

Lemma slices_length m p q n :
  span m p n -> span m q n ->
  Z.of_nat (length (slice m p n)) = n /\ Z.of_nat (length (slice m q n)) = n.
Proof. intros (? & ? & ?) (? & ? & ?). by rewrite !slice_length. Qed.

Lemma addmul_1_spec m r b n a :
  mem_ok m -> span m r n -> span m b n -> r <= b \/ b + n <= r -> is_u32 a ->
  exists c m', c68k_addmul_1 m r b n a = Val (c, m') /\ keeps [(r, n)] m m' /\ mem_ok m' /\ is_u32 c /\
    lv m' r n + W n * c = lv m r n + a * lv m b n.
Proof.
  intros Hm Hr Hb Hal Ha. unfold c68k_addmul_1, c68k_addmul_1_c.
  destruct (slices_length m r b n Hr Hb) as [L1 L2].
  destruct (addmul_map a (slice m r n) (slice m b n) 0) as (H64 & Hok & Hv);
    auto using mem_ok_slice; [lia|word_lia|].
  rewrite loop2_spec by done.
  pose proof (map2_length (addmul_step a) 0 (slice m r n) (slice m b n) ltac:(lia)) as L3.
  destruct (map2 _ 0 _ _) as [s out]. cbn [fst snd obind] in *.
  rewrite Z.shiftr_div_pow2, u32_small by word_lia.
  destruct (splice_result m r out n) as (K & O & V); [lia|done..|].
  eexists _, _. split; [reflexivity|]. split_and!; [done|done|word_lia|].
  rewrite L1 in Hv. unfold lv in *. rewrite V. change (0 / 2 ^ 32) with 0 in Hv. lia.
Qed.

Lemma submul_1_spec m r b n a :
  mem_ok m -> span m r n -> span m b n -> r <= b \/ b + n <= r -> is_u32 a ->
  exists c m', c68k_submul_1 m r b n a = Val (c, m') /\ keeps [(r, n)] m m' /\ mem_ok m' /\ is_u32 c /\
    lv m' r n = lv m r n - a * lv m b n + W n * c.
Proof.
  intros Hm Hr Hb Hal Ha. unfold c68k_submul_1.
  destruct (slices_length m r b n Hr Hb) as [L1 L2].
  destruct (submul_map a (slice m r n) (slice m b n) 0 0) as (H64 & H2 & Hc & Hok & Hv);
    auto using mem_ok_slice; [lia|word_lia|word_lia|lia|].
  rewrite loop2_spec by done.
  pose proof (map2_length (submul_step a) (0, 0) (slice m r n) (slice m b n) ltac:(lia)) as L3.
  destruct (map2 _ (0, 0) _ _) as [[s c] out]. cbn [fst snd obind] in *.
  rewrite Z.shiftr_div_pow2, u32_small by word_lia.
  destruct (splice_result m r out n) as (K & O & V); [lia|done..|].
  eexists _, _. split; [reflexivity|]. split_and!; [done|done|word_lia|].
  rewrite L1 in Hv. unfold lv in *. rewrite V. change (0 / 2 ^ 32) with 0 in Hv. lia.
Qed.

Lemma add_spec m r b n :
  mem_ok m -> span m r n -> span m b n -> r <= b \/ b + n <= r ->
  exists c m', c68k_add m r b n = Val (c, m') /\ keeps [(r, n)] m m' /\ mem_ok m' /\ 0 <= c <= 1 /\
    lv m' r n + W n * c = lv m r n + lv m b n.
Proof.
  intros Hm Hr Hb Hal. unfold c68k_add.
  destruct (slices_length m r b n Hr Hb) as [L1 L2].
  destruct (add_map (slice m r n) (slice m b n) 0) as (H64 & Hc & Hok & Hv);
    auto using mem_ok_slice; [lia|word_lia|word_lia|].
  rewrite loop2_spec by done.
  pose proof (map2_length add_step 0 (slice m r n) (slice m b n) ltac:(lia)) as L3.
  destruct (map2 _ 0 _ _) as [s out]. cbn [fst snd obind] in *.
  rewrite Z.shiftr_div_pow2, u32_small by word_lia.
  destruct (splice_result m r out n) as (K & O & V); [lia|done..|].
  eexists _, _. split; [reflexivity|]. split_and!; [done|done|word_lia|word_lia|].
  rewrite L1 in Hv. unfold lv in *. rewrite V. change (0 / 2 ^ 32) with 0 in Hv. lia.
Qed.

Lemma sub_spec m r b n :
  mem_ok m -> span m r n -> span m b n -> r <= b \/ b + n <= r ->
  exists c m', c68k_sub m r b n = Val (c, m') /\ keeps [(r, n)] m m' /\ mem_ok m' /\ 0 <= c <= 1 /\
    lv m' r n = lv m r n - lv m b n + W n * c.
Proof.
  intros Hm Hr Hb Hal. unfold c68k_sub.
  destruct (slices_length m r b n Hr Hb) as [L1 L2].
  destruct (sub_map (slice m r n) (slice m b n) 0) as (Hc & Hok & Hv);
    auto using mem_ok_slice; [lia|lia|].
  rewrite loop2_spec by done.
  pose proof (map2_length sub_step 0 (slice m r n) (slice m b n) ltac:(lia)) as L3.
  destruct (map2 _ 0 _ _) as [s out]. cbn [fst snd obind] in *.
  destruct (splice_result m r out n) as (K & O & V); [lia|done..|].
  eexists _, _. split; [reflexivity|]. split_and!; [done|done|lia|lia|].
  rewrite L1 in Hv. unfold lv in *. rewrite V. lia.
Qed.

Lemma add_carry_spec m dst src n carry :
  mem_ok m -> span m dst n -> span m src n -> dst <= src \/ src + n <= dst -> is_u32 carry ->
  exists c m', c68k_add_carry m dst src n carry = Val (c, m') /\ keeps [(dst, n)] m m' /\ mem_ok m' /\
    is_u32 c /\ lv m' dst n + W n * c = lv m src n + carry.
Proof.
  intros Hm Hd Hs Hal Hc. unfold c68k_add_carry.
  rewrite u64_small by (rewrite Z.shiftl_mul_pow2 by lia; word_lia).
  rewrite Z.shiftl_mul_pow2 by lia.
  destruct (slices_length m src src n Hs Hs) as [L1 _].
  destruct (carry_map (slice m src n) (carry * 2 ^ 32)) as (H64 & Hok & Hv);
    auto using mem_ok_slice; [word_lia|].
  rewrite loop1_spec by done.
  pose proof (map1_length carry_step (carry * 2 ^ 32) (slice m src n)) as L3.
  destruct (map1 _ _ _) as [s out]. cbn [fst snd obind] in *.
  rewrite Z.shiftr_div_pow2, u32_small by word_lia.
  destruct (splice_result m dst out n) as (K & O & V); [lia|done..|].
  eexists _, _. split; [reflexivity|]. split_and!; [done|done|word_lia|].
  rewrite L1, Z.div_mul in Hv by lia. unfold lv in *. rewrite V. lia.
Qed.

(** The comparison is that of the numbers. *)
Lemma cmp_spec m a b n :
  mem_ok m -> span m a n -> span m b n ->
  exists c, c68k_cmp m a b n = Val c /\ c = Z.sgn (lv m a n - lv m b n).
Proof.
  intros Hm Ha Hb. unfold c68k_cmp. destruct (Z_of_nat_complete n) as [k ->]; [apply Ha|].
  rewrite Nat2Z.id. revert Ha Hb. induction k as [|k IH]; intros Ha Hb.
  { exists 0. split; [done|]. reflexivity. }
  unfold span in *. replace (Z.of_nat (S k)) with (Z.of_nat k + 1) in * by lia.
  cbn [cmp_from]. rewrite !ld_val by areas. cbn [obind].
  rewrite !(lv_app _ _ (Z.of_nat k) 1) by areas.
  pose proof (lv_range m a (Z.of_nat k) Hm ltac:(areas)). pose proof (lv_range m b (Z.of_nat k) Hm ltac:(areas)).
  pose proof (W_pos (Z.of_nat k) ltac:(lia)).
  set (x := lv m (a + Z.of_nat k) 1) in *. set (y := lv m (b + Z.of_nat k) 1) in *.
  destruct (Z.eqb_spec x y) as [->|Hne].
  - destruct IH as (c & Hc & Hs); [lia..|]. exists c. split; [done|]. rewrite Hs. f_equal. lia.
  - cbn [negb]. eexists. split; [reflexivity|]. bcases; symmetry.
    + apply Z.sgn_pos. nia.
    + apply Z.sgn_neg. nia.
Qed.
