(* ===== verification/C68kMont.v ===== *)
(** * Montgomery arithmetic (src/src/crypto68k/c68k_mont.c)

    Schoolbook and Karatsuba products and squares, and the separated Montgomery
    reduction, over the limb memory.  [kl] stands for the variable
    [c68k_karatsuba_limbs].  The recursion of the Karatsuba split halves the width;
    it is run with a fuel, and a fuel of the width is always enough. *)

From Stdlib Require Import ZArith Lia Znumtheory.
From stdpp Require Import base numbers list.
From S2P Require Import Prelude.
From S2P Require Import Limbs.
From S2P Require Import C68kPrim.

(** ** The code *)

Definition c68k_mont_n0inv (m0 : Z) : Z :=
  u32 (0 - Nat.iter 5 (fun inv => inv *w (2 -w (m0 *w inv))) m0).

Definition c68k_zero_n (m : list Z) (p n : Z) : outcome (list Z) :=
  let! (_, m) := loop1 (fun (_ : unit) _ => (tt, 0)) (Z.to_nat n) m p p tt in Val m.

Definition c68k_copy_n (m : list Z) (dst src n : Z) : outcome (list Z) :=
  let! (_, m) := loop1 (fun (_ : unit) x => (tt, x)) (Z.to_nat n) m dst src tt in Val m.

Definition c68k_mont_final (m : list Z) (out high md m_len : Z) : outcome (list Z) :=
  let! top := ld m (high + m_len) in
  let! big := (if negb (top =? 0) then Val true
               else let! c := c68k_cmp m high md m_len in Val (0 <=? c)) in
  let! m := (if (big : bool) then let! (_, m) := c68k_sub m high md m_len in Val m else Val m) in
  c68k_copy_n m out high m_len.

(** [while ((carry != 0) && (j <= top))], with [k] limbs up to [top]. *)
Fixpoint carry_up (k : nat) (m : list Z) (p carry : Z) : outcome (list Z) :=
  if carry =? 0 then Val m
  else match k with
  | O => Val m
  | S k' =>
      let! x := ld m p in
      let sum := x +w carry in
      let carry := if sum <? carry then 1 else 0 in
      let! m := st m p sum in
      carry_up k' m (p + 1) carry
  end.

(** [for (i = 0; i < m_len; i++)], with [n] rows left; [ti] is [&t[i]], and there are
    [n + 1] limbs from [t[i + m_len]] to [t[top]]. *)
Fixpoint reduce_from (n : nat) (m : list Z) (ti md m_len n0inv : Z) : outcome (list Z) :=
  match n with
  | O => Val m
  | S n' =>
      let! x := ld m ti in
      let u := x *w n0inv in
      let! (carry, m) := c68k_addmul_1 m ti md m_len u in
      let! m := carry_up (S n) m (ti + m_len) carry in
      reduce_from n' m (ti + 1) md m_len n0inv
  end.

Definition c68k_mont_reduce (m : list Z) (t md m_len n0inv : Z) : outcome (list Z) :=
  reduce_from (Z.to_nat m_len) m t md m_len n0inv.

(** Schoolbook product: [ti] is [&t[i]], [xi] is [&x[i]]. *)
Fixpoint school_from (k : nat) (m : list Z) (ti xi y n : Z) : outcome (list Z) :=
  match k with
  | O => Val m
  | S k' =>
      let! a := ld m xi in
      let! (carry, m) := c68k_addmul_1 m ti y n a in
      let! m := st m (ti + n) carry in
      school_from k' m (ti + 1) (xi + 1) y n
  end.

Definition c68k_mul_school (m : list Z) (t x y n : Z) : outcome (list Z) :=
  let! m := c68k_zero_n m t n in
  school_from (Z.to_nat n) m t x y n.

(** The rows of the squarer; [i] is [n - k]. *)
Fixpoint sqr_rows (k : nat) (m : list Z) (t x n i : Z) : outcome (list Z) :=
  match k with
  | O => Val m
  | S k' =>
      let! a := ld m (x + i) in
      let! (carry, m) := c68k_addmul_1 m (t + (2 * i + 1)) (x + (i + 1)) (n - i - 1) a in
      let! m := st m (t + (i + n)) carry in
      sqr_rows k' m t x n (i + 1)
  end.

(** [for (i = total - 1; i > 0; i--)] and the line after it. *)
Fixpoint sqr_double (i : nat) (m : list Z) (t : Z) : outcome (list Z) :=
  match i with
  | O => let! x := ld m t in st m t (x <<w 1)
  | S i' =>
      let! x := ld m (t + Z.of_nat i) in
      let! y := ld m (t + Z.of_nat i') in
      let! m := st m (t + Z.of_nat i) (Z.lor (x <<w 1) (Z.shiftr y 31)) in
      sqr_double i' m t
  end.

(** The diagonal; [ti] is [&t[i << 1]], [xi] is [&x[i]]. *)
Fixpoint sqr_diag (k : nat) (m : list Z) (ti xi product : Z) : outcome (list Z) :=
  match k with
  | O => Val m
  | S k' =>
      let! lo := ld m ti in
      let! a := ld m xi in
      let product := u64 (u64 (Z.shiftr product 32 + lo) + u64 (a * a)) in
      let! m := st m ti (u32 product) in
      let! hi := ld m (ti + 1) in
      let product := u64 (Z.shiftr product 32 + hi) in
      let! m := st m (ti + 1) (u32 product) in
      sqr_diag k' m (ti + 2) (xi + 1) product
  end.

(** [n] is not zero: the doubling counts down from [2 * n - 1]. *)
Definition c68k_sqr (m : list Z) (t x n : Z) : outcome (list Z) :=
  let! m := c68k_zero_n m t (2 * n) in
  let! m := sqr_rows (Z.to_nat n) m t x n 0 in
  let! m := sqr_double (Z.to_nat (2 * n - 1)) m t in
  sqr_diag (Z.to_nat n) m t x 0.

(** Odd and small widths are not split. *)
Definition unsplit (kl n : Z) : bool := (n <? kl) || (n <? 2) || negb (Z.land n 1 =? 0).

(** [t[h .. h+n] += mid], and the carry above it. *)
Definition kar_join (m : list Z) (t mid h n : Z) : outcome (list Z) :=
  let! (carry, m) := c68k_add m (t + h) mid (n + 1) in
  if negb (carry =? 0) then
    let! (_, m) := c68k_add_carry m (t + (h + n + 1)) (t + (h + n + 1)) (2 * n - (h + n + 1)) carry in
    Val m
  else Val m.

(** [p[n] = f(p[n])]. *)
Definition upd (m : list Z) (p : Z) (f : Z -> Z) : outcome (list Z) :=
  let! x := ld m p in st m p (f x).

(** [mid = L + H - u], and [t += mid * B^h]. *)
Definition sqr_combine (m : list Z) (t u mid h n : Z) : outcome (list Z) :=
  let! m := c68k_copy_n m mid t n in
  let! (carry, m) := c68k_add m mid (t + n) n in
  let! m := st m (mid + n) carry in
  let! (borrow, m) := c68k_sub m mid u n in
  let! m := upd m (mid + n) (fun v => v -w borrow) in
  kar_join m t mid h n.

Fixpoint c68k_sqr_n (fuel : nat) (kl : Z) (m : list Z) (t x n s : Z) : outcome (list Z) :=
  if unsplit kl n then c68k_sqr m t x n
  else match fuel with
  | O => Spin
  | S fuel' =>
      let h := Z.shiftr n 1 in
      let d := s in
      let u := d + h in
      let mid := u + n in
      let sub := mid + n + 1 in
      let! c := c68k_cmp m (x + h) x h in
      let! m := (if 0 <=? c
                 then let! m := c68k_copy_n m d (x + h) h in
                      let! (_, m) := c68k_sub m d x h in Val m
                 else let! m := c68k_copy_n m d x h in
                      let! (_, m) := c68k_sub m d (x + h) h in Val m) in
      let! m := c68k_sqr_n fuel' kl m t x h sub in
      let! m := c68k_sqr_n fuel' kl m (t + n) (x + h) h sub in
      let! m := c68k_sqr_n fuel' kl m u d h sub in
      sqr_combine m t u mid h n
  end.

(** [if (c != 0) p[n] += c68k_add(&p[h], b, h)]: the sum is evaluated with the value
    of [p[n]] that the addition leaves, which it does not touch. *)
Definition kar_cross (m : list Z) (c p b h n : Z) : outcome (list Z) :=
  if negb (c =? 0) then
    let! (carry, m) := c68k_add m (p + h) b h in
    upd m (p + n) (fun v => v +w carry)
  else Val m.

(** The carries of the half sums go into the middle product. *)
Definition mul_carries (m : list Z) (a b p h n cx cy : Z) : outcome (list Z) :=
  let! m := st m (p + n) 0 in
  let! m := kar_cross m cx p b h n in
  let! m := kar_cross m cy p a h n in
  if negb (cx =? 0) && negb (cy =? 0) then upd m (p + n) (fun v => v +w 1) else Val m.

(** [p -= z0 + z2], and [t += p * B^h]. *)
Definition mul_combine (m : list Z) (t p h n : Z) : outcome (list Z) :=
  let! (borrow, m) := c68k_sub m p t n in
  let! m := upd m (p + n) (fun v => v -w borrow) in
  let! (borrow, m) := c68k_sub m p (t + n) n in
  let! m := upd m (p + n) (fun v => v -w borrow) in
  kar_join m t p h n.

Fixpoint c68k_mul_n (fuel : nat) (kl : Z) (m : list Z) (t x y n s : Z) : outcome (list Z) :=
  if unsplit kl n then c68k_mul_school m t x y n
  else match fuel with
  | O => Spin
  | S fuel' =>
      let h := Z.shiftr n 1 in
      let a := s in
      let b := a + h in
      let p := b + h in
      let sub := p + n + 1 in
      let! m := c68k_copy_n m a x h in
      let! (cx, m) := c68k_add m a (x + h) h in
      let! m := c68k_copy_n m b y h in
      let! (cy, m) := c68k_add m b (y + h) h in
      let! m := c68k_mul_n fuel' kl m t x y h sub in
      let! m := c68k_mul_n fuel' kl m (t + n) (x + h) (y + h) h sub in
      let! m := c68k_mul_n fuel' kl m p a b h sub in
      let! m := mul_carries m a b p h n cx cy in
      mul_combine m t p h n
  end.

(** [t] is [work]. *)
Definition c68k_mont_mul (kl : Z) (m : list Z) (r x y md m_len n0inv work : Z) : outcome (list Z) :=
  if m_len =? 0 then Val m
  else
    let total := 2 * m_len in
    let! m := c68k_mul_n (Z.to_nat m_len) kl m work x y m_len (work + total + 1) in
    let! m := st m (work + total) 0 in
    let! m := c68k_mont_reduce m work md m_len n0inv in
    c68k_mont_final m r (work + m_len) md m_len.

Definition c68k_mont_sqr (kl : Z) (m : list Z) (r x md m_len n0inv work : Z) : outcome (list Z) :=
  if m_len =? 0 then Val m
  else
    let! m := c68k_sqr_n (Z.to_nat m_len) kl m work x m_len (work + 2 * m_len + 1) in
    let! m := st m (work + 2 * m_len) 0 in
    let! m := c68k_mont_reduce m work md m_len n0inv in
    c68k_mont_final m r (work + m_len) md m_len.

(** ** Steps with their frames

    [advance K] carries every value known of the memory before a step over to the
    memory after it, when its area is apart from what the step wrote; a value that
    was overwritten is kept under [stale]. *)

Definition stale (P : Prop) : Prop := P.

Ltac advance K :=
  match type of K with
  | keeps ?R ?m ?m' =>
      let L := fresh "L" in
      pose proof (proj1 K) as L;
      repeat match goal with
      | H : lv m ?p ?n = ?v |- _ =>
          first [ let H' := fresh in
                  assert (H' : lv m' p n = v)
                    by (rewrite (keeps_lv R m m' p n K) by areas_only; exact H);
                  clear H; rename H' into H
                | change (stale (lv m p n = v)) in H ]
      end
  end.

(** [run lemma] rewrites the next call of the goal with its specification. *)
Ltac run E := rewrite E; cbn [obind].

Lemma zero_n_spec m p n :
  mem_ok m -> span m p n ->
  exists m', c68k_zero_n m p n = Val m' /\ keeps [(p, n)] m m' /\ mem_ok m' /\ lv m' p n = 0.
Proof.
  intros Hm Hp. unfold c68k_zero_n. rewrite loop1_spec by (done || lia).
  assert (Hz : forall l, (map1 (fun (_ : unit) (_ : Z) => (tt, 0)) tt l).2 = replicate (length l) 0).
  { induction l as [|x l IH]; [done|]. cbn [map1 length replicate]. by destruct (map1 _ tt l); simpl in *; subst. }
  rewrite Hz. destruct (slices_length m p p n Hp Hp) as [L _]. cbn [obind].
  destruct (splice_result m p (replicate (length (slice m p n)) 0) n) as (K & O & V);
    [by rewrite length_replicate|done|done|by apply Forall_replicate; word_lia|].
  eexists. split; [reflexivity|]. split_and!; [done|done|]. by rewrite V, val_replicate.
Qed.

Lemma copy_n_spec m dst src n :
  mem_ok m -> span m dst n -> span m src n -> dst <= src \/ src + n <= dst ->
  exists m', c68k_copy_n m dst src n = Val m' /\ keeps [(dst, n)] m m' /\ mem_ok m' /\
    slice m' dst n = slice m src n.
Proof.
  intros Hm Hd Hs Hal. unfold c68k_copy_n. rewrite loop1_spec by done.
  assert (Hz : forall l, (map1 (fun (_ : unit) (x : Z) => (tt, x)) tt l).2 = l).
  { induction l as [|x l IH]; [done|]. cbn [map1]. by destruct (map1 _ tt l); simpl in *; subst. }
  rewrite Hz. destruct (slices_length m src src n Hs Hs) as [L _]. cbn [obind].
  destruct (splice_result m dst (slice m src n) n) as (K & O & V); [done|done|done|by apply mem_ok_slice|].
  eexists. split; [reflexivity|]. split_and!; [done|done|]. rewrite <- L at 2.
  apply slice_splice_same; [apply Hd|rewrite L; apply Hd].
Qed.

(** ** The inverse of the low limb *)

Lemma newton_step m0 inv k :
  0 <= k -> (2 ^ k | 1 - m0 * inv) ->
  (2 ^ Z.min (2 * k) 32 | 1 - m0 * (inv *w (2 -w (m0 *w inv)))).
Proof.
  intros Hk [e He].
  assert (Hw : forall z, exists q, u32 z = z + 2 ^ 32 * q).
  { intros z. exists (- (z / 2 ^ 32)). word_lia. }
  destruct (Hw (m0 * inv)) as [q1 E1]. rewrite E1.
  destruct (Hw (2 - (m0 * inv + 2 ^ 32 * q1))) as [q2 E2]. rewrite E2.
  destruct (Hw (inv * (2 - (m0 * inv + 2 ^ 32 * q1) + 2 ^ 32 * q2))) as [q3 E3]. rewrite E3.
  replace (1 - m0 * (inv * (2 - (m0 * inv + 2 ^ 32 * q1) + 2 ^ 32 * q2) + 2 ^ 32 * q3))
    with ((1 - m0 * inv) * (1 - m0 * inv) + 2 ^ 32 * (m0 * inv * (q1 - q2) - m0 * q3)) by ring.
  assert (D : forall j, 0 <= j -> Z.min (2 * k) 32 <= j -> (2 ^ Z.min (2 * k) 32 | 2 ^ j)).
  { intros j Hj Hle. exists (2 ^ (j - Z.min (2 * k) 32)). rewrite <- Z.pow_add_r by lia. f_equal. lia. }
  apply Z.divide_add_r; [|apply Z.divide_mul_l, D; lia].
  rewrite He. replace (e * 2 ^ k * (e * 2 ^ k)) with (e * e * 2 ^ (2 * k)).
  - apply Z.divide_mul_r, D; lia.
  - replace (2 * k) with (k + k) by lia. rewrite Z.pow_add_r by lia. ring.
Qed.

Lemma newton_iter m0 j :
  (2 ^ 3 | 1 - m0 * m0) ->
  (2 ^ Z.min (3 * 2 ^ Z.of_nat j) 32 | 1 - m0 * Nat.iter j (fun inv => inv *w (2 -w (m0 *w inv))) m0).
Proof.
  intros H0. induction j as [|j IH]; [done|].
  apply (newton_step m0) in IH; [|lia]. rewrite Nat2Z.inj_succ, Z.pow_succ_r by lia.
  replace (Z.min (3 * (2 * 2 ^ Z.of_nat j)) 32) with (Z.min (2 * Z.min (3 * 2 ^ Z.of_nat j) 32) 32) by lia.
  exact IH.
Qed.

Lemma n0inv_spec m0 :
  Z.odd m0 = true -> is_u32 (c68k_mont_n0inv m0) /\ (m0 * c68k_mont_n0inv m0 + 1) mod 2 ^ 32 = 0.
Proof.
  intros Hodd. split; [apply u32_range|]. unfold c68k_mont_n0inv.
  assert (H0 : (2 ^ 3 | 1 - m0 * m0)).
  { apply Z.odd_spec in Hodd as [k ->].
    assert (Hk : (2 | k * (k + 1))).
    { destruct (Z.Even_or_Odd k) as [[j ->]|[j ->]]; [exists (j * (2 * j + 1))|exists ((2 * j + 1) * (j + 1))]; ring. }
    destruct Hk as [j Hj]. exists (- j). change (2 ^ 3) with 8.
    replace (1 - (2 * k + 1) * (2 * k + 1)) with (- 4 * (k * (k + 1))) by ring. lia. }
  apply (newton_iter m0 5) in H0. set (inv := Nat.iter 5 _ m0) in *.
  change (2 ^ 32 | 1 - m0 * inv) in H0. destruct H0 as [e He].
  apply Z.mod_divide; [lia|]. exists (e + m0 * (- ((0 - inv) / 2 ^ 32))).
  unfold u32. rewrite Z.mod_eq by lia. lia.
Qed.

(** ** Reduction *)

Lemma carry_up_spec k : forall m p carry,
  mem_ok m -> span m p (Z.of_nat k) -> is_u32 carry ->
  exists m' c, carry_up k m p carry = Val m' /\ keeps [(p, Z.of_nat k)] m m' /\ mem_ok m' /\ 0 <= c /\
    lv m' p (Z.of_nat k) + W (Z.of_nat k) * c = lv m p (Z.of_nat k) + carry.
Proof.
  induction k as [|k IH]; intros m p carry Hm Hp Hc.
  { exists m, carry. cbn [carry_up]. rewrite !lv_0. change (W (Z.of_nat 0)) with 1.
    assert ((if carry =? 0 then Val m else Val m) = Val m) as -> by by case_match.
    split_and!; [done|apply keeps_refl|done|word_lia|lia]. }
  cbn [carry_up]. destruct (Z.eqb_spec carry 0) as [->|Hn].
  { exists m, 0. split_and!; [done|apply keeps_refl|done|lia|lia]. }
  replace (Z.of_nat (S k)) with (1 + Z.of_nat k) in * by lia.
  rewrite ld_val by areas. cbn [obind]. set (x := lv m p 1).
  pose proof (lv_range m p 1 Hm ltac:(areas)) as Hx. fold x in Hx. rewrite W_1 in Hx.
  destruct (st_val m p (x +w carry)) as (m1 & E1 & K1 & O1 & V1); [areas|done|apply u32_range|].
  run E1. pose proof (proj1 K1) as L1.
  destruct (IH m1 (p + 1) (if (x +w carry) <? carry then 1 else 0)) as (m' & c & E & K & O & Hc0 & V);
    [done|areas|case_match; word_lia|].
  exists m', c. split; [done|]. split_and!; [|done|done|].
  { eapply keeps_trans; (eapply keeps_within; [eassumption|areas]). }
  rewrite !(lv_app _ p 1 (Z.of_nat k)) by (pose proof (proj1 K); areas).
  rewrite (keeps_lv _ _ _ p 1 K), V1 by areas.
  rewrite (keeps_lv _ _ _ (p + 1) _ K1) in V by areas. fold x. rewrite (W_add 1), W_1 by lia.
  apply (f_equal (Z.mul (2 ^ 32))) in V.
  assert ((x +w carry) + 2 ^ 32 * (if (x +w carry) <? carry then 1 else 0) = x + carry) by (bcases; word_lia).
  lia.
Qed.

(** A row makes the low limb zero and adds a multiple of the modulus; [k] rows divide
    by the weight of [k] limbs. *)
Lemma reduce_from_spec k : forall m ti md ml n0inv,
  mem_ok m -> 1 <= ml -> span m ti (ml + Z.of_nat k + 1) -> span m md ml ->
  apart md ml (ti, ml + Z.of_nat k + 1) -> is_u32 n0inv -> (lv m md ml * n0inv + 1) mod 2 ^ 32 = 0 ->
  lv m ti (ml + Z.of_nat k + 1) + (W (Z.of_nat k) - 1) * lv m md ml < W (ml + Z.of_nat k + 1) ->
  exists m' q, reduce_from k m ti md ml n0inv = Val m' /\ keeps [(ti, ml + Z.of_nat k + 1)] m m' /\
    mem_ok m' /\ 0 <= q < W (Z.of_nat k) /\
    W (Z.of_nat k) * lv m' (ti + Z.of_nat k) (ml + 1) = lv m ti (ml + Z.of_nat k + 1) + q * lv m md ml.
Proof.
  induction k as [|k IH]; intros m ti md ml n0inv Hm Hml Ht Hmd Hap Hn Hinv Hlt.
  { exists m, 0. cbn [reduce_from]. change (W (Z.of_nat 0)) with 1 in *.
    replace (ml + Z.of_nat 0 + 1) with (ml + 1) in * by lia. replace (ti + Z.of_nat 0) with ti by lia.
    split_and!; [done|apply keeps_refl|done|lia..]. }
  set (K := Z.of_nat k) in *. assert (HK : 0 <= K) by lia.
  assert (EK : Z.of_nat (S k) = K + 1) by lia. rewrite !EK in *. unfold apart in Hap. cbn [fst snd] in Hap.
  cbn [reduce_from]. rewrite ld_val by areas. cbn [obind].
  set (M := lv m md ml) in *. set (V := lv m ti (ml + (K + 1) + 1)) in *. set (x := lv m ti 1).
  pose proof (lv_range m ti 1 Hm ltac:(areas)) as Hx. fold x in Hx. rewrite W_1 in Hx.
  pose proof (lv_range m md ml Hm ltac:(areas)) as HM. fold M in HM.
  set (u := x *w n0inv). assert (Hu : is_u32 u) by apply u32_range.
  destruct (addmul_1_spec m ti md ml u) as (c & m1 & E1 & K1 & O1 & Hc & V1); try done; [areas|lia|].
  run E1. pose proof (proj1 K1) as L1. fold M in V1.
  destruct (carry_up_spec (S (S k)) m1 (ti + ml) c) as (m2 & c2 & E2 & K2 & O2 & Hc2 & V2); [done|areas|done|].
  run E2. pose proof (proj1 K2) as L2.
  replace (Z.of_nat (S (S k))) with (K + 2) in * by lia.
  rewrite (keeps_lv _ _ _ (ti + ml) _ K1) in V2 by areas.
  assert (E0 : lv m2 ti ml = lv m1 ti ml) by (apply (keeps_lv _ _ _ _ _ K2); areas).
  assert (EV : V = lv m ti ml + W ml * lv m (ti + ml) (K + 2)).
  { unfold V. replace (ml + (K + 1) + 1) with (ml + (K + 2)) by lia. apply lv_app; areas. }
  assert (EV2 : lv m2 ti (ml + (K + 1) + 1) = lv m1 ti ml + W ml * lv m2 (ti + ml) (K + 2)).
  { replace (ml + (K + 1) + 1) with (ml + (K + 2)) by lia. rewrite lv_app by areas. by rewrite E0. }
  assert (EW : W (ml + (K + 1) + 1) = W ml * W (K + 2)).
  { replace (ml + (K + 1) + 1) with (ml + (K + 2)) by lia. apply W_add; lia. }
  pose proof (W_pos ml ltac:(lia)). pose proof (W_pos (K + 2) ltac:(lia)). pose proof (W_pos K HK) as HWK.
  assert (Etot : lv m2 ti (ml + (K + 1) + 1) + W (ml + (K + 1) + 1) * c2 = V + u * M).
  { rewrite EV2, EV, EW. apply (f_equal (Z.mul (W ml))) in V2. lia. }
  pose proof (lv_range m2 ti (ml + (K + 1) + 1) O2 ltac:(areas)) as HV2.
  assert (EWK : W (K + 1) = 2 ^ 32 * W K) by (apply W_S; lia).
  assert (c2 = 0).
  { assert (u * M <= (W (K + 1) - 1) * M) by (apply Z.mul_le_mono_nonneg_r; [lia|rewrite EWK; word_lia]). nia. }
  subst c2. rewrite Z.mul_0_r, Z.add_0_r in Etot.
  assert (Elow : lv m2 ti (ml + (K + 1) + 1) = 2 ^ 32 * lv m2 (ti + 1) (ml + K + 1)).
  { assert (H1 : lv m2 ti (ml + (K + 1) + 1) = lv m2 ti 1 + 2 ^ 32 * lv m2 (ti + 1) (ml + K + 1)).
    { replace (ml + (K + 1) + 1) with (1 + (ml + K + 1)) by lia. rewrite lv_app by areas. by rewrite W_1. }
    assert (H2 : V = x + 2 ^ 32 * lv m (ti + 1) (ml + K + 1)).
    { unfold V, x. replace (ml + (K + 1) + 1) with (1 + (ml + K + 1)) by lia. rewrite lv_app by areas. by rewrite W_1. }
    pose proof (lv_range m2 ti 1 O2 ltac:(areas)) as Hy. rewrite W_1 in Hy.
    assert (H3 : (x + u * M) mod 2 ^ 32 = 0).
    { apply Z.mod_divide in Hinv as [e He]; [|lia]. apply Z.mod_divide; [lia|].
      exists (x * e - M * (x * n0inv / 2 ^ 32)). unfold u, u32. rewrite Z.mod_eq by lia.
      replace (x + (x * n0inv - 2 ^ 32 * (x * n0inv / 2 ^ 32)) * M)
        with (x * (M * n0inv + 1) - M * (x * n0inv / 2 ^ 32) * 2 ^ 32) by ring. rewrite He. ring. }
    assert (H4 : lv m2 ti 1 = (x + u * M) mod 2 ^ 32).
    { apply (Z.mod_unique _ _ (lv m2 (ti + 1) (ml + K + 1) - lv m (ti + 1) (ml + K + 1))); lia. }
    lia. }
  destruct (IH m2 (ti + 1) md ml n0inv) as (m3 & q & E3 & K3 & O3 & Hq & V3); try done; try areas.
  { rewrite (keeps_lv _ _ _ md ml K2), (keeps_lv _ _ _ md ml K1) by areas. done. }
  { rewrite (keeps_lv _ _ _ md ml K2), (keeps_lv _ _ _ md ml K1) by areas. fold M.
    assert (EW' : W (ml + (K + 1) + 1) = 2 ^ 32 * W (ml + K + 1))
      by (rewrite <- W_S by lia; f_equal; lia). rewrite EW' in Hlt. rewrite EWK in Hlt.
    assert (u * M <= (2 ^ 32 - 1) * M) by (apply Z.mul_le_mono_nonneg_r; word_lia). nia. }
  rewrite (keeps_lv _ _ _ md ml K2), (keeps_lv _ _ _ md ml K1) in V3 by areas. fold M in V3.
  exists m3, (u + 2 ^ 32 * q). fold K. split; [done|]. split_and!; try done.
  - eapply keeps_trans; [|eapply keeps_trans]; (eapply keeps_within; [eassumption|areas]).
  - word_lia.
  - rewrite EWK. word_lia.
  - replace (ti + (K + 1)) with (ti + 1 + K) by lia. rewrite EWK. fold K in V3.
    apply (f_equal (Z.mul (2 ^ 32))) in V3. lia.
Qed.

(** The reduction of [T < M * R] leaves [(T + q * M) / R] in the high limbs. *)
Lemma mont_reduce_spec m t md ml n0inv :
  mem_ok m -> 1 <= ml -> span m t (2 * ml + 1) -> span m md ml -> apart md ml (t, 2 * ml + 1) ->
  is_u32 n0inv -> (lv m md ml * n0inv + 1) mod 2 ^ 32 = 0 ->
  lv m t (2 * ml + 1) < lv m md ml * W ml ->
  exists m' q, c68k_mont_reduce m t md ml n0inv = Val m' /\ keeps [(t, 2 * ml + 1)] m m' /\ mem_ok m' /\
    0 <= q < W ml /\ W ml * lv m' (t + ml) (ml + 1) = lv m t (2 * ml + 1) + q * lv m md ml.
Proof.
  intros Hm Hml Ht Hmd Hap Hn Hinv Hlt. unfold c68k_mont_reduce.
  destruct (reduce_from_spec (Z.to_nat ml) m t md ml n0inv) as (m' & q & H);
    rewrite ?Z2Nat.id in * by lia; replace (ml + ml + 1) with (2 * ml + 1) in * by lia; try done.
  - pose proof (lv_range m md ml Hm Hmd). pose proof (W_pos ml ltac:(lia)).
    replace (2 * ml + 1) with (1 + (ml + ml)) by lia. rewrite !W_add, W_1 by lia.
    replace (1 + (ml + ml)) with (2 * ml + 1) by lia. nia.
  - by exists m', q.
Qed.

(** One conditional subtraction brings a value below [2 * M] below [M]. *)
Lemma mont_final_spec m out high md ml :
  mem_ok m -> 0 <= ml -> span m high (ml + 1) -> span m md ml -> span m out ml ->
  apart md ml (high, ml + 1) -> apart out ml (high, ml + 1) ->
  lv m high (ml + 1) < 2 * lv m md ml ->
  exists m', c68k_mont_final m out high md ml = Val m' /\ keeps [(high, ml); (out, ml)] m m' /\ mem_ok m' /\
    lv m' out ml = lv m high (ml + 1) - (if lv m md ml <=? lv m high (ml + 1) then lv m md ml else 0).
Proof.
  intros Hm Hml Hh Hmd Ho A1 A2 Hlt. unfold apart in A1, A2. cbn [fst snd] in *. unfold c68k_mont_final.
  rewrite ld_val by areas. cbn [obind]. rewrite (lv_app m high ml 1) in * by areas.
  set (top := lv m (high + ml) 1) in *. set (lo := lv m high ml) in *. set (M := lv m md ml) in *.
  pose proof (lv_range m high ml Hm ltac:(areas)) as R1. pose proof (lv_range m md ml Hm ltac:(areas)) as R2.
  pose proof (lv_range m (high + ml) 1 Hm ltac:(areas)) as R3. fold lo in R1. fold M in R2. fold top in R3.
  pose proof (W_pos ml Hml).
  destruct (cmp_spec m high md ml) as (c & Ec & Hc); [done|areas|areas|]. fold lo M in Hc.
  assert (Hbig : (if negb (top =? 0) then Val true
                  else let! c := c68k_cmp m high md ml in Val (0 <=? c)) = Val (M <=? lo + W ml * top)).
  { destruct (Z.eqb_spec top 0) as [E0|E0]; cbn [negb].
    - run Ec. rewrite E0, Z.mul_0_r, Z.add_0_r. f_equal. subst c.
      destruct (Z.leb_spec M lo); [apply Z.leb_le|apply Z.leb_gt]; lia.
    - f_equal. symmetry. apply Z.leb_le. nia. }
  run Hbig. destruct (Z.leb_spec M (lo + W ml * top)) as [Hge|Hlo].
  - destruct (sub_spec m high md ml) as (b & m1 & E1 & K1 & O1 & Hb & V1); [done|areas|areas|lia|].
    run E1. pose proof (proj1 K1).
    destruct (copy_n_spec m1 out high ml) as (m2 & E2 & K2 & O2 & V2); [done|areas|areas|lia|].
    exists m2. split; [done|]. split_and!; [|done|].
    + eapply keeps_trans; (eapply keeps_within; [eassumption|areas]).
    + unfold lv at 1. rewrite V2. fold (lv m1 high ml).
      pose proof (lv_range m1 high ml O1 ltac:(areas)). fold lo M in V1.
      assert (- W ml < W ml * (b - top) < W ml) by lia. assert (b = top) by nia. subst b. lia.
  - cbn [obind]. destruct (copy_n_spec m out high ml) as (m2 & E2 & K2 & O2 & V2); [done|areas|areas|lia|].
    exists m2. split; [done|]. split_and!; [eapply keeps_within; [eassumption|areas]|done|].
    unfold lv at 1. rewrite V2. fold (lv m high ml). fold lo. assert (top = 0) by nia. nia.
Qed.
