(* ===== verification/C68kMul.v ===== *)
(** * Products and squares of limb numbers

    What the schoolbook and Karatsuba routines of c68k_mont.c compute: the product
    and the square, for every width and every split threshold, inside the result
    area and six limbs of scratch per limb of width. *)

From Stdlib Require Import ZArith Lia.
From stdpp Require Import base numbers list.
From S2P Require Import Prelude.
From S2P Require Import Limbs.
From S2P Require Import C68kPrim.
From S2P Require Import C68kMont.

(** ** Schoolbook product *)

Lemma school_from_spec k : forall m ti xi y n,
  mem_ok m -> 1 <= n -> span m ti (n + Z.of_nat k) -> span m xi (Z.of_nat k) -> span m y n ->
  apart xi (Z.of_nat k) (ti, n + Z.of_nat k) -> apart y n (ti, n + Z.of_nat k) ->
  exists m', school_from k m ti xi y n = Val m' /\ keeps [(ti, n + Z.of_nat k)] m m' /\ mem_ok m' /\
    lv m' ti (n + Z.of_nat k) = lv m ti n + lv m xi (Z.of_nat k) * lv m y n.
Proof.
  induction k as [|k IH]; intros m ti xi y n Hm Hn Ht Hx Hy A1 A2.
  { exists m. replace (n + Z.of_nat 0) with n by lia. rewrite lv_0.
    split_and!; [done|apply keeps_refl|done|lia]. }
  set (K := Z.of_nat k) in *. assert (EK : Z.of_nat (S k) = K + 1) by lia. rewrite !EK in *.
  assert (HK : 0 <= K) by lia. unfold apart in A1, A2. cbn [fst snd] in *.
  cbn [school_from]. rewrite ld_val by areas. cbn [obind].
  pose proof (lv_range m xi 1 Hm ltac:(areas)) as Ha. rewrite W_1 in Ha.
  set (a := lv m xi 1) in *. set (Y := lv m y n) in *.
  destruct (addmul_1_spec m ti y n a) as (c & m1 & E1 & K1 & O1 & Hc & V1); [done|areas|areas|lia|word_lia|].
  run E1. pose proof (proj1 K1). fold Y in V1.
  destruct (st_val m1 (ti + n) c) as (m2 & E2 & K2 & O2 & V2); [areas|done|done|].
  run E2. pose proof (proj1 K2).
  assert (Ex : lv m2 (xi + 1) K = lv m (xi + 1) K)
    by (rewrite (keeps_lv _ _ _ _ _ K2), (keeps_lv _ _ _ _ _ K1) by areas; done).
  assert (Ey : lv m2 y n = Y) by (rewrite (keeps_lv _ _ _ _ _ K2), (keeps_lv _ _ _ _ _ K1) by areas; done).
  assert (Et : lv m2 ti (n + 1) = lv m ti n + a * Y).
  { rewrite lv_app by areas. rewrite V2, (keeps_lv _ _ _ ti n K2) by areas. lia. }
  replace (n + 1) with (1 + n) in Et by lia. rewrite lv_app, W_1 in Et by areas.
  destruct (IH m2 (ti + 1) (xi + 1) y n) as (m3 & E3 & K3 & O3 & V3); try done; try areas.
  exists m3. split; [done|]. split_and!; [|done|].
  { eapply keeps_trans; [|eapply keeps_trans]; (eapply keeps_within; [eassumption|areas]). }
  pose proof (proj1 K3). fold K in V3. rewrite Ex, Ey in V3.
  replace (n + (K + 1)) with (1 + (n + K)) by lia. rewrite lv_app, W_1 by areas.
  replace (K + 1) with (1 + K) by lia. rewrite (lv_app m xi 1 K), W_1 by areas.
  rewrite (keeps_lv _ _ _ ti 1 K3) by areas. fold a. fold Y.
  apply (f_equal (Z.mul (2 ^ 32))) in V3. lia.
Qed.

Lemma mul_school_spec m t x y n :
  mem_ok m -> 0 <= n -> span m t (2 * n) -> span m x n -> span m y n ->
  apart x n (t, 2 * n) -> apart y n (t, 2 * n) ->
  exists m', c68k_mul_school m t x y n = Val m' /\ keeps [(t, 2 * n)] m m' /\ mem_ok m' /\
    lv m' t (2 * n) = lv m x n * lv m y n.
Proof.
  intros Hm Hn Ht Hx Hy A1 A2. unfold apart in A1, A2. cbn [fst snd] in *. unfold c68k_mul_school.
  destruct (zero_n_spec m t n) as (m1 & E1 & K1 & O1 & V1); [done|areas|]. run E1. pose proof (proj1 K1).
  destruct (Z.eq_dec n 0) as [->|Hn0].
  { exists m1. rewrite !lv_0. split_and!; [done|eapply keeps_within; [eassumption|areas]|done|done]. }
  destruct (school_from_spec (Z.to_nat n) m1 t x y n) as (m2 & E2 & K2 & O2 & V2);
    rewrite ?Z2Nat.id in * by lia; replace (n + n) with (2 * n) in * by lia; try done; try areas.
  exists m2. split; [done|]. split_and!; [|done|].
  - eapply keeps_trans; (eapply keeps_within; [eassumption|areas]).
  - rewrite V2, V1, (keeps_lv _ _ _ x n K1), (keeps_lv _ _ _ y n K1) by areas. lia.
Qed.

(** ** Schoolbook square

    [tri] is the sum of the products off the diagonal, each once; [diag] that of the
    squares. *)

Fixpoint tri (l : list Z) : Z :=
  match l with
  | [] => 0
  | x :: r => 2 ^ 32 * x * val r + 2 ^ 64 * tri r
  end.
Fixpoint diag (l : list Z) : Z :=
  match l with
  | [] => 0
  | x :: r => x * x + 2 ^ 64 * diag r
  end.

Lemma tri_diag l : 2 * tri l + diag l = val l * val l.
Proof. induction l as [|x l IH]; cbn [tri diag val]; [done|]. change (2 ^ 64) with (2 ^ 32 * 2 ^ 32). nia. Qed.

Lemma tri_diag_nonneg l : mem_ok l -> 0 <= tri l /\ 0 <= diag l.
Proof.
  induction 1 as [|x l Hx Hl IH]; cbn [tri diag]; [done|]. pose proof (val_range l Hl). unfold is_u32 in *. nia.
Qed.

(** The number of the limbs from [i] on, and of those after [i]. *)
Lemma slice_head m p n :
  span m p n -> 0 < n -> slice m p n = lv m p 1 :: slice m (p + 1) (n - 1).
Proof.
  intros (H1 & H2 & H3) Hn. destruct (fetch_val m p) as (x & _ & Hx); [lia|].
  replace n with (n - 1 + 1) at 1 by lia. rewrite (slice_cons m p (n - 1) x) by (done || lia).
  by rewrite (lv_1 m p x).
Qed.

Lemma sqr_rows_spec k : forall m t x n i,
  mem_ok m -> Z.of_nat k = n - i -> 0 <= i -> span m t (2 * n) -> span m x n -> apart x n (t, 2 * n) ->
  (0 < k)%nat \/ i = n ->
  exists m', sqr_rows k m t x n i = Val m' /\ keeps [(t, 2 * n)] m m' /\ mem_ok m' /\
    lv m' t (2 * n) = lv m t (n + i) + W (2 * i) * tri (slice m (x + i) (n - i)).
Proof.
  induction k as [|k IH]; intros m t x n i Hm Hk Hi Ht Hx A Hor.
  { exists m. replace (n - i) with 0 by lia. replace (n + i) with (2 * n) by lia.
    split_and!; [done|apply keeps_refl|done|]. change (tri (slice m (x + i) 0)) with 0. lia. }
  pose proof A as A'. unfold apart in A'. cbn [fst snd] in A'.
  cbn [sqr_rows]. rewrite ld_val by areas. cbn [obind].
  pose proof (lv_range m (x + i) 1 Hm ltac:(areas)) as Ha. rewrite W_1 in Ha.
  rewrite (slice_head m (x + i) (n - i)) by areas. cbn [tri].
  set (a := lv m (x + i) 1) in *. replace (x + i + 1) with (x + (i + 1)) by lia.
  fold (lv m (x + (i + 1)) (n - i - 1)). set (Y := lv m (x + (i + 1)) (n - i - 1)).
  destruct (addmul_1_spec m (t + (2 * i + 1)) (x + (i + 1)) (n - i - 1) a)
    as (c & m1 & E1 & K1 & O1 & Hc & V1); [done|areas|areas|lia|word_lia|].
  run E1. pose proof (proj1 K1). fold Y in V1.
  destruct (st_val m1 (t + (i + n)) c) as (m2 & E2 & K2 & O2 & V2); [areas|done|done|].
  run E2. pose proof (proj1 K2).
  assert (Es : slice m2 (x + (i + 1)) (n - i - 1) = slice m (x + (i + 1)) (n - i - 1)).
  { rewrite (keeps_slice _ _ _ _ _ K2), (keeps_slice _ _ _ _ _ K1) by areas. done. }
  assert (Et : lv m2 t (n + (i + 1)) = lv m t (n + i) + W (2 * i + 1) * (a * Y)).
  { replace (n + (i + 1)) with ((n + i) + 1) by lia. rewrite lv_app by areas.
    replace (t + (n + i)) with (t + (i + n)) by lia. rewrite V2, (keeps_lv _ _ _ t (n + i) K2) by areas.
    replace (n + i) with ((2 * i + 1) + (n - i - 1)) by lia.
    rewrite !(lv_app _ t (2 * i + 1)), (W_add (2 * i + 1) (n - i - 1)) by areas.
    rewrite (keeps_lv _ _ _ t (2 * i + 1) K1) by areas. apply (f_equal (Z.mul (W (2 * i + 1)))) in V1. lia. }
  destruct (IH m2 t x n (i + 1)) as (m3 & E3 & K3 & O3 & V3); try done; try areas.
  exists m3. split; [done|]. split_and!; [|done|].
  { eapply keeps_trans; [|eapply keeps_trans]; (eapply keeps_within; [eassumption|areas]). }
  rewrite V3, Et. replace (n - (i + 1)) with (n - i - 1) by lia. rewrite Es.
  replace (2 * (i + 1)) with (2 * i + 1 + 1) by lia. rewrite !W_S by lia.
  change (2 ^ 64) with (2 ^ 32 * 2 ^ 32). ring.
Qed.

(** Doubling in place: the top bit of the top limb falls off. *)
Lemma sqr_double_spec i : forall m t,
  mem_ok m -> span m t (Z.of_nat i + 1) ->
  exists m', sqr_double i m t = Val m' /\ keeps [(t, Z.of_nat i + 1)] m m' /\ mem_ok m' /\
    lv m' t (Z.of_nat i + 1) =
      2 * lv m t (Z.of_nat i + 1) - W (Z.of_nat i + 1) * (lv m (t + Z.of_nat i) 1 / 2 ^ 31).
Proof.
  induction i as [|i IH]; intros m t Hm Ht; cbn [sqr_double].
  { replace (Z.of_nat 0 + 1) with 1 in * by lia. replace (t + Z.of_nat 0) with t by lia.
    rewrite ld_val by done. cbn [obind]. pose proof (lv_range m t 1 Hm Ht) as Hx. rewrite W_1 in *.
    destruct (st_val m t (lv m t 1 <<w 1)) as (m1 & E1 & K1 & O1 & V1); [done|done|apply u32_range|].
    exists m1. split_and!; [done|done|done|]. rewrite V1, Z.shiftl_mul_pow2 by lia. word_lia. }
  set (I := Z.of_nat i) in *. assert (EI : Z.of_nat (S i) = I + 1) by lia. rewrite !EI in *.
  assert (HI : 0 <= I) by lia. rewrite !ld_val by areas. cbn [obind].
  pose proof (lv_range m (t + (I + 1)) 1 Hm ltac:(areas)) as Hx.
  pose proof (lv_range m (t + I) 1 Hm ltac:(areas)) as Hy. rewrite W_1 in *.
  set (x := lv m (t + (I + 1)) 1) in *. set (y := lv m (t + I) 1) in *.
  assert (Ev : Z.lor (x <<w 1) (Z.shiftr y 31) = u32 (2 * x) + y / 2 ^ 31).
  { rewrite Z.shiftl_mul_pow2, Z.shiftr_div_pow2 by lia.
    replace (u32 (x * 2 ^ 1)) with (Z.shiftl (x mod 2 ^ 31) 1)
      by (rewrite Z.shiftl_mul_pow2 by lia; word_lia).
    rewrite lor_shift_add by word_lia. word_lia. }
  rewrite Ev. destruct (st_val m (t + (I + 1)) (u32 (2 * x) + y / 2 ^ 31)) as (m1 & E1 & K1 & O1 & V1);
    [areas|done|word_lia|]. run E1. pose proof (proj1 K1).
  destruct (IH m1 t) as (m2 & E2 & K2 & O2 & V2); [done|areas|].
  exists m2. pose proof (proj1 K2). split; [done|]. split_and!; [|done|].
  { eapply keeps_trans; (eapply keeps_within; [eassumption|areas]). }
  rewrite !(lv_app _ t (I + 1) 1) by areas. fold I in V2. rewrite V2.
  rewrite (keeps_lv _ _ _ (t + (I + 1)) 1 K2), V1 by areas.
  rewrite (keeps_lv _ _ _ t (I + 1) K1), (keeps_lv _ _ _ (t + I) 1 K1) by areas. fold x y.
  rewrite (W_S (I + 1)) by lia.
  assert (u32 (2 * x) = 2 * x - 2 ^ 32 * (x / 2 ^ 31)) by word_lia. nia.
Qed.

Lemma sqr_diag_spec k : forall m ti xi product,
  mem_ok m -> span m ti (2 * Z.of_nat k) -> span m xi (Z.of_nat k) ->
  apart xi (Z.of_nat k) (ti, 2 * Z.of_nat k) -> is_u64 product ->
  exists m' c, sqr_diag k m ti xi product = Val m' /\ keeps [(ti, 2 * Z.of_nat k)] m m' /\ mem_ok m' /\
    0 <= c /\ lv m' ti (2 * Z.of_nat k) + W (2 * Z.of_nat k) * c =
              lv m ti (2 * Z.of_nat k) + diag (slice m xi (Z.of_nat k)) + product / 2 ^ 32.
Proof.
  induction k as [|k IH]; intros m ti xi product Hm Ht Hx A Hp.
  { exists m, (product / 2 ^ 32). change (W (2 * Z.of_nat 0)) with 1.
    split_and!; [done|apply keeps_refl|done|word_lia|].
    change (slice m xi (Z.of_nat 0)) with (@nil Z). cbn [diag]. lia. }
  set (K := Z.of_nat k) in *. assert (EK : Z.of_nat (S k) = K + 1) by lia. rewrite !EK in *.
  assert (HK : 0 <= K) by lia. unfold apart in A. cbn [fst snd] in A.
  cbn [sqr_diag]. rewrite !ld_val by areas. cbn [obind].
  rewrite (slice_head m xi (K + 1)) by areas. replace (K + 1 - 1) with K by lia. cbn [diag].
  pose proof (lv_range m ti 1 Hm ltac:(areas)) as Hlo. pose proof (lv_range m xi 1 Hm ltac:(areas)) as Ha.
  pose proof (lv_range m (ti + 1) 1 Hm ltac:(areas)) as Hhi. rewrite W_1 in *.
  set (lo := lv m ti 1) in *. set (a := lv m xi 1) in *. set (hi := lv m (ti + 1) 1) in *.
  assert (Haa : 0 <= a * a <= (2 ^ 32 - 1) * (2 ^ 32 - 1)) by nia.
  rewrite Z.shiftr_div_pow2 by lia.
  rewrite (u64_small (product / 2 ^ 32 + lo)), (u64_small (a * a)), u64_small by word_lia.
  set (p1 := product / 2 ^ 32 + lo + a * a).
  destruct (st_val m ti (u32 p1)) as (m1 & E1 & K1 & O1 & V1); [areas|done|apply u32_range|].
  run E1. pose proof (proj1 K1). rewrite ld_val by areas. cbn [obind].
  rewrite (keeps_lv _ _ _ (ti + 1) 1 K1) by areas. fold hi. rewrite Z.shiftr_div_pow2 by lia.
  rewrite (u64_small (p1 / 2 ^ 32 + hi)) by (unfold p1; word_lia). set (p2 := p1 / 2 ^ 32 + hi).
  destruct (st_val m1 (ti + 1) (u32 p2)) as (m2 & E2 & K2 & O2 & V2); [areas|done|apply u32_range|].
  run E2. pose proof (proj1 K2).
  destruct (IH m2 (ti + 2) (xi + 1) p2) as (m3 & c & E3 & K3 & O3 & Hc & V3);
    [done|areas|areas|areas|unfold p2, p1; word_lia|].
  exists m3, c. pose proof (proj1 K3). split; [done|]. split_and!; [|done|done|].
  { eapply keeps_trans; [|eapply keeps_trans]; (eapply keeps_within; [eassumption|areas]). }
  fold K in V3. rewrite (keeps_lv _ _ _ (ti + 2) _ K2), (keeps_lv _ _ _ (ti + 2) _ K1) in V3 by areas.
  rewrite (keeps_slice _ _ _ (xi + 1) _ K2), (keeps_slice _ _ _ (xi + 1) _ K1) in V3 by areas.
  replace (2 * (K + 1)) with (2 + 2 * K) by lia. rewrite W_add, !(lv_app _ ti 2 (2 * K)) by areas.
  change (W 2) with (2 ^ 64).
  assert (E2l : forall mm, span mm ti 2 -> lv mm ti 2 = lv mm ti 1 + 2 ^ 32 * lv mm (ti + 1) 1).
  { intros mm Hs. change 2 with (1 + 1) at 1. rewrite lv_app, W_1 by (unfold span in *; lia). done. }
  rewrite !E2l by areas. rewrite (keeps_lv _ _ _ ti 1 K3), (keeps_lv _ _ _ (ti + 1) 1 K3) by areas.
  rewrite (keeps_lv _ _ _ ti 1 K2), V1, V2 by areas. fold lo hi.
  assert (Q1 : u32 p1 + 2 ^ 32 * (p1 / 2 ^ 32) = p1) by (unfold p1; word_lia).
  assert (Q2 : u32 p2 + 2 ^ 32 * (p2 / 2 ^ 32) = p2) by (unfold p2, p1; word_lia).
  apply (f_equal (Z.mul (2 ^ 64))) in V3. change (2 ^ 64) with (2 ^ 32 * 2 ^ 32) in *.
  unfold p2 in *. unfold p1 in *. lia.
Qed.

Lemma sqr_spec m t x n :
  mem_ok m -> 1 <= n -> span m t (2 * n) -> span m x n -> apart x n (t, 2 * n) ->
  exists m', c68k_sqr m t x n = Val m' /\ keeps [(t, 2 * n)] m m' /\ mem_ok m' /\
    lv m' t (2 * n) = lv m x n * lv m x n.
Proof.
  intros Hm Hn Ht Hx A. pose proof A as A'. unfold apart in A'. cbn [fst snd] in A'. unfold c68k_sqr.
  destruct (zero_n_spec m t (2 * n)) as (m1 & E1 & K1 & O1 & V1); [done|areas|]. run E1. pose proof (proj1 K1).
  destruct (sqr_rows_spec (Z.to_nat n) m1 t x n 0) as (m2 & E2 & K2 & O2 & V2); try done; try lia; try areas.
  run E2. pose proof (proj1 K2). replace (n + 0) with n in V2 by lia. replace (x + 0) with x in V2 by lia.
  rewrite Z.sub_0_r, (keeps_slice _ _ _ x n K1) in V2 by areas. change (W (2 * 0)) with 1 in V2.
  set (l := slice m x n) in *.
  assert (Z1 : lv m1 t n = 0).
  { pose proof (lv_app m1 t n n ltac:(areas) ltac:(lia)) as E. replace (n + n) with (2 * n) in E by lia.
    pose proof (lv_range m1 t n O1 ltac:(areas)). pose proof (lv_range m1 (t + n) n O1 ltac:(areas)).
    pose proof (W_pos n ltac:(lia)). rewrite V1 in E. nia. }
  destruct (sqr_double_spec (Z.to_nat (2 * n - 1)) m2 t) as (m3 & E3 & K3 & O3 & V3);
    rewrite ?Z2Nat.id in * by lia; replace (2 * n - 1 + 1) with (2 * n) in * by lia; try done; try areas.
  run E3. pose proof (proj1 K3).
  destruct (sqr_diag_spec (Z.to_nat n) m3 t x 0) as (m4 & c & E4 & K4 & O4 & Hc & V4);
    rewrite ?Z2Nat.id in * by lia; try done; try areas.
  rewrite (keeps_slice _ _ _ x n K3), (keeps_slice _ _ _ x n K2), (keeps_slice _ _ _ x n K1) in V4 by areas.
  fold l in V4. change (0 / 2 ^ 32) with 0 in V4. pose proof (proj1 K4).
  pose proof (tri_diag l) as TD. pose proof (tri_diag_nonneg l (mem_ok_slice _ _ _ Hm)) as TN.
  pose proof (lv_range m x n Hm ltac:(areas)) as HX. unfold lv in HX. fold l in HX.
  assert (EW : W (2 * n) = W n * W n) by (replace (2 * n) with (n + n) by lia; apply W_add; lia).
  pose proof (W_pos n ltac:(lia)). set (y := lv m2 (t + (2 * n - 1)) 1 / 2 ^ 31) in *.
  pose proof (lv_range m2 (t + (2 * n - 1)) 1 O2 ltac:(areas)) as Hy. rewrite W_1 in Hy.
  pose proof (lv_range m3 t (2 * n) O3 ltac:(areas)). pose proof (lv_range m4 t (2 * n) O4 ltac:(areas)).
  assert (Hy0 : 0 <= y) by (apply Z.div_pos; lia). assert (Hsq : val l * val l < W (2 * n)) by (rewrite EW; nia).
  clearbody y. set (P := W (2 * n)) in *.
  assert (y < 1) by (apply (Z.mul_lt_mono_pos_l P); nia). assert (y = 0) as -> by lia.
  assert (c < 1) by (apply (Z.mul_lt_mono_pos_l P); nia). assert (c = 0) as -> by lia.
  exists m4. split; [done|]. split_and!; [|done|].
  - eapply keeps_trans; [|eapply keeps_trans; [|eapply keeps_trans]]; (eapply keeps_within; [eassumption|areas]).
  - unfold lv at 2 3. fold l. lia.
Qed.

(** ** Karatsuba *)

Lemma unsplit_even kl n : unsplit kl n = false -> exists h, n = 2 * h /\ 1 <= h /\ Z.shiftr n 1 = h.
Proof.
  unfold unsplit. intros H. apply orb_false_elim in H as [H Ho]. apply orb_false_elim in H as [_ H2].
  apply Z.ltb_ge in H2. apply negb_false_iff, Z.eqb_eq in Ho. change 1 with (Z.ones 1) in Ho.
  rewrite Z.land_ones in Ho by lia. exists (n / 2). rewrite Z.shiftr_div_pow2 by lia.
  change (2 ^ 1) with 2 in *. word_lia.
Qed.

Lemma upd_spec m p f :
  mem_ok m -> span m p 1 -> is_u32 (f (lv m p 1)) ->
  exists m', upd m p f = Val m' /\ keeps [(p, 1)] m m' /\ mem_ok m' /\ lv m' p 1 = f (lv m p 1).
Proof. intros Hm Hp Hf. unfold upd. rewrite ld_val by done. cbn [obind]. by apply st_val. Qed.

(** The area of [n + 1] limbs at [p], by its parts. *)
Lemma lv_parts m p h :
  span m p (2 * h + 1) -> 0 <= h ->
  lv m p (2 * h + 1) = lv m p h + W h * lv m (p + h) h + W h * W h * lv m (p + 2 * h) 1.
Proof.
  intros Hp Hh. rewrite (lv_app m p (2 * h) 1) by areas. replace (2 * h) with (h + h) at 1 2 by lia.
  rewrite (lv_app m p h h), (W_add h h) by areas. replace (p + (h + h)) with (p + 2 * h) by lia. lia.
Qed.

Lemma kar_join_spec m t mid h :
  mem_ok m -> 1 <= h -> span m t (4 * h) -> span m mid (2 * h + 1) -> apart mid (2 * h + 1) (t, 4 * h) ->
  lv m t (4 * h) + W h * lv m mid (2 * h + 1) < W (4 * h) ->
  exists m', kar_join m t mid h (2 * h) = Val m' /\ keeps [(t, 4 * h)] m m' /\ mem_ok m' /\
    lv m' t (4 * h) = lv m t (4 * h) + W h * lv m mid (2 * h + 1).
Proof.
  intros Hm Hh Ht Hmid A Hlt. unfold apart in A. cbn [fst snd] in A. unfold kar_join.
  assert (Sp : forall mm, span mm t (4 * h) -> lv mm t (4 * h) =
    lv mm t h + W h * (lv mm (t + h) (2 * h + 1) + W (2 * h + 1) * lv mm (t + (h + 2 * h + 1)) (h - 1))).
  { intros mm Hs. replace (4 * h) with (h + (2 * h + 1 + (h - 1))) by lia.
    rewrite (lv_app mm t h) by areas. rewrite (lv_app mm (t + h) (2 * h + 1) (h - 1)) by areas.
    replace (t + h + (2 * h + 1)) with (t + (h + 2 * h + 1)) by lia. done. }
  assert (EW : W (4 * h) = W h * (W (2 * h + 1) * W (h - 1))).
  { rewrite <- !W_add by lia. f_equal. lia. }
  pose proof (W_pos h ltac:(lia)). pose proof (W_pos (2 * h + 1) ltac:(lia)). pose proof (W_pos (h - 1) ltac:(lia)).
  destruct (add_spec m (t + h) mid (2 * h + 1)) as (c & m1 & E1 & K1 & O1 & Hc & V1); [done|areas|areas|lia|].
  run E1. pose proof (proj1 K1). destruct (Z.eqb_spec c 0) as [->|Hc0]; cbn [negb].
  - exists m1. split; [done|]. split_and!; [eapply keeps_within; [eassumption|areas]|done|].
    rewrite !Sp by areas. rewrite (keeps_lv _ _ _ t h K1), (keeps_lv _ _ _ (t + (h + 2 * h + 1)) _ K1) by areas. nia.
  - replace (2 * (2 * h) - (h + 2 * h + 1)) with (h - 1) by lia.
    destruct (add_carry_spec m1 (t + (h + 2 * h + 1)) (t + (h + 2 * h + 1)) (h - 1) c)
      as (c' & m2 & E2 & K2 & O2 & Hc' & V2); [done|areas|areas|lia|word_lia|].
    run E2. pose proof (proj1 K2). exists m2. split; [done|]. split_and!; [|done|].
    { eapply keeps_trans; (eapply keeps_within; [eassumption|areas]). }
    rewrite !Sp in * by areas.
    rewrite (keeps_lv _ _ _ t h K2), (keeps_lv _ _ _ t h K1) by areas.
    rewrite (keeps_lv _ _ _ (t + h) _ K2) by areas.
    rewrite (keeps_lv _ _ _ (t + (h + 2 * h + 1)) _ K1) in V2 by areas.
    pose proof (lv_range m t h Hm ltac:(areas)). pose proof (lv_range m1 (t + h) (2 * h + 1) O1 ltac:(areas)).
    pose proof (lv_range m2 (t + (h + 2 * h + 1)) (h - 1) O2 ltac:(areas)).
    set (lo := lv m t h) in *. set (a := lv m (t + h) (2 * h + 1)) in *. set (a' := lv m1 (t + h) (2 * h + 1)) in *.
    set (b := lv m (t + (h + 2 * h + 1)) (h - 1)) in *. set (b' := lv m2 (t + (h + 2 * h + 1)) (h - 1)) in *.
    set (M := lv m mid (2 * h + 1)) in *. set (P := W h) in *. set (Q := W (2 * h + 1)) in *. set (R := W (h - 1)) in *.
    assert (Etot : lo + P * (a' + Q * b') + P * (Q * R) * c' = lo + P * (a + Q * b) + P * M).
    { transitivity (lo + P * (a' + Q * (b' + R * c'))); [ring|]. rewrite V2.
      transitivity (lo + P * (a' + Q * c + Q * b)); [ring|]. rewrite V1. ring. }
    rewrite EW in Hlt. assert (0 <= a' + Q * b') by nia. assert (0 < P * (Q * R)) by nia.
    assert (c' < 1) by (apply (Z.mul_lt_mono_pos_l (P * (Q * R))); nia).
    assert (c' = 0) as Hz by word_lia. rewrite Hz in Etot. lia.
Qed.

(** [p[h ..] += c * b] with the carry into [p[n]]. *)
Lemma kar_cross_spec m c p b h :
  mem_ok m -> 0 <= c <= 1 -> 0 <= h -> span m p (2 * h + 1) -> span m b h -> apart b h (p, 2 * h + 1) ->
  lv m p (2 * h + 1) + c * (W h * lv m b h) < W (2 * h + 1) ->
  exists m', kar_cross m c p b h (2 * h) = Val m' /\ keeps [(p, 2 * h + 1)] m m' /\ mem_ok m' /\
    lv m' p (2 * h + 1) = lv m p (2 * h + 1) + c * (W h * lv m b h).
Proof.
  intros Hm Hc Hh Hp Hb A Hlt. unfold apart in A. cbn [fst snd] in A. unfold kar_cross.
  destruct (Z.eqb_spec c 0) as [->|Hc0]; cbn [negb].
  { exists m. split_and!; [done|apply keeps_refl|done|lia]. }
  assert (c = 1) as -> by lia. rewrite Z.mul_1_l in *.
  destruct (add_spec m (p + h) b h) as (k & m1 & E1 & K1 & O1 & Hk & V1); [done|areas|areas|lia|].
  run E1. pose proof (proj1 K1).
  assert (Etop : lv m1 (p + 2 * h) 1 = lv m (p + 2 * h) 1) by (apply (keeps_lv _ _ _ _ _ K1); areas).
  pose proof (lv_range m (p + 2 * h) 1 Hm ltac:(areas)) as Htop. rewrite W_1 in Htop.
  pose proof (W_pos h Hh) as HW. rewrite !lv_parts in * by areas.
  pose proof (lv_range m p h Hm ltac:(areas)) as R0. pose proof (lv_range m1 (p + h) h O1 ltac:(areas)) as R1.
  assert (EW : W (2 * h + 1) = W h * W h * 2 ^ 32).
  { rewrite W_S by lia. replace (2 * h) with (h + h) by lia. rewrite W_add by lia. lia. }
  set (P := W h) in *. set (lo := lv m p h) in *. set (top := lv m (p + 2 * h) 1) in *.
  set (mi := lv m (p + h) h) in *. set (mi' := lv m1 (p + h) h) in *. set (B := lv m b h) in *.
  assert (Ht : top + k < 2 ^ 32).
  { rewrite EW in Hlt. assert (Hs : P * P * (top + k) < P * P * 2 ^ 32).
    { assert (E : lo + P * mi' + P * P * (top + k) = lo + P * mi + P * P * top + P * B).
      { transitivity (lo + P * (mi' + P * k) + P * P * top); [ring|]. rewrite V1. ring. } nia. }
    apply Z.mul_lt_mono_pos_l in Hs; [done|nia]. }
  destruct (upd_spec m1 (p + 2 * h) (fun v => v +w k)) as (m2 & E2 & K2 & O2 & V2); [done|areas|apply u32_range|].
  pose proof (proj1 K2). exists m2. split; [done|]. split_and!; [|done|].
  { eapply keeps_trans; (eapply keeps_within; [eassumption|areas]). }
  rewrite lv_parts by areas. rewrite V2, Etop. fold P.
  rewrite (keeps_lv _ _ _ p h K2), (keeps_lv _ _ _ p h K1), (keeps_lv _ _ _ (p + h) h K2) by areas.
  fold lo mi'. rewrite u32_small by word_lia. apply (f_equal (Z.mul P)) in V1. lia.
Qed.

(** [p -= q], [n + 1] limbs less [n], when the difference is not negative. *)
Lemma kar_take_spec m p q n :
  mem_ok m -> 0 <= n -> span m p (n + 1) -> span m q n -> apart q n (p, n + 1) ->
  lv m q n <= lv m p (n + 1) ->
  exists b m1 m2, c68k_sub m p q n = Val (b, m1) /\ upd m1 (p + n) (fun v => v -w b) = Val m2 /\
    keeps [(p, n + 1)] m m2 /\ mem_ok m2 /\ lv m2 p (n + 1) = lv m p (n + 1) - lv m q n.
Proof.
  intros Hm Hn Hp Hq A Hle. unfold apart in A. cbn [fst snd] in A.
  destruct (sub_spec m p q n) as (b & m1 & E1 & K1 & O1 & Hb & V1); [done|areas|areas|lia|].
  pose proof (proj1 K1). rewrite (lv_app m p n 1) in * by areas.
  pose proof (lv_range m (p + n) 1 Hm ltac:(areas)) as Ht. rewrite W_1 in Ht.
  pose proof (lv_range m1 p n O1 ltac:(areas)) as R1. pose proof (W_pos n Hn).
  assert (Etop : lv m1 (p + n) 1 = lv m (p + n) 1) by (apply (keeps_lv _ _ _ _ _ K1); areas).
  set (top := lv m (p + n) 1) in *.
  assert (0 <= top - b) by (assert (- W n < W n * (top - b)) by lia; nia).
  destruct (upd_spec m1 (p + n) (fun v => v -w b)) as (m2 & E2 & K2 & O2 & V2); [done|areas|apply u32_range|].
  pose proof (proj1 K2). exists b, m1, m2. split_and!; [done|done| |done|].
  - eapply keeps_trans; (eapply keeps_within; [eassumption|areas]).
  - rewrite lv_app by areas. rewrite V2, Etop, (keeps_lv _ _ _ p n K2) by areas. rewrite u32_small by word_lia. lia.
Qed.

(** The half sum: [h] limbs and a carry. *)
Lemma kar_half_spec m a x h :
  mem_ok m -> 0 <= h -> span m a h -> span m x (2 * h) -> apart x (2 * h) (a, h) ->
  exists m1 c m2, c68k_copy_n m a x h = Val m1 /\ c68k_add m1 a (x + h) h = Val (c, m2) /\
    keeps [(a, h)] m m2 /\ mem_ok m2 /\ 0 <= c <= 1 /\ lv m2 a h + W h * c = lv m x h + lv m (x + h) h.
Proof.
  intros Hm Hh Ha Hx A. unfold apart in A. cbn [fst snd] in A.
  destruct (copy_n_spec m a x h) as (m1 & E1 & K1 & O1 & V1); [done|areas|areas|lia|]. pose proof (proj1 K1).
  destruct (add_spec m1 a (x + h) h) as (c & m2 & E2 & K2 & O2 & Hc & V2); [done|areas|areas|lia|].
  exists m1, c, m2. split_and!; try done; [|lia..|].
  - eapply keeps_trans; (eapply keeps_within; [eassumption|areas]).
  - rewrite V2, (keeps_lv _ _ _ (x + h) h K1) by areas. unfold lv at 1. rewrite V1. done.
Qed.

(** The difference of the halves, without its sign. *)
Lemma kar_diff_spec m d x h :
  mem_ok m -> 0 <= h -> span m d h -> span m x (2 * h) -> apart x (2 * h) (d, h) ->
  exists c m', c68k_cmp m (x + h) x h = Val c /\
    (if 0 <=? c
     then let! m := c68k_copy_n m d (x + h) h in let! (_, m) := c68k_sub m d x h in Val m
     else let! m := c68k_copy_n m d x h in let! (_, m) := c68k_sub m d (x + h) h in Val m) = Val m' /\
    keeps [(d, h)] m m' /\ mem_ok m' /\ lv m' d h = Z.abs (lv m (x + h) h - lv m x h).
Proof.
  intros Hm Hh Hd Hx A. unfold apart in A. cbn [fst snd] in A.
  destruct (cmp_spec m (x + h) x h) as (c & Ec & Hc); [done|areas|areas|].
  assert (Sub : forall a b, span m a h -> span m b h -> apart a h (d, h) -> apart b h (d, h) ->
    lv m b h <= lv m a h -> exists m',
    (let! m := c68k_copy_n m d a h in let! (_, m) := c68k_sub m d b h in Val m) = Val m' /\
    keeps [(d, h)] m m' /\ mem_ok m' /\ lv m' d h = lv m a h - lv m b h).
  { intros a b Ha Hb A1 A2 Hle. unfold apart in A1, A2. cbn [fst snd] in *.
    destruct (copy_n_spec m d a h) as (m1 & E1 & K1 & O1 & V1); [done|areas|areas|lia|]. pose proof (proj1 K1).
    destruct (sub_spec m1 d b h) as (k & m2 & E2 & K2 & O2 & Hk & V2); [done|areas|areas|lia|]. pose proof (proj1 K2).
    run E1. run E2. exists m2. split_and!; [done| |done|].
    - eapply keeps_trans; (eapply keeps_within; [eassumption|areas]).
    - assert (E : lv m1 d h = lv m a h) by (unfold lv; by rewrite V1).
      rewrite E, (keeps_lv _ _ _ b h K1) in V2 by areas.
      pose proof (lv_range m2 d h O2 ltac:(areas)). pose proof (lv_range m a h Hm ltac:(areas)).
      pose proof (lv_range m b h Hm ltac:(areas)). assert (k = 0) by nia. subst k. lia. }
  exists c. destruct (Z.leb_spec 0 c) as [Hge|Hlt].
  - destruct (Sub (x + h) x) as (m' & E & K & O & V); try areas.
    exists m'. split_and!; try done. rewrite V. lia.
  - destruct (Sub x (x + h)) as (m' & E & K & O & V); try areas.
    exists m'. split_and!; try done. rewrite V. lia.
Qed.

(** [step KK K] advances over [K] and extends the frame [KK] of the whole routine. *)
Ltac step KK K :=
  match type of KK with
  | keeps ?R ?m0 ?m =>
      match type of K with
      | keeps _ _ ?m' =>
          let KK' := fresh in
          assert (KK' : keeps R m0 m')
            by (eapply keeps_trans; [exact KK|eapply keeps_within; [exact K|areas]]);
          advance K; clear KK; rename KK' into KK
      end
  end.

(** [name_lv m p n as v H] names the value of an area: [H : lv m p n = v]. *)
Tactic Notation "name_lv" constr(m) constr(p) constr(n) "as" ident(v) ident(H) :=
  remember (lv m p n) as v eqn:H; symmetry in H.

Lemma lv_halves m x h :
  span m x (2 * h) -> 0 <= h -> lv m x (2 * h) = lv m x h + W h * lv m (x + h) h.
Proof. intros. replace (2 * h) with (h + h) by lia. apply lv_app; areas. Qed.

Lemma kar_total Wh x0 x1 y0 y1 :
  0 < Wh -> 0 <= x0 < Wh -> 0 <= x1 < Wh -> 0 <= y0 < Wh -> 0 <= y1 < Wh ->
  (x0 + Wh * x1) * (y0 + Wh * y1) < Wh * Wh * (Wh * Wh).
Proof. intros. apply Z.mul_lt_mono_nonneg; nia. Qed.

Lemma W_half h : 0 <= h ->
  W (2 * h) = W h * W h /\ W (2 * h + 1) = W h * W h * 2 ^ 32 /\ W (4 * h) = W h * W h * (W h * W h).
Proof.
  intros Hh. assert (E : W (2 * h) = W h * W h) by (replace (2 * h) with (h + h) by lia; apply W_add; lia).
  split_and!; [done|rewrite W_S by lia; lia|].
  replace (4 * h) with (2 * h + 2 * h) by lia. rewrite W_add by lia. by rewrite E.
Qed.

Lemma bit_mul c w v : 0 <= c <= 1 -> 0 < w -> 0 <= v < w -> 0 <= c * (w * v) <= w * w.
Proof. intros Hc Hw Hv. assert (0 <= w * v <= w * w) by nia. assert (c = 0 \/ c = 1) as [-> | ->] by lia; lia. Qed.

Lemma mul_carries_spec m a b p h cx cy va vb :
  mem_ok m -> 1 <= h -> 0 <= cx <= 1 -> 0 <= cy <= 1 -> span m p (2 * h + 1) -> span m a h -> span m b h ->
  apart a h (p, 2 * h + 1) -> apart b h (p, 2 * h + 1) ->
  lv m a h = va -> lv m b h = vb -> lv m p (2 * h) = va * vb ->
  exists m', mul_carries m a b p h (2 * h) cx cy = Val m' /\ keeps [(p, 2 * h + 1)] m m' /\ mem_ok m' /\
    lv m' p (2 * h + 1) = (va + W h * cx) * (vb + W h * cy).
Proof.
  intros Hm Hh Hcx Hcy Sp Sa Sb A1 A2 Ha Hb V5. unfold apart in A1, A2. cbn [fst snd] in *. unfold mul_carries.
  destruct (W_half h ltac:(lia)) as (EW2 & EW & _). pose proof (W_pos h ltac:(lia)) as HW.
  pose proof (lv_range m a h Hm ltac:(areas)) as Ra. pose proof (lv_range m b h Hm ltac:(areas)) as Rb.
  rewrite Ha in Ra. rewrite Hb in Rb. pose proof (keeps_refl [(p, 2 * h + 1)] m) as KK.
  pose proof (bit_mul cx (W h) vb Hcx HW Rb) as N2. pose proof (bit_mul cy (W h) va Hcy HW Ra) as N3.
  assert (N1 : 0 <= va * vb < W h * W h) by nia.
  destruct (st_val m (p + 2 * h) 0) as (m6 & E6 & K6 & O6 & V6); [areas|done|word_lia|].
  run E6. step KK K6.
  assert (V7 : lv m6 p (2 * h + 1) = va * vb) by (rewrite lv_app by areas; rewrite V5, V6; lia).
  destruct (kar_cross_spec m6 cx p b h) as (m7 & E7 & K7 & O7 & V8); try done; try areas_only;
    [rewrite V7, Hb, EW; lia|]. run E7. rewrite V7, Hb in V8. step KK K7.
  destruct (kar_cross_spec m7 cy p a h) as (m8 & E8 & K8 & O8 & V9); try done; try areas_only;
    [rewrite V8, Ha, EW; lia|]. run E8. rewrite V8, Ha in V9. step KK K8.
  destruct (negb (cx =? 0) && negb (cy =? 0)) eqn:Ec.
  - apply andb_prop in Ec as [Ec1 Ec2]. apply negb_true_iff, Z.eqb_neq in Ec1, Ec2.
    assert (cx = 1) as -> by lia. assert (cy = 1) as -> by lia.
    pose proof (lv_app m8 p (2 * h) 1 ltac:(areas) ltac:(lia)) as Spl.
    pose proof (lv_range m8 p (2 * h) O8 ltac:(areas)) as Rl.
    pose proof (lv_range m8 (p + 2 * h) 1 O8 ltac:(areas)) as Rt. rewrite W_1 in Rt. rewrite EW2 in *.
    assert (lv m8 (p + 2 * h) 1 < 4) by nia.
    destruct (upd_spec m8 (p + 2 * h) (fun v => v +w 1)) as (m9 & E9 & K9 & O9 & V10);
      [done|areas|apply u32_range|]. pose proof (proj1 K9).
    exists m9. split_and!; [done| |done|].
    + eapply keeps_trans; [exact KK|eapply keeps_within; [exact K9|areas]].
    + rewrite lv_app by areas. rewrite V10, (keeps_lv _ _ _ p (2 * h) K9) by areas.
      rewrite u32_small by word_lia. rewrite EW2. lia.
  - exists m8. split_and!; [done|done|done|]. rewrite V9.
    assert (W h * W h * (cx * cy) = 0); [|lia]. apply andb_false_iff in Ec as [Ec|Ec];
      apply negb_false_iff, Z.eqb_eq in Ec; subst; lia.
Qed.

Lemma mul_combine_spec m t p h x0 x1 y0 y1 :
  mem_ok m -> 1 <= h -> span m t (4 * h) -> span m p (2 * h + 1) -> apart p (2 * h + 1) (t, 4 * h) ->
  0 <= x0 < W h -> 0 <= x1 < W h -> 0 <= y0 < W h -> 0 <= y1 < W h ->
  lv m t (2 * h) = x0 * y0 -> lv m (t + 2 * h) (2 * h) = x1 * y1 ->
  lv m p (2 * h + 1) = (x0 + x1) * (y0 + y1) ->
  exists m', mul_combine m t p h (2 * h) = Val m' /\ keeps [(t, 4 * h); (p, 2 * h + 1)] m m' /\ mem_ok m' /\
    lv m' t (4 * h) = (x0 + W h * x1) * (y0 + W h * y1).
Proof.
  intros Hm Hh St Sp A R0 R1 R2 R3 V3 V4 V10. unfold apart in A. cbn [fst snd] in A. unfold mul_combine.
  destruct (W_half h ltac:(lia)) as (EW2 & _ & EW4). pose proof (W_pos h ltac:(lia)) as HW.
  pose proof (keeps_refl [(t, 4 * h); (p, 2 * h + 1)] m) as KK.
  assert (N : 0 <= x0 * y0 /\ 0 <= x1 * y1 /\ 0 <= x0 * y1 /\ 0 <= x1 * y0) by nia.
  destruct (kar_take_spec m p t (2 * h)) as (b1 & m10' & m10 & E10' & E10 & K10 & O10 & V11);
    try done; try areas_only; [rewrite V10, V3; lia|]. run E10'. run E10. rewrite V10, V3 in V11. step KK K10.
  destruct (kar_take_spec m10 p (t + 2 * h) (2 * h)) as (b2 & m11' & m11 & E11' & E11 & K11 & O11 & V12);
    try done; try areas_only; [rewrite V11, V4; lia|]. run E11'. run E11. rewrite V11, V4 in V12. step KK K11.
  assert (V13 : lv m11 t (4 * h) = x0 * y0 + W h * W h * (x1 * y1)).
  { replace (4 * h) with (2 * h + 2 * h) by lia. rewrite lv_app by areas. by rewrite V3, V4, EW2. }
  assert (Etot : x0 * y0 + W h * W h * (x1 * y1) + W h * ((x0 + x1) * (y0 + y1) - x0 * y0 - x1 * y1)
                 = (x0 + W h * x1) * (y0 + W h * y1)) by ring.
  destruct (kar_join_spec m11 t p h) as (m12 & E12 & K12 & O12 & V14); try done; try areas_only.
  { rewrite V13, V12, EW4, Etot. by apply kar_total. }
  exists m12. split_and!; [done| |done|rewrite V14, V13, V12; exact Etot].
  eapply keeps_trans; [exact KK|eapply keeps_within; [exact K12|areas]].
Qed.

Lemma mul_n_spec kl fuel : forall m t x y n s,
  mem_ok m -> 0 <= n <= Z.of_nat fuel ->
  span m t (2 * n) -> span m x n -> span m y n -> span m s (6 * n) ->
  apart x n (t, 2 * n) -> apart y n (t, 2 * n) -> apart s (6 * n) (t, 2 * n) ->
  apart x n (s, 6 * n) -> apart y n (s, 6 * n) ->
  exists m', c68k_mul_n fuel kl m t x y n s = Val m' /\ keeps [(t, 2 * n); (s, 6 * n)] m m' /\ mem_ok m' /\
    lv m' t (2 * n) = lv m x n * lv m y n.
Proof.
  induction fuel as [|fuel IH]; intros m t x y n s Hm Hn St Sx Sy Ss A1 A2 A3 A4 A5;
    cbn [c68k_mul_n]; destruct (unsplit kl n) eqn:U.
  1,3: destruct (mul_school_spec m t x y n) as (m' & E & K & O & V); try done; [lia|];
    exists m'; split_and!; [done|eapply keeps_within; [exact K|areas]|done|done].
  { apply unsplit_even in U as (h & -> & Hh & _). lia. }
  apply unsplit_even in U as (h & -> & Hh & Sh). rewrite Sh. cbv zeta.
  unfold apart in A1, A2, A3, A4, A5. cbn [fst snd] in *.
  pose proof (lv_range m x h Hm ltac:(areas)) as Rx0. pose proof (lv_range m (x + h) h Hm ltac:(areas)) as Rx1.
  pose proof (lv_range m y h Hm ltac:(areas)) as Ry0. pose proof (lv_range m (y + h) h Hm ltac:(areas)) as Ry1.
  rewrite (lv_halves m x h), (lv_halves m y h) by areas.
  name_lv m x h as x0 Hx0. name_lv m (x + h) h as x1 Hx1. name_lv m y h as y0 Hy0. name_lv m (y + h) h as y1 Hy1.
  pose proof (keeps_refl [(t, 2 * (2 * h)); (s, 6 * (2 * h))] m) as KK.
  destruct (kar_half_spec m s x h) as (m1' & cx & m1 & E1' & E1 & K1 & O1 & Hcx & V1); [done|lia|areas..|].
  run E1'. run E1. rewrite Hx0, Hx1 in V1. step KK K1. remember (lv m1 s h) as a eqn:Ha. symmetry in Ha.
  destruct (kar_half_spec m1 (s + h) y h) as (m2' & cy & m2 & E2' & E2 & K2 & O2 & Hcy & V2); [done|lia|areas..|].
  run E2'. run E2. rewrite Hy0, Hy1 in V2. step KK K2. remember (lv m2 (s + h) h) as b eqn:Hb. symmetry in Hb.
  destruct (IH m2 t x y h (s + h + h + 2 * h + 1)) as (m3 & E3 & K3 & O3 & V3); try areas_only.
  rewrite Hx0, Hy0 in V3. run E3. step KK K3.
  destruct (IH m3 (t + 2 * h) (x + h) (y + h) h (s + h + h + 2 * h + 1)) as (m4 & E4 & K4 & O4 & V4); try areas_only.
  rewrite Hx1, Hy1 in V4. run E4. step KK K4.
  destruct (IH m4 (s + h + h) s (s + h) h (s + h + h + 2 * h + 1)) as (m5 & E5 & K5 & O5 & V5); try areas_only.
  rewrite Ha, Hb in V5. run E5. step KK K5.
  destruct (mul_carries_spec m5 s (s + h) (s + h + h) h cx cy a b) as (m6 & E6 & K6 & O6 & V6); try done; try areas_only.
  run E6. rewrite V1, V2 in V6. step KK K6.
  destruct (mul_combine_spec m6 t (s + h + h) h x0 x1 y0 y1) as (m7 & E7 & K7 & O7 & V7);
    try done; try areas_only; try (by subst).
  exists m7. replace (2 * (2 * h)) with (4 * h) in * by lia. split_and!; [done| |done|done].
  eapply keeps_trans; [exact KK|eapply keeps_within; [exact K7|areas]].
Qed.

(** The square, with [2 * x0 * x1] as [x0^2 + x1^2 - (x1 - x0)^2]. *)
Lemma sqr_combine_spec m t u mid h x0 x1 d :
  mem_ok m -> 1 <= h -> span m t (4 * h) -> span m u (2 * h) -> span m mid (2 * h + 1) ->
  apart mid (2 * h + 1) (t, 4 * h) -> apart u (2 * h) (t, 4 * h) -> apart u (2 * h) (mid, 2 * h + 1) ->
  0 <= x0 < W h -> 0 <= x1 < W h -> d = Z.abs (x1 - x0) ->
  lv m t (2 * h) = x0 * x0 -> lv m (t + 2 * h) (2 * h) = x1 * x1 -> lv m u (2 * h) = d * d ->
  exists m', sqr_combine m t u mid h (2 * h) = Val m' /\ keeps [(t, 4 * h); (mid, 2 * h + 1)] m m' /\
    mem_ok m' /\ lv m' t (4 * h) = (x0 + W h * x1) * (x0 + W h * x1).
Proof.
  intros Hm Hh St Su Sm A1 A2 A3 R0 R1 Hd V0 V1 Vu. unfold apart in A1, A2, A3. cbn [fst snd] in *. unfold sqr_combine.
  destruct (W_half h ltac:(lia)) as (EW2 & EW & EW4). pose proof (W_pos h ltac:(lia)) as HW.
  pose proof (keeps_refl [(t, 4 * h); (mid, 2 * h + 1)] m) as KK.
  assert (Hdd : d * d = (x1 - x0) * (x1 - x0)) by (subst d; nia). rewrite Hdd in Vu. clear d Hd Hdd.
  destruct (copy_n_spec m mid t (2 * h)) as (m1 & E1 & K1 & O1 & S1); [done|areas..|].
  run E1. assert (Vm : lv m1 mid (2 * h) = x0 * x0) by (unfold lv; rewrite S1; exact V0). step KK K1.
  destruct (add_spec m1 mid (t + 2 * h) (2 * h)) as (c & m2 & E2 & K2 & O2 & Hc & V2); [done|areas..|].
  run E2. rewrite Vm, V1 in V2. step KK K2.
  destruct (st_val m2 (mid + 2 * h) c) as (m3 & E3 & K3 & O3 & V3); [areas|done|word_lia|]. run E3.
  remember (lv m2 mid (2 * h)) as lo eqn:Hlo. symmetry in Hlo. step KK K3.
  assert (V4 : lv m3 mid (2 * h + 1) = x0 * x0 + x1 * x1) by (rewrite lv_app by areas; rewrite Hlo, V3; lia).
  assert (N : 0 <= x0 * x1) by nia.
  destruct (kar_take_spec m3 mid u (2 * h)) as (b & m4' & m4 & E4' & E4 & K4 & O4 & V5);
    try done; try areas_only; [rewrite V4, Vu; lia|]. run E4'. run E4. rewrite V4, Vu in V5. step KK K4.
  assert (V6 : lv m4 t (4 * h) = x0 * x0 + W h * W h * (x1 * x1)).
  { replace (4 * h) with (2 * h + 2 * h) by lia. rewrite lv_app by areas. by rewrite V0, V1, EW2. }
  assert (Etot : x0 * x0 + W h * W h * (x1 * x1) + W h * (x0 * x0 + x1 * x1 - (x1 - x0) * (x1 - x0))
                 = (x0 + W h * x1) * (x0 + W h * x1)) by ring.
  destruct (kar_join_spec m4 t mid h) as (m5 & E5 & K5 & O5 & V7); try done; try areas_only.
  { rewrite V6, V5, EW4, Etot. by apply kar_total. }
  exists m5. split_and!; [done| |done|rewrite V7, V6, V5; exact Etot].
  eapply keeps_trans; [exact KK|eapply keeps_within; [exact K5|areas]].
Qed.

Lemma sqr_n_spec kl fuel : forall m t x n s,
  mem_ok m -> 1 <= n <= Z.of_nat fuel ->
  span m t (2 * n) -> span m x n -> span m s (6 * n) ->
  apart x n (t, 2 * n) -> apart s (6 * n) (t, 2 * n) -> apart x n (s, 6 * n) ->
  exists m', c68k_sqr_n fuel kl m t x n s = Val m' /\ keeps [(t, 2 * n); (s, 6 * n)] m m' /\ mem_ok m' /\
    lv m' t (2 * n) = lv m x n * lv m x n.
Proof.
  induction fuel as [|fuel IH]; intros m t x n s Hm Hn St Sx Ss A1 A2 A3;
    cbn [c68k_sqr_n]; destruct (unsplit kl n) eqn:U; [lia| | |].
  2: destruct (sqr_spec m t x n) as (m' & E & K & O & V); try done; [lia|];
    exists m'; split_and!; [done|eapply keeps_within; [exact K|areas]|done|done].
  { apply unsplit_even in U as (h & -> & Hh & _). lia. }
  apply unsplit_even in U as (h & -> & Hh & Sh). rewrite Sh. cbv zeta.
  unfold apart in A1, A2, A3. cbn [fst snd] in *.
  pose proof (lv_range m x h Hm ltac:(areas)) as Rx0. pose proof (lv_range m (x + h) h Hm ltac:(areas)) as Rx1.
  rewrite (lv_halves m x h) by areas. name_lv m x h as x0 Hx0. name_lv m (x + h) h as x1 Hx1.
  pose proof (keeps_refl [(t, 2 * (2 * h)); (s, 6 * (2 * h))] m) as KK.
  destruct (kar_diff_spec m s x h) as (c & m1 & Ec & E1 & K1 & O1 & V1); [done|lia|areas..|].
  run Ec. run E1. rewrite Hx0, Hx1 in V1. step KK K1.
  destruct (IH m1 t x h (s + h + 2 * h + 2 * h + 1)) as (m2 & E2 & K2 & O2 & V2); try areas_only.
  rewrite Hx0 in V2. run E2. step KK K2.
  destruct (IH m2 (t + 2 * h) (x + h) h (s + h + 2 * h + 2 * h + 1)) as (m3 & E3 & K3 & O3 & V3); try areas_only.
  rewrite Hx1 in V3. run E3. step KK K3.
  destruct (IH m3 (s + h) s h (s + h + 2 * h + 2 * h + 1)) as (m4 & E4 & K4 & O4 & V4); try areas_only.
  rewrite V1 in V4. run E4. step KK K4.
  destruct (sqr_combine_spec m4 t (s + h) (s + h + 2 * h) h x0 x1 (Z.abs (x1 - x0)))
    as (m5 & E5 & K5 & O5 & V5); try done; try areas_only; try (by subst).
  exists m5. replace (2 * (2 * h)) with (4 * h) in * by lia. split_and!; [done| |done|done].
  eapply keeps_trans; [exact KK|eapply keeps_within; [exact K5|areas]].
Qed.
