(* ===== verification/C68kModmul.v ===== *)
(** * Montgomery multiplication, whole

    The public operations of c68k_mont.c against modular arithmetic: the product
    with the split threshold at any value, and [c68k_mont_mul]/[c68k_mont_sqr] as
    multiplication in Montgomery form. *)

From Stdlib Require Import ZArith Lia Znumtheory.
From stdpp Require Import base numbers list.
From S2P Require Import Prelude.
From S2P Require Import Limbs.
From S2P Require Import C68kPrim.
From S2P Require Import C68kMont.
From S2P Require Import C68kMul.

Lemma odd_low m p n : mem_ok m -> 1 <= n -> span m p n -> Z.odd (lv m p n) = Z.odd (lv m p 1).
Proof.
  intros Hm Hn Hp. replace n with (1 + (n - 1)) by lia. rewrite lv_app, W_1 by areas.
  rewrite Z.odd_add, Z.odd_mul. change (Z.odd (2 ^ 32)) with false. by rewrite andb_false_l, xorb_false_r.
Qed.

(** The inverse of the low limb serves the whole modulus. *)
Lemma n0inv_modulus m md ml :
  mem_ok m -> 1 <= ml -> span m md ml -> Z.odd (lv m md ml) = true ->
  let n0inv := c68k_mont_n0inv (lv m md 1) in
  is_u32 n0inv /\ (lv m md ml * n0inv + 1) mod 2 ^ 32 = 0.
Proof.
  intros Hm Hml Hmd Ho. rewrite odd_low in Ho by done. destruct (n0inv_spec _ Ho) as [Hr Hi]. split; [done|].
  replace ml with (1 + (ml - 1)) by lia. rewrite lv_app, W_1 by areas.
  apply Z.mod_divide in Hi as [e He]; [|lia]. apply Z.mod_divide; [lia|].
  exists (e + lv m (md + 1) (ml - 1) * c68k_mont_n0inv (lv m md 1)). lia.
Qed.

(** Areas of a Montgomery call: only the work area must stand apart. *)
Definition mont_areas (m : list Z) (r x y md ml work : Z) : Prop :=
  1 <= ml /\ span m r ml /\ span m x ml /\ span m y ml /\ span m md ml /\ span m work (8 * ml + 2) /\
  Forall (fun a => apart a ml (work, 8 * ml + 2)) [r; x; y; md].

(** [montgomery M R v T]: [v] is [T / R] modulo [M], reduced. *)
Definition montgomery (M R v T : Z) : Prop := 0 <= v < M /\ (v * R) mod M = T mod M.

(** From a double-width product in the work area to the result. *)
Lemma reduce_final_spec m r md ml n0inv work T :
  mem_ok m -> 1 <= ml -> span m r ml -> span m md ml -> span m work (8 * ml + 2) ->
  apart r ml (work, 8 * ml + 2) -> apart md ml (work, 8 * ml + 2) ->
  is_u32 n0inv -> (lv m md ml * n0inv + 1) mod 2 ^ 32 = 0 ->
  lv m work (2 * ml) = T -> T < lv m md ml * W ml ->
  exists m', (let! m := st m (work + 2 * ml) 0 in
              let! m := c68k_mont_reduce m work md ml n0inv in
              c68k_mont_final m r (work + ml) md ml) = Val m' /\
    keeps [(r, ml); (work, 8 * ml + 2)] m m' /\ mem_ok m' /\ montgomery (lv m md ml) (W ml) (lv m' r ml) T.
Proof.
  intros Hm Hml Sr Sm Sw A1 A2 Hn Hi VT HT. unfold apart in A1, A2. cbn [fst snd] in *.
  pose proof (keeps_refl [(r, ml); (work, 8 * ml + 2)] m) as KK.
  pose proof (lv_range m md ml Hm ltac:(areas)) as RM. pose proof (lv_range m work (2 * ml) Hm ltac:(areas)) as RT.
  remember (lv m md ml) as M eqn:HM. symmetry in HM. rewrite VT in RT. pose proof (W_pos ml ltac:(lia)) as HW.
  destruct (st_val m (work + 2 * ml) 0) as (m1 & E1 & K1 & O1 & V1); [areas|done|word_lia|]. run E1. step KK K1.
  assert (VT1 : lv m1 work (2 * ml + 1) = T) by (rewrite lv_app by areas; rewrite VT, V1; lia).
  destruct (mont_reduce_spec m1 work md ml n0inv) as (m2 & q & E2 & K2 & O2 & Hq & V2);
    try done; try areas_only; [by rewrite HM|by rewrite HM, VT1|].
  run E2. rewrite VT1, HM in V2. step KK K2.
  assert (HH : 0 <= lv m2 (work + ml) (ml + 1) < 2 * M) by nia.
  destruct (mont_final_spec m2 r (work + ml) md ml) as (m3 & E3 & K3 & O3 & V3);
    try done; try areas_only; [rewrite HM; lia|].
  exists m3. split_and!; [done| |done|].
  { eapply keeps_trans; [exact KK|eapply keeps_within; [exact K3|areas]]. }
  rewrite HM in V3. set (H := lv m2 (work + ml) (ml + 1)) in *. unfold montgomery. rewrite V3.
  split; [bcase; lia|].
  set (k := if M <=? H then M else 0).
  replace ((H - k) * W ml) with (T + (q - (if M <=? H then 1 else 0) * W ml) * M) by (unfold k; bcase; lia).
  apply Z_mod_plus_full.
Qed.

(** C35 The Karatsuba product is the product: for every width, every split
    threshold and every pair of operands, [c68k_mul_n] returns, leaves in the
    [2 * n] limbs of the result the number [x * y], and writes nothing but the
    result and six limbs of scratch per limb of width. *)
Theorem karatsuba_exact kl m t x y n s :
  mem_ok m -> 0 <= n -> span m t (2 * n) -> span m x n -> span m y n -> span m s (6 * n) ->
  Forall (fun a => apart a n (t, 2 * n) /\ apart a n (s, 6 * n)) [x; y] -> apart s (6 * n) (t, 2 * n) ->
  exists m', c68k_mul_n (Z.to_nat n) kl m t x y n s = Val m' /\
    keeps [(t, 2 * n); (s, 6 * n)] m m' /\ mem_ok m' /\ lv m' t (2 * n) = lv m x n * lv m y n.
Proof.
  intros Hm Hn St Sx Sy Ss A As. apply Forall_cons_1 in A as [[? ?] A]. apply Forall_cons_1 in A as [[? ?] _].
  apply mul_n_spec; try done. lia.
Qed.

(** Limbs of memory for the witnesses. *)
Definition ramp (n : nat) : list Z := map (fun i => u32 (Z.of_nat i * 0x9E3779B1 + 0x12345677)) (seq 0 n).
Lemma ramp_ok n : mem_ok (ramp n).
Proof. unfold ramp. apply Forall_map, Forall_forall. intros i _. apply u32_range. Qed.
Lemma ramp_length n : length (ramp n) = n.
Proof. unfold ramp. by rewrite length_map, length_seq. Qed.

(** Closes the layout conditions over [ramp]. *)
Ltac ramp_areas :=
  unfold mont_areas, span; rewrite ?ramp_length; split_and?;
  repeat match goal with |- Forall _ _ => constructor end; unfold apart; cbn [fst snd]; split_and?; lia.

Lemma karatsuba_exact_witness :
  exists m', c68k_mul_n (Z.to_nat 4) 2 (ramp 48) 8 0 4 4 16 = Val m' /\
    lv m' 8 (2 * 4) = lv (ramp 48) 0 4 * lv (ramp 48) 4 4.
Proof.
  destruct (karatsuba_exact 2 (ramp 48) 8 0 4 4 16) as (m' & E & _ & _ & V); [apply ramp_ok|lia|ramp_areas..|].
  exists m'. exact (conj E V).
Defined.

Lemma mont_mul_spec kl m r x y md ml work :
  mem_ok m -> mont_areas m r x y md ml work ->
  Z.odd (lv m md ml) = true -> lv m x ml * lv m y ml < lv m md ml * W ml ->
  exists m', c68k_mont_mul kl m r x y md ml (c68k_mont_n0inv (lv m md 1)) work = Val m' /\
    keeps [(r, ml); (work, 8 * ml + 2)] m m' /\ mem_ok m' /\
    montgomery (lv m md ml) (W ml) (lv m' r ml) (lv m x ml * lv m y ml).
Proof.
  intros Hm (Hml & Sr & Sx & Sy & Sm & Sw & A) Ho Hy. rewrite !Forall_cons in A. destruct A as (A1 & A2 & A3 & A4 & _).
  unfold apart in *. cbn [fst snd] in *. unfold c68k_mont_mul. rewrite (proj2 (Z.eqb_neq ml 0)) by lia.
  destruct (n0inv_modulus m md ml) as [Hn Hi]; try done.
  pose proof (keeps_refl [(r, ml); (work, 8 * ml + 2)] m) as KK.
  destruct (mul_n_spec kl (Z.to_nat ml) m work x y ml (work + 2 * ml + 1)) as (m1 & E1 & K1 & O1 & V1);
    try done; try areas_only. run E1.
  remember (lv m md ml) as M eqn:HM. symmetry in HM. step KK K1.
  destruct (reduce_final_spec m1 r md ml (c68k_mont_n0inv (lv m md 1)) work (lv m x ml * lv m y ml))
    as (m2 & E2 & K2 & O2 & V2); try done; try areas_only; try (by rewrite HM).
  exists m2. split; [exact E2|]. split_and!; [eapply keeps_trans; eassumption|done|]. by rewrite HM in V2.
Qed.

(** Montgomery multiplication: with an odd modulus [M] of [ml] limbs, the inverse
    of its low limb, a factor [y < M] and any [x], [c68k_mont_mul] returns and the
    result is the one number [v < M] with [v * R = x * y] modulo [M], [R] the weight
    of [ml] limbs.  Only the result and the work area change; the result may be
    [x], [y] or the modulus itself. *)
Theorem mont_mul_correct kl m r x y md ml work :
  mem_ok m -> mont_areas m r x y md ml work ->
  Z.odd (lv m md ml) = true -> lv m y ml < lv m md ml ->
  exists m', c68k_mont_mul kl m r x y md ml (c68k_mont_n0inv (lv m md 1)) work = Val m' /\
    keeps [(r, ml); (work, 8 * ml + 2)] m m' /\ mem_ok m' /\
    montgomery (lv m md ml) (W ml) (lv m' r ml) (lv m x ml * lv m y ml).
Proof.
  intros Hm A Ho Hy. apply mont_mul_spec; try done. destruct A as (? & ? & Sx & Sy & _).
  pose proof (lv_range m x ml Hm Sx). pose proof (lv_range m y ml Hm Sy). nia.
Qed.

Lemma mont_sqr_spec kl m r x md ml work :
  mem_ok m -> mont_areas m r x x md ml work ->
  Z.odd (lv m md ml) = true -> lv m x ml < lv m md ml ->
  exists m', c68k_mont_sqr kl m r x md ml (c68k_mont_n0inv (lv m md 1)) work = Val m' /\
    keeps [(r, ml); (work, 8 * ml + 2)] m m' /\ mem_ok m' /\
    montgomery (lv m md ml) (W ml) (lv m' r ml) (lv m x ml * lv m x ml).
Proof.
  intros Hm (Hml & Sr & Sx & _ & Sm & Sw & A) Ho Hy. rewrite !Forall_cons in A. destruct A as (A1 & A2 & _ & A4 & _).
  unfold apart in *. cbn [fst snd] in *. unfold c68k_mont_sqr. rewrite (proj2 (Z.eqb_neq ml 0)) by lia.
  destruct (n0inv_modulus m md ml) as [Hn Hi]; try done.
  pose proof (lv_range m x ml Hm ltac:(areas)) as RX.
  pose proof (keeps_refl [(r, ml); (work, 8 * ml + 2)] m) as KK.
  destruct (sqr_n_spec kl (Z.to_nat ml) m work x ml (work + 2 * ml + 1)) as (m1 & E1 & K1 & O1 & V1);
    try done; try areas_only. run E1.
  remember (lv m md ml) as M eqn:HM. symmetry in HM. step KK K1.
  destruct (reduce_final_spec m1 r md ml (c68k_mont_n0inv (lv m md 1)) work (lv m x ml * lv m x ml))
    as (m2 & E2 & K2 & O2 & V2); try done; try areas_only; try (by rewrite HM).
  { rewrite HM. nia. }
  exists m2. split; [exact E2|]. split_and!; [eapply keeps_trans; eassumption|done|]. by rewrite HM in V2.
Qed.

(** Squaring in Montgomery form is the product with itself, through its own
    routine. *)
Theorem mont_sqr_correct kl m r x md ml work :
  mem_ok m -> mont_areas m r x x md ml work ->
  Z.odd (lv m md ml) = true -> lv m x ml < lv m md ml ->
  exists m', c68k_mont_sqr kl m r x md ml (c68k_mont_n0inv (lv m md 1)) work = Val m' /\
    keeps [(r, ml); (work, 8 * ml + 2)] m m' /\ mem_ok m' /\
    montgomery (lv m md ml) (W ml) (lv m' r ml) (lv m x ml * lv m x ml).
Proof. apply mont_sqr_spec. Qed.

Lemma mont_mul_correct_witness :
  exists m', c68k_mont_mul 64 (ramp 64) 4 4 8 0 4 (c68k_mont_n0inv (lv (ramp 64) 0 1)) 16 = Val m' /\
    montgomery (lv (ramp 64) 0 4) (W 4) (lv m' 4 4) (lv (ramp 64) 4 4 * lv (ramp 64) 8 4).
Proof.
  destruct (mont_mul_correct 64 (ramp 64) 4 4 8 0 4 16) as (m' & E & _ & _ & V);
    [apply ramp_ok|ramp_areas|by vm_compute|by vm_compute|]. exists m'. exact (conj E V).
Defined.

Lemma mont_sqr_correct_witness :
  exists m', c68k_mont_sqr 2 (ramp 64) 12 8 0 4 (c68k_mont_n0inv (lv (ramp 64) 0 1)) 16 = Val m' /\
    montgomery (lv (ramp 64) 0 4) (W 4) (lv m' 12 4) (lv (ramp 64) 8 4 * lv (ramp 64) 8 4).
Proof.
  destruct (mont_sqr_correct 2 (ramp 64) 12 8 0 4 16) as (m' & E & _ & _ & V);
    [apply ramp_ok|ramp_areas|by vm_compute|by vm_compute|]. exists m'. exact (conj E V).
Defined.
