(* ===== verification/C68kDiv.v ===== *)
(** * Long division (src/src/crypto68k/c68k_div.c)

    [c68k_mod] is Knuth's algorithm D: normalise, estimate a quotient limb from the
    top limbs, correct the estimate at most twice, multiply and subtract, add back
    once if the estimate was still one too large.  The correction loop has no bound
    in the code; its fuel of three is always enough, because every pass adds a limb
    with its top bit set to [rhat]. *)

From Stdlib Require Import ZArith Lia.
From stdpp Require Import base numbers list.
From S2P Require Import Prelude.
From S2P Require Import Udivdi3.
From S2P Require Import Limbs.
From S2P Require Import C68kPrim.
From S2P Require Import C68kMont.
From S2P Require Import C68kMul.

(** ** The code *)

Definition shl_step (s carry v : Z) : Z * Z :=
  (Z.shiftr v (32 - s), Z.lor (v <<w s) carry).

(** The bits shifted out, and the memory. *)
Definition d_shl (m : list Z) (dst src n s : Z) : outcome (Z * list Z) :=
  if s =? 0 then let! m := c68k_copy_n m dst src n in Val (0, m)
  else loop1 (shl_step s) (Z.to_nat n) m dst src 0.

(** [k] limbs left; the last one takes nothing from above. *)
Fixpoint shr_from (k : nat) (m : list Z) (dst src s : Z) : outcome (list Z) :=
  match k with
  | O => Val m
  | S k' =>
      let! x := ld m src in
      let! hi := (if (0 <? k')%nat then let! y := ld m (src + 1) in Val (y <<w (32 - s)) else Val 0) in
      let! m := st m dst (Z.lor (Z.shiftr x s) hi) in
      shr_from k' m (dst + 1) (src + 1) s
  end.

Definition d_shr (m : list Z) (dst src n s : Z) : outcome (list Z) :=
  if s =? 0 then c68k_copy_n m dst src n else shr_from (Z.to_nat n) m dst src s.

(** [while ((v & 0x80000000) == 0)]. *)
Fixpoint clz_from (fuel : nat) (v n : Z) : outcome Z :=
  if Z.land v 0x80000000 =? 0 then
    match fuel with
    | O => Spin
    | S fuel' => clz_from fuel' (v <<w 1) (n + 1)
    end
  else Val n.

Definition d_clz (v : Z) : outcome Z := if v =? 0 then Val 32 else clz_from 32 v 0.

(** [rem[i] = (i < u_len) ? u[i] : 0], [k] limbs to go and [left_] limbs of [u]. *)
Fixpoint pad_from (k : nat) (m : list Z) (rem u left_ : Z) : outcome (list Z) :=
  match k with
  | O => Val m
  | S k' =>
      let! v := (if 0 <? left_ then ld m u else Val 0) in
      let! m := st m rem v in
      pad_from k' m (rem + 1) (u + 1) (left_ - 1)
  end.

(** [for (j = u_len - 1; j >= 0; j--)] for a divisor of one limb; [j] is [k - 1]. *)
Fixpoint mod_1_from (k : nat) (m : list Z) (u d rhat : Z) : outcome Z :=
  match k with
  | O => Val rhat
  | S k' =>
      let! x := ld m (u + Z.of_nat k') in
      let! (_, rhat) := c68k_div_2by1 rhat x d in
      mod_1_from k' m u d rhat
  end.

(** The [for (;;)] that corrects the estimate. *)
Fixpoint correct (fuel : nat) (qhat rhat v1 v2 u2 : Z) : outcome Z :=
  if u64 (qhat * v2) <=? Z.lor (u64 (Z.shiftl rhat 32)) u2 then Val qhat
  else match fuel with
  | O => Spin
  | S fuel' =>
      let qhat := qhat -w 1 in
      let num := u64 (rhat + v1) in
      if negb (Z.shiftr num 32 =? 0) then Val qhat else correct fuel' qhat (u32 num) v1 v2 u2
  end.

(** The quotient limb for the top limbs [top], [u1], [u2] over [v1], [v2]. *)
Definition estimate_limb (top u1 u2 v1 v2 : Z) : outcome Z :=
  if v1 <=? top then
    let num := u64 (u1 + v1) in
    if negb (Z.shiftr num 32 =? 0) then Val 0xFFFFFFFF
    else correct 3 0xFFFFFFFF (u32 num) v1 v2 u2
  else
    let! (qhat, rhat) := c68k_div_2by1 top u1 v1 in
    correct 3 qhat rhat v1 v2 u2.

(** From [subtract:] on; [uj] is [&un[j]]. *)
Definition mod_subtract (m : list Z) (uj vn n qhat : Z) : outcome (list Z) :=
  let! (borrow, m) := c68k_submul_1 m uj vn n qhat in
  let! top := ld m (uj + n) in
  if top <? borrow then
    let! m := st m (uj + n) (top -w borrow) in
    let! (carry, m) := c68k_add m uj vn n in
    upd m (uj + n) (fun v => v +w carry)
  else st m (uj + n) (top -w borrow).

(** [for (j = u_len - n; j >= 0; j--)]; [j] is [k - 1]. *)
Fixpoint mod_from (k : nat) (m : list Z) (un vn n : Z) : outcome (list Z) :=
  match k with
  | O => Val m
  | S k' =>
      let uj := un + Z.of_nat k' in
      let! top := ld m (uj + n) in
      let! v1 := ld m (vn + (n - 1)) in
      let! v2 := ld m (vn + (n - 2)) in
      let! u1 := ld m (uj + (n - 1)) in
      let! u2 := ld m (uj + (n - 2)) in
      let! qhat := estimate_limb top u1 u2 v1 v2 in
      let! m := mod_subtract m uj vn n qhat in
      mod_from k' m un vn n
  end.

Definition c68k_mod (m : list Z) (rem u u_len md m_len scratch : Z) : outcome (list Z) :=
  let n := m_len in
  if (n =? 0) || (u_len <? n) then pad_from (Z.to_nat n) m rem u u_len
  else if n =? 1 then
    let! d := ld m md in
    let! rhat := mod_1_from (Z.to_nat u_len) m u d 0 in
    st m rem rhat
  else
    let un := scratch in
    let vn := un + u_len + 1 in
    let! mt := ld m (md + (n - 1)) in
    let! s := d_clz mt in
    let! (_, m) := d_shl m vn md n s in
    let! (out, m) := d_shl m un u u_len s in
    let! m := st m (un + u_len) out in
    let! m := mod_from (Z.to_nat (u_len - n + 1)) m un vn n in
    d_shr m rem un n s.

(** ** Shifts *)

Lemma shl_map s l : forall carry,
  0 < s < 32 -> mem_ok l -> 0 <= carry < 2 ^ s ->
  let r := map1 (shl_step s) carry l in
  0 <= r.1 < 2 ^ s /\ mem_ok r.2 /\ val r.2 + W (Z.of_nat (length l)) * r.1 = val l * 2 ^ s + carry.
Proof.
  induction l as [|x l IH]; intros carry Hs Hl Hc.
  { cbn [map1 fst snd val length]. change (W (Z.of_nat 0)) with 1. split_and!; try lia. constructor. }
  apply Forall_cons_1 in Hl as [Hx Hl]. cbn [map1].
  assert (E2 : 2 ^ (32 - s) * 2 ^ s = 2 ^ 32) by (rewrite <- Z.pow_add_r by lia; f_equal; lia).
  assert (P1 : 0 < 2 ^ s) by (apply Z.pow_pos_nonneg; lia).
  assert (P2 : 0 < 2 ^ (32 - s)) by (apply Z.pow_pos_nonneg; lia).
  set (hi := x / 2 ^ (32 - s)). set (lo := x mod 2 ^ (32 - s)).
  assert (Ex : x = 2 ^ (32 - s) * hi + lo) by (apply Z.div_mod; lia).
  assert (Hlo : 0 <= lo < 2 ^ (32 - s)) by (apply Z.mod_pos_bound; lia).
  assert (Hhi : 0 <= hi < 2 ^ s).
  { split; [apply Z.div_pos; word_lia|apply Z.div_lt_upper_bound; word_lia]. }
  assert (E : shl_step s carry x = (hi, lo * 2 ^ s + carry)).
  { unfold shl_step. rewrite Z.shiftr_div_pow2 by lia. fold hi. f_equal.
    assert (Eu : u32 (Z.shiftl x s) = Z.shiftl lo s).
    { rewrite !Z.shiftl_mul_pow2 by lia. symmetry. apply (Z.mod_unique _ _ hi); [left; nia|]. rewrite Ex at 1. nia. }
    rewrite Eu. apply lor_shift_add; lia. }
  rewrite E. destruct (IH hi) as (Hr & Hok & Hv); try done.
  destruct (map1 _ hi l) as [c' out]. cbn [fst snd] in *. cbn [length val].
  replace (Z.of_nat (S (length l))) with (Z.of_nat (length l) + 1) by lia. rewrite W_S by lia.
  split_and!; [lia|lia|constructor; [unfold is_u32; nia|done]|].
  rewrite Ex. apply (f_equal (Z.mul (2 ^ 32))) in Hv.
  transitivity (lo * 2 ^ s + carry + 2 ^ 32 * (val out + W (Z.of_nat (length l)) * c')); [ring|].
  rewrite Z.mul_add_distr_l. rewrite Z.mul_add_distr_l in Hv. rewrite Hv. nia.
Qed.

Lemma d_shl_spec m dst src n s :
  mem_ok m -> span m dst n -> span m src n -> dst <= src \/ src + n <= dst -> 0 <= s < 32 ->
  exists c m', d_shl m dst src n s = Val (c, m') /\ keeps [(dst, n)] m m' /\ mem_ok m' /\
    0 <= c < 2 ^ s /\ lv m' dst n + W n * c = lv m src n * 2 ^ s.
Proof.
  intros Hm Hd Hs Hal Hsr. unfold d_shl. destruct (Z.eqb_spec s 0) as [->|Hs0].
  - destruct (copy_n_spec m dst src n) as (m' & E & K & O & V); try done. run E.
    exists 0, m'. split_and!; try done. unfold lv. rewrite V. lia.
  - rewrite loop1_spec by done. destruct (slices_length m src src n Hs Hs) as [L1 _].
    pose proof (Z.pow_pos_nonneg 2 s ltac:(lia) ltac:(lia)).
    destruct (shl_map s (slice m src n) 0) as (Hc & Hok & Hv); auto using mem_ok_slice; [lia|lia|].
    pose proof (map1_length (shl_step s) 0 (slice m src n)) as L3.
    destruct (map1 _ _ _) as [c out]. cbn [fst snd] in *.
    destruct (splice_result m dst out n) as (K & O & V); [lia|done..|].
    eexists _, _. split; [reflexivity|]. split_and!; [done|done|lia|lia|].
    rewrite V. rewrite L1 in Hv. unfold lv. lia.
Qed.

Lemma shr_from_spec s k : forall m dst src,
  0 < s < 32 -> mem_ok m -> span m dst (Z.of_nat k) -> span m src (Z.of_nat k) ->
  dst <= src \/ src + Z.of_nat k <= dst ->
  exists m', shr_from k m dst src s = Val m' /\ keeps [(dst, Z.of_nat k)] m m' /\ mem_ok m' /\
    lv m' dst (Z.of_nat k) = lv m src (Z.of_nat k) / 2 ^ s.
Proof.
  induction k as [|k IH]; intros m dst src Hs Hm Hd Hsr Hal.
  { exists m. cbn [shr_from]. rewrite !lv_0. split_and!; [done|apply keeps_refl|done|]. by rewrite Z.div_0_l by (apply Z.pow_nonzero; lia). }
  assert (P1 : 0 < 2 ^ s) by (apply Z.pow_pos_nonneg; lia).
  assert (P2 : 0 < 2 ^ (32 - s)) by (apply Z.pow_pos_nonneg; lia).
  assert (E2 : 2 ^ (32 - s) * 2 ^ s = 2 ^ 32) by (rewrite <- Z.pow_add_r by lia; f_equal; lia).
  set (K := Z.of_nat k) in *. assert (EK : Z.of_nat (S k) = 1 + K) by lia. rewrite !EK in *.
  assert (HK : 0 <= K) by lia. cbn [shr_from]. rewrite ld_val by areas. cbn [obind].
  pose proof (lv_range m src 1 Hm ltac:(areas)) as Rx. rewrite W_1 in Rx. set (x := lv m src 1) in *.
  set (hi := lv m (src + 1) K mod 2 ^ s).
  assert (Hhi : 0 <= hi < 2 ^ s) by (apply Z.mod_pos_bound; lia).
  assert (Ehi : (if (0 <? k)%nat then let! y := ld m (src + 1) in Val (y <<w (32 - s)) else Val 0)
                = Val (Z.shiftl hi (32 - s))).
  { destruct (Nat.ltb_spec 0 k) as [Hk|Hk].
    - rewrite ld_val by areas. cbn [obind]. f_equal.
      assert (Em : hi = lv m (src + 1) 1 mod 2 ^ s).
      { unfold hi. replace K with (1 + (K - 1)) by lia. rewrite lv_app, W_1 by areas.
        replace (2 ^ 32) with (2 ^ (32 - s) * 2 ^ s) by done.
        replace (lv m (src + 1) 1 + 2 ^ (32 - s) * 2 ^ s * lv m (src + 1 + 1) (K - 1))
          with (lv m (src + 1) 1 + 2 ^ (32 - s) * lv m (src + 1 + 1) (K - 1) * 2 ^ s) by ring.
        apply Z_mod_plus_full. }
      rewrite Em, !Z.shiftl_mul_pow2 by lia. unfold u32.
      replace (2 ^ 32) with (2 ^ s * 2 ^ (32 - s)) by lia. rewrite Z.mul_mod_distr_r by lia. done.
    - unfold hi. replace K with 0 by lia. rewrite lv_0, Z.mod_0_l by lia. by rewrite Z.shiftl_0_l. }
  rewrite Ehi. cbn [obind].
  assert (Ev : Z.lor (Z.shiftr x s) (Z.shiftl hi (32 - s)) = x / 2 ^ s + 2 ^ (32 - s) * hi).
  { rewrite Z.lor_comm, Z.shiftr_div_pow2 by lia. rewrite lor_shift_add; [lia|lia|].
    split; [apply Z.div_pos; lia|apply Z.div_lt_upper_bound; lia]. }
  rewrite Ev. set (v := x / 2 ^ s + 2 ^ (32 - s) * hi).
  assert (Hv : is_u32 v).
  { assert (0 <= x / 2 ^ s < 2 ^ (32 - s)) by (split; [apply Z.div_pos; lia|apply Z.div_lt_upper_bound; lia]).
    unfold v, is_u32. nia. }
  destruct (st_val m dst v) as (m1 & E1 & K1 & O1 & V1); [areas|done|done|]. run E1. pose proof (proj1 K1).
  destruct (IH m1 (dst + 1) (src + 1)) as (m2 & E3 & K3 & O3 & V3); try done; try areas_only.
  exists m2. pose proof (proj1 K3). split; [done|]. split_and!; [|done|].
  { eapply keeps_trans; (eapply keeps_within; [eassumption|areas]). }
  rewrite (lv_app m2 dst 1 K), (lv_app m src 1 K), W_1 by areas. fold K in V3. rewrite V3.
  rewrite (keeps_lv _ _ _ dst 1 K3), V1, (keeps_lv _ _ _ (src + 1) K K1) by areas. fold x.
  set (T := lv m (src + 1) K) in *. unfold v.
  assert (ET : 2 ^ 32 * T = 2 ^ (32 - s) * T * 2 ^ s) by (rewrite <- E2; ring).
  rewrite ET, Z.div_add by lia. pose proof (Z.div_mod T (2 ^ s) ltac:(lia)) as ED. fold hi in ED.
  assert (2 ^ (32 - s) * T = 2 ^ 32 * (T / 2 ^ s) + 2 ^ (32 - s) * hi) by (rewrite <- E2, ED at 1; ring). lia.
Qed.

Lemma d_shr_spec m dst src n s :
  mem_ok m -> span m dst n -> span m src n -> dst <= src \/ src + n <= dst -> 0 <= s < 32 ->
  exists m', d_shr m dst src n s = Val m' /\ keeps [(dst, n)] m m' /\ mem_ok m' /\
    lv m' dst n = lv m src n / 2 ^ s.
Proof.
  intros Hm Hd Hs Hal Hsr. unfold d_shr. destruct (Z.eqb_spec s 0) as [->|Hs0].
  - destruct (copy_n_spec m dst src n) as (m' & E & K & O & V); try done.
    exists m'. split_and!; try done. unfold lv. rewrite V. change (2 ^ 0) with 1. by rewrite Z.div_1_r.
  - assert (0 <= n) by apply Hd.
    destruct (shr_from_spec s (Z.to_nat n) m dst src) as (m' & H'); rewrite ?Z2Nat.id in * by lia; try done; [lia|].
    by exists m'.
Qed.

Lemma clz_from_spec fuel : forall v n,
  is_u32 v -> 0 < v -> 2 ^ 31 <= v * 2 ^ Z.of_nat fuel ->
  exists s, clz_from fuel v n = Val (n + s) /\ 0 <= s <= Z.of_nat fuel /\ 2 ^ 31 <= v * 2 ^ s < 2 ^ 32.
Proof.
  induction fuel as [|fuel IH]; intros v n Hv Hp Hb; cbn [clz_from];
    change 0x80000000 with (Z.shiftl (Z.ones 1) 31); rewrite land_field by lia;
    change (2 ^ 1) with 2; assert (Eb : (v / 2 ^ 31) mod 2 * 2 ^ 31 = if v <? 2 ^ 31 then 0 else 2 ^ 31)
      by (bcases; word_lia); rewrite Eb; destruct (Z.ltb_spec v (2 ^ 31)) as [Hlt|Hge]; simpl Z.eqb; cbv iota.
  - change (2 ^ Z.of_nat 0) with 1 in Hb. lia.
  - exists 0. rewrite Z.add_0_r, Z.mul_1_r. split_and!; [done|word_lia..].
  - rewrite Z.shiftl_mul_pow2, u32_small by word_lia. change (2 ^ 1) with 2.
    rewrite Nat2Z.inj_succ, Z.pow_succ_r in Hb by lia.
    destruct (IH (v * 2) (n + 1)) as (s & E & Hs & Hr); [word_lia|lia|lia|].
    exists (s + 1). rewrite E, Z.pow_add_r by lia. split_and!; [f_equal; lia|lia..].
  - exists 0. rewrite Z.add_0_r, Z.mul_1_r. split_and!; [done|word_lia..].
Qed.

Lemma d_clz_spec v :
  is_u32 v -> 0 < v -> exists s, d_clz v = Val s /\ 0 <= s < 32 /\ 2 ^ 31 <= v * 2 ^ s < 2 ^ 32.
Proof.
  intros Hv Hp. unfold d_clz. rewrite (proj2 (Z.eqb_neq v 0)) by lia.
  destruct (clz_from_spec 32 v 0) as (s & E & Hs & Hr); [done|done|change (2 ^ Z.of_nat 32) with (2 ^ 32); lia|].
  exists s. split_and!; [done|lia| |lia..]. destruct (Z_lt_ge_dec s 32) as [|Hge]; [done|].
  assert (s = 32) as -> by lia. change (2 ^ 32) with 4294967296 in *. lia.
Qed.

(** ** The estimate

    [V] is the divisor as [(v1 * B + v2) * D + vr] and [U] the [n + 1] limbs it is
    divided into, [((u0 * B + u1) * B + u2) * D + ur], with [D] the weight of the limbs
    the estimate does not look at. *)

Section Estimate.
Variables (u0 u1 u2 ur v1 v2 vr D : Z).
Let B := 2 ^ 32.
Let U := ((u0 * B + u1) * B + u2) * D + ur.
Let V := (v1 * B + v2) * D + vr.
Hypothesis HD : 0 < D.
Hypothesis Hu : is_u32 u0 /\ is_u32 u1 /\ is_u32 u2 /\ 0 <= ur < D.
Hypothesis Hv : 2 ^ 31 <= v1 < 2 ^ 32 /\ is_u32 v2 /\ 0 <= vr < D.
Hypothesis Hlt : U < B * V.

(** Never below the quotient, and the remainder that goes with it. *)
Definition candidate (q r : Z) : Prop :=
  0 <= q < B /\ 0 <= r /\ q * v1 + r = u0 * B + u1 /\ U < (q + 1) * V.

Lemma candidate_good q r :
  candidate q r -> q * v2 <= r * B + u2 -> (q - 1) * V <= U < (q + 1) * V.
Proof.
  intros (Hq & Hr & E & Hup) Hc. split; [|done].
  assert (H1 : q * (v1 * B + v2) <= (u0 * B + u1) * B + u2) by (rewrite <- E; lia).
  assert (H2 : q * V <= U + q * vr).
  { unfold U, V. apply (Z.mul_le_mono_nonneg_r _ _ D) in H1; [|lia]. lia. }
  assert (H3 : q * vr <= B * D) by (apply Z.mul_le_mono_nonneg; lia).
  assert (H4 : B * D <= V) by (unfold V; unfold is_u32 in *; nia). lia.
Qed.

Lemma candidate_down q r :
  candidate q r -> r * B + u2 < q * v2 -> candidate (q - 1) (r + v1).
Proof.
  intros (Hq & Hr & E & Hup) Hc. assert (1 <= q) by (unfold is_u32 in *; nia).
  split_and!; [lia|unfold B in *; lia|lia|lia|].
  assert (H1 : (u0 * B + u1) * B + u2 + 1 <= q * (v1 * B + v2)) by (rewrite <- E; lia).
  replace (q - 1 + 1) with q by lia.
  apply (Z.mul_le_mono_nonneg_r _ _ D) in H1; [|lia].
  assert (0 <= q * vr) by (apply Z.mul_nonneg_nonneg; lia). unfold U, V. lia.
Qed.

Lemma correct_spec fuel : forall q r,
  candidate q r -> r < B -> B <= r + Z.of_nat fuel * v1 ->
  exists q', correct fuel q r v1 v2 u2 = Val q' /\ 0 <= q' < B /\ (q' - 1) * V <= U < (q' + 1) * V.
Proof.
  assert (HB : B = 2 ^ 32) by done.
  induction fuel as [|fuel IH]; intros q r Hc Hr Hf; [lia|]. cbn [correct].
  pose proof Hc as (Hq & Hr0 & E & Hup). rewrite Z.shiftl_mul_pow2, (u64_small (r * 2 ^ 32)) by word_lia.
  rewrite <- (Z.shiftl_mul_pow2 r 32), lor_shift_add by word_lia. fold B.
  rewrite (u64_small (q * v2)) by (unfold is_u64, is_u32 in *; nia).
  destruct (Z.leb_spec (q * v2) (r * B + u2)) as [Hle|Hgt].
  { exists q. split_and!; try done; try lia; apply (candidate_good q r); done. }
  pose proof (candidate_down q r Hc Hgt) as Hc'. pose proof Hc' as (Hq' & _).
  rewrite (u32_small (q - 1)) by (unfold is_u32; lia).
  rewrite u64_small by word_lia. rewrite Z.shiftr_div_pow2 by lia.
  destruct (Z.eqb_spec ((r + v1) / 2 ^ 32) 0) as [H0|H0]; cbn [negb].
  - assert (r + v1 < B) by (unfold B; word_lia). rewrite u32_small by (unfold is_u32; lia).
    apply IH; [done|done|]. rewrite Nat2Z.inj_succ in Hf. lia.
  - assert (B <= r + v1) by (unfold B; word_lia).
    exists (q - 1). split; [done|]. split; [lia|]. apply (candidate_good _ (r + v1)); [done|].
    assert ((q - 1) * v2 <= B * B) by (apply Z.mul_le_mono_nonneg; unfold is_u32 in *; lia). unfold is_u32 in *. nia.
Qed.

(** The limb the loop subtracts is the quotient or one more. *)
Lemma estimate_limb_spec :
  exists q, estimate_limb u0 u1 u2 v1 v2 = Val q /\ is_u32 q /\ (q - 1) * V <= U < (q + 1) * V.
Proof.
  assert (HB : B = 2 ^ 32) by done. destruct Hu as (H0 & H1 & H2 & Hur). destruct Hv as (Hv1 & Hv2 & Hvr).
  unfold estimate_limb. destruct (Z.leb_spec v1 u0) as [Hge|Hlt'].
  - assert (u0 = v1) as E0.
    { assert (u0 * B * B * D <= U) by (unfold U, is_u32 in *; nia).
      assert (V < (v1 + 1) * B * D) by (unfold V, is_u32 in *; nia). nia. }
    rewrite u64_small, Z.shiftr_div_pow2 by word_lia.
    assert (Hc : candidate (B - 1) (u1 + v1)).
    { split_and!; [lia|lia|word_lia|rewrite E0; ring|]. replace (B - 1 + 1) with B by lia. done. }
    change 0xFFFFFFFF with (B - 1).
    destruct (Z.eqb_spec ((u1 + v1) / 2 ^ 32) 0) as [Hz|Hz]; cbn [negb].
    + rewrite u32_small by word_lia. destruct (correct_spec 3 (B - 1) (u1 + v1)) as (q & E & Hq & Hb);
        [done|word_lia|word_lia|]. exists q. done.
    + exists (B - 1). split; [done|]. split; [unfold is_u32; lia|]. apply (candidate_good _ (u1 + v1)); [done|].
      assert (B <= u1 + v1) by (unfold B; word_lia).
      assert ((B - 1) * v2 <= B * B) by (apply Z.mul_le_mono_nonneg; unfold is_u32 in *; lia). unfold is_u32 in *. nia.
  - rewrite div_2by1_spec by (done || lia). cbn [obind]. fold B. set (a := u0 * B + u1).
    pose proof (Z.div_mod a v1 ltac:(lia)) as Ea. pose proof (Z.mod_pos_bound a v1 ltac:(lia)) as Ra.
    assert (Hq : 0 <= a / v1 < B).
    { split; [apply Z.div_pos; unfold a; word_lia|apply Z.div_lt_upper_bound; unfold a; word_lia]. }
    destruct (correct_spec 3 (a / v1) (a mod v1)) as (q & E & Hq' & Hb); [|lia|lia|by exists q].
    split_and!; [lia|lia|lia|unfold a in *; lia|].
    assert (H3 : u0 * B + u1 + 1 <= (a / v1 + 1) * v1) by (unfold a in *; lia).
    apply (Z.mul_le_mono_nonneg_r _ _ (B * D)) in H3; [|nia].
    assert (0 <= (a / v1 + 1) * (v2 * D + vr)) by (apply Z.mul_nonneg_nonneg; [lia|unfold is_u32 in *; nia]).
    assert (u2 * D + ur < B * D) by (unfold is_u32 in *; nia). unfold U, V. lia.
Qed.
End Estimate.

(** ** The loop *)

(** Multiply and subtract, with the add-back, leaves the remainder. *)
Lemma mod_subtract_spec m uj vn n q U V :
  mem_ok m -> 0 <= n -> span m uj (n + 1) -> span m vn n -> apart vn n (uj, n + 1) -> is_u32 q ->
  lv m uj (n + 1) = U -> lv m vn n = V -> (q - 1) * V <= U < (q + 1) * V ->
  exists m', mod_subtract m uj vn n q = Val m' /\ keeps [(uj, n + 1)] m m' /\ mem_ok m' /\
    lv m' uj n = U mod V.
Proof.
  intros Hm Hn Su Sv A Hq EU EV Hb. unfold apart in A. cbn [fst snd] in A. unfold mod_subtract.
  pose proof (W_pos n Hn) as HW. pose proof (lv_range m vn n Hm ltac:(areas)) as RV. rewrite EV in RV.
  assert (HV : 0 < V) by nia.
  assert (Rem : forall r, 0 <= r < V -> (exists k, U = k * V + r) -> U mod V = r).
  { intros r Hr [k E]. symmetry. apply (Z.mod_unique _ _ k); lia. }
  destruct (submul_1_spec m uj vn n q) as (c & m1 & E1 & K1 & O1 & Hc & V1); [done|areas|areas|lia|done|].
  run E1. pose proof (proj1 K1). rewrite EV in V1. rewrite (lv_app m uj n 1) in EU by areas.
  assert (Etop : lv m1 (uj + n) 1 = lv m (uj + n) 1) by (apply (keeps_lv _ _ _ _ _ K1); areas).
  rewrite ld_val by areas. cbn [obind]. rewrite Etop.
  pose proof (lv_range m (uj + n) 1 Hm ltac:(areas)) as Rt. rewrite W_1 in Rt.
  set (top := lv m (uj + n) 1) in *. pose proof (lv_range m1 uj n O1 ltac:(areas)) as R1.
  assert (E : lv m1 uj n + W n * (top - c) = U - q * V) by lia.
  destruct (Z.ltb_spec top c) as [Hlt|Hge].
  - destruct (st_val m1 (uj + n) (top -w c)) as (m2 & E2 & K2 & O2 & V2); [areas|done|apply u32_range|].
    run E2. pose proof (proj1 K2).
    destruct (add_spec m2 uj vn n) as (k & m3 & E3 & K3 & O3 & Hk & V3); [done|areas|areas|lia|].
    run E3. pose proof (proj1 K3).
    rewrite (keeps_lv _ _ _ uj n K2), (keeps_lv _ _ _ vn n K2), (keeps_lv _ _ _ vn n K1), EV in V3 by areas.
    pose proof (lv_range m3 uj n O3 ltac:(areas)) as R3.
    destruct (upd_spec m3 (uj + n) (fun v => v +w k)) as (m4 & E4 & K4 & O4 & V4); [done|areas|apply u32_range|].
    exists m4. split; [done|]. split_and!; [|done|].
    { eapply keeps_trans; [|eapply keeps_trans; [|eapply keeps_trans]]; (eapply keeps_within; [eassumption|areas]). }
    rewrite (keeps_lv _ _ _ uj n K4) by areas. symmetry.
    assert (top - c + k = 0) by nia. apply Rem; [nia|]. exists (q - 1). nia.
  - destruct (st_val m1 (uj + n) (top -w c)) as (m2 & E2 & K2 & O2 & V2); [areas|done|apply u32_range|].
    exists m2. split; [done|]. split_and!; [|done|].
    { eapply keeps_trans; (eapply keeps_within; [eassumption|areas]). }
    rewrite (keeps_lv _ _ _ uj n K2) by areas. symmetry.
    assert (top - c = 0) by nia. apply Rem; [nia|]. exists q. nia.
Qed.

(** Three limbs off the top. *)
Lemma lv_top3 m p n :
  span m p (n + 1) -> 2 <= n ->
  lv m p (n + 1) = ((lv m (p + n) 1 * 2 ^ 32 + lv m (p + (n - 1)) 1) * 2 ^ 32 + lv m (p + (n - 2)) 1) * W (n - 2)
                   + lv m p (n - 2).
Proof.
  intros Hp Hn. rewrite (lv_app m p n 1) by areas.
  replace n with (n - 1 + 1) at 1 2 by lia. rewrite (lv_app m p (n - 1) 1), (W_S (n - 1)) by areas.
  replace (n - 1) with (n - 2 + 1) at 1 2 4 by lia. rewrite (lv_app m p (n - 2) 1), (W_S (n - 2)) by areas. ring.
Qed.

Lemma lv_top2 m p n :
  span m p n -> 2 <= n ->
  lv m p n = (lv m (p + (n - 1)) 1 * 2 ^ 32 + lv m (p + (n - 2)) 1) * W (n - 2) + lv m p (n - 2).
Proof.
  intros Hp Hn. replace n with (n - 1 + 1) at 1 by lia. rewrite (lv_app m p (n - 1) 1) by areas.
  replace (n - 1) with (n - 2 + 1) at 1 2 by lia. rewrite (lv_app m p (n - 2) 1), (W_S (n - 2)) by areas. ring.
Qed.

Lemma mod_from_spec n V k : forall m un vn,
  mem_ok m -> 2 <= n -> span m un (n + Z.of_nat k) -> span m vn n -> apart vn n (un, n + Z.of_nat k) ->
  lv m vn n = V -> 2 ^ 31 <= lv m (vn + (n - 1)) 1 -> lv m (un + Z.of_nat k) n < V ->
  exists m', mod_from k m un vn n = Val m' /\ keeps [(un, n + Z.of_nat k)] m m' /\ mem_ok m' /\
    lv m' un n = lv m un (n + Z.of_nat k) mod V.
Proof.
  induction k as [|k IH]; intros m un vn Hm Hn Su Sv A EV Hv1 HH.
  { exists m. replace (n + Z.of_nat 0) with n in * by lia. replace (un + Z.of_nat 0) with un in HH by lia.
    pose proof (lv_range m un n Hm ltac:(areas)).
    split_and!; [done|apply keeps_refl|done|]. symmetry. apply Z.mod_small. lia. }
  set (K := Z.of_nat k) in *. assert (EK : Z.of_nat (S k) = K + 1) by lia. rewrite !EK in *.
  assert (HK : 0 <= K) by lia. unfold apart in A. cbn [fst snd] in A.
  cbn [mod_from]. fold K. cbv zeta. rewrite !ld_val by areas. cbn [obind].
  assert (R : forall p, span m p 1 -> is_u32 (lv m p 1)).
  { intros p Hp. pose proof (lv_range m p 1 Hm Hp). rewrite W_1 in *. done. }
  pose proof (W_pos (n - 2) ltac:(lia)) as HD.
  pose proof (lv_range m vn (n - 2) Hm ltac:(areas)) as Rv. pose proof (lv_range m (un + K) (n - 2) Hm ltac:(areas)) as Ru.
  assert (EU : lv m (un + K) (n + 1) = lv m (un + K) 1 + 2 ^ 32 * lv m (un + (K + 1)) n).
  { replace (n + 1) with (1 + n) by lia. rewrite lv_app, W_1 by areas. do 2 f_equal. f_equal. lia. }
  destruct (estimate_limb_spec (lv m (un + K + n) 1) (lv m (un + K + (n - 1)) 1) (lv m (un + K + (n - 2)) 1)
              (lv m (un + K) (n - 2)) (lv m (vn + (n - 1)) 1) (lv m (vn + (n - 2)) 1) (lv m vn (n - 2)) (W (n - 2)))
    as (q & Eq & Hq & Hqb); rewrite <- ?lv_top2, <- ?lv_top3, ?EV in * by areas.
  { done. }
  { split_and!; try lia; apply R; areas. }
  { split_and!; try lia; apply R; areas. }
  { rewrite EU. pose proof (R (un + K) ltac:(areas)). unfold is_u32 in *. lia. }
  run Eq. destruct (mod_subtract_spec m (un + K) vn n q (lv m (un + K) (n + 1)) V) as (m1 & E1 & K1 & O1 & V1);
    try done; try areas_only. run E1. pose proof (proj1 K1).
  assert (HV : 0 < V) by (pose proof (lv_range m (un + (K + 1)) n Hm ltac:(areas)); lia).
  pose proof (Z.mod_pos_bound (lv m (un + K) (n + 1)) V HV).
  destruct (IH m1 un vn) as (m2 & E2 & K2 & O2 & V2); try done; try areas_only.
  { rewrite (keeps_lv _ _ _ vn n K1) by areas. done. }
  { rewrite (keeps_lv _ _ _ (vn + (n - 1)) 1 K1) by areas. done. }
  { rewrite V1. lia. }
  exists m2. split; [done|]. split_and!; [|done|].
  { eapply keeps_trans; (eapply keeps_within; [eassumption|areas]). }
  fold K in V2. rewrite V2. replace (n + K) with (K + n) by lia. replace (n + (K + 1)) with (K + (n + 1)) by lia.
  rewrite (lv_app m1 un K n), (lv_app m un K (n + 1)), V1, (keeps_lv _ _ _ un K K1) by areas.
  rewrite <- (Z.add_mod_idemp_r _ (W K * (_ mod V))), Z.mul_mod_idemp_r, Z.add_mod_idemp_r by lia. done.
Qed.

Lemma pad_from_spec k : forall m rem u left_,
  mem_ok m -> left_ <= Z.of_nat k -> span m rem (Z.of_nat k) -> (0 < left_ -> span m u left_) ->
  rem <= u \/ u + left_ <= rem ->
  exists m', pad_from k m rem u left_ = Val m' /\ keeps [(rem, Z.of_nat k)] m m' /\ mem_ok m' /\
    lv m' rem (Z.of_nat k) = lv m u left_.
Proof.
  assert (L0 : forall m p n, n <= 0 -> lv m p n = 0).
  { intros m p n Hn. unfold lv, slice. by rewrite Z2Nat.nonpos, take_0 by done. }
  induction k as [|k IH]; intros m rem u left_ Hm Hl Sr Su Hal.
  { exists m. cbn [pad_from]. rewrite !L0 by lia. split_and!; [done|apply keeps_refl|done..]. }
  set (K := Z.of_nat k) in *. assert (EK : Z.of_nat (S k) = 1 + K) by lia. rewrite !EK in *.
  assert (HK : 0 <= K) by lia. cbn [pad_from].
  set (v := if 0 <? left_ then lv m u 1 else 0).
  assert (Ev : (if 0 <? left_ then ld m u else Val 0) = Val v /\ is_u32 v).
  { unfold v. destruct (Z.ltb_spec 0 left_) as [Hp|Hp]; [|done]. specialize (Su Hp). split.
    - by rewrite ld_val by areas.
    - pose proof (lv_range m u 1 Hm ltac:(areas)). rewrite W_1 in *. done. }
  destruct Ev as [Ev Hv]. rewrite Ev. cbn [obind].
  destruct (st_val m rem v) as (m1 & E1 & K1 & O1 & V1); [areas|done|done|].
  run E1. pose proof (proj1 K1) as L1.
  destruct (IH m1 (rem + 1) (u + 1) (left_ - 1)) as (m2 & E2 & K2 & O2 & V2); try done; try areas_only; try lia.
  pose proof (proj1 K2). exists m2. split; [done|]. split_and!; [|done|].
  { eapply keeps_trans; (eapply keeps_within; [eassumption|areas]). }
  fold K in V2. rewrite (lv_app m2 rem 1 K), W_1, V2, (keeps_lv _ _ _ rem 1 K2), V1 by areas.
  unfold v. destruct (Z.ltb_spec 0 left_) as [Hp|Hp]; [|by rewrite !L0 by lia]. specialize (Su Hp).
  rewrite (keeps_lv _ _ _ (u + 1) _ K1) by areas. replace left_ with (1 + (left_ - 1)) at 2 by lia.
  rewrite (lv_app m u 1), W_1 by areas. done.
Qed.

Lemma mod_1_from_spec k m u d : forall r,
  mem_ok m -> span m u (Z.of_nat k) -> is_u32 d -> 0 <= r < d ->
  mod_1_from k m u d r = Val ((r * W (Z.of_nat k) + lv m u (Z.of_nat k)) mod d).
Proof.
  induction k as [|k IH]; intros r Hm Su Hd Hr; cbn [mod_1_from].
  { rewrite lv_0. change (W (Z.of_nat 0)) with 1. f_equal. apply Z.mod_unique with 0; lia. }
  set (K := Z.of_nat k) in *. assert (EK : Z.of_nat (S k) = K + 1) by lia. rewrite !EK in *.
  assert (HK : 0 <= K) by lia. rewrite ld_val by areas. cbn [obind].
  pose proof (lv_range m (u + K) 1 Hm ltac:(areas)) as Rx. rewrite W_1 in Rx.
  rewrite div_2by1_spec by (done || (unfold is_u32 in *; lia)). cbn [obind].
  rewrite IH by (done || areas_only || (apply Z.mod_pos_bound; lia)).
  rewrite (lv_app m u K 1), W_S by areas. f_equal.
  rewrite <- Z.add_mod_idemp_l, Z.mul_mod_idemp_l, Z.add_mod_idemp_l by lia. f_equal. ring.
Qed.

(** Scaling by the normalising shift commutes with the remainder. *)
Lemma scaled_mod u v k : 0 < v -> 0 < k -> (u * k) mod (v * k) / k = u mod v.
Proof. intros Hv Hk. rewrite Z.mul_mod_distr_r by lia. apply Z.div_mul. lia. Qed.

(** ** The remainder *)

Lemma val_top_pos m p n :
  mem_ok m -> 1 <= n -> span m p n -> lv m (p + (n - 1)) 1 <> 0 -> W (n - 1) <= lv m p n.
Proof.
  intros Hm Hn Sp Ht. replace n with (n - 1 + 1) at 2 by lia. rewrite (lv_app m p (n - 1) 1) by areas.
  pose proof (lv_range m p (n - 1) Hm ltac:(areas)). pose proof (lv_range m (p + (n - 1)) 1 Hm ltac:(areas)). nia.
Qed.

(** What the areas of one division may share: the dividend may be the scratch itself,
    the remainder may replace the dividend, the divisor or the scratch. *)
Record mod_areas (m : list Z) (rem u u_len md n scratch : Z) : Prop := {
  ma_rem : span m rem n;
  ma_u : span m u u_len;
  ma_md : span m md n;
  ma_scratch : span m scratch (u_len + n + 1);
  ma_md_scratch : apart md n (scratch, u_len + n + 1);
  ma_u_scratch : scratch <= u \/ u + u_len <= scratch;
  ma_u_vn : apart u u_len (scratch + u_len + 1, n);
  ma_rem_scratch : rem <= scratch \/ scratch + n <= rem;
  ma_rem_u : u_len < n -> rem <= u \/ u + u_len <= rem
}.

(** The normalised loop, for a divisor of two limbs or more. *)
Lemma mod_long m rem u u_len md n scratch s :
  mem_ok m -> 2 <= n -> n <= u_len -> mod_areas m rem u u_len md n scratch ->
  0 <= s < 32 -> 2 ^ 31 <= lv m (md + (n - 1)) 1 * 2 ^ s < 2 ^ 32 ->
  exists m',
    (let! (_, m) := d_shl m (scratch + u_len + 1) md n s in
     let! (out, m) := d_shl m scratch u u_len s in
     let! m := st m (scratch + u_len) out in
     let! m := mod_from (Z.to_nat (u_len - n + 1)) m scratch (scratch + u_len + 1) n in
     d_shr m rem scratch n s) = Val m' /\
    keeps [(rem, n); (scratch, u_len + n + 1)] m m' /\ mem_ok m' /\
    lv m' rem n = lv m u u_len mod lv m md n.
Proof.
  intros Hm Hn Hl [] Hs Ht. unfold apart in *. cbn [fst snd] in *.
  set (un := scratch) in *. set (vn := un + u_len + 1) in *. set (M := lv m md n). set (U := lv m u u_len).
  pose proof (Z.pow_pos_nonneg 2 s ltac:(lia) ltac:(lia)) as HS. pose proof (W_pos (n - 1) ltac:(lia)) as HW.
  assert (HM : W (n - 1) <= M).
  { apply val_top_pos; try done; [lia|]. intros E. rewrite E in Ht. lia. }
  assert (HM2 : M * 2 ^ s < W n).
  { unfold M. replace n with (n - 1 + 1) by lia. rewrite (lv_app m md (n - 1) 1), W_S by areas.
    pose proof (lv_range m md (n - 1) Hm ltac:(areas)).
    set (t := lv m (md + (n - 1)) 1) in *. assert (D : 2 ^ 32 mod 2 ^ s = 0).
    { apply Z.mod_divide; [lia|]. exists (2 ^ (32 - s)). rewrite <- Z.pow_add_r by lia. f_equal. lia. }
    assert ((t + 1) * 2 ^ s <= 2 ^ 32).
    { apply Z.mod_divide in D as [c D]; [|lia]. assert (t < c) by nia. nia. }
    nia. }
  destruct (d_shl_spec m vn md n s) as (c1 & m1 & E1 & K1 & O1 & H1 & V1); try done; try areas_only.
  run E1. pose proof (proj1 K1). fold M in V1. pose proof (lv_range m1 vn n O1 ltac:(areas)).
  assert (c1 = 0) by nia. subst c1. rewrite Z.mul_0_r, Z.add_0_r in V1.
  destruct (d_shl_spec m1 un u u_len s) as (c2 & m2 & E2 & K2 & O2 & H2 & V2); try done; try areas_only.
  run E2. pose proof (proj1 K2). rewrite (keeps_lv _ _ _ u u_len K1) in V2 by areas. fold U in V2.
  assert (Hc2 : is_u32 c2).
  { split; [lia|]. apply (Z.lt_le_trans _ (2 ^ s)); [lia|]. apply Z.pow_le_mono_r; lia. }
  destruct (st_val m2 (un + u_len) c2) as (m3 & E3 & K3 & O3 & V3); [areas|done|done|]. run E3. pose proof (proj1 K3).
  set (k := u_len - n + 1) in *. assert (Ek : Z.of_nat (Z.to_nat k) = k) by lia.
  assert (Vun : lv m3 un (u_len + 1) = U * 2 ^ s).
  { rewrite (lv_app m3 un u_len 1), V3, (keeps_lv _ _ _ un u_len K3) by areas. done. }
  assert (Vvn : lv m3 vn n = M * 2 ^ s).
  { rewrite (keeps_lv _ _ _ vn n K3), (keeps_lv _ _ _ vn n K2) by areas. done. }
  destruct (mod_from_spec n (M * 2 ^ s) (Z.to_nat k) m3 un vn) as (m4 & E4 & K4 & O4 & V4);
    rewrite ?Ek; try done; try areas_only.
  { apply Z.lt_pred_le. apply (Z.mul_lt_mono_pos_r (W (n - 1))); [done|].
    pose proof (lv_range m3 vn (n - 1) O3 ltac:(areas)).
    replace n with (n - 1 + 1) in Vvn by lia. rewrite (lv_app m3 vn (n - 1) 1) in Vvn by areas.
    assert (W (n - 1) * 2 ^ 31 <= M * 2 ^ s); [|nia].
    unfold M. replace n with (n - 1 + 1) at 2 by lia. rewrite (lv_app m md (n - 1) 1) by areas.
    pose proof (lv_range m md (n - 1) Hm ltac:(areas)). nia. }
  { pose proof (lv_range m u u_len Hm ltac:(areas)) as RU. fold U in RU. pose proof (W_pos k ltac:(lia)).
    replace (u_len + 1) with (k + n) in Vun by lia. rewrite (lv_app m3 un k n) in Vun by areas.
    pose proof (lv_range m3 un k O3 ltac:(areas)). replace u_len with (k + (n - 1)) in RU by lia.
    rewrite W_add in RU by lia. apply (Z.mul_lt_mono_pos_l (W k)); [lia|]. nia. }
  run E4. pose proof (proj1 K4). rewrite Ek in *. replace (n + k) with (u_len + 1) in * by lia. rewrite Vun in V4.
  destruct (d_shr_spec m4 rem un n s) as (m5 & E5 & K5 & O5 & V5); try done; try areas_only.
  exists m5. split; [done|]. split_and!; [|done|].
  { eapply keeps_trans; [|eapply keeps_trans; [|eapply keeps_trans; [|eapply keeps_trans]]];
      (eapply keeps_within; [eassumption|areas]). }
  rewrite V5, V4. apply scaled_mod; lia.
Qed.

Lemma mod_spec m rem u u_len md n scratch :
  mem_ok m -> 1 <= n -> mod_areas m rem u u_len md n scratch -> lv m (md + (n - 1)) 1 <> 0 ->
  exists m', c68k_mod m rem u u_len md n scratch = Val m' /\
    keeps [(rem, n); (scratch, u_len + n + 1)] m m' /\ mem_ok m' /\
    lv m' rem n = lv m u u_len mod lv m md n.
Proof.
  intros Hm Hn A Ht. pose proof A as []. unfold c68k_mod. rewrite (proj2 (Z.eqb_neq n 0)) by lia. cbn [orb].
  pose proof (val_top_pos m md n Hm Hn ltac:(done) Ht) as HM.
  assert (0 <= u_len) by apply ma_u0. pose proof (lv_range m u u_len Hm ltac:(done)) as RU.
  destruct (Z.ltb_spec u_len n) as [Hlt|Hge].
  { destruct (pad_from_spec (Z.to_nat n) m rem u u_len) as (m' & E & K & O & V);
      rewrite ?Z2Nat.id in * by lia; try done; [lia|auto|].
    exists m'. split_and!; [done|eapply keeps_within; [eassumption|areas]|done|].
    rewrite V. symmetry. apply Z.mod_small. split; [lia|]. apply (Z.lt_le_trans _ (W u_len)); [lia|].
    etransitivity; [|exact HM]. apply Z.pow_le_mono_r; lia. }
  pose proof (lv_range m (md + (n - 1)) 1 Hm ltac:(areas)) as Rt. rewrite W_1 in Rt.
  destruct (Z.eqb_spec n 1) as [->|Hn1].
  - replace (md + (1 - 1)) with md in * by lia. rewrite ld_val by done. cbn [obind].
    rewrite mod_1_from_spec by (rewrite ?Z2Nat.id by lia; done || lia). rewrite Z2Nat.id by lia. cbn [obind].
    pose proof (Z.mod_pos_bound (0 * W u_len + lv m u u_len) (lv m md 1) ltac:(lia)).
    destruct (st_val m rem ((0 * W u_len + lv m u u_len) mod lv m md 1)) as (m' & E & K & O & V);
      [done|done|unfold is_u32; lia|]. exists m'.
    split_and!; [done|eapply keeps_within; [eassumption|areas]|done|rewrite V; f_equal; lia].
  - rewrite ld_val by areas. cbn [obind]. destruct (d_clz_spec (lv m (md + (n - 1)) 1)) as (s & E & Hs & Hr);
      [done|lia|]. run E. apply mod_long; done || lia.
Qed.

(** C34 [c68k_mod] returns with the remainder of the [u_len]-limb dividend by the
    [n]-limb divisor in [rem], whatever the widths, provided the divisor's top limb is
    not zero; it writes [rem] and the scratch and nothing else.  In particular the
    unbounded correction loop ends within three passes. *)
Theorem mod_correct m rem u u_len md n scratch :
  mem_ok m -> 1 <= n -> mod_areas m rem u u_len md n scratch -> lv m (md + (n - 1)) 1 <> 0 ->
  exists m', c68k_mod m rem u u_len md n scratch = Val m' /\
    keeps [(rem, n); (scratch, u_len + n + 1)] m m' /\ mem_ok m' /\
    lv m' rem n = lv m u u_len mod lv m md n.
Proof. apply mod_spec. Qed.

(** A dividend held in the scratch and an estimate that starts at the largest limb:
    [(2^95 - 1) mod (2^63)]. *)
Definition division : list Z :=
  [0; 0; 0; 0x80000000] ++ [0xFFFFFFFF; 0xFFFFFFFF; 0x7FFFFFFF; 0; 0; 0].

Lemma mod_correct_witness :
  exists m', c68k_mod division 0 4 3 2 2 4 = Val m' /\
    keeps [(0, 2); (4, 3 + 2 + 1)] division m' /\ mem_ok m' /\
    lv m' 0 2 = lv division 4 3 mod lv division 2 2.
Proof.
  apply mod_correct; [by repeat constructor|lia|constructor; unfold span, apart; simpl; lia|done].
Defined.
