(* ===== verification/C68kPowm.v ===== *)
(** * Modular exponentiation (src/src/crypto68k/c68k_powm.c)

    The left-to-right sliding window over a table of odd powers in Montgomery form,
    the setup of [R^2 mod m] by either divider, and the entry that takes huge numbers.
    The huge-number routines of the vendored crypto library are not part of this
    repository: they are the operations of [hn_ops], of which [hn_laws] states what
    the code relies on. *)

From Stdlib Require Import ZArith Lia Znumtheory.
From stdpp Require Import base numbers list.
From S2P Require Import Prelude.
From S2P Require Import Udivdi3.
From S2P Require Import Limbs.
From S2P Require Import C68kPrim.
From S2P Require Import C68kMont.
From S2P Require Import C68kMul.
From S2P Require Import C68kModmul.
From S2P Require Import C68kDiv.

(** ** The vendored routines *)

Record hn := Hn {
  nx_crypto_huge_number_data : Z;
  nx_crypto_huge_number_size : Z;
  nx_crypto_huge_buffer_size : Z;
  nx_crypto_huge_number_is_negative : Z
}.

Definition hn_value (m : list Z) (h : hn) : Z :=
  lv m (nx_crypto_huge_number_data h) (nx_crypto_huge_number_size h).

Definition hn_resize (h : hn) (size : Z) : hn :=
  Hn (nx_crypto_huge_number_data h) size (nx_crypto_huge_buffer_size h) (nx_crypto_huge_number_is_negative h).

(** What each does to the memory and to the record it is given a pointer to. *)
Record hn_ops := {
  hn_adjust_size : list Z -> hn -> hn;
  hn_square : list Z -> hn -> hn -> outcome (hn * list Z);
  hn_modulus : list Z -> hn -> hn -> outcome (hn * list Z);
  hn_mont_power_modulus : list Z -> hn -> hn -> hn -> hn -> Z -> outcome (hn * hn * hn * hn * list Z)
}.

(** The room of a number, in limbs. *)
Definition hn_room (h : hn) : Z := nx_crypto_huge_buffer_size h / 4.

Definition hn_fits (m : list Z) (h : hn) : Prop :=
  span m (nx_crypto_huge_number_data h) (hn_room h) /\ 0 <= nx_crypto_huge_number_size h <= hn_room h /\
  nx_crypto_huge_number_is_negative h = 0.

Lemma hn_room_words d size k neg : hn_room (Hn d size (4 * k) neg) = k.
Proof. unfold hn_room. cbn [nx_crypto_huge_buffer_size]. rewrite Z.mul_comm. by apply Z.div_mul. Qed.

(** Projects the fields of a known number. *)
Ltac hn_simpl :=
  unfold hn_fits, hn_value, hn_resize in *;
  cbn [nx_crypto_huge_number_data nx_crypto_huge_number_size nx_crypto_huge_buffer_size
       nx_crypto_huge_number_is_negative] in *;
  rewrite ?hn_room_words in *.

(** What the code relies on: trimming drops zero limbs from the top only, the square
    and the remainder are exact, and both write no more than the room of the number
    they are given. *)
Record hn_laws (ops : hn_ops) : Prop := {
  adjust_law : forall m h, mem_ok m -> hn_fits m h ->
    exists size, hn_adjust_size ops m h = hn_resize h size /\ 0 <= size <= nx_crypto_huge_number_size h /\
      hn_value m (hn_resize h size) = hn_value m h /\
      (hn_value m h <> 0 -> 0 < size /\ lv m (nx_crypto_huge_number_data h + (size - 1)) 1 <> 0) /\
      (hn_value m h = 0 -> size <= 1);
  square_law : forall m l r, mem_ok m -> hn_fits m l -> hn_fits m r ->
    apart (nx_crypto_huge_number_data l) (hn_room l) (nx_crypto_huge_number_data r, hn_room r) ->
    2 * nx_crypto_huge_number_size l <= hn_room r ->
    exists size m', hn_square ops m l r = Val (hn_resize r size, m') /\ 0 <= size <= hn_room r /\
      keeps [(nx_crypto_huge_number_data r, hn_room r)] m m' /\ mem_ok m' /\
      hn_value m' (hn_resize r size) = hn_value m l * hn_value m l;
  modulus_law : forall m l r, mem_ok m -> hn_fits m l -> hn_fits m r ->
    apart (nx_crypto_huge_number_data r) (hn_room r) (nx_crypto_huge_number_data l, hn_room l) ->
    0 < hn_value m r ->
    exists size m', hn_modulus ops m l r = Val (hn_resize l size, m') /\ 0 <= size <= hn_room l /\
      keeps [(nx_crypto_huge_number_data l, hn_room l)] m m' /\ mem_ok m' /\
      hn_value m' (hn_resize l size) = hn_value m l mod hn_value m r
}.

(** ** The code *)

Inductive powm_status := NX_CRYPTO_SUCCESS | NX_CRYPTO_NOT_SUCCESSFUL | NX_CRYPTO_SIZE_ERROR.

Definition c68k_zero (m : list Z) (p n : Z) : outcome (list Z) := c68k_zero_n m p n.
Definition c68k_copy (m : list Z) (dst src n : Z) : outcome (list Z) := c68k_copy_n m dst src n.

Definition c68k_bit (m : list Z) (e i : Z) : outcome Z :=
  let! v := ld m (e + Z.shiftr i 5) in
  Val (Z.land (Z.shiftr v (Z.land i 31)) 1).

(** [while ((e_len > 0) && (e[e_len - 1] == 0))]. *)
Fixpoint bitlen_trim (m : list Z) (e : Z) (e_len : nat) : outcome nat :=
  match e_len with
  | O => Val O
  | S k => let! v := ld m (e + Z.of_nat k) in if v =? 0 then bitlen_trim m e k else Val (S k)
  end.

(** [for (i = 0; i < 32u; i++)] with its [break]. *)
Fixpoint bitlen_top (k : nat) (top bits : Z) : Z :=
  match k with
  | O => bits
  | S k' => if top =? 0 then bits else bitlen_top k' (Z.shiftr top 1) (bits +w 1)
  end.

Definition c68k_bitlen (m : list Z) (e e_len : Z) : outcome Z :=
  let! k := bitlen_trim m e (Z.to_nat e_len) in
  if (k =? 0)%nat then Val 0
  else
    let! top := ld m (e + (Z.of_nat k - 1)) in
    Val (bitlen_top 32 top ((Z.of_nat k -w 1) <<w 5)).

Definition c68k_window_for (bits : Z) : Z :=
  if 671 <? bits then 6
  else if 239 <? bits then 5
  else if 79 <? bits then 4
  else if 23 <? bits then 3
  else 1.

Definition C68K_MONT_WORK_LIMBS (m_len : Z) : Z := (8 *w m_len) +w 2.
Definition C68K_POWM_SCRATCH_LIMBS (m_len w : Z) : Z := ((20 +w (1 <<w (w -w 1))) *w m_len) +w 16.
Definition C68K_POWM_MAX_WINDOW : Z := 6.

(** [while ((w > 1u) && (C68K_POWM_SCRATCH_LIMBS(m_len, w) > scratch_limbs)) w--]. *)
Fixpoint fit_window (fuel : nat) (m_len w scratch_limbs : Z) : outcome Z :=
  if (1 <? w) && (scratch_limbs <? C68K_POWM_SCRATCH_LIMBS m_len w) then
    match fuel with
    | O => Spin
    | S fuel' => fit_window fuel' m_len (w -w 1) scratch_limbs
    end
  else Val w.

Section Powm.
(** The vendored routines and the two tunables of the module. *)
Context (ops : hn_ops) (c68k_karatsuba_limbs c68k_fast_modulus : Z).

(** [R^2 mod m] in [rr], with either divider. *)
Definition c68k_mont_setup_rr (m : list Z) (rr md m_len setup : Z) : outcome (list Z) :=
  let temp := setup in
  let sq := setup + (m_len + 1) in
  let m_hn := hn_adjust_size ops m (Hn md m_len (m_len <<w 2) 0) in
  let! m := c68k_zero m temp m_len in
  let! m := st m (temp + m_len) 1 in
  let temp_hn := Hn temp (m_len +w 1) ((m_len +w 1) <<w 2) 0 in
  let sq_hn := Hn sq 0 (((m_len <<w 1) +w 2) <<w 2) 0 in
  if negb (c68k_fast_modulus =? 0) then
    let! m := c68k_mod m temp temp (m_len +w 1) md m_len (setup + (m_len + 1)) in
    let temp_hn := hn_adjust_size ops m (hn_resize temp_hn m_len) in
    let! (sq_hn, m) := hn_square ops m temp_hn sq_hn in
    let i := nx_crypto_huge_number_size sq_hn in
    let! m := c68k_zero m (sq + i) ((m_len <<w 1) - i) in
    c68k_mod m rr sq (m_len <<w 1) md m_len (setup + (m_len + 1))
  else
    let! (temp_hn, m) := hn_modulus ops m temp_hn m_hn in
    let! (sq_hn, m) := hn_square ops m temp_hn sq_hn in
    let! (sq_hn, m) := hn_modulus ops m sq_hn m_hn in
    let! m := c68k_zero m rr m_len in
    c68k_copy m rr sq (Z.min m_len (nx_crypto_huge_number_size sq_hn)).

(** [table[i] = table[i - 1] * acc] for the [k] entries from [i] on. *)
Fixpoint table_from (k : nat) (m : list Z) (table i acc md m_len n0inv work : Z) : outcome (list Z) :=
  match k with
  | O => Val m
  | S k' =>
      let! m := c68k_mont_mul c68k_karatsuba_limbs m (table + (i *w m_len)) (table + ((i -w 1) *w m_len)) acc md m_len n0inv work in
      table_from k' m table (i + 1) acc md m_len n0inv work
  end.

(** [while (c68k_bit(e, (UINT)low) == 0) low++]. *)
Fixpoint find_low (fuel : nat) (m : list Z) (e low : Z) : outcome Z :=
  let! b := c68k_bit m e low in
  if b =? 0 then
    match fuel with
    | O => Spin
    | S fuel' => find_low fuel' m e (low + 1)
    end
  else Val low.

(** The bits of the window from [p] down, [k] of them. *)
Fixpoint window_bits (k : nat) (m : list Z) (e p value : Z) : outcome Z :=
  match k with
  | O => Val value
  | S k' =>
      let! b := c68k_bit m e p in
      window_bits k' m e (p - 1) (Z.lor (value <<w 1) b)
  end.

Fixpoint sqr_times (k : nat) (m : list Z) (acc md m_len n0inv work : Z) : outcome (list Z) :=
  match k with
  | O => Val m
  | S k' =>
      let! m := c68k_mont_sqr c68k_karatsuba_limbs m acc acc md m_len n0inv work in
      sqr_times k' m acc md m_len n0inv work
  end.

(** One window whose top bit is the set bit [pos]: its low end, and the memory. *)
Definition window_step (m : list Z) (e md m_len n0inv acc work table w : Z) (started : bool) (pos : Z)
  : outcome (Z * list Z) :=
  let low := pos - (w - 1) in
  let low := if low <? 0 then 0 else low in
  let! low := find_low (Z.to_nat w) m e low in
  let window_len := pos - low + 1 in
  let! window_value := window_bits (Z.to_nat window_len) m e pos 0 in
  let entry := table + (Z.shiftr (window_value -w 1) 1 *w m_len) in
  if negb started then
    let! m := c68k_copy m acc entry m_len in Val (low, m)
  else
    let! m := sqr_times (Z.to_nat window_len) m acc md m_len n0inv work in
    let! m := c68k_mont_mul c68k_karatsuba_limbs m acc acc entry md m_len n0inv work in
    Val (low, m).

(** [while (pos >= 0)]. *)
Fixpoint scan (fuel : nat) (m : list Z) (e md m_len n0inv acc work table w : Z) (started : bool) (pos : Z)
  : outcome (list Z) :=
  if pos <? 0 then Val m
  else match fuel with
  | O => Spin
  | S fuel' =>
      let! b := c68k_bit m e pos in
      if b =? 0 then
        let! m := (if started then c68k_mont_sqr c68k_karatsuba_limbs m acc acc md m_len n0inv work else Val m) in
        scan fuel' m e md m_len n0inv acc work table w started (pos - 1)
      else
        let! (low, m) := window_step m e md m_len n0inv acc work table w started pos in
        scan fuel' m e md m_len n0inv acc work table w true (low - 1)
  end.

(** From the Montgomery form of [x] on, for an exponent of [bits] bits. *)
Definition powm_run (m : list Z) (result e md m_len n0inv xm acc one work table w bits : Z)
  : outcome (list Z) :=
  let table_size := 1 <<w (w -w 1) in
  let! m := c68k_copy m table xm m_len in
  let! m := (if 1 <? table_size then
               let! m := c68k_mont_sqr c68k_karatsuba_limbs m acc xm md m_len n0inv work in
               table_from (Z.to_nat (table_size - 1)) m table 1 acc md m_len n0inv work
             else Val m) in
  let! m := scan (Z.to_nat bits) m e md m_len n0inv acc work table w false (s32 bits - 1) in
  c68k_mont_mul c68k_karatsuba_limbs m result acc one md m_len n0inv work.

Definition c68k_mont_power_modulus (m : list Z) (result x x_len e e_len md m_len scratch scratch_limbs : Z)
  : outcome (powm_status * list Z) :=
  let! refused := (if m_len =? 0 then Val true
                   else let! m0 := ld m md in Val ((Z.land m0 1 =? 0) || (m_len <? x_len))) in
  if refused : bool then Val (NX_CRYPTO_NOT_SUCCESSFUL, m)
  else
    let! bits := c68k_bitlen m e e_len in
    let w := c68k_window_for bits in
    let w := if C68K_POWM_MAX_WINDOW <? w then C68K_POWM_MAX_WINDOW else w in
    let! w := fit_window 6 m_len w scratch_limbs in
    if scratch_limbs <? C68K_POWM_SCRATCH_LIMBS m_len 1 then Val (NX_CRYPTO_SIZE_ERROR, m)
    else
      let xm := scratch in
      let acc := xm + m_len in
      let one := acc + m_len in
      let rr := one + m_len in
      let xpad := rr + m_len in
      let work := xpad + m_len in
      let setup := work + C68K_MONT_WORK_LIMBS m_len in
      let table := setup + (7 *w m_len) + 8 in
      let! m0 := ld m md in
      let n0inv := c68k_mont_n0inv m0 in
      let! m := c68k_mont_setup_rr m rr md m_len setup in
      let! m := c68k_zero m xpad m_len in
      let! m := c68k_copy m xpad x x_len in
      let! m := c68k_zero m one m_len in
      let! m := st m one 1 in
      let! m := c68k_mont_mul c68k_karatsuba_limbs m xm xpad rr md m_len n0inv work in
      if bits =? 0 then
        let! c := c68k_cmp m one md m_len in
        let! m := (if 0 <=? c then c68k_zero m result m_len else c68k_copy m result one m_len) in
        Val (NX_CRYPTO_SUCCESS, m)
      else
        let! m := powm_run m result e md m_len n0inv xm acc one work table w bits in
        Val (NX_CRYPTO_SUCCESS, m).

(** The records of [x], [e], [m] and [result] after the call, and the memory. *)
Definition c68k_huge_number_mont_power_modulus (m : list Z) (x e md result : hn) (scratch scratch_limbs : Z)
  : outcome (hn * hn * hn * hn * list Z) :=
  let x := hn_adjust_size ops m x in
  let e := hn_adjust_size ops m e in
  let md := hn_adjust_size ops m md in
  let m_len := nx_crypto_huge_number_size md in
  let! (status, m) := c68k_mont_power_modulus m (nx_crypto_huge_number_data result)
    (nx_crypto_huge_number_data x) (nx_crypto_huge_number_size x)
    (nx_crypto_huge_number_data e) (nx_crypto_huge_number_size e)
    (nx_crypto_huge_number_data md) m_len scratch scratch_limbs in
  match status with
  | NX_CRYPTO_SUCCESS =>
      let result := Hn (nx_crypto_huge_number_data result) m_len (nx_crypto_huge_buffer_size result) 0 in
      Val (x, e, md, hn_adjust_size ops m result, m)
  | _ => hn_mont_power_modulus ops m x e md result scratch
  end.

(** ** [R^2 mod m] *)

Context (laws : hn_laws ops).

Lemma copy_spec m dst src n :
  mem_ok m -> span m dst n -> span m src n -> dst <= src \/ src + n <= dst ->
  exists m', c68k_copy m dst src n = Val m' /\ keeps [(dst, n)] m m' /\ mem_ok m' /\ lv m' dst n = lv m src n.
Proof.
  intros. destruct (copy_n_spec m dst src n) as (m' & E & K & O & V); try done.
  exists m'. split_and!; try done. unfold lv. by rewrite V.
Qed.

(** [R] itself, in [m_len + 1] limbs. *)
Lemma radix_spec m p n :
  mem_ok m -> 0 <= n -> span m p (n + 1) ->
  exists m', (forall k : list Z -> outcome (list Z),
      (let! m := c68k_zero m p n in let! m := st m (p + n) 1 in k m) = k m') /\
    keeps [(p, n + 1)] m m' /\ mem_ok m' /\ lv m' p (n + 1) = W n.
Proof.
  intros Hm Hn Hp. destruct (zero_n_spec m p n) as (m1 & E1 & K1 & O1 & V1); [done|areas|].
  unfold c68k_zero. run E1. pose proof (proj1 K1).
  destruct (st_val m1 (p + n) 1) as (m2 & E2 & K2 & O2 & V2); [areas|done|done|].
  exists m2. pose proof (proj1 K2). split_and!; [intros k; by rewrite E2| |done|].
  - eapply keeps_trans; (eapply keeps_within; [eassumption|areas]).
  - rewrite (lv_app m2 p n 1), V2, (keeps_lv _ _ _ p n K2), V1 by areas. lia.
Qed.

Record rr_areas (m : list Z) (rr md ml setup : Z) : Prop := {
  ra_ml : 1 <= ml < 2 ^ 28;
  ra_rr : span m rr ml;
  ra_md : span m md ml;
  ra_setup : span m setup (4 * ml + 3);
  ra_rr_setup : apart rr ml (setup, 4 * ml + 3);
  ra_md_setup : apart md ml (setup, 4 * ml + 3);
  ra_rr_md : apart rr ml (md, ml);
  ra_top : lv m (md + (ml - 1)) 1 <> 0
}.

Lemma words_of ml :
  1 <= ml < 2 ^ 28 ->
  (ml +w 1 = ml + 1) /\ u32 (Z.shiftl ml 1) = 2 * ml /\ u32 (Z.shiftl ml 2) = 4 * ml /\
  u32 (Z.shiftl (ml + 1) 2) = 4 * (ml + 1) /\ u32 (Z.shiftl (2 * ml +w 2) 2) = 4 * (2 * ml + 2).
Proof.
  intros H. rewrite (u32_small (ml + 1)) by word_lia. rewrite !Z.shiftl_mul_pow2 by lia.
  change (2 ^ 1) with 2. change (2 ^ 2) with 4. rewrite (u32_small (2 * ml + 2)), !u32_small by word_lia. lia.
Qed.

Lemma square_mod R M : 0 < M -> ((R mod M) * (R mod M)) mod M = (R * R) mod M.
Proof. intros. symmetry. apply Z.mul_mod. lia. Qed.

(** The limbs above the value of a number are zero. *)
Lemma lv_cut m p size n :
  mem_ok m -> 0 <= n <= size -> span m p size -> lv m p size < W n -> lv m p size = lv m p n.
Proof.
  intros Hm Hn Sp HV. replace size with (n + (size - n)) in HV |- * by lia.
  rewrite (lv_app m p n (size - n)) in HV |- * by areas.
  pose proof (lv_range m (p + n) (size - n) Hm ltac:(areas)). pose proof (lv_range m p n Hm ltac:(areas)).
  assert (lv m (p + n) (size - n) = 0) as -> by nia. lia.
Qed.

(** A number below [R^2] written in [size] limbs, with zeros after it. *)
Lemma zero_extend m p size n :
  mem_ok m -> 0 <= size -> 0 <= n -> span m p (Z.max size n) -> lv m p size < W n ->
  exists m', c68k_zero m (p + size) (n - size) = Val m' /\ keeps [(p, n)] m m' /\ mem_ok m' /\
    lv m' p n = lv m p size.
Proof.
  intros Hm Hs Hn Sp HV. destruct (Z_le_gt_dec n size) as [Hle|Hgt].
  - exists m. unfold c68k_zero, c68k_zero_n. rewrite Z2Nat.nonpos by lia. split_and!; [done|apply keeps_refl|done|].
    symmetry. apply lv_cut; done || lia || areas_only.
  - destruct (zero_n_spec m (p + size) (n - size)) as (m' & E & K & O & V); [done|areas|].
    exists m'. pose proof (proj1 K). split_and!; [done|eapply keeps_within; [eassumption|areas]|done|].
    replace n with (size + (n - size)) at 1 by lia. rewrite (lv_app m' p size (n - size)), V by areas.
    rewrite (keeps_lv _ _ _ p size K) by areas. lia.
Qed.

Lemma rr_fast_spec m rr md ml setup :
  mem_ok m -> rr_areas m rr md ml setup -> c68k_fast_modulus <> 0 ->
  exists m', c68k_mont_setup_rr m rr md ml setup = Val m' /\
    keeps [(rr, ml); (setup, 4 * ml + 3)] m m' /\ mem_ok m' /\
    lv m' rr ml = (W ml * W ml) mod lv m md ml.
Proof.
  intros Hm [] Hf. unfold apart in *. cbn [fst snd] in *. unfold c68k_mont_setup_rr.
  destruct (words_of ml) as (-> & -> & -> & -> & ->); [done|]. rewrite (proj2 (Z.eqb_neq _ _) Hf). cbn [negb].
  remember (lv m md ml) as M eqn:HM. symmetry in HM. pose proof (W_pos ml ltac:(lia)) as HW.
  assert (HMp : 0 < M < W ml).
  { pose proof (val_top_pos m md ml Hm ltac:(lia) ra_md0 ra_top0). pose proof (W_pos (ml - 1) ltac:(lia)).
    pose proof (lv_range m md ml Hm ltac:(areas)). lia. }
  pose proof (keeps_refl [(rr, ml); (setup, 4 * ml + 3)] m) as KK.
  destruct (radix_spec m setup ml) as (m1 & E1 & K1 & O1 & V1); [done|lia|areas|].
  rewrite E1. step KK K1.
  destruct (mod_spec m1 setup setup (ml + 1) md ml (setup + (ml + 1))) as (m2 & E2 & K2 & O2 & V2);
    [done|lia|constructor; areas_only| |].
  { pose proof ra_top0 as T. rewrite <- (keeps_lv _ _ _ _ _ K1) in T by areas. done. }
  run E2. rewrite V1, HM in V2. step KK K2.
  destruct (adjust_law ops laws m2 (Hn setup ml (4 * (ml + 1)) 0)) as (ts & E & Hts & Vt & _);
    [done|hn_simpl; split_and!; (areas_only || lia)|].
  hn_simpl. rewrite E. rewrite V2 in Vt. clear E.
  destruct (square_law ops laws m2 (Hn setup ts (4 * (ml + 1)) 0) (Hn (setup + (ml + 1)) 0 (4 * (2 * ml + 2)) 0))
    as (ss & m3 & E3 & Hss & K3 & O3 & V3); [done|hn_simpl; (areas_only || (split_and!; (areas_only || lia)))..|].
  hn_simpl. run E3. cbn [nx_crypto_huge_number_size]. rewrite Vt in V3. clear Vt E3. step KK K3.
  pose proof (Z.mod_pos_bound (W ml) M ltac:(lia)) as RR.
  destruct (zero_extend m3 (setup + (ml + 1)) ss (2 * ml)) as (m4 & E4 & K4 & O4 & V4);
    [done|lia|lia|areas|rewrite V3; replace (2 * ml) with (ml + ml) by lia; rewrite W_add by lia; nia|].
  run E4. rewrite V3 in V4. step KK K4.
  destruct (mod_spec m4 rr (setup + (ml + 1)) (2 * ml) md ml (setup + (ml + 1))) as (m5 & E5 & K5 & O5 & V5);
    [done|lia|constructor; areas_only| |].
  { pose proof ra_top0 as T. rewrite <- (keeps_lv _ _ _ _ _ KK) in T by areas. done. }
  exists m5. split_and!; [exact E5|eapply keeps_trans; [exact KK|eapply keeps_within; [exact K5|areas]]|done|].
  rewrite V5, V4. match goal with H : lv m4 md ml = M |- _ => rewrite H end. apply square_mod. lia.
Qed.

(** Copies a number into a wider area. *)
Lemma pad_copy m dst p k n :
  mem_ok m -> 0 <= k <= n -> span m dst n -> span m p k -> apart p k (dst, n) ->
  exists m', (forall A (f : list Z -> outcome A),
      (let! m := c68k_zero m dst n in let! m := c68k_copy m dst p k in f m) = f m') /\
    keeps [(dst, n)] m m' /\ mem_ok m' /\ lv m' dst n = lv m p k.
Proof.
  intros Hm Hk Sd Sp A. unfold apart in A. cbn [fst snd] in A.
  destruct (zero_n_spec m dst n) as (m1 & E1 & K1 & O1 & V1); [done|areas|].
  unfold c68k_zero. run E1. pose proof (proj1 K1).
  destruct (copy_spec m1 dst p k) as (m2 & E2 & K2 & O2 & V2); [done|areas|areas|lia|].
  exists m2. pose proof (proj1 K2). split_and!; [intros B f; by rewrite E2| |done|].
  { eapply keeps_trans; (eapply keeps_within; [eassumption|areas]). }
  replace n with (k + (n - k)) in V1 |- * by lia. rewrite (lv_app m2 dst k (n - k)), V2 by areas.
  rewrite (lv_app m1 dst k (n - k)) in V1 by areas. pose proof (lv_range m1 dst k O1 ltac:(areas)).
  pose proof (lv_range m1 (dst + k) (n - k) O1 ltac:(areas)). pose proof (W_pos k ltac:(lia)).
  rewrite (keeps_lv _ _ _ (dst + k) (n - k) K2), (keeps_lv _ _ _ p k K1) by areas.
  assert (lv m1 (dst + k) (n - k) = 0) as -> by nia. lia.
Qed.

(** Copies the low limbs of a number that fits them all. *)
Lemma copy_extend m dst p size n :
  mem_ok m -> 0 <= n -> 0 <= size -> span m dst n -> span m p (Z.max size n) -> apart dst n (p, Z.max size n) ->
  lv m p size < W n ->
  exists m', (let! m := c68k_zero m dst n in c68k_copy m dst p (Z.min n size)) = Val m' /\
    keeps [(dst, n)] m m' /\ mem_ok m' /\ lv m' dst n = lv m p size.
Proof.
  intros Hm Hn Hs Sd Sp A HV. unfold apart in A. cbn [fst snd] in A.
  destruct (pad_copy m dst p (Z.min n size) n) as (m' & E & K & O & V); [done|lia|areas|areas|areas|].
  exists m'. split_and!; try done.
  - rewrite <- (E _ Val). destruct (c68k_zero m dst n) as [m1| |]; cbn [obind]; [|done..]. by destruct (c68k_copy _ _ _ _).
  - rewrite V. destruct (Z_le_gt_dec n size); [|f_equal; lia]. rewrite (lv_cut m p size n) by (done || lia || areas_only).
    f_equal. lia.
Qed.

Lemma rr_vendored_spec m rr md ml setup :
  mem_ok m -> rr_areas m rr md ml setup -> c68k_fast_modulus = 0 ->
  exists m', c68k_mont_setup_rr m rr md ml setup = Val m' /\
    keeps [(rr, ml); (setup, 4 * ml + 3)] m m' /\ mem_ok m' /\
    lv m' rr ml = (W ml * W ml) mod lv m md ml.
Proof.
  intros Hm [] Hf. unfold apart in *. cbn [fst snd] in *. unfold c68k_mont_setup_rr.
  destruct (words_of ml) as (-> & -> & -> & -> & ->); [done|]. rewrite Hf. cbn [negb Z.eqb].
  destruct (adjust_law ops laws m (Hn md ml (4 * ml) 0)) as (ms & E & Hms & VM & _);
    [done|hn_simpl; split_and!; (areas_only || lia)|]. hn_simpl. rewrite E. clear E.
  remember (lv m md ml) as M eqn:HM. symmetry in HM. pose proof (W_pos ml ltac:(lia)) as HW.
  assert (HMp : 0 < M < W ml).
  { pose proof (val_top_pos m md ml Hm ltac:(lia) ra_md0 ra_top0). pose proof (W_pos (ml - 1) ltac:(lia)).
    pose proof (lv_range m md ml Hm ltac:(areas)). lia. }
  pose proof (keeps_refl [(rr, ml); (setup, 4 * ml + 3)] m) as KK.
  destruct (radix_spec m setup ml) as (m1 & E1 & K1 & O1 & V1); [done|lia|areas|].
  rewrite E1. step KK K1.
  destruct (modulus_law ops laws m1 (Hn setup (ml + 1) (4 * (ml + 1)) 0) (Hn md ms (4 * ml) 0))
    as (ts & m2 & E2 & Hts & K2 & O2 & V2); [done|hn_simpl; (areas_only || lia || (split_and!; (areas_only || lia)))..|].
  hn_simpl. run E2. clear E1 E2. replace (lv m1 md ms) with M in V2 by done. rewrite V1 in V2. step KK K2.
  pose proof (Z.mod_pos_bound (W ml) M ltac:(lia)) as RR.
  destruct (square_law ops laws m2 (Hn setup ts (4 * (ml + 1)) 0) (Hn (setup + (ml + 1)) 0 (4 * (2 * ml + 2)) 0))
    as (ss & m3 & E3 & Hss & K3 & O3 & V3); [done|hn_simpl; (areas_only || lia || (split_and!; (areas_only || lia)))..|].
  hn_simpl. run E3. rewrite V2 in V3. clear E3. step KK K3.
  destruct (modulus_law ops laws m3 (Hn (setup + (ml + 1)) ss (4 * (2 * ml + 2)) 0) (Hn md ms (4 * ml) 0))
    as (rs & m4 & E4 & Hrs & K4 & O4 & V4); [done|hn_simpl; (areas_only || lia || (split_and!; (areas_only || lia)))..|].
  hn_simpl. run E4. cbn [nx_crypto_huge_number_size]. clear E4. rewrite V3 in V4.
  replace (lv m3 md ms) with M in V4 by done. rewrite square_mod in V4 by lia. step KK K4.
  pose proof (Z.mod_pos_bound (W ml * W ml) M ltac:(lia)).
  destruct (copy_extend m4 rr (setup + (ml + 1)) rs ml) as (m5 & E5 & K5 & O5 & V5);
    [done|lia|lia|areas|areas|areas|lia|].
  exists m5. split_and!; [exact E5|eapply keeps_trans; [exact KK|eapply keeps_within; [exact K5|areas]]|done|].
  by rewrite V5, V4.
Qed.

Lemma setup_rr_spec m rr md ml setup :
  mem_ok m -> rr_areas m rr md ml setup ->
  exists m', c68k_mont_setup_rr m rr md ml setup = Val m' /\
    keeps [(rr, ml); (setup, 4 * ml + 3)] m m' /\ mem_ok m' /\
    lv m' rr ml = (W ml * W ml) mod lv m md ml.
Proof.
  intros Hm A. destruct (Z.eq_dec c68k_fast_modulus 0); [by apply rr_vendored_spec|by apply rr_fast_spec].
Qed.

(** ** Bits of the exponent *)

Lemma bit_step E p : 0 <= E -> 0 <= p -> E / 2 ^ p = 2 * (E / 2 ^ (p + 1)) + Z.b2z (Z.testbit E p).
Proof.
  intros HE Hp. rewrite Z.testbit_spec' by done. rewrite Z.pow_add_r, <- Z.div_div by (lia || (apply Z.pow_nonzero; lia)).
  change (2 ^ 1) with 2. apply Z.div_mod. lia.
Qed.

Lemma bit_spec m e e_len i :
  mem_ok m -> span m e e_len -> 0 <= i < 32 * e_len ->
  c68k_bit m e i = Val (Z.b2z (Z.testbit (lv m e e_len) i)).
Proof.
  intros Hm Se Hi. unfold c68k_bit. rewrite Z.shiftr_div_pow2 by lia. change 31 with (Z.ones 5).
  rewrite Z.land_ones by lia. change (2 ^ 5) with 32. set (q := i / 32). set (r := i mod 32).
  assert (Ei : i = 32 * q + r) by (apply Z.div_mod; lia).
  assert (Hr : 0 <= r < 32) by (apply Z.mod_pos_bound; lia). assert (Hq : 0 <= q < e_len) by lia.
  rewrite ld_val by areas. cbn [obind]. f_equal. change 1 with (Z.ones 1). rewrite Z.land_ones by lia.
  rewrite Z.shiftr_div_pow2 by lia. change (2 ^ 1) with 2. rewrite <- Z.testbit_spec' by lia. f_equal.
  replace e_len with (q + (1 + (e_len - q - 1))) by lia. rewrite (lv_app m e q), (lv_app m (e + q) 1), W_1 by areas.
  pose proof (lv_range m e q Hm ltac:(areas)) as R0. pose proof (lv_range m (e + q) 1 Hm ltac:(areas)) as R1.
  rewrite W_1 in R1. set (lo := lv m e q) in *. set (x := lv m (e + q) 1) in *. set (hi := lv m (e + q + 1) _).
  assert (W q = 2 ^ (32 * q)) as -> by done. rewrite Ei, (Z.add_comm (32 * q) r).
  rewrite <- (Z.div_pow2_bits _ (32 * q) r) by lia.
  rewrite (Z.mul_comm (2 ^ (32 * q))), Z.div_add, Z.div_small, Z.add_0_l by (exact R0 || (apply Z.pow_nonzero; lia)).
  rewrite <- (Z.mod_pow2_bits_low (x + _) 32 r) by lia. rewrite (Z.mul_comm (2 ^ 32)), Z_mod_plus_full.
  by rewrite Z.mod_small by lia.
Qed.

Lemma bitlen_trim_spec m e k :
  mem_ok m -> span m e (Z.of_nat k) ->
  exists j, bitlen_trim m e k = Val j /\ (j <= k)%nat /\ lv m e (Z.of_nat k) = lv m e (Z.of_nat j) /\
    ((0 < j)%nat -> lv m (e + (Z.of_nat j - 1)) 1 <> 0).
Proof.
  intros Hm. induction k as [|k IH]; intros Se; cbn [bitlen_trim].
  { exists O. split_and!; [done|lia|done|lia]. }
  replace (Z.of_nat (S k)) with (Z.of_nat k + 1) in * by lia. rewrite ld_val by areas. cbn [obind].
  destruct (Z.eqb_spec (lv m (e + Z.of_nat k) 1) 0) as [H0|H0].
  - destruct IH as (j & E & Hj & V & T); [areas|]. exists j. split_and!; [done|lia| |done].
    rewrite (lv_app m e _ 1), H0, V by areas. lia.
  - exists (S k). split_and!; [done|lia|f_equal; lia|]. intros _. replace (Z.of_nat (S k) - 1) with (Z.of_nat k) by lia. done.
Qed.

Lemma bitlen_top_spec k : forall top bits,
  0 <= top < 2 ^ Z.of_nat k -> 0 <= bits -> bits + Z.of_nat k < 2 ^ 32 ->
  exists j, bitlen_top k top bits = bits + j /\ 0 <= j <= Z.of_nat k /\ top < 2 ^ j /\ (0 < j -> 2 ^ (j - 1) <= top) .
Proof.
  induction k as [|k IH]; intros top bits Ht Hb Hk; cbn [bitlen_top].
  { exists 0. change (2 ^ Z.of_nat 0) with 1 in *. split_and!; lia. }
  rewrite Nat2Z.inj_succ in *. rewrite Z.pow_succ_r in Ht by lia.
  destruct (Z.eqb_spec top 0) as [->|H0]; [exists 0; split_and!; lia|].
  rewrite Z.shiftr_div_pow2 by lia. change (2 ^ 1) with 2. rewrite u32_small by word_lia.
  destruct (IH (top / 2) (bits + 1)) as (j & E & Hj & H1 & H2); [word_lia|lia|lia|].
  exists (j + 1). split_and!; [lia|lia|lia|rewrite Z.pow_add_r by lia; word_lia|].
  intros _. replace (j + 1 - 1) with j by lia. destruct (Z.eq_dec j 0) as [->|Hj0]; [lia|].
  replace j with (j - 1 + 1) by lia. rewrite Z.pow_add_r by lia. specialize (H2 ltac:(lia)). word_lia.
Qed.

Lemma bitlen_spec m e e_len :
  mem_ok m -> span m e e_len -> e_len < 2 ^ 26 ->
  exists bits, c68k_bitlen m e e_len = Val bits /\ 0 <= bits <= 32 * e_len /\ lv m e e_len < 2 ^ bits /\
    (bits = 0 <-> lv m e e_len = 0).
Proof.
  intros Hm Se Hl. unfold c68k_bitlen. assert (He : 0 <= e_len) by apply Se.
  destruct (bitlen_trim_spec m e (Z.to_nat e_len)) as (j & E & Hj & V & T); [done|by rewrite Z2Nat.id|].
  rewrite Z2Nat.id in V by done. run E. rewrite V. destruct (Nat.eqb_spec j 0) as [->|Hj0].
  { exists 0. rewrite lv_0. split_and!; try done; lia. }
  specialize (T ltac:(lia)). set (J := Z.of_nat j) in *. rewrite ld_val by areas. cbn [obind].
  pose proof (lv_range m (e + (J - 1)) 1 Hm ltac:(areas)) as Rt. rewrite W_1 in Rt.
  rewrite (u32_small (J - 1)), Z.shiftl_mul_pow2 by word_lia. change (2 ^ 5) with 32. rewrite u32_small by word_lia.
  destruct (bitlen_top_spec 32 (lv m (e + (J - 1)) 1) ((J - 1) * 32)) as (b & Eb & Hb & H1 & H2);
    [change (2 ^ Z.of_nat 32) with (2 ^ 32); lia|lia|word_lia|]. rewrite Eb.
  eexists. split; [reflexivity|]. split; [lia|].
  assert (Hbp : 0 < b). { destruct (Z.eq_dec b 0) as [->|]; [|lia]. change (2 ^ 0) with 1 in H1. lia. }
  pose proof (lv_range m e (J - 1) Hm ltac:(areas)) as R0. pose proof (W_pos (J - 1) ltac:(lia)).
  assert (EV : lv m e J = lv m e (J - 1) + W (J - 1) * lv m (e + (J - 1)) 1).
  { replace J with (J - 1 + 1) at 1 by lia. by rewrite (lv_app m e (J - 1) 1) by areas. }
  rewrite EV.
  assert (EW : 2 ^ ((J - 1) * 32 + b) = W (J - 1) * 2 ^ b).
  { rewrite Z.pow_add_r by lia. unfold W. do 2 f_equal. lia. }
  rewrite EW. split; [nia|]. split; intros ?; [lia|]. assert (1 <= lv m (e + (J - 1)) 1) by lia. nia.
Qed.
End Powm.
