(* ===== verification/C68kScan.v ===== *)
(** * The sliding window

    The scan of c68k_powm.c over the bits of the exponent: the accumulator is, before
    every bit, the base to the power of the exponent's bits above it, in Montgomery
    form; every window reads an odd number the table has a power for. *)

From Stdlib Require Import ZArith Lia.
From stdpp Require Import base numbers list.
From S2P Require Import Prelude.
From S2P Require Import Limbs.
From S2P Require Import C68kPrim.
From S2P Require Import C68kMont.
From S2P Require Import C68kMul.
From S2P Require Import C68kModmul.
From S2P Require Import C68kPowm.

Section Powm.
Context (c68k_karatsuba_limbs : Z).

(** [mform M R v a]: [v] is [a] in Montgomery form. *)

Definition mform (M R v a : Z) : Prop := 0 <= v < M /\ (M | v - a * R).

Lemma mont_divides M R v T : 0 < M -> montgomery M R v T -> 0 <= v < M /\ (M | v * R - T).
Proof.
  intros HM [Hv E]. split; [done|]. apply Z.mod_divide; [lia|]. rewrite Zminus_mod, E, Z.sub_diag. apply Z.mod_0_l. lia.
Qed.

Lemma odd_cancel M n a : Z.odd M = true -> 0 <= n -> (M | a * W n) -> (M | a).
Proof.
  intros Ho Hn. apply Z.odd_spec in Ho as [h Hh]. unfold W.
  assert (H : forall k, 0 <= k -> forall a, (M | a * 2 ^ k) -> (M | a)); [|apply H; lia].
  clear Hn. intros k Hk. pattern k. revert k Hk. apply natlike_ind.
  - intros b. by rewrite Z.mul_1_r.
  - intros k Hk IH b D. rewrite Z.pow_succ_r in D by done. apply IH.
    destruct D as [q Hq]. exists (b * 2 ^ k - h * q).
    rewrite Z.mul_sub_distr_r, <- (Z.mul_assoc h q M), <- Hq, Hh. ring.
Qed.

Section Form.
Context (M n : Z) (HM : 0 < M) (Ho : Z.odd M = true) (Hn : 0 <= n).

Lemma mform_mul v x y a b :
  montgomery M (W n) v (x * y) -> mform M (W n) x a -> mform M (W n) y b -> mform M (W n) v (a * b).
Proof.
  intros Hv [_ [i Hi]] [_ [j Hj]]. apply mont_divides in Hv as [Rv [k Hk]]; [|done]. split; [done|].
  apply (odd_cancel _ n); [done..|]. exists (k + i * b * W n + j * a * W n + i * j * M).
  replace x with (i * M + a * W n) in Hk by lia. replace y with (j * M + b * W n) in Hk by lia.
  replace ((v - a * b * W n) * W n) with (v * W n - a * b * (W n * W n)) by ring.
  replace (v * W n) with (k * M + (i * M + a * W n) * (j * M + b * W n)) by lia. ring.
Qed.

Lemma mform_in v x rr : montgomery M (W n) v (x * rr) -> rr = (W n * W n) mod M -> mform M (W n) v x.
Proof.
  intros Hv Er. apply mont_divides in Hv as [Rv [k Hk]]; [|done]. split; [done|].
  apply (odd_cancel _ n); [done..|]. pose proof (Z.div_mod (W n * W n) M ltac:(lia)) as D. rewrite <- Er in D.
  exists (k - x * (W n * W n / M)). nia.
Qed.

Lemma mform_out v x a : montgomery M (W n) v (x * 1) -> mform M (W n) x a -> v = a mod M.
Proof.
  intros Hv [_ [i Hi]]. apply mont_divides in Hv as [Rv [k Hk]]; [|done].
  assert (D : (M | v - a)) by (apply (odd_cancel _ n); [done..|]; exists (k + i); lia).
  destruct D as [q Hq]. apply (Z.mod_unique _ _ (- q)); lia.
Qed.
End Form.

(** The areas of the scan and what they hold: the modulus, its low limb, the exponent. *)
Record scan_ready (e e_len md ml acc work table tl ts M m0 E : Z) (m : list Z) : Prop := {
  sr_ok : mem_ok m;
  sr_ml : 1 <= ml < 2 ^ 24;
  sr_tl : 1 <= tl <= 32;
  sr_e : span m e e_len;
  sr_md : span m md ml;
  sr_acc : span m acc ml;
  sr_work : span m work (8 * ml + 2);
  sr_table : span m table ts;
  sr_ts : ts = tl * ml;
  sr_acc_work : apart acc ml (work, 8 * ml + 2);
  sr_md_work : apart md ml (work, 8 * ml + 2) /\ apart md ml (acc, ml) /\ apart md ml (table, ts);
  sr_e_work : apart e e_len (work, 8 * ml + 2) /\ apart e e_len (acc, ml) /\ apart e e_len (table, ts);
  sr_table_work : apart table ts (work, 8 * ml + 2) /\ apart table ts (acc, ml);
  sr_M : lv m md ml = M;
  sr_m0 : lv m md 1 = m0;
  sr_E : lv m e e_len = E
}.

Section Scan.
Context (e e_len md ml acc work table tl ts M m0 E X : Z).
Context (HM : 0 < M) (Ho : Z.odd M = true) (HE : 0 <= E).
Local Abbreviation ready := (scan_ready e e_len md ml acc work table tl ts M m0 E).
Local Abbreviation form := (mform M (W ml)).

Lemma ready_keeps m m' :
  ready m -> keeps [(acc, ml); (work, 8 * ml + 2); (table, ts)] m m' -> mem_ok m' -> ready m'.
Proof.
  intros [] K O'. pose proof (proj1 K). unfold apart in *. cbn [fst snd] in *.
  constructor; try done; try areas_only; rewrite (keeps_lv _ _ _ _ _ K) by areas; done.
Qed.

Lemma ready_scan m m' : ready m -> keeps [(acc, ml); (work, 8 * ml + 2)] m m' -> mem_ok m' -> ready m'.
Proof. intros A K O'. eapply ready_keeps; [exact A|eapply keeps_within; [exact K|areas]|done]. Qed.

Lemma ready_values m : ready m -> lv m md ml = M /\ lv m md 1 = m0 /\ lv m e e_len = E.
Proof. by intros []. Qed.

(** A product of two numbers in Montgomery form. *)
Lemma mul_form m r x y a b :
  ready m -> span m r ml -> span m x ml -> span m y ml ->
  Forall (fun p => apart p ml (work, 8 * ml + 2)) [r; x; y] ->
  form (lv m x ml) a -> form (lv m y ml) b ->
  exists m', c68k_mont_mul c68k_karatsuba_limbs m r x y md ml (c68k_mont_n0inv m0) work = Val m' /\
    keeps [(r, ml); (work, 8 * ml + 2)] m m' /\ mem_ok m' /\ form (lv m' r ml) (a * b).
Proof.
  intros [] Sr Sx Sy A Fx Fy. rewrite !Forall_cons in A. destruct A as (? & ? & ? & _).
  destruct (mont_mul_spec c68k_karatsuba_limbs m r x y md ml work) as (m' & E' & K & O & V);
    [done|unfold mont_areas; rewrite !Forall_cons, Forall_nil; tauto|by rewrite sr_M0| |].
  { rewrite sr_M0. destruct Fx as [Rx _], Fy as [Ry _]. pose proof (lv_range m md ml sr_ok0 sr_md0) as RM. rewrite sr_M0 in RM. nia. }
  rewrite sr_m1 in E'. rewrite sr_M0 in V. exists m'. split_and!; try done.
  apply (mform_mul M ml HM Ho ltac:(lia) _ (lv m x ml) (lv m y ml)); done.
Qed.

Lemma sqr_form m r x a :
  ready m -> span m r ml -> span m x ml -> Forall (fun p => apart p ml (work, 8 * ml + 2)) [r; x] ->
  form (lv m x ml) a ->
  exists m', c68k_mont_sqr c68k_karatsuba_limbs m r x md ml (c68k_mont_n0inv m0) work = Val m' /\
    keeps [(r, ml); (work, 8 * ml + 2)] m m' /\ mem_ok m' /\ form (lv m' r ml) (a * a).
Proof.
  intros [] Sr Sx A Fx. rewrite !Forall_cons in A. destruct A as (? & ? & _).
  destruct (mont_sqr_spec c68k_karatsuba_limbs m r x md ml work) as (m' & E' & K & O & V);
    [done|unfold mont_areas; rewrite !Forall_cons, Forall_nil; tauto|by rewrite sr_M0|rewrite sr_M0; apply Fx|].
  rewrite sr_m1 in E'. rewrite sr_M0 in V. exists m'. split_and!; try done.
  apply (mform_mul M ml HM Ho ltac:(lia) _ (lv m x ml) (lv m x ml)); done.
Qed.

(** The first [k] odd powers. *)
Definition powers (k : Z) (m : list Z) : Prop :=
  forall i, 0 <= i < k -> form (lv m (table + i * ml) ml) (X ^ (2 * i + 1)).

Lemma entry_span m i : ready m -> 0 <= i < tl -> 0 <= i * ml /\ i * ml + ml <= ts /\ i *w ml = i * ml.
Proof.
  intros [] Hi. assert (0 <= i * ml /\ i * ml + ml <= ts) as [? ?] by (subst ts; nia).
  split_and!; [done..|]. apply u32_small. unfold is_u32. assert (ts <= 32 * ml) by (subst ts; nia). word_lia.
Qed.

Lemma entry_before i j : 0 <= ml -> 0 <= j < i -> 0 <= j * ml /\ j * ml + ml <= i * ml.
Proof. intros. nia. Qed.

Lemma powers_keeps m m' k :
  ready m -> k <= tl -> powers k m -> keeps [(acc, ml); (work, 8 * ml + 2)] m m' -> powers k m'.
Proof.
  intros A Hk Hp K i Hi. destruct (entry_span m i A) as (? & ? & _); [lia|]. destruct A. unfold apart in *. cbn [fst snd] in *.
  specialize (Hp i Hi). set (o := i * ml) in *. rewrite (keeps_lv _ _ _ (table + o) ml K) by areas. done.
Qed.

Lemma odd_power i : 0 <= i -> X ^ (2 * i + 1) * (X * X) = X ^ (2 * (i + 1) + 1).
Proof. intros. replace (2 * (i + 1) + 1) with (2 * i + 1 + 2) by lia. rewrite (Z.pow_add_r X (2 * i + 1) 2), Z.pow_2_r by lia. done. Qed.

Lemma table_from_spec k : forall m i,
  ready m -> 1 <= i -> i + Z.of_nat k = tl -> powers i m -> form (lv m acc ml) (X * X) ->
  exists m', table_from c68k_karatsuba_limbs k m table i acc md ml (c68k_mont_n0inv m0) work = Val m' /\
    keeps [(work, 8 * ml + 2); (table, ts)] m m' /\ mem_ok m' /\ powers tl m'.
Proof.
  induction k as [|k IH]; intros m i A Hi Hk Hp Fa; cbn [table_from].
  { exists m. replace tl with i by lia. split_and!; [done|apply keeps_refl|apply A|done]. }
  destruct (entry_span m i A) as (B1 & B2 & ->); [lia|]. destruct (entry_span m (i - 1) A) as (C1 & C2 & C3); [lia|].
  pose proof A as []. rewrite (u32_small (i - 1)) by word_lia. rewrite C3. unfold apart in *. cbn [fst snd] in *.
  pose proof (Hp (i - 1) ltac:(lia)) as Fp. assert (Eo : (i - 1) * ml = i * ml - ml) by lia.
  rewrite Eo in *. set (o := i * ml) in *.
  destruct (mul_form m (table + o) (table + (o - ml)) acc (X ^ (2 * (i - 1) + 1)) (X * X)) as (m1 & E1 & K1 & O1 & F1);
    try done; try areas_only.
  run E1. pose proof (proj1 K1). rewrite odd_power in F1 by lia. replace (i - 1 + 1) with i in F1 by lia.
  assert (A1 : ready m1) by (eapply ready_keeps; [exact A|eapply keeps_within; [exact K1|areas]|done]).
  destruct (IH m1 (i + 1)) as (m2 & E2 & K2 & O2 & P2); try done; try lia.
  - intros j Hj. destruct (Z.eq_dec j i) as [->|Hne]; [exact F1|]. specialize (Hp j ltac:(lia)).
    assert (Hjo : 0 <= j * ml /\ j * ml + ml <= o) by (apply entry_before; lia). set (oj := j * ml) in *.
    rewrite (keeps_lv _ _ _ (table + oj) ml K1) by areas. done.
  - rewrite (keeps_lv _ _ _ acc ml K1) by areas. done.
  - exists m2. split_and!; try done. eapply keeps_trans; (eapply keeps_within; [eassumption|areas]).
Qed.

Lemma find_low_spec m pos fuel : forall low,
  ready m -> 0 <= low <= pos -> pos < 32 * e_len -> Z.testbit E pos = true -> pos - low <= Z.of_nat fuel ->
  exists l, find_low fuel m e low = Val l /\ low <= l <= pos /\ Z.testbit E l = true.
Proof.
  induction fuel as [|fuel IH]; intros low A Hl Hp Ht Hf; cbn [find_low];
    rewrite (bit_spec m e e_len) by (apply A || lia); rewrite (proj2 (proj2 (ready_values m A))); cbn [obind].
  - assert (low = pos) as -> by lia. rewrite Ht. exists pos. split_and!; done || lia.
  - destruct (Z.testbit E low) eqn:Hb; [exists low; split_and!; done || lia|]. simpl Z.eqb. cbv iota.
    destruct (Z.eq_dec low pos) as [->|Hne]; [congruence|].
    destruct (IH (low + 1)) as (l & E' & Hl' & Hb'); try done; try lia. exists l. split_and!; done || lia.
Qed.

Lemma window_bits_spec m k : forall p v,
  ready m -> -1 <= p - Z.of_nat k -> p < 32 * e_len -> 0 <= v -> (v + 1) * 2 ^ Z.of_nat k <= 2 ^ 31 ->
  exists v', window_bits k m e p v = Val v' /\ v * 2 ^ Z.of_nat k <= v' < (v + 1) * 2 ^ Z.of_nat k /\
    E / 2 ^ (p + 1 - Z.of_nat k) = E / 2 ^ (p + 1) * 2 ^ Z.of_nat k + (v' - v * 2 ^ Z.of_nat k).
Proof.
  induction k as [|k IH]; intros p v A Hp Hb Hv Hw; cbn [window_bits].
  { exists v. rewrite Z.sub_0_r. change (2 ^ Z.of_nat 0) with 1 in *. split_and!; [done|lia..]. }
  rewrite (bit_spec m e e_len) by (apply A || lia). rewrite (proj2 (proj2 (ready_values m A))). cbn [obind].
  rewrite Nat2Z.inj_succ in *. rewrite Z.pow_succ_r in * by lia. set (q := 2 ^ Z.of_nat k) in *.
  assert (Hq : 0 < q) by (apply Z.pow_pos_nonneg; lia). set (b := Z.testbit E p).
  assert (Eb : Z.lor (v <<w 1) (Z.b2z b) = 2 * v + Z.b2z b).
  { rewrite u32_small. { rewrite lor_shift_add; [lia|lia|destruct b; simpl; lia]. }
    rewrite Z.shiftl_mul_pow2 by lia. unfold is_u32. nia. }
  rewrite Eb. assert (Hb2 : 0 <= Z.b2z b <= 1) by (destruct b; simpl; lia).
  destruct (IH (p - 1) (2 * v + Z.b2z b)) as (v' & E' & Rv & V); try done; try lia; [nia|].
  exists v'. split; [done|]. split; [nia|]. replace (p - 1 + 1) with p in V by lia.
  replace (p + 1 - Z.succ (Z.of_nat k)) with (p - Z.of_nat k) by lia. rewrite V, (bit_step E p) by lia. fold b. ring.
Qed.

Lemma sqr_times_spec k : forall m a,
  ready m -> form (lv m acc ml) a ->
  exists m', sqr_times c68k_karatsuba_limbs k m acc md ml (c68k_mont_n0inv m0) work = Val m' /\
    keeps [(acc, ml); (work, 8 * ml + 2)] m m' /\ mem_ok m' /\ form (lv m' acc ml) (a ^ 2 ^ Z.of_nat k).
Proof.
  induction k as [|k IH]; intros m a A Fa; cbn [sqr_times].
  { exists m. change (2 ^ Z.of_nat 0) with 1. rewrite Z.pow_1_r. split_and!; [done|apply keeps_refl|apply A|done]. }
  pose proof A as []. destruct (sqr_form m acc acc a) as (m1 & E1 & K1 & O1 & F1); try done; [by rewrite !Forall_cons|].
  run E1. assert (A1 : ready m1) by (by eapply ready_scan).
  destruct (IH m1 (a * a) A1 F1) as (m2 & E2 & K2 & O2 & F2). exists m2.
  split_and!; [done|eapply keeps_trans; eassumption|done|].
  rewrite Nat2Z.inj_succ, Z.pow_succ_r by lia. rewrite Z.pow_mul_r by lia. by rewrite Z.pow_2_r.
Qed.

(** What the accumulator holds before the bit [p]. *)
Definition holds (started : bool) (m : list Z) (p : Z) : Prop :=
  if started then form (lv m acc ml) (X ^ (E / 2 ^ p)) else E / 2 ^ p = 0.

Lemma window_entry w v : 1 <= w -> 2 ^ (w - 1) = tl -> tl <= 32 -> Z.odd v = true -> 0 <= v < 2 ^ w ->
  0 <= Z.shiftr (v -w 1) 1 < tl /\ 2 * Z.shiftr (v -w 1) 1 + 1 = v.
Proof.
  intros Hw Ht Ht2 Hv Hb. apply Z.odd_spec in Hv as [h Hh]. replace w with (1 + (w - 1)) in Hb by lia.
  rewrite Z.pow_add_r in Hb by lia. rewrite Z.shiftr_div_pow2, u32_small by word_lia.
  change (2 ^ 1) with 2 in *. word_lia.
Qed.

(** The longest window below a set bit: where it ends and what it reads. *)
Lemma window_read m w pos :
  ready m -> 1 <= w <= 6 -> 0 <= pos < 32 * e_len -> Z.testbit E pos = true ->
  exists low v,
    find_low (Z.to_nat w) m e (if pos - (w - 1) <? 0 then 0 else pos - (w - 1)) = Val low /\
    0 <= low <= pos /\ window_bits (Z.to_nat (pos - low + 1)) m e pos 0 = Val v /\
    Z.odd v = true /\ 0 <= v < 2 ^ w /\ E / 2 ^ low = E / 2 ^ (pos + 1) * 2 ^ (pos - low + 1) + v.
Proof.
  intros A Hw Hp Hb. set (start := if _ <? 0 then 0 else _).
  assert (Hs : 0 <= start <= pos /\ pos - start <= w - 1) by (unfold start; bcase; lia).
  destruct (find_low_spec m pos (Z.to_nat w) start) as (low & E1 & Hl & Hlow); try done; try lia.
  set (len := pos - low + 1). assert (Hlen : Z.of_nat (Z.to_nat len) = len) by lia.
  assert (Hpw : 2 ^ len <= 2 ^ w) by (apply Z.pow_le_mono_r; lia).
  assert (Hp6 : 2 ^ w <= 2 ^ 6) by (apply Z.pow_le_mono_r; lia).
  destruct (window_bits_spec m (Z.to_nat len) pos 0) as (v & E2 & Rv & V); rewrite ?Hlen in *; try done; try lia.
  replace (pos + 1 - len) with low in V by lia. rewrite Z.mul_0_l, Z.sub_0_r in V.
  exists low, v. split_and!; try done; try lia.
  assert (Ho2 : Z.odd (E / 2 ^ low) = true).
  { rewrite (bit_step E low), Hlow by lia. rewrite Z.add_comm, Z.odd_add_mul_2. done. }
  rewrite V, Z.odd_add, Z.odd_mul in Ho2. replace len with (1 + (len - 1)) in Ho2 by lia.
  rewrite (Z.pow_add_r 2 1 (len - 1)), Z.odd_mul in Ho2 by lia. change (Z.odd (2 ^ 1)) with false in Ho2.
  by rewrite andb_false_l, andb_false_r, xorb_false_l in Ho2.
Qed.

Lemma window_step_spec m w started pos :
  ready m -> powers tl m -> 1 <= w <= 6 -> 2 ^ (w - 1) = tl -> 0 <= pos < 32 * e_len ->
  Z.testbit E pos = true -> holds started m (pos + 1) ->
  exists low m', window_step c68k_karatsuba_limbs m e md ml (c68k_mont_n0inv m0) acc work table w started pos = Val (low, m') /\
    0 <= low <= pos /\ keeps [(acc, ml); (work, 8 * ml + 2)] m m' /\ mem_ok m' /\ holds true m' low.
Proof.
  intros A P Hw Ht Hp Hb H. unfold window_step, holds in *.
  destruct (window_read m w pos) as (low & v & E1 & Hl & E2 & Hodd & Rv & V); try done. cbv zeta. run E1. run E2.
  destruct (window_entry w v) as [Hi Hv]; try done; [lia|apply A|]. set (i := Z.shiftr (v -w 1) 1) in *.
  destruct (entry_span m i A Hi) as (B1 & B2 & ->). pose proof (P i Hi) as F. rewrite Hv in F.
  set (len := pos - low + 1) in *. assert (Hlen : Z.of_nat (Z.to_nat len) = len /\ 0 <= len) by (unfold len; clear -Hl; lia).
  destruct Hlen as [Hlen Hlen0]. clearbody len. set (o := i * ml) in *. clearbody o i. pose proof A as []. unfold apart in *. cbn [fst snd] in *.
  destruct started; cbn [negb].
  - destruct (sqr_times_spec (Z.to_nat len) m (X ^ (E / 2 ^ (pos + 1)))) as (m1 & E3 & K1 & O1 & F1); [done|done|].
    run E3. pose proof (proj1 K1). rewrite Hlen in F1.
    assert (A1 : ready m1) by (by eapply ready_scan).
    rewrite <- (keeps_lv _ _ _ (table + o) ml K1) in F by areas.
    destruct (mul_form m1 acc acc (table + o) ((X ^ (E / 2 ^ (pos + 1))) ^ (2 ^ len)) (X ^ v)) as (m2 & E4 & K2 & O2 & F2);
      try done; try areas_only.
    run E4. exists low, m2. split_and!; [done|lia|lia|eapply keeps_trans; eassumption|done|].
    rewrite V. rewrite Z.pow_add_r, Z.pow_mul_r; [done|..]; try lia; try (apply Z.div_pos; [lia|apply Z.pow_pos_nonneg; lia]).
    apply Z.mul_nonneg_nonneg; [apply Z.div_pos; [lia|apply Z.pow_pos_nonneg; lia]|apply Z.pow_nonneg; lia].
  - destruct (copy_spec m acc (table + o) ml) as (m1 & E3 & K1 & O1 & V1); [done|areas|areas|lia|].
    run E3. exists low, m1. split_and!; [done|lia|lia|eapply keeps_within; [exact K1|areas]|done|].
    rewrite V1, V, H. rewrite Z.mul_0_l, Z.add_0_l. done.
Qed.

Lemma scan_spec w fuel : forall m started pos,
  ready m -> powers tl m -> 1 <= w <= 6 -> 2 ^ (w - 1) = tl -> -1 <= pos < 32 * e_len -> pos < Z.of_nat fuel ->
  holds started m (pos + 1) ->
  exists m', scan c68k_karatsuba_limbs fuel m e md ml (c68k_mont_n0inv m0) acc work table w started pos = Val m' /\
    keeps [(acc, ml); (work, 8 * ml + 2)] m m' /\ mem_ok m' /\ (E <> 0 -> form (lv m' acc ml) (X ^ E)).
Proof.
  assert (Done : forall m started pos, ready m -> pos < 0 -> -1 <= pos -> holds started m (pos + 1) ->
            exists m', Val m = Val m' /\ keeps [(acc, ml); (work, 8 * ml + 2)] m m' /\ mem_ok m' /\
              (E <> 0 -> form (lv m' acc ml) (X ^ E))).
  { intros m started pos A H1 H2 H. exists m. split_and!; [done|apply keeps_refl|apply A|].
    intros HE0. replace (pos + 1) with 0 in H by lia. unfold holds in H. rewrite Z.div_1_r in H.
    by destruct started. }
  induction fuel as [|fuel IH]; intros m started pos A P Hw Ht Hp Hf H; cbn [scan];
    (destruct (Z.ltb_spec pos 0); [apply (Done m started pos); (assumption || lia)|]); [lia|].
  rewrite (bit_spec m e e_len) by (apply A || lia). rewrite (proj2 (proj2 (ready_values m A))). cbn [obind].
  pose proof A as []. destruct (Z.testbit E pos) eqn:Hb; simpl Z.eqb; cbv iota.
  - destruct (window_step_spec m w started pos) as (low & m1 & E1 & Hl & K1 & O1 & H1); try done; [lia|]. run E1.
    destruct (IH m1 true (low - 1)) as (m2 & E2 & K2 & O2 & F2); try done; try lia.
    { by eapply ready_scan. }
    { by eapply powers_keeps. }
    { by replace (low - 1 + 1) with low by lia. }
    exists m2. split_and!; try done. eapply keeps_trans; eassumption.
  - assert (Eb : E / 2 ^ pos = 2 * (E / 2 ^ (pos + 1))) by (rewrite (bit_step E pos), Hb by lia; simpl; lia).
    assert (S1 : exists m1, (if started then c68k_mont_sqr c68k_karatsuba_limbs m acc acc md ml (c68k_mont_n0inv m0) work
                             else Val m) = Val m1 /\
                  keeps [(acc, ml); (work, 8 * ml + 2)] m m1 /\ mem_ok m1 /\ holds started m1 pos).
    { unfold holds in *. destruct started.
      - destruct (sqr_form m acc acc (X ^ (E / 2 ^ (pos + 1)))) as (m1 & E1 & K1 & O1 & F1); try done; [by rewrite !Forall_cons|].
        exists m1. split_and!; try done. rewrite Eb, Z.mul_comm, Z.pow_mul_r, Z.pow_2_r; [done| |lia].
        apply Z.div_pos; [lia|apply Z.pow_pos_nonneg; lia].
      - exists m. split_and!; [done|apply keeps_refl|done|lia]. }
    destruct S1 as (m1 & E1 & K1 & O1 & H1). run E1.
    destruct (IH m1 started (pos - 1)) as (m2 & E2 & K2 & O2 & F2); try done; try lia.
    { by eapply ready_scan. }
    { by eapply powers_keeps. }
    { by replace (pos - 1 + 1) with pos by lia. }
    exists m2. split_and!; try done. eapply keeps_trans; eassumption.
Qed.
End Scan.
End Powm.
