(* ===== verification/C68kExp.v ===== *)
(** * Modular exponentiation, whole

    [c68k_mont_power_modulus] computes [x^e mod m], for every window the scratch has
    room for, and so does the entry that takes huge numbers. *)

From Stdlib Require Import ZArith Lia.
From stdpp Require Import base numbers list.
From S2P Require Import Prelude.
From S2P Require Import Limbs.
From S2P Require Import C68kPrim.
From S2P Require Import C68kMont.
From S2P Require Import C68kMul.
From S2P Require Import C68kModmul.
From S2P Require Import C68kDiv.
From S2P Require Import C68kPowm.
From S2P Require Import C68kScan.

(** ** The window and the scratch *)

Lemma scratch_limbs_value ml w :
  1 <= ml < 2 ^ 24 -> 1 <= w <= 6 ->
  C68K_POWM_SCRATCH_LIMBS ml w = (20 + 2 ^ (w - 1)) * ml + 16 /\ 1 <<w (w -w 1) = 2 ^ (w - 1) /\ 1 <= 2 ^ (w - 1) <= 32.
Proof.
  intros Hm Hw. assert (H : 1 <= 2 ^ (w - 1) <= 32).
  { split; [apply (Z.pow_le_mono_r 2 0); lia|apply (Z.pow_le_mono_r 2 _ 5); lia]. }
  unfold C68K_POWM_SCRATCH_LIMBS. rewrite (u32_small (w - 1)), Z.shiftl_mul_pow2, Z.mul_1_l by word_lia.
  rewrite (u32_small (2 ^ (w - 1))), (u32_small (20 + _)) by word_lia. set (t := 2 ^ (w - 1)) in *.
  assert (0 <= (20 + t) * ml <= 52 * 2 ^ 24) by nia.
  rewrite (u32_small (_ * _)), u32_small by word_lia. done.
Qed.

Lemma fit_window_spec fuel ml limbs : forall w,
  1 <= ml < 2 ^ 24 -> 1 <= w <= 6 -> w - 1 <= Z.of_nat fuel ->
  exists w', fit_window fuel ml w limbs = Val w' /\ 1 <= w' <= w /\
    (C68K_POWM_SCRATCH_LIMBS ml 1 <= limbs -> C68K_POWM_SCRATCH_LIMBS ml w' <= limbs).
Proof.
  induction fuel as [|fuel IH]; intros w Hm Hw Hf; cbn [fit_window];
    destruct (Z.ltb_spec 1 w); cbn [andb]; try lia;
    try (exists w; replace w with 1 by lia; split_and!; done || lia).
  destruct (Z.ltb_spec limbs (C68K_POWM_SCRATCH_LIMBS ml w)); [|exists w; split_and!; done || lia].
  rewrite u32_small by word_lia. destruct (IH (w - 1)) as (w' & E & Hw' & HL); [done|lia|lia|].
  exists w'. split_and!; done || lia.
Qed.

Lemma window_for_range bits : 1 <= c68k_window_for bits <= 6.
Proof. unfold c68k_window_for. bcases; lia. Qed.

(** ** From the base in Montgomery form to the result *)

Section Run.
Context (kl e e_len md ml acc work table tl ts M m0 E X : Z).
Context (HM : 0 < M) (Ho : Z.odd M = true) (HE : 0 < E).
Local Abbreviation ready := (scan_ready e e_len md ml acc work table tl ts M m0 E).

Lemma powm_table_spec m xm :
  ready m -> span m xm ml -> apart xm ml (work, 8 * ml + 2) -> apart xm ml (table, ts) -> apart xm ml (acc, ml) ->
  mform M (W ml) (lv m xm ml) X ->
  exists m', (let! m := c68k_copy m table xm ml in
              if 1 <? tl then
                let! m := c68k_mont_sqr kl m acc xm md ml (c68k_mont_n0inv m0) work in
                table_from kl (Z.to_nat (tl - 1)) m table 1 acc md ml (c68k_mont_n0inv m0) work
              else Val m) = Val m' /\
    keeps [(acc, ml); (work, 8 * ml + 2); (table, ts)] m m' /\ mem_ok m' /\ powers ml table M X tl m'.
Proof.
  intros A Sx A1 A2 A3 Fx. pose proof A as []. unfold apart in *. cbn [fst snd] in *.
  assert (Hts : ml <= ts) by (subst ts; nia). 
  destruct (copy_spec m table xm ml) as (m1 & E1 & K1 & O1 & V1); [done|areas|areas|lia|]. run E1.
  assert (R1 : ready m1) by (eapply ready_keeps; [exact A|eapply keeps_within; [exact K1|areas]|done]).
  assert (P1 : powers ml table M X 1 m1).
  { intros i Hi. assert (i = 0) as -> by lia. rewrite Z.mul_0_l, Z.add_0_r, V1. rewrite Z.pow_1_r. done. }
  destruct (Z.ltb_spec 1 tl) as [Ht|Ht].
  - pose proof (proj1 K1). destruct (sqr_form kl e e_len md ml acc work table tl ts M m0 E HM Ho m1 acc xm X)
      as (m2 & E2 & K2 & O2 & F2); try done; try areas_only.
    { rewrite (keeps_lv _ _ _ xm ml K1) by areas. done. }
    run E2. destruct (table_from_spec kl e e_len md ml acc work table tl ts M m0 E X HM Ho (Z.to_nat (tl - 1)) m2 1)
      as (m3 & E3 & K3 & O3 & P3); try done; try lia.
    { by eapply ready_scan. }
    { eapply powers_keeps; done || lia. }
    exists m3. split_and!; try done.
    eapply keeps_trans; [|eapply keeps_trans]; (eapply keeps_within; [eassumption|areas]).
  - exists m1. split_and!; [done|eapply keeps_within; [exact K1|areas]|done|]. by replace tl with 1 by lia.
Qed.

Lemma leave_form m result one a :
  ready m -> span m result ml -> apart result ml (work, 8 * ml + 2) ->
  span m one ml -> apart one ml (work, 8 * ml + 2) -> lv m one ml = 1 -> mform M (W ml) (lv m acc ml) a ->
  exists m', c68k_mont_mul kl m result acc one md ml (c68k_mont_n0inv m0) work = Val m' /\
    keeps [(result, ml); (work, 8 * ml + 2)] m m' /\ mem_ok m' /\ lv m' result ml = a mod M.
Proof.
  intros A Sr A0 So A4 V1 F. destruct (ready_values _ _ _ _ _ _ _ _ _ _ _ _ m A) as (VM & V0 & _). destruct A.
  destruct (mont_mul_spec kl m result acc one md ml work) as (m3 & E3 & K3 & O3 & F3);
    [done|unfold mont_areas; rewrite !Forall_cons, Forall_nil; tauto|by rewrite VM| |].
  { rewrite V1, VM. destruct F as [R _]. pose proof (W_pos ml ltac:(lia)). nia. }
  rewrite V0 in E3. rewrite VM, V1 in F3. exists m3. split_and!; try done.
  apply (mform_out M ml HM Ho ltac:(lia) _ (lv m acc ml)); done.
Qed.

Lemma powm_run_spec m result xm one w bits :
  ready m -> 1 <= w <= 6 -> 2 ^ (w - 1) = tl -> 0 < bits <= 32 * e_len -> e_len < 2 ^ 26 -> E < 2 ^ bits ->
  span m result ml -> apart result ml (work, 8 * ml + 2) ->
  span m xm ml -> apart xm ml (work, 8 * ml + 2) -> apart xm ml (table, ts) -> apart xm ml (acc, ml) ->
  span m one ml -> apart one ml (work, 8 * ml + 2) -> apart one ml (table, ts) -> apart one ml (acc, ml) ->
  mform M (W ml) (lv m xm ml) X -> lv m one ml = 1 ->
  exists m', powm_run kl m result e md ml (c68k_mont_n0inv m0) xm acc one work table w bits = Val m' /\
    keeps [(result, ml); (acc, ml); (work, 8 * ml + 2); (table, ts)] m m' /\ mem_ok m' /\
    lv m' result ml = X ^ E mod M.
Proof.
  intros A Hw Ht Hb He HEb Sr A0 Sx A1 A2 A3 So A4 A5 A6 Fx V1.
  assert (Es : s32 bits = bits) by (apply s32_small; clear -Hb He; lia).
  assert (H0 : holds ml acc M E X false m (bits - 1 + 1)).
  { unfold holds. replace (bits - 1 + 1) with bits by (clear; lia). apply Z.div_small. clear -HE HEb. lia. }
  clear HEb. unfold powm_run. destruct (scratch_limbs_value ml w) as (_ & -> & _); [apply A|done|]. rewrite Ht.
  destruct (powm_table_spec m xm) as (m1 & E1 & K1 & O1 & P1); try done. cbv zeta.
  assert (R1 : ready m1) by (eapply ready_keeps; done).
  destruct (c68k_copy m table xm ml) as [m'| |]; cbn [obind] in *; try done. run E1. rewrite Es.
  destruct (scan_spec kl e e_len md ml acc work table tl ts M m0 E X HM Ho ltac:(clear -HE; lia) w (Z.to_nat bits)
              m1 false (bits - 1))
    as (m2 & E2 & K2 & O2 & F2); [exact R1|exact P1|exact Hw|exact Ht|clear -Hb; lia|clear -Hb; lia|exact H0|].
  run E2. specialize (F2 ltac:(clear -HE; lia)). assert (R2 : ready m2) by (by eapply ready_scan).
  assert (Vo : lv m2 one ml = 1).
  { rewrite (keeps_lv _ _ _ one ml K2), (keeps_lv _ _ _ one ml K1); rewrite ?Forall_cons, ?Forall_nil; done || apply So. }
  destruct (leave_form m2 result one (X ^ E)) as (m3 & E3 & K3 & O3 & V3); try done.
  { by apply (keeps_span _ _ _ _ _ K2), (keeps_span _ _ _ _ _ K1). }
  { by apply (keeps_span _ _ _ _ _ K2), (keeps_span _ _ _ _ _ K1). }
  exists m3. split_and!; [done| |done|done].
  eapply keeps_trans; [|eapply keeps_trans]; (eapply keeps_within; [eassumption|clear; areas]).
Qed.
End Run.

(** ** The whole *)

(** The number one. *)
Lemma one_spec m p n :
  mem_ok m -> 1 <= n -> span m p n ->
  exists m', (forall A (f : list Z -> outcome A), (let! m := c68k_zero m p n in let! m := st m p 1 in f m) = f m') /\
    keeps [(p, n)] m m' /\ mem_ok m' /\ lv m' p n = 1.
Proof.
  intros Hm Hn Sp. destruct (zero_n_spec m p n) as (m1 & E1 & K1 & O1 & V1); [done|areas|].
  unfold c68k_zero. run E1. pose proof (proj1 K1).
  destruct (st_val m1 p 1) as (m2 & E2 & K2 & O2 & V2); [areas|done|done|]. pose proof (proj1 K2).
  exists m2. split_and!; [intros A f; by rewrite E2| |done|].
  { eapply keeps_trans; (eapply keeps_within; [eassumption|areas]). }
  replace n with (1 + (n - 1)) in V1 |- * by lia. rewrite (lv_app m2 p 1 (n - 1)), V2, W_1 by areas.
  rewrite (lv_app m1 p 1 (n - 1)), W_1 in V1 by areas. rewrite (keeps_lv _ _ _ (p + 1) (n - 1) K2) by areas.
  pose proof (lv_range m1 p 1 O1 ltac:(areas)). pose proof (lv_range m1 (p + 1) (n - 1) O1 ltac:(areas)). lia.
Qed.

Record powm_areas (m : list Z) (result x x_len e e_len md ml scratch limbs : Z) : Prop := {
  pa_ml : 1 <= ml < 2 ^ 24;
  pa_x : span m x x_len;
  pa_e : span m e e_len;
  pa_e_len : e_len < 2 ^ 26;
  pa_md : span m md ml;
  pa_result : span m result ml;
  pa_scratch : span m scratch limbs;
  pa_apart : apart x x_len (scratch, limbs) /\ apart e e_len (scratch, limbs) /\
             apart md ml (scratch, limbs) /\ apart result ml (scratch, limbs)
}.

Section Whole.
Context (ops : hn_ops) (laws : hn_laws ops) (kl fast : Z).

(** Up to the base in Montgomery form, over the first [20 * ml + 10] limbs of scratch. *)
Lemma powm_prepare m x x_len md ml s m0 :
  mem_ok m -> 1 <= ml < 2 ^ 24 -> span m x x_len -> x_len <= ml -> span m md ml -> span m s (20 * ml + 10) ->
  apart x x_len (s, 20 * ml + 10) -> apart md ml (s, 20 * ml + 10) ->
  Z.odd (lv m md ml) = true -> lv m (md + (ml - 1)) 1 <> 0 -> lv m md 1 = m0 ->
  exists m', (forall A (f : list Z -> outcome A),
     (let! m := c68k_mont_setup_rr ops fast m (s + 3 * ml) md ml (s + 13 * ml + 2) in
      let! m := c68k_zero m (s + 4 * ml) ml in
      let! m := c68k_copy m (s + 4 * ml) x x_len in
      let! m := c68k_zero m (s + 2 * ml) ml in
      let! m := st m (s + 2 * ml) 1 in
      let! m := c68k_mont_mul kl m s (s + 4 * ml) (s + 3 * ml) md ml (c68k_mont_n0inv m0) (s + 5 * ml) in
      f m) = f m') /\
    keeps [(s, 20 * ml + 10)] m m' /\ mem_ok m' /\ lv m' (s + 2 * ml) ml = 1 /\
    mform (lv m md ml) (W ml) (lv m' s ml) (lv m x x_len).
Proof.
  intros Hm Hml Sx Hx Sm Ss A1 A2 Ho Ht V0. unfold apart in A1, A2. cbn [fst snd] in *.
  pose proof (keeps_refl [(s, 20 * ml + 10)] m) as KK.
  assert (HM : 0 < lv m md ml).
  { pose proof (val_top_pos m md ml Hm ltac:(lia) Sm Ht). pose proof (W_pos (ml - 1) ltac:(lia)). lia. }
  remember (lv m md ml) as M eqn:EM. remember (lv m x x_len) as X eqn:EX. symmetry in EM, EX.
  destruct (setup_rr_spec ops fast laws m (s + 3 * ml) md ml (s + 13 * ml + 2)) as (m1 & E1 & K1 & O1 & V1);
    [done|constructor; first [done|areas_only|lia]|]. run E1. rewrite EM in V1. step KK K1.
  destruct (pad_copy m1 (s + 4 * ml) x x_len ml) as (m2 & E2 & K2 & O2 & V2); [done|areas|areas|areas|areas|].
  replace (lv m1 x x_len) with X in V2 by done. step KK K2.
  destruct (one_spec m2 (s + 2 * ml) ml) as (m3 & E3 & K3 & O3 & V3); [done|lia|areas|]. step KK K3.
  pose proof (Z.mod_pos_bound (W ml * W ml) M HM) as RR.
  assert (VM3 : lv m3 md ml = M) by done. assert (V03 : lv m3 md 1 = m0) by done.
  assert (VX3 : lv m3 (s + 4 * ml) ml = X) by done. assert (VR3 : lv m3 (s + 3 * ml) ml = (W ml * W ml) mod M) by done.
  destruct (mont_mul_spec kl m3 s (s + 4 * ml) (s + 3 * ml) md ml (s + 5 * ml)) as (m4 & E4 & K4 & O4 & V4);
    [done|unfold mont_areas; rewrite !Forall_cons, Forall_nil; split_and!; first [done|areas_only|lia]|by rewrite VM3| |].
  { rewrite VX3, VR3, VM3. pose proof (lv_range m3 (s + 4 * ml) ml O3 ltac:(areas)). rewrite VX3 in *. nia. }
  rewrite VM3, VX3, VR3 in V4. rewrite V03 in E4. step KK K4.
  exists m4. split_and!; [|exact KK|done|done|].
  - intros A f. rewrite E2, E3. run E4. done.
  - by eapply mform_in; [exact HM|exact Ho|lia|exact V4|].
Qed.

(** The table and the registers of the scan have their places in the scratch. *)
Lemma powm_ready m result x x_len e e_len md ml s limbs tl :
  mem_ok m -> powm_areas m result x x_len e e_len md ml s limbs ->
  1 <= tl <= 32 -> (20 + tl) * ml + 16 <= limbs ->
  scan_ready e e_len md ml (s + ml) (s + 5 * ml) (s + 20 * ml + 10) tl (tl * ml)
    (lv m md ml) (lv m md 1) (lv m e e_len) m.
Proof.
  intros Hm [] Ht HL. unfold apart in *. cbn [fst snd] in *. destruct pa_apart0 as (_ & A2 & A3 & _).
  assert (HT : 0 <= tl * ml /\ 20 * ml + 10 + tl * ml <= limbs) by (clear -Ht HL pa_ml0; nia). clear HL.
  set (ts := tl * ml) in *. constructor; try done; unfold span, apart in *; cbn [fst snd]; clearbody ts; try lia; repeat split; lia.
Qed.

(** The exponent zero: one, or zero modulo one. *)
Lemma powm_zero m result one md ml M :
  mem_ok m -> span m result ml -> span m one ml -> span m md ml -> result <= one \/ one + ml <= result ->
  lv m one ml = 1 -> lv m md ml = M -> 0 < M ->
  exists m', (let! c := c68k_cmp m one md ml in
              let! m := (if 0 <=? c then c68k_zero m result ml else c68k_copy m result one ml) in
              Val (NX_CRYPTO_SUCCESS, m)) = Val (NX_CRYPTO_SUCCESS, m') /\
    keeps [(result, ml)] m m' /\ mem_ok m' /\ lv m' result ml = 1 mod M.
Proof.
  intros Hm Sr So Sm A V1 VM HM. destruct (cmp_spec m one md ml) as (c & E & Ec); try done. run E.
  rewrite V1, VM in Ec. subst c. destruct (Z.leb_spec 0 (Z.sgn (1 - M))) as [H|H].
  - destruct (zero_n_spec m result ml) as (m' & E' & K & O & V); [done..|]. unfold c68k_zero. run E'.
    exists m'. split_and!; try done. rewrite V. replace M with 1 by lia. done.
  - destruct (copy_spec m result one ml) as (m' & E' & K & O & V); [done..|]. run E'.
    exists m'. split_and!; try done. rewrite V, V1. symmetry. apply Z.mod_small. lia.
Qed.

Lemma powm_spec m result x x_len e e_len md ml scratch limbs :
  mem_ok m -> powm_areas m result x x_len e e_len md ml scratch limbs ->
  Z.odd (lv m md ml) = true -> lv m (md + (ml - 1)) 1 <> 0 -> x_len <= ml ->
  C68K_POWM_SCRATCH_LIMBS ml 1 <= limbs ->
  exists m', c68k_mont_power_modulus ops kl fast m result x x_len e e_len md ml scratch limbs
               = Val (NX_CRYPTO_SUCCESS, m') /\
    keeps [(result, ml); (scratch, limbs)] m m' /\ mem_ok m' /\
    lv m' result ml = lv m x x_len ^ lv m e e_len mod lv m md ml.
Proof.
  intros Hm [] Ho Ht Hx HL. destruct pa_apart0 as (A1 & A2 & A3 & A4). unfold c68k_mont_power_modulus.
  rewrite (proj2 (Z.eqb_neq ml 0)) by lia.
  assert (S0 : span m md 1) by (unfold span in *; lia). rewrite (ld_val m md S0). cbn [obind].
  assert (Eo : (Z.land (lv m md 1) 1 =? 0) = false).
  { apply Z.eqb_neq. change 1 with (Z.ones 1) at 2. rewrite Z.land_ones by lia. change (2 ^ 1) with 2.
    rewrite Zmod_odd. by rewrite odd_low in Ho by (done || lia); rewrite Ho. }
  rewrite Eo, (proj2 (Z.ltb_ge ml x_len) Hx). cbn [orb].
  destruct (bitlen_spec m e e_len) as (bits & Eb & Hb & HEb & Hb0); [done..|]. run Eb.
  pose proof (window_for_range bits) as Hw. unfold C68K_POWM_MAX_WINDOW.
  rewrite (proj2 (Z.ltb_ge 6 (c68k_window_for bits))) by lia.
  destruct (fit_window_spec 6 ml limbs (c68k_window_for bits)) as (w & Ew & Hw' & HLw); [done|done|lia|].
  specialize (HLw HL). run Ew. rewrite (proj2 (Z.ltb_ge limbs _) HL).
  destruct (scratch_limbs_value ml w) as (ELw & _ & Htl); [done|lia|]. rewrite ELw in HLw.
  assert (EW : C68K_MONT_WORK_LIMBS ml = 8 * ml + 2).
  { unfold C68K_MONT_WORK_LIMBS. rewrite (u32_small (8 * ml)), u32_small by word_lia. done. }
  rewrite EW, (u32_small (7 * ml)) by word_lia.
  replace (scratch + ml + ml) with (scratch + 2 * ml) by lia.
  replace (scratch + 2 * ml + ml) with (scratch + 3 * ml) by lia.
  replace (scratch + 3 * ml + ml) with (scratch + 4 * ml) by lia.
  replace (scratch + 4 * ml + ml) with (scratch + 5 * ml) by lia.
  replace (scratch + 5 * ml + (8 * ml + 2)) with (scratch + 13 * ml + 2) by lia.
  replace (scratch + 13 * ml + 2 + 7 * ml + 8) with (scratch + 20 * ml + 10) by lia.
  set (tl := 2 ^ (w - 1)) in *. assert (Hfit : 20 * ml + 10 <= limbs) by (clear -HLw Htl pa_ml0; nia).
  destruct (powm_prepare m x x_len md ml scratch (lv m md 1)) as (m1 & E1 & K1 & O1 & V1 & F1); try done.
  { clear -pa_scratch0 Hfit pa_ml0. areas. }
  { clear -A1 Hfit. unfold apart in *. cbn [fst snd] in *. lia. }
  { clear -A3 Hfit. unfold apart in *. cbn [fst snd] in *. lia. }
  rewrite E1. pose proof (proj1 K1) as L1.
  assert (K1' : keeps [(result, ml); (scratch, limbs)] m m1).
  { eapply keeps_within; [exact K1|]. clear -Hfit. areas. }
  assert (P1 : powm_areas m1 result x x_len e e_len md ml scratch limbs).
  { constructor; try done; by apply (keeps_span _ _ _ _ _ K1). }
  assert (KV : forall p n, 0 <= p -> apart p n (scratch, limbs) -> lv m1 p n = lv m p n).
  { intros p n Hp Ap. apply (keeps_lv _ _ _ _ _ K1); [done|]. rewrite Forall_cons, Forall_nil. split; [|done].
    clear -Ap Hfit. unfold apart in *. cbn [fst snd] in *. lia. }
  pose proof (powm_ready m1 result x x_len e e_len md ml scratch limbs tl O1 P1 Htl HLw) as R1.
  assert (HM : 0 < lv m md ml).
  { pose proof (val_top_pos m md ml Hm ltac:(lia) pa_md0 Ht). pose proof (W_pos (ml - 1) ltac:(lia)). lia. }
  assert (A30 : apart md 1 (scratch, limbs)) by (clear -A3 pa_ml0; unfold apart in *; cbn [fst snd] in *; lia).
  rewrite (KV md ml (proj1 pa_md0) A3), (KV md 1 (proj1 pa_md0) A30), (KV e e_len (proj1 pa_e0) A2) in R1.
  destruct (Z.eqb_spec bits 0) as [Hz|Hz].
  - rewrite (proj1 Hb0 Hz). destruct (powm_zero m1 result (scratch + 2 * ml) md ml (lv m md ml)) as (m2 & E2 & K2 & O2 & V2);
      [done|apply P1| |apply P1| |done|by apply KV; [apply pa_md0|]|done|].
    { clear -pa_scratch0 Hfit pa_ml0 L1. areas. }
    { clear -A4 Hfit pa_ml0. unfold apart in *. cbn [fst snd] in *. lia. }
    exists m2. split_and!; [exact E2| |done|exact V2].
    eapply keeps_trans; [exact K1'|eapply keeps_within; [exact K2|clear; areas]].
  - assert (Hts : 20 * ml + 10 + tl * ml <= limbs /\ 0 <= tl * ml) by (clear -HLw Htl pa_ml0; nia).
    pose proof (lv_range m e e_len Hm pa_e0) as RE.
    destruct (powm_run_spec kl e e_len md ml (scratch + ml) (scratch + 5 * ml) (scratch + 20 * ml + 10) tl (tl * ml)
                (lv m md ml) (lv m md 1) (lv m e e_len) (lv m x x_len) HM Ho ltac:(lia)
                m1 result scratch (scratch + 2 * ml) w bits) as (m2 & E2 & K2 & O2 & V2);
      try done; try lia; try apply P1;
      try (clear -A4 Hfit pa_ml0 Hts; unfold apart in *; cbn [fst snd] in *; lia);
      try (clear -pa_scratch0 Hfit pa_ml0 L1; unfold span in *; lia).
    run E2. exists m2. split_and!; [done| |done|exact V2].
    eapply keeps_trans; [exact K1'|eapply keeps_within; [exact K2|]].
    clear -Hts pa_ml0. set (ts := tl * ml) in *. clearbody ts. areas.
Qed.
End Whole.

(** ** Huge numbers *)

Record huge_areas (m : list Z) (x e md result : hn) (scratch limbs : Z) : Prop := {
  ha_x : hn_fits m x;
  ha_e : hn_fits m e;
  ha_md : hn_fits m md;
  ha_e_size : nx_crypto_huge_number_size e < 2 ^ 26;
  ha_md_size : nx_crypto_huge_number_size md < 2 ^ 24;
  ha_result : span m (nx_crypto_huge_number_data result) (hn_room result);
  ha_room : nx_crypto_huge_number_size md <= hn_room result;
  ha_scratch : span m scratch limbs;
  ha_apart : Forall (fun h => apart (nx_crypto_huge_number_data h) (nx_crypto_huge_number_size h) (scratch, limbs)) [x; e; md];
  ha_result_scratch : apart (nx_crypto_huge_number_data result) (hn_room result) (scratch, limbs)
}.

(** A smaller number has no more significant limbs. *)
Lemma trimmed_le m p n q k :
  mem_ok m -> span m p n -> span m q k -> 1 <= n -> 0 <= k -> lv m (p + (n - 1)) 1 <> 0 -> lv m p n < lv m q k -> n <= k.
Proof.
  intros Hm Sp Sq Hn Hk Ht Hlt. pose proof (val_top_pos m p n Hm Hn Sp Ht) as H1. pose proof (lv_range m q k Hm Sq) as H2.
  destruct (Z_le_gt_dec n k) as [|Hgt]; [done|]. assert (W k <= W (n - 1)) by (apply Z.pow_le_mono_r; lia). lia.
Qed.

Lemma huge_spec ops (laws : hn_laws ops) kl fast m x e md result scratch limbs :
  mem_ok m -> huge_areas m x e md result scratch limbs ->
  Z.odd (hn_value m md) = true -> hn_value m x < hn_value m md ->
  21 * nx_crypto_huge_number_size md + 16 <= limbs ->
  exists x' e' md' result' m',
    c68k_huge_number_mont_power_modulus ops kl fast m x e md result scratch limbs = Val (x', e', md', result', m') /\
    keeps [(nx_crypto_huge_number_data result, hn_room result); (scratch, limbs)] m m' /\ mem_ok m' /\
    nx_crypto_huge_number_data result' = nx_crypto_huge_number_data result /\
    nx_crypto_huge_number_is_negative result' = 0 /\
    hn_value m' result' = hn_value m x ^ hn_value m e mod hn_value m md.
Proof.
  intros Hm [] Ho Hx HL. rewrite !Forall_cons in ha_apart0. destruct ha_apart0 as (A1 & A2 & A3 & _).
  unfold c68k_huge_number_mont_power_modulus.
  destruct (adjust_law ops laws m x) as (xs & -> & Hxs & Vx & Tx & Zx); [done..|].
  destruct (adjust_law ops laws m e) as (es & -> & Hes & Ve & _ & _); [done..|].
  destruct (adjust_law ops laws m md) as (ms & -> & Hms & Vm & Tm & _); [done..|].
  destruct ha_x0 as (Sx & Bx & _), ha_e0 as (Se & Be & _), ha_md0 as (Sm & Bm & _). pose proof Ho as Ho'.
  destruct Tm as [Hms0 Tm]; [intros H0; rewrite H0 in Ho; done|].
  destruct x as [xd xz xb xn], e as [ed ez eb en], md as [dd dz db dn], result as [rd rz rb rn]. hn_simpl.
  cbv beta zeta. hn_simpl. rewrite <- Vx, <- Ve, <- Vm in *. clear Vx Ve Vm.
  unfold hn_room in *. cbn [nx_crypto_huge_buffer_size] in *. set (rr := rb / 4) in *.
  assert (Hxm : xs <= ms).
  { destruct (Z.eq_dec (lv m xd xs) 0) as [H0|H0]; [specialize (Zx H0); lia|]. destruct (Tx H0) as [? ?].
    apply (trimmed_le m xd xs dd ms); try done; unfold span in *; lia. }
  assert (EL : C68K_POWM_SCRATCH_LIMBS ms 1 <= limbs).
  { destruct (scratch_limbs_value ms 1) as (-> & _ & _); [lia|lia|]. change (2 ^ (1 - 1)) with 1. lia. }
  destruct (powm_spec ops laws kl fast m rd xd xs ed es dd ms scratch limbs) as (m' & E & K & O & V); try done.
  { unfold apart in *. cbn [fst snd] in *. constructor; unfold span, apart in *; cbn [fst snd]; lia. }
  run E. pose proof (proj1 K) as L.
  destruct (adjust_law ops laws m' (Hn rd ms rb 0)) as (rs & -> & Hrs & Vr & _); [done| |].
  { hn_simpl. unfold hn_room. cbn [nx_crypto_huge_buffer_size]. fold rr. unfold span in *. lia. }
  hn_simpl. eexists _, _, _, _, m'. split; [reflexivity|]. hn_simpl. rewrite Vr.
  split_and!; try done. eapply keeps_within; [exact K|]. clear -Hms ha_room0. areas.
Qed.

(** C33 [c68k_mont_power_modulus]: for an odd modulus whose top limb is not zero, a base
    of no more limbs than the modulus, any exponent and any scratch of at least
    [C68K_POWM_SCRATCH_LIMBS(m_len, 1)] limbs, the call succeeds and leaves
    [x^e mod m] in the result.  The window, the split threshold and the choice of
    divider make no difference; only the result and the scratch are written, and the
    result may be the base, the exponent or the modulus itself. *)
Theorem powm_correct ops kl fast m result x x_len e e_len md ml scratch limbs :
  hn_laws ops -> mem_ok m -> powm_areas m result x x_len e e_len md ml scratch limbs ->
  Z.odd (lv m md ml) = true -> lv m (md + (ml - 1)) 1 <> 0 -> x_len <= ml ->
  C68K_POWM_SCRATCH_LIMBS ml 1 <= limbs ->
  exists m', c68k_mont_power_modulus ops kl fast m result x x_len e e_len md ml scratch limbs
               = Val (NX_CRYPTO_SUCCESS, m') /\
    keeps [(result, ml); (scratch, limbs)] m m' /\ mem_ok m' /\
    lv m' result ml = lv m x x_len ^ lv m e e_len mod lv m md ml.
Proof. intros. by apply powm_spec. Qed.

(** The entry the rest of the stack calls: for an odd modulus, a base below it and
    scratch for a window of one bit, [c68k_huge_number_mont_power_modulus] returns a
    number of value [x^e mod m] in the result's own buffer, not negative, whatever
    zero limbs the operands carry at the top. *)
Theorem huge_powm_correct ops kl fast m x e md result scratch limbs :
  hn_laws ops -> mem_ok m -> huge_areas m x e md result scratch limbs ->
  Z.odd (hn_value m md) = true -> hn_value m x < hn_value m md ->
  21 * nx_crypto_huge_number_size md + 16 <= limbs ->
  exists x' e' md' result' m',
    c68k_huge_number_mont_power_modulus ops kl fast m x e md result scratch limbs = Val (x', e', md', result', m') /\
    keeps [(nx_crypto_huge_number_data result, hn_room result); (scratch, limbs)] m m' /\ mem_ok m' /\
    nx_crypto_huge_number_data result' = nx_crypto_huge_number_data result /\
    nx_crypto_huge_number_is_negative result' = 0 /\
    hn_value m' result' = hn_value m x ^ hn_value m e mod hn_value m md.
Proof. intros. by apply huge_spec. Qed.

(** The refusals leave the memory alone. *)
Lemma powm_refuses ops kl fast m result x x_len e e_len md ml scratch limbs :
  mem_ok m -> 1 <= ml < 2 ^ 24 -> span m md ml -> span m e e_len -> e_len < 2 ^ 26 ->
  Z.odd (lv m md ml) = false \/ limbs < C68K_POWM_SCRATCH_LIMBS ml 1 ->
  exists status, status <> NX_CRYPTO_SUCCESS /\
    c68k_mont_power_modulus ops kl fast m result x x_len e e_len md ml scratch limbs = Val (status, m).
Proof.
  intros Hm Hml Sm Se He H. unfold c68k_mont_power_modulus. rewrite (proj2 (Z.eqb_neq ml 0)) by lia.
  rewrite ld_val by areas. cbn [obind]. destruct (_ || _) eqn:Er; [by exists NX_CRYPTO_NOT_SUCCESSFUL|].
  apply orb_false_iff in Er as [Er _]. destruct H as [H|H].
  { rewrite odd_low in H by (done || lia). apply Z.eqb_neq in Er. change 1 with (Z.ones 1) in Er at 2.
    rewrite Z.land_ones in Er by lia. change (2 ^ 1) with 2 in Er. by rewrite Zmod_odd, H in Er. }
  destruct (bitlen_spec m e e_len) as (bits & Eb & _); [done..|]. run Eb.
  pose proof (window_for_range bits). unfold C68K_POWM_MAX_WINDOW.
  rewrite (proj2 (Z.ltb_ge 6 (c68k_window_for bits))) by lia.
  destruct (fit_window_spec 6 ml limbs (c68k_window_for bits)) as (w & Ew & _); [done|done|lia|]. run Ew.
  rewrite (proj2 (Z.ltb_lt limbs _) H). by exists NX_CRYPTO_SIZE_ERROR.
Qed.

(** An even modulus or too little scratch hands the operands, trimmed but their
    limbs untouched, to the vendored routine. *)
Theorem huge_powm_fallback ops kl fast m x e md result scratch limbs :
  hn_laws ops -> mem_ok m -> hn_fits m md -> hn_fits m e -> 0 < hn_value m md ->
  nx_crypto_huge_number_size e < 2 ^ 26 -> nx_crypto_huge_number_size md < 2 ^ 24 ->
  Z.odd (hn_value m md) = false \/
    limbs < C68K_POWM_SCRATCH_LIMBS (nx_crypto_huge_number_size (hn_adjust_size ops m md)) 1 ->
  c68k_huge_number_mont_power_modulus ops kl fast m x e md result scratch limbs =
  hn_mont_power_modulus ops m (hn_adjust_size ops m x) (hn_adjust_size ops m e) (hn_adjust_size ops m md) result scratch.
Proof.
  intros laws Hm Fm Fe HM He Hd H. unfold c68k_huge_number_mont_power_modulus.
  destruct (adjust_law ops laws m e) as (es & Ee & Hes & _); [done..|].
  destruct (adjust_law ops laws m md) as (ms & Em & Hms & Vm & Tm & _); [done..|].
  destruct (Tm ltac:(lia)) as [Hms0 _]. destruct Fm as (Sm & Bm & _), Fe as (Se & Be & _).
  rewrite Em in H |- *. rewrite Ee. rewrite <- Vm in H. clear Vm Tm Em Ee.
  destruct e as [ed ez eb en], md as [dd dz db dn]. hn_simpl. cbv zeta.
  destruct (powm_refuses ops kl fast m (nx_crypto_huge_number_data result)
    (nx_crypto_huge_number_data (hn_adjust_size ops m x)) (nx_crypto_huge_number_size (hn_adjust_size ops m x))
    ed es dd ms scratch limbs) as (status & Hs & E); try done; try (unfold span in *; lia).
  run E. by destruct status.
Qed.

(** ** Routines that satisfy the laws *)

Module SimpleHn.
Fixpoint limbs_of (n : nat) (v : Z) : list Z :=
  match n with O => [] | S k => u32 v :: limbs_of k (v / 2 ^ 32) end.

Lemma limbs_of_spec n : forall v, 0 <= v < W (Z.of_nat n) ->
  length (limbs_of n v) = n /\ mem_ok (limbs_of n v) /\ val (limbs_of n v) = v.
Proof.
  induction n as [|n IH]; intros v Hv; cbn [limbs_of length val].
  { change (W (Z.of_nat 0)) with 1 in Hv. split_and!; [done|constructor|lia]. }
  replace (Z.of_nat (S n)) with (Z.of_nat n + 1) in Hv by lia. rewrite W_S in Hv by lia.
  destruct (IH (v / 2 ^ 32)) as (L & O & V); [split; [apply Z.div_pos; lia|apply Z.div_lt_upper_bound; lia]|].
  split_and!; [lia|constructor; [apply u32_range|done]|]. rewrite V. unfold u32.
  pose proof (Z.div_mod v (2 ^ 32) ltac:(lia)). lia.
Qed.

Definition write (m : list Z) (h : hn) (v : Z) : hn * list Z :=
  (hn_resize h (hn_room h), splice m (nx_crypto_huge_number_data h) (limbs_of (Z.to_nat (hn_room h)) v)).

Lemma write_spec m h v :
  mem_ok m -> hn_fits m h -> 0 <= v < W (hn_room h) ->
  exists size m', write m h v = (hn_resize h size, m') /\ 0 <= size <= hn_room h /\
    keeps [(nx_crypto_huge_number_data h, hn_room h)] m m' /\ mem_ok m' /\ hn_value m' (hn_resize h size) = v.
Proof.
  intros Hm (Sp & Hs & _) Hv. destruct (limbs_of_spec (Z.to_nat (hn_room h)) v) as (L & O & V); [by rewrite Z2Nat.id by lia|].
  destruct (splice_result m (nx_crypto_huge_number_data h) (limbs_of (Z.to_nat (hn_room h)) v) (hn_room h)) as (K & O' & V');
    [lia|done..|].
  eexists _, _. split; [reflexivity|]. split_and!; try done; [lia|]. transitivity (val (limbs_of (Z.to_nat (hn_room h)) v)); [exact V'|exact V].
Qed.

Definition ops : hn_ops := {|
  hn_adjust_size m h :=
    match bitlen_trim m (nx_crypto_huge_number_data h) (Z.to_nat (nx_crypto_huge_number_size h)) with
    | Val j => hn_resize h (Z.of_nat j)
    | _ => h
    end;
  hn_square m l r := Val (write m r (hn_value m l * hn_value m l));
  hn_modulus m l r := Val (write m l (hn_value m l mod hn_value m r));
  hn_mont_power_modulus m x e md r _ :=
    let '(r, m) := write m r (hn_value m x ^ hn_value m e mod hn_value m md) in Val (x, e, md, r, m)
|}.

Lemma value_range m h : mem_ok m -> hn_fits m h -> 0 <= hn_value m h < W (nx_crypto_huge_number_size h).
Proof. intros Hm (Sp & Hs & _). apply lv_range; [done|]. unfold span in *. lia. Qed.

Lemma laws : hn_laws ops.
Proof.
  constructor.
  - intros m h Hm (Sp & Hs & _). cbn [hn_adjust_size ops].
    destruct (bitlen_trim_spec m (nx_crypto_huge_number_data h) (Z.to_nat (nx_crypto_huge_number_size h)))
      as (j & E & Hj & V & T); [done|rewrite Z2Nat.id by lia; unfold span in *; lia|].
    rewrite Z2Nat.id in V by lia. rewrite E. exists (Z.of_nat j). split_and!; [done|lia|lia|exact (eq_sym V)| |].
    + intros H0. destruct j; [|split; [lia|apply T; lia]]. unfold hn_value in H0. rewrite V in H0. done.
    + unfold hn_value. intros H0. destruct j as [|j]; [lia|]. specialize (T ltac:(lia)). rewrite V in H0.
      pose proof (val_top_pos m (nx_crypto_huge_number_data h) (Z.of_nat (S j)) Hm ltac:(lia)
        ltac:(unfold span in *; lia) T). pose proof (W_pos (Z.of_nat (S j) - 1) ltac:(lia)). lia.
  - intros m l r Hm Fl Fr A Hr. pose proof (value_range m l Hm Fl) as R. cbn [hn_square ops].
    destruct (write_spec m r (hn_value m l * hn_value m l)) as (size & m' & -> & H); [done|done| |by exists size, m'].
    destruct Fl as (_ & Hs & _). split; [nia|]. apply (Z.lt_le_trans _ (W (2 * nx_crypto_huge_number_size l))).
    + replace (2 * _) with (nx_crypto_huge_number_size l + nx_crypto_huge_number_size l) by lia. rewrite W_add by lia. nia.
    + apply Z.pow_le_mono_r; lia.
  - intros m l r Hm Fl Fr A Hr. pose proof (value_range m l Hm Fl) as R. cbn [hn_modulus ops].
    pose proof (Z.mod_pos_bound (hn_value m l) _ Hr). pose proof (Z.mod_le (hn_value m l) (hn_value m r) ltac:(lia) Hr).
    destruct (write_spec m l (hn_value m l mod hn_value m r)) as (size & m' & -> & H'); [done|done| |by exists size, m'].
    destruct Fl as (_ & Hs & _). split; [lia|]. apply (Z.lt_le_trans _ (W (nx_crypto_huge_number_size l))); [lia|].
    apply Z.pow_le_mono_r; lia.
Qed.
End SimpleHn.

Lemma powm_correct_witness :
  exists m', c68k_mont_power_modulus SimpleHn.ops 2 1 (ramp 128) 2 2 2 4 2 0 2 8 100 = Val (NX_CRYPTO_SUCCESS, m') /\
    lv m' 2 2 = lv (ramp 128) 2 2 ^ lv (ramp 128) 4 2 mod lv (ramp 128) 0 2.
Proof.
  destruct (powm_correct SimpleHn.ops 2 1 (ramp 128) 2 2 2 4 2 0 2 8 100) as (m' & E & _ & _ & V);
    [apply SimpleHn.laws|apply ramp_ok| |by vm_compute|by vm_compute|lia|by vm_compute|exists m'; exact (conj E V)].
  constructor; unfold span, apart; rewrite ?ramp_length; cbn [fst snd]; lia.
Defined.

(** Operands with a zero limb on top. *)
Definition padded : list Z := [0xFFFFFFC5; 0; 7; 0; 3; 0; 0; 0] ++ replicate 60 0.
Definition padded_number (d size : Z) : hn := Hn d size 8 0.

Lemma padded_ok : mem_ok padded.
Proof. unfold padded. repeat (constructor; [by unfold is_u32|]). constructor. Qed.

Lemma huge_powm_correct_witness :
  exists x' e' md' result' m',
    c68k_huge_number_mont_power_modulus SimpleHn.ops 2 0 padded (padded_number 2 2) (padded_number 4 2)
      (padded_number 0 2) (padded_number 6 2) 8 60 = Val (x', e', md', result', m') /\
    hn_value m' result' = hn_value padded (padded_number 2 2) ^ hn_value padded (padded_number 4 2)
                          mod hn_value padded (padded_number 0 2).
Proof.
  destruct (huge_powm_correct SimpleHn.ops 2 0 padded (padded_number 2 2) (padded_number 4 2)
              (padded_number 0 2) (padded_number 6 2) 8 60) as (x' & e' & md' & r' & m' & E & _ & _ & _ & _ & V);
    [apply SimpleHn.laws|apply padded_ok| |by vm_compute|by vm_compute|by vm_compute|].
  { constructor; rewrite ?Forall_cons, ?Forall_nil; unfold hn_fits, span, apart, hn_room, padded_number;
      hn_simpl; cbn [fst snd]; change (8 / 4) with 2; change (length padded) with 68%nat; lia. }
  exists x', e', md', r', m'. exact (conj E V).
Defined.

Lemma huge_powm_fallback_witness :
  c68k_huge_number_mont_power_modulus SimpleHn.ops 2 1 padded (padded_number 2 2) (padded_number 4 2)
    (padded_number 0 2) (padded_number 6 2) 8 30 =
  hn_mont_power_modulus SimpleHn.ops padded (hn_adjust_size SimpleHn.ops padded (padded_number 2 2))
    (hn_adjust_size SimpleHn.ops padded (padded_number 4 2)) (hn_adjust_size SimpleHn.ops padded (padded_number 0 2))
    (padded_number 6 2) 8.
Proof.
  apply huge_powm_fallback; [apply SimpleHn.laws|apply padded_ok|by vm_compute..|right; by vm_compute].
Defined.
