(* ===== verification/MbufAlloc.v ===== *)
(** * The memory of the mbuf pool (src/include/aminetxduo/mbuf.h, src/src/mbuf/mbuf_internal.h)

    Addresses are 32-bit numbers, NULL is 0.  The header of an mbuf and the headers of
    clusters and slabs are records at the address of the object; the storage they
    stand in front of (the 108 bytes of [M_dat], the payload of a cluster, storage that
    is not the pool's) is one memory of cells.  [m_pkthdr] and [m_ext] are members of
    the union [M_dat]: they live in the same cells as the data, as fragments of the
    32-bit value that was stored, so that a packet header overwritten by data, or data
    read as a packet header, shows as a [Fault]. *)

From Stdlib Require Import ZArith Lia.
From stdpp Require Import base numbers list gmap.
From S2P Require Import Prelude.

(** ** Cells *)

(** A byte, one of the four bytes of a stored longword, or no value in particular. *)
Inductive cell :=
| Byte (b : Z)
| Frag (v : Z) (i : nat)
| Undef.

#[export] Instance cell_eq_dec : EqDecision cell.
Proof. solve_decision. Defined.

Abbreviation cells := (gmap Z cell).

(** [n] cells from [p] on. *)
Fixpoint peek (c : cells) (p : Z) (n : nat) : list cell :=
  match n with O => [] | S k => default Undef (c !! p) :: peek c (p + 1) k end.

Fixpoint poke (c : cells) (p : Z) (l : list cell) : cells :=
  match l with [] => c | x :: r => <[p := x]> (poke c (p + 1) r) end.

Definition mapped (c : cells) (p n : Z) : Prop := forall a, p <= a < p + n -> is_Some (c !! a).

Definition frags (v : Z) : list cell := [Frag v 0; Frag v 1; Frag v 2; Frag v 3].

(** ** Objects *)

Record mbuf := Mbuf {
  m_next : Z;
  m_nextpkt : Z;
  m_data : Z;
  m_len : Z;
  m_type : Z;
  m_flags : Z
}.

Definition w_next (v : Z) (m : mbuf) : mbuf := Mbuf v (m_nextpkt m) (m_data m) (m_len m) (m_type m) (m_flags m).
Definition w_nextpkt (v : Z) (m : mbuf) : mbuf := Mbuf (m_next m) v (m_data m) (m_len m) (m_type m) (m_flags m).
Definition w_data (v : Z) (m : mbuf) : mbuf := Mbuf (m_next m) (m_nextpkt m) v (m_len m) (m_type m) (m_flags m).
Definition w_len (v : Z) (m : mbuf) : mbuf := Mbuf (m_next m) (m_nextpkt m) (m_data m) v (m_type m) (m_flags m).
Definition w_type (v : Z) (m : mbuf) : mbuf := Mbuf (m_next m) (m_nextpkt m) (m_data m) (m_len m) v (m_flags m).
Definition w_flags (v : Z) (m : mbuf) : mbuf := Mbuf (m_next m) (m_nextpkt m) (m_data m) (m_len m) (m_type m) v.

Record AmiCluster := Cluster { all_next : Z; free_next : Z; refcnt : Z }.
Record AmiMbufSlab := Slab { sl_next : Z; sl_raw : Z }.

Record AmiMbufPool := Pool {
  inited : bool;
  slabs : Z;
  free_mbufs : Z;
  mbufs_total : Z;
  mbufs_free : Z;
  max_mbufs : Z;
  clusters_all : Z;
  clusters_free : Z;
  clusters_total : Z;
  clusters_free_count : Z;
  clusters_cached : Z;
  max_clusters : Z;
  drops : Z
}.

Definition pool_zero : AmiMbufPool := Pool false 0 0 0 0 0 0 0 0 0 0 0 0.

(** Every object the pool knows, the blocks that came from [ami_alloc], and the
    storage that was handed back to an [ext_free] hook.  Two things here are not part
    of the program's memory: [st_elsewhere] lists the mbufs other tasks hold, which only
    those tasks change, and the mark of a block of [st_heap] says that it is the running
    task's. *)
Record mst := Mst {
  st_mbuf : gmap Z mbuf;
  st_cluster : gmap Z AmiCluster;
  st_slab : gmap Z AmiMbufSlab;
  st_cells : cells;
  st_pool : AmiMbufPool;
  st_heap : gmap Z (Z * bool);
  st_released : list (Z * Z * Z);
  st_elsewhere : list Z
}.

Definition s_mbuf v s := Mst v (st_cluster s) (st_slab s) (st_cells s) (st_pool s) (st_heap s) (st_released s) (st_elsewhere s).
Definition s_cluster v s := Mst (st_mbuf s) v (st_slab s) (st_cells s) (st_pool s) (st_heap s) (st_released s) (st_elsewhere s).
Definition s_slab v s := Mst (st_mbuf s) (st_cluster s) v (st_cells s) (st_pool s) (st_heap s) (st_released s) (st_elsewhere s).
Definition s_cells v s := Mst (st_mbuf s) (st_cluster s) (st_slab s) v (st_pool s) (st_heap s) (st_released s) (st_elsewhere s).
Definition s_pool v s := Mst (st_mbuf s) (st_cluster s) (st_slab s) (st_cells s) v (st_heap s) (st_released s) (st_elsewhere s).
Definition s_heap v s := Mst (st_mbuf s) (st_cluster s) (st_slab s) (st_cells s) (st_pool s) v (st_released s) (st_elsewhere s).
Definition s_released v s := Mst (st_mbuf s) (st_cluster s) (st_slab s) (st_cells s) (st_pool s) (st_heap s) v (st_elsewhere s).

(** ** The monad *)

Definition MB (A : Type) : Type := mst -> outcome (A * mst).

#[export] Instance MB_ret : MRet MB := fun A a s => Val (a, s).
#[export] Instance MB_bind : MBind MB := fun A B f m s =>
  match m s with Val (a, s') => f a s' | Fault => Fault | Spin => Spin end.

Definition asks {A} (f : mst -> A) : MB A := fun s => Val (f s, s).
Definition modify (f : mst -> mst) : MB unit := fun s => Val (tt, f s).
Definition spin {A} : MB A := fun _ => Spin.

(** Reads and writes of a record at an address. *)
Definition mb (a : Z) : MB mbuf := fun s =>
  match st_mbuf s !! a with Some m => Val (m, s) | None => Fault end.
Definition set_mb (a : Z) (f : mbuf -> mbuf) : MB unit := fun s =>
  match st_mbuf s !! a with Some m => Val (tt, s_mbuf (<[a := f m]> (st_mbuf s)) s) | None => Fault end.
Definition cl (a : Z) : MB AmiCluster := fun s =>
  match st_cluster s !! a with Some c => Val (c, s) | None => Fault end.
Definition set_cl (a : Z) (f : AmiCluster -> AmiCluster) : MB unit := fun s =>
  match st_cluster s !! a with Some c => Val (tt, s_cluster (<[a := f c]> (st_cluster s)) s) | None => Fault end.
Definition pool_get {A} (f : AmiMbufPool -> A) : MB A := asks (fun s => f (st_pool s)).
Definition pool_set (f : AmiMbufPool -> AmiMbufPool) : MB unit := modify (fun s => s_pool (f (st_pool s)) s).

(** Cells, one at a time and as longwords. *)
Definition ld_cell (a : Z) : MB cell := fun s =>
  match st_cells s !! a with Some c => Val (c, s) | None => Fault end.
Definition st_cell (a : Z) (c : cell) : MB unit := fun s =>
  match st_cells s !! a with Some _ => Val (tt, s_cells (<[a := c]> (st_cells s)) s) | None => Fault end.
Definition load32 (a : Z) : MB Z := fun s =>
  match st_cells s !! a with
  | Some (Frag v _) => if decide (peek (st_cells s) a 4 = frags v) then Val (v, s) else Fault
  | _ => Fault
  end.
Definition store32 (a v : Z) : MB unit := fun s =>
  match st_cells s !! a, st_cells s !! (a + 1), st_cells s !! (a + 2), st_cells s !! (a + 3) with
  | Some _, Some _, Some _, Some _ => Val (tt, s_cells (poke (st_cells s) a (frags v)) s)
  | _, _, _, _ => Fault
  end.

(** * The mbuf and cluster allocator (src/src/mbuf/mbuf_alloc.c)

    [AllocVec] is the system's allocator: the address it gives, or 0.  Where the code
    drops the lock around [ami_alloc] the other tasks run: [others] is what they do to
    the pool in the meantime.  Apart from these windows an operation is one step, and
    the calls that take and drop the lock are not written.

    Walks along a list take a fuel; the number of objects there are, and one more, is
    always enough for a list that ends. *)

(** ** Constants (mbuf.h, mbuf_internal.h) *)

Abbreviation NULL := 0 (only parsing).
Definition MSIZE : Z := 128.
Definition MLEN : Z := 108.
Definition MHLEN : Z := 100.
Definition MCLBYTES : Z := 2048.
Definition MINCLSIZE : Z := MHLEN + 1.
Definition M_EXT : Z := 0x0001.
Definition M_PKTHDR : Z := 0x0002.
Definition M_EOR : Z := 0x0004.
Definition M_BCAST : Z := 0x0100.
Definition M_MCAST : Z := 0x0200.
Definition M_COPYFLAGS : Z := Z.lor (Z.lor (Z.lor M_PKTHDR M_EOR) M_BCAST) M_MCAST.
Definition M_COPYALL : Z := 1000000000.
Definition MT_FREE : Z := 0.
Definition MT_DATA : Z := 1.
Definition MT_HEADER : Z := 2.
Definition AMI_MBUF_DEFAULT_MBUFS : Z := 256.
Definition AMI_MBUF_DEFAULT_CLUSTERS : Z := 16.
Definition AMI_MBUF_SLAB_COUNT : Z := 32.
Definition AMI_MBUF_CLUSTER_CACHE : Z := 4.
Definition SLAB_SIZE : Z := 8.
Definition CLUSTER_SIZE : Z := 16.

(** Members of the union [M_dat] by their offsets. *)
Definition m_dat (m : Z) : Z := m + 20.
Definition m_pktdat (m : Z) : Z := m + 28.
Definition pkthdr_rcvif (m : Z) : Z := m + 20.
Definition pkthdr_len (m : Z) : Z := m + 24.
Definition ext_buf (m : Z) : Z := m + 28.
Definition ext_free (m : Z) : Z := m + 32.
Definition ext_size (m : Z) : Z := m + 36.

Definition AMI_CLUSTER_DATA (c : Z) : Z := c + CLUSTER_SIZE.
Definition has (flags bit : Z) : bool := negb (Z.land flags bit =? 0).
Definition AMI_MBUF_BASE (m : Z) (h : mbuf) : Z := if has (m_flags h) M_PKTHDR then m_pktdat m else m_dat m.
Definition AMI_MBUF_END (m : Z) : Z := m + MSIZE.

(** A [WORD] as it is stored. *)
Definition word (z : Z) : Z := sext 16 z.

(** ** Bytes *)

Fixpoint copy_bytes (n : nat) (dst src : Z) : MB unit :=
  match n with
  | O => mret tt
  | S k => c ← ld_cell src; _ ← st_cell dst c; copy_bytes k (dst + 1) (src + 1)
  end.
Definition ami_mbuf_copy_bytes (dst src len : Z) : MB unit := copy_bytes (Z.to_nat len) dst src.

Fixpoint zero_bytes (n : nat) (dst : Z) : MB unit :=
  match n with
  | O => mret tt
  | S k => _ ← st_cell dst (Byte 0); zero_bytes k (dst + 1)
  end.
Definition ami_mbuf_zero_bytes (dst len : Z) : MB unit := zero_bytes (Z.to_nat len) dst.

(** ** The pool's fields *)

Definition p_limits (a b : Z) (p : AmiMbufPool) : AmiMbufPool :=
  Pool true (slabs p) (free_mbufs p) (mbufs_total p) (mbufs_free p) a (clusters_all p) (clusters_free p)
    (clusters_total p) (clusters_free_count p) (clusters_cached p) b (drops p).
Definition p_free (head free : Z) (p : AmiMbufPool) : AmiMbufPool :=
  Pool (inited p) (slabs p) head (mbufs_total p) free (max_mbufs p) (clusters_all p) (clusters_free p)
    (clusters_total p) (clusters_free_count p) (clusters_cached p) (max_clusters p) (drops p).
Definition p_slabs (v total : Z) (p : AmiMbufPool) : AmiMbufPool :=
  Pool (inited p) v (free_mbufs p) total (mbufs_free p) (max_mbufs p) (clusters_all p) (clusters_free p)
    (clusters_total p) (clusters_free_count p) (clusters_cached p) (max_clusters p) (drops p).
Definition p_clusters (all total : Z) (p : AmiMbufPool) : AmiMbufPool :=
  Pool (inited p) (slabs p) (free_mbufs p) (mbufs_total p) (mbufs_free p) (max_mbufs p) all (clusters_free p)
    total (clusters_free_count p) (clusters_cached p) (max_clusters p) (drops p).
Definition p_clfree (head count cached : Z) (p : AmiMbufPool) : AmiMbufPool :=
  Pool (inited p) (slabs p) (free_mbufs p) (mbufs_total p) (mbufs_free p) (max_mbufs p) (clusters_all p) head
    (clusters_total p) count cached (max_clusters p) (drops p).
Definition p_drop (p : AmiMbufPool) : AmiMbufPool :=
  Pool (inited p) (slabs p) (free_mbufs p) (mbufs_total p) (mbufs_free p) (max_mbufs p) (clusters_all p) (clusters_free p)
    (clusters_total p) (clusters_free_count p) (clusters_cached p) (max_clusters p) (drops p +w 1).

Section Alloc.
Context (AllocVec : mst -> Z -> Z) (others : mst -> mst).

(** ** Blocks *)

Definition within_block (a n x : Z) : Prop := a <= x < a + n.
#[local] Instance within_block_dec a n x : Decision (within_block a n x).
Proof. unfold within_block. apply _. Defined.

(** [AllocVec] with MEMF_CLEAR: the block reads as zeros. *)
Definition ami_alloc (bytes : Z) : MB Z := fun s =>
  let a := AllocVec s bytes in
  if a =? NULL then Val (NULL, s)
  else Val (a, s_heap (<[a := (bytes, true)]> (st_heap s))
                 (s_cells (poke (st_cells s) a (replicate (Z.to_nat bytes) (Byte 0))) s)).

(** Freeing takes every object of the block with it. *)
Definition ami_free (a : Z) : MB unit := fun s =>
  if a =? NULL then Val (tt, s)
  else match st_heap s !! a with
  | None => Fault
  | Some (n, _) =>
      let keep {V} (m : gmap Z V) : gmap Z V := filter (fun x => ~ within_block a n x.1) m in
      Val (tt, Mst (keep (st_mbuf s)) (keep (st_cluster s)) (keep (st_slab s)) (keep (st_cells s))
                 (st_pool s) (delete a (st_heap s)) (st_released s) (st_elsewhere s))
  end.

(** [ami_mbuf_unlock(); p = ami_alloc(n); ami_mbuf_lock();]. *)
Definition unlocked_alloc (n : Z) : MB Z := a ← ami_alloc n; _ ← modify others; mret a.

(** ** Lifecycle *)

Definition ami_mbuf_init (max_mbufs_ max_clusters_ : Z) : MB Z :=
  let a := if max_mbufs_ =? 0 then AMI_MBUF_DEFAULT_MBUFS else max_mbufs_ in
  let b := if max_clusters_ =? 0 then AMI_MBUF_DEFAULT_CLUSTERS else max_clusters_ in
  p ← pool_get id;
  if inited p then
    if negb (max_mbufs p =? a) || negb (max_clusters p =? b) then mret (-1) else mret 0
  else _ ← pool_set (p_limits a b); mret 0.

Definition ami_mbuf_ensure_init : MB unit :=
  i ← pool_get inited; if i : bool then mret tt else _ ← ami_mbuf_init 0 0; mret tt.

Fixpoint free_slabs (fuel : nat) (slab : Z) : MB unit :=
  if slab =? NULL then mret tt
  else match fuel with
  | O => spin
  | S fuel' =>
      sl ← asks (fun s => st_slab s !! slab);
      match sl with
      | None => fun _ => Fault
      | Some sl => _ ← ami_free (sl_raw sl); free_slabs fuel' (sl_next sl)
      end
  end.

Fixpoint free_clusters (fuel : nat) (cluster : Z) : MB unit :=
  if cluster =? NULL then mret tt
  else match fuel with
  | O => spin
  | S fuel' => c ← cl cluster; _ ← ami_free cluster; free_clusters fuel' (all_next c)
  end.

Definition ami_mbuf_cleanup : MB unit :=
  p ← pool_get id;
  _ ← pool_set (fun p => Pool false 0 0 0 0 (max_mbufs p) 0 0 0 0 0 (max_clusters p) 0);
  _ ← modify others;
  n ← asks (fun s => (S (size (st_slab s)), S (size (st_cluster s))));
  _ ← free_slabs n.1 (slabs p);
  free_clusters n.2 (clusters_all p).

(** The seven counters of a [struct mbstat]. *)
Definition ami_mbuf_stats : MB (list Z) :=
  p ← pool_get id;
  mret [mbufs_total p; clusters_total p; 0; clusters_free_count p; drops p; 0; 0].

Definition ami_mbuf_outstanding : MB Z := p ← pool_get id; mret (mbufs_total p -w mbufs_free p).
Definition ami_mbuf_clusters_outstanding : MB Z :=
  p ← pool_get id; mret (clusters_total p -w clusters_free_count p).

(** ** Slabs *)

(** [for (i = 0; i < (UWORD)want; i++)], [n] to go; the block reads as zeros. *)
Fixpoint carve (n : nat) (m : Z) : MB unit :=
  match n with
  | O => mret tt
  | S k =>
      head ← pool_get free_mbufs;
      _ ← modify (fun s => s_mbuf (<[m := Mbuf head 0 0 0 MT_FREE 0]> (st_mbuf s)) s);
      _ ← pool_set (fun p => p_free m (mbufs_free p) p);
      carve k (m + MSIZE)
  end.

(** From the moment [raw] is known to be a block the pool will keep. *)
Definition grow_with (raw want : Z) : MB unit :=
  head ← pool_get slabs;
  _ ← modify (fun s => s_slab (<[raw := Slab head raw]> (st_slab s)) s);
  _ ← pool_set (fun p => p_slabs raw (mbufs_total p) p);
  let base := raw + SLAB_SIZE in
  let misalign := Z.land base (MSIZE - 1) in
  let base := if negb (misalign =? 0) then base + (MSIZE - misalign) else base in
  _ ← carve (Z.to_nat (u16 want)) base;
  pool_set (fun p => p_slabs (slabs p) (mbufs_total p +w want) (p_free (free_mbufs p) (mbufs_free p +w want) p)).

Definition ami_mbuf_grow : MB bool :=
  p ← pool_get id;
  let want := max_mbufs p -w mbufs_total p in
  if want =? 0 then mret false
  else
    let want := if AMI_MBUF_SLAB_COUNT <? want then AMI_MBUF_SLAB_COUNT else want in
    let bytes := (SLAB_SIZE +w (MSIZE - 1)) +w (want *w MSIZE) in
    raw ← unlocked_alloc bytes;
    if raw =? NULL then mret false
    else
      p ← pool_get id;
      let want := if max_mbufs p <? mbufs_total p +w want then max_mbufs p -w mbufs_total p else want in
      if want =? 0 then _ ← modify others; _ ← ami_free raw; mret false
      else _ ← grow_with raw want; mret true.

(** The mbuf the free list gives, or NULL. *)
Definition ami_mbuf_raw_get : MB Z :=
  _ ← ami_mbuf_ensure_init;
  head ← pool_get free_mbufs;
  ok ← (if head =? NULL then ami_mbuf_grow else mret true);
  if negb ok then _ ← pool_set p_drop; mret NULL
  else
    m ← pool_get free_mbufs;
    if m =? NULL then _ ← pool_set p_drop; mret NULL
    else
      h ← mb m;
      _ ← pool_set (fun p => p_free (m_next h) (mbufs_free p -w 1) p);
      mret m.

(** ** Clusters *)

Fixpoint cluster_of (fuel : nat) (buf c : Z) : MB Z :=
  if c =? NULL then mret NULL
  else if AMI_CLUSTER_DATA c =? buf then mret c
  else match fuel with
  | O => spin
  | S fuel' => h ← cl c; cluster_of fuel' buf (all_next h)
  end.

Definition ami_mbuf_cluster_of (buf : Z) : MB Z :=
  if buf =? NULL then mret NULL
  else
    c ← pool_get clusters_all;
    n ← asks (fun s => size (st_cluster s));
    cluster_of n buf c.

(** A cluster off the free list, with its first reference. *)
Definition cluster_pop (c : Z) : MB unit :=
  h ← cl c;
  _ ← pool_set (fun p => p_clfree (free_next h) (clusters_free_count p -w 1)
                           (if 0 <? clusters_cached p then clusters_cached p -w 1 else clusters_cached p) p);
  set_cl c (fun h => Cluster (all_next h) NULL 1).

Definition ami_mbuf_cluster_get : MB Z :=
  _ ← ami_mbuf_ensure_init;
  c ← pool_get clusters_free;
  if negb (c =? NULL) then _ ← cluster_pop c; mret c
  else
    p ← pool_get id;
    if max_clusters p <=? clusters_total p then _ ← pool_set p_drop; mret NULL
    else
      c ← unlocked_alloc (CLUSTER_SIZE +w MCLBYTES);
      if c =? NULL then _ ← pool_set p_drop; mret NULL
      else
        p ← pool_get id;
        if max_clusters p <=? clusters_total p then
          let pooled := clusters_free p in
          _ ← (if negb (pooled =? NULL) then cluster_pop pooled else pool_set p_drop);
          _ ← modify others;
          _ ← ami_free c;
          mret pooled
        else
          _ ← modify (fun s => s_cluster (<[c := Cluster (clusters_all p) NULL 1]> (st_cluster s)) s);
          _ ← pool_set (p_clusters c (clusters_total p +w 1));
          mret c.

Definition ami_mbuf_cluster_put (c : Z) : MB unit :=
  if c =? NULL then mret tt
  else
    h ← cl c;
    _ ← (if 0 <? refcnt h then set_cl c (fun h => Cluster (all_next h) (free_next h) (refcnt h -w 1)) else mret tt);
    h ← cl c;
    if refcnt h =? 0 then
      p ← pool_get id;
      _ ← set_cl c (fun h => Cluster (all_next h) (clusters_free p) (refcnt h));
      pool_set (p_clfree c (clusters_free_count p +w 1)
                 (if clusters_cached p <? AMI_MBUF_CLUSTER_CACHE then clusters_cached p +w 1 else clusters_cached p))
    else mret tt.

Definition set_ext (m buf freefn size_ : Z) : MB unit :=
  _ ← store32 (ext_buf m) buf; _ ← store32 (ext_free m) freefn; store32 (ext_size m) size_.

Definition ami_mbuf_clget (m : Z) : MB Z :=
  if m =? NULL then mret (-1)
  else
    h ← mb m;
    if has (m_flags h) M_EXT then mret (-1)
    else
      c ← ami_mbuf_cluster_get;
      if c =? NULL then mret (-1)
      else
        _ ← set_ext m (AMI_CLUSTER_DATA c) NULL MCLBYTES;
        buf ← load32 (ext_buf m);
        _ ← set_mb m (fun h => w_flags (word (Z.lor (m_flags h) M_EXT)) (w_len 0 (w_data buf h)));
        mret 0.

(** ** The vectors *)

Definition ami_mbuf_get : MB Z :=
  m ← ami_mbuf_raw_get;
  if m =? NULL then mret NULL
  else _ ← set_mb m (fun _ => Mbuf NULL NULL (m_dat m) 0 MT_DATA 0); mret m.

Definition ami_mbuf_gethdr : MB Z :=
  m ← ami_mbuf_raw_get;
  if m =? NULL then mret NULL
  else
    _ ← set_mb m (fun _ => Mbuf NULL NULL (m_pktdat m) 0 MT_HEADER M_PKTHDR);
    _ ← store32 (pkthdr_rcvif m) NULL;
    _ ← store32 (pkthdr_len m) 0;
    mret m.

Definition ami_mbuf_ext_ref (m : Z) : MB unit :=
  if m =? NULL then mret tt
  else
    h ← mb m;
    if negb (has (m_flags h) M_EXT) then mret tt
    else
      buf ← load32 (ext_buf m);
      c ← ami_mbuf_cluster_of buf;
      if negb (c =? NULL) then set_cl c (fun h => Cluster (all_next h) (free_next h) (refcnt h +w 1)) else mret tt.

(** A foreign [ext_free] hook is only called: what it was called with is recorded. *)
Definition ami_mbuf_ext_unref (m : Z) : MB unit :=
  if m =? NULL then mret tt
  else
    h ← mb m;
    if negb (has (m_flags h) M_EXT) then mret tt
    else
      buf ← load32 (ext_buf m);
      freefn ← load32 (ext_free m);
      size_ ← load32 (ext_size m);
      _ ← set_ext m NULL NULL 0;
      c ← ami_mbuf_cluster_of buf;
      if negb (c =? NULL) then ami_mbuf_cluster_put c
      else if negb (freefn =? NULL) then modify (fun s => s_released (st_released s ++ [(freefn, buf, size_)]) s)
      else mret tt.

Definition ami_mbuf_free (m : Z) : MB Z :=
  if m =? NULL then mret NULL
  else
    h ← mb m;
    let next := m_next h in
    _ ← (if has (m_flags h) M_EXT then ami_mbuf_ext_unref m else mret tt);
    head ← pool_get free_mbufs;
    _ ← set_mb m (fun _ => Mbuf head NULL NULL 0 MT_FREE 0);
    _ ← pool_set (fun p => p_free m (mbufs_free p +w 1) p);
    mret next.

Fixpoint freem (fuel : nat) (m : Z) : MB unit :=
  if m =? NULL then mret tt
  else match fuel with
  | O => spin
  | S fuel' => next ← ami_mbuf_free m; freem fuel' next
  end.
Definition chain_fuel : MB nat := asks (fun s => size (st_mbuf s)).
Definition ami_mbuf_freem (m : Z) : MB unit := n ← chain_fuel; freem n m.

Definition ami_mbuf_getcl : MB Z :=
  m ← ami_mbuf_get;
  if m =? NULL then mret NULL
  else
    r ← ami_mbuf_clget m;
    if negb (r =? 0) then _ ← ami_mbuf_free m; mret NULL else mret m.
End Alloc.
