(* ===== verification/MbufCode.v ===== *)
(** * Operations on mbuf chains (src/src/mbuf/mbuf_ops.c, mbuf_packet.c)

    [LONG] arithmetic wraps as the target's does ([s32]).  The walks take a fuel; for
    those that extend a chain it is the number of mbufs there are and the number of
    bytes asked for, since every mbuf a walk adds holds at least one byte. *)

From Stdlib Require Import ZArith Lia.
From stdpp Require Import base numbers list gmap.
From S2P Require Import Prelude.
From S2P Require Import MbufAlloc.

Section Ops.
Context (AllocVec : mst -> Z -> Z) (others : mst -> mst).
Local Abbreviation get := (ami_mbuf_get AllocVec others).
Local Abbreviation gethdr := (ami_mbuf_gethdr AllocVec others).

(** ** Helpers *)

Fixpoint length_from (fuel : nat) (m total : Z) : MB Z :=
  if m =? NULL then mret total
  else match fuel with
  | O => spin
  | S fuel' =>
      h ← mb m;
      length_from fuel' (m_next h) (if 0 <? m_len h then total +w m_len h else total)
  end.
Definition ami_mbuf_length (m : Z) : MB Z := n ← chain_fuel; length_from n m 0.

(** The base of the span, when the storage is exclusively ours; its end is not used
    by the one caller. *)
Definition ami_mbuf_span (m : Z) : MB (option (Z * Z)) :=
  h ← mb m;
  if has (m_flags h) M_EXT then
    buf ← load32 (ext_buf m);
    c ← ami_mbuf_cluster_of buf;
    shared ← (if negb (c =? NULL) then k ← cl c; mret (negb (refcnt k =? 1)) else mret true);
    if shared : bool then mret None
    else size_ ← load32 (ext_size m); mret (Some (buf, buf + size_))
  else mret (Some (AMI_MBUF_BASE m h, AMI_MBUF_END m)).

Definition ami_mbuf_room (m : Z) : MB Z :=
  h ← mb m;
  if has (m_flags h) M_EXT then size_ ← load32 (ext_size m); mret (s32 size_)
  else mret (AMI_MBUF_END m - AMI_MBUF_BASE m h).

Definition ami_mbuf_ext_is_ours (m : Z) : MB bool :=
  h ← mb m;
  if negb (has (m_flags h) M_EXT) then mret false
  else buf ← load32 (ext_buf m); c ← ami_mbuf_cluster_of buf; mret (negb (c =? NULL)).

Definition ami_mbuf_get_zeroed (type : Z) : MB Z :=
  m ← get;
  if m =? NULL then mret NULL
  else
    _ ← set_mb m (w_type type);
    h ← mb m;
    _ ← ami_mbuf_zero_bytes (m_data h) MLEN;
    mret m.

(** [m->m_pkthdr.len = f(m->m_pkthdr.len)], when the flags say there is one. *)
Definition pkthdr_len_if (m : Z) (f : Z -> Z) : MB unit :=
  h ← mb m;
  if has (m_flags h) M_PKTHDR then v ← load32 (pkthdr_len m); store32 (pkthdr_len m) (f v) else mret tt.

(** ** mbuf_adj *)

(** The bytes still to trim when the walk ends. *)
Fixpoint adj_front (fuel : nat) (m len : Z) : MB Z :=
  if (m =? NULL) || (len <=? 0) then mret len
  else match fuel with
  | O => spin
  | S fuel' =>
      h ← mb m;
      if m_len h <=? len then
        _ ← set_mb m (w_len 0);
        adj_front fuel' (m_next h) (s32 (len - m_len h))
      else
        _ ← set_mb m (fun h => w_data (m_data h + len) (w_len (s32 (m_len h - len)) h));
        mret 0
  end.

Fixpoint adj_clear (fuel : nat) (m : Z) : MB unit :=
  if m =? NULL then mret tt
  else match fuel with
  | O => spin
  | S fuel' => h ← mb m; _ ← set_mb m (w_len 0); adj_clear fuel' (m_next h)
  end.

Fixpoint adj_total (fuel : nat) (m total : Z) : MB Z :=
  if m =? NULL then mret total
  else match fuel with
  | O => spin
  | S fuel' => h ← mb m; adj_total fuel' (m_next h) (s32 (total + m_len h))
  end.

Fixpoint adj_keep (fuel : nat) (m keep : Z) : MB unit :=
  if m =? NULL then mret tt
  else match fuel with
  | O => spin
  | S fuel' =>
      h ← mb m;
      if keep <=? m_len h then _ ← set_mb m (w_len keep); adj_keep fuel' (m_next h) 0
      else adj_keep fuel' (m_next h) (s32 (keep - m_len h))
  end.

Definition ami_mbuf_adj (mp req_len : Z) : MB Z :=
  if mp =? NULL then mret (-1)
  else
    n ← chain_fuel;
    if 0 <=? req_len then
      len ← adj_front n mp req_len;
      _ ← pkthdr_len_if mp (fun v => s32 (v - s32 (req_len - len)));
      mret 0
    else if u32 req_len =? 0x80000000 then
      _ ← adj_clear n mp;
      _ ← (h ← mb mp; if has (m_flags h) M_PKTHDR then store32 (pkthdr_len mp) 0 else mret tt);
      mret 0
    else
      let len := - req_len in
      total ← adj_total n mp 0;
      let keep := s32 (total - len) in
      let keep := if keep <? 0 then 0 else keep in
      _ ← (h ← mb mp; if has (m_flags h) M_PKTHDR then store32 (pkthdr_len mp) keep else mret tt);
      _ ← adj_keep n mp keep;
      mret 0.

(** ** mbuf_cat *)

Fixpoint last_of (fuel : nat) (m : Z) : MB Z :=
  h ← mb m;
  if m_next h =? NULL then mret m
  else match fuel with
  | O => spin
  | S fuel' => last_of fuel' (m_next h)
  end.

Fixpoint cat_from (fuel : nat) (m n : Z) : MB Z :=
  if n =? NULL then _ ← set_mb m (w_next NULL); mret 0
  else
    hm ← mb m; hn ← mb n;
    if has (m_flags hm) M_EXT || (AMI_MBUF_END m <? m_data hm + m_len hm + m_len hn) then
      _ ← set_mb m (w_next n); mret 0
    else match fuel with
    | O => spin
    | S fuel' =>
        _ ← (if 0 <? m_len hn then
               _ ← ami_mbuf_copy_bytes (m_data hm + m_len hm) (m_data hn) (m_len hn);
               set_mb m (fun h => w_len (s32 (m_len h + m_len hn)) h)
             else mret tt);
        n ← ami_mbuf_free n;
        cat_from fuel' m n
    end.

Definition ami_mbuf_cat (m n : Z) : MB Z :=
  if (m =? NULL) || (n =? NULL) then mret (-1)
  else f ← chain_fuel; m ← last_of f m; cat_from f m n.

(** ** mbuf_copydata *)

(** The mbuf the offset falls in, and the offset in it. *)
Fixpoint seek (fuel : nat) (p o : Z) : MB (Z * Z) :=
  if p =? NULL then mret (p, o)
  else
    h ← mb p;
    if o <? m_len h then mret (p, o)
    else match fuel with
    | O => spin
    | S fuel' => seek fuel' (m_next h) (s32 (o - m_len h))
    end.

(** Pass one: what is missing of [remaining]. *)
Fixpoint missing (fuel : nat) (q qo remaining : Z) : MB Z :=
  if (q =? NULL) || (remaining <=? 0) then mret remaining
  else match fuel with
  | O => spin
  | S fuel' =>
      h ← mb q;
      let avail := s32 (m_len h - qo) in
      let avail := if remaining <? avail then remaining else avail in
      missing fuel' (m_next h) 0 (if 0 <? avail then s32 (remaining - avail) else remaining)
  end.

(** Pass two. *)
Fixpoint copy_out (fuel : nat) (p o remaining dst : Z) : MB unit :=
  if (p =? NULL) || (remaining <=? 0) then mret tt
  else match fuel with
  | O => spin
  | S fuel' =>
      h ← mb p;
      let avail := s32 (m_len h - o) in
      let avail := if remaining <? avail then remaining else avail in
      if 0 <? avail then
        _ ← ami_mbuf_copy_bytes dst (m_data h + o) avail;
        copy_out fuel' (m_next h) 0 (s32 (remaining - avail)) (dst + avail)
      else copy_out fuel' (m_next h) 0 remaining dst
  end.

Definition ami_mbuf_copydata (m off len cp : Z) : MB Z :=
  if (m =? NULL) || (off <? 0) || (len <? 0) then mret (-1)
  else if len =? 0 then mret 0
  else if cp =? NULL then mret (-1)
  else
    n ← chain_fuel;
    '(p, o) ← seek n m off;
    remaining ← missing n p o len;
    if 0 <? remaining then mret (-1)
    else _ ← copy_out n p o len cp; mret 0.

(** ** mbuf_copyback *)

Definition bytes_fuel (k : Z) : MB nat := n ← chain_fuel; mret (n + Z.to_nat k)%nat.

(** The walk to the offset: the mbuf it ends at, the offset in it, the bytes walked
    over, and whether the chain could be extended. *)
Fixpoint copyback_seek (fuel : nat) (m off len totlen : Z) : MB (Z * Z * Z * bool) :=
  h ← mb m;
  if m_len h <? off then
    let off := s32 (off - m_len h) in
    let totlen := s32 (totlen + m_len h) in
    next ← (if m_next h =? NULL then
              n ← ami_mbuf_get_zeroed (m_type h);
              if n =? NULL then mret NULL
              else
                let want := s32 (off + len) in
                _ ← set_mb n (w_len (if want <? MLEN then want else MLEN));
                _ ← set_mb m (w_next n);
                mret n
            else mret (m_next h));
    if next =? NULL then mret (m, off, totlen, false)
    else match fuel with
    | O => spin
    | S fuel' => copyback_seek fuel' next off len totlen
    end
  else mret (m, off, totlen, true).

(** The copy: the bytes walked over, and whether the chain could be extended. *)
Fixpoint copyback_copy (fuel : nat) (m off len src totlen : Z) : MB (Z * bool) :=
  if len <=? 0 then mret (totlen, true)
  else
    h ← mb m;
    let chunk := s32 (m_len h - off) in
    let chunk := if len <? chunk then len else chunk in
    _ ← (if 0 <? chunk then ami_mbuf_copy_bytes (m_data h + off) src chunk else mret tt);
    let src := if 0 <? chunk then src + chunk else src in
    let len := if 0 <? chunk then s32 (len - chunk) else len in
    let totlen := s32 (totlen + s32 (chunk + off)) in
    if len =? 0 then mret (totlen, true)
    else
      next ← (if m_next h =? NULL then
                n ← get;
                if n =? NULL then mret NULL
                else
                  _ ← set_mb n (fun k => w_len (if len <? MLEN then len else MLEN) (w_type (m_type h) k));
                  _ ← set_mb m (w_next n);
                  mret n
              else mret (m_next h));
      if next =? NULL then mret (totlen, false)
      else match fuel with
      | O => spin
      | S fuel' => copyback_copy fuel' next 0 len src totlen
      end.

Definition ami_mbuf_copyback (m0 off len cp : Z) : MB Z :=
  if (m0 =? NULL) || (off <? 0) || (len <? 0) then mret (-1)
  else if (0 <? len) && (cp =? NULL) then mret (-1)
  else
    f ← bytes_fuel off;
    '(m, off, totlen, ok) ← copyback_seek f m0 off len 0;
    '(totlen, ok) ← (if ok : bool then f ← bytes_fuel len; copyback_copy f m off len cp totlen
                     else mret (totlen, false));
    h ← mb m0;
    _ ← (if has (m_flags h) M_PKTHDR then
           v ← load32 (pkthdr_len m0);
           if v <? totlen then store32 (pkthdr_len m0) totlen else mret tt
         else mret tt);
    mret (if ok : bool then 0 else -1).

(** ** mbuf_copym *)

(** [np] of the source: where the next mbuf of the copy goes; 0 is [head] itself. *)
Definition copym_link (np n head : Z) : MB Z :=
  if np =? NULL then mret n else _ ← set_mb np (w_next n); mret head.

Fixpoint copym_seek (fuel : nat) (m off : Z) : MB (Z * Z) :=
  if m =? NULL then mret (m, off)
  else
    h ← mb m;
    if off <? m_len h then mret (m, off)
    else if (m_len h =? 0) && (off =? 0) && (m_next h =? NULL) then mret (m, off)
    else match fuel with
    | O => spin
    | S fuel' => copym_seek fuel' (m_next h) (s32 (off - m_len h))
    end.

(** Fills the fresh mbuf [n] from [m] at [off]: the bytes it took. *)
Definition copym_fill (m n off avail : Z) : MB Z :=
  h ← mb m;
  ours ← (if has (m_flags h) M_EXT then ami_mbuf_ext_is_ours m else mret false);
  if ours : bool then
    buf ← load32 (ext_buf m);
    _ ← store32 (ext_buf n) buf;
    freefn ← load32 (ext_free m);
    _ ← store32 (ext_free n) freefn;
    size_ ← load32 (ext_size m);
    _ ← store32 (ext_size n) size_;
    _ ← set_mb n (fun k => w_data (m_data h + off) (w_flags (word (Z.lor (m_flags k) M_EXT)) k));
    _ ← ami_mbuf_ext_ref n;
    mret avail
  else
    room ← ami_mbuf_room n;
    let chunk := if avail <? room then avail else room in
    k ← mb n;
    _ ← ami_mbuf_copy_bytes (m_data k) (m_data h + off) chunk;
    mret chunk.

(** The copy loop: [head], the bytes copied and what is left of [len]; [None] is the
    failure of an allocation, with the chain built so far. *)
Fixpoint copym_from (fuel : nat) (copy_all want_hdr : bool) (hdr m off len head np copied : Z)
  : MB (Z * option (Z * Z)) :=
  if (m =? NULL) || (negb copy_all && (len <=? 0)) then mret (head, Some (copied, len))
  else match fuel with
  | O => spin
  | S fuel' =>
      h ← mb m;
      let avail := s32 (m_len h - off) in
      if avail <=? 0 then copym_from fuel' copy_all want_hdr hdr (m_next h) 0 len head np copied
      else
        let avail := if negb copy_all && (len <? avail) then len else avail in
        let first := (head =? NULL) && want_hdr in
        n ← (if first : bool then gethdr else get);
        if n =? NULL then mret (head, None)
        else
          _ ← set_mb n (w_type (m_type h));
          _ ← (if first : bool then
                 rcvif ← load32 (pkthdr_rcvif hdr);
                 _ ← store32 (pkthdr_rcvif n) rcvif;
                 hh ← mb hdr;
                 set_mb n (fun k => w_flags (word (Z.lor (m_flags k)
                             (Z.land (m_flags hh) (Z.lor (Z.lor M_EOR M_BCAST) M_MCAST)))) k)
               else mret tt);
          head ← copym_link np n head;
          chunk ← copym_fill m n off avail;
          _ ← set_mb n (w_len chunk);
          let copied := s32 (copied + chunk) in
          let len := if copy_all then len else s32 (len - chunk) in
          let off := s32 (off + chunk) in
          if m_len h <=? off then copym_from fuel' copy_all want_hdr hdr (m_next h) 0 len head n copied
          else copym_from fuel' copy_all want_hdr hdr m off len head n copied
  end.

(** Every pass moves to the next mbuf or copies at least one byte. *)
Definition copym_fuel : MB nat :=
  asks (fun s => map_fold (fun _ h k => S (Z.to_nat (m_len h) + k)) O (st_mbuf s)).

Definition ami_mbuf_copym (m off len : Z) : MB Z :=
  if (m =? NULL) || (off <? 0) || (len <? 0) then mret NULL
  else
    let copy_all := len =? M_COPYALL in
    h ← mb m;
    let want_hdr := (off =? 0) && has (m_flags h) M_PKTHDR in
    n ← chain_fuel;
    '(p, off) ← copym_seek n m off;
    if (p =? NULL) && (0 <? off) then mret NULL
    else
      f ← copym_fuel;
      '(head, r) ← copym_from f copy_all want_hdr m p off len NULL NULL 0;
      match r with
      | None => _ ← ami_mbuf_freem head; mret NULL
      | Some (copied, len) =>
          if negb copy_all && (0 <? len) then _ ← ami_mbuf_freem head; mret NULL
          else
            head ← (if head =? NULL then (if want_hdr : bool then gethdr else get) else mret head);
            if head =? NULL then mret NULL
            else
              _ ← (if want_hdr : bool then store32 (pkthdr_len head) copied else mret tt);
              mret head
      end.

(** ** mbuf_prepend *)

(** M_COPY_PKTHDR: the packet header and its marks move from [m] to [mn]. *)
Definition move_pkthdr (mn m : Z) : MB unit :=
  h ← mb m;
  if has (m_flags h) M_PKTHDR then
    _ ← set_mb mn (fun k => w_flags (word (Z.lor (m_flags k) (Z.land (m_flags h) M_COPYFLAGS))) k);
    rcvif ← load32 (pkthdr_rcvif m);
    len ← load32 (pkthdr_len m);
    _ ← store32 (pkthdr_rcvif mn) rcvif;
    _ ← store32 (pkthdr_len mn) len;
    _ ← set_mb mn (w_data (m_pktdat mn));
    set_mb m (fun k => w_flags (word (Z.land (m_flags k) (Z.lnot M_PKTHDR))) k)
  else mret tt.

Definition ami_mbuf_prepend (m len : Z) : MB Z :=
  if m =? NULL then mret NULL
  else if len <? 0 then _ ← ami_mbuf_freem m; mret NULL
  else if len =? 0 then mret m
  else
    span ← ami_mbuf_span m;
    h ← mb m;
    if (match span with Some (base, _) => len <=? m_data h - base | None => false end) then
      _ ← set_mb m (fun h => w_len (s32 (m_len h + len)) (w_data (m_data h - len) h));
      _ ← pkthdr_len_if m (fun v => s32 (v + len));
      mret m
    else
      mn ← get;
      if mn =? NULL then _ ← ami_mbuf_freem m; mret NULL
      else
        _ ← set_mb mn (w_type (m_type h));
        _ ← move_pkthdr mn m;
        k ← mb mn;
        let room := AMI_MBUF_END mn - AMI_MBUF_BASE mn k in
        if room <? len then _ ← ami_mbuf_free mn; _ ← ami_mbuf_freem m; mret NULL
        else
          let offset := Z.land (s32 (room - len)) (Z.lnot 3) in
          _ ← set_mb mn (fun k => w_next m (w_len len (w_data (AMI_MBUF_BASE mn k + offset) k)));
          _ ← pkthdr_len_if mn (fun v => s32 (v + len));
          mret mn.

(** ** mbuf_pullup *)

(** The gathering loop: what is left of [len], and the rest of the chain. *)
Fixpoint pullup_from (fuel : nat) (m n len space : Z) : MB (Z * Z) :=
  if (len <=? 0) || (n =? NULL) then mret (len, n)
  else
    hn ← mb n;
    let count := if space <? m_len hn then space else m_len hn in
    if count <=? 0 then mret (len, n)
    else match fuel with
    | O => spin
    | S fuel' =>
        hm ← mb m;
        _ ← ami_mbuf_copy_bytes (m_data hm + m_len hm) (m_data hn) count;
        _ ← set_mb m (fun k => w_len (s32 (m_len k + count)) k);
        _ ← set_mb n (fun k => w_len (s32 (m_len k - count)) k);
        hn ← mb n;
        if 0 <? m_len hn then
          _ ← set_mb n (fun k => w_data (m_data k + count) k);
          pullup_from fuel' m n (s32 (len - count)) (s32 (space - count))
        else
          n ← ami_mbuf_free n;
          pullup_from fuel' m n (s32 (len - count)) (s32 (space - count))
    end.

Definition pullup_gather (m n len : Z) : MB Z :=
  hm ← mb m;
  let space := AMI_MBUF_END m - (m_data hm + m_len hm) in
  f ← chain_fuel;
  '(len, n) ← pullup_from f m n len space;
  _ ← set_mb m (w_next n);
  if 0 <? len then _ ← ami_mbuf_freem m; mret NULL else mret m.

Definition ami_mbuf_pullup (n len : Z) : MB Z :=
  if n =? NULL then mret NULL
  else if len <? 0 then _ ← ami_mbuf_freem n; mret NULL
  else
    h ← mb n;
    if (len =? 0) || (len <=? m_len h) then mret n
    else if negb (has (m_flags h) M_EXT) && negb (m_next h =? NULL) && (m_data h + len <=? AMI_MBUF_END n) then
      pullup_gather n (m_next h) (s32 (len - m_len h))
    else
      m ← get;
      if m =? NULL then _ ← ami_mbuf_freem n; mret NULL
      else
        _ ← set_mb m (fun k => w_len 0 (w_type (m_type h) k));
        _ ← move_pkthdr m n;
        k ← mb m;
        if AMI_MBUF_END m - AMI_MBUF_BASE m k <? len then
          _ ← set_mb m (w_next n); _ ← ami_mbuf_freem m; mret NULL
        else pullup_gather m n len.

(** ** mbuf_build *)

(** The do loop; [None] is the failure of an allocation, with the chain so far. *)
Fixpoint build_from (fuel : nat) (want_pkthdr : bool) (p remaining head np : Z) : MB (Z * bool) :=
  let first := head =? NULL in
  n ← (if first && want_pkthdr then gethdr else get);
  if n =? NULL then mret (head, false)
  else
    head ← copym_link np n head;
    room ← ami_mbuf_room n;
    r ← (if (u32 room <? remaining) && (MINCLSIZE <=? remaining) then ami_mbuf_clget AllocVec others n else mret (-1));
    let room := if r =? 0 then MCLBYTES else room in
    let chunk := if remaining <? u32 room then remaining else u32 room in
    h ← mb n;
    _ ← (if (0 <? chunk) && negb (p =? NULL) then ami_mbuf_copy_bytes (m_data h) p chunk else mret tt);
    let p := if (0 <? chunk) && negb (p =? NULL) then p + chunk else p in
    _ ← set_mb n (w_len (s32 chunk));
    let remaining := remaining -w chunk in
    if 0 <? remaining then
      match fuel with
      | O => spin
      | S fuel' => build_from fuel' want_pkthdr p remaining head n
      end
    else mret (head, true).

Definition ami_mbuf_build (src len : Z) (want_pkthdr : bool) : MB Z :=
  '(head, ok) ← build_from (Z.to_nat len) want_pkthdr src len NULL NULL;
  if ok : bool then
    _ ← (if want_pkthdr then store32 (pkthdr_len head) (s32 len) else mret tt);
    mret head
  else _ ← ami_mbuf_freem head; mret NULL.

(** ** NX_PACKET *)

(** A packet of a chain by its two pointers, [nx_packet_prepend_ptr] and
    [nx_packet_append_ptr]; the chain is not modified. *)
Fixpoint from_packet (chain : list (Z * Z)) (want_pkthdr : bool) (head tail total : Z) : MB (Z * Z * bool) :=
  match chain with
  | [] => mret (head, total, true)
  | (prepend, append) :: rest =>
      if append <=? prepend then from_packet rest want_pkthdr head tail total
      else
        let len := append - prepend in
        piece ← ami_mbuf_build prepend len (if head =? NULL then want_pkthdr else false);
        if piece =? NULL then mret (head, total, false)
        else
          head ← (if head =? NULL then mret piece else _ ← set_mb tail (w_next piece); mret head);
          f ← chain_fuel;
          tail ← last_of f piece;
          from_packet rest want_pkthdr head tail (total +w len)
  end.

Definition ami_mbuf_from_packet (packet : option (list (Z * Z))) (want_pkthdr : bool) : MB Z :=
  match packet with
  | None => mret NULL
  | Some chain =>
      '(head, total, ok) ← from_packet chain want_pkthdr NULL NULL 0;
      if negb ok then _ ← ami_mbuf_freem head; mret NULL
      else
        head ← (if head =? NULL then ami_mbuf_build NULL 0 want_pkthdr else mret head);
        if head =? NULL then mret NULL
        else
          h ← mb head;
          _ ← (if want_pkthdr && has (m_flags h) M_PKTHDR then store32 (pkthdr_len head) (s32 total) else mret tt);
          mret head
  end.

(** [n] cells, as [nx_packet_data_append] reads them. *)
Fixpoint ld_cells (n : nat) (p : Z) : MB (list cell) :=
  match n with
  | O => mret []
  | S k => c ← ld_cell p; r ← ld_cells k (p + 1); mret (c :: r)
  end.

(** The packet of the other direction is NetX Duo's: [append] is
    [nx_packet_data_append] on it, [allocated] what [nx_packet_allocate] gave. *)
Fixpoint to_packet {P} (append : P -> list cell -> Z * P) (fuel : nat) (m : Z) (packet : P) : MB (Z * P) :=
  if m =? NULL then mret (0, packet)
  else match fuel with
  | O => spin
  | S fuel' =>
      h ← mb m;
      if m_len h <=? 0 then to_packet append fuel' (m_next h) packet
      else
        d ← ld_cells (Z.to_nat (m_len h)) (m_data h);
        let '(status, packet) := append packet d in
        if negb (status =? 0) then mret (status, packet)
        else to_packet append fuel' (m_next h) packet
  end.

(** The status, and the packet on NX_SUCCESS; on a failed append it was released. *)
Definition ami_mbuf_to_packet {P} (NX_PTR_ERROR : Z) (append : P -> list cell -> Z * P) (allocated : Z * P) (m pool out : Z)
  : MB (Z * option P) :=
  if (m =? NULL) || (pool =? NULL) || (out =? NULL) then mret (NX_PTR_ERROR, None)
  else
    let '(status, packet) := allocated in
    if negb (status =? 0) then mret (status, None)
    else
      n ← chain_fuel;
      '(status, packet) ← to_packet append n m packet;
      mret (status, if status =? 0 then Some packet else None).
End Ops.
