(* ===== verification/MbufInv.v ===== *)
(** * Reasoning about the mbuf monad

    A weakest precondition that demands a result, the cells under stores and copies,
    and the rules of the primitives of [MbufState]. *)

From Stdlib Require Import ZArith Lia.
From stdpp Require Import base numbers list gmap.
From S2P Require Import Prelude.
From S2P Require Import MbufAlloc.

(** ** Cells *)

Lemma peek_length c n : forall p, length (peek c p n) = n.
Proof. induction n as [|n IH]; intros p; simpl; [done|by rewrite IH]. Qed.

Lemma peek_lookup c n : forall p i, (i < n)%nat -> peek c p n !! i = Some (default Undef (c !! (p + Z.of_nat i))).
Proof.
  induction n as [|n IH]; intros p i Hi; [lia|]. destruct i as [|i]; simpl.
  - by rewrite Z.add_0_r.
  - rewrite IH by lia. do 3 f_equal. lia.
Qed.

Lemma peek_ext c c' n p :
  (forall a, p <= a < p + Z.of_nat n -> c' !! a = c !! a) -> peek c' p n = peek c p n.
Proof.
  intros H. apply list_eq. intros i. destruct (decide (i < n)%nat).
  - rewrite !peek_lookup by done. by rewrite H by lia.
  - rewrite !lookup_ge_None_2; rewrite ?peek_length; done || lia.
Qed.

Lemma peek_app c a b p : peek c p (a + b) = peek c p a ++ peek c (p + Z.of_nat a) b.
Proof.
  revert p; induction a as [|a IH]; intros p; simpl; [by rewrite Z.add_0_r|].
  rewrite IH. do 3 f_equal. lia.
Qed.

Lemma poke_lookup l : forall c p a,
  poke c p l !! a = if decide (p <= a < p + Z.of_nat (length l)) then l !! Z.to_nat (a - p) else c !! a.
Proof.
  induction l as [|x l IH]; intros c p a; simpl; [by rewrite decide_False by lia|].
  destruct (decide (a = p)) as [->|Hne].
  - rewrite lookup_insert_eq, decide_True by lia. by rewrite Z.sub_diag.
  - rewrite lookup_insert_ne by done. rewrite IH. destruct (decide (p + 1 <= a < _)).
    + rewrite decide_True by lia. replace (Z.to_nat (a - p)) with (S (Z.to_nat (a - (p + 1)))) by lia. done.
    + by rewrite decide_False by lia.
Qed.

Lemma poke_out c p l a : a < p \/ p + Z.of_nat (length l) <= a -> poke c p l !! a = c !! a.
Proof. intros H. rewrite poke_lookup. by rewrite decide_False by lia. Qed.

Lemma peek_poke c p l : peek (poke c p l) p (length l) = l.
Proof.
  apply list_eq. intros i. destruct (decide (i < length l)%nat) as [Hi|Hi].
  - rewrite peek_lookup by done. rewrite poke_lookup, decide_True by lia.
    replace (Z.to_nat _) with i by lia. destruct (l !! i) eqn:E; [done|]. apply lookup_ge_None in E. lia.
  - rewrite !lookup_ge_None_2; rewrite ?peek_length; done || lia.
Qed.

Lemma peek_poke_out c p l q n :
  q + Z.of_nat n <= p \/ p + Z.of_nat (length l) <= q -> peek (poke c p l) q n = peek c q n.
Proof. intros H. apply peek_ext. intros a Ha. apply poke_out. lia. Qed.

Lemma poke_mapped c p l q n : mapped c q n -> mapped (poke c p l) q n.
Proof.
  intros H a Ha. rewrite poke_lookup. destruct (decide _); [|by apply H].
  apply lookup_lt_is_Some_2. lia.
Qed.

Lemma poke_app c l k : forall p, poke c p (l ++ k) = poke (poke c (p + Z.of_nat (length l)) k) p l.
Proof.
  induction l as [|x l IH]; intros p; simpl; [by rewrite Z.add_0_r|].
  rewrite IH. do 3 f_equal. lia.
Qed.

Lemma mapped_sub c p n q k : mapped c p n -> p <= q -> q + k <= p + n -> mapped c q k.
Proof. intros H H1 H2 a Ha. apply H. lia. Qed.

(** ** Weakest preconditions *)

Definition wpm {A} (m : MB A) (Q : A -> mst -> Prop) (s : mst) : Prop :=
  exists a s', m s = Val (a, s') /\ Q a s'.

Lemma wpm_ret {A} (a : A) Q s : Q a s -> wpm (mret a) Q s.
Proof. intros H. by exists a, s. Qed.

Lemma wpm_bind {A B} (m : MB A) (k : A -> MB B) Q s : wpm m (fun a => wpm (k a) Q) s -> wpm (m ≫= k) Q s.
Proof.
  intros (a & s' & E & b & s'' & E' & H). exists b, s''. split; [|done]. unfold mbind, MB_bind. by rewrite E.
Qed.

Lemma wpm_mono {A} (m : MB A) (Q Q' : A -> mst -> Prop) s :
  wpm m Q s -> (forall a s', Q a s' -> Q' a s') -> wpm m Q' s.
Proof. intros (a & s' & E & H) HQ. exists a, s'. auto. Qed.

Lemma wpm_then {A B} (m : MB A) (k : A -> MB B) P Q s :
  wpm m P s -> (forall a s', P a s' -> wpm (k a) Q s') -> wpm (m ≫= k) Q s.
Proof. intros H HK. apply wpm_bind. eapply wpm_mono; [exact H|exact HK]. Qed.

Lemma wpm_asks {A} (f : mst -> A) Q s : Q (f s) s -> wpm (asks f) Q s.
Proof. intros H. by exists (f s), s. Qed.
Lemma wpm_modify f Q s : Q tt (f s) -> wpm (modify f) Q s.
Proof. intros H. by exists tt, (f s). Qed.
Lemma wpm_mb a h Q s : st_mbuf s !! a = Some h -> Q h s -> wpm (mb a) Q s.
Proof. intros E H. exists h, s. unfold mb. by rewrite E. Qed.
Lemma wpm_set_mb a h f Q s :
  st_mbuf s !! a = Some h -> Q tt (s_mbuf (<[a := f h]> (st_mbuf s)) s) -> wpm (set_mb a f) Q s.
Proof. intros E H. eexists _, _. unfold set_mb. by rewrite E. Qed.
Lemma wpm_cl a c Q s : st_cluster s !! a = Some c -> Q c s -> wpm (cl a) Q s.
Proof. intros E H. exists c, s. unfold cl. by rewrite E. Qed.
Lemma wpm_set_cl a c f Q s :
  st_cluster s !! a = Some c -> Q tt (s_cluster (<[a := f c]> (st_cluster s)) s) -> wpm (set_cl a f) Q s.
Proof. intros E H. eexists _, _. unfold set_cl. by rewrite E. Qed.
Lemma wpm_pool_get {A} (f : AmiMbufPool -> A) Q s : Q (f (st_pool s)) s -> wpm (pool_get f) Q s.
Proof. intros H; by exists (f (st_pool s)), s. Qed.
Lemma wpm_pool_set f Q s : Q tt (s_pool (f (st_pool s)) s) -> wpm (pool_set f) Q s.
Proof. intros H; by exists tt, (s_pool (f (st_pool s)) s). Qed.

(** The longword at [a] is [v]. *)
Definition long_at (c : cells) (a v : Z) : Prop := mapped c a 4 /\ peek c a 4 = frags v.

Lemma wpm_load32 a v Q s : long_at (st_cells s) a v -> Q v s -> wpm (load32 a) Q s.
Proof.
  intros [Hm E] H. exists v, s. split; [|done]. unfold load32. destruct (Hm a ltac:(lia)) as [x Hx]. rewrite Hx.
  assert (x = Frag v 0) as ->.
  { pose proof (f_equal (fun l => l !! 0%nat) E) as E0. cbv beta in E0.
    rewrite peek_lookup, Z.add_0_r, Hx in E0 by lia. injection E0; done. }
  by rewrite decide_True by exact E.
Qed.

Lemma wpm_store32 a v Q s :
  mapped (st_cells s) a 4 -> Q tt (s_cells (poke (st_cells s) a (frags v)) s) -> wpm (store32 a v) Q s.
Proof.
  intros Hm H. eexists _, _. split; [|exact H]. unfold store32.
  destruct (Hm a ltac:(lia)) as [? ->], (Hm (a + 1) ltac:(lia)) as [? ->],
    (Hm (a + 2) ltac:(lia)) as [? ->], (Hm (a + 3) ltac:(lia)) as [? ->]. done.
Qed.

Lemma long_at_poke c a v : mapped c a 4 -> long_at (poke c a (frags v)) a v.
Proof. intros H. split; [by apply poke_mapped|]. apply (peek_poke c a (frags v)). Qed.

Lemma long_at_ext c c' a v : (forall x, a <= x < a + 4 -> c' !! x = c !! x) -> long_at c a v -> long_at c' a v.
Proof.
  intros H [Hm E]. split; [intros x Hx; rewrite H by lia; by apply Hm|]. rewrite <- E. by apply peek_ext.
Qed.

Lemma copy_bytes_spec n : forall dst src s,
  mapped (st_cells s) src (Z.of_nat n) -> mapped (st_cells s) dst (Z.of_nat n) ->
  src + Z.of_nat n <= dst \/ dst + Z.of_nat n <= src ->
  copy_bytes n dst src s = Val (tt, s_cells (poke (st_cells s) dst (peek (st_cells s) src n)) s).
Proof.
  induction n as [|n IH]; intros dst src s Hs Hd Hap; [by destruct s|].
  cbn [copy_bytes]. unfold mbind, MB_bind, ld_cell, st_cell.
  destruct (Hs src ltac:(lia)) as [x Hx]. rewrite Hx. destruct (Hd dst ltac:(lia)) as [y Hy]. rewrite Hy.
  rewrite IH.
  - unfold s_cells. cbn [st_cells st_mbuf st_cluster st_slab st_pool st_heap st_released st_elsewhere]. do 3 f_equal.
    cbn [peek poke]. rewrite Hx. cbn [default from_option id].
    rewrite (peek_ext (st_cells s) _ n (src + 1)) by (intros a Ha; apply lookup_insert_ne; lia).
    apply map_eq. intros a. destruct (decide (a = dst)) as [->|Hne].
    + rewrite poke_out by lia. by rewrite !lookup_insert_eq.
    + rewrite lookup_insert_ne by done. rewrite !poke_lookup. by rewrite lookup_insert_ne by done.
  - intros a Ha. cbn [st_cells s_cells]. rewrite lookup_insert_ne by lia. apply Hs. lia.
  - intros a Ha. cbn [st_cells s_cells]. destruct (decide (a = dst)) as [->|]; [by rewrite lookup_insert_eq|].
    rewrite lookup_insert_ne by done. apply Hd. lia.
  - lia.
Qed.

Lemma wpm_copy_bytes dst src len Q s :
  0 <= len -> mapped (st_cells s) src len -> mapped (st_cells s) dst len -> src + len <= dst \/ dst + len <= src ->
  Q tt (s_cells (poke (st_cells s) dst (peek (st_cells s) src (Z.to_nat len))) s) ->
  wpm (ami_mbuf_copy_bytes dst src len) Q s.
Proof.
  intros Hl Hs Hd Hap H. eexists _, _. split; [|exact H].
  apply copy_bytes_spec; rewrite ?Z2Nat.id by done; done.
Qed.

Lemma zero_bytes_spec n : forall dst s,
  mapped (st_cells s) dst (Z.of_nat n) ->
  zero_bytes n dst s = Val (tt, s_cells (poke (st_cells s) dst (replicate n (Byte 0))) s).
Proof.
  induction n as [|n IH]; intros dst s Hd; [by destruct s|].
  cbn [zero_bytes]. unfold mbind, MB_bind, st_cell. destruct (Hd dst ltac:(lia)) as [y Hy]. rewrite Hy.
  rewrite IH.
  - unfold s_cells. cbn [st_cells st_mbuf st_cluster st_slab st_pool st_heap st_released st_elsewhere]. do 3 f_equal.
    cbn [replicate poke]. apply map_eq. intros a. destruct (decide (a = dst)) as [->|Hne].
    + rewrite poke_out by lia. by rewrite !lookup_insert_eq.
    + rewrite lookup_insert_ne by done. rewrite !poke_lookup. by rewrite lookup_insert_ne by done.
  - intros a Ha. cbn [st_cells s_cells]. destruct (decide (a = dst)) as [->|]; [by rewrite lookup_insert_eq|].
    rewrite lookup_insert_ne by done. apply Hd. lia.
Qed.

(** * The invariant of the mbuf pool

    Every mbuf is on the free list or in exactly one chain; a cluster's reference
    count is the number of mbufs that point at it, and the clusters on the free list
    are those nobody points at; the data of an mbuf lies in its own storage, behind
    its packet header when it has one.  [ls] are the chains of the task that runs;
    the mbufs other tasks hold are [st_elsewhere]. *)

(** ** Lists in memory *)

Fixpoint linked (next : Z -> option Z) (p : Z) (l : list Z) : Prop :=
  match l with
  | [] => p = 0
  | a :: r => p = a /\ a <> 0 /\ exists q, next a = Some q /\ linked next q r
  end.

Lemma linked_ext next next' l : forall p,
  (forall a, a ∈ l -> next' a = next a) -> linked next p l -> linked next' p l.
Proof.
  induction l as [|x l IH]; intros p H; [done|]. intros (-> & H0 & q & E & Hl). split_and!; [done|done|].
  exists q. split; [rewrite H by set_solver; done|]. apply IH; [set_solver|done].
Qed.

Lemma linked_head next p l : linked next p l -> p = hd 0 l.
Proof. destruct l; [done|]. by intros (-> & _). Qed.

Lemma linked_null next p l : linked next p l -> p = 0 -> l = [].
Proof. destruct l; [done|]. intros (-> & H & _). done. Qed.

Definition mnext (s : mst) (a : Z) : option Z := m_next <$> st_mbuf s !! a.
Definition cnext (s : mst) (c : Z) : option Z := all_next <$> st_cluster s !! c.
Definition fnext (s : mst) (c : Z) : option Z := free_next <$> st_cluster s !! c.

(** ** Geometry *)

Definition CLUSTER_BYTES : Z := CLUSTER_SIZE + MCLBYTES.

Record geom (s : mst) : Prop := {
  g_mbuf : forall a, is_Some (st_mbuf s !! a) ->
    a mod MSIZE = 0 /\ 0 < a /\ a + MSIZE <= 2 ^ 32 /\ mapped (st_cells s) a MSIZE;
  g_cluster : forall c, is_Some (st_cluster s !! c) ->
    0 < c /\ c + CLUSTER_BYTES <= 2 ^ 32 /\ mapped (st_cells s) c CLUSTER_BYTES;
  g_mbuf_cluster : forall a c, is_Some (st_mbuf s !! a) -> is_Some (st_cluster s !! c) ->
    a + MSIZE <= c \/ c + CLUSTER_BYTES <= a;
  g_cluster_cluster : forall c c', is_Some (st_cluster s !! c) -> is_Some (st_cluster s !! c') -> c <> c' ->
    c + CLUSTER_BYTES <= c' \/ c' + CLUSTER_BYTES <= c
}.

(** Arithmetic on places. *)
Ltac places :=
  unfold AMI_CLUSTER_DATA, CLUSTER_BYTES, AMI_MBUF_BASE, AMI_MBUF_END, m_dat, m_pktdat, pkthdr_rcvif, pkthdr_len,
    ext_buf, ext_free, ext_size in *;
  unfold CLUSTER_SIZE, MCLBYTES, MSIZE, MLEN, MHLEN in *;
  repeat match goal with
  | H : context [if has ?f M_PKTHDR then _ else _] |- _ => destruct (has f M_PKTHDR)
  | |- context [if has ?f M_PKTHDR then _ else _] => destruct (has f M_PKTHDR)
  end; lia.

(** The same objects at the same places. *)
Definition same_places (s s' : mst) : Prop :=
  (forall a, is_Some (st_mbuf s' !! a) <-> is_Some (st_mbuf s !! a)) /\
  (forall c, is_Some (st_cluster s' !! c) <-> is_Some (st_cluster s !! c)) /\
  (forall x, is_Some (st_cells s !! x) -> is_Some (st_cells s' !! x)).

Lemma same_places_refl s : same_places s s.
Proof. done. Qed.
Lemma same_places_trans s1 s2 s3 : same_places s1 s2 -> same_places s2 s3 -> same_places s1 s3.
Proof. intros (A & B & C) (A' & B' & C'). split_and!; [intros a; by rewrite A'|intros a; by rewrite B'|auto]. Qed.

Lemma geom_same s s' : same_places s s' -> geom s -> geom s'.
Proof.
  intros (A & B & C) [G1 G2 G3 G4]. constructor.
  - intros a Ha. apply A in Ha. destruct (G1 a Ha) as (? & ? & ? & Hm). split_and!; try done. intros x Hx. auto.
  - intros c Hc. apply B in Hc. destruct (G2 c Hc) as (? & ? & Hm). split_and!; try done. intros x Hx. auto.
  - intros a c Ha Hc. apply G3; [by apply A|by apply B].
  - intros c c' Hc Hc' Hne. apply G4; [by apply B|by apply B|done].
Qed.

Lemma mbuf_apart s a b :
  geom s -> is_Some (st_mbuf s !! a) -> is_Some (st_mbuf s !! b) -> a <> b -> a + MSIZE <= b \/ b + MSIZE <= a.
Proof.
  intros G Ha Hb Hne. destruct (g_mbuf s G a Ha) as (Ma & _), (g_mbuf s G b Hb) as (Mb & _).
  unfold MSIZE in *. pose proof (Z.div_mod a 128 ltac:(lia)). pose proof (Z.div_mod b 128 ltac:(lia)). lia.
Qed.

(** ** A well-formed mbuf *)

(** Storage that is not the pool's: its owner keeps it away from everything here. *)
Definition foreign (s : mst) (b n : Z) : Prop :=
  0 < b /\ 0 < n /\ mapped (st_cells s) b n /\
  (forall a, is_Some (st_mbuf s !! a) -> a + MSIZE <= b \/ b + n <= a) /\
  (forall c, is_Some (st_cluster s !! c) -> c + CLUSTER_BYTES <= b \/ b + n <= c).

Definition storage (s : mst) (b n : Z) : Prop :=
  (n = MCLBYTES /\ exists c, b = AMI_CLUSTER_DATA c /\ is_Some (st_cluster s !! c)) \/ foreign s b n.

Record mok (s : mst) (a : Z) (h : mbuf) : Prop := {
  k_flags : 0 <= m_flags h < 2 ^ 15;
  k_len : 0 <= m_len h < 2 ^ 31;
  k_pkthdr : has (m_flags h) M_PKTHDR = true ->
    (exists r, long_at (st_cells s) (pkthdr_rcvif a) r) /\ (exists l, long_at (st_cells s) (pkthdr_len a) l);
  k_ext : has (m_flags h) M_EXT = true ->
    exists b f n, long_at (st_cells s) (ext_buf a) b /\ long_at (st_cells s) (ext_free a) f /\
      long_at (st_cells s) (ext_size a) n /\ storage s b n /\ b <= m_data h /\ m_data h + m_len h <= b + n;
  k_int : has (m_flags h) M_EXT = false ->
    AMI_MBUF_BASE a h <= m_data h /\ m_data h + m_len h <= AMI_MBUF_END a
}.

Definition well (s : mst) (a : Z) : Prop := exists h, st_mbuf s !! a = Some h /\ mok s a h.

(** The cells of the two union members that are not data. *)
Definition header_same (s s' : mst) (a : Z) : Prop :=
  forall x, a + 20 <= x < a + 40 -> st_cells s' !! x = st_cells s !! x.

Lemma storage_same s s' b n : same_places s s' -> storage s b n -> storage s' b n.
Proof.
  intros (A & B & C) [[-> (c & -> & Hc)]|(H1 & H2 & H3 & H4 & H5)]; [left|right].
  - split; [done|]. exists c. split; [done|by apply B].
  - split_and!; try done.
    + intros x Hx. auto.
    + intros a Ha. by apply H4, A.
    + intros c Hc. by apply H5, B.
Qed.

Lemma well_same s s' a :
  same_places s s' -> st_mbuf s' !! a = st_mbuf s !! a -> header_same s s' a -> well s a -> well s' a.
Proof.
  intros P Ea Hh (h & E & []). exists h. split; [by rewrite Ea|].
  assert (LA : forall o v, 20 <= o <= 36 -> long_at (st_cells s) (a + o) v -> long_at (st_cells s') (a + o) v).
  { intros o v Ho. apply long_at_ext. intros x Hx. apply Hh. lia. }
  constructor; try done.
  - intros Hp. destruct (k_pkthdr0 Hp) as [[r Hr] [l Hl]]. split; [exists r|exists l]; by apply LA.
  - intros He. destruct (k_ext0 He) as (b & f & n & H1 & H2 & H3 & H4 & H5). exists b, f, n.
    split_and!; try (by apply LA); try (by eapply storage_same); apply H5.
Qed.

(** The address the external storage of [a] starts at. *)
Definition ext_at (s : mst) (a : Z) : option Z :=
  match st_mbuf s !! a with
  | Some h => if has (m_flags h) M_EXT then
                match st_cells s !! (ext_buf a) with Some (Frag v _) => Some v | _ => None end
              else None
  | None => None
  end.

Lemma ext_at_same s s' a :
  st_mbuf s' !! a = st_mbuf s !! a -> header_same s s' a -> ext_at s' a = ext_at s a.
Proof. intros E H. unfold ext_at. rewrite E. rewrite (H (ext_buf a)) by (unfold ext_buf; lia). done. Qed.

Definition refs (s : mst) (L : list Z) (c : Z) : nat :=
  length (filter (fun a => ext_at s a = Some (AMI_CLUSTER_DATA c)) L).

Lemma refs_same s s' L c : (forall a, a ∈ L -> ext_at s' a = ext_at s a) -> refs s' L c = refs s L c.
Proof.
  intros H. unfold refs. induction L as [|x L IH]; [done|]. rewrite !filter_cons, (H x) by set_solver.
  destruct (decide _); simpl; rewrite IH; auto; set_solver.
Qed.

Lemma refs_app s L K c : refs s (L ++ K) c = (refs s L c + refs s K c)%nat.
Proof. unfold refs. by rewrite filter_app, length_app. Qed.

Lemma refs_cons s a L c : refs s (a :: L) c = (refs s [a] c + refs s L c)%nat.
Proof. apply (refs_app s [a]). Qed.

Lemma refs_one s a c : refs s [a] c = if decide (ext_at s a = Some (AMI_CLUSTER_DATA c)) then 1%nat else 0%nat.
Proof. unfold refs. rewrite filter_cons. by destruct (decide _). Qed.

(** ** The invariant *)

Definition live (ls : list (list Z)) (s : mst) : list Z := concat ls ++ st_elsewhere s.

(** The pool never outgrows its limits. *)
Definition limits (p : AmiMbufPool) : Prop :=
  0 <= max_mbufs p < 2 ^ 32 /\ 0 <= max_clusters p < 2 ^ 32 /\
  mbufs_total p <= (if inited p then max_mbufs p else 0) /\
  clusters_total p <= (if inited p then max_clusters p else 0).

Record inv_of (fl al cf : list Z) (ls : list (list Z)) (s : mst) : Prop := {
  i_geom : geom s;
  i_free : linked (mnext s) (free_mbufs (st_pool s)) fl;
  i_free_count : mbufs_free (st_pool s) = Z.of_nat (length fl);
  i_total : mbufs_total (st_pool s) = Z.of_nat (length (fl ++ live ls s));
  i_limits : limits (st_pool s);
  i_dom : forall a, is_Some (st_mbuf s !! a) <-> a ∈ fl ++ live ls s;
  i_nodup : NoDup (fl ++ live ls s);
  i_chains : Forall (fun l => linked (mnext s) (hd 0 l) l) ls;
  i_live : Forall (well s) (live ls s);
  i_all : linked (cnext s) (clusters_all (st_pool s)) al;
  i_all_dom : forall c, is_Some (st_cluster s !! c) <-> c ∈ al;
  i_all_nodup : NoDup al;
  i_ctotal : clusters_total (st_pool s) = Z.of_nat (length al);
  i_cfree : linked (fnext s) (clusters_free (st_pool s)) cf;
  i_cfree_nodup : NoDup cf;
  i_cfree_count : clusters_free_count (st_pool s) = Z.of_nat (length cf);
  i_cfree_all : forall c, c ∈ cf -> c ∈ al;
  i_refs : forall c k, st_cluster s !! c = Some k ->
    refcnt k = Z.of_nat (refs s (live ls s) c) /\ (c ∈ cf <-> refcnt k = 0)
}.

Lemma i_total_max fl al cf ls s : inv_of fl al cf ls s -> mbufs_total (st_pool s) < 2 ^ 32.
Proof. intros []. destruct i_limits0 as (? & ? & ? & ?). destruct (inited _); lia. Qed.
Lemma i_ctotal_max fl al cf ls s : inv_of fl al cf ls s -> clusters_total (st_pool s) < 2 ^ 32.
Proof. intros []. destruct i_limits0 as (? & ? & ? & ?). destruct (inited _); lia. Qed.

Definition Inv (ls : list (list Z)) (s : mst) : Prop := exists fl al cf, inv_of fl al cf ls s.

Lemma elem_of_live l ls s a : l ∈ ls -> a ∈ l -> a ∈ live ls s.
Proof.
  intros Hl Ha. unfold live. apply elem_of_app. left. apply list_elem_of_In, in_concat. exists l.
  by split; apply list_elem_of_In.
Qed.

(** What a task sees of an mbuf: its header, its union members, its data. *)
Definition window (s : mst) (a : Z) : list cell :=
  match st_mbuf s !! a with Some h => peek (st_cells s) (m_data h) (Z.to_nat (m_len h)) | None => [] end.

Definition seen_same (s s' : mst) (a : Z) : Prop :=
  st_mbuf s' !! a = st_mbuf s !! a /\ header_same s s' a /\ window s' a = window s a.

Definition quiet (s s' : mst) (L : list Z) : Prop := forall a, a ∈ L -> seen_same s s' a.

(** The data of a chain. *)
Definition data (s : mst) (l : list Z) : list cell := concat (map (window s) l).

Lemma quiet_refl s L : quiet s s L.
Proof. done. Qed.
Lemma quiet_trans s1 s2 s3 L : quiet s1 s2 L -> quiet s2 s3 L -> quiet s1 s3 L.
Proof.
  intros H H' a Ha. destruct (H a Ha) as (A & B & C), (H' a Ha) as (A' & B' & C').
  split_and!; [congruence|intros x Hx; rewrite B', B by done; done|congruence].
Qed.
Lemma quiet_sub s s' L K : quiet s s' L -> (forall a, a ∈ K -> a ∈ L) -> quiet s s' K.
Proof. intros H HK a Ha. apply H, HK, Ha. Qed.
Lemma quiet_data s s' l : quiet s s' l -> data s' l = data s l.
Proof. intros H. unfold data. induction l as [|a l IH]; [done|]. simpl.
  rewrite IH by (intros b Hb; apply H; set_solver). f_equal. apply H. set_solver. Qed.

Lemma inv_size fl al cf ls s : inv_of fl al cf ls s -> size (st_mbuf s) = length (fl ++ live ls s).
Proof.
  intros [].
  rewrite <- (size_list_to_set (C := gset Z) (fl ++ live ls s)) by done. rewrite <- size_dom. f_equal.
  apply set_eq. intros a. rewrite elem_of_dom, elem_of_list_to_set. apply i_dom0.
Qed.
