(* ===== verification/MbufFree.v ===== *)
(** * Freeing

    [ami_mbuf_free] and [ami_mbuf_freem] keep the invariant: the mbufs go back to the
    free list, each cluster loses exactly the references they held, and no other mbuf
    is touched. *)

From Stdlib Require Import ZArith Lia.
From stdpp Require Import base numbers list gmap.
From S2P Require Import Prelude.
From S2P Require Import MbufAlloc.
From S2P Require Import MbufInv.

#[local] Set Warnings "-clear-no-such-hyp".

(** ** Writes inside one mbuf *)

(** Where the data of an mbuf can be. *)
Lemma window_apart s a b h x :
  geom s -> is_Some (st_mbuf s !! a) -> a <> b -> st_mbuf s !! b = Some h -> mok s b h ->
  m_data h <= x < m_data h + m_len h -> ~ (a <= x < a + MSIZE).
Proof.
  intros G Ha Hne Hb Hok Hx. destruct (has (m_flags h) M_EXT) eqn:He.
  - destruct (k_ext _ _ _ Hok He) as (e & f & n & _ & _ & _ & St & H1 & H2).
    destruct St as [[-> (c & -> & Hc)]|(_ & _ & _ & F & _)].
    + pose proof (g_mbuf_cluster s G a c Ha Hc). places.
    + specialize (F a Ha). lia.
  - destruct (k_int _ _ _ Hok He) as [H1 H2]. pose proof (mbuf_apart s a b G Ha ltac:(eauto) Hne).
    places.
Qed.

Definition outside (s s' : mst) (a : Z) : Prop :=
  forall x, ~ (a <= x < a + MSIZE) -> st_cells s' !! x = st_cells s !! x.

Lemma window_other s s' a b :
  geom s -> is_Some (st_mbuf s !! a) -> a <> b -> well s b ->
  st_mbuf s' !! b = st_mbuf s !! b -> outside s s' a -> seen_same s s' b.
Proof.
  intros G Ha Hne (h & Hb & Hok) Eb Ho. pose proof (mbuf_apart s a b G Ha ltac:(eauto) Hne).
  split_and!; [done|intros x Hx; apply Ho; places|].
  unfold window. rewrite Eb, Hb. apply peek_ext. intros x Hx. apply Ho.
  pose proof (k_len _ _ _ Hok). eapply window_apart; [done|done|done|done|done|lia].
Qed.

(** ** Searching the clusters *)

Lemma cluster_of_walk s buf al : forall fuel c,
  linked (cnext s) c al -> (length al <= fuel)%nat ->
  exists r, cluster_of fuel buf c s = Val (r, s) /\
    (r <> 0 -> r ∈ al /\ AMI_CLUSTER_DATA r = buf) /\
    (r = 0 -> forall c', c' ∈ al -> AMI_CLUSTER_DATA c' <> buf).
Proof.
  induction al as [|x al IH]; intros fuel c Hl Hf.
  { simpl in Hl. subst c. exists 0. split_and!; [by destruct fuel|done|set_solver]. }
  destruct Hl as (-> & Hx & q & Eq & Hl). destruct fuel as [|fuel]; [simpl in Hf; lia|].
  cbn [cluster_of]. rewrite (proj2 (Z.eqb_neq x 0)) by done.
  destruct (Z.eqb_spec (AMI_CLUSTER_DATA x) buf) as [E|E].
  { exists x. split_and!; [done|intros _; split; [set_solver|done]|done]. }
  unfold cnext in Eq. destruct (st_cluster s !! x) as [k|] eqn:Hk; [|done]. simpl in Eq. injection Eq as <-.
  destruct (IH fuel (all_next k) Hl) as (r & Er & H1 & H2); [simpl in Hf; lia|].
  exists r. split_and!.
  - unfold mbind, MB_bind, cl. by rewrite Hk.
  - intros Hr. destruct (H1 Hr) as [? ?]. split; [by apply elem_of_cons; right|done].
  - intros Hr c' Hc'. apply elem_of_cons in Hc' as [->|Hc']; [done|auto].
Qed.

Lemma wpm_cluster_of s buf al Q :
  linked (cnext s) (clusters_all (st_pool s)) al -> NoDup al ->
  (forall c, is_Some (st_cluster s !! c) <-> c ∈ al) -> (forall c, c ∈ al -> 0 < c) ->
  (forall r, (r <> 0 -> is_Some (st_cluster s !! r) /\ AMI_CLUSTER_DATA r = buf) ->
             (r = 0 -> forall c, is_Some (st_cluster s !! c) -> AMI_CLUSTER_DATA c <> buf) -> Q r s) ->
  wpm (ami_mbuf_cluster_of buf) Q s.
Proof.
  intros Hl Hn Hd Hp HQ. unfold ami_mbuf_cluster_of. destruct (Z.eqb_spec buf 0) as [->|Hb].
  { apply wpm_ret, HQ; [done|]. intros _ c Hc. apply Hd, Hp in Hc. places. }
  apply wpm_bind, wpm_pool_get, wpm_bind, wpm_asks.
  destruct (cluster_of_walk s buf al (size (st_cluster s)) (clusters_all (st_pool s))) as (r & E & H1 & H2); [done| |].
  { rewrite <- (size_list_to_set (C := gset Z) al) by done. rewrite <- size_dom. apply subseteq_size.
    intros c Hc. apply elem_of_list_to_set, Hd in Hc. by apply elem_of_dom. }
  exists r, s. split; [done|]. apply HQ.
  - intros Hr. destruct (H1 Hr). split; [by apply Hd|done].
  - intros Hr c Hc. apply H2; [done|by apply Hd].
Qed.

(** ** Dropping a reference *)

Definition drop_ref (c : Z) (s : mst) : mst :=
  match st_cluster s !! c with
  | Some k =>
      if refcnt k =? 1 then
        s_pool (p_clfree c (clusters_free_count (st_pool s) +w 1)
                 (if clusters_cached (st_pool s) <? AMI_MBUF_CLUSTER_CACHE
                  then clusters_cached (st_pool s) +w 1 else clusters_cached (st_pool s)) (st_pool s))
          (s_cluster (<[c := Cluster (all_next k) (clusters_free (st_pool s)) 0]> (st_cluster s)) s)
      else s_cluster (<[c := Cluster (all_next k) (free_next k) (refcnt k - 1)]> (st_cluster s)) s
  | None => s
  end.

Lemma cluster_put_spec c k s :
  st_cluster s !! c = Some k -> c <> 0 -> 0 < refcnt k < 2 ^ 32 ->
  wpm (ami_mbuf_cluster_put c) (fun _ s' => s' = drop_ref c s) s.
Proof.
  intros Hk Hc Hr. unfold ami_mbuf_cluster_put, drop_ref. rewrite (proj2 (Z.eqb_neq c 0)) by done. rewrite Hk.
  apply wpm_bind, (wpm_cl _ k); [done|]. rewrite (proj2 (Z.ltb_lt 0 _)) by lia.
  apply wpm_bind, (wpm_set_cl _ k); [done|]. rewrite (u32_small (refcnt k - 1)) by word_lia.
  apply wpm_bind. eapply wpm_cl; [apply lookup_insert_eq|]. cbn [refcnt].
  destruct (Z.eqb_spec (refcnt k) 1) as [E|E].
  - rewrite E. change (1 - 1 =? 0) with true. cbv iota.
    apply wpm_bind, wpm_pool_get, wpm_bind. eapply wpm_set_cl; [apply lookup_insert_eq|].
    apply wpm_pool_set. unfold s_pool, s_cluster.
    cbn [st_cluster st_mbuf st_slab st_cells st_pool st_heap st_released st_elsewhere id all_next free_next refcnt].
    by rewrite insert_insert_eq.
  - rewrite (proj2 (Z.eqb_neq _ 0)) by lia. by apply wpm_ret.
Qed.

(** ** One mbuf *)

Lemma live_cons a l ls s : live ((a :: l) :: ls) s = a :: live (l :: ls) s.
Proof. done. Qed.

(** The state a free leaves behind, as far as the invariant is concerned: [a] heads
    the free list, its union members are gone, and the clusters count one reference
    less where [a] held one. *)
Lemma inv_freed fl al cf cf' a l ls s s' :
  inv_of fl al cf ((a :: l) :: ls) s ->
  st_mbuf s' = <[a := Mbuf (free_mbufs (st_pool s)) 0 0 0 MT_FREE 0]> (st_mbuf s) ->
  outside s s' a -> (forall x, is_Some (st_cells s !! x) -> is_Some (st_cells s' !! x)) ->
  st_elsewhere s' = st_elsewhere s ->
  (forall c, cnext s' c = cnext s c) ->
  free_mbufs (st_pool s') = a -> mbufs_free (st_pool s') = mbufs_free (st_pool s) +w 1 ->
  mbufs_total (st_pool s') = mbufs_total (st_pool s) -> limits (st_pool s') ->
  clusters_all (st_pool s') = clusters_all (st_pool s) -> clusters_total (st_pool s') = clusters_total (st_pool s) ->
  linked (fnext s') (clusters_free (st_pool s')) cf' -> NoDup cf' ->
  clusters_free_count (st_pool s') = Z.of_nat (length cf') -> (forall c, c ∈ cf' -> c ∈ al) ->
  (forall c k, st_cluster s' !! c = Some k ->
     refcnt k = Z.of_nat (refs s (live (l :: ls) s) c) /\ (c ∈ cf' <-> refcnt k = 0)) ->
  inv_of (a :: fl) al cf' (l :: ls) s' /\ quiet s s' (live (l :: ls) s).
Proof.
  intros I Em Eo Ec Ee En P1 P2 P3 PL P4 P5 C1 C2 C3 C4 C5. pose proof (i_total_max _ _ _ _ _ I) as Hmax. pose proof I as [].
  rewrite live_cons in *. set (L := live (l :: ls) s) in *.
  assert (EL : live (l :: ls) s' = L) by (unfold live, L, live; by rewrite Ee).
  assert (Ha : is_Some (st_mbuf s !! a)) by (apply i_dom; set_solver).
  assert (Perm : (a :: fl) ++ L ≡ₚ fl ++ a :: L) by (by rewrite <- Permutation_middle).
  assert (ND : NoDup ((a :: fl) ++ L)) by (by rewrite Perm).
  assert (Na : (a ∉ L) /\ (a ∉ fl)) by (apply NoDup_cons in ND as [H _]; set_solver).
  assert (Emb : forall b, b <> a -> st_mbuf s' !! b = st_mbuf s !! b).
  { intros b Hb. rewrite Em. by apply lookup_insert_ne. }
  assert (SP : same_places s s').
  { split_and!; [|intros c|done].
    - intros b. destruct (decide (b = a)) as [->|]; [|by rewrite Emb]. rewrite Em, lookup_insert_eq. by split.
    - specialize (En c). unfold cnext in En. rewrite <- !fmap_is_Some with (f := all_next). by rewrite En. }
  assert (Q : quiet s s' L).
  { intros b Hb. rewrite Forall_cons in i_live. destruct i_live as [_ HL]. rewrite Forall_forall in HL.
    apply (window_other s s' a b); [done|done|set_solver|by apply HL|apply Emb; set_solver|done]. }
  assert (EN : forall b, b <> a -> mnext s' b = mnext s b) by (intros b Hb; unfold mnext; by rewrite Emb).
  split; [|done]. constructor; rewrite ?EL; try done.
  - by eapply geom_same.
  - rewrite P1. split; [done|]. split; [destruct (g_mbuf s i_geom a Ha) as (_ & ? & _); lia|].
    exists (free_mbufs (st_pool s)). split; [unfold mnext; by rewrite Em, lookup_insert_eq|].
    eapply linked_ext; [|exact i_free]. intros b Hb. apply EN. set_solver.
  - rewrite P2, i_free_count. rewrite u32_small; [simpl; lia|].
    assert (length fl <= length (fl ++ a :: L))%nat by (rewrite length_app; lia). unfold is_u32. 
    rewrite length_app in *. simpl in *. lia.
  - rewrite P3, i_total. by rewrite Perm.
  - intros b. rewrite (proj1 SP b), i_dom. by rewrite Perm.
  - rewrite Forall_cons in i_chains. destruct i_chains as [Hc HL]. constructor.
    + destruct Hc as (_ & _ & q & Eq & Hl). pose proof (linked_head _ _ _ Hl) as Eq'. rewrite <- Eq'.
      eapply linked_ext; [|exact Hl]. intros b Hb. apply EN. unfold L, live in Na. set_solver.
    + rewrite Forall_forall in HL |- *. intros k Hk. eapply linked_ext; [|by apply HL].
      intros b Hb. apply EN. intros ->. apply (proj1 Na). apply (elem_of_live k); [by apply elem_of_cons; right|done].
  - rewrite Forall_cons in i_live. destruct i_live as [_ HL]. rewrite Forall_forall in HL |- *.
    intros b Hb. destruct (Q b Hb) as (E1 & E2 & _). apply (well_same s s'); auto.
  - rewrite P4. eapply linked_ext; [|exact i_all]. auto.
  - intros c. rewrite (proj1 (proj2 SP) c). apply i_all_dom.
  - by rewrite P5.
  - intros c k Hk. rewrite (refs_same s s') by (intros b Hb; destruct (Q b Hb) as (? & ? & _); by apply ext_at_same).
    by apply C5.
Qed.

Lemma long_first c p v : long_at c p v -> c !! p = Some (Frag v 0).
Proof.
  intros [Hm E]. destruct (Hm p ltac:(lia)) as [x Hx]. rewrite Hx.
  pose proof (f_equal (fun l => l !! 0%nat) E) as E0. cbv beta in E0.
  rewrite peek_lookup, Z.add_0_r, Hx in E0 by lia. injection E0 as ->. done.
Qed.

Lemma ext_at_long s a h b :
  st_mbuf s !! a = Some h -> has (m_flags h) M_EXT = true -> long_at (st_cells s) (ext_buf a) b -> ext_at s a = Some b.
Proof. intros Ha He Hb. unfold ext_at. rewrite Ha, He. by rewrite (long_first _ _ _ Hb). Qed.

Lemma ext_at_none s a h : st_mbuf s !! a = Some h -> has (m_flags h) M_EXT = false -> ext_at s a = None.
Proof. intros Ha He. unfold ext_at. by rewrite Ha, He. Qed.

(** [set_ext] writes three longwords of the union. *)
Lemma wpm_set_ext a b f n Q s :
  mapped (st_cells s) a MSIZE ->
  (forall c, outside s (s_cells c s) a -> (forall x, is_Some (st_cells s !! x) -> is_Some (c !! x)) ->
     (forall x, ~ (a + 28 <= x < a + 40) -> c !! x = st_cells s !! x) ->
     long_at c (ext_buf a) b -> long_at c (ext_free a) f -> long_at c (ext_size a) n -> Q tt (s_cells c s)) ->
  wpm (set_ext a b f n) Q s.
Proof.
  intros Hm HQ. unfold set_ext.
  assert (M : forall c o, (forall x, is_Some (st_cells s !! x) -> is_Some (c !! x)) -> 0 <= o <= 124 -> mapped c (a + o) 4).
  { intros c o Hc Ho x Hx. apply Hc, Hm. places. }
  apply wpm_bind, wpm_store32; [apply M; [auto|lia]|].
  apply wpm_bind, wpm_store32; [apply M; [|lia]|].
  { cbn [st_cells s_cells]. intros x Hx. rewrite poke_lookup. destruct (decide _); [apply lookup_lt_is_Some_2; simpl in *; lia|done]. }
  apply wpm_store32; [apply M; [|lia]|].
  { cbn [st_cells s_cells]. intros x Hx. rewrite !poke_lookup.
    repeat (destruct (decide _); [apply lookup_lt_is_Some_2; simpl in *; lia|]). done. }
  cbn [st_cells s_cells]. set (c := poke (poke (poke _ _ _) _ _) _ _).
  change (Q tt (s_cells c s)). apply HQ.
  - intros x Hx. cbn [st_cells s_cells]. unfold c. rewrite !poke_out; [done|simpl; places..].
  - intros x Hx. unfold c. rewrite !poke_lookup.
    repeat (destruct (decide _); [apply lookup_lt_is_Some_2; simpl in *; lia|]). done.
  - intros x Hx. unfold c. rewrite !poke_out; [done|simpl; places..].
  - apply (long_at_ext (poke (st_cells s) (ext_buf a) (frags b))).
    + intros x Hx. unfold c. rewrite 2!poke_out; [done|simpl; places..].
    + apply long_at_poke. intros x Hx. apply Hm. places.
  - apply (long_at_ext (poke (poke (st_cells s) (ext_buf a) (frags b)) (ext_free a) (frags f))).
    + intros x Hx. unfold c. rewrite poke_out; [done|simpl; places].
    + apply long_at_poke, poke_mapped. intros x Hx. apply Hm. places.
  - apply long_at_poke, poke_mapped, poke_mapped. intros x Hx. apply Hm. places.
Qed.

(** The end of a free, from a state in which the reference is already dropped. *)
Lemma free_finish fl al cf cf' a h l ls s s1 Q :
  inv_of fl al cf ((a :: l) :: ls) s -> st_mbuf s !! a = Some h ->
  st_mbuf s1 = st_mbuf s -> outside s s1 a -> (forall x, is_Some (st_cells s !! x) -> is_Some (st_cells s1 !! x)) ->
  st_elsewhere s1 = st_elsewhere s -> (forall c, cnext s1 c = cnext s c) ->
  (exists f n k, st_pool s1 = p_clfree f n k (st_pool s)) ->
  linked (fnext s1) (clusters_free (st_pool s1)) cf' -> NoDup cf' ->
  clusters_free_count (st_pool s1) = Z.of_nat (length cf') -> (forall c, c ∈ cf' -> c ∈ al) ->
  (forall c k, st_cluster s1 !! c = Some k ->
     refcnt k = Z.of_nat (refs s (live (l :: ls) s) c) /\ (c ∈ cf' <-> refcnt k = 0)) ->
  (forall s', inv_of (a :: fl) al cf' (l :: ls) s' -> quiet s s' (live (l :: ls) s) ->
     st_elsewhere s' = st_elsewhere s -> st_released s' = st_released s1 -> Q (hd 0 l) s') ->
  wpm (head ← pool_get free_mbufs;
       _ ← set_mb a (fun _ => Mbuf head NULL NULL 0 MT_FREE 0);
       _ ← pool_set (fun p => p_free a (mbufs_free p +w 1) p);
       mret (m_next h)) Q s1.
Proof.
  intros I Hh Em Eo Ec Ee En (f & n & k & Ep) C1 C2 C3 C4 C5 HQ.
  apply wpm_bind, wpm_pool_get, wpm_bind. eapply wpm_set_mb; [rewrite Em; exact Hh|]. cbv beta.
  apply wpm_bind, wpm_pool_set, wpm_ret. pose proof (i_chains _ _ _ _ _ I) as Hc. rewrite Forall_cons in Hc.
  destruct Hc as [(_ & _ & q & Eq & Hl) _]. unfold mnext in Eq. rewrite Hh in Eq. injection Eq as <-.
  rewrite (linked_head _ _ _ Hl). rewrite Ep in C1, C3.
  edestruct (inv_freed fl al cf cf' a l ls s) as [I' Q']; [exact I|..|apply HQ; [exact I'|exact Q'|done|done]]; try done.
  all: cbn [st_pool st_cluster s_pool s_mbuf st_mbuf st_elsewhere]; rewrite ?Em, ?Ep; try done. exact (i_limits _ _ _ _ _ I).
Qed.

Lemma refs_drop s a L c b : ext_at s a = Some b ->
  refs s (a :: L) c = ((if decide (b = AMI_CLUSTER_DATA c) then 1 else 0) + refs s L c)%nat.
Proof.
  intros E. rewrite refs_cons, refs_one, E. f_equal. destruct (decide (b = _)) as [->|Hne].
  - by rewrite decide_True.
  - rewrite decide_False; [done|congruence].
Qed.

Lemma cluster_data_inj c c' : AMI_CLUSTER_DATA c = AMI_CLUSTER_DATA c' -> c = c'.
Proof. places. Qed.

(** Dropping the reference [a] holds. *)
Lemma drop_ref_clusters fl al cf a l ls s c cs :
  inv_of fl al cf ((a :: l) :: ls) s -> ext_at s a = Some (AMI_CLUSTER_DATA c) -> is_Some (st_cluster s !! c) ->
  let s1 := drop_ref c (s_cells cs s) in
  exists cf',
    (forall x, cnext s1 x = cnext s x) /\ (exists f n k, st_pool s1 = p_clfree f n k (st_pool s)) /\
    linked (fnext s1) (clusters_free (st_pool s1)) cf' /\ NoDup cf' /\
    clusters_free_count (st_pool s1) = Z.of_nat (length cf') /\ (forall x, x ∈ cf' -> x ∈ al) /\
    (forall x k, st_cluster s1 !! x = Some k ->
       refcnt k = Z.of_nat (refs s (live (l :: ls) s) x) /\ (x ∈ cf' <-> refcnt k = 0)).
Proof.
  intros I Ea [k Hk] s1. pose proof (i_ctotal_max _ _ _ _ _ I) as Hcmax. pose proof I as [].
  pose proof (i_refs c k Hk) as [Rk Fk]. rewrite live_cons, (refs_drop _ _ _ _ _ Ea), decide_True in Rk by done.
  assert (Hc0 : 0 < c /\ c ∈ al).
  { split; [by destruct (g_cluster s i_geom c ltac:(eauto))|by apply i_all_dom; eauto]. }
  assert (Hother : forall x kx, x <> c -> st_cluster s !! x = Some kx ->
            refcnt kx = Z.of_nat (refs s (live (l :: ls) s) x) /\ (x ∈ cf <-> refcnt kx = 0)).
  { intros x kx Hx Hkx. destruct (i_refs x kx Hkx) as [Rx Fx]. split; [|done].
    rewrite live_cons, (refs_drop _ _ _ _ _ Ea), decide_False in Rx; [done|]. intros E. by apply Hx, cluster_data_inj. }
  unfold s1, drop_ref. cbn [st_cluster s_cells st_pool]. rewrite Hk.
  destruct (Z.eqb_spec (refcnt k) 1) as [E1|E1].
  - assert (Nc : c ∉ cf) by (intros H; apply Fk in H; lia). exists (c :: cf). split_and!.
    + intros x. unfold cnext. cbn [st_cluster s_pool s_cluster].
      destruct (decide (x = c)) as [->|]; [by rewrite lookup_insert_eq, Hk|by rewrite lookup_insert_ne].
    + eexists _, _, _. reflexivity.
    + split; [done|]. split; [lia|]. exists (clusters_free (st_pool s)). split.
      * unfold fnext. cbn [st_cluster s_pool s_cluster]. by rewrite lookup_insert_eq.
      * eapply linked_ext; [|exact i_cfree]. intros x Hx. unfold fnext. cbn [st_cluster s_pool s_cluster].
        rewrite lookup_insert_ne; [done|]. intros ->. done.
    + by apply NoDup_cons.
    + cbn [st_pool s_pool p_clfree clusters_free_count]. rewrite i_cfree_count, u32_small; [simpl; lia|].
      assert (length (c :: cf) <= length al)%nat.
      { apply submseteq_length, NoDup_submseteq; [by apply NoDup_cons|]. intros x Hx. apply elem_of_cons in Hx as [->|]; [apply Hc0|auto]. }
      simpl in *. unfold is_u32. lia.
    + intros x Hx. apply elem_of_cons in Hx as [->|]; [apply Hc0|auto].
    + intros x kx Hkx. cbn [st_cluster s_pool s_cluster] in Hkx. destruct (decide (x = c)) as [->|Hx].
      * rewrite lookup_insert_eq in Hkx. injection Hkx as <-. cbn [refcnt]. split; [lia|]. split; [done|].
        intros _. by apply elem_of_cons; left.
      * rewrite lookup_insert_ne in Hkx by done. destruct (Hother x kx Hx Hkx) as [R F]. split; [done|].
        rewrite elem_of_cons, <- F. split; [by intros [->|]|by right].
  - exists cf. split_and!; try done.
    + intros x. unfold cnext. cbn [st_cluster s_cluster].
      destruct (decide (x = c)) as [->|]; [by rewrite lookup_insert_eq, Hk|by rewrite lookup_insert_ne].
    + exists (clusters_free (st_pool s)), (clusters_free_count (st_pool s)), (clusters_cached (st_pool s)).
      cbn [st_pool s_cluster s_cells]. by destruct (st_pool s).
    + eapply linked_ext; [|exact i_cfree]. intros x Hx. unfold fnext. cbn [st_cluster s_cluster].
      destruct (decide (x = c)) as [->|]; [by rewrite lookup_insert_eq, Hk|by rewrite lookup_insert_ne].
    + intros x kx Hkx. cbn [st_cluster s_cluster] in Hkx. destruct (decide (x = c)) as [->|Hx].
      * rewrite lookup_insert_eq in Hkx. injection Hkx as <-. cbn [refcnt]. split; [lia|]. rewrite Fk. lia.
      * rewrite lookup_insert_ne in Hkx by done. by apply Hother.
Qed.

Lemma mbuf_inv a l ls s fl al cf :
  inv_of fl al cf ((a :: l) :: ls) s ->
  exists h, st_mbuf s !! a = Some h /\ mok s a h /\ 0 < a /\ mapped (st_cells s) a MSIZE /\ linked (mnext s) (m_next h) l.
Proof.
  intros I. pose proof I as []. rewrite live_cons, Forall_cons in i_live. destruct i_live as [(h & Hh & Hok) _].
  exists h. destruct (g_mbuf s i_geom a ltac:(eauto)) as (_ & ? & _ & ?). split_and!; try done.
  rewrite Forall_cons in i_chains. destruct i_chains as [(_ & _ & q & Eq & Hl) _]. unfold mnext in Eq.
  rewrite Hh in Eq. by injection Eq as <-.
Qed.

Lemma wpm_cluster_of_inv fl al cf ls s s1 buf Q :
  inv_of fl al cf ls s -> st_cluster s1 = st_cluster s -> st_pool s1 = st_pool s ->
  (forall r, (r <> 0 -> is_Some (st_cluster s !! r) /\ AMI_CLUSTER_DATA r = buf) ->
             (r = 0 -> forall c, is_Some (st_cluster s !! c) -> AMI_CLUSTER_DATA c <> buf) -> Q r s1) ->
  wpm (ami_mbuf_cluster_of buf) Q s1.
Proof.
  intros I Ec Ep HQ. pose proof I as []. apply (wpm_cluster_of s1 buf al).
  - rewrite Ep. eapply linked_ext; [|exact i_all]. intros c _. unfold cnext. by rewrite Ec.
  - done.
  - intros c. rewrite Ec. apply i_all_dom.
  - intros c Hc. apply i_all_dom in Hc. by destruct (g_cluster s i_geom c Hc).
  - rewrite Ec. done.
Qed.

(** Freeing the first mbuf of a chain. *)
Lemma free_spec a l ls s :
  Inv ((a :: l) :: ls) s ->
  wpm (ami_mbuf_free a) (fun r s' => r = hd 0 l /\ Inv (l :: ls) s' /\ quiet s s' (live (l :: ls) s) /\
    st_elsewhere s' = st_elsewhere s) s.
Proof.
  intros (fl & al & cf & I). destruct (mbuf_inv _ _ _ _ _ _ _ I) as (h & Hh & Hok & Ha0 & Hmap & Hl).
  pose proof (i_total_max _ _ _ _ _ I) as Hmax. pose proof I as []. unfold ami_mbuf_free. rewrite (proj2 (Z.eqb_neq a 0)) by lia.
  apply wpm_bind, (wpm_mb _ h); [done|]. cbv zeta.
  destruct (has (m_flags h) M_EXT) eqn:He.
  - destruct (k_ext _ _ _ Hok He) as (b & f & n & L1 & L2 & L3 & St & _).
    pose proof (ext_at_long s a h b Hh He L1) as Ea.
    apply wpm_bind. unfold ami_mbuf_ext_unref. rewrite (proj2 (Z.eqb_neq a 0)) by lia.
    apply wpm_bind, (wpm_mb _ h); [done|]. rewrite He. cbn [negb].
    apply wpm_bind, (wpm_load32 _ b); [done|]. apply wpm_bind, (wpm_load32 _ f); [done|].
    apply wpm_bind, (wpm_load32 _ n); [done|]. apply wpm_bind, wpm_set_ext; [done|].
    intros cs Ho Hd _ _ _ _. apply wpm_bind. eapply wpm_cluster_of_inv; [exact I|done|done|].
    intros r H1 H2. destruct (Z.eqb_spec r 0) as [->|Hr]; cbn [negb].
    + specialize (H2 eq_refl).
      assert (Hrefs : forall c k, st_cluster s !! c = Some k ->
                refcnt k = Z.of_nat (refs s (live (l :: ls) s) c) /\ (c ∈ cf <-> refcnt k = 0)).
      { intros c k Hk. destruct (i_refs c k Hk) as [R F]. split; [|done].
        rewrite live_cons, (refs_drop _ _ _ _ _ Ea), decide_False in R; [done|]. intros E. by apply (H2 c); [eauto|]. }
      destruct (negb (f =? 0)); [apply wpm_modify|apply wpm_ret];
        (eapply (free_finish fl al cf cf); try done;
          [exists (clusters_free (st_pool s)), (clusters_free_count (st_pool s)), (clusters_cached (st_pool s)); by destruct s as [? ? ? ? []]
          |intros s' I' Q' E' _; split_and!; [done|by exists (a :: fl), al, cf|done|done]]).
    + destruct (H1 Hr) as [Hc <-]. pose proof Hc as [k Hk]. destruct (i_refs r k Hk) as [R F].
      rewrite live_cons, (refs_drop _ _ _ _ _ Ea), decide_True in R by done.
      destruct (drop_ref_clusters fl al cf a l ls s r cs I Ea Hc) as (cf' & D1 & D2 & D3 & D4 & D5 & D6 & D7).
      eapply wpm_mono; [apply (cluster_put_spec r k); [done|done|]|].
      * assert (refs s (live (l :: ls) s) r <= length (live (l :: ls) s))%nat by (apply length_filter).
        rewrite length_app, live_cons in i_total. simpl in i_total. lia.
      * intros [] s1 ->. eapply (free_finish fl al cf cf'); try done.
        -- unfold drop_ref. cbn [st_cluster s_cells]. rewrite Hk. by destruct (_ =? _).
        -- intros x Hx. specialize (Ho x Hx). unfold drop_ref. cbn [st_cluster s_cells]. rewrite Hk. by destruct (_ =? _).
        -- intros x Hx. specialize (Hd x Hx). unfold drop_ref. cbn [st_cluster s_cells]. rewrite Hk. by destruct (_ =? _).
        -- unfold drop_ref. cbn [st_cluster s_cells]. rewrite Hk. by destruct (_ =? _).
        -- intros s' I' Q' E' _. split_and!; [done|by exists (a :: fl), al, cf'|done|done].
  - assert (Ea : ext_at s a = None) by (by eapply ext_at_none). apply wpm_bind, wpm_ret.
    eapply (free_finish fl al cf cf); try done.
    + exists (clusters_free (st_pool s)), (clusters_free_count (st_pool s)), (clusters_cached (st_pool s)). by destruct s as [? ? ? ? []].
    + intros c k Hk. destruct (i_refs c k Hk) as [R F]. split; [|done].
      rewrite live_cons, refs_cons, refs_one, Ea in R. done.
    + intros s' I' Q' E' _. split_and!; [done|by exists (a :: fl), al, cf|done|done].
Qed.

(** ** A whole chain *)

Lemma inv_nil ls s : Inv ([] :: ls) s <-> Inv ls s.
Proof.
  split; intros (fl & al & cf & I); exists fl, al, cf; destruct I; constructor; try done.
  - by apply Forall_cons in i_chains as [_ ?].
  - by constructor.
Qed.

Lemma chain_short l ls s : Inv (l :: ls) s -> (length l <= size (st_mbuf s))%nat.
Proof.
  intros (fl & al & cf & I). rewrite (inv_size _ _ _ _ _ I). unfold live. simpl. rewrite !length_app. lia.
Qed.

Lemma chain_head l ls s : Inv (l :: ls) s -> (hd 0 l = 0 <-> l = []).
Proof.
  intros (fl & al & cf & I). split; [|by intros ->]. destruct l as [|a l]; [done|]. simpl.
  destruct (mbuf_inv _ _ _ _ _ _ _ I) as (h & _ & _ & H & _). lia.
Qed.

Lemma freem_walk fuel : forall l ls s,
  Inv (l :: ls) s -> (length l <= fuel)%nat ->
  wpm (freem fuel (hd 0 l)) (fun _ s' => Inv ls s' /\ quiet s s' (live ls s) /\ st_elsewhere s' = st_elsewhere s) s.
Proof.
  induction fuel as [|fuel IH]; intros l ls s I Hf.
  - destruct l; [|simpl in Hf; lia]. apply wpm_ret. apply (proj1 (inv_nil _ _)) in I. split_and!; [done|apply quiet_refl|done].
  - destruct l as [|a l]; [apply wpm_ret; apply (proj1 (inv_nil _ _)) in I; split_and!; [done|apply quiet_refl|done]|]. cbn [freem hd].
    pose proof (chain_head _ _ _ I) as H0. cbn [hd] in H0. rewrite (proj2 (Z.eqb_neq a 0)) by (intros H; by apply H0 in H).
    eapply wpm_then; [by apply (free_spec a l ls)|]. intros r s1 (-> & I1 & Q1 & E1).
    eapply wpm_mono; [apply (IH l ls s1 I1); simpl in Hf; lia|]. intros [] s2 (I2 & Q2 & E2). split_and!; [done| |congruence].
    assert (EL : live ls s1 = live ls s) by (unfold live; by rewrite E1). rewrite EL in Q2.
    eapply quiet_trans; [|exact Q2]. eapply quiet_sub; [exact Q1|]. intros b Hb. unfold live in *. simpl.
    rewrite <- app_assoc. apply elem_of_app. by right.
Qed.

(** Freeing a chain gives every mbuf of it back and leaves everything else alone. *)
Lemma freem_spec l ls s :
  Inv (l :: ls) s ->
  wpm (ami_mbuf_freem (hd 0 l)) (fun _ s' => Inv ls s' /\ quiet s s' (live ls s) /\ st_elsewhere s' = st_elsewhere s) s.
Proof.
  intros I. unfold ami_mbuf_freem. apply wpm_bind, wpm_asks. apply freem_walk; [done|]. by eapply chain_short.
Qed.
