(* ===== verification/MbufGet.v ===== *)
(** * Allocating

    Growing the pool, taking mbufs and clusters.  [alloc_law] is what the system's
    allocator promises, [others_law] what the other tasks keep while the lock is down:
    the pool's invariant, this task's chains, and the block this task has just been
    given. *)

From Stdlib Require Import ZArith Lia.
From stdpp Require Import base numbers list gmap.
From S2P Require Import Prelude.
From S2P Require Import MbufAlloc.
From S2P Require Import MbufInv.
From S2P Require Import MbufFree.

#[local] Set Warnings "-clear-no-such-hyp".

(** ** What the other parties promise *)

(** The addresses the pool's objects and the data of live mbufs lie at. *)
Definition reach (ls : list (list Z)) (s : mst) (x : Z) : Prop :=
  (exists a, is_Some (st_mbuf s !! a) /\ a <= x < a + MSIZE) \/
  (exists c, is_Some (st_cluster s !! c) /\ c <= x < c + CLUSTER_BYTES) \/
  (exists a h b k, a ∈ live ls s /\ st_mbuf s !! a = Some h /\ has (m_flags h) M_EXT = true /\
     long_at (st_cells s) (ext_buf a) b /\ long_at (st_cells s) (ext_size a) k /\ foreign s b k /\ b <= x < b + k).

(** A block nothing of the pool reaches into. *)
Record untaken (ls : list (list Z)) (s : mst) (p n : Z) : Prop := {
  u_range : 0 < p /\ 0 <= n /\ p + n <= 2 ^ 32;
  u_mapped : mapped (st_cells s) p n;
  u_none : forall x, p <= x < p + n -> ~ reach ls s x
}.

Definition alloc_law (AllocVec : mst -> Z -> Z) : Prop :=
  forall s n, 0 < n -> AllocVec s n = 0 \/
    (0 < AllocVec s n /\ AllocVec s n + n <= 2 ^ 32 /\
     forall x, AllocVec s n <= x < AllocVec s n + n -> st_cells s !! x = None).

Definition others_law (others : mst -> mst) : Prop :=
  forall ls s, Inv ls s ->
    Inv ls (others s) /\ quiet s (others s) (concat ls) /\
    (inited (st_pool s) = true -> inited (st_pool (others s)) = true) /\
    forall p n, untaken ls s p n -> st_heap s !! p = Some (n, true) ->
      untaken ls (others s) p n /\ st_heap (others s) !! p = Some (n, true) /\
      forall x, p <= x < p + n -> st_cells (others s) !! x = st_cells s !! x.

(** ** Blocks that come and go *)

Lemma reach_mapped fl al cf ls s x : inv_of fl al cf ls s -> reach ls s x -> is_Some (st_cells s !! x).
Proof.
  intros [] [(a & Ha & Hx)|[(c & Hc & Hx)|(a & h & b & k & _ & _ & _ & _ & _ & F & Hx)]].
  - destruct (g_mbuf s i_geom a Ha) as (_ & _ & _ & M). by apply M.
  - destruct (g_cluster s i_geom c Hc) as (_ & _ & M). by apply M.
  - destruct F as (_ & _ & M & _). by apply M.
Qed.

(** What [mok] needs of the memory is at addresses the pool reaches. *)
Lemma mok_reach ls s s' a h :
  a ∈ live ls s -> st_mbuf s !! a = Some h -> st_mbuf s' = st_mbuf s -> st_cluster s' = st_cluster s ->
  (forall x, reach ls s x -> st_cells s' !! x = st_cells s !! x) ->
  mok s a h -> mok s' a h /\ seen_same s s' a.
Proof.
  intros Hl Ha Em Ec Hr Hok.
  assert (Hin : forall x, a <= x < a + MSIZE -> st_cells s' !! x = st_cells s !! x).
  { intros x Hx. apply Hr. left. exists a. eauto. }
  assert (LA : forall o v, 20 <= o <= 36 -> long_at (st_cells s) (a + o) v -> long_at (st_cells s') (a + o) v).
  { intros o v Ho. apply long_at_ext. intros x Hx. apply Hin. places. }
  assert (ST : forall b k, long_at (st_cells s) (ext_buf a) b -> long_at (st_cells s) (ext_size a) k ->
    has (m_flags h) M_EXT = true -> storage s b k ->
    (forall x, b <= x < b + k -> st_cells s' !! x = st_cells s !! x) /\ storage s' b k).
  { intros b k L1 L3 He [(-> & c & -> & Hc)|F].
    - split; [|left; rewrite Ec; eauto]. intros x Hx. apply Hr. right. left. exists c. split; [done|places].
    - assert (HF : forall x, b <= x < b + k -> st_cells s' !! x = st_cells s !! x).
      { intros x Hx. apply Hr. right. right. exists a, h, b, k. done. }
      split; [done|]. right. destruct F as (F1 & F2 & F3 & F4 & F5). unfold foreign. rewrite Em, Ec. split_and!; try done.
      intros x Hx. rewrite HF by done. by apply F3. }
  destruct Hok. split; [constructor; try done|split_and!].
  - intros Hp. destruct (k_pkthdr Hp) as [[r Hr'] [l Hl']]. split; [exists r|exists l]; by apply LA.
  - intros He. destruct (k_ext He) as (b & f & n & L1 & L2 & L3 & St & R). exists b, f, n.
    split_and!; try (by apply LA); [by apply ST|apply R..].
  - by rewrite Em.
  - intros x Hx. apply Hin. places.
  - unfold window. rewrite Em, Ha. apply peek_ext. intros x Hx. destruct (has (m_flags h) M_EXT) eqn:He.
    + destruct (k_ext eq_refl) as (b & f & n & L1 & L2 & L3 & St & R). apply (proj1 (ST b n L1 L3 eq_refl St)). lia.
    + specialize (k_int eq_refl). apply Hin. places.
Qed.

(** The invariant reads the memory only where the pool reaches, and only some of the
    pool's fields. *)
Lemma inv_same fl al cf ls s s' :
  inv_of fl al cf ls s -> st_mbuf s' = st_mbuf s -> st_cluster s' = st_cluster s -> st_elsewhere s' = st_elsewhere s ->
  (forall x, reach ls s x -> st_cells s' !! x = st_cells s !! x) ->
  free_mbufs (st_pool s') = free_mbufs (st_pool s) -> mbufs_free (st_pool s') = mbufs_free (st_pool s) ->
  mbufs_total (st_pool s') = mbufs_total (st_pool s) -> limits (st_pool s') ->
  clusters_all (st_pool s') = clusters_all (st_pool s) -> clusters_total (st_pool s') = clusters_total (st_pool s) ->
  clusters_free (st_pool s') = clusters_free (st_pool s) ->
  clusters_free_count (st_pool s') = clusters_free_count (st_pool s) ->
  inv_of fl al cf ls s' /\ quiet s s' (live ls s).
Proof.
  intros I Em Ec Ee Hr P1 P2 P3 P4 P5 P6 P7 P8.
  assert (EL : live ls s' = live ls s) by (unfold live; by rewrite Ee).
  assert (EN : mnext s' = mnext s) by (unfold mnext; by rewrite Em).
  assert (EC : cnext s' = cnext s) by (unfold cnext; by rewrite Ec).
  assert (EF : fnext s' = fnext s) by (unfold fnext; by rewrite Ec).
  assert (M : forall x, reach ls s x -> is_Some (st_cells s' !! x)).
  { intros x Hx. rewrite Hr by done. by eapply reach_mapped. }
  assert (HM : forall a, a ∈ live ls s -> well s' a /\ seen_same s s' a).
  { intros a Ha. pose proof (i_live _ _ _ _ _ I) as HL. rewrite Forall_forall in HL. destruct (HL a Ha) as (h & Hh & Hok).
    destruct (mok_reach ls s s' a h) as [Hok' Hs]; try done. split; [|done]. exists h. by rewrite Em. }
  assert (Q : quiet s s' (live ls s)) by (intros a Ha; by apply HM).
  split; [|done]. destruct I. constructor; rewrite ?EL, ?EN, ?EC, ?EF, ?P1, ?P2, ?P3, ?P5, ?P6, ?P7, ?P8, ?Em, ?Ec; try done.
  - destruct i_geom. constructor; rewrite ?Em, ?Ec; try done.
    + intros a Ha. destruct (g_mbuf a Ha) as (? & ? & ? & _). split_and!; try done. intros x Hx. apply M. left. eauto.
    + intros c Hc. destruct (g_cluster c Hc) as (? & ? & _). split_and!; try done. intros x Hx. apply M. right. left. eauto.
  - apply Forall_forall. intros a Ha. by apply HM.
  - intros c k Hk. rewrite (refs_same s s') by (intros b Hb; destruct (Q b Hb) as (? & ? & _); by apply ext_at_same).
    by apply i_refs.
Qed.

(** ** Rearranging live mbufs *)

Lemma inv_edit fl al cf ls ls' s s' :
  inv_of fl al cf ls s -> same_places s s' -> st_cluster s' = st_cluster s -> st_pool s' = st_pool s ->
  concat ls' ++ st_elsewhere s' ≡ₚ live ls s ->
  (forall a, a ∈ fl -> mnext s' a = mnext s a) ->
  Forall (fun l => linked (mnext s') (hd 0 l) l) ls' -> Forall (well s') (live ls' s') ->
  (forall a, a ∈ live ls s -> ext_at s' a = ext_at s a) ->
  inv_of fl al cf ls' s'.
Proof.
  intros I SP Ec Ep PL Hf Hch Hw Hx. pose proof I as []. assert (PF : fl ++ live ls' s' ≡ₚ fl ++ live ls s) by (unfold live; by rewrite PL).
  constructor; rewrite ?Ep; try done.
  - by eapply geom_same.
  - by eapply linked_ext.
  - by rewrite i_total, PF.
  - intros a. rewrite (proj1 SP a), i_dom. by rewrite PF.
  - by rewrite PF.
  - eapply linked_ext; [|exact i_all]. intros c _. unfold cnext. by rewrite Ec.
  - intros c. rewrite Ec. apply i_all_dom.
  - eapply linked_ext; [|exact i_cfree]. intros c _. unfold fnext. by rewrite Ec.
  - rewrite Ec. intros c k Hk. destruct (i_refs c k Hk) as [R F]. split; [|done]. rewrite R. f_equal.
    rewrite <- (refs_same s s' (live ls s) c) by done. unfold refs. apply Permutation_length.
    symmetry. apply filter_Permutation. unfold live at 1. done.
Qed.

(** Two intervals no address is in both of. *)
Lemma apart_intervals a n p k : 0 < n -> 0 < k -> (forall x, p <= x < p + k -> ~ (a <= x < a + n)) -> a + n <= p \/ p + k <= a.
Proof. intros Hn Hk H. pose proof (H (Z.max a p)). lia. Qed.

Lemma untaken_apart ls s p n : untaken ls s p n -> 0 < n ->
  (forall a, is_Some (st_mbuf s !! a) -> a + MSIZE <= p \/ p + n <= a) /\
  (forall c, is_Some (st_cluster s !! c) -> c + CLUSTER_BYTES <= p \/ p + n <= c) /\
  (forall a h b k, a ∈ live ls s -> st_mbuf s !! a = Some h -> has (m_flags h) M_EXT = true ->
    long_at (st_cells s) (ext_buf a) b -> long_at (st_cells s) (ext_size a) k -> foreign s b k -> b + k <= p \/ p + n <= b).
Proof.
  intros [_ _ U] Hn. split_and!.
  - intros a Ha. apply apart_intervals; [places|done|]. intros x Hx Hx'. apply (U x Hx). left. eauto.
  - intros c Hc. apply apart_intervals; [places|done|]. intros x Hx Hx'. apply (U x Hx). right. left. eauto.
  - intros a h b k Ha Hh He L1 L3 F. apply apart_intervals; [apply F|done|]. intros x Hx Hx'. apply (U x Hx).
    right. right. exists a, h, b, k. done.
Qed.

(** ** A new mbuf on the free list *)

Lemma inv_new fl al cf ls s s' m :
  inv_of fl al cf ls s -> m mod MSIZE = 0 -> untaken ls s m MSIZE ->
  st_mbuf s' = <[m := Mbuf (free_mbufs (st_pool s)) 0 0 0 MT_FREE 0]> (st_mbuf s) ->
  st_cluster s' = st_cluster s -> st_cells s' = st_cells s -> st_elsewhere s' = st_elsewhere s ->
  free_mbufs (st_pool s') = m -> mbufs_free (st_pool s') = mbufs_free (st_pool s) + 1 ->
  mbufs_total (st_pool s') = mbufs_total (st_pool s) + 1 -> limits (st_pool s') ->
  clusters_all (st_pool s') = clusters_all (st_pool s) -> clusters_total (st_pool s') = clusters_total (st_pool s) ->
  clusters_free (st_pool s') = clusters_free (st_pool s) ->
  clusters_free_count (st_pool s') = clusters_free_count (st_pool s) ->
  inv_of (m :: fl) al cf ls s' /\ quiet s s' (live ls s).
Proof.
  intros I Ha U Em Ec Ex Ee P1 P2 P3 P4 P5 P6 P7 P8. pose proof I as [].
  destruct (untaken_apart _ _ _ _ U ltac:(places)) as (u_mbuf0 & u_cluster0 & u_foreign0). destruct U as [? ? ?].
  assert (EL : live ls s' = live ls s) by (unfold live; by rewrite Ee).
  assert (Nm : st_mbuf s !! m = None).
  { apply eq_None_not_Some. intros Hm. specialize (u_mbuf0 m Hm). places. }
  assert (Nl : m ∉ fl ++ live ls s) by (intros H; apply i_dom in H; rewrite Nm in H; by destruct H).
  assert (Emb : forall b, b <> m -> st_mbuf s' !! b = st_mbuf s !! b) by (intros b Hb; rewrite Em; by apply lookup_insert_ne).
  assert (HS : forall b, is_Some (st_mbuf s' !! b) <-> b = m \/ is_Some (st_mbuf s !! b)).
  { intros b. destruct (decide (b = m)) as [->|Hne]; [rewrite Em, lookup_insert_eq|rewrite Emb by done]; naive_solver. }
  assert (EN : forall b, b ∈ fl ++ live ls s -> mnext s' b = mnext s b).
  { intros b Hb. unfold mnext. rewrite Emb; [done|]. by intros ->. }
  assert (Q : quiet s s' (live ls s)).
  { intros b Hb. assert (b <> m) by (intros ->; apply Nl; set_solver).
    split_and!; [by apply Emb|intros x _; by rewrite Ex|]. unfold window. by rewrite Emb, Ex. }
  split; [|done]. constructor; rewrite ?EL; try done.
  - destruct i_geom. constructor; rewrite ?Ec, ?Ex; try done.
    + intros b [->|Hb]%HS; [|by apply g_mbuf]. split_and!; [done|lia|lia|done].
    + intros b c [->|Hb]%HS Hc; [|by apply g_mbuf_cluster]. specialize (u_cluster0 c Hc). lia.
  - rewrite P1. split; [done|]. split; [lia|]. exists (free_mbufs (st_pool s)). split.
    + unfold mnext. by rewrite Em, lookup_insert_eq.
    + eapply linked_ext; [|exact i_free]. intros b Hb. apply EN. set_solver.
  - rewrite P2, i_free_count. simpl. lia.
  - rewrite P3, i_total. simpl. lia.
  - intros b. rewrite HS, i_dom. simpl. by rewrite elem_of_cons.
  - simpl. by apply NoDup_cons.
  - rewrite Forall_forall in i_chains |- *. intros l Hl. eapply linked_ext; [|by apply i_chains].
    intros b Hb. apply EN. apply elem_of_app. right. by eapply elem_of_live.
  - rewrite Forall_forall in i_live |- *. intros b Hb. destruct (i_live b Hb) as (h & Hh & Hok).
    destruct (Q b Hb) as (E1 & _ & _). exists h. split; [by rewrite E1|].
    destruct Hok. constructor; rewrite ?Ex; try done. intros He.
    destruct (k_ext He) as (e & f & n & L1 & L2 & L3 & St & R). exists e, f, n. split_and!; try done; [|apply R..].
    destruct St as [(-> & c & -> & Hc)|(F1 & F2 & F3 & F4 & F5)]; [left; rewrite ?Ec; eauto|right].
    split_and!; rewrite ?Ec, ?Ex; try done. intros d [->|Hd]%HS; [|by apply F4].
    specialize (u_foreign0 b h e n Hb Hh He L1 L3 ltac:(by split_and!)). lia.
  - rewrite P5. eapply linked_ext; [|exact i_all]. intros c _. unfold cnext. by rewrite Ec.
  - intros c. rewrite Ec. apply i_all_dom.
  - by rewrite P6.
  - rewrite P7. eapply linked_ext; [|exact i_cfree]. intros c _. unfold fnext. by rewrite Ec.
  - by rewrite P8.
  - rewrite Ec. intros c k Hk. rewrite (refs_same s s') by (intros b Hb; destruct (Q b Hb) as (? & ? & _); by apply ext_at_same).
    by apply i_refs.
Qed.

Lemma reach_new ls s s' m h x :
  st_mbuf s' = <[m := h]> (st_mbuf s) -> m ∉ live ls s -> st_mbuf s !! m = None ->
  st_cluster s' = st_cluster s -> st_cells s' = st_cells s -> st_elsewhere s' = st_elsewhere s ->
  reach ls s' x -> reach ls s x \/ m <= x < m + MSIZE.
Proof.
  intros Em Nl Nm Ec Ex Ee. unfold reach, foreign. rewrite Ec, Ex.
  replace (live ls s') with (live ls s) by (unfold live; by rewrite Ee).
  intros [(a & Ha & Hx)|[H|(a & k & b & n & Hl & Ha & He & L1 & L3 & (F1 & F2 & F3 & F4 & F5) & Hx)]].
  - destruct (decide (a = m)) as [->|Hne]; [by right|]. rewrite Em, lookup_insert_ne in Ha by done. left. left. eauto.
  - left. right. by left.
  - rewrite Em, lookup_insert_ne in Ha by (intros ->; done). left. right. right. exists a, k, b, n. split_and!; try done; try apply Hx.
    intros d Hd. apply F4. rewrite Em. destruct (decide (d = m)) as [->|]; [rewrite Nm in Hd; by destruct Hd|].
    by rewrite lookup_insert_ne.
Qed.

(** [carve] links the mbufs before the pool counts them: the state as it will be
    counted. *)
Definition bump (k : Z) (s : mst) : mst :=
  s_pool (p_slabs (slabs (st_pool s)) (mbufs_total (st_pool s) + k)
    (p_free (free_mbufs (st_pool s)) (mbufs_free (st_pool s) + k) (st_pool s))) s.

Lemma carve_spec al cf ls n : forall k m fl s,
  inv_of fl al cf ls (bump k s) -> m mod MSIZE = 0 -> untaken ls (bump k s) m (Z.of_nat n * MSIZE) ->
  limits (st_pool (bump (k + Z.of_nat n) s)) ->
  wpm (carve n m) (fun _ s' => exists fl', inv_of fl' al cf ls (bump (k + Z.of_nat n) s') /\
    quiet s s' (live ls s) /\ st_elsewhere s' = st_elsewhere s /\ (fl = [] -> n <> 0%nat -> fl' <> []) /\
    st_pool s' = p_free (free_mbufs (st_pool s')) (mbufs_free (st_pool s)) (st_pool s)) s.
Proof.
  induction n as [|n IH]; intros k m fl s I Hm U Hlim.
  { apply wpm_ret. exists fl. rewrite Z.add_0_r. split_and!; try done. by destruct s as [? ? ? ? []]. }
  cbn [carve]. apply wpm_bind, wpm_pool_get, wpm_bind, wpm_modify, wpm_bind, wpm_pool_set. 
  match goal with |- wpm _ _ ?t => set (s1 := t) end.
  assert (U1 : untaken ls (bump k s) m MSIZE).
  { destruct U as [R M N]. unfold MSIZE in *. constructor; [lia| |]; [intros x Hx; apply M; lia|intros x Hx; apply N; lia]. }
  destruct (inv_new fl al cf ls (bump k s) (bump (k + 1) s1) m I Hm U1) as [I1 Q1]; try reflexivity; try (simpl; lia).
  { destruct Hlim as (L1 & L2 & L3 & L4). split_and!; [apply L1..|apply L2|apply L2| |apply L4]. cbn -[Z.add Z.of_nat] in *. 
    destruct (inited (st_pool s)); lia. }
  replace (k + Z.of_nat (S n)) with (k + 1 + Z.of_nat n) in * by lia.
  eapply wpm_mono; [apply (IH (k + 1) (m + MSIZE) (m :: fl) s1 I1)|].
  - unfold MSIZE in *. rewrite <- Zplus_mod_idemp_r, Z.mod_same, Z.add_0_r by lia. done.
  - destruct (untaken_apart _ _ _ _ U1 ltac:(places)) as (A1 & _).
    assert (Nm : st_mbuf s !! m = None).
    { apply eq_None_not_Some. intros Hs. specialize (A1 m Hs). places. }
    destruct U as [R M N]. unfold MSIZE in *. constructor; [lia|intros x Hx; apply M; lia|].
    intros x Hx Hr. eapply (reach_new ls (bump k s) _ m) in Hr; try reflexivity; [|intros Hin|done].
    + destruct Hr as [Hr|Hr]; [|places]. apply (N x); [lia|done].
    + pose proof (proj2 (i_dom _ _ _ _ _ I m)) as Hd. rewrite elem_of_app in Hd. cbn [bump st_mbuf s_pool] in Hd.
      rewrite Nm in Hd. destruct (Hd (or_intror Hin)). done.
  - exact Hlim.
  - intros [] s2 (fl' & I2 & Q2 & E2 & N2 & P2). exists fl'. split_and!; [done| |done| |done].
    + eapply quiet_trans; [exact Q1|exact Q2].
    + intros _ _ ->. destruct I1 as [_ _ C1 _ _ _ _ _ _ _ _ _ _ _ _ _ _ _], I2 as [_ F2 C2 _ _ _ _ _ _ _ _ _ _ _ _ _ _ _].
      cbn -[Z.add Z.of_nat] in C1, C2. rewrite P2 in C2. simpl in C1, C2. lia.
Qed.

(** An mbuf off the free list becomes a chain of its own. *)
Lemma inv_take fl al cf ls s s' m h :
  inv_of (m :: fl) al cf ls s -> m_next h = 0 ->
  st_mbuf s' = <[m := h]> (st_mbuf s) -> outside s s' m ->
  (forall x, is_Some (st_cells s !! x) -> is_Some (st_cells s' !! x)) ->
  st_cluster s' = st_cluster s -> st_elsewhere s' = st_elsewhere s ->
  st_pool s' = p_free (hd 0 fl) (mbufs_free (st_pool s) -w 1) (st_pool s) ->
  mok s' m h -> ext_at s' m = None ->
  inv_of fl al cf ([m] :: ls) s' /\ quiet s s' (live ls s).
Proof.
  intros I H0 Em Eo Hd Ec Ee Ep Hok Hx. pose proof (i_total_max _ _ _ _ _ I) as Hmax. pose proof I as [].
  assert (EL : live ([m] :: ls) s' = m :: live ls s) by (unfold live; by rewrite Ee).
  assert (Hm : is_Some (st_mbuf s !! m)) by (apply i_dom; set_solver).
  assert (Perm : fl ++ m :: live ls s ≡ₚ (m :: fl) ++ live ls s) by (by rewrite <- Permutation_middle).
  assert (Na : (m ∉ live ls s) /\ (m ∉ fl)) by (apply NoDup_cons in i_nodup as [H _]; set_solver).
  assert (Emb : forall b, b <> m -> st_mbuf s' !! b = st_mbuf s !! b) by (intros b Hb; rewrite Em; by apply lookup_insert_ne).
  assert (SP : same_places s s').
  { split_and!; [|by rewrite Ec|done]. intros b. destruct (decide (b = m)) as [->|]; [|by rewrite Emb].
    rewrite Em, lookup_insert_eq. by split. }
  rewrite Forall_forall in i_live.
  assert (Q : quiet s s' (live ls s)).
  { intros b Hb. apply (window_other s s' m b); [done|done|set_solver|by apply i_live|apply Emb; set_solver|done]. }
  assert (EN : forall b, b <> m -> mnext s' b = mnext s b) by (intros b Hb; unfold mnext; by rewrite Emb).
  destruct i_free as (Ef & _ & q & Eq & Hl).
  split; [|done]. constructor; rewrite ?EL, ?Ep; try done.
  - by eapply geom_same.
  - cbn [p_free free_mbufs]. rewrite <- (linked_head _ _ _ Hl). eapply linked_ext; [|exact Hl].
    intros b Hb. apply EN. set_solver.
  - cbn [p_free mbufs_free]. rewrite i_free_count. rewrite u32_small; [simpl; lia|].
    rewrite i_total, length_app in Hmax. simpl in *. unfold is_u32. lia.
  - cbn [p_free mbufs_total]. by rewrite i_total, Perm.
  - intros b. rewrite (proj1 SP b), i_dom. by rewrite Perm.
  - by rewrite Perm.
  - constructor.
    + split; [done|]. split; [by destruct (g_mbuf s i_geom m Hm) as (_ & ? & _); lia|].
      exists 0. split; [|done]. unfold mnext. rewrite Em, lookup_insert_eq. simpl. by rewrite H0.
    + rewrite Forall_forall in i_chains |- *. intros k Hk. eapply linked_ext; [|by apply i_chains].
      intros b Hb. apply EN. intros ->. apply (proj1 Na). by eapply elem_of_live.
  - constructor; [exists h; split; [by rewrite Em, lookup_insert_eq|done]|].
    apply Forall_forall. intros b Hb. destruct (Q b Hb) as (E1 & E2 & _). apply (well_same s s'); auto.
  - eapply linked_ext; [|exact i_all]. intros c _. unfold cnext. by rewrite Ec.
  - intros c. rewrite Ec. apply i_all_dom.
  - eapply linked_ext; [|exact i_cfree]. intros c _. unfold fnext. by rewrite Ec.
  - intros c k. rewrite Ec. intros Hk. rewrite refs_cons, refs_one, Hx, decide_False by done. simpl.
    rewrite (refs_same s s') by (intros b Hb; destruct (Q b Hb) as (? & ? & _); by apply ext_at_same). by apply i_refs.
Qed.

Lemma quiet_concat s s' ls : quiet s s' (live ls s) -> quiet s s' (concat ls).
Proof. intros Q. eapply quiet_sub; [exact Q|]. intros a Ha. unfold live. apply elem_of_app. by left. Qed.

(** A new block changes nothing the pool reaches. *)
Lemma alloc_spec AllocVec ls s n :
  alloc_law AllocVec -> Inv ls s -> 0 < n ->
  wpm (ami_alloc AllocVec n) (fun a s' => Inv ls s' /\ quiet s s' (live ls s) /\ st_pool s' = st_pool s /\
    (a = 0 \/ (untaken ls s' a n /\ st_heap s' !! a = Some (n, true)))) s.
Proof.
  intros HA (fl & al & cf & I) Hn. unfold ami_alloc, wpm. destruct (HA s n Hn) as [E|(H0 & H1 & H2)].
  { rewrite E. exists 0, s. split_and!; [done|by exists fl, al, cf|apply quiet_refl|done|by left]. }
  cbv zeta. set (a := AllocVec s n) in *. rewrite (proj2 (Z.eqb_neq a 0)) by lia.
  set (s' := s_heap _ _). exists a, s'.
  assert (Hlen : Z.of_nat (length (replicate (Z.to_nat n) (Byte 0))) = n) by (rewrite length_replicate; lia).
  assert (Hr : forall x, reach ls s x -> st_cells s' !! x = st_cells s !! x).
  { intros x Hx. eapply reach_mapped in Hx; [|exact I]. simpl. apply poke_out. rewrite Hlen.
    destruct (decide (a <= x < a + n)) as [Hin|]; [|lia]. rewrite (H2 x Hin) in Hx. by destruct Hx. }
  destruct (inv_same fl al cf ls s s' I) as [I' Q']; try done. { apply (i_limits _ _ _ _ _ I). }
  split_and!; [done|by exists fl, al, cf|done|done|]. right. split; [|simpl; by rewrite lookup_insert_eq].
  constructor; [lia| |].
  - intros x Hx. simpl. rewrite poke_lookup, decide_True by lia. apply lookup_lt_is_Some_2. lia.
  - intros x Hx Hrx. assert (reach ls s x) as Hrs.
    { destruct Hrx as [H|[H|(b & h & e & k & Hl & Hh & He & L1 & L3 & F & Hin)]]; [by left|by right; left|].
      pose proof (i_live _ _ _ _ _ I) as HL. rewrite Forall_forall in HL. destruct (HL b Hl) as (h' & Hh' & Hok).
      change (st_mbuf s') with (st_mbuf s) in Hh. rewrite Hh in Hh'. injection Hh' as <-.
      destruct (k_ext _ _ _ Hok He) as (e' & f' & k' & L1' & _ & L3' & St & _).
      assert (HB : forall o v v', 20 <= o <= 36 -> long_at (st_cells s') (b + o) v -> long_at (st_cells s) (b + o) v' -> v = v').
      { intros o v v' Ho [_ P] [_ P']. rewrite (peek_ext (st_cells s)) in P; [rewrite P' in P; by injection P|].
        intros y Hy. apply Hr. left. exists b. split; [by exists h|places]. }
      assert (e = e') as -> by (by apply (HB 28)). assert (k = k') as -> by (by apply (HB 36)).
      destruct St as [(-> & c & -> & Hc)|F']; [|right; right; exists b, h, e', k'; done].
      right. left. exists c. split; [done|places]. }
    eapply reach_mapped in Hrs; [|exact I]. rewrite (H2 x Hx) in Hrs. by destruct Hrs.
Qed.

Lemma unlocked_alloc_spec AllocVec others ls s n :
  alloc_law AllocVec -> others_law others -> Inv ls s -> 0 < n -> inited (st_pool s) = true ->
  wpm (unlocked_alloc AllocVec others n) (fun a s' => Inv ls s' /\ quiet s s' (concat ls) /\
    inited (st_pool s') = true /\ (a = 0 \/ (untaken ls s' a n /\ st_heap s' !! a = Some (n, true)))) s.
Proof.
  intros HA HO I Hn Hi. unfold unlocked_alloc. eapply wpm_then; [by apply alloc_spec|].
  intros a s1 (I1 & Q1 & P1 & H1). apply wpm_bind, wpm_modify, wpm_ret.
  destruct (HO ls s1 I1) as (I2 & Q2 & E2 & U2). split_and!; [done| |apply E2; by rewrite P1|].
  - eapply quiet_trans; [apply quiet_concat, Q1|done].
  - destruct H1 as [?|[U H]]; [by left|right]. destruct (U2 a n U H) as (? & ? & _). done.
Qed.

(** The block goes back when nothing of the pool is in it. *)
Lemma free_block_spec ls s p n :
  Inv ls s -> untaken ls s p n -> 0 < n -> st_heap s !! p = Some (n, true) ->
  wpm (ami_free p) (fun _ s' => Inv ls s' /\ quiet s s' (live ls s) /\ st_pool s' = st_pool s) s.
Proof.
  intros (fl & al & cf & I) U Hn Hh. destruct (untaken_apart _ _ _ _ U Hn) as (A1 & A2 & _). destruct U as [R M N].
  unfold ami_free, wpm. rewrite (proj2 (Z.eqb_neq p 0)) by lia. rewrite Hh. eexists _, _. split; [reflexivity|].
  match goal with |- Inv _ ?t /\ _ => set (s' := t) end.
  assert (FI : forall V (m : gmap Z V), (forall a, is_Some (m !! a) -> ~ within_block p n a) ->
            filter (fun x => ~ within_block p n x.1) m = m).
  { intros V m H. apply map_filter_id. intros a v Ha. apply H. eauto. }
  destruct (inv_same fl al cf ls s s' I) as [I' Q']; try done.
  - apply FI. intros a Ha Hb. specialize (A1 a Ha). unfold within_block in Hb. places.
  - apply FI. intros a Ha Hb. specialize (A2 a Ha). unfold within_block in Hb. places.
  - intros x Hx. simpl. destruct (st_cells s !! x) as [v|] eqn:Hv.
    + apply map_lookup_filter_Some. split; [done|]. intros Hb. by apply (N x).
    + apply map_lookup_filter_None. by left.
  - apply (i_limits _ _ _ _ _ I).
  - split_and!; [by exists fl, al, cf|done|done].
Qed.

(** Memory holds fewer than 2^25 mbufs, so counting them never wraps. *)
Lemma aligned_few (l : list Z) :
  NoDup l -> (forall a, a ∈ l -> a mod MSIZE = 0 /\ 0 < a /\ a + MSIZE <= 2 ^ 32) -> Z.of_nat (length l) <= 2 ^ 25.
Proof.
  intros ND H. assert (HL : (length ((fun a : Z => (a / MSIZE)%Z) <$> l) <= length (seqZ 0 (2 ^ 25)))%nat).
  { apply submseteq_length, NoDup_submseteq.
    - apply NoDup_fmap_2_strong; [|done]. intros a b Ha Hb E. destruct (H a Ha) as [Ea _], (H b Hb) as [Eb _].
      unfold MSIZE in *. pose proof (Z.div_mod a 128 ltac:(lia)). pose proof (Z.div_mod b 128 ltac:(lia)). lia.
    - intros q Hq. apply list_elem_of_fmap in Hq as (a & -> & Ha). apply elem_of_seqZ.
      destruct (H a Ha) as (_ & H1 & H2). unfold MSIZE in *. split; [apply Z.div_pos; lia|].
      apply Z.div_lt_upper_bound; lia. }
  rewrite length_fmap, length_seqZ in HL. lia.
Qed.

Lemma total_few fl al cf ls s : inv_of fl al cf ls s -> 0 <= mbufs_total (st_pool s) <= 2 ^ 25.
Proof.
  intros []. rewrite i_total. split; [lia|]. apply aligned_few; [done|]. intros a Ha. apply i_dom in Ha.
  destruct (g_mbuf s i_geom a Ha) as (? & ? & ? & _). done.
Qed.

(** ** Taking an mbuf *)

Section Take.
Context (AllocVec : mst -> Z -> Z) (others : mst -> mst).
Hypothesis HA : alloc_law AllocVec.
Hypothesis HO : others_law others.

(** What survives a call that may let other tasks run. *)
Definition kept (ls : list (list Z)) (s s' : mst) : Prop :=
  Inv ls s' /\ quiet s s' (concat ls) /\ inited (st_pool s') = true.

Lemma kept_trans ls s1 s2 s3 : kept ls s1 s2 -> kept ls s2 s3 -> kept ls s1 s3.
Proof. intros (_ & Q1 & _) (I & Q2 & E). split_and!; [done|by eapply quiet_trans|done]. Qed.

(** A block with room for [want] mbufs, wherever it starts. *)
Lemma slab_room raw want :
  0 <= raw ->
  let base := raw + SLAB_SIZE in
  let misalign := Z.land base (MSIZE - 1) in
  let base := if negb (misalign =? 0) then base + (MSIZE - misalign) else base in
  base mod MSIZE = 0 /\ raw + SLAB_SIZE <= base <= raw + SLAB_SIZE + (MSIZE - 1) /\
  base + want * MSIZE <= raw + (SLAB_SIZE + (MSIZE - 1) + want * MSIZE).
Proof.
  intros H0. cbv zeta. unfold SLAB_SIZE, MSIZE. change (128 - 1) with (Z.ones 7). rewrite Z.land_ones by lia.
  change (2 ^ 7) with 128. pose proof (Z.mod_pos_bound (raw + 8) 128 ltac:(lia)) as B.
  pose proof (Z.div_mod (raw + 8) 128 ltac:(lia)) as D. change (Z.ones 7) with 127.
  destruct (Z.eqb_spec ((raw + 8) mod 128) 0) as [E|E]; cbn [negb]; [lia|].
  split; [|lia]. replace (raw + 8 + (128 - (raw + 8) mod 128)) with (((raw + 8) / 128 + 1) * 128) by lia.
  apply Z.mod_mul. lia.
Qed.

Lemma grow_with_spec ls s raw want n :
  Inv ls s -> inited (st_pool s) = true -> untaken ls s raw n -> 0 < want <= 32 ->
  SLAB_SIZE + (MSIZE - 1) + want * MSIZE <= n -> mbufs_total (st_pool s) + want <= max_mbufs (st_pool s) ->
  wpm (grow_with raw want) (fun _ s' => kept ls s s') s.
Proof.
  intros (fl & al & cf & I) Hi U Hw Hn Hmax. pose proof (u_range _ _ _ _ U) as R. unfold grow_with.
  destruct (slab_room raw want ltac:(lia)) as (B1 & B2 & B3). cbv zeta in *. set (base := if negb _ then _ else _) in *.
  apply wpm_bind, wpm_pool_get, wpm_bind, wpm_modify, wpm_bind, wpm_pool_set, wpm_bind.
  match goal with |- wpm _ _ ?t => set (s1 := t) end.
  assert (Hu : Z.of_nat (Z.to_nat (u16 want)) = want) by (rewrite u16_small by word_lia; lia).
  pose proof (i_limits _ _ _ _ _ I) as (L1 & L2 & L3 & L4). rewrite Hi in L3, L4.
  destruct (inv_same fl al cf ls s (bump 0 s1) I) as [I1 Q1]; try done; [simpl; lia..| |].
  { split_and!; simpl; rewrite ?Hi; try apply L1; try apply L2; lia. }
  eapply wpm_mono; [apply (carve_spec al cf ls _ 0 base fl s1 I1 B1)|].
  - rewrite Hu. destruct U as [R' M N]. unfold SLAB_SIZE, MSIZE in *. constructor; [lia|intros x Hx; apply M; lia|].
    intros x Hx. apply N. lia.
  - rewrite Hu. split_and!; simpl; rewrite ?Hi; try apply L1; try apply L2; lia.
  - rewrite Hu. intros [] s2 (fl' & I2 & Q2 & E2 & _ & P2). apply wpm_pool_set.
    rewrite P2. cbn [p_free mbufs_free mbufs_total slabs free_mbufs].
    pose proof (i_free_count _ _ _ _ _ I) as C1. pose proof (i_total _ _ _ _ _ I) as C2. rewrite length_app in C2.
    assert (Hf : mbufs_free (st_pool s) +w want = mbufs_free (st_pool s) + want) by (apply u32_small; word_lia).
    assert (Ht : mbufs_total (st_pool s) +w want = mbufs_total (st_pool s) + want) by (apply u32_small; word_lia).
    change (mbufs_free (st_pool s1)) with (mbufs_free (st_pool s)). change (mbufs_total (st_pool s1)) with (mbufs_total (st_pool s)).
    rewrite Hf, Ht. unfold bump in I2. rewrite P2 in I2. change (0 + want) with want in I2. split_and!.
    + by exists fl', al, cf.
    + apply quiet_concat. exact (quiet_trans _ _ _ _ Q1 Q2).
    + done.
Qed.

Lemma grow_spec ls s :
  Inv ls s -> inited (st_pool s) = true -> wpm (ami_mbuf_grow AllocVec others) (fun _ s' => kept ls s s') s.
Proof.
  intros I Hi. assert (K0 : kept ls s s) by (split_and!; [done|apply quiet_refl|done]).
  unfold ami_mbuf_grow. apply wpm_bind, wpm_pool_get. cbv zeta.
  destruct (Z.eqb_spec (id (max_mbufs (id (st_pool s)) -w mbufs_total (id (st_pool s)))) 0) as [E|E].
  { unfold id in E |- *. rewrite E. by apply wpm_ret. }
  unfold id in *. rewrite (proj2 (Z.eqb_neq _ 0)) by done.
  set (w0 := u32 _) in *. set (want := if _ <? w0 then _ else _).
  assert (Hw : 0 < want <= 32).
  { pose proof (u32_range (max_mbufs (st_pool s) - mbufs_total (st_pool s))). fold w0 in H. subst want. unfold AMI_MBUF_SLAB_COUNT.
    destruct (Z.ltb_spec 32 w0); word_lia. }
  clearbody want. clear w0 E.
  assert (Hb : (SLAB_SIZE +w (MSIZE - 1)) +w (want *w MSIZE) = SLAB_SIZE + (MSIZE - 1) + want * MSIZE).
  { unfold SLAB_SIZE, MSIZE. rewrite !u32_small; unfold is_u32; rewrite ?u32_small; unfold is_u32; lia. }
  rewrite Hb. eapply wpm_then; [apply (unlocked_alloc_spec AllocVec others ls); try done; unfold SLAB_SIZE, MSIZE; lia|].
  intros raw s1 (I1 & Q1 & E1 & H1). assert (K1 : kept ls s s1) by done.
  destruct (Z.eqb_spec raw 0) as [->|Hr]; [by apply wpm_ret|]. destruct H1 as [?|[U1 Hh]]; [done|].
  apply wpm_bind, wpm_pool_get. unfold id. 
  pose proof I1 as (fl & al & cf & I1'). pose proof (total_few _ _ _ _ _ I1') as Ht.
  pose proof (i_limits _ _ _ _ _ I1') as (L1 & _ & L3 & _). rewrite E1 in L3.
  rewrite (u32_small (mbufs_total (st_pool s1) + want)) by word_lia.
  set (w1 := if _ <? _ then _ else want).
  assert (Hw1 : 0 <= w1 <= want /\ mbufs_total (st_pool s1) + w1 <= max_mbufs (st_pool s1)).
  { subst w1. destruct (Z.ltb_spec (max_mbufs (st_pool s1)) (mbufs_total (st_pool s1) + want)); [|lia].
    rewrite u32_small by word_lia. lia. }
  destruct (Z.eqb_spec w1 0) as [E|E].
  - apply wpm_bind, wpm_modify. destruct (HO ls s1 I1) as (I2 & Q2 & E2 & U2). destruct (U2 _ _ U1 Hh) as (U3 & H3 & _).
    eapply wpm_then; [eapply (free_block_spec ls _ raw); [done|exact U3|unfold SLAB_SIZE, MSIZE; lia|done]|].
    intros [] s3 (I3 & Q3 & P3). apply wpm_ret. split_and!; [done| |rewrite P3; by apply E2].
    eapply quiet_trans; [exact Q1|]. eapply quiet_trans; [exact Q2|]. by apply quiet_concat.
  - eapply wpm_then; [eapply (grow_with_spec ls s1 raw w1); try done; unfold SLAB_SIZE, MSIZE; lia|].
    intros [] s2 K2. apply wpm_ret. by eapply kept_trans.
Qed.

Lemma ensure_init_spec ls s : Inv ls s -> wpm ami_mbuf_ensure_init (fun _ s' => kept ls s s' /\ free_mbufs (st_pool s') = free_mbufs (st_pool s)) s.
Proof.
  intros (fl & al & cf & I). unfold ami_mbuf_ensure_init. apply wpm_bind, wpm_pool_get.
  destruct (inited (st_pool s)) eqn:Ei.
  { apply wpm_ret. split_and!; [|done]. split_and!; [by exists fl, al, cf|apply quiet_refl|done]. }
  apply wpm_bind. unfold ami_mbuf_init. cbv zeta. change (0 =? 0) with true. cbv iota.
  apply wpm_bind, wpm_pool_get. unfold id. rewrite Ei. apply wpm_bind, wpm_pool_set, wpm_ret, wpm_ret.
  match goal with |- kept _ _ ?t /\ _ => set (s' := t) end.
  pose proof (i_limits _ _ _ _ _ I) as (_ & _ & L3 & L4). rewrite Ei in L3, L4.
  destruct (inv_same fl al cf ls s s' I) as [I' Q']; try done.
  { unfold s', limits, AMI_MBUF_DEFAULT_MBUFS, AMI_MBUF_DEFAULT_CLUSTERS. simpl. lia. }
  split; [|done]. split_and!; [by exists fl, al, cf|by apply quiet_concat|done].
Qed.

Lemma drop_spec ls s : Inv ls s -> inited (st_pool s) = true -> kept ls s (s_pool (p_drop (st_pool s)) s).
Proof.
  intros (fl & al & cf & I) Hi. destruct (inv_same fl al cf ls s (s_pool (p_drop (st_pool s)) s) I) as [I' Q']; try done.
  { exact (i_limits _ _ _ _ _ I). }
  split_and!; [by exists fl, al, cf|by apply quiet_concat|done].
Qed.

(** The state between [raw_get] and the caller's stores: [m] is off the free list of
    a state that satisfied the invariant. *)
Definition popped (ls : list (list Z)) (m : Z) (s s' : mst) : Prop :=
  exists s0 fl al cf, inv_of (m :: fl) al cf ls s0 /\ kept ls s s0 /\
    s' = s_pool (p_free (hd 0 fl) (mbufs_free (st_pool s0) -w 1) (st_pool s0)) s0.

Lemma raw_get_spec ls s :
  Inv ls s -> wpm (ami_mbuf_raw_get AllocVec others) (fun m s' =>
    (m = 0 /\ kept ls s s' /\ free_mbufs (st_pool s) = 0) \/ (m <> 0 /\ popped ls m s s')) s.
Proof.
  intros I. unfold ami_mbuf_raw_get. eapply wpm_then; [by apply ensure_init_spec|]. intros [] s1 [K1 F1].
  apply wpm_bind, wpm_pool_get. eapply (wpm_then _ _ (fun ok s2 => kept ls s s2 /\ (free_mbufs (st_pool s) <> 0 -> ok = true /\ s2 = s1))).
  { destruct (Z.eqb_spec (free_mbufs (st_pool s1)) 0) as [E|E].
    - eapply wpm_mono; [apply (grow_spec ls s1); apply K1|]. intros ok s2 K2. split; [by eapply kept_trans|]. congruence.
    - by apply wpm_ret. }
  intros ok s2 [K2 F2]. destruct ok; cbn [negb].
  - apply wpm_bind, wpm_pool_get. destruct (Z.eqb_spec (free_mbufs (st_pool s2)) 0) as [E|E].
    + apply wpm_bind, wpm_pool_set, wpm_ret. left. split_and!; [done| |].
      * eapply kept_trans; [exact K2|]. apply drop_spec; apply K2.
      * destruct (decide (free_mbufs (st_pool s) = 0)) as [|Hne]; [done|]. destruct (F2 Hne) as [_ ->]. congruence.
    + destruct K2 as ((fl & al & cf & I2) & Q2 & E2). pose proof (i_free _ _ _ _ _ I2) as Hl.
      destruct fl as [|m fl]; [simpl in Hl; done|]. destruct Hl as (-> & Hm & q & Eq & Hl). unfold mnext in Eq.
      destruct (st_mbuf s2 !! m) as [h|] eqn:Hh; [|done]. simpl in Eq. injection Eq as <-.
      apply wpm_bind, (wpm_mb _ h); [done|]. apply wpm_bind, wpm_pool_set, wpm_ret. right. split; [done|].
      exists s2, fl, al, cf. split_and!; [done| |by rewrite (linked_head _ _ _ Hl)]. split_and!; [by exists (m :: fl), al, cf|done|done].
  - apply wpm_bind, wpm_pool_set, wpm_ret. left. split_and!; [done| |].
    + eapply kept_trans; [exact K2|]. apply drop_spec; apply K2.
    + destruct (decide (free_mbufs (st_pool s) = 0)) as [|Hne]; [done|]. by destruct (F2 Hne).
Qed.

(** What the callers of [m_get] and [m_gethdr] get: NULL, or a chain of one mbuf [h]. *)
Definition got (ls : list (list Z)) (h : Z -> mbuf) (s : mst) (m : Z) (s' : mst) : Prop :=
  (m = 0 /\ kept ls s s' /\ free_mbufs (st_pool s) = 0) \/
  (0 < m /\ kept ([m] :: ls) s' s' /\ quiet s s' (concat ls) /\ st_mbuf s' !! m = Some (h m)).

Lemma take_finish ls m s s0 fl al cf s' h :
  inv_of (m :: fl) al cf ls s0 -> kept ls s s0 ->
  st_mbuf s' = <[m := h]> (st_mbuf s0) -> outside s0 s' m ->
  (forall x, is_Some (st_cells s0 !! x) -> is_Some (st_cells s' !! x)) ->
  st_cluster s' = st_cluster s0 -> st_elsewhere s' = st_elsewhere s0 ->
  st_pool s' = p_free (hd 0 fl) (mbufs_free (st_pool s0) -w 1) (st_pool s0) ->
  m_next h = 0 -> has (m_flags h) M_EXT = false -> mok s' m h ->
  0 < m /\ kept ([m] :: ls) s' s' /\ quiet s s' (concat ls) /\ st_mbuf s' !! m = Some h.
Proof.
  intros I0 (_ & Q0 & E0) Em Eo Ex Ec Ee Ep H0 He Hok.
  assert (Hm : st_mbuf s' !! m = Some h) by (by rewrite Em, lookup_insert_eq).
  destruct (inv_take fl al cf ls s0 s' m h) as [I1 Q1]; try done; [by eapply ext_at_none|].
  destruct (mbuf_inv _ _ _ _ _ _ _ I1) as (_ & _ & _ & H & _).
  split_and!; [done| |eapply quiet_trans; [exact Q0|by apply quiet_concat]|done].
  split_and!; [by exists fl, al, cf|apply quiet_refl|by rewrite Ep].
Qed.

Lemma popped_mapped fl al cf ls m s : inv_of (m :: fl) al cf ls s -> is_Some (st_mbuf s !! m) /\ mapped (st_cells s) m MSIZE.
Proof.
  intros I. assert (H : is_Some (st_mbuf s !! m)) by (apply (i_dom _ _ _ _ _ I); set_solver).
  split; [done|]. by destruct (g_mbuf _ (i_geom _ _ _ _ _ I) m H) as (_ & _ & _ & ?).
Qed.

Definition fresh_mbuf (m : Z) : mbuf := Mbuf 0 0 (m_dat m) 0 MT_DATA 0.
Definition fresh_hdr (m : Z) : mbuf := Mbuf 0 0 (m_pktdat m) 0 MT_HEADER M_PKTHDR.

Lemma get_spec ls s : Inv ls s -> wpm (ami_mbuf_get AllocVec others) (got ls fresh_mbuf s) s.
Proof.
  intros I. unfold ami_mbuf_get. eapply wpm_then; [by apply raw_get_spec|].
  intros m s1 [(-> & K & F)|(Hm & s0 & fl & al & cf & I0 & K0 & ->)]; [by apply wpm_ret; left|].
  rewrite (proj2 (Z.eqb_neq m 0)) by done. destruct (popped_mapped _ _ _ _ _ _ I0) as [[h Hh] _].
  apply wpm_bind. eapply wpm_set_mb; [exact Hh|]. apply wpm_ret. right.
  eapply (take_finish ls m s s0 fl al cf _ (fresh_mbuf m)); try done.
  constructor; simpl; try done. intros _. unfold AMI_MBUF_BASE. simpl. places.
Qed.

Lemma gethdr_spec ls s :
  Inv ls s -> wpm (ami_mbuf_gethdr AllocVec others) (fun m s' => got ls fresh_hdr s m s' /\
    (m <> 0 -> long_at (st_cells s') (pkthdr_rcvif m) 0 /\ long_at (st_cells s') (pkthdr_len m) 0)) s.
Proof.
  intros I. unfold ami_mbuf_gethdr. eapply wpm_then; [by apply raw_get_spec|].
  intros m s1 [(-> & K & F)|(Hm & s0 & fl & al & cf & I0 & K0 & ->)]; [by apply wpm_ret; split; [left|]|].
  rewrite (proj2 (Z.eqb_neq m 0)) by done. destruct (popped_mapped _ _ _ _ _ _ I0) as [[h Hh] Hmap].
  apply wpm_bind. eapply wpm_set_mb; [exact Hh|].
  assert (Hd : forall o, 20 <= o <= 24 -> mapped (st_cells s0) (m + o) 4).
  { intros o Ho. eapply mapped_sub; [exact Hmap|places..]. }
  apply wpm_bind, wpm_store32; [by apply Hd|]. apply wpm_bind, wpm_store32; [apply poke_mapped; by apply Hd|].
  apply wpm_ret. match goal with |- got _ _ _ _ ?t /\ _ => set (s' := t) end.
  assert (Ex : st_cells s' = poke (poke (st_cells s0) (pkthdr_rcvif m) (frags 0)) (pkthdr_len m) (frags 0)) by done.
  assert (L1 : long_at (st_cells s') (pkthdr_rcvif m) 0).
  { eapply long_at_ext; [|apply (long_at_poke (st_cells s0)); by apply Hd]. intros x Hx. rewrite Ex, poke_out; [done|simpl; places]. }
  assert (L2 : long_at (st_cells s') (pkthdr_len m) 0) by (apply long_at_poke, poke_mapped; by apply Hd).
  split; [right|done].
  eapply (take_finish ls m s s0 fl al cf s' (fresh_hdr m)); try done.
  - intros x Hx. rewrite Ex, !poke_out; [done|simpl; places..].
  - intros x Hx. rewrite Ex, !poke_lookup. repeat (destruct (decide _); [apply lookup_lt_is_Some_2; simpl in *; lia|]). done.
  - constructor; simpl; try done; [eauto|]. intros _. unfold AMI_MBUF_BASE. simpl. places.
Qed.
End Take.
