(* ===== verification/MbufChain.v ===== *)
(** * Reading and trimming chains

    [ami_mbuf_length], [ami_mbuf_copydata] and [ami_mbuf_adj] against the data of the
    chain: the cells of its mbufs' windows, one after the other. *)

From Stdlib Require Import ZArith Lia.
From stdpp Require Import base numbers list gmap.
From S2P Require Import Prelude.
From S2P Require Import MbufAlloc.
From S2P Require Import MbufCode.
From S2P Require Import MbufInv.
From S2P Require Import MbufFree.
From S2P Require Import MbufGet.

#[local] Set Warnings "-clear-no-such-hyp".

(** ** A chain and its data *)

(** What a walk along [l] uses. *)
Definition sized (s : mst) (a : Z) : Prop := exists h, st_mbuf s !! a = Some h /\ 0 <= m_len h < 2 ^ 31.
Definition chain (s : mst) (p : Z) (l : list Z) : Prop := linked (mnext s) p l /\ Forall (sized s) l.

Lemma inv_chain l ls s : Inv (l :: ls) s -> chain s (hd 0 l) l.
Proof.
  intros (fl & al & cf & I). destruct I. split; [by apply Forall_cons in i_chains as [? _]|].
  unfold live in i_live. simpl in i_live. apply Forall_app in i_live as [[Hw _]%Forall_app _].
  eapply Forall_impl; [exact Hw|]. intros a (h & Hh & Hok). exists h. split; [done|]. by apply (k_len _ _ _ Hok).
Qed.

(** One step of a walk. *)
Lemma chain_step s p l : chain s p l ->
  (p = 0 /\ l = []) \/
  (exists h k, l = p :: k /\ p <> 0 /\ st_mbuf s !! p = Some h /\ chain s (m_next h) k /\
     Z.of_nat (length (window s p)) = m_len h /\ 0 <= m_len h < 2 ^ 31).
Proof.
  intros [Hl Hw]. destruct l as [|a k]; [by left|right]. destruct Hl as (-> & H0 & q & Eq & Hl).
  apply Forall_cons in Hw as [(h & Hh & Hn) Hw]. unfold mnext in Eq. rewrite Hh in Eq. injection Eq as <-.
  exists h, k. split_and!; try done; try lia. unfold window. rewrite Hh, peek_length. lia.
Qed.

Lemma data_cons s a l : data s (a :: l) = window s a ++ data s l.
Proof. done. Qed.
Lemma data_app s l k : data s (l ++ k) = data s l ++ data s k.
Proof. unfold data. by rewrite map_app, concat_app. Qed.

Lemma data_one s a : data s [a] = window s a.
Proof. unfold data. simpl. apply app_nil_r. Qed.

(** ** ami_mbuf_length *)

Lemma length_walk s : forall fuel l p t,
  chain s p l -> (length l <= fuel)%nat -> is_u32 t ->
  length_from fuel p t s = Val (u32 (t + Z.of_nat (length (data s l))), s).
Proof.
  induction fuel as [|fuel IH]; intros l p t Hc Hf Ht.
  - destruct l; [|simpl in Hf; lia]. destruct Hc as [E _]. simpl in E. subst p. simpl. by rewrite Z.add_0_r, u32_small.
  - destruct (chain_step _ _ _ Hc) as [[-> ->]|(h & k & -> & H0 & Hh & Hk & El & Hl)].
    { simpl. by rewrite Z.add_0_r, u32_small. }
    cbn [length_from]. rewrite (proj2 (Z.eqb_neq p 0)) by done. unfold mbind, MB_bind, mb. rewrite Hh.
    rewrite data_cons, length_app, Nat2Z.inj_add, El.
    assert (E : (if 0 <? m_len h then t +w m_len h else t) = u32 (t + m_len h)).
    { destruct (Z.ltb_spec 0 (m_len h)); [done|]. replace (m_len h) with 0 by lia. by rewrite Z.add_0_r, u32_small. }
    rewrite E, (IH k) by (done || (simpl in Hf; lia) || apply u32_range). do 2 f_equal. wunfold. rewrite Zplus_mod_idemp_l. f_equal. lia.
Qed.

Lemma length_spec l ls s : Inv (l :: ls) s ->
  ami_mbuf_length (hd 0 l) s = Val (u32 (Z.of_nat (length (data s l))), s).
Proof.
  intros I. unfold ami_mbuf_length, mbind, MB_bind, chain_fuel, asks.
  apply (length_walk s _ l _ 0); [by eapply inv_chain|by eapply chain_short|word_lia].
Qed.

(** ** ami_mbuf_copydata *)

Lemma seek_walk s : forall fuel l p o,
  chain s p l -> (length l <= fuel)%nat -> 0 <= o < 2 ^ 31 ->
  exists p' o' k, seek fuel p o s = Val ((p', o'), s) /\ chain s p' k /\ (length k <= length l)%nat /\ 0 <= o' <= o /\
    Z.of_nat (length (data s k)) - o' = Z.of_nat (length (data s l)) - o /\
    drop (Z.to_nat o) (data s l) = drop (Z.to_nat o') (data s k) /\
    (forall a, a ∈ k -> a ∈ l) /\
    (k = [] \/ exists a r, k = a :: r /\ o' < Z.of_nat (length (window s a))).
Proof.
  induction fuel as [|fuel IH]; intros l p o Hc Hf Ho.
  - destruct l; [|simpl in Hf; lia]. destruct Hc as [E _]. simpl in E. subst p. exists 0, o, []. split_and!; try done; try lia. by left.
  - destruct (chain_step _ _ _ Hc) as [[-> ->]|(h & k & -> & H0 & Hh & Hk & El & Hl)].
    { exists 0, o, []. split_and!; try done; try lia. by left. }
    cbn [seek]. rewrite (proj2 (Z.eqb_neq p 0)) by done. unfold mbind, MB_bind, mb. rewrite Hh.
    destruct (Z.ltb_spec o (m_len h)) as [Hlt|Hge].
    { exists p, o, (p :: k). split_and!; try done; try lia. right. exists p, k. split; [done|lia]. }
    rewrite s32_small by word_lia. destruct (IH k (m_next h) (o - m_len h)) as (p' & o' & k' & E & C & L & R & D & DD & S & T);
      [done|simpl in Hf; lia|lia|]. exists p', o', k'. split_and!; try done; try (simpl; lia).
    + rewrite data_cons, length_app. lia.
    + rewrite data_cons, drop_app_ge by lia. rewrite <- DD. f_equal. lia.
    + intros a Ha. apply elem_of_cons. right. auto.
Qed.

(** Where a walk that skipped [o] bytes may stand. *)
Definition stands (s : mst) (o : Z) (k : list Z) : Prop :=
  0 <= o /\ (k = [] \/ exists a r, k = a :: r /\ o <= Z.of_nat (length (window s a))).

Lemma stands_0 s k : stands s 0 k.
Proof. split; [lia|]. destruct k as [|a r]; [by left|right]. exists a, r. split; [done|lia]. Qed.

Lemma missing_walk s : forall fuel k q o rem,
  chain s q k -> (length k <= fuel)%nat -> stands s o k -> 0 <= rem < 2 ^ 31 ->
  missing fuel q o rem s = Val (Z.max 0 (rem - Z.of_nat (length (drop (Z.to_nat o) (data s k)))), s).
Proof.
  induction fuel as [|fuel IH]; intros k q o rem Hc Hf [Ho Hs] Hr.
  - destruct k; [|simpl in Hf; lia]. destruct Hc as [E _]. simpl in E. subst q. change (data s []) with (@nil cell). rewrite drop_nil. unfold missing, mret, MB_ret. simpl. do 2 f_equal. lia.
  - destruct (chain_step _ _ _ Hc) as [[-> ->]|(h & k' & -> & H0 & Hh & Hk & El & Hl)].
    { change (data s []) with (@nil cell). rewrite drop_nil. unfold missing, mret, MB_ret. simpl. do 2 f_equal. lia. }
    destruct Hs as [?|(a & r & [= <- <-] & Hs)]; [done|]. cbn [missing]. rewrite (proj2 (Z.eqb_neq q 0)) by done. cbn [orb].
    rewrite data_cons, length_drop, length_app.
    destruct (Z.leb_spec rem 0) as [Hr0|Hr0]. { unfold mret, MB_ret. do 2 f_equal. lia. }
    unfold mbind, MB_bind, mb. rewrite Hh. rewrite (s32_small (m_len h - o)) by lia. cbv zeta.
    set (av := if rem <? _ then rem else _). assert (Hav : av = Z.min rem (m_len h - o)) by (subst av; destruct (Z.ltb_spec rem (m_len h - o)); lia).
    clearbody av. assert (Er : (if 0 <? av then s32 (rem - av) else rem) = rem - av).
    { destruct (Z.ltb_spec 0 av); [apply s32_small|]; lia. }
    rewrite Er. rewrite (IH k') by (done || (simpl in Hf; lia) || apply stands_0 || lia). do 2 f_equal.
    rewrite drop_0. lia.
Qed.

(** The addresses a reader of the mbuf touches. *)
Definition reads (s : mst) (a x : Z) : Prop :=
  exists h, st_mbuf s !! a = Some h /\ m_data h <= x < m_data h + m_len h.

Lemma window_poke s a p c :
  (forall x, reads s a x -> ~ (p <= x < p + Z.of_nat (length c))) ->
  window (s_cells (poke (st_cells s) p c) s) a = window s a.
Proof.
  intros H. unfold window. cbn [st_mbuf s_cells st_cells]. destruct (st_mbuf s !! a) as [h|] eqn:Hh; [|done].
  apply peek_ext. intros x Hx. apply poke_out. destruct (decide (p <= x < p + Z.of_nat (length c))); [|lia].
  exfalso. apply (H x); [|done]. exists h. split; [done|lia].
Qed.

Lemma peek_sub c p n i j : (i + j <= n)%nat -> peek c (p + Z.of_nat i) j = take j (drop i (peek c p n)).
Proof.
  intros H. replace n with (i + (j + (n - i - j)))%nat by lia. rewrite !peek_app, drop_app_length' by (by rewrite peek_length).
  by rewrite take_app_length' by (by rewrite peek_length).
Qed.

Lemma poke_poke c p l k : poke (poke c p l) (p + Z.of_nat (length l)) k = poke c p (l ++ k).
Proof.
  apply map_eq. intros x. rewrite !poke_lookup, length_app.
  destruct (decide (p + Z.of_nat (length l) <= x < p + Z.of_nat (length l) + Z.of_nat (length k))).
  - rewrite decide_True by lia. rewrite lookup_app_r by lia. f_equal. lia.
  - destruct (decide (p <= x < p + Z.of_nat (length l))).
    + rewrite decide_True by lia. by rewrite lookup_app_l by lia.
    + by rewrite decide_False by lia.
Qed.

Lemma data_poke s p c k :
  (forall a x, a ∈ k -> reads s a x -> ~ (p <= x < p + Z.of_nat (length c))) ->
  data (s_cells (poke (st_cells s) p c) s) k = data s k.
Proof.
  intros H. unfold data. f_equal. apply map_ext_in. intros a Ha. apply window_poke. intros x. apply H. by apply list_elem_of_In.
Qed.

(** The first mbuf of what is left, then the rest. *)
Lemma take_window (w d : list cell) (o rem : nat) :
  (o <= length w)%nat ->
  take (Nat.min rem (length w - o)) (drop o w) ++ take (rem - Nat.min rem (length w - o)) d = take rem (drop o (w ++ d)).
Proof.
  intros H. rewrite drop_app_le, take_app by done. rewrite length_drop. f_equal; [|f_equal; lia].
  destruct (Nat.min_dec rem (length w - o)) as [E|E]; rewrite E; [done|]. rewrite !take_ge; rewrite ?length_drop; done || lia.
Qed.

Lemma copy_out_walk : forall fuel k p o rem dst s,
  chain s p k -> (length k <= fuel)%nat -> stands s o k -> 0 <= rem < 2 ^ 31 ->
  mapped (st_cells s) dst rem ->
  (forall a x, a ∈ k -> reads s a x -> is_Some (st_cells s !! x) /\ ~ (dst <= x < dst + rem)) ->
  copy_out fuel p o rem dst s =
    Val (tt, s_cells (poke (st_cells s) dst (take (Z.to_nat rem) (drop (Z.to_nat o) (data s k)))) s).
Proof.
  induction fuel as [|fuel IH]; intros k p o rem dst s Hc Hf [Ho Hs] Hr Hd Hx.
  - destruct k; [|simpl in Hf; lia]. destruct Hc as [E _]. simpl in E. subst p. change (data s []) with (@nil cell). rewrite drop_nil, take_nil. by destruct s.
  - destruct (chain_step _ _ _ Hc) as [[-> ->]|(h & k' & -> & H0 & Hh & Hk & El & Hl)].
    { change (data s []) with (@nil cell). rewrite drop_nil, take_nil. by destruct s. }
    destruct Hs as [?|(a & r & [= <- <-] & Hs)]; [done|]. cbn [copy_out]. rewrite (proj2 (Z.eqb_neq p 0)) by done. cbn [orb].
    destruct (Z.leb_spec rem 0) as [Hr0|Hr0].
    { replace rem with 0 by lia. change (Z.to_nat 0) with 0%nat. rewrite take_0. by destruct s. }
    unfold mbind, MB_bind, mb. rewrite Hh. rewrite (s32_small (m_len h - o)) by lia. cbv zeta.
    set (av := if rem <? _ then rem else _). assert (Hav : av = Z.min rem (m_len h - o)) by (subst av; destruct (Z.ltb_spec rem (m_len h - o)); lia).
    clearbody av. rewrite data_cons, <- take_window by lia.
    assert (Hx' : forall a x, a ∈ k' -> reads s a x -> is_Some (st_cells s !! x) /\ ~ (dst <= x < dst + rem)).
    { intros a x Ha. apply Hx. by apply elem_of_cons; right. }
    assert (Em : Nat.min (Z.to_nat rem) (length (window s p) - Z.to_nat o) = Z.to_nat av) by lia. rewrite Em. clear Em.
    assert (Er : s32 (rem - av) = rem - av) by (apply s32_small; lia).
    destruct (Z.ltb_spec 0 av) as [Hp|Hp].
    + assert (Hsrc : forall x, m_data h + o <= x < m_data h + o + av -> is_Some (st_cells s !! x) /\ ~ (dst <= x < dst + rem)).
      { intros x Hin. apply (Hx p); [by apply elem_of_cons; left|]. exists h. split; [done|lia]. }
      assert (Ec : peek (st_cells s) (m_data h + o) (Z.to_nat av) = take (Z.to_nat av) (drop (Z.to_nat o) (window s p))).
      { unfold window. rewrite Hh, <- peek_sub by lia. f_equal. lia. }
      unfold ami_mbuf_copy_bytes. rewrite copy_bytes_spec; rewrite ?Z2Nat.id by lia.
      2: { intros x Hin. by apply Hsrc. }
      2: { eapply mapped_sub; [exact Hd|lia|lia]. }
      2: { apply apart_intervals; [done|done|]. intros x Hx1 Hx2. destruct (Hsrc x Hx2). lia. }
      rewrite <- Ec. set (c := peek _ _ _). assert (Hlc : length c = Z.to_nat av) by apply peek_length.
      rewrite (IH k' (m_next h) 0); rewrite ?Er; try (simpl in Hf; lia); [| |apply stands_0| |].
      * do 2 f_equal. rewrite data_poke by (intros a x Ha Hrd; destruct (Hx' a x Ha Hrd); lia).
        unfold s_cells. cbn [st_cells st_mbuf st_cluster st_slab st_pool st_heap st_released st_elsewhere]. f_equal.
        replace av with (Z.of_nat (length c)) at 1 by lia. rewrite poke_poke, drop_0. do 3 f_equal. lia.
      * exact Hk.
      * apply poke_mapped. eapply mapped_sub; [exact Hd|lia|lia].
      * intros a x Ha Hrd. destruct (Hx' a x Ha Hrd) as [[v Hv] Hn]. split; [|lia].
        cbn [st_cells s_cells]. rewrite poke_out by lia. eauto.
    + rewrite (IH k') by (done || (simpl in Hf; lia) || apply stands_0 || lia). do 3 f_equal. rewrite drop_0.
      replace av with 0 by lia. simpl. by rewrite Nat.sub_0_r.
Qed.

Lemma reads_reach ls s a x : Inv ls s -> a ∈ live ls s -> reads s a x -> reach ls s x.
Proof.
  intros (fl & al & cf & []) Ha (h & Hh & Hx). rewrite Forall_forall in i_live. destruct (i_live a Ha) as (h' & Hh' & Hok).
  rewrite Hh in Hh'. injection Hh' as <-. destruct (has (m_flags h) M_EXT) eqn:He.
  - destruct (k_ext _ _ _ Hok He) as (b & f & n & L1 & L2 & L3 & [(-> & c & -> & Hc)|F] & R).
    + right. left. exists c. split; [done|places].
    + right. right. exists a, h, b, n. split_and!; try done; lia.
  - destruct (k_int _ _ _ Hok He). left. exists a. split; [eauto|places].
Qed.

(** Cells nothing of the pool reaches may change. *)
Lemma inv_poke ls s p c :
  Inv ls s -> (forall x, p <= x < p + Z.of_nat (length c) -> ~ reach ls s x) ->
  Inv ls (s_cells (poke (st_cells s) p c) s) /\ quiet s (s_cells (poke (st_cells s) p c) s) (live ls s).
Proof.
  intros (fl & al & cf & I) H. destruct (inv_same fl al cf ls s (s_cells (poke (st_cells s) p c) s) I) as [I' Q]; try done.
  - intros x Hx. apply poke_out. destruct (decide (p <= x < p + Z.of_nat (length c))); [|lia]. by destruct (H x).
  - apply (i_limits _ _ _ _ _ I).
  - split; [by exists fl, al, cf|done].
Qed.

Lemma copydata_spec l ls s off len cp :
  Inv (l :: ls) s -> l <> [] -> 0 <= off < 2 ^ 31 -> 0 <= len < 2 ^ 31 -> untaken (l :: ls) s cp len ->
  wpm (ami_mbuf_copydata (hd 0 l) off len cp) (fun r s' =>
    Inv (l :: ls) s' /\ quiet s s' (live (l :: ls) s) /\
    if (len =? 0) || (off + len <=? Z.of_nat (length (data s l))) then
      r = 0 /\ peek (st_cells s') cp (Z.to_nat len) = take (Z.to_nat len) (drop (Z.to_nat off) (data s l))
    else r = -1 /\ s' = s) s.
Proof.
  intros I Hne Ho Hn U. pose proof (u_range _ _ _ _ U) as R. unfold ami_mbuf_copydata.
  assert (H0 : hd 0 l <> 0) by (intros H; by apply (chain_head _ _ _ I) in H).
  rewrite (proj2 (Z.eqb_neq _ 0)), (proj2 (Z.ltb_ge off 0)), (proj2 (Z.ltb_ge len 0)) by lia. cbn [orb].
  destruct (Z.eqb_spec len 0) as [->|Hz]; cbn [orb].
  { apply wpm_ret. split_and!; [done|apply quiet_refl|done|by rewrite take_0]. }
  rewrite (proj2 (Z.eqb_neq cp 0)) by lia. apply wpm_bind, wpm_asks.
  destruct (seek_walk s (size (st_mbuf s)) l (hd 0 l) off) as (p & o & k & E & C & L & Ro & D & DD & Sub & T);
    [by eapply inv_chain|by eapply chain_short|done|].
  apply wpm_bind. exists (p, o), s. split; [exact E|]. cbv beta iota.
  assert (St : stands s o k).
  { split; [lia|]. destruct T as [->|(a & r & -> & T)]; [by left|right]. exists a, r. split; [done|lia]. }
  pose proof (chain_short _ _ _ I) as Hs. apply wpm_bind. eexists _, s.
  split; [apply (missing_walk s _ k); [done|lia|done|done]|].
  assert (HL : forall x, cp <= x < cp + len -> ~ reach (l :: ls) s x) by apply U.
  rewrite <- DD, length_drop.
  destruct (Z.leb_spec (off + len) (Z.of_nat (length (data s l)))) as [Hfit|Hfit].
  - rewrite (proj2 (Z.ltb_ge 0 _)) by lia. apply wpm_bind. eexists _, _. split; [apply (copy_out_walk _ k); [done|lia|done|done| |]|].
    + apply U.
    + intros a x Ha Hrd. assert (Hr : reach (l :: ls) s x).
      { apply (reads_reach _ _ a); [done| |done]. eapply elem_of_live; [by apply elem_of_cons; left|]. by apply Sub. }
      split; [|intros Hx; by apply (HL x)]. destruct I as (fl & al & cf & I). by eapply reach_mapped.
    + rewrite <- DD. apply wpm_ret. set (c := take _ _).
      assert (Hc : length c = Z.to_nat len) by (unfold c; rewrite length_take, length_drop; lia).
      destruct (inv_poke (l :: ls) s cp c I) as [I' Q]; [intros x Hx; apply HL; lia|].
      split_and!; [done|done|done|]. cbn [st_cells s_cells]. rewrite <- Hc. apply peek_poke.
  - rewrite (proj2 (Z.ltb_lt 0 _)) by lia. apply wpm_ret. split_and!; [done|apply quiet_refl|done|done].
Qed.

(** ** Changing the header of a live mbuf *)

Lemma inv_well ls s a : Inv ls s -> a ∈ live ls s -> exists h, st_mbuf s !! a = Some h /\ mok s a h.
Proof. intros (fl & al & cf & []) Ha. rewrite Forall_forall in i_live. by apply i_live. Qed.

Lemma inv_mapped ls s a : Inv ls s -> a ∈ live ls s -> mapped (st_cells s) a MSIZE /\ 0 < a.
Proof.
  intros (fl & al & cf & I) Ha. destruct (g_mbuf s (i_geom _ _ _ _ _ I) a) as (_ & H & _ & M); [|done].
  apply (i_dom _ _ _ _ _ I), elem_of_app. by right.
Qed.

Lemma inv_hdr ls s a h h' :
  Inv ls s -> a ∈ live ls s -> st_mbuf s !! a = Some h -> m_next h' = m_next h -> m_flags h' = m_flags h -> mok s a h' ->
  Inv ls (s_mbuf (<[a := h']> (st_mbuf s)) s).
Proof.
  intros (fl & al & cf & I) Ha Hh En Ef Hok. set (s' := s_mbuf _ s). exists fl, al, cf.
  assert (Emb : forall b, b <> a -> st_mbuf s' !! b = st_mbuf s !! b) by (intros b Hb; by apply lookup_insert_ne).
  assert (Ea : st_mbuf s' !! a = Some h') by apply lookup_insert_eq.
  assert (EN : forall b, mnext s' b = mnext s b).
  { intros b. unfold mnext. destruct (decide (b = a)) as [->|]; [rewrite Ea, Hh; simpl; by rewrite En|by rewrite Emb]. }
  assert (SP : same_places s s').
  { split_and!; [|done|done]. intros b. destruct (decide (b = a)) as [->|]; [rewrite Ea, Hh; by split|by rewrite Emb]. }
  pose proof I as []. eapply (inv_edit fl al cf ls ls s s'); try done.
  - rewrite Forall_forall in i_chains |- *. intros l Hl. eapply linked_ext; [|by apply i_chains]. done.
  - rewrite Forall_forall in i_live |- *. intros b Hb. destruct (decide (b = a)) as [->|Hne].
    + exists h'. split; [done|]. destruct Hok. constructor; try done. intros He.
      destruct (k_ext He) as (e & f & n & ? & ? & ? & St & ? & ?). exists e, f, n. split_and!; try done. by eapply storage_same.
    + apply (well_same s s'); [done|by apply Emb|done|by apply i_live].
  - intros b Hb. unfold ext_at. destruct (decide (b = a)) as [->|]; [rewrite Ea, Hh, Ef; done|by rewrite Emb].
Qed.

Lemma mok_narrow s a h h' :
  mok s a h -> m_flags h' = m_flags h -> 0 <= m_len h' -> m_data h <= m_data h' ->
  m_data h' + m_len h' <= m_data h + m_len h -> mok s a h'.
Proof.
  intros [] Ef H1 H2 H3. constructor; rewrite ?Ef; try done; [lia| |].
  - intros He. destruct (k_ext He) as (e & f & n & ? & ? & ? & St & ?). exists e, f, n. split_and!; try done; lia.
  - intros He. destruct (k_int He). unfold AMI_MBUF_BASE in *. rewrite Ef. lia.
Qed.

(** Only headers of [K] changed, and not their flags. *)
Record reshaped (K : list Z) (s s' : mst) : Prop := {
  rs_cells : st_cells s' = st_cells s;
  rs_elsewhere : st_elsewhere s' = st_elsewhere s;
  rs_pool : st_pool s' = st_pool s;
  rs_other : forall b, b ∉ K -> st_mbuf s' !! b = st_mbuf s !! b;
  rs_flags : forall b, m_flags <$> st_mbuf s' !! b = m_flags <$> st_mbuf s !! b;
  rs_size : size (st_mbuf s') = size (st_mbuf s)
}.

Lemma reshaped_refl K s : reshaped K s s.
Proof. by constructor. Qed.
Lemma reshaped_trans K s1 s2 s3 : reshaped K s1 s2 -> reshaped K s2 s3 -> reshaped K s1 s3.
Proof. intros [] []. constructor; try congruence; intros b; rewrite ?rs_flags1; auto. intros Hb. by rewrite rs_other1, rs_other0. Qed.
Lemma reshaped_sub K L s s' : reshaped K s s' -> (forall a, a ∈ K -> a ∈ L) -> reshaped L s s'.
Proof. intros [] H. constructor; auto. Qed.
Lemma reshaped_window K s s' b : reshaped K s s' -> b ∉ K -> window s' b = window s b.
Proof. intros [] Hb. unfold window. by rewrite rs_other0, rs_cells0. Qed.
Lemma reshaped_data K s s' l : reshaped K s s' -> (forall b, b ∈ l -> b ∉ K) -> data s' l = data s l.
Proof.
  intros R H. unfold data. f_equal. apply map_ext_in. intros b Hb. apply (reshaped_window K); [done|].
  by apply H, list_elem_of_In.
Qed.

Lemma reshaped_set a f s h :
  st_mbuf s !! a = Some h -> m_flags (f h) = m_flags h -> reshaped [a] s (s_mbuf (<[a := f h]> (st_mbuf s)) s).
Proof.
  intros Hh Ef. constructor; try done.
  - intros b Hb. apply lookup_insert_ne. set_solver.
  - intros b. cbn [st_mbuf s_mbuf]. destruct (decide (b = a)) as [->|]; [rewrite lookup_insert_eq, Hh; simpl; by rewrite Ef|by rewrite lookup_insert_ne].
  - cbn [st_mbuf s_mbuf]. rewrite map_size_insert, Hh. done.
Qed.

(** The rest of a chain, from one of its mbufs on. *)
Lemma inv_suffix pre suf ls s : Inv ((pre ++ suf) :: ls) s ->
  linked (mnext s) (hd 0 suf) suf /\ NoDup (pre ++ suf) /\ (forall a, a ∈ pre ++ suf -> a ∈ live ((pre ++ suf) :: ls) s) /\
  (length suf <= size (st_mbuf s))%nat.
Proof.
  intros I. pose proof (chain_short _ _ _ I) as Hs. rewrite length_app in Hs.
  destruct I as (fl & al & cf & []). split_and!; [| | |lia].
  - apply Forall_cons in i_chains as [Hl _]. clear -Hl. revert Hl. generalize (hd 0 (pre ++ suf)). induction pre as [|x pre IH]; intros q Hl.
    + simpl in Hl. by rewrite <- (linked_head _ _ _ Hl).
    + simpl in Hl. destruct Hl as (_ & _ & r & _ & Hl). by eapply IH.
  - apply NoDup_app in i_nodup as (_ & _ & H). unfold live in H. simpl in H. rewrite <- app_assoc in H. by apply NoDup_app in H as (? & _).
  - intros a Ha. eapply elem_of_live; [by apply elem_of_cons; left|done].
Qed.

Lemma suffix_step pre suf ls s : Inv ((pre ++ suf) :: ls) s ->
  (suf = [] /\ hd 0 suf = 0) \/
  exists a k h, suf = a :: k /\ a <> 0 /\ st_mbuf s !! a = Some h /\ mok s a h /\ m_next h = hd 0 k /\
    (a ∉ k) /\ (a ∉ pre) /\ a ∈ live ((pre ++ suf) :: ls) s /\ Z.of_nat (length (window s a)) = m_len h /\ 0 <= m_len h < 2 ^ 31.
Proof.
  intros I. destruct (inv_suffix _ _ _ _ I) as (Hl & ND & Hin & _). destruct suf as [|a k]; [by left|right].
  assert (Ha : a ∈ live ((pre ++ a :: k) :: ls) s) by (apply Hin; set_solver).
  destruct (inv_well _ _ _ I Ha) as (h & Hh & Hok). destruct Hl as (_ & H0 & q & Eq & Hl). unfold mnext in Eq. rewrite Hh in Eq.
  injection Eq as <-. pose proof (k_len _ _ _ Hok). apply NoDup_app in ND as (_ & N1 & N2%NoDup_cons).
  exists a, k, h. split_and!; try done; try lia.
  - by apply linked_head in Hl.
  - by apply N2.
  - intros H'. apply (N1 a H'). by apply elem_of_cons; left.
  - unfold window. rewrite Hh, peek_length. lia.
Qed.

(** ** ami_mbuf_adj *)

(** Narrowing the window of a live mbuf. *)
Lemma wpm_narrow ls s a h f Q :
  Inv ls s -> a ∈ live ls s -> st_mbuf s !! a = Some h -> mok s a h ->
  m_next (f h) = m_next h -> m_flags (f h) = m_flags h -> 0 <= m_len (f h) -> m_data h <= m_data (f h) ->
  m_data (f h) + m_len (f h) <= m_data h + m_len h ->
  (forall s', Inv ls s' -> reshaped [a] s s' ->
     window s' a = take (Z.to_nat (m_len (f h))) (drop (Z.to_nat (m_data (f h) - m_data h)) (window s a)) -> Q tt s') ->
  wpm (set_mb a f) Q s.
Proof.
  intros I Ha Hh Hok En Ef H1 H2 H3 HQ. eapply wpm_set_mb; [exact Hh|]. apply HQ.
  - eapply inv_hdr; try done. by eapply mok_narrow.
  - by apply reshaped_set.
  - unfold window. cbn [st_mbuf s_mbuf st_cells]. rewrite lookup_insert_eq, Hh.
    rewrite <- peek_sub by lia. f_equal. lia.
Qed.

Lemma adj_front_walk fuel : forall pre suf ls s len,
  Inv ((pre ++ suf) :: ls) s -> (length suf <= fuel)%nat -> 0 <= len < 2 ^ 31 ->
  wpm (adj_front fuel (hd 0 suf) len) (fun r s' => Inv ((pre ++ suf) :: ls) s' /\ reshaped suf s s' /\
    data s' suf = drop (Z.to_nat len) (data s suf) /\ r = Z.max 0 (len - Z.of_nat (length (data s suf)))) s.
Proof.
  induction fuel as [|fuel IH]; intros pre suf ls s len I Hf Hn.
  { destruct suf; [|simpl in Hf; lia]. apply wpm_ret. split_and!; [done|apply reshaped_refl|by destruct (Z.to_nat len)|simpl; lia]. }
  destruct (suffix_step _ _ _ _ I) as [[-> ->]|(a & k & h & -> & H0 & Hh & Hok & En & Nk & Np & Ha & El & Hl)].
  { apply wpm_ret. split_and!; [done|apply reshaped_refl|by destruct (Z.to_nat len)|simpl; lia]. }
  cbn [adj_front hd]. rewrite (proj2 (Z.eqb_neq a 0)) by done. cbn [orb]. rewrite data_cons.
  destruct (Z.leb_spec len 0) as [Hz|Hz].
  { replace len with 0 by lia. apply wpm_ret. split_and!; [done|apply reshaped_refl|done|rewrite length_app; lia]. }
  apply wpm_bind, (wpm_mb _ h); [done|]. destruct (Z.leb_spec (m_len h) len) as [Hle|Hgt].
  - apply wpm_bind. eapply (wpm_narrow _ _ a h); try done; [simpl; lia..|]. intros s1 I1 R1 W1. cbn [w_len m_len] in W1.
    change (Z.to_nat 0) with 0%nat in W1. rewrite take_0 in W1. rewrite En, s32_small by lia.
    assert (Hd1 : data s1 k = data s k) by (eapply reshaped_data; [exact R1|set_solver]).
    eapply wpm_mono; [apply (IH (pre ++ [a]) k ls s1 (len - m_len h))|].
    + by rewrite <- app_assoc.
    + simpl in Hf. lia.
    + lia.
    + intros r s2 (I2 & R2 & D2 & Er). rewrite <- app_assoc in I2. rewrite Hd1 in D2, Er. split_and!.
      * done.
      * eapply reshaped_trans; eapply reshaped_sub; try done; set_solver.
      * rewrite data_cons, (reshaped_window k s1 s2 a), W1, D2, drop_app_ge by (done || lia). simpl. f_equal. lia.
      * rewrite length_app. lia.
  - apply wpm_bind. eapply (wpm_narrow _ _ a h); try done; try (simpl; rewrite ?s32_small; lia).
    intros s1 I1 R1 W1. cbn [w_data w_len m_len m_data] in W1. rewrite s32_small in W1 by lia. apply wpm_ret. split_and!.
    + done.
    + eapply reshaped_sub; [exact R1|set_solver].
    + rewrite data_cons, (reshaped_data [a] s s1 k), W1, drop_app_le by (done || lia || set_solver). f_equal.
      replace (m_data h + len - m_data h) with len by lia. apply take_ge. rewrite length_drop. lia.
    + rewrite length_app. lia.
Qed.

Lemma adj_clear_walk fuel : forall pre suf ls s,
  Inv ((pre ++ suf) :: ls) s -> (length suf <= fuel)%nat ->
  wpm (adj_clear fuel (hd 0 suf)) (fun _ s' => Inv ((pre ++ suf) :: ls) s' /\ reshaped suf s s' /\ data s' suf = []) s.
Proof.
  induction fuel as [|fuel IH]; intros pre suf ls s I Hf.
  { destruct suf; [|simpl in Hf; lia]. apply wpm_ret. split_and!; [done|apply reshaped_refl|done]. }
  destruct (suffix_step _ _ _ _ I) as [[-> ->]|(a & k & h & -> & H0 & Hh & Hok & En & Nk & Np & Ha & El & Hl)].
  { apply wpm_ret. split_and!; [done|apply reshaped_refl|done]. }
  cbn [adj_clear hd]. rewrite (proj2 (Z.eqb_neq a 0)) by done. apply wpm_bind, (wpm_mb _ h); [done|].
  apply wpm_bind. eapply (wpm_narrow _ _ a h); try done; [simpl; lia..|]. intros s1 I1 R1 W1. cbn [w_len m_len] in W1.
  change (Z.to_nat 0) with 0%nat in W1. rewrite take_0 in W1. rewrite En.
  eapply wpm_mono; [apply (IH (pre ++ [a]) k ls s1); [by rewrite <- app_assoc|simpl in Hf; lia]|].
  intros [] s2 (I2 & R2 & D2). rewrite <- app_assoc in I2. split_and!.
  - done.
  - eapply reshaped_trans; eapply reshaped_sub; try done; set_solver.
  - by rewrite data_cons, (reshaped_window k s1 s2 a), W1, D2 by done.
Qed.

Lemma adj_total_walk s : forall fuel k q t,
  chain s q k -> (length k <= fuel)%nat -> 0 <= t -> t + Z.of_nat (length (data s k)) < 2 ^ 31 ->
  adj_total fuel q t s = Val (t + Z.of_nat (length (data s k)), s).
Proof.
  induction fuel as [|fuel IH]; intros k q t Hc Hf Ht Hm.
  - destruct k; [|simpl in Hf; lia]. destruct Hc as [E _]. simpl in E. subst q. simpl. by rewrite Z.add_0_r.
  - destruct (chain_step _ _ _ Hc) as [[-> ->]|(h & k' & -> & H0 & Hh & Hk & El & Hl)].
    { simpl. by rewrite Z.add_0_r. }
    rewrite data_cons, length_app in *. cbn [adj_total]. rewrite (proj2 (Z.eqb_neq q 0)) by done. unfold mbind, MB_bind, mb. rewrite Hh.
    rewrite s32_small by lia. rewrite (IH k') by (done || (simpl in Hf; lia) || lia). do 2 f_equal. lia.
Qed.

Lemma adj_keep_walk fuel : forall pre suf ls s keep,
  Inv ((pre ++ suf) :: ls) s -> (length suf <= fuel)%nat -> 0 <= keep < 2 ^ 31 ->
  wpm (adj_keep fuel (hd 0 suf) keep) (fun _ s' => Inv ((pre ++ suf) :: ls) s' /\ reshaped suf s s' /\
    data s' suf = take (Z.to_nat keep) (data s suf)) s.
Proof.
  induction fuel as [|fuel IH]; intros pre suf ls s keep I Hf Hn.
  { destruct suf; [|simpl in Hf; lia]. apply wpm_ret. split_and!; [done|apply reshaped_refl|by destruct (Z.to_nat keep)]. }
  destruct (suffix_step _ _ _ _ I) as [[-> ->]|(a & k & h & -> & H0 & Hh & Hok & En & Nk & Np & Ha & El & Hl)].
  { apply wpm_ret. split_and!; [done|apply reshaped_refl|by destruct (Z.to_nat keep)]. }
  cbn [adj_keep hd]. rewrite (proj2 (Z.eqb_neq a 0)) by done. rewrite data_cons. apply wpm_bind, (wpm_mb _ h); [done|].
  assert (NEXT : forall s1 keep', Inv ((pre ++ a :: k) :: ls) s1 -> reshaped [a] s s1 -> 0 <= keep' < 2 ^ 31 ->
    window s1 a ++ take (Z.to_nat keep') (data s k) = take (Z.to_nat keep) (window s a ++ data s k) ->
    wpm (adj_keep fuel (m_next h) keep') (fun _ s' => Inv ((pre ++ a :: k) :: ls) s' /\ reshaped (a :: k) s s' /\
      data s' (a :: k) = take (Z.to_nat keep) (window s a ++ data s k)) s1).
  { intros s1 keep' I1 R1 Hk Hd. rewrite En.
    eapply wpm_mono; [apply (IH (pre ++ [a]) k ls s1 keep'); [by rewrite <- app_assoc|simpl in Hf; lia|done]|].
    intros [] s2 (I2 & R2 & D2). rewrite <- app_assoc in I2. split_and!.
    - done.
    - eapply reshaped_trans; eapply reshaped_sub; try done; set_solver.
    - rewrite data_cons, (reshaped_window k s1 s2 a), D2, (reshaped_data [a] s s1 k) by (done || set_solver). done. }
  destruct (Z.leb_spec keep (m_len h)) as [Hle|Hgt].
  - apply wpm_bind. eapply (wpm_narrow _ _ a h); try done; [simpl; lia..|]. intros s1 I1 R1 W1. cbn [w_len m_len m_data] in W1.
    rewrite Z.sub_diag in W1. change (Z.to_nat 0) with 0%nat in W1. apply NEXT; try done.
    rewrite W1. change (Z.to_nat 0) with 0%nat. rewrite drop_0, take_0, app_nil_r. by rewrite take_app_le by lia.
  - rewrite s32_small by lia. apply NEXT; [done|apply reshaped_refl|lia|].
    rewrite take_app_ge by lia. do 2 f_equal. lia.
Qed.

(** ** The packet header *)

(** A longword of the packet header of a live mbuf; what everybody else sees stays. *)
Lemma inv_pkthdr ls s a h o v :
  Inv ls s -> a ∈ live ls s -> st_mbuf s !! a = Some h -> has (m_flags h) M_PKTHDR = true -> o = 20 \/ o = 24 ->
  let s' := s_cells (poke (st_cells s) (a + o) (frags v)) s in
  Inv ls s' /\ (forall b, b ∈ live ls s -> window s' b = window s b) /\
  (forall b, b ∈ live ls s -> b <> a -> seen_same s s' b) /\ long_at (st_cells s') (a + o) v /\
  (forall x w, x <> o -> 20 <= x <= 36 -> (x - 20) mod 4 = 0 -> long_at (st_cells s) (a + x) w -> long_at (st_cells s') (a + x) w).
Proof.
  intros (fl & al & cf & I) Ha Hh Hp Ho s'. pose proof I as [].
  assert (Hs : is_Some (st_mbuf s !! a)) by eauto. destruct (g_mbuf s i_geom a Hs) as (_ & _ & _ & Hm).
  rewrite Forall_forall in i_live. destruct (i_live a Ha) as (h' & Hh' & Hok). rewrite Hh in Hh'. injection Hh' as <-.
  assert (Ex : forall x, ~ (a + o <= x < a + o + 4) -> st_cells s' !! x = st_cells s !! x) by (intros x Hx; apply poke_out; simpl; lia).
  assert (SP : same_places s s').
  { split_and!; try done. intros x Hx. cbn [s' s_cells st_cells]. rewrite poke_lookup.
    destruct (decide _); [apply lookup_lt_is_Some_2; simpl in *; lia|done]. }
  assert (Out : outside s s' a) by (intros x Hx; apply Ex; places).
  assert (Q : forall b, b ∈ live ls s -> b <> a -> seen_same s s' b).
  { intros b Hb Hne. apply (window_other s s' a b); try done. by apply i_live. }
  assert (LO : forall x w, x <> o -> 20 <= x <= 36 -> (x - 20) mod 4 = 0 -> long_at (st_cells s) (a + x) w -> long_at (st_cells s') (a + x) w).
  { intros x w Hx Hr Hd. apply long_at_ext. intros y Hy. apply Ex. pose proof (Z.div_mod (x - 20) 4 ltac:(lia)). lia. }
  assert (LV : long_at (st_cells s') (a + o) v) by (apply long_at_poke; eapply mapped_sub; [exact Hm|places..]).
  assert (W : window s' a = window s a).
  { unfold window. cbn [st_mbuf s' s_cells]. rewrite Hh. apply peek_ext. intros x Hx. apply Ex. 
    destruct (has (m_flags h) M_EXT) eqn:He.
    - destruct (k_ext _ _ _ Hok He) as (b & f & n & _ & _ & _ & [(-> & c & -> & Hc)|(_ & _ & _ & F & _)] & R).
      + pose proof (g_mbuf_cluster s i_geom a c Hs Hc). places.
      + specialize (F a Hs). places.
    - destruct (k_int _ _ _ Hok He). unfold AMI_MBUF_BASE in *. rewrite Hp in *. places. }
  split_and!; try done.
  - exists fl, al, cf. eapply (inv_edit fl al cf ls ls s s'); try done.
    + apply Forall_forall. intros b Hb. destruct (decide (b = a)) as [->|Hne].
      * exists h. split; [done|]. destruct Hok. constructor; try done.
        -- intros _. split; [destruct (proj1 (k_pkthdr Hp)) as [w Hw]|destruct (proj2 (k_pkthdr Hp)) as [w Hw]];
             destruct Ho as [-> | ->]; eauto; exists w; apply LO; (done || lia).
        -- intros He. destruct (k_ext He) as (e & f & n & ? & ? & ? & St & ? & ?). exists e, f, n.
           split_and!; try done; try (apply LO; [lia|lia|done|done]). by eapply storage_same.
      * destruct (Q b Hb Hne) as (? & ? & _). apply (well_same s s'); try done. by apply i_live.
    + intros b Hb. destruct (decide (b = a)) as [->|Hne]; [|destruct (Q b Hb Hne) as (? & ? & _); by apply ext_at_same].
      unfold ext_at. cbn [st_mbuf s' s_cells]. rewrite Hh. destruct (has _ _); [|done].
      f_equal. rewrite Ex; [done|]. places.
  - intros b Hb. destruct (decide (b = a)) as [->|Hne]; [done|]. by apply Q.
Qed.

(** The packet length, for a head that carries a packet header, is the data's length. *)
Definition exact_length (s : mst) (a : Z) (n : Z) : Prop :=
  forall h, st_mbuf s !! a = Some h -> has (m_flags h) M_PKTHDR = true -> long_at (st_cells s) (pkthdr_len a) n.

Lemma inv_disjoint l ls s a : Inv (l :: ls) s -> a ∈ l -> a ∉ live ls s.
Proof.
  intros (fl & al & cf & []) Ha Hb. apply NoDup_app in i_nodup as (_ & _ & H). unfold live in *. simpl in H.
  rewrite <- app_assoc in H. apply NoDup_app in H as (_ & H & _). by apply (H a).
Qed.

Lemma reshaped_quiet l ls s s' : Inv (l :: ls) s -> reshaped l s s' -> quiet s s' (live ls s).
Proof.
  intros I R b Hb. assert (Nb : b ∉ l) by (intros H; by apply (inv_disjoint _ _ _ _ I H)).
  split_and!; [by apply R|intros x _; by rewrite (rs_cells _ _ _ R)|by apply (reshaped_window l)].
Qed.

(** What a store into the packet header of [a], the head of a chain, leaves. *)
Definition relabelled (l : list Z) (ls : list (list Z)) (a n : Z) (s s' : mst) : Prop :=
  Inv (l :: ls) s' /\ data s' l = data s l /\ exact_length s' a n /\ quiet s s' (live ls s) /\
  st_mbuf s' = st_mbuf s /\ st_elsewhere s' = st_elsewhere s /\ st_pool s' = st_pool s.

Lemma relabel_store r ls s a h n Q :
  Inv ((a :: r) :: ls) s -> st_mbuf s !! a = Some h -> has (m_flags h) M_PKTHDR = true ->
  (forall s', relabelled (a :: r) ls a n s s' -> Q tt s') -> wpm (store32 (pkthdr_len a) n) Q s.
Proof.
  intros I Hh Hp HQ. assert (Ha : a ∈ live ((a :: r) :: ls) s) by (unfold live; simpl; set_solver).
  destruct (inv_pkthdr _ s a h 24 n I Ha Hh Hp ltac:(by right)) as (I' & W & Sn & L & _).
  apply wpm_store32; [eapply mapped_sub; [apply (inv_mapped _ _ _ I Ha)|places..]|].
  apply HQ. split_and!; try done.
  - unfold data. f_equal. apply map_ext_in. intros b Hb. apply W. eapply elem_of_live; [by apply elem_of_cons; left|by apply list_elem_of_In].
  - by intros k _ _.
  - intros b Hb. apply Sn; [unfold live in *; simpl; set_solver|]. intros ->. by apply (inv_disjoint _ _ _ a I); [apply elem_of_cons; left|].
Qed.

Lemma relabel_none r ls s a h n :
  Inv ((a :: r) :: ls) s -> st_mbuf s !! a = Some h -> has (m_flags h) M_PKTHDR = false -> relabelled (a :: r) ls a n s s.
Proof. intros I Hh Hp. split_and!; try done. intros h' Hh' Hp'. congruence. Qed.

Lemma wpm_pktlen r ls s a n :
  Inv ((a :: r) :: ls) s ->
  wpm (h ← mb a; if has (m_flags h) M_PKTHDR then store32 (pkthdr_len a) n else mret tt)
    (fun _ s' => relabelled (a :: r) ls a n s s') s.
Proof.
  intros I. destruct (inv_well _ s a I) as (h & Hh & _); [unfold live; simpl; set_solver|].
  apply wpm_bind, (wpm_mb _ h); [done|]. destruct (has _ _) eqn:Hp.
  - by eapply relabel_store.
  - apply wpm_ret. by eapply relabel_none.
Qed.

Lemma wpm_pktlen_if r ls s a v f :
  Inv ((a :: r) :: ls) s -> exact_length s a v ->
  wpm (pkthdr_len_if a f) (fun _ s' => relabelled (a :: r) ls a (f v) s s') s.
Proof.
  intros I E. destruct (inv_well _ s a I) as (h & Hh & _); [unfold live; simpl; set_solver|].
  unfold pkthdr_len_if. apply wpm_bind, (wpm_mb _ h); [done|]. destruct (has _ _) eqn:Hp.
  - apply wpm_bind, (wpm_load32 _ v); [by eapply E|]. by eapply relabel_store.
  - apply wpm_ret. by eapply relabel_none.
Qed.

Lemma exact_reshaped K s s' a n : reshaped K s s' -> exact_length s a n -> exact_length s' a n.
Proof.
  intros R E h' Hh' Hp. rewrite (rs_cells _ _ _ R). pose proof (rs_flags _ _ _ R a) as Ef. rewrite Hh' in Ef.
  destruct (st_mbuf s !! a) as [h|] eqn:Hh; [|done]. simpl in Ef. injection Ef as Ef. eapply E; [exact Hh|]. by rewrite <- Ef.
Qed.

Definition trimmed {A} (req : Z) (d : list A) : list A :=
  if 0 <=? req then drop (Z.to_nat req) d else take (Z.to_nat (Z.of_nat (length d) + req)) d.

Lemma adj_spec l ls s req :
  Inv (l :: ls) s -> l <> [] -> - 2 ^ 31 <= req < 2 ^ 31 -> Z.of_nat (length (data s l)) < 2 ^ 31 ->
  exact_length s (hd 0 l) (Z.of_nat (length (data s l))) ->
  wpm (ami_mbuf_adj (hd 0 l) req) (fun r s' => r = 0 /\ Inv (l :: ls) s' /\ data s' l = trimmed req (data s l) /\
    exact_length s' (hd 0 l) (Z.of_nat (length (data s' l))) /\ quiet s s' (live ls s)) s.
Proof.
  intros I Hne Hr Hm E. destruct l as [|a r]; [done|]. cbn [hd] in *.
  pose proof (chain_head _ _ _ I) as H0. cbn [hd] in H0. unfold ami_mbuf_adj.
  rewrite (proj2 (Z.eqb_neq a 0)) by (intros H; by apply H0 in H). apply wpm_bind, wpm_asks.
  pose proof (chain_short _ _ _ I) as Hs.
  assert (FIN : forall s1 s2 n d, reshaped (a :: r) s s1 -> data s1 (a :: r) = d -> relabelled (a :: r) ls a n s1 s2 ->
    n = Z.of_nat (length d) -> d = trimmed req (data s (a :: r)) ->
    Inv ((a :: r) :: ls) s2 /\ data s2 (a :: r) = trimmed req (data s (a :: r)) /\
    exact_length s2 a (Z.of_nat (length (data s2 (a :: r)))) /\ quiet s s2 (live ls s)).
  { intros s1 s2 n d R D (I2 & D2 & E2 & Q2 & _) Hn Hd. rewrite D2, D. split_and!; [done|done|by rewrite <- Hn|].
    eapply quiet_trans; [by eapply reshaped_quiet|]. unfold live in *. by rewrite (rs_elsewhere _ _ _ R) in Q2. }
  unfold trimmed in *. destruct (Z.leb_spec 0 req) as [Hp|Hp].
  - eapply wpm_then; [apply (adj_front_walk _ [] (a :: r) ls s req I Hs); lia|]. intros rem s1 (I1 & R1 & D1 & ->).
    eapply wpm_then; [apply (wpm_pktlen_if r ls s1 a (Z.of_nat (length (data s (a :: r)))) _ I1); by eapply exact_reshaped|].
    intros [] s2 L2. apply wpm_ret. split; [done|]. eapply FIN; try done.
    rewrite length_drop. rewrite !s32_small by (rewrite ?s32_small by lia; lia). lia.
  - destruct (Z.eqb_spec (u32 req) 2147483648) as [Hmin|Hmin].
    + assert (req = - 2 ^ 31) as -> by word_lia.
      eapply wpm_then; [apply (adj_clear_walk _ [] (a :: r) ls s I Hs)|]. intros [] s1 (I1 & R1 & D1).
      eapply wpm_then; [apply (wpm_pktlen r ls s1 a 0 I1)|]. intros [] s2 L2. apply wpm_ret. split; [done|]. eapply FIN; try done.
      rewrite Z2Nat.nonpos by lia. by rewrite take_0.
    + apply wpm_bind. eexists _, s. split; [apply (adj_total_walk s _ (a :: r)); [by apply (inv_chain (a :: r) ls)|done|lia|done]|].
      rewrite Z.add_0_l. set (N := Z.of_nat _) in *.
      assert (Ek : (if s32 (N - - req) <? 0 then 0 else s32 (N - - req)) = Z.max 0 (N + req)).
      { assert (s32 (N - - req) = N + req) as ->; [|destruct (Z.ltb_spec (N + req) 0); lia].
        destruct (Z.leb_spec 0 (N + req)); [rewrite s32_small; lia|]. unfold s32, sext. bcases; word_lia. }
      cbv zeta. rewrite Ek. eapply wpm_then; [apply (wpm_pktlen r ls s a _ I)|]. intros [] s1 (I1 & D1 & E1 & Q1 & M1 & X1 & _).
      eapply wpm_then; [apply (adj_keep_walk _ [] (a :: r) ls s1 _ I1); [done|lia]|]. intros [] s2 (I2 & R2 & D2).
      apply wpm_ret. assert (ED : data s2 (a :: r) = take (Z.to_nat (N + req)) (data s (a :: r))).
      { rewrite D2, D1. f_equal. lia. }
      split_and!; [done|done|done| |].
      * rewrite ED, length_take. replace (Z.of_nat _) with (Z.max 0 (N + req)) by lia. by eapply exact_reshaped.
      * eapply quiet_trans; [exact Q1|]. pose proof (reshaped_quiet _ _ _ _ I1 R2) as Q2. unfold live in *. by rewrite X1 in Q2.
Qed.
