(* ===== verification/MbufJoin.v ===== *)
(** * Joining chains

    [ami_mbuf_cat], [ami_mbuf_prepend] and [ami_mbuf_pullup]: chains are relinked and
    their data moved between mbufs, and the data of the result is the data that went
    in. *)

From Stdlib Require Import ZArith Lia.
From stdpp Require Import base numbers list gmap.
From S2P Require Import Prelude.
From S2P Require Import MbufAlloc.
From S2P Require Import MbufCode.
From S2P Require Import MbufInv.
From S2P Require Import MbufFree.
From S2P Require Import MbufGet.
From S2P Require Import MbufChain.

#[local] Set Warnings "-clear-no-such-hyp".

(** ** Rearranging chains *)

Lemma inv_perm ls ls' s : ls ≡ₚ ls' -> Inv ls s -> Inv ls' s.
Proof.
  intros P (fl & al & cf & I). exists fl, al, cf. pose proof I as [].
  assert (PL : concat ls' ++ st_elsewhere s ≡ₚ live ls s).
  { unfold live. f_equiv. clear -P. induction P; simpl; [done|by f_equiv| |by etrans]. by rewrite !app_assoc, (Permutation_app_comm y x). }
  eapply (inv_edit fl al cf ls ls' s s); try done.
  - by rewrite <- P.
  - unfold live at 1. by rewrite PL.
Qed.

Lemma inv_swap l k ls s : Inv (l :: k :: ls) s -> Inv (k :: l :: ls) s.
Proof. apply inv_perm, Permutation_swap. Qed.

Lemma linked_append next next' pre m k : forall p,
  linked next p (pre ++ [m]) -> (forall a, a ∈ pre -> next' a = next a) -> next' m = Some (hd 0 k) ->
  linked next' (hd 0 k) k -> linked next' p (pre ++ m :: k).
Proof.
  induction pre as [|x pre IH]; intros p Hl Hn Hm Hk.
  - destruct Hl as (-> & H0 & _). split_and!; [done|done|]. by exists (hd 0 k).
  - destruct Hl as (-> & H0 & q & E & Hl). split_and!; [done|done|]. exists q. split; [rewrite Hn by set_solver; done|].
    apply IH; try done. intros a Ha. apply Hn. set_solver.
Qed.

(** Two chains become one. *)
Lemma inv_link pre m k ls s h :
  Inv ((pre ++ [m]) :: k :: ls) s -> st_mbuf s !! m = Some h ->
  let s' := s_mbuf (<[m := w_next (hd 0 k) h]> (st_mbuf s)) s in
  Inv ((pre ++ m :: k) :: ls) s' /\ data s' (pre ++ m :: k) = data s (pre ++ [m]) ++ data s k /\ quiet s s' (live ls s).
Proof.
  intros I0 Hh s'. pose proof I0 as (fl & al & cf & I). pose proof I as [].
  assert (Emb : forall b, b <> m -> st_mbuf s' !! b = st_mbuf s !! b) by (intros b Hb; by apply lookup_insert_ne).
  assert (Ea : st_mbuf s' !! m = Some (w_next (hd 0 k) h)) by apply lookup_insert_eq.
  assert (EN : forall b, b <> m -> mnext s' b = mnext s b) by (intros b Hb; unfold mnext; by rewrite Emb).
  assert (W : forall b, window s' b = window s b).
  { intros b. unfold window. destruct (decide (b = m)) as [->|]; [by rewrite Ea, Hh|by rewrite Emb]. }
  assert (SP : same_places s s').
  { split_and!; [|done|done]. intros b. destruct (decide (b = m)) as [->|]; [rewrite Ea, Hh; by split|by rewrite Emb]. }
  assert (EL : live ((pre ++ m :: k) :: ls) s' = live ((pre ++ [m]) :: k :: ls) s).
  { unfold live. simpl. by rewrite <- !app_assoc. }
  assert (ND : NoDup (fl ++ pre ++ [m] ++ k ++ live ls s)).
  { revert i_nodup. unfold live. simpl. by rewrite <- !app_assoc. }
  assert (Nm : (m ∉ fl) /\ (m ∉ pre) /\ (m ∉ k) /\ (m ∉ live ls s)).
  { clear -ND. rewrite !NoDup_app in ND. set_solver. }
  rewrite !Forall_cons in i_chains. destruct i_chains as (C1 & C2 & C3).
  assert (Hhd : hd 0 (pre ++ [m]) = hd 0 (pre ++ m :: k)) by (by destruct pre).
  split_and!.
  - exists fl, al, cf. eapply (inv_edit fl al cf _ _ s s'); try done.
    + by rewrite <- EL.
    + intros a Ha. apply EN. intros ->. by apply (proj1 Nm).
    + constructor.
      * rewrite <- Hhd. eapply linked_append; [exact C1| | |].
        -- intros a Ha. apply EN. intros ->. by apply (proj1 (proj2 Nm)).
        -- unfold mnext. by rewrite Ea.
        -- eapply linked_ext; [|exact C2]. intros a Ha. apply EN. intros ->. by apply (proj1 (proj2 (proj2 Nm))).
      * rewrite Forall_forall in C3 |- *. intros l Hl. eapply linked_ext; [|by apply C3]. intros a Ha. apply EN. intros ->.
        apply (proj2 (proj2 (proj2 Nm))). by eapply elem_of_live.
    + rewrite EL. rewrite Forall_forall in i_live |- *. intros b Hb. destruct (i_live b Hb) as (hb & Hhb & Hok).
      destruct (decide (b = m)) as [->|Hne]; [|apply (well_same s s'); [done|by apply Emb|done|by exists hb]].
      rewrite Hh in Hhb. injection Hhb as <-. exists (w_next (hd 0 k) h). split; [done|]. destruct Hok. constructor; try done.
      intros He. destruct (k_ext He) as (e & f & n & ? & ? & ? & St & ? & ?). exists e, f, n. split_and!; try done. by eapply storage_same.
    + intros a _. unfold ext_at. destruct (decide (a = m)) as [->|]; [by rewrite Ea, Hh|by rewrite Emb].
  - replace (pre ++ m :: k) with ((pre ++ [m]) ++ k) by (by rewrite <- app_assoc).
    rewrite data_app. unfold data. f_equal; f_equal; apply map_ext_in; intros; apply W.
  - intros b Hb. split_and!; [apply Emb; intros ->; by apply (proj2 (proj2 (proj2 Nm)))|done|apply W].
Qed.

(** Data into the storage of an mbuf of our own. *)
Lemma inv_fill ls s m h h' p c :
  Inv ls s -> m ∈ live ls s -> st_mbuf s !! m = Some h -> has (m_flags h) M_EXT = false ->
  m_next h' = m_next h -> m_flags h' = m_flags h -> 0 <= m_len h' -> AMI_MBUF_BASE m h <= m_data h' ->
  m_data h' + m_len h' <= AMI_MBUF_END m -> AMI_MBUF_BASE m h <= p -> p + Z.of_nat (length c) <= AMI_MBUF_END m ->
  let s' := s_mbuf (<[m := h']> (st_mbuf s)) (s_cells (poke (st_cells s) p c) s) in
  Inv ls s' /\ (forall b, b ∈ live ls s -> b <> m -> seen_same s s' b) /\
  (forall n, exact_length s m n -> exact_length s' m n).
Proof.
  intros (fl & al & cf & I) Hm Hh He En Ef H1 H2 H3 H4 H5 s'. pose proof I as [].
  assert (Ex : forall x, ~ (p <= x < p + Z.of_nat (length c)) -> st_cells s' !! x = st_cells s !! x) by (intros x Hx; apply poke_out; lia).
  assert (Emb : forall b, b <> m -> st_mbuf s' !! b = st_mbuf s !! b) by (intros b Hb; by apply lookup_insert_ne).
  assert (Ea : st_mbuf s' !! m = Some h') by apply lookup_insert_eq.
  assert (EN : forall b, mnext s' b = mnext s b).
  { intros b. unfold mnext. destruct (decide (b = m)) as [->|]; [rewrite Ea, Hh; simpl; by rewrite En|by rewrite Emb]. }
  assert (SP : same_places s s').
  { split_and!; [|done|].
    - intros b. destruct (decide (b = m)) as [->|]; [rewrite Ea, Hh; by split|by rewrite Emb].
    - intros x Hx. cbn [s' s_mbuf s_cells st_cells]. rewrite poke_lookup. destruct (decide _); [apply lookup_lt_is_Some_2; lia|done]. }
  rewrite Forall_forall in i_live. destruct (i_live m Hm) as (h0 & Hh0 & Hok). rewrite Hh in Hh0. injection Hh0 as <-.
  assert (Q : forall b, b ∈ live ls s -> b <> m -> seen_same s s' b).
  { intros b Hb Hne. apply (window_other s s' m b); [done|eauto|done|by apply i_live|by apply Emb|].
    intros x Hx. apply Ex. places. }
  assert (LA : has (m_flags h) M_PKTHDR = true -> forall o w, 20 <= o <= 24 -> long_at (st_cells s) (m + o) w -> long_at (st_cells s') (m + o) w).
  { intros Hp o w Ho. apply long_at_ext. intros x Hx. apply Ex. unfold AMI_MBUF_BASE in H4. rewrite Hp in H4. places. }
  split_and!; [|done|].
  - exists fl, al, cf. eapply (inv_edit fl al cf ls ls s s'); try done.
    + rewrite Forall_forall in i_chains |- *. intros l Hl. eapply linked_ext; [|by apply i_chains]. done.
    + apply Forall_forall. intros b Hb. destruct (decide (b = m)) as [->|Hne].
      * exists h'. split; [done|]. destruct Hok. constructor; rewrite ?Ef; try done.
        -- unfold AMI_MBUF_END, AMI_MBUF_BASE in *. places.
        -- intros Hp. destruct (k_pkthdr Hp) as [[r Hr] [v Hv]]. split; [exists r|exists v]; apply LA; done.
        -- congruence.
        -- intros _. unfold AMI_MBUF_BASE in *. rewrite Ef. done.
      * destruct (Q b Hb Hne) as (? & ? & _). apply (well_same s s'); try done. by apply i_live.
    + intros b Hb. destruct (decide (b = m)) as [->|Hne]; [|destruct (Q b Hb Hne) as (? & ? & _); by apply ext_at_same].
      unfold ext_at. rewrite Ea, Hh, Ef, He. done.
  - intros n E k Hk Hp. rewrite Ea in Hk. injection Hk as <-. rewrite Ef in Hp. apply (LA Hp 24); [lia|]. by eapply E.
Qed.

(** ** ami_mbuf_cat *)

Lemma last_of_walk s : forall fuel l p m,
  chain s p (l ++ [m]) -> (length l <= fuel)%nat -> last_of fuel p s = Val (m, s).
Proof.
  induction fuel as [|fuel IH]; intros l p m Hc Hf.
  - destruct l; [|simpl in Hf; lia]. destruct (chain_step _ _ _ Hc) as [[_ ?]|(h & k & [= -> <-] & _ & Hh & [Hk _] & _)]; [done|].
    simpl in Hk. cbn [last_of]. unfold mbind, MB_bind, mb. rewrite Hh, Hk. done.
  - destruct (chain_step _ _ _ Hc) as [[_ ?]|(h & k & E & _ & Hh & Hk & _)]; [by destruct l|].
    cbn [last_of]. unfold mbind, MB_bind, mb. rewrite Hh. destruct l as [|x l].
    + injection E as <- <-. destruct Hk as [Hk _]. simpl in Hk. rewrite Hk. done.
    + injection E as <- <-. pose proof (proj1 Hk) as Hk1. destruct (Z.eqb_spec (m_next h) 0) as [E0|E0].
      { apply linked_null in Hk1; [|done]. by destruct l. }
      apply (IH l); [done|simpl in Hf; lia].
Qed.

Lemma inv_move_tail pre m n k ls s hm hn :
  Inv ((pre ++ [m]) :: (n :: k) :: ls) s -> st_mbuf s !! m = Some hm -> st_mbuf s !! n = Some hn ->
  has (m_flags hm) M_EXT = false -> m_data hm + m_len hm + m_len hn <= AMI_MBUF_END m ->
  wpm (if 0 <? m_len hn then
         _ ← ami_mbuf_copy_bytes (m_data hm + m_len hm) (m_data hn) (m_len hn);
         set_mb m (fun h => w_len (s32 (m_len h + m_len hn)) h)
       else mret tt)
    (fun _ s' => Inv ((pre ++ [m]) :: (n :: k) :: ls) s' /\ data s' (pre ++ [m]) = data s (pre ++ [m]) ++ window s n /\
       data s' k = data s k /\ quiet s s' (live ls s) /\ st_elsewhere s' = st_elsewhere s /\
       size (st_mbuf s') = size (st_mbuf s)) s.
Proof.
  intros I Hm Hn He Hfit.
  assert (Lm : m ∈ live ((pre ++ [m]) :: (n :: k) :: ls) s) by (unfold live; simpl; set_solver).
  assert (Ln : n ∈ live ((pre ++ [m]) :: (n :: k) :: ls) s) by (unfold live; simpl; set_solver).
  assert (Hne : n <> m).
  { intros ->. apply (inv_disjoint _ _ _ m I); unfold live; simpl; set_solver. }
  destruct (inv_well _ _ _ I Lm) as (hm' & Hm' & Okm). rewrite Hm in Hm'. injection Hm' as <-.
  destruct (inv_well _ _ _ I Ln) as (hn' & Hn' & Okn). rewrite Hn in Hn'. injection Hn' as <-.
  pose proof (k_len _ _ _ Okm). pose proof (k_len _ _ _ Okn). destruct (k_int _ _ _ Okm He) as [Hb1 Hb2].
  pose proof (inv_mapped _ _ _ I Lm) as [Mm M0].
  destruct (Z.ltb_spec 0 (m_len hn)) as [Hp|Hp].
  2: { apply wpm_ret. split_and!; try done. unfold window. rewrite Hn. replace (m_len hn) with 0 by lia. simpl. by rewrite app_nil_r. }
  assert (Hsrc : forall x, m_data hn <= x < m_data hn + m_len hn -> is_Some (st_cells s !! x) /\ ~ (m <= x < m + MSIZE)).
  { intros x Hx. split.
    - pose proof (reads_reach _ _ _ x I Ln ltac:(by exists hn)) as Hr. destruct I as (fl & al & cf & I). by eapply reach_mapped.
    - destruct I as (fl & al & cf & I). eapply window_apart; [apply I|eauto|done|exact Hn|exact Okn|done]. }
  set (c := peek (st_cells s) (m_data hn) (Z.to_nat (m_len hn))). assert (Hc : Z.of_nat (length c) = m_len hn) by (unfold c; rewrite peek_length; lia).
  apply wpm_bind, wpm_copy_bytes; [lia| | | |].
  { intros x Hx. by apply Hsrc. }
  { eapply mapped_sub; [exact Mm|places..]. }
  { apply apart_intervals; [done|done|]. intros x Hx1 Hx2. destruct (Hsrc x Hx2). places. }
  fold c. eapply wpm_set_mb; [exact Hm|]. rewrite s32_small by places.
  destruct (inv_fill _ s m hm (w_len (m_len hm + m_len hn) hm) (m_data hm + m_len hm) c I Lm Hm He) as (I' & Q & _); try done; [simpl; lia| |lia|lia|].
  { simpl. lia. }
  match goal with |- Inv _ ?t /\ _ => set (s' := t) in * end.
  assert (Wm : window s' m = window s m ++ window s n).
  { unfold window. rewrite Hm, Hn. cbn [s' st_mbuf s_mbuf s_cells st_cells]. rewrite lookup_insert_eq. cbn [w_len m_data m_len].
    rewrite Z2Nat.inj_add by lia. rewrite peek_app. fold c. rewrite Z2Nat.id by lia. f_equal.
    - apply peek_poke_out. lia.
    - replace (Z.to_nat (m_len hn)) with (length c) by lia. apply peek_poke. }
  assert (Wo : forall b, b ∈ live ((pre ++ [m]) :: (n :: k) :: ls) s -> b <> m -> window s' b = window s b) by (intros b Hb Hbm; by apply Q).
  pose proof I as I1. destruct I1 as (fl & al & cf & [_ _ _ _ _ _ ND _ _ _ _ _ _ _ _ _ _ _]). apply NoDup_app in ND as (_ & _ & ND).
  unfold live in ND. simpl in ND. rewrite <- !app_assoc in ND. apply NoDup_app in ND as (_ & Np & ND). simpl in ND. apply NoDup_cons in ND as [Nm _].
  assert (WD : forall l, (forall b, b ∈ l -> b ∈ live ((pre ++ [m]) :: (n :: k) :: ls) s /\ b <> m) -> data s' l = data s l).
  { intros l Hl. unfold data. f_equal. apply map_ext_in. intros b Hb. apply list_elem_of_In, Hl in Hb as [? ?]. by apply Wo. }
  split_and!; [exact I'| | | |done|].
  - rewrite !data_app, !data_one, Wm, WD; [by rewrite <- app_assoc|].
    intros b Hb. split; [clear -Hb; unfold live; simpl; set_solver|]. intros ->. apply (Np m Hb). by apply elem_of_cons; left.
  - apply WD. intros b Hb. split; [clear -Hb; unfold live; simpl; set_solver|]. intros ->. apply Nm. clear -Hb. set_solver.
  - intros b Hb. apply Q; [clear -Hb; unfold live in *; simpl; set_solver|]. intros ->. apply Nm. clear -Hb. unfold live in Hb. set_solver.
  - cbn [s' st_mbuf s_mbuf s_cells]. rewrite map_size_insert, Hm. done.
Qed.

Lemma live_elsewhere ls s s' : st_elsewhere s' = st_elsewhere s -> live ls s' = live ls s.
Proof. intros E. unfold live. by rewrite E. Qed.

Lemma cat_walk fuel : forall pre m k ls s,
  Inv ((pre ++ [m]) :: k :: ls) s -> (length k <= fuel)%nat ->
  wpm (cat_from fuel m (hd 0 k)) (fun r s' => r = 0 /\ exists k',
    Inv ((pre ++ m :: k') :: ls) s' /\ data s' (pre ++ m :: k') = data s (pre ++ [m]) ++ data s k /\
    quiet s s' (live ls s)) s.
Proof.
  induction fuel as [|fuel IH]; intros pre m k ls s I Hf.
  all: destruct (inv_well _ s m I) as (hm & Hm & Okm); [unfold live; simpl; clear; set_solver|].
  all: assert (LINK : forall k', Inv ((pre ++ [m]) :: k' :: ls) s ->
    wpm (_ ← set_mb m (w_next (hd 0 k')); mret 0) (fun r s' => r = 0 /\ exists k'',
      Inv ((pre ++ m :: k'') :: ls) s' /\ data s' (pre ++ m :: k'') = data s (pre ++ [m]) ++ data s k' /\ quiet s s' (live ls s)) s)
    by (intros k' I'; apply wpm_bind; eapply wpm_set_mb; [exact Hm|]; apply wpm_ret; split; [done|]; exists k'; by apply (inv_link pre m k' ls s hm)).
  all: destruct k as [|n k]; [exact (LINK [] I)|].
  all: try (simpl in Hf; lia).
  destruct (inv_well _ s n I) as (hn & Hn & Okn); [unfold live; simpl; clear; set_solver|].
  assert (Hn0 : n <> 0).
  { intros E. pose proof (proj1 (chain_head _ _ _ (inv_swap _ _ _ _ I))) as H. specialize (H E). done. }
  cbn [cat_from hd]. rewrite (proj2 (Z.eqb_neq n 0)) by done.
  apply wpm_bind, (wpm_mb _ hm); [done|]. apply wpm_bind, (wpm_mb _ hn); [done|].
  destruct (has (m_flags hm) M_EXT) eqn:He; cbn [orb].
  { exact (LINK (n :: k) I). }
  destruct (Z.ltb_spec (AMI_MBUF_END m) (m_data hm + m_len hm + m_len hn)) as [Hbig|Hfit].
  { exact (LINK (n :: k) I). }
  eapply wpm_then; [by apply (inv_move_tail pre m n k ls s hm hn I)|]. intros [] s1 (I1 & D1 & D1' & Q1 & E1 & _).
  eapply wpm_then; [apply (free_spec n k ((pre ++ [m]) :: ls)); by apply inv_swap|].
  intros r s2 (-> & I2 & Q2 & E2). eapply wpm_mono; [apply (IH pre m k ls s2); [by apply inv_swap|simpl in Hf; lia]|].
  intros r s3 (-> & k' & I3 & D3 & Q3). split; [done|]. exists k'. split_and!; [done| |].
  - assert (Dpre : data s2 (pre ++ [m]) = data s1 (pre ++ [m])).
    { apply quiet_data. eapply quiet_sub; [exact Q2|]. clear. unfold live; simpl. set_solver. }
    assert (Dk : data s2 k = data s1 k).
    { apply quiet_data. eapply quiet_sub; [exact Q2|]. clear. unfold live; simpl. set_solver. }
    by rewrite D3, Dpre, Dk, D1, D1', data_cons, <- app_assoc.
  - eapply quiet_trans; [exact Q1|]. rewrite <- (live_elsewhere ls s s1) in * by done. eapply quiet_trans.
    + eapply quiet_sub; [exact Q2|]. clear. unfold live; simpl. set_solver.
    + by rewrite (live_elsewhere ls s1 s2) in Q3.
Qed.

Lemma cat_spec l k ls s :
  Inv (l :: k :: ls) s -> l <> [] -> k <> [] ->
  wpm (ami_mbuf_cat (hd 0 l) (hd 0 k)) (fun r s' => r = 0 /\ exists l',
    hd 0 l' = hd 0 l /\ Inv (l' :: ls) s' /\ data s' l' = data s l ++ data s k /\ quiet s s' (live ls s)) s.
Proof.
  intros I Hl Hk. unfold ami_mbuf_cat.
  assert (H1 : hd 0 l <> 0) by (intros H; by apply (chain_head _ _ _ I) in H).
  pose proof (inv_swap _ _ _ _ I) as Is. assert (H2 : hd 0 k <> 0) by (intros H; by apply (chain_head _ _ _ Is) in H).
  rewrite (proj2 (Z.eqb_neq _ 0)) by done. rewrite (proj2 (Z.eqb_neq (hd 0 k) 0)) by done. cbn [orb].
  apply wpm_bind, wpm_asks. pose proof (chain_short _ _ _ I) as S1. pose proof (chain_short _ _ _ Is) as S2.
  destruct (exists_last Hl) as (pre & m & ->). rewrite length_app in S1. simpl in S1.
  apply wpm_bind. exists m, s. split; [apply (last_of_walk s _ pre); [by apply (inv_chain _ (k :: ls))|lia]|].
  eapply wpm_mono; [by apply (cat_walk _ pre m k ls s)|]. intros r s' (-> & k' & I' & D' & Q'). split; [done|].
  exists (pre ++ m :: k'). split_and!; try done. by destruct pre.
Qed.

(** ** Storage of one's own *)

(** No mbuf but [a] reads the [n] bytes at [p]. *)
Definition private (ls : list (list Z)) (s : mst) (a p n : Z) : Prop :=
  forall b x, b ∈ live ls s -> b <> a -> reads s b x -> ~ (p <= x < p + n).

Lemma private_internal ls s a p n :
  Inv ls s -> a ∈ live ls s -> a <= p -> p + n <= a + MSIZE -> private ls s a p n.
Proof.
  intros I Ha H1 H2 b x Hb Hne (h & Hh & Hx) Hp. destruct (inv_well _ _ _ I Hb) as (h' & Hh' & Hok).
  rewrite Hh in Hh'. injection Hh' as <-. destruct (inv_well _ _ _ I Ha) as (ha & Hha & _). destruct I as (fl & al & cf & I).
  eapply (window_apart s a b); [apply I|eauto|done|exact Hh|exact Hok|exact Hx|]. lia.
Qed.

Lemma two_refs s L a b c :
  a ∈ L -> b ∈ L -> a <> b -> ext_at s a = Some (AMI_CLUSTER_DATA c) -> ext_at s b = Some (AMI_CLUSTER_DATA c) ->
  (2 <= refs s L c)%nat.
Proof.
  intros Ha Hb Hne Ea Eb. unfold refs. change 2%nat with (length [a; b]). apply submseteq_length, NoDup_submseteq.
  - repeat constructor; set_solver.
  - intros x Hx. apply list_elem_of_filter. apply elem_of_cons in Hx as [->|Hx]; [done|]. apply list_elem_of_singleton in Hx as ->. done.
Qed.

Lemma private_cluster ls s a c k :
  Inv ls s -> a ∈ live ls s -> ext_at s a = Some (AMI_CLUSTER_DATA c) -> st_cluster s !! c = Some k -> refcnt k = 1 ->
  private ls s a c CLUSTER_BYTES.
Proof.
  intros I0 Ha Ea Hk Hr b x Hb Hne (h & Hh & Hx) Hp. destruct (inv_well _ _ _ I0 Hb) as (h' & Hh' & Hok).
  rewrite Hh in Hh'. injection Hh' as <-. destruct I0 as (fl & al & cf & []). destruct (has (m_flags h) M_EXT) eqn:He.
  - destruct (k_ext _ _ _ Hok He) as (e & f & n & L1 & _ & _ & [(-> & c' & -> & Hc')|(_ & _ & _ & _ & F)] & R).
    + destruct (decide (c' = c)) as [->|Hcc].
      * pose proof (two_refs s (live ls s) a b c Ha Hb ltac:(done) Ea (ext_at_long s b h _ Hh He L1)).
        destruct (i_refs c k Hk) as [E _]. lia.
      * pose proof (g_cluster_cluster s i_geom c c' ltac:(eauto) Hc' ltac:(done)). places.
    + pose proof (F c ltac:(eauto)). lia.
  - destruct (k_int _ _ _ Hok He). pose proof (g_mbuf_cluster s i_geom b c ltac:(eauto) ltac:(eauto)). places.
Qed.

(** What [ami_mbuf_span] says: the mbuf's storage, when nobody else reads it. *)
Lemma span_spec ls s a h :
  Inv ls s -> a ∈ live ls s -> st_mbuf s !! a = Some h ->
  wpm (ami_mbuf_span a) (fun r s' => s' = s /\
    match r with
    | None => True
    | Some (base, e) => base <= m_data h /\ m_data h + m_len h <= e /\ private ls s a base (e - base) /\
        (forall h', m_next h' = m_next h -> m_flags h' = m_flags h -> 0 <= m_len h' < 2 ^ 31 -> base <= m_data h' ->
           m_data h' + m_len h' <= e -> mok s a h')
    end) s.
Proof.
  intros I Ha Hh. destruct (inv_well _ _ _ I Ha) as (h' & Hh' & Hok). rewrite Hh in Hh'. injection Hh' as <-.
  unfold ami_mbuf_span. apply wpm_bind, (wpm_mb _ h); [done|]. destruct (has (m_flags h) M_EXT) eqn:He.
  - destruct (k_ext _ _ _ Hok He) as (b & f & n & L1 & L2 & L3 & St & R).
    apply wpm_bind, (wpm_load32 _ b); [done|]. apply wpm_bind. pose proof I as (fl & al & cf & I').
    eapply wpm_cluster_of_inv; [exact I'|done|done|]. intros c H1 H2. destruct (Z.eqb_spec c 0) as [->|Hc]; cbn [negb].
    { apply wpm_bind, wpm_ret, wpm_ret. done. }
    destruct (H1 Hc) as [[k Hk] Eb]. apply wpm_bind, wpm_bind, (wpm_cl _ k); [done|]. apply wpm_ret.
    destruct (Z.eqb_spec (refcnt k) 1) as [Hr|Hr]; cbn [negb]; [|by apply wpm_ret].
    apply wpm_bind, (wpm_load32 _ n); [done|]. apply wpm_ret. split; [done|].
    assert (n = MCLBYTES) as ->.
    { destruct St as [(-> & _)|(_ & Hn & _ & _ & F)]; [done|]. specialize (F c ltac:(eauto)). subst b. exfalso. clear -F Hn. places. }
    split_and!; try lia.
    + intros x y Hx Hne Hrd Hy. eapply (private_cluster ls s a c k); try done.
      * by rewrite Eb; eapply ext_at_long.
      * subst b. places.
    + intros h' En Ef Hl Hd1 Hd2. destruct Hok. constructor; rewrite ?Ef; try done; [|congruence].
      intros _. exists b, f, MCLBYTES. split_and!; try done; lia.
  - apply wpm_ret. split; [done|]. destruct (k_int _ _ _ Hok He) as [B1 B2]. split_and!; try lia.
    + apply private_internal; try done; places.
    + intros h' En Ef Hl Hd1 Hd2. destruct Hok. constructor; rewrite ?Ef; try done; [congruence|].
      intros _. unfold AMI_MBUF_BASE in *. rewrite Ef. lia.
Qed.
