(* ===== verification/MbufPull.v ===== *)
(** * Room in front, and contiguous bytes

    [ami_mbuf_prepend] and [ami_mbuf_pullup].  Both may take a new head: the packet
    header moves to it ([move_pkthdr]) with the packet's length. *)

From Stdlib Require Import ZArith Lia.
From stdpp Require Import base numbers list gmap.
From S2P Require Import Prelude.
From S2P Require Import MbufAlloc.
From S2P Require Import MbufCode.
From S2P Require Import MbufInv.
From S2P Require Import MbufFree.
From S2P Require Import MbufGet.
From S2P Require Import MbufChain.
From S2P Require Import MbufJoin.

#[local] Set Warnings "-clear-no-such-hyp".

(** ** Flags *)

Lemma land_le a b : 0 <= a -> 0 <= Z.land a b <= a.
Proof.
  intros Ha. split; [apply Z.land_nonneg; by left|].
  assert (E : Z.ldiff (Z.land a b) a = 0) by (apply Z.bits_inj'; intros n _; rewrite Z.ldiff_spec, Z.land_spec, Z.bits_0; by destruct (Z.testbit a n), (Z.testbit b n)).
  pose proof (Z.sub_nocarry_ldiff a (Z.land a b) E). pose proof (proj2 (Z.ldiff_nonneg a (Z.land a b)) ltac:(by left)). lia.
Qed.

Lemma word_small z : 0 <= z < 2 ^ 15 -> word z = z.
Proof. intros H. unfold word, sext. bcases; word_lia. Qed.

Lemma has_lor f g b : has (Z.lor f g) b = has f b || has g b.
Proof.
  unfold has. rewrite Z.land_lor_distr_l. destruct (Z.eqb_spec (Z.land f b) 0) as [E|E].
  - by rewrite E, Z.lor_0_l.
  - cbn. rewrite (proj2 (Z.eqb_neq _ 0)); [done|]. intros H. by apply Z.lor_eq_0_iff in H as [? _].
Qed.
Lemma has_land f g b : has (Z.land f g) b = has f (Z.land g b).
Proof. unfold has. by rewrite Z.land_assoc. Qed.
Lemma has_0 f : has f 0 = false.
Proof. unfold has. by rewrite Z.land_0_r. Qed.

(** The header's flags after the packet header left, and the new head's after it came. *)
Lemma flags_without f : 0 <= f < 2 ^ 15 ->
  let g := word (Z.land f (Z.lnot M_PKTHDR)) in
  0 <= g < 2 ^ 15 /\ has g M_PKTHDR = false /\ has g M_EXT = has f M_EXT.
Proof.
  intros Hf. pose proof (land_le f (Z.lnot M_PKTHDR) ltac:(lia)). cbv zeta. rewrite word_small by lia. rewrite !has_land.
  split_and!; try lia; try done. apply has_0.
Qed.
Lemma flags_moved f : 0 <= f < 2 ^ 15 -> has f M_PKTHDR = true ->
  let g := word (Z.lor 0 (Z.land f M_COPYFLAGS)) in
  0 <= g < 2 ^ 15 /\ has g M_PKTHDR = true /\ has g M_EXT = false.
Proof.
  intros Hf Hp. pose proof (land_le f M_COPYFLAGS ltac:(lia)). cbv zeta. rewrite Z.lor_0_l, word_small by lia. rewrite !has_land.
  split_and!; try lia; try done. apply has_0.
Qed.

(** ** Moving the packet header *)

Lemma data_windows s s' l : (forall b, b ∈ l -> window s' b = window s b) -> data s' l = data s l.
Proof. intros H. unfold data. f_equal. apply map_ext_in. intros b Hb. by apply H, list_elem_of_In. Qed.

(** A fresh mbuf, empty. *)
Definition blank (s : mst) (m : Z) : Prop :=
  exists h, st_mbuf s !! m = Some h /\ m_next h = 0 /\ m_len h = 0 /\ has (m_flags h) M_EXT = false /\ m_data h = AMI_MBUF_BASE m h.

(** Headers of live mbufs and the packet header of one of them replaced at once. *)
Lemma inv_rehead ls s s' mn m h hn h' hn' n rc :
  Inv ls s -> mn ∈ live ls s -> m ∈ live ls s -> mn <> m -> st_mbuf s !! m = Some h -> st_mbuf s !! mn = Some hn ->
  st_mbuf s' = <[m := h']> (<[mn := hn']> (st_mbuf s)) ->
  st_cells s' = poke (poke (st_cells s) (pkthdr_rcvif mn) (frags rc)) (pkthdr_len mn) (frags n) ->
  st_cluster s' = st_cluster s -> st_pool s' = st_pool s -> st_elsewhere s' = st_elsewhere s ->
  m_next h' = m_next h -> m_data h' = m_data h -> m_len h' = m_len h -> 0 <= m_flags h' < 2 ^ 15 -> has (m_flags h') M_PKTHDR = false ->
  has (m_flags h') M_EXT = has (m_flags h) M_EXT ->
  m_next hn' = m_next hn -> m_len hn' = 0 -> m_data hn' = m_pktdat mn -> 0 <= m_flags hn' < 2 ^ 15 ->
  has (m_flags hn') M_PKTHDR = true -> has (m_flags hn') M_EXT = false -> has (m_flags hn) M_EXT = false ->
  Inv ls s' /\ (forall b, b ∈ live ls s -> b <> mn -> window s' b = window s b) /\
  (forall b, b ∈ live ls s -> b <> mn -> b <> m -> seen_same s s' b) /\ long_at (st_cells s') (pkthdr_len mn) n.
Proof.
  intros I0 Ln Lm Hne Hm Hn Em Ex Ec Ep Ee F1 F2 F3 F4 F5 F6 G1 G2 G3 G4 G5 G6 G7. pose proof I0 as (fl & al & cf & I). pose proof I as [].
  destruct (inv_mapped _ _ _ I0 Ln) as [Mn _].
  assert (Ea : st_mbuf s' !! m = Some h') by (by rewrite Em, lookup_insert_eq).
  assert (En : st_mbuf s' !! mn = Some hn') by (by rewrite Em, lookup_insert_ne, lookup_insert_eq by done).
  assert (Emb : forall b, b <> mn -> b <> m -> st_mbuf s' !! b = st_mbuf s !! b) by (intros b H1 H2; by rewrite Em, !lookup_insert_ne by done).
  assert (EN : forall b, mnext s' b = mnext s b).
  { intros b. unfold mnext. destruct (decide (b = m)) as [->|]; [rewrite Ea, Hm; simpl; by rewrite F1|].
    destruct (decide (b = mn)) as [->|]; [rewrite En, Hn; simpl; by rewrite G1|by rewrite Emb]. }
  assert (Out : forall x, ~ (mn + 20 <= x < mn + 28) -> st_cells s' !! x = st_cells s !! x).
  { intros x Hx. rewrite Ex, !poke_out; [done|simpl; places..]. }
  assert (SP : same_places s s').
  { split_and!.
    - intros b. destruct (decide (b = m)) as [->|]; [rewrite Ea, Hm; by split|]. destruct (decide (b = mn)) as [->|]; [rewrite En, Hn; by split|by rewrite Emb].
    - by rewrite Ec.
    - intros x Hx. rewrite Ex, !poke_lookup. repeat (destruct (decide _); [apply lookup_lt_is_Some_2; simpl in *; lia|]). done. }
  rewrite Forall_forall in i_live.
  assert (Q : forall b, b ∈ live ls s -> b <> mn -> header_same s s' b /\
    forall hb, st_mbuf s !! b = Some hb -> peek (st_cells s') (m_data hb) (Z.to_nat (m_len hb)) = peek (st_cells s) (m_data hb) (Z.to_nat (m_len hb))).
  { intros b Hb Hbn. destruct (i_live b Hb) as (hb & Hhb & Hok). pose proof (mbuf_apart s mn b i_geom ltac:(eauto) ltac:(eauto) ltac:(done)).
    split; [intros x Hx; apply Out; places|]. intros hb' Hb'. rewrite Hhb in Hb'. injection Hb' as <-. apply peek_ext. intros x Hx. apply Out.
    pose proof (k_len _ _ _ Hok). pose proof (window_apart s mn b hb x i_geom ltac:(eauto) ltac:(done) Hhb Hok ltac:(lia)). places. }
  assert (L2 : long_at (st_cells s') (pkthdr_len mn) n) by (rewrite Ex; apply long_at_poke, poke_mapped; eapply mapped_sub; [exact Mn|places..]).
  assert (L1 : long_at (st_cells s') (pkthdr_rcvif mn) rc).
  { eapply long_at_ext; [|apply (long_at_poke (st_cells s)); eapply mapped_sub; [exact Mn|places..]]. intros x Hx. rewrite Ex, poke_out; [done|simpl; places]. }
  split_and!; [|intros b Hb Hbn|intros b Hb Hbn Hbm|done].
  - exists fl, al, cf. eapply (inv_edit fl al cf ls ls s s'); try done.
    + by rewrite Ee.
    + rewrite Forall_forall in i_chains |- *. intros l Hl. eapply linked_ext; [|by apply i_chains]. done.
    + rewrite (live_elsewhere ls s s') by done. apply Forall_forall. intros b Hb. destruct (decide (b = mn)) as [->|Hbn].
      { exists hn'. split; [done|]. constructor; try done; [lia|eauto|congruence|]. intros _. unfold AMI_MBUF_BASE. rewrite G5, G2, G3. places. }
      destruct (i_live b Hb) as (hb & Hhb & Hok). destruct (Q b Hb Hbn) as [Q1 _]. destruct (decide (b = m)) as [->|Hbm].
      * rewrite Hm in Hhb. injection Hhb as <-. exists h'. split; [done|]. destruct Hok.
        constructor; rewrite ?F2, ?F3, ?F6; try done; [congruence| |].
        -- intros He. destruct (k_ext He) as (e & f & k & A1 & A2 & A3 & St & ? & ?). exists e, f, k.
           split_and!; try done; try (eapply storage_same; done); (eapply long_at_ext; [|done]; intros x Hx; apply Q1; places).
        -- intros He. destruct (k_int He) as [B1 B2]. split; [|done]. unfold AMI_MBUF_BASE in *. rewrite F5. places.
      * apply (well_same s s'); [done|by apply Emb|done|by apply i_live].
    + intros b Hb. destruct (decide (b = mn)) as [->|Hbn]; [by rewrite (ext_at_none _ _ _ En G6), (ext_at_none _ _ _ Hn G7)|].
      destruct (Q b Hb Hbn) as [Q1 _]. destruct (decide (b = m)) as [->|Hbm]; [|apply ext_at_same; [by apply Emb|done]].
      unfold ext_at. rewrite Ea, Hm, F6. rewrite (Q1 (ext_buf m)) by places. done.
  - destruct (Q b Hb Hbn) as [_ Q2]. unfold window. destruct (decide (b = m)) as [->|Hbm].
    + rewrite Ea, Hm, F2, F3. by apply Q2.
    + rewrite Emb by done. destruct (i_live b Hb) as (hb & Hhb & _). rewrite Hhb. by apply Q2.
  - destruct (Q b Hb Hbn) as [Q1 Q2]. split_and!; [by apply Emb|done|]. unfold window. rewrite Emb by done.
    destruct (i_live b Hb) as (hb & Hhb & _). rewrite Hhb. by apply Q2.
Qed.

Lemma inv_two a b r ls s : Inv ([a] :: (b :: r) :: ls) s ->
  a <> b /\ a ∈ live ([a] :: (b :: r) :: ls) s /\ b ∈ live ([a] :: (b :: r) :: ls) s /\
  (forall x, x ∈ live ls s -> x ∈ live ([a] :: (b :: r) :: ls) s /\ x <> a /\ x <> b) /\
  (forall x, x ∈ b :: r -> x ∈ live ([a] :: (b :: r) :: ls) s /\ x <> a).
Proof.
  intros I. pose proof (inv_disjoint _ _ _ a I ltac:(set_solver)) as D1. pose proof (inv_disjoint _ _ _ b (inv_swap _ _ _ _ I) ltac:(set_solver)) as D2.
  clear I. unfold live in *. simpl in *. set_solver.
Qed.

Lemma move_spec mn m r ls s n t :
  Inv ([mn] :: (m :: r) :: ls) s -> st_mbuf s !! mn = Some (Mbuf 0 0 (m_dat mn) 0 t 0) -> exact_length s m n ->
  wpm (move_pkthdr mn m) (fun _ s' => Inv ([mn] :: (m :: r) :: ls) s' /\ blank s' mn /\ exact_length s' mn n /\
    (forall b, b ∈ m :: r -> window s' b = window s b) /\ quiet s s' (live ls s) /\ st_elsewhere s' = st_elsewhere s /\
    (forall h, st_mbuf s' !! m = Some h -> has (m_flags h) M_PKTHDR = false) /\
    inited (st_pool s') = inited (st_pool s)) s.
Proof.
  intros I Hn E. destruct (inv_two _ _ _ _ _ I) as (Hne & Ln & Lm & Ll & Lr).
  destruct (inv_well _ _ _ I Lm) as (h & Hm & Hok). unfold move_pkthdr. apply wpm_bind, (wpm_mb _ h); [done|].
  destruct (has (m_flags h) M_PKTHDR) eqn:Hp.
  2: { apply wpm_ret. split_and!; try done.
    - eexists. split; [exact Hn|]. done.
    - intros h' Hh' Hp'. rewrite Hn in Hh'. by injection Hh' as <-.
    - intros h' Hh'. congruence. }
  destruct (k_pkthdr _ _ _ Hok Hp) as [[rc Hrc] _]. pose proof (E h Hm Hp) as Hv.
  destruct (flags_moved _ (k_flags _ _ _ Hok) Hp) as (A1 & A2 & A3).
  destruct (flags_without _ (k_flags _ _ _ Hok)) as (B1 & B2 & B3).
  destruct (inv_mapped _ _ _ I Ln) as [Mn _].
  apply wpm_bind. eapply wpm_set_mb; [exact Hn|]. apply wpm_bind, (wpm_load32 _ rc); [exact Hrc|].
  apply wpm_bind, (wpm_load32 _ n); [exact Hv|].
  apply wpm_bind, wpm_store32; [eapply mapped_sub; [exact Mn|places..]|].
  apply wpm_bind, wpm_store32; [apply poke_mapped; eapply mapped_sub; [exact Mn|places..]|].
  apply wpm_bind. eapply wpm_set_mb; [apply lookup_insert_eq|].
  eapply (wpm_set_mb m h); [cbn [st_mbuf s_mbuf s_cells]; by rewrite !lookup_insert_ne by done|].
  match goal with |- Inv _ ?t /\ _ => set (s' := t) end.
  edestruct (inv_rehead _ s s' mn m h _ (w_flags (word (Z.land (m_flags h) (Z.lnot M_PKTHDR))) h)
    (Mbuf 0 0 (m_pktdat mn) 0 t (word (Z.lor 0 (Z.land (m_flags h) M_COPYFLAGS)))) n rc I Ln Lm Hne Hm Hn) as (I' & W & Q & L); try done.
  { cbn [s' st_mbuf s_mbuf s_cells]. by rewrite insert_insert_eq. }
  assert (En : st_mbuf s' !! mn = Some (Mbuf 0 0 (m_pktdat mn) 0 t (word (Z.lor 0 (Z.land (m_flags h) M_COPYFLAGS))))).
  { cbn [s' st_mbuf s_mbuf s_cells]. by rewrite lookup_insert_ne, lookup_insert_eq by done. }
  split_and!; try done.
  - eexists. split; [exact En|]. split_and!; try done. unfold AMI_MBUF_BASE. cbn [m_flags]. by rewrite A2.
  - by intros k _ _.
  - intros b Hb. apply Lr in Hb as [? ?]. by apply W.
  - intros b Hb. destruct (Ll b Hb) as (? & ? & ?). by apply Q.
  - intros k Hk. cbn [s' st_mbuf s_mbuf s_cells] in Hk. rewrite lookup_insert_eq in Hk. by injection Hk as <-.
Qed.

(** ** ami_mbuf_prepend *)

Section Prepend.
Context (AllocVec : mst -> Z -> Z) (others : mst -> mst).
Hypothesis HA : alloc_law AllocVec.
Hypothesis HO : others_law others.

(** An mbuf that will head a chain, its type set. *)
Lemma head_type m r ls s t f :
  f (fresh_mbuf m) = Mbuf 0 0 (m_dat m) 0 t 0 ->
  Inv ([m] :: r :: ls) s -> st_mbuf s !! m = Some (fresh_mbuf m) ->
  wpm (set_mb m f) (fun _ s' => Inv ([m] :: r :: ls) s' /\ st_mbuf s' !! m = Some (Mbuf 0 0 (m_dat m) 0 t 0) /\
    reshaped [m] s s') s.
Proof.
  intros Hf I Hm. eapply wpm_set_mb; [exact Hm|]. split_and!.
  - rewrite Hf. destruct (inv_well _ s m I) as (h & Hh & Hok); [unfold live; simpl; clear; set_solver|]. rewrite Hm in Hh. injection Hh as <-.
    eapply inv_hdr; [exact I|unfold live; simpl; clear; set_solver|exact Hm|done|done|]. by destruct Hok; constructor.
  - rewrite Hf. apply lookup_insert_eq.
  - apply reshaped_set; [done|]. by rewrite Hf.
Qed.

Lemma reshaped_quiet_other K L s s' : reshaped K s s' -> (forall b, b ∈ L -> b ∉ K) -> quiet s s' L.
Proof.
  intros R H b Hb. split_and!; [by apply R; auto|intros x _; by rewrite (rs_cells _ _ _ R)|].
  apply (reshaped_window K); auto.
Qed.

(** A head that takes over: [mn], empty, with the packet header of the chain. *)
Lemma new_head m r ls s h n f {A} (k0 : MB A) (k : Z -> MB A) Q :
  (forall mn, f (fresh_mbuf mn) = Mbuf 0 0 (m_dat mn) 0 (m_type h) 0) ->
  Inv ((m :: r) :: ls) s -> st_mbuf s !! m = Some h -> exact_length s m n ->
  (forall s', Inv ((m :: r) :: ls) s' -> quiet s s' (concat ls) -> free_mbufs (st_pool s) = 0 -> wpm k0 Q s') ->
  (forall mn s', mn <> 0 -> Inv ([mn] :: (m :: r) :: ls) s' -> blank s' mn -> exact_length s' mn n ->
     (forall b, b ∈ m :: r -> window s' b = window s b) -> quiet s s' (concat ls) ->
     (forall h', st_mbuf s' !! m = Some h' -> has (m_flags h') M_PKTHDR = false) -> wpm (k mn) Q s') ->
  wpm (mn ← ami_mbuf_get AllocVec others;
       if mn =? 0 then k0 else _ ← set_mb mn f; _ ← move_pkthdr mn m; k mn) Q s.
Proof.
  intros Hf I Hm E H0 HK. eapply wpm_then; [by apply (get_spec AllocVec others HA HO)|].
  intros mn s1 [(-> & (I1 & Q1 & _) & F0)|(Hp & (I1 & _ & _) & Q1 & Hn)].
  { apply H0; [done| |done]. eapply quiet_sub; [exact Q1|]. clear. simpl. set_solver. }
  rewrite (proj2 (Z.eqb_neq mn 0)) by lia. eapply wpm_then; [by eapply (head_type _ _ _ _ _ f (Hf mn))|]. intros [] s2 (I2 & Hn2 & R2).
  destruct (inv_two _ _ _ _ _ I1) as (Hne & _ & _ & Ll & Lr).
  assert (Q2 : quiet s s2 (concat ((m :: r) :: ls))).
  { eapply quiet_trans; [exact Q1|]. apply (reshaped_quiet_other [mn]); [done|]. intros b Hb. simpl in Hb.
    assert (b <> mn); [|set_solver]. apply elem_of_cons in Hb as [->|Hb]; [done|]. apply elem_of_app in Hb as [Hb|Hb].
    - apply Lr. by apply elem_of_cons; right.
    - apply Ll. unfold live. apply elem_of_app. by left. }
  assert (E2 : exact_length s2 m n).
  { destruct (Q2 m ltac:(simpl; set_solver)) as (M2 & X2 & _). intros h' Hh' Hp'. rewrite M2 in Hh'.
    eapply long_at_ext; [|by eapply E]. intros x Hx. apply X2. places. }
  eapply wpm_then; [by eapply (move_spec mn m r ls s2 n)|]. intros [] s3 (I3 & B3 & E3 & D3 & Q3 & _ & F3 & _).
  apply HK; try done; [lia| |].
  - intros b Hb. rewrite D3 by done. apply Q2. clear -Hb. simpl. set_solver.
  - eapply quiet_trans; [eapply quiet_sub; [exact Q2|clear; simpl; set_solver]|]. by apply quiet_concat.
Qed.

(** The chain [l'] a call gave back: [d] as data, its length in the packet header. *)
Definition gave (ls : list (list Z)) (l' : list Z) (d : list cell) (s s' : mst) : Prop :=
  l' <> [] /\ Inv (l' :: ls) s' /\ data s' l' = d /\ exact_length s' (hd 0 l') (Z.of_nat (length d)) /\ quiet s s' (concat ls).

Lemma freem_null ls m r s s0 :
  Inv ((m :: r) :: ls) s -> quiet s0 s (concat ls) ->
  wpm (_ ← ami_mbuf_freem m; mret 0) (fun x s' => x = 0 /\ Inv ls s' /\ quiet s0 s' (concat ls)) s.
Proof.
  intros I Q. eapply wpm_then; [by apply (freem_spec (m :: r) ls)|]. intros [] s' (I' & Q' & _). apply wpm_ret.
  split_and!; [done|done|]. eapply quiet_trans; [exact Q|]. by apply quiet_concat.
Qed.

(** The bytes in front of the data of [m], taken into its window. *)
Lemma widen_spec m r ls s h base len n :
  Inv ((m :: r) :: ls) s -> st_mbuf s !! m = Some h -> 0 < len -> m_len h + len < 2 ^ 31 ->
  exact_length s m n -> base <= m_data h - len -> private ((m :: r) :: ls) s m base (m_data h + m_len h - base) ->
  mok s m (w_len (s32 (m_len h + len)) (w_data (m_data h - len) h)) ->
  wpm (_ ← set_mb m (fun h => w_len (s32 (m_len h + len)) (w_data (m_data h - len) h));
       _ ← pkthdr_len_if m (fun v => s32 (v + len)); mret m)
    (fun x s' => x = m /\ exists pad h', length pad = Z.to_nat len /\ Inv ((m :: r) :: ls) s' /\
       data s' (m :: r) = pad ++ data s (m :: r) /\ exact_length s' m (s32 (n + len)) /\ quiet s s' (concat ls) /\
       st_mbuf s' !! m = Some h' /\ len <= m_len h' /\ private ((m :: r) :: ls) s' m (m_data h') len) s.
Proof.
  intros I Hm Hp Hl E Hbase Hpr Hok. assert (Lm : m ∈ live ((m :: r) :: ls) s) by (unfold live; simpl; clear; set_solver).
  apply wpm_bind. eapply wpm_set_mb; [exact Hm|]. set (h1 := w_len _ _) in *. set (s1 := s_mbuf _ s).
  assert (I1 : Inv ((m :: r) :: ls) s1) by (by eapply inv_hdr).
  assert (R1 : reshaped [m] s s1) by (by apply (reshaped_set m (fun _ => h1) s h)).
  assert (Hm1 : st_mbuf s1 !! m = Some h1) by apply lookup_insert_eq.
  destruct (inv_well _ _ _ I Lm) as (h0 & Hh0 & Ok0). rewrite Hm in Hh0. injection Hh0 as <-. pose proof (k_len _ _ _ Ok0).
  assert (W1 : window s1 m = peek (st_cells s) (m_data h - len) (Z.to_nat len) ++ window s m).
  { unfold window. rewrite Hm1, Hm. cbn [s1 s_mbuf st_cells h1 w_len w_data m_data m_len]. rewrite s32_small by lia.
    replace (Z.to_nat (m_len h + len)) with (Z.to_nat len + Z.to_nat (m_len h))%nat by lia. rewrite peek_app. do 2 f_equal. lia. }
  assert (Nr : m ∉ r).
  { destruct (inv_suffix [] (m :: r) ls s I) as (_ & ND & _). by apply NoDup_cons in ND as [? _]. }
  apply wpm_bind. eapply wpm_mono; [apply (wpm_pktlen_if r ls s1 m n); [done|by eapply exact_reshaped]|].
  intros [] s2 (I2 & D2 & E2 & Q2 & M2 & X2 & _). apply wpm_ret. split; [done|].
  exists (peek (st_cells s) (m_data h - len) (Z.to_nat len)), h1. split_and!; try done.
  - apply peek_length.
  - rewrite D2, !data_cons, W1, (reshaped_data [m] s s1 r), app_assoc; [done|done|]. intros b Hb Hbm. apply list_elem_of_singleton in Hbm as ->. done.
  - eapply quiet_trans; [|by apply quiet_concat]. apply (reshaped_quiet_other [m]); [done|]. intros b Hb Hbm.
    apply list_elem_of_singleton in Hbm as ->. apply (inv_disjoint _ _ _ m I); [by apply elem_of_cons; left|].
    unfold live. apply elem_of_app. by left.
  - by rewrite M2.
  - cbn [h1 w_len m_len]. rewrite s32_small by lia. lia.
  - intros b x Hbl Hbm (hb & Hhb & Hx). rewrite (live_elsewhere _ s1 s2 X2) in Hbl.
    rewrite M2, (rs_other _ _ _ R1) in Hhb by (intros Hin; by apply list_elem_of_singleton in Hin). 
    cbn [h1 w_len w_data m_data]. intros Hin. apply (Hpr b x); [done|done|by exists hb|lia].
Qed.

Lemma data_long m r s h : st_mbuf s !! m = Some h -> 0 <= m_len h -> m_len h <= Z.of_nat (length (data s (m :: r))).
Proof. intros Hm Hl. rewrite data_cons, length_app. unfold window. rewrite Hm, peek_length. lia. Qed.

(** What the new head in front of [m] looks like. *)
Lemma front_spec mn m r ls s s0 len n d :
  Inv ([mn] :: (m :: r) :: ls) s -> blank s mn -> exact_length s mn n -> data s (m :: r) = d -> quiet s0 s (concat ls) ->
  0 < len -> 0 <= n -> n + len < 2 ^ 31 ->
  wpm (k ← mb mn;
       let room := AMI_MBUF_END mn - AMI_MBUF_BASE mn k in
       if room <? len then _ ← ami_mbuf_free mn; _ ← ami_mbuf_freem m; mret 0
       else
         let offset := Z.land (s32 (room - len)) (Z.lnot 3) in
         _ ← set_mb mn (fun k => w_next m (w_len len (w_data (AMI_MBUF_BASE mn k + offset) k)));
         _ ← pkthdr_len_if mn (fun v => s32 (v + len));
         mret mn) (fun x s' => (x = 0 /\ Inv ls s' /\ quiet s0 s' (concat ls) /\ MHLEN < len) \/
    exists pad h', x = mn /\ length pad = Z.to_nat len /\ Inv ((mn :: m :: r) :: ls) s' /\
      data s' (mn :: m :: r) = pad ++ d /\ exact_length s' mn (n + len) /\ quiet s0 s' (concat ls) /\
      st_mbuf s' !! mn = Some h' /\ len <= m_len h' /\ private ((mn :: m :: r) :: ls) s' mn (m_data h') len) s.
Proof.
  intros I (h & Hh & Hnx & Hl0 & He & Hd0) E D Q0 Hp Hn Hmax. destruct (inv_two _ _ _ _ _ I) as (Hne & Ln & Lm & Ll & Lr).
  apply wpm_bind, (wpm_mb _ h); [done|]. cbv zeta. set (room := AMI_MBUF_END mn - AMI_MBUF_BASE mn h).
  assert (Hroom : 100 <= room <= 108) by (unfold room; places).
  destruct (Z.ltb_spec room len) as [Hbig|Hfit].
  { eapply wpm_then; [by apply (free_spec mn [] ((m :: r) :: ls))|]. intros x s1 (_ & I1 & Q1 & E1).
    apply (proj1 (inv_nil _ _)) in I1. eapply wpm_mono; [apply (freem_null ls m r s1 s0); [done|]|intros x' s' (? & ? & ?); left; split_and!; try done; unfold MHLEN; lia].
    eapply quiet_trans; [exact Q0|]. eapply quiet_sub; [exact Q1|]. clear. unfold live. simpl. set_solver. }
  rewrite s32_small by lia. pose proof (land_le (room - len) (Z.lnot 3) ltac:(lia)) as Ho. set (o := Z.land _ _) in *. clearbody o.
  apply wpm_bind. eapply wpm_set_mb; [exact Hh|]. set (h1 := w_len len (w_data (AMI_MBUF_BASE mn h + o) h)).
  destruct (inv_fill _ s mn h h1 (AMI_MBUF_BASE mn h) [] I Ln Hh He) as (I1 & Q1 & E1); try done; try (unfold h1; simpl; unfold room in *; lia).
  cbn [poke] in *. set (s1 := s_mbuf _ _) in I1, Q1, E1.
  assert (Es1 : s1 = s_mbuf (<[mn := h1]> (st_mbuf s)) s) by (unfold s1; by destruct s).
  assert (Hh1 : st_mbuf s1 !! mn = Some h1) by apply lookup_insert_eq.
  destruct (inv_link [] mn (m :: r) ls s1 h1 I1 Hh1) as (I2 & D2 & Q2). cbn [app hd] in I2, D2, Q2.
  set (s2 := s_mbuf (<[mn := w_next m h1]> (st_mbuf s1)) s1) in *.
  replace (s_mbuf _ s) with s2 by (unfold s2; rewrite Es1; unfold s_mbuf; cbn; by rewrite insert_insert_eq).
  assert (M2 : forall b, b <> mn -> st_mbuf s2 !! b = st_mbuf s !! b).
  { intros b Hb. unfold s2. rewrite Es1. cbn. by rewrite !lookup_insert_ne. }
  assert (Hh2 : st_mbuf s2 !! mn = Some (w_next m h1)) by apply lookup_insert_eq.
  assert (D1 : data s1 (m :: r) = d).
  { rewrite <- D. apply quiet_data. intros b Hb. by destruct (Lr b Hb); apply Q1. }
  apply wpm_bind. eapply wpm_mono; [apply (wpm_pktlen_if (m :: r) ls s2 mn n); [done|]|].
  { intros k Hk Hpk. rewrite Hh2 in Hk. injection Hk as <-. change (st_cells s2) with (st_cells s1). exact (E1 n E h1 Hh1 Hpk). }
  intros [] s3 (I3 & D3 & E3 & Q3 & M3 & X3 & _). apply wpm_ret. right.
  exists (window s1 mn), (w_next m h1). split_and!; try done.
  - unfold window. by rewrite Hh1, peek_length.
  - by rewrite D3, D2, data_one, D1.
  - by rewrite s32_small in E3 by lia.
  - eapply quiet_trans; [exact Q0|]. eapply quiet_trans; [|apply quiet_concat; eapply quiet_trans; [exact Q2|exact Q3]].
    intros b Hb. assert (Hbl : b ∈ live ls s) by (unfold live; apply elem_of_app; by left). destruct (Ll b Hbl) as (? & ? & _). by apply Q1.
  - by rewrite M3.
  - apply private_internal; [done|unfold live; simpl; clear; set_solver|unfold h1; cbn; unfold room in *; places|]. unfold h1. cbn. unfold room in *. places.
Qed.

Lemma prepend_spec m r ls s len :
  Inv ((m :: r) :: ls) s -> Z.of_nat (length (data s (m :: r))) + len < 2 ^ 31 ->
  exact_length s m (Z.of_nat (length (data s (m :: r)))) ->
  wpm (ami_mbuf_prepend AllocVec others m len) (fun x s' =>
    (x = 0 /\ Inv ls s' /\ quiet s s' (concat ls) /\ (len < 0 \/ MHLEN < len \/ free_mbufs (st_pool s) = 0)) \/
    0 <= len /\ exists l' pad h', x = hd 0 l' /\ l' <> [] /\ length pad = Z.to_nat len /\ Inv (l' :: ls) s' /\
      data s' l' = pad ++ data s (m :: r) /\ exact_length s' x (Z.of_nat (length (data s' l'))) /\ quiet s s' (concat ls) /\
      st_mbuf s' !! x = Some h' /\ len <= m_len h' /\ private (l' :: ls) s' x (m_data h') len) s.
Proof.
  intros I Hmax E. set (N := Z.of_nat _) in *. assert (Lm : m ∈ live ((m :: r) :: ls) s) by (unfold live; simpl; clear; set_solver).
  destruct (inv_mapped _ _ _ I Lm) as [_ H0]. destruct (inv_well _ _ _ I Lm) as (h & Hm & Hok). pose proof (k_len _ _ _ Hok).
  pose proof (data_long m r s h Hm ltac:(lia)) as HN. fold N in HN.
  unfold ami_mbuf_prepend. rewrite (proj2 (Z.eqb_neq m 0)) by lia.
  destruct (Z.ltb_spec len 0) as [Hneg|Hpos].
  { eapply wpm_mono; [by apply (freem_null ls m r s s)|]. intros x s' (? & ? & ?). left. split_and!; auto. }
  destruct (Z.eqb_spec len 0) as [->|Hz].
  { apply wpm_ret. right. split; [lia|]. exists (m :: r), [], h. split_and!; try done; [lia|]. intros b x _ _ _. lia. }
  eapply wpm_then; [exact (span_spec _ s m h I Lm Hm)|]. intros sp s1 [-> Hsp]. apply wpm_bind, (wpm_mb _ h); [done|].
  destruct (match sp with Some (base, _) => _ | None => false end) eqn:Efit.
  - destruct sp as [[base e]|]; [|done]. apply Z.leb_le in Efit. destruct Hsp as (B1 & B2 & B3 & B4).
    eapply wpm_mono; [eapply (widen_spec m r ls s h base len N I Hm); try done; try lia|].
    + intros b x Hb Hne Hrd Hx. apply (B3 b x Hb Hne Hrd). lia.
    + apply B4; try done; cbn; rewrite ?s32_small by lia; lia.
    + intros x s' (-> & pad & h' & P1 & I' & D' & E' & Q' & Hm' & Hl' & Hp'). right. split; [lia|].
      exists (m :: r), pad, h'. split_and!; try done. rewrite s32_small in E' by lia. rewrite D', length_app, P1.
      replace (Z.of_nat _) with (N + len) by lia. done.
  - apply (new_head m r ls s h N (w_type (m_type h))); try done.
    + intros s1 I1 Q1 F1. eapply wpm_mono; [by apply (freem_null ls m r s1 s)|]. intros x s' (? & ? & ?). left. split_and!; auto.
    + intros mn s1 Hmn I1 B1 E1 D1 Q1 _. eapply wpm_mono; [apply (front_spec mn m r ls s1 s len N _ I1 B1 E1 (data_windows _ _ _ D1) Q1); lia|].
      intros x s' [(? & ? & ? & ?)|(pad & h' & -> & P1 & I' & D' & E' & Q' & Hm' & Hl' & Hp')]; [left; split_and!; auto|right]. split; [lia|].
      exists (mn :: m :: r), pad, h'. split_and!; try done. rewrite D', length_app, P1. replace (Z.of_nat _) with (N + len) by lia. done.
Qed.
End Prepend.
