(* ===== verification/MbufPullup.v ===== *)
(** * Contiguous bytes

    [ami_mbuf_pullup] gathers the first bytes of a chain into its head.  While it does
    so the head's [m_next] still points at mbufs that are being freed; [stale] is a
    state with such a pointer, and operations that do not read it cannot tell. *)

From Stdlib Require Import ZArith Lia.
From stdpp Require Import base numbers list gmap.
From S2P Require Import Prelude.
From S2P Require Import MbufAlloc.
From S2P Require Import MbufCode.
From S2P Require Import MbufInv.
From S2P Require Import MbufFree.
From S2P Require Import MbufGet.
From S2P Require Import MbufChain.
From S2P Require Import MbufJoin.
From S2P Require Import MbufPull.

#[local] Set Warnings "-clear-no-such-hyp".

(** ** A pointer nobody reads *)

#[local] Create HintDb blind.

Section Stale.
Context (m v : Z).

Definition stale (t : mst) : mst := s_mbuf (alter (w_next v) m (st_mbuf t)) t.

Definition lift {A} (o : outcome (A * mst)) : outcome (A * mst) :=
  match o with Val (a, t) => Val (a, stale t) | Fault => Fault | Spin => Spin end.

(** The operation cannot tell the pointer. *)
Definition blind {A} (op : MB A) : Prop := forall t, op (stale t) = lift (op t).

Lemma wpm_blind {A} (op : MB A) Q t : blind op -> wpm op (fun a t' => Q a (stale t')) t -> wpm op Q (stale t).
Proof. intros B (a & t' & E & H). exists a, (stale t'). by rewrite B, E. Qed.

Lemma blind_ret {A} (a : A) : blind (mret a).
Proof. done. Qed.
Lemma blind_bind {A B} (op : MB A) (k : A -> MB B) : blind op -> (forall a, blind (k a)) -> blind (op ≫= k).
Proof. intros H1 H2 t. unfold mbind, MB_bind. rewrite H1. destruct (op t) as [[a t']| |]; [apply H2|done|done]. Qed.
Lemma blind_spin {A} : blind (@spin A).
Proof. done. Qed.
Lemma blind_asks {A} (f : mst -> A) : (forall t, f (stale t) = f t) -> blind (asks f).
Proof. intros H t. unfold asks. by rewrite H. Qed.
Lemma blind_modify f : (forall t, f (stale t) = stale (f t)) -> blind (modify f).
Proof. intros H t. unfold modify. by rewrite H. Qed.
Lemma blind_pool_get {A} (f : AmiMbufPool -> A) : blind (pool_get f).
Proof. done. Qed.
Lemma blind_pool_set f : blind (pool_set f).
Proof. done. Qed.
Lemma blind_cl c : blind (cl c).
Proof. intros t. unfold cl. cbn. by destruct (st_cluster t !! c). Qed.
Lemma blind_set_cl c f : blind (set_cl c f).
Proof. intros t. unfold set_cl. cbn. by destruct (st_cluster t !! c). Qed.
Lemma blind_mb n : n <> m -> blind (mb n).
Proof. intros Hn t. unfold mb. cbn. rewrite lookup_alter_ne by done. by destruct (st_mbuf t !! n). Qed.
Lemma blind_set_mb n f : n <> m -> blind (set_mb n f).
Proof.
  intros Hn t. unfold set_mb. cbn. rewrite lookup_alter_ne by done. destruct (st_mbuf t !! n) as [h|]; [|done]. cbn.
  unfold stale, s_mbuf. cbn. by rewrite alter_insert_ne by done.
Qed.
Lemma blind_set_self f : (forall h, f (w_next v h) = w_next v (f h)) -> blind (set_mb m f).
Proof.
  intros Hf t. unfold set_mb. cbn. rewrite lookup_alter_eq. destruct (st_mbuf t !! m) as [h|] eqn:E; [|done]. cbn.
  unfold stale, s_mbuf. cbn. rewrite Hf, alter_insert_eq. do 3 f_equal. apply map_eq. intros x.
  destruct (decide (x = m)) as [->|]; [by rewrite !lookup_insert_eq|by rewrite !lookup_insert_ne, lookup_alter_ne by done].
Qed.
Lemma blind_load32 a : blind (load32 a).
Proof. intros t. unfold load32. cbn. destruct (st_cells t !! a) as [[]|]; try done. by destruct (decide _). Qed.
Lemma blind_store32 a w : blind (store32 a w).
Proof.
  intros t. unfold store32. cbn. destruct (st_cells t !! a), (st_cells t !! (a + 1)), (st_cells t !! (a + 2)), (st_cells t !! (a + 3)); done.
Qed.
Lemma blind_ld_cell a : blind (ld_cell a).
Proof. intros t. unfold ld_cell. cbn. by destruct (st_cells t !! a). Qed.
Lemma blind_st_cell a c : blind (st_cell a c).
Proof. intros t. unfold st_cell. cbn. by destruct (st_cells t !! a). Qed.
Lemma blind_if {A} (b : bool) (x y : MB A) : blind x -> blind y -> blind (if b then x else y).
Proof. by destruct b. Qed.

Lemma blind_copy n : forall d s, blind (copy_bytes n d s).
Proof.
  induction n as [|n IH]; intros d s; [apply blind_ret|]. apply blind_bind; [apply blind_ld_cell|]. intros c.
  apply blind_bind; [apply blind_st_cell|]. intros _. apply IH.
Qed.

Lemma blind_cluster_of b : blind (ami_mbuf_cluster_of b).
Proof.
  apply blind_if; [apply blind_ret|]. apply blind_bind; [apply blind_pool_get|]. intros c.
  apply blind_bind; [by apply blind_asks|]. intros n. revert c. induction n as [|n IH]; intros c; cbn [cluster_of];
    apply blind_if; try apply blind_ret; apply blind_if; try apply blind_ret; [apply blind_spin|].
  apply blind_bind; [apply blind_cl|]. intros h. apply IH.
Qed.

#[local] Hint Resolve blind_ret blind_bind blind_spin blind_pool_get blind_pool_set blind_cl blind_set_cl blind_load32
  blind_store32 blind_if blind_cluster_of blind_mb blind_set_mb : blind.

Lemma blind_free n : n <> m -> blind (ami_mbuf_free n).
Proof.
  intros Hn. unfold ami_mbuf_free, ami_mbuf_ext_unref, ami_mbuf_cluster_put, set_ext.
  assert (HM : forall x, blind (modify (fun s => s_released (st_released s ++ [x]) s))) by (intros x; by apply blind_modify).
  repeat match goal with
  | |- blind (if _ then _ else _) => apply blind_if
  | |- blind (_ ≫= _) => apply blind_bind; [|intros ?]
  | |- blind (let _ := _ in _) => cbv zeta
  | |- blind (modify _) => apply HM
  | |- _ => solve [auto with blind]
  end.
Qed.
End Stale.

(** ** Moving bytes to the head *)

Lemma moved_spec m n k ls t hm hn hn' c :
  Inv ([m] :: (n :: k) :: ls) t -> st_mbuf t !! m = Some hm -> st_mbuf t !! n = Some hn ->
  has (m_flags hm) M_EXT = false -> 0 < c <= m_len hn -> m_data hm + m_len hm + c <= AMI_MBUF_END m ->
  m_next hn' = m_next hn -> m_flags hn' = m_flags hn -> m_len hn' = m_len hn - c ->
  m_data hn' = m_data hn + c \/ (m_data hn' = m_data hn /\ c = m_len hn) ->
  let t' := s_mbuf (<[n := hn']> (<[m := w_len (m_len hm + c) hm]> (st_mbuf t)))
              (s_cells (poke (st_cells t) (m_data hm + m_len hm) (peek (st_cells t) (m_data hn) (Z.to_nat c))) t) in
  mapped (st_cells t) (m_data hm + m_len hm) c /\ mapped (st_cells t) (m_data hn) c /\
  (m_data hn + c <= m_data hm + m_len hm \/ m_data hm + m_len hm + c <= m_data hn) /\
  Inv ([m] :: (n :: k) :: ls) t' /\ window t' m = window t m ++ take (Z.to_nat c) (window t n) /\
  window t' n = drop (Z.to_nat c) (window t n) /\ (forall b, b ∈ k -> window t' b = window t b) /\ quiet t t' (live ls t) /\
  (forall v, exact_length t m v -> exact_length t' m v).
Proof.
  intros I Hm Hn He Hc Hfit En Ef El Ed t'. destruct (inv_two _ _ _ _ _ I) as (Hne & Lm & Ln & Ll & Lr).
  destruct (inv_well _ _ _ I Lm) as (h0 & H0 & Okm). rewrite Hm in H0. injection H0 as <-.
  destruct (inv_well _ _ _ I Ln) as (h0 & H0 & Okn). rewrite Hn in H0. injection H0 as <-.
  pose proof (k_len _ _ _ Okm). pose proof (k_len _ _ _ Okn). destruct (k_int _ _ _ Okm He) as [Hb1 Hb2].
  destruct (inv_mapped _ _ _ I Lm) as [Mm M0].
  assert (Hsrc : forall x, m_data hn <= x < m_data hn + m_len hn -> is_Some (st_cells t !! x) /\ ~ (m <= x < m + MSIZE)).
  { intros x Hx. split.
    - pose proof (reads_reach _ _ _ x I Ln ltac:(by exists hn)) as Hr. destruct I as (fl & al & cf & I). by eapply reach_mapped.
    - destruct I as (fl & al & cf & I). eapply window_apart; [apply I|eauto|done|exact Hn|exact Okn|done]. }
  set (d := peek (st_cells t) (m_data hn) (Z.to_nat c)) in *. assert (Hd : Z.of_nat (length d) = c) by (unfold d; rewrite peek_length; lia).
  assert (Ed' : d = take (Z.to_nat c) (window t n)).
  { unfold d, window. rewrite Hn. pose proof (peek_sub (st_cells t) (m_data hn) (Z.to_nat (m_len hn)) 0 (Z.to_nat c) ltac:(lia)) as P.
    rewrite Z.add_0_r, drop_0 in P. exact P. }
  destruct (inv_fill _ t m hm (w_len (m_len hm + c) hm) (m_data hm + m_len hm) d I Lm Hm He) as (I1 & Q1 & E1); try done; try (simpl; lia).
  set (t1 := s_mbuf _ _) in I1, Q1, E1.
  assert (Hn1 : st_mbuf t1 !! n = Some hn) by (cbn; by rewrite lookup_insert_ne).
  assert (Hm1 : st_mbuf t1 !! m = Some (w_len (m_len hm + c) hm)) by (cbn; by rewrite lookup_insert_eq).
  destruct (inv_well _ _ _ I1 Ln) as (h0 & H1 & Ok1). rewrite Hn1 in H1. injection H1 as <-.
  assert (Ok2 : mok t1 n hn') by (eapply mok_narrow; [exact Ok1|done|lia|lia|lia]).
  pose proof (inv_hdr _ t1 n hn hn' I1 Ln Hn1 En Ef Ok2) as I2. change (s_mbuf _ t1) with t' in I2.
  assert (R2 : reshaped [n] t1 t') by (apply (reshaped_set n (fun _ => hn') t1 hn); [done|done]).
  assert (Nm : m ∉ [n]) by (intros Hin; by apply list_elem_of_singleton in Hin).
  assert (Nk : n ∉ k) by (destruct (inv_suffix [] (n :: k) ([m] :: ls) t ltac:(by apply inv_swap)) as (_ & ND & _); by apply NoDup_cons in ND as [? _]).
  split_and!; try done.
  - eapply mapped_sub; [exact Mm|places..].
  - intros x Hx. apply Hsrc. lia.
  - apply or_comm, apart_intervals; [lia|lia|]. intros x Hx Hx'. destruct (Hsrc x ltac:(lia)). places.
  - rewrite (reshaped_window [n] t1 t' m R2 Nm). unfold window at 1 2. rewrite Hm1, Hm, <- Ed'. cbn [w_len m_data m_len t1 s_mbuf s_cells st_cells].
    rewrite Z2Nat.inj_add, peek_app by lia. rewrite Z2Nat.id by lia. f_equal; [apply peek_poke_out; lia|].
    replace (Z.to_nat c) with (length d) by lia. apply peek_poke.
  - assert (W1 : window t1 n = window t n) by (by apply Q1). rewrite <- W1. unfold window. cbn [t' s_mbuf st_mbuf]. rewrite lookup_insert_eq, Hn1, El.
    change (st_cells _) with (st_cells t1). destruct Ed as [Ed|[Ed Ec]].
    + rewrite Ed. pose proof (peek_sub (st_cells t1) (m_data hn) (Z.to_nat (m_len hn)) (Z.to_nat c) (Z.to_nat (m_len hn - c)) ltac:(lia)) as P.
      rewrite Z2Nat.id in P by lia. rewrite P. apply take_ge. rewrite length_drop, peek_length. lia.
    + subst c. rewrite Z.sub_diag. rewrite drop_ge; [done|]. rewrite peek_length. lia.
  - intros b Hb. rewrite (reshaped_window [n] t1 t' b R2) by (intros Hin; apply list_elem_of_singleton in Hin as ->; done).
    destruct (Lr b ltac:(by apply elem_of_cons; right)). by apply Q1.
  - intros b Hb. destruct (Ll b Hb) as (Hbl & Hbm & Hbn). destruct (Q1 b Hbl Hbm) as (A & B & C).
    assert (Nb : b ∉ [n]) by (intros Hin; by apply list_elem_of_singleton in Hin).
    split_and!; [by rewrite (rs_other _ _ _ R2)|done|by rewrite (reshaped_window [n] t1 t')].
  - intros v E. by eapply exact_reshaped, E1.
Qed.

Lemma s32_id z : - 2 ^ 31 <= z < 2 ^ 31 -> s32 z = z.
Proof. intros H. unfold s32, sext. bcases; word_lia. Qed.

Section Gather.
Context (m v : Z) (ls : list (list Z)).

(** The gathering loop, from a state where the head [m] and the rest [k] are two
    chains and [stale] hides it: the bytes of [m] and the rest stay in order, and the
    loop ends with enough of them, at the end of the chain or at an empty mbuf. *)
Definition gathered (t : mst) (k : list Z) (len : Z) (r : Z * Z) (u : mst) : Prop :=
  exists t' k', u = stale m v t' /\ r.2 = hd 0 k' /\ Inv ([m] :: k' :: ls) t' /\
    window t' m ++ data t' k' = window t m ++ data t k /\
    Z.of_nat (length (window t' m)) + r.1 = Z.of_nat (length (window t m)) + len /\
    quiet t t' (live ls t) /\ (forall w, exact_length t m w -> exact_length t' m w) /\
    (r.1 <= 0 \/ k' = [] \/ exists n k'', k' = n :: k'' /\ window t' n = []) /\
    (Forall (fun a => window t a <> []) k -> Forall (fun a => window t' a <> []) k').

Lemma gathered_done t k len : Inv ([m] :: k :: ls) t ->
  (len <= 0 \/ k = [] \/ exists n k'', k = n :: k'' /\ window t n = []) -> gathered t k len (len, hd 0 k) (stale m v t).
Proof. intros I H. exists t, k. split_and!; try done. Qed.

(** After one round from [t] to [t1], the rest of the rounds. *)
Lemma gathered_step t t1 n k k1 c len r u :
  quiet t t1 (live ls t) -> st_elsewhere t1 = st_elsewhere t -> (forall w, exact_length t m w -> exact_length t1 m w) ->
  window t1 m = window t m ++ take (Z.to_nat c) (window t n) -> (Z.to_nat c <= length (window t n))%nat -> 0 <= c ->
  data t1 k1 = drop (Z.to_nat c) (window t n) ++ data t k ->
  (Forall (fun a => window t a <> []) (n :: k) -> Forall (fun a => window t1 a <> []) k1) ->
  gathered t1 k1 (len - c) r u -> gathered t (n :: k) len r u.
Proof.
  intros Q E X W Hc H0 D F (t' & k' & -> & R2 & I' & D' & L' & Q' & X' & T' & F'). exists t', k'. split_and!; try done.
  - rewrite D', W, D, data_cons, <- !app_assoc. f_equal. by rewrite app_assoc, take_drop.
  - rewrite L', W, length_app, length_take. lia.
  - eapply quiet_trans; [exact Q|]. by rewrite (live_elsewhere ls t t1) in Q'.
  - auto.
  - auto.
Qed.

Lemma pullup_walk : forall fuel k t len space hm,
  Inv ([m] :: k :: ls) t -> st_mbuf t !! m = Some hm -> has (m_flags hm) M_EXT = false -> (length k <= fuel)%nat ->
  space = AMI_MBUF_END m - (m_data hm + m_len hm) -> - 2 ^ 30 <= len <= space ->
  wpm (pullup_from fuel m (hd 0 k) len space) (gathered t k len) (stale m v t).
Proof.
  induction fuel as [|fuel IH]; intros k t len space hm I Hm He Hf Hs Hl.
  { destruct k; [|simpl in Hf; lia]. cbn. rewrite orb_true_r. apply wpm_ret. by apply (gathered_done t [] len I); right; left. }
  destruct (suffix_step [] k ([m] :: ls) t ltac:(by apply inv_swap)) as [[-> Hz]|(n & k' & hn & -> & Hn0 & Hn & Okn & En & Nk & _ & Ln & Eln & Hln)].
  { cbn. rewrite orb_true_r. apply wpm_ret. by apply (gathered_done t [] len I); right; left. }
  destruct (inv_two _ _ _ _ _ I) as (Hne & Lm & _ & Ll & Lr).
  destruct (inv_well _ _ _ I Lm) as (h0 & H0 & Okm). rewrite Hm in H0. injection H0 as <-. destruct (k_int _ _ _ Okm He) as [Hb1 Hb2].
  pose proof (k_len _ _ _ Okm) as Hlm. assert (Hsp : 0 <= space <= 108) by (subst space; places).
  cbn [pullup_from hd]. destruct (Z.leb_spec len 0) as [Hl0|Hl0]; cbn [orb].
  { apply wpm_ret. apply (gathered_done t (n :: k') len I). by left. }
  rewrite (proj2 (Z.eqb_neq n 0)) by done.
  apply wpm_bind, (wpm_mb _ hn); [cbn; by rewrite lookup_alter_ne by done|]. cbv zeta.
  set (c := if space <? m_len hn then space else m_len hn).
  assert (Hc : c = Z.min space (m_len hn)) by (subst c; destruct (Z.ltb_spec space (m_len hn)); lia). clearbody c.
  destruct (Z.leb_spec c 0) as [Hc0|Hc0].
  { apply wpm_ret. apply (gathered_done t (n :: k') len I). right. right. exists n, k'. split; [done|].
    apply nil_length_inv. lia. }
  apply wpm_bind, (wpm_mb _ (w_next v hm)); [cbn; by rewrite lookup_alter_eq, Hm|]. cbn [w_next m_data m_len].
  assert (FIT : m_data hm + m_len hm + c <= AMI_MBUF_END m) by lia.
  rewrite (s32_id (len - c)), (s32_id (space - c)) by (unfold AMI_MBUF_END in *; places).
  apply wpm_bind, wpm_blind; [apply blind_copy|].
  set (hn1 := if c <? m_len hn then w_data (m_data hn + c) (w_len (m_len hn - c) hn) else w_len (m_len hn - c) hn).
  destruct (moved_spec m n k' ls t hm hn hn1 c I Hm Hn He) as (M1 & M2 & M3 & I1 & W1 & W2 & D1 & Q1 & X1); try done; try lia.
  1-4: subst hn1; destruct (Z.ltb_spec c (m_len hn)); cbn; try done; lia.
  set (t1 := s_mbuf _ _) in I1, W1, W2, D1, Q1, X1.
  apply wpm_copy_bytes; [lia|done|done|done|].
  apply wpm_bind, wpm_blind; [by apply blind_set_self|]. eapply wpm_set_mb; [exact Hm|].
  assert (E1 : s32 (m_len hm + c) = m_len hm + c) by (apply s32_id; unfold AMI_MBUF_END in *; places). rewrite E1.
  apply wpm_bind, wpm_blind; [by apply blind_set_mb|]. eapply wpm_set_mb; [cbn; rewrite lookup_insert_ne by done; exact Hn|].
  rewrite (s32_id (m_len hn - c)) by lia.
  apply wpm_bind, wpm_blind; [by apply blind_mb|]. eapply wpm_mb; [apply lookup_insert_eq|]. cbn [w_len m_len].
  assert (Hm1 : st_mbuf t1 !! m = Some (w_len (m_len hm + c) hm)) by (cbn; by rewrite lookup_insert_ne, lookup_insert_eq by done).
  assert (STEP : forall t2 k1, Inv ([m] :: k1 :: ls) t2 -> st_mbuf t2 !! m = Some (w_len (m_len hm + c) hm) ->
     (length k1 <= fuel)%nat \/ len - c <= 0 ->
     wpm (pullup_from fuel m (hd 0 k1) (len - c) (space - c)) (gathered t2 k1 (len - c)) (stale m v t2)).
  { intros t2 k1 I2 Hm2 Hfu. destruct (decide (len - c <= 0)) as [Hle|Hgt].
    - destruct fuel; cbn [pullup_from]; rewrite (proj2 (Z.leb_le _ 0)) by lia; cbn [orb]; apply wpm_ret; apply gathered_done; auto.
    - eapply (IH k1 t2 _ _ _ I2 Hm2); [done|destruct Hfu; [done|lia]|cbn; lia|lia]. }
  destruct (Z.ltb_spec 0 (m_len hn - c)) as [Hrest|Hall].
  - apply wpm_bind, wpm_blind; [by apply blind_set_mb|]. eapply wpm_set_mb; [apply lookup_insert_eq|].
    match goal with |- wpm _ _ (stale m v ?x) => replace x with t1 end.
    2: { unfold t1, hn1, s_mbuf. cbn. rewrite (proj2 (Z.ltb_lt c _)) by lia. by rewrite insert_insert_eq. }
    eapply wpm_mono; [apply (STEP t1 (n :: k') I1 Hm1); right; lia|]. intros r u G.
    eapply (gathered_step t t1 n k' (n :: k') c); try done; try lia; [by rewrite data_cons, W2, (data_windows t t1 k' D1)|].
    rewrite !Forall_cons. intros [F1 F2]. split.
    + rewrite W2. intros Hnil. apply (f_equal length) in Hnil. rewrite length_drop in Hnil. simpl in Hnil. lia.
    + rewrite Forall_forall in F2 |- *. intros b Hb. rewrite D1 by done. by apply F2.
  - match goal with |- wpm _ _ (stale m v ?x) => replace x with t1 end.
    2: { unfold t1, hn1, s_mbuf. cbn. rewrite (proj2 (Z.ltb_ge c _)) by lia. done. }
    apply wpm_bind, wpm_blind; [by apply blind_free|].
    eapply wpm_mono; [apply (free_spec n k' ([m] :: ls)); by apply inv_swap|]. intros r t2 (-> & I2 & Q2 & E2).
    assert (Qm : seen_same t1 t2 m) by (apply Q2; unfold live; simpl; clear; set_solver).
    assert (Qk : forall b, b ∈ k' -> window t2 b = window t b).
    { intros b Hb. rewrite <- (D1 b Hb). apply Q2. clear -Hb. unfold live. simpl. set_solver. }
    eapply wpm_mono; [apply (STEP t2 k'); [by apply inv_swap|by rewrite (proj1 Qm)|left; simpl in Hf; lia]|]. intros r u G.
    eapply (gathered_step t t2 n k' k' c); try done; try lia.
    + eapply quiet_trans; [exact Q1|]. eapply quiet_sub; [exact Q2|]. clear. unfold live. simpl. set_solver.
    + intros w Hw h Hh Hp. destruct Qm as (A & B & _). rewrite A in Hh. eapply long_at_ext; [|exact (X1 w Hw h Hh Hp)].
      intros x Hx. apply B. places.
    + destruct Qm as (_ & _ & ->). done.
    + rewrite (data_windows t t2 k' Qk). rewrite drop_ge by lia. done.
    + rewrite Forall_cons. intros [_ F2]. rewrite Forall_forall in F2 |- *. intros b Hb. rewrite Qk by done. by apply F2.
Qed.
End Gather.

(** ** ami_mbuf_pullup *)

(** The chain as it comes back: the same data, the first [len] bytes in the head. *)
Definition pulled (ls : list (list Z)) (d : list cell) (len x : Z) (s0 s' : mst) : Prop :=
  exists l' h', x = hd 0 l' /\ l' <> [] /\ Inv (l' :: ls) s' /\ data s' l' = d /\
    exact_length s' x (Z.of_nat (length d)) /\ quiet s0 s' (concat ls) /\ st_mbuf s' !! x = Some h' /\ len <= m_len h'.

Lemma stale_set m v t h n :
  st_mbuf t !! m = Some h ->
  s_mbuf (<[m := w_next n (w_next v h)]> (st_mbuf (stale m v t))) (stale m v t) = s_mbuf (<[m := w_next n h]> (st_mbuf t)) t.
Proof.
  intros Hm. unfold stale, s_mbuf. cbn. f_equal. apply map_eq. intros x.
  destruct (decide (x = m)) as [->|]; [by rewrite !lookup_insert_eq|by rewrite !lookup_insert_ne, lookup_alter_ne by done].
Qed.

Lemma gather_spec m v k ls t s0 hm len :
  Inv ([m] :: k :: ls) t -> st_mbuf t !! m = Some hm -> has (m_flags hm) M_EXT = false ->
  0 < len <= AMI_MBUF_END m - (m_data hm + m_len hm) ->
  exact_length t m (Z.of_nat (length (window t m ++ data t k))) -> quiet s0 t (concat ls) ->
  wpm (pullup_gather m (hd 0 k) len) (fun x s' =>
    (x = 0 /\ Inv ls s' /\ quiet s0 s' (concat ls) /\
     (Forall (fun a => window t a <> []) k -> Z.of_nat (length (data t k)) < len)) \/
    pulled ls (window t m ++ data t k) (m_len hm + len) x s0 s') (stale m v t).
Proof.
  intros I Hm He Hl E Q0. destruct (inv_well _ t m I) as (h0 & H0 & Okm); [unfold live; simpl; clear; set_solver|].
  rewrite Hm in H0. injection H0 as <-. pose proof (k_len _ _ _ Okm) as Hlm. destruct (k_int _ _ _ Okm He) as [Hb1 Hb2].
  assert (Wm : Z.of_nat (length (window t m)) = m_len hm) by (unfold window; rewrite Hm, peek_length; lia).
  unfold pullup_gather. apply wpm_bind, (wpm_mb _ (w_next v hm)); [cbn; by rewrite lookup_alter_eq, Hm|]. cbv zeta. cbn [w_next m_data m_len].
  apply wpm_bind, wpm_asks. eapply wpm_then.
  { apply (pullup_walk m v ls _ k t len _ hm I Hm He); [|done|lia]. cbn [stale st_mbuf s_mbuf]. rewrite <- size_dom, dom_alter_L, size_dom.
    eapply (chain_short k ([m] :: ls)). by apply inv_swap. }
  intros [len' n'] u (t' & k' & -> & Hn' & I' & D' & L' & Q' & X' & T' & F'). cbn [fst snd] in *. subst n'.
  destruct (inv_well _ t' m I') as (h' & Hm' & Okm'); [unfold live; simpl; clear; set_solver|]. pose proof (k_len _ _ _ Okm') as Hlm'.
  assert (Wm' : Z.of_nat (length (window t' m)) = m_len h') by (unfold window; rewrite Hm', peek_length; lia).
  apply wpm_bind. eapply wpm_set_mb; [cbn; by rewrite lookup_alter_eq, Hm'|]. rewrite (stale_set m v t' h' _ Hm').
  destruct (inv_link [] m k' ls t' h' I' Hm') as (I2 & D2 & Q2). cbn [app] in I2, D2, Q2. set (s2 := s_mbuf _ t') in *.
  rewrite data_one, D' in D2.
  assert (Q3 : quiet s0 s2 (concat ls)).
  { eapply quiet_trans; [exact Q0|]. eapply quiet_trans; [by apply quiet_concat|]. by apply quiet_concat. }
  destruct (Z.ltb_spec 0 len') as [Hfail|Hok].
  - eapply wpm_mono; [by apply (freem_null ls m k' s2 s0)|]. intros x s3 (? & ? & ?). left. split_and!; try done. intros F. specialize (F' F).
    destruct T' as [?|[->|(n & k'' & -> & Hw)]]; [lia| |by apply Forall_cons in F' as [? _]].
    apply (f_equal length) in D'. rewrite !length_app in D'. simpl in D'. lia.
  - apply wpm_ret. right. exists (m :: k'), (w_next (hd 0 k') h'). split_and!; try done.
    + intros h Hh Hp. cbn in Hh. rewrite lookup_insert_eq in Hh. injection Hh as <-.
      exact (X' _ E h' Hm' Hp).
    + cbn. by rewrite lookup_insert_eq.
    + cbn. lia.
Qed.

(** Taking the head off a chain. *)
Lemma inv_cut m k ls s h :
  Inv ((m :: k) :: ls) s -> st_mbuf s !! m = Some h ->
  let t := s_mbuf (<[m := w_next 0 h]> (st_mbuf s)) s in
  Inv ([m] :: k :: ls) t /\ (forall b, window t b = window s b) /\ s = stale m (m_next h) t /\ quiet s t (live ls s).
Proof.
  intros I0 Hh t. pose proof I0 as (fl & al & cf & I). pose proof I as [].
  assert (Emb : forall b, b <> m -> st_mbuf t !! b = st_mbuf s !! b) by (intros b Hb; by apply lookup_insert_ne).
  assert (Ea : st_mbuf t !! m = Some (w_next 0 h)) by apply lookup_insert_eq.
  assert (EN : forall b, b <> m -> mnext t b = mnext s b) by (intros b Hb; unfold mnext; by rewrite Emb).
  assert (W : forall b, window t b = window s b).
  { intros b. unfold window. destruct (decide (b = m)) as [->|]; [by rewrite Ea, Hh|by rewrite Emb]. }
  assert (SP : same_places s t).
  { split_and!; [|done|done]. intros b. destruct (decide (b = m)) as [->|]; [rewrite Ea, Hh; by split|by rewrite Emb]. }
  assert (Nl : m ∉ live ls s) by (apply (inv_disjoint _ _ _ m I0); by apply elem_of_cons; left).
  destruct (inv_suffix [] (m :: k) ls s I0) as (Hl & ND & Hin & _). cbn [app hd] in *. apply NoDup_cons in ND as [Nk _].
  assert (Nf : m ∉ fl).
  { intros Hf. apply NoDup_app in i_nodup as (_ & H & _). apply (H m Hf), Hin. by apply elem_of_cons; left. }
  split_and!; [|done| |].
  - exists fl, al, cf. eapply (inv_edit fl al cf _ _ s t); try done.
    + intros a Ha. apply EN. by intros ->.
    + rewrite Forall_cons in i_chains. destruct i_chains as [C1 C2]. destruct C1 as (_ & H0 & q & Eq & Hk). repeat constructor.
      * done.
      * exists 0. split; [|done]. unfold mnext. by rewrite Ea.
      * rewrite <- (linked_head _ _ _ Hk). eapply linked_ext; [|exact Hk]. intros a Ha. apply EN. by intros ->.
      * rewrite Forall_forall in C2 |- *. intros l Hll. eapply linked_ext; [|by apply C2]. intros a Ha. apply EN. intros ->.
        apply Nl. by eapply elem_of_live.
    + change (live ([m] :: k :: ls) t) with (live ((m :: k) :: ls) s). rewrite Forall_forall in i_live |- *. intros b Hb.
      destruct (i_live b Hb) as (hb & Hhb & Hok).
      destruct (decide (b = m)) as [->|Hne]; [|apply (well_same s t); [done|by apply Emb|done|by exists hb]].
      rewrite Hh in Hhb. injection Hhb as <-. exists (w_next 0 h). split; [done|]. destruct Hok. constructor; try done.
      intros He. destruct (k_ext He) as (e & f & n & ? & ? & ? & St & ? & ?). exists e, f, n. split_and!; try done. by eapply storage_same.
    + intros a _. unfold ext_at. destruct (decide (a = m)) as [->|]; [by rewrite Ea, Hh|by rewrite Emb].
  - unfold stale, t, s_mbuf. destruct s as [mbs ? ? ? ? ? ? ?]. cbn in *. f_equal. apply map_eq. intros x.
    destruct (decide (x = m)) as [->|]; [|by rewrite lookup_alter_ne, lookup_insert_ne by done].
    rewrite lookup_alter_eq, lookup_insert_eq, Hh. by destruct h.
  - intros b Hb. split_and!; [apply Emb; by intros ->|done|apply W].
Qed.

Section Pullup.
Context (AllocVec : mst -> Z -> Z) (others : mst -> mst).
Hypothesis HA : alloc_law AllocVec.
Hypothesis HO : others_law others.

(** What is asked can be had: the bytes are there, they fit an mbuf with a packet
    header, an mbuf is free, and no mbuf of the chain is empty. *)
Definition pullable (s : mst) (l : list Z) (len : Z) : Prop :=
  0 <= len <= MHLEN /\ len <= Z.of_nat (length (data s l)) /\ free_mbufs (st_pool s) <> 0 /\
  Forall (fun a => window s a <> []) l.

Lemma stale_blank t m : blank t m -> stale m 0 t = t.
Proof.
  intros (h & Hh & Hn & _). unfold stale, s_mbuf. destruct t as [mbs ? ? ? ? ? ? ?]. cbn in *. f_equal. apply map_eq. intros x.
  destruct (decide (x = m)) as [->|]; [|by rewrite lookup_alter_ne]. rewrite lookup_alter_eq, Hh. cbn. f_equal. destruct h. cbn in *. by subst.
Qed.

Lemma pullup_spec m r ls s len :
  Inv ((m :: r) :: ls) s -> len < 2 ^ 30 -> exact_length s m (Z.of_nat (length (data s (m :: r)))) ->
  wpm (ami_mbuf_pullup AllocVec others m len) (fun x s' =>
    (x = 0 /\ Inv ls s' /\ quiet s s' (concat ls) /\ ~ pullable s (m :: r) len) \/
    pulled ls (data s (m :: r)) len x s s') s.
Proof.
  intros I Hmax E. set (d := data s (m :: r)) in *. assert (Lm : m ∈ live ((m :: r) :: ls) s) by (unfold live; simpl; clear; set_solver).
  destruct (inv_mapped _ _ _ I Lm) as [_ H0]. destruct (inv_well _ _ _ I Lm) as (h & Hm & Hok). pose proof (k_len _ _ _ Hok) as Hl.
  assert (Hnx : m_next h = hd 0 r).
  { destruct (suffix_step [] (m :: r) ls s I) as [[? _]|(a & k & h' & [= <- <-] & _ & Hh' & _ & En & _)]; [done|]. rewrite Hm in Hh'. by injection Hh' as <-. }
  unfold ami_mbuf_pullup. rewrite (proj2 (Z.eqb_neq m 0)) by lia.
  destruct (Z.ltb_spec len 0) as [Hneg|Hpos].
  { eapply wpm_mono; [by apply (freem_null ls m r s s)|]. intros x s' (? & ? & ?). left. split_and!; try done. intros [? _]. lia. }
  apply wpm_bind, (wpm_mb _ h); [done|].
  destruct ((len =? 0) || (len <=? m_len h)) eqn:Eshort.
  { apply wpm_ret. right. exists (m :: r), h. split_and!; try done.
    apply orb_true_iff in Eshort as [?%Z.eqb_eq|?%Z.leb_le]; lia. }
  apply orb_false_iff in Eshort as [?%Z.eqb_neq ?%Z.leb_gt].
  destruct (negb (has (m_flags h) M_EXT) && negb (m_next h =? 0) && (m_data h + len <=? AMI_MBUF_END m)) eqn:Ecase.
  - apply andb_true_iff in Ecase as [[He _]%andb_true_iff Hfit%Z.leb_le]. apply negb_true_iff in He.
    destruct (inv_cut m r ls s h I Hm) as (It & Wt & Es & Qt). set (t := s_mbuf _ s) in It, Wt, Es, Qt.
    assert (Dt : window t m ++ data t r = d) by (unfold d; rewrite Wt, (data_windows s t r); [done|]; intros; apply Wt).
    rewrite Hnx, s32_id by lia. rewrite Es at 1. eapply wpm_mono.
    + eapply (gather_spec m (m_next h) r ls t s (w_next 0 h)); [done|apply lookup_insert_eq|done|cbn; lia| |by apply quiet_concat].
      rewrite Dt. intros k Hk Hp. cbn in Hk. rewrite lookup_insert_eq in Hk. injection Hk as <-. exact (E h Hm Hp).
    + intros x s' [(? & ? & ? & Hc)|G]; [left|right].
      * split_and!; try done. intros (_ & P2 & _ & P4). apply Forall_cons in P4 as [_ P4].
        assert (F : Forall (fun a => window t a <> []) r) by (eapply Forall_impl; [exact P4|]; intros a; cbn; by rewrite Wt).
        specialize (Hc F). fold d in P2. apply (f_equal length) in Dt. rewrite length_app, Wt in Dt. unfold window in Dt at 1. rewrite Hm, peek_length in Dt. lia.
      * rewrite Dt in G. cbn [w_next m_len] in G. by replace (m_len h + (len - m_len h)) with len in G by lia.
  - apply (new_head AllocVec others HA HO m r ls s h (Z.of_nat (length d)) (fun k => w_len 0 (w_type (m_type h) k))); try done.
    + intros s1 I1 Q1 F1. eapply wpm_mono; [by apply (freem_null ls m r s1 s)|]. intros x s' (? & ? & ?). left. split_and!; try done.
      by intros (_ & _ & ? & _).
    + intros mn s1 Hmn I1 B1 E1 W1 Q1 _. pose proof B1 as (hn & Hn & Hn0 & Hln & Hen & Hdn).
      apply wpm_bind, (wpm_mb _ hn); [done|].
      destruct (Z.ltb_spec (AMI_MBUF_END mn - AMI_MBUF_BASE mn hn) len) as [Hbig|Hfit].
      * apply wpm_bind. eapply wpm_set_mb; [exact Hn|]. destruct (inv_link [] mn (m :: r) ls s1 hn I1 Hn) as (I2 & _ & Q2).
        cbn [app hd] in I2, Q2. eapply wpm_mono; [eapply (freem_null ls mn (m :: r) _ s I2)|].
        { eapply quiet_trans; [exact Q1|]. by apply quiet_concat. }
        intros x s' (? & ? & ?). left. split_and!; try done. intros ([_ P1] & _). unfold MHLEN in P1. places.
      * assert (Wmn : window s1 mn = []) by (unfold window; by rewrite Hn, Hln).
        assert (Dk : data s1 (m :: r) = d) by (by apply data_windows).
        rewrite <- (stale_blank s1 mn B1) at 1. eapply wpm_mono.
        -- eapply (gather_spec mn 0 (m :: r) ls s1 s hn len I1 Hn Hen); [rewrite Hdn, Hln; lia| |done]. by rewrite Wmn, Dk.
        -- rewrite Wmn, Dk. cbn [app]. intros x s' [(? & ? & ? & Hc)|G]; [left|right; rewrite Hln in G; exact G].
           split_and!; try done. intros (_ & P2 & _ & P4).
           assert (F : Forall (fun a => window s1 a <> []) (m :: r)).
           { rewrite Forall_forall in P4 |- *. intros a Ha. rewrite W1 by done. by apply P4. }
           specialize (Hc F). fold d in P2. lia.
Qed.
End Pullup.
