(* ===== verification/MbufCluster.v ===== *)
(** * Clusters

    Taking a cluster ([ami_mbuf_cluster_get]) and putting it behind an mbuf
    ([ami_mbuf_clget], [ami_mbuf_getcl]).  Between the two the cluster has its first
    reference and no mbuf refers to it: [held].  [others_hold] is what the other tasks
    keep in that state. *)

From Stdlib Require Import ZArith Lia.
From stdpp Require Import base numbers list gmap.
From S2P Require Import Prelude.
From S2P Require Import MbufAlloc.
From S2P Require Import MbufInv.
From S2P Require Import MbufFree.
From S2P Require Import MbufGet.
From S2P Require Import MbufChain.
From S2P Require Import MbufJoin.
From S2P Require Import MbufPull.

#[local] Set Warnings "-clear-no-such-hyp".

(** ** A cluster in hand *)

(** [s'] is [s0], which satisfies the invariant with [c] first on the free list, after
    [c] was taken off it and given its first reference. *)
Record held_from (fl al cf : list Z) (ls : list (list Z)) (c : Z) (s0 s' : mst) : Prop := {
  hf_inv : inv_of fl al (c :: cf) ls s0;
  hf_mbuf : st_mbuf s' = st_mbuf s0;
  hf_cells : st_cells s' = st_cells s0;
  hf_elsewhere : st_elsewhere s' = st_elsewhere s0;
  hf_cluster : exists k, st_cluster s0 !! c = Some k /\ st_cluster s' = <[c := Cluster (all_next k) 0 1]> (st_cluster s0);
  hf_mbufs : free_mbufs (st_pool s') = free_mbufs (st_pool s0) /\ mbufs_free (st_pool s') = mbufs_free (st_pool s0) /\
    mbufs_total (st_pool s') = mbufs_total (st_pool s0);
  hf_limits : limits (st_pool s');
  hf_all : clusters_all (st_pool s') = clusters_all (st_pool s0) /\ clusters_total (st_pool s') = clusters_total (st_pool s0);
  hf_free : clusters_free (st_pool s') = hd 0 cf /\ clusters_free_count (st_pool s') = Z.of_nat (length cf);
  hf_inited : inited (st_pool s') = true
}.

Definition held (ls : list (list Z)) (c : Z) (s s' : mst) : Prop :=
  exists s0 fl al cf, held_from fl al cf ls c s0 s' /\ quiet s s0 (concat ls).

(** The other tasks leave a cluster in hand alone. *)
Definition others_hold (others : mst -> mst) : Prop :=
  forall fl al cf ls c s0 s, held_from fl al cf ls c s0 s ->
    held ls c s (others s) /\
    forall p n, untaken ls s p n -> st_heap s !! p = Some (n, true) ->
      untaken ls (others s) p n /\ st_heap (others s) !! p = Some (n, true) /\
      forall x, p <= x < p + n -> st_cells (others s) !! x = st_cells s !! x.

Lemma wpm_cluster_pop fl al cf ls c s :
  inv_of fl al (c :: cf) ls s -> inited (st_pool s) = true ->
  wpm (cluster_pop c) (fun _ s' => held_from fl al cf ls c s s' /\ st_heap s' = st_heap s) s.
Proof.
  intros I Hi. pose proof I as []. destruct i_cfree as (Ec & H0 & q & Eq & Hl).
  unfold fnext in Eq. destruct (st_cluster s !! c) as [k|] eqn:Hk; [|done]. simpl in Eq. injection Eq as <-.
  unfold cluster_pop. apply wpm_bind, (wpm_cl _ k); [done|]. apply wpm_bind, wpm_pool_set.
  eapply wpm_set_cl; [exact Hk|]. split; [|done]. constructor; try done.
  - exists k. done.
  - cbn. split; [by apply (linked_head _ _ _ Hl)|]. rewrite i_cfree_count. rewrite u32_small; [simpl; lia|].
    assert (length (c :: cf) <= length al)%nat by (apply submseteq_length, NoDup_submseteq; [done|auto]).
    pose proof (i_ctotal_max _ _ _ _ _ I). simpl in *. unfold is_u32. lia.
Qed.

(** ** A new cluster *)

Lemma refs_zero s L c : (forall a, a ∈ L -> ext_at s a <> Some (AMI_CLUSTER_DATA c)) -> refs s L c = 0%nat.
Proof.
  intros H. induction L as [|a L IH]; [done|]. rewrite refs_cons, refs_one, decide_False by (apply H; set_solver).
  rewrite IH; [done|]. intros b Hb. apply H. set_solver.
Qed.

Lemma inv_new_cluster fl al cf ls s s' c :
  inv_of fl al cf ls s -> untaken ls s c CLUSTER_BYTES ->
  st_cluster s' = <[c := Cluster (clusters_all (st_pool s)) (clusters_free (st_pool s)) 0]> (st_cluster s) ->
  st_mbuf s' = st_mbuf s -> st_cells s' = st_cells s -> st_elsewhere s' = st_elsewhere s ->
  free_mbufs (st_pool s') = free_mbufs (st_pool s) -> mbufs_free (st_pool s') = mbufs_free (st_pool s) ->
  mbufs_total (st_pool s') = mbufs_total (st_pool s) -> limits (st_pool s') ->
  clusters_all (st_pool s') = c -> clusters_total (st_pool s') = clusters_total (st_pool s) + 1 ->
  clusters_free (st_pool s') = c -> clusters_free_count (st_pool s') = clusters_free_count (st_pool s) + 1 ->
  inv_of fl (c :: al) (c :: cf) ls s' /\ quiet s s' (live ls s).
Proof.
  intros I U Ec Em Ex Ee P1 P2 P3 P4 P5 P6 P7 P8. pose proof I as [].
  destruct (untaken_apart _ _ _ _ U ltac:(places)) as (A1 & A2 & A3). destruct U as [(Hc0 & _ & Hc1) Hcm _].
  assert (EL : live ls s' = live ls s) by (unfold live; by rewrite Ee).
  assert (Nc : st_cluster s !! c = None).
  { apply eq_None_not_Some. intros Hc. specialize (A2 c Hc). places. }
  assert (Na : c ∉ al) by (intros H; apply i_all_dom in H; rewrite Nc in H; by destruct H).
  assert (Ecl : forall b, b <> c -> st_cluster s' !! b = st_cluster s !! b) by (intros b Hb; rewrite Ec; by apply lookup_insert_ne).
  assert (HS : forall b, is_Some (st_cluster s' !! b) <-> b = c \/ is_Some (st_cluster s !! b)).
  { intros b. destruct (decide (b = c)) as [->|Hne]; [rewrite Ec, lookup_insert_eq|rewrite Ecl by done]; naive_solver. }
  assert (EN : mnext s' = mnext s) by (unfold mnext; by rewrite Em).
  assert (Q : quiet s s' (live ls s)).
  { intros b Hb. split_and!; [by rewrite Em|intros x _; by rewrite Ex|]. unfold window. by rewrite Em, Ex. }
  split; [|done]. rewrite Forall_forall in i_live.
  constructor; rewrite ?EL, ?EN, ?Em, ?P1, ?P2, ?P3, ?P5, ?P6, ?P7, ?P8; try done.
  - destruct i_geom. constructor; rewrite ?Em, ?Ex; try done.
    + intros b [->|Hb]%HS; [|by apply g_cluster]. split_and!; [done|done|done].
    + intros a b Ha [->|Hb]%HS; [|by apply g_mbuf_cluster]. specialize (A1 a Ha). lia.
    + intros a b [->|Ha]%HS [->|Hb]%HS Hne; [done| | |by apply g_cluster_cluster].
      * specialize (A2 b Hb). lia.
      * specialize (A2 a Ha). lia.
  - apply Forall_forall. intros b Hb. destruct (i_live b Hb) as (h & Hh & Hok). exists h. rewrite Em. split; [done|].
    destruct Hok. constructor; rewrite ?Ex; try done. intros He.
    destruct (k_ext He) as (e & f & n & L1 & L2 & L3 & St & R). exists e, f, n. split_and!; try done; [|apply R..].
    destruct St as [(-> & d & -> & Hd)|F]; [left; split; [done|]; exists d; split; [done|apply HS; by right]|right].
    pose proof F as (F1 & F2 & F3 & F4 & F5). split_and!; rewrite ?Em, ?Ex; try done. intros d [->|Hd]%HS; [|by apply F5].
    specialize (A3 b h e n Hb Hh He L1 L3 F). lia.
  - split; [done|]. split; [lia|]. exists (clusters_all (st_pool s)). split; [unfold cnext; by rewrite Ec, lookup_insert_eq|].
    eapply linked_ext; [|exact i_all]. intros b Hb. unfold cnext. rewrite Ecl; [done|]. by intros ->.
  - intros b. rewrite HS, i_all_dom. by rewrite elem_of_cons.
  - by apply NoDup_cons.
  - simpl. lia.
  - split; [done|]. split; [lia|]. exists (clusters_free (st_pool s)). split; [unfold fnext; by rewrite Ec, lookup_insert_eq|].
    eapply linked_ext; [|exact i_cfree]. intros b Hb. unfold fnext. rewrite Ecl; [done|]. intros ->. by apply Na, i_cfree_all.
  - apply NoDup_cons. split; [|done]. intros H. by apply Na, i_cfree_all.
  - simpl. lia.
  - intros b Hb. apply elem_of_cons in Hb as [->|Hb]; apply elem_of_cons; [by left|right; auto].
  - intros b k Hk. rewrite (refs_same s s') by (intros a Ha; destruct (Q a Ha) as (? & ? & _); by apply ext_at_same).
    destruct (decide (b = c)) as [->|Hne].
    + rewrite Ec, lookup_insert_eq in Hk. injection Hk as <-. cbn. split; [|split; [done|intros _; by apply elem_of_cons; left]].
      rewrite refs_zero; [done|]. intros a Ha Ea. destruct (i_live a Ha) as (h & Hh & Hok).
      destruct (has (m_flags h) M_EXT) eqn:He; [|rewrite (ext_at_none _ _ _ Hh He) in Ea; done].
      destruct (k_ext _ _ _ Hok He) as (e & f & n & L1 & L2 & L3 & St & _). rewrite (ext_at_long _ _ _ _ Hh He L1) in Ea.
      injection Ea as ->. destruct St as [(_ & d & Ed & Hd)|F].
      * apply cluster_data_inj in Ed as <-. rewrite Nc in Hd. by destruct Hd.
      * specialize (A3 a h _ n Ha Hh He L1 L3 F). pose proof (proj1 (proj2 F)). places.
    + rewrite Ecl in Hk by done. destruct (i_refs b k Hk) as [R F]. split; [done|]. rewrite elem_of_cons, <- F. naive_solver.
Qed.

(** ** ami_mbuf_cluster_get *)

Section Get.
Context (AllocVec : mst -> Z -> Z) (others : mst -> mst).
Hypothesis HA : alloc_law AllocVec.
Hypothesis HO : others_law others.
Hypothesis HH : others_hold others.

Lemma reach_held fl al cf ls c s0 s x : held_from fl al cf ls c s0 s -> reach ls s x <-> reach ls s0 x.
Proof.
  intros []. destruct hf_cluster0 as (k & Hk & Ec).
  assert (HS : forall b, is_Some (st_cluster s !! b) <-> is_Some (st_cluster s0 !! b)).
  { intros b. rewrite Ec. destruct (decide (b = c)) as [->|]; [rewrite lookup_insert_eq, Hk; by split|by rewrite lookup_insert_ne]. }
  unfold reach, foreign. rewrite hf_mbuf0, hf_cells0. replace (live ls s) with (live ls s0) by (unfold live; by rewrite hf_elsewhere0).
  setoid_rewrite HS. done.
Qed.

Lemma untaken_held fl al cf ls c s0 s p n : held_from fl al cf ls c s0 s -> untaken ls s0 p n -> untaken ls s p n.
Proof.
  intros H []. constructor; [done| |].
  - by rewrite (hf_cells _ _ _ _ _ _ _ H).
  - intros x Hx Hr. apply (u_none x Hx). by apply (reach_held _ _ _ _ _ _ _ x H) in Hr.
Qed.

(** A block may go back while a cluster is in hand. *)
Lemma free_block_held ls c s s1 p n :
  held ls c s s1 -> untaken ls s1 p n -> 0 < n -> st_heap s1 !! p = Some (n, true) ->
  wpm (ami_free p) (fun _ s' => held ls c s s') s1.
Proof.
  intros (s0 & fl & al & cf & H & Q) U Hn Hh. pose proof H as [].
  destruct hf_cluster0 as (k & Hk & Ec). destruct (untaken_apart _ _ _ _ U Hn) as (A1 & A2 & _). destruct U as [R M N].
  unfold ami_free, wpm. rewrite (proj2 (Z.eqb_neq p 0)) by lia. rewrite Hh. eexists _, _. split; [reflexivity|].
  match goal with |- held _ _ _ ?t => set (s' := t) end.
  assert (FI : forall V (mp : gmap Z V), (forall a, is_Some (mp !! a) -> ~ within_block p n a) ->
            filter (fun x => ~ within_block p n x.1) mp = mp).
  { intros V mp Hmp. apply map_filter_id. intros a v Ha. apply Hmp. eauto. }
  assert (E1 : st_mbuf s' = st_mbuf s1).
  { apply FI. intros a Ha Hb. specialize (A1 a Ha). unfold within_block in Hb. places. }
  assert (E2 : st_cluster s' = st_cluster s1).
  { apply FI. intros a Ha Hb. specialize (A2 a Ha). unfold within_block in Hb. places. }
  destruct (inv_same fl al (c :: cf) ls s0 (s_cells (st_cells s') s0) hf_inv0) as [I' Q']; try done.
  - intros x Hx. cbn. rewrite <- hf_cells0. destruct (st_cells s1 !! x) as [v|] eqn:Hv.
    + apply map_lookup_filter_Some. split; [done|]. intros Hb. apply (N x Hb). by eapply reach_held.
    + apply map_lookup_filter_None. by left.
  - apply (i_limits _ _ _ _ _ hf_inv0).
  - exists (s_cells (st_cells s') s0), fl, al, cf. split; [|eapply quiet_trans; [exact Q|by apply quiet_concat]].
    constructor; try done.
    + by rewrite E1.
    + exists k. by rewrite E2.
Qed.

Lemma held_kept ls c s s1 s2 : kept ls s s1 -> held ls c s1 s2 -> held ls c s s2.
Proof. intros (_ & Q1 & _) (s0 & fl & al & cf & H & Q). exists s0, fl, al, cf. split; [done|]. by eapply quiet_trans. Qed.

(** NULL, or a cluster in hand; never NULL when the pool has a free one. *)
Lemma cluster_get_spec ls s :
  Inv ls s -> wpm (ami_mbuf_cluster_get AllocVec others) (fun c s' =>
    (c = 0 /\ kept ls s s') \/ (c <> 0 /\ held ls c s s')) s.
Proof.
  intros I. unfold ami_mbuf_cluster_get. eapply wpm_then; [by apply ensure_init_spec|]. intros [] s1 [K1 _].
  pose proof K1 as (I1 & Q1 & Hi1). apply wpm_bind, wpm_pool_get.
  assert (POP : forall s2, kept ls s s2 -> clusters_free (st_pool s2) <> 0 ->
    wpm (cluster_pop (clusters_free (st_pool s2))) (fun _ s' => held ls (clusters_free (st_pool s2)) s s' /\ st_heap s' = st_heap s2 /\
      exists fl al cf, held_from fl al cf ls (clusters_free (st_pool s2)) s2 s') s2).
  { intros s2 ((fl & al & cf & I2) & Q2 & Hi2) H0. pose proof (i_cfree _ _ _ _ _ I2) as Hl. destruct cf as [|c cf]; [done|].
    destruct Hl as (-> & _). eapply wpm_mono; [by apply (wpm_cluster_pop fl al cf ls c s2)|].
    intros [] s' [H Hh]. split_and!; [by exists s2, fl, al, cf|done|by exists fl, al, cf]. }
  destruct (Z.eqb_spec (clusters_free (st_pool s1)) 0) as [Ef|Ef]; cbn [negb].
  2: { eapply wpm_then; [by apply POP|]. intros [] s2 (H2 & _). apply wpm_ret. by right. }
  apply wpm_bind, wpm_pool_get. unfold id. destruct (Z.leb_spec (max_clusters (st_pool s1)) (clusters_total (st_pool s1))) as [Hfull|Hroom].
  { apply wpm_bind, wpm_pool_set, wpm_ret. left. split; [done|]. eapply kept_trans; [exact K1|]. by apply drop_spec. }
  assert (Hb : CLUSTER_SIZE +w MCLBYTES = CLUSTER_BYTES) by done. rewrite Hb.
  eapply wpm_then; [by apply (unlocked_alloc_spec AllocVec others ls)|]. intros c s2 (I2 & Q2 & Hi2 & Hc).
  assert (K2 : kept ls s s2) by (split_and!; [done|by eapply quiet_trans|done]).
  destruct (Z.eqb_spec c 0) as [->|H0].
  { apply wpm_bind, wpm_pool_set, wpm_ret. left. split; [done|]. eapply kept_trans; [exact K2|]. by apply drop_spec. }
  destruct Hc as [?|[U2 Hh2]]; [done|]. apply wpm_bind, wpm_pool_get. unfold id.
  destruct (Z.leb_spec (max_clusters (st_pool s2)) (clusters_total (st_pool s2))) as [Hfull2|Hroom2].
  - cbv zeta. destruct (Z.eqb_spec (clusters_free (st_pool s2)) 0) as [Ef2|Ef2]; cbn [negb].
    + apply wpm_bind, wpm_pool_set. set (s3 := s_pool _ s2). pose proof (drop_spec ls s2 I2 Hi2) as K3. fold s3 in K3.
      apply wpm_bind, wpm_modify. destruct (HO ls s3 (proj1 K3)) as (I4 & Q4 & E4 & U4). destruct (U4 c CLUSTER_BYTES) as (U5 & H5 & _); [|done|].
      { destruct U2. constructor; try done. }
      eapply wpm_then; [eapply (free_block_spec ls _ c); [done|exact U5|done|done]|]. intros [] s5 (I5 & Q5 & P5). apply wpm_ret. left.
      rewrite Ef2. split; [done|]. eapply kept_trans; [exact K2|]. eapply kept_trans; [exact K3|].
      split_and!; [done|eapply quiet_trans; [exact Q4|by apply quiet_concat]|rewrite P5; by apply E4].
    + eapply wpm_then; [by apply POP|]. intros [] s3 (H3 & Hh3 & fl & al & cf & F3). apply wpm_bind, wpm_modify.
      destruct (HH _ _ _ _ _ _ _ F3) as [H4 U4]. destruct (U4 c CLUSTER_BYTES) as (U5 & H5 & _); [by eapply untaken_held|by rewrite Hh3|].
      eapply wpm_then; [eapply free_block_held; [exact H4|exact U5|done|done]|]. intros [] s5 H5'. apply wpm_ret. right. split; [done|].
      destruct H3 as (s0 & fl0 & al0 & cf0 & F0 & Q0). destruct H5' as (s6 & fl6 & al6 & cf6 & F6 & Q6). exists s6, fl6, al6, cf6. split; [done|].
      eapply quiet_trans; [exact Q0|]. eapply quiet_trans; [|exact Q6]. intros b Hbl.
      split_and!; [by rewrite (hf_mbuf _ _ _ _ _ _ _ F0)|intros x _; by rewrite (hf_cells _ _ _ _ _ _ _ F0)|].
      unfold window. by rewrite (hf_mbuf _ _ _ _ _ _ _ F0), (hf_cells _ _ _ _ _ _ _ F0).
  - apply wpm_bind, wpm_modify, wpm_bind, wpm_pool_set, wpm_ret. right. split; [done|].
    destruct I2 as (fl & al & cf & I2'). pose proof (i_limits _ _ _ _ _ I2') as (L1 & L2 & L3 & L4). rewrite Hi2 in L3, L4.
    pose proof (i_ctotal _ _ _ _ _ I2') as Ct.
    set (p := st_pool s2) in *. set (s3 := s_pool _ _).
    set (s0 := s_pool (p_clfree c (clusters_free_count p + 1) 0 (p_clusters c (clusters_total p + 1) p))
                 (s_cluster (<[c := Cluster (clusters_all p) (clusters_free p) 0]> (st_cluster s2)) s2)).
    destruct (inv_new_cluster fl al cf ls s2 s0 c I2' U2) as [I0 Q0]; try done.
    { split_and!; cbn; rewrite ?Hi2; try apply L1; try apply L2; fold p; lia. }
    exists s0, fl, (c :: al), cf. split; [|eapply quiet_trans; [apply K2|by apply quiet_concat]].
    assert (Et : clusters_total p +w 1 = clusters_total p + 1) by (apply u32_small; word_lia).
    constructor; try done.
    + exists (Cluster (clusters_all p) (clusters_free p) 0). split; [cbn; by rewrite lookup_insert_eq|]. cbn. by rewrite insert_insert_eq.
    + split_and!; cbn -[u32 Z.add]; fold p; rewrite ?Hi2, ?Et; try apply L1; try apply L2; lia.
    + split; [exact (linked_head _ _ _ (i_cfree _ _ _ _ _ I2'))|exact (i_cfree_count _ _ _ _ _ I2')].
Qed.

(** ** Putting a cluster behind an mbuf *)

Lemma refs_perm s L K c : L ≡ₚ K -> refs s L c = refs s K c.
Proof. intros P. unfold refs. apply Permutation_length. by apply filter_Permutation. Qed.

Lemma refs_gain s s' L m c d :
  NoDup L -> m ∈ L -> (forall a, a ∈ L -> a <> m -> ext_at s' a = ext_at s a) ->
  ext_at s m = None -> ext_at s' m = Some (AMI_CLUSTER_DATA c) ->
  refs s' L d = ((if decide (d = c) then 1 else 0) + refs s L d)%nat.
Proof.
  intros ND Hm Ho E0 E1. apply elem_of_Permutation in Hm as [K P]. rewrite P in ND. apply NoDup_cons in ND as [Nm _].
  rewrite !(refs_perm _ L (m :: K)) by done. rewrite (refs_cons s' m), (refs_cons s m), !refs_one, E0, E1.
  rewrite (refs_same s s' K) by (intros a Ha; apply Ho; [rewrite P; by apply elem_of_cons; right|by intros ->]).
  destruct (decide (d = c)) as [->|Hd]; [by rewrite decide_True, decide_False|].
  rewrite !decide_False; [done|done|]. intros [= E]. apply Hd, cluster_data_inj. by rewrite E.
Qed.

Lemma flags_ext f : 0 <= f < 2 ^ 15 -> let g := word (Z.lor f M_EXT) in
  0 <= g < 2 ^ 15 /\ has g M_EXT = true /\ has g M_PKTHDR = has f M_PKTHDR.
Proof.
  intros Hf. assert (R : 0 <= Z.lor f M_EXT < 2 ^ 15) by (apply lor_range; [lia|done|unfold M_EXT; lia]).
  cbv zeta. rewrite word_small by done. rewrite !has_lor. split_and!; try apply R.
  - by rewrite orb_true_r.
  - change (has M_EXT M_PKTHDR) with false. by rewrite orb_false_r.
Qed.

Lemma inv_attach fl al cf ls c s0 s1 m h h' cs :
  held_from fl al cf ls c s0 s1 -> m ∈ live ls s0 -> st_mbuf s0 !! m = Some h -> has (m_flags h) M_EXT = false ->
  m_next h' = m_next h -> m_len h' = 0 -> m_data h' = AMI_CLUSTER_DATA c -> m_flags h' = word (Z.lor (m_flags h) M_EXT) ->
  (forall x, is_Some (st_cells s0 !! x) -> is_Some (cs !! x)) ->
  (forall x, ~ (m + 28 <= x < m + 40) -> cs !! x = st_cells s0 !! x) ->
  long_at cs (ext_buf m) (AMI_CLUSTER_DATA c) -> long_at cs (ext_free m) 0 -> long_at cs (ext_size m) MCLBYTES ->
  let s' := s_mbuf (<[m := h']> (st_mbuf s1)) (s_cells cs s1) in
  inv_of fl al cf ls s' /\ (forall b, b ∈ live ls s0 -> b <> m -> seen_same s0 s' b) /\
  (forall n, exact_length s0 m n -> exact_length s' m n) /\ refs s' (live ls s0) c = 1%nat.
Proof.
  intros [I Em Ex Ee (kc & Hkc & Ec) (P1 & P2 & P3) PL (P4 & P5) (P6 & P7) _] Lm Hm He En Hl Hd Hf Hmap Hout L1 L2 L3 s'.
  pose proof I as []. rewrite Forall_forall in i_live. destruct (i_live m Lm) as (h0 & H0 & Hok). rewrite Hm in H0. injection H0 as <-.
  destruct (flags_ext _ (k_flags _ _ _ Hok)) as (F1 & F2 & F3). rewrite <- Hf in F1, F2, F3.
  assert (Emb : forall b, b <> m -> st_mbuf s' !! b = st_mbuf s0 !! b) by (intros b Hb; cbn; by rewrite Em, lookup_insert_ne).
  assert (Ea : st_mbuf s' !! m = Some h') by apply lookup_insert_eq.
  assert (EN : forall b, mnext s' b = mnext s0 b).
  { intros b. unfold mnext. destruct (decide (b = m)) as [->|]; [rewrite Ea, Hm; simpl; by rewrite En|by rewrite Emb]. }
  assert (Ecl : forall b, b <> c -> st_cluster s' !! b = st_cluster s0 !! b) by (intros b Hb; cbn; by rewrite Ec, lookup_insert_ne).
  assert (Ecc : st_cluster s' !! c = Some (Cluster (all_next kc) 0 1)) by (cbn; by rewrite Ec, lookup_insert_eq).
  assert (EL : live ls s' = live ls s0) by (unfold live; cbn; by rewrite Ee).
  assert (SP : same_places s0 s').
  { split_and!; [intros b|intros b|done].
    - destruct (decide (b = m)) as [->|]; [rewrite Ea, Hm; by split|by rewrite Emb].
    - destruct (decide (b = c)) as [->|]; [rewrite Ecc, Hkc; by split|by rewrite Ecl]. }
  assert (Q : forall b, b ∈ live ls s0 -> b <> m -> seen_same s0 s' b).
  { intros b Hb Hne. apply (window_other s0 s' m b); [done|eauto|done|by apply i_live|by apply Emb|]. intros x Hx. apply Hout. places. }
  assert (XM : ext_at s' m = Some (AMI_CLUSTER_DATA c)) by (by eapply ext_at_long).
  assert (XO : forall b, b ∈ live ls s0 -> b <> m -> ext_at s' b = ext_at s0 b).
  { intros b Hb Hne. destruct (Q b Hb Hne) as (? & ? & _). by apply ext_at_same. }
  assert (ND : NoDup (live ls s0)) by (by apply NoDup_app in i_nodup as (_ & _ & ?)).
  assert (RG : forall d, refs s' (live ls s0) d = ((if decide (d = c) then 1 else 0) + refs s0 (live ls s0) d)%nat).
  { intros d. apply (refs_gain s0 s' _ m c d ND Lm XO); [by eapply ext_at_none|done]. }
  destruct (i_refs c kc Hkc) as [Rc Fc]. assert (R0 : refs s0 (live ls s0) c = 0%nat).
  { assert (refcnt kc = 0) by (apply Fc; by apply elem_of_cons; left). lia. }
  apply NoDup_cons in i_cfree_nodup as [Nc NDc]. destruct i_cfree as (_ & _ & q & Eq & Hcf).
  assert (LP : has (m_flags h) M_PKTHDR = true -> forall o w, 20 <= o <= 24 -> long_at (st_cells s0) (m + o) w -> long_at cs (m + o) w).
  { intros Hp o w Ho. apply long_at_ext. intros x Hx. apply Hout. lia. }
  split_and!; [|done| |].
  - assert (Ep : st_pool s' = st_pool s1) by done. constructor; rewrite ?EL, ?Ep; try done.
    + by eapply geom_same.
    + rewrite P1. eapply linked_ext; [|exact i_free]. intros; apply EN.
    + by rewrite P2.
    + by rewrite P3.
    + intros b. rewrite (proj1 SP b). apply i_dom.
    + rewrite Forall_forall in i_chains |- *. intros l Hl'. eapply linked_ext; [|by apply i_chains]. done.
    + apply Forall_forall. intros b Hb. destruct (decide (b = m)) as [->|Hne].
      * exists h'. split; [done|]. constructor; [done|lia| |intros _|congruence].
        -- intros Hp. rewrite F3 in Hp. destruct (k_pkthdr _ _ _ Hok Hp) as [[r Hr] [w Hw]]. split; [exists r|exists w]; by apply LP.
        -- exists (AMI_CLUSTER_DATA c), 0, MCLBYTES. rewrite Hd, Hl. split_and!; try done; [|unfold MCLBYTES; lia].
           left. split; [done|]. exists c. split; [done|]. rewrite Ecc. done.
      * destruct (Q b Hb Hne) as (? & ? & _). apply (well_same s0 s'); try done. by apply i_live.
    + rewrite P4. eapply linked_ext; [|exact i_all]. intros b _. unfold cnext.
      destruct (decide (b = c)) as [->|]; [by rewrite Ecc, Hkc|by rewrite Ecl].
    + intros b. rewrite (proj1 (proj2 SP) b). apply i_all_dom.
    + by rewrite P5.
    + rewrite P6. rewrite <- (linked_head _ _ _ Hcf). eapply linked_ext; [|exact Hcf]. intros b Hb. unfold fnext. rewrite Ecl; [done|]. by intros ->.
    + intros b Hb. apply i_cfree_all. by apply elem_of_cons; right.
    + intros d k Hk. rewrite RG. destruct (decide (d = c)) as [->|Hne].
      * rewrite Ecc in Hk. injection Hk as <-. cbn. rewrite R0. split; [done|]. by split.
      * rewrite Ecl in Hk by done. destruct (i_refs d k Hk) as [R F]. split; [done|]. rewrite <- F, elem_of_cons. naive_solver.
  - intros n E k Hk Hp. rewrite Ea in Hk. injection Hk as <-. rewrite F3 in Hp. apply (LP Hp 24); [lia|]. by eapply E.
  - rewrite RG, decide_True, R0 by done. done.
Qed.

(** An mbuf with a cluster of its own behind it, empty. *)
Definition clustered (ls : list (list Z)) (m : Z) (h : mbuf) (s : mst) : Prop :=
  exists h' c, st_mbuf s !! m = Some h' /\ m_next h' = m_next h /\ m_type h' = m_type h /\ m_len h' = 0 /\
    m_data h' = AMI_CLUSTER_DATA c /\ m_flags h' = word (Z.lor (m_flags h) M_EXT) /\
    long_at (st_cells s) (ext_buf m) (AMI_CLUSTER_DATA c) /\ long_at (st_cells s) (ext_free m) 0 /\
    long_at (st_cells s) (ext_size m) MCLBYTES /\
    is_Some (st_cluster s !! c) /\ private ls s m c CLUSTER_BYTES.

Lemma clget_spec ls s m h :
  Inv ls s -> m ∈ concat ls -> st_mbuf s !! m = Some h -> has (m_flags h) M_EXT = false ->
  wpm (ami_mbuf_clget AllocVec others m) (fun r s' => (r = -1 /\ kept ls s s') \/
    (r = 0 /\ Inv ls s' /\ clustered ls m h s' /\ (forall b, b ∈ concat ls -> b <> m -> seen_same s s' b) /\
     (forall n, exact_length s m n -> exact_length s' m n))) s.
Proof.
  intros I Hin Hm He. assert (Lm : m ∈ live ls s) by (unfold live; apply elem_of_app; by left).
  destruct (inv_mapped _ _ _ I Lm) as [_ H0]. unfold ami_mbuf_clget. rewrite (proj2 (Z.eqb_neq m 0)) by lia.
  apply wpm_bind, (wpm_mb _ h); [done|]. rewrite He. eapply wpm_then; [by apply cluster_get_spec|].
  intros c s1 [[-> K1]|[Hc (s0 & fl & al & cf & H & Q)]]; [apply wpm_ret; by left|].
  rewrite (proj2 (Z.eqb_neq c 0)) by done. pose proof (hf_inv _ _ _ _ _ _ _ H) as I0.
  destruct (Q m Hin) as (Em & Xm & _). rewrite Hm in Em.
  assert (Lm0 : m ∈ live ls s0) by (unfold live; apply elem_of_app; by left).
  destruct (inv_mapped ls s0 m ltac:(by exists fl, al, (c :: cf)) Lm0) as [Mm _].
  apply wpm_bind, wpm_set_ext; [by rewrite (hf_cells _ _ _ _ _ _ _ H)|]. intros cs _ Hd Ho L1 L2 L3.
  rewrite (hf_cells _ _ _ _ _ _ _ H) in Hd, Ho.
  apply wpm_bind, (wpm_load32 _ (AMI_CLUSTER_DATA c)); [exact L1|].
  apply wpm_bind. eapply wpm_set_mb; [cbn; rewrite (hf_mbuf _ _ _ _ _ _ _ H); exact Em|]. apply wpm_ret. right. split; [done|].
  set (h' := w_flags _ _).
  destruct (inv_attach fl al cf ls c s0 s1 m h h' cs H Lm0 Em He) as (I' & Q' & X' & R'); try done.
  match goal with |- Inv _ ?t /\ _ => set (s' := t) in * end.
  assert (IS : Inv ls s') by (by exists fl, al, cf).
  destruct (hf_cluster _ _ _ _ _ _ _ H) as (kc & Hkc & Ec).
  assert (Ecc : st_cluster s' !! c = Some (Cluster (all_next kc) 0 1)) by (cbn; by rewrite Ec, lookup_insert_eq).
  assert (Ea : st_mbuf s' !! m = Some h') by apply lookup_insert_eq.
  assert (EL : live ls s' = live ls s0) by (unfold live; cbn; by rewrite (hf_elsewhere _ _ _ _ _ _ _ H)).
  split_and!; try done.
  - exists h', c. split_and!; try done. eapply (private_cluster ls s' m c); try done; [by rewrite EL|].
    eapply ext_at_long; [exact Ea| |exact L1].
    pose proof (inv_well ls s0 m ltac:(by exists fl, al, (c :: cf)) Lm0) as (hh & Hhh & Hok). rewrite Em in Hhh. injection Hhh as <-.
    apply (flags_ext _ (k_flags _ _ _ Hok)).
  - intros b Hb Hne. destruct (Q b Hb) as (A1 & A2 & A3), (Q' b) as (B1 & B2 & B3); [unfold live; apply elem_of_app; by left|done|].
    split_and!; [exact (eq_trans B1 A1)|intros x Hx; exact (eq_trans (B2 x Hx) (A2 x Hx))|exact (eq_trans B3 A3)].
  - intros n E. apply X'. intros k Hk Hp. rewrite Em in Hk. injection Hk as <-. eapply long_at_ext; [|by eapply E].
    intros x Hx. apply Xm. places.
Qed.
End Get.
