(* ===== verification/MbufClaims.v ===== *)
(** * What the mbuf vectors do

    The properties of the pool and of the operations on chains, and a concrete pool
    they are applied to: three mbufs, two of them in a chain of nine bytes with a
    packet header, and a buffer of the caller's. *)

From Stdlib Require Import ZArith Lia.
From stdpp Require Import base numbers list gmap.
From S2P Require Import Prelude.
From S2P Require Import MbufAlloc.
From S2P Require Import MbufCode.
From S2P Require Import MbufInv.
From S2P Require Import MbufFree.
From S2P Require Import MbufGet.
From S2P Require Import MbufChain.
From S2P Require Import MbufJoin.
From S2P Require Import MbufPull.
From S2P Require Import MbufPullup.
From S2P Require Import MbufCluster.

#[local] Set Warnings "-clear-no-such-hyp".

(** ** A machine to run on *)

(** Blocks are given out from the first address above everything in use. *)
Definition top (c : cells) : Z := map_fold (fun a _ t => Z.max (a + 1) t) 4096 c.
Definition bump_alloc (s : mst) (n : Z) : Z := if top (st_cells s) + n <=? 2 ^ 32 then top (st_cells s) else 0.

Lemma top_above c : 4096 <= top c /\ forall x, is_Some (c !! x) -> x < top c.
Proof.
  unfold top. apply (map_fold_weak_ind (fun t c => 4096 <= t /\ forall x, is_Some (c !! x) -> x < t)).
  - split; [lia|]. intros x Hx. rewrite lookup_empty in Hx. by destruct Hx.
  - intros a v c' t Ha [H1 H2]. split; [lia|]. intros x Hx. destruct (decide (x = a)) as [->|]; [lia|].
    rewrite lookup_insert_ne in Hx by done. specialize (H2 x Hx). lia.
Qed.

Lemma bump_alloc_law : alloc_law bump_alloc.
Proof.
  intros s n Hn. unfold bump_alloc. destruct (top_above (st_cells s)) as [H1 H2].
  destruct (Z.leb_spec (top (st_cells s) + n) (2 ^ 32)); [right|by left]. split_and!; [lia|lia|].
  intros x Hx. apply eq_None_not_Some. intros Hs. specialize (H2 x Hs). lia.
Qed.

(** A machine on which no other task runs. *)
Definition alone (s : mst) : mst := s.

Lemma alone_law : others_law alone.
Proof. intros ls s I. split_and!; [done|apply quiet_refl|done|]. intros p n U H. done. Qed.

Lemma alone_hold : others_hold alone.
Proof.
  intros fl al cf ls c s0 s H. split; [|done]. exists s0, fl, al, cf. split; [done|].
  intros b _. split_and!; [by rewrite (hf_mbuf _ _ _ _ _ _ _ H)|intros x _; by rewrite (hf_cells _ _ _ _ _ _ _ H)|].
  unfold window. by rewrite (hf_mbuf _ _ _ _ _ _ _ H), (hf_cells _ _ _ _ _ _ _ H).
Qed.

(** The pool before anything happened. *)
Definition start : mst := Mst ∅ ∅ ∅ ∅ pool_zero ∅ [] [].

Lemma start_inv : Inv [] start.
Proof.
  exists [], [], []. constructor; try done.
  - constructor; intros; cbn in *; rewrite lookup_empty in *; by destruct H.
  - intros a. cbn. rewrite lookup_empty. split; [by intros []|set_solver].
  - constructor.
  - intros c. cbn. rewrite lookup_empty. split; [by intros []|set_solver].
  - constructor.
  - constructor.
Qed.

(** An operation's result, by running it. *)
Lemma wpm_val {A} (op : MB A) Q s a s' : wpm op Q s -> op s = Val (a, s') -> Q a s'.
Proof. intros (b & t & E & H) E'. rewrite E in E'. by injection E' as <- <-. Qed.

Definition state_of {A} (o : outcome (A * mst)) : mst := match o with Val (_, s) => s | _ => start end.
Definition value_of {A} (d : A) (o : outcome (A * mst)) : A := match o with Val (a, _) => a | _ => d end.

(** A packet header mbuf, an mbuf, and a buffer, in a pool of four mbufs and two
    clusters. *)
Definition setup : MB (Z * Z * Z) :=
  _ ← ami_mbuf_init 4 2;
  a ← ami_mbuf_gethdr bump_alloc alone;
  b ← ami_mbuf_get bump_alloc alone;
  cp ← ami_alloc bump_alloc 16;
  mret (a, b, cp).

Lemma init_spec ls s a b :
  Inv ls s -> inited (st_pool s) = false -> 0 < a < 2 ^ 32 -> 0 < b < 2 ^ 32 ->
  wpm (ami_mbuf_init a b) (fun _ s' => Inv ls s') s.
Proof.
  intros (fl & al & cf & I) Hi Ha Hb. unfold ami_mbuf_init. rewrite !(proj2 (Z.eqb_neq _ 0)) by lia. cbv zeta.
  apply wpm_bind, wpm_pool_get. unfold id. rewrite Hi. apply wpm_bind, wpm_pool_set, wpm_ret.
  pose proof (i_limits _ _ _ _ _ I) as (_ & _ & L3 & L4). rewrite Hi in L3, L4.
  destruct (inv_same fl al cf ls s (s_pool (p_limits a b (st_pool s)) s) I) as [I' _]; try done.
  - unfold limits. cbn. lia.
  - by exists fl, al, cf.
Qed.

Lemma setup_spec : wpm setup (fun r s => r.1.1 = 0 \/ r.1.2 = 0 \/ r.2 = 0 \/
  (Inv [[r.1.2]; [r.1.1]] s /\ untaken [[r.1.2]; [r.1.1]] s r.2 16)) start.
Proof.
  unfold setup. eapply wpm_then; [apply (init_spec [] start); [apply start_inv|done|lia|lia]|]. intros z s0 I0.
  eapply wpm_then; [apply (gethdr_spec bump_alloc alone bump_alloc_law alone_law [] s0 I0)|].
  intros a s1 [[(-> & (I1 & _) & _)|(Ha & (I1 & _) & _)] _].
  all: eapply wpm_then; [apply (get_spec bump_alloc alone bump_alloc_law alone_law _ s1 I1)|];
    intros b s2 [(-> & (I2 & _) & _)|(Hb & (I2 & _) & _)];
    (eapply wpm_then; [apply (alloc_spec bump_alloc _ s2 16 bump_alloc_law I2); lia|]);
    intros cp s3 (I3 & _ & _ & Hcp); apply wpm_ret; cbn; auto.
  destruct Hcp as [?|[U _]]; auto.
Qed.


(** *** The example pool *)

Definition pkt : Z := 4608.
Definition tail : Z := 4480.
Definition buffer : Z := 4743.

Definition bytes (l : list Z) : list cell := Byte <$> l.

(** Five bytes in the head, four behind it. *)
Definition filled (m : Z) (p : Z) (l : list Z) (s : mst) : mst :=
  match st_mbuf s !! m with
  | Some h => s_mbuf (<[m := w_len (Z.of_nat (length l)) h]> (st_mbuf s)) (s_cells (poke (st_cells s) p (bytes l)) s)
  | None => s
  end.

Definition two : mst := filled tail 4500 [6; 7; 8; 9] (filled pkt 4636 [1; 2; 3; 4; 5] (state_of (setup start))).
Definition linked_two : mst := match st_mbuf two !! pkt with Some h => s_mbuf (<[pkt := w_next tail h]> (st_mbuf two)) two | None => two end.
Definition label (m n : Z) : MB unit := h ← mb m; if has (m_flags h) M_PKTHDR then store32 (pkthdr_len m) n else mret tt.
Definition packet : mst := state_of (label pkt 9 linked_two).

Lemma filled_inv ls s m h p l :
  Inv ls s -> m ∈ live ls s -> st_mbuf s !! m = Some h -> has (m_flags h) M_EXT = false -> m_data h = p ->
  AMI_MBUF_BASE m h <= p -> p + Z.of_nat (length l) <= AMI_MBUF_END m -> Inv ls (filled m p l s).
Proof.
  intros I Lm Hm He Hd H1 H2. unfold filled. rewrite Hm.
  eapply (inv_fill ls s m h _ p (bytes l)); try done; cbn [w_len m_len m_data]; try lia.
  unfold bytes. rewrite length_fmap. lia.
Qed.

Lemma setup_inv : Inv [[tail]; [pkt]] (state_of (setup start)).
Proof.
  assert (E : setup start = Val (pkt, tail, buffer, state_of (setup start))) by (vm_compute; reflexivity).
  destruct (wpm_val _ _ _ _ _ setup_spec E) as [H|[H|[H|[I _]]]]; [done|done|done|exact I].
Qed.

Lemma two_inv : Inv [[pkt]; [tail]] two.
Proof.
  apply inv_swap. unfold two.
  eapply (filled_inv _ _ tail); [| |vm_compute; reflexivity|reflexivity|reflexivity|vm_compute; congruence|vm_compute; congruence].
  - eapply (filled_inv _ _ pkt); [exact setup_inv| |vm_compute; reflexivity|reflexivity|reflexivity|vm_compute; congruence|vm_compute; congruence].
    apply (elem_of_live [pkt]); clear; set_solver.
  - apply (elem_of_live [tail]); clear; set_solver.
Qed.

Lemma packet_inv : Inv [[pkt; tail]] packet /\ exact_length packet pkt 9.
Proof.
  assert (I : Inv [[pkt; tail]] linked_two).
  { pose proof two_inv as I. unfold linked_two. destruct (st_mbuf two !! pkt) as [h|] eqn:Hh; [|vm_compute in Hh; discriminate].
    exact (proj1 (inv_link [] pkt [tail] [] two h I Hh)). }
  assert (E : label pkt 9 linked_two = Val (tt, packet)) by (vm_compute; reflexivity).
  pose proof (wpm_val _ _ _ _ _ (wpm_pktlen [tail] [] linked_two pkt 9 I) E) as (I' & _ & X & _). exact (conj I' X).
Qed.

Example packet_data : data packet [pkt; tail] = bytes [1; 2; 3; 4; 5; 6; 7; 8; 9].
Proof. vm_compute. reflexivity. Qed.

(** The buffer is the caller's: nothing of the pool lies in it. *)
Lemma packet_buffer n : 0 <= n <= 16 -> untaken [[pkt; tail]] packet buffer n.
Proof.
  intros Hn. constructor.
  - unfold buffer. lia.
  - intros x Hx. assert (M : forall i, (i < 16)%nat -> is_Some (st_cells packet !! (buffer + Z.of_nat i))).
    { intros i Hi. do 16 (destruct i as [|i]; [vm_compute; eauto|]). lia. }
    replace x with (buffer + Z.of_nat (Z.to_nat (x - buffer))) by lia. apply M. lia.
  - assert (MB : map_Forall (fun a h => a <= 4608 /\ has (m_flags h) M_EXT = false) (st_mbuf packet)).
    { apply (bool_decide_unpack _). vm_compute. exact I. }
    assert (CL : st_cluster packet = ∅) by (vm_compute; reflexivity).
    intros x Hx [(a & [h Ha] & Hin)|[(c & Hc & _)|(a & h & b & k & _ & Ha & He & _)]].
    + destruct (MB a h Ha). unfold buffer, MSIZE in *. lia.
    + rewrite CL, lookup_empty in Hc. by destruct Hc.
    + destruct (MB a h Ha). congruence.
Qed.

(** A chain with an empty mbuf in the middle, as [ami_mbuf_adj] leaves them. *)
Definition empty : Z := 4352.
Definition set_next (m n : Z) (s : mst) : mst :=
  match st_mbuf s !! m with Some h => s_mbuf (<[m := w_next n h]> (st_mbuf s)) s | None => s end.
Definition gap : mst := set_next pkt empty (set_next empty tail (state_of (ami_mbuf_get bump_alloc alone two))).

Lemma gap_inv : Inv [[pkt; empty; tail]] gap.
Proof.
  assert (E : ami_mbuf_get bump_alloc alone two = Val (empty, state_of (ami_mbuf_get bump_alloc alone two))) by (vm_compute; reflexivity).
  destruct (wpm_val _ _ _ _ _ (get_spec bump_alloc alone bump_alloc_law alone_law _ two two_inv) E) as [(H & _)|(_ & (I & _) & _)]; [discriminate H|].
  set (s1 := state_of _) in *.
  assert (I1 : Inv [[empty]; [tail]; [pkt]] s1) by (eapply inv_perm; [|exact I]; constructor; apply Permutation_swap).
  assert (I2 : Inv [[empty; tail]; [pkt]] (set_next empty tail s1)).
  { unfold set_next. destruct (st_mbuf s1 !! empty) as [h|] eqn:Hh; [|vm_compute in Hh; discriminate].
    exact (proj1 (inv_link [] empty [tail] [[pkt]] s1 h I1 Hh)). }
  unfold gap. fold s1. unfold set_next at 1. destruct (st_mbuf _ !! pkt) as [h|] eqn:Hh; [|vm_compute in Hh; discriminate].
  exact (proj1 (inv_link [] pkt [empty; tail] [] _ h (inv_swap _ _ _ _ I2) Hh)).
Qed.

(** ** The properties *)

Lemma outstanding_exact ls s : Inv ls s -> ami_mbuf_outstanding s = Val (Z.of_nat (length (live ls s)), s).
Proof.
  intros (fl & al & cf & I). pose proof (i_total_max _ _ _ _ _ I) as Hmax. destruct I. unfold ami_mbuf_outstanding, mbind, MB_bind, pool_get, asks, mret, MB_ret, id.
  do 2 f_equal. rewrite i_total, length_app in *. rewrite i_free_count. rewrite u32_small by word_lia. lia.
Qed.

(** C8 Freeing a chain: every mbuf of it returns to the pool and every cluster reference it held is
    dropped, the pool's invariant holds for what is left, nothing another chain or task sees changes,
    and the count of outstanding mbufs is exactly the number of mbufs still held. *)
Theorem freem_gives_back l ls s :
  Inv (l :: ls) s ->
  wpm (_ ← ami_mbuf_freem (hd 0 l); ami_mbuf_outstanding)
    (fun n s' => Inv ls s' /\ quiet s s' (live ls s) /\ n = Z.of_nat (length (live ls s))) s.
Proof.
  intros I. eapply wpm_then; [by apply freem_spec|]. intros [] s' (I' & Q & E).
  exists (Z.of_nat (length (live ls s'))), s'. split; [by apply outstanding_exact|]. split_and!; try done.
  by rewrite (live_elsewhere ls s s').
Qed.

Lemma freem_gives_back_witness :
  Inv [[pkt; tail]] packet /\
  wpm (_ ← ami_mbuf_freem pkt; ami_mbuf_outstanding)
    (fun n s' => Inv [] s' /\ quiet packet s' (live [] packet) /\ n = Z.of_nat (length (live [] packet))) packet.
Proof. exact (conj (proj1 packet_inv) (freem_gives_back [pkt; tail] [] packet (proj1 packet_inv))). Defined.

(** C9 Taking an mbuf, with any other tasks running while the lock is down: the result is NULL, and then
    the free list was empty, or an mbuf nobody else holds, empty and alone in its chain; the pool's
    invariant holds and the caller's chains are as they were. *)
Theorem get_under_interference AllocVec others ls s :
  alloc_law AllocVec -> others_law others -> Inv ls s ->
  wpm (ami_mbuf_get AllocVec others) (got ls fresh_mbuf s) s.
Proof. intros HA HO I. by apply get_spec. Qed.

Lemma get_under_interference_witness :
  Inv [[pkt; tail]] packet /\ wpm (ami_mbuf_get bump_alloc alone) (got [[pkt; tail]] fresh_mbuf packet) packet.
Proof.
  exact (conj (proj1 packet_inv) (get_under_interference bump_alloc alone [[pkt; tail]] packet bump_alloc_law alone_law (proj1 packet_inv))).
Defined.

(** Attaching a cluster: it fails and changes nothing of the caller's, or the mbuf has a cluster of
    2048 bytes that no other mbuf reads, in a pool whose reference counts are still exact. *)
Theorem clget_private AllocVec others ls s m h :
  alloc_law AllocVec -> others_law others -> others_hold others ->
  Inv ls s -> m ∈ concat ls -> st_mbuf s !! m = Some h -> has (m_flags h) M_EXT = false ->
  wpm (ami_mbuf_clget AllocVec others m) (fun r s' => (r = -1 /\ kept ls s s') \/
    (r = 0 /\ Inv ls s' /\ clustered ls m h s' /\ (forall b, b ∈ concat ls -> b <> m -> seen_same s s' b) /\
     (forall n, exact_length s m n -> exact_length s' m n))) s.
Proof. intros HA HO HH I Hm Hh He. by apply clget_spec. Qed.

Definition tail_hdr : mbuf := Mbuf 0 0 4500 4 MT_DATA 0.

Lemma clget_private_witness :
  Inv [[pkt; tail]] packet /\
  wpm (ami_mbuf_clget bump_alloc alone tail) (fun r s' => (r = -1 /\ kept [[pkt; tail]] packet s') \/
    (r = 0 /\ Inv [[pkt; tail]] s' /\ clustered [[pkt; tail]] tail tail_hdr s' /\
     (forall b, b ∈ concat [[pkt; tail]] -> b <> tail -> seen_same packet s' b) /\
     (forall n, exact_length packet tail n -> exact_length s' tail n))) packet.
Proof.
  assert (Hin : tail ∈ concat [[pkt; tail]]) by (apply elem_of_cons; right; apply elem_of_cons; left; reflexivity).
  assert (Hh : st_mbuf packet !! tail = Some tail_hdr) by (vm_compute; reflexivity).
  exact (conj (proj1 packet_inv) (clget_private bump_alloc alone [[pkt; tail]] packet tail tail_hdr
    bump_alloc_law alone_law alone_hold (proj1 packet_inv) Hin Hh eq_refl)).
Defined.

(** [mbuf_copydata] is all or nothing: when the chain has the bytes they are copied in order, however
    they are spread over its mbufs; otherwise it answers -1 and not one byte of the buffer was written. *)
Theorem copydata_all_or_nothing l ls s off len cp :
  Inv (l :: ls) s -> l <> [] -> 0 <= off < 2 ^ 31 -> 0 <= len < 2 ^ 31 -> untaken (l :: ls) s cp len ->
  wpm (ami_mbuf_copydata (hd 0 l) off len cp) (fun r s' =>
    Inv (l :: ls) s' /\ quiet s s' (live (l :: ls) s) /\
    if (len =? 0) || (off + len <=? Z.of_nat (length (data s l))) then
      r = 0 /\ peek (st_cells s') cp (Z.to_nat len) = take (Z.to_nat len) (drop (Z.to_nat off) (data s l))
    else r = -1 /\ s' = s) s.
Proof. apply copydata_spec. Qed.

Lemma copydata_all_or_nothing_witness :
  Inv [[pkt; tail]] packet /\
  wpm (ami_mbuf_copydata pkt 3 4 buffer) (fun r s' =>
    Inv [[pkt; tail]] s' /\ quiet packet s' (live [[pkt; tail]] packet) /\
    if (4 =? 0) || (3 + 4 <=? Z.of_nat (length (data packet [pkt; tail]))) then
      r = 0 /\ peek (st_cells s') buffer (Z.to_nat 4) = take (Z.to_nat 4) (drop (Z.to_nat 3) (data packet [pkt; tail]))
    else r = -1 /\ s' = packet) packet.
Proof.
  assert (B : untaken [[pkt; tail]] packet buffer 4) by (apply packet_buffer; lia).
  exact (conj (proj1 packet_inv) (copydata_all_or_nothing [pkt; tail] [] packet 3 4 buffer (proj1 packet_inv)
    ltac:(discriminate) ltac:(lia) ltac:(lia) B)).
Defined.

(** [mbuf_adj] trims a chain at the front (a positive request) or at the end (a negative one): what
    is left is the data without those bytes, a request larger than the chain leaves it empty, the most
    negative request included, and the packet header's length stays the length of the data. *)
Theorem adj_trims l ls s req :
  Inv (l :: ls) s -> l <> [] -> - 2 ^ 31 <= req < 2 ^ 31 -> Z.of_nat (length (data s l)) < 2 ^ 31 ->
  exact_length s (hd 0 l) (Z.of_nat (length (data s l))) ->
  wpm (ami_mbuf_adj (hd 0 l) req) (fun r s' => r = 0 /\ Inv (l :: ls) s' /\ data s' l = trimmed req (data s l) /\
    exact_length s' (hd 0 l) (Z.of_nat (length (data s' l))) /\ quiet s s' (live ls s)) s.
Proof. apply adj_spec. Qed.

Lemma packet_length : Z.of_nat (length (data packet [pkt; tail])) = 9.
Proof. rewrite packet_data. reflexivity. Qed.

Lemma packet_exact : exact_length packet pkt (Z.of_nat (length (data packet [pkt; tail]))).
Proof. rewrite packet_length. exact (proj2 packet_inv). Qed.

Lemma adj_trims_witness :
  Inv [[pkt; tail]] packet /\
  wpm (ami_mbuf_adj pkt (-6)) (fun r s' => r = 0 /\ Inv [[pkt; tail]] s' /\
    data s' [pkt; tail] = trimmed (-6) (data packet [pkt; tail]) /\
    exact_length s' pkt (Z.of_nat (length (data s' [pkt; tail]))) /\ quiet packet s' (live [] packet)) packet.
Proof.
  assert (L : Z.of_nat (length (data packet [pkt; tail])) < 2 ^ 31) by (rewrite packet_length; lia).
  exact (conj (proj1 packet_inv) (adj_trims [pkt; tail] [] packet (-6) (proj1 packet_inv)
    ltac:(discriminate) ltac:(lia) L packet_exact)).
Defined.

(** [mbuf_cat] appends one chain to another: the result starts at the first chain's head and its data
    is the data of the two in order, whether mbufs were linked or their bytes compacted into the last
    mbuf and they were freed. *)
Theorem cat_appends l k ls s :
  Inv (l :: k :: ls) s -> l <> [] -> k <> [] ->
  wpm (ami_mbuf_cat (hd 0 l) (hd 0 k)) (fun r s' => r = 0 /\ exists l',
    hd 0 l' = hd 0 l /\ Inv (l' :: ls) s' /\ data s' l' = data s l ++ data s k /\ quiet s s' (live ls s)) s.
Proof. apply cat_spec. Qed.

Lemma cat_appends_witness :
  Inv [[pkt]; [tail]] two /\
  wpm (ami_mbuf_cat pkt tail) (fun r s' => r = 0 /\ exists l',
    hd 0 l' = pkt /\ Inv [l'] s' /\ data s' l' = data two [pkt] ++ data two [tail] /\ quiet two s' (live [] two)) two.
Proof.
  exact (conj two_inv (cat_appends [pkt] [tail] [] two two_inv ltac:(discriminate) ltac:(discriminate))).
Defined.

(** C10 [mbuf_prepend] makes room for [len] bytes in front of a chain, in place or in a new head: the
    room lies in the head's storage and no other mbuf reads it, the data follows it unchanged, the
    packet length grew by [len].  It fails only for a negative length, one over MHLEN, or when the pool
    had no free mbuf, and then the chain is freed. *)
Theorem prepend_makes_room AllocVec others m r ls s len :
  alloc_law AllocVec -> others_law others ->
  Inv ((m :: r) :: ls) s -> Z.of_nat (length (data s (m :: r))) + len < 2 ^ 31 ->
  exact_length s m (Z.of_nat (length (data s (m :: r)))) ->
  wpm (ami_mbuf_prepend AllocVec others m len) (fun x s' =>
    (x = 0 /\ Inv ls s' /\ quiet s s' (concat ls) /\ (len < 0 \/ MHLEN < len \/ free_mbufs (st_pool s) = 0)) \/
    0 <= len /\ exists l' pad h', x = hd 0 l' /\ l' <> [] /\ length pad = Z.to_nat len /\ Inv (l' :: ls) s' /\
      data s' l' = pad ++ data s (m :: r) /\ exact_length s' x (Z.of_nat (length (data s' l'))) /\ quiet s s' (concat ls) /\
      st_mbuf s' !! x = Some h' /\ len <= m_len h' /\ private (l' :: ls) s' x (m_data h') len) s.
Proof. intros HA HO. by apply prepend_spec. Qed.

Lemma prepend_makes_room_witness :
  Inv [[pkt; tail]] packet /\
  wpm (ami_mbuf_prepend bump_alloc alone pkt 14) (fun x s' =>
    (x = 0 /\ Inv [] s' /\ quiet packet s' (concat []) /\ (14 < 0 \/ MHLEN < 14 \/ free_mbufs (st_pool packet) = 0)) \/
    0 <= 14 /\ exists l' pad h', x = hd 0 l' /\ l' <> [] /\ length pad = Z.to_nat 14 /\ Inv [l'] s' /\
      data s' l' = pad ++ data packet [pkt; tail] /\ exact_length s' x (Z.of_nat (length (data s' l'))) /\
      quiet packet s' (concat []) /\ st_mbuf s' !! x = Some h' /\ 14 <= m_len h' /\ private [l'] s' x (m_data h') 14) packet.
Proof.
  assert (L : Z.of_nat (length (data packet [pkt; tail])) + 14 < 2 ^ 31) by (rewrite packet_length; lia).
  exact (conj (proj1 packet_inv) (prepend_makes_room bump_alloc alone pkt [tail] [] packet 14 bump_alloc_law alone_law
    (proj1 packet_inv) L packet_exact)).
Defined.

(** C11 [mbuf_pullup] makes the first [len] bytes contiguous: the chain that comes back has the same data
    and packet length and at least [len] bytes in its head.  It must succeed when the bytes are there,
    they fit, an mbuf is free and no mbuf of the chain is empty; when it fails the chain is freed. *)
Theorem pullup_gathers AllocVec others m r ls s len :
  alloc_law AllocVec -> others_law others ->
  Inv ((m :: r) :: ls) s -> len < 2 ^ 30 -> exact_length s m (Z.of_nat (length (data s (m :: r)))) ->
  wpm (ami_mbuf_pullup AllocVec others m len) (fun x s' =>
    (x = 0 /\ Inv ls s' /\ quiet s s' (concat ls) /\ ~ pullable s (m :: r) len) \/
    pulled ls (data s (m :: r)) len x s s') s.
Proof. intros HA HO. by apply pullup_spec. Qed.

Lemma pullup_gathers_witness :
  Inv [[pkt; tail]] packet /\
  wpm (ami_mbuf_pullup bump_alloc alone pkt 7) (fun x s' =>
    (x = 0 /\ Inv [] s' /\ quiet packet s' (concat []) /\ ~ pullable packet [pkt; tail] 7) \/
    pulled [] (data packet [pkt; tail]) 7 x packet s') packet.
Proof.
  exact (conj (proj1 packet_inv) (pullup_gathers bump_alloc alone pkt [tail] [] packet 7 bump_alloc_law alone_law
    (proj1 packet_inv) ltac:(lia) packet_exact)).
Defined.


