(* ===== verification/Srcsel.v ===== *)
(** * IPv6 source address selection (src/src/ipv6/ipv6_srcsel.c)

    RFC 6724 over the records of the IP instance, with the table of point-to-point
    links.  An interface is the index of its record, an address the index of its entry
    in [nx_ipv6_address].  The records are NetX Duo's: only the members the code reads
    are here, the sizes of its tables are the lengths of the lists, and the values of
    its constants are parameters.

    The build modelled has AMINETXDUO_PTP, NX_ENABLE_IPV6_MULTICAST and the loopback
    interface. *)

From Stdlib Require Import ZArith Lia.
From stdpp Require Import base numbers list.
From S2P Require Import Prelude.

(** ** Addresses *)

(** Four longwords in host order. *)
Record in6 := In6 { a0 : Z; a1 : Z; a2 : Z; a3 : Z }.

#[export] Instance in6_eq_dec : EqDecision in6.
Proof. solve_decision. Defined.

Definition in6_any : in6 := In6 0 0 0 0.
Definition words (a : in6) : list Z := [a0 a; a1 a; a2 a; a3 a].

Definition ANX6_SCOPE_INTERFACE : Z := 0x1.
Definition ANX6_SCOPE_LINK : Z := 0x2.
Definition ANX6_SCOPE_SITE : Z := 0x5.
Definition ANX6_SCOPE_GLOBAL : Z := 0xE.

(** The inner loop, [n] bits to go: the first set bit of [diff] from [bit] on. *)
Fixpoint first_bit (n : nat) (bit diff : Z) : Z :=
  match n with
  | O => bit
  | S k => if negb (Z.land diff (Z.shiftr 0x80000000 bit) =? 0) then bit else first_bit k (bit + 1) diff
  end.

Fixpoint common_prefix_from (l : list (Z * Z)) (i : Z) : Z :=
  match l with
  | [] => 128
  | (a, b) :: r =>
      let diff := Z.lxor a b in
      if diff =? 0 then common_prefix_from r (i + 1) else i * 32 + first_bit 32 0 diff
  end.

Definition anx6_common_prefix_len (a b : in6) : Z := common_prefix_from (zip (words a) (words b)) 0.

Definition anx6_same_address (a b : in6) : bool :=
  (a0 a =? a0 b) && (a1 a =? a1 b) && (a2 a =? a2 b) && (a3 a =? a3 b).

(** [~(0xFFFFFFFFUL >> bits)] *)
Definition high_bits (bits : Z) : Z := Z.land (Z.lnot (Z.shiftr 0xFFFFFFFF bits)) 0xFFFFFFFF.

Fixpoint covers_from (l : list (Z * Z)) (length : Z) : bool :=
  match l with
  | [] => true
  | (p, a) :: r =>
      if negb (0 <? length) then true
      else
        let bits := if 32 <=? length then 32 else length in
        let mask := if bits =? 32 then 0xFFFFFFFF else high_bits bits in
        if negb (Z.land (Z.lxor p a) mask =? 0) then false else covers_from r (length - bits)
  end.

Definition anx6_prefix_covers (prefix : in6) (length : Z) (addr : in6) : bool :=
  covers_from (zip (words prefix) (words addr)) length.

Definition is_multicast (a : in6) : bool := Z.land (a0 a) 0xFF000000 =? 0xFF000000.
Definition is_unspecified (a : in6) : bool := (a0 a =? 0) && (a1 a =? 0) && (a2 a =? 0) && (a3 a =? 0).

Definition anx6_scope (addr : in6) : Z :=
  if is_multicast addr then Z.land (Z.shiftr (a0 addr) 16) 0xF
  else if Z.land (a0 addr) 0xFFC00000 =? 0xFE800000 then ANX6_SCOPE_LINK
  else if Z.land (a0 addr) 0xFFC00000 =? 0xFEC00000 then ANX6_SCOPE_SITE
  else if (a0 addr =? 0) && (a1 addr =? 0) then
    if (a2 addr =? 0) && (a3 addr =? 1) then ANX6_SCOPE_LINK
    else if a2 addr =? 0x0000FFFF then
      if (Z.land (a3 addr) 0xFFFF0000 =? 0xA9FE0000) || (Z.land (a3 addr) 0xFF000000 =? 0x7F000000)
      then ANX6_SCOPE_LINK else ANX6_SCOPE_GLOBAL
    else ANX6_SCOPE_GLOBAL
  else ANX6_SCOPE_GLOBAL.

(** ** The policy table *)

Record ANX6_POLICY := Policy {
  anx6_policy_prefix : in6;
  anx6_policy_length : Z;
  anx6_policy_precedence : Z;
  anx6_policy_label : Z
}.

Definition anx6_policy_table : list ANX6_POLICY :=
  [ Policy (In6 0x00000000 0 0 0x00000001) 128 50 0;
    Policy (In6 0x00000000 0 0 0x00000000) 0 40 1;
    Policy (In6 0x00000000 0 0x0000FFFF 0) 96 35 4;
    Policy (In6 0x20020000 0 0 0x00000000) 16 30 2;
    Policy (In6 0x20010000 0 0 0x00000000) 32 5 5;
    Policy (In6 0xFC000000 0 0 0x00000000) 7 3 13;
    Policy (In6 0x00000000 0 0 0x00000000) 96 1 3;
    Policy (In6 0xFEC00000 0 0 0x00000000) 10 1 11;
    Policy (In6 0x3FFE0000 0 0 0x00000000) 16 1 12 ].

(** Row 1, ::/0, to start with. *)
Definition policy_any : ANX6_POLICY := Policy in6_any 0 40 1.

Fixpoint policy_from (rows : list ANX6_POLICY) (addr : in6) (best : ANX6_POLICY) (best_len : Z) : ANX6_POLICY :=
  match rows with
  | [] => best
  | row :: rest =>
      let length := anx6_policy_length row in
      if (best_len <? length) && anx6_prefix_covers (anx6_policy_prefix row) length addr
      then policy_from rest addr row length
      else policy_from rest addr best best_len
  end.

(** The row; the function returns its length and writes the other two through. *)
Definition anx6_policy_lookup (addr : in6) : ANX6_POLICY := policy_from anx6_policy_table addr policy_any 0.
Definition anx6_label (addr : in6) : Z := anx6_policy_label (anx6_policy_lookup addr).

(** ** The records of the IP instance *)

Record NX_INTERFACE := Interface {
  nx_interface_link_up : bool;
  nx_interface_priority : Z;
  nx_interface_address_mapping_needed : bool
}.

Record NXD_IPV6_ADDRESS := Address {
  nxd_ipv6_address_valid : bool;
  nxd_ipv6_address_state : Z;
  nxd_ipv6_address_attached : option nat;
  nxd_ipv6_address : in6;
  nxd_ipv6_address_prefix_length : Z
}.

Record ROUTER_ENTRY := Router {
  nx_ipv6_default_router_entry_flag : Z;
  nx_ipv6_default_router_entry_interface_ptr : option nat
}.

Record NX_IP := Ip {
  nx_ip_interface : nat -> NX_INTERFACE;
  nx_ipv6_address : list NXD_IPV6_ADDRESS;
  nx_ipv6_multicast_entry : list (option nat * in6);
  nx_ipv6_default_router_table : list ROUTER_ENTRY
}.

(** ** The point-to-point table *)

Definition ANX6_PTP_ROUTES : nat := 8.

Record ptp_route := Route { prefix : in6; length : Z; interface_index : Z }.

Record ptp := Ptp {
  anx6_ptp_peer : list in6;
  anx6_ptp_peers : Z;
  anx6_ptp_route : list ptp_route;
  anx6_ptp_routes : nat
}.

Definition route_zero : ptp_route := Route in6_any 0 0.

Inductive status := NX_SUCCESS | NX_IP_ADDRESS_ERROR | NX_NO_MORE_ENTRIES | NX_ENTRY_NOT_FOUND.

#[export] Instance status_eq_dec : EqDecision status.
Proof. solve_decision. Defined.

(** The entries in use. *)
Definition routes_used (t : ptp) : list ptp_route := take (anx6_ptp_routes t) (anx6_ptp_route t).

Fixpoint route_find_from (l : list ptp_route) (p : in6) (len : Z) (n : nat) : nat :=
  match l with
  | [] => n
  | r :: rest =>
      if (length r =? len) && anx6_prefix_covers (prefix r) len p then n else route_find_from rest p len (S n)
  end.

Definition anx6_ptp_route_find (t : ptp) (p : in6) (len : Z) : nat := route_find_from (routes_used t) p len 0.

(** The bits of longword [i] a prefix of [len] bits has. *)
Definition word_bits (len i : Z) : Z :=
  if (i + 1) * 32 <=? len then 32 else if i * 32 <? len then len - i * 32 else 0.
Definition masked_word (len i w : Z) : Z :=
  let bits := word_bits len i in
  if bits =? 32 then w else if bits =? 0 then 0 else Z.land w (high_bits bits).
Definition masked (len : Z) (p : in6) : in6 :=
  In6 (masked_word len 0 (a0 p)) (masked_word len 1 (a1 p)) (masked_word len 2 (a2 p)) (masked_word len 3 (a3 p)).

Section Srcsel.
Context (NX_MAX_PHYSICAL_INTERFACES NX_LOOPBACK_INTERFACE : nat).
Context (NX_IPV6_ADDR_STATE_VALID NX_IPV6_ADDR_STATE_PREFERRED NX_IPV6_ADDR_STATE_DEPRECATED : Z).
Context (NX_IPV6_ROUTE_TYPE_VALID NX_IPV6_ROUTE_TYPE_STATIC : Z).

Definition anx6_ptp_route_add (p : in6) (len index : Z) (t : ptp) : status * ptp :=
  if (len =? 0) || (128 <? len) || (Z.of_nat NX_MAX_PHYSICAL_INTERFACES <=? index) then (NX_IP_ADDRESS_ERROR, t)
  else
    let n := anx6_ptp_route_find t p len in
    if (n =? ANX6_PTP_ROUTES)%nat then (NX_NO_MORE_ENTRIES, t)
    else
      let route := <[n := Route (masked len p) (u8 len) (u8 index)]> (anx6_ptp_route t) in
      let routes := if (n =? anx6_ptp_routes t)%nat then S (anx6_ptp_routes t) else anx6_ptp_routes t in
      (NX_SUCCESS, Ptp (anx6_ptp_peer t) (anx6_ptp_peers t) route routes).

(** Entry [n] goes: the last entry takes its place. *)
Definition route_drop (n : nat) (t : ptp) : ptp :=
  let last := pred (anx6_ptp_routes t) in
  Ptp (anx6_ptp_peer t) (anx6_ptp_peers t)
    (<[n := nth last (anx6_ptp_route t) route_zero]> (anx6_ptp_route t)) last.

Definition anx6_ptp_route_delete (p : in6) (len index : Z) (t : ptp) : status * ptp :=
  let n := anx6_ptp_route_find t p len in
  if (n =? anx6_ptp_routes t)%nat || negb (interface_index (nth n (anx6_ptp_route t) route_zero) =? index)
  then (NX_ENTRY_NOT_FOUND, t)
  else (NX_SUCCESS, route_drop n t).

Definition anx6_ptp_route_get (n : nat) (t : ptp) : option (in6 * Z * Z) :=
  if (anx6_ptp_routes t <=? n)%nat then None
  else let r := nth n (anx6_ptp_route t) route_zero in Some (prefix r, length r, interface_index r).

(** [for (i = anx6_ptp_routes; i-- > 0; )] *)
Fixpoint drop_routes (i : nat) (index : Z) (t : ptp) : ptp :=
  match i with
  | O => t
  | S i => drop_routes i index
             (if interface_index (nth i (anx6_ptp_route t) route_zero) =? index then route_drop i t else t)
  end.

Definition any_bits (a : in6) : Z := Z.lor (Z.lor (Z.lor (a0 a) (a1 a)) (a2 a)) (a3 a).

Definition count_peers (l : list in6) : Z := foldl (fun n p => if negb (any_bits p =? 0) then n + 1 else n) 0 l.

Definition anx6_ptp_peer_set (index : nat) (peer : option in6) (t : ptp) : ptp :=
  if (NX_MAX_PHYSICAL_INTERFACES <=? index)%nat then t
  else
    let p := match peer with Some p => p | None => in6_any end in
    let peers := <[index := p]> (anx6_ptp_peer t) in
    let t := Ptp peers (anx6_ptp_peers t) (anx6_ptp_route t) (anx6_ptp_routes t) in
    let t := if any_bits p =? 0 then drop_routes (anx6_ptp_routes t) (Z.of_nat index) t else t in
    Ptp peers (count_peers (take NX_MAX_PHYSICAL_INTERFACES peers)) (anx6_ptp_route t) (anx6_ptp_routes t).

Definition anx6_ptp_peer_get (index : nat) (t : ptp) : option in6 :=
  if (NX_MAX_PHYSICAL_INTERFACES <=? index)%nat then None
  else let p := nth index (anx6_ptp_peer t) in6_any in if negb (any_bits p =? 0) then Some p else None.

(** ** The outgoing interface *)

Section Ip.
Context (ip : NX_IP) (t : ptp).

Local Abbreviation iface i := (nx_ip_interface ip i).

Definition anx6_usable (addr : NXD_IPV6_ADDRESS) : bool :=
  let state := nxd_ipv6_address_state addr in
  nxd_ipv6_address_valid addr &&
  ((state =? NX_IPV6_ADDR_STATE_VALID) || (state =? NX_IPV6_ADDR_STATE_PREFERRED) || (state =? NX_IPV6_ADDR_STATE_DEPRECATED)) &&
  match nxd_ipv6_address_attached addr with
  | None => false
  | Some i => nx_interface_link_up (iface i)
  end &&
  negb (is_multicast (nxd_ipv6_address addr)) && negb (is_unspecified (nxd_ipv6_address addr)).

Definition anx6_prefer (candidate : nat) (best : option nat) : bool :=
  match best with
  | None => true
  | Some b => nx_interface_priority (iface b) <? nx_interface_priority (iface candidate)
  end.

(** The router [rt], on interface [rif], before the best so far. *)
Definition router_before (rif : nat) (best : option (ROUTER_ENTRY * nat)) : bool :=
  match best with
  | None => true
  | Some (_, bif) =>
      (nx_interface_priority (iface bif) <? nx_interface_priority (iface rif)) ||
      ((nx_interface_priority (iface rif) =? nx_interface_priority (iface bif)) &&
       negb (nx_interface_address_mapping_needed (iface rif)) && nx_interface_address_mapping_needed (iface bif))
  end.

Definition default_router_step (best : option (ROUTER_ENTRY * nat)) (rt : ROUTER_ENTRY) : option (ROUTER_ENTRY * nat) :=
  match nx_ipv6_default_router_entry_interface_ptr rt with
  | Some rif =>
      if (nx_ipv6_default_router_entry_flag rt =? 0) || negb (nx_interface_link_up (iface rif)) then best
      else if router_before rif best then Some (rt, rif) else best
  | None => best
  end.

(** The entry, and the interface it names. *)
Definition anx6_default_router : option (ROUTER_ENTRY * nat) :=
  foldl default_router_step None (nx_ipv6_default_router_table ip).

Fixpoint static_router_from (l : list ROUTER_ENTRY) : option ROUTER_ENTRY :=
  match l with
  | [] => None
  | rt :: rest =>
      let flag := nx_ipv6_default_router_entry_flag rt in
      if negb (Z.land flag NX_IPV6_ROUTE_TYPE_VALID =? 0) && negb (Z.land flag NX_IPV6_ROUTE_TYPE_STATIC =? 0)
      then Some rt else static_router_from rest
  end.
Definition anx6_static_default_router : option ROUTER_ENTRY := static_router_from (nx_ipv6_default_router_table ip).

(** 1. An address of this node. *)
Fixpoint own_interface (l : list NXD_IPV6_ADDRESS) (dest : in6) : option nat :=
  match l with
  | [] => None
  | addr :: rest =>
      if anx6_usable addr && anx6_same_address (nxd_ipv6_address addr) dest
      then nxd_ipv6_address_attached addr else own_interface rest dest
  end.

(** 2b. The peer of a link, interfaces [i] to [i + n]. *)
Fixpoint peer_interface (n i : nat) (dest : in6) : option nat :=
  match n with
  | O => None
  | S k =>
      if nx_interface_link_up (iface i) && anx6_same_address (nth i (anx6_ptp_peer t) in6_any) dest
      then Some i else peer_interface k (S i) dest
  end.

(** An address that contributes a candidate on a link. *)
Definition on_link (addr : NXD_IPV6_ADDRESS) : option nat :=
  if anx6_usable addr then
    match nxd_ipv6_address_attached addr with
    | Some i => if (i =? NX_LOOPBACK_INTERFACE)%nat then None else Some i
    | None => None
    end
  else None.

Definition first_up_step (best : option nat) (addr : NXD_IPV6_ADDRESS) : option nat :=
  match on_link addr with
  | Some i => if anx6_prefer i best then Some i else best
  | None => best
  end.

(** 3. A joined group. *)
Fixpoint joined_interface (l : list (option nat * in6)) (dest : in6) : option nat :=
  match l with
  | [] => None
  | (joined, group) :: rest =>
      match joined with
      | Some i => if nx_interface_link_up (iface i) && anx6_same_address group dest then Some i else joined_interface rest dest
      | None => joined_interface rest dest
      end
  end.

(** 5. On-link prefixes: the interface and the length of the longest. *)
Definition prefix_step (dest : in6) (best : option nat * Z) (addr : NXD_IPV6_ADDRESS) : option nat * Z :=
  match on_link addr with
  | Some i =>
      let len := nxd_ipv6_address_prefix_length addr in
      if anx6_prefix_covers (nxd_ipv6_address addr) len dest &&
         (match best.1 with None => true | Some _ => false end || (best.2 <? len) ||
          ((len =? best.2) && anx6_prefer i best.1))
      then (Some i, len) else best
  | None => best
  end.

(** 5b. Prefixes routed through a peer. *)
Definition route_step (dest : in6) (best : option nat * Z) (r : ptp_route) : option nat * Z :=
  let via := Z.to_nat (interface_index r) in
  if (best.2 <? length r) && nx_interface_link_up (iface via) && anx6_prefix_covers (prefix r) (length r) dest
  then (Some via, length r) else best.

Definition anx6_outgoing_interface (dest : in6) : option nat :=
  match own_interface (nx_ipv6_address ip) dest with
  | Some i => Some i
  | None =>
      let scope := anx6_scope dest in
      if (a0 dest =? 0) && (a1 dest =? 0) && (a2 dest =? 0) && (a3 dest =? 1) then Some NX_LOOPBACK_INTERFACE
      else
        match (if negb (anx6_ptp_peers t =? 0) then peer_interface NX_MAX_PHYSICAL_INTERFACES 0 dest else None) with
        | Some i => Some i
        | None =>
            let first_up := foldl first_up_step None (nx_ipv6_address ip) in
            match (if is_multicast dest then joined_interface (nx_ipv6_multicast_entry ip) dest else None) with
            | Some i => Some i
            | None =>
                if is_multicast dest || (scope <=? ANX6_SCOPE_LINK) then first_up
                else
                  let best := foldl (prefix_step dest) (None, 0) (nx_ipv6_address ip) in
                  let best := foldl (route_step dest) best (routes_used t) in
                  match best.1 with
                  | Some i => Some i
                  | None => match anx6_default_router with Some (_, i) => Some i | None => None end
                  end
            end
        end
  end.

(** ** Candidates *)

Record ANX6_CANDIDATE := Candidate {
  anx6_cand_address : nat;
  anx6_cand_same : bool;
  anx6_cand_scope : Z;
  anx6_cand_deprecated : bool;
  anx6_cand_outgoing : bool;
  anx6_cand_label_match : bool;
  anx6_cand_prefix_len : Z
}.

Definition anx6_describe (n : nat) (addr : NXD_IPV6_ADDRESS) (dest : in6) (dest_label : Z) (out_if : nat) : ANX6_CANDIDATE :=
  let length := anx6_common_prefix_len (nxd_ipv6_address addr) dest in
  Candidate n
    (anx6_same_address (nxd_ipv6_address addr) dest)
    (anx6_scope (nxd_ipv6_address addr))
    (nxd_ipv6_address_state addr =? NX_IPV6_ADDR_STATE_DEPRECATED)
    (bool_decide (nxd_ipv6_address_attached addr = Some out_if))
    (anx6_label (nxd_ipv6_address addr) =? dest_label)
    (if nxd_ipv6_address_prefix_length addr <? length then nxd_ipv6_address_prefix_length addr else length).

Definition anx6_better (dest_scope : Z) (sa sb : ANX6_CANDIDATE) : Z :=
  if negb (eqb (anx6_cand_same sa) (anx6_cand_same sb)) then if anx6_cand_same sa then 1 else -1
  else if negb (anx6_cand_scope sa =? anx6_cand_scope sb) then
    if anx6_cand_scope sa <? anx6_cand_scope sb then if anx6_cand_scope sa <? dest_scope then -1 else 1
    else if anx6_cand_scope sb <? dest_scope then 1 else -1
  else if negb (eqb (anx6_cand_deprecated sa) (anx6_cand_deprecated sb)) then if anx6_cand_deprecated sa then -1 else 1
  else if negb (eqb (anx6_cand_outgoing sa) (anx6_cand_outgoing sb)) then if anx6_cand_outgoing sa then 1 else -1
  else if negb (eqb (anx6_cand_label_match sa) (anx6_cand_label_match sb)) then if anx6_cand_label_match sa then 1 else -1
  else if negb (anx6_cand_prefix_len sa =? anx6_cand_prefix_len sb) then
    if anx6_cand_prefix_len sb <? anx6_cand_prefix_len sa then 1 else -1
  else 0.

(** The guards of the loop: the entry is skipped, or a candidate. *)
Definition candidate_ok (addr : NXD_IPV6_ADDRESS) (dest_scope : Z) (out_if : nat) (if_ptr : option nat) : bool :=
  anx6_usable addr &&
  negb ((dest_scope <=? ANX6_SCOPE_LINK) && negb (bool_decide (nxd_ipv6_address_attached addr = Some out_if))) &&
  negb (bool_decide (nxd_ipv6_address_attached addr = Some NX_LOOPBACK_INTERFACE) && negb (out_if =? NX_LOOPBACK_INTERFACE)%nat) &&
  negb (match if_ptr with Some i => negb (bool_decide (nxd_ipv6_address_attached addr = Some i)) | None => false end).

Fixpoint select_from (l : list NXD_IPV6_ADDRESS) (n : nat) (dest : in6) (dest_scope dest_label : Z) (out_if : nat)
    (if_ptr : option nat) (best : option ANX6_CANDIDATE) : option ANX6_CANDIDATE :=
  match l with
  | [] => best
  | addr :: rest =>
      if negb (candidate_ok addr dest_scope out_if if_ptr)
      then select_from rest (S n) dest dest_scope dest_label out_if if_ptr best
      else
        let here := anx6_describe n addr dest dest_label out_if in
        let best := match best with
                    | None => Some here
                    | Some b => if 0 <? anx6_better dest_scope here b then Some here else Some b
                    end in
        select_from rest (S n) dest dest_scope dest_label out_if if_ptr best
  end.

(** The index of the address, or [None] for NX_NO_INTERFACE_ADDRESS. *)
Definition _nxd_ipv6_interface_find (dest : in6) (if_ptr : option nat) : option nat :=
  if is_unspecified dest then None
  else
    match (match if_ptr with Some i => Some i | None => anx6_outgoing_interface dest end) with
    | None => None
    | Some out_if =>
        let dest_scope := anx6_scope dest in
        let dest_label := anx6_label dest in
        match select_from (nx_ipv6_address ip) 0 dest dest_scope dest_label out_if if_ptr None with
        | None => None
        | Some best => if anx6_cand_scope best <? dest_scope then None else Some (anx6_cand_address best)
        end
    end.
End Ip.
End Srcsel.
