(* ===== verification/SrcselSpec.v ===== *)
(** * What source selection computes (src/src/ipv6/ipv6_srcsel.c)

    Addresses as 128-bit numbers and the prefix tests as divisions, the policy table's
    longest match, the order of the candidates, and the address the selection returns. *)

From Stdlib Require Import ZArith Lia.
From stdpp Require Import base numbers list sets.
From S2P Require Import Prelude Srcsel.

(** ** Addresses as numbers *)

Fixpoint value (l : list Z) : Z :=
  match l with [] => 0 | w :: r => w * 2 ^ (32 * Z.of_nat (List.length r)) + value r end.
Definition num (a : in6) : Z := value (words a).
Definition wf6 (a : in6) : Prop := Forall is_u32 (words a).

Lemma num_range l : Forall is_u32 l -> 0 <= value l < 2 ^ (32 * Z.of_nat (List.length l)).
Proof.
  induction 1 as [|w r Hw _ IH]; simpl; [lia|]. unfold is_u32 in Hw.
  replace (32 * Z.of_nat (S (List.length r))) with (32 + 32 * Z.of_nat (List.length r)) by lia.
  rewrite Z.pow_add_r by lia. nia.
Qed.

(** Two's complement of a shifted word: the [bits] high bits of 32. *)
Lemma high_bits_spec bits i :
  0 <= bits <= 32 -> 0 <= i -> Z.testbit (high_bits bits) i = (32 - bits <=? i) && (i <? 32).
Proof.
  intros Hb Hi. unfold high_bits. change 0xFFFFFFFF with (Z.ones 32).
  rewrite Z.land_spec, Z.lnot_spec, Z.shiftr_spec, !Z.testbit_ones_nonneg by lia.
  bcases; done.
Qed.

Lemma u32_bit_high z i : is_u32 z -> 32 <= i -> Z.testbit z i = false.
Proof.
  intros Hz Hi. rewrite <- (u32_small z Hz). unfold u32. by rewrite Z.mod_pow2_bits_high by lia.
Qed.

Lemma mask_zero p a bits :
  0 <= bits <= 32 -> is_u32 p -> is_u32 a ->
  Z.land (Z.lxor p a) (high_bits bits) = 0 <-> p / 2 ^ (32 - bits) = a / 2 ^ (32 - bits).
Proof.
  intros Hb Hp Ha. rewrite <- !Z.shiftr_div_pow2 by lia. split; intros E.
  - apply Z.bits_inj'. intros i Hi. rewrite !Z.shiftr_spec by lia.
    destruct (Z.ltb_spec (i + (32 - bits)) 32) as [Hlt|Hge]; [|by rewrite !u32_bit_high by (done || lia)].
    assert (B := f_equal (fun z => Z.testbit z (i + (32 - bits))) E). simpl in B.
    rewrite Z.land_spec, Z.lxor_spec, Z.bits_0, high_bits_spec in B by lia.
    revert B. bcases. by destruct (Z.testbit p _), (Z.testbit a _).
  - apply Z.bits_inj'. intros i Hi. rewrite Z.land_spec, Z.lxor_spec, Z.bits_0, high_bits_spec by lia.
    bcases; rewrite ?andb_false_r, ?andb_true_r; try done.
    assert (B := f_equal (fun z => Z.testbit z (i - (32 - bits))) E). simpl in B.
    rewrite !Z.shiftr_spec, Z.sub_add in B by lia. rewrite B. apply xorb_nilpotent.
Qed.

(** The quotient of a value by a power of two, word by word. *)
Lemma div_high w v m k : 0 <= m -> 0 <= k <= 32 -> 0 <= v < 2 ^ m ->
  (w * 2 ^ m + v) / 2 ^ (m + (32 - k)) = w / 2 ^ (32 - k).
Proof.
  intros Hm Hk Hv. rewrite Z.pow_add_r, <- Z.div_div by lia.
  by rewrite Z.div_add_l, (Z.div_small v), Z.add_0_r by lia.
Qed.

Lemma div_low w v m k : 0 <= k <= m -> (w * 2 ^ m + v) / 2 ^ (m - k) = w * 2 ^ k + v / 2 ^ (m - k).
Proof.
  intros Hk. assert (2 ^ m = 2 ^ k * 2 ^ (m - k)) as -> by (rewrite <- Z.pow_add_r by lia; f_equal; lia).
  rewrite Z.mul_assoc.
  apply Z.div_add_l. lia.
Qed.

Lemma div_low_range v m k : 0 <= k <= m -> 0 <= v < 2 ^ m -> 0 <= v / 2 ^ (m - k) < 2 ^ k.
Proof.
  intros Hk Hv. split; [apply Z.div_pos; lia|]. apply Z.div_lt_upper_bound; [lia|].
  rewrite <- Z.pow_add_r, Z.sub_add by lia. lia.
Qed.

Lemma covers_from_spec ps als len :
  List.length ps = List.length als -> Forall is_u32 ps -> Forall is_u32 als ->
  0 <= len <= 32 * Z.of_nat (List.length ps) ->
  covers_from (zip ps als) len = true <->
  value ps / 2 ^ (32 * Z.of_nat (List.length ps) - len) = value als / 2 ^ (32 * Z.of_nat (List.length ps) - len).
Proof.
  intros Hl Hp. revert als len Hl. induction Hp as [|p ps Hp Hps IH]; intros [|a als] len Hl Ha Hlen;
    simpl in *; try lia.
  apply Forall_cons in Ha as [Ha Has]. injection Hl as Hl.
  set (m := 32 * Z.of_nat (List.length ps)) in *.
  assert (Vp := num_range ps Hps). assert (Va := num_range als Has). rewrite <- Hl in Va |- *. fold m in Vp, Va |- *.
  replace (32 * Z.of_nat (S (List.length ps))) with (m + 32) in * by lia.
  assert (0 <= m) by lia. clearbody m. destruct (Z.ltb_spec 0 len); simpl.
  - destruct (Z.leb_spec 32 len); simpl.
    + change 0xFFFFFFFF with (high_bits 32). destruct (Z.land _ _ =? 0) eqn:E.
      * apply Z.eqb_eq in E. rewrite mask_zero in E by (done || lia). rewrite !Z.div_1_r in E. subst a.
        simpl. rewrite IH by (done || lia).
        replace (m + 32 - len) with (m - (len - 32)) by lia. rewrite !div_low by lia. lia.
      * apply Z.eqb_neq in E. rewrite mask_zero in E by (done || lia). rewrite !Z.div_1_r in E.
        split; [done|]. intros D. exfalso. apply E. revert D.
        replace (m + 32 - len) with (m - (len - 32)) by lia. rewrite !div_low by lia.
        pose proof (div_low_range _ m (len - 32) ltac:(lia) Vp). pose proof (div_low_range _ m (len - 32) ltac:(lia) Va).
        intros D. nia.
    + replace (m + 32 - len) with (m + (32 - len)) by lia. rewrite !div_high by lia.
      rewrite <- mask_zero by (done || lia). destruct (len =? 32) eqn:E; [lia|].
      destruct (Z.land _ _ =? 0) eqn:D; simpl; [|split; [done|lia]].
      apply Z.eqb_eq in D. split; [done|]. intros _. destruct (zip ps als) as [|[]]; simpl; [done|].
      destruct (Z.ltb_spec 0 (len - len)); [lia|done].
  - assert (len = 0) as -> by lia. split; [intros _|done].
    rewrite !Z.div_small; unfold is_u32 in *; [done| |]; rewrite Z.sub_0_r, Z.pow_add_r by lia; nia.
Qed.

Lemma prefix_covers_num p a len :
  wf6 p -> wf6 a -> 0 <= len <= 128 ->
  anx6_prefix_covers p len a = true <-> num p / 2 ^ (128 - len) = num a / 2 ^ (128 - len).
Proof. intros Hp Ha Hl. exact (covers_from_spec (words p) (words a) len eq_refl Hp Ha Hl). Qed.

Lemma pow2_bit k : 0 <= k < 32 -> Z.shiftr 0x80000000 k = 2 ^ (31 - k).
Proof. intros Hk. change 0x80000000 with (2 ^ 31). by rewrite Z.shiftr_div_pow2, <- Z.pow_sub_r by lia. Qed.

Lemma land_pow2 d k : 0 <= k -> (Z.land d (2 ^ k) =? 0) = negb (Z.testbit d k).
Proof.
  intros Hk. destruct (Z.testbit d k) eqn:E; simpl.
  - apply Z.eqb_neq. intros B. apply (f_equal (fun z => Z.testbit z k)) in B.
    by rewrite Z.land_spec, E, Z.pow2_bits_true, Z.bits_0 in B.
  - apply Z.eqb_eq, Z.bits_inj'. intros i Hi. rewrite Z.land_spec, Z.bits_0, Z.pow2_bits_eqb by done.
    destruct (Z.eqb_spec k i) as [<-|]; [by rewrite E|apply andb_false_r].
Qed.

(** The scan stops at the first set bit, counted from the top. *)
Lemma first_bit_spec n bit d :
  0 <= bit -> bit + Z.of_nat n = 32 ->
  (forall j, 0 <= j < bit -> Z.testbit d (31 - j) = false) ->
  (exists j, 0 <= j < 32 /\ Z.testbit d (31 - j) = true) ->
  0 <= first_bit n bit d < 32 /\ Z.testbit d (31 - first_bit n bit d) = true /\
  forall j, 0 <= j < first_bit n bit d -> Z.testbit d (31 - j) = false.
Proof.
  revert bit; induction n as [|n IH]; intros bit Hb Hn Hz Hex; simpl.
  - destruct Hex as (j & Hj & E). rewrite Hz in E by lia. done.
  - rewrite pow2_bit, land_pow2, negb_involutive by lia. destruct (Z.testbit d (31 - bit)) eqn:E; [by repeat split; auto; lia|].
    apply IH; [lia..| |done]. intros j Hj. destruct (Z.eq_dec j bit) as [->|]; [done|apply Hz; lia].
Qed.

Lemma word_bit_top d : is_u32 d -> d <> 0 -> exists j, 0 <= j < 32 /\ Z.testbit d (31 - j) = true.
Proof.
  intros Hd Hn. exists (31 - Z.log2 d). unfold is_u32 in Hd.
  pose proof (proj1 (Z.log2_lt_pow2 d 32 ltac:(lia)) ltac:(lia)). pose proof (Z.log2_nonneg d).
  split; [lia|]. replace (31 - (31 - Z.log2 d)) with (Z.log2 d) by lia. apply Z.bit_log2. lia.
Qed.

(** [len] high bits of a word are clear iff the scan goes past them. *)
Lemma first_bit_mask d len :
  is_u32 d -> d <> 0 -> 0 <= len <= 32 -> (Z.land d (high_bits len) =? 0) = (len <=? first_bit 32 0 d).
Proof.
  intros Hd Hn Hl. destruct (first_bit_spec 32 0 d) as (R & T & B); [lia..|by apply word_bit_top|].
  set (k := first_bit 32 0 d) in *. destruct (Z.leb_spec len k) as [Hle|Hlt].
  - apply Z.eqb_eq, Z.bits_inj'. intros i Hi. rewrite Z.land_spec, Z.bits_0, high_bits_spec by lia.
    bcases; rewrite ?andb_false_r; try done. specialize (B (31 - i) ltac:(lia)).
    replace (31 - (31 - i)) with i in B by lia. by rewrite B.
  - apply Z.eqb_neq. intros E. apply (f_equal (fun z => Z.testbit z (31 - k))) in E.
    rewrite Z.land_spec, T, Z.bits_0, high_bits_spec in E by lia. revert E. bcases; done.
Qed.

Lemma u32_lxor a b : is_u32 a -> is_u32 b -> is_u32 (Z.lxor a b).
Proof.
  intros Ha Hb. assert (Z.lxor a b = u32 (Z.lxor a b)) as ->; [|apply u32_range].
  apply Z.bits_inj'. intros i Hi. unfold u32. destruct (Z.ltb_spec i 32).
  - by rewrite Z.mod_pow2_bits_low by lia.
  - by rewrite Z.mod_pow2_bits_high, Z.lxor_spec, !u32_bit_high by (done || lia).
Qed.

Lemma covers_from_zero l : covers_from l 0 = true.
Proof. by destruct l as [|[]]. Qed.

Lemma common_prefix_ge l i : 0 <= i -> i + Z.of_nat (List.length l) = 4 ->
  Forall (fun p => is_u32 p.1 /\ is_u32 p.2) l ->
  i * 32 <= common_prefix_from l i <= 128 /\
  forall len, 0 <= len <= 32 * Z.of_nat (List.length l) ->
    covers_from l len = (len <=? common_prefix_from l i - i * 32).
Proof.
  intros Hi Hn Hl. revert i Hi Hn. induction Hl as [|[a b] r [Ha Hb] _ IH]; intros i Hi Hn; cbn -[first_bit Z.mul Z.sub] in *.
  - split; [lia|]. intros len Hlen. bcases; done || lia.
  - pose proof (u32_lxor a b Ha Hb) as U.
    destruct (Z.eqb_spec (Z.lxor a b) 0) as [E|E].
    + rewrite E. destruct (IH (i + 1)) as [R C]; [lia..|]. split; [lia|]. intros len Hlen.
      destruct (Z.ltb_spec 0 len); cbn -[first_bit high_bits]; [|by bcases].
      destruct (Z.leb_spec 32 len); cbn -[first_bit high_bits]; [rewrite C by lia; bcases; done|].
      rewrite Z.sub_diag, covers_from_zero. bcases; done.
    + destruct (first_bit_spec 32 0 (Z.lxor a b)) as (R & _); [lia..|by apply word_bit_top|].
      split; [lia|]. intros len Hlen.
      replace (i * 32 + first_bit 32 0 (Z.lxor a b) - i * 32) with (first_bit 32 0 (Z.lxor a b)) by lia.
      destruct (Z.ltb_spec 0 len); cbn -[first_bit high_bits]; [|by bcases].
      destruct (Z.leb_spec 32 len); cbn -[first_bit high_bits].
      * change 0xFFFFFFFF with (high_bits 32). rewrite first_bit_mask by (done || lia). bcases; done.
      * replace (if len =? 32 then _ else high_bits len) with (high_bits len) by (bcases; done).
        rewrite first_bit_mask, Z.sub_diag, covers_from_zero by (done || lia). bcases; done.
Qed.

Lemma wf6_zip a b : wf6 a -> wf6 b -> Forall (fun p => is_u32 p.1 /\ is_u32 p.2) (zip (words a) (words b)).
Proof.
  destruct a, b. unfold wf6, words; simpl. rewrite !Forall_cons. simpl.
  intros (? & ? & ? & ? & _) (? & ? & ? & ? & _). auto 10.
Qed.

Lemma common_prefix_covers a b len :
  wf6 a -> wf6 b -> 0 <= len <= 128 -> anx6_prefix_covers a len b = (len <=? anx6_common_prefix_len a b).
Proof.
  intros Ha Hb Hl. unfold anx6_common_prefix_len. rewrite <- (Z.sub_0_r (common_prefix_from _ _)).
  apply (proj2 (common_prefix_ge (zip (words a) (words b)) 0 ltac:(lia) eq_refl (wf6_zip a b Ha Hb))). exact Hl.
Qed.

Lemma wf6_check a : forallb (fun w => (0 <=? w) && (w <? 2 ^ 32)) (words a) = true -> wf6 a.
Proof.
  intros H. apply Forall_forall. intros w Hw. rewrite forallb_forall in H.
  apply list_elem_of_In, H, andb_true_iff in Hw as [H1 H2].
  apply Z.leb_le in H1. apply Z.ltb_lt in H2. done.
Qed.

(** C22 The common prefix length is the number of leading bits two addresses agree on,
    as 128-bit numbers, and the prefix test is the equality of the leading bits: [k]
    bits agree exactly when [k] is at most the length. *)
Theorem common_prefix_exact a b k :
  wf6 a -> wf6 b -> 0 <= k <= 128 ->
  0 <= anx6_common_prefix_len a b <= 128 /\
  (k <= anx6_common_prefix_len a b <-> num a / 2 ^ (128 - k) = num b / 2 ^ (128 - k)) /\
  (anx6_prefix_covers a k b = true <-> num a / 2 ^ (128 - k) = num b / 2 ^ (128 - k)).
Proof.
  intros Ha Hb Hk. split; [|split].
  - unfold anx6_common_prefix_len. destruct (common_prefix_ge (zip (words a) (words b)) 0) as [R _]; [done..|by apply wf6_zip|lia].
  - rewrite <- prefix_covers_num, common_prefix_covers by done. symmetry. apply Z.leb_le.
  - by apply prefix_covers_num.
Qed.

Lemma common_prefix_exact_witness :
  let a := In6 0x20010db8 0 0 1 in let b := In6 0x20010db8 0x00008000 0 2 in
  anx6_common_prefix_len a b = 48 /\ num a / 2 ^ (128 - 48) = num b / 2 ^ (128 - 48).
Proof.
  intros a b. assert (E : anx6_common_prefix_len a b = 48) by (vm_compute; reflexivity). split; [exact E|].
  destruct (common_prefix_exact a b 48) as (_ & [H _] & _); [by apply wf6_check..|lia|].
  apply H. rewrite E. lia.
Defined.

(** ** The policy table *)

Lemma policy_from_spec rows addr best best_len :
  anx6_policy_length best = best_len ->
  let r := policy_from rows addr best best_len in
  (r = best \/ r ∈ rows /\ anx6_prefix_covers (anx6_policy_prefix r) (anx6_policy_length r) addr = true) /\
  best_len <= anx6_policy_length r /\
  forall q, q ∈ rows -> anx6_prefix_covers (anx6_policy_prefix q) (anx6_policy_length q) addr = true ->
    anx6_policy_length q <= anx6_policy_length r.
Proof.
  revert best best_len. induction rows as [|row rest IH]; intros best best_len Hb; simpl.
  - split; [by left|]. split; [lia|]. intros q Hq. set_solver.
  - destruct (_ && _) eqn:G.
    + apply andb_true_iff in G as [G1 G2]. apply Z.ltb_lt in G1.
      destruct (IH row _ eq_refl) as ([-> | [Hin Hc]] & Hle & Hmax); (split; [right; set_solver|split; [lia|]]);
        intros q [-> |Hq]%elem_of_cons Hq'; [lia|by apply Hmax|lia|by apply Hmax].
    + destruct (IH best best_len Hb) as (Hr & Hle & Hmax). split; [set_solver|]. split; [lia|].
      intros q [-> |Hq]%elem_of_cons Hq'; [|by apply Hmax].
      rewrite Hq', andb_true_r in G. apply Z.ltb_ge in G. lia.
Qed.

(** Two prefixes that cover an address agree as far as both reach. *)
Lemma mask_join p q a m : Z.land (Z.lxor p a) m = 0 -> Z.land (Z.lxor q a) m = 0 -> Z.land (Z.lxor p q) m = 0.
Proof.
  intros H1 H2. apply Z.bits_inj'. intros i Hi.
  apply (f_equal (fun z => Z.testbit z i)) in H1, H2. rewrite !Z.land_spec, !Z.lxor_spec, !Z.bits_0 in *.
  by destruct (Z.testbit p i), (Z.testbit q i), (Z.testbit a i), (Z.testbit m i).
Qed.

Lemma covers_from_join ps qs l len :
  List.length ps = List.length l -> List.length qs = List.length l ->
  covers_from (zip ps l) len = true -> covers_from (zip qs l) len = true -> covers_from (zip ps qs) len = true.
Proof.
  revert ps qs len. induction l as [|a l IH]; intros [|p ps] [|q qs] len H1 H2; simpl in *; try done.
  destruct (negb (0 <? len)); [done|]. set (m := if _ =? 32 then _ else _).
  destruct (Z.land (Z.lxor p a) m =? 0) eqn:E1; [|done].
  destruct (Z.land (Z.lxor q a) m =? 0) eqn:E2; [|done]. apply Z.eqb_eq in E1, E2.
  rewrite (mask_join p q a m E1 E2). simpl. apply IH; lia.
Qed.

Lemma covers_join p q a len :
  anx6_prefix_covers p len a = true -> anx6_prefix_covers q len a = true -> anx6_prefix_covers p len q = true.
Proof. by apply (covers_from_join (words p) (words q) (words a)). Qed.

#[export] Instance policy_eq_dec : EqDecision ANX6_POLICY.
Proof. solve_decision. Defined.

(** No two rows of one length agree on it. *)
Definition rows_apart (l : list ANX6_POLICY) : bool :=
  forallb (fun r => forallb (fun q => bool_decide (q = r) ||
    negb ((anx6_policy_length q =? anx6_policy_length r) &&
          anx6_prefix_covers (anx6_policy_prefix r) (anx6_policy_length r) (anx6_policy_prefix q))) l) l.

(** The policy of an address is the row of the table with the longest prefix that
    covers it: the row is of the table, covers the address, and no covering row is
    longer, for every address. *)
Theorem policy_lookup_longest addr :
  let r := anx6_policy_lookup addr in
  r ∈ anx6_policy_table /\ anx6_prefix_covers (anx6_policy_prefix r) (anx6_policy_length r) addr = true /\
  forall q, q ∈ anx6_policy_table ->
    anx6_prefix_covers (anx6_policy_prefix q) (anx6_policy_length q) addr = true ->
    anx6_policy_length q < anx6_policy_length r \/ q = r.
Proof.
  intros r. destruct (policy_from_spec anx6_policy_table addr policy_any 0 eq_refl) as (Hr & _ & Hmax).
  fold (anx6_policy_lookup addr) in Hr, Hmax. fold r in Hr, Hmax.
  assert (Hrow : r ∈ anx6_policy_table /\
    anx6_prefix_covers (anx6_policy_prefix r) (anx6_policy_length r) addr = true).
  { destruct Hr as [-> | ?]; [|done]. split; [right; left|apply covers_from_zero]. }
  destruct Hrow as [Hin Hc]. split; [done|]. split; [done|]. intros q Hq Hqc.
  destruct (decide (anx6_policy_length q = anx6_policy_length r)) as [E|E]; [right|left; pose proof (Hmax q Hq Hqc); lia].
  rewrite E in Hqc. pose proof (covers_join _ _ _ _ Hc Hqc) as J.
  assert (A : rows_apart anx6_policy_table = true) by (vm_compute; reflexivity).
  unfold rows_apart in A. rewrite forallb_forall in A. specialize (A r (proj1 (list_elem_of_In _ _) Hin)).
  rewrite forallb_forall in A. specialize (A q (proj1 (list_elem_of_In _ _) Hq)).
  rewrite E, J, Z.eqb_refl in A. simpl in A. rewrite orb_false_r in A. by apply bool_decide_eq_true in A.
Qed.

(** ** The order of the candidates *)

Definition bz (b : bool) : Z := if b then 1 else 0.

(** What the rules ask, the most important first; higher is preferred.  A scope that
    is large enough comes before one that is not; among the former the smaller, among
    the latter the larger. *)
Definition rank (dest_scope : Z) (c : ANX6_CANDIDATE) : list Z :=
  [ bz (anx6_cand_same c);
    bz (dest_scope <=? anx6_cand_scope c);
    (if dest_scope <=? anx6_cand_scope c then - anx6_cand_scope c else anx6_cand_scope c);
    bz (negb (anx6_cand_deprecated c));
    bz (anx6_cand_outgoing c);
    bz (anx6_cand_label_match c);
    anx6_cand_prefix_len c ].

Fixpoint lex (a b : list Z) : Z :=
  match a, b with
  | x :: a, y :: b => if x <? y then -1 else if y <? x then 1 else lex a b
  | _, _ => 0
  end.

Lemma lex_antisym a b : lex a b = - lex b a.
Proof.
  revert b; induction a as [|x a IH]; intros [|y b]; simpl; try done. bcases; try lia. apply IH.
Qed.

Lemma lex_trans a b c :
  List.length a = List.length b -> List.length b = List.length c ->
  0 <= lex a b -> 0 <= lex b c -> 0 <= lex a c /\ (0 < lex a b \/ 0 < lex b c -> 0 < lex a c).
Proof.
  revert b c; induction a as [|x a IH]; intros [|y b] [|z c] H1 H2; simpl in *; try lia.
  bcases; try lia. apply IH; lia.
Qed.

Lemma better_rank d a b : anx6_better d a b = lex (rank d a) (rank d b).
Proof.
  destruct a as [n sm sc dp og lb pl], b as [n' sm' sc' dp' og' lb' pl'].
  unfold anx6_better, rank; simpl.
  destruct sm, sm'; simpl; try done; (destruct (Z.eqb_spec sc sc') as [-> |]; simpl;
    [rewrite !Z.ltb_irrefl|unfold bz; bcases; lia || done]);
    destruct dp, dp'; simpl; try done; destruct og, og'; simpl; try done; destruct lb, lb'; simpl; try done;
    bcases; done || lia.
Qed.

Lemma lex_zero a b : List.length a = List.length b -> lex a b = 0 <-> a = b.
Proof.
  revert b; induction a as [|x a IH]; intros [|y b] H; simpl in *; try done.
  bcases; [split; [done|intros [= -> ->]; lia]..|]. assert (x = y) as -> by lia.
  rewrite IH by lia. naive_solver.
Qed.

Lemma better_antisym d a b : anx6_better d a b = - anx6_better d b a.
Proof. rewrite !better_rank. apply lex_antisym. Qed.

Lemma better_trans d a b c : 0 <= anx6_better d a b -> 0 <= anx6_better d b c ->
  0 <= anx6_better d a c /\ (0 < anx6_better d a b \/ 0 < anx6_better d b c -> 0 < anx6_better d a c).
Proof. rewrite !better_rank. by apply lex_trans. Qed.

(** The comparison of two candidates is the lexicographic order of RFC 6724's rules
    1, 2, 3, 5, 6 and 8: it is the sign of the comparison of the ranks, which makes it
    antisymmetric and transitive, strictly if either step is strict. *)
Theorem better_is_order d a b c :
  anx6_better d a b = lex (rank d a) (rank d b) /\
  anx6_better d a b = - anx6_better d b a /\
  (anx6_better d a b = 0 <-> rank d a = rank d b) /\
  (0 <= anx6_better d a b -> 0 <= anx6_better d b c ->
   0 <= anx6_better d a c /\ (0 < anx6_better d a b \/ 0 < anx6_better d b c -> 0 < anx6_better d a c)).
Proof.
  rewrite !better_rank. split; [done|]. split; [apply lex_antisym|]. split; [by apply lex_zero|].
  by apply lex_trans.
Qed.

(** ** The selection *)

Section Select.
Context (NX_MAX_PHYSICAL_INTERFACES NX_LOOPBACK_INTERFACE : nat).
Context (VALID PREFERRED DEPRECATED : Z).
Context (ip : NX_IP) (t : ptp) (dest : in6) (if_ptr : option nat).

Local Abbreviation ok out a := (candidate_ok NX_LOOPBACK_INTERFACE VALID PREFERRED DEPRECATED ip a (anx6_scope dest) out if_ptr = true).
Local Abbreviation describe out n a := (anx6_describe DEPRECATED n a dest (anx6_label dest) out).
Local Abbreviation better := (anx6_better (anx6_scope dest)).
Local Abbreviation select l n out best :=
  (select_from NX_LOOPBACK_INTERFACE VALID PREFERRED DEPRECATED ip l n dest (anx6_scope dest) (anx6_label dest) out if_ptr best).
Local Abbreviation find :=
  (_nxd_ipv6_interface_find NX_MAX_PHYSICAL_INTERFACES NX_LOOPBACK_INTERFACE VALID PREFERRED DEPRECATED ip t dest if_ptr).
Local Abbreviation outgoing :=
  (match if_ptr with
   | Some i => Some i
   | None => anx6_outgoing_interface NX_MAX_PHYSICAL_INTERFACES NX_LOOPBACK_INTERFACE VALID PREFERRED DEPRECATED ip t dest
   end).

(** Entry [k] of [l] is the first of the best candidates of [l]. *)
Definition first_best (out : nat) (l : list NXD_IPV6_ADDRESS) (k : nat) : Prop :=
  exists a, l !! k = Some a /\ ok out a /\
  forall j b, l !! j = Some b -> ok out b ->
    0 <= better (describe out k a) (describe out j b) /\
    ((j < k)%nat -> 0 < better (describe out k a) (describe out j b)).

Definition chosen (out : nat) (l : list NXD_IPV6_ADDRESS) (best : option ANX6_CANDIDATE) : Prop :=
  match best with
  | None => forall j b, l !! j = Some b -> ok out b -> False
  | Some c => first_best out l (anx6_cand_address c) /\
              exists a, l !! anx6_cand_address c = Some a /\ c = describe out (anx6_cand_address c) a
  end.

Lemma chosen_skip out l a best : chosen out l best -> ~ ok out a -> chosen out (l ++ [a]) best.
Proof.
  intros C N. destruct best as [c|]; simpl in *.
  - destruct C as [(x & Hx & Ox & Hall) (y & Hy & Ey)]. split; [exists x|exists y]; (split; [by apply lookup_app_l_Some|]); [|done].
    split; [done|]. intros j b [Hj|[Hj Hb]]%lookup_app_Some Ob; [by apply Hall|].
    apply list_lookup_singleton_Some in Hb as [_ <-]. done.
  - intros j b [Hj|[Hj Hb]]%lookup_app_Some Ob; [by eapply C|].
    apply list_lookup_singleton_Some in Hb as [_ <-]. done.
Qed.

Lemma chosen_step out l a best :
  chosen out l best -> ok out a ->
  chosen out (l ++ [a])
    (match best with
     | None => Some (describe out (List.length l) a)
     | Some b => if 0 <? better (describe out (List.length l) a) b then Some (describe out (List.length l) a) else Some b
     end).
Proof.
  intros C O. assert (Hend : (l ++ [a]) !! List.length l = Some a) by by apply list_lookup_middle.
  assert (Hlast : forall j b, (l ++ [a]) !! j = Some b -> l !! j = Some b /\ (j < List.length l)%nat \/ j = List.length l /\ b = a).
  { intros j b [Hj|[Hj Hb]]%lookup_app_Some; [left; split; [done|by eapply lookup_lt_Some]|].
    apply list_lookup_singleton_Some in Hb as [? <-]. right. split; [lia|done]. }
  assert (Hself : forall j, 0 <= better (describe out j a) (describe out j a)).
  { intros j. rewrite better_rank, (proj2 (lex_zero _ _ eq_refl)); done. }
  destruct best as [c|]; simpl in *.
  - destruct C as [(x & Hx & Ox & Hall) (y & Hy & Ey)]. simplify_eq. set (k := anx6_cand_address c) in *.
    destruct (Z.ltb_spec 0 (better (describe out (List.length l) a) c)) as [Hb|Hb]; simpl.
    + split; [|by exists a]. exists a. split; [done|]. split; [done|].
      intros j b [[Hj Hlt] | [-> ->]]%Hlast Ob; [|split; [done|lia]].
      destruct (Hall j b Hj Ob) as [Hge _]. rewrite <- Ey in Hge.
      destruct (better_trans _ _ _ _ (Z.lt_le_incl _ _ Hb) Hge) as [T1 T2]. split; [done|]. intros _. apply T2. by left.
    + fold k. split; [|exists x; split; [by apply lookup_app_l_Some|done]]. exists x. split; [by apply lookup_app_l_Some|].
      split; [done|]. intros j b [[Hj Hlt] | [-> ->]]%Hlast Ob; [by apply Hall|].
      rewrite <- Ey. pose proof (better_antisym (anx6_scope dest) c (describe out (List.length l) a)).
      pose proof (lookup_lt_Some _ _ _ Hx). split; lia.
  - split; [|by exists a]. exists a. split; [done|]. split; [done|].
    intros j b [[Hj Hlt] | [-> ->]]%Hlast Ob; [by destruct (C j b)|]. split; [done|lia].
Qed.

Lemma select_spec out l pre best :
  chosen out pre best -> chosen out (pre ++ l) (select l (List.length pre) out best).
Proof.
  revert pre best. induction l as [|a l IH]; intros pre best C; simpl; [by rewrite app_nil_r|].
  rewrite (cons_middle a), app_assoc.
  assert (E : S (List.length pre) = List.length (pre ++ [a])) by (rewrite length_app; simpl; lia). rewrite E.
  destruct (candidate_ok _ _ _ _ _ _ _ _ _) eqn:O; simpl; apply IH; [by apply chosen_step|].
  apply chosen_skip; [done|]. by rewrite O.
Qed.

Lemma same_address_eq a b : anx6_same_address a b = true <-> a = b.
Proof.
  destruct a, b. unfold anx6_same_address; simpl. rewrite !andb_true_iff, !Z.eqb_eq.
  split; [intros [[[-> ->] ->] ->]; done|intros [= -> -> -> ->]; done].
Qed.

Lemma unspecified_eq a : is_unspecified a = bool_decide (a = in6_any).
Proof.
  apply Bool.eq_iff_eq_true. rewrite bool_decide_eq_true, <- same_address_eq. destruct a. done.
Qed.

Lemma first_best_unique out l n m : first_best out l n -> first_best out l m -> n = m.
Proof.
  intros (a & Ha & Oa & Fa) (b & Hb & Ob & Fb). destruct (Fa m b Hb Ob) as [A1 A2], (Fb n a Ha Oa) as [B1 B2].
  rewrite better_antisym in B1, B2. destruct (Nat.lt_trichotomy n m) as [H|[H|H]]; [specialize (B2 H)|done|specialize (A2 H)]; lia.
Qed.

(** A best candidate that falls short means every candidate does. *)
Lemma best_short out k a j b :
  0 <= better (describe out k a) (describe out j b) ->
  anx6_scope (nxd_ipv6_address a) < anx6_scope dest -> anx6_scope (nxd_ipv6_address b) < anx6_scope dest.
Proof.
  unfold anx6_better, anx6_describe; simpl. intros H S. revert H.
  destruct (anx6_same_address (nxd_ipv6_address a) dest) eqn:E; [apply same_address_eq in E; rewrite E in S; lia|].
  destruct (anx6_same_address (nxd_ipv6_address b) dest); simpl; [lia|]. bcases; lia.
Qed.


(** The selection fails exactly when it has to: the destination is ::, no interface
    leads to it, or no candidate on the outgoing interface's terms has a scope that
    reaches the destination's. *)
Theorem interface_find_none :
  find = None <->
  dest = in6_any \/ outgoing = None \/
  exists out, outgoing = Some out /\
    forall j b, nx_ipv6_address ip !! j = Some b -> ok out b ->
      anx6_scope (nxd_ipv6_address b) < anx6_scope dest.
Proof.
  unfold _nxd_ipv6_interface_find. rewrite unspecified_eq. case_bool_decide as E; simpl; [naive_solver|].
  destruct outgoing as [out|]; [|naive_solver].
  pose proof (select_spec out (nx_ipv6_address ip) [] None ltac:(by intros ? ? ?)) as C. simpl in C.
  destruct (select _ _ _ _) as [c|]; simpl in C.
  - destruct C as [(a & Ha & Oa & Hall) (a' & Ha' & Ec)]. simplify_eq. set (k := anx6_cand_address c) in *.
    assert (anx6_cand_scope c = anx6_scope (nxd_ipv6_address a)) as -> by (rewrite Ec; done).
    destruct (Z.ltb_spec (anx6_scope (nxd_ipv6_address a)) (anx6_scope dest)) as [S|S].
    + split; [|done]. intros _. right; right. exists out. split; [done|]. intros j b Hb Ob.
      eapply best_short; [|done]. by apply Hall.
    + split; [done|]. intros [?|[?|(o & [= <-] & H)]]; [done..|]. specialize (H _ _ Ha Oa). lia.
  - split; [|done]. intros _. right; right. exists out. split; [done|]. intros j b Hb Ob. by destruct (C j b).
Qed.
End Select.
