(* ===== verification/SrcselPtp.v ===== *)
(** * The point-to-point table and the outgoing interface (src/src/ipv6/ipv6_srcsel.c)

    The table of routed prefixes as a finite map from a prefix and its length to an
    interface, which adding, deleting and clearing a peer implement, and the longest
    match the outgoing interface is chosen by. *)

From Stdlib Require Import ZArith Lia.
From stdpp Require Import base numbers list gmap sets.
From S2P Require Import Prelude Srcsel SrcselSpec.

#[export] Instance in6_countable : Countable in6.
Proof.
  refine (inj_countable' (fun a => (a0 a, a1 a, a2 a, a3 a)) (fun '(x, y, z, w) => In6 x y z w) _).
  by intros [].
Defined.

#[export] Instance ptp_route_eq_dec : EqDecision ptp_route.
Proof. solve_decision. Defined.

(** ** Canonical prefixes *)

Lemma masked_word_value w bits :
  0 <= bits <= 32 -> is_u32 w -> Z.land w (high_bits bits) = w / 2 ^ (32 - bits) * 2 ^ (32 - bits).
Proof.
  intros Hb Hw. rewrite <- Z.shiftr_div_pow2, <- Z.shiftl_mul_pow2 by lia.
  apply Z.bits_inj'. intros i Hi. rewrite Z.land_spec, high_bits_spec, Z.shiftl_spec by lia.
  destruct (Z.leb_spec (32 - bits) i) as [Hle|Hlt]; simpl.
  - rewrite Z.shiftr_spec, Z.sub_add by lia. destruct (Z.ltb_spec i 32); [apply andb_true_r|].
    by rewrite u32_bit_high, andb_false_r by (done || lia).
  - rewrite andb_false_r. by rewrite Z.testbit_neg_r by lia.
Qed.

Lemma masked_word_spec len i w :
  is_u32 w -> masked_word len i w = w / 2 ^ (32 - word_bits len i) * 2 ^ (32 - word_bits len i).
Proof.
  intros Hw. assert (B : 0 <= word_bits len i <= 32) by (unfold word_bits; bcases; lia).
  unfold masked_word. destruct (Z.eqb_spec (word_bits len i) 32) as [->|]; [by rewrite Z.div_1_r, Z.mul_1_r|].
  destruct (Z.eqb_spec (word_bits len i) 0) as [->|]; [|by apply masked_word_value].
  rewrite Z.div_small; [done|exact Hw].
Qed.

Lemma masked_word_range len i w : is_u32 w -> is_u32 (masked_word len i w).
Proof.
  intros Hw. rewrite masked_word_spec by done. unfold is_u32 in *.
  set (k := 2 ^ (32 - word_bits len i)).
  assert (0 < k) by (apply Z.pow_pos_nonneg; [lia|unfold word_bits; bcases; lia]).
  pose proof (Z.mul_div_le w k ltac:(lia)). pose proof (Z.div_pos w k). nia.
Qed.

Lemma wf6_words a : wf6 a <-> is_u32 (a0 a) /\ is_u32 (a1 a) /\ is_u32 (a2 a) /\ is_u32 (a3 a).
Proof. unfold wf6, words. rewrite !Forall_cons, Forall_nil. tauto. Qed.

Lemma wf6_masked len p : wf6 p -> wf6 (masked len p).
Proof. rewrite !wf6_words. intros (H0 & H1 & H2 & H3). simpl. auto 10 using masked_word_range. Qed.

(** [l] with everything past its first [len] bits cleared. *)
Fixpoint masked_list (l : list Z) (len : Z) : list Z :=
  match l with
  | [] => []
  | w :: r =>
      let k := Z.max 0 (Z.min 32 len) in
      w / 2 ^ (32 - k) * 2 ^ (32 - k) :: masked_list r (len - 32)
  end.

Lemma words_masked p len : wf6 p -> words (masked len p) = masked_list (words p) len.
Proof.
  rewrite wf6_words. intros (H0 & H1 & H2 & H3). unfold masked, words; simpl. rewrite !masked_word_spec by done.
  assert (W : forall i l, l = len - 32 * i -> word_bits len i = Z.max 0 (Z.min 32 l))
    by (intros i l ->; unfold word_bits; bcases; lia).
  by rewrite (W 0 len), (W 1 (len - 32)), (W 2 (len - 32 - 32)), (W 3 (len - 32 - 32 - 32)) by lia.
Qed.

Lemma masked_list_none l len : len <= 0 -> Forall is_u32 l -> masked_list l len = replicate (List.length l) 0.
Proof.
  intros Hl H. revert len Hl. induction H as [|w r Hw _ IH]; intros len Hl; simpl; [done|].
  rewrite IH by lia. f_equal. rewrite Z.max_l by lia. by rewrite Z.div_small.
Qed.

Lemma covers_from_masked ps qs len :
  List.length ps = List.length qs -> Forall is_u32 ps -> Forall is_u32 qs ->
  covers_from (zip ps qs) len = true <-> masked_list ps len = masked_list qs len.
Proof.
  intros Hl Hp. revert qs len Hl. induction Hp as [|p ps Hp Hps IH]; intros [|q qs] len Hl Hq;
    try done. apply Forall_cons in Hq as [Hq Hqs]. injection Hl as Hl.
  destruct (Z.ltb_spec 0 len) as [Hpos|Hneg].
  2:{ rewrite !masked_list_none by (done || lia || by constructor). simpl. rewrite Hl.
      destruct (Z.ltb_spec 0 len); [lia|done]. }
  simpl. destruct (Z.ltb_spec 0 len); [|lia]. simpl. rewrite Z.max_r by lia.
  replace (if 32 <=? len then 32 else len) with (Z.min 32 len) by (bcases; lia).
  set (k := Z.min 32 len). assert (Hk : 0 < k <= 32) by lia.
  replace (if k =? 32 then 0xFFFFFFFF else high_bits k) with (high_bits k)
    by (destruct (Z.eqb_spec k 32) as [->|]; done).
  assert (M := mask_zero p q k ltac:(lia) Hp Hq).
  assert (Hr : covers_from (zip ps qs) (len - k) = true <-> masked_list ps (len - 32) = masked_list qs (len - 32)).
  { destruct (Z.leb_spec 32 len); [by replace (len - k) with (len - 32) by lia; apply IH|].
    replace (len - k) with 0 by lia. rewrite covers_from_zero, !masked_list_none, Hl by (done || lia). done. }
  destruct (Z.eqb_spec (Z.land (Z.lxor p q) (high_bits k)) 0) as [E|E]; simpl.
  - rewrite Hr. apply M in E. rewrite E. split; [by intros ->|by intros [= ->]].
  - split; [done|]. intros [= D _]. exfalso. apply E, M.
    apply (Z.mul_cancel_r _ _ (2 ^ (32 - k))); [apply Z.pow_nonzero; lia|done].
Qed.

Lemma words_inj a b : words a = words b -> a = b.
Proof. destruct a, b. by intros [= -> -> -> ->]. Qed.

(** A prefix covers an address when they have the same canonical prefix. *)
Lemma covers_masked p q len :
  wf6 p -> wf6 q -> anx6_prefix_covers p len q = true <-> masked len p = masked len q.
Proof.
  intros Hp Hq. unfold anx6_prefix_covers. rewrite covers_from_masked by done.
  rewrite <- !words_masked by done. split; [apply words_inj|by intros ->].
Qed.

Lemma masked_list_idem l len : masked_list (masked_list l len) len = masked_list l len.
Proof.
  revert len; induction l as [|w r IH]; intros len; simpl; [done|]. rewrite IH. f_equal.
  rewrite Z.div_mul; [done|]. apply Z.pow_nonzero; lia.
Qed.

Lemma masked_idem len p : wf6 p -> masked len (masked len p) = masked len p.
Proof.
  intros Hp. apply words_inj. rewrite !words_masked by auto using wf6_masked. apply masked_list_idem.
Qed.

(** ** The table as a map *)

Definition canonical (r : ptp_route) : Prop :=
  wf6 (prefix r) /\ masked (Srcsel.length r) (prefix r) = prefix r /\ 0 < Srcsel.length r <= 128.

Definition key (r : ptp_route) : in6 * Z := (prefix r, Srcsel.length r).

(** The routed prefixes: interface by canonical prefix and length. *)
Definition table (l : list ptp_route) : gmap (in6 * Z) Z :=
  list_to_map (map (fun r => (key r, interface_index r)) l).
Definition routes (t : ptp) : gmap (in6 * Z) Z := table (routes_used t).

Lemma table_fst l : (map (fun r => (key r, interface_index r)) l).*1 = map key l.
Proof. induction l as [|r l IH]; [done|]. csimpl. by rewrite IH. Qed.

Lemma table_perm l l' : NoDup (map key l) -> l ≡ₚ l' -> table l = table l'.
Proof. intros Hn P. apply list_to_map_proper; [by rewrite table_fst|by rewrite P]. Qed.

Lemma table_cons r l : table (r :: l) = <[key r := interface_index r]> (table l).
Proof. done. Qed.

Lemma table_none k l : k ∉ map key l -> table l !! k = None.
Proof. intros Hk. apply not_elem_of_list_to_map_1. by rewrite table_fst. Qed.

Lemma table_size l : NoDup (map key l) -> size (table l) = List.length l.
Proof. intros Hn. unfold table. rewrite map_size_list_to_map by by rewrite table_fst. by rewrite length_map. Qed.

Lemma table_filter l i :
  NoDup (map key l) ->
  table (filter (fun r => interface_index r <> i) l) = filter (fun kv => kv.2 <> i) (table l).
Proof.
  induction l as [|r l IH]; [intros _; symmetry; apply map_filter_empty|]. csimpl. intros [Hn Hd]%NoDup_cons.
  rewrite table_cons, filter_cons, map_filter_insert. simpl.
  destruct (decide (interface_index r <> i)); [by rewrite table_cons, IH|].
  rewrite delete_id by by apply table_none. by apply IH.
Qed.

Definition live_peers (l : list in6) : nat := List.length (filter (fun p => p <> in6_any) l).

Section Ptp.
Context (NX_MAX_PHYSICAL_INTERFACES : nat) (Hmax : (NX_MAX_PHYSICAL_INTERFACES <= 256)%nat).

Record ptp_ok (t : ptp) : Prop := {
  ok_peers : List.length (anx6_ptp_peer t) = NX_MAX_PHYSICAL_INTERFACES;
  ok_count : anx6_ptp_peers t = Z.of_nat (live_peers (anx6_ptp_peer t));
  ok_size : List.length (anx6_ptp_route t) = ANX6_PTP_ROUTES;
  ok_used : (anx6_ptp_routes t <= ANX6_PTP_ROUTES)%nat;
  ok_canonical : Forall canonical (routes_used t);
  ok_index : Forall (fun r => 0 <= interface_index r < Z.of_nat NX_MAX_PHYSICAL_INTERFACES) (routes_used t);
  ok_keys : NoDup (map key (routes_used t))
}.

Lemma route_find_spec l p len n :
  wf6 p -> Forall canonical l ->
  (exists r k, l !! k = Some r /\ key r = (masked len p, len) /\ route_find_from l p len n = (n + k)%nat /\
     (k < List.length l)%nat) \/
  (~ (masked len p, len) ∈ map key l /\ route_find_from l p len n = (n + List.length l)%nat).
Proof.
  intros Hp Hl. revert n. induction Hl as [|r l (Hw & Hm & Hr) Hl IH]; intros n; simpl.
  - right. split; [set_solver|lia].
  - assert (K : (Srcsel.length r =? len) && anx6_prefix_covers (prefix r) len p = true <-> key r = (masked len p, len)).
    { rewrite andb_true_iff, Z.eqb_eq. unfold key. split.
      - intros [<- C]. apply covers_masked in C; [|done..]. by rewrite <- C, Hm.
      - intros [= E <-]. split; [done|]. apply covers_masked; [done..|]. by rewrite E, masked_idem. }
    destruct (_ && _).
    + left. exists r, 0%nat. split; [done|]. split; [by apply K|]. simpl. lia.
    + destruct (IH (S n)) as [(q & k & Hk & Kq & Ef & Hlt)|[Hn Ef]].
      * left. exists q, (S k). simpl. repeat split; try done; lia.
      * right. split; [|lia]. intros [E|?]%elem_of_cons; [|done]. symmetry in E. apply K in E. done.
Qed.

Lemma filter_true {A} (P : A -> Prop) `{!forall x, Decision (P x)} (l : list A) : Forall P l -> filter P l = l.
Proof. induction 1 as [|x l Hx _ IH]; [done|]. rewrite filter_cons, decide_True, IH; done. Qed.
Arguments filter_true {A} {P} {_} l _.

Lemma used_length t : ptp_ok t -> List.length (routes_used t) = anx6_ptp_routes t.
Proof. intros []. unfold routes_used. rewrite length_take. lia. Qed.

Lemma used_lookup t n r : routes_used t !! n = Some r -> anx6_ptp_route t !! n = Some r /\ nth n (anx6_ptp_route t) route_zero = r.
Proof.
  intros [H _]%lookup_take_Some. split; [done|]. by apply nth_lookup_Some.
Qed.

(** The last entry takes the place of the one that goes. *)
Lemma swap_last (l : list ptp_route) n r x :
  l !! n = Some r -> l ++ [x] ≡ₚ r :: <[n := x]> l.
Proof.
  intros Hn. rewrite (insert_take_drop l n x) by by eapply lookup_lt_Some.
  rewrite <- (take_drop_middle l n r Hn) at 1. solve_Permutation.
Qed.

Lemma route_drop_perm t n r :
  ptp_ok t -> routes_used t !! n = Some r -> routes_used t ≡ₚ r :: routes_used (route_drop n t).
Proof.
  intros Hok Hr. pose proof (used_length t Hok) as Hl. pose proof (lookup_lt_Some _ _ _ Hr) as Hn.
  destruct (anx6_ptp_routes t) as [|c] eqn:Hc; [lia|].
  destruct (lookup_lt_is_Some_2 (anx6_ptp_route t) c) as [x Hx].
  { pose proof (ok_size t Hok). pose proof (ok_used t Hok). lia. }
  unfold route_drop, routes_used in *; simpl. rewrite Hc in *. simpl pred.
  rewrite (nth_lookup_Some _ _ _ _ Hx). rewrite (take_S_r _ _ _ Hx).
  destruct (decide (n = c)) as [-> |].
  - rewrite take_insert_ge by lia. apply lookup_take_Some in Hr as [Hr _]. simplify_eq.
    by rewrite Permutation_app_comm.
  - rewrite take_insert_lt by lia. apply swap_last.
    apply lookup_take_Some in Hr as [Hr _]. by rewrite lookup_take_lt by lia.
Qed.

Lemma ok_sub t t' r :
  ptp_ok t -> routes_used t ≡ₚ r :: routes_used t' ->
  anx6_ptp_peer t' = anx6_ptp_peer t -> anx6_ptp_peers t' = anx6_ptp_peers t ->
  List.length (anx6_ptp_route t') = ANX6_PTP_ROUTES -> (anx6_ptp_routes t' <= ANX6_PTP_ROUTES)%nat -> ptp_ok t'.
Proof.
  intros [] P Ep Ec Hs Hu.
  assert (Forall canonical (r :: routes_used t')) as [_ ?]%Forall_cons by (by rewrite <- P).
  assert (Forall (fun r => 0 <= interface_index r < Z.of_nat NX_MAX_PHYSICAL_INTERFACES) (r :: routes_used t')) as [_ ?]%Forall_cons by (by rewrite <- P).
  assert (NoDup (map key (r :: routes_used t'))) as [_ ?]%NoDup_cons by (by rewrite <- P).
  split; try done; congruence.
Qed.

Lemma route_drop_ok t n r : ptp_ok t -> routes_used t !! n = Some r -> ptp_ok (route_drop n t).
Proof.
  intros Hok Hr. eapply ok_sub; [exact Hok|by apply route_drop_perm|done|done| |].
  - simpl. rewrite length_insert. apply Hok.
  - simpl. pose proof (ok_used t Hok). lia.
Qed.

Lemma drop_routes_spec i index t :
  ptp_ok t -> (i <= anx6_ptp_routes t)%nat ->
  (forall j r, (i <= j)%nat -> routes_used t !! j = Some r -> interface_index r <> index) ->
  let t' := drop_routes i index t in
  ptp_ok t' /\ anx6_ptp_peer t' = anx6_ptp_peer t /\
  routes_used t' ≡ₚ filter (fun r => interface_index r <> index) (routes_used t).
Proof.
  revert t. induction i as [|i IH]; intros t Hok Hi Hrest; simpl.
  - split; [done|]. split; [done|]. rewrite (filter_true (routes_used t)); [done|]. apply Forall_lookup. intros j r Hj. apply (Hrest j r); [lia|done].
  - destruct (lookup_lt_is_Some_2 (routes_used t) i) as [r Hr]; [rewrite used_length by done; lia|].
    destruct (used_lookup t i r Hr) as [Hr' ->].
    destruct (Z.eqb_spec (interface_index r) index) as [E|E].
    + pose proof (route_drop_perm t i r Hok Hr) as P.
      assert (Hok' := route_drop_ok t i r Hok Hr).
      destruct (IH (route_drop i t)) as (H1 & H2 & H3); [done|simpl; lia| |].
      * intros j q Hj Hq. pose proof (lookup_lt_Some _ _ _ Hq) as Hlt. rewrite used_length in Hlt by done. simpl in Hlt.
        apply used_lookup in Hq as [Hq _]. simpl in Hq. destruct (decide (j = i)) as [-> |].
        -- rewrite list_lookup_insert_eq in Hq by (pose proof (ok_size t Hok); pose proof (ok_used t Hok); lia).
           injection Hq as <-.
           destruct (lookup_lt_is_Some_2 (routes_used t) (pred (anx6_ptp_routes t))) as [x Hx]; [rewrite used_length by done; lia|].
           rewrite (proj2 (used_lookup _ _ _ Hx)). eapply Hrest; [|exact Hx]; lia.
        -- rewrite list_lookup_insert_ne in Hq by done. apply (Hrest j q); [lia|].
           unfold routes_used. rewrite lookup_take_lt by lia. done.
      * split; [done|]. split; [done|]. rewrite H3, P. rewrite filter_cons. by destruct (decide (interface_index r <> index)).
    + apply IH; [done|lia|]. intros j q Hj Hq. destruct (decide (j = i)) as [-> |]; [congruence|]. apply (Hrest j q); [lia|done].
Qed.

(** An entry overwritten by one with its key. *)
Lemma insert_perm (l : list ptp_route) n old new :
  l !! n = Some old -> exists rest, l ≡ₚ old :: rest /\ <[n := new]> l ≡ₚ new :: rest.
Proof.
  intros Hn. exists (take n l ++ drop (S n) l).
  rewrite (insert_take_drop l n new) by by eapply lookup_lt_Some.
  split; [rewrite <- (take_drop_middle l n old Hn) at 1|]; solve_Permutation.
Qed.

(** A table whose entries are [r] and those of a good one. *)
Lemma ok_more t t' r rest :
  ptp_ok t -> canonical r -> 0 <= interface_index r < Z.of_nat NX_MAX_PHYSICAL_INTERFACES ->
  rest ⊆+ routes_used t -> ~ key r ∈ map key rest -> routes_used t' ≡ₚ r :: rest ->
  anx6_ptp_peer t' = anx6_ptp_peer t -> anx6_ptp_peers t' = anx6_ptp_peers t ->
  List.length (anx6_ptp_route t') = ANX6_PTP_ROUTES -> (anx6_ptp_routes t' <= ANX6_PTP_ROUTES)%nat ->
  ptp_ok t' /\ routes t' = <[key r := interface_index r]> (table rest).
Proof.
  intros Hok Hc Hi [k Pk]%submseteq_Permutation Hk P Ep Ec Hz Hu.
  pose proof (ok_keys t Hok) as N. rewrite Pk, map_app in N. apply NoDup_app in N as [N _].
  assert (Hn : NoDup (map key (routes_used t'))) by (rewrite P; by apply NoDup_cons).
  split; [|unfold routes; by rewrite (table_perm _ _ Hn P)].
  destruct Hok as [K1 K2 K3 K4 K5 K6 K7]. rewrite Pk in K5, K6. apply Forall_app in K5 as [K5 _], K6 as [K6 _].
  split; try done; [congruence..| |]; rewrite P; by apply Forall_cons.
Qed.

Lemma table_replace r r' rest : key r = key r' -> <[key r' := interface_index r']> (table rest) = <[key r' := interface_index r']> (table (r :: rest)).
Proof. intros E. by rewrite table_cons, E, insert_insert_eq. Qed.

Lemma masked_canonical p len index : wf6 p -> 0 < len <= 128 -> canonical (Route (masked len p) len index).
Proof. intros Hp Hl. split; [by apply wf6_masked|]. split; [by apply masked_idem|done]. Qed.

Lemma route_add_spec p len index t :
  ptp_ok t -> wf6 p -> 0 <= len -> 0 <= index ->
  let '(st, t') := anx6_ptp_route_add NX_MAX_PHYSICAL_INTERFACES p len index t in
  ptp_ok t' /\ anx6_ptp_peer t' = anx6_ptp_peer t /\
  if (len =? 0) || (128 <? len) || (Z.of_nat NX_MAX_PHYSICAL_INTERFACES <=? index)
  then st = NX_IP_ADDRESS_ERROR /\ routes t' = routes t
  else if decide (routes t !! (masked len p, len) = None /\ size (routes t) = ANX6_PTP_ROUTES)
  then st = NX_NO_MORE_ENTRIES /\ routes t' = routes t
  else st = NX_SUCCESS /\ routes t' = <[(masked len p, len) := index]> (routes t).
Proof.
  intros Hok Hp Hlen Hidx. unfold anx6_ptp_route_add. destruct (_ || _) eqn:G; [done|].
  rewrite !orb_false_iff in G. destruct G as [[G1 G2] G3].
  apply Z.eqb_neq in G1. apply Z.ltb_ge in G2. apply Z.leb_gt in G3.
  rewrite (u8_small len), (u8_small index) by (unfold is_u8; lia).
  set (new := Route (masked len p) len index). unfold anx6_ptp_route_find.
  assert (Hc : canonical new) by (apply masked_canonical; [done|lia]).
  pose proof (ok_size t Hok) as Hs. pose proof (ok_used t Hok) as Hu. pose proof (used_length t Hok) as Hl.
  assert (Hsz : size (routes t) = anx6_ptp_routes t) by (unfold routes; rewrite table_size by apply Hok; done).
  destruct (route_find_spec (routes_used t) p len 0 Hp (ok_canonical t Hok)) as [(r & k & Hk & Kr & -> & Hlt)|[Hn ->]]; simpl.
  - assert (Hsome : routes t !! (masked len p, len) <> None).
    { apply not_eq_None_Some. exists (interface_index r). unfold routes, table.
      apply elem_of_list_to_map_1; [rewrite table_fst; apply Hok|]. rewrite <- Kr.
      apply (list_elem_of_fmap_2 (fun r => (key r, interface_index r))). by eapply list_elem_of_lookup_2. }
    destruct (decide _) as [[? _]|_]; [done|].
    destruct (Nat.eqb_spec k ANX6_PTP_ROUTES) as [|_]; [lia|]. destruct (Nat.eqb_spec k (anx6_ptp_routes t)) as [|_]; [lia|].
    destruct (insert_perm (routes_used t) k r new Hk) as (rest & P1 & P2).
    assert (Hkey : key r = key new) by done.
    assert (Hrest : ~ key new ∈ map key rest).
    { pose proof (ok_keys t Hok) as N. rewrite P1 in N. apply NoDup_cons in N as [N _]. by rewrite <- Hkey. }
    destruct (ok_more t (Ptp (anx6_ptp_peer t) (anx6_ptp_peers t) (<[k:=new]> (anx6_ptp_route t)) (anx6_ptp_routes t)) new rest)
      as [H1 H2]; try done.
    + rewrite P1. by apply submseteq_cons.
    + unfold routes_used in *; simpl. by rewrite take_insert_lt by lia.
    + simpl. by rewrite length_insert.
    + split; [done|]. split; [done|]. split; [done|]. rewrite H2, (table_replace r new rest Hkey).
      unfold routes. by rewrite (table_perm _ _ (ok_keys t Hok) P1).
  - rewrite Hl. assert (Hnone : routes t !! (masked len p, len) = None) by by apply table_none.
    destruct (Nat.eqb_spec (anx6_ptp_routes t) ANX6_PTP_ROUTES) as [E|E].
    { destruct (decide _) as [_|N]; [done|]. destruct N. split; [done|congruence]. }
    destruct (decide _) as [[_ ?]|_]; [congruence|]. rewrite Nat.eqb_refl.
    destruct (ok_more t (Ptp (anx6_ptp_peer t) (anx6_ptp_peers t) (<[anx6_ptp_routes t:=new]> (anx6_ptp_route t)) (S (anx6_ptp_routes t))) new (routes_used t))
      as [H1 H2]; try done.
    + unfold routes_used; simpl. rewrite (take_S_r _ _ new) by (rewrite list_lookup_insert_eq by lia; done).
      rewrite take_insert_ge by lia. by rewrite Permutation_app_comm.
    + simpl. by rewrite length_insert.
    + simpl. lia.
Qed.

Lemma route_delete_spec p len index t :
  ptp_ok t -> wf6 p ->
  let '(st, t') := anx6_ptp_route_delete p len index t in
  ptp_ok t' /\ anx6_ptp_peer t' = anx6_ptp_peer t /\
  if decide (routes t !! (masked len p, len) = Some index)
  then st = NX_SUCCESS /\ routes t' = delete (masked len p, len) (routes t)
  else st = NX_ENTRY_NOT_FOUND /\ routes t' = routes t.
Proof.
  intros Hok Hp. unfold anx6_ptp_route_delete, anx6_ptp_route_find. pose proof (used_length t Hok) as Hl.
  destruct (route_find_spec (routes_used t) p len 0 Hp (ok_canonical t Hok)) as [(r & k & Hk & Kr & -> & Hlt)|[Hn ->]]; simpl.
  - destruct (Nat.eqb_spec k (anx6_ptp_routes t)) as [|_]; [lia|]. simpl.
    rewrite (proj2 (used_lookup _ _ _ Hk)).
    pose proof (route_drop_perm t k r Hok Hk) as P. pose proof (ok_keys t Hok) as N. pose proof N as N'.
    rewrite P in N'. apply NoDup_cons in N' as [N' _].
    assert (E : routes t = <[key r := interface_index r]> (routes (route_drop k t))) by (unfold routes; by rewrite (table_perm _ _ N P)).
    rewrite E, <- Kr, lookup_insert_eq. destruct (Z.eqb_spec (interface_index r) index) as [-> | Hne]; simpl.
    + rewrite decide_True by done. split; [by eapply route_drop_ok|]. split; [done|]. split; [done|].
      rewrite delete_insert_id; [done|]. by apply table_none.
    + rewrite decide_False by congruence. split; [done|]. split; [done|]. split; [done|]. by rewrite <- E.
  - rewrite Hl, Nat.eqb_refl. simpl. rewrite decide_False; [done|]. unfold routes. by rewrite table_none.
Qed.

Lemma any_bits_zero p : any_bits p = 0 <-> p = in6_any.
Proof.
  destruct p as [w x y z]. unfold any_bits; simpl. rewrite !Z.lor_eq_0_iff. unfold in6_any.
  split; [intros [[[-> ->] ->] ->]; done|by intros [= -> -> -> ->]].
Qed.

Lemma count_peers_spec l : count_peers l = Z.of_nat (live_peers l).
Proof.
  unfold count_peers, live_peers. set (f := fun (n : Z) (p : in6) => _).
  assert (A : forall n, foldl f n l = n + Z.of_nat (List.length (filter (fun p => p <> in6_any) l))); [|by rewrite A].
  induction l as [|p l IH]; intros n; simpl; [lia|]. rewrite IH, filter_cons. unfold f.
  destruct (Z.eqb_spec (any_bits p) 0) as [E|E].
  - apply any_bits_zero in E. rewrite decide_False by by intros []. simpl. lia.
  - rewrite decide_True by by intros ?%any_bits_zero. simpl. lia.
Qed.

(** The walk leaves the peers alone and does not look at them. *)
Definition with_peers (peers : list in6) (t : ptp) : ptp :=
  Ptp peers (anx6_ptp_peers t) (anx6_ptp_route t) (anx6_ptp_routes t).

Lemma drop_routes_peers i index peers t :
  drop_routes i index (with_peers peers t) = with_peers peers (drop_routes i index t).
Proof.
  revert t. induction i as [|i IH]; intros t; simpl; [done|]. rewrite <- IH. f_equal. by destruct (_ =? _).
Qed.

(** The counter is the number of peers after every change. *)
Lemma ok_recount t t' peers :
  ptp_ok t' -> List.length peers = NX_MAX_PHYSICAL_INTERFACES ->
  t = Ptp peers (count_peers (take NX_MAX_PHYSICAL_INTERFACES peers)) (anx6_ptp_route t') (anx6_ptp_routes t') ->
  ptp_ok t /\ routes t = routes t'.
Proof.
  intros Hok Hlen ->. split; [|done]. destruct Hok. split; try done; simpl.
  rewrite take_ge by lia. apply count_peers_spec.
Qed.

Lemma peer_set_spec index peer t :
  ptp_ok t ->
  let t' := anx6_ptp_peer_set NX_MAX_PHYSICAL_INTERFACES index peer t in
  ptp_ok t' /\
  if decide (index < NX_MAX_PHYSICAL_INTERFACES)%nat then
    let p := default in6_any peer in
    anx6_ptp_peer t' = <[index := p]> (anx6_ptp_peer t) /\
    routes t' = if decide (p = in6_any) then filter (fun kv => kv.2 <> Z.of_nat index) (routes t) else routes t
  else t' = t.
Proof.
  intros Hok. unfold anx6_ptp_peer_set. destruct (Nat.leb_spec NX_MAX_PHYSICAL_INTERFACES index) as [Hge|Hlt].
  { by rewrite decide_False by lia. }
  rewrite decide_True by done.
  replace (match peer with Some p => p | None => in6_any end) with (default in6_any peer) by by destruct peer.
  set (p := default in6_any peer). set (peers := <[index := p]> (anx6_ptp_peer t)).
  assert (Hp : List.length peers = NX_MAX_PHYSICAL_INTERFACES) by (unfold peers; rewrite length_insert; apply Hok).
  fold (with_peers peers t). destruct (Z.eqb_spec (any_bits p) 0) as [E|E].
  - apply any_bits_zero in E. rewrite decide_True by done.
    rewrite drop_routes_peers. change (anx6_ptp_routes (with_peers peers t)) with (anx6_ptp_routes t). destruct (drop_routes_spec (anx6_ptp_routes t) (Z.of_nat index) t Hok) as (H1 & H2 & H3); [done| |].
    { intros j r Hj Hr%lookup_lt_Some. rewrite used_length in Hr by done. lia. }
    edestruct (ok_recount _ (drop_routes (anx6_ptp_routes t) (Z.of_nat index) t) peers H1 Hp eq_refl) as [K1 K2].
    split; [exact K1|]. split; [done|]. etrans; [exact K2|]. unfold routes.
    rewrite (table_perm _ _ (ok_keys _ H1) H3). apply table_filter, Hok.
  - rewrite decide_False by by intros ?%any_bits_zero.
    destruct (ok_recount _ t peers Hok Hp eq_refl) as [K1 K2]. split; [exact K1|]. split; [done|exact K2].
Qed.

(** ** The table refines a map *)

Inductive ptp_op :=
| RouteAdd (p : in6) (len index : Z)
| RouteDelete (p : in6) (len index : Z)
| PeerSet (index : nat) (peer : option in6).

Definition op_wf (o : ptp_op) : Prop :=
  match o with
  | RouteAdd p len index => wf6 p /\ 0 <= len /\ 0 <= index
  | RouteDelete p _ _ => wf6 p
  | PeerSet _ _ => True
  end.

Definition ptp_step (o : ptp_op) (t : ptp) : status * ptp :=
  match o with
  | RouteAdd p len index => anx6_ptp_route_add NX_MAX_PHYSICAL_INTERFACES p len index t
  | RouteDelete p len index => anx6_ptp_route_delete p len index t
  | PeerSet index peer => (NX_SUCCESS, anx6_ptp_peer_set NX_MAX_PHYSICAL_INTERFACES index peer t)
  end.

Fixpoint ptp_run (ops : list ptp_op) (t : ptp) : list status * ptp :=
  match ops with
  | [] => ([], t)
  | o :: rest => let '(st, t) := ptp_step o t in let '(sts, t) := ptp_run rest t in (st :: sts, t)
  end.

(** What the table is for: a map of at most eight prefixes, and the peers. *)
Record ptp_spec := Spec { sp_routes : gmap (in6 * Z) Z; sp_peers : list in6 }.

Definition spec_step (o : ptp_op) (s : ptp_spec) : status * ptp_spec :=
  match o with
  | RouteAdd p len index =>
      if (len =? 0) || (128 <? len) || (Z.of_nat NX_MAX_PHYSICAL_INTERFACES <=? index) then (NX_IP_ADDRESS_ERROR, s)
      else if decide (sp_routes s !! (masked len p, len) = None /\ size (sp_routes s) = ANX6_PTP_ROUTES)
      then (NX_NO_MORE_ENTRIES, s)
      else (NX_SUCCESS, Spec (<[(masked len p, len) := index]> (sp_routes s)) (sp_peers s))
  | RouteDelete p len index =>
      if decide (sp_routes s !! (masked len p, len) = Some index)
      then (NX_SUCCESS, Spec (delete (masked len p, len) (sp_routes s)) (sp_peers s))
      else (NX_ENTRY_NOT_FOUND, s)
  | PeerSet index peer =>
      let p := default in6_any peer in
      if decide (index < NX_MAX_PHYSICAL_INTERFACES)%nat then
        (NX_SUCCESS, Spec (if decide (p = in6_any) then filter (fun kv => kv.2 <> Z.of_nat index) (sp_routes s) else sp_routes s)
                          (<[index := p]> (sp_peers s)))
      else (NX_SUCCESS, s)
  end.

Fixpoint spec_run (ops : list ptp_op) (s : ptp_spec) : list status * ptp_spec :=
  match ops with
  | [] => ([], s)
  | o :: rest => let '(st, s) := spec_step o s in let '(sts, s) := spec_run rest s in (st :: sts, s)
  end.

Definition view (t : ptp) : ptp_spec := Spec (routes t) (anx6_ptp_peer t).

Lemma ptp_step_refines o t :
  ptp_ok t -> op_wf o ->
  let '(st, t') := ptp_step o t in ptp_ok t' /\ spec_step o (view t) = (st, view t').
Proof.
  intros Hok Ho. unfold view. destruct o as [p len index|p len index|index peer]; simpl in *.
  - destruct Ho as (Hp & Hl & Hi). pose proof (route_add_spec p len index t Hok Hp Hl Hi) as H.
    destruct (anx6_ptp_route_add _ _ _ _ _) as [st t']. destruct H as (H & Ep & Hr). split; [done|]. rewrite Ep.
    destruct (_ || _); [by destruct Hr as [-> ->]|]. destruct (decide _); by destruct Hr as [-> ->].
  - pose proof (route_delete_spec p len index t Hok Ho) as H.
    destruct (anx6_ptp_route_delete _ _ _ _) as [st t']. destruct H as (H & Ep & Hr). split; [done|]. rewrite Ep.
    destruct (decide _); by destruct Hr as [-> ->].
  - destruct (peer_set_spec index peer t Hok) as [H Hr]. split; [done|].
    destruct (decide (index < _)%nat); [|by rewrite Hr]. by destruct Hr as [-> ->].
Qed.
End Ptp.

(** The table at start. *)
Definition ptp_init (n : nat) : ptp := Ptp (replicate n in6_any) 0 (replicate ANX6_PTP_ROUTES route_zero) 0.

Lemma ptp_init_ok n : ptp_ok n (ptp_init n).
Proof.
  split; simpl; [by rewrite length_replicate| |done|lia|by constructor..].
  unfold live_peers. induction n as [|n IH]; simpl; [done|]. rewrite filter_cons. by destruct (decide _).
Qed.

(** C21 Any sequence of additions, deletions and changes of peers on the table of routed
    prefixes has the statuses and the effect it has on a finite map from a canonical
    prefix to its interface: an addition fails only for a bad argument or for a ninth
    prefix, replaces the interface of a prefix that is there, a deletion needs the
    interface to be the one routed, and a peer that goes takes the link's routes with
    it.  The array keeps no prefix twice, and the count of peers is exact. *)
Theorem ptp_refines_map n ops :
  (n <= 256)%nat -> Forall op_wf ops ->
  let '(sts, t) := ptp_run n ops (ptp_init n) in
  ptp_ok n t /\ spec_run n ops (Spec ∅ (replicate n in6_any)) = (sts, view t).
Proof.
  intros Hn Hops. change (Spec ∅ (replicate n in6_any)) with (view (ptp_init n)).
  generalize (ptp_init_ok n). generalize (ptp_init n).
  induction Hops as [|o ops Ho _ IH]; intros t Hok; simpl; [done|].
  pose proof (ptp_step_refines n Hn o t Hok Ho) as H. destruct (ptp_step n o t) as [st t1].
  destruct H as [Hok1 ->]. specialize (IH t1 Hok1). destruct (ptp_run n ops t1) as [sts t2].
  destruct IH as [Hok2 ->]. done.
Qed.

Definition demo_ops : list ptp_op :=
  [ RouteAdd (In6 0x20010db8 0x12345678 0 1) 40 1; PeerSet 1 (Some (In6 0xfe800000 0 0 2));
    RouteAdd (In6 0x20010db8 0x12000000 0 9) 40 0; RouteAdd (In6 0x20010db8 0 0 0) 48 1;
    RouteDelete (In6 0x20010db8 0x12ffffff 0 0) 40 1; RouteAdd in6_any 0 1; PeerSet 1 None ].

Lemma ptp_refines_map_witness :
  (ptp_run 3 demo_ops (ptp_init 3)).1 =
    [NX_SUCCESS; NX_SUCCESS; NX_SUCCESS; NX_SUCCESS; NX_ENTRY_NOT_FOUND; NX_IP_ADDRESS_ERROR; NX_SUCCESS] /\
  ptp_ok 3 (ptp_run 3 demo_ops (ptp_init 3)).2.
Proof.
  split; [vm_compute; reflexivity|].
  assert (W : Forall op_wf demo_ops) by (repeat (apply Forall_cons; split); try apply Forall_nil_2; simpl;
    repeat split; try (by apply wf6_check); lia).
  pose proof (ptp_refines_map 3 demo_ops ltac:(lia) W) as H.
  destruct (ptp_run 3 demo_ops (ptp_init 3)) as [sts t]. exact (proj1 H).
Defined.
