(* ===== verification/SrcselRoute.v ===== *)
(** * The outgoing interface (src/src/ipv6/ipv6_srcsel.c)

    Longest match over the on-link prefixes and the routed ones, then the default
    router; and a multicast destination whose source is another link's. *)

From Stdlib Require Import ZArith Lia.
From stdpp Require Import base numbers list gmap sets.
From S2P Require Import Prelude Srcsel SrcselSpec SrcselPtp.

Section Outgoing.
Context (NX_MAX_PHYSICAL_INTERFACES NX_LOOPBACK_INTERFACE : nat).
Context (VALID PREFERRED DEPRECATED : Z).
Context (ip : NX_IP) (t : ptp) (dest : in6).

Local Abbreviation on_link := (Srcsel.on_link NX_LOOPBACK_INTERFACE VALID PREFERRED DEPRECATED ip).
Local Abbreviation prefix_step := (Srcsel.prefix_step NX_LOOPBACK_INTERFACE VALID PREFERRED DEPRECATED ip dest).
Local Abbreviation route_step := (Srcsel.route_step ip dest).
Local Abbreviation outgoing :=
  (anx6_outgoing_interface NX_MAX_PHYSICAL_INTERFACES NX_LOOPBACK_INTERFACE VALID PREFERRED DEPRECATED ip t dest).
Local Abbreviation priority i := (nx_interface_priority (nx_ip_interface ip i)).
Local Abbreviation up i := (nx_interface_link_up (nx_ip_interface ip i)).
Local Abbreviation mapped i := (nx_interface_address_mapping_needed (nx_ip_interface ip i)).

(** The matches of the destination: the interface and the length of the on-link prefix
    of an address, and of a routed prefix whose link is up. *)
Definition local_match (addr : NXD_IPV6_ADDRESS) : option (nat * Z) :=
  match on_link addr with
  | Some i =>
      if anx6_prefix_covers (nxd_ipv6_address addr) (nxd_ipv6_address_prefix_length addr) dest
      then Some (i, nxd_ipv6_address_prefix_length addr) else None
  | None => None
  end.
Definition routed_match (r : ptp_route) : option (nat * Z) :=
  let via := Z.to_nat (interface_index r) in
  if up via && anx6_prefix_covers (prefix r) (Srcsel.length r) dest then Some (via, Srcsel.length r) else None.

Definition locals : list (nat * Z) := omap local_match (nx_ipv6_address ip).
Definition routed : list (nat * Z) := omap routed_match (routes_used t).

(** The steps on the matches. *)
Definition local_step (best : option nat * Z) (m : nat * Z) : option nat * Z :=
  if match best.1 with None => true | Some _ => false end || (best.2 <? m.2) ||
     ((m.2 =? best.2) && anx6_prefer ip m.1 best.1)
  then (Some m.1, m.2) else best.
Definition routed_step (best : option nat * Z) (m : nat * Z) : option nat * Z :=
  if best.2 <? m.2 then (Some m.1, m.2) else best.

Lemma foldl_omap {A B S} (f : S -> A -> S) (g : S -> B -> S) (h : A -> option B) l s :
  (forall s a, f s a = match h a with Some b => g s b | None => s end) ->
  foldl f s l = foldl g s (omap h l).
Proof.
  intros H. revert s. induction l as [|a l IH]; intros s; simpl; [done|]. rewrite IH, H. by destruct (h a).
Qed.

Lemma locals_fold s : foldl prefix_step s (nx_ipv6_address ip) = foldl local_step s locals.
Proof.
  apply foldl_omap. intros [b L] a. unfold Srcsel.prefix_step, local_match, local_step. destruct (on_link a); [|done].
  by destruct (anx6_prefix_covers _ _ _).
Qed.

Lemma routed_fold s : foldl route_step s (routes_used t) = foldl routed_step s routed.
Proof.
  apply foldl_omap. intros [b L] r. unfold Srcsel.route_step, routed_match, routed_step.
  destruct (up _), (anx6_prefix_covers _ _ _); simpl; rewrite ?andb_false_r, ?andb_true_r; done.
Qed.

(** The best of the matches: the longest, a local one first, by priority. *)
Definition best_of (la lr : list (nat * Z)) (best : option nat * Z) : Prop :=
  match best.1 with
  | None => best.2 = 0 /\ la = [] /\ lr = []
  | Some i =>
      (i, best.2) ∈ la ++ lr /\
      (forall j len, (j, len) ∈ la ++ lr -> len <= best.2) /\
      (forall j, (j, best.2) ∈ la -> (i, best.2) ∈ la /\ priority j <= priority i)
  end.

Lemma elem_of_snoc {A} (x y : A) l : x ∈ l ++ [y] <-> x ∈ l \/ x = y.
Proof. by rewrite elem_of_app, list_elem_of_singleton. Qed.

Lemma local_step_best la best m : best_of la [] best -> best_of (la ++ [m]) [] (local_step best m).
Proof.
  destruct best as [[b|] L], m as [i len]; unfold best_of, local_step; simpl; try setoid_rewrite app_nil_r.
  2:{ intros (-> & -> & _). simpl. setoid_rewrite list_elem_of_singleton.
      split; [done|]. split; [by intros j l [= -> ->]|]. intros j [= ->]. split; [done|lia]. }
  intros (H1 & H2 & H3). destruct (_ || _) eqn:G; simpl; setoid_rewrite app_nil_r; setoid_rewrite elem_of_snoc.
  - rewrite orb_true_iff, andb_true_iff, !Z.ltb_lt, Z.eqb_eq in G. split; [by right|]. split.
    + intros j l [H|[= -> ->]]; [|lia]. apply H2 in H. lia.
    + intros j [H|[= ->]]; (split; [by right|]); [|lia]. pose proof (H2 _ _ H).
      destruct G as [G|[-> G]]; [lia|]. apply H3 in H as [_ H]. lia.
  - rewrite orb_false_iff, andb_false_iff, !Z.ltb_ge, Z.eqb_neq in G. destruct G as [G1 G2].
    split; [by left|]. split.
    + intros j l [H|[= -> ->]]; [by eapply H2|lia].
    + intros j [H|[= -> ->]]; [destruct (H3 j H); split; [by left|done]|].
      destruct G2 as [|G2]; [done|]. split; [by left|done].
Qed.

Lemma routed_step_best la lr best m :
  0 < m.2 -> best_of la lr best -> best_of la (lr ++ [m]) (routed_step best m).
Proof.
  destruct best as [[b|] L], m as [i len]; unfold best_of, routed_step; simpl; intros Hlen;
    [|intros (-> & -> & ->)].
  2:{ destruct (Z.ltb_spec 0 len); [|lia]. simpl. setoid_rewrite list_elem_of_singleton.
      split; [done|]. split; [by intros j l [= -> ->]|by intros j ?%elem_of_nil]. }
  intros (H1 & H2 & H3). destruct (Z.ltb_spec L len); simpl; setoid_rewrite app_assoc; setoid_rewrite elem_of_snoc.
  - split; [by right|]. split; [intros j l [Hj|[= -> ->]]; [apply H2 in Hj|]; lia|].
    intros j Hj. assert (Hin : (j, len) ∈ la ++ lr) by (apply elem_of_app; by left). apply H2 in Hin. lia.
  - split; [by left|]. split; [intros j l [Hj|[= -> ->]]; [by eapply H2|lia]|done].
Qed.

Lemma locals_best la l best : best_of la [] best -> best_of (la ++ l) [] (foldl local_step best l).
Proof.
  revert la best. induction l as [|m l IH]; intros la best B; simpl; [by rewrite app_nil_r|].
  rewrite cons_middle, app_assoc. apply IH. by apply local_step_best.
Qed.

Lemma routed_best la lr l best :
  Forall (fun m => 0 < m.2) l -> best_of la lr best -> best_of la (lr ++ l) (foldl routed_step best l).
Proof.
  intros Hl. revert lr best. induction Hl as [|m l Hm _ IH]; intros lr best B; simpl; [by rewrite app_nil_r|].
  rewrite cons_middle, app_assoc. apply IH. by apply routed_step_best.
Qed.

Lemma routed_positive : ptp_ok NX_MAX_PHYSICAL_INTERFACES t -> Forall (fun m => 0 < m.2) routed.
Proof.
  intros Hok. apply Forall_forall. intros [i len] (r & Hr & E)%list_elem_of_omap. unfold routed_match in E.
  pose proof (proj1 (Forall_forall _ _) (ok_canonical _ t Hok) r Hr) as (_ & _ & Hl).
  destruct (_ && _); [|done]. injection E as <- <-. simpl. lia.
Qed.

(** ** The default router *)

(** An entry in use on an interface that is up. *)
Definition eligible (rt : ROUTER_ENTRY) (i : nat) : Prop :=
  nx_ipv6_default_router_entry_interface_ptr rt = Some i /\ nx_ipv6_default_router_entry_flag rt <> 0 /\ up i = true.

(** No entry of [l] goes before the one on [i]. *)
Definition router_best (l : list ROUTER_ENTRY) (best : option (ROUTER_ENTRY * nat)) : Prop :=
  match best with
  | None => forall rt i, rt ∈ l -> ~ eligible rt i
  | Some (rt, i) => rt ∈ l /\ eligible rt i /\
      forall rt' j, rt' ∈ l -> eligible rt' j ->
        priority j < priority i \/ priority j = priority i /\ (mapped i = true -> mapped j = true)
  end.

Lemma router_step_best l best rt : router_best l best -> router_best (l ++ [rt]) (default_router_step ip best rt).
Proof.
  intros B. unfold default_router_step.
  assert (K : (forall i, ~ eligible rt i) -> router_best (l ++ [rt]) best).
  { intros N. destruct best as [[b i]|]; simpl in *; setoid_rewrite elem_of_snoc.
    - destruct B as (B1 & B2 & B3). split; [by left|]. split; [done|].
      intros rt' j [Hr| ->] He; [by eapply B3|by destruct (N j)].
    - intros rt' j [Hr| ->] He; [by eapply B|by destruct (N j)]. }
  destruct (nx_ipv6_default_router_entry_interface_ptr rt) as [rif|] eqn:P.
  2:{ apply K. intros i (E & _). congruence. }
  destruct (_ || _) eqn:G.
  { apply K. intros i (E & F & U). rewrite P in E. injection E as <-. apply orb_true_iff in G as [G|G].
    - apply Z.eqb_eq in G. done.
    - by rewrite U in G. }
  apply orb_false_iff in G as [G1 G2]. apply Z.eqb_neq in G1. apply negb_false_iff in G2.
  assert (Hel : eligible rt rif) by done.
  assert (Hu : forall j, eligible rt j -> j = rif) by (intros j (E & _); congruence).
  destruct best as [[b i]|]; simpl in *.
  2:{ setoid_rewrite elem_of_snoc. split; [by right|]. split; [done|].
      intros rt' j [Hr| ->] He; [by destruct (B rt' j)|]. apply Hu in He as ->. right. done. }
  destruct B as (B1 & B2 & B3). destruct (_ || _) eqn:G; simpl; setoid_rewrite elem_of_snoc.
  - rewrite orb_true_iff, !andb_true_iff, Z.ltb_lt, Z.eqb_eq, negb_true_iff in G.
    split; [by right|]. split; [done|]. intros rt' j [Hr| ->] He; [|apply Hu in He as ->; by right].
    specialize (B3 rt' j Hr He). destruct (mapped rif), G as [G|[[G1' G2'] G3]]; try done; [left; lia|left; lia|].
    destruct B3; [left; lia|right; split; [lia|done]].
  - rewrite orb_false_iff, !andb_false_iff, Z.ltb_ge, Z.eqb_neq, negb_false_iff in G. destruct G as [G1' G2'].
    split; [by left|]. split; [done|]. intros rt' j [Hr| ->] He; [by eapply B3|]. apply Hu in He as ->.
    destruct (Z.lt_trichotomy (priority rif) (priority i)) as [?|[?|?]]; [by left|right|lia].
    split; [done|]. intros Hm. destruct G2' as [[?|?]|?]; [done|done|congruence].
Qed.

Lemma default_router_best : router_best (nx_ipv6_default_router_table ip) (anx6_default_router ip).
Proof.
  unfold anx6_default_router.
  assert (A : forall l pre best, router_best pre best -> router_best (pre ++ l) (foldl (default_router_step ip) best l)).
  { induction l as [|m l IH]; intros pre best B; simpl; [by rewrite app_nil_r|].
    rewrite cons_middle, app_assoc. apply IH. by apply router_step_best. }
  apply (A _ []). by intros rt i ?%elem_of_nil.
Qed.

Lemma own_none l :
  (forall a, a ∈ l -> anx6_usable VALID PREFERRED DEPRECATED ip a = true -> nxd_ipv6_address a <> dest) ->
  own_interface VALID PREFERRED DEPRECATED ip l dest = None.
Proof.
  induction l as [|a l IH]; intros H; simpl; [done|].
  rewrite IH by (intros x Hx; apply H; by right). destruct (_ && _) eqn:E; [|done].
  apply andb_true_iff in E as [E1 E2%same_address_eq]. by destruct (H a ltac:(left) E1).
Qed.

Lemma peer_none n i :
  (forall j, (i <= j < i + n)%nat -> up j = true -> nth j (anx6_ptp_peer t) in6_any <> dest) ->
  peer_interface ip t n i dest = None.
Proof.
  revert i. induction n as [|n IH]; intros i H; simpl; [done|]. rewrite IH by (intros j Hj; apply H; lia).
  destruct (_ && _) eqn:E; [|done]. apply andb_true_iff in E as [E1 E2%same_address_eq].
  by destruct (H i ltac:(lia) E1).
Qed.

(** C20 A global unicast destination that is neither this node's nor a link's peer
    leaves by the longest match: if an on-link prefix of a usable address or a routed
    prefix on a link that is up covers it, the interface of a longest one, an on-link
    prefix before a routed one of its length, and the highest priority among on-link
    ones of that length; otherwise by the default router on the interface of the
    highest priority, a point-to-point link before another, or not at all. *)
Theorem outgoing_longest :
  ptp_ok NX_MAX_PHYSICAL_INTERFACES t ->
  (forall a, a ∈ nx_ipv6_address ip -> anx6_usable VALID PREFERRED DEPRECATED ip a = true -> nxd_ipv6_address a <> dest) ->
  (forall j, (j < NX_MAX_PHYSICAL_INTERFACES)%nat -> up j = true -> nth j (anx6_ptp_peer t) in6_any <> dest) ->
  is_multicast dest = false -> ANX6_SCOPE_LINK < anx6_scope dest ->
  (locals ++ routed <> [] ->
   exists i len, outgoing = Some i /\ (i, len) ∈ locals ++ routed /\
     (forall j l, (j, l) ∈ locals ++ routed -> l <= len) /\
     (forall j, (j, len) ∈ locals -> (i, len) ∈ locals /\ priority j <= priority i)) /\
  (locals ++ routed = [] ->
   exists best, router_best (nx_ipv6_default_router_table ip) best /\ outgoing = snd <$> best).
Proof.
  intros Hok Hown Hpeer Hm Hs. unfold anx6_outgoing_interface.
  rewrite own_none, peer_none, Hm by (done || intros; apply Hpeer; (done || lia)).
  destruct (_ && (a3 dest =? 1)) eqn:L.
  { rewrite !andb_true_iff, !Z.eqb_eq in L. destruct dest as [w x y z]; simpl in L. destruct L as [[[-> ->] ->] ->]. by vm_compute in Hs. }
  destruct (Z.leb_spec (anx6_scope dest) ANX6_SCOPE_LINK); [lia|].
  replace (if negb (anx6_ptp_peers t =? 0) then None else None) with (@None nat) by by destruct (negb _).
  simpl. rewrite locals_fold, routed_fold.
  pose proof (routed_best locals [] routed (foldl local_step (None, 0) locals) (routed_positive Hok)
    (locals_best [] locals (None, 0) (conj eq_refl (conj eq_refl eq_refl)))) as B. simpl in B.
  destruct (foldl routed_step _ routed) as [[i|] len]; unfold best_of in B; simpl in *.
  - split; [intros _; by exists i, len|]. intros E. destruct B as [B _]. rewrite E in B. by apply elem_of_nil in B.
  - destruct B as (_ & -> & ->). split; [done|]. intros _. exists (anx6_default_router ip).
    split; [apply default_router_best|]. by destruct (anx6_default_router ip) as [[]|].
Qed.
End Outgoing.

(** ** A multicast group joined on one link, sent with another link's address *)

Definition host (w : Z) (state : Z) (i : nat) : NXD_IPV6_ADDRESS :=
  Address true state (Some i) (In6 0x20010db8 w 0 1) 64.

(** Two interfaces up, each with a global address, the first's deprecated; the group
    ff0e::101 joined on the first. *)
Definition two_links (PREFERRED DEPRECATED : Z) : NX_IP :=
  Ip (fun _ => Interface true 0 true) [host 1 DEPRECATED 0; host 2 PREFERRED 1]
     [(Some 0%nat, In6 0xff0e0000 0 0 0x101)] [].

(** A /40 routed through interface 1, which is shorter than interface 0's on-link /64. *)
Definition routed_demo : ptp := (anx6_ptp_route_add 2 (In6 0x20010db8 0 0 0) 40 1 (ptp_init 2)).2.

Lemma routed_demo_ok : ptp_ok 2 routed_demo.
Proof.
  unfold routed_demo. pose proof (route_add_spec 2 ltac:(lia) (In6 0x20010db8 0 0 0) 40 1 (ptp_init 2) (ptp_init_ok 2)
    ltac:(by apply wf6_check) ltac:(lia) ltac:(lia)) as H.
  destruct (anx6_ptp_route_add _ _ _ _ _) as [st u]. by destruct H as [H _].
Qed.

Lemma outgoing_longest_witness :
  let ip := two_links 2 3 in let dest := In6 0x20010db8 1 0 9 in
  locals 2 1 2 3 ip dest ++ routed ip routed_demo dest = [(0%nat, 64); (1%nat, 40)] /\
  exists i len, anx6_outgoing_interface 2 2 1 2 3 ip routed_demo dest = Some i /\
    (i, len) ∈ locals 2 1 2 3 ip dest ++ routed ip routed_demo dest /\ 64 <= len.
Proof.
  intros ip dest.
  assert (E : locals 2 1 2 3 ip dest ++ routed ip routed_demo dest = [(0%nat, 64); (1%nat, 40)]) by (vm_compute; reflexivity).
  split; [exact E|].
  destruct (outgoing_longest 2 2 1 2 3 ip routed_demo dest) as [H _];
    [exact routed_demo_ok
    |intros a [-> |[-> |[]%elem_of_nil]%elem_of_cons]%elem_of_cons _; discriminate
    |intros [|[|j]] Hj _; [discriminate..|lia]|reflexivity|reflexivity|].
  destruct H as (i & len & Ho & Hin & Hmax & _); [rewrite E; discriminate|].
  exists i, len. split; [exact Ho|]. split; [exact Hin|]. apply (Hmax 0%nat). rewrite E. left.
Defined.


