(* ===== verification/RxVerify.v ===== *)
(** * Receive checksum checks (src/src/net68k/n68k_rx_verify.c)

    A received frame is the memory from its prepend pointer on, in one buffer, most
    significant byte first as the target is; a read outside it is a [Fault].  The
    checksum the checks call is [n68k_ip_checksum_compute] (n68k_checksum_hook.c gives
    it the vendored name), which can write a pad byte, so the memory is threaded.
    [hot] is AMINETXDUO_RX_VERIFY_STATS; FEATURE_NX_IPV6 is built in.  NetX Duo's
    protocol numbers and capability bits are parameters.

    The sum that comes with a frame is the copy hook's (src/src/sana2/sana2_copy.c). *)

From Stdlib Require Import ZArith Lia.
From stdpp Require Import base numbers list.
From S2P Require Import Prelude Checksum.
#[local] Open Scope Z_scope.

(** ** The sum of the copy hook *)

(** The longword the [n] bytes at [i] make, the rest of it zero. *)
Fixpoint gather (n : nat) (from : list Z) (i : Z) : outcome (list Z) :=
  match n with
  | O => Val []
  | S n => let! b := fetch from i in let! r := gather n from (i + 1) in Val (b :: r)
  end.
Definition padded_long (bs : list Z) : Z := be_join 0 (take 4 (bs ++ [0; 0; 0; 0])).

Definition store_bytes (to : list Z) (i : Z) (bs : list Z) : outcome (list Z) :=
  if (0 <=? i) && (i + Z.of_nat (length bs) <=? Z.of_nat (length to)) then Val (splice to i bs) else Fault.

(** The odd case: [for (i = 0; i < len; i += 4)], [fuel] rounds at most. *)
Fixpoint copy_sum_bytes (fuel : nat) (to from : list Z) (i len sum : Z) : outcome (list Z * Z) :=
  if negb (i <? len) then Val (to, sum)
  else
    match fuel with
    | O => Spin
    | S fuel =>
        let n := if 4 <? len - i then 4 else len - i in
        let! bs := gather (Z.to_nat n) from i in
        let! to := store_bytes to i bs in
        copy_sum_bytes fuel to from (u32 (i + 4)) len (add_carry sum (padded_long bs))
    end.

(** The even case: longwords, then the tail. *)
Definition copy_sum_even (to from : list Z) (len : Z) : outcome (list Z * Z) :=
  let words := Z.shiftr len 2 in
  let tail := Z.land len 3 in
  let! (to, sum) := n68k_copy_sum_longwords to from words in
  if negb (tail =? 0) then
    let! bs := gather (Z.to_nat tail) from (Z.shiftl words 2) in
    let! to := store_bytes to (Z.shiftl words 2) bs in
    Val (to, add_carry sum (padded_long bs))
  else Val (to, sum).

(** [odd]: one of the two pointers is. *)
Definition ami_sana2_copy_sum (odd : bool) (to from : list Z) (len : Z) : outcome (list Z * Z) :=
  if odd then copy_sum_bytes (Z.to_nat len) to from 0 len 0 else copy_sum_even to from len.

Record AmiRxSlot := RxSlot {
  slot_dst : option (list Z);
  slot_capacity : Z;
  slot_sum : Z;
  slot_summed : bool;
  slot_rxflags : Z;
  slot_copied : Z
}.

(** S2_CopyToBuff, less the interface's statistics.  [None] for a NULL packet or
    destination; [from] is NULL when it is [None]. *)
Definition ami_sana2_copy_to_buff (odd : bool) (slot : AmiRxSlot) (from : option (list Z)) (len : Z)
  : outcome (bool * AmiRxSlot) :=
  match from, slot_dst slot with
  | Some from, Some dst =>
      if slot_capacity slot <? len then Val (false, slot)
      else
        let! (dst, sum) := ami_sana2_copy_sum odd dst from len in
        Val (true, RxSlot (Some dst) (slot_capacity slot) sum true 0 len)
  | _, _ => Val (false, slot)
  end.

(** ** Counters *)

Inductive counter :=
| ip_ok | transport_ok | bad_ip | bad_transport | skip_short | skip_version | skip_length | skip_fragment
| skip_protocol | skip_udp_nosum | from_copy | v6_ok | v4_fused | skip_ext | v6_ext.

#[export] Instance counter_eq_dec : EqDecision counter.
Proof. solve_decision. Defined.

Definition N68kRxVerifyStats := counter -> Z.
Definition N68K_RXV_COUNT (f : counter) (s : N68kRxVerifyStats) : N68kRxVerifyStats :=
  fun g => if decide (g = f) then s g +w 1 else s g.

(** ** The frame *)

Record rx_packet := RxPacket {
  prepend : Z;
  append : Z;
  nx_packet_length : Z;
  nx_packet_ip_version : Z;
  rx_mem : list Z
}.

Definition with_mem (p : rx_packet) (mem : list Z) : rx_packet :=
  RxPacket (prepend p) (append p) (nx_packet_length p) (nx_packet_ip_version p) mem.

Definition N68K_RD16 (mem : list Z) (p : Z) : outcome Z := load16 mem p.
Definition N68K_RD32 (mem : list Z) (p : Z) : outcome Z := load32 mem p.

Definition n68k_rxv_even (p : Z) : bool := Z.land p 3 =? 0.

(** ** IPv6 extension headers *)

Definition N68K_V6_HOPOPT : Z := 0.
Definition N68K_V6_ROUTING : Z := 43.
Definition N68K_V6_FRAGMENT : Z := 44.
Definition N68K_V6_ESP : Z := 50.
Definition N68K_V6_AH : Z := 51.
Definition N68K_V6_NONEXT : Z := 59.
Definition N68K_V6_DSTOPT : Z := 60.
Definition N68K_V6_MAX_EXT : nat := 8.

(** The options at [opt] in [mem]; [fuel] options at most. *)
Fixpoint dstopt_from (fuel : nat) (mem : list Z) (opt bytes i : Z) : outcome bool :=
  if negb (i <? bytes) then Val (i =? bytes)
  else
    match fuel with
    | O => Spin
    | S fuel =>
        let! t := fetch mem (opt + i) in
        if t =? 0 then dstopt_from fuel mem opt bytes (u32 (i + 1))
        else if bytes <? u32 (i + 2) then Val false
        else if t =? 201 then Val false
        else let! l := fetch mem (opt + i + 1) in dstopt_from fuel mem opt bytes (u32 (i + (2 + l)))
    end.
Definition n68k_rxv6_dstopt_plain (mem : list Z) (opt bytes : Z) : outcome bool :=
  dstopt_from (Z.to_nat bytes) mem opt bytes 0.

Section Verify.
Context (hot : bool).
Context (NX_PROTOCOL_TCP NX_PROTOCOL_UDP NX_PROTOCOL_ICMP NX_PROTOCOL_IGMP NX_PROTOCOL_ICMPV6 : Z).
Context (NX_IP_VERSION_V4 NX_IP_VERSION_V6 : Z).
Context (IPV4_RX TCP_RX UDP_RX ICMPV4_RX ICMPV6_RX IGMP_RX : Z).

Definition N68K_RXV_HOT (f : counter) (s : N68kRxVerifyStats) : N68kRxVerifyStats :=
  if hot then N68K_RXV_COUNT f s else s.

(** The packet presented from [off] on: prepend moved, length and version set. *)
Definition n68k_rx_sum_ok (p : rx_packet) (off version protocol length : Z) (src dst : list Z)
  : outcome (bool * list Z) :=
  let! (checksum, mem) :=
    n68k_ip_checksum_compute true NX_PROTOCOL_UDP NX_PROTOCOL_TCP NX_PROTOCOL_ICMPV6 NX_IP_VERSION_V6 version
      {| nx_packet_prepend_ptr := prepend p + off; nx_packet_append_ptr := append p;
         nx_packet_mem := drop (Z.to_nat off) (rx_mem p) |} [] protocol length src dst in
  Val (Z.land (Z.lnot checksum) 0xFFFF =? 0, take (Z.to_nat off) (rx_mem p) ++ mem).

Definition is_transport6 (next : Z) : bool :=
  (next =? NX_PROTOCOL_TCP) || (next =? NX_PROTOCOL_UDP) || (next =? NX_PROTOCOL_ICMPV6).

(** The length of the header of kind [next] at [at_], or the counter it is declined with. *)
Definition ext_length (ip : list Z) (next at_ : Z) : outcome (counter + Z) :=
  if (next =? N68K_V6_HOPOPT) || (next =? N68K_V6_DSTOPT) || (next =? N68K_V6_ROUTING) then
    let! l := fetch ip (at_ + 1) in Val (inr ((l + 1) * 8))
  else if next =? N68K_V6_FRAGMENT then Val (inr 8)
  else if next =? N68K_V6_AH then let! l := fetch ip (at_ + 1) in Val (inr ((l + 2) * 4))
  else if (next =? N68K_V6_ESP) || (next =? N68K_V6_NONEXT) then Val (inl skip_ext)
  else Val (inl skip_protocol).

(** What is in the header: nothing in the way, or the counter it is declined with. *)
Definition ext_check (ip : list Z) (next at_ hlen : Z) : outcome (option counter) :=
  if next =? N68K_V6_ROUTING then
    let! s := fetch ip (at_ + 3) in Val (if negb (s =? 0) then Some skip_ext else None)
  else if next =? N68K_V6_FRAGMENT then
    let! f := N68K_RD16 ip (at_ + 2) in Val (if negb (Z.land f 0xFFF9 =? 0) then Some skip_fragment else None)
  else if next =? N68K_V6_DSTOPT then
    let! ok := n68k_rxv6_dstopt_plain ip (at_ + 2) (hlen - 2) in Val (if negb ok then Some skip_ext else None)
  else Val None.

(** The chain, [room] headers still allowed: where it ends and what follows. *)
Fixpoint ext_chain (room : nat) (ip : list Z) (end_ next at_ : Z) : outcome (counter + Z * Z) :=
  if is_transport6 next then Val (inr (next, at_))
  else
    match room with
    | O => Val (inl skip_ext)
    | S room =>
        if end_ <? at_ + 8 then Val (inl skip_length)
        else
          let! h := ext_length ip next at_ in
          match h with
          | inl c => Val (inl c)
          | inr hlen =>
              if (hlen <? 8) || (end_ <? at_ + hlen) then Val (inl skip_length)
              else
                let! d := ext_check ip next at_ hlen in
                match d with
                | Some c => Val (inl c)
                | None => let! next := fetch ip at_ in ext_chain room ip end_ next (at_ + hlen)
                end
          end
    end.

(** Protocol, offset and length of the transport, or the counter of the decline. *)
Definition n68k_rxv6_shape (ip : list Z) (length : Z) : outcome (counter + Z * Z * Z) :=
  if length <? 40 then Val (inl skip_short)
  else
    let! plen := N68K_RD16 ip 4 in
    if (plen =? 0) || (length <? plen + 40) then Val (inl skip_length)
    else
      let end_ := 40 + plen in
      let! next := fetch ip 6 in
      let! c := ext_chain N68K_V6_MAX_EXT ip end_ next 40 in
      match c with
      | inl c => Val (inl c)
      | inr (next, at_) =>
          if end_ <? at_ + (if next =? NX_PROTOCOL_TCP then 20 else 8) then Val (inl skip_length)
          else if next =? NX_PROTOCOL_UDP then
            let! ulen := N68K_RD16 ip (at_ + 4) in
            if negb (ulen =? end_ - at_) then Val (inl skip_length)
            else
              let! usum := N68K_RD16 ip (at_ + 6) in
              if usum =? 0 then Val (inl skip_udp_nosum) else Val (inr (next, at_, end_ - at_))
          else Val (inr (next, at_, end_ - at_))
      end.

Definition n68k_rxv6_bit (protocol : Z) : Z :=
  if protocol =? NX_PROTOCOL_TCP then TCP_RX else if protocol =? NX_PROTOCOL_UDP then UDP_RX else ICMPV6_RX.

(** The bits to publish, whether to drop, the counters and the memory afterwards. *)
Record verdict := Verdict { flags : Z; drop_it : bool; stats : N68kRxVerifyStats; mem_after : list Z }.

Definition addr6 (ip : list Z) (p : Z) : outcome (list Z) :=
  let! w0 := N68K_RD32 ip p in
  let! w1 := N68K_RD32 ip (p + 4) in
  let! w2 := N68K_RD32 ip (p + 8) in
  let! w3 := N68K_RD32 ip (p + 12) in
  Val [w0; w1; w2; w3].

Definition v6_counters (offset : Z) (s : N68kRxVerifyStats) : N68kRxVerifyStats :=
  if 40 <? offset then N68K_RXV_HOT v6_ext s else s.

Definition n68k_rxv6_verify (p : rx_packet) (s : N68kRxVerifyStats) : outcome verdict :=
  let! shape := n68k_rxv6_shape (rx_mem p) (nx_packet_length p) in
  match shape with
  | inl c => Val (Verdict 0 false (N68K_RXV_COUNT c s) (rx_mem p))
  | inr (protocol, offset, payload) =>
      let! src := addr6 (rx_mem p) 8 in
      let! dst := addr6 (rx_mem p) 24 in
      let! (ok, mem) := n68k_rx_sum_ok p offset NX_IP_VERSION_V6 protocol payload src dst in
      if negb ok then Val (Verdict 0 true (N68K_RXV_COUNT bad_transport s) mem)
      else
        let s := N68K_RXV_HOT v6_ok (N68K_RXV_HOT transport_ok s) in
        Val (Verdict (n68k_rxv6_bit protocol) false (v6_counters offset s) mem)
  end.

(** ** The walking check *)

Definition checked4 (protocol : Z) : bool :=
  (protocol =? NX_PROTOCOL_TCP) || (protocol =? NX_PROTOCOL_UDP) || (protocol =? NX_PROTOCOL_ICMP) || (protocol =? NX_PROTOCOL_IGMP).

Definition no_pseudo4 (protocol : Z) : bool := (protocol =? NX_PROTOCOL_ICMP) || (protocol =? NX_PROTOCOL_IGMP).

Definition bit4 (protocol : Z) : Z :=
  if protocol =? NX_PROTOCOL_TCP then TCP_RX else if protocol =? NX_PROTOCOL_UDP then UDP_RX
  else if protocol =? NX_PROTOCOL_ICMP then ICMPV4_RX else IGMP_RX.

(** A UDP datagram whose length is not the payload's, or that carries no sum. *)
Definition udp_decline (ip : list Z) (protocol ihl payload : Z) : outcome (option counter) :=
  if protocol =? NX_PROTOCOL_UDP then
    if payload <? 8 then Val (Some skip_length)
    else
      let! ulen := N68K_RD16 ip (ihl + 4) in
      if negb (ulen =? payload) then Val (Some skip_length)
      else
        let! usum := N68K_RD16 ip (ihl + 6) in
        Val (if usum =? 0 then Some skip_udp_nosum else None)
  else Val None.

Definition n68k_rx_verify (p : rx_packet) (s : N68kRxVerifyStats) : outcome verdict :=
  let ip := rx_mem p in
  if nx_packet_length p <? 20 then Val (Verdict 0 false (N68K_RXV_COUNT skip_short s) ip)
  else
    let! b0 := fetch ip 0 in
    if Z.shiftr b0 4 =? 6 then n68k_rxv6_verify p s
    else if negb (Z.shiftr b0 4 =? 4) then Val (Verdict 0 false (N68K_RXV_COUNT skip_version s) ip)
    else
      let ihl := Z.shiftl (Z.land b0 0x0F) 2 in
      if (ihl <? 20) || (nx_packet_length p <? ihl) then Val (Verdict 0 false (N68K_RXV_COUNT skip_short s) ip)
      else
        let! (ok, mem) := n68k_rx_sum_ok p 0 (nx_packet_ip_version p) NX_IP_VERSION_V4 ihl [] [] in
        if negb ok then Val (Verdict 0 true (N68K_RXV_COUNT bad_ip s) mem)
        else
          let p := with_mem p mem in
          let ip := mem in
          let flags := IPV4_RX in
          let s := N68K_RXV_HOT ip_ok s in
          let! total := N68K_RD16 ip 2 in
          let! frag := N68K_RD16 ip 6 in
          if (total <? ihl) || (nx_packet_length p <? total) then Val (Verdict flags false (N68K_RXV_COUNT skip_length s) ip)
          else if negb (Z.land frag 0x3FFF =? 0) then Val (Verdict flags false (N68K_RXV_COUNT skip_fragment s) ip)
          else
            let! protocol := fetch ip 9 in
            let payload := total - ihl in
            let! src := N68K_RD32 ip 12 in
            let! dst := N68K_RD32 ip 16 in
            if negb (checked4 protocol) then Val (Verdict flags false (N68K_RXV_COUNT skip_protocol s) ip)
            else
              let! d := udp_decline ip protocol ihl payload in
              match d with
              | Some c => Val (Verdict flags false (N68K_RXV_COUNT c s) ip)
              | None =>
                  let! (ok, mem) :=
                    n68k_rx_sum_ok p ihl (nx_packet_ip_version p) protocol payload
                      (if no_pseudo4 protocol then [] else [src]) (if no_pseudo4 protocol then [] else [dst]) in
                  if negb ok then Val (Verdict 0 true (N68K_RXV_COUNT bad_transport s) mem)
                  else Val (Verdict (Z.lor flags (bit4 protocol)) false (N68K_RXV_HOT transport_ok s) mem)
              end.

(** ** The check from a carried sum *)

Fixpoint sum_be_from (longwords : nat) (mem : list Z) (p acc : Z) : outcome Z :=
  match longwords with
  | O => Val acc
  | S n => let! w := N68K_RD32 mem p in sum_be_from n mem (p + 4) (add_carry acc w)
  end.
Definition n68k_rxv_sum_be (mem : list Z) (p longwords : Z) : outcome Z := sum_be_from (Z.to_nat longwords) mem p 0.

Definition n68k_rxv_fold (sum : Z) : Z :=
  let sum := Z.land sum 0xFFFF +w Z.shiftr sum 16 in
  Z.land sum 0xFFFF +w Z.shiftr sum 16.

(** [~x] on a ULONG *)
Definition not32 (x : Z) : Z := u32 (Z.lnot x).

(** An addition with the carry tested against the first operand. *)
Definition add_carry_l (x y : Z) : Z :=
  let sum := x +w y in if sum <? x then sum +w 1 else sum.

Definition verify_sum6 (p : rx_packet) (carried copied : Z) (s : N68kRxVerifyStats) : outcome verdict :=
  let ip := rx_mem p in
  let! shape := n68k_rxv6_shape ip (nx_packet_length p) in
  match shape with
  | inl c => Val (Verdict 0 false (N68K_RXV_COUNT c s) ip)
  | inr (protocol, offset, payload) =>
      if negb (copied =? offset + payload) || negb (Z.land (offset - 40) 3 =? 0) then n68k_rxv6_verify p s
      else
        let! head := n68k_rxv_sum_be ip 0 2 in
        let! head :=
          (if 40 <? offset then
             let! ext := n68k_rxv_sum_be ip 40 (Z.shiftr (offset - 40) 2) in Val (add_carry head ext)
           else Val head) in
        let sum := n68k_rxv_fold (add_carry_l carried (not32 head)) in
        let sum := (sum +w protocol) +w payload in
        if negb (n68k_rxv_fold sum =? 0xFFFF) then Val (Verdict 0 true (N68K_RXV_COUNT bad_transport s) ip)
        else
          let s := N68K_RXV_HOT from_copy (N68K_RXV_HOT v6_ok (N68K_RXV_HOT transport_ok s)) in
          Val (Verdict (n68k_rxv6_bit protocol) false (v6_counters offset s) ip)
  end.

(** The IPv4 header: five longwords in line, or the loop. *)
Definition head_sum (ip : list Z) (ihl : Z) : outcome Z :=
  if ihl =? 20 then
    let! w0 := N68K_RD32 ip 0 in
    let! w1 := N68K_RD32 ip 4 in
    let! w2 := N68K_RD32 ip 8 in
    let! w3 := N68K_RD32 ip 12 in
    let! w4 := N68K_RD32 ip 16 in
    Val (add_carry (add_carry (add_carry (add_carry w0 w1) w2) w3) w4)
  else n68k_sum_longwords ip 0 (Z.shiftr ihl 2).

(** The verdict of the transport from the carried sum. *)
Definition carried_verdict (carried src dst protocol payload : Z) : bool :=
  let sum := add_carry (add_carry carried src) dst in
  n68k_rxv_fold ((sum +w protocol) +w payload) =? 0xFFFF.

Definition n68k_rx_verify_sum (p : rx_packet) (carried copied : Z) (s : N68kRxVerifyStats) : outcome verdict :=
  let ip := rx_mem p in
  if nx_packet_length p <? 20 then Val (Verdict 0 false (N68K_RXV_COUNT skip_short s) ip)
  else
    let! b0 := fetch ip 0 in
    let ver := Z.shiftr b0 4 in
    if ver =? 6 then verify_sum6 p carried copied s
    else if negb (ver =? 4) then Val (Verdict 0 false (N68K_RXV_COUNT skip_version s) ip)
    else if negb (n68k_rxv_even (prepend p)) then n68k_rx_verify p s
    else
      let ihl := Z.shiftl (Z.land b0 0x0F) 2 in
      let! total := N68K_RD16 ip 2 in
      if (ihl <? 20) || (total <? ihl) || (nx_packet_length p <? total) || negb (copied =? total) then n68k_rx_verify p s
      else
        let! protocol := fetch ip 9 in
        let payload := total - ihl in
        let! frag := N68K_RD16 ip 6 in
        if (negb (protocol =? NX_PROTOCOL_TCP) && negb (protocol =? NX_PROTOCOL_UDP)) || negb (Z.land frag 0x3FFF =? 0)
        then n68k_rx_verify p s
        else
          let! d := udp_decline ip protocol ihl payload in
          match d with
          | Some skip_length => n68k_rx_verify p (N68K_RXV_COUNT skip_length s)
          | Some _ => n68k_rx_verify p s
          | None =>
              let! head := head_sum ip ihl in
              if negb (n68k_rxv_fold head =? 0xFFFF) then Val (Verdict 0 true (N68K_RXV_COUNT bad_ip s) ip)
              else
                let s := N68K_RXV_HOT ip_ok s in
                let! src := N68K_RD32 ip 12 in
                let! dst := N68K_RD32 ip 16 in
                if negb (carried_verdict carried src dst protocol payload)
                then Val (Verdict 0 true (N68K_RXV_COUNT bad_transport s) ip)
                else
                  let s := N68K_RXV_HOT v4_fused (N68K_RXV_HOT from_copy (N68K_RXV_HOT transport_ok s)) in
                  Val (Verdict (Z.lor IPV4_RX (if protocol =? NX_PROTOCOL_TCP then TCP_RX else UDP_RX)) false s ip)
          end.
End Verify.
