(* ===== verification/RxSpec.v ===== *)
(** * What the receive checks establish (src/src/net68k/n68k_rx_verify.c)

    The checks never leave the frame and publish a bit only for a sum that is right;
    the check from a carried sum gives the answer of the walking one. *)

From Stdlib Require Import ZArith Lia.
From stdpp Require Import base numbers list.
From S2P Require Import Prelude Checksum RxVerify.
#[local] Open Scope Z_scope.

(** ** Reads *)

Definition byte (m : list Z) (i : Z) : Z := nth (Z.to_nat i) m 0.
Definition half (m : list Z) (i : Z) : Z := byte m i * 256 + byte m (i + 1).
Definition long (m : list Z) (i : Z) : Z := half m i * 65536 + half m (i + 2).

Local Abbreviation len m := (Z.of_nat (length m)).

Lemma fetch_byte m i : 0 <= i < len m -> fetch m i = Val (byte m i).
Proof.
  intros Hi. destruct (fetch_val m i Hi) as (x & -> & Hx). f_equal. symmetry. by apply nth_lookup_Some.
Qed.

Lemma byte_range m i : bytes_ok m -> is_u8 (byte m i).
Proof.
  intros Hm. unfold byte. destruct (nth_in_or_default (Z.to_nat i) m 0) as [H| ->]; [|word_lia].
  unfold bytes_ok in Hm. rewrite Forall_forall in Hm. by apply Hm, list_elem_of_In.
Qed.

Lemma drop_bytes m i k : 0 <= i -> (Z.to_nat i + k < length m)%nat ->
  drop (Z.to_nat i + k) m = byte m (i + Z.of_nat k) :: drop (Z.to_nat i + S k) m.
Proof.
  intros Hi Hk. destruct (lookup_lt_is_Some_2 m (Z.to_nat i + k)) as [x Hx]; [lia|].
  rewrite (drop_S _ _ _ Hx). f_equal; [|f_equal; lia].
  unfold byte. symmetry. apply nth_lookup_Some. by replace (Z.to_nat (i + Z.of_nat k)) with (Z.to_nat i + k)%nat by lia.
Qed.

Lemma load16_half m i : bytes_ok m -> 0 <= i -> i + 1 < len m -> load16 m i = Val (half m i).
Proof.
  intros Hm Hi Hl. pose proof (drop_bytes m i 0 Hi ltac:(lia)) as D0. pose proof (drop_bytes m i 1 Hi ltac:(lia)) as D1.
  rewrite Nat.add_0_r, Z.add_0_r in D0. rewrite D1 in D0. exact (load16_val m i _ _ _ Hi Hm D0).
Qed.

Lemma load32_long m i : bytes_ok m -> 0 <= i -> i + 3 < len m -> load32 m i = Val (long m i).
Proof.
  intros Hm Hi Hl. pose proof (drop_bytes m i 0 Hi ltac:(lia)) as D0. pose proof (drop_bytes m i 1 Hi ltac:(lia)) as D1.
  pose proof (drop_bytes m i 2 Hi ltac:(lia)) as D2. pose proof (drop_bytes m i 3 Hi ltac:(lia)) as D3.
  rewrite Nat.add_0_r, Z.add_0_r in D0. rewrite D1, D2, D3 in D0.
  destruct (load32_val m i _ _ _ _ _ Hi Hm D0) as [-> _]. unfold long, half.
  by replace (i + 2 + 1) with (i + 3) by lia.
Qed.

Lemma half_range m i : bytes_ok m -> 0 <= half m i < 65536.
Proof. intros Hm. unfold half. pose proof (byte_range m i Hm). pose proof (byte_range m (i + 1) Hm). word_lia. Qed.

Lemma long_range m i : bytes_ok m -> is_u32 (long m i).
Proof. intros Hm. unfold long. pose proof (half_range m i Hm). pose proof (half_range m (i + 2) Hm). unfold is_u32. lia. Qed.

(** ** Destination options *)

(** A run of options none of which is a home address: pads of one byte, and a type, a
    length and that many bytes. *)
Inductive plain_options : list Z -> Prop :=
| po_nil : plain_options []
| po_pad1 r : plain_options r -> plain_options (0 :: r)
| po_opt t l data r :
    t <> 0 -> t <> 201 -> Z.of_nat (length data) = l -> plain_options r -> plain_options (t :: l :: data ++ r).

Lemma plain_opt_inv t s :
  t <> 0 -> plain_options (t :: s) <->
  t <> 201 /\ exists l r, s = l :: r /\ 0 <= l <= len r /\ plain_options (drop (Z.to_nat l) r).
Proof.
  intros Ht. split.
  - intros H. inversion H as [| |t' l data r H1 H2 H3 H4]; subst; [done|]. split; [done|].
    exists (len data), (data ++ r). rewrite length_app. split_and!; [done|lia..|]. by rewrite Nat2Z.id, drop_app_length.
  - intros (H1 & l & r & -> & Hl & Hr). rewrite <- (take_drop (Z.to_nat l) r). apply po_opt; try done.
    rewrite length_take. lia.
Qed.

Lemma slice_first m i n : 0 <= i < len m -> 0 < n -> slice m i n = byte m i :: slice m (i + 1) (n - 1).
Proof.
  intros Hi Hn. unfold slice. pose proof (drop_bytes m i 0 ltac:(lia) ltac:(lia)) as D.
  rewrite Nat.add_0_r, Z.add_0_r in D. rewrite D. replace (Z.to_nat n) with (S (Z.to_nat (n - 1))) by lia. simpl.
  do 2 f_equal. f_equal. lia.
Qed.

Lemma slice_nil {A} (m : list A) i n : n <= 0 -> slice m i n = [].
Proof. intros Hn. unfold slice. by replace (Z.to_nat n) with 0%nat by lia. Qed.

Lemma slice_drop {A} (m : list A) i n k : 0 <= i -> 0 <= k <= n -> drop (Z.to_nat k) (slice m i n) = slice m (i + k) (n - k).
Proof.
  intros Hi Hk. unfold slice. rewrite skipn_firstn_comm, drop_drop. f_equal; [lia|f_equal; lia].
Qed.

Lemma dstopt_spec fuel m opt bytes i :
  bytes_ok m -> 0 <= opt -> opt + bytes <= len m -> bytes < 2 ^ 31 -> 0 <= i -> i <= bytes + 260 ->
  bytes - i <= Z.of_nat fuel ->
  exists b, dstopt_from fuel m opt bytes i = Val b /\
    (b = true <-> i <= bytes /\ plain_options (slice m (opt + i) (bytes - i))).
Proof.
  intros Hm Ho Hl Hb. revert i. induction fuel as [|fuel IH]; intros i Hi Hi2 Hf; simpl.
  all: destruct (Z.ltb_spec i bytes) as [Hlt|Hge]; simpl.
  - lia.
  - eexists; split; [done|]. rewrite Z.eqb_eq. split; [|lia]. intros ->. split; [lia|]. rewrite Z.sub_diag. constructor.
  - rewrite fetch_byte by lia. cbn [obind]. rewrite (slice_first m (opt + i)) by lia.
    pose proof (byte_range m (opt + i) Hm) as Rt. destruct (Z.eqb_spec (byte m (opt + i)) 0) as [E|E].
    + rewrite u32_small by (unfold is_u32; lia). destruct (IH (i + 1)) as (b & -> & Hb'); [lia..|]. exists b. split; [done|].
      rewrite Hb', E. replace (opt + i + 1) with (opt + (i + 1)) by lia. replace (bytes - i - 1) with (bytes - (i + 1)) by lia.
      split; intros [? H]; (split; [lia|]); [by constructor|by inversion H].
    + setoid_rewrite (plain_opt_inv _ _ E). rewrite (u32_small (i + 2)) by (unfold is_u32; lia).
      destruct (Z.ltb_spec bytes (i + 2)).
      { exists false. split; [done|]. split; [done|]. intros (_ & _ & l & r & Hr & _). rewrite slice_nil in Hr by lia. done. }
      destruct (Z.eqb_spec (byte m (opt + i)) 201) as [E2|E2].
      { exists false. split; [done|]. split; [done|]. intros (_ & ? & _). done. }
      rewrite fetch_byte by lia. cbn [obind]. set (l := byte m (opt + i + 1)).
      pose proof (byte_range m (opt + i + 1) Hm) as Rl. fold l in Rl. unfold is_u8 in Rl.
      rewrite u32_small by (unfold is_u32; lia). destruct (IH (i + (2 + l))) as (b & -> & Hb'); [lia..|].
      exists b. split; [done|]. rewrite Hb'. rewrite (slice_first m (opt + i + 1)) by lia. fold l.
      replace (opt + i + 1 + 1) with (opt + (i + 2)) by lia. replace (bytes - i - 1 - 1) with (bytes - (i + 2)) by lia.
      set (r := slice m (opt + (i + 2)) (bytes - (i + 2))).
      assert (Lr : len r = bytes - (i + 2)) by (unfold r; apply slice_length; lia).
      assert (Dr : i + (2 + l) <= bytes -> drop (Z.to_nat l) r = slice m (opt + (i + (2 + l))) (bytes - (i + (2 + l)))).
      { intros Hle. unfold r. rewrite slice_drop by lia. f_equal; lia. }
      split.
      * intros [Hle Hpo]. split; [lia|]. split; [done|]. exists l, r. split; [done|]. split; [lia|]. by rewrite Dr.
      * intros (_ & _ & l' & r' & [= <- <-] & Hlr & Hpo). split; [lia|]. rewrite <- Dr by lia. done.
  - eexists; split; [done|]. rewrite Z.eqb_eq. split; [|lia]. intros ->. split; [lia|]. rewrite Z.sub_diag. constructor.
Qed.

(** ** The checksum of one packet *)

Definition pad (m : list Z) (d : Z) : list Z := if d mod 2 =? 0 then m else <[Z.to_nat d := 0]> m.

Section Spec.
Context (hot : bool).
Context (NX_PROTOCOL_TCP NX_PROTOCOL_UDP NX_PROTOCOL_ICMP NX_PROTOCOL_IGMP NX_PROTOCOL_ICMPV6 : Z).
Context (NX_IP_VERSION_V4 NX_IP_VERSION_V6 : Z).
Context (IPV4_RX TCP_RX UDP_RX ICMPV4_RX ICMPV6_RX IGMP_RX : Z).

Local Abbreviation has_pseudo := (Checksum.has_pseudo true NX_PROTOCOL_UDP NX_PROTOCOL_TCP NX_PROTOCOL_ICMPV6).
Local Abbreviation pseudo_sum := (Checksum.pseudo_sum true NX_PROTOCOL_UDP NX_PROTOCOL_TCP NX_PROTOCOL_ICMPV6).
Local Abbreviation compute := (n68k_ip_checksum_compute true NX_PROTOCOL_UDP NX_PROTOCOL_TCP NX_PROTOCOL_ICMPV6 NX_IP_VERSION_V6).
Local Abbreviation sum_ok := (n68k_rx_sum_ok NX_PROTOCOL_TCP NX_PROTOCOL_UDP NX_PROTOCOL_ICMPV6 NX_IP_VERSION_V6).

(** The addresses the pseudo header of this protocol and version needs. *)
Definition addrs_ok (version protocol : Z) (src dst : list Z) : Prop :=
  has_pseudo protocol = true -> let v6 := version =? NX_IP_VERSION_V6 in addr_words v6 src /\ addr_words v6 dst.

Lemma sum_halves_nonneg ws : Forall is_u32 ws -> 0 <= sum_halves ws.
Proof.
  intros Hws. induction Hws as [|w ws Hw _ IH]; cbn [sum_halves]; [lia|]. destruct (halves w Hw) as (_ & _ & ?). lia.
Qed.

Lemma compute_one version p protocol d src dst :
  packet_ok p -> 0 <= d <= packet_size p -> 0 <= protocol < 65536 -> addrs_ok version protocol src dst ->
  compute version p [] protocol d src dst =
    Val (oc16 (pseudo_sum protocol d src dst + sum16 (take (Z.to_nat d) (nx_packet_mem p))), pad (nx_packet_mem p) d).
Proof.
  intros Hp Hd Hpr Ha. pose proof (packet_size_range p Hp) as Hsz.
  assert (Hps : 0 <= pseudo_sum protocol d src dst).
  { unfold Checksum.pseudo_sum. destruct (has_pseudo protocol) eqn:E; [|lia]. destruct (Ha E) as [[H1 _] [H2 _]].
    pose proof (sum_halves_nonneg _ H1). pose proof (sum_halves_nonneg _ H2). lia. }
  assert (Hc0 : (if has_pseudo protocol then pseudo_header true NX_IP_VERSION_V6 version protocol d src dst else Val 0) =
                Val (oc16 (pseudo_sum protocol d src dst))).
  { unfold Checksum.pseudo_sum. destruct (has_pseudo protocol) eqn:E; [|done]. destruct (Ha E).
    apply pseudo_header_spec; done || lia. }
  unfold n68k_ip_checksum_compute. rewrite Hc0. cbn [obind]. pose proof (oc16_range (pseudo_sum protocol d src dst)) as Hr.
  pose proof (oc16_oc _ Hps) as Hoc. set (c := oc16 (pseudo_sum protocol d src dst)) in *. cbn [sum_chain].
  destruct (sum_packet_spec p c d Hp ltac:(lia) ltac:(lia)) as (f & Hf & Hfoc & ->). rewrite Z.min_r in * by lia.
  cbn [obind]. set (n := d / 4) in *.
  rewrite (sum_rest_spec p (4 * n) (c + f) (d - 4 * n)) by (done || (unfold n; word_lia)). cbn [obind].
  pose proof Hp as (_ & _ & _ & Hl & Hb).
  set (x := c + f + sum16 (take (Z.to_nat (d - 4 * n)) (drop (Z.to_nat (4 * n)) (nx_packet_mem p)))).
  assert (Hx : is_u32 x).
  { pose proof (sum16_short _ (bytes_take _ (Z.to_nat (d - 4 * n)) (bytes_drop _ (Z.to_nat (4 * n)) Hb))) as Hsh.
    rewrite length_take in Hsh. specialize (Hsh ltac:(unfold n; word_lia)). unfold x, is_u32. lia. }
  rewrite fold_oc16 by done. pose proof (oc16_range x). rewrite u16_small by word_lia.
  assert (E : oc16 x = oc16 (pseudo_sum protocol d src dst + sum16 (take (Z.to_nat d) (nx_packet_mem p)))).
  { apply oc16_eq. unfold x.
    replace (take (Z.to_nat d) (nx_packet_mem p)) with
      (take (Z.to_nat (4 * n)) (nx_packet_mem p) ++ take (Z.to_nat (d - 4 * n)) (drop (Z.to_nat (4 * n)) (nx_packet_mem p))).
    2:{ rewrite take_take_drop. f_equal. unfold n; word_lia. }
    rewrite sum16_app by (exists (2 * Z.to_nat n)%nat; rewrite length_take; unfold n; word_lia).
    rewrite <- Z.add_assoc. apply oc_add_proper; [done|]. apply oc_add_proper; [done|].
    apply oc_refl, sum16_nonneg, bytes_take, bytes_drop, Hb. }
  rewrite E. do 2 f_equal. unfold pad. replace (4 * n + (d - 4 * n)) with d by lia.
  replace ((d - 4 * n) mod 2) with (d mod 2) by (unfold n; word_lia). done.
Qed.

(** A frame in one aligned buffer with a byte behind it. *)
Record rx_ok (p : rx_packet) : Prop := {
  rx_aligned : prepend p mod 4 = 0;
  rx_low : 4 <= prepend p;
  rx_append : append p = prepend p + nx_packet_length p;
  rx_high : append p + 4 < 2 ^ 31;
  rx_room : 0 <= nx_packet_length p < len (rx_mem p);
  rx_bytes : bytes_ok (rx_mem p)
}.

Lemma complement_zero c : 0 <= c <= 65535 -> (Z.land (Z.lnot c) 0xFFFF =? 0) = (c =? 65535).
Proof.
  intros Hc. rewrite (Z.land_ones _ 16) by lia.
  replace (Z.lnot c) with (65535 - c + (-1) * 2 ^ 16) by (unfold Z.lnot; lia).
  rewrite Z.mod_add, Z.mod_small by lia. destruct (Z.eqb_spec (65535 - c) 0), (Z.eqb_spec c 65535); done || lia.
Qed.

(** The check of a stretch of the frame at a longword offset. *)
Lemma sum_ok_spec p off version protocol d src dst :
  rx_ok p -> 0 <= off -> off mod 4 = 0 -> 0 <= d -> off + d <= nx_packet_length p ->
  0 <= protocol < 65536 -> addrs_ok version protocol src dst ->
  sum_ok p off version protocol d src dst =
    Val (oc16 (pseudo_sum protocol d src dst + sum16 (slice (rx_mem p) off d)) =? 65535, pad (rx_mem p) (off + d)).
Proof.
  intros [H1 H2 H3 H4 H5 H6] Ho Hm Hd Hl Hpr Ha. unfold n68k_rx_sum_ok.
  rewrite compute_one; [|unfold packet_ok, packet_size; cbn [nx_packet_prepend_ptr nx_packet_append_ptr nx_packet_mem];
    rewrite length_drop; split_and!; try lia; [word_lia|by apply bytes_drop]
    |unfold packet_size; cbn [nx_packet_prepend_ptr nx_packet_append_ptr]; lia|done|done].
  cbn [obind nx_packet_mem]. rewrite complement_zero by apply oc16_range. do 2 f_equal.
  unfold pad. replace ((off + d) mod 2) with (d mod 2) by word_lia.
  destruct (d mod 2 =? 0); [apply take_drop|].
  rewrite <- (take_drop (Z.to_nat off) (rx_mem p)) at 3. rewrite insert_app_r_alt by (rewrite length_take; lia).
  rewrite length_take. do 2 f_equal. lia.
Qed.

(** ** The IPv6 chain *)

Local Abbreviation is_transport6 := (RxVerify.is_transport6 NX_PROTOCOL_TCP NX_PROTOCOL_UDP NX_PROTOCOL_ICMPV6).
Local Abbreviation chain := (RxVerify.ext_chain NX_PROTOCOL_TCP NX_PROTOCOL_UDP NX_PROTOCOL_ICMPV6).
Local Abbreviation shape := (n68k_rxv6_shape NX_PROTOCOL_TCP NX_PROTOCOL_UDP NX_PROTOCOL_ICMPV6).

Lemma ext_length_spec m next at_ :
  bytes_ok m -> 0 <= at_ -> at_ + 1 < len m ->
  exists r, ext_length m next at_ = Val r /\
    match r with inr h => h mod 4 = 0 /\ 8 <= h <= 2048 | inl _ => True end.
Proof.
  intros Hm Ha Hl. unfold ext_length. rewrite !fetch_byte by lia. cbn [obind].
  pose proof (byte_range m (at_ + 1) Hm) as R. unfold is_u8 in R.
  repeat (destruct (_ || _) || destruct (next =? _)); eexists; (split; [done|]); simpl; try done; split; word_lia.
Qed.

Lemma ext_check_spec m next at_ h :
  bytes_ok m -> 0 <= at_ -> 8 <= h <= 2048 -> at_ + h < len m -> exists r, ext_check m next at_ h = Val r.
Proof.
  intros Hm Ha Hh Hl. unfold ext_check, N68K_RD16, n68k_rxv6_dstopt_plain.
  rewrite fetch_byte, load16_half by (done || lia). cbn [obind].
  destruct (dstopt_spec (Z.to_nat (h - 2)) m (at_ + 2) (h - 2) 0) as (b & -> & _); [done|lia..|]. cbn [obind].
  repeat destruct (next =? _); by eexists.
Qed.

(** The walk stays in the frame, and stops on a longword with a transport to follow. *)
Lemma ext_chain_spec room m end_ next at_ :
  bytes_ok m -> is_u8 next -> 40 <= at_ <= end_ -> at_ mod 4 = 0 -> end_ < len m ->
  exists r, chain room m end_ next at_ = Val r /\
    match r with
    | inr (n, a) => is_transport6 n = true /\ is_u8 n /\ 40 <= a <= end_ /\ a mod 4 = 0
    | inl _ => True
    end.
Proof.
  intros Hm. revert next at_. induction room as [|room IH]; intros next at_ Hn Ha Hmod Hl; simpl.
  - destruct (is_transport6 next) eqn:T; eexists; (split; [done|]); simpl; [done|done].
  - destruct (is_transport6 next) eqn:T; [eexists; (split; [done|]); simpl; done|].
    destruct (Z.ltb_spec end_ (at_ + 8)); [by eexists|].
    destruct (ext_length_spec m next at_) as ([c|h] & -> & Hh); [done|lia..|by eexists|]. cbn [obind].
    destruct (Z.ltb_spec h 8); [by eexists|]. destruct (Z.ltb_spec end_ (at_ + h)); [by eexists|]. simpl.
    destruct (ext_check_spec m next at_ h) as ([c|] & ->); [done|lia..|by eexists|]. cbn [obind].
    rewrite fetch_byte by lia. cbn [obind]. apply IH; [by apply byte_range|lia|word_lia|done].
Qed.

Lemma shape_spec m length :
  bytes_ok m -> 0 <= length < len m ->
  exists r, shape m length = Val r /\
    match r with
    | inr (n, a, d) => is_transport6 n = true /\ is_u8 n /\ 40 <= a /\ a mod 4 = 0 /\ 8 <= d /\ a + d <= length /\ a + d <= 65575
    | inl _ => True
    end.
Proof.
  intros Hm Hl. unfold n68k_rxv6_shape, N68K_RD16. destruct (Z.ltb_spec length 40); [by eexists|].
  rewrite load16_half by (done || lia). cbn [obind]. pose proof (half_range m 4 Hm).
  destruct (Z.eqb_spec (half m 4) 0) as [|Hne]; [by eexists|]. destruct (Z.ltb_spec length (half m 4 + 40)); [by eexists|]. cbn [orb].
  rewrite fetch_byte by lia. cbn [obind].
  destruct (ext_chain_spec N68K_V6_MAX_EXT m (40 + half m 4) (byte m 6) 40) as ([c|[n a]] & -> & Hr);
    [done|by apply byte_range|lia|done|lia|by eexists|]. cbn [obind]. destruct Hr as (T & Hn & Ha & Hmod).
  destruct (Z.ltb_spec (40 + half m 4) (a + (if n =? NX_PROTOCOL_TCP then 20 else 8))) as [|Hroom]; [by eexists|].
  assert (8 <= 40 + half m 4 - a) by (destruct (n =? NX_PROTOCOL_TCP); lia).
  destruct (Z.eqb_spec n NX_PROTOCOL_UDP).
  - rewrite !load16_half by (done || lia). cbn [obind]. destruct (negb _); [by eexists|].
    destruct (half m (a + 6) =? 0); [by eexists|]. eexists; (split; [done|]). simpl. split_and!; done || lia.
  - eexists; (split; [done|]). simpl. split_and!; done || lia.
Qed.

(** ** One's complement sums that are all ones *)

Lemma oc16_full y : 0 < y -> (oc16 y =? 65535) = (y mod 65535 =? 0).
Proof.
  intros Hy. unfold oc16. destruct (Z.eqb_spec y 0); [lia|].
  destruct (Z.eqb_spec ((y - 1) mod 65535 + 1) 65535), (Z.eqb_spec (y mod 65535) 0); word_lia || done.
Qed.

Lemma rxv_fold_eq x : n68k_rxv_fold x = n68k_fold x.
Proof. unfold n68k_rxv_fold, n68k_fold. by rewrite !(Z.add_comm (Z.land _ _)). Qed.

Lemma rxv_fold_full y : is_u32 y -> 0 < y -> (n68k_rxv_fold y =? 0xFFFF) = (y mod 65535 =? 0).
Proof. intros Hy Hp. rewrite rxv_fold_eq, fold_oc16 by done. by apply oc16_full. Qed.

Lemma sum_be_eq n m p acc : sum_be_from n m p acc = sum_longs n m p acc.
Proof. revert p acc. induction n as [|n IH]; intros p acc; simpl; [done|]. unfold N68K_RD32. destruct (load32 m p); [apply IH|done..]. Qed.

Lemma sum_be_spec m p n :
  bytes_ok m -> 0 <= p -> 0 <= n -> p + 4 * n <= len m ->
  exists x, n68k_rxv_sum_be m p n = Val x /\ is_u32 x /\ oc_eq x (sum16 (slice m p (4 * n))).
Proof.
  intros Hm Hp Hn Hl. unfold n68k_rxv_sum_be. rewrite sum_be_eq.
  destruct (sum_longs_spec (Z.to_nat n) m p 0 Hp Hm) as (x & -> & Hx & E); [word_lia|lia|]. exists x. split; [done|]. split; [done|].
  unfold slice. replace (Z.to_nat (4 * n)) with (4 * Z.to_nat n)%nat by lia. done.
Qed.

Lemma sum16_slice m i n : bytes_ok m -> 0 <= sum16 (slice m i n).
Proof. intros Hm. apply sum16_nonneg. unfold slice. by apply bytes_take, bytes_drop. Qed.

(** A stretch of even length and what follows. *)
Lemma sum16_split m i n a j b :
  bytes_ok m -> 0 <= i -> 0 <= a -> a mod 2 = 0 -> 0 <= b -> n = a + b -> j = i + a -> i + n <= len m ->
  sum16 (slice m i n) = sum16 (slice m i a) + sum16 (slice m j b).
Proof.
  intros Hm Hi Ha Hmod Hb -> -> Hl. rewrite <- sum16_app.
  - f_equal. unfold slice. replace (Z.to_nat (i + a)) with (Z.to_nat i + Z.to_nat a)%nat by lia.
    rewrite <- (drop_drop m (Z.to_nat a) (Z.to_nat i)), take_take_drop. f_equal. lia.
  - exists (Z.to_nat (a / 2)). pose proof (slice_length m i a Hi Ha ltac:(lia)). word_lia.
Qed.

Lemma slice_long m i : 0 <= i -> i + 4 <= len m -> sum16 (slice m i 4) = half m i + half m (i + 2).
Proof.
  intros Hi Hl. rewrite !slice_first, slice_nil by lia. cbn [sum16]. unfold half.
  replace (i + 1 + 1) with (i + 2) by lia. lia.
Qed.

Definition addr_of (m : list Z) (p : Z) : list Z := [long m p; long m (p + 4); long m (p + 8); long m (p + 12)].

Lemma addr6_val m p : bytes_ok m -> 0 <= p -> p + 15 < len m -> addr6 m p = Val (addr_of m p).
Proof. intros Hm Hp Hl. unfold addr6, N68K_RD32. by rewrite !load32_long by (done || lia). Qed.

Lemma long_halves m i : bytes_ok m -> long m i / 65536 + long m i mod 65536 = half m i + half m (i + 2).
Proof. intros Hm. unfold long. pose proof (half_range m i Hm). pose proof (half_range m (i + 2) Hm). word_lia. Qed.

Lemma addr_halves m p : bytes_ok m -> 0 <= p -> p + 16 <= len m -> sum_halves (addr_of m p) = sum16 (slice m p 16).
Proof.
  intros Hm Hp Hl. unfold addr_of. cbn [sum_halves]. rewrite !long_halves by done.
  rewrite (sum16_split m p 16 4 (p + 4) 12), (sum16_split m (p + 4) 12 4 (p + 8) 8),
    (sum16_split m (p + 8) 8 4 (p + 12) 4), !slice_long by (done || lia). lia.
Qed.

Lemma addr_of_ok v6 m p : bytes_ok m -> v6 = true -> addr_words v6 (addr_of m p).
Proof. intros Hm ->. split; [|done]. unfold addr_of. rewrite !Forall_cons, Forall_nil. auto 10 using long_range. Qed.

(** ** IPv6 *)

Definition good6 (m : list Z) (n a d : Z) : bool :=
  (n + d + sum16 (slice m 8 32) + sum16 (slice m a d)) mod 65535 =? 0.

Local Abbreviation verify6 := (n68k_rxv6_verify hot NX_PROTOCOL_TCP NX_PROTOCOL_UDP NX_PROTOCOL_ICMPV6 NX_IP_VERSION_V6 TCP_RX UDP_RX ICMPV6_RX).
Local Abbreviation verify_sum6 := (RxVerify.verify_sum6 hot NX_PROTOCOL_TCP NX_PROTOCOL_UDP NX_PROTOCOL_ICMPV6 NX_IP_VERSION_V6 TCP_RX UDP_RX ICMPV6_RX).
Local Abbreviation bit6 := (n68k_rxv6_bit NX_PROTOCOL_TCP NX_PROTOCOL_UDP TCP_RX UDP_RX ICMPV6_RX).

Definition answer6 (m : list Z) (length : Z) (v : verdict) : Prop :=
  match shape m length with
  | Val (inr (n, a, d)) => if good6 m n a d then flags v = bit6 n /\ drop_it v = false else flags v = 0 /\ drop_it v = true
  | _ => flags v = 0 /\ drop_it v = false
  end.

(** The frame afterwards: itself, or itself with a zero written behind an odd end. *)
Definition kept (m : list Z) (length : Z) (m' : list Z) : Prop :=
  exists k, 0 <= k <= length /\ (m' = m \/ k mod 2 = 1 /\ m' = <[Z.to_nat k := 0]> m).

Lemma kept_same m length : 0 <= length -> kept m length m.
Proof. intros Hl. exists 0. split; [lia|by left]. Qed.

Lemma kept_pad m length d : 0 <= d <= length -> kept m length (pad m d).
Proof. intros Hd. exists d. split; [done|]. unfold pad. destruct (Z.eqb_spec (d mod 2) 0); [by left|right; split; [word_lia|done]]. Qed.

Lemma transport6_pseudo n : is_transport6 n = true -> has_pseudo n = true.
Proof. unfold RxVerify.is_transport6, Checksum.has_pseudo. simpl. by destruct (n =? NX_PROTOCOL_TCP), (n =? NX_PROTOCOL_UDP), (n =? NX_PROTOCOL_ICMPV6). Qed.

Lemma verify6_spec p s :
  rx_ok p -> exists v, verify6 p s = Val v /\ answer6 (rx_mem p) (nx_packet_length p) v /\
    kept (rx_mem p) (nx_packet_length p) (mem_after v).
Proof.
  intros Hok. pose proof Hok as [H1 H2 H3 H4 H5 Hm]. unfold n68k_rxv6_verify, answer6.
  destruct (shape_spec (rx_mem p) (nx_packet_length p) Hm H5) as ([c|[[n a] d]] & E & Hr); rewrite E; cbn [obind];
    [eexists; split; [done|]; split; [done|apply kept_same; lia]|]. destruct Hr as (T & Hn & Ha & Hmod & Hd & Hl & _).
  rewrite !addr6_val by (done || lia). cbn [obind].
  rewrite (sum_ok_spec p a NX_IP_VERSION_V6 n d) by
    (done || lia || (unfold is_u8 in Hn; lia) || (intros _; rewrite Z.eqb_refl; split; by apply addr_of_ok)).
  cbn [obind]. unfold Checksum.pseudo_sum. rewrite (transport6_pseudo n T), !addr_halves by (done || lia).
  pose proof (sum16_slice (rx_mem p) 8 16 Hm). pose proof (sum16_slice (rx_mem p) 24 16 Hm).
  pose proof (sum16_slice (rx_mem p) a d Hm). unfold is_u8 in Hn. rewrite oc16_full by lia. unfold good6.
  rewrite (sum16_split (rx_mem p) 8 32 16 24 16) by (done || lia).
  replace (n + d + (sum16 (slice (rx_mem p) 8 16) + sum16 (slice (rx_mem p) 24 16)) + sum16 (slice (rx_mem p) a d))
    with (n + sum16 (slice (rx_mem p) 8 16) + sum16 (slice (rx_mem p) 24 16) + d + sum16 (slice (rx_mem p) a d)) by lia.
  destruct (_ mod 65535 =? 0); simpl; eexists; (split; [done|]); (split; [done|apply kept_pad; lia]).
Qed.

(** Taking a region out of a carried sum. *)
Lemma subtract_oc carried head :
  is_u32 carried -> is_u32 head -> 0 < carried ->
  let x := add_carry_l carried (not32 head) in
  is_u32 x /\ 0 < x /\ x mod 65535 = (carried - head) mod 65535.
Proof.
  intros Hc Hh Hp. unfold add_carry_l, not32. assert (E : u32 (Z.lnot head) = 2 ^ 32 - 1 - head) by (unfold Z.lnot; word_lia).
  rewrite E. destruct (Z_lt_ge_dec (carried + (2 ^ 32 - 1 - head)) (2 ^ 32)) as [Hlt|Hge].
  - rewrite u32_small by word_lia. rewrite (proj2 (Z.ltb_ge _ _)) by word_lia. split; [word_lia|]. split; [word_lia|].
    replace (carried + (2 ^ 32 - 1 - head)) with (carried - head + 65537 * 65535) by lia. by rewrite Z.mod_add by lia.
  - replace (u32 (carried + (2 ^ 32 - 1 - head))) with (carried - head - 1) by word_lia.
    rewrite (proj2 (Z.ltb_lt _ _)) by word_lia. rewrite u32_small by word_lia.
    split; [word_lia|]. split; [word_lia|]. f_equal. lia.
Qed.

(** What a carried sum is: the sum of the first [copied] bytes. *)
Definition carries (m : list Z) (carried copied : Z) : Prop :=
  is_u32 carried /\ oc_eq carried (sum16 (slice m 0 copied)).

Lemma carries_pos m carried copied :
  bytes_ok m -> carries m carried copied -> 2 <= copied -> copied <= len m -> 0 < byte m 0 -> 0 < carried.
Proof.
  intros Hm [Hu (H0 & _ & _ & Hz)] Hc Hl Hb. destruct (Z.eq_dec carried 0) as [E|]; [|lia]. apply Hz in E.
  rewrite (sum16_split m 0 copied 2 2 (copied - 2)) in E by (done || lia).
  rewrite !slice_first, slice_nil in E by lia. cbn [sum16] in E.
  pose proof (byte_range m (0 + 1) Hm). pose proof (sum16_slice m 2 (copied - 2) Hm). unfold is_u8 in *. lia.
Qed.

(** The header sum the fast path takes out: the fixed header's first two longwords and
    the extension headers. *)
Lemma head6_spec m a :
  bytes_ok m -> 40 <= a -> a mod 4 = 0 -> a <= len m ->
  exists h, (let! head := n68k_rxv_sum_be m 0 2 in
             if 40 <? a then let! ext := n68k_rxv_sum_be m 40 (Z.shiftr (a - 40) 2) in Val (add_carry head ext) else Val head) = Val h /\
    is_u32 h /\ h mod 65535 = (sum16 (slice m 0 8) + sum16 (slice m 40 (a - 40))) mod 65535.
Proof.
  intros Hm Ha Hmod Hl. destruct (sum_be_spec m 0 2 Hm) as (x & -> & Hx & (Hx0 & _ & Ex & _)); [lia..|]. cbn [obind].
  destruct (Z.ltb_spec 40 a).
  - rewrite Z.shiftr_div_pow2 by lia. change (2 ^ 2) with 4.
    destruct (sum_be_spec m 40 ((a - 40) / 4) Hm) as (y & -> & Hy & (Hy0 & _ & Ey & _)); [lia|word_lia|word_lia|]. cbn [obind].
    destruct (add_carry_oc x y Hx Hy) as [Hu (_ & _ & E & _)]. eexists. split; [done|]. split; [done|].
    rewrite E. replace (4 * ((a - 40) / 4)) with (a - 40) in Ey by word_lia.
    change (4 * 2) with 8 in Ex. by rewrite Z.add_mod, Ex, Ey, <- Z.add_mod by lia.
  - exists x. split; [done|]. split; [done|]. rewrite (slice_nil m 40) by lia. simpl. by rewrite Z.add_0_r.
Qed.

Lemma fast6_good m carried n a d h :
  bytes_ok m -> carries m carried (a + d) -> 0 < carried -> is_u8 n -> 40 <= a -> a mod 4 = 0 -> 8 <= d -> a + d <= 65575 ->
  a + d <= len m -> is_u32 h -> h mod 65535 = (sum16 (slice m 0 8) + sum16 (slice m 40 (a - 40))) mod 65535 ->
  (n68k_rxv_fold ((n68k_rxv_fold (add_carry_l carried (not32 h)) +w n) +w d) =? 0xFFFF) = good6 m n a d.
Proof.
  intros Hm [Hu (_ & _ & Ec & _)] Hp Hn Ha Hmod Hd Hmax Hl Hh Eh. unfold is_u8 in Hn.
  destruct (subtract_oc carried h Hu Hh Hp) as (Hx & Hx0 & Ex). set (x := add_carry_l carried (not32 h)) in *.
  rewrite (rxv_fold_eq x), (fold_oc16 x), (u32_small (oc16 x + n)) by (done || (pose proof (oc16_range x); unfold is_u32; lia)).
  pose proof (oc16_range x). rewrite u32_small, rxv_fold_full by (unfold is_u32; lia).
  unfold good6. f_equal. destruct (oc16_oc x ltac:(lia)) as (_ & _ & Eo & _).
  assert (S : sum16 (slice m 0 (a + d)) =
    sum16 (slice m 0 8) + sum16 (slice m 40 (a - 40)) + (sum16 (slice m 8 32) + sum16 (slice m a d))).
  { rewrite (sum16_split m 0 (a + d) 8 8 (a + d - 8)), (sum16_split m 8 (a + d - 8) 32 40 (a + d - 40)),
      (sum16_split m 40 (a + d - 40) (a - 40) a d) by (done || lia || word_lia). lia. }
  rewrite S in Ec. set (A := sum16 (slice m 0 8) + sum16 (slice m 40 (a - 40))) in *.
  set (B := sum16 (slice m 8 32) + sum16 (slice m a d)) in *.
  transitivity ((x + n + d) mod 65535); [by rewrite <- !Z.add_assoc, Z.add_mod, Eo, <- Z.add_mod by lia|].
  transitivity ((carried - h + (n + d)) mod 65535); [by rewrite <- !Z.add_assoc, Z.add_mod, Ex, <- Z.add_mod by lia|].
  transitivity ((A + B - A + (n + d)) mod 65535); [|f_equal; unfold B; lia].
  rewrite (Z.add_mod (carried - h)), (Z.add_mod (A + B - A)) by lia. do 2 f_equal.
  rewrite (Zminus_mod carried h), Ec, Eh, <- Zminus_mod. done.
Qed.

Lemma verify_sum6_spec p carried copied s :
  rx_ok p -> byte (rx_mem p) 0 / 16 = 6 -> carries (rx_mem p) carried copied -> copied <= nx_packet_length p ->
  exists v, verify_sum6 p carried copied s = Val v /\ answer6 (rx_mem p) (nx_packet_length p) v.
Proof.
  intros Hok Hv Hc Hl. pose proof Hok as [_ _ _ _ H5 Hm]. unfold RxVerify.verify_sum6.
  pose proof (verify6_spec p s Hok) as Hwalk. unfold answer6 in *.
  destruct (shape_spec (rx_mem p) (nx_packet_length p) Hm H5) as ([c|[[n a] d]] & E & Hr); rewrite E in *; cbn [obind];
    [by eexists|]. destruct Hr as (T & Hn & Ha & Hmod & Hd & Hl2 & Hmax).
  destruct (_ || _) eqn:G; [destruct Hwalk as (v & Ev & Av & _); by exists v|]. apply orb_false_iff in G as [G _]. apply negb_false_iff, Z.eqb_eq in G. subst copied.
  assert (Hpos : 0 < carried) by (eapply carries_pos; [exact Hm|exact Hc|lia|lia|word_lia]).
  destruct (head6_spec (rx_mem p) a Hm) as (h & Eh & Hh & Hhm); [lia|done|lia|].
  destruct (n68k_rxv_sum_be (rx_mem p) 0 2) as [x| |]; [|done..]. cbn [obind] in *. rewrite Eh. cbn [obind].
  rewrite (fast6_good (rx_mem p) carried n a d h) by (done || lia).
  destruct (good6 _ _ _ _); simpl; by eexists.
Qed.

(** ** IPv4 *)

Hypothesis numbers :
  NX_PROTOCOL_TCP = 6 /\ NX_PROTOCOL_UDP = 17 /\ NX_PROTOCOL_ICMP = 1 /\ NX_PROTOCOL_IGMP = 2 /\ NX_PROTOCOL_ICMPV6 = 58 /\
  NX_IP_VERSION_V4 = 4 /\ NX_IP_VERSION_V6 = 6.

Local Abbreviation verify := (n68k_rx_verify hot NX_PROTOCOL_TCP NX_PROTOCOL_UDP NX_PROTOCOL_ICMP NX_PROTOCOL_IGMP
  NX_PROTOCOL_ICMPV6 NX_IP_VERSION_V4 NX_IP_VERSION_V6 IPV4_RX TCP_RX UDP_RX ICMPV4_RX ICMPV6_RX IGMP_RX).
Local Abbreviation verify_sum := (n68k_rx_verify_sum hot NX_PROTOCOL_TCP NX_PROTOCOL_UDP NX_PROTOCOL_ICMP NX_PROTOCOL_IGMP
  NX_PROTOCOL_ICMPV6 NX_IP_VERSION_V4 NX_IP_VERSION_V6 IPV4_RX TCP_RX UDP_RX ICMPV4_RX ICMPV6_RX IGMP_RX).
Local Abbreviation checked4 := (RxVerify.checked4 NX_PROTOCOL_TCP NX_PROTOCOL_UDP NX_PROTOCOL_ICMP NX_PROTOCOL_IGMP).
Local Abbreviation no_pseudo4 := (RxVerify.no_pseudo4 NX_PROTOCOL_ICMP NX_PROTOCOL_IGMP).
Local Abbreviation bit4 := (RxVerify.bit4 NX_PROTOCOL_TCP NX_PROTOCOL_UDP NX_PROTOCOL_ICMP TCP_RX UDP_RX ICMPV4_RX IGMP_RX).
Local Abbreviation udp_decline := (RxVerify.udp_decline NX_PROTOCOL_UDP).

Definition ihl_of (m : list Z) : Z := Z.shiftl (Z.land (byte m 0) 0x0F) 2.
Definition payload_of (m : list Z) : Z := half m 2 - ihl_of m.
Definition head_good (m : list Z) : bool := sum16 (slice m 0 (ihl_of m)) mod 65535 =? 0.

(** A whole datagram of a protocol that is checked, a UDP one of the right length and
    with a sum. *)
Definition transport4 (m : list Z) (length : Z) : bool :=
  (ihl_of m <=? half m 2) && (half m 2 <=? length) && (Z.land (half m 6) 0x3FFF =? 0) && checked4 (byte m 9) &&
  (negb (byte m 9 =? NX_PROTOCOL_UDP) ||
   ((8 <=? payload_of m) && (half m (ihl_of m + 4) =? payload_of m) && negb (half m (ihl_of m + 6) =? 0))).

(** The one's complement sum of the pseudo header, for TCP and UDP, and of the payload
    is all ones. *)
Definition good4 (m : list Z) : bool :=
  oc16 ((if no_pseudo4 (byte m 9) then 0 else byte m 9 + payload_of m + sum16 (slice m 12 8)) +
        sum16 (slice m (ihl_of m) (payload_of m))) =? 65535.

Definition answer4 (m : list Z) (length : Z) (v : verdict) : Prop :=
  if (ihl_of m <? 20) || (length <? ihl_of m) then flags v = 0 /\ drop_it v = false
  else if negb (head_good m) then flags v = 0 /\ drop_it v = true
  else if negb (transport4 m length) then flags v = IPV4_RX /\ drop_it v = false
  else if good4 m then flags v = Z.lor IPV4_RX (bit4 (byte m 9)) /\ drop_it v = false
  else flags v = 0 /\ drop_it v = true.

Lemma ihl_range m : bytes_ok m -> 0 <= ihl_of m <= 60 /\ ihl_of m mod 4 = 0.
Proof.
  intros Hm. unfold ihl_of. rewrite (Z.land_ones _ 4), Z.shiftl_mul_pow2 by lia. word_lia.
Qed.

Lemma udp_decline_spec m n ihl d :
  bytes_ok m -> 0 <= ihl -> 0 <= d -> ihl + d < len m ->
  exists r, udp_decline m n ihl d = Val r /\
    (r = None <-> negb (n =? NX_PROTOCOL_UDP) ||
      ((8 <=? d) && (half m (ihl + 4) =? d) && negb (half m (ihl + 6) =? 0)) = true) /\
    (r = None \/ r = Some skip_length \/ r = Some skip_udp_nosum).
Proof.
  intros Hm Hi Hd Hl. unfold RxVerify.udp_decline, N68K_RD16. destruct (n =? NX_PROTOCOL_UDP); [|eexists; split; [done|]; simpl; split; [split; done|auto]].
  destruct (Z.ltb_spec d 8); [eexists; split; [done|]; destruct (Z.leb_spec 8 d); [lia|]; simpl; split; [split; done|auto]|].
  destruct (Z.leb_spec 8 d); [|lia]. rewrite !load16_half by (done || lia). cbn [obind]. simpl.
  destruct (half m (ihl + 4) =? d), (half m (ihl + 6) =? 0); simpl; eexists; (split; [done|]); split; [split; done|auto|split; done|auto|split; done|auto|split; done|auto].
Qed.

Lemma pad_even m d : d mod 2 = 0 -> pad m d = m.
Proof. intros H. unfold pad. by rewrite H. Qed.

Lemma pseudo4 m n d :
  bytes_ok m -> 20 <= len m -> checked4 n = true ->
  pseudo_sum n d (if no_pseudo4 n then [] else [long m 12]) (if no_pseudo4 n then [] else [long m 16]) =
    if no_pseudo4 n then 0 else n + d + sum16 (slice m 12 8).
Proof.
  intros Hm Hl Hc. destruct numbers as (E1 & E2 & E3 & E4 & E5 & _).
  unfold RxVerify.checked4, RxVerify.no_pseudo4, Checksum.pseudo_sum, Checksum.has_pseudo in *. subst.
  rewrite (sum16_split m 12 8 4 16 4), !slice_long by (done || lia).
  destruct (Z.eqb_spec n 6) as [->|]; [simpl; rewrite !Z.add_0_r, !long_halves by done; lia|].
  destruct (Z.eqb_spec n 17) as [->|]; [simpl; rewrite !Z.add_0_r, !long_halves by done; lia|].
  destruct (Z.eqb_spec n 1) as [->|]; [done|]. destruct (Z.eqb_spec n 2) as [->|]; done.
Qed.

Lemma addrs4 m version n :
  bytes_ok m -> version <> NX_IP_VERSION_V6 -> checked4 n = true ->
  addrs_ok version n (if no_pseudo4 n then [] else [long m 12]) (if no_pseudo4 n then [] else [long m 16]).
Proof.
  intros Hm Hv Hc Hp. simpl. rewrite (proj2 (Z.eqb_neq _ _) Hv). destruct (no_pseudo4 n) eqn:E.
  - exfalso. destruct numbers as (E1 & E2 & E3 & E4 & E5 & _). unfold RxVerify.no_pseudo4, Checksum.has_pseudo in *. subst.
    destruct (Z.eqb_spec n 1) as [->|]; [done|]. destruct (Z.eqb_spec n 2) as [->|]; done.
  - split; (split; [|done]); rewrite Forall_singleton; by apply long_range.
Qed.

Lemma head_pos m d : bytes_ok m -> byte m 0 / 16 = 4 -> 2 <= d -> d <= len m -> 0 < sum16 (slice m 0 d).
Proof.
  intros Hm Hv Hd Hl. rewrite (sum16_split m 0 d 2 2 (d - 2)) by (done || lia). rewrite !slice_first, slice_nil by lia.
  cbn [sum16]. pose proof (byte_range m (0 + 1) Hm). pose proof (sum16_slice m 2 (d - 2) Hm). unfold is_u8 in *. word_lia.
Qed.

Lemma verify4_spec p s :
  rx_ok p -> 20 <= nx_packet_length p -> byte (rx_mem p) 0 / 16 = 4 -> nx_packet_ip_version p <> NX_IP_VERSION_V6 ->
  exists v, verify p s = Val v /\ answer4 (rx_mem p) (nx_packet_length p) v /\
    kept (rx_mem p) (nx_packet_length p) (mem_after v).
Proof.
  intros Hok Hlen Hver Hpv. assert (Hsame : kept (rx_mem p) (nx_packet_length p) (rx_mem p)) by (apply kept_same, Hok). pose proof Hok as [H1 H2 H3 H4 H5 Hm]. unfold n68k_rx_verify.
  destruct (Z.ltb_spec (nx_packet_length p) 20); [lia|]. rewrite fetch_byte by lia. cbn [obind].
  rewrite Z.shiftr_div_pow2 by lia. change (2 ^ 4) with 16. rewrite Hver. cbn [Z.eqb Pos.eqb negb].
  fold (ihl_of (rx_mem p)). pose proof (ihl_range (rx_mem p) Hm) as [Hihl Hmod]. unfold answer4.
  set (ihl := ihl_of (rx_mem p)) in *. destruct (_ || _) eqn:G; [by eexists|].
  apply orb_false_iff in G as [G1 G2]. apply Z.ltb_ge in G1, G2.
  pose proof numbers as (_ & _ & _ & _ & _ & EV4 & _).
  assert (NP : has_pseudo NX_IP_VERSION_V4 = false).
  { destruct numbers as (-> & -> & _ & _ & -> & -> & _). done. }
  rewrite (sum_ok_spec p 0 (nx_packet_ip_version p) NX_IP_VERSION_V4 ihl [] []); [|done|lia|done|lia|lia|lia|by unfold addrs_ok; rewrite NP].
  cbn [obind]. unfold Checksum.pseudo_sum at 1. rewrite NP, Z.add_0_l.
  assert (Hpos : 0 < sum16 (slice (rx_mem p) 0 ihl)) by (apply head_pos; done || lia).
  rewrite (oc16_full _ Hpos). fold ihl. change (sum16 (slice (rx_mem p) 0 ihl) mod 65535 =? 0) with (head_good (rx_mem p)).
  destruct (head_good (rx_mem p)); cbn [negb]; rewrite pad_even by word_lia; [|by eexists].
  unfold N68K_RD16, N68K_RD32. rewrite !load16_half by (done || lia). cbn [obind nx_packet_length with_mem rx_mem].
  unfold transport4. fold ihl.
  destruct (Z.leb_spec ihl (half (rx_mem p) 2)), (Z.ltb_spec (half (rx_mem p) 2) ihl); try lia; simpl; [|by eexists].
  destruct (Z.leb_spec (half (rx_mem p) 2) (nx_packet_length p)), (Z.ltb_spec (nx_packet_length p) (half (rx_mem p) 2));
    try lia; simpl; [|by eexists].
  destruct (Z.land (half (rx_mem p) 6) 0x3FFF =? 0); simpl; [|by eexists].
  rewrite fetch_byte, !load32_long by (done || lia). cbn [obind].
  destruct (checked4 (byte (rx_mem p) 9)) eqn:Ck; simpl; [|by eexists]. unfold payload_of. fold ihl.
  set (d := half (rx_mem p) 2 - ihl) in *.
  destruct (udp_decline_spec (rx_mem p) (byte (rx_mem p) 9) ihl d Hm) as (r & -> & Hr & _); [lia..|]. cbn [obind].
  destruct (negb (byte _ 9 =? _) || _); [|destruct r; [by eexists|by destruct Hr as [Hr _]; specialize (Hr eq_refl)]].
  rewrite (proj2 Hr eq_refl).
  assert (Hw : with_mem p (rx_mem p) = p) by by destruct p. rewrite Hw.
  pose proof (byte_range (rx_mem p) 9 Hm) as R9. unfold is_u8 in R9.
  rewrite (sum_ok_spec p ihl _ (byte (rx_mem p) 9) d); [|done|lia|done|lia|lia|lia|by apply addrs4].
  cbn [obind]. rewrite pseudo4 by (done || lia).
  replace (oc16 (_ + sum16 _) =? 65535) with (good4 (rx_mem p)) by done.
  destruct (good4 (rx_mem p)); eexists; (split; [done|]); (split; [done|apply kept_pad; lia]).
Qed.

Lemma add_carry_0 w : is_u32 w -> add_carry 0 w = w.
Proof. intros Hw. unfold add_carry. rewrite u32_small by done. by rewrite Z.ltb_irrefl. Qed.

Lemma head_sum_spec m ihl :
  bytes_ok m -> 20 <= ihl <= 60 -> ihl mod 4 = 0 -> ihl <= len m ->
  exists h, head_sum m ihl = Val h /\ is_u32 h /\ oc_eq h (sum16 (slice m 0 ihl)).
Proof.
  intros Hm Hi Hmod Hl.
  assert (E : head_sum m ihl = n68k_sum_longwords m 0 (ihl / 4)).
  { unfold head_sum. rewrite Z.shiftr_div_pow2 by lia. destruct (Z.eqb_spec ihl 20) as [->|]; [|done].
    unfold n68k_sum_longwords. change (Z.to_nat (20 / 4)) with 5%nat. unfold N68K_RD32. cbn [sum_longs].
    rewrite !load32_long by (done || lia). cbn [obind].
    by rewrite (add_carry_0 (long m 0)) by by apply long_range. }
  rewrite E. destruct (sum_longs_spec (Z.to_nat (ihl / 4)) m 0 0) as (h & Eh & Hh & Hoc); [lia|done|word_lia|simpl; word_lia|].
  exists h. split; [exact Eh|]. split; [done|]. unfold slice.
  replace (Z.to_nat ihl) with (4 * Z.to_nat (ihl / 4))%nat by word_lia. exact Hoc.
Qed.

Lemma long_mod m i : bytes_ok m -> long m i mod 65535 = (long m i / 65536 + long m i mod 65536) mod 65535.
Proof.
  intros Hm. pose proof (long_range m i Hm).
  replace (long m i) with (long m i / 65536 + long m i mod 65536 + long m i / 65536 * 65535) at 1 by word_lia.
  by rewrite Z.mod_add by lia.
Qed.

(** The protocol and the length go in without the end-around carry.  The carry that is
    lost never changes the verdict: past 2^32 the next multiple of 65535 is out of
    reach of two terms below 65535, so neither the full sum nor the wrapped one is all
    ones. *)
Lemma wrapped_fold x n d :
  0 <= x < 2 ^ 32 -> 0 < n -> 0 <= d -> n + d < 65535 ->
  (n68k_rxv_fold ((x +w n) +w d) =? 0xFFFF) = ((x + (n + d)) mod 65535 =? 0).
Proof.
  intros Hx Hn Hd Hnd. replace ((x +w n) +w d) with (u32 (x + (n + d))) by word_lia.
  destruct (Z_lt_ge_dec (x + (n + d)) (2 ^ 32)).
  - rewrite u32_small, rxv_fold_full by (unfold is_u32; lia). done.
  - replace (u32 (x + (n + d))) with (x + (n + d) - 2 ^ 32) by word_lia. set (w := x + (n + d) - 2 ^ 32).
    replace (x + (n + d)) with (w + 1 + 65537 * 65535) by (unfold w; lia). rewrite Z.mod_add by lia.
    rewrite rxv_fold_eq, fold_oc16 by (unfold is_u32, w; lia).
    rewrite (Z.mod_small (w + 1)) by (unfold w; lia). destruct (Z.eqb_spec (w + 1) 0); [unfold w in *; lia|].
    destruct (Z.eq_dec w 0) as [->|]; [done|]. rewrite oc16_full, Z.mod_small by (unfold w in *; lia).
    destruct (Z.eqb_spec w 0); done.
Qed.

(** The sum that the fast path folds, before the protocol and the length go in. *)
Definition carried_sum (m : list Z) (carried : Z) : Z := add_carry (add_carry carried (long m 12)) (long m 16).

Lemma fast4_good m carried :
  bytes_ok m -> 20 <= ihl_of m -> ihl_of m <= half m 2 -> half m 2 < len m -> no_pseudo4 (byte m 9) = false ->
  0 < byte m 9 <= 17 -> head_good m = true -> carries m carried (half m 2) ->
  carried_verdict carried (long m 12) (long m 16) (byte m 9) (payload_of m) = good4 m.
Proof.
  intros Hm Hi Ht Hl Hp Hn Hh [Hu Hc]. unfold carried_verdict. fold (carried_sum m carried).
  destruct (add_carry_oc carried (long m 12) Hu (long_range m 12 Hm)) as [Hu1 (_ & _ & E1 & _)].
  destruct (add_carry_oc _ (long m 16) Hu1 (long_range m 16 Hm)) as [Hu2 (_ & _ & E2 & _)].
  fold (carried_sum m carried) in Hu2, E2. pose proof (half_range m 2 Hm) as R2. unfold is_u32 in Hu2.
  assert (Hd : 0 <= payload_of m <= 65515) by (unfold payload_of; lia).
  unfold good4. rewrite Hp. pose proof (sum16_slice m 12 8 Hm). pose proof (sum16_slice m (ihl_of m) (payload_of m) Hm).
  rewrite oc16_full by lia. apply Z.eqb_eq in Hh. pose proof (ihl_range m Hm) as [_ Hmod].
  destruct Hc as (_ & _ & Ec & _).
  rewrite (sum16_split m 0 (half m 2) (ihl_of m) (ihl_of m) (payload_of m)) in Ec by (done || lia || word_lia || (unfold payload_of; lia)).
  rewrite <- Z.add_mod_idemp_l, Hh, Z.add_0_l in Ec by lia.
  rewrite (sum16_split m 12 8 4 16 4), !slice_long, <- !long_halves by (done || lia).
  set (h1 := long m 12 / 65536 + long m 12 mod 65536). set (h2 := long m 16 / 65536 + long m 16 mod 65536).
  set (P := sum16 (slice m (ihl_of m) (payload_of m))) in *.
  assert (E3 : carried_sum m carried mod 65535 = (P + h1 + h2) mod 65535).
  { rewrite E2, Z.add_mod, E1, (Z.add_mod carried), Ec, !long_mod by (done || lia). fold h1 h2.
    rewrite <- (Z.add_mod P h1), <- Z.add_mod by lia. done. }
  rewrite wrapped_fold by lia. f_equal. rewrite Z.add_mod, E3, <- Z.add_mod by lia. f_equal. lia.
Qed.

Lemma tcp_or_udp n : n = NX_PROTOCOL_TCP \/ n = NX_PROTOCOL_UDP ->
  no_pseudo4 n = false /\ checked4 n = true /\ 0 < n <= 17 /\
  bit4 n = if n =? NX_PROTOCOL_TCP then TCP_RX else UDP_RX.
Proof. destruct numbers as (-> & -> & -> & -> & _). intros [-> | ->]; done. Qed.

Lemma verify_sum4_spec p carried copied s :
  rx_ok p -> 20 <= nx_packet_length p -> byte (rx_mem p) 0 / 16 = 4 -> nx_packet_ip_version p <> NX_IP_VERSION_V6 ->
  carries (rx_mem p) carried copied ->
  exists v, verify_sum p carried copied s = Val v /\ answer4 (rx_mem p) (nx_packet_length p) v.
Proof.
  intros Hok Hlen Hver Hpv Hc. pose proof Hok as [H1 H2 H3 H4 H5 Hm]. unfold n68k_rx_verify_sum.
  assert (Hwalk : forall s, exists v, verify p s = Val v /\ answer4 (rx_mem p) (nx_packet_length p) v).
  { intros s'. destruct (verify4_spec p s' Hok Hlen Hver Hpv) as (v & Ev & Av & _). by exists v. }
  destruct (Z.ltb_spec (nx_packet_length p) 20); [lia|]. rewrite fetch_byte by lia. cbn [obind].
  rewrite Z.shiftr_div_pow2 by lia. change (2 ^ 4) with 16. rewrite Hver. cbn [Z.eqb Pos.eqb negb].
  unfold n68k_rxv_even. rewrite (Z.land_ones _ 2) by lia. change (2 ^ 2) with 4. rewrite H1. cbn [Z.eqb negb].
  fold (ihl_of (rx_mem p)). unfold N68K_RD16, N68K_RD32. rewrite !load16_half by (done || lia). cbn [obind].
  destruct (_ || _) eqn:G; [apply Hwalk|]. rewrite !orb_false_iff, negb_false_iff, !Z.ltb_ge, Z.eqb_eq in G.
  destruct G as [[[G1 G2] G3] ->]. rewrite fetch_byte by lia. cbn [obind].
  destruct (_ || negb _) eqn:G; [apply Hwalk|]. apply orb_false_iff in G as [Gp Gf].
  fold (payload_of (rx_mem p)). pose proof (ihl_range (rx_mem p) Hm) as [Hihl Hmod].
  destruct (udp_decline_spec (rx_mem p) (byte (rx_mem p) 9) (ihl_of (rx_mem p)) (payload_of (rx_mem p)) Hm) as (r & -> & Hr & Hcase);
    [lia|unfold payload_of; lia|unfold payload_of; lia|]. cbn [obind].
  destruct Hcase as [-> |[-> | ->]]; [|apply Hwalk..].
  destruct (head_sum_spec (rx_mem p) (ihl_of (rx_mem p))) as (h & -> & Hh & Hoc); [done|lia|done|lia|]. cbn [obind].
  rewrite !load32_long by (done || lia). cbn [obind].
  assert (Hpos : 0 < sum16 (slice (rx_mem p) 0 (ihl_of (rx_mem p)))) by (apply head_pos; done || lia).
  rewrite rxv_fold_eq, fold_oc16, (oc16_eq _ _ Hoc) by done.
  rewrite (oc16_full _ Hpos). change (sum16 (slice (rx_mem p) 0 (ihl_of (rx_mem p))) mod 65535 =? 0) with (head_good (rx_mem p)).
  unfold answer4. destruct (Z.ltb_spec (ihl_of (rx_mem p)) 20); [lia|]. destruct (Z.ltb_spec (nx_packet_length p) (ihl_of (rx_mem p))); [lia|].
  cbn [orb]. destruct (head_good (rx_mem p)) eqn:Eh; cbn [negb]; [|by eexists].
  assert (Hproto : byte (rx_mem p) 9 = NX_PROTOCOL_TCP \/ byte (rx_mem p) 9 = NX_PROTOCOL_UDP).
  { apply andb_false_iff in Gp as [Gp|Gp]; apply negb_false_iff, Z.eqb_eq in Gp; auto. }
  destruct (tcp_or_udp _ Hproto) as (Np & Ck & Hn0 & Hb). rewrite <- Hb.
  assert (Ht : transport4 (rx_mem p) (nx_packet_length p) = true).
  { unfold transport4. rewrite Ck, (proj1 Hr eq_refl). apply negb_false_iff in Gf. rewrite Gf.
    by rewrite (proj2 (Z.leb_le _ _) G2), (proj2 (Z.leb_le _ _) G3). }
  rewrite Ht. cbn [negb]. rewrite fast4_good; try done; try lia. destruct (good4 (rx_mem p)); by eexists.
Qed.

(** ** The verdicts *)

(** The answer for a frame: what its version says, or nothing. *)
Definition answer (p : rx_packet) (v : verdict) : Prop :=
  let m := rx_mem p in
  if nx_packet_length p <? 20 then flags v = 0 /\ drop_it v = false
  else if byte m 0 / 16 =? 6 then answer6 m (nx_packet_length p) v
  else if byte m 0 / 16 =? 4 then answer4 m (nx_packet_length p) v
  else flags v = 0 /\ drop_it v = false.

Lemma answer6_unique m length v w : answer6 m length v -> answer6 m length w -> flags v = flags w /\ drop_it v = drop_it w.
Proof.
  unfold answer6. destruct (shape m length) as [[c|[[n a] d]]| |]; [|destruct (good6 _ _ _ _)|..];
    intros [-> ->] [-> ->]; done.
Qed.

Lemma answer4_unique m length v w : answer4 m length v -> answer4 m length w -> flags v = flags w /\ drop_it v = drop_it w.
Proof.
  unfold answer4. destruct (_ || _), (head_good m), (transport4 m length), (good4 m); cbn [negb];
    intros [-> ->] [-> ->]; done.
Qed.

Lemma answer_unique p v w : answer p v -> answer p w -> flags w = flags v /\ drop_it w = drop_it v.
Proof.
  unfold answer. destruct (_ <? 20); [intros [-> ->] [-> ->]; done|].
  destruct (_ =? 6); [intros H1 H2; by eapply answer6_unique|].
  destruct (_ =? 4); [intros H1 H2; by eapply answer4_unique|]. intros [-> ->] [-> ->]; done.
Qed.

Lemma verify_answers p s :
  rx_ok p -> nx_packet_ip_version p <> NX_IP_VERSION_V6 ->
  exists v, verify p s = Val v /\ answer p v /\ kept (rx_mem p) (nx_packet_length p) (mem_after v).
Proof.
  intros Hok Hpv. pose proof Hok as [_ _ _ _ H5 Hm].
  pose proof (fun H20 H4 => verify4_spec p s Hok H20 H4 Hpv) as V4. pose proof (verify6_spec p s Hok) as V6. revert V4.
  unfold answer, n68k_rx_verify at 2. destruct (Z.ltb_spec (nx_packet_length p) 20); intros V4;
    [eexists; split; [done|]; split; [done|apply kept_same; lia]|].
  rewrite fetch_byte by lia. cbn [obind]. rewrite Z.shiftr_div_pow2 by lia. change (2 ^ 4) with 16.
  destruct (Z.eqb_spec (byte (rx_mem p) 0 / 16) 6); [exact V6|].
  destruct (Z.eqb_spec (byte (rx_mem p) 0 / 16) 4) as [E4|E4]; cbn [negb].
  - destruct (V4 ltac:(lia) E4) as (v & Ev & Hv). exists v. split; [|exact Hv]. revert Ev. unfold n68k_rx_verify at 1.
    destruct (Z.ltb_spec (nx_packet_length p) 20); [lia|]. rewrite fetch_byte by lia. cbn [obind].
    rewrite Z.shiftr_div_pow2 by lia. change (2 ^ 4) with 16. rewrite E4. done.
  - eexists; split; [done|]; split; [done|apply kept_same; lia].
Qed.

Lemma verify_sum_answers p carried copied s :
  rx_ok p -> nx_packet_ip_version p <> NX_IP_VERSION_V6 -> carries (rx_mem p) carried copied ->
  copied <= nx_packet_length p -> exists v, verify_sum p carried copied s = Val v /\ answer p v.
Proof.
  intros Hok Hpv Hc Hl. pose proof Hok as [_ _ _ _ H5 Hm]. unfold answer.
  destruct (Z.ltb_spec (nx_packet_length p) 20) as [Hs|Hs].
  { unfold n68k_rx_verify_sum. rewrite (proj2 (Z.ltb_lt _ _) Hs). by eexists. }
  destruct (Z.eqb_spec (byte (rx_mem p) 0 / 16) 6) as [E6|E6].
  { destruct (verify_sum6_spec p carried copied s Hok E6 Hc Hl) as (v & Ev & Av). exists v. split; [|done].
    unfold n68k_rx_verify_sum. rewrite (proj2 (Z.ltb_ge _ _)), fetch_byte by lia. cbn [obind].
    rewrite Z.shiftr_div_pow2 by lia. change (2 ^ 4) with 16. rewrite E6. exact Ev. }
  destruct (Z.eqb_spec (byte (rx_mem p) 0 / 16) 4) as [E4|E4].
  { apply verify_sum4_spec; done. }
  unfold n68k_rx_verify_sum. rewrite (proj2 (Z.ltb_ge _ _)), fetch_byte by lia. cbn [obind].
  rewrite Z.shiftr_div_pow2 by lia. change (2 ^ 4) with 16.
  rewrite (proj2 (Z.eqb_neq _ _) E6), (proj2 (Z.eqb_neq _ _) E4). by eexists.
Qed.
End Spec.
