(* ===== verification/RxClaims.v ===== *)
(** * The receive check: its answers, and the two paths

    The walking check, the check from the sum of the copy, and the copy hook that makes
    the sum. *)

From Stdlib Require Import ZArith Lia.
From stdpp Require Import base numbers list.
From S2P Require Import Prelude Checksum RxVerify RxSpec.
#[local] Open Scope Z_scope.

Local Abbreviation len m := (Z.of_nat (length m)).

(** ** The copy hook *)

Lemma gather_slice n m i : 0 <= i -> i + Z.of_nat n <= len m -> gather n m i = Val (slice m i (Z.of_nat n)).
Proof.
  revert i. induction n as [|n IH]; intros i Hi Hl; [done|]. simpl. rewrite fetch_byte by lia. cbn [obind].
  rewrite IH by lia. cbn [obind]. rewrite (slice_first m i) by lia. do 3 f_equal. lia.
Qed.

Lemma padded_long_spec bs :
  bytes_ok bs -> (0 < length bs <= 4)%nat -> is_u32 (padded_long bs) /\ oc_eq (padded_long bs) (sum16 bs).
Proof.
  intros Hb Hl. unfold padded_long.
  assert (W : forall b0 b1 b2 b3, is_u8 b0 -> is_u8 b1 -> is_u8 b2 -> is_u8 b3 ->
    be_join 0 [b0; b1; b2; b3] = (b0 * 256 + b1) * 65536 + (b2 * 256 + b3)).
  { intros b0 b1 b2 b3 H0 H1 H2 H3. rewrite !be_join_cons by (done || word_lia). cbn [be_join]. lia. }
  assert (G : forall a b t, 0 <= a < 65536 -> 0 <= b < 65536 -> t = a + b -> is_u32 (a * 65536 + b) /\ oc_eq (a * 65536 + b) t).
  { intros a b t Ha Hb' ->. split; [word_lia|]. split_and!; [lia..| |lia].
    replace (a * 65536 + b) with (a + b + a * 65535) by lia. by rewrite Z.mod_add by lia. }
  assert (Z0 : is_u8 0) by word_lia. unfold bytes_ok in Hb.
  destruct bs as [|b0 [|b1 [|b2 [|b3 [|b4 r]]]]]; simpl in Hl; try lia; rewrite !Forall_cons in Hb; cbn [app take];
    rewrite W by tauto; cbn [sum16]; unfold is_u8 in Hb.
  all: apply G; lia.
Qed.

(** [to] with the first [i] bytes of [from] copied. *)
Definition copied_to (to from : list Z) (i : Z) : list Z := take (Z.to_nat i) from ++ drop (Z.to_nat i) to.

Lemma copied_to_length to from i : 0 <= i -> i <= len from -> i <= len to -> length (copied_to to from i) = length to.
Proof. intros. unfold copied_to. rewrite length_app, length_take, length_drop. lia. Qed.

Lemma copied_to_step to from i n :
  0 <= i -> 0 <= n -> i + n <= len from -> i + n <= len to ->
  store_bytes (copied_to to from i) i (slice from i n) = Val (copied_to to from (i + n)).
Proof.
  intros Hi Hn Hf Ht. unfold store_bytes. rewrite slice_length, copied_to_length by lia.
  destruct (Z.leb_spec 0 i); [|lia]. destruct (Z.leb_spec (i + n) (len to)); [|lia]. simpl. f_equal.
  unfold splice, copied_to. pose proof (slice_length from i n Hi Hn Hf) as Ls.
  rewrite take_app_le, take_ge by (rewrite length_take; lia).
  rewrite drop_app_ge by (rewrite length_take; lia). rewrite drop_drop, length_take, app_assoc. f_equal.
  - unfold slice. rewrite take_take_drop. f_equal. lia.
  - f_equal. lia.
Qed.

Lemma copied_slice to from i : 0 <= i -> i <= len from -> slice (copied_to to from i) 0 i = slice from 0 i.
Proof.
  intros Hi Hf. unfold slice, copied_to. change (Z.to_nat 0) with 0%nat. rewrite !drop_0.
  rewrite take_app_le, take_take by (rewrite length_take; lia).
  by rewrite Nat.min_id.
Qed.

(** One more run on a sum. *)
Lemma sum_more from i n sum :
  bytes_ok from -> 0 <= i -> i mod 4 = 0 -> 0 < n <= 4 -> i + n <= len from ->
  is_u32 sum -> oc_eq sum (sum16 (slice from 0 i)) ->
  is_u32 (add_carry sum (padded_long (slice from i n))) /\
  oc_eq (add_carry sum (padded_long (slice from i n))) (sum16 (slice from 0 (i + n))).
Proof.
  intros Hb Hi Hmod Hn Hl Hu Hoc. pose proof (slice_length from i n Hi ltac:(lia) ltac:(lia)) as Ls.
  destruct (padded_long_spec (slice from i n)) as [Pu Po]; [unfold slice; by apply bytes_take, bytes_drop|lia|].
  destruct (add_carry_oc sum _ Hu Pu) as [Au Ao]. split; [done|]. rewrite Ao.
  rewrite (sum16_split from 0 (i + n) i i n) by (done || lia || word_lia). by apply oc_add_proper.
Qed.

Lemma copy_hook_bytes fuel to from i n sum :
  bytes_ok from -> 0 <= i -> i mod 4 = 0 -> i <= n + 3 -> 0 <= n <= len from -> n <= len to -> n < 2 ^ 31 ->
  n - i <= Z.of_nat fuel -> is_u32 sum -> oc_eq sum (sum16 (slice from 0 (Z.min i n))) ->
  exists s, copy_sum_bytes fuel (copied_to to from (Z.min i n)) from i n sum = Val (copied_to to from n, s) /\
    is_u32 s /\ oc_eq s (sum16 (slice from 0 n)).
Proof.
  intros Hb. revert i sum. induction fuel as [|fuel IH]; intros i sum Hi Hmod Hin Hn Ht Hmax Hf Hu Hoc; simpl.
  all: destruct (Z.ltb_spec i n) as [Hlt|Hge]; simpl; [|rewrite Z.min_r in * by lia; by exists sum].
  - lia.
  - rewrite Z.min_l in * by lia. set (k := if 4 <? n - i then 4 else n - i).
    assert (Hk : 0 < k <= 4 /\ i + k = Z.min (i + 4) n) by (unfold k; destruct (Z.ltb_spec 4 (n - i)); lia).
    rewrite gather_slice by lia. cbn [obind]. rewrite !Z2Nat.id by lia.
    rewrite copied_to_step by lia. cbn [obind]. rewrite u32_small by (unfold is_u32; lia).
    destruct (sum_more from i k sum) as [Su So]; [done|lia|done|lia|lia|done|done|].
    rewrite (proj2 Hk) in So |- *. apply IH; try done; lia || word_lia.
Qed.

Lemma copied_to_0 to from : copied_to to from 0 = to.
Proof. unfold copied_to. by rewrite take_0, drop_0. Qed.

Lemma copy_even_spec to from n :
  bytes_ok from -> 0 <= n <= len from -> n <= len to ->
  exists s, copy_sum_even to from n = Val (copied_to to from n, s) /\ is_u32 s /\ oc_eq s (sum16 (slice from 0 n)).
Proof.
  intros Hb Hn Ht. unfold copy_sum_even. rewrite Z.shiftr_div_pow2, (Z.land_ones _ 2), Z.shiftl_mul_pow2 by lia.
  change (2 ^ 2) with 4. set (w := n / 4). assert (Hw : 0 <= 4 * w <= n) by (unfold w; word_lia).
  destruct (copy_sum_copies to from w) as (s & Es & Eoc & ->); [done|lia..|]. cbn [obind].
  assert (Hu : is_u32 s).
  { unfold n68k_sum_longwords in Es. destruct (sum_longs_spec (Z.to_nat w) from 0 0) as (s' & E' & H' & _); [lia|done|word_lia|simpl; lia|]. congruence. }
  fold (copied_to to from (4 * w)). destruct (Z.eqb_spec (n mod 4) 0) as [E|E]; simpl.
  - exists s. replace n with (4 * w) by (unfold w; word_lia). done.
  - replace (w * 4) with (4 * w) by lia. rewrite gather_slice by (unfold w in *; word_lia). cbn [obind].
    rewrite !Z2Nat.id by word_lia. rewrite copied_to_step by (unfold w in *; word_lia). cbn [obind].
    destruct (sum_more from (4 * w) (n mod 4) s) as [Su So]; [done|lia|word_lia|word_lia|unfold w in *; word_lia|done|done|].
    replace (4 * w + n mod 4) with n in * by (unfold w; word_lia). by eexists.
Qed.

Lemma copy_hook_spec odd to from n :
  bytes_ok from -> 0 <= n <= len from -> n <= len to -> n < 2 ^ 31 ->
  exists s, ami_sana2_copy_sum odd to from n = Val (copied_to to from n, s) /\ carries (copied_to to from n) s n.
Proof.
  intros Hb Hn Ht Hmax. unfold ami_sana2_copy_sum, carries. rewrite copied_slice by lia. destruct odd; [|by apply copy_even_spec].
  destruct (copy_hook_bytes (Z.to_nat n) to from 0 n 0) as (s & E & Hs);
    [done|lia|done|lia|lia|lia|lia|lia|word_lia|by rewrite Z.min_l by lia|].
  rewrite Z.min_l, copied_to_0 in E by lia. by exists s.
Qed.

(** The copy hook leaves the bytes of the frame in the slot, nothing past them
    touched, with their one's complement sum, through either path and for every
    length: equal to the sixteen-bit sum of the bytes up to multiples of 65535, and
    zero only if every byte is.  A frame that does not fit is refused and the slot
    left as it was. *)
Theorem copy_to_buff_sums odd slot dst from n :
  bytes_ok from -> 0 <= n <= len from -> slot_dst slot = Some dst -> slot_capacity slot <= len dst -> slot_capacity slot < 2 ^ 31 ->
  if slot_capacity slot <? n then ami_sana2_copy_to_buff odd slot (Some from) n = Val (false, slot)
  else exists s, ami_sana2_copy_to_buff odd slot (Some from) n =
      Val (true, RxSlot (Some (take (Z.to_nat n) from ++ drop (Z.to_nat n) dst)) (slot_capacity slot) s true 0 n) /\
    is_u32 s /\ oc_eq s (sum16 (take (Z.to_nat n) from)).
Proof.
  intros Hb Hn Hd Hc Hmax. unfold ami_sana2_copy_to_buff. rewrite Hd.
  destruct (Z.ltb_spec (slot_capacity slot) n); [done|].
  destruct (copy_hook_spec odd dst from n) as (s & -> & Hu & Hs); [done|lia..|]. exists s. cbn [obind]. split; [done|].
  rewrite copied_slice in Hs by lia. done.
Qed.

Lemma copy_to_buff_sums_witness :
  exists s, ami_sana2_copy_to_buff true (RxSlot (Some (replicate 8 9)) 8 0 false 1 0) (Some [1; 2; 3; 4; 5; 6; 7]) 7 =
      Val (true, RxSlot (Some [1; 2; 3; 4; 5; 6; 7; 9]) 8 s true 0 7) /\ is_u32 s /\ oc_eq s (sum16 [1; 2; 3; 4; 5; 6; 7]).
Proof.
  apply (copy_to_buff_sums true (RxSlot (Some (replicate 8 9)) 8 0 false 1 0) (replicate 8 9) [1; 2; 3; 4; 5; 6; 7] 7);
    [repeat constructor; word_lia|simpl; lia|reflexivity|simpl; lia|simpl; lia].
Defined.

(** ** The check *)

Section Check.
Context (hot : bool).
Context (NX_PROTOCOL_TCP NX_PROTOCOL_UDP NX_PROTOCOL_ICMP NX_PROTOCOL_IGMP NX_PROTOCOL_ICMPV6 : Z).
Context (NX_IP_VERSION_V4 NX_IP_VERSION_V6 : Z).
Context (IPV4_RX TCP_RX UDP_RX ICMPV4_RX ICMPV6_RX IGMP_RX : Z).

(** The numbers the protocol registry assigns. *)
Hypothesis numbers :
  NX_PROTOCOL_TCP = 6 /\ NX_PROTOCOL_UDP = 17 /\ NX_PROTOCOL_ICMP = 1 /\ NX_PROTOCOL_IGMP = 2 /\ NX_PROTOCOL_ICMPV6 = 58 /\
  NX_IP_VERSION_V4 = 4 /\ NX_IP_VERSION_V6 = 6.

Local Abbreviation verify := (n68k_rx_verify hot NX_PROTOCOL_TCP NX_PROTOCOL_UDP NX_PROTOCOL_ICMP NX_PROTOCOL_IGMP
  NX_PROTOCOL_ICMPV6 NX_IP_VERSION_V4 NX_IP_VERSION_V6 IPV4_RX TCP_RX UDP_RX ICMPV4_RX ICMPV6_RX IGMP_RX).
Local Abbreviation verify_sum := (n68k_rx_verify_sum hot NX_PROTOCOL_TCP NX_PROTOCOL_UDP NX_PROTOCOL_ICMP NX_PROTOCOL_IGMP
  NX_PROTOCOL_ICMPV6 NX_IP_VERSION_V4 NX_IP_VERSION_V6 IPV4_RX TCP_RX UDP_RX ICMPV4_RX ICMPV6_RX IGMP_RX).
Local Abbreviation answer := (RxSpec.answer NX_PROTOCOL_TCP NX_PROTOCOL_UDP NX_PROTOCOL_ICMP NX_PROTOCOL_IGMP
  NX_PROTOCOL_ICMPV6 IPV4_RX TCP_RX UDP_RX ICMPV4_RX ICMPV6_RX IGMP_RX).


(** C17 The check from the sum of the copy gives the bits and the verdict of the walking
    check, for every frame the copy hook delivered, padded or not, through either path
    of the hook: the IPv4 path adds the protocol and the length without an end-around
    carry, and the carry it can lose never changes the verdict. *)
Theorem rx_paths_agree p odd slot dst from n slot' s s' :
  rx_ok p -> nx_packet_ip_version p <> NX_IP_VERSION_V6 ->
  bytes_ok from -> 0 <= n <= len from -> slot_dst slot = Some dst -> slot_capacity slot <= len dst -> slot_capacity slot < 2 ^ 31 ->
  ami_sana2_copy_to_buff odd slot (Some from) n = Val (true, slot') ->
  slot_dst slot' = Some (rx_mem p) -> n <= nx_packet_length p ->
  exists v w, verify p s = Val v /\ verify_sum p (slot_sum slot') (slot_copied slot') s' = Val w /\
    flags w = flags v /\ drop_it w = drop_it v.
Proof.
  intros Hok Hv Hb Hn Hd Hc Hmax. unfold ami_sana2_copy_to_buff. rewrite Hd.
  destruct (Z.ltb_spec (slot_capacity slot) n); [done|].
  destruct (copy_hook_spec odd dst from n) as (x & -> & Hcar); [done|lia..|]. cbn [obind]. intros [= <-]. simpl.
  intros [= Hmem] Hlen. rewrite Hmem in Hcar.
  destruct (verify_answers hot _ _ _ _ _ _ _ IPV4_RX TCP_RX UDP_RX ICMPV4_RX ICMPV6_RX IGMP_RX numbers p s Hok Hv) as (v & Ev & Av & _).
  destruct (verify_sum_answers hot _ _ _ _ _ _ _ IPV4_RX TCP_RX UDP_RX ICMPV4_RX ICMPV6_RX IGMP_RX numbers p x n s' Hok Hv Hcar Hlen) as (w & Ew & Aw).
  exists v, w. split; [done|]. split; [done|]. by eapply answer_unique.
Qed.
End Check.

(** A UDP datagram over IPv4 with three bytes of data. *)
Definition udp_frame : list Z :=
  [69; 0; 0; 31; 18; 52; 0; 0; 64; 17; 231; 70; 192; 168; 0; 1; 192; 168; 0; 2; 4; 210; 0; 53; 0; 11; 181; 26; 97; 98; 99].
Definition udp_packet : rx_packet := RxPacket 4096 (4096 + 31) 31 4 (udp_frame ++ [0]).

Lemma udp_packet_ok : rx_ok udp_packet.
Proof.
  split; [reflexivity|simpl; lia|reflexivity|simpl; lia|simpl; lia|].
  apply Forall_forall. intros x Hx. apply list_elem_of_In in Hx. simpl in Hx. unfold is_u8. intuition lia.
Qed.

Definition no_stats : N68kRxVerifyStats := fun _ => 0.


Lemma rx_paths_agree_witness :
  exists v w, n68k_rx_verify false 6 17 1 2 58 4 6 1 2 4 8 16 32 udp_packet no_stats = Val v /\
    n68k_rx_verify_sum false 6 17 1 2 58 4 6 1 2 4 8 16 32 udp_packet 0x7ed5ffb9 31 no_stats = Val w /\
    flags w = flags v /\ drop_it w = drop_it v.
Proof.
  set (slot := RxSlot (Some (replicate 32 0)) 32 0 false 0 0).
  destruct (ami_sana2_copy_to_buff false slot (Some udp_frame) 31) as [[b slot']| |] eqn:E; [|vm_compute in E; discriminate..].
  assert (E' := E). vm_compute in E'. injection E' as <- <-.
  refine (rx_paths_agree false 6 17 1 2 58 4 6 1 2 4 8 16 32 _ udp_packet false slot (replicate 32 0) udp_frame 31 _
    no_stats no_stats udp_packet_ok _ _ _ _ _ _ E _ _);
    [repeat split; reflexivity|discriminate| |simpl; lia|reflexivity|simpl; lia|simpl; lia|reflexivity|simpl; lia].
  apply Forall_forall. intros x Hx. apply list_elem_of_In in Hx. simpl in Hx. unfold is_u8. intuition lia.
Defined.

(** The walk over a destination options header returns without leaving it, and
    accepts exactly the headers that are a run of pads and options that fill it to its
    last byte, none of them a home address. *)
Theorem options_plain_exact m opt bytes :
  bytes_ok m -> 0 <= opt -> 0 <= bytes < 2 ^ 31 -> opt + bytes <= len m ->
  exists b, n68k_rxv6_dstopt_plain m opt bytes = Val b /\ (b = true <-> plain_options (slice m opt bytes)).
Proof.
  intros Hm Ho Hb Hl. unfold n68k_rxv6_dstopt_plain.
  destruct (dstopt_spec (Z.to_nat bytes) m opt bytes 0) as (b & -> & E); [done|lia..|]. exists b. split; [done|].
  rewrite E, Z.add_0_r, Z.sub_0_r. split; [by intros [_ ?]|]. intros ?. split; [lia|done].
Qed.

Lemma options_plain_exact_witness :
  exists b, n68k_rxv6_dstopt_plain [1; 2; 0; 0; 0; 5; 1; 7] 0 8 = Val b /\ (b = true <-> plain_options [1; 2; 0; 0; 0; 5; 1; 7]).
Proof.
  apply (options_plain_exact [1; 2; 0; 0; 0; 5; 1; 7] 0 8); [repeat constructor; word_lia|lia|lia|simpl; lia].
Defined.
