(* ===== verification/TxCopy.v ===== *)
(** * The transmit copy hook and TCP segmentation (src/src/sana2/sana2_copy.c)

    A device takes a frame through S2_CopyFromBuff, in one call or several.  The frame
    is a packet chain as it is, a TCP segment whose checksum is filled in as it is
    copied, or one child of a block: the parent's headers patched, a slice of its
    payload, zeroes up to the Ethernet minimum.

    A packet is the list of its buffers, a pointer into a chain the buffers from there
    on, NULL the empty list.  The device's buffer is the memory from the pointer the
    call was given; a write outside it is a [Fault].  [AmiTxGso] is the block the slot
    names.  The record at the front of a packet, the flag bits and
    [_nx_ip_packet_checksum_compute] are NetX Duo's and parameters; the build has
    AMINETXDUO_TCP_GSO, AMINETXDUO_TX_BATCH, AMINETXDUO_RX_VERIFY and packet chains. *)

From Stdlib Require Import ZArith Lia.
From stdpp Require Import base numbers list.
From S2P Require Import Prelude Checksum RxVerify.
#[local] Open Scope Z_scope.

Definition have (p : NX_PACKET) : Z := u32 (nx_packet_append_ptr p - nx_packet_prepend_ptr p).

(** Bytes [off] to [off + n] of an object. *)
Definition read_bytes (m : list Z) (off n : Z) : outcome (list Z) :=
  if (0 <=? off) && (off + n <=? Z.of_nat (length m)) then Val (slice m off n) else Fault.

(** N68K_COPY_BYTES: [n] bytes at [from] to [at_] of [to]. *)
Definition ami_sana2_copy_bytes (to : list Z) (at_ : Z) (m : list Z) (from n : Z) : outcome (list Z) :=
  let! bs := read_bytes m from n in store_bytes to at_ bs.

Definition ami_sana2_tx_be16 (m : list Z) (p : Z) : outcome Z := load16 m p.

Definition ami_sana2_tx_tcp_segment (ip : list Z) (len : Z) : outcome (option (Z * Z)) :=
  if len <? 40 then Val None
  else
    let! b0 := fetch ip 0 in
    if negb (Z.land b0 0xF0 =? 0x40) then Val None
    else
      let ihl := Z.land b0 0x0F * 4 in
      if (ihl <? 20) || (len <? ihl + 20) then Val None
      else
        let! b9 := fetch ip 9 in
        if negb (b9 =? 6) then Val None
        else
          let! frag := ami_sana2_tx_be16 ip 6 in
          if negb (Z.land frag 0x3FFF =? 0) then Val None
          else
            let! total := ami_sana2_tx_be16 ip 2 in
            if (len <? total) || (total <? ihl + 20) then Val None else Val (Some (ihl, total)).

Definition fold_step (sum : Z) : Z := Z.land sum 0xFFFF +w Z.shiftr sum 16.

Definition ami_sana2_tx_pseudo_header (ip : list Z) (tcp_len : Z) : outcome Z :=
  let! a := ami_sana2_tx_be16 ip 12 in
  let! b := ami_sana2_tx_be16 ip 14 in
  let! c := ami_sana2_tx_be16 ip 16 in
  let! d := ami_sana2_tx_be16 ip 18 in
  let sum := (((a +w b) +w c) +w d) +w (6 + tcp_len) in
  Val (fold_step (fold_step sum)).

(** [while (sum >> 16)]; three rounds are more than a ULONG needs. *)
Fixpoint fold_from (fuel : nat) (sum : Z) : outcome Z :=
  if Z.shiftr sum 16 =? 0 then Val sum
  else match fuel with O => Spin | S fuel => fold_from fuel (fold_step sum) end.
Definition ami_sana2_gso_fold (sum : Z) : outcome Z := fold_from 3 sum.

(** ** Blocks *)

Definition AMI_TCP_FIN : Z := 0x01.
Definition AMI_TCP_SYN : Z := 0x02.
Definition AMI_TCP_RST : Z := 0x04.
Definition AMI_TCP_PSH : Z := 0x08.
Definition AMI_TCP_URG : Z := 0x20.
Definition AMI_TCP_CWR : Z := 0x80.
Definition AMI_SANA2_GSO_MAX_SEGS : Z := 255.
Definition AMI_SANA2_GSO_REPAIR : Z := 0x01.
Definition AMI_SANA2_GSO_TAIL : Z := 0x02.

(** The fields the copy uses; [parent], and the counts of children outstanding, lost and batched, are the
    launcher's. *)
Record AmiTxGso := TxGso {
  cur_buf : list NX_PACKET;
  cur_start : Z;
  base : Z;
  end_ : Z;
  mss : Z;
  ihl : Z;
  thl : Z;
  segs : Z;
  next_seg : Z;
  mode : Z
}.

Record AmiGsoFields := GsoFields { seq : Z; seg_len : Z; ip_len : Z; ip_id : Z; ip_sum : Z; tcp_flags : Z }.

(** The payload offset of child [seg] and the length of its slice. *)
Definition ami_sana2_gso_slice (g : AmiTxGso) (seg : Z) : Z * Z :=
  let off := base g +w (seg * mss g) in
  let len := end_ g -w off in
  (off, if mss g <? len then mss g else len).

(** The record in front of the headroom, NetX Duo's. *)
Record NX_TCP_GSO_INFO := GsoInfo { info_version : Z; info_flags : Z; info_mss : Z; info_offset : Z; info_length : Z }.

Section Parse.
Context (NX_TCP_GSO_VERSION NX_TCP_GSO_REPAIR sizeof_info : Z).

(** The record's version and flags: [None] for one that is refused, else the mode. *)
Definition gso_mode (room : Z) (info : NX_TCP_GSO_INFO) : option Z :=
  if room <? 4 then None
  else if info_mss info =? 0 then None
  else if info_version info =? 1 then if negb (info_flags info =? 0) then None else Some 0
  else if (info_version info =? NX_TCP_GSO_VERSION) && (sizeof_info <=? room) then
    if info_flags info =? NX_TCP_GSO_REPAIR then Some AMI_SANA2_GSO_REPAIR
    else if negb (info_flags info =? 0) || negb (info_offset info =? 0) || negb (info_length info =? 0) then None
    else Some 0
  else None.

(** [room] is the headroom in front of the packet's data, [length] nx_packet_length. *)
Definition ami_sana2_gso_parse (packet : list NX_PACKET) (room : Z) (info : NX_TCP_GSO_INFO) (length mtu : Z)
  : outcome (option AmiTxGso) :=
  match gso_mode room info, packet with
  | None, _ | _, [] => Val None
  | Some mode, p :: _ =>
      let ip := nx_packet_mem p in
      let first := have p in
      if first <? 40 then Val None
      else
        let! b0 := fetch ip 0 in
        if negb (Z.land b0 0xF0 =? 0x40) then Val None
        else
          let! b9 := fetch ip 9 in
          if negb (b9 =? 6) then Val None
          else
            let ihl := Z.land b0 0x0F * 4 in
            if (ihl <? 20) || (first <? ihl + 20) then Val None
            else
              let! frag := ami_sana2_tx_be16 ip 6 in
              if negb (Z.land frag 0x3FFF =? 0) then Val None
              else
                let! b12 := fetch ip (ihl + 12) in
                let thl := Z.shiftr b12 4 * 4 in
                if (thl <? 20) || (first <? ihl + thl) then Val None
                else
                  let! b13 := fetch ip (ihl + 13) in
                  if negb (Z.land b13 (Z.lor (Z.lor AMI_TCP_SYN AMI_TCP_RST) AMI_TCP_URG) =? 0) then Val None
                  else if (length <=? ihl + thl) || (0xFFFF <? length) then Val None
                  else
                    let payload := length - ihl - thl in
                    if negb (mtu =? 0) && (mtu <? ihl + thl + info_mss info) then Val None
                    else if negb (mode =? 0) then
                      let base := info_offset info in
                      let e := base +w info_length info in
                      if (info_length info =? 0) || (info_mss info <? info_length info) || (payload <? e) then Val None
                      else
                        let mode := if e =? payload then Z.lor mode AMI_SANA2_GSO_TAIL else mode in
                        Val (Some (TxGso packet (- (ihl + thl)) (u16 base) (u16 e) (info_mss info) (u8 ihl) (u8 thl) 1 0 mode))
                    else
                      let segs := (payload + info_mss info - 1) / info_mss info in
                      if AMI_SANA2_GSO_MAX_SEGS <? segs then Val None
                      else Val (Some (TxGso packet (- (ihl + thl)) 0 (u16 payload) (info_mss info) (u8 ihl) (u8 thl) (u8 segs) 0 mode))
  end.
End Parse.

(** ** The slot *)

(** [tx_cap] and [tx_length] are the head packet's capability flags and nx_packet_length; the request, the
    interface and [busy] are the launcher's. *)
Record AmiTxSlot := TxSlot {
  packet : list NX_PACKET;
  tx_cap : Z;
  tx_length : Z;
  cursor : list NX_PACKET;
  cursor_off : Z;
  consumed : Z;
  total : Z;
  hdr_len : Z;
  pad_len : Z;
  tx_flags : Z;
  gso : Z;
  seg_index : Z;
  seg_summed : bool;
  seg_sum : Z;
  seg_buf : list NX_PACKET;
  seg_buf_off : Z;
  batch_count : Z;
  batch_done : Z
}.

Definition set_cursor (cur : list NX_PACKET) (off : Z) (s : AmiTxSlot) : AmiTxSlot :=
  TxSlot (packet s) (tx_cap s) (tx_length s) cur off (consumed s) (total s) (hdr_len s) (pad_len s) (tx_flags s) (gso s)
    (seg_index s) (seg_summed s) (seg_sum s) (seg_buf s) (seg_buf_off s) (batch_count s) (batch_done s).
Definition set_consumed (n : Z) (s : AmiTxSlot) : AmiTxSlot :=
  TxSlot (packet s) (tx_cap s) (tx_length s) (cursor s) (cursor_off s) n (total s) (hdr_len s) (pad_len s) (tx_flags s) (gso s)
    (seg_index s) (seg_summed s) (seg_sum s) (seg_buf s) (seg_buf_off s) (batch_count s) (batch_done s).
Definition set_total (n : Z) (s : AmiTxSlot) : AmiTxSlot :=
  TxSlot (packet s) (tx_cap s) (tx_length s) (cursor s) (cursor_off s) (consumed s) n (hdr_len s) (pad_len s) (tx_flags s) (gso s)
    (seg_index s) (seg_summed s) (seg_sum s) (seg_buf s) (seg_buf_off s) (batch_count s) (batch_done s).
Definition set_packet (p : list NX_PACKET) (cap : Z) (s : AmiTxSlot) : AmiTxSlot :=
  TxSlot p cap (tx_length s) (cursor s) (cursor_off s) (consumed s) (total s) (hdr_len s) (pad_len s) (tx_flags s) (gso s)
    (seg_index s) (seg_summed s) (seg_sum s) (seg_buf s) (seg_buf_off s) (batch_count s) (batch_done s).
Definition set_sum (summed : bool) (sum : Z) (s : AmiTxSlot) : AmiTxSlot :=
  TxSlot (packet s) (tx_cap s) (tx_length s) (cursor s) (cursor_off s) (consumed s) (total s) (hdr_len s) (pad_len s) (tx_flags s) (gso s)
    (seg_index s) summed sum (seg_buf s) (seg_buf_off s) (batch_count s) (batch_done s).
Definition set_seg (p : list NX_PACKET) (seg : Z) (buf : list NX_PACKET) (off : Z) (s : AmiTxSlot) : AmiTxSlot :=
  TxSlot p (tx_cap s) (tx_length s) (cursor s) (cursor_off s) (consumed s) (total s) (hdr_len s) (pad_len s) (tx_flags s) (gso s)
    seg false (seg_sum s) buf off (batch_count s) (batch_done s).
Definition set_done (n : Z) (s : AmiTxSlot) : AmiTxSlot :=
  TxSlot (packet s) (tx_cap s) (tx_length s) (cursor s) (cursor_off s) (consumed s) (total s) (hdr_len s) (pad_len s) (tx_flags s) (gso s)
    (seg_index s) (seg_summed s) (seg_sum s) (seg_buf s) (seg_buf_off s) (batch_count s) n.

Definition set_next_seg (n : Z) (g : AmiTxGso) : AmiTxGso :=
  TxGso (cur_buf g) (cur_start g) (base g) (end_ g) (mss g) (ihl g) (thl g) (segs g) n (mode g).
Definition set_block_cursor (buf : list NX_PACKET) (start : Z) (g : AmiTxGso) : AmiTxGso :=
  TxGso buf start (base g) (end_ g) (mss g) (ihl g) (thl g) (segs g) (next_seg g) (mode g).

(** The buffer that holds payload offset [seg_off], and the offset of its first byte. *)
Fixpoint place_from (buf : list NX_PACKET) (seg_off start : Z) : list NX_PACKET * Z :=
  match buf with
  | [] => ([], start)
  | p :: next => if seg_off <? start + have p then (buf, start) else place_from next seg_off (start + have p)
  end.

Definition ami_sana2_gso_place (slot : AmiTxSlot) (g : AmiTxGso) (parent : list NX_PACKET) (seg : Z)
  : AmiTxSlot * AmiTxGso * Z :=
  let seg_index := u8 seg in
  let '(seg_off, seg_len) := ami_sana2_gso_slice g seg_index in
  let g := if match cur_buf g with [] => true | _ => false end || (seg_off <? cur_start g)
           then set_block_cursor parent (- (ihl g + thl g)) g else g in
  let '(buf, start) := place_from (cur_buf g) seg_off (cur_start g) in
  let g := match buf with [] => g | _ => set_block_cursor buf start g end in
  let off := match buf with [] => 0 | _ => seg_off - start end in
  (set_seg parent seg_index buf off slot, g, ihl g + thl g + seg_len).

Definition ami_sana2_gso_prepare (slot : AmiTxSlot) (g : AmiTxGso) (parent : list NX_PACKET) : AmiTxSlot * AmiTxGso * Z :=
  ami_sana2_gso_place slot (set_next_seg (u8 (next_seg g + 1)) g) parent (next_seg g).

(** [ethernet]: the interface is one. *)
Definition ami_sana2_gso_frame_len (ethernet : bool) (AMI_ETH_MIN_FRAME AMI_ETH_HEADER_SIZE : Z) (g : AmiTxGso) (seg : Z) : Z :=
  let '(_, seg_len) := ami_sana2_gso_slice g seg in
  let len := ihl g + thl g + seg_len in
  if ethernet && (len <? AMI_ETH_MIN_FRAME - AMI_ETH_HEADER_SIZE) then AMI_ETH_MIN_FRAME - AMI_ETH_HEADER_SIZE else len.

(** ** A child's headers *)

(** [~x] of a sixteen-bit word *)
Definition not16 (x : Z) : Z := Z.land (Z.lnot x) 0xFFFF.
Definition clear8 (x bits : Z) : Z := Z.land x (u8 (Z.lnot bits)).

Definition child_flags (g : AmiTxGso) (seg flags : Z) : Z :=
  if negb (Z.land (mode g) AMI_SANA2_GSO_REPAIR =? 0) then
    let flags := clear8 flags (Z.lor AMI_TCP_FIN AMI_TCP_CWR) in
    if Z.land (mode g) AMI_SANA2_GSO_TAIL =? 0 then clear8 flags AMI_TCP_PSH else flags
  else
    let flags := if seg + 1 <? segs g then clear8 flags (Z.lor AMI_TCP_FIN AMI_TCP_PSH) else flags in
    if negb (seg =? 0) then clear8 flags AMI_TCP_CWR else flags.

Definition ami_sana2_gso_fields (g : AmiTxGso) (seg : Z) (ip : list Z) : outcome AmiGsoFields :=
  let '(seg_off, seg_len) := ami_sana2_gso_slice g seg in
  let! old_len := ami_sana2_tx_be16 ip 2 in
  let! old_id := ami_sana2_tx_be16 ip 4 in
  let! flags := fetch ip (ihl g + 13) in
  let ip_len := u16 (ihl g + thl g + seg_len) in
  let ip_id := u16 (old_id + seg) in
  let! hc := ami_sana2_tx_be16 ip 10 in
  let sum := (not16 hc +w (not16 old_len + ip_len)) +w (not16 old_id + ip_id) in
  let! folded := ami_sana2_gso_fold sum in
  let! hi := ami_sana2_tx_be16 ip (ihl g + 4) in
  let! lo := ami_sana2_tx_be16 ip (ihl g + 6) in
  let seq := Z.lor (Z.shiftl hi 16) lo +w seg_off in
  Val (GsoFields seq seg_len ip_len ip_id (not16 folded) (child_flags g seg flags)).

(** A store of a byte, and of words most significant byte first. *)
Definition put8 (out : list Z) (at_ value : Z) : outcome (list Z) := store8 out at_ (u8 value).
Definition ami_sana2_gso_put16 (out : list Z) (at_ value : Z) : outcome (list Z) :=
  let! out := put8 out at_ (Z.shiftr value 8) in put8 out (at_ + 1) value.
Definition ami_sana2_gso_put32 (out : list Z) (at_ value : Z) : outcome (list Z) :=
  let! out := ami_sana2_gso_put16 out at_ (Z.shiftr value 16) in ami_sana2_gso_put16 out (at_ + 2) value.
Definition ami_sana2_gso_poke (out : list Z) (from to at_ value : Z) : outcome (list Z) :=
  if (from <=? at_) && (at_ <? to) then put8 out (at_ - from) value else Val out.

(** [oaddr] is the address of [out]. *)
Definition ami_sana2_gso_emit (g : AmiTxGso) (ip : list Z) (f : AmiGsoFields) (tcp_sum : Z) (out : list Z) (oaddr from to : Z)
  : outcome (list Z) :=
  let t := ihl g in
  let! out := ami_sana2_copy_bytes out 0 ip from (to - from) in
  if (from =? 0) && (t + 18 <=? to) && (Z.land oaddr 1 =? 0) then
    let! out := ami_sana2_gso_put16 out 2 (ip_len f) in
    let! out := ami_sana2_gso_put16 out 4 (ip_id f) in
    let! out := ami_sana2_gso_put16 out 10 (ip_sum f) in
    let! out :=
      (if Z.land (oaddr + t + 4) 3 =? 0 then ami_sana2_gso_put32 out (t + 4) (seq f)
       else
         let! out := ami_sana2_gso_put16 out (t + 4) (Z.shiftr (seq f) 16) in
         ami_sana2_gso_put16 out (t + 6) (seq f)) in
    let! out := put8 out (t + 13) (tcp_flags f) in
    ami_sana2_gso_put16 out (t + 16) tcp_sum
  else
    let! out := ami_sana2_gso_poke out from to 2 (Z.shiftr (ip_len f) 8) in
    let! out := ami_sana2_gso_poke out from to 3 (ip_len f) in
    let! out := ami_sana2_gso_poke out from to 4 (Z.shiftr (ip_id f) 8) in
    let! out := ami_sana2_gso_poke out from to 5 (ip_id f) in
    let! out := ami_sana2_gso_poke out from to 10 (Z.shiftr (ip_sum f) 8) in
    let! out := ami_sana2_gso_poke out from to 11 (ip_sum f) in
    let! out := ami_sana2_gso_poke out from to (t + 4) (Z.shiftr (seq f) 24) in
    let! out := ami_sana2_gso_poke out from to (t + 5) (Z.shiftr (seq f) 16) in
    let! out := ami_sana2_gso_poke out from to (t + 6) (Z.shiftr (seq f) 8) in
    let! out := ami_sana2_gso_poke out from to (t + 7) (seq f) in
    let! out := ami_sana2_gso_poke out from to (t + 13) (tcp_flags f) in
    let! out := ami_sana2_gso_poke out from to (t + 16) (Z.shiftr tcp_sum 8) in
    ami_sana2_gso_poke out from to (t + 17) tcp_sum.

(** ** A child's payload *)

(** The bytes after the longwords, from [i]: copied if there is a destination, added
    with the carry brought around. *)
Fixpoint sum_tail (n : nat) (to : option (list Z)) (at_ : Z) (m : list Z) (from i sum : Z) : outcome (option (list Z) * Z) :=
  match n with
  | O => Val (to, sum)
  | S n =>
      let! b := fetch m (from + i) in
      let v := if negb (Z.land i 1 =? 0) then b else Z.shiftl b 8 in
      let! to := match to with
                 | Some to => let! to := store8 to (at_ + i) b in Val (Some to)
                 | None => Val None
                 end in
      sum_tail n to at_ m from (i + 1) (add_carry sum v)
  end.

Definition swap16 (s : Z) : Z := Z.land (Z.lor (Z.shiftl s 8) (Z.shiftr s 8)) 0xFFFF.

(** [words] longwords from [from] on, summed. *)
Definition sum_longs_at (m : list Z) (from words : Z) : outcome Z := sum_longs (Z.to_nat words) m from 0.

(** The same, copied to [at_] of [to] as well. *)
Definition copy_sum_at (to : list Z) (at_ : Z) (m : list Z) (from words : Z) : outcome (list Z * Z) :=
  let! bs := read_bytes m from (4 * words) in
  let! to := store_bytes to at_ bs in
  let! sum := sum_longs_at m from words in
  Val (to, sum).

(** [to] and the offset in it; [taddr] and [faddr] are the addresses. *)
Definition ami_sana2_gso_copy_sum (to : option (list Z)) (at_ taddr : Z) (m : list Z) (from faddr len : Z)
  : outcome (option (list Z) * Z) :=
  match to with
  | None =>
      let odd := negb (Z.land faddr 1 =? 0) && negb (len =? 0) in
      let! lead := (if odd then let! b := fetch m from in Val (Z.shiftl b 8) else Val 0) in
      let from := if odd then from + 1 else from in
      let len := if odd then len - 1 else len in
      let words := Z.shiftr len 2 in
      let! sum := (if negb (words =? 0) then sum_longs_at m from words else Val 0) in
      let i := Z.shiftl words 2 in
      let! (_, sum) := sum_tail (Z.to_nat (len - i)) None 0 m from i sum in
      let! sum := ami_sana2_gso_fold sum in
      if odd then let! sum := ami_sana2_gso_fold (lead +w swap16 sum) in Val (None, sum) else Val (None, sum)
  | Some to =>
      let! (to, sum, i) :=
        (if (Z.land taddr 1 =? 0) && (Z.land faddr 1 =? 0) then
           let words := Z.shiftr len 2 in
           let! (to, sum) := copy_sum_at to at_ m from words in
           Val (to, sum, Z.shiftl words 2)
         else Val (to, 0, 0)) in
      let! (to, sum) := sum_tail (Z.to_nat (len - i)) (Some to) at_ m from i sum in
      let! sum := ami_sana2_gso_fold sum in
      Val (to, sum)
  end.

(** [len] bytes from the cursor, to [at_] of [to] and, if [summing], into the sum: success, the cursor, the
    destination and the sum.  Every round moves to the next buffer or ends in this one. *)
Fixpoint gso_walk_from (fuel : nat) (cur : list NX_PACKET) (off : Z) (to : option (list Z)) (oaddr at_ len : Z)
    (summing : bool) (at16 acc : Z) : outcome (bool * list NX_PACKET * Z * option (list Z) * Z) :=
  if len =? 0 then Val (true, cur, off, to, acc)
  else
    match cur with
    | [] => Val (false, cur, off, to, acc)
    | p :: next =>
        match fuel with
        | O => Spin
        | S fuel =>
            if have p <=? off then gso_walk_from fuel next 0 to oaddr at_ len summing at16 acc
            else
              let take := if len <? have p - off then len else have p - off in
              let! (to, acc) :=
                (if summing then
                   let! (to, s) := ami_sana2_gso_copy_sum to at_ (oaddr + at_) (nx_packet_mem p) off (nx_packet_prepend_ptr p + off) take in
                   let s := if negb (Z.land at16 1 =? 0) then swap16 s else s in
                   Val (to, acc +w s)
                 else
                   match to with
                   | Some to => let! to := ami_sana2_copy_bytes to at_ (nx_packet_mem p) off take in Val (Some to, acc)
                   | None => Fault
                   end) in
              gso_walk_from fuel cur (off + take) to oaddr (at_ + take) (len - take) summing (at16 + take) acc
        end
    end.

(** Two rounds a buffer are enough. *)
Definition ami_sana2_gso_walk (cur : list NX_PACKET) (off : Z) (to : option (list Z)) (oaddr at_ len : Z) (summing : bool)
  : outcome (bool * list NX_PACKET * Z * option (list Z) * Z) :=
  gso_walk_from (2 * length cur) cur off to oaddr at_ len summing 0 0.

(** [for (i = 0; i < g->thl; i += 2)], [n] words to go. *)
Fixpoint finish_from (n : nat) (g : AmiTxGso) (ip : list Z) (f : AmiGsoFields) (i sum : Z) : outcome Z :=
  match n with
  | O => Val sum
  | S n =>
      let! w :=
        (if i =? 4 then Val (Z.shiftr (seq f) 16)
         else if i =? 6 then Val (Z.land (seq f) 0xFFFF)
         else if i =? 12 then let! b := fetch ip (ihl g + 12) in Val (Z.lor (Z.shiftl b 8) (tcp_flags f))
         else if negb (i =? 16) then ami_sana2_tx_be16 ip (ihl g + i)
         else Val 0) in
      finish_from n g ip f (i + 2) (sum +w w)
  end.

Definition ami_sana2_gso_finish (g : AmiTxGso) (ip : list Z) (f : AmiGsoFields) (payload_sum : Z) : outcome Z :=
  let! sum := ami_sana2_gso_fold payload_sum in
  let! sum := finish_from (Z.to_nat ((thl g + 1) / 2)) g ip f 0 sum in
  let! ph := ami_sana2_tx_pseudo_header ip (thl g + seg_len f) in
  let! folded := ami_sana2_gso_fold (sum +w ph) in
  let sum := not16 folded in
  Val (if sum =? 0 then 0xFFFF else sum).

Section Tx.
Context (ANXD_S2_TXF_TCP NX_INTERFACE_CAPABILITY_TCP_TX_CHECKSUM : Z).
Context (ethernet : bool) (AMI_ETH_MIN_FRAME AMI_ETH_HEADER_SIZE : Z).
(** The stack's own checksum of a packet with these flags and this length: the packet and its flags
    afterwards. *)
Context (_nx_ip_packet_checksum_compute : list NX_PACKET -> Z -> Z -> list NX_PACKET * Z).

(** The checksum, or [None] when the chain ends first. *)
Definition ami_sana2_gso_tcp_field (slot : AmiTxSlot) (g : AmiTxGso) (ip : list Z) (f : AmiGsoFields)
  : outcome (option Z * AmiTxSlot) :=
  if negb (Z.land (tx_flags slot) ANXD_S2_TXF_TCP =? 0) then
    let! ph := ami_sana2_tx_pseudo_header ip (thl g + seg_len f) in Val (Some ph, slot)
  else if negb (seg_summed slot) then
    let! (ok, _, _, _, sum) := ami_sana2_gso_walk (seg_buf slot) (seg_buf_off slot) None 0 0 (seg_len f) true in
    if negb ok then Val (None, slot)
    else
      let! c := ami_sana2_gso_finish g ip f sum in
      let slot := set_sum true (u16 c) slot in
      Val (Some (seg_sum slot), slot)
  else Val (Some (seg_sum slot), slot).

Definition first_mem (packet : list NX_PACKET) : list Z :=
  match packet with p :: _ => nx_packet_mem p | [] => [] end.

(** The header of the child in the slot, into [out]; the answer is its length. *)
Definition ami_sana2_gso_header (slot : AmiTxSlot) (g : AmiTxGso) (out : list Z) (oaddr : Z)
  : outcome (Z * list Z * AmiTxSlot) :=
  let ip := first_mem (packet slot) in
  let hlen := ihl g + thl g in
  let! f := ami_sana2_gso_fields g (seg_index slot) ip in
  let! (csum, slot) := ami_sana2_gso_tcp_field slot g ip f in
  let! out := ami_sana2_gso_emit g ip f (match csum with Some c => c | None => 0 end) out oaddr 0 hlen in
  Val (hlen, out, slot).

(** [n] zeroes at [at_]. *)
Definition zero_fill (out : list Z) (at_ n : Z) : outcome (list Z) := store_bytes out at_ (replicate (Z.to_nat n) 0).

(** A call the cursor cannot satisfy starts over. *)
Definition rewind (slot : AmiTxSlot) (buf : list NX_PACKET) (off len : Z) : AmiTxSlot :=
  if match cursor slot with [] => true | _ => false end || (total slot <=? consumed slot) || (total slot - consumed slot <? len)
  then set_consumed 0 (set_cursor buf off slot) else slot.

(** The whole frame in one call. *)
Definition gso_copy_whole (slot : AmiTxSlot) (g : AmiTxGso) (ip : list Z) (f : AmiGsoFields) (out : list Z) (oaddr len : Z)
  : outcome (bool * list Z * AmiTxSlot) :=
  let hlen := ihl g + thl g in
  let data_end := hlen + seg_len f in
  let! out := ami_sana2_gso_emit g ip f 0 out oaddr 0 hlen in
  let! (ok, cur, off, out, sum) := ami_sana2_gso_walk (cursor slot) (cursor_off slot) (Some out) oaddr hlen (seg_len f) true in
  let out := match out with Some out => out | None => [] end in
  let slot := set_cursor cur off slot in
  if negb ok then Val (false, out, slot)
  else
    let! out := zero_fill out data_end (len - data_end) in
    let! csum := ami_sana2_gso_finish g ip f sum in
    let! out := put8 out (ihl g + 16) (Z.shiftr csum 8) in
    let! out := put8 out (ihl g + 17) csum in
    Val (true, out, set_consumed len slot).

(** A piece of it, from [consumed] on. *)
Definition gso_copy_piece (slot : AmiTxSlot) (g : AmiTxGso) (ip : list Z) (f : AmiGsoFields) (out : list Z) (oaddr len : Z)
  : outcome (bool * list Z * AmiTxSlot) :=
  let hlen := ihl g + thl g in
  let data_end := hlen + seg_len f in
  let! (csum, slot) := ami_sana2_gso_tcp_field slot g ip f in
  match csum with
  | None => Val (false, out, slot)
  | Some csum =>
      let pos := consumed slot in
      let n := if negb (len =? 0) && (pos <? hlen) then if len <? hlen - pos then len else hlen - pos else 0 in
      let! out := (if n =? 0 then Val out else ami_sana2_gso_emit g ip f csum out oaddr pos (pos + n)) in
      let at_ := n in
      let len := len - n in
      let pos := pos + n in
      let n := if negb (len =? 0) && (pos <? data_end) then if len <? data_end - pos then len else data_end - pos else 0 in
      let! (ok, cur, off, out, _) :=
        (if n =? 0 then Val (true, cursor slot, cursor_off slot, Some out, 0)
         else ami_sana2_gso_walk (cursor slot) (cursor_off slot) (Some out) oaddr at_ n false) in
      let out := match out with Some out => out | None => [] end in
      let slot := set_cursor cur off slot in
      if negb ok then Val (false, out, set_consumed pos slot)
      else
        let at_ := at_ + n in
        let len := len - n in
        let pos := pos + n in
        let! out := zero_fill out at_ len in
        Val (true, out, set_consumed (pos + len) slot)
  end.

Definition ami_sana2_gso_copy (slot : AmiTxSlot) (g : AmiTxGso) (out : list Z) (oaddr len : Z)
  : outcome (bool * list Z * AmiTxSlot) :=
  let ip := first_mem (packet slot) in
  let slot := rewind slot (seg_buf slot) (seg_buf_off slot) len in
  match seg_buf slot with
  | [] => Val (false, out, slot)
  | _ =>
      let! f := ami_sana2_gso_fields g (seg_index slot) ip in
      if (Z.land (tx_flags slot) ANXD_S2_TXF_TCP =? 0) && (consumed slot =? 0) && (len =? total slot) && negb (seg_summed slot)
      then gso_copy_whole slot g ip f out oaddr len
      else gso_copy_piece slot g ip f out oaddr len
  end.

(** ** Batches *)

Record AnxdS2TxBatchInfo := BatchInfo { Count : Z; SegLen : Z; LastLen : Z; Reserved : Z }.

Definition frame_len (g : AmiTxGso) (seg : Z) : Z := ami_sana2_gso_frame_len ethernet AMI_ETH_MIN_FRAME AMI_ETH_HEADER_SIZE g seg.

(** The count, and what is stored in the caller's record; [None] leaves it alone. *)
Definition ami_sana2_tx_batch (slot : AmiTxSlot) (g : AmiTxGso) : Z * option AnxdS2TxBatchInfo :=
  if (batch_count slot =? 0) || (gso slot =? 0) then (0, None)
  else (batch_count slot,
        Some (BatchInfo (batch_count slot) (u16 (frame_len g 0)) (u16 (frame_len g (u16 (batch_count slot - 1)))) 0)).

Definition ami_sana2_tx_child (slot : AmiTxSlot) (g : AmiTxGso) (index : Z) (out : list Z) (oaddr len : Z)
  : outcome (bool * list Z * AmiTxSlot * AmiTxGso) :=
  if (batch_count slot =? 0) || (gso slot =? 0) || match packet slot with [] => true | _ => false end || (batch_count slot <=? index)
  then Val (false, out, slot, g)
  else if negb (len =? frame_len g (u16 index)) then Val (false, out, slot, g)
  else
    let '(slot, g, _) :=
      if negb (index =? seg_index slot) then ami_sana2_gso_place slot g (packet slot) (u16 index) else (slot, g, 0) in
    let slot := set_cursor [] (cursor_off slot) (set_total len slot) in
    let! (ok, out, slot) := ami_sana2_gso_copy slot g out oaddr len in
    Val (ok, out, slot, g).

Definition ami_sana2_tx_posted (slot : AmiTxSlot) (count : Z) : AmiTxSlot :=
  if batch_count slot =? 0 then slot
  else set_done (u8 (if count <? batch_count slot then count else batch_count slot)) slot.

(** ** The ordinary write *)

Definition set_mem (p : NX_PACKET) (m : list Z) : NX_PACKET :=
  {| nx_packet_prepend_ptr := nx_packet_prepend_ptr p; nx_packet_append_ptr := nx_packet_append_ptr p; nx_packet_mem := m |}.

(** The sum of a segment that is copied to [at_] of [out]: the even or the odd form. *)
Definition copy_sum_segment (odd : bool) (out : list Z) (at_ : Z) (m : list Z) (from n : Z) : outcome (list Z * Z) :=
  let! src := read_bytes m from n in
  let! dst := read_bytes out at_ n in
  let! (dst, sum) := ami_sana2_copy_sum odd dst src n in
  let! out := store_bytes out at_ dst in
  Val (out, sum).

(** [None] for a frame it does not take. *)
Definition ami_sana2_tx_fuse_checksum (slot : AmiTxSlot) (out : list Z) (oaddr len : Z)
  : outcome (option (list Z * AmiTxSlot)) :=
  if negb (hdr_len slot =? 0) then Val None
  else if negb (len =? total slot) then Val None
  else
    match packet slot with
    | [p] =>
        let ip := nx_packet_mem p in
        let! shape := ami_sana2_tx_tcp_segment ip len in
        match shape with
        | None => Val None
        | Some (ihl, total) =>
            let tcp_len := total - ihl in
            let odd := negb (Z.land (Z.lor (oaddr + ihl) (nx_packet_prepend_ptr p + ihl)) 1 =? 0) in
            let! out := ami_sana2_copy_bytes out 0 ip 0 ihl in
            let! (out, sum) := copy_sum_segment odd out ihl ip ihl tcp_len in
            let! out := (if total <? len then ami_sana2_copy_bytes out total ip total (len - total) else Val out) in
            let! sum := ami_sana2_gso_fold sum in
            let! ph := ami_sana2_tx_pseudo_header ip tcp_len in
            let! sum := ami_sana2_gso_fold (sum +w ph) in
            let sum := not16 sum in
            let sum := if sum =? 0 then 0xFFFF else sum in
            let! out := ami_sana2_gso_put16 out (ihl + 16) sum in
            let! ip := ami_sana2_gso_put16 ip (ihl + 16) sum in
            let packet := [set_mem p ip] in
            Val (Some (out, set_consumed len (set_cursor packet len (set_packet packet (tx_cap slot) slot))))
        end
    | _ => Val None
    end.

(** The card finishes the sum: the packet and its flags afterwards, [None] for a frame
    left as it was. *)
Definition ami_sana2_tx_pseudo_sum (pkt : list NX_PACKET) (cap len : Z) : outcome (option (list NX_PACKET * Z)) :=
  match pkt with
  | [] => Val None
  | p :: next =>
      let ip := nx_packet_mem p in
      let! shape := ami_sana2_tx_tcp_segment ip len in
      match shape with
      | None => Val None
      | Some (ihl, total) =>
          if negb (total =? len) then Val None
          else if have p <? ihl + 20 then Val None
          else
            let! sum := ami_sana2_tx_pseudo_header ip (total - ihl) in
            let! ip := ami_sana2_gso_put16 ip (ihl + 16) sum in
            Val (Some (set_mem p ip :: next, Z.land cap (u32 (Z.lnot NX_INTERFACE_CAPABILITY_TCP_TX_CHECKSUM))))
      end
  end.

Definition tx_checksum_due (slot : AmiTxSlot) : bool :=
  (consumed slot =? 0) && negb (Z.land (tx_cap slot) NX_INTERFACE_CAPABILITY_TCP_TX_CHECKSUM =? 0).

(** The walk: every piece copied is added to [consumed], also when the chain ends first.
    The length still wanted is the answer. *)
Fixpoint copy_walk (fuel : nat) (slot : AmiTxSlot) (cur : list NX_PACKET) (off : Z) (out : list Z) (at_ len : Z)
  : outcome (Z * list Z * AmiTxSlot) :=
  if len =? 0 then Val (len, out, set_cursor cur off slot)
  else
    match cur with
    | [] => Val (len, out, set_cursor cur off slot)
    | p :: next =>
        match fuel with
        | O => Spin
        | S fuel =>
            if have p <=? off then copy_walk fuel slot next 0 out at_ len
            else
              let take := have p - off in
              let take := if len <? take then len else take in
              let! out := ami_sana2_copy_bytes out at_ (nx_packet_mem p) off take in
              copy_walk fuel (set_consumed (consumed slot +w take) slot) cur (off + take) out (at_ + take) (len - take)
        end
    end.

(** [out] is at address [oaddr].  The packet's checksum is written through [slot->packet], so the
    cursor, which points into the same chain, sees it. *)
Definition ami_sana2_copy_from_buff (slot : AmiTxSlot) (g : AmiTxGso) (out : list Z) (oaddr len : Z)
  : outcome (bool * list Z * AmiTxSlot) :=
  match packet slot with
  | [] => Val (false, out, slot)
  | _ =>
      if total slot <? len then Val (false, out, slot)
      else if negb (gso slot =? 0) then ami_sana2_gso_copy slot g out oaddr len
      else
        let slot := rewind slot (packet slot) 0 len in
        let! fused := (if tx_checksum_due slot then ami_sana2_tx_fuse_checksum slot out oaddr len else Val None) in
        match fused with
        | Some (out, slot) =>
            Val (true, out, set_packet (packet slot) (Z.land (tx_cap slot) (u32 (Z.lnot NX_INTERFACE_CAPABILITY_TCP_TX_CHECKSUM))) slot)
        | None =>
            let slot :=
              if tx_checksum_due slot then
                let '(p, cap) := _nx_ip_packet_checksum_compute (packet slot) (tx_cap slot) (tx_length slot -w pad_len slot) in
                set_cursor (drop (length p - length (cursor slot)) p) (cursor_off slot) (set_packet p cap slot)
              else slot in
            let! (wanted, out, slot) := copy_walk (2 * length (cursor slot)) slot (cursor slot) (cursor_off slot) out 0 len in
            Val (wanted =? 0, out, slot)
        end
  end.
End Tx.

(** ** The direct pair *)

(** What a receive slot has besides [AmiRxSlot]: the header mark, the interface's [link_hdr_ok] and the counters
    rx_copy_hook, rx_direct_fill and rx_copy_summed, none when the slot has no statistics. *)
Record AmiRxFill := RxFill {
  fill_slot : AmiRxSlot;
  fill_hdr_written : bool;
  fill_link_hdr_ok : bool;
  fill_stats : option (Z * Z * Z)
}.

(** Where the payload would land; [None] declines. *)
Definition ami_sana2_rx_direct (slot : AmiRxSlot) (len : Z) : option (list Z) :=
  match slot_dst slot with
  | None => None
  | Some dst => if slot_capacity slot <? len then None else Some dst
  end.

Definition ami_sana2_rx_filled (ANXD_S2_RXF_SUMMED : Z) (f : AmiRxFill) (len sum flags : Z) : AmiRxFill :=
  let summed := negb (Z.land flags ANXD_S2_RXF_SUMMED =? 0) in
  let slot := fill_slot f in
  RxFill (RxSlot (slot_dst slot) (slot_capacity slot) sum summed flags len)
    (if fill_link_hdr_ok f then true else fill_hdr_written f)
    (fill_link_hdr_ok f)
    (match fill_stats f with
     | None => None
     | Some (hook, direct, nsum) => Some (hook +w 1, direct +w 1, if summed then nsum +w 1 else nsum)
     end).
