(* ===== verification/TxSum.v ===== *)
(** * The transmit copy: runs, sums and walks (src/src/sana2/sana2_copy.c)

    A sum that starts at an odd offset is the byte-swapped one, the walk over a chain
    copies the next bytes of its data, and its sum is that of the bytes. *)

From Stdlib Require Import ZArith Lia.
From stdpp Require Import base numbers list.
From S2P Require Import Prelude Checksum RxVerify RxSpec RxClaims TxCopy.
#[local] Open Scope Z_scope.

Local Abbreviation len m := (Z.of_nat (length m)).

(** ** Folds and swaps *)

Lemma fold_step_eq s : fold_step s = Z.shiftr s 16 +w Z.land s 0xFFFF.
Proof. unfold fold_step. by rewrite Z.add_comm. Qed.

Lemma fold_step_small s : 0 <= s < 65536 -> fold_step s = s.
Proof.
  intros Hs. unfold fold_step. rewrite (Z.land_ones _ 16), Z.shiftr_div_pow2 by lia. word_lia.
Qed.

Lemma gso_fold_spec s : is_u32 s -> ami_sana2_gso_fold s = Val (oc16 s).
Proof.
  intros Hs. rewrite <- fold_oc16 by done. unfold n68k_fold. rewrite <- !fold_step_eq.
  assert (S1 : 0 <= fold_step s < 131071).
  { unfold fold_step. rewrite (Z.land_ones _ 16), Z.shiftr_div_pow2 by lia. word_lia. }
  assert (S2 : 0 <= fold_step (fold_step s) < 65536).
  { revert S1. generalize (fold_step s). intros x Hx. unfold fold_step. rewrite (Z.land_ones _ 16), Z.shiftr_div_pow2 by lia.
    rewrite u32_small by word_lia. word_lia. }
  assert (Z16 : forall x, 0 <= x -> (Z.shiftr x 16 =? 0) = (x <? 65536)).
  { intros x Hx. rewrite Z.shiftr_div_pow2 by lia. destruct (Z.eqb_spec (x / 2 ^ 16) 0), (Z.ltb_spec x 65536); try done; exfalso; word_lia. }
  unfold ami_sana2_gso_fold. cbn [fold_from]. rewrite !Z16 by (lia || exact (proj1 Hs)).
  destruct (Z.ltb_spec s 65536); [by rewrite !(fold_step_small s) by (unfold is_u32 in Hs; lia)|].
  destruct (Z.ltb_spec (fold_step s) 65536); [by rewrite (fold_step_small (fold_step s)) by lia|].
  by rewrite (proj2 (Z.ltb_lt _ _)) by lia.
Qed.

Lemma oc16_mod a : 0 <= a -> oc16 a mod 65535 = a mod 65535.
Proof. intros Ha. by destruct (oc16_oc a Ha) as (_ & _ & ? & _). Qed.

Lemma swap16_val s : 0 <= s <= 65535 -> swap16 s = s mod 256 * 256 + s / 256.
Proof.
  intros Hs. unfold swap16. rewrite Z.shiftr_div_pow2 by lia. change (2 ^ 8) with 256.
  rewrite lor_shift8 by word_lia. change 0xFFFF with (Z.ones 16). rewrite Z.land_ones by lia. word_lia.
Qed.

(** ** Sums from an odd offset *)

(** The sum of a run as part of a text: a run at an odd offset starts in the low half
    of a word. *)
Definition sum_at (odd : bool) (l : list Z) : Z := sum16 (if odd then 0 :: l else l).

Lemma sum16_cons b l : sum16 (b :: l) = b * 256 + sum_at true l.
Proof. unfold sum_at. destruct l as [|c l]; [simpl; lia|]. cbn [sum16]. lia. Qed.

Lemma sum_at_cons odd b l : sum_at odd (b :: l) = (if odd then b else b * 256) + sum_at (negb odd) l.
Proof. destruct odd; [unfold sum_at at 1; cbn [sum16 negb]; unfold sum_at; lia|]. exact (sum16_cons b l). Qed.

Lemma sum_at_nonneg odd l : bytes_ok l -> 0 <= sum_at odd l.
Proof. intros Hl. apply sum16_nonneg. destruct odd; [|done]. constructor; [word_lia|done]. Qed.

Lemma sum_at_app odd a b : sum_at odd (a ++ b) = sum_at odd a + sum_at (xorb odd (Z.odd (len a))) b.
Proof.
  revert odd. induction a as [|x a IH]; intros odd; [by destruct odd; unfold sum_at; simpl|].
  rewrite <- app_comm_cons, !sum_at_cons, IH. cbn [length]. rewrite Nat2Z.inj_succ, Z.odd_succ, <- Z.negb_odd.
  replace (xorb odd (negb _)) with (xorb (negb odd) (Z.odd (len a))) by by destruct odd, (Z.odd (len a)). lia.
Qed.

Lemma sum16_app_at a b : sum16 (a ++ b) = sum16 a + sum_at (Z.odd (len a)) b.
Proof. exact (sum_at_app false a b). Qed.

Lemma sum_at_bound odd l : bytes_ok l -> 0 <= sum_at odd l <= 65535 * len l.
Proof.
  intros Hl. revert odd. induction Hl as [|b l Hb Hl IH]; intros odd; [by destruct odd|].
  rewrite sum_at_cons. specialize (IH (negb odd)). cbn [length]. rewrite Nat2Z.inj_succ. unfold is_u8 in Hb. destruct odd; lia.
Qed.

Lemma sum16_bound l : bytes_ok l -> 0 <= sum16 l <= 65535 * len l.
Proof. exact (sum_at_bound false l). Qed.

(** A byte further on is 256 times as much. *)
Lemma sum_at_shift odd l : bytes_ok l ->
  (256 * sum_at odd l) mod 65535 = sum_at (negb odd) l mod 65535 /\ (sum_at odd l = 0 <-> sum_at (negb odd) l = 0).
Proof.
  intros Hl. revert odd. induction Hl as [|b l Hb Hl IH]; intros odd; [by destruct odd|].
  rewrite !sum_at_cons, negb_involutive. destruct (IH (negb odd)) as [E Hz]. rewrite negb_involutive in *.
  pose proof (sum_at_nonneg odd l Hl). pose proof (sum_at_nonneg (negb odd) l Hl).
  split; [|destruct odd; simpl in *; unfold is_u8 in Hb; lia].
  rewrite Z.mul_add_distr_l, Z.add_mod, E, <- Z.add_mod by lia. destruct odd; simpl.
  - f_equal. lia.
  - replace (256 * (b * 256) + sum_at false l) with (b + sum_at false l + b * 65535) by lia. by rewrite Z.mod_add by lia.
Qed.

Lemma swap16_oc s odd l :
  bytes_ok l -> 0 <= s <= 65535 -> oc_eq s (sum_at odd l) -> oc_eq (swap16 s) (sum_at (negb odd) l) /\ 0 <= swap16 s <= 65535.
Proof.
  intros Hl Hs (_ & _ & E & Hz). rewrite swap16_val by done. destruct (sum_at_shift odd l Hl) as [E2 Hz2].
  pose proof (sum_at_nonneg (negb odd) l Hl). split; [|word_lia]. split_and!; [word_lia|done| |].
  - rewrite <- E2, Z.mul_mod, <- E, <- Z.mul_mod by lia.
    replace (256 * s) with (s mod 256 * 256 + s / 256 + s / 256 * 65535) by word_lia. by rewrite Z.mod_add by lia.
  - rewrite <- Hz2, <- Hz. split; [|intros ->; done]. word_lia.
Qed.

(** ** One run *)

Lemma slice_more {A} (m : list A) i n k : 0 <= i -> 0 <= n -> 0 <= k -> slice m i (n + k) = slice m i n ++ slice m (i + n) k.
Proof.
  intros Hi Hn Hk. unfold slice. replace (Z.to_nat (i + n)) with (Z.to_nat i + Z.to_nat n)%nat by lia.
  rewrite <- drop_drop, take_take_drop. f_equal. lia.
Qed.

Lemma bytes_slice m i n : bytes_ok m -> bytes_ok (slice m i n).
Proof. intros Hm. unfold slice. by apply bytes_take, bytes_drop. Qed.

Lemma splice_empty {A} (to : list A) i : splice to i [] = to.
Proof. unfold splice. simpl. by rewrite Nat.add_0_r, take_drop. Qed.

Lemma store8_splice to i b : 0 <= i < len to -> store8 to i b = Val (splice to i [b]).
Proof.
  intros Hi. unfold store8. rewrite (proj2 (Z.leb_le _ _)), (proj2 (Z.ltb_lt _ _)) by lia. simpl. f_equal.
  unfold splice. rewrite insert_take_drop by lia. simpl. by rewrite Nat.add_1_r.
Qed.

Lemma read_bytes_val m i n : 0 <= i -> i + n <= len m -> read_bytes m i n = Val (slice m i n).
Proof. intros Hi Hl. unfold read_bytes. by rewrite (proj2 (Z.leb_le _ _)), (proj2 (Z.leb_le _ _)) by lia. Qed.

Lemma store_bytes_val to i bs : 0 <= i -> i + len bs <= len to -> store_bytes to i bs = Val (splice to i bs).
Proof. intros Hi Hl. unfold store_bytes. by rewrite (proj2 (Z.leb_le _ _)), (proj2 (Z.leb_le _ _)) by lia. Qed.

Lemma copy_bytes_val to i m j n :
  0 <= i -> 0 <= j -> 0 <= n -> j + n <= len m -> i + n <= len to -> ami_sana2_copy_bytes to i m j n = Val (splice to i (slice m j n)).
Proof.
  intros Hi Hj Hn Hm Ht. unfold ami_sana2_copy_bytes. rewrite read_bytes_val by lia. cbn [obind].
  apply store_bytes_val; [done|]. rewrite slice_length; lia.
Qed.

Lemma odd_bit i : negb (Z.land i 1 =? 0) = Z.odd i.
Proof. change 1 with (Z.ones 1) at 1. rewrite Z.land_ones by lia. rewrite Zmod_odd. by destruct (Z.odd i). Qed.

Lemma sum_tail_spec n to at_ m from i sum :
  bytes_ok m -> 0 <= from -> 0 <= at_ -> 0 <= i -> from + i + Z.of_nat n <= len m -> is_u32 sum ->
  match to with Some to => at_ + i + Z.of_nat n <= len to | None => True end ->
  exists s, sum_tail n to at_ m from i sum =
      Val (match to with Some to => Some (splice to (at_ + i) (slice m (from + i) (Z.of_nat n))) | None => None end, s) /\
    is_u32 s /\ oc_eq s (sum + sum_at (Z.odd i) (slice m (from + i) (Z.of_nat n))).
Proof.
  intros Hm Hf Ha. revert to i sum. induction n as [|n IH]; intros to i sum Hi Hl Hs Ht; cbn [sum_tail].
  { exists sum. split; [destruct to; rewrite ?slice_nil, ?splice_empty by lia; done|]. split; [done|].
    rewrite slice_nil by lia. unfold sum_at. destruct (Z.odd i); simpl; rewrite Z.add_0_r; apply oc_refl; word_lia. }
  rewrite fetch_byte by lia. cbn [obind]. set (b := byte m (from + i)).
  pose proof (byte_range m (from + i) Hm) as Rb. fold b in Rb.
  assert (Ev : (if negb (Z.land i 1 =? 0) then b else Z.shiftl b 8) = if Z.odd i then b else b * 256).
  { rewrite odd_bit, Z.shiftl_mul_pow2 by lia. by destruct (Z.odd i). }
  rewrite Ev. set (v := if Z.odd i then b else b * 256). assert (Hv : is_u32 v) by (unfold v; destruct (Z.odd i); word_lia).
  destruct (add_carry_oc sum v Hs Hv) as [Au Ao].
  assert (Hodd : Z.odd (i + 1) = negb (Z.odd i)) by (rewrite Z.odd_add; by destruct (Z.odd i)).
  assert (Hslice : slice m (from + i) (Z.of_nat (S n)) = b :: slice m (from + (i + 1)) (Z.of_nat n)).
  { rewrite slice_first by lia. fold b. do 2 f_equal; lia. }
  assert (Hsum : forall s, oc_eq s (add_carry sum v + sum_at (Z.odd (i + 1)) (slice m (from + (i + 1)) (Z.of_nat n))) ->
    oc_eq s (sum + sum_at (Z.odd i) (b :: slice m (from + (i + 1)) (Z.of_nat n)))).
  { intros s Hoc. rewrite Hoc, sum_at_cons, Hodd. fold v. rewrite (Z.add_assoc sum v).
    apply oc_add_proper; [exact Ao|].
    apply oc_refl, sum_at_nonneg, bytes_slice, Hm. }
  destruct to as [to|].
  - rewrite store8_splice by lia. cbn [obind].
    destruct (IH (Some (splice to (at_ + i) [b])) (i + 1) (add_carry sum v)) as (s & -> & Hu & Hoc);
      [lia|lia|done|rewrite splice_length; simpl; lia|].
    exists s. rewrite Hslice. split; [|by split; [|apply Hsum]]. do 3 f_equal.
    pose proof (splice_splice to (at_ + i) [b] (slice m (from + (i + 1)) (Z.of_nat n))) as Hsp. simpl in Hsp.
    rewrite <- Hsp; [f_equal; lia|lia|]. rewrite Nat2Z.inj_succ, slice_length by lia. lia.
  - cbn [obind]. destruct (IH None (i + 1) (add_carry sum v)) as (s & -> & Hu & Hoc); [lia|lia|done|done|].
    exists s. rewrite Hslice. split; [done|]. by split; [|apply Hsum].
Qed.

Lemma sum_longs_at_spec m from words :
  bytes_ok m -> 0 <= from -> 0 <= words -> from + 4 * words <= len m ->
  exists s, sum_longs_at m from words = Val s /\ is_u32 s /\ oc_eq s (sum16 (slice m from (4 * words))).
Proof.
  intros Hm Hf Hw Hl. unfold sum_longs_at.
  destruct (sum_longs_spec (Z.to_nat words) m from 0) as (s & -> & Hs & E); [done..|word_lia|lia|].
  exists s. split_and!; [done..|]. unfold slice. by replace (Z.to_nat (4 * words)) with (4 * Z.to_nat words)%nat by lia.
Qed.

(** Longwords, then the bytes behind them. *)
Lemma sum_words_tail to at_ m from n s0 :
  bytes_ok m -> 0 <= from -> 0 <= at_ -> 0 <= n -> from + n <= len m ->
  is_u32 s0 -> oc_eq s0 (sum16 (slice m from (4 * (n / 4)))) ->
  match to with Some to => at_ + n <= len to | None => True end ->
  exists s, sum_tail (Z.to_nat (n - 4 * (n / 4)))
      (match to with Some to => Some (splice to at_ (slice m from (4 * (n / 4)))) | None => None end) at_ m from (4 * (n / 4)) s0 =
      Val (match to with Some to => Some (splice to at_ (slice m from n)) | None => None end, s) /\
    is_u32 s /\ oc_eq s (sum16 (slice m from n)).
Proof.
  intros Hm Hf Ha Hn Hl Hu Hoc Ht. set (k := 4 * (n / 4)) in *.
  assert (Hk : 0 <= k <= n) by (unfold k; word_lia). assert (Ok : Z.odd k = false) by (unfold k; rewrite Z.odd_mul; done).
  destruct (sum_tail_spec (Z.to_nat (n - k)) (match to with Some to => Some (splice to at_ (slice m from k)) | None => None end)
    at_ m from k s0) as (s & -> & Hs & Eoc); [done|done|done|lia|lia|done|destruct to; [rewrite splice_length; [lia|lia|rewrite slice_length; lia]|done]|].
  rewrite Z2Nat.id, Ok in * by lia. exists s.
  assert (Es : slice m from n = slice m from k ++ slice m (from + k) (n - k)) by (rewrite <- slice_more by lia; f_equal; lia).
  split_and!; [|done|].
  - destruct to as [to|]; [|done]. do 3 f_equal. rewrite Es. pose proof (slice_length m from k ltac:(lia) ltac:(lia) ltac:(lia)) as Ls.
    rewrite <- splice_splice, Ls; [done|lia|]. rewrite Nat2Z.inj_add, Ls, slice_length by lia. lia.
  - rewrite Eoc, Es, sum16_app_at, slice_length, Ok by lia. apply oc_add_proper; [done|].
    apply oc_refl, sum_at_nonneg, bytes_slice, Hm.
Qed.

Lemma oc16_sum s t : oc_eq s t -> oc_eq (oc16 s) t /\ 0 <= oc16 s <= 65535.
Proof.
  intros H. split; [|apply oc16_range]. rewrite <- H. apply oc16_oc. by destruct H.
Qed.

Lemma shift2 n : 0 <= n -> Z.shiftr n 2 = n / 4 /\ Z.shiftl (n / 4) 2 = 4 * (n / 4).
Proof. intros Hn. rewrite Z.shiftr_div_pow2, Z.shiftl_mul_pow2 by lia. change (2 ^ 2) with 4. lia. Qed.

Lemma gso_copy_sum_spec to at_ taddr m from faddr n :
  bytes_ok m -> 0 <= from -> 0 <= at_ -> 0 <= n -> from + n <= len m ->
  match to with Some to => at_ + n <= len to | None => True end ->
  exists s, ami_sana2_gso_copy_sum to at_ taddr m from faddr n =
      Val (match to with Some to => Some (splice to at_ (slice m from n)) | None => None end, s) /\
    0 <= s <= 65535 /\ oc_eq s (sum16 (slice m from n)).
Proof.
  intros Hm Hf Ha Hn Hl Ht. unfold ami_sana2_gso_copy_sum. destruct to as [to|].
  - destruct (_ && _).
    + destruct (shift2 n Hn) as [-> ->]. unfold copy_sum_at. rewrite read_bytes_val by word_lia. cbn [obind].
      rewrite store_bytes_val by (rewrite ?slice_length by word_lia; word_lia). cbn [obind].
      destruct (sum_longs_at_spec m from (n / 4)) as (s0 & -> & Hu & Hoc); [done|done|word_lia|word_lia|]. cbn [obind].
      destruct (sum_words_tail (Some to) at_ m from n s0) as (s & -> & Hs & Es); [done..|]. cbn [obind].
      rewrite gso_fold_spec by done. cbn [obind]. destruct (oc16_sum s _ Es). by eexists.
    + cbn [obind]. destruct (sum_tail_spec (Z.to_nat (n - 0)) (Some to) at_ m from 0 0) as (s & -> & Hs & Es);
        [done|done|done|lia|lia|word_lia|lia|]. rewrite !Z.sub_0_r, !Z.add_0_r, Z2Nat.id in * by lia. cbn [obind].
      rewrite gso_fold_spec by done. cbn [obind]. change (oc_eq s (sum16 (slice m from n))) in Es.
      destruct (oc16_sum s _ Es). by eexists.
  - set (odd := negb _ && negb _). set (f' := if odd then from + 1 else from). set (n' := if odd then n - 1 else n).
    assert (Hodd : odd = true -> 0 < n).
    { unfold odd. intros H. apply andb_true_iff in H as [_ H]. apply negb_true_iff, Z.eqb_neq in H. lia. }
    assert (Hb : 0 <= n' /\ f' + n' <= len m /\ 0 <= f') by (unfold n', f'; destruct odd; [specialize (Hodd eq_refl)|]; lia).
    assert (Elead : (if odd then let! b := fetch m from in Val (Z.shiftl b 8) else Val 0) = Val (if odd then byte m from * 256 else 0)).
    { destruct odd; [|done]. specialize (Hodd eq_refl). rewrite fetch_byte by lia. cbn [obind]. by rewrite Z.shiftl_mul_pow2 by lia. }
    rewrite Elead. cbn [obind]. destruct (shift2 n' ltac:(lia)) as [-> ->].
    assert (Hw : exists s0, (if negb (n' / 4 =? 0) then sum_longs_at m f' (n' / 4) else Val 0) = Val s0 /\ is_u32 s0 /\
      oc_eq s0 (sum16 (slice m f' (4 * (n' / 4))))).
    { destruct (Z.eqb_spec (n' / 4) 0) as [->|]; simpl; [exists 0; split; [done|split; [word_lia|done]]|].
      apply sum_longs_at_spec; [done|lia|word_lia|word_lia]. }
    destruct Hw as (s0 & -> & Hu & Hoc). cbn [obind].
    destruct (sum_words_tail None 0 m f' n' s0) as (s & -> & Hs & Es); [done|lia..|done|done|done|]. cbn [obind].
    rewrite gso_fold_spec by done. cbn [obind]. destruct (oc16_sum s _ Es) as [Eo Ro]. unfold f', n' in *. destruct odd; [|by eexists].
    specialize (Hodd eq_refl). destruct (swap16_oc (oc16 s) false (slice m (from + 1) (n - 1))) as [Sw Rw]; [by apply bytes_slice|done|exact Eo|].
    pose proof (byte_range m from Hm) as Rb. unfold is_u8 in Rb. rewrite u32_small, gso_fold_spec by (unfold is_u32; lia). cbn [obind].
    eexists. split; [done|]. rewrite slice_first, sum16_cons by lia. apply and_comm, oc16_sum.
    apply oc_add_proper; [apply oc_refl; lia|exact Sw].
Qed.

(** ** Chains *)

(** A buffer whose data is in its memory. *)
Definition buf_ok (p : NX_PACKET) : Prop :=
  0 <= packet_size p < 2 ^ 32 /\ packet_size p <= len (nx_packet_mem p) /\ bytes_ok (nx_packet_mem p).

Definition data_of (chain : list NX_PACKET) : list Z := concat (map packet_data chain).

(** What a cursor has still to give, and a cursor inside its buffer. *)
Definition rest (cur : list NX_PACKET) (off : Z) : list Z := drop (Z.to_nat off) (data_of cur).
Definition cursor_in (cur : list NX_PACKET) (off : Z) : Prop :=
  match cur with [] => True | p :: _ => 0 <= off <= packet_size p end.

Lemma have_size p : buf_ok p -> have p = packet_size p.
Proof. intros [H _]. by apply u32_small. Qed.

Lemma size_of_data p : buf_ok p -> len (packet_data p) = packet_size p.
Proof. intros (H1 & H2 & _). unfold packet_data. rewrite length_take. lia. Qed.

Lemma data_bytes chain : Forall buf_ok chain -> bytes_ok (data_of chain).
Proof.
  intros H. induction H as [|p l Hp _ IH]; [constructor|]. unfold data_of. simpl. apply Forall_app. split; [|exact IH].
  apply bytes_take, Hp.
Qed.

Lemma rest_bytes cur off : Forall buf_ok cur -> bytes_ok (rest cur off).
Proof. intros H. by apply bytes_drop, data_bytes. Qed.

(** The end of a buffer is the start of the next. *)
Lemma rest_next p next off : buf_ok p -> packet_size p <= off -> off <= packet_size p -> rest (p :: next) off = rest next 0.
Proof.
  intros Hp H1 H2. unfold rest, data_of. simpl. pose proof (size_of_data p Hp). rewrite drop_app_ge by lia.
  f_equal. lia.
Qed.

(** A run inside the buffer is the front of the rest. *)
Lemma rest_run p next off n :
  buf_ok p -> 0 <= off -> 0 <= n -> off + n <= packet_size p ->
  rest (p :: next) off = slice (nx_packet_mem p) off n ++ rest (p :: next) (off + n).
Proof.
  intros Hp Ho Hn Hl. pose proof (size_of_data p Hp) as Hs. unfold rest, data_of. simpl.
  rewrite !drop_app_le by lia. rewrite app_assoc. f_equal.
  replace (Z.to_nat (off + n)) with (Z.to_nat off + Z.to_nat n)%nat by lia. rewrite <- drop_drop.
  rewrite <- (take_drop (Z.to_nat n) (drop (Z.to_nat off) (packet_data p))) at 1. f_equal.
  unfold slice, packet_data. rewrite skipn_firstn_comm, take_take. f_equal. destruct Hp as [? _]. lia.
Qed.

Lemma take_split {A} (l : list A) (a b : nat) : take (a + b) l = take a l ++ take b (drop a l).
Proof. by rewrite take_take_drop. Qed.

(** Rounds a walk has to do: two a buffer, one for a buffer that is used up. *)
Definition rounds (cur : list NX_PACKET) (off : Z) : nat :=
  match cur with [] => 0 | p :: next => 2 * length next + if have p <=? off then 1 else 2 end.

Lemma rounds_enough cur off : (rounds cur off <= 2 * length cur)%nat.
Proof. destruct cur as [|p next]; simpl; [lia|]. destruct (have p <=? off); lia. Qed.

Lemma walk_step_front p next off n :
  buf_ok p -> 0 <= off -> 0 <= n -> off + n <= packet_size p ->
  forall k, n <= k -> take (Z.to_nat k) (rest (p :: next) off) =
    slice (nx_packet_mem p) off n ++ take (Z.to_nat (k - n)) (rest (p :: next) (off + n)).
Proof.
  intros Hp Ho Hn Hl k Hk. rewrite (rest_run p next off n) by done.
  assert (Ls : len (slice (nx_packet_mem p) off n) = n).
  { apply slice_length; [lia..|]. destruct Hp as (? & ? & _). lia. }
  rewrite take_app, take_ge by lia. do 2 f_equal. lia.
Qed.

Lemma splice_run {A} (to : list A) at_ a b :
  0 <= at_ -> at_ + len a + len b <= len to -> splice (splice to at_ a) (at_ + len a) b = splice to at_ (a ++ b).
Proof. intros Ha Hl. apply splice_splice; [done|]. lia. Qed.

Definition splice_opt (to : option (list Z)) (at_ : Z) (bs : list Z) : option (list Z) :=
  match to with Some to => Some (splice to at_ bs) | None => None end.
Definition room_for (to : option (list Z)) (at_ n : Z) : Prop :=
  match to with Some to => at_ + n <= len to | None => True end.

Lemma splice_opt_run to at_ a b :
  0 <= at_ -> room_for to at_ (len a + len b) -> splice_opt (splice_opt to at_ a) (at_ + len a) b = splice_opt to at_ (a ++ b).
Proof. intros Ha Hr. destruct to as [to|]; [|done]. simpl in *. f_equal. apply splice_run; lia. Qed.

Lemma room_splice to at_ bs k n : 0 <= at_ -> room_for to at_ (len bs) -> room_for to k n -> room_for (splice_opt to at_ bs) k n.
Proof. intros Ha Hr Hk. destruct to as [to|]; [|done]. simpl in *. rewrite splice_length; lia. Qed.

(** One run of the walk, copied or summed or both. *)
Definition run_step (summing : bool) (to : option (list Z)) (oaddr at_ : Z) (p : NX_PACKET) (off take at16 acc : Z)
  : outcome (option (list Z) * Z) :=
  if summing then
    let! (to, s) := ami_sana2_gso_copy_sum to at_ (oaddr + at_) (nx_packet_mem p) off (nx_packet_prepend_ptr p + off) take in
    let s := if negb (Z.land at16 1 =? 0) then swap16 s else s in
    Val (to, acc +w s)
  else
    match to with
    | Some to => let! to := ami_sana2_copy_bytes to at_ (nx_packet_mem p) off take in Val (Some to, acc)
    | None => Fault
    end.

Lemma run_step_spec summing to oaddr at_ p off n at16 acc :
  buf_ok p -> 0 <= off -> 0 <= at_ -> 0 <= n -> off + n <= packet_size p -> room_for to at_ n ->
  (to = None -> summing = true) -> 0 <= acc -> acc + 65535 < 2 ^ 32 ->
  let bs := slice (nx_packet_mem p) off n in
  exists acc', run_step summing to oaddr at_ p off n at16 acc = Val (splice_opt to at_ bs, acc') /\
    0 <= acc' <= acc + 65535 /\ (summing = true -> oc_eq acc' (acc + sum_at (Z.odd at16) bs)).
Proof.
  intros (Hs & Hl & Hb) Ho Ha Hn Hin Hr Hto Hacc Hmax bs. unfold run_step. destruct summing.
  - destruct (gso_copy_sum_spec to at_ (oaddr + at_) (nx_packet_mem p) off (nx_packet_prepend_ptr p + off) n)
      as (s & -> & Rs & Es); [done|lia..|done|]. cbn [obind]. rewrite odd_bit. fold bs in Es |- *.
    set (t := if Z.odd at16 then swap16 s else s).
    assert (Ht : oc_eq t (sum_at (Z.odd at16) bs) /\ 0 <= t <= 65535).
    { unfold t. destruct (Z.odd at16); [|done]. apply (swap16_oc s false bs); [by apply bytes_slice|done|exact Es]. }
    destruct Ht as [Et Rt]. rewrite u32_small by (unfold is_u32; lia). eexists. split; [done|]. split; [lia|]. intros _.
    apply oc_add_proper; [by apply oc_refl|done].
  - destruct to as [to|]; [|by specialize (Hto eq_refl)]. rewrite copy_bytes_val by (simpl in Hr; lia). cbn [obind].
    exists acc. split; [done|]. split; [lia|done].
Qed.

(** The bytes the walk takes. *)
Definition front (cur : list NX_PACKET) (off n : Z) : list Z := take (Z.to_nat n) (rest cur off).

Lemma walk_spec fuel cur off to oaddr at_ n summing at16 acc :
  Forall buf_ok cur -> cursor_in cur off -> (n <> 0 -> (rounds cur off <= fuel)%nat) -> 0 <= n <= len (rest cur off) -> 0 <= at_ ->
  room_for to at_ n -> (to = None -> summing = true) -> 0 <= acc -> acc + 65535 * n < 2 ^ 32 -> 
  exists cur' off' acc', gso_walk_from fuel cur off to oaddr at_ n summing at16 acc =
      Val (true, cur', off', splice_opt to at_ (front cur off n), acc') /\
    Forall buf_ok cur' /\ cursor_in cur' off' /\ rest cur' off' = drop (Z.to_nat n) (rest cur off) /\
    (cur <> [] -> cur' <> []) /\ 0 <= acc' <= acc + 65535 * n /\
    (summing = true -> oc_eq acc' (acc + sum_at (Z.odd at16) (front cur off n))).
Proof.
  revert cur off to at_ n at16 acc. induction fuel as [|fuel IH]; intros cur off to at_ n at16 acc Hc Hin Hf Hn Ha Hr Hto Hacc Hmax.
  all: cbn [gso_walk_from]; destruct (Z.eqb_spec n 0) as [->|Hn0].
  1,3: exists cur, off, acc; unfold front; rewrite take_0; (split; [destruct to; simpl; by rewrite ?splice_empty|]); split_and!; try done; try lia;
    intros _; unfold sum_at; destruct (Z.odd at16); simpl; rewrite Z.add_0_r; by apply oc_refl.
  all: destruct cur as [|p next]; [unfold rest, data_of in Hn; rewrite length_drop in Hn; simpl in Hn; lia|].
  1: specialize (Hf Hn0); cbn [rounds] in Hf; destruct (have p <=? off); lia.
  specialize (Hf Hn0).
  rewrite Forall_cons in Hc. destruct Hc as [Hp Hc]. simpl in Hin. cbn [rounds] in Hf. rewrite have_size in * by done.
  destruct (Z.leb_spec (packet_size p) off) as [Hend|Hmore].
  - assert (Er : rest (p :: next) off = rest next 0) by (apply rest_next; done || lia). unfold front. rewrite Er in *.
    destruct (IH next 0 to at_ n at16 acc) as (cur' & off' & acc' & E); [done| | |done..|].
    { destruct next as [|q next]; [done|]. simpl. rewrite Forall_cons in Hc. destruct Hc as [[? _] _]. lia. }
    { pose proof (rounds_enough next 0). lia. }
    destruct E as (E1 & E2 & E3 & E4 & E5 & E6 & E7). exists cur', off', acc'. split_and!; try done; try lia. intros _. apply E5. intros ->.
    unfold rest, data_of in Hn. rewrite length_drop in Hn. simpl in Hn. lia.
  - set (k := if n <? packet_size p - off then n else packet_size p - off).
    assert (Hk : 0 < k <= n /\ off + k <= packet_size p /\ (k = n \/ off + k = packet_size p)).
    { unfold k. destruct (Z.ltb_spec n (packet_size p - off)); lia. }
    fold (run_step summing to oaddr at_ p off k at16 acc).
    destruct (run_step_spec summing to oaddr at_ p off k at16 acc) as (a1 & -> & Ra & Ea);
      [done|lia..|destruct to; simpl in *; [lia|done]|done|lia|lia|]. cbn [obind].
    set (bs := slice (nx_packet_mem p) off k) in *.
    assert (Lb : len bs = k) by (apply slice_length; [lia..|]; destruct Hp as (? & ? & _); lia).
    assert (Bb : bytes_ok bs) by (apply bytes_slice, Hp).
    assert (Ef : front (p :: next) off n = bs ++ front (p :: next) (off + k) (n - k)).
    { apply walk_step_front; done || lia. }
    assert (Lr : len (rest (p :: next) (off + k)) = len (rest (p :: next) off) - k).
    { rewrite (rest_run p next off k) by (done || lia). fold bs. rewrite length_app. lia. }
    destruct (IH (p :: next) (off + k) (splice_opt to at_ bs) (at_ + k) (n - k) (at16 + k) a1)
      as (cur' & off' & acc' & E1 & E2 & E3 & E4 & E5 & E6 & E7).
    { by rewrite Forall_cons. } { simpl. lia. }
    { intros Hne. cbn [rounds]. rewrite have_size by done. destruct (Z.leb_spec (packet_size p) (off + k)); lia. }
    { lia. } { lia. } { apply room_splice; [done|destruct to; simpl in *; [lia|done]|destruct to; simpl in *; [lia|done]]. }
    { intros H. apply Hto. destruct to; [done|done]. } { lia. } { lia. }
    exists cur', off', acc'. rewrite E1, Ef. split; [|split_and!; try done].
    + do 2 f_equal. rewrite <- Lb at 1. rewrite splice_opt_run; [done|done|].
      rewrite Lb. unfold front. rewrite length_take. replace (k + _) with n by lia. done.
    + rewrite E4, (rest_run p next off k) by (done || lia). fold bs. rewrite drop_app_ge by lia. f_equal. lia.
    + lia.
    + lia.
    + intros Hsum. rewrite (E7 Hsum). clear E7.
      replace (sum_at (Z.odd at16) (bs ++ front (p :: next) (off + k) (n - k))) with
        (sum_at (Z.odd at16) bs + sum_at (Z.odd (at16 + k)) (front (p :: next) (off + k) (n - k))).
      2:{ rewrite Z.odd_add, <- Lb. symmetry. apply sum_at_app. }
      rewrite Z.add_assoc. apply oc_add_proper; [by apply Ea|]. apply oc_refl, sum_at_nonneg.
      apply bytes_take, rest_bytes. by rewrite Forall_cons.
Qed.

Lemma gso_walk_spec cur off to oaddr at_ n summing :
  Forall buf_ok cur -> cursor_in cur off -> 0 <= n <= len (rest cur off) -> n <= 65535 -> 0 <= at_ ->
  room_for to at_ n -> (to = None -> summing = true) ->
  exists cur' off' acc, ami_sana2_gso_walk cur off to oaddr at_ n summing =
      Val (true, cur', off', splice_opt to at_ (front cur off n), acc) /\
    Forall buf_ok cur' /\ cursor_in cur' off' /\ rest cur' off' = drop (Z.to_nat n) (rest cur off) /\
    (cur <> [] -> cur' <> []) /\ is_u32 acc /\ (summing = true -> oc_eq acc (sum16 (front cur off n))).
Proof.
  intros Hc Hin Hn Hmax Ha Hr Hto. unfold ami_sana2_gso_walk.
  destruct (walk_spec (2 * length cur) cur off to oaddr at_ n summing 0 0) as (cur' & off' & acc & E & H1 & H2 & H3 & H4 & H5 & H6);
    [done|done|intros _; apply rounds_enough|done|done|done|done|lia|lia|].
  exists cur', off', acc. split_and!; try done. unfold is_u32. lia.
Qed.

(** A chain that ends first is refused. *)
Lemma walk_short fuel cur off to oaddr at_ n summing at16 acc :
  Forall buf_ok cur -> cursor_in cur off -> (n <> 0 -> (rounds cur off <= fuel)%nat) -> len (rest cur off) < n -> 0 <= at_ ->
  room_for to at_ n -> (to = None -> summing = true) -> 0 <= acc -> acc + 65535 * n < 2 ^ 32 ->
  exists cur' off' to' acc', gso_walk_from fuel cur off to oaddr at_ n summing at16 acc = Val (false, cur', off', to', acc').
Proof.
  revert cur off to at_ n at16 acc. induction fuel as [|fuel IH]; intros cur off to at_ n at16 acc Hc Hin Hf Hn Ha Hr Hto Hacc Hmax.
  all: cbn [gso_walk_from]; destruct (Z.eqb_spec n 0) as [->|Hn0]; [lia|]; specialize (Hf Hn0).
  all: destruct cur as [|p next]; [by repeat eexists|].
  1: cbn [rounds] in Hf; destruct (have p <=? off); lia.
  rewrite Forall_cons in Hc. destruct Hc as [Hp Hc]. simpl in Hin. cbn [rounds] in Hf. rewrite have_size in * by done.
  destruct (Z.leb_spec (packet_size p) off) as [Hend|Hmore].
  - rewrite (rest_next p next off) in Hn by (done || lia). apply IH; try done.
    { destruct next as [|q next]; [done|]. simpl. rewrite Forall_cons in Hc. destruct Hc as [[? _] _]. lia. }
    intros _. pose proof (rounds_enough next 0). lia.
  - set (k := if n <? packet_size p - off then n else packet_size p - off).
    assert (Hk : 0 < k <= n /\ off + k <= packet_size p /\ (k = n \/ off + k = packet_size p)).
    { unfold k. destruct (Z.ltb_spec n (packet_size p - off)); lia. }
    fold (run_step summing to oaddr at_ p off k at16 acc).
    destruct (run_step_spec summing to oaddr at_ p off k at16 acc) as (a1 & -> & Ra & _);
      [done|lia..|destruct to; simpl in *; [lia|done]|done|lia|lia|]. cbn [obind].
    assert (Lb : len (slice (nx_packet_mem p) off k) = k) by (apply slice_length; [lia..|]; destruct Hp as (? & ? & _); lia).
    apply IH; [by rewrite Forall_cons|simpl; lia| | |lia| |by destruct to|lia|lia].
    + intros Hne. cbn [rounds]. rewrite have_size by done. destruct (Z.leb_spec (packet_size p) (off + k)); lia.
    + rewrite (rest_run p next off k), length_app in Hn by (done || lia). lia.
    + apply room_splice; [done|destruct to; simpl in *; [lia|done]|destruct to; simpl in *; [lia|done]].
Qed.
