(* ===== verification/TxFrame.v ===== *)
(** * A child's frame (src/src/sana2/sana2_copy.c)

    What the frame of a child is: the template with the child's fields, its slice of
    the payload, zeroes.  Each call of the copy gives the next bytes of it. *)

From Stdlib Require Import ZArith Lia.
From stdpp Require Import base numbers list.
From S2P Require Import Prelude Checksum RxVerify RxSpec RxClaims TxCopy TxSum.
#[local] Open Scope Z_scope.

Local Abbreviation len m := (Z.of_nat (length m)).

(** ** The header *)

Definition patch (h : list Z) (i v : Z) : list Z := <[Z.to_nat i := u8 v]> h.
Definition patch16 (h : list Z) (i v : Z) : list Z := patch (patch h i (Z.shiftr v 8)) (i + 1) v.

(** The template with a child's fields. *)
Definition patched (ip : list Z) (t : Z) (f : AmiGsoFields) (tcp_sum : Z) : list Z :=
  let h := patch16 (patch16 (patch16 ip 2 (ip_len f)) 4 (ip_id f)) 10 (ip_sum f) in
  let h := patch16 (patch16 h (t + 4) (Z.shiftr (seq f) 16)) (t + 6) (seq f) in
  patch16 (patch h (t + 13) (tcp_flags f)) (t + 16) tcp_sum.

Lemma patch_length h i v : length (patch h i v) = length h.
Proof. apply length_insert. Qed.
Lemma patch16_length h i v : length (patch16 h i v) = length h.
Proof. unfold patch16. by rewrite !patch_length. Qed.
Lemma patched_length ip t f c : length (patched ip t f c) = length ip.
Proof. unfold patched. by repeat (rewrite patch16_length || rewrite patch_length). Qed.

(** Lengths of patched texts. *)
Ltac plen := repeat (rewrite patch16_length || rewrite patch_length || rewrite patched_length); lia.

Lemma patch_bytes h i v : bytes_ok h -> bytes_ok (patch h i v).
Proof. intros Hh. apply Forall_insert; [done|]. word_lia. Qed.
Lemma patch16_bytes h i v : bytes_ok h -> bytes_ok (patch16 h i v).
Proof. intros Hh. by apply patch_bytes, patch_bytes. Qed.
Lemma patched_bytes ip t f c : bytes_ok ip -> bytes_ok (patched ip t f c).
Proof. intros Hh. unfold patched. repeat (apply patch16_bytes || apply patch_bytes). done. Qed.

Lemma poke_slice h r from to i v :
  0 <= from <= to -> to <= len h -> 0 <= i ->
  ami_sana2_gso_poke (slice h from (to - from) ++ r) from to i v = Val (slice (patch h i v) from (to - from) ++ r).
Proof.
  intros Hf Ht Hi. unfold ami_sana2_gso_poke, put8, store8. pose proof (slice_length h from (to - from) ltac:(lia) ltac:(lia) ltac:(lia)) as Ls.
  destruct (Z.leb_spec from i), (Z.ltb_spec i to); simpl.
  - rewrite length_app. destruct (Z.leb_spec 0 (i - from)); [|lia]. destruct (Z.ltb_spec (i - from) (Z.of_nat (length (slice h from (to - from)) + length r))); [|lia].
    simpl. f_equal. rewrite insert_app_l by lia. f_equal. unfold slice, patch.
    rewrite drop_insert_ge, take_insert_lt by lia. f_equal. lia.
  - do 2 f_equal. unfold slice, patch. rewrite drop_insert_ge, take_insert_ge by lia. done.
  - do 2 f_equal. unfold slice, patch. by rewrite drop_insert_lt by lia.
  - lia.
Qed.

(** A store inside the header is a poke of the piece from its start. *)
Lemma put8_slice h r to i v :
  0 <= to <= len h -> 0 <= i < to -> put8 (slice h 0 to ++ r) i v = Val (slice (patch h i v) 0 to ++ r).
Proof.
  intros Ht Hi. pose proof (poke_slice h r 0 to i v ltac:(lia) ltac:(lia) ltac:(lia)) as P. rewrite Z.sub_0_r in P. rewrite <- P.
  unfold ami_sana2_gso_poke. by rewrite (proj2 (Z.leb_le _ _)), (proj2 (Z.ltb_lt _ _)), Z.sub_0_r by lia.
Qed.

Lemma put16_slice h r to i v :
  0 <= to <= len h -> 0 <= i -> i + 1 < to -> ami_sana2_gso_put16 (slice h 0 to ++ r) i v = Val (slice (patch16 h i v) 0 to ++ r).
Proof.
  intros Ht Hi Hl. unfold ami_sana2_gso_put16. rewrite put8_slice by lia. cbn [obind].
  rewrite put8_slice by plen. done.
Qed.

Lemma put32_slice h r to i v :
  0 <= to <= len h -> 0 <= i -> i + 3 < to ->
  ami_sana2_gso_put32 (slice h 0 to ++ r) i v = Val (slice (patch16 (patch16 h i (Z.shiftr v 16)) (i + 2) v) 0 to ++ r).
Proof.
  intros Ht Hi Hl. unfold ami_sana2_gso_put32. rewrite put16_slice by lia. cbn [obind].
  rewrite put16_slice by plen. done.
Qed.

Lemma emit_spec g ip f c out oaddr from to :
  0 <= ihl g -> 0 <= from <= to -> to <= len ip -> to - from <= len out ->
  ami_sana2_gso_emit g ip f c out oaddr from to =
    Val (slice (patched ip (ihl g) f c) from (to - from) ++ drop (Z.to_nat (to - from)) out).
Proof.
  intros Ht Hf Hto Hout. unfold ami_sana2_gso_emit. rewrite copy_bytes_val by lia. cbn [obind].
  set (r := drop (Z.to_nat (to - from)) out).
  assert (E : splice out 0 (slice ip from (to - from)) = slice ip from (to - from) ++ r).
  { unfold splice, r. simpl. f_equal. f_equal. pose proof (slice_length ip from (to - from)). lia. }
  rewrite E. unfold patched. set (t := ihl g) in *. destruct (_ && _) eqn:G.
  - rewrite !andb_true_iff, Z.eqb_eq, Z.leb_le in G. destruct G as [[-> G] _]. rewrite Z.sub_0_r in *.
    rewrite !put16_slice by plen. cbn [obind].
    rewrite put16_slice by plen. cbn [obind].
    rewrite put16_slice by plen. cbn [obind].
    replace (if Z.land (oaddr + t + 4) 3 =? 0 then _ else _) with
      (Val (slice (patch16 (patch16 (patch16 (patch16 (patch16 ip 2 (ip_len f)) 4 (ip_id f)) 10 (ip_sum f)) (t + 4) (Z.shiftr (seq f) 16)) (t + 6) (seq f)) 0 to ++ r)).
    + cbn [obind]. rewrite put8_slice by plen. cbn [obind].
      by rewrite put16_slice by plen.
    + symmetry. destruct (_ =? 0).
      * rewrite put32_slice by plen. by replace (t + 4 + 2) with (t + 6) by lia.
      * rewrite put16_slice by plen. cbn [obind].
        by rewrite put16_slice by plen.
  - repeat (rewrite poke_slice by plen; cbn [obind]).
    unfold patch16. rewrite !Z.shiftr_shiftr by lia. simpl (16 + 8).
    replace (2 + 1) with 3 by lia. replace (4 + 1) with 5 by lia. replace (10 + 1) with 11 by lia.
    replace (t + 4 + 1) with (t + 5) by lia. replace (t + 6 + 1) with (t + 7) by lia. replace (t + 16 + 1) with (t + 17) by lia. done.
Qed.

(** ** Words of a patched text *)

Lemma byte_patch h i v j : 0 <= i < len h -> 0 <= j -> byte (patch h i v) j = if j =? i then u8 v else byte h j.
Proof.
  intros Hi Hj. unfold byte, patch. rewrite !nth_lookup. destruct (Z.eqb_spec j i) as [->|].
  - by rewrite list_lookup_insert_eq by lia.
  - by rewrite list_lookup_insert_ne by lia.
Qed.

Lemma half_patch_ne h i v j : 0 <= i < len h -> 0 <= j -> j <> i -> j + 1 <> i -> half (patch h i v) j = half h j.
Proof. intros. unfold half. rewrite !byte_patch by lia. by rewrite !(proj2 (Z.eqb_neq _ _)) by lia. Qed.

Lemma half_patch16_ne h i v j :
  0 <= i -> i + 1 < len h -> 0 <= j -> j + 1 < i \/ i + 1 < j -> half (patch16 h i v) j = half h j.
Proof. intros. unfold patch16. rewrite !half_patch_ne by plen. done. Qed.

Lemma half_patch16_eq h i v : 0 <= i -> i + 1 < len h -> half (patch16 h i v) i = u16 v.
Proof.
  intros Hi Hl. unfold half, patch16. rewrite !byte_patch by plen. rewrite !Z.eqb_refl.
  rewrite !(proj2 (Z.eqb_neq _ _)) by lia. rewrite Z.shiftr_div_pow2 by lia. word_lia.
Qed.

Lemma half_patch_lo h i v : 0 <= i -> i + 1 < len h -> half (patch h (i + 1) v) i = byte h i * 256 + u8 v.
Proof.
  intros Hi Hl. unfold half. rewrite !byte_patch by lia. rewrite Z.eqb_refl. by rewrite (proj2 (Z.eqb_neq _ _)) by lia.
Qed.

Lemma slice_patch_out h i v a n : 0 <= i -> 0 <= a -> i < a \/ a + n <= i -> slice (patch h i v) a n = slice h a n.
Proof.
  intros Hi Ha [H|H]; unfold slice, patch.
  - by rewrite drop_insert_lt by lia.
  - destruct (Z_lt_ge_dec i a); [by rewrite drop_insert_lt by lia|]. by rewrite drop_insert_ge, take_insert_ge by lia.
Qed.

Lemma slice_patch16_out h i v a n : 0 <= i -> 0 <= a -> i + 1 < a \/ a + n <= i -> slice (patch16 h i v) a n = slice h a n.
Proof. intros. unfold patch16. by rewrite !slice_patch_out by lia. Qed.

Lemma slice_half m i : 0 <= i -> i + 1 < len m -> sum16 (slice m i 2) = half m i.
Proof. intros Hi Hm. rewrite !slice_first, slice_nil by lia. cbn [sum16]. unfold half. lia. Qed.

(** A word changed inside a summed stretch. *)
Lemma sum_patch16 h i v a n :
  bytes_ok h -> 0 <= a <= i -> (i - a) mod 2 = 0 -> i + 2 <= a + n -> a + n <= len h ->
  sum16 (slice (patch16 h i v) a n) = sum16 (slice h a n) - half h i + u16 v.
Proof.
  intros Hh Hi Hmod Hn Hl. pose proof (patch16_bytes h i v Hh) as Hp.
  rewrite (sum16_split h a n (i - a) i (n - (i - a))), (sum16_split h i (n - (i - a)) 2 (i + 2) (n - (i - a) - 2)) by (done || lia).
  rewrite (sum16_split (patch16 h i v) a n (i - a) i (n - (i - a))), (sum16_split (patch16 h i v) i (n - (i - a)) 2 (i + 2) (n - (i - a) - 2)) by (done || plen).
  rewrite (slice_patch16_out h i v a), (slice_patch16_out h i v (i + 2)) by lia.
  rewrite !slice_half by plen. rewrite half_patch16_eq by lia. lia.
Qed.

(** ** The fields *)

Lemma not16_val x : 0 <= x <= 65535 -> not16 x = 65535 - x.
Proof.
  intros Hx. unfold not16. rewrite (Z.land_ones _ 16) by lia.
  replace (Z.lnot x) with (65535 - x + (-1) * 2 ^ 16) by (unfold Z.lnot; lia). rewrite Z.mod_add, Z.mod_small; lia.
Qed.

(** The header sum of RFC 1624, from the old words and the new. *)
Definition ip_sum_of (ip : list Z) (ip_len ip_id : Z) : Z :=
  65535 - oc16 ((65535 - half ip 10) + (65535 - half ip 2 + ip_len) + (65535 - half ip 4 + ip_id)).

Definition child_fields (g : AmiTxGso) (seg : Z) (ip : list Z) : AmiGsoFields :=
  let '(off, n) := ami_sana2_gso_slice g seg in
  let ip_len := u16 (ihl g + thl g + n) in
  let ip_id := u16 (half ip 4 + seg) in
  GsoFields (u32 (long ip (ihl g + 4) + off)) n ip_len ip_id (ip_sum_of ip ip_len ip_id)
    (child_flags g seg (byte ip (ihl g + 13))).

Lemma fields_val g seg ip :
  bytes_ok ip -> 20 <= ihl g -> ihl g + 20 <= len ip -> ami_sana2_gso_fields g seg ip = Val (child_fields g seg ip).
Proof.
  intros Hb Hi Hl. unfold ami_sana2_gso_fields, child_fields. destruct (ami_sana2_gso_slice g seg) as [off n].
  unfold ami_sana2_tx_be16. rewrite !load16_half, fetch_byte by (done || lia). cbn [obind].
  pose proof (half_range ip 2 Hb). pose proof (half_range ip 4 Hb). pose proof (half_range ip 10 Hb).
  set (L := u16 (ihl g + thl g + n)). set (I := u16 (half ip 4 + seg)).
  assert (0 <= L < 65536 /\ 0 <= I < 65536) by (unfold L, I; word_lia).
  rewrite !not16_val by lia. rewrite (u32_small (65535 - half ip 10 + _)), u32_small by (unfold is_u32; lia).
  rewrite gso_fold_spec by (unfold is_u32; lia). cbn [obind].
  rewrite not16_val by (pose proof (oc16_range ((65535 - half ip 10) + (65535 - half ip 2 + L) + (65535 - half ip 4 + I))); lia).
  do 2 f_equal. f_equal. rewrite lor_shift_add by (pose proof (half_range ip (ihl g + 6) Hb); lia).
  unfold long. f_equal. replace (ihl g + 4 + 2) with (ihl g + 6) by lia. lia.
Qed.

(** ** The checksum *)

Lemma pseudo_header_val ip n :
  bytes_ok ip -> 20 <= len ip -> 0 <= n < 2 ^ 20 ->
  ami_sana2_tx_pseudo_header ip n = Val (oc16 (sum16 (slice ip 12 8) + 6 + n)).
Proof.
  intros Hb Hl Hn. unfold ami_sana2_tx_pseudo_header, ami_sana2_tx_be16. rewrite !load16_half by (done || lia). cbn [obind].
  rewrite (sum16_split ip 12 8 4 16 4), !slice_long by (done || lia).
  change (12 + 2) with 14. change (16 + 2) with 18. pose proof (half_range ip 12 Hb). pose proof (half_range ip 14 Hb). pose proof (half_range ip 16 Hb). pose proof (half_range ip 18 Hb).
  rewrite (u32_small (half ip 12 + half ip 14)), (u32_small (half ip 12 + half ip 14 + half ip 16)),
    (u32_small (half ip 12 + half ip 14 + half ip 16 + half ip 18)), u32_small by (unfold is_u32; lia).
  f_equal. rewrite !fold_step_eq, <- fold_oc16 by (unfold is_u32; lia). unfold n68k_fold.
  replace (half ip 12 + half ip 14 + (half ip 16 + half ip 18) + 6 + n) with
    (half ip 12 + half ip 14 + half ip 16 + half ip 18 + (6 + n)) by lia. done.
Qed.

(** A template whose two headers are in the memory. *)
Record template_ok (g : AmiTxGso) (ip : list Z) : Prop := {
  tp_bytes : bytes_ok ip;
  tp_ihl : 20 <= ihl g <= 60;
  tp_ihl4 : ihl g mod 4 = 0;
  tp_thl : 20 <= thl g <= 60;
  tp_thl4 : thl g mod 4 = 0;
  tp_room : ihl g + thl g <= len ip
}.

Definition fields_ok (f : AmiGsoFields) : Prop :=
  is_u32 (seq f) /\ 0 <= seg_len f <= 65535 /\ is_u16 (ip_len f) /\ is_u16 (ip_id f) /\ is_u16 (ip_sum f) /\ is_u8 (tcp_flags f).

(** The words of the child's TCP header, its checksum zero. *)
Lemma tcp_word g ip f i :
  template_ok g ip -> fields_ok f -> 0 <= i < thl g -> i mod 2 = 0 ->
  half (patched ip (ihl g) f 0) (ihl g + i) =
    if i =? 4 then seq f / 65536 else if i =? 6 then seq f mod 65536
    else if i =? 12 then byte ip (ihl g + 12) * 256 + tcp_flags f else if i =? 16 then 0 else half ip (ihl g + i).
Proof.
  intros [Hb Hi _ Ht Ht4 Hl] (Hs & _ & _ & _ & _ & Hf) Hin Hmod. set (t := ihl g) in *. unfold patched.
  assert (Hout : forall h, length h = length ip -> i <> 4 -> i <> 6 ->
    half (patch16 (patch16 h (t + 4) (Z.shiftr (seq f) 16)) (t + 6) (seq f)) (t + i) = half h (t + i)).
  { intros h Eh H4 H6. rewrite !half_patch16_ne by first [plen | word_lia]. done. }
  assert (Hlow : half (patch16 (patch16 (patch16 ip 2 (ip_len f)) 4 (ip_id f)) 10 (ip_sum f)) (t + i) = half ip (t + i)).
  { rewrite !half_patch16_ne by plen. done. }
  destruct (Z.eqb_spec i 16) as [->|N16].
  { cbn [Z.eqb Pos.eqb]. by rewrite half_patch16_eq by plen. }
  rewrite half_patch16_ne by (plen || word_lia). destruct (Z.eqb_spec i 12) as [->|N12].
  { cbn [Z.eqb Pos.eqb]. replace (t + 13) with (t + 12 + 1) by lia. rewrite half_patch_lo by plen.
    rewrite (u8_small (tcp_flags f)) by done. f_equal. f_equal. unfold patch16. rewrite !byte_patch by plen.
    by rewrite !(proj2 (Z.eqb_neq _ _)) by lia. }
  rewrite half_patch_ne by (plen || word_lia). destruct (Z.eqb_spec i 4) as [->|N4].
  { rewrite half_patch16_ne, half_patch16_eq by plen. rewrite Z.shiftr_div_pow2 by lia. word_lia. }
  destruct (Z.eqb_spec i 6) as [->|N6].
  { rewrite half_patch16_eq by plen. done. }
  rewrite Hout by (plen || done). done.
Qed.

Lemma finish_from_val g ip f n i sum :
  template_ok g ip -> fields_ok f -> 0 <= i -> i mod 2 = 0 -> i + 2 * Z.of_nat n = thl g ->
  0 <= sum -> sum + 65535 * Z.of_nat n < 2 ^ 32 ->
  finish_from n g ip f i sum = Val (sum + sum16 (slice (patched ip (ihl g) f 0) (ihl g + i) (2 * Z.of_nat n))).
Proof.
  intros Ht Hf. revert i sum. pose proof Ht as [Hb Hi _ Hth Ht4 Hl]. set (h := patched ip (ihl g) f 0).
  assert (Hh : bytes_ok h) by by apply patched_bytes.
  assert (Lh : length h = length ip) by apply patched_length.
  induction n as [|n IH]; intros i sum Hi0 Hmod Hn Hs Hmax; cbn [finish_from].
  { rewrite slice_nil by lia. simpl. by rewrite Z.add_0_r. }
  pose proof (tcp_word g ip f i Ht Hf ltac:(lia) Hmod) as Hw. fold h in Hw.
  pose proof (half_range h (ihl g + i) Hh) as Hr.
  assert (Ew : (if i =? 4 then Val (Z.shiftr (seq f) 16) else if i =? 6 then Val (Z.land (seq f) 0xFFFF)
         else if i =? 12 then let! b := fetch ip (ihl g + 12) in Val (Z.lor (Z.shiftl b 8) (tcp_flags f))
         else if negb (i =? 16) then ami_sana2_tx_be16 ip (ihl g + i) else Val 0) = Val (half h (ihl g + i))).
  { rewrite Hw. destruct (i =? 4); [by rewrite Z.shiftr_div_pow2 by lia|].
    destruct (i =? 6); [by rewrite (Z.land_ones _ 16) by lia|].
    destruct (i =? 12).
    { rewrite fetch_byte by lia. cbn [obind]. rewrite lor_shift8; [done|apply byte_range, Hb|apply Hf]. }
    destruct (i =? 16); [done|]. simpl. unfold ami_sana2_tx_be16. by rewrite load16_half by (done || lia). }
  rewrite Ew. cbn [obind]. rewrite u32_small by (unfold is_u32; lia). rewrite IH by (lia || word_lia). f_equal.
  rewrite (sum16_split h (ihl g + i) (2 * Z.of_nat (S n)) 2 (ihl g + (i + 2)) (2 * Z.of_nat n)) by (done || lia).
  rewrite slice_half by lia. lia.
Qed.

(** What the checksum covers, and the field: never zero. *)
Definition tcp_total (g : AmiTxGso) (ip : list Z) (f : AmiGsoFields) (data : list Z) : Z :=
  sum16 data + sum16 (slice (patched ip (ihl g) f 0) (ihl g) (thl g)) + (sum16 (slice ip 12 8) + 6 + (thl g + seg_len f)).
Definition tcp_sum_of (g : AmiTxGso) (ip : list Z) (f : AmiGsoFields) (data : list Z) : Z :=
  let s := 65535 - oc16 (tcp_total g ip f data) in if s =? 0 then 65535 else s.

Lemma tcp_sum_range g ip f data : 0 < tcp_sum_of g ip f data <= 65535.
Proof.
  unfold tcp_sum_of. pose proof (oc16_range (tcp_total g ip f data)).
  destruct (Z.eqb_spec (65535 - oc16 (tcp_total g ip f data)) 0); lia.
Qed.

Lemma finish_val g ip f data s :
  template_ok g ip -> fields_ok f -> bytes_ok data -> is_u32 s -> oc_eq s (sum16 data) ->
  ami_sana2_gso_finish g ip f s = Val (tcp_sum_of g ip f data).
Proof.
  intros Ht Hf Hd Hs Hoc. pose proof Ht as [Hb Hi _ Hth Ht4 Hl]. unfold ami_sana2_gso_finish.
  rewrite gso_fold_spec by done. cbn [obind]. pose proof (oc16_range s) as R.
  replace (Z.to_nat ((thl g + 1) / 2)) with (Z.to_nat (thl g / 2)) by (f_equal; word_lia).
  rewrite finish_from_val by (done || lia || word_lia). cbn [obind]. rewrite Z.add_0_r.
  replace (2 * Z.of_nat (Z.to_nat (thl g / 2))) with (thl g) by word_lia.
  set (H := sum16 (slice (patched ip (ihl g) f 0) (ihl g) (thl g))).
  assert (RH : 0 <= H <= 65535 * 60).
  { unfold H. pose proof (patched_bytes ip (ihl g) f 0 Hb) as Bp.
    pose proof (sum16_bound (slice (patched ip (ihl g) f 0) (ihl g) (thl g)) (bytes_slice _ _ _ Bp)) as B.
    rewrite slice_length in B by plen. lia. }
  destruct Hf as (_ & Hn & _). rewrite pseudo_header_val by (done || lia). cbn [obind].
  set (P := sum16 (slice ip 12 8) + 6 + (thl g + seg_len f)). pose proof (oc16_range P).
  rewrite u32_small, gso_fold_spec by (unfold is_u32; lia). cbn [obind].
  assert (E : oc16 (oc16 s + H + oc16 P) = oc16 (tcp_total g ip f data)).
  { apply oc16_eq. unfold tcp_total. fold H P. pose proof (sum16_slice ip 12 8 Hb).
    apply oc_add_proper; [apply oc_add_proper; [by apply oc16_sum|apply oc_refl; lia]|apply oc16_oc; unfold P; lia]. }
  rewrite E, not16_val by apply oc16_range. done.
Qed.

Lemma clear8_u8 x b : is_u8 x -> is_u8 (clear8 x b).
Proof.
  intros Hx. unfold clear8, is_u8 in *. apply (land_range 8); [lia|lia|]. word_lia.
Qed.

Lemma child_flags_u8 g seg x : is_u8 x -> is_u8 (child_flags g seg x).
Proof. intros Hx. unfold child_flags. repeat case_match; by repeat apply clear8_u8. Qed.

(** ** Pieces of a frame *)

Lemma slice_app3 {A} (h d z : list A) i n :
  0 <= i -> 0 <= n ->
  slice (h ++ d ++ z) i n =
    slice h i n ++ slice d (i - len h) (n - Z.max 0 (len h - i)) ++ slice z (i - len h - len d) (n - Z.max 0 (len h + len d - i)).
Proof.
  intros Hi Hn. unfold slice. rewrite !drop_app, !take_app, !length_drop.
  f_equal. f_equal; (f_equal; [lia|f_equal; lia]).
Qed.

Lemma splice_app {A} (a r bs : list A) i :
  i = len a -> splice (a ++ r) i bs = a ++ bs ++ drop (length bs) r.
Proof.
  intros ->. unfold splice. rewrite Nat2Z.id, take_app_length, drop_app_add. done.
Qed.

Lemma slice_zeros k j m : Z.max 0 j + Z.max 0 m <= Z.of_nat k -> slice (replicate k 0) j m = replicate (Z.to_nat m) 0.
Proof. intros Hl. unfold slice. rewrite drop_replicate, take_replicate. f_equal. lia. Qed.

Lemma patched_sum ip t f c : 0 <= t -> patch16 (patched ip t f 0) (t + 16) c = patched ip t f c.
Proof.
  intros Ht. unfold patched. set (h := patch (patch16 _ _ _) (t + 13) _). unfold patch16, patch.
  rewrite (list_insert_insert_ne _ (Z.to_nat (t + 16)) (Z.to_nat (t + 16 + 1))), list_insert_insert_eq by lia.
  by rewrite list_insert_insert_eq.
Qed.

Section Copy.
Context (ANXD_S2_TXF_TCP : Z).

Local Abbreviation gso_copy := (ami_sana2_gso_copy ANXD_S2_TXF_TCP).
Local Abbreviation tcp_field := (ami_sana2_gso_tcp_field ANXD_S2_TXF_TCP).

(** The child in the slot. *)
Definition slot_fields (slot : AmiTxSlot) (g : AmiTxGso) : AmiGsoFields :=
  child_fields g (seg_index slot) (first_mem (packet slot)).
Definition slot_data (slot : AmiTxSlot) (g : AmiTxGso) : list Z :=
  front (seg_buf slot) (seg_buf_off slot) (seg_len (slot_fields slot g)).

(** A card that finishes the sum gets the pseudo header's. *)
Definition slot_sum_field (slot : AmiTxSlot) (g : AmiTxGso) : Z :=
  let ip := first_mem (packet slot) in
  let f := slot_fields slot g in
  if Z.land (tx_flags slot) ANXD_S2_TXF_TCP =? 0 then tcp_sum_of g ip f (slot_data slot g)
  else oc16 (sum16 (slice ip 12 8) + 6 + (thl g + seg_len f)).

Definition slot_frame (slot : AmiTxSlot) (g : AmiTxGso) : list Z :=
  let f := slot_fields slot g in
  let hlen := ihl g + thl g in
  take (Z.to_nat hlen) (patched (first_mem (packet slot)) (ihl g) f (slot_sum_field slot g)) ++
  slot_data slot g ++ replicate (Z.to_nat (total slot - hlen - seg_len f)) 0.

Record child_ok (slot : AmiTxSlot) (g : AmiTxGso) : Prop := {
  ch_template : template_ok g (first_mem (packet slot));
  ch_len : 0 <= seg_len (slot_fields slot g) <= 65535;
  ch_bufs : Forall buf_ok (seg_buf slot);
  ch_some : seg_buf slot <> [];
  ch_off : cursor_in (seg_buf slot) (seg_buf_off slot);
  ch_data : seg_len (slot_fields slot g) <= len (rest (seg_buf slot) (seg_buf_off slot));
  ch_total : ihl g + thl g + seg_len (slot_fields slot g) <= total slot;
  ch_sum : seg_summed slot = true -> seg_sum slot = tcp_sum_of g (first_mem (packet slot)) (slot_fields slot g) (slot_data slot g)
}.

(** The transfer so far: nothing, or the cursor where the bytes consumed leave it. *)
Definition position (slot : AmiTxSlot) : Z := match cursor slot with [] => 0 | _ => consumed slot end.
Record place_ok (slot : AmiTxSlot) (g : AmiTxGso) : Prop := {
  pl_range : 0 <= position slot <= total slot;
  pl_bufs : Forall buf_ok (cursor slot);
  pl_off : cursor_in (cursor slot) (cursor_off slot);
  pl_rest : cursor slot <> [] -> rest (cursor slot) (cursor_off slot) =
    drop (Z.to_nat (Z.min (seg_len (slot_fields slot g)) (consumed slot - (ihl g + thl g)))) (rest (seg_buf slot) (seg_buf_off slot))
}.

(** What a call leaves alone. *)
Definition same_child (s s' : AmiTxSlot) : Prop :=
  packet s' = packet s /\ total s' = total s /\ tx_flags s' = tx_flags s /\ gso s' = gso s /\ seg_index s' = seg_index s /\
  seg_buf s' = seg_buf s /\ seg_buf_off s' = seg_buf_off s /\ batch_count s' = batch_count s.

Lemma same_fields s s' g : same_child s s' -> slot_fields s' g = slot_fields s g /\ slot_data s' g = slot_data s g /\
  slot_sum_field s' g = slot_sum_field s g /\ slot_frame s' g = slot_frame s g.
Proof.
  intros (E1 & E2 & E3 & E4 & E5 & E6 & E7 & E8). unfold slot_frame, slot_sum_field, slot_data, slot_fields.
  by rewrite E1, E2, E3, E5, E6, E7.
Qed.

Lemma fields_in slot g : child_ok slot g -> fields_ok (slot_fields slot g).
Proof.
  intros [Ht Hn _ _ _ _ _ _]. pose proof (tp_bytes _ _ Ht) as Hb. unfold slot_fields, child_fields in *.
  destruct (ami_sana2_gso_slice g (seg_index slot)) as [off n]. simpl in *.
  refine (conj _ (conj Hn (conj _ (conj _ (conj _ _))))); cbn [seq ip_len ip_id ip_sum tcp_flags]; [word_lia..| |].
  - unfold ip_sum_of, is_u16. match goal with |- context [oc16 ?x] => pose proof (oc16_range x) end. lia.
  - by apply child_flags_u8, byte_range.
Qed.

Lemma tcp_field_spec slot g :
  child_ok slot g ->
  exists slot', tcp_field slot g (first_mem (packet slot)) (slot_fields slot g) = Val (Some (slot_sum_field slot g), slot') /\
    same_child slot slot' /\ child_ok slot' g /\ cursor slot' = cursor slot /\ cursor_off slot' = cursor_off slot /\
    consumed slot' = consumed slot.
Proof.
  intros Hc. pose proof (fields_in slot g Hc) as Hf. pose proof Hc as [Ht Hn Hbufs Hsome Hoff Hdata Htot Hsum].
  pose proof Ht as [Hb Hi _ Hth _ Hl]. unfold ami_sana2_gso_tcp_field, slot_sum_field.
  destruct (Z.land (tx_flags slot) ANXD_S2_TXF_TCP =? 0); cbn [negb].
  - destruct (seg_summed slot) eqn:Es; cbn [negb].
    { exists slot. rewrite Hsum by done. done. }
    destruct (gso_walk_spec (seg_buf slot) (seg_buf_off slot) None 0 0 (seg_len (slot_fields slot g)) true)
      as (cur' & off' & acc & -> & _ & _ & _ & _ & Hu & Hoc); [done|done|lia|lia|lia|done|done|]. cbn [obind negb].
    specialize (Hoc eq_refl). rewrite (finish_val g _ _ (slot_data slot g)); [|done|done| |done|exact Hoc].
    2:{ by apply bytes_take, rest_bytes. }
    cbn [obind]. pose proof (tcp_sum_range g (first_mem (packet slot)) (slot_fields slot g) (slot_data slot g)) as Hr.
    rewrite u16_small by (unfold is_u16; lia). eexists. split; [done|]. split; [done|]. split; [|done]. by split.
  - rewrite pseudo_header_val by (done || lia). by exists slot.
Qed.

Lemma frame_length slot g : child_ok slot g -> len (slot_frame slot g) = total slot.
Proof.
  intros [Ht Hn _ _ _ Hdata Htot _]. pose proof Ht as [_ Hi _ Hth _ Hl]. unfold slot_frame, slot_data, front.
  rewrite !length_app, !length_take, patched_length, length_replicate. lia.
Qed.

Lemma whole_spec slot g out oaddr :
  child_ok slot g -> place_ok slot g -> cursor slot <> [] -> consumed slot = 0 -> total slot <= len out ->
  Z.land (tx_flags slot) ANXD_S2_TXF_TCP = 0 ->
  exists slot', gso_copy_whole slot g (first_mem (packet slot)) (slot_fields slot g) out oaddr (total slot) =
      Val (true, slot_frame slot g ++ drop (Z.to_nat (total slot)) out, slot') /\
    same_child slot slot' /\ child_ok slot' g /\ place_ok slot' g /\ position slot' = total slot.
Proof.
  intros Hc [_ Hcb Hco Hcr] Hcur H0 Hout Htx. pose proof (fields_in slot g Hc) as Hf.
  pose proof Hc as [Ht Hn Hbufs Hsome Hoff Hdata Htot Hsum]. pose proof Ht as [Hb Hi _ Hth _ Hl].
  set (ip := first_mem (packet slot)) in *. set (f := slot_fields slot g) in *. set (hlen := ihl g + thl g) in *.
  specialize (Hcr Hcur). rewrite H0 in Hcr. replace (Z.to_nat (Z.min (seg_len f) (0 - hlen))) with 0%nat in Hcr by lia. rewrite drop_0 in Hcr.
  assert (Ed : front (cursor slot) (cursor_off slot) (seg_len f) = slot_data slot g) by (unfold slot_data, front; by rewrite Hcr).
  assert (Ld : len (slot_data slot g) = seg_len f) by (unfold slot_data, front; rewrite length_take; fold f; lia).
  unfold gso_copy_whole. fold hlen. rewrite emit_spec by lia. cbn [obind]. rewrite Z.sub_0_r.
  set (P0 := patched ip (ihl g) f 0). assert (Lp : len (slice P0 0 hlen) = hlen) by (apply slice_length; unfold P0; plen).
  destruct (gso_walk_spec (cursor slot) (cursor_off slot) (Some (slice P0 0 hlen ++ drop (Z.to_nat hlen) out)) oaddr hlen (seg_len f) true)
    as (cur' & off' & acc & -> & W1 & W2 & W3 & W4 & W5 & W6);
    [done|done|rewrite Hcr; lia|lia|lia|cbn [room_for]; rewrite length_app, length_drop; lia|done|].
  cbn [obind negb splice_opt]. specialize (W6 eq_refl). rewrite Ed in *.
  rewrite splice_app, drop_drop by lia. set (n := seg_len f) in *.
  unfold zero_fill. rewrite store_bytes_val by (rewrite ?length_app, ?length_drop, ?length_replicate; lia). cbn [obind].
  rewrite (finish_val g ip f (slot_data slot g)); [|done|done|unfold slot_data, front; by apply bytes_take, rest_bytes|done|done]. cbn [obind].
  rewrite (app_assoc (slice P0 0 hlen)), splice_app, drop_drop, <- !app_assoc by (rewrite length_app; lia).
  rewrite put8_slice by (unfold P0; plen). cbn [obind].
  replace (ihl g + 17) with (ihl g + 16 + 1) by lia. rewrite put8_slice by (unfold P0; plen). cbn [obind].
  fold (patch16 P0 (ihl g + 16) (tcp_sum_of g ip f (slot_data slot g))). unfold P0. rewrite patched_sum by lia.
  eexists. split; [do 3 f_equal|].
  - unfold slot_frame, slot_sum_field. fold f ip hlen n. rewrite Htx. cbn [Z.eqb]. rewrite <- !app_assoc.
    unfold slice. rewrite drop_0. do 3 f_equal; [f_equal; lia|]. rewrite length_replicate. f_equal. lia.
  - split; [done|]. split; [by split|].
    assert (Epos : position (set_consumed (total slot) (set_cursor cur' off' slot)) = total slot).
    { unfold position. simpl. specialize (W4 Hcur). by destruct cur'. }
    split; [|exact Epos]. split; [rewrite Epos; simpl; lia|done|done|]. intros _.
    change (rest cur' off' = drop (Z.to_nat (Z.min n (total slot - hlen))) (rest (seg_buf slot) (seg_buf_off slot))).
    rewrite W3, Hcr. f_equal. lia.
Qed.

(** How much of a request for [n] bytes at [pos] lies before [stop]. *)
Definition part (n pos stop : Z) : Z := if negb (n =? 0) && (pos <? stop) then if n <? stop - pos then n else stop - pos else 0.

Lemma part_val n pos stop : 0 <= n -> part n pos stop = Z.max 0 (Z.min n (stop - pos)).
Proof.
  intros Hn. unfold part. destruct (Z.eqb_spec n 0), (Z.ltb_spec pos stop); cbn [negb andb]; try lia.
  destruct (Z.ltb_spec n (stop - pos)); lia.
Qed.

(** The bytes of the frame from [pos] on: of the header, of the data and of the pad. *)
Lemma frame_parts slot g pos n :
  child_ok slot g -> 0 <= pos -> 0 <= n -> pos + n <= total slot ->
  let f := slot_fields slot g in
  let hlen := ihl g + thl g in
  let n1 := part n pos hlen in
  let n2 := part (n - n1) (pos + n1) (hlen + seg_len f) in
  slice (slot_frame slot g) pos n =
    slice (patched (first_mem (packet slot)) (ihl g) f (slot_sum_field slot g)) pos n1 ++
    take (Z.to_nat n2) (drop (Z.to_nat (Z.min (seg_len f) (pos - hlen))) (rest (seg_buf slot) (seg_buf_off slot))) ++
    replicate (Z.to_nat (n - n1 - n2)) 0.
Proof.
  intros Hc Hp Hn Hpn f hlen n1 n2. pose proof Hc as [Ht Hlen _ _ _ Hdata Htot _]. fold f hlen in Hlen, Hdata, Htot.
  pose proof Ht as [_ Hi _ Hth _ Hl]. fold hlen in Hl.
  assert (E1 : n1 = Z.max 0 (Z.min n (hlen - pos))) by by apply part_val.
  assert (E2 : n2 = Z.max 0 (Z.min (n - n1) (hlen + seg_len f - (pos + n1)))) by (apply part_val; lia).
  unfold slot_frame. fold f hlen. set (P := patched _ _ _ _). set (D := slot_data slot g).
  assert (Lp : len (take (Z.to_nat hlen) P) = hlen) by (rewrite length_take; unfold P; plen).
  assert (Ld : len D = seg_len f) by (unfold D, slot_data, front; rewrite length_take; fold f; lia).
  rewrite slice_app3, Lp, Ld by lia. f_equal; [|f_equal].
  - unfold slice. rewrite skipn_firstn_comm, take_take. f_equal. lia.
  - unfold slice, D, slot_data, front. fold f. rewrite skipn_firstn_comm, take_take.
    destruct (Z_lt_ge_dec 0 n2).
    + f_equal; [lia|f_equal; lia].
    + replace (Z.to_nat n2) with 0%nat by lia. rewrite take_0. match goal with |- take ?k _ = [] => replace k with 0%nat by lia end. done.
  - rewrite slice_zeros by lia. f_equal. lia.
Qed.

Lemma piece_spec slot g out oaddr n :
  child_ok slot g -> place_ok slot g -> cursor slot <> [] -> 0 <= n -> consumed slot + n <= total slot -> n <= len out ->
  exists slot', gso_copy_piece ANXD_S2_TXF_TCP slot g (first_mem (packet slot)) (slot_fields slot g) out oaddr n =
      Val (true, slice (slot_frame slot g) (consumed slot) n ++ drop (Z.to_nat n) out, slot') /\
    same_child slot slot' /\ child_ok slot' g /\ place_ok slot' g /\ position slot' = consumed slot + n.
Proof.
  intros Hc Hp Hcur Hn Htotal Hout. pose proof Hp as [Hrange _ _ Hcr].
  destruct (tcp_field_spec slot g Hc) as (s1 & E1 & Hsame & Hc1 & Ecur & Eoff & Econ).
  destruct (same_fields slot s1 g Hsame) as (Ef & _ & _ & Efr).
  pose proof Hc as [Ht Hlen _ _ _ Hdata Htot _]. pose proof Ht as [_ Hi _ Hth _ Hl]. pose proof (pl_bufs _ _ Hp) as Hcb. pose proof (pl_off _ _ Hp) as Hco.
  specialize (Hcr Hcur). assert (Hpos : 0 <= consumed slot).
  { unfold position in Hrange. destruct (cursor slot); [done|lia]. }
  unfold gso_copy_piece. rewrite E1. cbn [obind]. rewrite Econ, Ecur, Eoff.
  set (pos := consumed slot) in *. set (f := slot_fields slot g) in *. set (hlen := ihl g + thl g) in *.
  fold (part n pos hlen). set (n1 := part n pos hlen). fold (part (n - n1) (pos + n1) (hlen + seg_len f)).
  set (n2 := part (n - n1) (pos + n1) (hlen + seg_len f)).
  assert (N1 : n1 = Z.max 0 (Z.min n (hlen - pos))) by by apply part_val.
  assert (N2 : n2 = Z.max 0 (Z.min (n - n1) (hlen + seg_len f - (pos + n1)))) by (apply part_val; lia).
  set (c := slot_sum_field slot g). set (P := patched (first_mem (packet slot)) (ihl g) f c).
  assert (Lp : len (slice P pos n1) = n1).
  { destruct (Z.eq_dec n1 0) as [E|E]; [by rewrite E, slice_nil by lia|]. apply slice_length; unfold P; plen. }
  assert (Eh : (if n1 =? 0 then Val out else ami_sana2_gso_emit g (first_mem (packet slot)) f c out oaddr pos (pos + n1)) =
    Val (slice P pos n1 ++ drop (Z.to_nat n1) out)).
  { destruct (Z.eqb_spec n1 0) as [E|E]; [by rewrite E, slice_nil, drop_0 by lia|].
    rewrite emit_spec by lia. by replace (pos + n1 - pos) with n1 by lia. }
  rewrite Eh. cbn [obind].
  assert (Lr : 0 <= n2 <= len (rest (cursor slot) (cursor_off slot))) by (rewrite Hcr, length_drop; lia).
  assert (Ew : exists cur' off' acc,
    (if n2 =? 0 then Val (true, cursor slot, cursor_off slot, Some (slice P pos n1 ++ drop (Z.to_nat n1) out), 0)
     else ami_sana2_gso_walk (cursor slot) (cursor_off slot) (Some (slice P pos n1 ++ drop (Z.to_nat n1) out)) oaddr n1 n2 false) =
      Val (true, cur', off', Some (splice (slice P pos n1 ++ drop (Z.to_nat n1) out) n1 (front (cursor slot) (cursor_off slot) n2)), acc) /\
    Forall buf_ok cur' /\ cursor_in cur' off' /\ rest cur' off' = drop (Z.to_nat n2) (rest (cursor slot) (cursor_off slot)) /\ cur' <> []).
  { destruct (Z.eqb_spec n2 0) as [E|E].
    - exists (cursor slot), (cursor_off slot), 0. rewrite E. unfold front. by rewrite take_0, drop_0, splice_empty.
    - destruct (gso_walk_spec (cursor slot) (cursor_off slot) (Some (slice P pos n1 ++ drop (Z.to_nat n1) out)) oaddr n1 n2 false)
        as (cur' & off' & acc & Ew & W1 & W2 & W3 & W4 & _); [done|done|done|lia|lia|cbn [room_for]; rewrite length_app, length_drop; lia|done|].
      exists cur', off', acc. split; [exact Ew|]. split_and!; try done. by apply W4. }
  destruct Ew as (cur' & off' & acc & -> & W1 & W2 & W3 & W4). cbn [obind negb].
  set (D := front (cursor slot) (cursor_off slot) n2). assert (Ld : len D = n2) by (unfold D, front; rewrite length_take; lia).
  rewrite splice_app, drop_drop by lia. unfold zero_fill.
  rewrite store_bytes_val by (rewrite ?length_app, ?length_drop, ?length_replicate; lia). cbn [obind].
  rewrite (app_assoc (slice P pos n1)), splice_app, drop_drop, <- !app_assoc by (rewrite length_app; lia).
  eexists. split; [do 3 f_equal|].
  - rewrite (frame_parts slot g pos n) by (done || lia). fold f hlen n1 n2 c P. rewrite <- Hcr. fold (front (cursor slot) (cursor_off slot) n2). fold D.
    rewrite <- !app_assoc. do 3 f_equal. rewrite length_replicate. f_equal. lia.
  - split; [exact Hsame|]. split; [destruct Hc1; by split|]. set (s' := set_consumed _ _).
    assert (Epos : position s' = pos + n) by (unfold position, s'; simpl; destruct cur'; [done|lia]).
    split; [|exact Epos]. split; [rewrite Epos; simpl; destruct Hsame as (_ & -> & _); lia|done|done|]. intros _.
    assert (Ef' : slot_fields s' g = f) by (rewrite <- Ef; done).
    rewrite Ef'. fold hlen. change (rest cur' off' = drop (Z.to_nat (Z.min (seg_len f) (pos + n1 + n2 + (n - n1 - n2) - hlen))) (rest (seg_buf s1) (seg_buf_off s1))).
    destruct Hsame as (_ & _ & _ & _ & _ & -> & -> & _). rewrite W3, Hcr, drop_drop. f_equal. lia.
Qed.

(** Where a request for [n] bytes is served from: on, or from the start. *)
Definition serve_at (total pos n : Z) : Z := if (total <=? pos) || (total - pos <? n) then 0 else pos.

Lemma rewound_ok slot g :
  child_ok slot g -> let s := set_consumed 0 (set_cursor (seg_buf slot) (seg_buf_off slot) slot) in
  same_child slot s /\ child_ok s g /\ place_ok s g.
Proof.
  intros Hc s. pose proof Hc as [Ht Hlen Hbufs Hsome Hoff Hdata Htot Hsum]. pose proof Ht as [_ Hi _ Hth _ Hl].
  split; [done|]. split; [by split|]. split; [|done|done|].
  - unfold position, s. simpl. destruct (seg_buf slot); [done|lia].
  - intros _. change (rest (seg_buf slot) (seg_buf_off slot) =
      drop (Z.to_nat (Z.min (seg_len (slot_fields slot g)) (0 - (ihl g + thl g)))) (rest (seg_buf slot) (seg_buf_off slot))).
    replace (Z.to_nat _) with 0%nat by lia. by rewrite drop_0.
Qed.

Lemma gso_copy_spec slot g out oaddr n :
  child_ok slot g -> place_ok slot g -> 0 <= n <= total slot -> n <= len out ->
  let pos := serve_at (total slot) (position slot) n in
  exists slot', gso_copy slot g out oaddr n = Val (true, slice (slot_frame slot g) pos n ++ drop (Z.to_nat n) out, slot') /\
    same_child slot slot' /\ child_ok slot' g /\ place_ok slot' g /\ position slot' = pos + n.
Proof.
  intros Hc Hp Hn Hout pos. unfold ami_sana2_gso_copy. pose proof Hc as [Ht Hlen Hbufs Hsome Hoff Hdata Htot Hsum].
  pose proof Ht as [Hb Hi _ Hth _ Hl].
  set (s1 := rewind slot (seg_buf slot) (seg_buf_off slot) n).
  assert (R : same_child slot s1 /\ child_ok s1 g /\ place_ok s1 g /\ cursor s1 <> [] /\ consumed s1 = pos /\
    seg_summed s1 = seg_summed slot).
  { destruct (rewound_ok slot g Hc) as (R1 & R2 & R3). pose proof (pl_range _ _ Hp) as Hr. unfold s1, rewind, pos, serve_at, position in *.
    destruct (cursor slot) as [|b bs] eqn:Ec; cbn [orb].
    - split_and!; try done. by repeat case_match.
    - destruct (_ || _); split_and!; try done. by rewrite Ec. }
  destruct R as (Hsame & Hc1 & Hp1 & Hcur & Hcon & Hss).
  destruct (same_fields slot s1 g Hsame) as (Ef & _ & _ & Efr). pose proof Hsame as (E1 & E2 & E3 & E4 & E5 & E6 & E7 & E8).
  assert (Em : forall A (x y : A), match seg_buf slot with [] => x | _ :: _ => y end = y) by (intros; by destruct (seg_buf slot)).
  rewrite E6, Em, E5, fields_val by (done || lia). cbn [obind]. fold (slot_fields slot g). rewrite E2, E3.
  assert (Hpos : 0 <= pos /\ pos + n <= total slot).
  { unfold pos, serve_at. pose proof (pl_range _ _ Hp). destruct (Z.leb_spec (total slot) (position slot)), (Z.ltb_spec (total slot - position slot) n);
      cbn [orb]; lia. }
  destruct (_ && _ && _ && _) eqn:G.
  - rewrite !andb_true_iff, !Z.eqb_eq in G. destruct G as [[[G1 G2] ->] G4].
    destruct (whole_spec s1 g out oaddr) as (s' & Ew & W1 & W2 & W3 & W4); [done..|by rewrite E2|by rewrite E3|].
    rewrite E1, Ef, E2, Efr in Ew. exists s'. rewrite Ew. split; [|split_and!; try done].
    + rewrite <- Hcon, G2. rewrite slice_all by by apply frame_length. done.
    + destruct W1 as (F1 & F2 & F3 & F4 & F5 & F6 & F7 & F8). repeat split; congruence.
    + rewrite W4, E2. lia.
  - destruct (piece_spec s1 g out oaddr n) as (s' & Ew & W1 & W2 & W3 & W4); [done..|lia|rewrite E2; lia|done|].
    rewrite E1, Ef, Efr, Hcon in *. exists s'. rewrite Ew. split; [done|]. split_and!; try done.
    destruct W1 as (F1 & F2 & F3 & F4 & F5 & F6 & F7 & F8). repeat split; congruence.
Qed.
End Copy.
