(* ===== verification/TxBlock.v ===== *)
(** * Blocks and their children (src/src/sana2/sana2_copy.c)

    Where a child's slice lies, that the placement finds it whatever child it was at
    before, and what a parsed block is. *)

From Stdlib Require Import ZArith Lia.
From stdpp Require Import base numbers list.
From S2P Require Import Prelude Checksum RxVerify RxSpec RxClaims TxCopy TxSum TxFrame.

#[local] Open Scope Z_scope.

Local Abbreviation len m := (Z.of_nat (length m)).

Definition hlen (g : AmiTxGso) : Z := ihl g + thl g.
Definition payload (g : AmiTxGso) (parent : list NX_PACKET) : list Z := drop (Z.to_nat (hlen g)) (data_of parent).

(** What of a block never changes. *)
Record shape_ok (g : AmiTxGso) (parent : list NX_PACKET) : Prop := {
  sh_template : template_ok g (first_mem parent);
  sh_bufs : Forall buf_ok parent;
  sh_first : match parent with p :: _ => hlen g <= packet_size p | [] => False end;
  sh_mss : 1 <= mss g <= 65535;
  sh_base : 0 <= base g;
  sh_end : end_ g <= len (payload g parent) /\ hlen g + end_ g <= 65535;
  sh_segs : 1 <= segs g <= 255;
  sh_cut : base g + (segs g - 1) * mss g < end_ g <= base g + segs g * mss g
}.

(** The block's cursor is somewhere in the chain. *)
Definition block_cursor (g : AmiTxGso) (parent : list NX_PACKET) : Prop :=
  cur_buf g = [] \/ exists pre, parent = pre ++ cur_buf g /\ cur_start g = len (data_of pre) - hlen g.

Definition child_off (g : AmiTxGso) (seg : Z) : Z := base g + seg * mss g.
Definition child_len (g : AmiTxGso) (seg : Z) : Z := Z.min (mss g) (end_ g - child_off g seg).

Lemma slice_val g parent seg :
  shape_ok g parent -> 0 <= seg < segs g ->
  ami_sana2_gso_slice g seg = (child_off g seg, child_len g seg) /\
  1 <= child_len g seg <= mss g /\ 0 <= child_off g seg /\ child_off g seg + child_len g seg <= end_ g /\
  child_len g seg <= 65535.
Proof.
  intros [[_ Hi _ Hth _ _] _ _ Hm Hb [_ He] Hs Hc] Hseg. unfold hlen in He. unfold ami_sana2_gso_slice, child_len, child_off.
  assert (0 <= seg * mss g <= (segs g - 1) * mss g) by nia.
  rewrite (u32_small (base g + seg * mss g)) by (unfold is_u32; lia).
  rewrite (u32_small (end_ g - _)) by (unfold is_u32; lia).
  destruct (Z.ltb_spec (mss g) (end_ g - (base g + seg * mss g))).
  all: split; [f_equal; lia|lia].
Qed.

(** The last child ends the block, each other one is full. *)
Lemma child_len_last g parent : shape_ok g parent -> child_off g (segs g - 1) + child_len g (segs g - 1) = end_ g.
Proof. intros [_ _ _ _ _ _ _ Hc]. unfold child_len, child_off in *. lia. Qed.

Lemma child_len_full g parent seg : shape_ok g parent -> 0 <= seg -> seg + 1 < segs g -> child_len g seg = mss g.
Proof. intros [_ _ _ Hm _ _ Hs Hc] H0 Hseg. unfold child_len, child_off. assert ((seg + 1) * mss g <= (segs g - 1) * mss g) by nia. lia. Qed.

Lemma chain_data_app a b : data_of (a ++ b) = data_of a ++ data_of b.
Proof. unfold data_of. by rewrite map_app, concat_app. Qed.

Lemma place_from_spec buf seg_off start :
  Forall buf_ok buf -> start <= seg_off -> seg_off < start + len (data_of buf) ->
  exists pre p next, place_from buf seg_off start = (p :: next, start + len (data_of pre)) /\ buf = pre ++ p :: next /\
    start + len (data_of pre) <= seg_off < start + len (data_of pre) + packet_size p.
Proof.
  revert start. induction buf as [|p next IH]; intros start Hb Hs Hl; [unfold data_of in Hl; simpl in Hl; lia|].
  rewrite Forall_cons in Hb. destruct Hb as [Hp Hb]. cbn [place_from]. rewrite have_size by done.
  pose proof (size_of_data p Hp) as Lp. unfold data_of in Hl. cbn [map concat] in Hl. rewrite length_app in Hl. fold (data_of next) in Hl.
  destruct (Z.ltb_spec seg_off (start + packet_size p)).
  - exists [], p, next. unfold data_of. simpl. rewrite Z.add_0_r. split; [done|]. split; [done|lia].
  - destruct (IH (start + packet_size p) Hb) as (pre & q & r & E & -> & Hr); [lia..|].
    exists (p :: pre), q, r. assert (Ed : len (data_of (p :: pre)) = packet_size p + len (data_of pre)).
    { unfold data_of. cbn [map concat]. rewrite length_app. lia. }
    rewrite E, Ed. split; [f_equal; lia|]. split; [done|lia].
Qed.

Lemma payload_length g parent : len (payload g parent) = Z.max 0 (len (data_of parent) - Z.max 0 (hlen g)).
Proof. unfold payload. rewrite length_drop. lia. Qed.

(** What a placement changes of the block. *)
Definition same_block (g g' : AmiTxGso) : Prop :=
  base g' = base g /\ end_ g' = end_ g /\ mss g' = mss g /\ ihl g' = ihl g /\ thl g' = thl g /\ segs g' = segs g /\ mode g' = mode g.

Lemma same_block_shape g g' parent : same_block g g' -> shape_ok g parent -> shape_ok g' parent.
Proof.
  intros (E1 & E2 & E3 & E4 & E5 & E6 & E7) [[T1 T2 T3 T4 T5 T6] H2 H3 H4 H5 H6 H7 H8].
  split; unfold payload, hlen in *; rewrite ?E1, ?E2, ?E3, ?E4, ?E5, ?E6; try done. split; rewrite ?E4, ?E5; done.
Qed.

Lemma place_spec slot g parent seg :
  shape_ok g parent -> block_cursor g parent -> 0 <= seg < segs g ->
  exists slot' g', ami_sana2_gso_place slot g parent seg = (slot', g', hlen g + child_len g seg) /\
    same_block g g' /\ next_seg g' = next_seg g /\ block_cursor g' parent /\
    slot' = set_seg parent seg (seg_buf slot') (seg_buf_off slot') slot /\
    Forall buf_ok (seg_buf slot') /\ seg_buf slot' <> [] /\ cursor_in (seg_buf slot') (seg_buf_off slot') /\
    rest (seg_buf slot') (seg_buf_off slot') = drop (Z.to_nat (child_off g seg)) (payload g parent).
Proof.
  intros Hsh Hcur Hseg. pose proof Hsh as [Ht Hb Hf Hm Hb0 [He _] Hs Hc]. destruct (slice_val g parent seg Hsh Hseg) as (Esl & Hn & Ho & Hend & _).
  pose proof Ht as [_ Hi _ Hth _ _]. rewrite payload_length in He.
  unfold ami_sana2_gso_place. rewrite (u8_small seg) by (unfold is_u8; lia). rewrite Esl.
  set (g1 := if _ || _ then _ else g).
  assert (H1 : same_block g g1 /\ next_seg g1 = next_seg g /\ cur_start g1 <= child_off g seg /\
    exists pre, parent = pre ++ cur_buf g1 /\ cur_start g1 = len (data_of pre) - hlen g).
  { unfold g1. fold (hlen g). destruct (_ || _) eqn:G.
    - split_and!; try done; [simpl; unfold hlen; lia|]. exists []. simpl. split; [done|]. unfold data_of, hlen. simpl. lia.
    - apply orb_false_iff in G as [G1 G2]. apply Z.ltb_ge in G2. split_and!; try done.
      destruct Hcur as [Hcur|Hcur]; [by rewrite Hcur in G1|exact Hcur]. }
  clearbody g1. destruct H1 as (Hsame & Hnext & Hle & pre & Epar & Estart).
  rewrite Epar, Forall_app in Hb. destruct Hb as [Hb1 Hb2].
  assert (Lall : len (data_of parent) = len (data_of pre) + len (data_of (cur_buf g1))) by (rewrite Epar, chain_data_app, length_app; lia).
  destruct (place_from_spec (cur_buf g1) (child_off g seg) (cur_start g1)) as (mid & p & next & E & Ebuf & Hr); [done|done|lia|].
  rewrite E. cbn zeta. rewrite Ebuf, Forall_app in Hb2. destruct Hb2 as [Hb2 Hb3].
  assert (Hg : same_block g (set_block_cursor (p :: next) (cur_start g1 + len (data_of mid)) g1)) by exact Hsame.
  destruct Hsame as (_ & _ & _ & Eihl & Ethl & _). eexists _, _. split; [unfold hlen; rewrite <- Eihl, <- Ethl; reflexivity|].
  split; [exact Hg|]. split; [exact Hnext|]. split; [right; exists (pre ++ mid); cbn [cur_buf cur_start set_block_cursor]; split|].
  { by rewrite Epar, Ebuf, <- app_assoc. }
  { rewrite chain_data_app, length_app. unfold hlen in *. cbn [ihl thl set_block_cursor]. rewrite Eihl, Ethl. lia. }
  split; [done|]. split; [done|]. split; [done|]. split; [simpl; lia|]. cbn [seg_buf seg_buf_off set_seg].
  unfold rest, payload. rewrite drop_drop, Epar, Ebuf, !chain_data_app, app_assoc.
  rewrite drop_app_ge by (rewrite length_app; unfold hlen in *; lia). rewrite length_app. unfold hlen in *. f_equal. lia.
Qed.

(** ** Parsing *)

(** What the wire says of the template: IPv4, TCP, whole, and header lengths that are the block's. *)
Record wire_ok (g : AmiTxGso) (ip : list Z) : Prop := {
  wi_version : byte ip 0 / 16 = 4;
  wi_ihl : ihl_of ip = ihl g;
  wi_proto : byte ip 9 = 6;
  wi_whole : Z.land (half ip 6) 0x3FFF = 0;
  wi_thl : thl g = byte ip (ihl g + 12) / 16 * 4;
  wi_flags : Z.land (byte ip (ihl g + 13)) (Z.lor (Z.lor AMI_TCP_SYN AMI_TCP_RST) AMI_TCP_URG) = 0
}.

Section Parse.
Context (NX_TCP_GSO_VERSION NX_TCP_GSO_REPAIR sizeof_info : Z).
Local Abbreviation parse := (ami_sana2_gso_parse NX_TCP_GSO_VERSION NX_TCP_GSO_REPAIR sizeof_info).
Local Abbreviation mode_of := (gso_mode NX_TCP_GSO_VERSION NX_TCP_GSO_REPAIR sizeof_info).

Definition info_ok (info : NX_TCP_GSO_INFO) : Prop :=
  is_u16 (info_mss info) /\ is_u16 (info_offset info) /\ is_u16 (info_length info).

Lemma mode_mss room info m : info_ok info -> mode_of room info = Some m -> 1 <= info_mss info <= 65535 /\ (m = 0 \/ m = AMI_SANA2_GSO_REPAIR).
Proof.
  intros (Hm & _) H. unfold is_u16 in Hm. unfold gso_mode in H. destruct (room <? 4); [done|].
  destruct (Z.eqb_spec (info_mss info) 0); [done|]. split; [lia|].
  repeat (case_match; simplify_eq; try done); auto.
Qed.

(** A block or one repaired child: what the children cover. *)
Definition span_ok (g : AmiTxGso) (info : NX_TCP_GSO_INFO) (m n : Z) : Prop :=
  if m =? 0 then base g = 0 /\ end_ g = n /\ mode g = 0
  else base g = info_offset info /\ end_ g = info_offset info + info_length info /\ segs g = 1 /\
    mode g = if end_ g =? n then Z.lor m AMI_SANA2_GSO_TAIL else m.

Lemma parse_spec p next room info mtu :
  let parent := p :: next in
  Forall buf_ok parent -> info_ok info ->
  exists r, parse parent room info (len (data_of parent)) mtu = Val r /\
    match r with
    | None => True
    | Some g => shape_ok g parent /\ block_cursor g parent /\ next_seg g = 0 /\ mss g = info_mss info /\
        wire_ok g (nx_packet_mem p) /\ exists m, mode_of room info = Some m /\ span_ok g info m (len (payload g parent))
    end.
Proof.
  intros parent Hb Hinfo. unfold ami_sana2_gso_parse, parent. destruct (mode_of room info) as [m|] eqn:Em; [|by eexists].
  destruct (mode_mss room info m Hinfo Em) as [Hmss Hm]. pose proof Hb as Hb2. apply Forall_cons in Hb2 as [Hp Hnext].
  set (ip := nx_packet_mem p). rewrite have_size by done. pose proof Hp as (Hs & Hl & Hbytes). fold ip in Hl, Hbytes.
  destruct (Z.ltb_spec (packet_size p) 40); [by eexists|]. rewrite fetch_byte by lia. cbn [obind].
  pose proof (byte_range ip 0 Hbytes) as R0. unfold is_u8 in R0.
  destruct (Z.eqb_spec (Z.land (byte ip 0) 0xF0) 0x40) as [Hv|]; [|by eexists]. cbn [negb].
  rewrite fetch_byte by lia. cbn [obind]. destruct (Z.eqb_spec (byte ip 9) 6) as [H6|]; [|by eexists]. cbn [negb].
  assert (Ei : Z.land (byte ip 0) 0x0F * 4 = ihl_of ip) by (unfold ihl_of; rewrite Z.shiftl_mul_pow2; done || lia).
  rewrite Ei. pose proof (ihl_range ip Hbytes) as [Hi Hi4].
  destruct (Z.ltb_spec (ihl_of ip) 20); [by eexists|]. destruct (Z.ltb_spec (packet_size p) (ihl_of ip + 20)); [by eexists|]. cbn [orb].
  unfold ami_sana2_tx_be16. rewrite load16_half by (done || lia). cbn [obind].
  destruct (Z.eqb_spec (Z.land (half ip 6) 0x3FFF) 0) as [Hfr|]; [|by eexists]. cbn [negb].
  rewrite fetch_byte by lia. cbn [obind]. rewrite Z.shiftr_div_pow2 by lia. change (2 ^ 4) with 16.
  pose proof (byte_range ip (ihl_of ip + 12) Hbytes) as R12. unfold is_u8 in R12.
  set (t := byte ip (ihl_of ip + 12) / 16 * 4). assert (Ht : 0 <= t <= 60 /\ t mod 4 = 0) by (unfold t; word_lia).
  destruct (Z.ltb_spec t 20); [by eexists|]. destruct (Z.ltb_spec (packet_size p) (ihl_of ip + t)); [by eexists|]. cbn [orb].
  rewrite fetch_byte by lia. cbn [obind].
  destruct (Z.eqb_spec (Z.land (byte ip (ihl_of ip + 13)) (Z.lor (Z.lor AMI_TCP_SYN AMI_TCP_RST) AMI_TCP_URG)) 0) as [Hfl|]; [|by eexists]. cbn [negb].
  set (n := len (data_of (p :: next))). destruct (Z.leb_spec n (ihl_of ip + t)); [by eexists|].
  destruct (Z.ltb_spec 0xFFFF n); [by eexists|]. cbn [orb]. destruct (_ && _); [by eexists|].
  set (pay := n - ihl_of ip - t). assert (Hpay : 0 < pay <= 65535) by (unfold pay; lia).
  assert (G : forall b e k md, 0 <= b -> e <= pay -> 1 <= k <= 255 -> b + (k - 1) * info_mss info < e <= b + k * info_mss info ->
    let g := TxGso parent (- (ihl_of ip + t)) (u16 b) (u16 e) (info_mss info) (u8 (ihl_of ip)) (u8 t) (u8 k) 0 md in
    shape_ok g parent /\ block_cursor g parent /\ next_seg g = 0 /\ mss g = info_mss info /\ wire_ok g ip /\
    base g = b /\ end_ g = e /\ len (payload g parent) = pay /\
    forall x y : Z, (if end_ g =? len (payload g parent) then x else y) = if e =? pay then x else y).
  { intros b e k md Hb0 He Hk Hc. assert (0 <= (k - 1) * info_mss info) by nia. rewrite (u16_small b), (u16_small e) by (unfold is_u16; lia).
    rewrite (u8_small (ihl_of ip)), (u8_small t), (u8_small k) by (unfold is_u8; lia). intros g.
    assert (Epay : len (payload g parent) = pay) by (rewrite payload_length; change (hlen g) with (ihl_of ip + t); fold parent in n; fold n; unfold pay; lia).
    split; [|split_and!; try done].
    - split; try done; try lia; [change (template_ok g ip); split; cbn [ihl thl g]; done || lia|split; [rewrite Epay; done|change (ihl_of ip + t + e <= 65535); unfold pay in *; lia]].
    - right. exists []. split; [done|]. unfold hlen, data_of. simpl. lia.
    - split; try done.
      assert (Ev : Z.shiftr (Z.land (byte ip 0) 0xF0) 4 = 4) by by rewrite Hv. rewrite Z.shiftr_land in Ev.
      change (Z.shiftr 0xF0 4) with (Z.ones 4) in Ev. rewrite Z.land_ones, Z.shiftr_div_pow2 in Ev by lia. word_lia.
    - intros x y. by rewrite Epay. }
  destruct Hm as [-> | ->]; cbn [negb Z.eqb AMI_SANA2_GSO_REPAIR].
  - set (k := (pay + info_mss info - 1) / info_mss info). unfold AMI_SANA2_GSO_MAX_SEGS. destruct (Z.ltb_spec 255 k); [by eexists|].
    assert (Hk : (k - 1) * info_mss info < pay <= k * info_mss info).
    { pose proof (Z.div_mod (pay + info_mss info - 1) (info_mss info) ltac:(lia)). pose proof (Z.mod_pos_bound (pay + info_mss info - 1) (info_mss info) ltac:(lia)).
      fold k in H7. nia. }
    destruct (G 0 pay k 0) as (G1 & G2 & G3 & G4 & G5 & G6 & G7 & G8 & G9); [lia|lia|unfold pay in *; nia|lia|].
    eexists. split; [done|]. split_and!; try done. exists 0. split; [done|]. exact (conj G6 (conj (eq_trans G7 (eq_sym G8)) eq_refl)).
  - destruct Hinfo as (_ & Ho & Hn). unfold is_u16 in Ho, Hn. rewrite (u32_small (info_offset info + info_length info)) by (unfold is_u32; lia).
    destruct (Z.eqb_spec (info_length info) 0); [by eexists|]. destruct (Z.ltb_spec (info_mss info) (info_length info)); [by eexists|].
    destruct (Z.ltb_spec pay (info_offset info + info_length info)); [by eexists|]. cbn [orb].
    set (md := if _ =? pay then _ else _).
    destruct (G (info_offset info) (info_offset info + info_length info) 1 md) as (G1 & G2 & G3 & G4 & G5 & G6 & G7 & G8 & G9); [lia..|].
    eexists. split; [done|]. split_and!; try done. exists AMI_SANA2_GSO_REPAIR. split; [done|]. 
    exact (conj G6 (conj G7 (conj eq_refl (eq_sym (G9 _ _))))).
Qed.
End Parse.

(** * What a child carries (src/src/sana2/sana2_copy.c)

    The frame of a child is a datagram the receiver's check accepts, and the children
    of a block carry its payload once, in order. *)

(** ** The header words of a patched template *)

Section Header.
Context (g : AmiTxGso) (ip : list Z) (f : AmiGsoFields) (c : Z).
Hypothesis Ht : template_ok g ip.
Hypothesis Hf : fields_ok f.

Local Abbreviation P := (patched ip (ihl g) f c).

(** The three words that change in the IP header; the TCP header is past it. *)
Definition ip_patched : list Z := patch16 (patch16 (patch16 ip 2 (ip_len f)) 4 (ip_id f)) 10 (ip_sum f).

Lemma patched_ip_slice a n : 0 <= a -> a + n <= ihl g -> slice P a n = slice ip_patched a n.
Proof.
  intros Ha Hn. destruct Ht as [_ Hi _ _ _ _]. unfold patched. fold ip_patched.
  by rewrite ?slice_patch16_out, slice_patch_out, ?slice_patch16_out by lia.
Qed.

Lemma patched_ip_byte j : 0 <= j < ihl g -> byte P j = byte ip_patched j.
Proof.
  intros Hj. destruct Ht as [_ Hi _ Hth _ Hl]. pose proof (patched_ip_slice j 1 ltac:(lia) ltac:(lia)) as E.
  apply (f_equal (fun l => nth 0 l 0)) in E. 
  rewrite (slice_first P j 1), (slice_first ip_patched j 1) in E by (unfold ip_patched; plen). exact E.
Qed.

Lemma patched_ip_half j : 0 <= j -> j + 1 < ihl g -> half P j = half ip_patched j.
Proof. intros H1 H2. unfold half. by rewrite !patched_ip_byte by lia. Qed.

Lemma ip_patched_byte j : 0 <= j -> j = 0 \/ j = 9 \/ 12 <= j -> byte ip_patched j = byte ip j.
Proof.
  intros H0 Hj. destruct Ht as [_ Hi _ Hth _ Hl]. unfold ip_patched, patch16. rewrite !byte_patch by plen.
  by rewrite !(proj2 (Z.eqb_neq _ _)) by lia.
Qed.

Lemma ip_patched_len : half ip_patched 2 = ip_len f.
Proof.
  destruct Ht as [_ Hi _ Hth _ Hl]. destruct Hf as (_ & _ & H2 & _). unfold ip_patched.
  rewrite half_patch16_ne, half_patch16_ne, half_patch16_eq by plen. by apply u16_small.
Qed.

Lemma ip_patched_frag : half ip_patched 6 = half ip 6.
Proof. destruct Ht as [_ Hi _ Hth _ Hl]. unfold ip_patched. by rewrite !half_patch16_ne by plen. Qed.

Lemma ip_patched_sum :
  sum16 (slice ip_patched 0 (ihl g)) =
    sum16 (slice ip 0 (ihl g)) - half ip 2 + ip_len f - half ip 4 + ip_id f - half ip 10 + ip_sum f.
Proof.
  destruct Ht as [Hb Hi _ Hth _ Hl]. destruct Hf as (_ & _ & H2 & H3 & H4 & _). unfold ip_patched.
  rewrite !sum_patch16 by (done || (repeat apply patch16_bytes; done) || plen).
  rewrite !half_patch16_ne by plen. rewrite !u16_small by done. lia.
Qed.

Lemma patched_addrs : slice P 12 8 = slice ip 12 8.
Proof.
  destruct Ht as [_ Hi _ Hth _ Hl]. rewrite patched_ip_slice by lia. unfold ip_patched. by rewrite !slice_patch16_out by lia.
Qed.

Lemma patched_tcp_sum :
  0 <= c <= 65535 -> sum16 (slice P (ihl g) (thl g)) = sum16 (slice (patched ip (ihl g) f 0) (ihl g) (thl g)) + c.
Proof.
  intros Hc. destruct Ht as [Hb Hi _ Hth _ Hl]. rewrite <- (patched_sum ip (ihl g) f c) by lia.
  rewrite sum_patch16 by ((by apply patched_bytes) || plen || (replace (ihl g + 16 - ihl g) with 16 by lia; done)).
  rewrite (tcp_word g ip f 16), u16_small by (done || lia || (unfold is_u16; lia)). cbn [Z.eqb Pos.eqb]. lia.
Qed.
End Header.

(** ** The frame *)

Section Frame.
Context (ANXD_S2_TXF_TCP : Z) (slot : AmiTxSlot) (g : AmiTxGso).
Hypothesis Hc : child_ok slot g.
Hypothesis Htx : Z.land (tx_flags slot) ANXD_S2_TXF_TCP = 0.

Local Abbreviation ip := (first_mem (packet slot)).
Local Abbreviation f := (slot_fields slot g).
Local Abbreviation D := (slot_data slot g).
Local Abbreviation F := (slot_frame ANXD_S2_TXF_TCP slot g).
Local Abbreviation Q := (patched ip (ihl g) f (tcp_sum_of g ip f D)).

Lemma frame_split : F = take (Z.to_nat (hlen g)) Q ++ D ++ replicate (Z.to_nat (total slot - hlen g - seg_len f)) 0.
Proof. unfold slot_frame, slot_sum_field. by rewrite Htx. Qed.

Lemma data_length : len D = seg_len f.
Proof. destruct Hc. unfold slot_data, front. rewrite length_take. lia. Qed.

Lemma data_bytes_ok : bytes_ok D.
Proof. destruct Hc. by apply bytes_take, rest_bytes. Qed.

Lemma header_length : len (take (Z.to_nat (hlen g)) Q) = hlen g.
Proof. destruct Hc as [[_ Hi _ Hth _ Hl] _ _ _ _ _ _ _]. rewrite length_take. unfold hlen. plen. Qed.

Lemma frame_slice a n : 0 <= a -> 0 <= n -> a + n <= hlen g -> slice F a n = slice Q a n.
Proof.
  intros Ha Hn Hl. rewrite frame_split. unfold slice. pose proof header_length.
  rewrite drop_app_le, take_app_le by (rewrite ?length_drop; lia). rewrite skipn_firstn_comm, take_take. f_equal. lia.
Qed.

Lemma frame_byte j : 0 <= j < hlen g -> byte F j = byte Q j.
Proof.
  intros Hj. rewrite frame_split. pose proof header_length. unfold byte. rewrite !nth_lookup.
  rewrite lookup_app_l, lookup_take_lt by lia. done.
Qed.

Lemma frame_half j : 0 <= j -> j + 1 < hlen g -> half F j = half Q j.
Proof. intros H1 H2. unfold half. by rewrite !frame_byte by lia. Qed.

Lemma frame_bytes : bytes_ok F.
Proof.
  destruct Hc as [Ht _ _ _ _ _ _ _]. rewrite frame_split. unfold bytes_ok. rewrite !Forall_app. split_and!.
  - apply bytes_take, patched_bytes, Ht.
  - exact data_bytes_ok.
  - apply Forall_replicate. word_lia.
Qed.

(** The TCP header and the data behind it. *)
Lemma frame_transport : slice F (ihl g) (thl g + seg_len f) = slice Q (ihl g) (thl g) ++ D.
Proof.
  destruct Hc as [[_ Hi _ Hth _ Hl] Hn _ _ _ _ _ _]. rewrite slice_more by lia.
  rewrite frame_slice by (unfold hlen; lia). f_equal. rewrite frame_split. unfold slice. pose proof header_length. pose proof data_length.
  rewrite drop_app_ge by (unfold hlen in *; lia). replace (_ - _)%nat with 0%nat by (unfold hlen in *; lia).
  rewrite drop_0, take_app_le, take_ge by lia. done.
Qed.

Context (wire : wire_ok g ip) (Hfit : hlen g + seg_len f <= 65535).

Lemma frame_ip_len : half F 2 = hlen g + seg_len f.
Proof.
  pose proof Hc as [Ht Hn _ _ _ _ _ _]. pose proof Ht as [_ Hi _ Hth _ Hl].
  rewrite frame_half, (patched_ip_half g), (ip_patched_len g) by first [done | lia | unfold hlen; lia | by apply fields_in].
  unfold slot_fields, child_fields in *. destruct (ami_sana2_gso_slice g (seg_index slot)) as [off n]. cbn [ip_len seg_len] in *.
  apply u16_small. unfold hlen, is_u16 in *. lia.
Qed.

Lemma frame_ihl : ihl_of F = ihl g.
Proof.
  pose proof Hc as [Ht _ _ _ _ _ _ _]. pose proof Ht as [_ Hi _ Hth _ Hl].
  rewrite <- (wi_ihl g ip wire). unfold ihl_of. rewrite frame_byte, (patched_ip_byte g), (ip_patched_byte g) by first [done | lia | unfold hlen; lia].
  done.
Qed.

Lemma frame_version : byte F 0 / 16 = 4.
Proof.
  pose proof Hc as [Ht _ _ _ _ _ _ _]. pose proof Ht as [_ Hi _ Hth _ Hl].
  rewrite frame_byte, (patched_ip_byte g), (ip_patched_byte g) by first [done | lia | unfold hlen; lia]. apply wire.
Qed.

Lemma frame_proto : byte F 9 = 6.
Proof.
  pose proof Hc as [Ht _ _ _ _ _ _ _]. pose proof Ht as [_ Hi _ Hth _ Hl].
  rewrite frame_byte, (patched_ip_byte g), (ip_patched_byte g) by first [done | lia | unfold hlen; lia]. apply wire.
Qed.

(** RFC 1624: the header sum stays right. *)
Lemma frame_head_good : head_good ip = true -> head_good F = true.
Proof.
  intros Hg. pose proof Hc as [Ht Hn _ _ _ _ _ _]. pose proof Ht as [Hb Hi _ Hth _ Hl]. pose proof (fields_in slot g Hc) as Hf.
  unfold head_good in *. rewrite frame_ihl. rewrite (wi_ihl g ip wire) in Hg. rewrite frame_slice by (unfold hlen; lia).
  rewrite (patched_ip_slice g), (ip_patched_sum g) by (done || lia). apply Z.eqb_eq. apply Z.eqb_eq in Hg.
  set (S := sum16 (slice ip 0 (ihl g))) in *.
  assert (E : ip_sum f = ip_sum_of ip (ip_len f) (ip_id f)).
  { unfold slot_fields, child_fields. by destruct (ami_sana2_gso_slice g (seg_index slot)). }
  rewrite E. unfold ip_sum_of. destruct Hf as (_ & _ & H2 & H3 & _). unfold is_u16 in *.
  pose proof (half_range ip 2 Hb). pose proof (half_range ip 4 Hb). pose proof (half_range ip 10 Hb).
  set (X := 65535 - half ip 10 + (65535 - half ip 2 + ip_len f) + (65535 - half ip 4 + ip_id f)).
  pose proof (oc16_mod X ltac:(unfold X; lia)) as Ex.
  replace (S - half ip 2 + ip_len f - half ip 4 + ip_id f - half ip 10 + (65535 - oc16 X)) with
    (S + (X - oc16 X) + (-2) * 65535) by (unfold X; lia).
  rewrite Z.mod_add, Z.add_mod, Hg, Zminus_mod, Ex, Z.sub_diag by lia. done.
Qed.

(** The checksum makes the sum all ones. *)
Lemma frame_good : good4 1 2 F = true.
Proof.
  pose proof Hc as [Ht Hn _ _ _ _ _ _]. pose proof Ht as [Hb Hi _ Hth Ht4 Hl]. pose proof (fields_in slot g Hc) as Hf.
  unfold good4, payload_of. rewrite frame_ihl, frame_proto, frame_ip_len. change (RxVerify.no_pseudo4 1 2 6) with false. cbn iota.
  replace (hlen g + seg_len f - ihl g) with (thl g + seg_len f) by (unfold hlen; lia).
  rewrite frame_transport, frame_slice, patched_addrs by (done || (unfold hlen; lia)).
  pose proof (tcp_sum_range g ip f D) as Rc. assert (Hev : Nat.Even (length (slice Q (ihl g) (thl g)))).
  { exists (Z.to_nat (thl g / 2)). pose proof (slice_length Q (ihl g) (thl g) ltac:(lia) ltac:(lia) ltac:(plen)). word_lia. }
  rewrite sum16_app, patched_tcp_sum by (done || lia).
  pose proof (sum16_slice ip 12 8 Hb). pose proof (sum16_nonneg D data_bytes_ok).
  pose proof (sum16_slice (patched ip (ihl g) f 0) (ihl g) (thl g) (patched_bytes _ _ _ _ Hb)).
  rewrite oc16_full by lia. apply Z.eqb_eq.
  assert (E : tcp_total g ip f D = sum16 D + sum16 (slice (patched ip (ihl g) f 0) (ihl g) (thl g)) +
    (sum16 (slice ip 12 8) + 6 + (thl g + seg_len f))) by done.
  set (T := tcp_total g ip f D) in *. pose proof (oc16_mod T ltac:(lia)) as Eo.
  assert (Ec : exists k, tcp_sum_of g ip f D = 65535 * k - oc16 T).
  { unfold tcp_sum_of. fold T. destruct (Z.eqb_spec (65535 - oc16 T) 0); [exists 2; lia|exists 1; lia]. }
  destruct Ec as [k Ec]. rewrite Ec.
  replace (_ + _) with (T - oc16 T + k * 65535) by lia. rewrite Z.mod_add, Zminus_mod, Eo, Z.sub_diag by lia. done.
Qed.

Lemma frame_transport_ok n : hlen g + seg_len f <= n -> transport4 6 17 1 2 F n = true.
Proof.
  intros Hle. pose proof Hc as [Ht Hn _ _ _ _ _ _]. pose proof Ht as [_ Hi _ Hth _ Hl]. unfold transport4.
  rewrite frame_ihl, frame_proto, frame_ip_len, frame_half, (patched_ip_half g), (ip_patched_frag g), (wi_whole g ip wire)
    by first [done | lia | unfold hlen; lia].
  rewrite (proj2 (Z.leb_le _ _)), (proj2 (Z.leb_le _ _)) by (unfold hlen in *; lia). done.
Qed.
End Frame.
