(* ===== verification/TxStream.v ===== *)
(** * Transfers (src/src/sana2/sana2_copy.c)

    A device takes a frame in any number of requests, and starts over when it wants.
    The interface of a source of bytes, and that a child and a packet are sources. *)

From Stdlib Require Import ZArith Lia.
From stdpp Require Import base numbers list.
From S2P Require Import Prelude Checksum RxVerify RxSpec RxClaims TxCopy TxSum TxFrame.

#[local] Open Scope Z_scope.

Local Abbreviation len m := (Z.of_nat (length m)).

(** ** The interface *)

(** A request: the device's buffer, its address, and the bytes wanted. *)
Record request := Request { req_out : list Z; req_addr : Z; req_len : Z }.
Definition request_ok (r : request) : Prop := 0 <= req_len r <= len (req_out r).

(** The frame as a device sees it: a request for more than the frame is refused and
    leaves the buffer; any other is served from the position the last one left, from
    the start when it does not fit there. *)
Definition serve (frame : list Z) (pos : Z) (r : request) : bool * list Z * Z :=
  let n := req_len r in
  if len frame <? n then (false, req_out r, pos)
  else
    let at_ := serve_at (len frame) pos n in
    (true, slice frame at_ n ++ drop (Z.to_nat n) (req_out r), at_ + n).

Fixpoint serve_all (frame : list Z) (pos : Z) (rs : list request) : list (bool * list Z) :=
  match rs with
  | [] => []
  | r :: rs => let '(ok, out, pos) := serve frame pos r in (ok, out) :: serve_all frame pos rs
  end.

(** What a source promises: every request is answered as the frame would be. *)
Class Source (S : Type) := {
  src_call : S -> request -> outcome (bool * list Z * S);
  src_ok : S -> Prop;
  src_frame : S -> list Z;
  src_pos : S -> Z;
  src_law s r : src_ok s -> request_ok r ->
    let '(ok, out, pos) := serve (src_frame s) (src_pos s) r in
    exists s', src_call s r = Val (ok, out, s') /\ src_ok s' /\ src_frame s' = src_frame s /\ src_pos s' = pos
}.

Fixpoint calls {S} `{Source S} (s : S) (rs : list request) : outcome (list (bool * list Z) * S) :=
  match rs with
  | [] => Val ([], s)
  | r :: rs =>
      let! (ok, out, s) := src_call s r in
      let! (rest, s) := calls s rs in
      Val ((ok, out) :: rest, s)
  end.

Lemma calls_serve {S} `{Source S} (s : S) rs :
  src_ok s -> Forall request_ok rs ->
  exists s', calls s rs = Val (serve_all (src_frame s) (src_pos s) rs, s') /\ src_ok s' /\ src_frame s' = src_frame s.
Proof.
  intros Hs Hrs. revert s Hs. induction Hrs as [|r rs Hr Hrs IH]; intros s Hs; cbn [calls serve_all]; [by exists s|].
  pose proof (src_law s r Hs Hr) as L. destruct (serve (src_frame s) (src_pos s) r) as [[ok out] pos].
  destruct L as (s1 & -> & H1 & E1 & E2). cbn [obind]. destruct (IH s1 H1) as (s' & -> & H' & E'). cbn [obind].
  exists s'. rewrite E1, E2 in *. by rewrite E'.
Qed.

(** ** The ordinary walk *)

Lemma copy_walk_follows fuel slot cur off out oaddr at_ n a16 acc cur' off' out' acc' :
  gso_walk_from fuel cur off (Some out) oaddr at_ n false a16 acc = Val (true, cur', off', Some out', acc') ->
  Forall buf_ok cur -> cursor_in cur off -> 0 <= n -> 0 <= consumed slot -> consumed slot + n < 2 ^ 32 ->
  copy_walk fuel slot cur off out at_ n = Val (0, out', set_cursor cur' off' (set_consumed (consumed slot + n) slot)).
Proof.
  revert slot cur off out at_ n a16 acc. induction fuel as [|fuel IH]; intros slot cur off out at_ n a16 acc E Hb Hin Hn Hc Hmax.
  all: cbn [gso_walk_from copy_walk] in *; destruct (Z.eqb_spec n 0) as [->|Hn0].
  1,3: injection E as -> -> -> _; rewrite Z.add_0_r; by destruct slot.
  all: destruct cur as [|p next]; [done|].
  1: done.
  rewrite Forall_cons in Hb. destruct Hb as [Hp Hb]. simpl in Hin. rewrite have_size in * by done.
  destruct (Z.leb_spec (packet_size p) off).
  - apply (IH _ _ _ _ _ _ _ _ E); try done. destruct next as [|q next]; [done|]. simpl. rewrite Forall_cons in Hb.
    destruct Hb as [[? _] _]. lia.
  - set (k := if n <? packet_size p - off then n else packet_size p - off) in *.
    assert (Hk : 0 < k <= n /\ off + k <= packet_size p) by (unfold k; destruct (Z.ltb_spec n (packet_size p - off)); lia).
    destruct (ami_sana2_copy_bytes out at_ (nx_packet_mem p) off k) as [out1| |]; [|done..]. cbn [obind] in *.
    rewrite u32_small by (unfold is_u32; lia).
    rewrite (IH (set_consumed (consumed slot + k) slot) _ _ _ _ _ _ _ E);
      [|by rewrite Forall_cons|simpl; lia|lia|simpl; lia|simpl; lia].
    do 3 f_equal. cbn [consumed set_consumed]. unfold set_cursor, set_consumed. simpl. f_equal. lia.
Qed.

Lemma copy_walk_spec slot cur off out n :
  Forall buf_ok cur -> cursor_in cur off -> cur <> [] -> 0 <= n <= len (rest cur off) -> n <= 65535 -> n <= len out ->
  0 <= consumed slot -> consumed slot + n < 2 ^ 32 ->
  exists cur' off', copy_walk (2 * length cur) slot cur off out 0 n =
      Val (0, front cur off n ++ drop (Z.to_nat n) out, set_cursor cur' off' (set_consumed (consumed slot + n) slot)) /\
    Forall buf_ok cur' /\ cursor_in cur' off' /\ rest cur' off' = drop (Z.to_nat n) (rest cur off) /\ cur' <> [].
Proof.
  intros Hb Hin Hne Hn Hmax Hout Hc Hc2.
  destruct (gso_walk_spec cur off (Some out) 0 0 n false) as (cur' & off' & acc & E & H1 & H2 & H3 & H4 & _); try done; try lia.
  exists cur', off'. split; [|split_and!; try done; by apply H4]. cbn [splice_opt] in E.
  rewrite (copy_walk_follows _ slot _ _ _ _ _ _ _ _ _ _ _ _ E) by (done || lia). do 3 f_equal.
  unfold splice. simpl. do 2 f_equal. unfold front. rewrite length_take. lia.
Qed.

Section Sources.
Context (ANXD_S2_TXF_TCP NX_INTERFACE_CAPABILITY_TCP_TX_CHECKSUM : Z).
Context (_nx_ip_packet_checksum_compute : list NX_PACKET -> Z -> Z -> list NX_PACKET * Z).

Local Abbreviation copy_from := (ami_sana2_copy_from_buff ANXD_S2_TXF_TCP NX_INTERFACE_CAPABILITY_TCP_TX_CHECKSUM _nx_ip_packet_checksum_compute).

(** ** A child *)

(** A slot and its block. *)
Record child := Child { child_slot : AmiTxSlot; child_block : AmiTxGso }.

Definition child_src_ok (c : child) : Prop :=
  child_ok (child_slot c) (child_block c) /\ place_ok (child_slot c) (child_block c) /\
  gso (child_slot c) <> 0 /\ packet (child_slot c) <> [].

#[export] Program Instance child_source : Source child := {
  src_call c r :=
    let! (ok, out, slot) := copy_from (child_slot c) (child_block c) (req_out r) (req_addr r) (req_len r) in
    Val (ok, out, Child slot (child_block c));
  src_ok := child_src_ok;
  src_frame c := slot_frame ANXD_S2_TXF_TCP (child_slot c) (child_block c);
  src_pos c := position (child_slot c)
}.
Next Obligation.
  intros [slot g] r (Hc & Hp & Hg & Hpk) Hr. cbn [child_slot child_block] in *. unfold serve. rewrite (frame_length _ slot g Hc).
  unfold ami_sana2_copy_from_buff.
  assert (Em : forall A (x y : A), match packet slot with [] => x | _ :: _ => y end = y) by (intros; by destruct (packet slot)). rewrite Em.
  destruct (Z.ltb_spec (total slot) (req_len r)) as [Hlt|Hle]; cbn [obind].
  { exists (Child slot g). simpl. split; [done|]. by split_and!. }
  rewrite (proj2 (Z.eqb_neq _ _) Hg). cbn [negb].
  destruct (gso_copy_spec ANXD_S2_TXF_TCP slot g (req_out r) (req_addr r) (req_len r)) as (s' & E & W1 & W2 & W3 & W4);
    [done|done|unfold request_ok in Hr; lia|unfold request_ok in Hr; lia|].
  rewrite E. cbn [obind]. exists (Child s' g). cbn [child_slot child_block]. split; [done|].
  destruct (same_fields ANXD_S2_TXF_TCP slot s' g W1) as (_ & _ & _ & Ef). destruct W1 as (F1 & _ & _ & F4 & _).
  split; [|done]. unfold child_src_ok. cbn [child_slot child_block]. by rewrite F4, F1.
Qed.

(** ** A packet *)

(** An ordinary write whose checksum is not due. *)
Record packet_src_ok (slot : AmiTxSlot) : Prop := {
  pk_bufs : Forall buf_ok (packet slot);
  pk_some : packet slot <> [];
  pk_gso : gso slot = 0;
  pk_cap : Z.land (tx_cap slot) NX_INTERFACE_CAPABILITY_TCP_TX_CHECKSUM = 0;
  pk_total : 0 <= total slot <= len (data_of (packet slot)) /\ total slot <= 65535;
  pk_range : 0 <= position slot <= total slot;
  pk_cbufs : Forall buf_ok (cursor slot);
  pk_coff : cursor_in (cursor slot) (cursor_off slot);
  pk_rest : cursor slot <> [] -> rest (cursor slot) (cursor_off slot) = drop (Z.to_nat (consumed slot)) (data_of (packet slot))
}.

Definition packet_frame (slot : AmiTxSlot) : list Z := take (Z.to_nat (total slot)) (data_of (packet slot)).

Lemma first_cursor chain : Forall buf_ok chain -> cursor_in chain 0.
Proof. destruct chain as [|p next]; [done|]. rewrite Forall_cons. intros [[? _] _]. simpl. lia. Qed.

(** After the rewind: the cursor is where the request is served from. *)
Lemma packet_rewind slot n :
  packet_src_ok slot -> 0 <= n <= total slot ->
  let s := rewind slot (packet slot) 0 n in
  packet_src_ok s /\ cursor s <> [] /\ consumed s = serve_at (total slot) (position slot) n /\ packet s = packet slot /\
  total s = total slot.
Proof.
  intros Hok Hn. pose proof Hok as [H1 H2 H3 H4 H5 H6 H7 H8 H9].
  assert (R : packet_src_ok (set_consumed 0 (set_cursor (packet slot) 0 slot))).
  { split; try done; [unfold position; simpl; destruct (packet slot); [done|lia]|by apply first_cursor]. }
  unfold rewind, serve_at, position in *. destruct (cursor slot) as [|b bs] eqn:Ec; cbn [orb].
  - split_and!; try done. by repeat case_match.
  - destruct (_ || _); split_and!; try done. by rewrite Ec.
Qed.

Lemma packet_serve slot out oaddr n g :
  packet_src_ok slot -> 0 <= n <= len out ->
  let '(ok, out', pos) := serve (packet_frame slot) (position slot) (Request out oaddr n) in
  exists s', copy_from slot g out oaddr n = Val (ok, out', s') /\ packet_src_ok s' /\ packet_frame s' = packet_frame slot /\ position s' = pos.
Proof.
  intros Hok Hn. pose proof Hok as [H1 H2 H3 H4 [H5 H5'] H6 H7 H8 H9]. unfold serve. cbn [req_len req_out].
  assert (Lf : len (packet_frame slot) = total slot) by (unfold packet_frame; rewrite length_take; lia). rewrite Lf.
  unfold ami_sana2_copy_from_buff. 
  assert (Em : forall A (x y : A), match packet slot with [] => x | _ :: _ => y end = y) by (intros; by destruct (packet slot)). rewrite Em.
  destruct (Z.ltb_spec (total slot) n) as [Hlt|Hle]; [by exists slot|]. rewrite H3. cbn [Z.eqb negb].
  destruct (packet_rewind slot n Hok ltac:(lia)) as (R1 & R2 & R3 & R4 & R5).
  set (s := rewind slot (packet slot) 0 n) in *. set (pos := serve_at (total slot) (position slot) n) in *.
  pose proof R1 as [P1 P2 P3 P4 P5 P6 P7 P8 P9]. unfold tx_checksum_due. rewrite P4. cbn [Z.eqb negb]. rewrite andb_false_r. cbn [obind].
  specialize (P9 R2). assert (Hpos : 0 <= pos /\ pos + n <= total slot).
  { unfold pos, serve_at. destruct (Z.leb_spec (total slot) (position slot)), (Z.ltb_spec (total slot - position slot) n); cbn [orb]; lia. }
  destruct (copy_walk_spec s (cursor s) (cursor_off s) out n) as (cur' & off' & -> & W1 & W2 & W3 & W4); try done; try lia.
  { rewrite P9, length_drop, R3, R4. lia. }
  cbn [obind]. rewrite Z.eqb_refl, R3. eexists. split; [do 3 f_equal|].
  - unfold front. rewrite P9, R3, R4. unfold slice, packet_frame. rewrite skipn_firstn_comm, take_take. do 2 f_equal. lia.
  - assert (Epos : position (set_cursor cur' off' (set_consumed (pos + n) s)) = pos + n) by (unfold position; simpl; by destruct cur').
    split; [|split; [unfold packet_frame; simpl; by rewrite R4, R5|exact Epos]].
    split; try done; [rewrite Epos; simpl; lia|]. intros _. simpl. rewrite W3, P9, drop_drop, R3. f_equal. lia.
Qed.

#[export] Program Instance packet_source (g : AmiTxGso) : Source AmiTxSlot := {
  src_call s r := copy_from s g (req_out r) (req_addr r) (req_len r);
  src_ok := packet_src_ok;
  src_frame := packet_frame;
  src_pos := position
}.
Next Obligation. intros g slot [out oaddr n] Hok Hr. exact (packet_serve slot out oaddr n g Hok Hr). Qed.
End Sources.

(** * Checksums a receiver accepts (src/src/sana2/sana2_copy.c)

    The frames the transmit side makes, seen by the receive check, and the copy that
    fills the checksum in. *)

(** ** A frame in front of other bytes *)

Lemma byte_prefix a b j : 0 <= j < len a -> byte (a ++ b) j = byte a j.
Proof. intros Hj. unfold byte. rewrite !nth_lookup. by rewrite lookup_app_l by lia. Qed.

Lemma half_prefix a b j : 0 <= j -> j + 1 < len a -> half (a ++ b) j = half a j.
Proof. intros H1 H2. unfold half. by rewrite !byte_prefix by lia. Qed.

Lemma slice_prefix {A} (a b : list A) i n : 0 <= i -> i + n <= len a -> slice (a ++ b) i n = slice a i n.
Proof.
  intros Hi Hn. unfold slice. destruct (Z_le_gt_dec n 0); [by replace (Z.to_nat n) with 0%nat by lia|].
  by rewrite drop_app_le, take_app_le by (rewrite ?length_drop; lia).
Qed.

(** A whole IPv4 TCP segment whose two sums are right. *)
Record good_segment (m : list Z) : Prop := {
  gs_version : byte m 0 / 16 = 4;
  gs_ihl : 20 <= ihl_of m /\ ihl_of m <= len m;
  gs_proto : byte m 9 = 6;
  gs_head : head_good m = true;
  gs_transport : transport4 6 17 1 2 m (len m) = true;
  gs_good : good4 1 2 m = true
}.

Section Receiver.
Context (hot : bool) (IPV4_RX TCP_RX UDP_RX ICMPV4_RX ICMPV6_RX IGMP_RX : Z).

(** The registry's numbers. *)
Definition receiver (r : rx_packet) (s : N68kRxVerifyStats) : outcome verdict :=
  n68k_rx_verify hot 6 17 1 2 58 4 6 IPV4_RX TCP_RX UDP_RX ICMPV4_RX ICMPV6_RX IGMP_RX r s.

(** A receiver that has the segment in its buffer passes it on with both bits. *)
Lemma segment_accepted r s m tail :
  rx_ok r -> nx_packet_ip_version r <> 6 -> rx_mem r = m ++ tail -> nx_packet_length r = len m -> good_segment m ->
  exists v, receiver r s = Val v /\ flags v = Z.lor IPV4_RX TCP_RX /\ drop_it v = false.
Proof.
  intros Hr Hv Hm Hl [G1 [G2 G3] G4 G5 G6 G7]. unfold receiver.
  destruct (verify_answers hot 6 17 1 2 58 4 6 IPV4_RX TCP_RX UDP_RX ICMPV4_RX ICMPV6_RX IGMP_RX
    ltac:(repeat split; reflexivity) r s Hr Hv) as (v & E & A & _).
  exists v. split; [exact E|]. clear E. unfold answer in A. rewrite Hm, Hl in A.
  rewrite (proj2 (Z.ltb_ge (len m) 20)), byte_prefix, G1 in A by lia. cbn [Z.eqb Pos.eqb] in A. unfold answer4 in A.
  assert (Ei : ihl_of (m ++ tail) = ihl_of m) by (unfold ihl_of; by rewrite byte_prefix by lia).
  unfold transport4 in G6. rewrite !andb_true_iff, !Z.leb_le in G6. destruct G6 as [[[[T1 T2] T3] T4] T5].
  assert (Eh : head_good (m ++ tail) = true) by (unfold head_good in *; by rewrite Ei, slice_prefix by lia).
  assert (Ep : payload_of (m ++ tail) = payload_of m) by (unfold payload_of; by rewrite Ei, half_prefix by lia).
  assert (Et : transport4 6 17 1 2 (m ++ tail) (len m) = true).
  { unfold transport4. rewrite Ei, Ep, !half_prefix, byte_prefix, T3, T4 by lia. rewrite G4. cbn [Z.eqb Pos.eqb negb orb].
    by rewrite (proj2 (Z.leb_le _ _) T1), (proj2 (Z.leb_le _ _) T2). }
  assert (Eg : good4 1 2 (m ++ tail) = true).
  { unfold good4 in *. rewrite Ei, Ep, byte_prefix, !slice_prefix by (unfold payload_of; lia). exact G7. }
  rewrite Ei, Eh, Et, Eg, byte_prefix, G4 in A by lia.
  rewrite (proj2 (Z.ltb_ge _ _)), (proj2 (Z.ltb_ge _ _)) in A by lia. exact A.
Qed.
End Receiver.

(** ** The fused copy *)

Lemma tcp_segment_val ip n i t :
  bytes_ok ip -> n <= len ip -> ami_sana2_tx_tcp_segment ip n = Val (Some (i, t)) ->
  i = ihl_of ip /\ t = half ip 2 /\ byte ip 0 / 16 = 4 /\ 20 <= i /\ byte ip 9 = 6 /\ Z.land (half ip 6) 0x3FFF = 0 /\
  i + 20 <= t <= n.
Proof.
  intros Hb Hn. unfold ami_sana2_tx_tcp_segment, ami_sana2_tx_be16. destruct (Z.ltb_spec n 40); [done|].
  rewrite fetch_byte by lia. cbn [obind]. pose proof (byte_range ip 0 Hb) as R0. unfold is_u8 in R0.
  destruct (Z.eqb_spec (Z.land (byte ip 0) 0xF0) 0x40) as [Hv|]; [|done]. cbn [negb].
  assert (Ei : Z.land (byte ip 0) 0x0F * 4 = ihl_of ip) by (unfold ihl_of; rewrite Z.shiftl_mul_pow2; done || lia). rewrite Ei.
  destruct (Z.ltb_spec (ihl_of ip) 20); [done|]. destruct (Z.ltb_spec n (ihl_of ip + 20)); [done|]. cbn [orb].
  rewrite fetch_byte by lia. cbn [obind]. destruct (Z.eqb_spec (byte ip 9) 6); [|done]. cbn [negb].
  rewrite !load16_half by (done || lia). cbn [obind]. destruct (Z.eqb_spec (Z.land (half ip 6) 0x3FFF) 0); [|done]. cbn [negb].
  destruct (Z.ltb_spec n (half ip 2)); [done|]. destruct (Z.ltb_spec (half ip 2) (ihl_of ip + 20)); [done|]. cbn [orb].
  intros [= <- <-]. split_and!; try done; try lia.
  assert (Ev : Z.shiftr (Z.land (byte ip 0) 0xF0) 4 = 4) by by rewrite Hv. rewrite Z.shiftr_land in Ev.
  change (Z.shiftr 0xF0 4) with (Z.ones 4) in Ev. rewrite Z.land_ones, Z.shiftr_div_pow2 in Ev by lia. word_lia.
Qed.

Lemma copied_to_all to from n : n = len from -> n = len to -> copied_to to from n = from.
Proof. intros -> E. unfold copied_to. rewrite Nat2Z.id, take_ge, drop_ge, app_nil_r by lia. done. Qed.

Lemma copy_sum_segment_val odd out at_ m from n :
  bytes_ok m -> 0 <= at_ -> 0 <= from -> 0 <= n < 2 ^ 31 -> from + n <= len m -> at_ + n <= len out ->
  exists s, copy_sum_segment odd out at_ m from n = Val (splice out at_ (slice m from n), s) /\
    is_u32 s /\ oc_eq s (sum16 (slice m from n)).
Proof.
  intros Hb Ha Hf Hn Hm Ho. unfold copy_sum_segment. rewrite !read_bytes_val by lia. cbn [obind].
  pose proof (slice_length m from n Hf ltac:(lia) Hm) as Ls. pose proof (slice_length out at_ n Ha ltac:(lia) Ho) as Lo.
  destruct (copy_hook_spec odd (slice out at_ n) (slice m from n) n) as (s & -> & Hu & Hs); [by apply bytes_slice|lia..|]. cbn [obind].
  rewrite copied_to_all in * by lia. rewrite store_bytes_val by lia. cbn [obind]. exists s. rewrite slice_all in Hs by done. done.
Qed.

Definition fused_total (ip : list Z) : Z :=
  sum16 (slice ip (ihl_of ip) (payload_of ip)) + (sum16 (slice ip 12 8) + 6 + payload_of ip).
Definition fused_sum (ip : list Z) : Z := let s := 65535 - oc16 (fused_total ip) in if s =? 0 then 65535 else s.
Definition fused_ip (ip : list Z) : list Z := patch16 ip (ihl_of ip + 16) (fused_sum ip).

Lemma fused_sum_range ip : 0 < fused_sum ip <= 65535.
Proof. unfold fused_sum. pose proof (oc16_range (fused_total ip)). destruct (Z.eqb_spec (65535 - oc16 (fused_total ip)) 0); lia. Qed.

(** The packet with its checksum in, from the one without. *)
Lemma fused_good ip n i t :
  bytes_ok ip -> 0 <= n <= len ip -> ami_sana2_tx_tcp_segment ip n = Val (Some (i, t)) ->
  half ip (i + 16) = 0 -> head_good ip = true -> good_segment (take (Z.to_nat n) (fused_ip ip)).
Proof.
  intros Hb Hn E H0 Hg. destruct (tcp_segment_val ip n i t Hb ltac:(lia) E) as (-> & -> & V & H20 & P6 & Fr & Ht).
  pose proof (ihl_range ip Hb) as [_ H4]. unfold fused_ip. set (c := fused_sum ip). pose proof (fused_sum_range ip) as Rc. fold c in Rc.
  set (Q := patch16 ip (ihl_of ip + 16) c). assert (LQ : length Q = length ip) by apply patch16_length.
  set (m := take (Z.to_nat n) Q). assert (Lm : len m = n) by (unfold m; rewrite length_take; lia).
  assert (Bq : forall j, 0 <= j < ihl_of ip -> byte Q j = byte ip j).
  { intros j Hj. unfold Q, patch16. rewrite !byte_patch by plen. by rewrite !(proj2 (Z.eqb_neq _ _)) by lia. }
  assert (Bm : forall j, 0 <= j < n -> byte m j = byte Q j).
  { intros j Hj. unfold byte, m. rewrite !nth_lookup. by rewrite lookup_take_lt by lia. }
  assert (Sm : forall a k, 0 <= a -> a + k <= n -> slice m a k = slice Q a k).
  { intros a k Ha Hk. unfold slice, m. rewrite skipn_firstn_comm, take_take. f_equal. lia. }
  assert (Ei : ihl_of m = ihl_of ip) by (unfold ihl_of; by rewrite Bm, Bq by lia).
  assert (E2 : half m 2 = half ip 2) by (unfold half; by rewrite !Bm, !Bq by lia).
  assert (E6 : half m 6 = half ip 6) by (unfold half; by rewrite !Bm, !Bq by lia).
  assert (E9 : byte m 9 = 6) by by rewrite Bm, Bq by lia.
  split; rewrite ?Ei; try done.
  - by rewrite Bm, Bq by lia.
  - lia.
  - unfold head_good in *. rewrite Ei, Sm by lia. unfold Q. by rewrite slice_patch16_out by lia.
  - unfold transport4. rewrite Ei, E2, E6, E9, Fr, Lm. rewrite (proj2 (Z.leb_le _ _)), (proj2 (Z.leb_le _ _)) by lia. done.
  - unfold good4, payload_of. rewrite Ei, E2, E9. change (RxVerify.no_pseudo4 1 2 6) with false. cbn iota. fold (payload_of ip).
    assert (Hpay : ihl_of ip + payload_of ip = half ip 2) by (unfold payload_of; lia).
    rewrite !Sm by lia. unfold Q. rewrite (slice_patch16_out ip _ _ 12 8), sum_patch16 by (done || lia || (replace (ihl_of ip + 16 - ihl_of ip) with 16 by lia; done)).
    rewrite H0, u16_small by (unfold is_u16; lia).
    pose proof (sum16_slice ip 12 8 Hb). pose proof (sum16_slice ip (ihl_of ip) (payload_of ip) Hb). rewrite oc16_full by lia. apply Z.eqb_eq.
    assert (Ec : exists k, c = 65535 * k - oc16 (fused_total ip)).
    { unfold c, fused_sum. destruct (Z.eqb_spec (65535 - oc16 (fused_total ip)) 0); [exists 2; lia|exists 1; lia]. }
    destruct Ec as [k Ec]. rewrite Ec. pose proof (oc16_mod (fused_total ip) ltac:(unfold fused_total; lia)) as Eo.
    replace (_ + _) with (fused_total ip - oc16 (fused_total ip) + k * 65535) by (unfold fused_total; lia).
    rewrite Z.mod_add, Zminus_mod, Eo, Z.sub_diag by lia. done.
Qed.

Lemma put16_prefix h n r i v :
  0 <= n <= len h -> 0 <= i -> i + 1 < n -> ami_sana2_gso_put16 (take (Z.to_nat n) h ++ r) i v = Val (take (Z.to_nat n) (patch16 h i v) ++ r).
Proof.
  intros Hn Hi Hl. pose proof (put16_slice h r n i v Hn Hi Hl) as E. unfold slice in E. by rewrite !drop_0 in E.
Qed.

Lemma put16_whole h i v : 0 <= i -> i + 1 < len h -> ami_sana2_gso_put16 h i v = Val (patch16 h i v).
Proof.
  intros Hi Hl. pose proof (put16_prefix h (len h) [] i v ltac:(lia) Hi Hl) as E. rewrite !app_nil_r, Nat2Z.id, !take_ge in E by plen. done.
Qed.

(** The copy in three runs is the copy of the whole. *)
Lemma three_runs (out ip : list Z) i t n :
  0 <= i <= t -> t <= n -> n <= len ip -> n <= len out ->
  (let! out := (if t <? n then ami_sana2_copy_bytes (splice (splice out 0 (slice ip 0 i)) i (slice ip i (t - i))) t ip t (n - t)
                else Val (splice (splice out 0 (slice ip 0 i)) i (slice ip i (t - i)))) in Val out) =
  Val (take (Z.to_nat n) ip ++ drop (Z.to_nat n) out).
Proof.
  intros Hi Ht Hn Ho. pose proof (slice_length ip 0 i ltac:(lia) ltac:(lia) ltac:(lia)) as L1.
  pose proof (slice_length ip i (t - i) ltac:(lia) ltac:(lia) ltac:(lia)) as L2.
  assert (E0 : splice out 0 (slice ip 0 i) = slice ip 0 i ++ drop (Z.to_nat i) out) by (unfold splice; simpl; do 2 f_equal; lia).
  assert (E1 : splice (splice out 0 (slice ip 0 i)) i (slice ip i (t - i)) = slice ip 0 t ++ drop (Z.to_nat t) out).
  { assert (Et : slice ip 0 t = slice ip 0 i ++ slice ip i (t - i)).
    { pose proof (slice_more ip 0 i (t - i) ltac:(lia) ltac:(lia) ltac:(lia)) as M. replace (i + (t - i)) with t in M by lia. exact M. }
    rewrite E0, Et, splice_app, drop_drop, <- app_assoc by lia. do 3 f_equal. lia. }
  rewrite E1. pose proof (slice_length ip 0 t ltac:(lia) ltac:(lia) ltac:(lia)) as L3. destruct (Z.ltb_spec t n).
  - rewrite copy_bytes_val by (rewrite ?length_app, ?length_drop; lia). cbn [obind]. f_equal.
    pose proof (slice_length ip t (n - t) ltac:(lia) ltac:(lia) ltac:(lia)) as L4.
    rewrite splice_app, drop_drop by lia. rewrite app_assoc. f_equal; [|f_equal; lia].
    rewrite <- (Z.add_0_l t) at 2. rewrite <- slice_more by lia. unfold slice. rewrite drop_0. f_equal. lia.
  - assert (n = t) as -> by lia. cbn [obind]. unfold slice. by rewrite drop_0.
Qed.

Section Fuse.
Context (ANXD_S2_TXF_TCP NX_INTERFACE_CAPABILITY_TCP_TX_CHECKSUM : Z).
Context (_nx_ip_packet_checksum_compute : list NX_PACKET -> Z -> Z -> list NX_PACKET * Z).

Local Abbreviation copy_from := (ami_sana2_copy_from_buff ANXD_S2_TXF_TCP NX_INTERFACE_CAPABILITY_TCP_TX_CHECKSUM _nx_ip_packet_checksum_compute).

(** The packet afterwards. *)
Definition fused_packet (p : NX_PACKET) : NX_PACKET := set_mem p (fused_ip (nx_packet_mem p)).

Lemma fuse_val slot out oaddr p i t :
  packet slot = [p] -> buf_ok p -> hdr_len slot = 0 -> 0 <= total slot <= packet_size p -> total slot <= 65535 -> total slot <= len out ->
  ami_sana2_tx_tcp_segment (nx_packet_mem p) (total slot) = Val (Some (i, t)) ->
  ami_sana2_tx_fuse_checksum slot out oaddr (total slot) =
    Val (Some (take (Z.to_nat (total slot)) (fused_ip (nx_packet_mem p)) ++ drop (Z.to_nat (total slot)) out,
      set_consumed (total slot) (set_cursor [fused_packet p] (total slot) (set_packet [fused_packet p] (tx_cap slot) slot)))).
Proof.
  intros Ep (Hs & Hl & Hb) Hh Ht Hmax Ho E. unfold ami_sana2_tx_fuse_checksum. rewrite Hh, Z.eqb_refl, Ep. cbn [Z.eqb negb].
  set (ip := nx_packet_mem p) in *. rewrite E. cbn [obind]. destruct (tcp_segment_val ip (total slot) i t Hb ltac:(lia) E) as (-> & -> & _ & H20 & _ & _ & Hn).
  set (n := total slot) in *. set (i := ihl_of ip) in *. rewrite copy_bytes_val by lia. cbn [obind].
  destruct (copy_sum_segment_val (negb (Z.land (Z.lor (oaddr + i) (nx_packet_prepend_ptr p + i)) 1 =? 0)) (splice out 0 (slice ip 0 i)) i ip i (half ip 2 - i))
    as (s & -> & Hu & Hoc); [done|lia..|rewrite splice_length; rewrite ?slice_length by lia; lia|]. cbn [obind].
  pose proof (three_runs out ip i (half ip 2) n ltac:(lia) ltac:(lia) ltac:(lia) ltac:(lia)) as E3.
  destruct (if half ip 2 <? n then _ else _) as [out1| |] in E3 |- *; [|done..]. cbn [obind] in *. injection E3 as ->.
  rewrite gso_fold_spec by done. cbn [obind]. rewrite pseudo_header_val by (done || lia). cbn [obind].
  fold i in H20. change (half ip 2 - i) with (payload_of ip) in *. set (P := sum16 (slice ip 12 8) + 6 + payload_of ip).
  pose proof (oc16_range s). pose proof (oc16_range P). rewrite u32_small, gso_fold_spec by (unfold is_u32; lia). cbn [obind].
  assert (Eo : oc16 (oc16 s + oc16 P) = oc16 (fused_total ip)).
  { apply oc16_eq. unfold fused_total. pose proof (sum16_slice ip 12 8 Hb). apply oc_add_proper; [by apply oc16_sum|].
    apply oc16_oc. unfold payload_of. fold i. lia. }
  rewrite Eo, not16_val by apply oc16_range. fold (fused_sum ip). change (if _ =? 0 then 65535 else _) with (fused_sum ip).
  rewrite put16_prefix by lia. cbn [obind]. rewrite put16_whole by lia. cbn [obind].
  rewrite Z.eqb_refl. done.
Qed.

Lemma cap_cleared cap flag : Z.land (Z.land cap (u32 (Z.lnot flag))) flag = 0.
Proof.
  unfold u32. rewrite <- (Z.land_ones _ 32) by lia. rewrite <- !Z.land_assoc, (Z.land_comm (Z.ones 32)), (Z.land_assoc (Z.lnot flag)).
  rewrite (Z.land_comm (Z.lnot flag)), Z.land_lnot_diag, Z.land_0_l, Z.land_0_r. done.
Qed.

Lemma fused_packet_ok p : buf_ok p -> buf_ok (fused_packet p) /\ packet_size (fused_packet p) = packet_size p.
Proof.
  intros (Hs & Hl & Hb). split; [|done]. unfold buf_ok, fused_packet. cbn [set_mem nx_packet_mem]. unfold fused_ip. rewrite patch16_length.
  split; [exact Hs|]. split; [exact Hl|]. by apply patch16_bytes.
Qed.

(** The first request, for the whole frame: the frame with its checksum, in the buffer
    and in the packet. *)
Lemma fused_copy slot g out oaddr p i t :
  packet slot = [p] -> buf_ok p -> hdr_len slot = 0 -> gso slot = 0 -> cursor slot = [] ->
  0 <= total slot <= packet_size p -> total slot <= 65535 -> total slot <= len out ->
  Z.land (tx_cap slot) NX_INTERFACE_CAPABILITY_TCP_TX_CHECKSUM <> 0 ->
  ami_sana2_tx_tcp_segment (nx_packet_mem p) (total slot) = Val (Some (i, t)) ->
  let m := take (Z.to_nat (total slot)) (fused_ip (nx_packet_mem p)) in
  exists slot', copy_from slot g out oaddr (total slot) = Val (true, m ++ drop (Z.to_nat (total slot)) out, slot') /\
    packet_src_ok NX_INTERFACE_CAPABILITY_TCP_TX_CHECKSUM slot' /\ packet_frame slot' = m /\ position slot' = total slot.
Proof.
  intros Ep Hb Hh Hg Hc Ht Hmax Ho Hcap E m. pose proof Hb as (Hs & Hl & Hbytes). unfold ami_sana2_copy_from_buff. rewrite Ep, Hg.
  rewrite Z.ltb_irrefl. cbn [Z.eqb negb]. unfold rewind. rewrite Hc. cbn [orb]. 
  assert (Hdue : tx_checksum_due NX_INTERFACE_CAPABILITY_TCP_TX_CHECKSUM (set_consumed 0 (set_cursor [p] 0 slot)) = true)
    by (unfold tx_checksum_due; simpl; by rewrite (proj2 (Z.eqb_neq _ _) Hcap)). rewrite Hdue.
  pose proof (fuse_val (set_consumed 0 (set_cursor [p] 0 slot)) out oaddr p i t Ep Hb Hh Ht Hmax Ho E) as Ef.
  change (total (set_consumed 0 (set_cursor [p] 0 slot))) with (total slot) in Ef. rewrite Ef. cbn [obind]. fold m.
  set (s' := set_packet _ _ _). exists s'. split; [reflexivity|]. destruct (fused_packet_ok p Hb) as [Hb' Hs'].
  assert (Ed : packet_data (fused_packet p) = take (Z.to_nat (packet_size p)) (fused_ip (nx_packet_mem p))) by done.
  assert (Em : take (Z.to_nat (total slot)) (data_of [fused_packet p]) = m).
  { unfold data_of. cbn [map concat]. rewrite app_nil_r, Ed, take_take. unfold m. f_equal. lia. }
  assert (F1 : Forall buf_ok [fused_packet p]) by by rewrite Forall_singleton.
  split; [|split; [exact Em|reflexivity]]. split; [exact F1|done|exact Hg|apply cap_cleared| | |exact F1| |done].
  - change (total s') with (total slot). change (packet s') with [fused_packet p]. split; [|done]. split; [lia|].
    unfold data_of. cbn [map concat]. rewrite app_nil_r, size_of_data by done. lia.
  - change (position s') with (total slot). change (total s') with (total slot). lia.
  - change (0 <= total slot <= packet_size (fused_packet p)). lia.
Qed.
End Fuse.
