(* ===== verification/TxBatch.v ===== *)
(** * The children of a block (src/src/sana2/sana2_copy.c)

    The frame of child [k], that a slot the child was placed in gives it, and what the
    children carry together. *)

From Stdlib Require Import ZArith Lia.
From stdpp Require Import base numbers list.
From S2P Require Import Prelude Checksum RxVerify RxSpec RxClaims TxCopy TxSum TxFrame TxBlock TxStream.
#[local] Open Scope Z_scope.

Local Abbreviation len m := (Z.of_nat (length m)).

(** ** The frame of child [k] *)

Definition child_bytes (g : AmiTxGso) (parent : list NX_PACKET) (k : Z) : list Z :=
  slice (payload g parent) (child_off g k) (child_len g k).

(** The headers, the slice, and zeroes up to [n] bytes. *)
Definition child_frame (g : AmiTxGso) (parent : list NX_PACKET) (k n : Z) : list Z :=
  let ip := first_mem parent in
  let f := child_fields g k ip in
  let d := child_bytes g parent k in
  take (Z.to_nat (hlen g)) (patched ip (ihl g) f (tcp_sum_of g ip f d)) ++ d ++ replicate (Z.to_nat (n - hlen g - child_len g k)) 0.

Lemma same_child_fields g g' k ip d :
  same_block g g' -> child_fields g' k ip = child_fields g k ip /\
  tcp_sum_of g' ip (child_fields g' k ip) d = tcp_sum_of g ip (child_fields g k ip) d.
Proof.
  destruct g, g'. intros (E1 & E2 & E3 & E4 & E5 & E6 & E7). simpl in *. subst. split; reflexivity.
Qed.

Lemma same_child_frame g g' parent k n : same_block g g' -> child_frame g' parent k n = child_frame g parent k n.
Proof.
  destruct g, g'. intros (E1 & E2 & E3 & E4 & E5 & E6 & E7). simpl in *. subst. reflexivity.
Qed.

(** A slot with child [k] of the block in it. *)
Record placed (slot : AmiTxSlot) (g : AmiTxGso) (parent : list NX_PACKET) (k : Z) : Prop := {
  pc_packet : packet slot = parent;
  pc_index : seg_index slot = k;
  pc_bufs : Forall buf_ok (seg_buf slot);
  pc_some : seg_buf slot <> [];
  pc_off : cursor_in (seg_buf slot) (seg_buf_off slot);
  pc_rest : rest (seg_buf slot) (seg_buf_off slot) = drop (Z.to_nat (child_off g k)) (payload g parent);
  pc_sum : seg_summed slot = true ->
    seg_sum slot = tcp_sum_of g (first_mem parent) (child_fields g k (first_mem parent)) (child_bytes g parent k)
}.

Lemma placed_fields slot g parent k :
  shape_ok g parent -> 0 <= k < segs g -> placed slot g parent k ->
  slot_fields slot g = child_fields g k (first_mem parent) /\ seg_len (slot_fields slot g) = child_len g k /\
  slot_data slot g = child_bytes g parent k.
Proof.
  intros Hsh Hk [H1 H2 H3 H4 H5 H6 H7]. destruct (slice_val g parent k Hsh Hk) as (Es & Hn & Ho & _).
  assert (E : slot_fields slot g = child_fields g k (first_mem parent)) by (unfold slot_fields; by rewrite H1, H2).
  assert (El : seg_len (slot_fields slot g) = child_len g k) by (rewrite E; unfold child_fields; by rewrite Es).
  split; [done|]. split; [done|]. unfold slot_data, front, child_bytes, slice. by rewrite El, H6.
Qed.

Lemma placed_child_ok slot g parent k :
  shape_ok g parent -> 0 <= k < segs g -> placed slot g parent k -> hlen g + child_len g k <= total slot -> child_ok slot g.
Proof.
  intros Hsh Hk Hp Ht. destruct (placed_fields slot g parent k Hsh Hk Hp) as (E & El & Ed). pose proof Hp as [H1 H2 H3 H4 H5 H6 H7].
  pose proof Hsh as [S1 _ _ _ _ [S6 _] _ _]. destruct (slice_val g parent k Hsh Hk) as (_ & Hn & Ho & Hend & Hmax).
  split; rewrite ?El; try done; try lia.
  - by rewrite H1.
  - rewrite H6, length_drop. lia.
  - intros Hs. by rewrite H1, E, Ed, H7.
Qed.

Lemma placed_frame ANXD_S2_TXF_TCP slot g parent k :
  shape_ok g parent -> 0 <= k < segs g -> placed slot g parent k -> Z.land (tx_flags slot) ANXD_S2_TXF_TCP = 0 ->
  slot_frame ANXD_S2_TXF_TCP slot g = child_frame g parent k (total slot).
Proof.
  intros Hsh Hk Hp Htx. destruct (placed_fields slot g parent k Hsh Hk Hp) as (E & El & Ed). destruct Hp as [H1 _ _ _ _ _ _].
  rewrite frame_split by done. unfold child_frame. by rewrite El, E, Ed, H1.
Qed.

Lemma place_placed slot g parent k :
  shape_ok g parent -> block_cursor g parent -> 0 <= k < segs g ->
  exists slot' g', ami_sana2_gso_place slot g parent k = (slot', g', hlen g + child_len g k) /\
    same_block g g' /\ block_cursor g' parent /\ placed slot' g' parent k /\
    slot' = set_seg parent k (seg_buf slot') (seg_buf_off slot') slot.
Proof.
  intros Hsh Hc Hk. destruct (place_spec slot g parent k Hsh Hc Hk) as (s' & g' & E & Hs & _ & Hc' & Es & B1 & B2 & B3 & B4).
  exists s', g'. split_and!; try done. destruct Hs as (E1 & _ & E3 & E4 & E5 & _).
  split; try done; try (by rewrite Es). unfold child_off, payload, hlen in *. by rewrite E1, E3, E4, E5.
Qed.

(** ** What a receiver sees *)

Lemma child_good g parent k n :
  shape_ok g parent -> wire_ok g (first_mem parent) -> 0 <= k < segs g -> hlen g + child_len g k <= n ->
  head_good (first_mem parent) = true -> good_segment (child_frame g parent k n) /\ len (child_frame g parent k n) = n.
Proof.
  intros Hsh Hw Hk Hn Hg.
  set (s0 := TxSlot parent 0 0 [] 0 0 n 0 0 0 1 0 false 0 [] 0 0 0).
  set (g0 := set_block_cursor [] 0 g).
  assert (B0 : same_block g g0) by done. assert (C0 : block_cursor g0 parent) by by left.
  pose proof (same_block_shape g g0 parent B0 Hsh) as Sh0.
  destruct (place_placed s0 g0 parent k Sh0 C0 Hk) as (s & g' & _ & B1 & _ & Hp & Es).
  pose proof (same_block_shape g0 g' parent B1 Sh0) as Sh'. assert (B : same_block g g').
  { destruct B1 as (F1 & F2 & F3 & F4 & F5 & F6 & F7). repeat split; done. }
  rewrite <- (same_child_frame g g' parent k n B).
  assert (Hw' : wire_ok g' (first_mem parent)).
  { destruct Hw. destruct B as (_ & _ & _ & F4 & F5 & _). split; rewrite ?F4, ?F5; done. }
  assert (Hn' : hlen g' + child_len g' k <= n).
  { destruct B as (F1 & F2 & F3 & F4 & F5 & _). unfold hlen, child_len, child_off in *. by rewrite F1, F2, F3, F4, F5. }
  assert (Hk' : 0 <= k < segs g') by (destruct B as (_ & _ & _ & _ & _ & -> & _); done).
  assert (Et : total s = n) by by rewrite Es. assert (Ex : tx_flags s = 0) by by rewrite Es.
  pose proof (placed_child_ok s g' parent k Sh' Hk' Hp ltac:(by rewrite Et)) as Hc.
  assert (Htx : Z.land (tx_flags s) 0 = 0) by apply Z.land_0_r.
  rewrite <- Et, <- (placed_frame 0 s g' parent k Sh' Hk' Hp Htx).
  destruct (placed_fields s g' parent k Sh' Hk' Hp) as (_ & El & _).
  assert (Hfit : hlen g' + seg_len (slot_fields s g') <= 65535).
  { destruct (slice_val g' parent k Sh' Hk') as (_ & ? & ? & ? & _). destruct (sh_end _ _ Sh'). lia. }
  pose proof (pc_packet _ _ _ _ Hp) as Ep. rewrite <- Ep in Hw', Hg. pose proof (frame_length 0 s g' Hc) as Lf.
  pose proof (ch_template _ _ Hc) as [_ Hi _ Hth _ _].
  split; [|done]. split.
  - by apply (frame_version 0 s g').
  - rewrite (frame_ihl 0 s g') by done. rewrite Lf, Et. unfold hlen in Hn'. destruct (slice_val g' parent k Sh' Hk') as (_ & ? & _). lia.
  - by apply (frame_proto 0 s g').
  - by apply (frame_head_good 0 s g').
  - apply (frame_transport_ok 0 s g'); try done. rewrite Lf, El, Et. done.
  - by apply (frame_good 0 s g').
Qed.

(** ** What the children carry *)

Lemma child_bytes_length g parent k : shape_ok g parent -> 0 <= k < segs g -> len (child_bytes g parent k) = child_len g k.
Proof.
  intros Hsh Hk. destruct (slice_val g parent k Hsh Hk) as (_ & Hn & Ho & Hend & _). destruct (sh_end _ _ Hsh).
  apply slice_length; lia.
Qed.

(** The first [k] children are the payload up to where child [k] starts. *)
Lemma children_before g parent k :
  shape_ok g parent -> (Z.of_nat k < segs g) ->
  concat (map (fun i => child_bytes g parent (Z.of_nat i)) (List.seq 0 k)) = slice (payload g parent) (base g) (Z.of_nat k * mss g).
Proof.
  intros Hsh. pose proof Hsh as [_ _ _ Hm Hb _ Hs Hc]. induction k as [|k IH]; intros Hk; [by rewrite slice_nil by lia|].
  rewrite seq_S, map_app, concat_app, IH by lia. cbn [map concat plus]. rewrite app_nil_r. unfold child_bytes.
  rewrite (child_len_full g parent) by (done || lia). unfold child_off. rewrite <- slice_more by lia. f_equal. lia.
Qed.

Lemma children_cover g parent :
  shape_ok g parent ->
  concat (map (fun i => child_bytes g parent (Z.of_nat i)) (List.seq 0 (Z.to_nat (segs g)))) = slice (payload g parent) (base g) (end_ g - base g).
Proof.
  intros Hsh. pose proof Hsh as [_ _ _ Hm Hb _ Hs Hc]. replace (Z.to_nat (segs g)) with (S (Z.to_nat (segs g - 1))) by lia.
  rewrite seq_S, map_app, concat_app, children_before by (done || lia). cbn [map concat plus]. rewrite app_nil_r.
  rewrite Z2Nat.id by lia. unfold child_bytes. pose proof (child_len_last g parent Hsh) as E. unfold child_off in *.
  destruct (slice_val g parent (segs g - 1) Hsh ltac:(lia)) as (_ & Hn & _).
  assert (0 <= (segs g - 1) * mss g) by nia. rewrite <- slice_more by lia. f_equal. lia.
Qed.

(** The bits [clear8] takes out. *)
Lemma clear8_bit x bits b : is_u8 x -> 0 <= bits < 256 -> 0 <= b -> Z.testbit (clear8 x bits) b = Z.testbit x b && negb (Z.testbit bits b).
Proof.
  intros Hx Hbits Hb. unfold clear8, u8. rewrite <- (Z.land_ones _ 8) by lia. rewrite !Z.land_spec, Z.lnot_spec by lia.
  destruct (Z_lt_ge_dec b 8).
  - rewrite (Z.ones_spec_low 8) by lia. by rewrite andb_true_r.
  - assert (E : Z.testbit x b = false).
    { destruct (Z.eq_dec x 0) as [->|]; [apply Z.testbit_0_l|]. apply Z.bits_above_log2; [word_lia|].
      apply Z.log2_lt_pow2; [word_lia|]. pose proof (Z.pow_le_mono_r 2 8 b ltac:(lia) ltac:(lia)). unfold is_u8 in Hx. lia. }
    by rewrite E.
Qed.

(** Bit [b] of a child's flags in a block: FIN and PSH are the last child's, CWR the first's. *)
Lemma child_flags_bit g k x b :
  is_u8 x -> mode g = 0 -> 0 <= k < segs g -> 0 <= b ->
  Z.testbit (child_flags g k x) b =
    Z.testbit x b && (if (b =? 0) || (b =? 3) then k =? segs g - 1 else if b =? 7 then k =? 0 else true).
Proof.
  intros Hx Hm Hk Hb. unfold child_flags. rewrite Hm, Z.land_0_l. cbn [Z.eqb negb].
  assert (F1 : Z.testbit (Z.lor AMI_TCP_FIN AMI_TCP_PSH) b = (b =? 0) || (b =? 3)).
  { unfold AMI_TCP_FIN, AMI_TCP_PSH. change 0x01 with (2 ^ 0). change 0x08 with (2 ^ 3). rewrite Z.lor_spec, !Z.pow2_bits_eqb by lia.
    by rewrite !(Z.eqb_sym b). }
  assert (F2 : Z.testbit AMI_TCP_CWR b = (b =? 7)).
  { unfold AMI_TCP_CWR. change 0x80 with (2 ^ 7). rewrite Z.pow2_bits_eqb by lia. apply Z.eqb_sym. }
  set (y := if k + 1 <? segs g then clear8 x (Z.lor AMI_TCP_FIN AMI_TCP_PSH) else x).
  assert (Hy : is_u8 y) by (unfold y; destruct (_ <? _); [by apply clear8_u8|done]).
  assert (Ey : Z.testbit y b = Z.testbit x b && (negb ((b =? 0) || (b =? 3)) || (k =? segs g - 1))).
  { unfold y. destruct (Z.ltb_spec (k + 1) (segs g)), (Z.eqb_spec k (segs g - 1)); try lia.
    - rewrite clear8_bit, F1 by (done || (unfold AMI_TCP_FIN, AMI_TCP_PSH; simpl; lia)). by rewrite orb_false_r.
    - by rewrite orb_true_r, andb_true_r. }
  assert (E : Z.testbit (if negb (k =? 0) then clear8 y AMI_TCP_CWR else y) b =
    Z.testbit y b && (negb (b =? 7) || (k =? 0))).
  { destruct (Z.eqb_spec k 0); cbn [negb]; [by rewrite orb_true_r, andb_true_r|].
    rewrite clear8_bit, F2 by (done || (unfold AMI_TCP_CWR; lia)). by rewrite orb_false_r. }
  rewrite E, Ey, <- andb_assoc. f_equal.
  destruct (Z.eqb_spec b 0), (Z.eqb_spec b 3), (Z.eqb_spec b 7); try lia; cbn [orb negb andb]; by rewrite ?andb_true_r.
Qed.

(** ** A batch *)

Section Batch.
Context (ANXD_S2_TXF_TCP : Z) (ethernet : bool) (AMI_ETH_MIN_FRAME AMI_ETH_HEADER_SIZE : Z).

Local Abbreviation frame_len := (TxCopy.frame_len ethernet AMI_ETH_MIN_FRAME AMI_ETH_HEADER_SIZE).
Local Abbreviation tx_child := (ami_sana2_tx_child ANXD_S2_TXF_TCP ethernet AMI_ETH_MIN_FRAME AMI_ETH_HEADER_SIZE).

(** A batch write: its block, and some child placed. *)
Record batch_ok (slot : AmiTxSlot) (g : AmiTxGso) (parent : list NX_PACKET) : Prop := {
  ba_shape : shape_ok g parent;
  ba_cursor : block_cursor g parent;
  ba_gso : gso slot <> 0;
  ba_tx : Z.land (tx_flags slot) ANXD_S2_TXF_TCP = 0;
  ba_count : 0 < batch_count slot <= segs g;
  ba_index : 0 <= seg_index slot < segs g;
  ba_placed : placed slot g parent (seg_index slot)
}.

Lemma frame_len_val g parent k :
  shape_ok g parent -> 0 <= k < segs g -> hlen g + child_len g k <= frame_len g k.
Proof.
  intros Hsh Hk. unfold TxCopy.frame_len, ami_sana2_gso_frame_len. destruct (slice_val g parent k Hsh Hk) as (-> & _).
  fold (hlen g). destruct (ethernet && _) eqn:E; [|lia]. apply andb_true_iff in E as [_ E]. apply Z.ltb_lt in E. lia.
Qed.

Lemma same_placed slot g g' parent k : same_block g g' -> placed slot g parent k -> placed slot g' parent k.
Proof.
  intros B [H1 H2 H3 H4 H5 H6 H7]. split; try done.
  - destruct B as (F1 & _ & F3 & F4 & F5 & _). unfold child_off, payload, hlen in *. by rewrite F1, F3, F4, F5.
  - intros Hs. rewrite (H7 Hs). destruct (same_child_fields g g' k (first_mem parent) (child_bytes g' parent k) B) as [_ ->].
    destruct B as (F1 & F2 & F3 & F4 & F5 & _). unfold child_bytes, child_len, child_off, payload, hlen. by rewrite F1, F2, F3, F4, F5.
Qed.

Lemma batch_child slot g parent k out oaddr :
  batch_ok slot g parent -> 0 <= k < batch_count slot -> frame_len g k <= len out ->
  exists slot' g', tx_child slot g k out oaddr (frame_len g k) =
      Val (true, child_frame g parent k (frame_len g k) ++ drop (Z.to_nat (frame_len g k)) out, slot', g') /\
    same_block g g' /\ batch_ok slot' g' parent /\ batch_count slot' = batch_count slot.
Proof.
  intros [Hsh Hcur Hgso Htx Hcount Hidx Hpl] Hk Hout. unfold ami_sana2_tx_child.
  pose proof (sh_segs _ _ Hsh) as Hsegs. rewrite (u16_small k) by (unfold is_u16; lia). rewrite Z.eqb_refl.
  rewrite (proj2 (Z.eqb_neq (batch_count slot) 0)), (proj2 (Z.eqb_neq _ _) Hgso), (proj2 (Z.leb_gt _ _)) by lia.
  assert (Hne : match packet slot with [] => true | _ :: _ => false end = false).
  { rewrite (pc_packet _ _ _ _ Hpl). pose proof (sh_first _ _ Hsh). by destruct parent. }
  rewrite Hne. cbn [orb negb].
  assert (HP : exists s1 g1 z, (if negb (k =? seg_index slot) then ami_sana2_gso_place slot g (packet slot) k else (slot, g, 0)) = (s1, g1, z) /\
    same_block g g1 /\ block_cursor g1 parent /\ placed s1 g1 parent k /\ gso s1 = gso slot /\ tx_flags s1 = tx_flags slot /\
    batch_count s1 = batch_count slot).
  { rewrite (pc_packet _ _ _ _ Hpl). destruct (Z.eqb_spec k (seg_index slot)) as [->|Hki]; cbn [negb].
    - exists slot, g, 0. done.
    - destruct (place_placed slot g parent k Hsh Hcur ltac:(lia)) as (s1 & g1 & E & B1 & C1 & P1 & Es).
      exists s1, g1, (hlen g + child_len g k). split_and!; try done; by rewrite Es. }
  destruct HP as (s1 & g1 & z & -> & B1 & C1 & P1 & Eg & Ex & Ebc).
  pose proof (same_block_shape g g1 parent B1 Hsh) as Sh1. assert (Hk1 : 0 <= k < segs g1) by (destruct B1 as (_ & _ & _ & _ & _ & -> & _); lia).
  set (n := frame_len g k) in *. set (s2 := set_cursor [] (cursor_off s1) (set_total n s1)).
  assert (P2 : placed s2 g1 parent k) by (destruct P1; by split).
  assert (Hn : hlen g1 + child_len g1 k <= n).
  { pose proof (frame_len_val g parent k Hsh ltac:(lia)) as L. fold n in L. destruct B1 as (F1 & F2 & F3 & F4 & F5 & _).
    unfold hlen, child_len, child_off in *. by rewrite F1, F2, F3, F4, F5. }
  pose proof (placed_child_ok s2 g1 parent k Sh1 Hk1 P2 Hn) as Hc.
  assert (Hp : place_ok s2 g1).
  { split; [change (0 <= 0 <= n); pose proof (ch_template _ _ Hc) as [_ ? _ ? _ _]; pose proof (ch_len _ _ Hc); unfold hlen in Hn;
      destruct (slice_val g1 parent k Sh1 Hk1) as (_ & ? & _); lia|constructor|done|done]. }
  assert (Hn0 : 0 <= n) by (destruct (pl_range _ _ Hp) as [_ R]; exact R).
  destruct (gso_copy_spec ANXD_S2_TXF_TCP s2 g1 out oaddr n Hc Hp ltac:(change (0 <= n <= n); lia) Hout) as (s' & E & W1 & W2 & W3 & W4).
  rewrite E. cbn [obind]. exists s', g1. change (total s2) with n in *. change (position s2) with 0 in *.
  assert (Hz : serve_at n 0 n = 0) by (unfold serve_at; by repeat case_match). rewrite Hz in *.
  assert (Htx2 : Z.land (tx_flags s2) ANXD_S2_TXF_TCP = 0) by (change (tx_flags s2) with (tx_flags s1); by rewrite Ex).
  split; [do 4 f_equal|split; [done|]].
  - rewrite slice_all by by apply frame_length. rewrite (placed_frame _ s2 g1 parent k Sh1 Hk1 P2 Htx2).
    f_equal. by apply same_child_frame.
  - destruct W1 as (F1 & F2 & F3 & F4 & F5 & F6 & F7 & F8).
    assert (P' : placed s' g1 parent k).
    { destruct P2 as [Q1 Q2 Q3 Q4 Q5 Q6 Q7]. split; rewrite ?F1, ?F5, ?F6, ?F7; try done. intros Hs.
      rewrite (ch_sum _ _ W2 Hs). destruct (same_fields ANXD_S2_TXF_TCP s2 s' g1) as (-> & -> & _); [repeat split; done|].
      rewrite F1. destruct (placed_fields s2 g1 parent k Sh1 Hk1) as (-> & _ & ->); [by split|]. by rewrite Q1. }
    split; [|by rewrite F8]. split; try done.
    + rewrite F4. change (gso s2) with (gso s1). by rewrite Eg.
    + by rewrite F3.
    + rewrite F8. change (batch_count s2) with (batch_count s1). rewrite Ebc. destruct B1 as (_ & _ & _ & _ & _ & -> & _). done.
    + rewrite (pc_index _ _ _ _ P'). done.
    + by rewrite (pc_index _ _ _ _ P').
Qed.
End Batch.
