(* ===== verification/TxClaims.v ===== *)
(** * What the transmit copy delivers

    The children of a block, the ordinary write and the fused checksum, as a device
    and the receiver behind it see them. *)

From Stdlib Require Import ZArith Lia.
From stdpp Require Import base numbers list.
From S2P Require Import Prelude Checksum RxVerify RxSpec RxClaims TxCopy TxSum TxFrame TxBlock TxStream TxBatch.
#[local] Open Scope Z_scope.

Local Abbreviation len m := (Z.of_nat (length m)).

Section Claims.
Context (NX_TCP_GSO_VERSION NX_TCP_GSO_REPAIR sizeof_info : Z).
Context (ANXD_S2_TXF_TCP NX_INTERFACE_CAPABILITY_TCP_TX_CHECKSUM : Z).
Context (_nx_ip_packet_checksum_compute : list NX_PACKET -> Z -> Z -> list NX_PACKET * Z).
Context (ethernet : bool) (AMI_ETH_MIN_FRAME AMI_ETH_HEADER_SIZE : Z).

Local Abbreviation parse := (ami_sana2_gso_parse NX_TCP_GSO_VERSION NX_TCP_GSO_REPAIR sizeof_info).
Local Abbreviation child_calls := (@calls child (child_source ANXD_S2_TXF_TCP NX_INTERFACE_CAPABILITY_TCP_TX_CHECKSUM _nx_ip_packet_checksum_compute)).
Local Abbreviation packet_calls g := (@calls AmiTxSlot (packet_source ANXD_S2_TXF_TCP NX_INTERFACE_CAPABILITY_TCP_TX_CHECKSUM _nx_ip_packet_checksum_compute g)).
Local Abbreviation copy_from := (ami_sana2_copy_from_buff ANXD_S2_TXF_TCP NX_INTERFACE_CAPABILITY_TCP_TX_CHECKSUM _nx_ip_packet_checksum_compute).
Local Abbreviation frame_len := (TxCopy.frame_len ethernet AMI_ETH_MIN_FRAME AMI_ETH_HEADER_SIZE).
Local Abbreviation tx_child := (ami_sana2_tx_child ANXD_S2_TXF_TCP ethernet AMI_ETH_MIN_FRAME AMI_ETH_HEADER_SIZE).

(** A block the driver accepted: the chain is sound, its length is the packet's. *)
Definition parsed (parent : list NX_PACKET) (room : Z) (info : NX_TCP_GSO_INFO) (mtu : Z) (g : AmiTxGso) : Prop :=
  parent <> [] /\ Forall buf_ok parent /\ info_ok info /\ parse parent room info (len (data_of parent)) mtu = Val (Some g).

Lemma parsed_ok parent room info mtu g :
  parsed parent room info mtu g ->
  shape_ok g parent /\ block_cursor g parent /\ wire_ok g (first_mem parent) /\
  exists m, gso_mode NX_TCP_GSO_VERSION NX_TCP_GSO_REPAIR sizeof_info room info = Some m /\ span_ok g info m (len (payload g parent)).
Proof.
  intros (Hne & Hb & Hi & E). destruct parent as [|p next]; [done|].
  destruct (parse_spec NX_TCP_GSO_VERSION NX_TCP_GSO_REPAIR sizeof_info p next room info mtu Hb Hi) as (r & E' & H).
  rewrite E in E'. injection E' as <-. destruct H as (H1 & H2 & _ & _ & H5 & H6). done.
Qed.

(** C14 A child placed in a slot and launched is delivered to the device as its frame:
    the parent's headers with the child's lengths, identification, sequence number,
    flags and sums, its slice of the payload, zeroes up to the write's length.  The
    device may take it in any number of requests of any size, through buffers at any
    address, and start over: each request is answered as the frame itself would be, a
    request longer than the frame is refused, and the block's other children, and where
    the block's cursor was, make no difference. *)
Theorem child_delivered parent room info mtu g slot k n rs :
  parsed parent room info mtu g -> 0 <= k < segs g -> hlen g + child_len g k <= n ->
  gso slot <> 0 -> Z.land (tx_flags slot) ANXD_S2_TXF_TCP = 0 -> Forall request_ok rs ->
  exists s1 g1 s', ami_sana2_gso_place slot g parent k = (s1, g1, hlen g + child_len g k) /\
    child_calls (Child (set_cursor [] 0 (set_total n s1)) g1) rs = Val (serve_all (child_frame g parent k n) 0 rs, s').
Proof.
  intros Hp Hk Hn Hg Htx Hrs. destruct (parsed_ok _ _ _ _ _ Hp) as (Hsh & Hcur & _).
  destruct (place_placed slot g parent k Hsh Hcur Hk) as (s1 & g1 & E & B & C & P & Es).
  pose proof (same_block_shape g g1 parent B Hsh) as Sh1.
  set (c := Child (set_cursor [] 0 (set_total n s1)) g1).
  assert (P1 : placed (child_slot c) g1 parent k) by (destruct P; by split).
  assert (Hk1 : 0 <= k < segs g1) by (destruct B as (_ & _ & _ & _ & _ & -> & _); done).
  assert (Hn1 : hlen g1 + child_len g1 k <= total (child_slot c)).
  { destruct B as (F1 & F2 & F3 & F4 & F5 & _). unfold hlen, child_len, child_off in *. by rewrite F1, F2, F3, F4, F5. }
  assert (Hc : child_ok (child_slot c) g1) by by apply (placed_child_ok _ g1 parent k).
  assert (H0 : 0 <= n).
  { pose proof (sh_template _ _ Hsh) as [_ ? _ ? _ _]. destruct (slice_val g parent k Hsh Hk) as (_ & ? & _). unfold hlen in Hn. lia. }
  assert (Hok : child_src_ok c).
  { split; [done|]. split; [split; try done; simpl; lia|]. split; [simpl; by rewrite Es|]. simpl. rewrite (pc_packet _ _ _ _ P).
    by destruct Hp. }
  destruct (@calls_serve child (child_source ANXD_S2_TXF_TCP NX_INTERFACE_CAPABILITY_TCP_TX_CHECKSUM _nx_ip_packet_checksum_compute) c rs Hok Hrs)
    as (s' & Ec & _). exists s1, g1, s'. split; [done|]. fold c. rewrite Ec. do 2 f_equal.
  change (serve_all (slot_frame ANXD_S2_TXF_TCP (child_slot c) g1) 0 rs = serve_all (child_frame g parent k n) 0 rs).
  rewrite (placed_frame ANXD_S2_TXF_TCP _ g1 parent k Sh1 Hk1 P1) by (simpl; rewrite Es; done). by rewrite (same_child_frame g g1).
Qed.



(** A device's demand for child [k] of a batch, [n] bytes into a buffer. *)
Record demand := Demand { dm_child : Z; dm_len : Z; dm_out : list Z; dm_addr : Z }.

Fixpoint demands (slot : AmiTxSlot) (g : AmiTxGso) (ds : list demand) : outcome (list (bool * list Z)) :=
  match ds with
  | [] => Val []
  | d :: ds =>
      let! (ok, out, slot, g) := tx_child slot g (dm_child d) (dm_out d) (dm_addr d) (dm_len d) in
      let! rest := demands slot g ds in
      Val ((ok, out) :: rest)
  end.

(** What a demand is answered with: the child's frame, or a refusal. *)
Definition answer_demand (g : AmiTxGso) (parent : list NX_PACKET) (count : Z) (d : demand) : bool * list Z :=
  if (dm_child d <? count) && (dm_len d =? frame_len g (dm_child d))
  then (true, child_frame g parent (dm_child d) (dm_len d) ++ drop (Z.to_nat (dm_len d)) (dm_out d))
  else (false, dm_out d).

Lemma same_frame_len g g' k : same_block g g' -> frame_len g' k = frame_len g k.
Proof.
  intros (E1 & E2 & E3 & E4 & E5 & E6 & E7). unfold TxCopy.frame_len, ami_sana2_gso_frame_len, ami_sana2_gso_slice.
  by rewrite E1, E2, E3, E4, E5.
Qed.

Lemma same_answer g g' parent count d : same_block g g' -> answer_demand g' parent count d = answer_demand g parent count d.
Proof. intros B. unfold answer_demand. rewrite (same_frame_len g g' _ B). by rewrite (same_child_frame g g' parent). Qed.

Lemma demands_answered slot g parent ds :
  batch_ok ANXD_S2_TXF_TCP slot g parent -> Forall (fun d => is_u32 (dm_child d) /\ dm_len d <= len (dm_out d)) ds ->
  demands slot g ds = Val (map (answer_demand g parent (batch_count slot)) ds).
Proof.
  intros Hb Hds. revert slot g Hb. induction Hds as [|d ds [Hd Hl] Hds IH]; intros slot g Hb; [done|]. cbn [demands map].
  unfold answer_demand at 1. destruct (Z.ltb_spec (dm_child d) (batch_count slot)) as [Hk|Hk]; cbn [andb].
  2:{ unfold ami_sana2_tx_child. rewrite (proj2 (Z.leb_le _ _) Hk), !orb_true_r. cbn [obind]. by rewrite IH. }
  destruct (Z.eqb_spec (dm_len d) (frame_len g (dm_child d))) as [E|E].
  - rewrite E in *. destruct (batch_child ANXD_S2_TXF_TCP ethernet AMI_ETH_MIN_FRAME AMI_ETH_HEADER_SIZE slot g parent (dm_child d) (dm_out d) (dm_addr d))
      as (s' & g' & -> & B & Hb' & Ec); [done|unfold is_u32 in Hd; lia|done|]. cbn [obind]. rewrite (IH s' g' Hb'), Ec. cbn [obind].
    do 2 f_equal. apply map_ext. intros d'. by apply same_answer.
  - unfold ami_sana2_tx_child. destruct (_ || _); cbn [obind]; [by rewrite IH|].
    pose proof (ba_count _ _ _ _ Hb). pose proof (sh_segs _ _ (ba_shape _ _ _ _ Hb)). rewrite u16_small by (unfold is_u16, is_u32 in *; lia).
    rewrite (proj2 (Z.eqb_neq _ _) E). cbn [negb obind]. by rewrite IH.
Qed.

(** A device that writes a whole block itself gets each child it asks for, in any
    order and as often as it asks: the answer to a demand depends on the child and the
    length alone, never on the demands before it, and a child past the count, or a
    length that is not the child's write length, is refused with the buffer left as it
    was. *)
Theorem batch_any_order parent room info mtu g slot k s1 g1 z ds :
  parsed parent room info mtu g -> 0 <= k < segs g ->
  ami_sana2_gso_place slot g parent k = (s1, g1, z) -> gso slot <> 0 -> Z.land (tx_flags slot) ANXD_S2_TXF_TCP = 0 ->
  0 < batch_count slot <= segs g -> Forall (fun d => is_u32 (dm_child d) /\ dm_len d <= len (dm_out d)) ds ->
  demands s1 g1 ds = Val (map (answer_demand g parent (batch_count slot)) ds).
Proof.
  intros Hp Hk E Hg Htx Hc Hds. destruct (parsed_ok _ _ _ _ _ Hp) as (Hsh & Hcur & _).
  destruct (place_placed slot g parent k Hsh Hcur Hk) as (s1' & g1' & E' & B & C & P & Es). rewrite E in E'. injection E' as <- <- ->.
  assert (Hb : batch_ok ANXD_S2_TXF_TCP s1 g1 parent).
  { pose proof (pc_index _ _ _ _ P) as Ei. pose proof (same_block_shape g g1 parent B Hsh) as Sh1.
    destruct B as (_ & _ & _ & _ & _ & F6 & _).
    split; try done; rewrite ?Ei, ?F6; try done; rewrite Es; done. }
  rewrite (demands_answered s1 g1 parent) by done. f_equal.
  assert (Ebc : batch_count s1 = batch_count slot) by by rewrite Es. rewrite Ebc. apply map_ext. intros d. by apply same_answer.
Qed.

(** An ordinary write is delivered as the first [total] bytes of its chain, in any
    number of requests of any size and with any restarts, whatever the buffers the
    chain is made of: each request is answered as that text would be, and one longer
    than the write is refused. *)
Theorem packet_delivered g slot rs :
  packet_src_ok NX_INTERFACE_CAPABILITY_TCP_TX_CHECKSUM slot -> Forall request_ok rs ->
  exists slot', packet_calls g slot rs = Val (serve_all (take (Z.to_nat (total slot)) (data_of (packet slot))) (position slot) rs, slot') /\
    packet_src_ok NX_INTERFACE_CAPABILITY_TCP_TX_CHECKSUM slot'.
Proof.
  intros Hok Hrs.
  destruct (@calls_serve AmiTxSlot (packet_source ANXD_S2_TXF_TCP NX_INTERFACE_CAPABILITY_TCP_TX_CHECKSUM _nx_ip_packet_checksum_compute g) slot rs Hok Hrs)
    as (s' & Ec & Hok' & _). by exists s'.
Qed.

(** C16 The checksum filled in while the frame is copied: a TCP segment in one buffer,
    its field zero and its header sum right, taken in one request, goes out as a
    segment the receive check accepts, padding or not and at any alignment; the same
    bytes are left in the packet, and every later request of that write, a restart
    too, delivers them again. *)
Theorem fused_delivered hot IPV4_RX TCP_RX UDP_RX ICMPV4_RX ICMPV6_RX IGMP_RX slot g out oaddr p i t rs r tail s :
  packet slot = [p] -> buf_ok p -> hdr_len slot = 0 -> gso slot = 0 -> cursor slot = [] ->
  0 <= total slot <= packet_size p -> total slot <= 65535 -> total slot <= len out ->
  Z.land (tx_cap slot) NX_INTERFACE_CAPABILITY_TCP_TX_CHECKSUM <> 0 ->
  ami_sana2_tx_tcp_segment (nx_packet_mem p) (total slot) = Val (Some (i, t)) ->
  half (nx_packet_mem p) (i + 16) = 0 -> head_good (nx_packet_mem p) = true -> Forall request_ok rs ->
  let m := take (Z.to_nat (total slot)) (fused_ip (nx_packet_mem p)) in
  rx_ok r -> nx_packet_ip_version r <> 6 -> rx_mem r = m ++ tail -> nx_packet_length r = total slot ->
  exists slot' slot'', copy_from slot g out oaddr (total slot) = Val (true, m ++ drop (Z.to_nat (total slot)) out, slot') /\
    packet_calls g slot' rs = Val (serve_all m (total slot) rs, slot'') /\
    exists v, receiver hot IPV4_RX TCP_RX UDP_RX ICMPV4_RX ICMPV6_RX IGMP_RX r s = Val v /\
      flags v = Z.lor IPV4_RX TCP_RX /\ drop_it v = false.
Proof.
  intros H1 H2 H3 H4 H5 H6 H7 H8 H9 H10 H11 H12 Hrs m Hr Hv Hm Hl.
  destruct (fused_copy ANXD_S2_TXF_TCP _ _nx_ip_packet_checksum_compute slot g out oaddr p i t H1 H2 H3 H4 H5 H6 H7 H8 H9 H10)
    as (s' & E & Hok & Ef & Ep).
  destruct (@calls_serve AmiTxSlot (packet_source ANXD_S2_TXF_TCP NX_INTERFACE_CAPABILITY_TCP_TX_CHECKSUM _nx_ip_packet_checksum_compute g) s' rs Hok Hrs)
    as (s'' & Ec & _). exists s', s''. split; [done|]. split; [rewrite Ec; cbn [src_frame src_pos packet_source]; by rewrite Ef, Ep|].
  pose proof H2 as (_ & Hlen & Hb). pose proof (fused_good (nx_packet_mem p) (total slot) i t Hb ltac:(lia) H10 H11 H12) as Hgood.
  apply (segment_accepted _ _ _ _ _ _ _ r s m tail); try done. unfold m. rewrite length_take. unfold fused_ip. rewrite patch16_length. lia.
Qed.
(** A chain shorter than its length says costs the child, never a read past a
    buffer: a child whose slice the chain does not hold, or does not hold all of, is
    refused at the first request, in one piece or in several. *)
Theorem short_chain_refused slot g out oaddr n :
  template_ok g (first_mem (packet slot)) -> Forall buf_ok (seg_buf slot) -> cursor_in (seg_buf slot) (seg_buf_off slot) ->
  let f := child_fields g (seg_index slot) (first_mem (packet slot)) in
  len (rest (seg_buf slot) (seg_buf_off slot)) < seg_len f <= 65535 -> hlen g + seg_len f <= total slot ->
  Z.land (tx_flags slot) ANXD_S2_TXF_TCP = 0 -> cursor slot = [] -> seg_summed slot = false -> 0 <= n <= total slot -> n <= len out ->
  exists out' slot', ami_sana2_gso_copy ANXD_S2_TXF_TCP slot g out oaddr n = Val (false, out', slot').
Proof.
  intros Ht Hb Hin f Hshort Htot Htx Hcur Hsum Hn Hout. pose proof Ht as [Hbytes Hi _ Hth _ Hl]. unfold ami_sana2_gso_copy, rewind.
  rewrite Hcur. cbn [orb]. cbn [seg_buf set_consumed set_cursor seg_index tx_flags total seg_summed consumed].
  destruct (seg_buf slot) as [|b bs] eqn:Eb; [by repeat eexists|]. rewrite <- Eb in *. clear Eb b bs.
  rewrite fields_val by (done || lia). fold f. cbn [obind]. rewrite Htx, Hsum. cbn [Z.eqb negb andb]. rewrite andb_true_r.
  destruct (Z.eqb_spec n (total slot)) as [->|].
  - unfold gso_copy_whole. unfold hlen in Htot. rewrite emit_spec by lia. cbn [obind cursor cursor_off set_consumed set_cursor]. unfold ami_sana2_gso_walk.
    set (P := slice _ _ _). assert (Lp : len P = hlen g) by (unfold P; rewrite slice_length; unfold hlen; plen).
    destruct (walk_short (2 * length (seg_buf slot)) (seg_buf slot) (seg_buf_off slot)
      (Some (P ++ drop (Z.to_nat (ihl g + thl g - 0)) out)) oaddr (ihl g + thl g) (seg_len f) true 0 0) as (c' & o' & t' & a' & ->);
      try done; try lia; [intros _; apply rounds_enough|cbn [room_for]; rewrite length_app, length_drop; unfold hlen in *; lia|].
    cbn [obind negb]. by repeat eexists.
  - unfold gso_copy_piece, ami_sana2_gso_tcp_field. cbn [seg_buf seg_buf_off set_consumed set_cursor tx_flags seg_summed].
    rewrite Htx, Hsum. cbn [Z.eqb negb]. unfold ami_sana2_gso_walk.
    destruct (walk_short (2 * length (seg_buf slot)) (seg_buf slot) (seg_buf_off slot) None 0 0 (seg_len f) true 0 0) as (c' & o' & t' & a' & ->);
      try done; try lia; [intros _; apply rounds_enough|]. cbn [obind negb]. by repeat eexists.
Qed.
End Claims.

(** ** A block of five bytes in two buffers, cut at two *)

Definition ex_head : list Z :=
  [69; 0; 0; 45; 18; 52; 0; 0; 64; 6; 231; 67; 192; 168; 0; 1; 192; 168; 0; 2;
   4; 210; 0; 80; 0; 0; 3; 232; 0; 0; 7; 208; 80; 153; 32; 0; 0; 0; 0; 0].
Definition ex_buf (at_ : Z) (bytes : list Z) : NX_PACKET :=
  {| nx_packet_prepend_ptr := at_; nx_packet_append_ptr := at_ + len bytes; nx_packet_mem := bytes |}.
Definition ex_parent : list NX_PACKET := [ex_buf 4096 (ex_head ++ [97; 98; 99]); ex_buf 8193 [100; 101]].
Definition ex_info : NX_TCP_GSO_INFO := GsoInfo 2 0 2 0 0.
Definition ex_block : AmiTxGso := TxGso ex_parent (-40) 0 5 2 20 20 3 0 0.
Definition ex_slot : AmiTxSlot := TxSlot [] 0 0 [] 0 0 0 0 0 0 1 0 false 0 [] 0 3 0.
Definition ex_compute (p : list NX_PACKET) (cap _ : Z) : list NX_PACKET * Z := (p, cap).

Definition bytes_check (l : list Z) : bool := forallb (fun z => (0 <=? z) && (z <? 256)) l.
Lemma bytes_check_ok l : bytes_check l = true -> bytes_ok l.
Proof.
  intros H. unfold bytes_check in H. rewrite forallb_forall in H. apply Forall_forall. intros x Hx. apply list_elem_of_In in Hx.
  specialize (H x Hx). rewrite andb_true_iff, Z.leb_le, Z.ltb_lt in H. unfold is_u8. lia.
Qed.

Lemma ex_buf_ok at_ bytes : len bytes < 2 ^ 32 -> bytes_check bytes = true -> buf_ok (ex_buf at_ bytes).
Proof.
  intros Hl Hb. unfold buf_ok, packet_size, ex_buf. cbn [nx_packet_append_ptr nx_packet_prepend_ptr nx_packet_mem].
  split; [lia|]. split; [lia|]. by apply bytes_check_ok.
Qed.

Lemma ex_bufs : Forall buf_ok ex_parent.
Proof. unfold ex_parent. rewrite !Forall_cons. split; [|split; [|constructor]]; apply ex_buf_ok; reflexivity. Qed.

Lemma ex_parsed : parsed 2 1 8 ex_parent 8 ex_info 1500 ex_block.
Proof.
  split; [done|]. split; [exact ex_bufs|]. split; [unfold info_ok, is_u16; simpl; lia|].
  vm_compute. reflexivity.
Qed.

Definition ex_requests : list request :=
  [Request (replicate 30 7) 513 30; Request (replicate 50 7) 1024 50; Request (replicate 16 7) 512 16; Request (replicate 46 7) 512 46].

Lemma ex_requests_ok : Forall request_ok ex_requests.
Proof. unfold ex_requests. rewrite !Forall_cons. unfold request_ok. simpl. split_and!; lia || constructor. Qed.

Lemma child_delivered_witness :
  exists s1 g1 s', ami_sana2_gso_place ex_slot ex_block ex_parent 1 = (s1, g1, 42) /\
    @calls child (child_source 1 1 ex_compute) (Child (set_cursor [] 0 (set_total 46 s1)) g1) ex_requests =
      Val (serve_all (child_frame ex_block ex_parent 1 46) 0 ex_requests, s').
Proof.
  apply (child_delivered 2 1 8 1 1 ex_compute ex_parent 8 ex_info 1500 ex_block ex_slot 1 46 ex_requests ex_parsed);
    [simpl; lia|unfold hlen, child_len, child_off; simpl; lia|discriminate|reflexivity|exact ex_requests_ok].
Defined.

Definition ex_receive (m : list Z) : rx_packet := RxPacket 4096 (4096 + len m) (len m) 4 (m ++ [0]).

Lemma ex_receive_ok m : len m < 2 ^ 16 -> bytes_check (m ++ [0]) = true -> rx_ok (ex_receive m).
Proof.
  intros Hl Hb. split; unfold ex_receive; cbn [prepend append nx_packet_length rx_mem]; [done|lia|done|lia| |by apply bytes_check_ok].
  rewrite length_app. simpl. lia.
Qed.



Definition ex_demands : list demand :=
  [Demand 2 46 (replicate 46 7) 512; Demand 0 46 (replicate 46 7) 513; Demand 3 46 (replicate 46 7) 512; Demand 0 45 (replicate 46 7) 512;
   Demand 2 46 (replicate 47 7) 512].

Lemma batch_any_order_witness :
  demands 1 true 60 14 (fst (fst (ami_sana2_gso_place ex_slot ex_block ex_parent 0))) (snd (fst (ami_sana2_gso_place ex_slot ex_block ex_parent 0))) ex_demands =
    Val (map (answer_demand true 60 14 ex_block ex_parent 3) ex_demands).
Proof.
  apply (batch_any_order 2 1 8 1 true 60 14 ex_parent 8 ex_info 1500 ex_block ex_slot 0 _ _ 42 ex_demands ex_parsed);
    [simpl; lia|vm_compute; reflexivity|discriminate|reflexivity|simpl; lia|].
  unfold ex_demands. rewrite !Forall_cons. unfold is_u32. simpl. split_and!; lia || constructor.
Defined.

Definition ex_write : AmiTxSlot := TxSlot ex_parent 0 45 [] 0 0 45 0 0 0 0 0 false 0 [] 0 0 0.

Lemma packet_delivered_witness :
  exists slot', @calls AmiTxSlot (packet_source 1 1 ex_compute ex_block) ex_write ex_requests =
      Val (serve_all (ex_head ++ [97; 98; 99; 100; 101]) 0 ex_requests, slot') /\
    packet_src_ok 1 slot'.
Proof.
  apply (packet_delivered 1 1 ex_compute ex_block ex_write ex_requests); [|exact ex_requests_ok].
  split; [exact ex_bufs|discriminate|reflexivity|reflexivity| |change (0 <= 0 <= 45); lia|constructor|exact I|].
  - change (0 <= 45 <= 45 /\ 45 <= 65535). lia.
  - intros H. by destruct H.
Defined.

Definition ex_single : AmiTxSlot :=
  TxSlot [ex_buf 4096 (ex_head ++ [97; 98; 99; 100; 101; 0])] 1 46 [] 0 0 46 0 1 0 0 0 false 0 [] 0 0 0.

Lemma fused_delivered_witness :
  let m := take 46 (fused_ip (ex_head ++ [97; 98; 99; 100; 101; 0])) in
  exists slot' slot'', ami_sana2_copy_from_buff 1 1 ex_compute ex_single ex_block (replicate 46 7) 513 46 = Val (true, m ++ [], slot') /\
    @calls AmiTxSlot (packet_source 1 1 ex_compute ex_block) slot' ex_requests = Val (serve_all m 46 ex_requests, slot'') /\
    exists v, receiver false 1 2 4 8 16 32 (ex_receive m) no_stats = Val v /\ flags v = 3 /\ drop_it v = false.
Proof.
  apply (fused_delivered 1 1 ex_compute false 1 2 4 8 16 32 ex_single ex_block (replicate 46 7) 513
    (ex_buf 4096 (ex_head ++ [97; 98; 99; 100; 101; 0])) 20 45 ex_requests
    (ex_receive (take 46 (fused_ip (ex_head ++ [97; 98; 99; 100; 101; 0])))) [0] no_stats);
    [reflexivity|apply ex_buf_ok; reflexivity|reflexivity|reflexivity|reflexivity
    |change (0 <= 46 <= 46); lia|change (46 <= 65535); lia|change (46 <= 46); lia|discriminate
    |vm_compute; reflexivity|vm_compute; reflexivity|vm_compute; reflexivity|exact ex_requests_ok
    |apply ex_receive_ok; vm_compute; reflexivity|discriminate|reflexivity|vm_compute; reflexivity].
Defined.

(** The parent's chain without its second buffer. *)
Definition ex_short : AmiTxSlot := TxSlot (take 1 ex_parent) 0 0 [] 0 0 46 0 0 0 1 1 false 0 (take 1 ex_parent) 42 3 0.

Lemma short_chain_refused_witness :
  exists out' slot', ami_sana2_gso_copy 1 ex_short ex_block (replicate 46 7) 512 20 = Val (false, out', slot').
Proof.
  apply (short_chain_refused 1 ex_short ex_block (replicate 46 7) 512 20);
    [|exact (Forall_take _ 1 _ ex_bufs)|change (0 <= 42 <= 43); lia|vm_compute; split; [reflexivity|discriminate]
    |vm_compute; discriminate|reflexivity|reflexivity|reflexivity|change (0 <= 20 <= 46); lia|change (20 <= 46); lia].
  split; [apply bytes_check_ok; reflexivity|simpl; lia|reflexivity|simpl; lia|reflexivity|simpl; lia].
Defined.
