(* ===== verification/Poly1305.v ===== *)
(** * Poly1305 (src/src/crypto68k/c68k_poly1305.c)

    The portable arm: limbs of 26 bits in [ULONG]s, products in [ULONG64]s, each
    operation followed by the reduction to its width.  The context is a record; the
    message and the key are memory with an offset, and a read or write outside it is a
    [Fault]. *)

From Stdlib Require Import ZArith Lia.
From stdpp Require Import base numbers list.
From S2P Require Import Prelude Checksum.
#[local] Open Scope Z_scope.

Definition C68K_POLY1305_KEY_SIZE : Z := 32.
Definition C68K_POLY1305_TAG_SIZE : Z := 16.
Definition C68K_POLY1305_BLOCK_SIZE : Z := 16.

(** [ULONG64] sums and products. *)
Declare Scope dword_scope.
Notation "x +d y" := (u64 (x + y)) (at level 50, left associativity) : dword_scope.
Notation "x *d y" := (u64 (x * y)) (at level 40, left associativity) : dword_scope.
#[local] Open Scope dword_scope.

(** An array of five [ULONG]s. *)
Record limbs := Limbs { l0 : Z; l1 : Z; l2 : Z; l3 : Z; l4 : Z }.
(** An array of four. *)
Record quad := Quad { q0 : Z; q1 : Z; q2 : Z; q3 : Z }.

Record C68K_POLY1305 := Poly1305Ctx {
  c68k_poly1305_r : limbs;
  c68k_poly1305_h : limbs;
  c68k_poly1305_pad : quad;
  c68k_poly1305_buffer : list Z;
  c68k_poly1305_leftover : Z
}.

Definition c68k_poly1305_load_le (m : list Z) (p : Z) : outcome Z :=
  let! b0 := fetch m p in
  let! b1 := fetch m (p + 1) in
  let! b2 := fetch m (p + 2) in
  let! b3 := fetch m (p + 3) in
  Val (Z.lor (Z.lor (Z.lor b0 (b1 <<w 8)) (b2 <<w 16)) (b3 <<w 24)).

Definition c68k_poly1305_store_le (m : list Z) (p v : Z) : outcome (list Z) :=
  let! m := store8 m p (u8 v) in
  let! m := store8 m (p + 1) (u8 (Z.shiftr v 8)) in
  let! m := store8 m (p + 2) (u8 (Z.shiftr v 16)) in
  store8 m (p + 3) (u8 (Z.shiftr v 24)).

(** Four little-endian longwords. *)
Definition load_quad (m : list Z) (p : Z) : outcome quad :=
  let! t0 := c68k_poly1305_load_le m p in
  let! t1 := c68k_poly1305_load_le m (p + 4) in
  let! t2 := c68k_poly1305_load_le m (p + 8) in
  let! t3 := c68k_poly1305_load_le m (p + 12) in
  Val (Quad t0 t1 t2 t3).

Definition c68k_poly1305_initialize (buffer key : list Z) : outcome C68K_POLY1305 :=
  let! t := load_quad key 0 in
  let r := Limbs (Z.land (q0 t) 0x03FFFFFF)
                 (Z.land (Z.lor (Z.shiftr (q0 t) 26) (q1 t <<w 6)) 0x03FFFF03)
                 (Z.land (Z.lor (Z.shiftr (q1 t) 20) (q2 t <<w 12)) 0x03FFC0FF)
                 (Z.land (Z.lor (Z.shiftr (q2 t) 14) (q3 t <<w 18)) 0x03F03FFF)
                 (Z.land (Z.shiftr (q3 t) 8) 0x000FFFFF) in
  let! pad := load_quad key 16 in
  Val (Poly1305Ctx r (Limbs 0 0 0 0 0) pad buffer 0).

(** ** One block *)

(** [h += m] *)
Definition add_block (h : limbs) (t : quad) (hibit : Z) : limbs :=
  Limbs (l0 h +w Z.land (q0 t) 0x03FFFFFF)
        (l1 h +w Z.land (Z.lor (Z.shiftr (q0 t) 26) (q1 t <<w 6)) 0x03FFFFFF)
        (l2 h +w Z.land (Z.lor (Z.shiftr (q1 t) 20) (q2 t <<w 12)) 0x03FFFFFF)
        (l3 h +w Z.land (Z.lor (Z.shiftr (q2 t) 14) (q3 t <<w 18)) 0x03FFFFFF)
        (l4 h +w Z.lor (Z.shiftr (q3 t) 8) hibit).

(** [h *= r]: the five sums of products. *)
Definition mul_limbs (h r : limbs) : limbs :=
  let s1 := l1 r *w 5 in
  let s2 := l2 r *w 5 in
  let s3 := l3 r *w 5 in
  let s4 := l4 r *w 5 in
  Limbs (l0 h *d l0 r +d l1 h *d s4 +d l2 h *d s3 +d l3 h *d s2 +d l4 h *d s1)
        (l0 h *d l1 r +d l1 h *d l0 r +d l2 h *d s4 +d l3 h *d s3 +d l4 h *d s2)
        (l0 h *d l2 r +d l1 h *d l1 r +d l2 h *d l0 r +d l3 h *d s4 +d l4 h *d s3)
        (l0 h *d l3 r +d l1 h *d l2 r +d l2 h *d l1 r +d l3 h *d l0 r +d l4 h *d s4)
        (l0 h *d l4 r +d l1 h *d l3 r +d l2 h *d l2 r +d l3 h *d l1 r +d l4 h *d l0 r).

(** [h %= 2^130 - 5], partially. *)
Definition carry_limbs (d : limbs) : limbs :=
  let c := u32 (Z.shiftr (l0 d) 26) in let h0 := Z.land (u32 (l0 d)) 0x03FFFFFF in
  let d1 := l1 d +d c in let c := u32 (Z.shiftr d1 26) in let h1 := Z.land (u32 d1) 0x03FFFFFF in
  let d2 := l2 d +d c in let c := u32 (Z.shiftr d2 26) in let h2 := Z.land (u32 d2) 0x03FFFFFF in
  let d3 := l3 d +d c in let c := u32 (Z.shiftr d3 26) in let h3 := Z.land (u32 d3) 0x03FFFFFF in
  let d4 := l4 d +d c in let c := u32 (Z.shiftr d4 26) in let h4 := Z.land (u32 d4) 0x03FFFFFF in
  let h0 := h0 +w c *w 5 in let c := Z.shiftr h0 26 in let h0 := Z.land h0 0x03FFFFFF in
  Limbs h0 (h1 +w c) h2 h3 h4.

(** The accumulator after [blocks] whole blocks from [p] on. *)
Fixpoint blocks_from (blocks : nat) (r h : limbs) (m : list Z) (p hibit : Z) : outcome limbs :=
  match blocks with
  | O => Val h
  | S blocks =>
      let! t := load_quad m p in
      blocks_from blocks r (carry_limbs (mul_limbs (add_block h t hibit) r)) m (p + C68K_POLY1305_BLOCK_SIZE) hibit
  end.

Definition set_h (h : limbs) (ctx : C68K_POLY1305) : C68K_POLY1305 :=
  Poly1305Ctx (c68k_poly1305_r ctx) h (c68k_poly1305_pad ctx) (c68k_poly1305_buffer ctx) (c68k_poly1305_leftover ctx).
Definition set_buffer (buffer : list Z) (leftover : Z) (ctx : C68K_POLY1305) : C68K_POLY1305 :=
  Poly1305Ctx (c68k_poly1305_r ctx) (c68k_poly1305_h ctx) (c68k_poly1305_pad ctx) buffer leftover.

Definition c68k_poly1305_blocks_c (ctx : C68K_POLY1305) (m : list Z) (p blocks hibit : Z) : outcome C68K_POLY1305 :=
  let! h := blocks_from (Z.to_nat blocks) (c68k_poly1305_r ctx) (c68k_poly1305_h ctx) m p hibit in
  Val (set_h h ctx).

Definition c68k_poly1305_blocks (ctx : C68K_POLY1305) (m : list Z) (p blocks hibit : Z) : outcome C68K_POLY1305 :=
  c68k_poly1305_blocks_c ctx m p blocks hibit.

(** ** Messages *)

(** [n] bytes of [input] from [p] on, to [at_] of the buffer. *)
Fixpoint copy_in (n : nat) (buffer : list Z) (at_ : Z) (input : list Z) (p : Z) : outcome (list Z) :=
  match n with
  | O => Val buffer
  | S n =>
      let! b := fetch input p in
      let! buffer := store8 buffer at_ b in
      copy_in n buffer (at_ + 1) input (p + 1)
  end.

(** What follows once no partial block is held: [input_length] bytes from [p] on. *)
Definition update_whole (ctx : C68K_POLY1305) (input : list Z) (p input_length : Z) : outcome C68K_POLY1305 :=
  let blocks := input_length / C68K_POLY1305_BLOCK_SIZE in
  let! ctx := (if negb (blocks =? 0) then c68k_poly1305_blocks_c ctx input p blocks (1 <<w 24) else Val ctx) in
  let p := p + blocks * C68K_POLY1305_BLOCK_SIZE in
  let input_length := input_length - blocks * C68K_POLY1305_BLOCK_SIZE in
  let! buffer := copy_in (Z.to_nat input_length) (c68k_poly1305_buffer ctx) 0 input p in
  Val (set_buffer buffer input_length ctx).

Definition c68k_poly1305_update (ctx : C68K_POLY1305) (input : list Z) (input_length : Z) : outcome C68K_POLY1305 :=
  let leftover := c68k_poly1305_leftover ctx in
  if negb (leftover =? 0) then
    let want := C68K_POLY1305_BLOCK_SIZE -w leftover in
    let want := if input_length <? want then input_length else want in
    let! buffer := copy_in (Z.to_nat want) (c68k_poly1305_buffer ctx) leftover input 0 in
    let leftover := leftover +w want in
    let ctx := set_buffer buffer leftover ctx in
    if leftover <? C68K_POLY1305_BLOCK_SIZE then Val ctx
    else
      let! ctx := c68k_poly1305_blocks_c ctx (c68k_poly1305_buffer ctx) 0 1 (1 <<w 24) in
      update_whole (set_buffer (c68k_poly1305_buffer ctx) 0 ctx) input want (input_length - want)
  else update_whole ctx input 0 input_length.

(** ** The tag *)

(** [n] zeroes from [at_] on. *)
Fixpoint zero_from (n : nat) (buffer : list Z) (at_ : Z) : outcome (list Z) :=
  match n with
  | O => Val buffer
  | S n => let! buffer := store8 buffer at_ 0 in zero_from n buffer (at_ + 1)
  end.

(** The short final block: a one byte and zeroes. *)
Definition last_block (ctx : C68K_POLY1305) : outcome C68K_POLY1305 :=
  let i := c68k_poly1305_leftover ctx in
  if negb (i =? 0) then
    let! buffer := store8 (c68k_poly1305_buffer ctx) i 1 in
    let! buffer := zero_from (Z.to_nat (C68K_POLY1305_BLOCK_SIZE - (i + 1))) buffer (i + 1) in
    let! ctx := c68k_poly1305_blocks_c (set_buffer buffer i ctx) buffer 0 1 0 in
    Val (set_buffer buffer 0 ctx)
  else Val ctx.

(** The carries in full. *)
Definition carry_full (h : limbs) : limbs :=
  let c := Z.shiftr (l1 h) 26 in let h1 := Z.land (l1 h) 0x03FFFFFF in
  let h2 := l2 h +w c in let c := Z.shiftr h2 26 in let h2 := Z.land h2 0x03FFFFFF in
  let h3 := l3 h +w c in let c := Z.shiftr h3 26 in let h3 := Z.land h3 0x03FFFFFF in
  let h4 := l4 h +w c in let c := Z.shiftr h4 26 in let h4 := Z.land h4 0x03FFFFFF in
  let h0 := l0 h +w c *w 5 in let c := Z.shiftr h0 26 in let h0 := Z.land h0 0x03FFFFFF in
  Limbs h0 (h1 +w c) h2 h3 h4.

(** [g = h + 5 - 2^130], and the choice between the two. *)
Definition select_limbs (h : limbs) : limbs :=
  let g0 := l0 h +w 5 in let c := Z.shiftr g0 26 in let g0 := Z.land g0 0x03FFFFFF in
  let g1 := l1 h +w c in let c := Z.shiftr g1 26 in let g1 := Z.land g1 0x03FFFFFF in
  let g2 := l2 h +w c in let c := Z.shiftr g2 26 in let g2 := Z.land g2 0x03FFFFFF in
  let g3 := l3 h +w c in let c := Z.shiftr g3 26 in let g3 := Z.land g3 0x03FFFFFF in
  let g4 := (l4 h +w c) -w (1 <<w 26) in
  let mask := Z.shiftr g4 31 -w 1 in
  let pick (h g : Z) : Z := Z.lor (Z.land h (u32 (Z.lnot mask))) (Z.land g mask) in
  Limbs (pick (l0 h) g0) (pick (l1 h) g1) (pick (l2 h) g2) (pick (l3 h) g3) (pick (l4 h) g4).

(** [h mod 2^128] in four words, plus the pad. *)
Definition tag_words (h : limbs) (pad : quad) : quad :=
  let h0 := Z.lor (l0 h) (l1 h <<w 26) in
  let h1 := Z.lor (Z.shiftr (l1 h) 6) (l2 h <<w 20) in
  let h2 := Z.lor (Z.shiftr (l2 h) 12) (l3 h <<w 14) in
  let h3 := Z.lor (Z.shiftr (l3 h) 18) (l4 h <<w 8) in
  let f := h0 +d q0 pad in let h0 := u32 f in
  let f := h1 +d q1 pad +d Z.shiftr f 32 in let h1 := u32 f in
  let f := h2 +d q2 pad +d Z.shiftr f 32 in let h2 := u32 f in
  let f := h3 +d q3 pad +d Z.shiftr f 32 in
  Quad h0 h1 h2 (u32 f).

(** The tag, and the context wiped. *)
Definition c68k_poly1305_finish (ctx : C68K_POLY1305) (tag : list Z) : outcome (list Z * C68K_POLY1305) :=
  let! ctx := last_block ctx in
  let h := select_limbs (carry_full (c68k_poly1305_h ctx)) in
  let t := tag_words h (c68k_poly1305_pad ctx) in
  let! tag := c68k_poly1305_store_le tag 0 (q0 t) in
  let! tag := c68k_poly1305_store_le tag 4 (q1 t) in
  let! tag := c68k_poly1305_store_le tag 8 (q2 t) in
  let! tag := c68k_poly1305_store_le tag 12 (q3 t) in
  let! buffer := zero_from (Z.to_nat C68K_POLY1305_BLOCK_SIZE) (c68k_poly1305_buffer ctx) 0 in
  Val (tag, Poly1305Ctx (Limbs 0 0 0 0 0) (Limbs 0 0 0 0 0) (Quad 0 0 0 0) buffer (c68k_poly1305_leftover ctx)).
