(* ===== verification/Poly1305Spec.v ===== *)
(** * Poly1305 is the authenticator of RFC 8439

    The sum of section 2.5 over the message, whatever the calls it came in, and that
    the limbs carry it without an overflow. *)

From Stdlib Require Import ZArith Lia.
From stdpp Require Import base numbers list.
From S2P Require Import Prelude Checksum RxSpec Poly1305.

#[local] Open Scope Z_scope.

Local Abbreviation len m := (Z.of_nat (length m)).

(** ** The specification *)

(** A little-endian number. *)
Fixpoint le_val (l : list Z) : Z := match l with [] => 0 | b :: r => b + 256 * le_val r end.
Fixpoint le_bytes (n : nat) (v : Z) : list Z := match n with O => [] | S n => v mod 256 :: le_bytes n (v / 256) end.

Definition prime : Z := 2 ^ 130 - 5.
Definition clamp : Z := 0x0ffffffc0ffffffc0ffffffc0fffffff.

(** Each block of sixteen bytes, the last one shorter, with a one byte behind it. *)
Fixpoint poly_from (fuel : nat) (r acc : Z) (m : list Z) : Z :=
  match m, fuel with
  | [], _ | _, O => acc
  | _, S fuel => poly_from fuel r ((acc + le_val (take 16 m ++ [1])) * r mod prime) (drop 16 m)
  end.
Definition poly (r : Z) (m : list Z) : Z := poly_from (length m) r 0 m.

Definition poly1305 (key m : list Z) : list Z :=
  let r := Z.land (le_val (slice key 0 16)) clamp in
  let s := le_val (slice key 16 16) in
  le_bytes 16 ((poly r m + s) mod 2 ^ 128).

(** ** Little-endian words *)

Lemma le_val_range l : bytes_ok l -> 0 <= le_val l < 256 ^ len l.
Proof.
  intros H. induction H as [|b l Hb _ IH]; [done|]. cbn [le_val length]. rewrite Nat2Z.inj_succ, Z.pow_succ_r by lia. unfold is_u8 in Hb. lia.
Qed.

(** Deciding that a list holds bytes. *)
Definition bytes_okb (l : list Z) : bool := forallb (fun b => (0 <=? b) && (b <? 256)) l.

Lemma bytes_okb_ok l : bytes_okb l = true -> bytes_ok l.
Proof.
  induction l as [|b l IH]; intros H; [constructor|]. cbn [bytes_okb forallb] in H. apply andb_prop in H as [Hb H]. constructor; [|by apply IH].
  unfold is_u8. lia.
Qed.

Lemma all_bytes_okb_ok l : forallb bytes_okb l = true -> Forall bytes_ok l.
Proof.
  induction l as [|b l IH]; intros H; [constructor|]. cbn [forallb] in H. apply andb_prop in H as [Hb H]. constructor; [by apply bytes_okb_ok|by apply IH].
Qed.

Lemma le_val_app a b : le_val (a ++ b) = le_val a + 256 ^ len a * le_val b.
Proof.
  induction a as [|x a IH]; [simpl; lia|]. cbn [app le_val length]. rewrite IH, Nat2Z.inj_succ, Z.pow_succ_r by lia. lia.
Qed.

Lemma le_val_zeros n : le_val (replicate n 0) = 0.
Proof. induction n as [|n IH]; [done|]. cbn [replicate le_val]. lia. Qed.

Lemma slice_bytes4 m p : 0 <= p -> p + 4 <= len m -> slice m p 4 = [byte m p; byte m (p + 1); byte m (p + 2); byte m (p + 3)].
Proof.
  intros Hp Hl. rewrite !slice_first by lia. rewrite slice_nil by lia.
  replace (p + 1 + 1) with (p + 2) by lia. by replace (p + 2 + 1) with (p + 3) by lia.
Qed.

Lemma load_le_val m p :
  bytes_ok m -> 0 <= p -> p + 4 <= len m -> c68k_poly1305_load_le m p = Val (le_val (slice m p 4)) /\ is_u32 (le_val (slice m p 4)).
Proof.
  intros Hb Hp Hl. rewrite slice_bytes4 by done. unfold c68k_poly1305_load_le. rewrite !fetch_byte by lia. cbn [obind le_val].
  pose proof (byte_range m p Hb) as R0. pose proof (byte_range m (p + 1) Hb) as R1. pose proof (byte_range m (p + 2) Hb) as R2.
  pose proof (byte_range m (p + 3) Hb) as R3. unfold is_u8 in *.
  rewrite !Z.shiftl_mul_pow2, !u32_small by (rewrite ?Z.shiftl_mul_pow2; unfold is_u32; lia).
  rewrite <- !Z.shiftl_mul_pow2 by lia. split; [|unfold is_u32; lia]. f_equal.
  rewrite (Z.lor_comm _ (Z.shiftl (byte m (p + 3)) 24)), (Z.lor_comm _ (Z.shiftl (byte m (p + 2)) 16)), (Z.lor_comm _ (Z.shiftl (byte m (p + 1)) 8)).
  rewrite (lor_shift_add 8) by lia. rewrite (lor_shift_add 16) by lia. rewrite (lor_shift_add 24) by lia. lia.
Qed.

Definition quad_val (t : quad) : Z := q0 t + 2 ^ 32 * q1 t + 2 ^ 64 * q2 t + 2 ^ 96 * q3 t.
Definition quad_ok (t : quad) : Prop := is_u32 (q0 t) /\ is_u32 (q1 t) /\ is_u32 (q2 t) /\ is_u32 (q3 t).

Lemma load_quad_val m p :
  bytes_ok m -> 0 <= p -> p + 16 <= len m ->
  exists t, load_quad m p = Val t /\ quad_ok t /\ quad_val t = le_val (slice m p 16).
Proof.
  intros Hb Hp Hl. unfold load_quad.
  destruct (load_le_val m p Hb ltac:(lia) ltac:(lia)) as [-> R0]. destruct (load_le_val m (p + 4) Hb ltac:(lia) ltac:(lia)) as [-> R1].
  destruct (load_le_val m (p + 8) Hb ltac:(lia) ltac:(lia)) as [-> R2]. destruct (load_le_val m (p + 12) Hb ltac:(lia) ltac:(lia)) as [-> R3].
  cbn [obind]. eexists. split; [done|]. split; [done|]. unfold quad_val. cbn [q0 q1 q2 q3].
  assert (S4 : forall a n, 0 <= a -> 0 <= n -> a + 4 + n <= len m -> le_val (slice m a (4 + n)) = le_val (slice m a 4) + 2 ^ 32 * le_val (slice m (a + 4) n)).
  { intros a n Ha Hn Hl'. assert (E : slice m a (4 + n) = slice m a 4 ++ slice m (a + 4) n).
    { unfold slice. replace (Z.to_nat (a + 4)) with (Z.to_nat a + 4)%nat by lia. rewrite <- drop_drop.
      change (Z.to_nat 4) with 4%nat. rewrite take_take_drop. f_equal. lia. }
    rewrite E, le_val_app, slice_length by lia. done. }
  change 16 with (4 + (4 + (4 + 4))). rewrite !S4 by lia. replace (p + 4 + 4) with (p + 8) by lia. replace (p + 8 + 4) with (p + 12) by lia. lia.
Qed.

(** ** Limbs *)

Definition val (h : limbs) : Z := l0 h + 2 ^ 26 * l1 h + 2 ^ 52 * l2 h + 2 ^ 78 * l3 h + 2 ^ 104 * l4 h.

(** Digit [j] of a number cut at 26 bits, the last one taking the rest. *)
Definition digit (j x : Z) : Z := if j =? 4 then x / 2 ^ 104 else x / 2 ^ (26 * j) mod 2 ^ 26.

Lemma digits_val x : 0 <= x -> x = digit 0 x + 2 ^ 26 * digit 1 x + 2 ^ 52 * digit 2 x + 2 ^ 78 * digit 3 x + 2 ^ 104 * digit 4 x.
Proof. intros Hx. unfold digit. simpl Z.eqb. cbn iota. simpl Z.mul. Z.div_mod_to_equations. lia. Qed.

Lemma digit_land j x y : 0 <= j <= 4 -> digit j (Z.land x y) = Z.land (digit j x) (digit j y).
Proof.
  intros Hj. unfold digit. destruct (j =? 4).
  - by rewrite <- !Z.shiftr_div_pow2, Z.shiftr_land by lia.
  - rewrite <- !Z.shiftr_div_pow2, <- !Z.land_ones, Z.shiftr_land by lia.
    apply Z.bits_inj'. intros n _. rewrite !Z.land_spec. by destruct (Z.testbit (Z.ones 26) n), (Z.testbit (Z.shiftr x (26 * j)) n), (Z.testbit (Z.shiftr y (26 * j)) n).
Qed.

(** Two words joined across a boundary. *)
Lemma join_words_val a b i k :
  0 <= i -> 0 <= k -> i + k = 32 -> is_u32 a -> Z.lor (Z.shiftr a i) (b <<w k) = b mod 2 ^ i * 2 ^ k + a / 2 ^ i.
Proof.
  intros Hi Hk E Ha. unfold is_u32 in Ha. assert (Es : b <<w k = Z.shiftl (b mod 2 ^ i) k).
  { unfold u32. rewrite !Z.shiftl_mul_pow2 by lia. replace 32 with (i + k) by lia. rewrite Z.pow_add_r by lia.
    rewrite Z.mul_mod_distr_r; lia. }
  rewrite Es, Z.lor_comm, Z.shiftr_div_pow2 by lia. apply lor_shift_add; [done|]. split; [apply Z.div_pos; lia|].
  apply Z.div_lt_upper_bound; [lia|]. rewrite <- Z.pow_add_r by lia. rewrite E. lia.
Qed.

(** The four expressions that cut the words. *)
Definition cut1 (t : quad) : Z := Z.lor (Z.shiftr (q0 t) 26) (q1 t <<w 6).
Definition cut2 (t : quad) : Z := Z.lor (Z.shiftr (q1 t) 20) (q2 t <<w 12).
Definition cut3 (t : quad) : Z := Z.lor (Z.shiftr (q2 t) 14) (q3 t <<w 18).

Lemma cuts t : quad_ok t ->
  q0 t mod 2 ^ 26 = digit 0 (quad_val t) /\ cut1 t mod 2 ^ 26 = digit 1 (quad_val t) /\
  cut2 t mod 2 ^ 26 = digit 2 (quad_val t) /\ cut3 t mod 2 ^ 26 = digit 3 (quad_val t) /\
  q3 t / 2 ^ 8 = digit 4 (quad_val t).
Proof.
  intros (H0 & H1 & H2 & H3). unfold cut1, cut2, cut3. rewrite !join_words_val by (done || lia). unfold digit, quad_val, is_u32 in *.
  simpl Z.eqb. cbn iota. simpl Z.mul. Z.div_mod_to_equations. lia.
Qed.

Lemma land_mask26 x mask : Z.land (Z.ones 26) mask = mask -> Z.land x mask = Z.land (x mod 2 ^ 26) mask.
Proof. intros E. rewrite <- Z.land_ones, <- Z.land_assoc, E by lia. done. Qed.

(** The clamped key in limbs. *)
Lemma clamp_val key :
  bytes_ok key -> 16 <= len key ->
  exists t, load_quad key 0 = Val t /\
    val (Limbs (Z.land (q0 t) 0x03FFFFFF) (Z.land (cut1 t) 0x03FFFF03) (Z.land (cut2 t) 0x03FFC0FF)
      (Z.land (cut3 t) 0x03F03FFF) (Z.land (Z.shiftr (q3 t) 8) 0x000FFFFF)) = Z.land (le_val (slice key 0 16)) clamp.
Proof.
  intros Hb Hl. destruct (load_quad_val key 0 Hb ltac:(lia) ltac:(lia)) as (t & E & Hq & Ev). exists t. split; [done|].
  destruct (cuts t Hq) as (E0 & E1 & E2 & E3 & E4). set (T := le_val (slice key 0 16)) in *. rewrite Ev in *. unfold val. cbn [l0 l1 l2 l3 l4].
  rewrite (land_mask26 (q0 t)), (land_mask26 (cut1 t)), (land_mask26 (cut2 t)), (land_mask26 (cut3 t)), E0, E1, E2, E3 by reflexivity.
  rewrite Z.shiftr_div_pow2, E4 by lia.
  assert (HT : 0 <= Z.land T clamp) by (apply Z.land_nonneg; right; unfold clamp; lia).
  rewrite (digits_val (Z.land T clamp) HT), !digit_land by lia. reflexivity.
Qed.

(** * The limb arithmetic of Poly1305

    Each step of the block loop and of the final reduction, on limbs within their
    bounds: no 32-bit or 64-bit operation wraps, and the value is the one the field
    arithmetic asks for, modulo [2 ^ 130 - 5]. *)

#[local] Open Scope dword_scope.

(** Congruence modulo the prime, with its quotient. *)
Definition cong (x y : Z) : Prop := exists k, x = y + k * prime.

Lemma cong_refl x : cong x x.
Proof. exists 0. lia. Qed.
Lemma cong_trans x y z : cong x y -> cong y z -> cong x z.
Proof. intros [a ->] [b ->]. exists (a + b). lia. Qed.
Lemma cong_mul x y z : cong x y -> cong (x * z) (y * z).
Proof. intros [k ->]. exists (k * z). lia. Qed.
Lemma cong_add x y z : cong x y -> cong (x + z) (y + z).
Proof. intros [k ->]. exists k. lia. Qed.
Lemma cong_mod x : cong x (x mod prime).
Proof. exists (x / prime). pose proof (Z.div_mod x prime ltac:(unfold prime; lia)). lia. Qed.
Lemma cong_eq x y : cong x y -> x mod prime = y mod prime.
Proof. intros [k ->]. apply Z.mod_add. unfold prime. lia. Qed.
Lemma cong_of_mod x y : x mod prime = y mod prime -> cong x y.
Proof. intros E. eapply cong_trans; [apply cong_mod|]. rewrite E. destruct (cong_mod y) as [k Hk]. exists (- k). lia. Qed.

(** The bounds between blocks, and of the key. *)
Definition limbs_ok (h : limbs) : Prop :=
  0 <= l0 h < 2 ^ 26 /\ 0 <= l1 h < 2 ^ 26 + 64 /\ 0 <= l2 h < 2 ^ 26 /\ 0 <= l3 h < 2 ^ 26 /\ 0 <= l4 h < 2 ^ 26.
(** Within a block, once the message is added. *)
Definition limbs_sum_ok (h : limbs) : Prop :=
  0 <= l0 h <= 2 ^ 27 + 64 /\ 0 <= l1 h <= 2 ^ 27 + 64 /\ 0 <= l2 h <= 2 ^ 27 + 64 /\ 0 <= l3 h <= 2 ^ 27 + 64 /\ 0 <= l4 h <= 2 ^ 27 + 64.
(** A limb of the clamped key. *)
Definition key_ok (r : limbs) : Prop :=
  0 <= l0 r < 2 ^ 26 /\ 0 <= l1 r < 2 ^ 26 /\ 0 <= l2 r < 2 ^ 26 /\ 0 <= l3 r < 2 ^ 26 /\ 0 <= l4 r < 2 ^ 26.
(** Products, before the carries. *)
Definition products_ok (d : limbs) : Prop :=
  0 <= l0 d < 2 ^ 58 - 2 ^ 32 /\ 0 <= l1 d < 2 ^ 58 - 2 ^ 32 /\ 0 <= l2 d < 2 ^ 58 - 2 ^ 32 /\ 0 <= l3 d < 2 ^ 58 - 2 ^ 32 /\
  0 <= l4 d <= 5 * ((2 ^ 27 + 64) * (2 ^ 26 - 1)).

Lemma mask26 x : Z.land x 0x03FFFFFF = x mod 2 ^ 26.
Proof. change 0x03FFFFFF with (Z.ones 26). by rewrite Z.land_ones by lia. Qed.

Lemma mask26_u32 x : Z.land (u32 x) 0x03FFFFFF = x mod 2 ^ 26.
Proof. rewrite mask26. unfold u32. change (2 ^ 32) with (2 ^ 26 * 2 ^ 6). rewrite Z.rem_mul_r by lia. rewrite (Z.mul_comm (2 ^ 26)), Z.mod_add, Z.mod_mod by lia. done. Qed.

Lemma mod26 x : 0 <= x mod 2 ^ 26 < 2 ^ 26.
Proof. apply Z.mod_pos_bound. lia. Qed.

(** ** A block *)

Lemma add_block_val h t hibit :
  limbs_ok h -> quad_ok t -> hibit = 0 \/ hibit = 2 ^ 24 ->
  limbs_sum_ok (add_block h t hibit) /\ val (add_block h t hibit) = val h + quad_val t + hibit * 2 ^ 104.
Proof.
  intros Hh Ht Hb. destruct (cuts t Ht) as (E0 & E1 & E2 & E3 & E4). unfold cut1, cut2, cut3 in *.
  assert (E4' : Z.lor (Z.shiftr (q3 t) 8) hibit = digit 4 (quad_val t) + hibit).
  { rewrite Z.shiftr_div_pow2, E4 by lia. destruct Hb as [-> | ->]; [by rewrite Z.lor_0_r; lia|].
    rewrite Z.lor_comm. change (2 ^ 24) with (Z.shiftl 1 24) at 1. rewrite (lor_shift_add 24); [lia|lia|].
    rewrite <- E4. destruct Ht as (_ & _ & _ & H3). unfold is_u32 in H3. split; [apply Z.div_pos; lia|]. apply Z.div_lt_upper_bound; lia. }
  assert (Hd4 : 0 <= digit 4 (quad_val t) < 2 ^ 24).
  { rewrite <- E4. destruct Ht as (_ & _ & _ & H3). unfold is_u32 in H3. split; [apply Z.div_pos; lia|]. apply Z.div_lt_upper_bound; lia. }
  assert (Hq : 0 <= quad_val t) by (destruct Ht as (?&?&?&?); unfold quad_val, is_u32 in *; lia).
  pose proof (digits_val (quad_val t) Hq) as Ev. unfold add_block. rewrite !mask26, E0, E1, E2, E3, E4'.
  assert (D0 : 0 <= digit 0 (quad_val t) < 2 ^ 26) by (rewrite <- E0; apply mod26).
  assert (D1 : 0 <= digit 1 (quad_val t) < 2 ^ 26) by (rewrite <- E1; apply mod26).
  assert (D2 : 0 <= digit 2 (quad_val t) < 2 ^ 26) by (rewrite <- E2; apply mod26).
  assert (D3 : 0 <= digit 3 (quad_val t) < 2 ^ 26) by (rewrite <- E3; apply mod26).
  destruct Hh as (H0 & H1 & H2 & H3 & H4). rewrite !u32_small by (unfold is_u32; lia).
  unfold limbs_sum_ok, val. cbn [l0 l1 l2 l3 l4]. set (Q := quad_val t) in *. clearbody Q. lia.
Qed.

(** Five products and their sum. *)
Lemma prod_bound A B a b : 0 <= a <= A -> 0 <= b <= B -> 0 <= a * b <= A * B.
Proof. nia. Qed.

Lemma dot5 A B a0 a1 a2 a3 a4 b0 b1 b2 b3 b4 :
  0 <= a0 <= A -> 0 <= a1 <= A -> 0 <= a2 <= A -> 0 <= a3 <= A -> 0 <= a4 <= A ->
  0 <= b0 <= B -> 0 <= b1 <= B -> 0 <= b2 <= B -> 0 <= b3 <= B -> 0 <= b4 <= B -> 5 * (A * B) < 2 ^ 64 ->
  a0 *d b0 +d a1 *d b1 +d a2 *d b2 +d a3 *d b3 +d a4 *d b4 = a0 * b0 + a1 * b1 + a2 * b2 + a3 * b3 + a4 * b4 /\
  0 <= a0 * b0 + a1 * b1 + a2 * b2 + a3 * b3 + a4 * b4 <= 5 * (A * B).
Proof.
  intros Ha0 Ha1 Ha2 Ha3 Ha4 Hb0 Hb1 Hb2 Hb3 Hb4 HM.
  pose proof (prod_bound A B a0 b0 Ha0 Hb0) as P0. pose proof (prod_bound A B a1 b1 Ha1 Hb1) as P1. pose proof (prod_bound A B a2 b2 Ha2 Hb2) as P2.
  pose proof (prod_bound A B a3 b3 Ha3 Hb3) as P3. pose proof (prod_bound A B a4 b4 Ha4 Hb4) as P4.
  clear Ha0 Ha1 Ha2 Ha3 Ha4 Hb0 Hb1 Hb2 Hb3 Hb4. generalize dependent (A * B). intros M HM P0 P1 P2 P3 P4.
  generalize dependent (a0 * b0). generalize dependent (a1 * b1). generalize dependent (a2 * b2). generalize dependent (a3 * b3). generalize dependent (a4 * b4).
  intros p4 P4 p3 P3 p2 P2 p1 P1 p0 P0. split; [|lia].
  unfold u64. rewrite (Z.mod_small p0), (Z.mod_small p1), (Z.mod_small p2), (Z.mod_small p3), (Z.mod_small p4) by lia.
  rewrite (Z.mod_small (p0 + p1)), (Z.mod_small (p0 + p1 + p2)), (Z.mod_small (p0 + p1 + p2 + p3)), Z.mod_small by lia. done.
Qed.

Lemma mul_limbs_val h r :
  limbs_sum_ok h -> key_ok r -> products_ok (mul_limbs h r) /\ cong (val h * val r) (val (mul_limbs h r)).
Proof.
  intros (H0 & H1 & H2 & H3 & H4) (R0 & R1 & R2 & R3 & R4). unfold mul_limbs.
  rewrite (u32_small (l1 r * 5)), (u32_small (l2 r * 5)), (u32_small (l3 r * 5)), (u32_small (l4 r * 5)) by (unfold is_u32; lia).
  set (A := 2 ^ 27 + 64) in *. set (B := 5 * (2 ^ 26 - 1)).
  assert (HAB : 5 * (A * B) < 2 ^ 58 - 2 ^ 32) by reflexivity. assert (HAB' : 5 * (A * B) < 2 ^ 64) by lia.
  assert (HC : 5 * (A * (2 ^ 26 - 1)) < 2 ^ 64) by reflexivity.
  destruct (dot5 A B (l0 h) (l1 h) (l2 h) (l3 h) (l4 h) (l0 r) (l4 r * 5) (l3 r * 5) (l2 r * 5) (l1 r * 5)) as [E0 B0]; [lia..|].
  destruct (dot5 A B (l0 h) (l1 h) (l2 h) (l3 h) (l4 h) (l1 r) (l0 r) (l4 r * 5) (l3 r * 5) (l2 r * 5)) as [E1 B1]; [lia..|].
  destruct (dot5 A B (l0 h) (l1 h) (l2 h) (l3 h) (l4 h) (l2 r) (l1 r) (l0 r) (l4 r * 5) (l3 r * 5)) as [E2 B2]; [lia..|].
  destruct (dot5 A B (l0 h) (l1 h) (l2 h) (l3 h) (l4 h) (l3 r) (l2 r) (l1 r) (l0 r) (l4 r * 5)) as [E3 B3]; [lia..|].
  destruct (dot5 A (2 ^ 26 - 1) (l0 h) (l1 h) (l2 h) (l3 h) (l4 h) (l4 r) (l3 r) (l2 r) (l1 r) (l0 r)) as [E4 B4]; [lia..|].
  rewrite E0, E1, E2, E3, E4. split.
  - unfold products_ok. cbn [l0 l1 l2 l3 l4]. fold A. lia.
  - exists (l1 h * l4 r + l2 h * l3 r + l3 h * l2 r + l4 h * l1 r
      + 2 ^ 26 * (l2 h * l4 r + l3 h * l3 r + l4 h * l2 r) + 2 ^ 52 * (l3 h * l4 r + l4 h * l3 r) + 2 ^ 78 * (l4 h * l4 r)).
    unfold val, prime. cbn [l0 l1 l2 l3 l4]. ring.
Qed.

Lemma div26_lt x n : 0 <= n -> 0 <= x < 2 ^ (26 + n) -> 0 <= x / 2 ^ 26 < 2 ^ n.
Proof. intros Hn H. split; [apply Z.div_pos; lia|]. apply Z.div_lt_upper_bound; [lia|]. rewrite <- Z.pow_add_r by lia. lia. Qed.

Lemma carry_limbs_val d : products_ok d -> limbs_ok (carry_limbs d) /\ cong (val d) (val (carry_limbs d)).
Proof.
  intros (H0 & H1 & H2 & H3 & H4). unfold carry_limbs. cbv zeta. rewrite !Z.shiftr_div_pow2, !mask26_u32 by lia.
  assert (step : forall x, 0 <= x < 2 ^ 58 -> u32 (x / 2 ^ 26) = x / 2 ^ 26 /\ 0 <= x / 2 ^ 26 < 2 ^ 32).
  { intros x Hx. pose proof (div26_lt x 32 ltac:(lia) ltac:(lia)) as B. split; [|done]. apply u32_small. exact B. }
  assert (acc : forall d c, 0 <= d < 2 ^ 58 - 2 ^ 32 -> 0 <= c < 2 ^ 32 -> u64 (d + c) = d + c /\ 0 <= d + c < 2 ^ 58).
  { intros x c Hx Hc. split; [|lia]. unfold u64. apply Z.mod_small. lia. }
  destruct (step (l0 d)) as [-> C0]; [lia|]. pose proof (Z.div_mod (l0 d) (2 ^ 26) ltac:(lia)) as M0. pose proof (mod26 (l0 d)) as R0.
  destruct (acc (l1 d) (l0 d / 2 ^ 26)) as [-> D1]; [lia..|]. set (d1 := l1 d + l0 d / 2 ^ 26) in *.
  destruct (step d1) as [-> C1]; [lia|]. pose proof (Z.div_mod d1 (2 ^ 26) ltac:(lia)) as M1. pose proof (mod26 d1) as R1.
  destruct (acc (l2 d) (d1 / 2 ^ 26)) as [-> D2]; [lia..|]. set (d2 := l2 d + d1 / 2 ^ 26) in *.
  destruct (step d2) as [-> C2]; [lia|]. pose proof (Z.div_mod d2 (2 ^ 26) ltac:(lia)) as M2. pose proof (mod26 d2) as R2.
  destruct (acc (l3 d) (d2 / 2 ^ 26)) as [-> D3]; [lia..|]. set (d3 := l3 d + d2 / 2 ^ 26) in *.
  destruct (step d3) as [-> C3]; [lia|]. pose proof (Z.div_mod d3 (2 ^ 26) ltac:(lia)) as M3. pose proof (mod26 d3) as R3.
  destruct (acc (l4 d) (d3 / 2 ^ 26)) as [-> D4]; [lia..|].
  assert (D4' : 0 <= l4 d + d3 / 2 ^ 26 <= 5 * ((2 ^ 27 + 64) * (2 ^ 26 - 1)) + 2 ^ 32) by lia. set (d4 := l4 d + d3 / 2 ^ 26) in *.
  destruct (step d4) as [-> C4]; [lia|]. pose proof (Z.div_mod d4 (2 ^ 26) ltac:(lia)) as M4. pose proof (mod26 d4) as R4.
  assert (C4' : d4 / 2 ^ 26 <= 5 * 2 ^ 27 + 400) by lia.
  rewrite (u32_small (d4 / 2 ^ 26 * 5)), (u32_small (l0 d mod 2 ^ 26 + _)) by (unfold is_u32; lia). set (g := l0 d mod 2 ^ 26 + d4 / 2 ^ 26 * 5) in *.
  pose proof (Z.div_mod g (2 ^ 26) ltac:(lia)) as Mg. pose proof (mod26 g) as Rg.
  pose proof (div26_lt g 6 ltac:(lia) ltac:(unfold g; lia)) as Cg. rewrite u32_small by (unfold is_u32; lia).
  split; [unfold limbs_ok; cbn [l0 l1 l2 l3 l4]; lia|]. exists (d4 / 2 ^ 26).
  unfold val, prime. cbn [l0 l1 l2 l3 l4]. unfold g, d4, d3, d2, d1 in *. lia.
Qed.

Lemma block_val h r t hibit :
  limbs_ok h -> key_ok r -> quad_ok t -> hibit = 0 \/ hibit = 2 ^ 24 ->
  let h' := carry_limbs (mul_limbs (add_block h t hibit) r) in
  limbs_ok h' /\ cong ((val h + quad_val t + hibit * 2 ^ 104) * val r) (val h').
Proof.
  intros Hh Hr Ht Hb h'. destruct (add_block_val h t hibit Hh Ht Hb) as [Hs <-].
  destruct (mul_limbs_val _ r Hs Hr) as [Hp Hc]. destruct (carry_limbs_val _ Hp) as [Ho Hc']. split; [done|]. by eapply cong_trans.
Qed.

(** ** The final reduction *)

(** Every limb below [2 ^ 26]. *)
Definition canonical (h : limbs) : Prop :=
  0 <= l0 h < 2 ^ 26 /\ 0 <= l1 h < 2 ^ 26 /\ 0 <= l2 h < 2 ^ 26 /\ 0 <= l3 h < 2 ^ 26 /\ 0 <= l4 h < 2 ^ 26.

Lemma carry_full_val h : limbs_ok h -> canonical (carry_full h) /\ cong (val h) (val (carry_full h)).
Proof.
  intros (H0 & H1 & H2 & H3 & H4). unfold carry_full. cbv zeta. rewrite !Z.shiftr_div_pow2, !mask26_u32, !mask26 by lia.
  assert (wrap : forall x c, 0 <= x < 2 ^ 26 -> 0 <= c <= 64 -> u32 (x + c) = x + c) by (intros; apply u32_small; unfold is_u32; lia).
  assert (bit : forall x, 0 <= x < 2 ^ 26 + 64 -> 0 <= x / 2 ^ 26 <= 1 /\ x = 2 ^ 26 * (x / 2 ^ 26) + x mod 2 ^ 26).
  { intros x Hx. pose proof (Z.div_mod x (2 ^ 26) ltac:(lia)). pose proof (mod26 x). lia. }
  destruct (bit (l1 h)) as [C1 M1]; [lia|]. pose proof (mod26 (l1 h)) as R1. set (c1 := l1 h / 2 ^ 26) in *.
  rewrite (wrap (l2 h) c1) by lia. destruct (bit (l2 h + c1)) as [C2 M2]; [lia|]. pose proof (mod26 (l2 h + c1)) as R2. set (c2 := (l2 h + c1) / 2 ^ 26) in *.
  rewrite (wrap (l3 h) c2) by lia. destruct (bit (l3 h + c2)) as [C3 M3]; [lia|]. pose proof (mod26 (l3 h + c2)) as R3. set (c3 := (l3 h + c2) / 2 ^ 26) in *.
  rewrite (wrap (l4 h) c3) by lia. destruct (bit (l4 h + c3)) as [C4 M4]; [lia|]. pose proof (mod26 (l4 h + c3)) as R4. set (c4 := (l4 h + c3) / 2 ^ 26) in *.
  rewrite (u32_small (c4 * 5)) by (unfold is_u32; lia). rewrite (wrap (l0 h)) by lia.
  destruct (bit (l0 h + c4 * 5)) as [C5 M5]; [lia|]. pose proof (mod26 (l0 h + c4 * 5)) as R5. set (c5 := (l0 h + c4 * 5) / 2 ^ 26) in *.
  rewrite (wrap (l1 h mod 2 ^ 26)) by lia. unfold canonical. cbn [l0 l1 l2 l3 l4]. split; [lia|].
  exists c4. unfold val, prime. cbn [l0 l1 l2 l3 l4]. lia.
Qed.

Lemma pick_keep h g : is_u32 h -> Z.lor (Z.land h (u32 (Z.lnot 0))) (Z.land g 0) = h.
Proof. intros Hh. change (u32 (Z.lnot 0)) with (Z.ones 32). rewrite Z.land_0_r, Z.lor_0_r, Z.land_ones by lia. apply Z.mod_small. exact Hh. Qed.

Lemma pick_take h g : is_u32 g -> Z.lor (Z.land h (u32 (Z.lnot (Z.ones 32)))) (Z.land g (Z.ones 32)) = g.
Proof. intros Hg. change (u32 (Z.lnot (Z.ones 32))) with 0. rewrite Z.land_0_r, Z.lor_0_l, Z.land_ones by lia. apply Z.mod_small. exact Hg. Qed.

Lemma select_limbs_val h : canonical h -> canonical (select_limbs h) /\ val (select_limbs h) = val h mod prime.
Proof.
  intros (H0 & H1 & H2 & H3 & H4). unfold select_limbs. cbv zeta.
  assert (wrap : forall x c, 0 <= x < 2 ^ 26 -> 0 <= c <= 64 -> u32 (x + c) = x + c) by (intros; apply u32_small; unfold is_u32; lia).
  assert (bit : forall x, 0 <= x < 2 ^ 26 + 64 -> 0 <= x / 2 ^ 26 <= 1 /\ x = 2 ^ 26 * (x / 2 ^ 26) + x mod 2 ^ 26).
  { intros x Hx. pose proof (Z.div_mod x (2 ^ 26) ltac:(lia)). pose proof (mod26 x). lia. }
  rewrite (wrap (l0 h) 5), !mask26, !(Z.shiftr_div_pow2 _ 26) by lia. rewrite (Z.shiftr_div_pow2 _ 31) by lia.
  destruct (bit (l0 h + 5)) as [C0 M0]; [lia|]. pose proof (mod26 (l0 h + 5)) as R0. set (c0 := (l0 h + 5) / 2 ^ 26) in *.
  rewrite (wrap (l1 h) c0) by lia. destruct (bit (l1 h + c0)) as [C1 M1]; [lia|]. pose proof (mod26 (l1 h + c0)) as R1. set (c1 := (l1 h + c0) / 2 ^ 26) in *.
  rewrite (wrap (l2 h) c1) by lia. destruct (bit (l2 h + c1)) as [C2 M2]; [lia|]. pose proof (mod26 (l2 h + c1)) as R2. set (c2 := (l2 h + c1) / 2 ^ 26) in *.
  rewrite (wrap (l3 h) c2) by lia. destruct (bit (l3 h + c2)) as [C3 M3]; [lia|]. pose proof (mod26 (l3 h + c2)) as R3. set (c3 := (l3 h + c2) / 2 ^ 26) in *.
  rewrite (wrap (l4 h) c3) by lia. change (u32 (Z.shiftl 1 26)) with (2 ^ 26).
  assert (Hv : val h = l0 h + 2 ^ 26 * l1 h + 2 ^ 52 * l2 h + 2 ^ 78 * l3 h + 2 ^ 104 * l4 h) by done.
  destruct (Z.eq_dec (l4 h + c3) (2 ^ 26)) as [Htop | Hlow].
  - replace (u32 (l4 h + c3 - 2 ^ 26)) with 0 by (rewrite Htop; done). change (u32 (0 / 2 ^ 31 - 1)) with (Z.ones 32).
    rewrite !pick_take by (unfold is_u32; lia). unfold canonical. cbn [l0 l1 l2 l3 l4]. split; [lia|].
    replace (val h) with (val h - prime + 1 * prime) by lia. rewrite Z.mod_add, (Z.mod_small (val h - prime)) by (unfold prime; lia). unfold val, prime. cbn [l0 l1 l2 l3 l4]. lia.
  - assert (Eg : u32 (l4 h + c3 - 2 ^ 26) / 2 ^ 31 = 1).
    { assert (E : u32 (l4 h + c3 - 2 ^ 26) = l4 h + c3 - 2 ^ 26 + 2 ^ 32) by (symmetry; apply (Z.mod_unique_pos _ _ (-1)); lia).
      rewrite E. symmetry. apply (Z.div_unique_pos _ _ _ (l4 h + c3 - 2 ^ 26 + 2 ^ 31)); lia. }
    rewrite Eg. change (u32 (1 - 1)) with 0. rewrite !pick_keep by (unfold is_u32; lia).
    unfold canonical. cbn [l0 l1 l2 l3 l4]. split; [lia|]. rewrite (Z.mod_small (val h)); [done|]. unfold prime. lia.
Qed.

(** ** The tag *)

Lemma join_low a b k n : 0 <= k -> 0 <= n -> k + n = 32 -> 0 <= a < 2 ^ k -> Z.lor a (b <<w k) = b mod 2 ^ n * 2 ^ k + a.
Proof.
  intros Hk Hn E Ha. assert (Es : b <<w k = Z.shiftl (b mod 2 ^ n) k).
  { unfold u32. rewrite !Z.shiftl_mul_pow2 by lia. replace 32 with (n + k) by lia. rewrite Z.pow_add_r by lia. rewrite Z.mul_mod_distr_r; lia. }
  rewrite Es, Z.lor_comm. by apply lor_shift_add.
Qed.

(** Adding two numbers of four words, with the carries. *)
Lemma add_words w p :
  quad_ok w -> quad_ok p ->
  let f0 := q0 w +d q0 p in let f1 := q1 w +d q1 p +d f0 / 2 ^ 32 in let f2 := q2 w +d q2 p +d f1 / 2 ^ 32 in let f3 := q3 w +d q3 p +d f2 / 2 ^ 32 in
  let t := Quad (u32 f0) (u32 f1) (u32 f2) (u32 f3) in
  quad_ok t /\ quad_val t = (quad_val w + quad_val p) mod 2 ^ 128.
Proof.
  intros (W0 & W1 & W2 & W3) (P0 & P1 & P2 & P3) f0 f1 f2 f3 t. unfold is_u32 in *.
  assert (step : forall a b c, 0 <= a < 2 ^ 32 -> 0 <= b < 2 ^ 32 -> 0 <= c <= 1 ->
    let f := a +d b +d c in f = a + b + c /\ 0 <= f / 2 ^ 32 <= 1 /\ f = 2 ^ 32 * (f / 2 ^ 32) + u32 f /\ 0 <= u32 f < 2 ^ 32).
  { intros a b c Ha Hb Hc f. assert (E : f = a + b + c) by (unfold f, u64; rewrite (Z.mod_small (a + b)), Z.mod_small; lia). split; [done|].
    pose proof (Z.div_mod f (2 ^ 32) ltac:(lia)). pose proof (Z.mod_pos_bound f (2 ^ 32) ltac:(lia)). unfold u32. lia. }
  assert (E0 : f0 = q0 w +d q0 p +d 0) by (unfold f0, u64; rewrite Z.add_0_r, Zmod_mod; done).
  destruct (step (q0 w) (q0 p) 0) as (S0 & C0 & M0 & R0); [lia..|]. rewrite <- E0 in *.
  destruct (step (q1 w) (q1 p) (f0 / 2 ^ 32)) as (S1 & C1 & M1 & R1); [lia..|]. fold f1 in S1, C1, M1, R1.
  destruct (step (q2 w) (q2 p) (f1 / 2 ^ 32)) as (S2 & C2 & M2 & R2); [lia..|]. fold f2 in S2, C2, M2, R2.
  destruct (step (q3 w) (q3 p) (f2 / 2 ^ 32)) as (S3 & C3 & M3 & R3); [lia..|]. fold f3 in S3, C3, M3, R3.
  split; [unfold quad_ok, is_u32, t; cbn [q0 q1 q2 q3]; lia|].
  apply (Z.mod_unique_pos _ _ (f3 / 2 ^ 32)); unfold quad_val, t; cbn [q0 q1 q2 q3]; lia.
Qed.

Lemma tag_words_val h pad :
  canonical h -> quad_ok pad -> quad_ok (tag_words h pad) /\ quad_val (tag_words h pad) = (val h + quad_val pad) mod 2 ^ 128.
Proof.
  intros (H0 & H1 & H2 & H3 & H4) Hp. unfold tag_words. cbv zeta. rewrite !Z.shiftr_div_pow2 by lia.
  assert (part : forall x n, 0 <= n <= 26 -> 0 <= x < 2 ^ 26 -> 0 <= x / 2 ^ n < 2 ^ (26 - n) /\ x = 2 ^ n * (x / 2 ^ n) + x mod 2 ^ n /\ 0 <= x mod 2 ^ n < 2 ^ n).
  { intros x n Hn Hx. pose proof (Z.div_mod x (2 ^ n) ltac:(lia)). pose proof (Z.mod_pos_bound x (2 ^ n) ltac:(lia)). split; [|lia].
    split; [apply Z.div_pos; lia|]. apply Z.div_lt_upper_bound; [lia|]. rewrite <- Z.pow_add_r by lia. replace (n + (26 - n)) with 26 by lia. lia. }
  destruct (part (l1 h) 6 ltac:(lia) H1) as (B1 & M1 & R1). destruct (part (l2 h) 12 ltac:(lia) H2) as (B2 & M2 & R2).
  destruct (part (l3 h) 18 ltac:(lia) H3) as (B3 & M3 & R3). destruct (part (l4 h) 24 ltac:(lia) H4) as (B4 & M4 & R4).
  rewrite (join_low (l0 h) _ 26 6), (join_low (l1 h / 2 ^ 6) _ 20 12), (join_low (l2 h / 2 ^ 12) _ 14 18), (join_low (l3 h / 2 ^ 18) _ 8 24) by (done || lia).
  set (W := Quad (l1 h mod 2 ^ 6 * 2 ^ 26 + l0 h) (l2 h mod 2 ^ 12 * 2 ^ 20 + l1 h / 2 ^ 6) (l3 h mod 2 ^ 18 * 2 ^ 14 + l2 h / 2 ^ 12)
    (l4 h mod 2 ^ 24 * 2 ^ 8 + l3 h / 2 ^ 18)).
  assert (HW : quad_ok W) by (unfold quad_ok, is_u32, W; cbn [q0 q1 q2 q3]; lia).
  assert (EW : (quad_val W + quad_val pad) mod 2 ^ 128 = (val h + quad_val pad) mod 2 ^ 128).
  { replace (val h + quad_val pad) with (quad_val W + quad_val pad + l4 h / 2 ^ 24 * 2 ^ 128); [by rewrite Z.mod_add by lia|].
    unfold W, quad_val, val. cbn [q0 q1 q2 q3]. lia. }
  rewrite <- EW. exact (add_words W pad HW Hp).
Qed.
