(* ===== verification/Poly1305Claims.v ===== *)
(** * Poly1305 over a message in pieces

    The context absorbs a message whatever the calls it is cut into, the tag is the one
    of RFC 8439, and the secrets of the context are wiped. *)

From Stdlib Require Import ZArith Lia.
From stdpp Require Import base numbers list.
From S2P Require Import Prelude Checksum RxSpec TxSum Poly1305 Poly1305Spec.
#[local] Open Scope Z_scope.

Local Abbreviation len m := (Z.of_nat (length m)).

(** ** The sum, block by block *)

Lemma poly_from_fuel f g r acc m : (length m <= f)%nat -> (length m <= g)%nat -> poly_from f r acc m = poly_from g r acc m.
Proof.
  revert g acc m. induction f as [|f IH]; intros g acc m Hf Hg; [destruct m; [by destruct g|simpl in Hf; lia]|].
  destruct m as [|b m]; [by destruct g|]. destruct g as [|g]; [simpl in Hg; lia|]. cbn [poly_from].
  apply IH; rewrite length_drop; simpl in *; lia.
Qed.

(** The sum from an accumulator on. *)
Definition rest (r acc : Z) (m : list Z) : Z := poly_from (length m) r acc m.

Lemma rest_step r acc m : m <> [] -> rest r acc m = rest r ((acc + le_val (take 16 m ++ [1])) * r mod prime) (drop 16 m).
Proof.
  intros Hm. unfold rest. destruct m as [|b m]; [done|]. cbn [length]. cbn [poly_from].
  apply poly_from_fuel; rewrite ?length_drop; simpl length; lia.
Qed.

Lemma rest_full r acc b x : length b = 16%nat -> rest r acc (b ++ x) = rest r ((acc + le_val b + 2 ^ 128) * r mod prime) x.
Proof.
  intros Hb. rewrite rest_step by (by destruct b). rewrite drop_app_length', take_app_length' by done. rewrite le_val_app, Hb.
  change (256 ^ Z.of_nat 16) with (2 ^ 128). change (le_val [1]) with 1. by rewrite Z.mul_1_r, Z.add_assoc.
Qed.

Lemma rest_short r acc b : (0 < length b < 16)%nat -> rest r acc b = (acc + le_val (b ++ [1])) * r mod prime.
Proof.
  intros Hb. rewrite rest_step by (by intros ->; simpl in Hb; lia). by rewrite drop_ge, take_ge by lia.
Qed.

(** ** Blocks *)

Lemma block_step h r t hibit :
  limbs_ok h -> key_ok r -> quad_ok t -> hibit = 0 \/ hibit = 2 ^ 24 ->
  let h' := carry_limbs (mul_limbs (add_block h t hibit) r) in
  limbs_ok h' /\ val h' mod prime = (val h mod prime + quad_val t + hibit * 2 ^ 104) * val r mod prime.
Proof.
  intros Hh Hr Ht Hb h'. destruct (block_val h r t hibit Hh Hr Ht Hb) as [Ho Hc]. fold h' in Ho, Hc. split; [done|].
  rewrite <- (cong_eq _ _ Hc). apply cong_eq, cong_mul. rewrite <- !Z.add_assoc. apply cong_add, cong_mod.
Qed.

Lemma blocks_from_val n : forall r h m p,
  key_ok r -> limbs_ok h -> bytes_ok m -> 0 <= p -> p + 16 * Z.of_nat n <= len m ->
  exists h', blocks_from n r h m p (2 ^ 24) = Val h' /\ limbs_ok h' /\
    forall x, rest (val r) (val h mod prime) (slice m p (16 * Z.of_nat n) ++ x) = rest (val r) (val h' mod prime) x.
Proof.
  induction n as [|n IH]; intros r h m p Hr Hh Hm Hp Hl; cbn [blocks_from].
  { exists h. split; [done|]. split; [done|]. intros x. by rewrite slice_nil by lia. }
  destruct (load_quad_val m p Hm Hp ltac:(lia)) as (t & -> & Ht & Ev). cbn [obind].
  destruct (block_step h r t (2 ^ 24) Hh Hr Ht (or_intror eq_refl)) as [Ho Es].
  unfold C68K_POLY1305_BLOCK_SIZE.
  destruct (IH r _ m (p + 16) Hr Ho Hm ltac:(lia) ltac:(lia)) as (h' & E & Ho' & Hx). exists h'. split; [exact E|]. split; [done|]. intros x.
  replace (16 * Z.of_nat (S n)) with (16 + 16 * Z.of_nat n) by lia. rewrite slice_more, <- app_assoc by lia.
  rewrite rest_full by (apply Nat2Z.inj; rewrite slice_length; lia). rewrite <- Hx, Es, Ev. reflexivity.
Qed.

(** ** Copies *)

Lemma copy_in_val n : forall buffer at_ input p,
  0 <= at_ -> 0 <= p -> at_ + Z.of_nat n <= len buffer -> p + Z.of_nat n <= len input ->
  copy_in n buffer at_ input p = Val (splice buffer at_ (slice input p (Z.of_nat n))).
Proof.
  induction n as [|n IH]; intros buffer at_ input p Ha Hp Hb Hi; cbn [copy_in]; [by rewrite slice_nil, splice_empty by lia|].
  rewrite fetch_byte by lia. cbn [obind]. rewrite store8_splice by lia. cbn [obind].
  rewrite IH; [|lia|lia|rewrite splice_length; simpl; lia|lia]. f_equal.
  rewrite (slice_first input p) by lia. replace (Z.of_nat (S n) - 1) with (Z.of_nat n) by lia.
  change (byte input p :: ?l) with ([byte input p] ++ l). apply (splice_splice buffer at_ [byte input p]); [lia|].
  pose proof (slice_length input (p + 1) (Z.of_nat n)). simpl length. lia.
Qed.

Lemma zero_from_val n : forall buffer at_,
  0 <= at_ -> at_ + Z.of_nat n <= len buffer -> zero_from n buffer at_ = Val (splice buffer at_ (replicate n 0)).
Proof.
  induction n as [|n IH]; intros buffer at_ Ha Hb; cbn [zero_from]; [simpl replicate; by rewrite splice_empty|].
  rewrite store8_splice by lia. cbn [obind]. rewrite IH; [|lia|rewrite splice_length; simpl; lia]. f_equal.
  change (replicate (S n) 0) with ([0] ++ replicate n 0). apply (splice_splice buffer at_ [0]); [lia|]. rewrite length_replicate. simpl length. lia.
Qed.

Lemma splice_prefix {A} (buffer : list A) at_ bs :
  0 <= at_ -> at_ + len bs <= len buffer -> take (Z.to_nat (at_ + len bs)) (splice buffer at_ bs) = take (Z.to_nat at_) buffer ++ bs.
Proof.
  intros Ha Hl. unfold splice. rewrite app_assoc, take_app_length'; [done|]. rewrite length_app, length_take. lia.
Qed.

Lemma splice_bytes buffer at_ bs : bytes_ok buffer -> bytes_ok bs -> bytes_ok (splice buffer at_ bs).
Proof. intros Hb Hs. unfold splice, bytes_ok. apply Forall_app. split; [by apply bytes_take|]. apply Forall_app. split; [done|by apply bytes_drop]. Qed.

Lemma le_bytes_length n v : length (le_bytes n v) = n.
Proof. revert v. induction n as [|n IH]; intros v; [done|]. cbn [le_bytes length]. by rewrite IH. Qed.

Lemma le_bytes_app n k a b : 0 <= a < 256 ^ Z.of_nat n -> le_bytes (n + k) (a + 256 ^ Z.of_nat n * b) = le_bytes n a ++ le_bytes k b.
Proof.
  revert a. induction n as [|n IH]; intros a Ha; [simpl in Ha; replace a with 0 by lia; simpl; by rewrite Z.mul_1_l|].
  rewrite Nat2Z.inj_succ, Z.pow_succ_r in * by lia. cbn [Nat.add le_bytes app].
  replace (a + 256 * 256 ^ Z.of_nat n * b) with (a + 256 ^ Z.of_nat n * b * 256) by lia.
  rewrite Z.mod_add, Z.div_add, IH by first [lia | Z.div_mod_to_equations; lia]. done.
Qed.

Lemma store_le_val m p v : 0 <= p -> p + 4 <= len m -> c68k_poly1305_store_le m p v = Val (splice m p (le_bytes 4 v)).
Proof.
  intros Hp Hl. unfold c68k_poly1305_store_le.
  assert (E : forall a i x y, 0 <= a -> a = p + len i -> y = u8 x -> a + 1 <= len m -> store8 (splice m p i) a y = Val (splice m p (i ++ [u8 x]))).
  { intros a i x y Ha -> -> Hm. rewrite store8_splice by (rewrite splice_length; lia). f_equal. apply splice_splice; [lia|]. simpl length. lia. }
  rewrite <- (splice_empty m p) at 1. rewrite (E _ [] v) by (simpl length; lia || done). cbn [obind app].
  rewrite (E _ _ (Z.shiftr v 8)) by (simpl length; lia || done). cbn [obind app].
  rewrite (E _ _ (Z.shiftr v 16)) by (simpl length; lia || done). cbn [obind app].
  rewrite (E _ _ (Z.shiftr v 24)) by (simpl length; lia || done). cbn [app le_bytes]. do 2 f_equal. unfold u8.
  rewrite !Z.shiftr_div_pow2, !Z.div_div by lia. done.
Qed.

Lemma store_words m t :
  quad_ok t -> 16 <= len m ->
  (let! m := c68k_poly1305_store_le m 0 (q0 t) in let! m := c68k_poly1305_store_le m 4 (q1 t) in
   let! m := c68k_poly1305_store_le m 8 (q2 t) in c68k_poly1305_store_le m 12 (q3 t)) = Val (splice m 0 (le_bytes 16 (quad_val t))).
Proof.
  intros (H0 & H1 & H2 & H3) Hl. unfold is_u32 in *.
  assert (L : forall a, length (le_bytes 4 a) = 4%nat) by (intros; apply le_bytes_length).
  assert (J : forall k a i, k = 0 + len i -> k + 4 <= len m -> splice (splice m 0 i) k (le_bytes 4 a) = splice m 0 (i ++ le_bytes 4 a)).
  { intros k a i -> Hk. apply splice_splice; [lia|]. rewrite L. lia. }
  assert (N : forall i, len i <= len m -> len (splice m 0 i) = len m) by (intros; rewrite splice_length; lia).
  rewrite store_le_val by lia. cbn [obind]. rewrite store_le_val by (rewrite ?N; rewrite ?L; lia). cbn [obind]. rewrite J by (rewrite ?L; lia).
  rewrite store_le_val by (rewrite ?N; rewrite ?length_app, ?L; lia). cbn [obind]. rewrite J by (rewrite ?length_app, ?L; lia).
  rewrite store_le_val by (rewrite ?N; rewrite ?length_app, ?L; lia). rewrite J by (rewrite ?length_app, ?L; lia).
  do 2 f_equal. unfold quad_val.
  replace (q0 t + 2 ^ 32 * q1 t + 2 ^ 64 * q2 t + 2 ^ 96 * q3 t) with (q0 t + 256 ^ 4 * (q1 t + 256 ^ 4 * (q2 t + 256 ^ 4 * q3 t))) by lia.
  change 16%nat with (4 + (4 + (4 + 4)))%nat. change (256 ^ 4) with (256 ^ Z.of_nat 4). rewrite !le_bytes_app by done. by rewrite <- !app_assoc.
Qed.

(** ** The context *)

Section stream.
Context (key : list Z) (Hkey : bytes_ok key) (Hlen : 32 <= len key).

Local Abbreviation r := (Z.land (le_val (slice key 0 16)) clamp).
Local Abbreviation s := (le_val (slice key 16 16)).

(** A context that has absorbed [m]. *)
Record absorbed (m : list Z) (ctx : C68K_POLY1305) : Prop := {
  ab_key : key_ok (c68k_poly1305_r ctx) /\ val (c68k_poly1305_r ctx) = r;
  ab_pad : quad_ok (c68k_poly1305_pad ctx) /\ quad_val (c68k_poly1305_pad ctx) = s;
  ab_limbs : limbs_ok (c68k_poly1305_h ctx);
  ab_buffer : length (c68k_poly1305_buffer ctx) = 16%nat /\ bytes_ok (c68k_poly1305_buffer ctx);
  ab_leftover : 0 <= c68k_poly1305_leftover ctx < 16;
  ab_message : exists whole, m = whole ++ take (Z.to_nat (c68k_poly1305_leftover ctx)) (c68k_poly1305_buffer ctx) /\
    forall x, rest r 0 (whole ++ x) = rest r (val (c68k_poly1305_h ctx) mod prime) x
}.

Lemma land_below a n k : 0 <= n -> 0 <= k < 2 ^ n -> 0 <= Z.land a k < 2 ^ n.
Proof.
  intros Hn Hk. assert (E : Z.land a k = Z.land a k mod 2 ^ n).
  { rewrite <- Z.land_ones, <- Z.land_assoc by lia. f_equal. rewrite Z.land_ones, Z.mod_small by lia. done. }
  rewrite E. apply Z.mod_pos_bound. lia.
Qed.

Lemma initialize_absorbed buffer :
  length buffer = 16%nat -> bytes_ok buffer -> exists ctx, c68k_poly1305_initialize buffer key = Val ctx /\ absorbed [] ctx.
Proof.
  intros Hb Hbb. unfold c68k_poly1305_initialize. destruct (clamp_val key Hkey ltac:(lia)) as (t & -> & Ev). cbn [obind].
  destruct (load_quad_val key 16 Hkey ltac:(lia) ltac:(lia)) as (p & -> & Hp & Ep). cbn [obind]. eexists. split; [done|].
  split; cbn [c68k_poly1305_r c68k_poly1305_h c68k_poly1305_pad c68k_poly1305_buffer c68k_poly1305_leftover]; [|done|..|lia|].
  - split; [|exact Ev]. unfold key_ok. cbn [l0 l1 l2 l3 l4]. refine (conj _ (conj _ (conj _ (conj _ _)))); apply land_below; lia.
  - unfold limbs_ok. cbn [l0 l1 l2 l3 l4]. lia.
  - done.
  - exists []. split; [done|]. intros x. done.
Qed.

(** Whole blocks from outside the buffer. *)
Lemma absorb_blocks m ctx input p blocks :
  absorbed m ctx -> c68k_poly1305_leftover ctx = 0 -> bytes_ok input -> 0 <= p -> 0 <= blocks -> p + 16 * blocks <= len input ->
  exists h, c68k_poly1305_blocks_c ctx input p blocks (1 <<w 24) = Val (set_h h ctx) /\ absorbed (m ++ slice input p (16 * blocks)) (set_h h ctx).
Proof.
  intros [[Hr Er] Hp Hh [Hb Hbb] Hl (w & Em & Hx)] E0 Hi Hp0 Hbl Hlen'. unfold c68k_poly1305_blocks_c.
  destruct (blocks_from_val (Z.to_nat blocks) _ _ input p Hr Hh Hi Hp0 ltac:(lia)) as (h & E & Ho & Hs). change (1 <<w 24) with (2 ^ 24). rewrite E. cbn [obind].
  exists h. split; [done|]. rewrite Z2Nat.id in Hs by lia. rewrite E0 in *. simpl take in Em. rewrite app_nil_r in Em. subst w.
  split; cbn [set_h c68k_poly1305_r c68k_poly1305_h c68k_poly1305_pad c68k_poly1305_buffer c68k_poly1305_leftover]; try done; [rewrite E0; lia|].
  rewrite E0. exists (m ++ slice input p (16 * blocks)). simpl take. rewrite app_nil_r. split; [done|].
  intros x. rewrite <- app_assoc, Hx. rewrite Er in Hs. apply Hs.
Qed.

(** More bytes into the buffer. *)
Lemma absorb_buffer m ctx bs n :
  absorbed m ctx -> bytes_ok bs -> n = c68k_poly1305_leftover ctx + len bs -> n < 16 ->
  absorbed (m ++ bs) (set_buffer (splice (c68k_poly1305_buffer ctx) (c68k_poly1305_leftover ctx) bs) n ctx).
Proof.
  intros [Hr Hp Hh [Hb Hbb] Hl (w & Em & Hx)] Hbs -> Hn.
  split; cbn [set_buffer c68k_poly1305_r c68k_poly1305_h c68k_poly1305_pad c68k_poly1305_buffer c68k_poly1305_leftover]; [done..| |lia|].
  - split; [rewrite splice_length; lia|by apply splice_bytes].
  - exists w. rewrite splice_prefix, Em, app_assoc by lia. done.
Qed.

Lemma update_whole_absorbed m ctx input p n :
  absorbed m ctx -> c68k_poly1305_leftover ctx = 0 -> bytes_ok input -> 0 <= p -> 0 <= n -> p + n <= len input ->
  exists ctx', update_whole ctx input p n = Val ctx' /\ absorbed (m ++ slice input p n) ctx'.
Proof.
  intros Ha E0 Hi Hp Hn Hl. unfold update_whole, C68K_POLY1305_BLOCK_SIZE. cbv zeta. set (k := n / 16).
  pose proof (Z.div_mod n 16 ltac:(lia)) as M. pose proof (Z.mod_pos_bound n 16 ltac:(lia)) as R. fold k in M.
  assert (Hk : 0 <= k) by (apply Z.div_pos; lia).
  assert (exists ctx1, (if negb (k =? 0) then c68k_poly1305_blocks_c ctx input p k (1 <<w 24) else Val ctx) = Val ctx1 /\
    absorbed (m ++ slice input p (16 * k)) ctx1 /\ c68k_poly1305_leftover ctx1 = 0) as (ctx1 & -> & Ha1 & E1).
  { destruct (k =? 0) eqn:Ek.
    - apply Z.eqb_eq in Ek. exists ctx. rewrite Ek, slice_nil, app_nil_r by lia. done.
    - destruct (absorb_blocks m ctx input p k Ha E0 Hi Hp Hk ltac:(lia)) as (h & -> & Hh). by exists (set_h h ctx). }
  cbn [obind]. destruct (ab_buffer _ _ Ha1) as [Hb _]. rewrite copy_in_val by lia. cbn [obind]. eexists. split; [done|].
  replace (slice input p n) with (slice input p (16 * k) ++ slice input (p + k * 16) (n - k * 16)).
  2: { rewrite (Z.mul_comm k 16), <- slice_more by lia. f_equal. lia. }
  rewrite app_assoc, Z2Nat.id by lia. pose proof (absorb_buffer _ _ (slice input (p + k * 16) (n - k * 16)) (n - k * 16) Ha1) as A.
  rewrite E1 in A. apply A; [by apply bytes_slice|rewrite slice_length; lia|lia].
Qed.

Lemma update_absorbed m ctx input n :
  absorbed m ctx -> bytes_ok input -> 0 <= n <= len input ->
  exists ctx', c68k_poly1305_update ctx input n = Val ctx' /\ absorbed (m ++ slice input 0 n) ctx'.
Proof.
  intros Ha Hi Hn. unfold c68k_poly1305_update, C68K_POLY1305_BLOCK_SIZE. cbv zeta.
  pose proof (ab_leftover _ _ Ha) as Hl. destruct (ab_buffer _ _ Ha) as [Hb Hbb]. set (i := c68k_poly1305_leftover ctx) in *.
  destruct (i =? 0) eqn:Ei; cbn [negb].
  { apply Z.eqb_eq in Ei. apply update_whole_absorbed; [done..|lia|lia|lia]. }
  apply Z.eqb_neq in Ei. rewrite (u32_small (16 - i)) by (unfold is_u32; lia).
  set (want := if n <? 16 - i then n else 16 - i). assert (Hw : 0 <= want <= 16 - i /\ want <= n /\ (want < 16 - i -> want = n)).
  { unfold want. destruct (n <? 16 - i) eqn:E; lia. }
  clearbody want. destruct Hw as (Hw & Hwn & Hwl).
  rewrite copy_in_val by lia. cbn [obind]. rewrite Z2Nat.id by lia. rewrite (u32_small (i + want)) by (unfold is_u32; lia).
  assert (Ls : len (slice input 0 want) = want) by (rewrite slice_length; lia).
  destruct (i + want <? 16) eqn:Ef.
  { rewrite <- Hwl by lia. eexists. split; [done|]. apply absorb_buffer; [done|by apply bytes_slice|lia|lia]. }
  cbn [set_buffer c68k_poly1305_buffer]. destruct Ha as [[Hr Er] Hp Hh _ _ (w & Em & Hx)]. fold i in Em.
  set (full := splice (c68k_poly1305_buffer ctx) i (slice input 0 want)).
  assert (Lf : length full = 16%nat) by (unfold full; rewrite splice_length; lia).
  assert (Ef' : full = take (Z.to_nat i) (c68k_poly1305_buffer ctx) ++ slice input 0 want).
  { rewrite <- splice_prefix by lia. fold full. rewrite take_ge; [done|]. lia. }
  assert (Bf : bytes_ok full) by (apply splice_bytes; [done|by apply bytes_slice]).
  assert (Ha0 : absorbed w (set_buffer full 0 ctx)).
  { split; cbn [set_buffer c68k_poly1305_r c68k_poly1305_h c68k_poly1305_pad c68k_poly1305_buffer c68k_poly1305_leftover]; [done..|lia|].
    exists w. by rewrite app_nil_r. }
  destruct (absorb_blocks w _ full 0 1 Ha0 eq_refl Bf ltac:(lia) ltac:(lia) ltac:(lia)) as (h & Eh & Ha1).
  unfold c68k_poly1305_blocks_c in *. cbn [set_buffer c68k_poly1305_r c68k_poly1305_h] in *.
  destruct (blocks_from (Z.to_nat 1) (c68k_poly1305_r ctx) (c68k_poly1305_h ctx) full 0 (1 <<w 24)) as [h'| |]; cbn [obind] in *; [|done|done].
  injection Eh as Eh. cbn [set_h set_buffer c68k_poly1305_r c68k_poly1305_h c68k_poly1305_pad c68k_poly1305_buffer c68k_poly1305_leftover] in *. rewrite Eh.
  change (16 * 1) with 16 in Ha1. rewrite slice_all in Ha1 by lia.
  destruct (update_whole_absorbed _ _ input want (n - want) Ha1 eq_refl Hi ltac:(lia) ltac:(lia) ltac:(lia)) as (ctx' & E & Ha'). exists ctx'. split; [exact E|].
  replace (m ++ slice input 0 n) with ((w ++ full) ++ slice input want (n - want)); [done|].
  rewrite Em, Ef', <- !app_assoc. do 2 f_equal. replace n with (want + (n - want)) at 2 by lia. by rewrite slice_more by lia.
Qed.

Lemma last_block_absorbed m ctx :
  absorbed m ctx ->
  exists ctx', last_block ctx = Val ctx' /\ limbs_ok (c68k_poly1305_h ctx') /\ val (c68k_poly1305_h ctx') mod prime = poly r m /\
    c68k_poly1305_pad ctx' = c68k_poly1305_pad ctx /\ length (c68k_poly1305_buffer ctx') = 16%nat /\ c68k_poly1305_leftover ctx' = 0.
Proof.
  intros [[Hr Er] Hp Hh [Hb Hbb] Hl (w & -> & Hx)]. unfold last_block, C68K_POLY1305_BLOCK_SIZE. cbv zeta. set (i := c68k_poly1305_leftover ctx) in *.
  change (poly r (w ++ ?t)) with (rest r 0 (w ++ t)). rewrite Hx. destruct (i =? 0) eqn:Ei; cbn [negb].
  { apply Z.eqb_eq in Ei. exists ctx. split; [done|]. rewrite Ei. done. }
  apply Z.eqb_neq in Ei. rewrite store8_splice by lia. cbn [obind].
  rewrite zero_from_val by (rewrite ?splice_length; simpl length; lia). cbn [obind]. rewrite (splice_splice _ i [1]) by (rewrite ?length_replicate; simpl length; lia).
  set (k := Z.to_nat (16 - (i + 1))). set (t := take (Z.to_nat i) (c68k_poly1305_buffer ctx)).
  assert (Lt : length t = Z.to_nat i) by (unfold t; rewrite length_take; lia).
  set (full := splice (c68k_poly1305_buffer ctx) i ([1] ++ replicate k 0)).
  assert (Lf : length full = 16%nat) by (unfold full; rewrite splice_length; rewrite ?length_app, ?length_replicate; simpl length; lia).
  assert (Bf : bytes_ok full).
  { apply splice_bytes; [done|]. apply Forall_app. split; [by repeat constructor|]. apply Forall_replicate. done. }
  assert (Ef : full = t ++ [1] ++ replicate k 0).
  { unfold t. rewrite <- splice_prefix by (rewrite ?length_app, ?length_replicate; simpl length; lia). fold full. rewrite take_ge; [done|].
    rewrite length_app, length_replicate. simpl length. lia. }
  unfold c68k_poly1305_blocks_c. change (Z.to_nat 1) with 1%nat. cbn [set_buffer c68k_poly1305_r c68k_poly1305_h blocks_from].
  destruct (load_quad_val full 0 Bf ltac:(lia) ltac:(lia)) as (q & -> & Hq & Eq). cbn [obind].
  destruct (block_step (c68k_poly1305_h ctx) (c68k_poly1305_r ctx) q 0 Hh Hr Hq (or_introl eq_refl)) as [Ho Es].
  eexists. split; [done|]. cbn [set_h set_buffer c68k_poly1305_h c68k_poly1305_pad c68k_poly1305_buffer c68k_poly1305_leftover].
  split; [done|]. split; [|done]. rewrite Es, Er, rest_short by lia.
  rewrite Eq, slice_all, Ef, app_assoc, (le_val_app (t ++ [1])), le_val_zeros, Z.mul_0_r, Z.mul_0_l, !Z.add_0_r by lia. done.
Qed.

Lemma finish_absorbed m ctx tag :
  absorbed m ctx -> 16 <= len tag ->
  c68k_poly1305_finish ctx tag =
    Val (splice tag 0 (poly1305 key m), Poly1305Ctx (Limbs 0 0 0 0 0) (Limbs 0 0 0 0 0) (Quad 0 0 0 0) (replicate 16 0) 0).
Proof.
  intros Ha Ht. destruct (ab_pad _ _ Ha) as [Hp Ep]. destruct (last_block_absorbed m ctx Ha) as (c & E & Ho & Ev & Epad & Hb & E0).
  unfold c68k_poly1305_finish. rewrite E. cbn [obind]. cbv zeta. rewrite Epad, E0.
  destruct (carry_full_val _ Ho) as [Hc Ec]. destruct (select_limbs_val _ Hc) as [Hs Es]. destruct (tag_words_val _ _ Hs Hp) as [Hq Eq].
  set (t := tag_words (select_limbs (carry_full (c68k_poly1305_h c))) (c68k_poly1305_pad ctx)) in *.
  pose proof (store_words tag t Hq Ht) as W. destruct (c68k_poly1305_store_le tag 0 (q0 t)) as [m1| |]; cbn [obind] in W |- *; [|done..].
  destruct (c68k_poly1305_store_le m1 4 (q1 t)) as [m2| |]; cbn [obind] in W |- *; [|done..].
  destruct (c68k_poly1305_store_le m2 8 (q2 t)) as [m3| |]; cbn [obind] in W |- *; [|done..]. rewrite W. cbn [obind].
  change (Z.to_nat C68K_POLY1305_BLOCK_SIZE) with 16%nat. rewrite zero_from_val by lia. cbn [obind]. unfold poly1305.
  rewrite Eq, Es, <- (cong_eq _ _ Ec), Ev, Ep. replace (splice (c68k_poly1305_buffer c) 0 (replicate 16 0)) with (replicate 16 0); [done|].
  unfold splice. rewrite drop_ge by (rewrite length_replicate; lia). by rewrite app_nil_r.
Qed.

(** One call of the update per piece. *)
Fixpoint update_all (ctx : C68K_POLY1305) (pieces : list (list Z)) : outcome C68K_POLY1305 :=
  match pieces with
  | [] => Val ctx
  | p :: pieces => let! ctx := c68k_poly1305_update ctx p (len p) in update_all ctx pieces
  end.

Lemma update_all_absorbed pieces : forall m ctx,
  absorbed m ctx -> Forall bytes_ok pieces -> exists ctx', update_all ctx pieces = Val ctx' /\ absorbed (m ++ concat pieces) ctx'.
Proof.
  induction pieces as [|p pieces IH]; intros m ctx Ha Hp; cbn [update_all]; [exists ctx; by rewrite app_nil_r|].
  apply Forall_cons in Hp as [Hp Hps]. destruct (update_absorbed m ctx p (len p) Ha Hp ltac:(lia)) as (ctx1 & -> & Ha1). cbn [obind].
  rewrite slice_all in Ha1 by done. destruct (IH _ _ Ha1 Hps) as (ctx' & E & Ha'). exists ctx'. split; [done|]. cbn [concat]. by rewrite app_assoc.
Qed.
End stream.

(** The authenticator of a message in pieces. *)
Definition authenticate (buffer key : list Z) (pieces : list (list Z)) (tag : list Z) : outcome (list Z * C68K_POLY1305) :=
  let! ctx := c68k_poly1305_initialize buffer key in
  let! ctx := update_all ctx pieces in
  c68k_poly1305_finish ctx tag.

(** C31 The context initialised with a key, updated with the pieces of a message in any
    division, empty ones included, and finished, writes the tag of RFC 8439 for the
    whole message: the sum over its blocks modulo 2^130 - 5 under the clamped half of
    the key, plus the other half.  No limb, product or carry wraps on the way, no byte
    outside the key, the message, the buffer and the tag is touched, and the context
    that is left holds no key and no accumulator. *)
Theorem poly1305_correct buffer key pieces tag
  (Hbuffer : length buffer = 16%nat) (Hbytes : bytes_ok buffer) (Hkey : bytes_ok key) (Hlen : 32 <= len key)
  (Hpieces : Forall bytes_ok pieces) (Htag : 16 <= len tag) :
  authenticate buffer key pieces tag =
    Val (splice tag 0 (poly1305 key (concat pieces)), Poly1305Ctx (Limbs 0 0 0 0 0) (Limbs 0 0 0 0 0) (Quad 0 0 0 0) (replicate 16 0) 0).
Proof.
  unfold authenticate. destruct (initialize_absorbed key Hkey Hlen buffer Hbuffer Hbytes) as (c & -> & Hc). cbn [obind].
  destruct (update_all_absorbed key pieces [] c Hc Hpieces) as (c' & -> & Hc'). cbn [obind]. by apply finish_absorbed.
Qed.

Definition rfc_key : list Z :=
  [0x85; 0xd6; 0xbe; 0x78; 0x57; 0x55; 0x6d; 0x33; 0x7f; 0x44; 0x52; 0xfe; 0x42; 0xd5; 0x06; 0xa8;
   0x01; 0x03; 0x80; 0x8a; 0xfb; 0x0d; 0xb2; 0xfd; 0x4a; 0xbf; 0xf6; 0xaf; 0x41; 0x49; 0xf5; 0x1b].
(** "Cryptographic Forum Research Group" in three pieces. *)
Definition rfc_pieces : list (list Z) :=
  [[0x43; 0x72; 0x79; 0x70; 0x74]; [];
   [0x6f; 0x67; 0x72; 0x61; 0x70; 0x68; 0x69; 0x63; 0x20; 0x46; 0x6f; 0x72; 0x75; 0x6d; 0x20; 0x52; 0x65; 0x73; 0x65; 0x61; 0x72; 0x63; 0x68];
   [0x20; 0x47; 0x72; 0x6f; 0x75; 0x70]].

Lemma poly1305_correct_witness :
  authenticate (replicate 16 7) rfc_key rfc_pieces (replicate 16 9) =
    Val ([0xa8; 0x06; 0x1d; 0xc1; 0x30; 0x51; 0x36; 0xc6; 0xc2; 0x2b; 0x8b; 0xaf; 0x0c; 0x01; 0x27; 0xa9],
         Poly1305Ctx (Limbs 0 0 0 0 0) (Limbs 0 0 0 0 0) (Quad 0 0 0 0) (replicate 16 0) 0).
Proof.
  refine (eq_trans (poly1305_correct (replicate 16 7) rfc_key rfc_pieces (replicate 16 9) _ _ _ _ _ _) _).
  1: reflexivity. 1,2: by repeat constructor. 1: reflexivity || (simpl; lia). 1: by repeat constructor. 1: simpl; lia. vm_compute. reflexivity.
Defined.
