(* ===== verification/Chacha20.v ===== *)
(** * ChaCha20 and the RFC 8439 AEAD (src/src/crypto68k/c68k_chacha20.c)

    The portable arm.  Input and output are two offsets into one memory, so a call may
    work in place; the context of the cipher, that of the authenticator and the local
    arrays are separate objects, as in the source. *)

From Stdlib Require Import ZArith Lia.
From stdpp Require Import base numbers list.
From S2P Require Import Prelude Checksum Poly1305.
#[local] Open Scope Z_scope.

Definition C68K_CHACHA20_C0 : Z := 0x61707865.
Definition C68K_CHACHA20_C1 : Z := 0x3320646E.
Definition C68K_CHACHA20_C2 : Z := 0x79622D32.
Definition C68K_CHACHA20_C3 : Z := 0x6B206574.
Definition C68K_CHACHA20_KEY_SIZE : Z := 32.
Definition C68K_CHACHA20_NONCE_SIZE : Z := 12.
Definition C68K_CHACHA20_BLOCK_SIZE : Z := 64.

Record C68K_CHACHA20 := Chacha20Ctx {
  c68k_chacha20_state : list Z;
  c68k_chacha20_stream : list Z;
  c68k_chacha20_used : Z
}.

Record C68K_CHACHA20_POLY1305 := AeadCtx {
  c68k_aead_cipher : C68K_CHACHA20;
  c68k_aead_mac : C68K_POLY1305;
  c68k_aead_aad_length : Z;
  c68k_aead_data_length : Z;
  c68k_aead_data_started : Z
}.

(** ** The block function *)

Definition C68K_ROTL (v n : Z) : Z := Z.lor (v <<w n) (Z.shiftr v (32 - n)).

Definition C68K_QR (x : list Z) (a b c d : nat) : list Z :=
  let x := <[a := (x !!! a) +w (x !!! b)]> x in
  let x := <[d := Z.lxor (x !!! d) (x !!! a)]> x in
  let x := <[d := C68K_ROTL (x !!! d) 16]> x in
  let x := <[c := (x !!! c) +w (x !!! d)]> x in
  let x := <[b := Z.lxor (x !!! b) (x !!! c)]> x in
  let x := <[b := C68K_ROTL (x !!! b) 12]> x in
  let x := <[a := (x !!! a) +w (x !!! b)]> x in
  let x := <[d := Z.lxor (x !!! d) (x !!! a)]> x in
  let x := <[d := C68K_ROTL (x !!! d) 8]> x in
  let x := <[c := (x !!! c) +w (x !!! d)]> x in
  let x := <[b := Z.lxor (x !!! b) (x !!! c)]> x in
  <[b := C68K_ROTL (x !!! b) 7]> x.

(** The columns, then the diagonals. *)
Definition double_round (x : list Z) : list Z :=
  let x := C68K_QR x 0 4 8 12 in
  let x := C68K_QR x 1 5 9 13 in
  let x := C68K_QR x 2 6 10 14 in
  let x := C68K_QR x 3 7 11 15 in
  let x := C68K_QR x 0 5 10 15 in
  let x := C68K_QR x 1 6 11 12 in
  let x := C68K_QR x 2 7 8 13 in
  C68K_QR x 3 4 9 14.

Fixpoint rounds (round : list Z -> list Z) (i : nat) (x : list Z) : list Z :=
  match i with O => x | S i => rounds round i (round x) end.

Definition c68k_chacha20_core_c (input : list Z) : list Z :=
  let x := rounds double_round 10 input in
  zip_with (fun a b => a +w b) x input.

(** ** Bytes of a block *)

Definition c68k_chacha20_load_le (m : list Z) (p : Z) : outcome Z :=
  let! b0 := fetch m p in
  let! b1 := fetch m (p + 1) in
  let! b2 := fetch m (p + 2) in
  let! b3 := fetch m (p + 3) in
  Val (Z.lor (Z.lor (Z.lor b0 (b1 <<w 8)) (b2 <<w 16)) (b3 <<w 24)).

(** [out[k] = in[k] ^ b] *)
Definition xor8 (mem : list Z) (in_ out b : Z) : outcome (list Z) :=
  let! a := fetch mem in_ in
  store8 mem out (Z.lxor a b).

Fixpoint c68k_chacha20_xor_block (ks mem : list Z) (in_ out : Z) : outcome (list Z) :=
  match ks with
  | [] => Val mem
  | k :: ks =>
      let! mem := xor8 mem in_ out (u8 k) in
      let! mem := xor8 mem (in_ + 1) (out + 1) (u8 (Z.shiftr k 8)) in
      let! mem := xor8 mem (in_ + 2) (out + 2) (u8 (Z.shiftr k 16)) in
      let! mem := xor8 mem (in_ + 3) (out + 3) (u8 (Z.shiftr k 24)) in
      c68k_chacha20_xor_block ks mem (in_ + 4) (out + 4)
  end.

Fixpoint c68k_chacha20_store_block (ks mem : list Z) (out : Z) : outcome (list Z) :=
  match ks with
  | [] => Val mem
  | k :: ks =>
      let! mem := store8 mem out (u8 k) in
      let! mem := store8 mem (out + 1) (u8 (Z.shiftr k 8)) in
      let! mem := store8 mem (out + 2) (u8 (Z.shiftr k 16)) in
      let! mem := store8 mem (out + 3) (u8 (Z.shiftr k 24)) in
      c68k_chacha20_store_block ks mem (out + 4)
  end.

(** ** The cipher *)

(** [n] longwords from [p] on. *)
Fixpoint load_words (n : nat) (m : list Z) (p : Z) : outcome (list Z) :=
  match n with
  | O => Val []
  | S n => let! w := c68k_chacha20_load_le m p in let! r := load_words n m (p + 4) in Val (w :: r)
  end.

(** [stream] is whatever the array of the context holds. *)
Definition c68k_chacha20_initialize (stream key nonce : list Z) (counter : Z) : outcome C68K_CHACHA20 :=
  let! k := load_words 8 key 0 in
  let! n := load_words 3 nonce 0 in
  Val (Chacha20Ctx ([C68K_CHACHA20_C0; C68K_CHACHA20_C1; C68K_CHACHA20_C2; C68K_CHACHA20_C3] ++ k ++ [counter] ++ n)
         stream C68K_CHACHA20_BLOCK_SIZE).

(** The next block, and the counter past it. *)
Definition next_block (ctx : C68K_CHACHA20) : list Z * C68K_CHACHA20 :=
  let state := c68k_chacha20_state ctx in
  (c68k_chacha20_core_c state,
   Chacha20Ctx (<[12%nat := (state !!! 12%nat) +w 1]> state) (c68k_chacha20_stream ctx) (c68k_chacha20_used ctx)).

(** [n] bytes of the stream held from [at_] on. *)
Fixpoint xor_bytes (n : nat) (stream : list Z) (at_ : Z) (mem : list Z) (in_ out : Z) : outcome (list Z) :=
  match n with
  | O => Val mem
  | S n =>
      let! b := fetch stream at_ in
      let! mem := xor8 mem in_ out b in
      xor_bytes n stream (at_ + 1) mem (in_ + 1) (out + 1)
  end.

(** The whole blocks. *)
Fixpoint xor_blocks (blocks : nat) (ctx : C68K_CHACHA20) (mem : list Z) (in_ out : Z) : outcome (C68K_CHACHA20 * list Z) :=
  match blocks with
  | O => Val (ctx, mem)
  | S blocks =>
      let '(ks, ctx) := next_block ctx in
      let! mem := c68k_chacha20_xor_block ks mem in_ out in
      xor_blocks blocks ctx mem (in_ + C68K_CHACHA20_BLOCK_SIZE) (out + C68K_CHACHA20_BLOCK_SIZE)
  end.

(** What follows once no stream is held. *)
Definition xor_rest (ctx : C68K_CHACHA20) (mem : list Z) (in_ out length : Z) : outcome (C68K_CHACHA20 * list Z) :=
  let blocks := length / C68K_CHACHA20_BLOCK_SIZE in
  let! r := xor_blocks (Z.to_nat blocks) ctx mem in_ out in
  let '(ctx, mem) := r in
  let in_ := in_ + blocks * C68K_CHACHA20_BLOCK_SIZE in
  let out := out + blocks * C68K_CHACHA20_BLOCK_SIZE in
  let length := length - blocks * C68K_CHACHA20_BLOCK_SIZE in
  if negb (length =? 0) then
    let '(ks, ctx) := next_block ctx in
    let! stream := c68k_chacha20_store_block ks (c68k_chacha20_stream ctx) 0 in
    let! mem := xor_bytes (Z.to_nat length) stream 0 mem in_ out in
    Val (Chacha20Ctx (c68k_chacha20_state ctx) stream length, mem)
  else Val (ctx, mem).

Definition c68k_chacha20_xor (ctx : C68K_CHACHA20) (mem : list Z) (in_ out length : Z) : outcome (C68K_CHACHA20 * list Z) :=
  let used := c68k_chacha20_used ctx in
  if used <? C68K_CHACHA20_BLOCK_SIZE then
    let want := C68K_CHACHA20_BLOCK_SIZE -w used in
    let want := if length <? want then length else want in
    let! mem := xor_bytes (Z.to_nat want) (c68k_chacha20_stream ctx) used mem in_ out in
    let ctx := Chacha20Ctx (c68k_chacha20_state ctx) (c68k_chacha20_stream ctx) (used +w want) in
    xor_rest ctx mem (in_ + want) (out + want) (length - want)
  else xor_rest ctx mem in_ out length.

Definition c68k_chacha20_keystream (ctx : C68K_CHACHA20) (mem : list Z) (out length : Z) : outcome (C68K_CHACHA20 * list Z) :=
  let! mem := zero_from (Z.to_nat length) mem out in
  c68k_chacha20_xor ctx mem out out length.

(** ** The AEAD *)

Definition set_mac (mac : C68K_POLY1305) (ctx : C68K_CHACHA20_POLY1305) : C68K_CHACHA20_POLY1305 :=
  AeadCtx (c68k_aead_cipher ctx) mac (c68k_aead_aad_length ctx) (c68k_aead_data_length ctx) (c68k_aead_data_started ctx).
Definition set_cipher (cipher : C68K_CHACHA20) (ctx : C68K_CHACHA20_POLY1305) : C68K_CHACHA20_POLY1305 :=
  AeadCtx cipher (c68k_aead_mac ctx) (c68k_aead_aad_length ctx) (c68k_aead_data_length ctx) (c68k_aead_data_started ctx).

(** The authenticator over [length] bytes at [p]. *)
Definition mac_update (ctx : C68K_CHACHA20_POLY1305) (mem : list Z) (p length : Z) : outcome C68K_CHACHA20_POLY1305 :=
  let! mac := c68k_poly1305_update (c68k_aead_mac ctx) (drop (Z.to_nat p) mem) length in
  Val (set_mac mac ctx).

Definition c68k_chacha20_poly1305_pad16 (ctx : C68K_CHACHA20_POLY1305) (so_far : Z) : outcome C68K_CHACHA20_POLY1305 :=
  let n := Z.land so_far 15 in
  if n =? 0 then Val ctx
  else
    let n := 16 - n in
    mac_update ctx (replicate (Z.to_nat n) 0) 0 n.

Definition c68k_chacha20_poly1305_start_data (ctx : C68K_CHACHA20_POLY1305) : outcome C68K_CHACHA20_POLY1305 :=
  if c68k_aead_data_started ctx =? 0 then
    let! ctx := c68k_chacha20_poly1305_pad16 ctx (c68k_aead_aad_length ctx) in
    Val (AeadCtx (c68k_aead_cipher ctx) (c68k_aead_mac ctx) (c68k_aead_aad_length ctx) (c68k_aead_data_length ctx) 1)
  else Val ctx.

(** [ctx] is the uninitialised context, [mac_key] the local array. *)
Definition c68k_chacha20_poly1305_initialize (ctx : C68K_CHACHA20_POLY1305) (mac_key key nonce : list Z) : outcome C68K_CHACHA20_POLY1305 :=
  let! cipher := c68k_chacha20_initialize (c68k_chacha20_stream (c68k_aead_cipher ctx)) key nonce 0 in
  let! r := c68k_chacha20_keystream cipher mac_key 0 C68K_POLY1305_KEY_SIZE in
  let '(cipher, mac_key) := r in
  let! mac := c68k_poly1305_initialize (c68k_poly1305_buffer (c68k_aead_mac ctx)) mac_key in
  let! cipher := c68k_chacha20_initialize (c68k_chacha20_stream cipher) key nonce 1 in
  Val (AeadCtx cipher mac 0 0 0).

Definition c68k_chacha20_poly1305_associate (ctx : C68K_CHACHA20_POLY1305) (aad : list Z) (aad_length : Z) : outcome C68K_CHACHA20_POLY1305 :=
  if negb (c68k_aead_data_started ctx =? 0) then Val ctx
  else
    let! ctx := mac_update ctx aad 0 aad_length in
    Val (AeadCtx (c68k_aead_cipher ctx) (c68k_aead_mac ctx) (c68k_aead_aad_length ctx +w aad_length) (c68k_aead_data_length ctx) (c68k_aead_data_started ctx)).

(** [data_length += length] *)
Definition add_data (length : Z) (ctx : C68K_CHACHA20_POLY1305) : C68K_CHACHA20_POLY1305 :=
  AeadCtx (c68k_aead_cipher ctx) (c68k_aead_mac ctx) (c68k_aead_aad_length ctx) (c68k_aead_data_length ctx +w length) (c68k_aead_data_started ctx).

Definition c68k_chacha20_poly1305_encrypt (ctx : C68K_CHACHA20_POLY1305) (mem : list Z) (in_ out length : Z) : outcome (C68K_CHACHA20_POLY1305 * list Z) :=
  let! ctx := c68k_chacha20_poly1305_start_data ctx in
  let! r := c68k_chacha20_xor (c68k_aead_cipher ctx) mem in_ out length in
  let '(cipher, mem) := r in
  let! ctx := mac_update (set_cipher cipher ctx) mem out length in
  Val (add_data length ctx, mem).

Definition c68k_chacha20_poly1305_decrypt (ctx : C68K_CHACHA20_POLY1305) (mem : list Z) (in_ out length : Z) : outcome (C68K_CHACHA20_POLY1305 * list Z) :=
  let! ctx := c68k_chacha20_poly1305_start_data ctx in
  let! ctx := mac_update ctx mem in_ length in
  let ctx := add_data length ctx in
  let! r := c68k_chacha20_xor (c68k_aead_cipher ctx) mem in_ out length in
  let '(cipher, mem) := r in
  Val (set_cipher cipher ctx, mem).

(** The two counts, eight bytes each. *)
Definition length_block (aad_length data_length : Z) : list Z :=
  let four n := [u8 n; u8 (Z.shiftr n 8); u8 (Z.shiftr n 16); u8 (Z.shiftr n 24)] in
  four aad_length ++ [0; 0; 0; 0] ++ four data_length ++ [0; 0; 0; 0].

Definition c68k_chacha20_poly1305_tag (ctx : C68K_CHACHA20_POLY1305) (tag : list Z) : outcome (C68K_CHACHA20_POLY1305 * list Z) :=
  let! ctx := c68k_chacha20_poly1305_start_data ctx in
  let! ctx := c68k_chacha20_poly1305_pad16 ctx (c68k_aead_data_length ctx) in
  let lengths := length_block (c68k_aead_aad_length ctx) (c68k_aead_data_length ctx) in
  let! ctx := mac_update ctx lengths 0 16 in
  let! r := c68k_poly1305_finish (c68k_aead_mac ctx) tag in
  let '(tag, mac) := r in
  Val (set_mac mac ctx, tag).

(** The differences over [n] bytes from [i] on. *)
Fixpoint diff_from (n : nat) (diff : Z) (a b : list Z) (i : Z) : outcome Z :=
  match n with
  | O => Val diff
  | S n =>
      let! x := fetch a i in
      let! y := fetch b i in
      diff_from n (u8 (Z.lor diff (u8 (Z.lxor x y)))) a b (i + 1)
  end.

Definition c68k_chacha20_poly1305_verify (a b : list Z) : outcome Z :=
  let! diff := diff_from (Z.to_nat C68K_POLY1305_TAG_SIZE) 0 a b 0 in
  Val (if diff =? 0 then 1 else 0).
