(* ===== verification/ChachaSpec.v ===== *)
(** * ChaCha20 is the stream of RFC 8439

    The double round as the rounds over the columns of a matrix and of the matrix with
    its rows rotated, the block as sixty-four bytes, and the calls of the cipher as the
    exclusive or with consecutive bytes of one stream. *)

From Stdlib Require Import ZArith Lia.
From stdpp Require Import base numbers list.
From S2P Require Import Prelude Checksum RxSpec TxSum Poly1305 Poly1305Spec Poly1305Claims Chacha20.
#[local] Open Scope Z_scope.

Local Abbreviation len m := (Z.of_nat (length m)).

(** ** The block function *)

(** The quarter round of section 2.1, on four words. *)
Definition quarter (w : Z * Z * Z * Z) : Z * Z * Z * Z :=
  let '(a, b, c, d) := w in
  let a := a +w b in let d := C68K_ROTL (Z.lxor d a) 16 in
  let c := c +w d in let b := C68K_ROTL (Z.lxor b c) 12 in
  let a := a +w b in let d := C68K_ROTL (Z.lxor d a) 8 in
  let c := c +w d in let b := C68K_ROTL (Z.lxor b c) 7 in
  (a, b, c, d).

(** Its four results. *)
Definition qa (a b c d : Z) : Z := (quarter (a, b, c, d)).1.1.1.
Definition qb (a b c d : Z) : Z := (quarter (a, b, c, d)).1.1.2.
Definition qc (a b c d : Z) : Z := (quarter (a, b, c, d)).1.2.
Definition qd (a b c d : Z) : Z := (quarter (a, b, c, d)).2.

(** A matrix of four rows. *)
Definition rows : Type := (list Z * list Z * list Z * list Z)%type.

Fixpoint on_columns (n : nat) (m : rows) : rows :=
  match n, m with
  | S n, (a :: ra, b :: rb, c :: rc, d :: rd) =>
      let '(ra, rb, rc, rd) := on_columns n (ra, rb, rc, rd) in
      (qa a b c d :: ra, qb a b c d :: rb, qc a b c d :: rc, qd a b c d :: rd)
  | _, _ => ([], [], [], [])
  end.

Definition rot (k : nat) (row : list Z) : list Z := drop k row ++ take k row.
(** Row [i] moved [i] places to the left, and back. *)
Definition shift_rows (m : rows) : rows := let '(a, b, c, d) := m in (a, rot 1 b, rot 2 c, rot 3 d).
Definition unshift_rows (m : rows) : rows := let '(a, b, c, d) := m in (a, rot 3 b, rot 2 c, rot 1 d).
Definition to_rows (x : list Z) : rows := (take 4 x, take 4 (drop 4 x), take 4 (drop 8 x), take 4 (drop 12 x)).
Definition of_rows (m : rows) : list Z := let '(a, b, c, d) := m in a ++ b ++ c ++ d.

Definition double_round_spec (x : list Z) : list Z :=
  of_rows (unshift_rows (on_columns 4 (shift_rows (on_columns 4 (to_rows x))))).

(** The four entries a quarter round writes. *)
Definition put (x : list Z) (a b c d : nat) : list Z :=
  let q (f : Z -> Z -> Z -> Z -> Z) := f (x !!! a) (x !!! b) (x !!! c) (x !!! d) in
  <[a := q qa]> (<[b := q qb]> (<[c := q qc]> (<[d := q qd]> x))).

Lemma put_length x a b c d : length (put x a b c d) = length x.
Proof. unfold put. by rewrite !length_insert. Qed.

Lemma length_16 (x : list Z) : length x = 16%nat ->
  exists x0 x1 x2 x3 x4 x5 x6 x7 x8 x9 x10 x11 x12 x13 x14 x15, x = [x0; x1; x2; x3; x4; x5; x6; x7; x8; x9; x10; x11; x12; x13; x14; x15].
Proof. intros H. do 16 (destruct x as [|? x]; [done|]). destruct x; [by eauto 20|done]. Qed.

#[local] Opaque C68K_ROTL u32 Z.lxor Z.add.

Lemma qr_put x a b c d :
  length x = 16%nat ->
  (a, b, c, d) ∈ [(0, 4, 8, 12); (1, 5, 9, 13); (2, 6, 10, 14); (3, 7, 11, 15); (0, 5, 10, 15); (1, 6, 11, 12); (2, 7, 8, 13); (3, 4, 9, 14)]%nat ->
  C68K_QR x a b c d = put x a b c d.
Proof.
  intros H16 Hin. apply length_16 in H16 as (? & ? & ? & ? & ? & ? & ? & ? & ? & ? & ? & ? & ? & ? & ? & ? & ->).
  repeat (apply elem_of_cons in Hin as [[= -> -> -> ->] | Hin]; [by lazy -[C68K_ROTL u32 Z.lxor Z.add]|]). by apply elem_of_nil in Hin.
Qed.

#[local] Opaque qa qb qc qd.

Lemma double_round_put x : length x = 16%nat ->
  double_round x =
    put (put (put (put (put (put (put (put x 0 4 8 12) 1 5 9 13) 2 6 10 14) 3 7 11 15) 0 5 10 15) 1 6 11 12) 2 7 8 13) 3 4 9 14.
Proof.
  intros H16. unfold double_round. cbv zeta.
  do 8 (match goal with |- context [C68K_QR ?y ?a ?b ?c ?d] =>
    lazymatch y with context [C68K_QR] => fail | _ => rewrite (qr_put y a b c d); [|by rewrite ?put_length|by repeat constructor] end end).
  done.
Qed.

Lemma double_round_matrix x : length x = 16%nat -> double_round x = double_round_spec x.
Proof.
  intros H16. rewrite double_round_put by done.
  apply length_16 in H16 as (? & ? & ? & ? & ? & ? & ? & ? & ? & ? & ? & ? & ? & ? & ? & ? & ->). by lazy -[qa qb qc qd].
Qed.

#[local] Transparent C68K_ROTL u32 Z.lxor Z.add qa qb qc qd.

(** The block function as the RFC has it. *)
Definition core_spec (input : list Z) : list Z := zip_with (fun a b => (a + b) mod 2 ^ 32) (rounds double_round_spec 10 input) input.

Lemma double_round_length x : length x = 16%nat -> length (double_round x) = 16%nat.
Proof.
  intros H16. by rewrite double_round_put, !put_length.
Qed.

Lemma rounds_same f g n : forall x : list Z,
  (forall x, length x = 16%nat -> f x = g x) -> (forall x, length x = 16%nat -> length (f x) = 16%nat) -> length x = 16%nat ->
  rounds f n x = rounds g n x /\ length (rounds f n x) = 16%nat.
Proof.
  induction n as [|n IH]; intros x Hfg Hf Hx; [done|]. cbn [rounds]. rewrite <- Hfg by done. apply IH; auto.
Qed.

Lemma core_spec_eq x : length x = 16%nat -> c68k_chacha20_core_c x = core_spec x /\ length (c68k_chacha20_core_c x) = 16%nat.
Proof.
  intros Hx. destruct (rounds_same double_round double_round_spec 10 x double_round_matrix double_round_length Hx) as [E L].
  unfold c68k_chacha20_core_c, core_spec. cbv zeta. rewrite length_zip_with, L, Hx, E.
  generalize (rounds double_round_spec 10 x). intros y. done.
Qed.

#[global] Opaque c68k_chacha20_core_c.

(** ** Runs of exclusive or *)

(** The bytes [bs] applied to memory, one after the other. *)
Fixpoint xor_run (bs mem : list Z) (in_ out : Z) : outcome (list Z) :=
  match bs with
  | [] => Val mem
  | b :: bs => let! mem := xor8 mem in_ out b in xor_run bs mem (in_ + 1) (out + 1)
  end.

Lemma obind_assoc {A B C} (m : outcome A) (f : A -> outcome B) (g : B -> outcome C) :
  (let! y := (let! x := m in f x) in g y) = (let! x := m in let! y := f x in g y).
Proof. by destruct m. Qed.

Lemma xor_run_app a b mem in_ out : xor_run (a ++ b) mem in_ out = let! mem := xor_run a mem in_ out in xor_run b mem (in_ + len a) (out + len a).
Proof.
  revert mem in_ out. induction a as [|x a IH]; intros mem in_ out; cbn [app xor_run obind length]; [by rewrite !Z.add_0_r|].
  rewrite obind_assoc. destruct (xor8 mem in_ out x); cbn [obind]; [|done..]. rewrite IH.
  replace (in_ + 1 + len a) with (in_ + Z.of_nat (S (length a))) by lia. by replace (out + 1 + len a) with (out + Z.of_nat (S (length a))) by lia.
Qed.

(** Reading is never behind a byte already written, in place included. *)
Definition apart (in_ out n : Z) : Prop := out <= in_ \/ in_ + n <= out.

Definition xor_list (a b : list Z) : list Z := zip_with Z.lxor a b.

Lemma xor_run_val bs : forall mem in_ out,
  0 <= in_ -> 0 <= out -> in_ + len bs <= len mem -> out + len bs <= len mem -> apart in_ out (len bs) ->
  xor_run bs mem in_ out = Val (splice mem out (xor_list (slice mem in_ (len bs)) bs)).
Proof.
  induction bs as [|b bs IH]; intros mem in_ out Hi Ho Hli Hlo Ha; cbn [xor_run].
  { rewrite slice_nil by (simpl length; lia). simpl. by rewrite splice_empty. }
  cbn [length] in *. unfold xor8. rewrite fetch_byte by lia. cbn [obind]. rewrite store8_splice by lia. cbn [obind].
  assert (L : length (splice mem out [Z.lxor (byte mem in_) b]) = length mem) by (apply splice_length; simpl length; lia).
  rewrite IH; [|lia|lia|lia|lia|destruct Ha; [left|right]; lia].
  rewrite slice_splice_out by (simpl length; unfold apart in Ha; lia).
  rewrite (slice_first mem in_) by lia. replace (Z.of_nat (S (length bs)) - 1) with (len bs) by lia.
  change (xor_list (byte mem in_ :: ?s) (b :: bs)) with ([Z.lxor (byte mem in_) b] ++ xor_list s bs). f_equal.
  apply (splice_splice mem out [_]); [lia|]. unfold xor_list. rewrite length_zip_with. pose proof (slice_length mem (in_ + 1) (len bs)). simpl length. lia.
Qed.

Lemma xor_bytes_run n : forall stream at_ mem in_ out,
  0 <= at_ -> at_ + Z.of_nat n <= len stream -> xor_bytes n stream at_ mem in_ out = xor_run (slice stream at_ (Z.of_nat n)) mem in_ out.
Proof.
  induction n as [|n IH]; intros stream at_ mem in_ out Ha Hl; cbn [xor_bytes]; [by rewrite slice_nil by lia|].
  rewrite fetch_byte by lia. cbn [obind]. rewrite (slice_first stream at_) by lia. cbn [xor_run].
  replace (Z.of_nat (S n) - 1) with (Z.of_nat n) by lia. destruct (xor8 mem in_ out (byte stream at_)); cbn [obind]; [|done..]. apply IH; lia.
Qed.

(** ** The bytes of words *)

Definition words_bytes (ks : list Z) : list Z := concat (map (fun k => [u8 k; u8 (Z.shiftr k 8); u8 (Z.shiftr k 16); u8 (Z.shiftr k 24)]) ks).

Lemma words_bytes_length ks : length (words_bytes ks) = (4 * length ks)%nat.
Proof. induction ks as [|k ks IH]; [done|]. unfold words_bytes in *. cbn [map concat length app]. rewrite IH. lia. Qed.

Lemma words_bytes_ok ks : bytes_ok (words_bytes ks).
Proof. induction ks as [|k ks IH]; [constructor|]. unfold words_bytes in *. cbn [map concat]. apply Forall_app. split; [|done]. repeat constructor; apply u8_range. Qed.

(** Little-endian, as a number. *)
Lemma words_bytes_val k : is_u32 k -> words_bytes [k] = le_bytes 4 k.
Proof. intros Hk. unfold words_bytes. cbn [map concat app le_bytes]. unfold u8. by rewrite !Z.shiftr_div_pow2, !Z.div_div by lia. Qed.

Lemma xor_block_run ks : forall mem in_ out, c68k_chacha20_xor_block ks mem in_ out = xor_run (words_bytes ks) mem in_ out.
Proof.
  induction ks as [|k ks IH]; intros mem in_ out; [done|]. unfold words_bytes in *. cbn [c68k_chacha20_xor_block map concat app xor_run].
  destruct (xor8 mem in_ out (u8 k)) as [m1| |]; cbn [obind]; [|done..].
  destruct (xor8 m1 _ _ _) as [m2| |]; cbn [obind]; [|done..].
  replace (in_ + 1 + 1) with (in_ + 2) by lia. replace (out + 1 + 1) with (out + 2) by lia.
  destruct (xor8 m2 _ _ _) as [m3| |]; cbn [obind]; [|done..].
  replace (in_ + 2 + 1) with (in_ + 3) by lia. replace (out + 2 + 1) with (out + 3) by lia.
  destruct (xor8 m3 _ _ _) as [m4| |]; cbn [obind]; [|done..]. rewrite IH. f_equal; lia.
Qed.

Lemma store_block_val ks : forall mem out,
  0 <= out -> out + 4 * len ks <= len mem -> c68k_chacha20_store_block ks mem out = Val (splice mem out (words_bytes ks)).
Proof.
  induction ks as [|k ks IH]; intros mem out Ho Hl; [change (words_bytes []) with (@nil Z); by rewrite splice_empty|]. cbn [c68k_chacha20_store_block length] in *.
  assert (E : forall a i x y, a = out + len i -> y = x -> a + 1 <= len mem -> store8 (splice mem out i) a y = Val (splice mem out (i ++ [x]))).
  { intros a i x y -> -> Hm. rewrite store8_splice by (rewrite splice_length; lia). f_equal. apply splice_splice; [lia|]. simpl length. lia. }
  rewrite <- (splice_empty mem out) at 1. rewrite (E _ [] (u8 k)) by (simpl length; lia || done). cbn [obind app].
  rewrite (E _ _ (u8 (Z.shiftr k 8))) by (simpl length; lia || done). cbn [obind app].
  rewrite (E _ _ (u8 (Z.shiftr k 16))) by (simpl length; lia || done). cbn [obind app].
  rewrite (E _ _ (u8 (Z.shiftr k 24))) by (simpl length; lia || done). cbn [obind app].
  rewrite IH by (rewrite ?splice_length; simpl length; lia). f_equal.
  apply (splice_splice mem out [_; _; _; _] (words_bytes ks)); [lia|]. rewrite words_bytes_length. simpl length. lia.
Qed.

(** ** The stream *)

(** A state with its block counter set. *)
Definition at_counter (s : list Z) (c : Z) : list Z := <[12%nat := u32 c]> s.
Definition block_bytes (s : list Z) (c : Z) : list Z := words_bytes (c68k_chacha20_core_c (at_counter s c)).
(** [n] bytes of the stream that starts at counter [c], from position [p] on. *)
Definition stream_byte (s : list Z) (c i : Z) : Z := byte (block_bytes s (c + i / 64)) (i mod 64).
Definition keystream (s : list Z) (c p : Z) (n : nat) : list Z := (fun i => stream_byte s c (p + Z.of_nat i)) <$> List.seq 0 n.

Lemma keystream_length s c p n : length (keystream s c p n) = n.
Proof. unfold keystream. by rewrite length_fmap, length_seq. Qed.

Lemma keystream_lookup s c p n i : (i < n)%nat -> keystream s c p n !! i = Some (stream_byte s c (p + Z.of_nat i)).
Proof. intros Hi. unfold keystream. by rewrite list_lookup_fmap, lookup_seq_lt by done. Qed.

Lemma keystream_app s c p n m : keystream s c p (n + m) = keystream s c p n ++ keystream s c (p + Z.of_nat n) m.
Proof.
  apply list_eq. intros i. destruct (decide (i < n)%nat) as [Hi|Hi].
  - rewrite lookup_app_l by (rewrite keystream_length; lia). by rewrite !keystream_lookup by lia.
  - rewrite lookup_app_r by (rewrite keystream_length; lia). rewrite keystream_length.
    destruct (decide (i < n + m)%nat) as [Hj|Hj].
    + rewrite !keystream_lookup by lia. do 2 f_equal. lia.
    + rewrite !lookup_ge_None_2; [done|rewrite keystream_length; lia|rewrite keystream_length; lia].
Qed.

Lemma at_counter_length s c : length (at_counter s c) = length s.
Proof. apply length_insert. Qed.

Lemma block_bytes_length s c : length s = 16%nat -> length (block_bytes s c) = 64%nat.
Proof. intros Hs. unfold block_bytes. rewrite words_bytes_length. by rewrite (proj2 (core_spec_eq _ (eq_trans (at_counter_length s c) Hs))). Qed.

(** Within a block. *)
Lemma keystream_block s c k o n :
  length s = 16%nat -> 0 <= o -> o + Z.of_nat n <= 64 -> keystream s c (64 * k + o) n = slice (block_bytes s (c + k)) o (Z.of_nat n).
Proof.
  intros Hs Ho Hn. pose proof (block_bytes_length s (c + k) Hs) as L. apply list_eq. intros i. destruct (decide (i < n)%nat) as [Hi|Hi].
  - rewrite keystream_lookup, slice_lookup by lia. unfold stream_byte.
    replace (64 * k + o + Z.of_nat i) with (o + Z.of_nat i + k * 64) by lia. rewrite Z.div_add, Z.mod_add, Z.div_small, Z.mod_small by lia.
    rewrite Z.add_0_l. unfold byte. destruct (lookup_lt_is_Some_2 (block_bytes s (c + k)) (Z.to_nat o + i)) as [x Hx]; [lia|]. rewrite Hx.
    replace (Z.to_nat (o + Z.of_nat i)) with (Z.to_nat o + i)%nat by lia. by rewrite (nth_lookup_Some _ _ 0 _ Hx).
  - rewrite lookup_ge_None_2 by (rewrite keystream_length; lia). by rewrite slice_lookup_ge by lia.
Qed.

(** ** The context *)

(** The context has given out the first [p] bytes of the stream from counter [c] on. *)
Record at_pos (s : list Z) (c p : Z) (ctx : C68K_CHACHA20) : Prop := {
  ap_used : 0 <= c68k_chacha20_used ctx <= 64;
  ap_length : length (c68k_chacha20_stream ctx) = 64%nat;
  ap_blocks : exists k, 0 <= k /\ c68k_chacha20_state ctx = at_counter s (c + k) /\ p = 64 * k - (64 - c68k_chacha20_used ctx) /\
    (c68k_chacha20_used ctx < 64 -> 1 <= k /\ c68k_chacha20_stream ctx = block_bytes s (c + (k - 1)))
}.

Lemma at_counter_next s c : length s = 16%nat -> <[12%nat := (at_counter s c !!! 12%nat) +w 1]> (at_counter s c) = at_counter s (c + 1).
Proof.
  intros Hs. unfold at_counter. rewrite list_lookup_total_insert_eq by lia. rewrite list_insert_insert_eq. f_equal. unfold u32. by rewrite Zplus_mod_idemp_l.
Qed.

(** Moving on within a memory, whatever it holds. *)
Definition moves (f : list Z -> Z -> Z -> outcome (C68K_CHACHA20 * list Z)) (bs : list Z) (ctx : C68K_CHACHA20) : Prop :=
  forall mem in_ out, f mem in_ out = let! mem := xor_run bs mem in_ out in Val (ctx, mem).

Section stream.
Context (s : list Z) (c : Z) (Hs : length s = 16%nat).

Lemma next_block_val p ctx : at_pos s c p ctx -> c68k_chacha20_used ctx = 64 ->
  exists k, 0 <= k /\ p = 64 * k /\
    next_block ctx = (c68k_chacha20_core_c (at_counter s (c + k)), Chacha20Ctx (at_counter s (c + (k + 1))) (c68k_chacha20_stream ctx) 64).
Proof.
  intros [_ _ (k & Hk & Es & Ep & _)] Hu. exists k. rewrite Hu in Ep. split; [done|]. split; [lia|]. unfold next_block.
  by rewrite Es, Hu, at_counter_next, Z.add_assoc by done.
Qed.

Lemma xor_blocks_moves n : forall p ctx,
  at_pos s c p ctx -> c68k_chacha20_used ctx = 64 ->
  exists ctx', at_pos s c (p + 64 * Z.of_nat n) ctx' /\ c68k_chacha20_used ctx' = 64 /\
    moves (xor_blocks n ctx) (keystream s c p (64 * n)) ctx'.
Proof.
  induction n as [|n IH]; intros p ctx Ha Hu.
  { exists ctx. rewrite Z.mul_0_r, Z.add_0_r. split; [done|]. split; [done|]. by intros mem in_ out. }
  destruct (next_block_val p ctx Ha Hu) as (k & Hk & Ep & En). destruct Ha as [_ Hl _].
  assert (Ha1 : at_pos s c (p + 64) (Chacha20Ctx (at_counter s (c + (k + 1))) (c68k_chacha20_stream ctx) 64)).
  { split; cbn [c68k_chacha20_state c68k_chacha20_stream c68k_chacha20_used]; [lia|done|]. exists (k + 1). split; [lia|]. split; [done|]. split; lia. }
  destruct (IH (p + 64) _ Ha1 eq_refl) as (ctx' & Ha' & Hu' & Hm). exists ctx'.
  replace (p + 64 * Z.of_nat (S n)) with (p + 64 + 64 * Z.of_nat n) by lia. split; [done|]. split; [done|].
  intros mem in_ out. cbn [xor_blocks]. rewrite En. rewrite xor_block_run. fold (block_bytes s (c + k)).
  replace (64 * S n)%nat with (64 + 64 * n)%nat by lia. rewrite keystream_app, xor_run_app, obind_assoc, keystream_length.
  replace (keystream s c p 64) with (block_bytes s (c + k)).
  2: { replace p with (64 * k + 0) by lia. rewrite keystream_block by lia. rewrite slice_all; [done|]. rewrite block_bytes_length by done. done. }
  destruct (xor_run (block_bytes s (c + k)) mem in_ out); cbn [obind]; [|done..]. apply Hm.
Qed.

Lemma xor_rest_moves p ctx n :
  at_pos s c p ctx -> c68k_chacha20_used ctx = 64 \/ n = 0 -> 0 <= n ->
  exists ctx', at_pos s c (p + n) ctx' /\ moves (fun mem in_ out => xor_rest ctx mem in_ out n) (keystream s c p (Z.to_nat n)) ctx'.
Proof.
  intros Ha Hu Hn. destruct (Z.eq_dec n 0) as [->|Hn0].
  { exists ctx. rewrite Z.add_0_r. split; [done|]. intros mem in_ out. done. }
  destruct Hu as [Hu|Hu]; [|lia]. unfold xor_rest, C68K_CHACHA20_BLOCK_SIZE. cbv zeta. set (k := n / 64).
  pose proof (Z.div_mod n 64 ltac:(lia)) as M. pose proof (Z.mod_pos_bound n 64 ltac:(lia)) as R. fold k in M.
  assert (Hk : 0 <= k) by (apply Z.div_pos; lia).
  destruct (xor_blocks_moves (Z.to_nat k) p ctx Ha Hu) as (ctx1 & Ha1 & Hu1 & Hm1). rewrite Z2Nat.id in Ha1 by lia.
  assert (En : Z.to_nat n = (64 * Z.to_nat k + Z.to_nat (n - k * 64))%nat) by lia. rewrite En.
  destruct (Z.eq_dec (n - k * 64) 0) as [E0|N0].
  { exists ctx1. replace (p + n) with (p + 64 * k) by lia. split; [done|]. intros mem in_ out. rewrite Hm1. rewrite E0. change (Z.to_nat 0) with 0%nat.
    rewrite Nat.add_0_r. destruct (xor_run _ mem in_ out); cbn [obind]; done. }
  destruct (next_block_val _ _ Ha1 Hu1) as (j & Hj & Ep & Enb). pose proof (ap_length _ _ _ _ Ha1) as Hl1.
  assert (Lc : length (c68k_chacha20_core_c (at_counter s (c + j))) = 16%nat) by (apply core_spec_eq; by rewrite at_counter_length).
  exists (Chacha20Ctx (at_counter s (c + (j + 1))) (block_bytes s (c + j)) (n - k * 64)). split.
  { split; cbn [c68k_chacha20_state c68k_chacha20_stream c68k_chacha20_used]; [lia|by apply block_bytes_length|]. exists (j + 1).
    split; [lia|]. split; [done|]. split; [lia|]. intros _. split; [lia|]. do 2 f_equal. lia. }
  intros mem in_ out. rewrite Hm1, keystream_app, xor_run_app, !obind_assoc, keystream_length.
  replace (in_ + k * 64) with (in_ + Z.of_nat (64 * Z.to_nat k)) by lia. replace (out + k * 64) with (out + Z.of_nat (64 * Z.to_nat k)) by lia.
  destruct (xor_run (keystream s c p (64 * Z.to_nat k)) mem in_ out) as [m1| |]; cbn [obind]; [|done..].
  rewrite (proj2 (Z.eqb_neq _ _) N0). cbn [negb]. rewrite Enb. cbn [c68k_chacha20_stream c68k_chacha20_state].
  rewrite store_block_val by (rewrite ?Lc; lia). cbn [obind]. fold (block_bytes s (c + j)).
  assert (Lb : length (block_bytes s (c + j)) = 64%nat) by by apply block_bytes_length.
  replace (splice (c68k_chacha20_stream ctx1) 0 (block_bytes s (c + j))) with (block_bytes s (c + j)).
  2: { unfold splice. rewrite drop_ge by lia. by rewrite app_nil_r. }
  rewrite xor_bytes_run by lia. replace (p + Z.of_nat (64 * Z.to_nat k)) with (64 * j + 0) by lia. rewrite keystream_block by lia. done.
Qed.

(** A call moves on by its length. *)
Lemma xor_moves p ctx n :
  at_pos s c p ctx -> 0 <= n ->
  exists ctx', at_pos s c (p + n) ctx' /\ moves (fun mem in_ out => c68k_chacha20_xor ctx mem in_ out n) (keystream s c p (Z.to_nat n)) ctx'.
Proof.
  intros Ha Hn. unfold c68k_chacha20_xor, C68K_CHACHA20_BLOCK_SIZE. cbv zeta. pose proof (ap_used _ _ _ _ Ha) as Hu.
  destruct (c68k_chacha20_used ctx <? 64) eqn:E; [|apply xor_rest_moves; [done|left; lia|done]].
  apply Z.ltb_lt in E. rewrite (u32_small (64 - _)) by (unfold is_u32; lia). set (u := c68k_chacha20_used ctx) in *.
  set (w := if n <? 64 - u then n else 64 - u). assert (Hw : 0 <= w <= 64 - u /\ w <= n /\ (u + w < 64 -> w = n)).
  { unfold w. destruct (n <? 64 - u) eqn:En; lia. }
  clearbody w. destruct Hw as (Hw & Hwn & Hwl). destruct Ha as [_ Hl (k & Hk & Es & Ep & Hst)]. fold u in Ep, Hst. destruct (Hst E) as [Hk1 Est].
  rewrite (u32_small (u + w)) by (unfold is_u32; lia).
  assert (Ha1 : at_pos s c (p + w) (Chacha20Ctx (c68k_chacha20_state ctx) (c68k_chacha20_stream ctx) (u + w))).
  { split; cbn [c68k_chacha20_state c68k_chacha20_stream c68k_chacha20_used]; [lia|done|]. exists k. split; [done|]. split; [done|]. split; [lia|]. done. }
  destruct (xor_rest_moves _ _ (n - w) Ha1) as (ctx' & Ha' & Hm); [cbn [c68k_chacha20_used]; lia|lia|].
  exists ctx'. replace (p + n) with (p + w + (n - w)) by lia. split; [done|]. intros mem in_ out.
  replace (Z.to_nat n) with (Z.to_nat w + Z.to_nat (n - w))%nat by lia. rewrite keystream_app, xor_run_app, obind_assoc, keystream_length, Z2Nat.id by lia.
  rewrite xor_bytes_run by lia. rewrite Est at 1. replace (keystream s c p (Z.to_nat w)) with (slice (block_bytes s (c + (k - 1))) u (Z.of_nat (Z.to_nat w))).
  2: { rewrite <- keystream_block by lia. f_equal. lia. }
  destruct (xor_run _ mem in_ out) as [m1| |]; cbn [obind]; [|done..]. apply Hm.
Qed.

(** ... and leaves the memory as the exclusive or with that part of the stream. *)
Lemma xor_val p ctx mem in_ out n :
  at_pos s c p ctx -> 0 <= n -> 0 <= in_ -> 0 <= out -> in_ + n <= len mem -> out + n <= len mem -> apart in_ out n ->
  exists ctx', at_pos s c (p + n) ctx' /\
    c68k_chacha20_xor ctx mem in_ out n = Val (ctx', splice mem out (xor_list (slice mem in_ n) (keystream s c p (Z.to_nat n)))).
Proof.
  intros Ha Hn Hi Ho Hli Hlo Hap. destruct (xor_moves p ctx n Ha Hn) as (ctx' & Ha' & Hm). exists ctx'. split; [done|].
  rewrite (Hm mem in_ out). rewrite xor_run_val; rewrite ?keystream_length, ?Z2Nat.id by lia; done.
Qed.
End stream.

(** Never unfolded by unification. *)
#[global] Opaque keystream.
