(* ===== verification/ChachaAead.v ===== *)
(** * The AEAD is the one of RFC 8439

    A record sealed and opened in pieces, in place, against section 2.8: the payload is
    the exclusive or with the stream from block one on, the tag authenticates the
    associated data, the ciphertext and their lengths under a key that is the first
    half of block zero.  Opening a sealed record in any other division gives the
    payload and the same tag. *)

From Stdlib Require Import ZArith Lia.
From stdpp Require Import base numbers list.
From S2P Require Import Prelude Checksum RxSpec TxSum Poly1305 Poly1305Spec Poly1305Claims Chacha20 ChachaSpec.
#[local] Open Scope Z_scope.

Local Abbreviation len m := (Z.of_nat (length m)).

(** ** The specification *)

Fixpoint le_words (n : nat) (m : list Z) : list Z := match n with O => [] | S n => le_val (take 4 m) :: le_words n (drop 4 m) end.

(** The state of section 2.3, its counter at zero. *)
Definition state_spec (key nonce : list Z) : list Z :=
  [0x61707865; 0x3320646E; 0x79622D32; 0x6B206574] ++ le_words 8 key ++ [0] ++ le_words 3 nonce.

Definition one_time_key (key nonce : list Z) : list Z := keystream (state_spec key nonce) 0 0 32.
Definition crypt (key nonce m : list Z) : list Z := xor_list m (keystream (state_spec key nonce) 1 0 (length m)).
Definition pad16 (m : list Z) : list Z := replicate (Z.to_nat (- len m mod 16)) 0.
Definition mac_data (aad data : list Z) : list Z :=
  aad ++ pad16 aad ++ data ++ pad16 data ++ le_bytes 8 (len aad) ++ le_bytes 8 (len data).
Definition aead_tag (key nonce aad data : list Z) : list Z := poly1305 (one_time_key key nonce) (mac_data aad data).

(** ** The state *)

Lemma chacha_load_le m p : c68k_chacha20_load_le m p = c68k_poly1305_load_le m p.
Proof. reflexivity. Qed.

Lemma load_words_val n : forall m p, bytes_ok m -> 0 <= p -> p + 4 * Z.of_nat n <= len m -> load_words n m p = Val (le_words n (drop (Z.to_nat p) m)).
Proof.
  induction n as [|n IH]; intros m p Hm Hp Hl; [done|]. cbn [load_words le_words]. rewrite chacha_load_le.
  destruct (load_le_val m p Hm Hp ltac:(lia)) as [-> _]. cbn [obind]. rewrite IH by (done || lia). cbn [obind].
  do 2 f_equal. rewrite drop_drop. do 2 f_equal. lia.
Qed.

Lemma le_words_length n m : length (le_words n m) = n.
Proof. revert m. induction n as [|n IH]; intros m; [done|]. cbn [le_words length]. by rewrite IH. Qed.

Lemma state_length key nonce : length (state_spec key nonce) = 16%nat.
Proof. unfold state_spec. by rewrite !length_app, !le_words_length. Qed.

Lemma initialize_at stream key nonce counter :
  bytes_ok key -> bytes_ok nonce -> 32 <= len key -> 12 <= len nonce -> is_u32 counter -> length stream = 64%nat ->
  exists ctx, c68k_chacha20_initialize stream key nonce counter = Val ctx /\ at_pos (state_spec key nonce) counter 0 ctx.
Proof.
  intros Hk Hn Lk Ln Hc Hs. unfold c68k_chacha20_initialize. rewrite !load_words_val by (done || lia). cbn [obind]. eexists. split; [done|].
  split; cbn [c68k_chacha20_state c68k_chacha20_stream c68k_chacha20_used]; [by unfold C68K_CHACHA20_BLOCK_SIZE|done|].
  exists 0. split; [done|]. split; [|by unfold C68K_CHACHA20_BLOCK_SIZE]. rewrite Z.add_0_r. unfold at_counter, state_spec.
  rewrite (u32_small counter) by done. change (Z.to_nat 0) with 0%nat. rewrite !drop_0.
  assert (L : length ([0x61707865; 0x3320646E; 0x79622D32; 0x6B206574] ++ le_words 8 key) = 12%nat) by (by rewrite length_app, le_words_length).
  rewrite (app_assoc _ (le_words 8 key) ([0] ++ _)), <- L at 1. rewrite insert_app_r_alt by lia. rewrite Nat.sub_diag. by rewrite <- app_assoc.
Qed.

Lemma xor_zeros n ks : length ks = n -> xor_list (replicate n 0) ks = ks.
Proof. intros <-. unfold xor_list. induction ks as [|k ks IH]; [done|]. cbn [length replicate zip_with]. by rewrite Z.lxor_0_l, IH. Qed.

Lemma keystream_val s c p ctx mem :
  length s = 16%nat -> at_pos s c p ctx ->
  exists ctx', c68k_chacha20_keystream ctx mem 0 (len mem) = Val (ctx', keystream s c p (length mem)) /\ at_pos s c (p + len mem) ctx'.
Proof.
  intros Hs Ha. unfold c68k_chacha20_keystream. rewrite Nat2Z.id, zero_from_val by lia. cbn [obind].
  assert (E : splice mem 0 (replicate (length mem) 0) = replicate (length mem) 0).
  { unfold splice. rewrite drop_ge by (rewrite length_replicate; lia). by rewrite app_nil_r. }
  rewrite E. destruct (xor_val s c Hs p ctx (replicate (length mem) 0) 0 0 (len mem) Ha) as (ctx' & Ha' & Ex);
    [lia|lia|lia|rewrite length_replicate; lia..|left; lia|]. exists ctx'. split; [|done]. rewrite Ex. do 2 f_equal.
  rewrite slice_all by (by rewrite length_replicate). rewrite Nat2Z.id, xor_zeros by apply keystream_length.
  unfold splice. rewrite drop_ge by (rewrite length_replicate, keystream_length; lia). by rewrite app_nil_r.
Qed.

Lemma keystream_bytes s c p n : length s = 16%nat -> bytes_ok (keystream s c p n).
Proof.
  intros Hs. apply Forall_lookup. intros i x Hi. assert (Hl : (i < n)%nat) by (apply lookup_lt_Some in Hi; by rewrite keystream_length in Hi).
  rewrite keystream_lookup in Hi by done. apply (inj Some) in Hi. rewrite <- Hi. apply byte_range, words_bytes_ok.
Qed.

Lemma xor_bytes_ok a b : bytes_ok a -> bytes_ok b -> bytes_ok (xor_list a b).
Proof.
  intros Ha. revert b. induction Ha as [|x a Hx _ IH]; intros b Hb; [constructor|]. destruct Hb as [|y b Hy Hb]; [constructor|].
  constructor; [|by apply IH]. unfold is_u8 in *. destruct (Z.eq_dec (Z.lxor x y) 0) as [->|Hne]; [lia|].
  assert (0 <= Z.lxor x y) by (apply Z.lxor_nonneg; lia). split; [lia|]. apply Z.log2_lt_pow2; [lia|].
  pose proof (Z.log2_lxor x y ltac:(lia) ltac:(lia)). pose proof (Z.log2_le_mono x 255 ltac:(lia)). pose proof (Z.log2_le_mono y 255 ltac:(lia)).
  change (Z.log2 255) with 7 in *. lia.
Qed.

(** ** A record under way *)

Lemma otk_ok key nonce : bytes_ok (one_time_key key nonce) /\ 32 <= len (one_time_key key nonce).
Proof. unfold one_time_key. split; [apply keystream_bytes, state_length|]. by rewrite keystream_length. Qed.

Lemma zeros_bytes n : bytes_ok (replicate n 0).
Proof. apply Forall_replicate. unfold is_u8. lia. Qed.

Lemma xor_list_app a b c d : length a = length c -> xor_list (a ++ b) (c ++ d) = xor_list a c ++ xor_list b d.
Proof. apply zip_with_app. Qed.

Lemma xor_list_length a b : length a = length b -> length (xor_list a b) = length a.
Proof. intros E. unfold xor_list. rewrite length_zip_with. lia. Qed.

Lemma splice_whole {A} (m x : list A) : length x = length m -> splice m 0 x = x.
Proof. intros E. unfold splice. rewrite drop_ge by lia. by rewrite app_nil_r. Qed.

Lemma length_block_spec a d : 0 <= a < 2 ^ 32 -> 0 <= d < 2 ^ 32 -> length_block a d = le_bytes 8 a ++ le_bytes 8 d.
Proof.
  intros Ha Hd. assert (E : forall v, 0 <= v < 2 ^ 32 -> le_bytes 8 v = [u8 v; u8 (Z.shiftr v 8); u8 (Z.shiftr v 16); u8 (Z.shiftr v 24)] ++ [0; 0; 0; 0]).
  { intros v Hv. replace v with (v + 256 ^ Z.of_nat 4 * 0) at 1 by lia. change 8%nat with (4 + 4)%nat. rewrite le_bytes_app by done.
    rewrite <- (words_bytes_val v) by done. reflexivity. }
  unfold length_block. rewrite !E by done. by rewrite <- !app_assoc.
Qed.

#[local] Opaque state_spec.

Section record.
Context (key nonce : list Z) (Hkey : bytes_ok key) (Hnonce : bytes_ok nonce) (Lkey : 32 <= len key) (Lnonce : 12 <= len nonce).

Local Abbreviation s0 := (state_spec key nonce).
Local Abbreviation otk := (one_time_key key nonce).

(** The bytes the tag has covered so far. *)
Definition covered (started : bool) (aad data : list Z) : list Z := if started then aad ++ pad16 aad ++ data else aad.

(** A context that has been given [aad], and payload whose ciphertext is [data]. *)
Record aead_at (started : bool) (aad data : list Z) (ctx : C68K_CHACHA20_POLY1305) : Prop := {
  aa_cipher : at_pos s0 1 (len data) (c68k_aead_cipher ctx);
  aa_mac : absorbed otk (covered started aad data) (c68k_aead_mac ctx);
  aa_aad : c68k_aead_aad_length ctx = len aad /\ len aad < 2 ^ 32;
  aa_data : c68k_aead_data_length ctx = len data /\ len data < 2 ^ 32;
  aa_started : c68k_aead_data_started ctx = if started then 1 else 0;
  aa_empty : started = false -> data = []
}.

Lemma aead_initialize ctx mac_key :
  length (c68k_chacha20_stream (c68k_aead_cipher ctx)) = 64%nat -> length (c68k_poly1305_buffer (c68k_aead_mac ctx)) = 16%nat ->
  bytes_ok (c68k_poly1305_buffer (c68k_aead_mac ctx)) -> length mac_key = 32%nat ->
  exists ctx', c68k_chacha20_poly1305_initialize ctx mac_key key nonce = Val ctx' /\ aead_at false [] [] ctx'.
Proof.
  intros Hs Hb Hbb Hm. unfold c68k_chacha20_poly1305_initialize, C68K_POLY1305_KEY_SIZE.
  destruct (initialize_at _ key nonce 0 Hkey Hnonce Lkey Lnonce ltac:(unfold is_u32; lia) Hs) as (c0 & -> & Hc0). cbn [obind].
  destruct (keystream_val _ _ _ _ mac_key (state_length key nonce) Hc0) as (c1 & E1 & Hc1). rewrite Hm in E1. change (Z.of_nat 32) with 32 in E1.
  rewrite E1. cbn [obind]. destruct (otk_ok key nonce) as [Ok Lk].
  destruct (initialize_absorbed otk Ok Lk _ Hb Hbb) as (mac & Em & Ha). fold otk. rewrite Em. cbn [obind].
  destruct (initialize_at _ key nonce 1 Hkey Hnonce Lkey Lnonce ltac:(unfold is_u32; lia) (ap_length _ _ _ _ Hc1)) as (c2 & -> & Hc2). cbn [obind].
  eexists. split; [done|]. split; cbn [c68k_aead_cipher c68k_aead_mac c68k_aead_aad_length c68k_aead_data_length c68k_aead_data_started]; done.
Qed.

Lemma mac_update_val m ctx mem p n :
  absorbed otk m (c68k_aead_mac ctx) -> bytes_ok mem -> 0 <= p -> 0 <= n -> p + n <= len mem ->
  exists mac, mac_update ctx mem p n = Val (set_mac mac ctx) /\ absorbed otk (m ++ slice mem p n) mac.
Proof.
  intros Ha Hm Hp Hn Hl. unfold mac_update.
  destruct (update_absorbed otk m (c68k_aead_mac ctx) (drop (Z.to_nat p) mem) n Ha) as (mac & -> & Ha'); [by apply bytes_drop|rewrite length_drop; lia|].
  exists mac. split; [done|]. replace (slice mem p n) with (slice (drop (Z.to_nat p) mem) 0 n); [done|]. unfold slice. by rewrite drop_0.
Qed.

Lemma pad16_val m ctx x :
  absorbed otk m (c68k_aead_mac ctx) ->
  exists mac, c68k_chacha20_poly1305_pad16 ctx (len x) = Val (set_mac mac ctx) /\ absorbed otk (m ++ pad16 x) mac.
Proof.
  intros Ha. unfold c68k_chacha20_poly1305_pad16, pad16. change 15 with (Z.ones 4). rewrite Z.land_ones by lia. change (2 ^ 4) with 16.
  pose proof (Z.mod_pos_bound (len x) 16 ltac:(lia)) as R. destruct (len x mod 16 =? 0) eqn:E.
  - apply Z.eqb_eq in E. rewrite Z.mod_opp_l_z by lia. exists (c68k_aead_mac ctx). rewrite app_nil_r. split; [by destruct ctx|done].
  - apply Z.eqb_neq in E. rewrite Z.mod_opp_l_nz by lia. set (n := 16 - len x mod 16).
    destruct (mac_update_val m ctx (replicate (Z.to_nat n) 0) 0 n Ha (zeros_bytes _)) as (mac & -> & Ha'); [lia|lia|rewrite length_replicate; lia|].
    exists mac. split; [done|]. rewrite slice_all in Ha' by (rewrite length_replicate; lia). done.
Qed.

Lemma start_data_val started aad data ctx :
  aead_at started aad data ctx -> exists ctx', c68k_chacha20_poly1305_start_data ctx = Val ctx' /\ aead_at true aad data ctx'.
Proof.
  intros [Hc Hm [Ea Ba] [Ed Bd] Es He]. unfold c68k_chacha20_poly1305_start_data. rewrite Es, Ea. destruct started; cbn [Z.eqb].
  - exists ctx. split; [done|]. by split.
  - rewrite (He eq_refl) in *. destruct (pad16_val aad ctx aad Hm) as (mac & -> & Hm'). cbn [obind]. eexists. split; [done|].
    split; cbn [set_mac c68k_aead_cipher c68k_aead_mac c68k_aead_aad_length c68k_aead_data_length c68k_aead_data_started covered]; try done. by rewrite app_nil_r.
Qed.

(** Associated data before the payload. *)
Lemma associate_val aad ctx x :
  aead_at false aad [] ctx -> bytes_ok x -> len aad + len x < 2 ^ 32 ->
  exists ctx', c68k_chacha20_poly1305_associate ctx x (len x) = Val ctx' /\ aead_at false (aad ++ x) [] ctx'.
Proof.
  intros [Hc Hm [Ea Ba] [Ed Bd] Es He] Hx Hb. unfold c68k_chacha20_poly1305_associate. rewrite Es. cbn [Z.eqb negb].
  destruct (mac_update_val aad ctx x 0 (len x) Hm Hx) as (mac & -> & Hm'); [lia..|]. cbn [obind]. eexists. split; [done|].
  rewrite slice_all in Hm' by done.
  split; cbn [set_mac c68k_aead_cipher c68k_aead_mac c68k_aead_aad_length c68k_aead_data_length c68k_aead_data_started covered]; try done.
  rewrite Ea, u32_small, length_app by (unfold is_u32; lia). lia.
Qed.

(** The cipher and the authenticator over one piece, in the order of each direction. *)
Lemma cipher_val aad data ctx mem in_ out n :
  aead_at true aad data ctx -> 0 <= n -> 0 <= in_ -> 0 <= out -> in_ + n <= len mem -> out + n <= len mem -> apart in_ out n ->
  exists cipher, at_pos s0 1 (len data + n) cipher /\
    c68k_chacha20_xor (c68k_aead_cipher ctx) mem in_ out n =
      Val (cipher, splice mem out (xor_list (slice mem in_ n) (keystream s0 1 (len data) (Z.to_nat n)))).
Proof. intros Ha Hn Hi Ho Hli Hlo Hap. apply xor_val; [apply state_length|apply Ha|done..]. Qed.

Lemma advance aad data ctx mac cipher d :
  aead_at true aad data ctx -> at_pos s0 1 (len data + len d) cipher -> absorbed otk (covered true aad (data ++ d)) mac -> len data + len d < 2 ^ 32 ->
  aead_at true aad (data ++ d) (AeadCtx cipher mac (c68k_aead_aad_length ctx) (c68k_aead_data_length ctx +w len d) (c68k_aead_data_started ctx)).
Proof.
  intros [Hc Hm [Ea Ba] [Ed Bd] Es He] Hp Hab Hb.
  split; cbn [c68k_aead_cipher c68k_aead_mac c68k_aead_aad_length c68k_aead_data_length c68k_aead_data_started]; try done; rewrite ?length_app, ?Nat2Z.inj_add; [done|].
  rewrite Ed, u32_small by (unfold is_u32; lia). lia.
Qed.

Lemma covered_app aad data d : covered true aad data ++ d = covered true aad (data ++ d).
Proof. unfold covered. by rewrite <- !app_assoc. Qed.

Lemma encrypt_val started aad data ctx mem in_ out n :
  aead_at started aad data ctx -> bytes_ok mem -> 0 <= n -> 0 <= in_ -> 0 <= out -> in_ + n <= len mem -> out + n <= len mem -> apart in_ out n ->
  len data + n < 2 ^ 32 ->
  let ct := xor_list (slice mem in_ n) (keystream s0 1 (len data) (Z.to_nat n)) in
  exists ctx', c68k_chacha20_poly1305_encrypt ctx mem in_ out n = Val (ctx', splice mem out ct) /\ aead_at true aad (data ++ ct) ctx'.
Proof.
  intros Ha Hm Hn Hi Ho Hli Hlo Hap Hb ct. unfold c68k_chacha20_poly1305_encrypt.
  destruct (start_data_val _ _ _ _ Ha) as (c1 & -> & Ha1). cbn [obind].
  destruct (cipher_val _ _ _ mem in_ out n Ha1) as (cipher & Hp & ->); [done..|]. cbn [obind]. fold ct.
  assert (Lc : len ct = n) by (unfold ct, xor_list; rewrite length_zip_with, keystream_length; pose proof (slice_length mem in_ n); lia).
  assert (Bc : bytes_ok ct) by (apply xor_bytes_ok; [by apply bytes_slice|apply keystream_bytes, state_length]).
  destruct (mac_update_val _ (set_cipher cipher c1) (splice mem out ct) out n (aa_mac _ _ _ _ Ha1)) as (mac & -> & Hmac);
    [by apply splice_bytes|done|done|rewrite splice_length; lia|]. cbn [obind].
  rewrite <- Lc in Hmac. rewrite slice_splice_same, covered_app in Hmac by lia.
  eexists. split; [done|]. rewrite <- Lc in Hp, Hb. rewrite <- Lc at 1. by apply (advance aad data c1 mac cipher ct).
Qed.

Lemma decrypt_val started aad data ctx mem in_ out n :
  aead_at started aad data ctx -> bytes_ok mem -> 0 <= n -> 0 <= in_ -> 0 <= out -> in_ + n <= len mem -> out + n <= len mem -> apart in_ out n ->
  len data + n < 2 ^ 32 ->
  exists ctx',
    c68k_chacha20_poly1305_decrypt ctx mem in_ out n =
      Val (ctx', splice mem out (xor_list (slice mem in_ n) (keystream s0 1 (len data) (Z.to_nat n)))) /\
    aead_at true aad (data ++ slice mem in_ n) ctx'.
Proof.
  intros Ha Hm Hn Hi Ho Hli Hlo Hap Hb. unfold c68k_chacha20_poly1305_decrypt.
  destruct (start_data_val _ _ _ _ Ha) as (c1 & -> & Ha1). cbn [obind].
  destruct (mac_update_val _ c1 mem in_ n (aa_mac _ _ _ _ Ha1)) as (mac & -> & Hmac); [done..|]. cbn [obind]. cbv zeta.
  destruct (cipher_val _ _ _ mem in_ out n Ha1) as (cipher & Hp & Ex); [done..|].
  cbn [add_data set_mac c68k_aead_cipher]. rewrite Ex. cbn [obind]. eexists. split; [done|]. rewrite covered_app in Hmac.
  assert (Lc : len (slice mem in_ n) = n) by (rewrite slice_length; lia). rewrite <- Lc in Hp, Hb. rewrite <- Lc at 2.
  unfold set_cipher, set_mac. cbn [c68k_aead_mac c68k_aead_aad_length c68k_aead_data_length c68k_aead_data_started]. by apply (advance aad data c1 mac cipher).
Qed.

Lemma tag_val started aad data ctx tag :
  aead_at started aad data ctx -> 16 <= len tag ->
  exists ctx', c68k_chacha20_poly1305_tag ctx tag = Val (ctx', splice tag 0 (aead_tag key nonce aad data)).
Proof.
  intros Ha Ht. unfold c68k_chacha20_poly1305_tag. destruct (start_data_val _ _ _ _ Ha) as (c1 & -> & Ha1). cbn [obind].
  destruct Ha1 as [_ Hm [Ea Ba] [Ed Bd] _ _]. rewrite Ed. destruct (pad16_val _ c1 data Hm) as (m1 & -> & Hm1). cbn [obind]. cbv zeta.
  cbn [set_mac c68k_aead_aad_length c68k_aead_data_length]. rewrite Ea, Ed, length_block_spec by lia.
  destruct (mac_update_val _ (set_mac m1 c1) (le_bytes 8 (len aad) ++ le_bytes 8 (len data)) 0 16 Hm1) as (m2 & -> & Hm2); [|lia|lia|by rewrite length_app, !le_bytes_length|].
  { assert (forall n v, bytes_ok (le_bytes n v)) as B.
    { intros n. induction n as [|n IH]; intros v; [constructor|]. constructor; [|apply IH]. apply Z.mod_pos_bound. lia. }
    apply Forall_app. split; apply B. }
  cbn [obind]. rewrite slice_all in Hm2 by (by rewrite length_app, !le_bytes_length). destruct (otk_ok key nonce) as [Ok Lk].
  cbn [set_mac c68k_aead_mac]. rewrite (finish_absorbed otk _ _ _ Hm2 Ht). cbn [obind]. eexists.
  unfold aead_tag, mac_data, covered. by rewrite <- !app_assoc.
Qed.

(** ** A record in pieces, in place *)

Fixpoint associate_all (ctx : C68K_CHACHA20_POLY1305) (pieces : list (list Z)) : outcome C68K_CHACHA20_POLY1305 :=
  match pieces with
  | [] => Val ctx
  | p :: pieces => let! ctx := c68k_chacha20_poly1305_associate ctx p (len p) in associate_all ctx pieces
  end.

(** One call of [step] per piece, the buffer of each piece being its input and its output. *)
Fixpoint in_place (step : C68K_CHACHA20_POLY1305 -> list Z -> Z -> Z -> Z -> outcome (C68K_CHACHA20_POLY1305 * list Z))
    (ctx : C68K_CHACHA20_POLY1305) (pieces : list (list Z)) : outcome (C68K_CHACHA20_POLY1305 * list (list Z)) :=
  match pieces with
  | [] => Val (ctx, [])
  | p :: pieces =>
      let! r := step ctx p 0 0 (len p) in
      let '(ctx, p) := r in
      let! r := in_place step ctx pieces in
      let '(ctx, pieces) := r in
      Val (ctx, p :: pieces)
  end.

Lemma associate_all_val pieces : forall aad ctx,
  aead_at false aad [] ctx -> Forall bytes_ok pieces -> len aad + len (concat pieces) < 2 ^ 32 ->
  exists ctx', associate_all ctx pieces = Val ctx' /\ aead_at false (aad ++ concat pieces) [] ctx'.
Proof.
  induction pieces as [|p pieces IH]; intros aad ctx Ha Hp Hb; cbn [associate_all concat] in *; [exists ctx; by rewrite app_nil_r|].
  rewrite length_app in Hb. apply Forall_cons in Hp as [Hp Hps]. destruct (associate_val aad ctx p Ha Hp ltac:(lia)) as (c1 & -> & Ha1). cbn [obind].
  destruct (IH _ _ Ha1 Hps) as (c2 & E & Ha2); [rewrite length_app; lia|]. exists c2. by rewrite app_assoc.
Qed.

(** What a direction does to a piece: its output, and the ciphertext it accounts for. *)
Section direction.
Context (step : C68K_CHACHA20_POLY1305 -> list Z -> Z -> Z -> Z -> outcome (C68K_CHACHA20_POLY1305 * list Z)).
Context (cipher_of : list Z -> list Z -> list Z).
Hypothesis step_val : forall started aad data ctx p,
  aead_at started aad data ctx -> bytes_ok p -> len data + len p < 2 ^ 32 ->
  let out := xor_list p (keystream s0 1 (len data) (length p)) in
  exists ctx', step ctx p 0 0 (len p) = Val (ctx', out) /\ aead_at true aad (data ++ cipher_of p out) ctx'.
Hypothesis cipher_app : forall a b c d, length a = length c -> cipher_of (a ++ b) (c ++ d) = cipher_of a c ++ cipher_of b d.
Hypothesis cipher_nil : cipher_of [] [] = [].
Hypothesis cipher_length : forall a b, length a = length b -> length (cipher_of a b) = length a.

Lemma in_place_val pieces : forall started aad data ctx,
  aead_at started aad data ctx -> Forall bytes_ok pieces -> len data + len (concat pieces) < 2 ^ 32 ->
  let out := xor_list (concat pieces) (keystream s0 1 (len data) (length (concat pieces))) in
  exists ctx' started' outs, in_place step ctx pieces = Val (ctx', outs) /\ concat outs = out /\ map length outs = map length pieces /\
    aead_at started' aad (data ++ cipher_of (concat pieces) out) ctx'.
Proof.
  induction pieces as [|p pieces IH]; intros started aad data ctx Ha Hp Hb; cbn [in_place concat] in *.
  { exists ctx, started, []. change (length (@nil Z)) with 0%nat. unfold xor_list. cbn [zip_with concat map]. by rewrite cipher_nil, app_nil_r. }
  rewrite length_app in Hb. apply Forall_cons in Hp as [Hp Hps].
  destruct (step_val _ _ _ _ p Ha Hp ltac:(lia)) as (c1 & -> & Ha1). cbn [obind].
  set (o1 := xor_list p (keystream s0 1 (len data) (length p))) in *.
  assert (L1 : length o1 = length p) by (apply xor_list_length; by rewrite keystream_length).
  assert (Lc : length (cipher_of p o1) = length p) by (apply cipher_length; lia).
  destruct (IH _ _ _ _ Ha1 Hps) as (c2 & st & outs & -> & Ho & Hl & Ha2); [rewrite length_app; lia|]. cbn [obind].
  exists c2, st, (o1 :: outs). split; [done|]. rewrite length_app, Nat2Z.inj_add, Lc in Ho. rewrite length_app, Nat2Z.inj_add, Lc in Ha2.
  rewrite length_app, keystream_app, xor_list_app by (by rewrite keystream_length). fold o1.
  cbn [concat map]. rewrite Ho, Hl, L1. split; [done|]. split; [done|]. rewrite cipher_app, app_assoc by lia. exact Ha2.
Qed.
End direction.

Lemma seal_step started aad data ctx p :
  aead_at started aad data ctx -> bytes_ok p -> len data + len p < 2 ^ 32 ->
  let out := xor_list p (keystream s0 1 (len data) (length p)) in
  exists ctx', c68k_chacha20_poly1305_encrypt ctx p 0 0 (len p) = Val (ctx', out) /\ aead_at true aad (data ++ out) ctx'.
Proof.
  intros Ha Hp Hb out. destruct (encrypt_val started aad data ctx p 0 0 (len p) Ha Hp) as (c & E & Hc); [lia..|left; lia|lia|].
  rewrite slice_all, Nat2Z.id in E, Hc by done. rewrite splice_whole in E by (apply xor_list_length; by rewrite keystream_length). by exists c.
Qed.

Lemma open_step started aad data ctx p :
  aead_at started aad data ctx -> bytes_ok p -> len data + len p < 2 ^ 32 ->
  let out := xor_list p (keystream s0 1 (len data) (length p)) in
  exists ctx', c68k_chacha20_poly1305_decrypt ctx p 0 0 (len p) = Val (ctx', out) /\ aead_at true aad (data ++ p) ctx'.
Proof.
  intros Ha Hp Hb out. destruct (decrypt_val started aad data ctx p 0 0 (len p) Ha Hp) as (c & E & Hc); [lia..|left; lia|lia|].
  rewrite slice_all, Nat2Z.id in E by done. rewrite slice_all in Hc by done.
  rewrite splice_whole in E by (apply xor_list_length; by rewrite keystream_length). by exists c.
Qed.

(** A whole record in one direction. *)
Definition whole_record step (ctx : C68K_CHACHA20_POLY1305) (mac_key : list Z) (aads pieces : list (list Z)) (tag : list Z) :
    outcome (list (list Z) * list Z) :=
  let! ctx := c68k_chacha20_poly1305_initialize ctx mac_key key nonce in
  let! ctx := associate_all ctx aads in
  let! r := in_place step ctx pieces in
  let '(ctx, pieces) := r in
  let! r := c68k_chacha20_poly1305_tag ctx tag in
  let '(_, tag) := r in
  Val (pieces, tag).

(** The uninitialised objects have their sizes. *)
Definition fresh (ctx : C68K_CHACHA20_POLY1305) (mac_key : list Z) : Prop :=
  length (c68k_chacha20_stream (c68k_aead_cipher ctx)) = 64%nat /\ length (c68k_poly1305_buffer (c68k_aead_mac ctx)) = 16%nat /\
  bytes_ok (c68k_poly1305_buffer (c68k_aead_mac ctx)) /\ length mac_key = 32%nat.

Lemma record_val step cipher_of ctx mac_key aads pieces tag :
  (forall started aad data ctx p,
    aead_at started aad data ctx -> bytes_ok p -> len data + len p < 2 ^ 32 ->
    let out := xor_list p (keystream s0 1 (len data) (length p)) in
    exists ctx', step ctx p 0 0 (len p) = Val (ctx', out) /\ aead_at true aad (data ++ cipher_of p out) ctx') ->
  (forall a b c d, length a = length c -> cipher_of (a ++ b) (c ++ d) = cipher_of a c ++ cipher_of b d) -> cipher_of [] [] = [] ->
  (forall a b, length a = length b -> length (cipher_of a b) = length a) ->
  fresh ctx mac_key -> Forall bytes_ok aads -> Forall bytes_ok pieces -> len (concat aads) < 2 ^ 32 -> len (concat pieces) < 2 ^ 32 -> 16 <= len tag ->
  exists outs, whole_record step ctx mac_key aads pieces tag =
      Val (outs, splice tag 0 (aead_tag key nonce (concat aads) (cipher_of (concat pieces) (crypt key nonce (concat pieces))))) /\
    concat outs = crypt key nonce (concat pieces) /\ map length outs = map length pieces.
Proof.
  intros Hs Ha Hn Hl (F1 & F2 & F3 & F4) Hba Hbp Hla Hlp Ht. unfold whole_record.
  destruct (aead_initialize ctx mac_key F1 F2 F3 F4) as (c0 & -> & A0). cbn [obind].
  destruct (associate_all_val aads [] c0 A0 Hba ltac:(simpl length; lia)) as (c1 & -> & A1). cbn [obind app].
  destruct (in_place_val step cipher_of Hs Ha Hn Hl pieces false (concat aads) [] c1 A1 Hbp ltac:(simpl length; lia)) as (c2 & st & outs & -> & Ho & Hm & A2).
  cbn [obind]. destruct (tag_val _ _ _ _ tag A2 Ht) as (c3 & ->). cbn [obind]. by exists outs.
Qed.
End record.

(** ** The comparison of tags *)

Lemma lor_zero a b : Z.lor a b = 0 <-> a = 0 /\ b = 0.
Proof. apply Z.lor_eq_0_iff. Qed.

Lemma u8_lxor x y : is_u8 x -> is_u8 y -> is_u8 (Z.lxor x y) /\ (Z.lxor x y = 0 <-> x = y).
Proof.
  intros Hx Hy. split; [|apply Z.lxor_eq_0_iff].
  assert (B : bytes_ok (xor_list [x] [y])) by (apply xor_bytes_ok; by apply list.Forall_singleton). exact (Forall_inv B).
Qed.

Lemma u8_lor a b : is_u8 a -> is_u8 b -> is_u8 (Z.lor a b).
Proof. intros Ha Hb. apply (lor_range 8); unfold is_u8 in *; lia. Qed.

Lemma diff_from_val n : forall diff a b i,
  bytes_ok a -> bytes_ok b -> is_u8 diff -> 0 <= i -> i + Z.of_nat n <= len a -> i + Z.of_nat n <= len b ->
  exists d, diff_from n diff a b i = Val d /\ (d = 0 <-> diff = 0 /\ slice a i (Z.of_nat n) = slice b i (Z.of_nat n)).
Proof.
  induction n as [|n IH]; intros diff a b i Ha Hb Hd Hi Hla Hlb; cbn [diff_from].
  { exists diff. rewrite !slice_nil by lia. split; [done|]. tauto. }
  rewrite !fetch_byte by lia. cbn [obind]. pose proof (byte_range a i Ha) as Ra. pose proof (byte_range b i Hb) as Rb.
  destruct (u8_lxor _ _ Ra Rb) as [Rx Ex]. rewrite (u8_small (Z.lxor _ _)) by done.
  pose proof (u8_lor _ _ Hd Rx) as Ro. rewrite u8_small by done.
  destruct (IH _ a b (i + 1) Ha Hb Ro ltac:(lia) ltac:(lia) ltac:(lia)) as (d & E & Hd'). exists d. split; [done|]. rewrite Hd', lor_zero, Ex.
  rewrite !(slice_first _ i) by lia. replace (Z.of_nat (S n) - 1) with (Z.of_nat n) by lia. split.
  - intros [[-> ->] ->]. done.
  - intros [-> [= -> ->]]. done.
Qed.

Lemma verify_val a b :
  bytes_ok a -> bytes_ok b -> 16 <= len a -> 16 <= len b ->
  c68k_chacha20_poly1305_verify a b = Val (if decide (take 16 a = take 16 b) then 1 else 0).
Proof.
  intros Ha Hb La Lb. unfold c68k_chacha20_poly1305_verify. change (Z.to_nat C68K_POLY1305_TAG_SIZE) with 16%nat.
  destruct (diff_from_val 16 0 a b 0 Ha Hb ltac:(unfold is_u8; lia) ltac:(lia) ltac:(lia) ltac:(lia)) as (d & -> & Hd). cbn [obind].
  change (slice a 0 (Z.of_nat 16)) with (take 16 a) in Hd. change (slice b 0 (Z.of_nat 16)) with (take 16 b) in Hd.
  destruct (d =? 0) eqn:E; case_decide as Hc; try done; [apply Z.eqb_eq in E|apply Z.eqb_neq in E]; exfalso; tauto.
Qed.
