(* ===== verification/ChachaClaims.v ===== *)
(** * What the AEAD guarantees

    The stream in pieces, a sealed record, and a record opened again. *)

From Stdlib Require Import ZArith Lia.
From stdpp Require Import base numbers list.
From S2P Require Import Prelude Checksum RxSpec TxSum Poly1305 Poly1305Spec Poly1305Claims Chacha20 ChachaSpec ChachaAead.
#[local] Open Scope Z_scope.

Local Abbreviation len m := (Z.of_nat (length m)).

(** One call of the cipher per length, over one memory; the [n]th call starts where the
    one before ended, at both offsets. *)
Fixpoint calls (step : C68K_CHACHA20 -> list Z -> Z -> Z -> Z -> outcome (C68K_CHACHA20 * list Z))
    (ctx : C68K_CHACHA20) (mem : list Z) (in_ out : Z) (lengths : list Z) : outcome (C68K_CHACHA20 * list Z) :=
  match lengths with
  | [] => Val (ctx, mem)
  | n :: lengths =>
      let! r := step ctx mem in_ out n in
      let '(ctx, mem) := r in
      calls step ctx mem (in_ + n) (out + n) lengths
  end.

Definition xor_calls := calls c68k_chacha20_xor.

Definition total (lengths : list Z) : Z := foldr Z.add 0 lengths.

Lemma total_nonneg lengths : Forall (fun n => 0 <= n) lengths -> 0 <= total lengths.
Proof. intros H. induction H as [|n l Hn _ IH]; [done|]. cbn [total foldr]. unfold total in IH. lia. Qed.

Lemma xor_calls_run s c (Hs : length s = 16%nat) lengths : forall p ctx,
  at_pos s c p ctx -> Forall (fun n => 0 <= n) lengths ->
  exists ctx', at_pos s c (p + total lengths) ctx' /\
    moves (fun mem in_ out => xor_calls ctx mem in_ out lengths) (keystream s c p (Z.to_nat (total lengths))) ctx'.
Proof.
  induction lengths as [|n l IH]; intros p ctx Ha Hn; unfold xor_calls in *; cbn [calls].
  { exists ctx. cbn [total foldr]. rewrite Z.add_0_r. split; [done|]. intros mem in_ out. change (Z.to_nat 0) with 0%nat.
    replace (keystream s c p 0) with (@nil Z) by (symmetry; apply nil_length_inv, keystream_length). done. }
  apply Forall_cons in Hn as [Hn Hl]. pose proof (total_nonneg l Hl) as Ht. change (total (n :: l)) with (n + total l).
  destruct (xor_moves s c Hs p ctx n Ha Hn) as (c1 & A1 & M1). destruct (IH _ _ A1 Hl) as (c2 & A2 & M2). exists c2.
  rewrite Z.add_assoc. split; [done|]. intros mem in_ out. rewrite M1. rewrite obind_assoc.
  rewrite Z2Nat.inj_add, keystream_app, xor_run_app, obind_assoc, keystream_length, Z2Nat.id by lia.
  destruct (xor_run (keystream s c p (Z.to_nat n)) mem in_ out); cbn [obind]; [|done..]. apply M2.
Qed.

(** However a transfer is cut into calls, empty ones included, the cipher applies the
    consecutive bytes of the stream of RFC 8439 to it: the result in memory depends on
    the key, the nonce and the counter the context began with and on the total length
    only.  It holds in place, and wherever the output does not run ahead into bytes
    still to be read. *)
Theorem chacha20_stream stream key nonce counter mem in_ out lengths
  (Hkey : bytes_ok key) (Hnonce : bytes_ok nonce) (Lkey : 32 <= len key) (Lnonce : 12 <= len nonce)
  (Hcounter : is_u32 counter) (Hstream : length stream = 64%nat)
  (Hlengths : Forall (fun n => 0 <= n) lengths) (Hin : 0 <= in_) (Hout : 0 <= out)
  (Hread : in_ + total lengths <= len mem) (Hwrite : out + total lengths <= len mem) (Hapart : apart in_ out (total lengths)) :
  exists ctx ctx', c68k_chacha20_initialize stream key nonce counter = Val ctx /\
    xor_calls ctx mem in_ out lengths =
      Val (ctx', splice mem out (xor_list (slice mem in_ (total lengths))
        (keystream (state_spec key nonce) counter 0 (Z.to_nat (total lengths))))).
Proof.
  destruct (initialize_at stream key nonce counter Hkey Hnonce Lkey Lnonce Hcounter Hstream) as (ctx & E & Ha).
  destruct (xor_calls_run _ counter (state_length key nonce) lengths 0 ctx Ha Hlengths) as (ctx' & _ & M).
  exists ctx, ctx'. split; [exact E|]. rewrite (M mem in_ out). pose proof (total_nonneg lengths Hlengths) as Ht.
  rewrite xor_run_val; rewrite ?keystream_length, ?Z2Nat.id by lia; done.
Qed.

Lemma xor_list_twice a b : length a = length b -> xor_list (xor_list a b) b = a.
Proof.
  revert b. induction a as [|x a IH]; intros [|y b] H; try done. unfold xor_list in *. cbn [zip_with].
  rewrite IH by (simpl in H; lia). f_equal. rewrite Z.lxor_assoc, Z.lxor_nilpotent. apply Z.lxor_0_r.
Qed.

Lemma crypt_length key nonce m : length (crypt key nonce m) = length m.
Proof. unfold crypt. apply xor_list_length. by rewrite keystream_length. Qed.

Lemma crypt_twice key nonce m : crypt key nonce (crypt key nonce m) = m.
Proof. unfold crypt at 1. rewrite crypt_length. unfold crypt. apply xor_list_twice. by rewrite keystream_length. Qed.

Lemma crypt_bytes key nonce m : bytes_ok m -> bytes_ok (crypt key nonce m).
Proof. intros Hm. unfold crypt. apply xor_bytes_ok; [done|]. apply keystream_bytes, state_length. Qed.

Section claims.
Context (key nonce : list Z) (Hkey : bytes_ok key) (Hnonce : bytes_ok nonce) (Lkey : 32 <= len key) (Lnonce : 12 <= len nonce).

Lemma seal_val ctx mac_key aads pieces tag :
  fresh ctx mac_key -> Forall bytes_ok aads -> Forall bytes_ok pieces -> len (concat aads) < 2 ^ 32 -> len (concat pieces) < 2 ^ 32 -> 16 <= len tag ->
  exists outs, whole_record key nonce c68k_chacha20_poly1305_encrypt ctx mac_key aads pieces tag =
      Val (outs, splice tag 0 (aead_tag key nonce (concat aads) (crypt key nonce (concat pieces)))) /\
    concat outs = crypt key nonce (concat pieces) /\ map length outs = map length pieces.
Proof.
  apply (record_val key nonce Hkey Hnonce Lkey Lnonce c68k_chacha20_poly1305_encrypt (fun _ out => out)).
  - by apply seal_step.
  - done.
  - done.
  - done.
Qed.

Lemma open_val ctx mac_key aads pieces tag :
  fresh ctx mac_key -> Forall bytes_ok aads -> Forall bytes_ok pieces -> len (concat aads) < 2 ^ 32 -> len (concat pieces) < 2 ^ 32 -> 16 <= len tag ->
  exists outs, whole_record key nonce c68k_chacha20_poly1305_decrypt ctx mac_key aads pieces tag =
      Val (outs, splice tag 0 (aead_tag key nonce (concat aads) (concat pieces))) /\
    concat outs = crypt key nonce (concat pieces) /\ map length outs = map length pieces.
Proof.
  apply (record_val key nonce Hkey Hnonce Lkey Lnonce c68k_chacha20_poly1305_decrypt (fun p _ => p)).
  - by apply open_step.
  - done.
  - done.
  - done.
Qed.
End claims.

Lemma pieces_bytes (outs : list (list Z)) m : concat outs = m -> bytes_ok m -> Forall bytes_ok outs.
Proof.
  intros <-. induction outs as [|o outs IH]; [constructor|]. cbn [concat]. intros H. apply Forall_app in H as [Ho H]. constructor; auto.
Qed.

Lemma tag_prefix (tag t : list Z) : length t = 16%nat -> take 16 (splice tag 0 t) = t.
Proof. intros L. unfold splice. rewrite take_0. cbn [app]. by rewrite take_app_length'. Qed.

Lemma aead_tag_length key nonce aad data : length (aead_tag key nonce aad data) = 16%nat.
Proof. apply le_bytes_length. Qed.

Lemma aead_tag_bytes key nonce aad data : bytes_ok (aead_tag key nonce aad data).
Proof.
  assert (forall n v, bytes_ok (le_bytes n v)) as B.
  { intros n. induction n as [|n IH]; intros v; [constructor|]. constructor; [|apply IH]. apply Z.mod_pos_bound. lia. }
  apply B.
Qed.


(** C30 A record opened again: whatever pieces the sender and the receiver cut it into,
    opening the ciphertext of a sealed record gives back the payload and the tag that
    the sender computed, and the comparison accepts it; the comparison accepts no tag
    that differs from it in its sixteen bytes. *)
Theorem aead_roundtrip ctx ctx2 mac_key mac_key2 key nonce aads aads2 pieces tag tag2
  (Hkey : bytes_ok key) (Hnonce : bytes_ok nonce) (Lkey : 32 <= len key) (Lnonce : 12 <= len nonce)
  (Hfresh : fresh ctx mac_key) (Hfresh2 : fresh ctx2 mac_key2)
  (Haads : Forall bytes_ok aads) (Hpieces : Forall bytes_ok pieces) (Haads2 : Forall bytes_ok aads2) (Hsame : concat aads2 = concat aads)
  (Laads : len (concat aads) < 2 ^ 32) (Lpieces : len (concat pieces) < 2 ^ 32)
  (Htag : bytes_ok tag) (Htag2 : bytes_ok tag2) (Ltag : 16 <= len tag) (Ltag2 : 16 <= len tag2) :
  exists outs sent,
    whole_record key nonce c68k_chacha20_poly1305_encrypt ctx mac_key aads pieces tag = Val (outs, sent) /\
    forall wire, concat wire = concat outs ->
      exists plain computed,
        whole_record key nonce c68k_chacha20_poly1305_decrypt ctx2 mac_key2 aads2 wire tag2 = Val (plain, computed) /\
        concat plain = concat pieces /\
        forall received, bytes_ok received -> 16 <= len received ->
          c68k_chacha20_poly1305_verify received computed = Val (if decide (take 16 received = take 16 sent) then 1 else 0).
Proof.
  destruct (seal_val key nonce Hkey Hnonce Lkey Lnonce ctx mac_key aads pieces tag) as (outs & Es & Ho & _); [done..|].
  exists outs. eexists. split; [exact Es|]. intros wire Hw. rewrite Ho in Hw.
  assert (Bw : bytes_ok (concat wire)).
  { rewrite Hw. apply crypt_bytes. clear -Hpieces. induction Hpieces as [|p l Hp _ IH]; [constructor|]. by apply Forall_app. }
  destruct (open_val key nonce Hkey Hnonce Lkey Lnonce ctx2 mac_key2 aads2 wire tag2) as (plain & Eo & Hp & _);
    [done|done|by apply (pieces_bytes wire _ eq_refl)|by rewrite Hsame|by rewrite Hw, crypt_length|done|].
  exists plain. eexists. split; [exact Eo|]. split; [by rewrite Hp, Hw, crypt_twice|]. intros received Hr Lr.
  rewrite Hw, Hsame. set (t := aead_tag key nonce _ _).
  assert (Lt : length t = 16%nat) by apply aead_tag_length.
  rewrite verify_val; [|done|apply splice_bytes; [done|apply aead_tag_bytes]|done|rewrite splice_length; lia].
  by rewrite !tag_prefix by done.
Qed.

(** ** The example of section 2.8.2 *)

Definition ex_key : list Z := map Z.of_nat (List.seq 128 32).
Definition ex_nonce : list Z := [7; 0; 0; 0; 64; 65; 66; 67; 68; 69; 70; 71].
Definition ex_aads : list (list Z) := [[80; 81; 82; 83; 192]; [193; 194; 195; 196; 197; 198; 199]].
Definition ex_plain : list Z :=
  [76; 97; 100; 105; 101; 115; 32; 97; 110; 100; 32; 71; 101; 110; 116; 108; 101; 109; 101; 110; 32; 111; 102; 32; 116;
   104; 101; 32; 99; 108; 97; 115; 115; 32; 111; 102; 32; 39; 57; 57; 58; 32; 73; 102; 32; 73; 32; 99; 111; 117; 108; 100;
   32; 111; 102; 102; 101; 114; 32; 121; 111; 117; 32; 111; 110; 108; 121; 32; 111; 110; 101; 32; 116; 105; 112; 32; 102;
   111; 114; 32; 116; 104; 101; 32; 102; 117; 116; 117; 114; 101; 44; 32; 115; 117; 110; 115; 99; 114; 101; 101; 110; 32;
   119; 111; 117; 108; 100; 32; 98; 101; 32; 105; 116; 46].
Definition ex_cipher : list Z :=
  [211; 26; 141; 52; 100; 142; 96; 219; 123; 134; 175; 188; 83; 239; 126; 194; 164; 173; 237; 81; 41; 110; 8; 254; 169;
   226; 181; 167; 54; 238; 98; 214; 61; 190; 164; 94; 140; 169; 103; 18; 130; 250; 251; 105; 218; 146; 114; 139; 26; 113;
   222; 10; 158; 6; 11; 41; 5; 214; 165; 182; 126; 205; 59; 54; 146; 221; 189; 127; 45; 119; 139; 140; 152; 3; 174; 227;
   40; 9; 27; 88; 250; 179; 36; 228; 250; 214; 117; 148; 85; 133; 128; 139; 72; 49; 215; 188; 63; 244; 222; 240; 142; 75;
   122; 157; 229; 118; 210; 101; 134; 206; 198; 75; 97; 22].
Definition ex_tag : list Z := [26; 225; 11; 89; 79; 9; 226; 106; 126; 144; 46; 203; 208; 96; 6; 145].
Definition ex_pieces : list (list Z) := [take 3 ex_plain; []; take 90 (drop 3 ex_plain); drop 93 ex_plain].
Definition ex_context : C68K_CHACHA20_POLY1305 :=
  AeadCtx (Chacha20Ctx [] (replicate 64 9) 3) (Poly1305Ctx (Limbs 0 0 0 0 0) (Limbs 0 0 0 0 0) (Quad 0 0 0 0) (replicate 16 9) 5) 1 2 3.

Lemma ex_fresh : fresh ex_context (replicate 32 0).
Proof. split; [done|]. split; [done|]. split; [by apply bytes_okb_ok|done]. Qed.

(** Two blocks of a stream at most. *)
Lemma keystream_two s c n : length s = 16%nat -> Z.of_nat n <= 64 -> keystream s c 0 (64 + n) = block_bytes s (c + 0) ++ slice (block_bytes s (c + 1)) 0 (Z.of_nat n).
Proof.
  intros Hs Hn. rewrite keystream_app. f_equal; [|by apply (keystream_block s c 1 0); lia].
  change 0 with (64 * 0 + 0) at 1. rewrite keystream_block by lia. rewrite slice_all; [done|]. by rewrite block_bytes_length.
Qed.

Lemma keystream_one s c n : length s = 16%nat -> Z.of_nat n <= 64 -> keystream s c 0 n = slice (block_bytes s (c + 0)) 0 (Z.of_nat n).
Proof. intros Hs Hn. by apply (keystream_block s c 0 0); lia. Qed.

Lemma ex_keystream :
  keystream (state_spec ex_key ex_nonce) 1 0 (64 + 50) =
    block_bytes (state_spec ex_key ex_nonce) 1 ++ slice (block_bytes (state_spec ex_key ex_nonce) 2) 0 50.
Proof. apply keystream_two; [reflexivity|lia]. Qed.

Lemma ex_cipher_value : crypt ex_key ex_nonce (concat ex_pieces) = ex_cipher.
Proof.
  unfold crypt. change (length (concat ex_pieces)) with (64 + 50)%nat. rewrite ex_keystream. vm_compute. reflexivity.
Qed.

Lemma ex_stream_value :
  splice (replicate 2 5 ++ ex_plain) 0 (xor_list (slice (replicate 2 5 ++ ex_plain) 2 (total [3; 0; 90; 21]))
    (keystream (state_spec ex_key ex_nonce) 1 0 (Z.to_nat (total [3; 0; 90; 21])))) = ex_cipher ++ [116; 46].
Proof.
  change (slice (replicate 2 5 ++ ex_plain) 2 (total [3; 0; 90; 21])) with ex_plain.
  change (Z.to_nat (total [3; 0; 90; 21])) with (length ex_plain). fold (crypt ex_key ex_nonce ex_plain).
  change ex_plain with (concat ex_pieces) at 2. rewrite ex_cipher_value. reflexivity.
Qed.

Lemma ex_key_value : one_time_key ex_key ex_nonce = slice (block_bytes (state_spec ex_key ex_nonce) 0) 0 32.
Proof. unfold one_time_key. apply keystream_one; [reflexivity|lia]. Qed.

Lemma ex_tag_value :
  splice (replicate 16 0) 0 (aead_tag ex_key ex_nonce (concat ex_aads) (crypt ex_key ex_nonce (concat ex_pieces))) = ex_tag.
Proof. rewrite ex_cipher_value. unfold aead_tag. rewrite ex_key_value. vm_compute. reflexivity. Qed.

Lemma chacha20_stream_witness :
  exists ctx ctx', c68k_chacha20_initialize (replicate 64 9) ex_key ex_nonce 1 = Val ctx /\
    xor_calls ctx (replicate 2 5 ++ ex_plain) 2 0 [3; 0; 90; 21] = Val (ctx', ex_cipher ++ [116; 46]).
Proof.
  destruct (chacha20_stream (replicate 64 9) ex_key ex_nonce 1 (replicate 2 5 ++ ex_plain) 2 0 [3; 0; 90; 21]
    (bytes_okb_ok ex_key eq_refl) (bytes_okb_ok ex_nonce eq_refl) ltac:(vm_compute; discriminate) ltac:(vm_compute; discriminate)
    ltac:(split; vm_compute; (reflexivity || discriminate)) eq_refl ltac:(repeat constructor; lia) ltac:(lia) ltac:(lia)
    ltac:(vm_compute; discriminate) ltac:(vm_compute; discriminate) ltac:(left; lia)) as (ctx & ctx' & E & R).
  exists ctx, ctx'. split; [exact E|]. rewrite ex_stream_value in R. exact R.
Defined.


Lemma aead_roundtrip_witness :
  exists outs sent,
    whole_record ex_key ex_nonce c68k_chacha20_poly1305_encrypt ex_context (replicate 32 0) ex_aads ex_pieces (replicate 16 0) = Val (outs, sent) /\
    forall wire, concat wire = concat outs ->
      exists plain computed,
        whole_record ex_key ex_nonce c68k_chacha20_poly1305_decrypt ex_context (replicate 32 0) [concat ex_aads] wire (replicate 16 0) = Val (plain, computed) /\
        concat plain = ex_plain.
Proof.
  destruct (aead_roundtrip ex_context ex_context (replicate 32 0) (replicate 32 0) ex_key ex_nonce ex_aads [concat ex_aads] ex_pieces (replicate 16 0) (replicate 16 0)
    (bytes_okb_ok ex_key eq_refl) (bytes_okb_ok ex_nonce eq_refl) ltac:(vm_compute; discriminate) ltac:(vm_compute; discriminate) ex_fresh ex_fresh
    (all_bytes_okb_ok ex_aads eq_refl) (all_bytes_okb_ok ex_pieces eq_refl) (all_bytes_okb_ok [concat ex_aads] eq_refl) eq_refl eq_refl eq_refl
    (bytes_okb_ok (replicate 16 0) eq_refl) (bytes_okb_ok (replicate 16 0) eq_refl) ltac:(vm_compute; discriminate) ltac:(vm_compute; discriminate)) as (outs & sent & E & H).
  exists outs, sent. split; [exact E|]. intros wire Hw. destruct (H wire Hw) as (plain & computed & Eo & Hp & _). exists plain, computed.
  split; [exact Eo|]. exact Hp.
Defined.
