(* ===== verification/Sha256.v ===== *)
(** * SHA-256 (src/src/crypto68k/c68k_sha256.c)

    The portable compression function, the buffering and the padding.  A NULL argument
    is [None]; the two result codes come from the vendored nx_crypto.h and are
    parameters. *)

From Stdlib Require Import ZArith Lia.
From stdpp Require Import base numbers list.
From S2P Require Import Prelude Checksum Poly1305.
#[local] Open Scope Z_scope.

Definition C68K_SHA256_BLOCK_SIZE : Z := 64.
Definition C68K_SHA256_DIGEST_SIZE : Z := 32.

Record C68K_SHA256 := Sha256Ctx {
  c68k_sha256_state : list Z;
  c68k_sha256_bits_hi : Z;
  c68k_sha256_bits_lo : Z;
  c68k_sha256_used : Z;
  c68k_sha256_buffer : list Z
}.

Definition c68k_sha256_k : list Z :=
  concat (A := Z)
    [
     [0x428a2f98; 0x71374491; 0xb5c0fbcf; 0xe9b5dba5];
     [0x3956c25b; 0x59f111f1; 0x923f82a4; 0xab1c5ed5];
     [0xd807aa98; 0x12835b01; 0x243185be; 0x550c7dc3];
     [0x72be5d74; 0x80deb1fe; 0x9bdc06a7; 0xc19bf174];
     [0xe49b69c1; 0xefbe4786; 0x0fc19dc6; 0x240ca1cc];
     [0x2de92c6f; 0x4a7484aa; 0x5cb0a9dc; 0x76f988da];
     [0x983e5152; 0xa831c66d; 0xb00327c8; 0xbf597fc7];
     [0xc6e00bf3; 0xd5a79147; 0x06ca6351; 0x14292967];
     [0x27b70a85; 0x2e1b2138; 0x4d2c6dfc; 0x53380d13];
     [0x650a7354; 0x766a0abb; 0x81c2c92e; 0x92722c85];
     [0xa2bfe8a1; 0xa81a664b; 0xc24b8b70; 0xc76c51a3];
     [0xd192e819; 0xd6990624; 0xf40e3585; 0x106aa070];
     [0x19a4c116; 0x1e376c08; 0x2748774c; 0x34b0bcb5];
     [0x391c0cb3; 0x4ed8aa4a; 0x5b9cca4f; 0x682e6ff3];
     [0x748f82ee; 0x78a5636f; 0x84c87814; 0x8cc70208];
     [0x90befffa; 0xa4506ceb; 0xbef9a3f7; 0xc67178f2]
    ].

Definition ROTR (x n : Z) : Z := Z.lor (Z.shiftr x n) (x <<w (32 - n)).
Definition BIG_S0 (x : Z) : Z := Z.lxor (Z.lxor (ROTR x 2) (ROTR x 13)) (ROTR x 22).
Definition BIG_S1 (x : Z) : Z := Z.lxor (Z.lxor (ROTR x 6) (ROTR x 11)) (ROTR x 25).
Definition SMALL_S0 (x : Z) : Z := Z.lxor (Z.lxor (ROTR x 7) (ROTR x 18)) (Z.shiftr x 3).
Definition SMALL_S1 (x : Z) : Z := Z.lxor (Z.lxor (ROTR x 17) (ROTR x 19)) (Z.shiftr x 10).
Definition CH (x y z : Z) : Z := Z.lxor z (Z.land x (Z.lxor y z)).
Definition MAJ (x y z : Z) : Z := Z.lor (Z.land x y) (Z.land z (Z.lor x y)).

(** The two sums of a round. *)
Definition round_t1 (e f g h k w : Z) : Z := h +w BIG_S1 e +w CH e f g +w k +w w.
Definition round_t2 (a b c : Z) : Z := BIG_S0 a +w MAJ a b c.

(** The eight variables are the entries of [x], named by their index. *)
Definition ROUND (w : list Z) (a b c d e f g h t : nat) (x : list Z) : list Z :=
  let t1 := round_t1 (x !!! e) (x !!! f) (x !!! g) (x !!! h) (c68k_sha256_k !!! t) (w !!! t) in
  let t2 := round_t2 (x !!! a) (x !!! b) (x !!! c) in
  let x := <[d := (x !!! d) +w t1]> x in
  <[h := t1 +w t2]> x.

Definition eight_rounds (w : list Z) (t : nat) (x : list Z) : list Z :=
  let x := ROUND w 0 1 2 3 4 5 6 7 t x in
  let x := ROUND w 7 0 1 2 3 4 5 6 (t + 1) x in
  let x := ROUND w 6 7 0 1 2 3 4 5 (t + 2) x in
  let x := ROUND w 5 6 7 0 1 2 3 4 (t + 3) x in
  let x := ROUND w 4 5 6 7 0 1 2 3 (t + 4) x in
  let x := ROUND w 3 4 5 6 7 0 1 2 (t + 5) x in
  let x := ROUND w 2 3 4 5 6 7 0 1 (t + 6) x in
  ROUND w 1 2 3 4 5 6 7 0 (t + 7) x.

(** [groups] turns of the loop, from round [t] on. *)
Fixpoint round_groups (step : nat -> list Z -> list Z) (groups t : nat) (x : list Z) : list Z :=
  match groups with O => x | S groups => round_groups step groups (t + 8) (step t x) end.

Definition c68k_sha256_load_be (m : list Z) (p : Z) : outcome Z :=
  let! b0 := fetch m p in
  let! b1 := fetch m (p + 1) in
  let! b2 := fetch m (p + 2) in
  let! b3 := fetch m (p + 3) in
  Val (Z.lor (Z.lor (Z.lor (b0 <<w 24) (b1 <<w 16)) (b2 <<w 8)) b3).

(** The first [n] entries of [w], loaded from [p] on. *)
Fixpoint load_w (n : nat) (m : list Z) (p : Z) : outcome (list Z) :=
  match n with
  | O => Val []
  | S n => let! v := c68k_sha256_load_be m p in let! w := load_w n m (p + 4) in Val (v :: w)
  end.

(** The next [n] entries of [w]; the array grows as the loop fills it. *)
Fixpoint schedule (n : nat) (w : list Z) : list Z :=
  match n with
  | O => w
  | S n =>
      let t := length w in
      schedule n (w ++ [SMALL_S1 (w !!! (t - 2)%nat) +w (w !!! (t - 7)%nat) +w SMALL_S0 (w !!! (t - 15)%nat) +w (w !!! (t - 16)%nat)])
  end.

(** One block folded into the state. *)
Definition compress (state data : list Z) (p : Z) : outcome (list Z) :=
  let! w := load_w 16 data p in
  let w := schedule 48 w in
  let x := round_groups (eight_rounds w) 8 0 state in
  Val (zip_with (fun a s => a +w s) x state).

Fixpoint blocks_with (step : list Z -> list Z -> Z -> outcome (list Z)) (blocks : nat) (state data : list Z) (p : Z) : outcome (list Z) :=
  match blocks with
  | O => Val state
  | S blocks => let! state := step state data p in blocks_with step blocks state data (p + C68K_SHA256_BLOCK_SIZE)
  end.

Definition c68k_sha256_blocks_c (state data : list Z) (p blocks : Z) : outcome (list Z) := blocks_with compress (Z.to_nat blocks) state data p.
Definition c68k_sha256_blocks (state data : list Z) (p blocks : Z) : outcome (list Z) := c68k_sha256_blocks_c state data p blocks.

(** ** Buffering and padding *)

Definition set_state (state : list Z) (ctx : C68K_SHA256) : C68K_SHA256 :=
  Sha256Ctx state (c68k_sha256_bits_hi ctx) (c68k_sha256_bits_lo ctx) (c68k_sha256_used ctx) (c68k_sha256_buffer ctx).
Definition set_bits (hi lo : Z) (ctx : C68K_SHA256) : C68K_SHA256 :=
  Sha256Ctx (c68k_sha256_state ctx) hi lo (c68k_sha256_used ctx) (c68k_sha256_buffer ctx).
Definition set_held (buffer : list Z) (used : Z) (ctx : C68K_SHA256) : C68K_SHA256 :=
  Sha256Ctx (c68k_sha256_state ctx) (c68k_sha256_bits_hi ctx) (c68k_sha256_bits_lo ctx) used buffer.

(** The bit count, in two longwords. *)
Definition count_bits (input_length : Z) (ctx : C68K_SHA256) : C68K_SHA256 :=
  let before := c68k_sha256_bits_lo ctx in
  let lo := before +w (input_length <<w 3) in
  let hi := if lo <? before then c68k_sha256_bits_hi ctx +w 1 else c68k_sha256_bits_hi ctx in
  set_bits (hi +w Z.shiftr input_length 29) lo ctx.

(** Once no partial block is held. *)
Definition absorb_whole (ctx : C68K_SHA256) (input : list Z) (p input_length : Z) : outcome C68K_SHA256 :=
  let whole := Z.shiftr input_length 6 in
  let! ctx := (if negb (whole =? 0) then
                 let! state := c68k_sha256_blocks (c68k_sha256_state ctx) input p whole in Val (set_state state ctx)
               else Val ctx) in
  let p := if negb (whole =? 0) then p + (whole <<w 6) else p in
  let input_length := if negb (whole =? 0) then Z.land input_length 63 else input_length in
  let! buffer := copy_in (Z.to_nat input_length) (c68k_sha256_buffer ctx) 0 input p in
  Val (set_held buffer input_length ctx).

(** [input_length] bytes, not none. *)
Definition absorb_input (ctx : C68K_SHA256) (input : list Z) (input_length : Z) : outcome C68K_SHA256 :=
  let ctx := count_bits input_length ctx in
  let used := c68k_sha256_used ctx in
  if negb (used =? 0) then
    let room := C68K_SHA256_BLOCK_SIZE -w used in
    if input_length <? room then
      let! buffer := copy_in (Z.to_nat input_length) (c68k_sha256_buffer ctx) used input 0 in
      Val (set_held buffer (used +w input_length) ctx)
    else
      let! buffer := copy_in (Z.to_nat room) (c68k_sha256_buffer ctx) used input 0 in
      let! state := c68k_sha256_blocks (c68k_sha256_state ctx) buffer 0 1 in
      absorb_whole (set_held buffer 0 (set_state state ctx)) input room (input_length -w room)
  else absorb_whole ctx input 0 input_length.

(** The bit count, in the last eight bytes. *)
Definition put_count (hi lo : Z) (buffer : list Z) : outcome (list Z) :=
  let! buffer := store8 buffer 56 (u8 (Z.shiftr hi 24)) in
  let! buffer := store8 buffer 57 (u8 (Z.shiftr hi 16)) in
  let! buffer := store8 buffer 58 (u8 (Z.shiftr hi 8)) in
  let! buffer := store8 buffer 59 (u8 hi) in
  let! buffer := store8 buffer 60 (u8 (Z.shiftr lo 24)) in
  let! buffer := store8 buffer 61 (u8 (Z.shiftr lo 16)) in
  let! buffer := store8 buffer 62 (u8 (Z.shiftr lo 8)) in
  store8 buffer 63 (u8 lo).

(** The last block or two: the mark, the zeroes and the bit count. *)
Definition pad_blocks (ctx : C68K_SHA256) : outcome C68K_SHA256 :=
  let hi := c68k_sha256_bits_hi ctx in
  let lo := c68k_sha256_bits_lo ctx in
  let used := c68k_sha256_used ctx in
  let! buffer := store8 (c68k_sha256_buffer ctx) used 0x80 in
  let used := used +w 1 in
  let! r :=
    (if C68K_SHA256_BLOCK_SIZE - 8 <? used then
       let! buffer := zero_from (Z.to_nat (C68K_SHA256_BLOCK_SIZE - used)) buffer used in
       let! state := c68k_sha256_blocks (c68k_sha256_state ctx) buffer 0 1 in
       Val (state, buffer, 0)
     else Val (c68k_sha256_state ctx, buffer, used)) in
  let '(state, buffer, used) := r in
  let! buffer := zero_from (Z.to_nat (C68K_SHA256_BLOCK_SIZE - 8 - used)) buffer used in
  let! buffer := put_count hi lo buffer in
  let! state := c68k_sha256_blocks state buffer 0 1 in
  Val (set_held buffer (c68k_sha256_used ctx) (set_state state ctx)).

(** The words of the state, big-endian. *)
Fixpoint put_digest (state digest : list Z) (p : Z) : outcome (list Z) :=
  match state with
  | [] => Val digest
  | v :: state =>
      let! digest := store8 digest p (u8 (Z.shiftr v 24)) in
      let! digest := store8 digest (p + 1) (u8 (Z.shiftr v 16)) in
      let! digest := store8 digest (p + 2) (u8 (Z.shiftr v 8)) in
      let! digest := store8 digest (p + 3) (u8 v) in
      put_digest state digest (p + 4)
  end.

Section api.
Context (NX_CRYPTO_SUCCESS NX_CRYPTO_PTR_ERROR : Z).

(** [buffer] is whatever the array of the context holds. *)
Definition c68k_sha256_initialize (ctx : option C68K_SHA256) (algorithm : Z) : Z * option C68K_SHA256 :=
  match ctx with
  | None => (NX_CRYPTO_PTR_ERROR, None)
  | Some ctx =>
      (NX_CRYPTO_SUCCESS, Some (Sha256Ctx
        [0x6a09e667; 0xbb67ae85; 0x3c6ef372; 0xa54ff53a; 0x510e527f; 0x9b05688c; 0x1f83d9ab; 0x5be0cd19] 0 0 0 (c68k_sha256_buffer ctx)))
  end.

Definition c68k_sha256_update (ctx : option C68K_SHA256) (input : option (list Z)) (input_length : Z) : outcome (Z * option C68K_SHA256) :=
  match ctx, input with
  | None, _ => Val (NX_CRYPTO_PTR_ERROR, None)
  | Some ctx, None => Val ((if negb (input_length =? 0) then NX_CRYPTO_PTR_ERROR else NX_CRYPTO_SUCCESS), Some ctx)
  | Some ctx, Some input =>
      if input_length =? 0 then Val (NX_CRYPTO_SUCCESS, Some ctx)
      else let! ctx := absorb_input ctx input input_length in Val (NX_CRYPTO_SUCCESS, Some ctx)
  end.

Definition c68k_sha256_digest_calculate (ctx : option C68K_SHA256) (digest : option (list Z)) (algorithm : Z) :
    outcome (Z * option C68K_SHA256 * option (list Z)) :=
  match ctx, digest with
  | Some ctx, Some digest =>
      let! ctx := pad_blocks ctx in
      let! digest := put_digest (c68k_sha256_state ctx) digest 0 in
      Val (NX_CRYPTO_SUCCESS, Some ctx, Some digest)
  | _, _ => Val (NX_CRYPTO_PTR_ERROR, ctx, digest)
  end.
End api.
