(* ===== verification/Sha256Spec.v ===== *)
(** * SHA-256 is the function of FIPS 180-4

    The unrolled rounds as the rotation of eight working variables, the two logical
    functions as the standard writes them, and the buffering and padding as the padded
    message in blocks. *)

From Stdlib Require Import ZArith Lia.
From stdpp Require Import base numbers list.
From S2P Require Import Prelude Checksum RxSpec TxSum Poly1305 Poly1305Spec Poly1305Claims ChachaAead Sha256.
#[local] Open Scope Z_scope.

Local Abbreviation len m := (Z.of_nat (length m)).

(** ** The compression function *)

(** Section 4.1.2. *)
Definition Ch (x y z : Z) : Z := Z.lxor (Z.land x y) (Z.land (Z.lnot x) z).
Definition Maj (x y z : Z) : Z := Z.lxor (Z.lxor (Z.land x y) (Z.land x z)) (Z.land y z).

Lemma CH_spec x y z : CH x y z = Ch x y z.
Proof.
  unfold CH, Ch. apply Z.bits_inj'. intros n Hn. rewrite !Z.lxor_spec, !Z.land_spec, Z.lxor_spec, Z.lnot_spec by done.
  by destruct (Z.testbit x n), (Z.testbit y n), (Z.testbit z n).
Qed.

Lemma MAJ_spec x y z : MAJ x y z = Maj x y z.
Proof.
  unfold MAJ, Maj. apply Z.bits_inj'. intros n _. rewrite Z.lor_spec, !Z.lxor_spec, !Z.land_spec, Z.lor_spec.
  by destruct (Z.testbit x n), (Z.testbit y n), (Z.testbit z n).
Qed.

(** Section 6.2.2, step 3: the sums, and the shift of the working variables. *)
Definition T1 (e f g h k w : Z) : Z := (h + BIG_S1 e + Ch e f g + k + w) mod 2 ^ 32.
Definition T2 (a b c : Z) : Z := (BIG_S0 a + Maj a b c) mod 2 ^ 32.

Definition step_spec (kw : Z * Z) (x : list Z) : list Z :=
  match x with
  | [a; b; c; d; e; f; g; h] =>
      let t1 := T1 e f g h kw.1 kw.2 in
      [(t1 + T2 a b c) mod 2 ^ 32; a; b; c; (d + t1) mod 2 ^ 32; e; f; g]
  | _ => x
  end.

Fixpoint steps_spec (l : list (Z * Z)) (x : list Z) : list Z :=
  match l with [] => x | kw :: l => steps_spec l (step_spec kw x) end.

Definition compress_spec (state w : list Z) : list Z :=
  zip_with (fun a s => (a + s) mod 2 ^ 32) (steps_spec (zip c68k_sha256_k (schedule 48 w)) state) state.

Lemma round_t1_spec e f g h k w : round_t1 e f g h k w = T1 e f g h k w.
Proof. unfold round_t1, T1, u32. rewrite CH_spec. generalize (BIG_S1 e) (Ch e f g). intros s c. Z.div_mod_to_equations. lia. Qed.

Lemma round_t2_spec a b c : round_t2 a b c = T2 a b c.
Proof. unfold round_t2, T2. by rewrite MAJ_spec. Qed.

(** The shift with the code's own sums. *)
Definition step_code (k w : Z) (x : list Z) : list Z :=
  match x with
  | [a; b; c; d; e; f; g; h] => let t1 := round_t1 e f g h k w in [t1 +w round_t2 a b c; a; b; c; d +w t1; e; f; g]
  | _ => x
  end.

Lemma step_code_spec kw x : step_code kw.1 kw.2 x = step_spec kw x.
Proof.
  unfold step_code, step_spec. do 8 (destruct x as [|? x]; [done|]). destruct x; [|done]. cbv zeta. by rewrite round_t1_spec, round_t2_spec.
Qed.

Lemma length_8 (x : list Z) : length x = 8%nat -> exists a b c d e f g h, x = [a; b; c; d; e; f; g; h].
Proof. intros H. do 8 (destruct x as [|? x]; [done|]). destruct x; [by eauto 10|done]. Qed.

(** The working variables once [r] rounds have renamed them. *)
Definition view (r : nat) (x : list Z) : list Z := (fun i => x !!! ((i + 8 - r) mod 8)%nat) <$> List.seq 0 8.

#[local] Opaque round_t1 round_t2 u32 Z.add.

(** A round with its roles renamed is a shift of the view. *)
Ltac round_view :=
  let H := fresh in
  intros H; apply length_8 in H as (? & ? & ? & ? & ? & ? & ? & ? & ->); unfold ROUND;
  repeat match goal with |- context [c68k_sha256_k !!! ?t] => generalize (c68k_sha256_k !!! t) | |- context [?w !!! ?t] => is_var w; generalize (w !!! t) end;
  intros; by lazy -[round_t1 round_t2 u32 Z.add].

Lemma round_0 w t x : length x = 8%nat -> view 1 (ROUND w 0 1 2 3 4 5 6 7 t x) = step_code (c68k_sha256_k !!! t) (w !!! t) (view 0 x).
Proof. round_view. Qed.
Lemma round_1 w t x : length x = 8%nat -> view 2 (ROUND w 7 0 1 2 3 4 5 6 t x) = step_code (c68k_sha256_k !!! t) (w !!! t) (view 1 x).
Proof. round_view. Qed.
Lemma round_2 w t x : length x = 8%nat -> view 3 (ROUND w 6 7 0 1 2 3 4 5 t x) = step_code (c68k_sha256_k !!! t) (w !!! t) (view 2 x).
Proof. round_view. Qed.
Lemma round_3 w t x : length x = 8%nat -> view 4 (ROUND w 5 6 7 0 1 2 3 4 t x) = step_code (c68k_sha256_k !!! t) (w !!! t) (view 3 x).
Proof. round_view. Qed.
Lemma round_4 w t x : length x = 8%nat -> view 5 (ROUND w 4 5 6 7 0 1 2 3 t x) = step_code (c68k_sha256_k !!! t) (w !!! t) (view 4 x).
Proof. round_view. Qed.
Lemma round_5 w t x : length x = 8%nat -> view 6 (ROUND w 3 4 5 6 7 0 1 2 t x) = step_code (c68k_sha256_k !!! t) (w !!! t) (view 5 x).
Proof. round_view. Qed.
Lemma round_6 w t x : length x = 8%nat -> view 7 (ROUND w 2 3 4 5 6 7 0 1 t x) = step_code (c68k_sha256_k !!! t) (w !!! t) (view 6 x).
Proof. round_view. Qed.
Lemma round_7 w t x : length x = 8%nat -> view 0 (ROUND w 1 2 3 4 5 6 7 0 t x) = step_code (c68k_sha256_k !!! t) (w !!! t) (view 7 x).
Proof. round_view. Qed.

#[local] Transparent round_t1 round_t2 u32 Z.add.

Lemma view_home x : length x = 8%nat -> view 0 x = x.
Proof. intros H. apply length_8 in H as (? & ? & ? & ? & ? & ? & ? & ? & ->). done. Qed.

Lemma ROUND_length w a b c d e f g h t x : length (ROUND w a b c d e f g h t x) = length x.
Proof. unfold ROUND. cbv zeta. by rewrite !length_insert. Qed.

#[local] Opaque ROUND view.

(** Eight of them bring every variable home. *)
Lemma eight_rounds_steps w t x : length x = 8%nat ->
  eight_rounds w t x = foldl (fun x i => step_code (c68k_sha256_k !!! (t + i)%nat) (w !!! (t + i)%nat) x) x (List.seq 0 8) /\
  length (eight_rounds w t x) = 8%nat.
Proof.
  intros H8. assert (L : length (eight_rounds w t x) = 8%nat) by (unfold eight_rounds; cbv zeta; by rewrite !ROUND_length). split; [|done].
  rewrite <- (view_home _ L). unfold eight_rounds. cbv zeta. cbn [List.seq foldl]. rewrite Nat.add_0_r.
  rewrite round_7, round_6, round_5, round_4, round_3, round_2, round_1, round_0 by (by rewrite ?ROUND_length). by rewrite view_home.
Qed.

Lemma foldl_fmap {A B C} (f : A -> C -> A) (g : B -> C) l : forall a, foldl f a (g <$> l) = foldl (fun a x => f a (g x)) a l.
Proof. induction l as [|x l IH]; intros a; [done|]. apply IH. Qed.

Lemma foldl_offset {A} (f : A -> nat -> A) a t n : foldl (fun a i => f a (t + i)%nat) a (List.seq 0 n) = foldl f a (List.seq t n).
Proof. replace (List.seq t n) with (Nat.add t <$> List.seq 0 n); [by rewrite foldl_fmap|]. rewrite fmap_add_seq. by rewrite Nat.add_0_r. Qed.

Lemma round_groups_fold step (f : list Z -> nat -> list Z) n :
  (forall t x, length x = 8%nat -> step t x = foldl (fun x i => f x (t + i)%nat) x (List.seq 0 8) /\ length (step t x) = 8%nat) ->
  forall t x, length x = 8%nat ->
    round_groups step n t x = foldl f x (List.seq t (8 * n)) /\ length (round_groups step n t x) = 8%nat.
Proof.
  intros Hs. induction n as [|n IH]; intros t x Hx; [done|]. cbn [round_groups].
  destruct (Hs t x Hx) as [E L]. destruct (IH (t + 8)%nat _ L) as [E2 L2]. split; [|exact L2]. rewrite E2, E.
  replace (8 * S n)%nat with (8 + 8 * n)%nat by lia. rewrite List.seq_app, foldl_app. by rewrite foldl_offset.
Qed.

Lemma round_groups_steps w n t x : length x = 8%nat ->
  round_groups (eight_rounds w) n t x = foldl (fun x i => step_code (c68k_sha256_k !!! i) (w !!! i) x) x (List.seq t (8 * n)) /\
  length (round_groups (eight_rounds w) n t x) = 8%nat.
Proof.
  intros Hx. apply (round_groups_fold (eight_rounds w) (fun x i => step_code (c68k_sha256_k !!! i) (w !!! i) x)); [|done].
  intros u y. apply eight_rounds_steps.
Qed.

Lemma steps_spec_foldl l x : steps_spec l x = foldl (fun x kw => step_spec kw x) x l.
Proof. revert x. induction l as [|kw l IH]; intros x; [done|]. apply IH. Qed.

Lemma zip_seq (k w : list Z) n : length k = n -> length w = n -> zip k w = (fun i => (k !!! i, w !!! i)) <$> List.seq 0 n.
Proof.
  intros Hk Hw. apply list_eq. intros i. destruct (decide (i < n)%nat) as [Hi|Hi].
  - rewrite list_lookup_fmap, lookup_seq_lt by done. cbn [fmap option_fmap option_map Nat.add].
    rewrite lookup_zip_with. by rewrite (list_lookup_lookup_total_lt k), (list_lookup_lookup_total_lt w) by lia.
  - rewrite !lookup_ge_None_2; [done|rewrite length_fmap, length_seq; lia|rewrite length_zip_with; lia].
Qed.

Lemma schedule_length n : forall w, length (schedule n w) = (n + length w)%nat.
Proof. induction n as [|n IH]; intros w; [done|]. cbn [schedule]. rewrite IH, length_app. simpl. lia. Qed.

(** The words of a block, big-endian. *)
Definition be_val (l : list Z) : Z := foldl (fun a b => a * 256 + b) 0 l.
Fixpoint be_words (n : nat) (m : list Z) : list Z := match n with O => [] | S n => be_val (take 4 m) :: be_words n (drop 4 m) end.

Lemma be_words_length n m : length (be_words n m) = n.
Proof. revert m. induction n as [|n IH]; intros m; [done|]. cbn [be_words length]. by rewrite IH. Qed.

Lemma load_be_val m p : bytes_ok m -> 0 <= p -> p + 4 <= len m -> c68k_sha256_load_be m p = Val (be_val (slice m p 4)).
Proof.
  intros Hb Hp Hl. rewrite slice_bytes4 by done. unfold c68k_sha256_load_be. rewrite !fetch_byte by lia. unfold be_val. cbn [obind foldl].
  pose proof (byte_range m p Hb) as R0. pose proof (byte_range m (p + 1) Hb) as R1. pose proof (byte_range m (p + 2) Hb) as R2.
  pose proof (byte_range m (p + 3) Hb) as R3. unfold is_u8 in *.
  rewrite !Z.shiftl_mul_pow2, !u32_small by (rewrite ?Z.shiftl_mul_pow2; unfold is_u32; lia). rewrite <- !Z.shiftl_mul_pow2 by lia. f_equal.
  rewrite !Z.shiftl_mul_pow2 by lia.
  set (b0 := byte m p) in *. set (b1 := byte m (p + 1)) in *. set (b2 := byte m (p + 2)) in *. set (b3 := byte m (p + 3)) in *.
  replace (b0 * 2 ^ 24) with (Z.shiftl b0 24) by (rewrite Z.shiftl_mul_pow2; lia). rewrite (lor_shift_add 24 b0 (b1 * 2 ^ 16)) by lia.
  replace (b0 * 2 ^ 24 + b1 * 2 ^ 16) with (Z.shiftl (b0 * 256 + b1) 16) by (rewrite Z.shiftl_mul_pow2; lia). rewrite (lor_shift_add 16 _ (b2 * 2 ^ 8)) by lia.
  replace ((b0 * 256 + b1) * 2 ^ 16 + b2 * 2 ^ 8) with (Z.shiftl ((b0 * 256 + b1) * 256 + b2) 8) by (rewrite Z.shiftl_mul_pow2; lia).
  rewrite (lor_shift_add 8) by lia. lia.
Qed.

Lemma load_w_val n : forall m p, bytes_ok m -> 0 <= p -> p + 4 * Z.of_nat n <= len m -> load_w n m p = Val (be_words n (drop (Z.to_nat p) m)).
Proof.
  induction n as [|n IH]; intros m p Hm Hp Hl; [done|]. cbn [load_w be_words]. rewrite load_be_val by (done || lia). cbn [obind].
  rewrite IH by (done || lia). cbn [obind]. do 2 f_equal. rewrite drop_drop. do 2 f_equal. lia.
Qed.

Lemma be_words_take n m : be_words n (take (4 * n) m) = be_words n m.
Proof.
  revert m. induction n as [|n IH]; intros m; [done|]. cbn [be_words]. rewrite take_take.
  replace (4 `min` (4 * S n))%nat with 4%nat by lia. f_equal. replace (4 * S n)%nat with (4 + 4 * n)%nat by lia. rewrite <- take_drop_commute. apply IH.
Qed.

Lemma foldl_ext {A B} (f g : A -> B -> A) l : (forall a b, f a b = g a b) -> forall a, foldl f a l = foldl g a l.
Proof. intros H. induction l as [|b l IH]; intros a; [done|]. cbn [foldl]. rewrite H. apply IH. Qed.

Lemma sixty_four_rounds w state : length state = 8%nat -> length w = 64%nat ->
  round_groups (eight_rounds w) 8 0 state = steps_spec (zip c68k_sha256_k w) state /\ length (round_groups (eight_rounds w) 8 0 state) = 8%nat.
Proof.
  intros Hs Lw. destruct (round_groups_steps w 8 0 state Hs) as [E L]. split; [|exact L]. rewrite E.
  assert (Lk : length c68k_sha256_k = 64%nat) by done. rewrite steps_spec_foldl, (zip_seq _ w 64 Lk Lw), foldl_fmap. apply foldl_ext. intros x i.
  exact (step_code_spec (c68k_sha256_k !!! i, w !!! i) x).
Qed.

(** The sixteen words of a block. *)
Lemma load_block data p : bytes_ok data -> 0 <= p -> p + 64 <= len data -> load_w 16 data p = Val (be_words 16 (slice data p 64)).
Proof. intros Hd Hp Hl. rewrite load_w_val by (done || lia). f_equal. symmetry. apply (be_words_take 16). Qed.

(** A block is folded in as the standard says. *)
Lemma compress_val state data p :
  length state = 8%nat -> bytes_ok data -> 0 <= p -> p + 64 <= len data ->
  compress state data p = Val (compress_spec state (be_words 16 (slice data p 64))) /\ length (compress_spec state (be_words 16 (slice data p 64))) = 8%nat.
Proof.
  intros Hs Hd Hp Hl. unfold compress, compress_spec. rewrite (load_block data p Hd Hp Hl). generalize (be_words_length 16 (slice data p 64)).
  generalize (be_words 16 (slice data p 64)). intros b Lb. unfold obind. assert (Lw : length (schedule 48 b) = 64%nat) by (by rewrite schedule_length, Lb).
  revert Lw. generalize (schedule 48 b). intros w Lw. destruct (sixty_four_rounds w state Hs Lw) as [<- L]. revert L.
  generalize (round_groups (eight_rounds w) 8 0 state). intros x L. split; [done|]. rewrite length_zip_with. lia.
Qed.

Lemma compress_spec_length state b : length state = 8%nat -> length (compress_spec state (be_words 16 b)) = 8%nat.
Proof.
  intros Hs. unfold compress_spec. generalize (be_words_length 16 b). generalize (be_words 16 b). intros w Lw.
  assert (L : length (schedule 48 w) = 64%nat) by (by rewrite schedule_length, Lw). revert L. generalize (schedule 48 w). intros v Lv.
  destruct (sixty_four_rounds v state Hs Lv) as [<- L]. revert L. generalize (round_groups (eight_rounds v) 8 0 state). intros x L. rewrite length_zip_with. lia.
Qed.
