(* ===== verification/Sha256Claims.v ===== *)
(** * SHA-256 over a message in pieces

    The context after any updates stands for the message so far, the digest is the one
    of FIPS 180-4, and the argument checks. *)

From Stdlib Require Import ZArith Lia.
From stdpp Require Import base numbers list.
From S2P Require Import Prelude Checksum RxSpec TxSum Poly1305 Poly1305Spec Poly1305Claims ChachaAead Sha256 Sha256Spec.
#[local] Open Scope Z_scope.

Local Abbreviation len m := (Z.of_nat (length m)).

(** ** The specification *)

Definition initial_state : list Z :=
  [0x6a09e667; 0xbb67ae85; 0x3c6ef372; 0xa54ff53a; 0x510e527f; 0x9b05688c; 0x1f83d9ab; 0x5be0cd19].

(** Section 5.1.1. *)
Definition pad_message (m : list Z) : list Z :=
  m ++ [0x80] ++ replicate (Z.to_nat ((55 - len m) mod 64)) 0 ++ be32 (8 * len m / 2 ^ 32) ++ be32 (8 * len m).

Fixpoint hash_from (fuel : nat) (state m : list Z) : list Z :=
  match m, fuel with
  | [], _ | _, O => state
  | _, S fuel => hash_from fuel (compress_spec state (be_words 16 (take 64 m))) (drop 64 m)
  end.
Definition hash (state m : list Z) : list Z := hash_from (length m) state m.
Definition sha256 (m : list Z) : list Z := concat (map be32 (hash initial_state (pad_message m))).

#[local] Opaque compress_spec compress.

Lemma hash_from_fuel f g state m : (length m <= f)%nat -> (length m <= g)%nat -> hash_from f state m = hash_from g state m.
Proof.
  revert g state m. induction f as [|f IH]; intros g state m Hf Hg; [destruct m; [by destruct g|simpl in Hf; lia]|].
  destruct m as [|b m]; [by destruct g|]. destruct g as [|g]; [simpl in Hg; lia|]. cbn [hash_from].
  apply IH; rewrite length_drop; simpl in *; lia.
Qed.

Lemma hash_step state m : m <> [] -> hash state m = hash (compress_spec state (be_words 16 (take 64 m))) (drop 64 m).
Proof.
  intros Hm. unfold hash. destruct m as [|b m]; [done|]. cbn [length]. cbn [hash_from]. apply hash_from_fuel; rewrite ?length_drop; simpl length; lia.
Qed.

Lemma hash_block state b x : length b = 64%nat -> hash state (b ++ x) = hash (compress_spec state (be_words 16 b)) x.
Proof. intros Hb. rewrite hash_step by (by destruct b). by rewrite drop_app_length', take_app_length' by done. Qed.

(** ** Blocks *)

Lemma blocks_val n : forall state m p,
  length state = 8%nat -> bytes_ok m -> 0 <= p -> p + 64 * Z.of_nat n <= len m ->
  exists state', blocks_with compress n state m p = Val state' /\ length state' = 8%nat /\
    forall x, hash state (slice m p (64 * Z.of_nat n) ++ x) = hash state' x.
Proof.
  induction n as [|n IH]; intros state m p Hs Hm Hp Hl; cbn [blocks_with].
  { exists state. split; [done|]. split; [done|]. intros x. by rewrite slice_nil by lia. }
  destruct (compress_val state m p Hs Hm Hp ltac:(lia)) as [-> L]. cbn [obind]. unfold C68K_SHA256_BLOCK_SIZE.
  destruct (IH _ m (p + 64) L Hm ltac:(lia) ltac:(lia)) as (s' & -> & L' & Hx). exists s'. split; [done|]. split; [done|]. intros x.
  replace (64 * Z.of_nat (S n)) with (64 + 64 * Z.of_nat n) by lia. rewrite slice_more, <- app_assoc by lia.
  rewrite hash_block by (apply Nat2Z.inj; rewrite slice_length; lia). apply Hx.
Qed.

Lemma one_block state b : length state = 8%nat -> bytes_ok b -> length b = 64%nat ->
  exists state', c68k_sha256_blocks state b 0 1 = Val state' /\ length state' = 8%nat /\ forall x, hash state (b ++ x) = hash state' x.
Proof.
  intros Hs Hb Lb. destruct (blocks_val 1 state b 0 Hs Hb ltac:(lia) ltac:(lia)) as (s' & E & L & Hx). exists s'. split; [exact E|]. split; [done|].
  intros x. rewrite <- Hx. change (64 * Z.of_nat 1) with 64. by rewrite slice_all by lia.
Qed.

(** ** The context *)

(** The bits counted. *)
Definition bits (ctx : C68K_SHA256) : Z := c68k_sha256_bits_hi ctx * 2 ^ 32 + c68k_sha256_bits_lo ctx.

(** A context that stands for the message [m]. *)
Record hashed (m : list Z) (ctx : C68K_SHA256) : Prop := {
  ha_state : length (c68k_sha256_state ctx) = 8%nat;
  ha_bits : bits ctx = 8 * len m mod 2 ^ 64 /\ is_u32 (c68k_sha256_bits_hi ctx) /\ is_u32 (c68k_sha256_bits_lo ctx);
  ha_used : 0 <= c68k_sha256_used ctx < 64;
  ha_buffer : length (c68k_sha256_buffer ctx) = 64%nat /\ bytes_ok (c68k_sha256_buffer ctx);
  ha_message : exists whole k, m = whole ++ take (Z.to_nat (c68k_sha256_used ctx)) (c68k_sha256_buffer ctx) /\ len whole = 64 * k /\
    forall x, hash initial_state (whole ++ x) = hash (c68k_sha256_state ctx) x
}.

(** All but the count. *)
Record absorbing (m : list Z) (ctx : C68K_SHA256) : Prop := {
  as_state : length (c68k_sha256_state ctx) = 8%nat;
  as_used : 0 <= c68k_sha256_used ctx < 64;
  as_buffer : length (c68k_sha256_buffer ctx) = 64%nat /\ bytes_ok (c68k_sha256_buffer ctx);
  as_message : exists whole k, m = whole ++ take (Z.to_nat (c68k_sha256_used ctx)) (c68k_sha256_buffer ctx) /\ len whole = 64 * k /\
    forall x, hash initial_state (whole ++ x) = hash (c68k_sha256_state ctx) x
}.

Lemma hashed_split m ctx :
  hashed m ctx <-> absorbing m ctx /\ bits ctx = 8 * len m mod 2 ^ 64 /\ is_u32 (c68k_sha256_bits_hi ctx) /\ is_u32 (c68k_sha256_bits_lo ctx).
Proof. split; [intros []|intros [[] ?]]; (split; [by split|done]) || by split. Qed.

Lemma count_bits_val v n ctx :
  bits ctx = v mod 2 ^ 64 -> is_u32 (c68k_sha256_bits_hi ctx) -> is_u32 (c68k_sha256_bits_lo ctx) -> is_u32 n ->
  let ctx' := count_bits n ctx in
  bits ctx' = (v + 8 * n) mod 2 ^ 64 /\ is_u32 (c68k_sha256_bits_hi ctx') /\ is_u32 (c68k_sha256_bits_lo ctx').
Proof.
  intros Hv Hh Hl Hn ctx'. rewrite <- Zplus_mod_idemp_l, <- Hv. unfold ctx', count_bits, bits. cbv zeta. cbn [set_bits c68k_sha256_bits_hi c68k_sha256_bits_lo].
  set (hi := c68k_sha256_bits_hi ctx) in *. set (lo := c68k_sha256_bits_lo ctx) in *. clearbody hi lo. clear Hv ctx' ctx v.
  rewrite Z.shiftl_mul_pow2, Z.shiftr_div_pow2 by lia. change (2 ^ 3) with 8.
  split; [|split; [apply u32_range|apply u32_range]].
  pose proof (Z.div_mod n (2 ^ 29) ltac:(lia)) as Mn. pose proof (Z.mod_pos_bound n (2 ^ 29) ltac:(lia)) as Rn.
  assert (E8 : u32 (n * 8) = n mod 2 ^ 29 * 8). { symmetry. apply (Z.mod_unique_pos _ _ (n / 2 ^ 29)); lia. }
  rewrite E8. assert (Qn : 0 <= n / 2 ^ 29 < 8) by (unfold is_u32 in Hn; split; [apply Z.div_pos; lia|apply Z.div_lt_upper_bound; lia]).
  set (q := n / 2 ^ 29) in *. set (r := n mod 2 ^ 29) in *. clearbody q r. unfold is_u32 in *.
  destruct (Z_lt_dec (lo + r * 8) (2 ^ 32)) as [Hs|Hs].
  - rewrite (u32_small (lo + r * 8)) by (unfold is_u32; lia). rewrite (proj2 (Z.ltb_ge _ _)) by lia. unfold u32.
    destruct (Z_lt_dec (hi + q) (2 ^ 32)).
    + rewrite (Z.mod_small (hi + q)) by lia. apply (Z.mod_unique_pos _ _ 0); lia.
    + replace ((hi + q) mod 2 ^ 32) with (hi + q - 2 ^ 32) by (apply (Z.mod_unique_pos _ _ 1); lia). apply (Z.mod_unique_pos _ _ 1); lia.
  - assert (Ew : u32 (lo + r * 8) = lo + r * 8 - 2 ^ 32) by (symmetry; apply (Z.mod_unique_pos _ _ 1); lia).
    rewrite Ew. rewrite (proj2 (Z.ltb_lt _ _)) by lia. unfold u32. rewrite Zplus_mod_idemp_l.
    destruct (Z_lt_dec (hi + 1 + q) (2 ^ 32)).
    + rewrite (Z.mod_small (hi + 1 + q)) by lia. apply (Z.mod_unique_pos _ _ 0); lia.
    + replace ((hi + 1 + q) mod 2 ^ 32) with (hi + 1 + q - 2 ^ 32) by (apply (Z.mod_unique_pos _ _ 1); lia). apply (Z.mod_unique_pos _ _ 1); lia.
Qed.

(** More bytes into the buffer. *)
Lemma hold_bytes m ctx bs n :
  absorbing m ctx -> bytes_ok bs -> n = c68k_sha256_used ctx + len bs -> n < 64 ->
  absorbing (m ++ bs) (set_held (splice (c68k_sha256_buffer ctx) (c68k_sha256_used ctx) bs) n ctx).
Proof.
  intros [Hs Hu [Lb Hb] (w & k & Em & Hk & Hx)] Hbs -> Hn.
  split; cbn [set_held c68k_sha256_state c68k_sha256_used c68k_sha256_buffer]; [done|lia| |].
  - split; [rewrite splice_length; lia|by apply splice_bytes].
  - exists w, k. rewrite splice_prefix, Em, app_assoc by lia. done.
Qed.

Lemma absorb_whole_val m ctx input p n :
  absorbing m ctx -> c68k_sha256_used ctx = 0 -> bytes_ok input -> 0 <= p -> 0 <= n < 2 ^ 32 -> p + n <= len input ->
  exists ctx', absorb_whole ctx input p n = Val ctx' /\ absorbing (m ++ slice input p n) ctx' /\
    c68k_sha256_bits_hi ctx' = c68k_sha256_bits_hi ctx /\ c68k_sha256_bits_lo ctx' = c68k_sha256_bits_lo ctx.
Proof.
  intros Ha Eu Hi Hp Hn Hl. unfold absorb_whole. cbv zeta. rewrite Z.shiftr_div_pow2 by lia. change (2 ^ 6) with 64. set (k := n / 64).
  pose proof (Z.div_mod n 64 ltac:(lia)) as M. pose proof (Z.mod_pos_bound n 64 ltac:(lia)) as R. fold k in M.
  assert (Hk : 0 <= k) by (apply Z.div_pos; lia).
  assert (Ep : (if negb (k =? 0) then p + (k <<w 6) else p) = p + 64 * k).
  { destruct (k =? 0) eqn:E; cbn [negb]; [apply Z.eqb_eq in E; lia|]. rewrite Z.shiftl_mul_pow2, u32_small by (unfold is_u32; lia). lia. }
  assert (En : (if negb (k =? 0) then Z.land n 63 else n) = n - 64 * k).
  { destruct (k =? 0) eqn:E; cbn [negb]; [apply Z.eqb_eq in E; lia|]. change 63 with (Z.ones 6). rewrite Z.land_ones by lia. change (2 ^ 6) with 64. lia. }
  rewrite Ep, En. clear Ep En. destruct Ha as [Hs Hu [Lb Hb] (w & j & Em & Hj & Hx)]. rewrite Eu in Em. simpl take in Em. rewrite app_nil_r in Em. subst w.
  assert (exists c1, (if negb (k =? 0) then let! state := c68k_sha256_blocks (c68k_sha256_state ctx) input p k in Val (set_state state ctx) else Val ctx) = Val c1 /\
    absorbing (m ++ slice input p (64 * k)) c1 /\ c68k_sha256_used c1 = 0 /\
    c68k_sha256_bits_hi c1 = c68k_sha256_bits_hi ctx /\ c68k_sha256_bits_lo c1 = c68k_sha256_bits_lo ctx) as (c1 & -> & Ha1 & Eu1 & Eh & El).
  { destruct (k =? 0) eqn:Ek; cbn [negb].
    - apply Z.eqb_eq in Ek. exists ctx. split; [done|]. split; [|done]. rewrite Ek, slice_nil, app_nil_r by lia. split; [done..|]. exists m, j. rewrite Eu. by rewrite app_nil_r.
    - destruct (blocks_val (Z.to_nat k) (c68k_sha256_state ctx) input p Hs Hi Hp ltac:(lia)) as (s' & E & L & Hx').
      unfold c68k_sha256_blocks, c68k_sha256_blocks_c. rewrite E. cbn [obind]. exists (set_state s' ctx). split; [done|]. split; [|done].
      rewrite Z2Nat.id in Hx' by lia. split; cbn [set_state c68k_sha256_state c68k_sha256_used c68k_sha256_buffer]; [done..|].
      exists (m ++ slice input p (64 * k)), (j + k). rewrite Eu. split; [by rewrite app_nil_r|]. split; [rewrite length_app; pose proof (slice_length input p (64 * k)); lia|].
      intros x. by rewrite <- app_assoc, Hx, Hx'. }
  cbn [obind]. destruct (as_buffer _ _ Ha1) as [Lb1 _]. rewrite copy_in_val by lia. cbn [obind]. eexists. split; [done|]. rewrite Z2Nat.id by lia. split; [|done].
  replace (slice input p n) with (slice input p (64 * k) ++ slice input (p + 64 * k) (n - 64 * k)).
  2: { rewrite <- slice_more by lia. f_equal. lia. }
  rewrite app_assoc. pose proof (hold_bytes _ _ (slice input (p + 64 * k) (n - 64 * k)) (n - 64 * k) Ha1) as A. rewrite Eu1 in A.
  apply A; [by apply bytes_slice|rewrite slice_length; lia|lia].
Qed.

Lemma absorb_input_val m ctx input n :
  hashed m ctx -> bytes_ok input -> 0 < n < 2 ^ 32 -> n <= len input ->
  exists ctx', absorb_input ctx input n = Val ctx' /\ hashed (m ++ slice input 0 n) ctx'.
Proof.
  intros Hh Hi Hn Hl. apply hashed_split in Hh as (Ha & Eb & Hbh & Hbl). unfold absorb_input, C68K_SHA256_BLOCK_SIZE. cbv zeta.
  destruct (count_bits_val _ n ctx Eb Hbh Hbl ltac:(unfold is_u32; lia)) as (Eb' & Hbh' & Hbl').
  assert (Ha' : absorbing m (count_bits n ctx)) by (destruct Ha; by split). set (c := count_bits n ctx) in *. clearbody c. clear Ha Eb Hbh Hbl ctx.
  assert (Done : forall m' c', absorbing m' c' -> c68k_sha256_bits_hi c' = c68k_sha256_bits_hi c -> c68k_sha256_bits_lo c' = c68k_sha256_bits_lo c ->
    m' = m ++ slice input 0 n -> hashed (m ++ slice input 0 n) c').
  { intros m' c' A Eh El ->. apply hashed_split. split; [done|]. unfold bits. rewrite Eh, El. split; [|done]. rewrite <- (Z.add_0_r (_ * _ + _)). fold (bits c). rewrite Z.add_0_r, Eb'.
    f_equal. rewrite length_app. pose proof (slice_length input 0 n). lia. }
  pose proof (as_used _ _ Ha') as Hu. destruct (as_buffer _ _ Ha') as [Lb Hb]. set (u := c68k_sha256_used c) in *.
  destruct (u =? 0) eqn:Eu; cbn [negb].
  { apply Z.eqb_eq in Eu. destruct (absorb_whole_val m c input 0 n Ha' Eu Hi) as (c' & E & A & Eh & El); [lia..|]. exists c'. split; [done|]. by apply (Done _ c' A). }
  apply Z.eqb_neq in Eu. rewrite (u32_small (64 - u)) by (unfold is_u32; lia). destruct (n <? 64 - u) eqn:En.
  { apply Z.ltb_lt in En. rewrite copy_in_val by lia. cbn [obind]. eexists. split; [done|]. rewrite u32_small, Z2Nat.id by (unfold is_u32; lia).
    apply (Done (m ++ slice input 0 n)); [|done..]. apply hold_bytes; [done|by apply bytes_slice|rewrite slice_length; lia|lia]. }
  apply Z.ltb_ge in En. rewrite copy_in_val by lia. cbn [obind]. rewrite Z2Nat.id by lia. set (room := 64 - u) in *.
  destruct Ha' as [Hs _ _ (w & k & Em & Hk & Hx)]. fold u in Em. set (full := splice (c68k_sha256_buffer c) u (slice input 0 room)).
  assert (Ls : len (slice input 0 room) = room) by (rewrite slice_length; lia).
  assert (Lf : length full = 64%nat) by (unfold full; rewrite splice_length; lia).
  assert (Ef : full = take (Z.to_nat u) (c68k_sha256_buffer c) ++ slice input 0 room).
  { rewrite <- splice_prefix by lia. fold full. rewrite take_ge; [done|]. lia. }
  assert (Bf : bytes_ok full) by (apply splice_bytes; [done|by apply bytes_slice]).
  destruct (one_block _ full Hs Bf Lf) as (s' & -> & L' & Hx'). cbn [obind]. rewrite (u32_small (n - room)) by (unfold is_u32; lia).
  assert (Ha1 : absorbing (w ++ full) (set_held full 0 (set_state s' c))).
  { split; cbn [set_held set_state c68k_sha256_state c68k_sha256_used c68k_sha256_buffer]; [done|lia|done|]. exists (w ++ full), (k + 1).
    split; [by rewrite app_nil_r|]. split; [rewrite length_app; lia|]. intros x. by rewrite <- app_assoc, Hx, Hx'. }
  destruct (absorb_whole_val _ _ input room (n - room) Ha1 eq_refl Hi) as (c' & E & A & Eh & El); [lia..|]. exists c'. split; [exact E|]. apply (Done _ c' A Eh El).
  rewrite Em, Ef, <- !app_assoc. do 2 f_equal. replace n with (room + (n - room)) at 2 by lia. by rewrite slice_more by lia.
Qed.

(** ** The padding *)

Lemma be32_mod v : be32 (v mod 2 ^ 32) = be32 v.
Proof.
  unfold be32, u8. rewrite !Z.shiftr_div_pow2 by lia. pose proof (Z.div_mod v (2 ^ 32) ltac:(lia)) as M. set (q := v / 2 ^ 32) in *. set (x := v mod 2 ^ 32) in *.
  rewrite M. replace (2 ^ 32 * q + x) with (x + q * 2 ^ 8 * 2 ^ 24) by lia. rewrite Z.div_add by lia.
  replace (x + q * 2 ^ 8 * 2 ^ 24) with (x + q * 2 ^ 16 * 2 ^ 16) by lia. rewrite Z.div_add by lia.
  replace (x + q * 2 ^ 16 * 2 ^ 16) with (x + q * 2 ^ 24 * 2 ^ 8) by lia. rewrite Z.div_add by lia.
  replace (q * 2 ^ 16) with (q * 2 ^ 8 * 2 ^ 8) by lia. replace (q * 2 ^ 24) with (q * 2 ^ 16 * 2 ^ 8) by lia. by rewrite !Z.mod_add by lia.
Qed.

Lemma be32_ok v : bytes_ok (be32 v).
Proof. repeat constructor; apply u8_range. Qed.

Lemma store_next (m : list Z) (o a : Z) (i : list Z) x : 0 <= o -> a = o + len i -> a + 1 <= len m -> store8 (splice m o i) a x = Val (splice m o (i ++ [x])).
Proof. intros Ho -> Hm. rewrite store8_splice by (rewrite splice_length; lia). f_equal. apply splice_splice; [lia|]. simpl length. lia. Qed.

Lemma put_count_val hi lo buffer : length buffer = 64%nat -> put_count hi lo buffer = Val (take 56 buffer ++ be32 hi ++ be32 lo).
Proof.
  intros Lb. unfold put_count. rewrite <- (splice_empty buffer 56) at 1.
  do 7 (rewrite store_next by (simpl length; lia); cbn [obind app]). rewrite store_next by (simpl length; lia). f_equal. unfold splice.
  rewrite (drop_ge buffer) by (simpl length; lia). by rewrite app_nil_r.
Qed.

Lemma pad_blocks_val m ctx :
  hashed m ctx -> exists ctx', pad_blocks ctx = Val ctx' /\ c68k_sha256_state ctx' = hash initial_state (pad_message m).
Proof.
  intros Hh. apply hashed_split in Hh as ([Hs Hu [Lb Hb] (w & k & Em & Hk & Hx)] & Eb & Bh & Bl). unfold pad_blocks, C68K_SHA256_BLOCK_SIZE. cbv zeta.
  change (64 - 8) with 56. set (u := c68k_sha256_used ctx) in *. set (buf := c68k_sha256_buffer ctx) in *.
  set (count := be32 (c68k_sha256_bits_hi ctx) ++ be32 (c68k_sha256_bits_lo ctx)). set (t := take (Z.to_nat u) buf) in *.
  assert (Lt : len t = u) by (unfold t; rewrite length_take; lia).
  assert (Bt : bytes_ok t) by (by apply bytes_take).
  assert (Bc : bytes_ok count) by (apply Forall_app; split; apply be32_ok).
  assert (Ep : pad_message m = w ++ t ++ [0x80] ++ replicate (Z.to_nat ((55 - u) mod 64)) 0 ++ count).
  { unfold pad_message. rewrite Em at 1. rewrite <- app_assoc. do 4 f_equal.
    - f_equal. rewrite Em, length_app. replace (55 - Z.of_nat (length w + length t)) with (55 - u + (- k) * 64) by lia. rewrite Z.mod_add by lia. done.
    - unfold count. unfold bits in Eb. unfold is_u32 in *.
      assert (Eh : (8 * len m / 2 ^ 32) mod 2 ^ 32 = c68k_sha256_bits_hi ctx).
      { pose proof (Z.div_mod (8 * len m) (2 ^ 64) ltac:(lia)) as M. rewrite <- Eb in M. rewrite M.
        replace (2 ^ 64 * (8 * len m / 2 ^ 64) + (c68k_sha256_bits_hi ctx * 2 ^ 32 + c68k_sha256_bits_lo ctx))
          with (c68k_sha256_bits_lo ctx + (c68k_sha256_bits_hi ctx + 8 * len m / 2 ^ 64 * 2 ^ 32) * 2 ^ 32) by lia.
        rewrite Z.div_add, (Z.div_small (c68k_sha256_bits_lo ctx)), Z.add_0_l, Z.mod_add by lia. apply Z.mod_small. lia. }
      assert (El : (8 * len m) mod 2 ^ 32 = c68k_sha256_bits_lo ctx).
      { pose proof (Z.div_mod (8 * len m) (2 ^ 64) ltac:(lia)) as M. rewrite <- Eb in M. rewrite M.
        replace (2 ^ 64 * (8 * len m / 2 ^ 64) + (c68k_sha256_bits_hi ctx * 2 ^ 32 + c68k_sha256_bits_lo ctx))
          with (c68k_sha256_bits_lo ctx + (c68k_sha256_bits_hi ctx + 8 * len m / 2 ^ 64 * 2 ^ 32) * 2 ^ 32) by lia.
        rewrite Z.mod_add by lia. apply Z.mod_small. lia. }
      by rewrite <- (be32_mod (8 * len m / 2 ^ 32)), <- (be32_mod (8 * len m)), Eh, El. }
  rewrite store8_splice by lia. cbn [obind]. rewrite (u32_small (u + 1)) by (unfold is_u32; lia).
  assert (Lcount : length count = 8%nat) by done.
  (* The last block, from a buffer whose first 56 bytes are [a]. *)
  assert (Last : forall st b a, length st = 8%nat -> length b = 64%nat -> take 56 b = a -> bytes_ok a -> length a = 56%nat ->
    exists b' st', (let! buffer := put_count (c68k_sha256_bits_hi ctx) (c68k_sha256_bits_lo ctx) b in
      let! state := c68k_sha256_blocks st buffer 0 1 in Val (set_held buffer u (set_state state ctx))) = Val (set_held b' u (set_state st' ctx)) /\
      hash st (a ++ count) = st').
  { intros st b a Hst Lb' Ea Ba La. rewrite put_count_val by done. cbn [obind]. rewrite Ea. fold count.
    destruct (one_block st (a ++ count)) as (st' & -> & _ & Hst'); [done|by apply Forall_app|by rewrite length_app, La, Lcount|]. cbn [obind].
    eexists _, st'. split; [done|]. rewrite <- (app_nil_r (a ++ count)), Hst'. done. }
  destruct (56 <? u + 1) eqn:Eu.
  - apply Z.ltb_lt in Eu. rewrite zero_from_val by (rewrite ?splice_length; simpl length; lia). cbn [obind].
    rewrite (splice_splice buf u [128]) by (rewrite ?length_replicate; simpl length; lia).
    set (z := Z.to_nat (64 - (u + 1))). assert (Ef : splice buf u ([128] ++ replicate z 0) = t ++ [128] ++ replicate z 0).
    { unfold splice. rewrite drop_ge by (rewrite ?length_app, ?length_replicate; simpl length; lia). by rewrite app_nil_r. }
    rewrite Ef. set (f1 := t ++ [128] ++ replicate z 0). assert (Lf : length f1 = 64%nat) by (unfold f1; rewrite !length_app, length_replicate; simpl length; lia).
    destruct (one_block _ f1 Hs) as (s1 & -> & L1 & H1); [apply Forall_app; split; [done|]; apply Forall_app; split; [by repeat constructor|apply zeros_bytes]|done|]. cbn [obind].
    rewrite zero_from_val by (simpl length; lia). cbn [obind]. change (Z.to_nat (56 - 0)) with 56%nat.
    destruct (Last s1 (splice f1 0 (replicate 56 0)) (replicate 56 0)) as (b' & st' & E & Hst'); [done|rewrite splice_length; rewrite ?length_replicate; lia|done|apply zeros_bytes|done|].
    eexists. split; [exact E|]. cbn [set_held set_state c68k_sha256_state]. rewrite <- Hst', <- H1, Ep, <- Hx. f_equal. unfold f1.
    rewrite <- !app_assoc. do 3 f_equal. rewrite app_assoc, <- replicate_add. do 2 f_equal. rewrite <- (Z.mod_add _ 1) by lia. rewrite Z.mod_small by lia. lia.
  - apply Z.ltb_ge in Eu. cbn [obind]. rewrite zero_from_val by (rewrite ?splice_length; simpl length; lia). cbn [obind].
    rewrite (splice_splice buf u [128]) by (rewrite ?length_replicate; simpl length; lia). set (z := Z.to_nat (56 - (u + 1))).
    destruct (Last (c68k_sha256_state ctx) (splice buf u ([128] ++ replicate z 0)) (t ++ [128] ++ replicate z 0)) as (b' & st' & E & Hst');
      [done|rewrite splice_length; rewrite ?length_app, ?length_replicate; simpl length; lia|
       |apply Forall_app; split; [done|]; apply Forall_app; split; [by repeat constructor|apply zeros_bytes]|rewrite !length_app, length_replicate; simpl length; lia|].
    { replace 56%nat with (Z.to_nat (u + len ([128] ++ replicate z 0))) by (rewrite length_app, length_replicate; simpl length; lia).
      rewrite splice_prefix by (rewrite ?length_app, ?length_replicate; simpl length; lia). done. }
    eexists. split; [exact E|]. cbn [set_held set_state c68k_sha256_state]. rewrite <- Hst', Ep, <- Hx. f_equal. rewrite <- !app_assoc. do 5 f_equal.
    unfold z. rewrite Z.mod_small by lia. lia.
Qed.

(** ** The digest *)

Lemma put_digest_val state : forall digest p,
  0 <= p -> p + 4 * len state <= len digest -> put_digest state digest p = Val (splice digest p (concat (map be32 state))).
Proof.
  induction state as [|v state IH]; intros digest p Hp Hl; cbn [put_digest map concat length] in *; [by rewrite splice_empty|].
  rewrite <- (splice_empty digest p) at 1. do 4 (rewrite store_next by (simpl length; lia); cbn [obind app]).
  rewrite IH by (rewrite ?splice_length; simpl length; lia). f_equal. apply (splice_splice digest p (be32 v)); [lia|].
  assert (E : forall l, length (concat (map be32 l)) = (4 * length l)%nat).
  { intros l. induction l as [|x l IHl]; [done|]. cbn [map concat]. rewrite length_app, IHl. simpl length. lia. }
  rewrite E. simpl length. lia.
Qed.

Section api.
Context (NX_CRYPTO_SUCCESS NX_CRYPTO_PTR_ERROR : Z).

(** One call of [update] per piece; the codes they return. *)
Fixpoint feed (update : option C68K_SHA256 -> option (list Z) -> Z -> outcome (Z * option C68K_SHA256))
    (ctx : option C68K_SHA256) (pieces : list (list Z)) : outcome (list Z * option C68K_SHA256) :=
  match pieces with
  | [] => Val ([], ctx)
  | p :: pieces =>
      let! r := update ctx (Some p) (len p) in
      let '(code, ctx) := r in
      let! r := feed update ctx pieces in
      let '(codes, ctx) := r in
      Val (code :: codes, ctx)
  end.

Lemma feed_val pieces : forall m ctx,
  hashed m ctx -> Forall bytes_ok pieces -> Forall (fun p => len p < 2 ^ 32) pieces ->
  exists ctx', feed (c68k_sha256_update NX_CRYPTO_SUCCESS NX_CRYPTO_PTR_ERROR) (Some ctx) pieces =
      Val (map (fun _ => NX_CRYPTO_SUCCESS) pieces, Some ctx') /\ hashed (m ++ concat pieces) ctx'.
Proof.
  induction pieces as [|p pieces IH]; intros m ctx Hh Hb Hl; cbn [feed concat map]; [exists ctx; by rewrite app_nil_r|].
  apply Forall_cons in Hb as [Hb Hbs]. apply Forall_cons in Hl as [Hl Hls]. unfold c68k_sha256_update at 1.
  destruct (len p =? 0) eqn:E.
  - cbn [obind]. assert (p = []) as -> by (apply Z.eqb_eq in E; destruct p; simpl in E; [done|lia]).
    destruct (IH m ctx Hh Hbs Hls) as (c' & -> & Hc'). cbn [obind]. by exists c'.
  - apply Z.eqb_neq in E. destruct (absorb_input_val m ctx p (len p) Hh Hb) as (c1 & -> & H1); [lia..|]. cbn [obind]. rewrite slice_all in H1 by done.
    destruct (IH _ c1 H1 Hbs Hls) as (c' & -> & Hc'). cbn [obind]. exists c'. by rewrite app_assoc.
Qed.

Definition digest_pieces (ctx : C68K_SHA256) (algorithm : Z) (pieces : list (list Z)) (digest : list Z) : outcome (list Z * Z * option (list Z)) :=
  let '(code, ctx) := c68k_sha256_initialize NX_CRYPTO_SUCCESS NX_CRYPTO_PTR_ERROR (Some ctx) algorithm in
  let! r := feed (c68k_sha256_update NX_CRYPTO_SUCCESS NX_CRYPTO_PTR_ERROR) ctx pieces in
  let '(codes, ctx) := r in
  let! r := c68k_sha256_digest_calculate NX_CRYPTO_SUCCESS NX_CRYPTO_PTR_ERROR ctx (Some digest) algorithm in
  let '(last, _, digest) := r in
  Val (code :: codes, last, digest).

End api.

(** FIPS 180-4: "abcdbcdecdefdefgefghfghighijhijkijkljklmklmnlmnomnopnopq", 56 bytes, so that
    the padding takes a block of its own, in three pieces. *)
Definition ex_text : list Z :=
  [97; 98; 99; 100; 98; 99; 100; 101; 99; 100; 101; 102; 100; 101; 102; 103; 101; 102; 103; 104; 102; 103; 104; 105; 103; 104; 105; 106;
   104; 105; 106; 107; 105; 106; 107; 108; 106; 107; 108; 109; 107; 108; 109; 110; 108; 109; 110; 111; 109; 110; 111; 112; 110; 111; 112; 113].
Definition ex_digest : list Z :=
  [0x24; 0x8d; 0x6a; 0x61; 0xd2; 0x06; 0x38; 0xb8; 0xe5; 0xc0; 0x26; 0x93; 0x0c; 0x3e; 0x60; 0x39;
   0xa3; 0x3c; 0xe4; 0x59; 0x64; 0xff; 0x21; 0x67; 0xf6; 0xec; 0xed; 0xd4; 0x19; 0xdb; 0x06; 0xc1].

Lemma ex_digest_value : splice (replicate 32 0) 0 (sha256 (concat [take 7 ex_text; []; drop 7 ex_text])) = ex_digest.
Proof. vm_compute. reflexivity. Qed.

