(* ===== verification/Aes.v ===== *)
(** * AES (src/src/crypto68k/c68k_aes.c)

    The tables as they are built, the key schedule, the three portable round cores with
    their dispatch, the block and CBC entry points.  The tables start as the zeroes of
    the loader; the arrays of constant size are lists read at indices below it; memory
    is read and written with its bounds.  The result codes come from nx_crypto.h and are
    parameters; the assembly cores are arguments of the dispatch. *)

From Stdlib Require Import ZArith Lia.
From stdpp Require Import base numbers list.
From S2P Require Import Prelude Checksum Poly1305.
#[local] Open Scope Z_scope.

Definition C68K_AES_V_T4_C : Z := 0.
Definition C68K_AES_V_T1_C : Z := 1.
Definition C68K_AES_V_SBOX_C : Z := 2.
Definition C68K_AES_V_T4_ASM : Z := 3.
Definition C68K_AES_V_T1_ASM : Z := 4.

Record C68K_AES := AesCtx {
  c68k_aes_ek : list Z;
  c68k_aes_dk : list Z;
  c68k_aes_rounds : Z
}.

(** The shared tables. *)
Record AES_TABLES := AesTables {
  c68k_aes_te : list (list Z);
  c68k_aes_td : list (list Z);
  c68k_aes_sbox : list Z;
  c68k_aes_isbox : list Z;
  c68k_aes_tables_ready : Z
}.

(** ** Tables *)

(** [i] turns left, the accumulator [r]. *)
Fixpoint gf_mul_loop (i : nat) (r a b : Z) : Z :=
  match i with
  | O => r
  | S i =>
      let r := if negb (Z.land b 1 =? 0) then u8 (Z.lxor r a) else r in
      let b := u8 (Z.shiftr b 1) in
      let a := if negb (Z.land a 0x80 =? 0) then u8 (Z.lxor (u8 (Z.shiftl a 1)) 0x1B) else u8 (Z.shiftl a 1) in
      gf_mul_loop i r a b
  end.
Definition c68k_gf_mul (a b : Z) : Z := gf_mul_loop 8 0 a b.

Definition c68k_ror32 (v n : Z) : Z := Z.land (Z.lor (Z.shiftr v n) (v <<w (32 - n))) 0xFFFFFFFF.

(** The power and log tables, [n] turns from [i] on. *)
Fixpoint power_loop (n : nat) (i : nat) (x : Z) (pow_tab log_tab : list Z) : list Z * list Z :=
  match n with
  | O => (pow_tab, log_tab)
  | S n => power_loop n (S i) (c68k_gf_mul x 3) (<[i := x]> pow_tab) (<[Z.to_nat x := Z.of_nat i]> log_tab)
  end.

Definition affine (inv : Z) : Z :=
  let s := u8 (Z.lxor inv 0x63) in
  let s := u8 (Z.lxor s (u8 (Z.lor (Z.shiftl inv 1) (Z.shiftr inv 7)))) in
  let s := u8 (Z.lxor s (u8 (Z.lor (Z.shiftl inv 2) (Z.shiftr inv 6)))) in
  let s := u8 (Z.lxor s (u8 (Z.lor (Z.shiftl inv 3) (Z.shiftr inv 5)))) in
  u8 (Z.lxor s (u8 (Z.lor (Z.shiftl inv 4) (Z.shiftr inv 4)))).

Fixpoint sbox_loop (n : nat) (i : nat) (pow_tab log_tab : list Z) (sbox isbox : list Z) : list Z * list Z :=
  match n with
  | O => (sbox, isbox)
  | S n =>
      let inv := if (i =? 0)%nat then 0 else pow_tab !!! Z.to_nat (255 - (log_tab !!! i)) in
      let s := affine inv in
      sbox_loop n (S i) pow_tab log_tab (<[i := s]> sbox) (<[Z.to_nat s := Z.of_nat i]> isbox)
  end.

(** Four bytes of a word, most significant first. *)
Definition join4 (b0 b1 b2 b3 : Z) : Z := Z.lor (Z.lor (Z.lor (b0 <<w 24) (b1 <<w 16)) (b2 <<w 8)) b3.

(** Entry [i] of the four tables of a direction. *)
Definition set4 (i : nat) (w : Z) (t : list (list Z)) : list (list Z) :=
  [<[i := w]> (t !!! 0%nat); <[i := c68k_ror32 w 8]> (t !!! 1%nat); <[i := c68k_ror32 w 16]> (t !!! 2%nat); <[i := c68k_ror32 w 24]> (t !!! 3%nat)].

Fixpoint table_loop (n : nat) (i : nat) (sbox isbox : list Z) (te td : list (list Z)) : list (list Z) * list (list Z) :=
  match n with
  | O => (te, td)
  | S n =>
      let s := sbox !!! i in
      let te := set4 i (join4 (c68k_gf_mul s 2) s s (c68k_gf_mul s 3)) te in
      let s := isbox !!! i in
      let td := set4 i (join4 (c68k_gf_mul s 14) (c68k_gf_mul s 9) (c68k_gf_mul s 13) (c68k_gf_mul s 11)) td in
      table_loop n (S i) sbox isbox te td
  end.

(** Entry zero of the log table is never written, and never read. *)
Definition c68k_aes_tables_init (t : AES_TABLES) : AES_TABLES :=
  if negb (c68k_aes_tables_ready t =? 0) then t
  else
    let '(pow_tab, log_tab) := power_loop 256 0 1 (replicate 256 0) (replicate 256 0) in
    let '(sbox, isbox) := sbox_loop 256 0 pow_tab log_tab (c68k_aes_sbox t) (c68k_aes_isbox t) in
    let '(te, td) := table_loop 256 0 sbox isbox (c68k_aes_te t) (c68k_aes_td t) in
    AesTables te td sbox isbox 1.

(** What the loader leaves. *)
Definition tables0 : AES_TABLES := AesTables (replicate 4 (replicate 256 0)) (replicate 4 (replicate 256 0)) (replicate 256 0) (replicate 256 0) 0.

(** ** Key schedule *)

Definition c68k_aes_rcon : list Z := [0x00; 0x01; 0x02; 0x04; 0x08; 0x10; 0x20; 0x40; 0x80; 0x1B; 0x36].

Definition c68k_aes_load_be (m : list Z) (p : Z) : outcome Z :=
  let! b0 := fetch m p in
  let! b1 := fetch m (p + 1) in
  let! b2 := fetch m (p + 2) in
  let! b3 := fetch m (p + 3) in
  Val (join4 b0 b1 b2 b3).

Definition c68k_aes_store_be (m : list Z) (p v : Z) : outcome (list Z) :=
  let! m := store8 m p (u8 (Z.shiftr v 24)) in
  let! m := store8 m (p + 1) (u8 (Z.shiftr v 16)) in
  let! m := store8 m (p + 2) (u8 (Z.shiftr v 8)) in
  store8 m (p + 3) (u8 v).

Definition B0 (x : Z) : Z := Z.shiftr x 24.
Definition B1 (x : Z) : Z := Z.land (Z.shiftr x 16) 0xFF.
Definition B2 (x : Z) : Z := Z.land (Z.shiftr x 8) 0xFF.
Definition B3 (x : Z) : Z := Z.land x 0xFF.

(** A byte table at an index. *)
Definition at_ (tab : list Z) (i : Z) : Z := tab !!! Z.to_nat i.

Section tables.
Context (T : AES_TABLES).

Definition c68k_aes_subword (w : Z) : Z :=
  let s := c68k_aes_sbox T in
  join4 (at_ s (Z.land (Z.shiftr w 24) 0xFF)) (at_ s (Z.land (Z.shiftr w 16) 0xFF)) (at_ s (Z.land (Z.shiftr w 8) 0xFF)) (at_ s (Z.land w 0xFF)).

Definition c68k_aes_invmix (w : Z) : Z :=
  let a0 := u8 (Z.shiftr w 24) in
  let a1 := u8 (Z.shiftr w 16) in
  let a2 := u8 (Z.shiftr w 8) in
  let a3 := u8 w in
  let x4 a b c d := u8 (Z.lxor (Z.lxor (Z.lxor a b) c) d) in
  join4 (x4 (c68k_gf_mul a0 14) (c68k_gf_mul a1 11) (c68k_gf_mul a2 13) (c68k_gf_mul a3 9))
        (x4 (c68k_gf_mul a0 9) (c68k_gf_mul a1 14) (c68k_gf_mul a2 11) (c68k_gf_mul a3 13))
        (x4 (c68k_gf_mul a0 13) (c68k_gf_mul a1 9) (c68k_gf_mul a2 14) (c68k_gf_mul a3 11))
        (x4 (c68k_gf_mul a0 11) (c68k_gf_mul a1 13) (c68k_gf_mul a2 9) (c68k_gf_mul a3 14)).

(** [n] words of the key, from word [i] on. *)
Fixpoint load_key (n : nat) (i : nat) (key : list Z) (ek : list Z) : outcome (list Z) :=
  match n with
  | O => Val ek
  | S n => let! w := c68k_aes_load_be key (Z.of_nat i * 4) in load_key n (S i) key (<[i := w]> ek)
  end.

(** [n] words of the expansion, from word [i] on. *)
Fixpoint expand_key (n : nat) (i nk : nat) (ek : list Z) : list Z :=
  match n with
  | O => ek
  | S n =>
      let temp := ek !!! (i - 1)%nat in
      let temp :=
        if (i mod nk =? 0)%nat then
          Z.lxor (c68k_aes_subword (Z.lor (temp <<w 8) (Z.shiftr temp 24))) ((c68k_aes_rcon !!! (i / nk)%nat) <<w 24)
        else if (6 <? nk)%nat && (i mod nk =? 4)%nat then c68k_aes_subword temp
        else temp in
      expand_key n (S i) nk (<[i := Z.lxor (ek !!! (i - nk)%nat) temp]> ek)
  end.

(** Round [r] of the decryption keys, the rounds reversed; [n] of them. *)
Fixpoint reverse_keys (n : nat) (r nr : nat) (ek dk : list Z) : list Z :=
  match n with
  | O => dk
  | S n =>
      let copy (j : nat) (dk : list Z) := <[(4 * r + j)%nat := ek !!! (4 * (nr - r) + j)%nat]> dk in
      reverse_keys n (S r) nr ek (copy 3%nat (copy 2%nat (copy 1%nat (copy 0%nat dk))))
  end.

Fixpoint invmix_keys (n : nat) (r : nat) (dk : list Z) : list Z :=
  match n with
  | O => dk
  | S n =>
      let mix (j : nat) (dk : list Z) := <[(4 * r + j)%nat := c68k_aes_invmix (dk !!! (4 * r + j)%nat)]> dk in
      invmix_keys n (S r) (mix 3%nat (mix 2%nat (mix 1%nat (mix 0%nat dk))))
  end.

(** The schedules for a key of [nk] words. *)
Definition key_schedules (aes : C68K_AES) (key : list Z) (nk : nat) : outcome C68K_AES :=
  let nr := (nk + 6)%nat in
  let! ek := load_key nk 0 key (c68k_aes_ek aes) in
  let ek := expand_key (4 * (nr + 1) - nk) nk nk ek in
  let dk := reverse_keys (nr + 1) 0 nr ek (c68k_aes_dk aes) in
  let dk := invmix_keys (nr - 1) 1 dk in
  Val (AesCtx ek dk (Z.of_nat nr)).

(** ** The round cores: keys, rounds, state *)

(** Key word [j] of round [r]. *)
Definition rk_at (rk : list Z) (r : nat) (j : nat) : Z := rk !!! (4 * r + j)%nat.

Definition xor_key (rk : list Z) (r : nat) (st : quad) : quad :=
  Quad (Z.lxor (q0 st) (rk_at rk r 0)) (Z.lxor (q1 st) (rk_at rk r 1)) (Z.lxor (q2 st) (rk_at rk r 2)) (Z.lxor (q3 st) (rk_at rk r 3)).

(** [n] rounds from round [r] on. *)
Fixpoint core_rounds (round : list Z -> nat -> quad -> quad) (n r : nat) (rk : list Z) (s : quad) : quad :=
  match n with O => s | S n => core_rounds round n (S r) rk (round rk r s) end.

(** The last round: a byte table over the bytes of four words, in the order of the direction. *)
Definition sub_bytes (tab : list Z) (a b c d : Z) : Z := join4 (at_ tab (B0 a)) (at_ tab (B1 b)) (at_ tab (B2 c)) (at_ tab (B3 d)).
Definition enc_bytes (s : quad) : quad :=
  let f := sub_bytes (c68k_aes_sbox T) in
  Quad (f (q0 s) (q1 s) (q2 s) (q3 s)) (f (q1 s) (q2 s) (q3 s) (q0 s)) (f (q2 s) (q3 s) (q0 s) (q1 s)) (f (q3 s) (q0 s) (q1 s) (q2 s)).
Definition dec_bytes (s : quad) : quad :=
  let f := sub_bytes (c68k_aes_isbox T) in
  Quad (f (q0 s) (q3 s) (q2 s) (q1 s)) (f (q1 s) (q0 s) (q3 s) (q2 s)) (f (q2 s) (q1 s) (q0 s) (q3 s)) (f (q3 s) (q2 s) (q1 s) (q0 s)).

Definition core (round : list Z -> nat -> quad -> quad) (last : quad -> quad) (rk : list Z) (nr : nat) (st : quad) : quad :=
  let s := core_rounds round (nr - 1) 1 rk (xor_key rk 0 st) in
  xor_key rk nr (last s).

(** Four tables. *)
Definition t4 (t : list (list Z)) (a b c d : Z) : Z :=
  Z.lxor (Z.lxor (Z.lxor (at_ (t !!! 0%nat) (B0 a)) (at_ (t !!! 1%nat) (B1 b))) (at_ (t !!! 2%nat) (B2 c))) (at_ (t !!! 3%nat) (B3 d)).
Definition enc_round_t4 (rk : list Z) (r : nat) (s : quad) : quad :=
  let f := t4 (c68k_aes_te T) in
  xor_key rk r (Quad (f (q0 s) (q1 s) (q2 s) (q3 s)) (f (q1 s) (q2 s) (q3 s) (q0 s)) (f (q2 s) (q3 s) (q0 s) (q1 s)) (f (q3 s) (q0 s) (q1 s) (q2 s))).
Definition dec_round_t4 (rk : list Z) (r : nat) (s : quad) : quad :=
  let f := t4 (c68k_aes_td T) in
  xor_key rk r (Quad (f (q0 s) (q3 s) (q2 s) (q1 s)) (f (q1 s) (q0 s) (q3 s) (q2 s)) (f (q2 s) (q1 s) (q0 s) (q3 s)) (f (q3 s) (q2 s) (q1 s) (q0 s))).
Definition c68k_aes_enc_t4 : list Z -> nat -> quad -> quad := core enc_round_t4 enc_bytes.
Definition c68k_aes_dec_t4 : list Z -> nat -> quad -> quad := core dec_round_t4 dec_bytes.

(** One table and rotations. *)
Definition ROR8 (v : Z) : Z := Z.lor (Z.shiftr v 8) (v <<w 24).
Definition ROR16 (v : Z) : Z := Z.lor (Z.shiftr v 16) (v <<w 16).
Definition ROR24 (v : Z) : Z := Z.lor (Z.shiftr v 24) (v <<w 8).
Definition t1 (t : list Z) (a b c d : Z) : Z :=
  Z.lxor (Z.lxor (Z.lxor (at_ t (B0 a)) (ROR8 (at_ t (B1 b)))) (ROR16 (at_ t (B2 c)))) (ROR24 (at_ t (B3 d))).
Definition enc_round_t1 (rk : list Z) (r : nat) (s : quad) : quad :=
  let f := t1 (c68k_aes_te T !!! 0%nat) in
  xor_key rk r (Quad (f (q0 s) (q1 s) (q2 s) (q3 s)) (f (q1 s) (q2 s) (q3 s) (q0 s)) (f (q2 s) (q3 s) (q0 s) (q1 s)) (f (q3 s) (q0 s) (q1 s) (q2 s))).
Definition dec_round_t1 (rk : list Z) (r : nat) (s : quad) : quad :=
  let f := t1 (c68k_aes_td T !!! 0%nat) in
  xor_key rk r (Quad (f (q0 s) (q3 s) (q2 s) (q1 s)) (f (q1 s) (q0 s) (q3 s) (q2 s)) (f (q2 s) (q1 s) (q0 s) (q3 s)) (f (q3 s) (q2 s) (q1 s) (q0 s))).
Definition c68k_aes_enc_t1 : list Z -> nat -> quad -> quad := core enc_round_t1 enc_bytes.
Definition c68k_aes_dec_t1 : list Z -> nat -> quad -> quad := core dec_round_t1 dec_bytes.

(** The byte tables, the columns mixed word-parallel. *)
Definition ROL8 (v : Z) : Z := Z.lor (v <<w 8) (Z.shiftr v 24).
Definition ROL16 (v : Z) : Z := Z.lor (v <<w 16) (Z.shiftr v 16).
Definition c68k_aes_xtime32 (w : Z) : Z :=
  let m := Z.shiftr (Z.land w 0x80808080) 7 in
  Z.land (Z.lxor (Z.land w 0x7F7F7F7F <<w 1) (Z.lxor (Z.lxor (Z.lxor m (m <<w 1)) (m <<w 3)) (m <<w 4))) 0xFFFFFFFF.
Definition c68k_aes_mixcolumn (w : Z) : Z :=
  let u := Z.lxor w (ROL8 w) in
  let t := Z.lxor u (ROL16 u) in
  Z.lxor (Z.lxor w t) (c68k_aes_xtime32 u).
Definition c68k_aes_invmixcolumn (w : Z) : Z :=
  let u := c68k_aes_xtime32 (c68k_aes_xtime32 (Z.lxor w (ROL16 w))) in
  let v := Z.lxor w u in
  c68k_aes_mixcolumn v.
Definition map_columns (f : Z -> Z) (s : quad) : quad := Quad (f (q0 s)) (f (q1 s)) (f (q2 s)) (f (q3 s)).
Definition enc_round_sbox (rk : list Z) (r : nat) (s : quad) : quad := xor_key rk r (map_columns c68k_aes_mixcolumn (enc_bytes s)).
Definition dec_round_sbox (rk : list Z) (r : nat) (s : quad) : quad := xor_key rk r (map_columns c68k_aes_invmixcolumn (dec_bytes s)).
Definition c68k_aes_enc_sbox : list Z -> nat -> quad -> quad := core enc_round_sbox enc_bytes.
Definition c68k_aes_dec_sbox : list Z -> nat -> quad -> quad := core dec_round_sbox dec_bytes.

(** ** The entry points *)

(** The assembly cores, in a build that has them. *)
Record ASM_CORES := AsmCores { core_t4_asm : list Z -> nat -> quad -> quad; core_t1_asm : list Z -> nat -> quad -> quad }.

Section entry.
Context (c68k_aes_variant : Z) (enc_asm dec_asm : option ASM_CORES).

Definition c68k_aes_enc_dispatch (rk : list Z) (nr : nat) (st : quad) : quad :=
  let portable :=
    if c68k_aes_variant =? C68K_AES_V_T1_C then c68k_aes_enc_t1 rk nr st
    else if c68k_aes_variant =? C68K_AES_V_SBOX_C then c68k_aes_enc_sbox rk nr st
    else c68k_aes_enc_t4 rk nr st in
  match enc_asm with
  | None => portable
  | Some asm =>
      if c68k_aes_variant =? C68K_AES_V_T4_ASM then core_t4_asm asm rk nr st
      else if c68k_aes_variant =? C68K_AES_V_T1_ASM then core_t1_asm asm rk nr st
      else portable
  end.

Definition c68k_aes_dec_dispatch (rk : list Z) (nr : nat) (st : quad) : quad :=
  let portable :=
    if c68k_aes_variant =? C68K_AES_V_T1_C then c68k_aes_dec_t1 rk nr st
    else if c68k_aes_variant =? C68K_AES_V_SBOX_C then c68k_aes_dec_sbox rk nr st
    else c68k_aes_dec_t4 rk nr st in
  match dec_asm with
  | None => portable
  | Some asm =>
      if c68k_aes_variant =? C68K_AES_V_T4_ASM then core_t4_asm asm rk nr st
      else if c68k_aes_variant =? C68K_AES_V_T1_ASM then core_t1_asm asm rk nr st
      else portable
  end.

Definition load_state (m : list Z) (p : Z) : outcome quad :=
  let! a := c68k_aes_load_be m p in
  let! b := c68k_aes_load_be m (p + 4) in
  let! c := c68k_aes_load_be m (p + 8) in
  let! d := c68k_aes_load_be m (p + 12) in
  Val (Quad a b c d).

Definition store_state (m : list Z) (p : Z) (st : quad) : outcome (list Z) :=
  let! m := c68k_aes_store_be m p (q0 st) in
  let! m := c68k_aes_store_be m (p + 4) (q1 st) in
  let! m := c68k_aes_store_be m (p + 8) (q2 st) in
  c68k_aes_store_be m (p + 12) (q3 st).

Definition xor_quad (a b : quad) : quad := Quad (Z.lxor (q0 a) (q0 b)) (Z.lxor (q1 a) (q1 b)) (Z.lxor (q2 a) (q2 b)) (Z.lxor (q3 a) (q3 b)).

Definition c68k_aes_encrypt_block (aes : C68K_AES) (mem : list Z) (in_ out : Z) : outcome (list Z) :=
  let! st := load_state mem in_ in
  store_state mem out (c68k_aes_enc_dispatch (c68k_aes_ek aes) (Z.to_nat (c68k_aes_rounds aes)) st).

Definition c68k_aes_decrypt_block (aes : C68K_AES) (mem : list Z) (in_ out : Z) : outcome (list Z) :=
  let! st := load_state mem in_ in
  store_state mem out (c68k_aes_dec_dispatch (c68k_aes_dk aes) (Z.to_nat (c68k_aes_rounds aes)) st).

(** The blocks left, the chaining value in the state. *)
Fixpoint cbc_enc_loop (enc : quad -> quad) (n : nat) (st : quad) (mem : list Z) (in_ out : Z) : outcome (quad * list Z) :=
  match n with
  | O => Val (st, mem)
  | S n =>
      let! p := load_state mem in_ in
      let st := enc (xor_quad st p) in
      let! mem := store_state mem out st in
      cbc_enc_loop enc n st mem (in_ + 16) (out + 16)
  end.

Fixpoint cbc_dec_loop (dec : quad -> quad) (n : nat) (p : quad) (mem : list Z) (in_ out : Z) : outcome (quad * list Z) :=
  match n with
  | O => Val (p, mem)
  | S n =>
      let! c := load_state mem in_ in
      let! mem := store_state mem out (xor_quad (dec c) p) in
      cbc_dec_loop dec n c mem (in_ + 16) (out + 16)
  end.

Definition c68k_aes_cbc_encrypt (aes : C68K_AES) (iv mem : list Z) (in_ out blocks : Z) : outcome (list Z * list Z) :=
  let! st := load_state iv 0 in
  let! r := cbc_enc_loop (c68k_aes_enc_dispatch (c68k_aes_ek aes) (Z.to_nat (c68k_aes_rounds aes))) (Z.to_nat blocks) st mem in_ out in
  let '(st, mem) := r in
  let! iv := (if negb (blocks =? 0) then store_state iv 0 st else Val iv) in
  Val (iv, mem).

Definition c68k_aes_cbc_decrypt (aes : C68K_AES) (iv mem : list Z) (in_ out blocks : Z) : outcome (list Z * list Z) :=
  let! p := load_state iv 0 in
  let! r := cbc_dec_loop (c68k_aes_dec_dispatch (c68k_aes_dk aes) (Z.to_nat (c68k_aes_rounds aes))) (Z.to_nat blocks) p mem in_ out in
  let '(p, mem) := r in
  let! iv := (if negb (blocks =? 0) then store_state iv 0 p else Val iv) in
  Val (iv, mem).
End entry.
End tables.

(** The key, with the tables it may build. *)
Definition c68k_aes_key_set (NX_CRYPTO_SUCCESS NX_CRYPTO_PTR_ERROR NX_CRYPTO_INVALID_PARAMETER : Z)
    (T : AES_TABLES) (aes : option C68K_AES) (key : option (list Z)) (key_bits : Z) : outcome (Z * AES_TABLES * option C68K_AES) :=
  match aes, key with
  | Some a, Some key =>
      if negb (key_bits =? 128) && negb (key_bits =? 192) && negb (key_bits =? 256) then Val (NX_CRYPTO_INVALID_PARAMETER, T, Some a)
      else
        let T := c68k_aes_tables_init T in
        let! a := key_schedules T a key (Z.to_nat (Z.shiftr key_bits 5)) in
        Val (NX_CRYPTO_SUCCESS, T, Some a)
  | _, _ => Val (NX_CRYPTO_PTR_ERROR, T, aes)
  end.
