(* ===== verification/AesTables.v ===== *)
(** * The word arithmetic of AES

    The column mixes are linear over exclusive or, so two of them agree when they agree
    on thirty-two single bits; the table entries are checked for every byte. *)

From Stdlib Require Import ZArith Lia.
From stdpp Require Import base numbers list.
From S2P Require Import Prelude Checksum Poly1305 Aes.

#[local] Open Scope Z_scope.

Create HintDb aes.

(** ** Linear functions *)

Definition linear (f : Z -> Z) : Prop := forall a b, f (Z.lxor a b) = Z.lxor (f a) (f b).

Lemma linear_id : linear (fun x => x).
Proof. by intros a b. Qed.
Lemma linear_xor f g : linear f -> linear g -> linear (fun x => Z.lxor (f x) (g x)).
Proof.
  intros Hf Hg a b. rewrite Hf, Hg. rewrite !Z.lxor_assoc. f_equal. rewrite <- !Z.lxor_assoc. f_equal. apply Z.lxor_comm.
Qed.
Lemma linear_comp f g : linear f -> linear g -> linear (fun x => f (g x)).
Proof. intros Hf Hg a b. by rewrite Hg, Hf. Qed.
Lemma linear_land m : linear (fun x => Z.land x m).
Proof. intros a b. apply Z.bits_inj'. intros n _. rewrite Z.lxor_spec, !Z.land_spec, Z.lxor_spec. by destruct (Z.testbit a n), (Z.testbit b n), (Z.testbit m n). Qed.
Lemma linear_shl k : linear (fun x => x <<w k).
Proof.
  intros a b. unfold u32. rewrite <- !Z.land_ones by lia. rewrite Z.shiftl_lxor. exact (linear_land (Z.ones 32) _ _).
Qed.
Lemma linear_shr k : linear (fun x => Z.shiftr x k).
Proof. intros a b. apply Z.shiftr_lxor. Qed.

Lemma linear_zero f : linear f -> f 0 = 0.
Proof. intros Hf. pose proof (Hf 0 0) as E. by rewrite Z.lxor_nilpotent, Z.lxor_nilpotent in E. Qed.

(** Agreement on the bits is agreement on the words. *)
Lemma linear_ext f g n : linear f -> linear g -> (forall i, (i < n)%nat -> f (2 ^ Z.of_nat i) = g (2 ^ Z.of_nat i)) -> forall w, 0 <= w < 2 ^ Z.of_nat n -> f w = g w.
Proof.
  intros Hf Hg. induction n as [|n IH]; intros Hb w Hw.
  { replace w with 0 by (simpl in Hw; lia). by rewrite !linear_zero. }
  assert (E : w = Z.lxor (w mod 2 ^ Z.of_nat n) (if Z.testbit w (Z.of_nat n) then 2 ^ Z.of_nat n else 0)).
  { apply Z.bits_inj'. intros k Hk. rewrite Z.lxor_spec. destruct (Z.eq_dec k (Z.of_nat n)) as [->|Hne].
    - rewrite Z.mod_pow2_bits_high, xorb_false_l by lia. destruct (Z.testbit w (Z.of_nat n)); [by rewrite Z.pow2_bits_true by lia|by rewrite Z.bits_0].
    - assert (F : Z.testbit (if Z.testbit w (Z.of_nat n) then 2 ^ Z.of_nat n else 0) k = false).
      { destruct (Z.testbit w (Z.of_nat n)); [by apply Z.pow2_bits_false; lia|apply Z.bits_0]. }
      rewrite F, xorb_false_r. destruct (Z_lt_dec k (Z.of_nat n)) as [Hlt|Hge]; [by rewrite Z.mod_pow2_bits_low by lia|].
      rewrite Z.mod_pow2_bits_high by lia. rewrite Nat2Z.inj_succ in Hw. rewrite <- (Z.mod_small w (2 ^ Z.succ (Z.of_nat n))) by lia. by rewrite Z.mod_pow2_bits_high by lia. }
  rewrite E, Hf, Hg. pose proof (Z.mod_pos_bound w (2 ^ Z.of_nat n) ltac:(lia)) as R. f_equal; [apply IH; [|done]; intros; apply Hb; lia|].
  destruct (Z.testbit w (Z.of_nat n)); [apply Hb; lia|by rewrite !linear_zero].
Qed.

Lemma linear_bits f g : linear f -> linear g -> forallb (fun i => f (2 ^ Z.of_nat i) =? g (2 ^ Z.of_nat i)) (List.seq 0 32) = true -> forall w, is_u32 w -> f w = g w.
Proof.
  intros Hf Hg Hb w Hw. apply (linear_ext f g 32 Hf Hg); [|exact Hw]. intros i Hi. rewrite List.forallb_forall in Hb.
  apply Z.eqb_eq, (Hb i). apply List.in_seq. lia.
Qed.

(** ** The rotations and the mixes *)

(** Words without a common bit. *)
Lemma lor_lxor a b : Z.land a b = 0 -> Z.lor a b = Z.lxor a b.
Proof. intros E. symmetry. by apply Z.lxor_lor. Qed.

Lemma shl_low x k n : 0 <= k -> 0 <= n < k -> Z.testbit (x <<w k) n = false.
Proof. intros Hk Hn. unfold u32. destruct (Z_lt_dec n 32); [rewrite Z.mod_pow2_bits_low by lia; apply Z.shiftl_spec_low; lia|by apply Z.mod_pow2_bits_high; lia]. Qed.

Lemma bits_above b k n : 0 <= b < 2 ^ k -> 0 <= k <= n -> Z.testbit b n = false.
Proof. intros Hb Hn. rewrite <- (Z.mod_small b (2 ^ k)) by lia. apply Z.mod_pow2_bits_high. lia. Qed.

Lemma disjoint_low x k b : 0 <= k -> 0 <= b < 2 ^ k -> Z.land (x <<w k) b = 0.
Proof.
  intros Hk Hb. apply Z.bits_inj'. intros n Hn. rewrite Z.land_spec, Z.bits_0. destruct (Z_lt_dec n k).
  - by rewrite shl_low by lia.
  - by rewrite (bits_above b k n), andb_false_r by lia.
Qed.

Lemma rotation_xor v k j : 0 <= k -> 0 <= j -> k + j = 32 -> is_u32 v -> Z.lor (v <<w k) (Z.shiftr v j) = Z.lxor (v <<w k) (Z.shiftr v j).
Proof.
  intros Hk Hj E Hv. apply lor_lxor, disjoint_low; [lia|]. rewrite Z.shiftr_div_pow2 by lia. unfold is_u32 in Hv. split; [apply Z.div_pos; lia|].
  apply Z.div_lt_upper_bound; [lia|]. rewrite <- Z.pow_add_r by lia. replace (j + k) with 32 by lia. lia.
Qed.

Lemma is_u32_land v : is_u32 v <-> Z.land v (Z.ones 32) = v.
Proof.
  rewrite Z.land_ones by lia. unfold is_u32. split; [intros H; by apply Z.mod_small|]. intros <-. apply Z.mod_pos_bound. lia.
Qed.

Lemma xor_u32 a b : is_u32 a -> is_u32 b -> is_u32 (Z.lxor a b).
Proof. rewrite !is_u32_land. intros Ha Hb. rewrite (linear_land (Z.ones 32) a b). by rewrite Ha, Hb. Qed.

(** The linear forms. *)
Definition rotl (k : Z) (v : Z) : Z := Z.lxor (v <<w k) (Z.shiftr v (32 - k)).
Definition mix_lin (w : Z) : Z :=
  let u := Z.lxor w (rotl 8 w) in Z.lxor (Z.lxor w (Z.lxor u (rotl 16 u))) (c68k_aes_xtime32 u).
Definition invmix_lin (w : Z) : Z := mix_lin (Z.lxor w (c68k_aes_xtime32 (c68k_aes_xtime32 (Z.lxor w (rotl 16 w))))).

Lemma rotl_linear k : linear (rotl k).
Proof. apply (linear_xor (fun v => v <<w k) (fun v => Z.shiftr v (32 - k))); [apply linear_shl|apply linear_shr]. Qed.

Lemma xtime_linear : linear c68k_aes_xtime32.
Proof.
  set (m := fun w => Z.shiftr (Z.land w 0x80808080) 7).
  assert (Hm : linear m) by (apply (linear_comp (fun x => Z.shiftr x 7)); [apply linear_shr|apply linear_land]).
  change c68k_aes_xtime32 with (fun w => Z.land (Z.lxor (Z.land w 0x7F7F7F7F <<w 1) (Z.lxor (Z.lxor (Z.lxor (m w) (m w <<w 1)) (m w <<w 3)) (m w <<w 4))) 0xFFFFFFFF).
  apply (linear_comp (fun x => Z.land x 0xFFFFFFFF)); [apply linear_land|].
  apply linear_xor; [apply (linear_comp (fun x => x <<w 1)); [apply linear_shl|apply linear_land]|].
  repeat apply linear_xor; [exact Hm|by apply (linear_comp (fun x => x <<w _)); [apply linear_shl|]..].
Qed.

Lemma mix_linear : linear mix_lin.
Proof.
  set (u := fun w => Z.lxor w (rotl 8 w)). assert (Hu : linear u) by (apply linear_xor; [apply linear_id|apply rotl_linear]).
  change mix_lin with (fun w => Z.lxor (Z.lxor w (Z.lxor (u w) (rotl 16 (u w)))) (c68k_aes_xtime32 (u w))).
  apply linear_xor; [apply linear_xor; [apply linear_id|]|apply linear_comp; [apply xtime_linear|done]].
  apply linear_xor; [done|]. apply linear_comp; [apply rotl_linear|done].
Qed.

Lemma invmix_linear : linear invmix_lin.
Proof.
  apply (linear_comp mix_lin); [apply mix_linear|]. apply linear_xor; [apply linear_id|].
  apply (linear_comp c68k_aes_xtime32); [apply xtime_linear|]. apply (linear_comp c68k_aes_xtime32); [apply xtime_linear|].
  apply linear_xor; [apply linear_id|apply rotl_linear].
Qed.

Lemma rotl_u32 k v : 0 <= k <= 32 -> is_u32 v -> is_u32 (rotl k v).
Proof. intros Hk Hv. apply xor_u32; [apply u32_range|]. apply u32_shiftr; [done|lia]. Qed.

Lemma xtime_u32 w : is_u32 (c68k_aes_xtime32 w).
Proof. unfold c68k_aes_xtime32. change 0xFFFFFFFF with (Z.ones 32). rewrite Z.land_ones by lia. apply u32_range. Qed.

Lemma mixcolumn_lin w : is_u32 w -> c68k_aes_mixcolumn w = mix_lin w /\ is_u32 (mix_lin w).
Proof.
  intros Hw. unfold c68k_aes_mixcolumn, mix_lin, ROL8, ROL16. cbv zeta. rewrite (rotation_xor w 8 24) by (done || lia). change (Z.lxor (w <<w 8) (Z.shiftr w 24)) with (rotl 8 w).
  pose proof (rotl_u32 8 w ltac:(lia) Hw) as R8. set (u := Z.lxor w (rotl 8 w)). assert (Hu : is_u32 u) by by apply xor_u32.
  rewrite (rotation_xor u 16 16) by (done || lia). change (Z.lxor (u <<w 16) (Z.shiftr u 16)) with (rotl 16 u). split; [done|].
  apply xor_u32; [|apply xtime_u32]. apply xor_u32; [done|]. apply xor_u32; [done|]. by apply rotl_u32.
Qed.

Lemma invmixcolumn_lin w : is_u32 w -> c68k_aes_invmixcolumn w = invmix_lin w /\ is_u32 (invmix_lin w).
Proof.
  intros Hw. unfold c68k_aes_invmixcolumn, invmix_lin, ROL16. cbv zeta. rewrite (rotation_xor w 16 16) by (done || lia). change (Z.lxor (w <<w 16) (Z.shiftr w 16)) with (rotl 16 w).
  apply mixcolumn_lin. apply xor_u32; [done|]. apply xtime_u32.
Qed.

(** The inverse mix undoes the mix. *)
Lemma unmix w : is_u32 w -> invmix_lin (mix_lin w) = w.
Proof.
  intros Hw. apply (linear_bits (fun w => invmix_lin (mix_lin w)) (fun w => w)); [|apply linear_id|vm_compute; reflexivity|done].
  apply linear_comp; [apply invmix_linear|apply mix_linear].
Qed.

(** ** Words and their bytes *)

Lemma u8_land x : Z.land x 0xFF = x mod 2 ^ 8.
Proof. change 0xFF with (Z.ones 8). by rewrite Z.land_ones by lia. Qed.

Lemma join4_xor a b c d : is_u8 a -> is_u8 b -> is_u8 c -> is_u8 d ->
  join4 a b c d = Z.lxor (Z.lxor (Z.lxor (a <<w 24) (b <<w 16)) (c <<w 8)) d.
Proof.
  intros Ha Hb Hc Hd. unfold join4, is_u8 in *. rewrite !u32_small by (unfold is_u32; rewrite Z.shiftl_mul_pow2; lia).
  rewrite (lor_lxor (Z.shiftl a 24)).
  2: { rewrite <- (u32_small (Z.shiftl a 24)) by (unfold is_u32; rewrite Z.shiftl_mul_pow2; lia). apply disjoint_low; [lia|]. rewrite Z.shiftl_mul_pow2; lia. }
  assert (E1 : Z.lxor (Z.shiftl a 24) (Z.shiftl b 16) = Z.shiftl (Z.lxor (Z.shiftl a 8) b) 16) by (rewrite Z.shiftl_lxor, Z.shiftl_shiftl by lia; done).
  assert (B1' : 0 <= Z.lxor (Z.shiftl a 8) b < 2 ^ 16).
  { rewrite <- lor_lxor; [apply (lor_range 16); rewrite ?Z.shiftl_mul_pow2; lia|]. rewrite <- (u32_small (Z.shiftl a 8)) by (unfold is_u32; rewrite Z.shiftl_mul_pow2; lia).
    apply disjoint_low; lia. }
  rewrite (lor_lxor _ (Z.shiftl c 8)).
  2: { rewrite E1, <- (u32_small (Z.shiftl _ 16)) by (unfold is_u32; rewrite Z.shiftl_mul_pow2; lia). apply disjoint_low; [lia|]. rewrite Z.shiftl_mul_pow2; lia. }
  rewrite lor_lxor; [done|].
  assert (E2 : Z.lxor (Z.lxor (Z.shiftl a 24) (Z.shiftl b 16)) (Z.shiftl c 8) = Z.shiftl (Z.lxor (Z.shiftl (Z.lxor (Z.shiftl a 8) b) 8) c) 8).
  { rewrite E1. rewrite (Z.shiftl_lxor _ c), Z.shiftl_shiftl by lia. done. }
  assert (B2' : 0 <= Z.lxor (Z.shiftl (Z.lxor (Z.shiftl a 8) b) 8) c < 2 ^ 24).
  { revert B1'. generalize (Z.lxor (Z.shiftl a 8) b). intros y B1'.
    rewrite <- lor_lxor; [apply (lor_range 24); rewrite ?Z.shiftl_mul_pow2; lia|].
    rewrite <- (u32_small (Z.shiftl _ 8)) by (unfold is_u32; rewrite Z.shiftl_mul_pow2; lia). apply disjoint_low; lia. }
  rewrite E2, <- (u32_small (Z.shiftl _ 8)) by (unfold is_u32; rewrite Z.shiftl_mul_pow2; lia). apply disjoint_low; lia.
Qed.

Lemma join4_val a b c d : is_u8 a -> is_u8 b -> is_u8 c -> is_u8 d -> join4 a b c d = a * 2 ^ 24 + b * 2 ^ 16 + c * 2 ^ 8 + d.
Proof.
  intros Ha Hb Hc Hd. unfold join4, is_u8 in *. rewrite !u32_small by (unfold is_u32; rewrite Z.shiftl_mul_pow2; lia).
  rewrite (lor_shift_add 24 a) by (rewrite ?Z.shiftl_mul_pow2; lia). rewrite !Z.shiftl_mul_pow2 by lia.
  replace (a * 2 ^ 24 + b * 2 ^ 16) with (Z.shiftl (a * 2 ^ 8 + b) 16) by (rewrite Z.shiftl_mul_pow2; lia). rewrite (lor_shift_add 16) by lia.
  replace ((a * 2 ^ 8 + b) * 2 ^ 16 + c * 2 ^ 8) with (Z.shiftl ((a * 2 ^ 8 + b) * 2 ^ 8 + c) 8) by (rewrite Z.shiftl_mul_pow2; lia).
  rewrite (lor_shift_add 8), ?Z.shiftl_mul_pow2 by lia. lia.
Qed.

Lemma join4_u32 a b c d : is_u8 a -> is_u8 b -> is_u8 c -> is_u8 d -> is_u32 (join4 a b c d).
Proof. intros Ha Hb Hc Hd. rewrite join4_val by done. unfold is_u8, is_u32 in *. lia. Qed.

Lemma bytes_of_word w : is_u32 w -> is_u8 (B0 w) /\ is_u8 (B1 w) /\ is_u8 (B2 w) /\ is_u8 (B3 w) /\ join4 (B0 w) (B1 w) (B2 w) (B3 w) = w.
Proof.
  intros Hw. assert (H0 : is_u8 (B0 w)) by (unfold B0, is_u8, is_u32 in *; rewrite Z.shiftr_div_pow2 by lia; split; [apply Z.div_pos; lia|apply Z.div_lt_upper_bound; lia]).
  assert (H1 : is_u8 (B1 w)) by (unfold B1; rewrite u8_land; apply Z.mod_pos_bound; lia).
  assert (H2 : is_u8 (B2 w)) by (unfold B2; rewrite u8_land; apply Z.mod_pos_bound; lia).
  assert (H3 : is_u8 (B3 w)) by (unfold B3; rewrite u8_land; apply Z.mod_pos_bound; lia).
  split; [done|]. split; [done|]. split; [done|]. split; [done|]. rewrite join4_val by done. unfold B0, B1, B2, B3, is_u32 in *. rewrite !u8_land, !Z.shiftr_div_pow2 by lia.
  Z.div_mod_to_equations. lia.
Qed.

Lemma word_of_bytes a b c d : is_u8 a -> is_u8 b -> is_u8 c -> is_u8 d ->
  B0 (join4 a b c d) = a /\ B1 (join4 a b c d) = b /\ B2 (join4 a b c d) = c /\ B3 (join4 a b c d) = d.
Proof.
  intros Ha Hb Hc Hd. rewrite join4_val by done. unfold B0, B1, B2, B3, is_u8 in *. rewrite !u8_land, !Z.shiftr_div_pow2 by lia.
  Z.div_mod_to_equations. lia.
Qed.

Lemma B0_u8 w : is_u32 w -> is_u8 (B0 w).
Proof. intros Hw. apply (bytes_of_word w Hw). Qed.
Lemma B1_u8 w : is_u32 w -> is_u8 (B1 w).
Proof. intros Hw. apply (bytes_of_word w Hw). Qed.
Lemma B2_u8 w : is_u32 w -> is_u8 (B2 w).
Proof. intros Hw. apply (bytes_of_word w Hw). Qed.
Lemma B3_u8 w : is_u32 w -> is_u8 (B3 w).
Proof. intros Hw. apply (bytes_of_word w Hw). Qed.
#[export] Hint Resolve B0_u8 B1_u8 B2_u8 B3_u8 xor_u32 : aes.

(** * The tables of AES

    What the table builder leaves, checked for every byte: the S-box against the field
    inverse of FIPS 197, the round tables against the column mixes.  From it, the three
    round cores of each direction compute the same function, and decryption undoes
    encryption. *)

(** The tables once built. *)
Definition built : AES_TABLES := c68k_aes_tables_init tables0.

(** Checking all bytes. *)
Definition all_bytes (P : Z -> bool) : bool := forallb (fun i => P (Z.of_nat i)) (List.seq 0 256).

Lemma all_bytes_ok P : all_bytes P = true -> forall b, is_u8 b -> P b = true.
Proof.
  intros H b Hb. unfold all_bytes in H. rewrite List.forallb_forall in H. rewrite <- (Z2Nat.id b) by (unfold is_u8 in Hb; lia).
  apply H, List.in_seq. unfold is_u8 in Hb. lia.
Qed.

(** ** The field of FIPS 197 *)

(** Carry-less product, and the remainder by x^8 + x^4 + x^3 + x + 1. *)
Definition clmul (a b : Z) : Z := foldr (fun i p => Z.lxor (if Z.testbit b (Z.of_nat i) then Z.shiftl a (Z.of_nat i) else 0) p) 0 (List.seq 0 8).
Definition poly_mod (p : Z) : Z := foldr (fun i p => if Z.testbit p (Z.of_nat i + 8) then Z.lxor p (Z.shiftl 0x11B (Z.of_nat i)) else p) p (List.seq 0 8).
Definition gmul (a b : Z) : Z := poly_mod (clmul a b).
(** The inverse, as the power 254. *)
Definition ginv (a : Z) : Z :=
  let a2 := gmul a a in let a4 := gmul a2 a2 in let a8 := gmul a4 a4 in let a16 := gmul a8 a8 in
  let a32 := gmul a16 a16 in let a64 := gmul a32 a32 in let a128 := gmul a64 a64 in
  gmul a2 (gmul a4 (gmul a8 (gmul a16 (gmul a32 (gmul a64 a128))))).
(** The affine map of section 5.1.1, bit by bit. *)
Definition sub_spec (a : Z) : Z :=
  let b := ginv a in
  let bit i := Z.testbit b (Z.of_nat (i mod 8)) in
  foldr (fun i s => Z.lor (Z.shiftl (Z.b2z (xorb (xorb (xorb (xorb (xorb (bit i) (bit (i + 4)%nat)) (bit (i + 5)%nat)) (bit (i + 6)%nat)) (bit (i + 7)%nat)) (Z.testbit 0x63 (Z.of_nat i)))) (Z.of_nat i)) s) 0 (List.seq 0 8).

(** ** The checks *)

Lemma inverse_check : all_bytes (fun a => (a =? 0) || (gmul a (ginv a) =? 1)) = true.
Proof. vm_compute. reflexivity. Qed.

Definition sbox_facts (T : AES_TABLES) (b : Z) : bool :=
  let s := at_ (c68k_aes_sbox T) b in
  let i := at_ (c68k_aes_isbox T) b in
  (0 <=? s) && (s <? 256) && (0 <=? i) && (i <? 256) && (s =? sub_spec b) && (at_ (c68k_aes_isbox T) s =? b).

Lemma sbox_check : all_bytes (sbox_facts built) = true.
Proof. vm_compute. reflexivity. Qed.

(** The four entries of a byte are its column mix in the four lanes, and rotations of the first. *)
Definition table_facts (mix : Z -> Z) (t : list (list Z)) (tab : list Z) (b : Z) : bool :=
  let s := at_ tab b in
  let e k := at_ (t !!! k) b in
  (e 0%nat =? mix (s <<w 24)) && (e 1%nat =? mix (s <<w 16)) && (e 2%nat =? mix (s <<w 8)) && (e 3%nat =? mix s) &&
  (e 1%nat =? ROR8 (e 0%nat)) && (e 2%nat =? ROR16 (e 0%nat)) && (e 3%nat =? ROR24 (e 0%nat)).

Lemma te_check : all_bytes (table_facts c68k_aes_mixcolumn (c68k_aes_te built) (c68k_aes_sbox built)) = true.
Proof. vm_compute. reflexivity. Qed.
Lemma td_check : all_bytes (table_facts c68k_aes_invmixcolumn (c68k_aes_td built) (c68k_aes_isbox built)) = true.
Proof. vm_compute. reflexivity. Qed.

(** The lanes of the mixes, as products in the field. *)
Definition mix_facts (b : Z) : bool :=
  (c68k_aes_mixcolumn (b <<w 24) =? join4 (gmul 2 b) b b (gmul 3 b)) && (c68k_aes_mixcolumn (b <<w 16) =? join4 (gmul 3 b) (gmul 2 b) b b) &&
  (c68k_aes_mixcolumn (b <<w 8) =? join4 b (gmul 3 b) (gmul 2 b) b) && (c68k_aes_mixcolumn b =? join4 b b (gmul 3 b) (gmul 2 b)) &&
  (0 <=? gmul 2 b) && (gmul 2 b <? 256) && (0 <=? gmul 3 b) && (gmul 3 b <? 256).
Lemma mix_check : all_bytes mix_facts = true.
Proof. vm_compute. reflexivity. Qed.

Definition invmix_facts (b : Z) : bool :=
  let g := c68k_gf_mul b in
  (c68k_aes_invmixcolumn (b <<w 24) =? join4 (g 14) (g 9) (g 13) (g 11)) && (c68k_aes_invmixcolumn (b <<w 16) =? join4 (g 11) (g 14) (g 9) (g 13)) &&
  (c68k_aes_invmixcolumn (b <<w 8) =? join4 (g 13) (g 11) (g 14) (g 9)) && (c68k_aes_invmixcolumn b =? join4 (g 9) (g 13) (g 11) (g 14)) &&
  forallb (fun k => (0 <=? g k) && (g k <? 256)) [9; 11; 13; 14].
Lemma invmix_check : all_bytes invmix_facts = true.
Proof. vm_compute. reflexivity. Qed.

Lemma built_once : c68k_aes_tables_init tables0 = built.
Proof. vm_compute. reflexivity. Qed.
(** Built once, kept. *)
Lemma built_ready : c68k_aes_tables_init built = built.
Proof. vm_compute. reflexivity. Qed.

#[global] Opaque built sub_spec gmul ginv.
#[local] Opaque c68k_aes_mixcolumn c68k_aes_invmixcolumn c68k_gf_mul at_.

Lemma is_u8_b b : (0 <=? b) && (b <? 256) = true -> is_u8 b.
Proof. intros H. apply andb_prop in H. unfold is_u8. lia. Qed.

(** What the S-boxes are. *)
Lemma sbox_ok b : is_u8 b ->
  is_u8 (at_ (c68k_aes_sbox built) b) /\ is_u8 (at_ (c68k_aes_isbox built) b) /\ at_ (c68k_aes_sbox built) b = sub_spec b /\
  at_ (c68k_aes_isbox built) (at_ (c68k_aes_sbox built) b) = b.
Proof.
  intros Hb. pose proof (all_bytes_ok _ sbox_check b Hb) as H. unfold sbox_facts in H. cbv zeta in H.
  revert H. generalize (sub_spec b) (at_ (c68k_aes_sbox built) b) (at_ (c68k_aes_isbox built) b). intros x s i H.
  rewrite !andb_true_iff, !Z.eqb_eq, !Z.leb_le, !Z.ltb_lt in H. unfold is_u8. change (2 ^ 8) with 256. tauto.
Qed.

(** A direction: its tables, its byte table and its mix. *)
Record table_of (mix lin : Z -> Z) (t : list (list Z)) (tab : list Z) : Prop := {
  to_facts : forall b, is_u8 b -> table_facts mix t tab b = true;
  to_lin : forall w, is_u32 w -> mix w = lin w /\ is_u32 (lin w);
  to_linear : linear lin;
  to_byte : forall b, is_u8 b -> is_u8 (at_ tab b)
}.

Lemma te_table : table_of c68k_aes_mixcolumn mix_lin (c68k_aes_te built) (c68k_aes_sbox built).
Proof. split; [exact (all_bytes_ok _ te_check)|apply mixcolumn_lin|apply mix_linear|intros b Hb; apply (sbox_ok b Hb)]. Qed.
Lemma td_table : table_of c68k_aes_invmixcolumn invmix_lin (c68k_aes_td built) (c68k_aes_isbox built).
Proof. split; [exact (all_bytes_ok _ td_check)|apply invmixcolumn_lin|apply invmix_linear|intros b Hb; apply (sbox_ok b Hb)]. Qed.

Lemma u8_shl_u32 b k : is_u8 b -> is_u32 (b <<w k).
Proof. intros _. apply u32_range. Qed.

Section direction.
Context (mix lin : Z -> Z) (t : list (list Z)) (tab : list Z) (H : table_of mix lin t tab).

Lemma mix_eq w : is_u32 w -> mix w = lin w.
Proof. intros Hw. by apply (to_lin _ _ _ _ H). Qed.

Lemma table_lanes b : is_u8 b ->
  at_ (t !!! 0%nat) b = lin (at_ tab b <<w 24) /\ at_ (t !!! 1%nat) b = lin (at_ tab b <<w 16) /\
  at_ (t !!! 2%nat) b = lin (at_ tab b <<w 8) /\ at_ (t !!! 3%nat) b = lin (at_ tab b).
Proof.
  intros Hb. pose proof (to_facts _ _ _ _ H b Hb) as F. unfold table_facts in F. cbv zeta in F. rewrite !andb_true_iff, !Z.eqb_eq in F.
  destruct F as ((((((E0 & E1) & E2) & E3) & _) & _) & _). pose proof (to_byte _ _ _ _ H b Hb) as Hs.
  rewrite E0, E1, E2, E3. rewrite !mix_eq by (apply u32_range || by apply is_u8_u32). done.
Qed.

Lemma sub_bytes_ok a b c d : is_u32 a -> is_u32 b -> is_u32 c -> is_u32 d -> is_u32 (sub_bytes tab a b c d).
Proof.
  intros Ha Hb Hc Hd. apply join4_u32; apply (to_byte _ _ _ _ H); auto with aes.
Qed.

(** The four tables mix the bytes they look up. *)
Lemma t4_mix a b c d : is_u32 a -> is_u32 b -> is_u32 c -> is_u32 d -> t4 t a b c d = mix (sub_bytes tab a b c d).
Proof.
  intros Ha Hb Hc Hd. rewrite (proj1 (to_lin _ _ _ _ H _ (sub_bytes_ok a b c d Ha Hb Hc Hd))).
  pose proof (B0_u8 a Ha) as A. pose proof (B1_u8 b Hb) as B. pose proof (B2_u8 c Hc) as C. pose proof (B3_u8 d Hd) as D. unfold t4, sub_bytes.
  rewrite join4_xor by (by apply (to_byte _ _ _ _ H)). rewrite !(to_linear _ _ _ _ H).
  rewrite (proj1 (table_lanes _ A)), (proj1 (proj2 (table_lanes _ B))), (proj1 (proj2 (proj2 (table_lanes _ C)))), (proj2 (proj2 (proj2 (table_lanes _ D)))). done.
Qed.

(** One table and rotations are four tables. *)
Lemma t1_t4 a b c d : is_u32 a -> is_u32 b -> is_u32 c -> is_u32 d -> t1 (t !!! 0%nat) a b c d = t4 t a b c d.
Proof.
  intros Ha Hb Hc Hd. pose proof (B1_u8 b Hb) as B. pose proof (B2_u8 c Hc) as C. pose proof (B3_u8 d Hd) as D. unfold t1, t4.
  pose proof (to_facts _ _ _ _ H _ B) as FB. pose proof (to_facts _ _ _ _ H _ C) as FC. pose proof (to_facts _ _ _ _ H _ D) as FD.
  unfold table_facts in FB, FC, FD. cbv zeta in FB, FC, FD. rewrite !andb_true_iff, !Z.eqb_eq in FB, FC, FD.
  destruct FB as (((_ & EB) & _) & _). destruct FC as ((_ & EC) & _). destruct FD as (_ & ED). by rewrite EB, EC, ED.
Qed.

Lemma mix_ok w : is_u32 w -> is_u32 (mix w).
Proof. intros Hw. destruct (to_lin _ _ _ _ H w Hw) as [-> Hl]. done. Qed.
End direction.
