(* ===== verification/AesSpec.v ===== *)
(** * The round cores of AES agree, and decryption undoes encryption

    On tables as they are built, with keys and states of 32-bit words. *)

From Stdlib Require Import ZArith Lia.
From stdpp Require Import base numbers list.
From S2P Require Import Prelude Checksum Poly1305 Poly1305Spec Aes AesTables.

#[local] Open Scope Z_scope.

#[local] Opaque at_ join4 B0 B1 B2 B3 c68k_aes_mixcolumn c68k_aes_invmixcolumn invmix_lin mix_lin.

Lemma lookup_total_u32 l i : Forall is_u32 l -> is_u32 (l !!! i).
Proof.
  intros H. destruct (l !! i) as [x|] eqn:E.
  - rewrite (list_lookup_total_correct _ _ _ E). by apply (Forall_lookup_1 _ _ _ _ H E).
  - rewrite list_lookup_total_alt, E. done.
Qed.

Lemma rk_u32 rk r j : Forall is_u32 rk -> is_u32 (rk_at rk r j).
Proof. apply lookup_total_u32. Qed.
#[export] Hint Resolve rk_u32 : aes.

Lemma xor_key_ok rk r s : Forall is_u32 rk -> quad_ok s -> quad_ok (xor_key rk r s).
Proof. intros Hk (H0 & H1 & H2 & H3). unfold quad_ok, xor_key. cbn [q0 q1 q2 q3]. split_and!; auto with aes. Qed.

Lemma enc_bytes_ok s : quad_ok s -> quad_ok (enc_bytes built s).
Proof.
  intros (H0 & H1 & H2 & H3). unfold quad_ok, enc_bytes. cbv zeta. cbn [q0 q1 q2 q3].
  split_and!; by apply (sub_bytes_ok _ _ _ _ te_table).
Qed.
Lemma dec_bytes_ok s : quad_ok s -> quad_ok (dec_bytes built s).
Proof.
  intros (H0 & H1 & H2 & H3). unfold quad_ok, dec_bytes. cbv zeta. cbn [q0 q1 q2 q3].
  split_and!; by apply (sub_bytes_ok _ _ _ _ td_table).
Qed.
Lemma map_columns_ok f s : (forall w, is_u32 w -> is_u32 (f w)) -> quad_ok s -> quad_ok (map_columns f s).
Proof. intros Hf (H0 & H1 & H2 & H3). unfold quad_ok, map_columns. cbn [q0 q1 q2 q3]. split_and!; by apply Hf. Qed.

Lemma enc_t4_sbox rk r s : quad_ok s -> enc_round_t4 built rk r s = enc_round_sbox built rk r s.
Proof.
  intros (H0 & H1 & H2 & H3). unfold enc_round_t4, enc_round_sbox, map_columns, enc_bytes. cbv zeta. cbn [q0 q1 q2 q3].
  rewrite !(t4_mix _ _ _ _ te_table) by done. done.
Qed.
Lemma enc_t1_t4 rk r s : quad_ok s -> enc_round_t1 built rk r s = enc_round_t4 built rk r s.
Proof.
  intros (H0 & H1 & H2 & H3). unfold enc_round_t1, enc_round_t4. cbv zeta. rewrite !(t1_t4 _ _ _ _ te_table) by done. done.
Qed.
Lemma dec_t4_sbox rk r s : quad_ok s -> dec_round_t4 built rk r s = dec_round_sbox built rk r s.
Proof.
  intros (H0 & H1 & H2 & H3). unfold dec_round_t4, dec_round_sbox, map_columns, dec_bytes. cbv zeta. cbn [q0 q1 q2 q3].
  rewrite !(t4_mix _ _ _ _ td_table) by done. done.
Qed.
Lemma dec_t1_t4 rk r s : quad_ok s -> dec_round_t1 built rk r s = dec_round_t4 built rk r s.
Proof.
  intros (H0 & H1 & H2 & H3). unfold dec_round_t1, dec_round_t4. cbv zeta. rewrite !(t1_t4 _ _ _ _ td_table) by done. done.
Qed.

Lemma enc_round_ok rk r s : Forall is_u32 rk -> quad_ok s -> quad_ok (enc_round_sbox built rk r s).
Proof. intros Hk Hs. apply xor_key_ok; [done|]. apply map_columns_ok; [apply (mix_ok _ _ _ _ te_table)|by apply enc_bytes_ok]. Qed.
Lemma dec_round_ok rk r s : Forall is_u32 rk -> quad_ok s -> quad_ok (dec_round_sbox built rk r s).
Proof. intros Hk Hs. apply xor_key_ok; [done|]. apply map_columns_ok; [apply (mix_ok _ _ _ _ td_table)|by apply dec_bytes_ok]. Qed.

(** Rounds that agree on words make cores that agree. *)
Lemma core_same f g last rk nr st :
  (forall r s, quad_ok s -> f rk r s = g rk r s) -> (forall r s, quad_ok s -> quad_ok (g rk r s)) -> Forall is_u32 rk -> quad_ok st ->
  core f last rk nr st = core g last rk nr st.
Proof.
  intros Hfg Hg Hk Hs. unfold core. cbv zeta. do 2 f_equal.
  assert (H : forall n r s, quad_ok s -> core_rounds f n r rk s = core_rounds g n r rk s).
  { intros n. induction n as [|n IH]; intros r s Hs'; [done|]. cbn [core_rounds]. rewrite Hfg by done. apply IH. by apply Hg. }
  apply H. by apply xor_key_ok.
Qed.

Lemma enc_cores rk nr st : Forall is_u32 rk -> quad_ok st ->
  c68k_aes_enc_t4 built rk nr st = c68k_aes_enc_sbox built rk nr st /\ c68k_aes_enc_t1 built rk nr st = c68k_aes_enc_sbox built rk nr st.
Proof.
  intros Hk Hs. assert (Ok : forall r s, quad_ok s -> quad_ok (enc_round_sbox built rk r s)) by (intros r s Hq; by apply enc_round_ok).
  split.
  - apply (core_same (enc_round_t4 built) (enc_round_sbox built) (enc_bytes built) rk nr st); [|exact Ok|exact Hk|exact Hs]. intros r s. apply enc_t4_sbox.
  - apply (core_same (enc_round_t1 built) (enc_round_sbox built) (enc_bytes built) rk nr st); [|exact Ok|exact Hk|exact Hs].
    intros r s Hq. rewrite enc_t1_t4 by exact Hq. by apply enc_t4_sbox.
Qed.

Lemma dec_cores rk nr st : Forall is_u32 rk -> quad_ok st ->
  c68k_aes_dec_t4 built rk nr st = c68k_aes_dec_sbox built rk nr st /\ c68k_aes_dec_t1 built rk nr st = c68k_aes_dec_sbox built rk nr st.
Proof.
  intros Hk Hs. assert (Ok : forall r s, quad_ok s -> quad_ok (dec_round_sbox built rk r s)) by (intros r s Hq; by apply dec_round_ok).
  split.
  - apply (core_same (dec_round_t4 built) (dec_round_sbox built) (dec_bytes built) rk nr st); [|exact Ok|exact Hk|exact Hs]. intros r s. apply dec_t4_sbox.
  - apply (core_same (dec_round_t1 built) (dec_round_sbox built) (dec_bytes built) rk nr st); [|exact Ok|exact Hk|exact Hs].
    intros r s Hq. rewrite dec_t1_t4 by exact Hq. by apply dec_t4_sbox.
Qed.

(** Whatever portable variant is chosen. *)
Lemma enc_dispatch_sbox v rk nr st : Forall is_u32 rk -> quad_ok st ->
  c68k_aes_enc_dispatch built v None rk nr st = c68k_aes_enc_sbox built rk nr st.
Proof. intros Hk Hs. destruct (enc_cores rk nr st Hk Hs) as [E4 E1]. unfold c68k_aes_enc_dispatch. cbv beta iota zeta.
  destruct (v =? C68K_AES_V_T1_C); [exact E1|]. destruct (v =? C68K_AES_V_SBOX_C); [reflexivity|exact E4].
Qed.
Lemma dec_dispatch_sbox v rk nr st : Forall is_u32 rk -> quad_ok st ->
  c68k_aes_dec_dispatch built v None rk nr st = c68k_aes_dec_sbox built rk nr st.
Proof. intros Hk Hs. destruct (dec_cores rk nr st Hk Hs) as [E4 E1]. unfold c68k_aes_dec_dispatch. cbv beta iota zeta.
  destruct (v =? C68K_AES_V_T1_C); [exact E1|]. destruct (v =? C68K_AES_V_SBOX_C); [reflexivity|exact E4].
Qed.

(** ** Inverses *)

Lemma unsub a b c d : is_u32 a -> is_u32 b -> is_u32 c -> is_u32 d ->
  let w := sub_bytes (c68k_aes_sbox built) a b c d in
  at_ (c68k_aes_isbox built) (B0 w) = B0 a /\ at_ (c68k_aes_isbox built) (B1 w) = B1 b /\
  at_ (c68k_aes_isbox built) (B2 w) = B2 c /\ at_ (c68k_aes_isbox built) (B3 w) = B3 d.
Proof.
  intros Ha Hb Hc Hd w. destruct (sbox_ok (B0 a)) as (A & _ & _ & EA); [auto with aes|]. destruct (sbox_ok (B1 b)) as (B & _ & _ & EB); [auto with aes|].
  destruct (sbox_ok (B2 c)) as (C & _ & _ & EC); [auto with aes|]. destruct (sbox_ok (B3 d)) as (D & _ & _ & ED); [auto with aes|].
  destruct (word_of_bytes _ _ _ _ A B C D) as (E0 & E1 & E2 & E3). unfold w, sub_bytes. rewrite E0, E1, E2, E3. exact (conj EA (conj EB (conj EC ED))).
Qed.

Lemma dec_enc_bytes s : quad_ok s -> dec_bytes built (enc_bytes built s) = s.
Proof.
  intros (H0 & H1 & H2 & H3). destruct s as [s0 s1 s2 s3]. cbn [q0 q1 q2 q3] in *. unfold dec_bytes, enc_bytes. cbv zeta. cbn [q0 q1 q2 q3].
  unfold sub_bytes at 1 6 11 16.
  destruct (unsub s0 s1 s2 s3) as (A0 & A1 & A2 & A3); [done..|]. destruct (unsub s1 s2 s3 s0) as (C0 & C1 & C2 & C3); [done..|].
  destruct (unsub s2 s3 s0 s1) as (D0 & D1 & D2 & D3); [done..|]. destruct (unsub s3 s0 s1 s2) as (E0 & E1 & E2 & E3); [done..|].
  rewrite A0, A1, A2, A3, C0, C1, C2, C3, D0, D1, D2, D3, E0, E1, E2, E3.
  destruct (bytes_of_word s0 H0) as (_ & _ & _ & _ & ->). destruct (bytes_of_word s1 H1) as (_ & _ & _ & _ & ->).
  destruct (bytes_of_word s2 H2) as (_ & _ & _ & _ & ->). by destruct (bytes_of_word s3 H3) as (_ & _ & _ & _ & ->).
Qed.

(** The keys of the equivalent inverse cipher. *)
Definition inverse_keys (ek dk : list Z) (nr : nat) : Prop :=
  forall j, (j < 4)%nat ->
    rk_at dk 0 j = rk_at ek nr j /\ rk_at dk nr j = rk_at ek 0 j /\
    forall r, (0 < r < nr)%nat -> rk_at dk r j = invmix_lin (rk_at ek (nr - r) j).

Lemma core_rounds_snoc round n r rk s : core_rounds round (S n) r rk s = round rk (r + n)%nat (core_rounds round n r rk s).
Proof.
  revert r s. induction n as [|n IH]; intros r s; [by rewrite Nat.add_0_r|]. change (core_rounds round (S (S n)) r rk s) with (core_rounds round (S n) (S r) rk (round rk r s)).
  rewrite IH. cbn [core_rounds]. f_equal. lia.
Qed.

Lemma xor_cancel a k : Z.lxor (Z.lxor a k) k = a.
Proof. by rewrite Z.lxor_assoc, Z.lxor_nilpotent, Z.lxor_0_r. Qed.

(** Two keys that are equal cancel. *)
Lemma xor_key_cancel rk rk' r r' s : (forall j, (j < 4)%nat -> rk_at rk' r' j = rk_at rk r j) -> xor_key rk' r' (xor_key rk r s) = s.
Proof.
  intros H. unfold xor_key. cbn [q0 q1 q2 q3]. rewrite !H by lia. rewrite !xor_cancel. by destruct s.
Qed.

Lemma unmix_key ek dk nr r s : inverse_keys ek dk nr -> (0 < r < nr)%nat -> Forall is_u32 ek -> quad_ok s ->
  xor_key dk r (map_columns c68k_aes_invmixcolumn (xor_key ek (nr - r) (map_columns c68k_aes_mixcolumn s))) = s.
Proof.
  intros Hi Hr Hk (H0 & H1 & H2 & H3). unfold xor_key, map_columns. cbn [q0 q1 q2 q3].
  assert (E : forall j w, (j < 4)%nat -> is_u32 w -> Z.lxor (c68k_aes_invmixcolumn (Z.lxor (c68k_aes_mixcolumn w) (rk_at ek (nr - r) j))) (rk_at dk r j) = w).
  { intros j w Hj Hw. destruct (mixcolumn_lin w Hw) as [-> Hm]. rewrite (proj1 (invmixcolumn_lin _ (xor_u32 _ _ Hm (rk_u32 ek _ j Hk)))).
    rewrite invmix_linear, unmix by done. destruct (Hi j Hj) as (_ & _ & Hd). rewrite (Hd r Hr). apply xor_cancel. }
  rewrite !E by (done || lia). by destruct s.
Qed.

Lemma dec_enc ek dk nr st :
  inverse_keys ek dk nr -> (0 < nr)%nat -> Forall is_u32 ek -> quad_ok st ->
  c68k_aes_dec_sbox built dk nr (c68k_aes_enc_sbox built ek nr st) = st.
Proof.
  intros Hi Hnr Hk Hs. unfold c68k_aes_dec_sbox, c68k_aes_enc_sbox, core. cbv zeta.
  set (s0 := xor_key ek 0 st). set (S_ n := core_rounds (enc_round_sbox built) n 1 ek s0).
  assert (S_ok : forall n, quad_ok (S_ n)).
  { intros n. unfold S_. induction n as [|n IH]; [by apply xor_key_ok|]. rewrite core_rounds_snoc. by apply enc_round_ok. }
  assert (D : forall k, (k <= nr - 1)%nat -> core_rounds (dec_round_sbox built) k 1 dk (enc_bytes built (S_ (nr - 1)%nat)) = enc_bytes built (S_ (nr - 1 - k)%nat)).
  { intros k. induction k as [|k IH]; intros Hle; [by rewrite Nat.sub_0_r|]. rewrite core_rounds_snoc, IH by lia. unfold dec_round_sbox. rewrite dec_enc_bytes by done.
    replace (nr - 1 - k)%nat with (S (nr - 1 - S k))%nat by lia. unfold S_ at 1. rewrite core_rounds_snoc. fold (S_ (nr - 1 - S k)%nat).
    unfold enc_round_sbox. replace (1 + (nr - 1 - S k))%nat with (nr - (1 + k))%nat by lia.
    apply (unmix_key ek dk nr); [done|lia|done|by apply enc_bytes_ok]. }
  fold (S_ (nr - 1)%nat). rewrite (xor_key_cancel ek dk nr 0) by (intros j Hj; by apply Hi). rewrite (D (nr - 1)%nat), Nat.sub_diag by lia.
  rewrite dec_enc_bytes by done. unfold S_. cbn [core_rounds]. unfold s0. apply xor_key_cancel. intros j Hj. by apply Hi.
Qed.

(** * AES is the cipher of FIPS 197

    The standard's byte state, its four transformations and its key expansion, and the
    word-parallel core and schedule as their implementation. *)

Local Abbreviation len m := (Z.of_nat (length m)).

(** ** The cipher of section 5.1, on sixteen bytes in the order of the input *)

Definition shift_rows (s : list Z) : list Z := (fun k => s !!! (k mod 4 + 4 * ((k / 4 + k mod 4) mod 4))%nat) <$> List.seq 0 16.
Definition mix_column (s : list Z) : list Z :=
  match s with
  | [a; b; c; d] =>
      let x4 a b c d := Z.lxor (Z.lxor (Z.lxor a b) c) d in
      [x4 (gmul 2 a) (gmul 3 b) c d; x4 a (gmul 2 b) (gmul 3 c) d; x4 a b (gmul 2 c) (gmul 3 d); x4 (gmul 3 a) b c (gmul 2 d)]
  | _ => s
  end.
Definition mix_columns (s : list Z) : list Z :=
  mix_column (take 4 s) ++ mix_column (take 4 (drop 4 s)) ++ mix_column (take 4 (drop 8 s)) ++ mix_column (take 4 (drop 12 s)).
Definition add_round_key (s k : list Z) : list Z := zip_with Z.lxor s k.
(** The words [4 r] to [4 r + 3] of the schedule, as bytes. *)
Definition round_key (w : list Z) (r : nat) : list Z :=
  be32 (w !!! (4 * r)%nat) ++ be32 (w !!! (4 * r + 1)%nat) ++ be32 (w !!! (4 * r + 2)%nat) ++ be32 (w !!! (4 * r + 3)%nat).
Definition sub_state (s : list Z) : list Z := sub_spec <$> s.

Definition cipher_round (w : list Z) (r : nat) (s : list Z) : list Z := add_round_key (mix_columns (shift_rows (sub_state s))) (round_key w r).
Fixpoint rounds_from (step : nat -> list Z -> list Z) (n r : nat) (s : list Z) : list Z :=
  match n with O => s | S n => rounds_from step n (S r) (step r s) end.
Definition cipher (nr : nat) (w input : list Z) : list Z :=
  let s := rounds_from (cipher_round w) (nr - 1) 1 (add_round_key input (round_key w 0)) in
  add_round_key (shift_rows (sub_state s)) (round_key w nr).

(** ** The key expansion of section 5.2 *)

Definition sub_word (w : Z) : Z := join4 (sub_spec (B0 w)) (sub_spec (B1 w)) (sub_spec (B2 w)) (sub_spec (B3 w)).
Definition rot_word (w : Z) : Z := join4 (B1 w) (B2 w) (B3 w) (B0 w).
Definition rcon_spec (j : nat) : Z := join4 (Nat.iter (j - 1) (gmul 2) 1) 0 0 0.
Fixpoint key_expansion (n nk : nat) (w : list Z) : list Z :=
  match n with
  | O => w
  | S n =>
      let i := length w in
      let temp := w !!! (i - 1)%nat in
      let temp :=
        if (i mod nk =? 0)%nat then Z.lxor (sub_word (rot_word temp)) (rcon_spec (i / nk))
        else if (6 <? nk)%nat && (i mod nk =? 4)%nat then sub_word temp
        else temp in
      key_expansion n nk (w ++ [Z.lxor (w !!! (i - nk)%nat) temp])
  end.
(** The words of the key, then the expansion. *)
Fixpoint key_words (n : nat) (key : list Z) : list Z :=
  match n, key with
  | S n, a :: b :: c :: d :: key => join4 a b c d :: key_words n key
  | _, _ => []
  end.
Definition schedule_spec (nk : nat) (key : list Z) : list Z := key_expansion (4 * (nk + 7) - nk) nk (key_words nk key).

#[local] Transparent at_ join4 B0 B1 B2 B3 c68k_aes_mixcolumn c68k_aes_invmixcolumn invmix_lin mix_lin.

(** ** States as bytes *)

Definition bytes_of (s : quad) : list Z := be32 (q0 s) ++ be32 (q1 s) ++ be32 (q2 s) ++ be32 (q3 s).

Lemma be32_word w : is_u32 w -> be32 w = [B0 w; B1 w; B2 w; B3 w].
Proof.
  intros Hw. unfold be32, B0, B1, B2, B3, u8. rewrite !u8_land. f_equal. apply Z.mod_small.
  unfold is_u32 in Hw. rewrite Z.shiftr_div_pow2 by lia. split; [apply Z.div_pos; lia|apply Z.div_lt_upper_bound; lia].
Qed.

Lemma be32_join a b c d : is_u8 a -> is_u8 b -> is_u8 c -> is_u8 d -> be32 (join4 a b c d) = [a; b; c; d].
Proof.
  intros Ha Hb Hc Hd. rewrite be32_word by (by apply join4_u32). by destruct (word_of_bytes a b c d Ha Hb Hc Hd) as (-> & -> & -> & ->).
Qed.

Lemma be32_xor a b : be32 (Z.lxor a b) = zip_with Z.lxor (be32 a) (be32 b).
Proof.
  unfold be32. cbn [zip_with]. rewrite !Z.shiftr_lxor. unfold u8. rewrite <- !Z.land_ones by lia. by rewrite !(linear_land (Z.ones 8) _ _).
Qed.

Lemma bytes_of_xor_key rk r s : bytes_of (xor_key rk r s) = add_round_key (bytes_of s) (round_key rk r).
Proof.
  unfold bytes_of, xor_key, rk_at, add_round_key, round_key. cbn [q0 q1 q2 q3]. rewrite !be32_xor, Nat.add_0_r. by rewrite !zip_with_app.
Qed.

Lemma sub_spec_u8 b : is_u8 b -> is_u8 (sub_spec b).
Proof. intros Hb. destruct (sbox_ok b Hb) as (H & _ & <- & _). exact H. Qed.
#[export] Hint Resolve sub_spec_u8 : aes.

Lemma sub_bytes_be a b c d : is_u32 a -> is_u32 b -> is_u32 c -> is_u32 d ->
  be32 (sub_bytes (c68k_aes_sbox built) a b c d) = [sub_spec (B0 a); sub_spec (B1 b); sub_spec (B2 c); sub_spec (B3 d)].
Proof.
  intros Ha Hb Hc Hd. unfold sub_bytes.
  destruct (sbox_ok (B0 a)) as (A & _ & EA & _); [auto with aes|]. destruct (sbox_ok (B1 b)) as (B & _ & EB & _); [auto with aes|].
  destruct (sbox_ok (B2 c)) as (C & _ & EC & _); [auto with aes|]. destruct (sbox_ok (B3 d)) as (D & _ & ED & _); [auto with aes|].
  rewrite be32_join by done. by rewrite EA, EB, EC, ED.
Qed.

Lemma bytes_of_enc s : quad_ok s -> bytes_of (enc_bytes built s) = shift_rows (sub_state (bytes_of s)).
Proof.
  intros (H0 & H1 & H2 & H3). unfold bytes_of, enc_bytes. cbv zeta. cbn [q0 q1 q2 q3]. rewrite !sub_bytes_be by done.
  rewrite (be32_word (q0 s)), (be32_word (q1 s)), (be32_word (q2 s)), (be32_word (q3 s)) by done. reflexivity.
Qed.

#[local] Opaque c68k_aes_mixcolumn c68k_aes_invmixcolumn mix_lin invmix_lin join4 c68k_gf_mul.

Lemma join4_lxor a b c d a' b' c' d' :
  is_u8 a -> is_u8 b -> is_u8 c -> is_u8 d -> is_u8 a' -> is_u8 b' -> is_u8 c' -> is_u8 d' ->
  Z.lxor (join4 a b c d) (join4 a' b' c' d') = join4 (Z.lxor a a') (Z.lxor b b') (Z.lxor c c') (Z.lxor d d').
Proof.
  intros Ha Hb Hc Hd Ha' Hb' Hc' Hd'.
  assert (X : forall x y, is_u8 x -> is_u8 y -> is_u8 (Z.lxor x y)).
  { intros x y Hx Hy. unfold is_u8 in *. rewrite <- (Z.mod_small x (2 ^ 8)), <- (Z.mod_small y (2 ^ 8)) by lia. rewrite <- !Z.land_ones by lia.
    rewrite <- (linear_land (Z.ones 8) x y), Z.land_ones by lia. apply Z.mod_pos_bound. lia. }
  assert (W : is_u32 (Z.lxor (join4 a b c d) (join4 a' b' c' d'))) by (apply xor_u32; by apply join4_u32).
  destruct (bytes_of_word _ W) as (_ & _ & _ & _ & <-). pose proof (be32_xor (join4 a b c d) (join4 a' b' c' d')) as E.
  rewrite (be32_word _ W), !be32_join in E by done. cbn [zip_with] in E. injection E as -> -> -> ->. done.
Qed.

Lemma xor_u8 a b : is_u8 a -> is_u8 b -> is_u8 (Z.lxor a b).
Proof.
  intros Hx Hy. unfold is_u8 in *. rewrite <- (Z.mod_small a (2 ^ 8)), <- (Z.mod_small b (2 ^ 8)) by lia. rewrite <- !Z.land_ones by lia.
  rewrite <- (linear_land (Z.ones 8) a b), Z.land_ones by lia. apply Z.mod_pos_bound. lia.
Qed.
#[export] Hint Resolve xor_u8 : aes.

(** What the mix does in each lane. *)
Lemma mix_lane b : is_u8 b ->
  mix_lin (b <<w 24) = join4 (gmul 2 b) b b (gmul 3 b) /\ mix_lin (b <<w 16) = join4 (gmul 3 b) (gmul 2 b) b b /\
  mix_lin (b <<w 8) = join4 b (gmul 3 b) (gmul 2 b) b /\ mix_lin b = join4 b b (gmul 3 b) (gmul 2 b) /\ is_u8 (gmul 2 b) /\ is_u8 (gmul 3 b).
Proof.
  intros Hb. pose proof (all_bytes_ok _ mix_check b Hb) as H. unfold mix_facts in H.
  rewrite !(fun w H => proj1 (mixcolumn_lin w H)) in H by (apply u32_range || by apply is_u8_u32).
  revert H. generalize (mix_lin (b <<w 24)) (mix_lin (b <<w 16)) (mix_lin (b <<w 8)) (mix_lin b). generalize (gmul 2 b) (gmul 3 b). intros.
  rewrite !andb_true_iff, !Z.eqb_eq, !Z.leb_le, !Z.ltb_lt in H. unfold is_u8. change (2 ^ 8) with 256. tauto.
Qed.

Lemma mix_be w : is_u32 w -> be32 (c68k_aes_mixcolumn w) = mix_column (be32 w).
Proof.
  intros Hw. rewrite (proj1 (mixcolumn_lin w Hw)), (be32_word w Hw). destruct (bytes_of_word w Hw) as (H0 & H1 & H2 & H3 & E). rewrite <- E at 1.
  rewrite join4_xor by done. rewrite !mix_linear. destruct (mix_lane _ H0) as (-> & _ & _ & _ & A2 & A3). destruct (mix_lane _ H1) as (_ & -> & _ & _ & B2' & B3').
  destruct (mix_lane _ H2) as (_ & _ & -> & _ & C2 & C3). destruct (mix_lane _ H3) as (_ & _ & _ & -> & D2 & D3).
  rewrite !join4_lxor by auto 6 with aes. rewrite be32_join by auto 6 with aes. reflexivity.
Qed.

Lemma bytes_of_mix s : quad_ok s -> bytes_of (map_columns c68k_aes_mixcolumn s) = mix_columns (bytes_of s).
Proof.
  intros (H0 & H1 & H2 & H3). unfold bytes_of, map_columns. cbn [q0 q1 q2 q3]. rewrite !mix_be by done. reflexivity.
Qed.

#[local] Opaque bytes_of xor_key enc_bytes map_columns shift_rows mix_columns sub_state add_round_key round_key.

Lemma bytes_of_round rk r s : quad_ok s -> bytes_of (enc_round_sbox built rk r s) = cipher_round rk r (bytes_of s).
Proof.
  intros Hs. unfold enc_round_sbox, cipher_round. rewrite bytes_of_xor_key. rewrite (bytes_of_mix (enc_bytes built s)) by by apply enc_bytes_ok.
  by rewrite (bytes_of_enc s).
Qed.

Lemma rounds_simulated (f : list Z -> nat -> quad -> quad) g rk n :
  (forall r s, quad_ok s -> quad_ok (f rk r s) /\ bytes_of (f rk r s) = g r (bytes_of s)) ->
  forall r s, quad_ok s -> quad_ok (core_rounds f n r rk s) /\ bytes_of (core_rounds f n r rk s) = rounds_from g n r (bytes_of s).
Proof.
  intros H. induction n as [|n IH]; intros r s Hq; [done|]. cbn [core_rounds rounds_from]. destruct (H r s Hq) as [Ok <-]. by apply IH.
Qed.

(** The core is the cipher. *)
Lemma core_cipher rk nr st : Forall is_u32 rk -> quad_ok st -> bytes_of (c68k_aes_enc_sbox built rk nr st) = cipher nr rk (bytes_of st).
Proof.
  intros Hk Hs. unfold c68k_aes_enc_sbox, core, cipher. cbv zeta. rewrite <- (bytes_of_xor_key rk 0).
  destruct (rounds_simulated (enc_round_sbox built) (cipher_round rk) rk (nr - 1) (fun r s Hq => conj (enc_round_ok rk r s Hk Hq) (bytes_of_round rk r s Hq))
    1 _ (xor_key_ok rk 0 st Hk Hs)) as [Ok <-].
  revert Ok. generalize (core_rounds (enc_round_sbox built) (nr - 1) 1 rk (xor_key rk 0 st)). intros y Ok.
  rewrite bytes_of_xor_key. by rewrite (bytes_of_enc y).
Qed.
#[local] Transparent bytes_of.
