(* ===== verification/AesKeys.v ===== *)
(** * The key schedules of AES

    The encryption words are the expansion of FIPS 197, and the decryption words are
    those of the equivalent inverse cipher. *)

From Stdlib Require Import ZArith Lia.
From stdpp Require Import base numbers list.
From S2P Require Import Prelude Checksum RxSpec Poly1305 Poly1305Spec Aes AesTables AesSpec.
#[local] Open Scope Z_scope.

Local Abbreviation len m := (Z.of_nat (length m)).
#[local] Opaque at_ join4 c68k_aes_mixcolumn c68k_aes_invmixcolumn invmix_lin mix_lin c68k_gf_mul.

(** ** Words *)

Lemma sbox_at b : is_u8 b -> at_ (c68k_aes_sbox built) b = sub_spec b.
Proof. intros Hb. destruct (sbox_ok b Hb) as (_ & _ & E & _). exact E. Qed.

Lemma subword_spec w : is_u32 w -> c68k_aes_subword built w = sub_word w.
Proof.
  intros Hw. assert (E0 : Z.land (Z.shiftr w 24) 0xFF = B0 w) by (rewrite u8_land; apply Z.mod_small, (B0_u8 w Hw)).
  unfold c68k_aes_subword. cbv zeta. rewrite E0. change (Z.land (Z.shiftr w 16) 0xFF) with (B1 w). change (Z.land (Z.shiftr w 8) 0xFF) with (B2 w). change (Z.land w 0xFF) with (B3 w).
  rewrite (sbox_at _ (B0_u8 w Hw)), (sbox_at _ (B1_u8 w Hw)), (sbox_at _ (B2_u8 w Hw)), (sbox_at _ (B3_u8 w Hw)). reflexivity.
Qed.

Lemma sub_word_u32 w : is_u32 w -> is_u32 (sub_word w).
Proof. intros Hw. apply join4_u32; auto with aes. Qed.

Lemma rot_spec w : is_u32 w -> Z.lor (w <<w 8) (Z.shiftr w 24) = rot_word w /\ is_u32 (rot_word w).
Proof.
  intros Hw. destruct (bytes_of_word w Hw) as (H0 & H1 & H2 & H3 & E). split; [|by apply join4_u32].
  unfold rot_word. rewrite join4_val by done. rewrite <- E at 1 2. rewrite join4_val by done. unfold is_u8 in *.
  set (a := B0 w) in *. set (b := B1 w) in *. set (c := B2 w) in *. set (d := B3 w) in *. clearbody a b c d. clear E Hw.
  assert (Es : (a * 2 ^ 24 + b * 2 ^ 16 + c * 2 ^ 8 + d) <<w 8 = Z.shiftl (b * 2 ^ 16 + c * 2 ^ 8 + d) 8).
  { unfold u32. rewrite !Z.shiftl_mul_pow2 by lia. symmetry. apply (Z.mod_unique_pos _ _ a); lia. }
  rewrite Es, Z.shiftr_div_pow2 by lia. rewrite lor_shift_add; [|lia|split; [apply Z.div_pos; lia|apply Z.div_lt_upper_bound; lia]].
  replace ((a * 2 ^ 24 + b * 2 ^ 16 + c * 2 ^ 8 + d) / 2 ^ 24) with a by (apply (Z.div_unique_pos _ _ _ (b * 2 ^ 16 + c * 2 ^ 8 + d)); lia). lia.
Qed.

Lemma rcon_check : forallb (fun k => (c68k_aes_rcon !!! k <<w 24) =? rcon_spec k) (List.seq 1 10) = true.
Proof. vm_compute. reflexivity. Qed.

Lemma rcon_ok k : (1 <= k <= 10)%nat -> c68k_aes_rcon !!! k <<w 24 = rcon_spec k /\ is_u32 (rcon_spec k).
Proof.
  intros Hk. pose proof rcon_check as H. rewrite List.forallb_forall in H.
  assert (E : c68k_aes_rcon !!! k <<w 24 = rcon_spec k) by (apply Z.eqb_eq, H, List.in_seq; lia). split; [exact E|]. rewrite <- E. apply u32_range.
Qed.

(** ** The encryption words *)

Lemma take_insert_next (l : list Z) i v : (i < length l)%nat -> take (S i) (<[i := v]> l) = take i l ++ [v].
Proof.
  intros Hi. rewrite (take_S_r _ _ v) by by apply list_lookup_insert_eq. by rewrite take_insert_ge by lia.
Qed.

Lemma take_lookup_total (l : list Z) n i : (i < n)%nat -> take n l !!! i = l !!! i.
Proof. intros Hi. rewrite !list_lookup_total_alt. by rewrite lookup_take_lt. Qed.

Lemma insert_u32 l i v : Forall is_u32 l -> is_u32 v -> Forall is_u32 (<[i := v]> l).
Proof. intros Hl Hv. by apply Forall_insert. Qed.

Lemma expand_key_spec n : forall i nk ek,
  (0 < nk <= i)%nat -> (i + n <= length ek)%nat -> (i + n <= 11 * nk)%nat -> Forall is_u32 ek ->
  take (i + n) (expand_key built n i nk ek) = key_expansion n nk (take i ek) /\ Forall is_u32 (expand_key built n i nk ek) /\
  length (expand_key built n i nk ek) = length ek.
Proof.
  induction n as [|n IH]; intros i nk ek Hi Hl Hr Hu; cbn [expand_key key_expansion]; [by rewrite Nat.add_0_r|].
  assert (Lt : length (take i ek) = i) by (rewrite length_take; lia). rewrite Lt. cbv zeta. rewrite !take_lookup_total by lia.
  pose proof (lookup_total_u32 ek (i - 1) Hu) as Ut. pose proof (lookup_total_u32 ek (i - nk) Hu) as Uk.
  set (temp := ek !!! (i - 1)%nat) in *. destruct (rot_spec temp Ut) as [Er Ur]. rewrite Er, (subword_spec _ Ur), (subword_spec _ Ut).
  set (t1 := if (i mod nk =? 0)%nat then Z.lxor (sub_word (rot_word temp)) (c68k_aes_rcon !!! (i / nk)%nat <<w 24) else _).
  set (t2 := if (i mod nk =? 0)%nat then Z.lxor (sub_word (rot_word temp)) (rcon_spec (i / nk)) else _).
  assert (Et : t1 = t2 /\ is_u32 t2).
  { unfold t1, t2. destruct (i mod nk =? 0)%nat eqn:E0.
    - apply Nat.eqb_eq in E0. assert (Hq : (1 <= i / nk <= 10)%nat).
      { pose proof (Nat.div_mod_eq i nk). assert (i / nk < 11)%nat by (apply Nat.Div0.div_lt_upper_bound; lia). nia. }
      destruct (rcon_ok _ Hq) as [-> Uc]. split; [done|]. apply xor_u32; [by apply sub_word_u32|done].
    - destruct ((6 <? nk)%nat && (i mod nk =? 4)%nat); (split; [done|]); [by apply sub_word_u32|done]. }
  destruct Et as [Et U2]. rewrite Et. clearbody t1 t2. clear Et.
  set (v := Z.lxor (ek !!! (i - nk)%nat) t2). assert (Uv : is_u32 v) by by apply xor_u32. clearbody v.
  destruct (IH (S i) nk (<[i := v]> ek)) as (E & U & L); [lia|rewrite length_insert; lia|lia|by apply insert_u32|].
  rewrite length_insert in L. rewrite take_insert_next in E by lia. replace (i + S n)%nat with (S i + n)%nat by lia. by rewrite E.
Qed.

Lemma load_be_bytes m p : bytes_ok m -> 0 <= p -> p + 4 <= len m ->
  c68k_aes_load_be m p = Val (join4 (byte m p) (byte m (p + 1)) (byte m (p + 2)) (byte m (p + 3))) /\
  is_u32 (join4 (byte m p) (byte m (p + 1)) (byte m (p + 2)) (byte m (p + 3))).
Proof.
  intros Hb Hp Hl. unfold c68k_aes_load_be. rewrite !fetch_byte by lia. cbn [obind]. split; [done|]. apply join4_u32; by apply byte_range.
Qed.

Lemma key_words_drop n m p : 0 <= p -> p + 4 * Z.of_nat (S n) <= len m ->
  key_words (S n) (drop (Z.to_nat p) m) = join4 (byte m p) (byte m (p + 1)) (byte m (p + 2)) (byte m (p + 3)) :: key_words n (drop (Z.to_nat (p + 4)) m).
Proof.
  intros Hp Hl. assert (D : forall q, 0 <= q < len m -> drop (Z.to_nat q) m = byte m q :: drop (Z.to_nat (q + 1)) m).
  { intros q Hq. destruct (lookup_lt_is_Some_2 m (Z.to_nat q)) as [x Hx]; [lia|]. rewrite (drop_S _ _ _ Hx). unfold byte. rewrite (nth_lookup_Some _ _ 0 _ Hx).
    do 2 f_equal. lia. }
  rewrite (D p), (D (p + 1)), (D (p + 1 + 1)), (D (p + 1 + 1 + 1)) by lia. cbn [key_words].
  replace (p + 1 + 1 + 1 + 1) with (p + 4) by lia. replace (p + 1 + 1 + 1) with (p + 3) by lia. by replace (p + 1 + 1) with (p + 2) by lia.
Qed.

Lemma load_key_val n : forall i key ek,
  bytes_ok key -> 4 * (Z.of_nat i + Z.of_nat n) <= len key -> (i + n <= length ek)%nat -> Forall is_u32 ek ->
  exists ek', load_key n i key ek = Val ek' /\ take (i + n) ek' = take i ek ++ key_words n (drop (Z.to_nat (4 * Z.of_nat i)) key) /\
    length ek' = length ek /\ Forall is_u32 ek'.
Proof.
  induction n as [|n IH]; intros i key ek Hk Hl He Hu; cbn [load_key].
  { exists ek. rewrite Nat.add_0_r. cbn [key_words]. by rewrite app_nil_r. }
  destruct (load_be_bytes key (Z.of_nat i * 4) Hk) as [-> Uw]; [lia|lia|]. cbn [obind]. rewrite (Z.mul_comm (Z.of_nat i)) in *.
  rewrite key_words_drop by lia. set (w := join4 _ _ _ _) in *. clearbody w.
  destruct (IH (S i) key (<[i := w]> ek)) as (ek' & -> & E & L & U); [done|lia|rewrite length_insert; lia|by apply insert_u32|].
  rewrite length_insert in L. exists ek'. split; [done|]. replace (i + S n)%nat with (S i + n)%nat by lia. rewrite E. rewrite take_insert_next by lia.
  split; [|done]. rewrite <- app_assoc. do 3 f_equal. f_equal. lia.
Qed.

(** ** The decryption words *)

Lemma insert_total (l : list Z) i v k : (i < length l)%nat -> <[i := v]> l !!! k = if (k =? i)%nat then v else l !!! k.
Proof.
  intros Hi. destruct (k =? i)%nat eqn:E; [apply Nat.eqb_eq in E as ->; by apply list_lookup_total_insert_eq|].
  apply Nat.eqb_neq in E. by apply list_lookup_total_insert_ne.
Qed.

(** One round written, word by word. *)
Lemma write_round (dk : list Z) r v0 v1 v2 v3 r' j : (4 * r + 3 < length dk)%nat -> (j < 4)%nat ->
  rk_at (<[(4 * r + 3)%nat := v3]> (<[(4 * r + 2)%nat := v2]> (<[(4 * r + 1)%nat := v1]> (<[(4 * r + 0)%nat := v0]> dk)))) r' j =
    if (r' =? r)%nat then match j with 0 => v0 | 1 => v1 | 2 => v2 | _ => v3 end%nat else rk_at dk r' j.
Proof.
  intros Hl Hj. unfold rk_at. rewrite !insert_total by (rewrite ?length_insert; lia).
  destruct (r' =? r)%nat eqn:E.
  - apply Nat.eqb_eq in E as ->. destruct j as [|[|[|[|j]]]]; [..|lia]; repeat match goal with |- context [(?a =? ?b)%nat] => destruct (Nat.eqb_spec a b); [try lia|try lia] end; done.
  - apply Nat.eqb_neq in E. repeat match goal with |- context [(?a =? ?b)%nat] => destruct (Nat.eqb_spec a b); [lia|] end. done.
Qed.

Lemma reverse_keys_val nr ek n : forall r dk,
  (4 * (r + n) <= length dk)%nat -> Forall is_u32 ek -> Forall is_u32 dk ->
  let dk' := reverse_keys n r nr ek dk in
  length dk' = length dk /\ Forall is_u32 dk' /\
  forall r' j, (j < 4)%nat -> rk_at dk' r' j = if ((r <=? r') && (r' <? r + n))%nat then rk_at ek (nr - r') j else rk_at dk r' j.
Proof.
  induction n as [|n IH]; intros r dk Hl He Hd; cbn [reverse_keys].
  { split; [done|]. split; [done|]. intros r' j Hj. destruct (Nat.leb_spec r r'), (Nat.ltb_spec r' (r + 0)); try done; lia. }
  cbv zeta. match goal with |- context [reverse_keys n (S r) nr ek ?x] => set (d := x) in * end.
  assert (Ld : length d = length dk) by (unfold d; by rewrite !length_insert).
  assert (Ud : Forall is_u32 d) by (unfold d; repeat apply insert_u32; try done; by apply lookup_total_u32).
  destruct (IH (S r) d ltac:(lia) He Ud) as (L & U & H). rewrite Ld in L. split; [done|]. split; [done|]. intros r' j Hj. rewrite H by done.
  destruct (Nat.leb_spec (S r) r'), (Nat.ltb_spec r' (S r + n)); cbn [andb]; destruct (Nat.leb_spec r r'), (Nat.ltb_spec r' (r + S n)); cbn [andb]; try lia; try done;
    unfold d; rewrite write_round by lia; destruct (Nat.eqb_spec r' r) as [->|Hne]; try lia; try done.
  destruct j as [|[|[|[|j]]]]; [done..|lia].
Qed.

Lemma invmix_lane b : is_u8 b ->
  let g := c68k_gf_mul b in
  invmix_lin (b <<w 24) = join4 (g 14) (g 9) (g 13) (g 11) /\ invmix_lin (b <<w 16) = join4 (g 11) (g 14) (g 9) (g 13) /\
  invmix_lin (b <<w 8) = join4 (g 13) (g 11) (g 14) (g 9) /\ invmix_lin b = join4 (g 9) (g 13) (g 11) (g 14) /\
  is_u8 (g 9) /\ is_u8 (g 11) /\ is_u8 (g 13) /\ is_u8 (g 14).
Proof.
  intros Hb. pose proof (all_bytes_ok _ invmix_check b Hb) as H. unfold invmix_facts in H. cbv zeta in H.
  rewrite !(fun w H => proj1 (invmixcolumn_lin w H)) in H by (apply u32_range || by apply is_u8_u32). cbv zeta. cbn [forallb] in H.
  revert H. generalize (invmix_lin (b <<w 24)) (invmix_lin (b <<w 16)) (invmix_lin (b <<w 8)) (invmix_lin b).
  generalize (c68k_gf_mul b 9) (c68k_gf_mul b 11) (c68k_gf_mul b 13) (c68k_gf_mul b 14). intros.
  rewrite !andb_true_iff, !Z.eqb_eq, !Z.leb_le, !Z.ltb_lt in H. unfold is_u8. change (2 ^ 8) with 256. tauto.
Qed.

Lemma invmix_spec w : is_u32 w -> c68k_aes_invmix w = invmix_lin w.
Proof.
  intros Hw. destruct (bytes_of_word w Hw) as (H0 & H1 & H2 & H3 & E).
  assert (U0 : u8 (Z.shiftr w 24) = B0 w) by (apply u8_small, H0). assert (U1 : u8 (Z.shiftr w 16) = B1 w) by (unfold B1; by rewrite u8_land).
  assert (U2 : u8 (Z.shiftr w 8) = B2 w) by (unfold B2; by rewrite u8_land). assert (U3 : u8 w = B3 w) by (unfold B3; by rewrite u8_land).
  unfold c68k_aes_invmix. cbv zeta. rewrite U0, U1, U2, U3. transitivity (invmix_lin (join4 (B0 w) (B1 w) (B2 w) (B3 w))); [|exact (f_equal invmix_lin E)]. clear E U0 U1 U2 U3.
  revert H0 H1 H2 H3. generalize (B0 w) (B1 w) (B2 w) (B3 w). intros x0 x1 x2 x3 H0 H1 H2 H3. rewrite (join4_xor x0 x1 x2 x3) by done. rewrite !invmix_linear.
  destruct (invmix_lane _ H0) as (-> & _ & _ & _ & A9 & A11 & A13 & A14). destruct (invmix_lane _ H1) as (_ & -> & _ & _ & C9 & C11 & C13 & C14).
  destruct (invmix_lane _ H2) as (_ & _ & -> & _ & D9 & D11 & D13 & D14). destruct (invmix_lane _ H3) as (_ & _ & _ & -> & F9 & F11 & F13 & F14).
  rewrite !u8_small by auto 6 with aes. rewrite !join4_lxor by auto 6 with aes. reflexivity.
Qed.

Lemma invmix_lin_u32 w : is_u32 w -> is_u32 (invmix_lin w).
Proof. intros Hw. apply (invmixcolumn_lin w Hw). Qed.

Lemma invmix_keys_val n : forall r dk,
  (4 * (r + n) <= length dk)%nat -> Forall is_u32 dk ->
  let dk' := invmix_keys n r dk in
  length dk' = length dk /\ Forall is_u32 dk' /\
  forall r' j, (j < 4)%nat -> rk_at dk' r' j = if ((r <=? r') && (r' <? r + n))%nat then invmix_lin (rk_at dk r' j) else rk_at dk r' j.
Proof.
  induction n as [|n IH]; intros r dk Hl Hd; cbn [invmix_keys].
  { split; [done|]. split; [done|]. intros r' j Hj. destruct (Nat.leb_spec r r'), (Nat.ltb_spec r' (r + 0)); try done; lia. }
  cbv zeta.
  assert (Ew : forall k, is_u32 (dk !!! k)) by (intros; by apply lookup_total_u32).
  rewrite !insert_total by (rewrite ?length_insert; lia).
  repeat match goal with |- context [(?a =? ?b)%nat] => lazymatch a with r => fail | _ => destruct (Nat.eqb_spec a b) as [?|_]; [exfalso; lia|] end end.
  rewrite !invmix_spec by apply Ew.
  match goal with |- context [invmix_keys n (S r) ?x] => set (d := x) in * end.
  assert (Ld : length d = length dk) by (unfold d; by rewrite !length_insert).
  assert (Ud : Forall is_u32 d) by (unfold d; repeat apply insert_u32; try done; by apply invmix_lin_u32).
  destruct (IH (S r) d ltac:(lia) Ud) as (L & U & H). rewrite Ld in L. split; [done|]. split; [done|]. intros r' j Hj. rewrite H by done.
  assert (Ed : rk_at d r' j = if (r' =? r)%nat then invmix_lin (rk_at dk r' j) else rk_at dk r' j).
  { unfold d. rewrite write_round by lia. destruct (Nat.eqb_spec r' r) as [->|]; [|done]. destruct j as [|[|[|[|j]]]]; [done..|lia]. }
  rewrite Ed. destruct (Nat.leb_spec (S r) r'), (Nat.ltb_spec r' (S r + n)); cbn [andb]; destruct (Nat.leb_spec r r'), (Nat.ltb_spec r' (r + S n)); cbn [andb]; try lia;
    destruct (Nat.eqb_spec r' r); try lia; done.
Qed.

(** ** The schedules *)

Lemma cipher_prefix nr w w' input : (1 <= nr)%nat -> take (4 * (nr + 1)) w = take (4 * (nr + 1)) w' -> cipher nr w input = cipher nr w' input.
Proof.
  intros Hn E.
  assert (K : forall r, (r <= nr)%nat -> round_key w r = round_key w' r).
  { intros r Hr. unfold round_key.
    assert (L : forall i, (i < 4 * (nr + 1))%nat -> w !!! i = w' !!! i) by (intros i Hi; rewrite <- (take_lookup_total w _ i Hi), E; by apply take_lookup_total).
    rewrite !L by lia. reflexivity. }
  unfold cipher. cbv zeta. rewrite (K 0%nat), (K nr) by lia.
  assert (R : forall n r s, (r + n <= nr)%nat -> rounds_from (cipher_round w) n r s = rounds_from (cipher_round w') n r s).
  { induction n as [|n IH]; intros r s Hr; [done|]. cbn [rounds_from]. rewrite IH by lia. unfold cipher_round. rewrite (K r) by lia. done. }
  rewrite R by lia. reflexivity.
Qed.

(** A key structure: the schedules have room for the longest key. *)
Record AES_OK (a : C68K_AES) : Prop := MkAesOk {
  ao_ek : Forall is_u32 (c68k_aes_ek a);
  ao_dk : Forall is_u32 (c68k_aes_dk a);
  ao_len : length (c68k_aes_ek a) = 60%nat /\ length (c68k_aes_dk a) = 60%nat
}.

(** What the key schedule leaves. *)
Record SCHEDULED (nk : nat) (key : list Z) (a : C68K_AES) : Prop := MkScheduled {
  sc_ok : AES_OK a;
  sc_rounds : c68k_aes_rounds a = Z.of_nat (nk + 6);
  sc_ek : take (4 * (nk + 7)) (c68k_aes_ek a) = schedule_spec nk key;
  sc_inverse : inverse_keys (c68k_aes_ek a) (c68k_aes_dk a) (nk + 6)
}.

Definition key_size (nk : nat) : Prop := nk = 4%nat \/ nk = 6%nat \/ nk = 8%nat.

Lemma schedules_ok nk a key : key_size nk -> bytes_ok key -> 4 * Z.of_nat nk <= len key -> AES_OK a ->
  exists a', key_schedules built a key nk = Val a' /\ SCHEDULED nk key a'.
Proof.
  intros Hn Hk Hl [Ue Ud [Le Ld]]. unfold key_size in Hn. unfold key_schedules. cbv zeta.
  destruct (load_key_val nk 0 key (c68k_aes_ek a) Hk) as (e0 & -> & E0 & L0 & U0); [lia|lia|done|]. cbn [obind].
  destruct (expand_key_spec (4 * (nk + 6 + 1) - nk) nk nk e0) as (E1 & U1 & L1); [lia|lia|lia|done|].
  set (ek := expand_key _ _ _ _ _) in *. clearbody ek.
  destruct (reverse_keys_val (nk + 6) ek (nk + 6 + 1) 0 (c68k_aes_dk a)) as (L2 & U2 & V2); [lia|done|done|].
  set (d0 := reverse_keys _ _ _ _ _) in *. clearbody d0.
  destruct (invmix_keys_val (nk + 6 - 1) 1 d0) as (L3 & U3 & V3); [lia|done|]. set (dk := invmix_keys _ _ _) in *. clearbody dk.
  eexists. split; [reflexivity|]. split; cbn [c68k_aes_ek c68k_aes_dk c68k_aes_rounds]; [split; [done|done|cbn; lia]|done| |].
  - unfold schedule_spec. change (take 0 (c68k_aes_ek a)) with (@nil Z) in E0. change (Z.to_nat (4 * Z.of_nat 0)) with 0%nat in E0.
    rewrite drop_0 in E0. cbn [app Nat.add] in E0. rewrite <- E0. replace (4 * (nk + 7))%nat with (nk + (4 * (nk + 6 + 1) - nk))%nat by lia. rewrite E1. f_equal. lia.
  - intros j Hj. rewrite !V3, !V2 by done. replace (nk + 6 - 0)%nat with (nk + 6)%nat by lia. rewrite Nat.sub_diag.
    repeat match goal with |- context [(?x <=? ?y)%nat] => destruct (Nat.leb_spec x y); try lia | |- context [(?x <? ?y)%nat] => destruct (Nat.ltb_spec x y); try lia end.
    cbn [andb]. split; [done|]. split; [done|]. intros r Hr. rewrite V3, V2 by done.
    repeat match goal with |- context [(?x <=? ?y)%nat] => destruct (Nat.leb_spec x y); try lia | |- context [(?x <? ?y)%nat] => destruct (Nat.ltb_spec x y); try lia end. done.
Qed.
