(* ===== verification/AesBlocks.v ===== *)
(** * Blocks and chains

    The state words in memory, and cipher block chaining over any block transformation. *)

From Stdlib Require Import ZArith Lia.
From stdpp Require Import base numbers list.
From S2P Require Import Prelude Checksum RxSpec TxSum Poly1305 Poly1305Spec Poly1305Claims ChachaSpec Aes AesTables AesSpec AesKeys.
#[local] Open Scope Z_scope.

Local Abbreviation len m := (Z.of_nat (length m)).
#[local] Opaque join4.

(** ** A block in memory *)

(** The words of sixteen bytes. *)
Definition quad_of (b : list Z) : quad :=
  let w i := join4 (byte b i) (byte b (i + 1)) (byte b (i + 2)) (byte b (i + 3)) in Quad (w 0) (w 4) (w 8) (w 12).

Lemma byte_slice m p n i : 0 <= p -> 0 <= i < n -> p + n <= len m -> byte (slice m p n) i = byte m (p + i).
Proof.
  intros Hp Hi Hl. unfold byte. rewrite !nth_lookup, slice_lookup by lia. do 2 f_equal. lia.
Qed.

Lemma be32_slice m p : bytes_ok m -> 0 <= p -> p + 4 <= len m ->
  be32 (join4 (byte m p) (byte m (p + 1)) (byte m (p + 2)) (byte m (p + 3))) = slice m p 4.
Proof. intros Hb Hp Hl. rewrite be32_join by (by apply byte_range). by rewrite slice_bytes4. Qed.

Lemma load_state_val m p : bytes_ok m -> 0 <= p -> p + 16 <= len m ->
  load_state m p = Val (quad_of (slice m p 16)) /\ quad_ok (quad_of (slice m p 16)) /\ bytes_of (quad_of (slice m p 16)) = slice m p 16.
Proof.
  intros Hb Hp Hl.
  assert (W : forall i, 0 <= i <= 12 -> let s := slice m p 16 in
    join4 (byte s i) (byte s (i + 1)) (byte s (i + 2)) (byte s (i + 3)) = join4 (byte m (p + i)) (byte m (p + i + 1)) (byte m (p + i + 2)) (byte m (p + i + 3))).
  { intros i Hi. cbv zeta. rewrite !byte_slice by lia. by rewrite !Z.add_assoc. }
  unfold load_state, quad_of. cbv zeta. rewrite (W 0), (W 4), (W 8), (W 12) by lia. rewrite Z.add_0_r.
  destruct (load_be_bytes m p Hb) as [-> U0]; [lia..|]. destruct (load_be_bytes m (p + 4) Hb) as [-> U1]; [lia..|].
  destruct (load_be_bytes m (p + 8) Hb) as [-> U2]; [lia..|]. destruct (load_be_bytes m (p + 12) Hb) as [-> U3]; [lia..|]. cbn [obind].
  split; [done|]. split; [done|]. unfold bytes_of. cbn [q0 q1 q2 q3]. rewrite !be32_slice by (done || lia).
  change 16 with (4 + (4 + (4 + 4))). rewrite !slice_more by lia. by replace (p + 4 + 4) with (p + 8) by lia; replace (p + 8 + 4) with (p + 12) by lia.
Qed.

Lemma bytes_of_length q : length (bytes_of q) = 16%nat.
Proof. done. Qed.

Lemma bytes_of_bytes q : bytes_ok (bytes_of q).
Proof. unfold bytes_of, be32. repeat constructor; apply u8_range. Qed.

Lemma quad_of_bytes q : quad_ok q -> quad_of (bytes_of q) = q.
Proof.
  intros (H0 & H1 & H2 & H3). unfold bytes_of. rewrite !be32_word by done. unfold quad_of. cbv zeta.
  destruct (bytes_of_word _ H0) as (_ & _ & _ & _ & E0). destruct (bytes_of_word _ H1) as (_ & _ & _ & _ & E1).
  destruct (bytes_of_word _ H2) as (_ & _ & _ & _ & E2). destruct (bytes_of_word _ H3) as (_ & _ & _ & _ & E3).
  transitivity (Quad (join4 (B0 (q0 q)) (B1 (q0 q)) (B2 (q0 q)) (B3 (q0 q))) (join4 (B0 (q1 q)) (B1 (q1 q)) (B2 (q1 q)) (B3 (q1 q)))
    (join4 (B0 (q2 q)) (B1 (q2 q)) (B2 (q2 q)) (B3 (q2 q))) (join4 (B0 (q3 q)) (B1 (q3 q)) (B2 (q3 q)) (B3 (q3 q)))); [reflexivity|].
  rewrite E0, E1, E2, E3. by destruct q.
Qed.

Lemma store_be_val m p i v : 0 <= p -> p + len i + 4 <= len m -> c68k_aes_store_be (splice m p i) (p + len i) v = Val (splice m p (i ++ be32 v)).
Proof.
  intros Hp Hl. unfold c68k_aes_store_be.
  assert (S : forall j a x, a = p + len j -> a + 1 <= len m -> store8 (splice m p j) a x = Val (splice m p (j ++ [x]))).
  { intros j a x -> Ha. rewrite store8_splice by (rewrite splice_length; lia). f_equal. apply splice_splice; [lia|]. simpl length. lia. }
  rewrite (S i) by (done || lia). cbn [obind]. rewrite S by (rewrite ?length_app; cbn [length]; lia). cbn [obind].
  rewrite S by (rewrite ?length_app; cbn [length]; lia). cbn [obind]. rewrite S by (rewrite ?length_app; cbn [length]; lia). by rewrite <- !app_assoc.
Qed.

Lemma store_state_val m p st : 0 <= p -> p + 16 <= len m -> store_state m p st = Val (splice m p (bytes_of st)).
Proof.
  intros Hp Hl. unfold store_state. pose proof (store_be_val m p [] (q0 st)) as E0. cbn [length] in E0. rewrite splice_empty, Z.add_0_r in E0. rewrite E0 by (simpl; lia). cbn [obind app].
  pose proof (store_be_val m p (be32 (q0 st)) (q1 st) Hp) as E1. change (p + len (be32 (q0 st))) with (p + 4) in E1. rewrite E1 by lia. cbn [obind].
  pose proof (store_be_val m p (be32 (q0 st) ++ be32 (q1 st)) (q2 st) Hp) as E2. change (p + len (be32 (q0 st) ++ be32 (q1 st))) with (p + 8) in E2. rewrite E2 by lia. cbn [obind].
  pose proof (store_be_val m p ((be32 (q0 st) ++ be32 (q1 st)) ++ be32 (q2 st)) (q3 st) Hp) as E3.
  change (p + len ((be32 (q0 st) ++ be32 (q1 st)) ++ be32 (q2 st))) with (p + 12) in E3. rewrite E3 by lia. by rewrite <- !app_assoc.
Qed.

(** Sixteen bytes are the words they are loaded as. *)
Definition block (b : list Z) : Prop := bytes_ok b /\ length b = 16%nat.

Lemma block_quad b : block b -> quad_ok (quad_of b) /\ bytes_of (quad_of b) = b.
Proof.
  intros [Hb Lb]. destruct (load_state_val b 0 Hb) as (_ & H1 & H2); [lia|lia|]. rewrite slice_all in H1, H2 by lia. done.
Qed.

Lemma bytes_block q : block (bytes_of q).
Proof. split; [apply bytes_of_bytes|apply bytes_of_length]. Qed.

Lemma slice_block m p : bytes_ok m -> 0 <= p -> p + 16 <= len m -> block (slice m p 16).
Proof. intros Hb Hp Hl. split; [by apply bytes_slice|apply Nat2Z.inj; by rewrite slice_length by lia]. Qed.

Lemma xor_quad_ok a b : quad_ok a -> quad_ok b -> quad_ok (xor_quad a b).
Proof. intros (H0 & H1 & H2 & H3) (K0 & K1 & K2 & K3). unfold quad_ok, xor_quad. cbn [q0 q1 q2 q3]. split_and!; by apply xor_u32. Qed.

Lemma xor_quad_bytes a b : bytes_of (xor_quad a b) = xor_list (bytes_of a) (bytes_of b).
Proof. unfold bytes_of, xor_quad, xor_list. cbn [q0 q1 q2 q3]. rewrite !be32_xor. by rewrite !zip_with_app. Qed.

Lemma xor_quad_twice a b : xor_quad (xor_quad a b) a = b.
Proof.
  assert (X : forall x y, Z.lxor (Z.lxor x y) x = y) by (intros x y; rewrite (Z.lxor_comm x y); apply xor_cancel).
  unfold xor_quad. cbn [q0 q1 q2 q3]. rewrite !X. by destruct b.
Qed.

(** ** Cipher block chaining *)

Fixpoint cbc_spec (E : list Z -> list Z) (n : nat) (iv data : list Z) : list Z :=
  match n with
  | O => []
  | S n => let c := E (xor_list iv (take 16 data)) in c ++ cbc_spec E n c (drop 16 data)
  end.

(** What the next block is chained to: the last block, or the vector when there is none. *)
Definition next_iv (iv ct : list Z) : list Z := drop (length ct) (iv ++ ct).

Lemma next_iv_step iv c ct : length iv = length c -> next_iv iv (c ++ ct) = next_iv c ct.
Proof.
  intros L. unfold next_iv. rewrite length_app, <- L, <- drop_drop. by rewrite drop_app_length.
Qed.

Lemma next_iv_nil iv : next_iv iv [] = iv.
Proof. unfold next_iv. by rewrite app_nil_r. Qed.

Section chain.
Context (enc dec : quad -> quad) (E : list Z -> list Z).
Context (Henc : forall q, quad_ok q -> quad_ok (enc q) /\ bytes_of (enc q) = E (bytes_of q)).

(** Both loops over a data area that does not run into what is still to be read. *)
Lemma enc_loop n : forall st mem in_ out,
  quad_ok st -> bytes_ok mem -> 0 <= in_ -> 0 <= out -> in_ + 16 * Z.of_nat n <= len mem -> out + 16 * Z.of_nat n <= len mem -> apart in_ out (16 * Z.of_nat n) ->
  let ct := cbc_spec E n (bytes_of st) (slice mem in_ (16 * Z.of_nat n)) in
  length ct = (16 * n)%nat /\ bytes_ok ct /\
  exists st', cbc_enc_loop enc n st mem in_ out = Val (st', splice mem out ct) /\ quad_ok st' /\ bytes_of st' = next_iv (bytes_of st) ct.
Proof.
  induction n as [|n IH]; intros st mem in_ out Hs Hb Hi Ho Hl Hl' Ha; cbn [cbc_enc_loop cbc_spec].
  { split; [done|]. split; [constructor|]. exists st. by rewrite splice_empty, next_iv_nil. }
  cbv zeta. destruct (load_state_val mem in_ Hb Hi) as (-> & Q & Eq); [lia|]. cbn [obind].
  replace (16 * Z.of_nat (S n)) with (16 + 16 * Z.of_nat n) by lia. rewrite slice_more by lia.
  rewrite (take_app_length' _ _ 16) by (apply Nat2Z.inj; by rewrite slice_length by lia). rewrite (drop_app_length' _ _ 16) by (apply Nat2Z.inj; by rewrite slice_length by lia).
  set (q := xor_quad st (quad_of (slice mem in_ 16))). destruct (Henc q) as [Oe Ee]; [by apply xor_quad_ok|].
  assert (Ec : E (xor_list (bytes_of st) (slice mem in_ 16)) = bytes_of (enc q)) by (rewrite Ee; unfold q; by rewrite xor_quad_bytes, Eq).
  rewrite Ec. clear Ec Ee. set (c := enc q) in *. clearbody c. clear q.
  rewrite store_state_val by lia. cbn [obind].
  assert (L : length (splice mem out (bytes_of c)) = length mem) by (apply splice_length; rewrite ?bytes_of_length; lia).
  destruct (IH c (splice mem out (bytes_of c)) (in_ + 16) (out + 16)) as (Lc & Bc & st' & E1 & Q1 & V1);
    [done|apply splice_bytes; [done|apply bytes_of_bytes]|lia|lia|lia|lia|unfold apart in *; lia|].
  rewrite slice_splice_out in Lc, Bc, E1, V1 by (rewrite ?bytes_of_length; unfold apart in Ha; lia).
  set (ct := cbc_spec E n (bytes_of c) (slice mem (in_ + 16) (16 * Z.of_nat n))) in *. clearbody ct.
  split; [rewrite length_app, bytes_of_length; lia|]. split; [apply Forall_app; split; [apply bytes_of_bytes|done]|].
  exists st'. rewrite E1. split; [|split; [done|]].
  - f_equal. f_equal. apply (splice_splice mem out (bytes_of c)); [lia|]. rewrite bytes_of_length. lia.
  - by rewrite next_iv_step.
Qed.

Lemma dec_loop (Hdec : forall q, quad_ok q -> dec (enc q) = q) n : forall p mem in_ out data,
  quad_ok p -> bytes_ok mem -> 0 <= in_ -> 0 <= out -> in_ + 16 * Z.of_nat n <= len mem -> out + 16 * Z.of_nat n <= len mem -> apart in_ out (16 * Z.of_nat n) ->
  bytes_ok data -> length data = (16 * n)%nat -> slice mem in_ (16 * Z.of_nat n) = cbc_spec E n (bytes_of p) data ->
  exists p', cbc_dec_loop dec n p mem in_ out = Val (p', splice mem out data) /\ quad_ok p' /\ bytes_of p' = next_iv (bytes_of p) (cbc_spec E n (bytes_of p) data).
Proof.
  induction n as [|n IH]; intros p mem in_ out data Hp Hb Hi Ho Hl Hl' Ha Hd Ld Hm; cbn [cbc_dec_loop cbc_spec].
  { destruct data; [|simpl in Ld; lia]. exists p. by rewrite splice_empty, next_iv_nil. }
  assert (Bd : block (take 16 data)) by (split; [by apply bytes_take|rewrite length_take; lia]). destruct (block_quad _ Bd) as [Ox Ex].
  set (x := quad_of (take 16 data)) in *. clearbody x.
  cbn [cbc_spec] in Hm. cbv zeta in Hm |- *. rewrite <- Ex, <- xor_quad_bytes in Hm |- *. set (q := xor_quad p x) in *.
  assert (Oq : quad_ok q) by by apply xor_quad_ok. destruct (Henc q Oq) as [Oe Ee]. rewrite <- Ee in Hm |- *.
  replace (16 * Z.of_nat (S n)) with (16 + 16 * Z.of_nat n) in Hm by lia. rewrite slice_more in Hm by lia.
  apply app_inj_1 in Hm as [Hc Hm]; [|apply Nat2Z.inj; by rewrite slice_length, bytes_of_length by lia].
  destruct (load_state_val mem in_ Hb Hi) as (-> & _ & _); [lia|]. cbn [obind]. rewrite Hc, (quad_of_bytes _ Oe), (Hdec q Oq).
  unfold q at 1. rewrite xor_quad_twice. rewrite store_state_val by lia. cbn [obind].
  assert (L : length (splice mem out (bytes_of x)) = length mem) by (apply splice_length; rewrite ?bytes_of_length; lia).
  destruct (IH (enc q) (splice mem out (bytes_of x)) (in_ + 16) (out + 16) (drop 16 data)) as (p' & E1 & Q1 & V1);
    [done|apply splice_bytes; [done|apply bytes_of_bytes]|lia|lia|lia|lia|unfold apart in *; lia|by apply bytes_drop|rewrite length_drop; lia| |].
  { by rewrite slice_splice_out by (rewrite ?bytes_of_length; unfold apart in Ha; lia). }
  exists p'. rewrite E1. split; [|split; [done|by rewrite next_iv_step]]. f_equal. f_equal.
  change (out + 16) with (out + len (bytes_of x)). rewrite splice_splice by (rewrite ?length_drop, ?bytes_of_length; lia). by rewrite Ex, take_drop.
Qed.
End chain.

Lemma cbc_spec_app E a b : forall iv data, length iv = 16%nat -> (forall x, length (E x) = 16%nat) ->
  cbc_spec E (a + b) iv data = cbc_spec E a iv data ++ cbc_spec E b (next_iv iv (cbc_spec E a iv data)) (drop (16 * a) data).
Proof.
  intros iv data Li HE. revert iv data Li. induction a as [|a IH]; intros iv data Li; cbn [Nat.add cbc_spec app]; [by rewrite next_iv_nil, drop_0|].
  cbv zeta. rewrite IH by apply HE. rewrite <- app_assoc. do 2 f_equal. rewrite next_iv_step by (by rewrite HE). f_equal. rewrite drop_drop. f_equal. lia.
Qed.

Lemma cbc_spec_take E a : forall iv data k, (16 * a <= k)%nat -> cbc_spec E a iv (take k data) = cbc_spec E a iv data.
Proof.
  induction a as [|a IH]; intros iv data k Hk; cbn [cbc_spec]; [done|]. cbv zeta. rewrite take_take, (Nat.min_l 16) by lia. f_equal.
  rewrite skipn_firstn_comm. apply IH. lia.
Qed.

Lemma next_iv_app iv a b : next_iv iv (a ++ b) = next_iv (next_iv iv a) b.
Proof.
  unfold next_iv. rewrite length_app, <- drop_drop, app_assoc. f_equal. by rewrite drop_app_le by (rewrite length_app; lia).
Qed.

Lemma next_iv_length iv ct : length (next_iv iv ct) = length iv.
Proof. unfold next_iv. rewrite length_drop, length_app. lia. Qed.

Lemma next_iv_block iv ct : block iv -> bytes_ok ct -> block (next_iv iv ct).
Proof.
  intros [Bi Li] Bc. split; [|by rewrite next_iv_length]. apply bytes_drop. by apply Forall_app.
Qed.

Lemma cbc_spec_length E n : (forall x, length (E x) = 16%nat) -> forall iv data, length (cbc_spec E n iv data) = (16 * n)%nat.
Proof. intros HE. induction n as [|n IH]; intros iv data; cbn [cbc_spec]; [done|]. cbv zeta. rewrite length_app, HE, IH. lia. Qed.
