(* ===== verification/AesClaims.v ===== *)
(** * What AES guarantees

    A key of any of the three sizes, a block either way, and a record chained over
    several calls. *)

From Stdlib Require Import ZArith Lia.
From stdpp Require Import base numbers list.
From S2P Require Import Prelude Checksum RxSpec TxSum Poly1305 Poly1305Spec Poly1305Claims ChachaSpec ChachaAead ChachaClaims.
From S2P Require Import Aes AesTables AesSpec AesKeys AesBlocks.
#[local] Open Scope Z_scope.

Local Abbreviation len m := (Z.of_nat (length m)).
#[local] Opaque join4 c68k_aes_tables_init tables0 c68k_aes_subword c68k_aes_enc_sbox c68k_aes_dec_sbox.

(** The portable cores: no assembly in the build, or a variant that does not use it. *)
Definition portable (variant : Z) (asm : option ASM_CORES) : Prop :=
  asm = None \/ variant <> C68K_AES_V_T4_ASM /\ variant <> C68K_AES_V_T1_ASM.

Lemma enc_portable T v asm rk nr st : portable v asm -> c68k_aes_enc_dispatch T v asm rk nr st = c68k_aes_enc_dispatch T v None rk nr st.
Proof.
  intros [->|[H4 H1]]; [done|]. unfold c68k_aes_enc_dispatch. destruct asm; [|done].
  by rewrite (proj2 (Z.eqb_neq _ _) H4), (proj2 (Z.eqb_neq _ _) H1).
Qed.
Lemma dec_portable T v asm rk nr st : portable v asm -> c68k_aes_dec_dispatch T v asm rk nr st = c68k_aes_dec_dispatch T v None rk nr st.
Proof.
  intros [->|[H4 H1]]; [done|]. unfold c68k_aes_dec_dispatch. destruct asm; [|done].
  by rewrite (proj2 (Z.eqb_neq _ _) H4), (proj2 (Z.eqb_neq _ _) H1).
Qed.

(** One call per number of blocks, each going on where the one before ended, with the
    vector it left. *)
Fixpoint cbc_calls (step : list Z -> list Z -> Z -> Z -> Z -> outcome (list Z * list Z)) (iv mem : list Z) (in_ out : Z) (counts : list Z) : outcome (list Z * list Z) :=
  match counts with
  | [] => Val (iv, mem)
  | n :: counts =>
      let! r := step iv mem in_ out n in
      let '(iv, mem) := r in
      cbc_calls step iv mem (in_ + 16 * n) (out + 16 * n) counts
  end.

(** ** One key *)

Definition key_words_of (key_bits : Z) : nat := Z.to_nat (key_bits / 32).
(** The cipher of FIPS 197 under a key of this size. *)
Definition aes_spec (key_bits : Z) (key : list Z) : list Z -> list Z :=
  cipher (key_words_of key_bits + 6) (schedule_spec (key_words_of key_bits) key).

Definition aes_bits (key_bits : Z) : Prop := key_bits = 128 \/ key_bits = 192 \/ key_bits = 256.

Lemma key_set_ok S P I T aes key key_bits :
  T = tables0 \/ T = c68k_aes_tables_init tables0 -> aes_bits key_bits -> AES_OK aes -> bytes_ok key -> key_bits / 8 <= len key ->
  exists a, c68k_aes_key_set S P I T (Some aes) (Some key) key_bits = Val (S, built, Some a) /\ SCHEDULED (key_words_of key_bits) key a /\
    key_size (key_words_of key_bits).
Proof.
  intros HT Hb Ha Hk Hl. unfold c68k_aes_key_set.
  assert (Eb : negb (key_bits =? 128) && negb (key_bits =? 192) && negb (key_bits =? 256) = false) by (destruct Hb as [->|[->| ->]]; reflexivity).
  rewrite Eb. clear Eb. assert (ET : c68k_aes_tables_init T = built) by (destruct HT as [->| ->]; rewrite built_once; [exact eq_refl|exact built_ready]). rewrite ET. clear ET. cbv zeta.
  assert (Ew : Z.to_nat (Z.shiftr key_bits 5) = key_words_of key_bits) by (unfold key_words_of; rewrite Z.shiftr_div_pow2 by lia; reflexivity).
  assert (Hn : key_size (key_words_of key_bits)) by (unfold key_size; destruct Hb as [->|[->| ->]]; [left|right;left|right;right]; reflexivity).
  assert (Ln : 4 * Z.of_nat (key_words_of key_bits) <= len key) by (destruct Hb as [->|[->| ->]]; exact Hl).
  rewrite Ew. destruct (schedules_ok _ aes key Hn Hk Ln Ha) as (a & E & Hs). exists a. rewrite E. cbn [obind]. done.
Qed.

Lemma enc_sbox_ok rk nr st : Forall is_u32 rk -> quad_ok st -> quad_ok (c68k_aes_enc_sbox built rk nr st).
Proof.
  intros Hk Hs. with_strategy transparent [c68k_aes_enc_sbox] unfold c68k_aes_enc_sbox. unfold core. cbv zeta. apply xor_key_ok; [done|]. apply enc_bytes_ok.
  assert (H : forall n r s, quad_ok s -> quad_ok (core_rounds (enc_round_sbox built) n r rk s)).
  { induction n as [|n IH]; intros r s Hq; [done|]. cbn [core_rounds]. apply IH. by apply enc_round_ok. }
  apply H. by apply xor_key_ok.
Qed.

Section keyed.
Context (key_bits : Z) (key : list Z) (a : C68K_AES).
Context (Hs : SCHEDULED (key_words_of key_bits) key a) (Hn : key_size (key_words_of key_bits)).
Local Abbreviation enc v asm := (c68k_aes_enc_dispatch built v asm (c68k_aes_ek a) (Z.to_nat (c68k_aes_rounds a))).
Local Abbreviation dec v asm := (c68k_aes_dec_dispatch built v asm (c68k_aes_dk a) (Z.to_nat (c68k_aes_rounds a))).

Lemma rounds_nat : Z.to_nat (c68k_aes_rounds a) = (key_words_of key_bits + 6)%nat.
Proof. rewrite (sc_rounds _ _ _ Hs). apply Nat2Z.id. Qed.

Lemma enc_cipher v asm : portable v asm -> forall q, quad_ok q -> quad_ok (enc v asm q) /\ bytes_of (enc v asm q) = aes_spec key_bits key (bytes_of q).
Proof.
  intros Hp q Hq. pose proof (ao_ek _ (sc_ok _ _ _ Hs)) as Ue. rewrite enc_portable by done. rewrite (enc_dispatch_sbox v _ _ q Ue Hq).
  split; [by apply enc_sbox_ok|]. rewrite (core_cipher _ _ _ Ue Hq), rounds_nat. unfold aes_spec. apply cipher_prefix; [lia|].
  rewrite <- (sc_ek _ _ _ Hs), take_take. f_equal. lia.
Qed.

Lemma dec_cipher v w asm asm' : portable v asm -> portable w asm' -> forall q, quad_ok q -> dec w asm' (enc v asm q) = q.
Proof.
  intros Hp Hp' q Hq. pose proof (ao_ek _ (sc_ok _ _ _ Hs)) as Ue. pose proof (ao_dk _ (sc_ok _ _ _ Hs)) as Ud.
  rewrite enc_portable, dec_portable by done. rewrite (enc_dispatch_sbox v _ _ q Ue Hq).
  rewrite (dec_dispatch_sbox w _ _ _ Ud (enc_sbox_ok _ _ _ Ue Hq)). rewrite rounds_nat. apply dec_enc; [apply Hs|lia|done|done].
Qed.

Local Abbreviation E := (aes_spec key_bits key).
Local Abbreviation text mem at_ n := (slice mem at_ (16 * n)).

Lemma spec_length x : length (E x) = 16%nat.
Proof. unfold aes_spec, cipher. cbv zeta. unfold add_round_key. rewrite length_zip_with. unfold shift_rows. rewrite length_fmap, length_seq. reflexivity. Qed.

(** One call. *)
Lemma cbc_encrypt_val v asm iv mem in_ out n : portable v asm -> block iv -> bytes_ok mem -> 0 <= n -> 0 <= in_ -> 0 <= out ->
  in_ + 16 * n <= len mem -> out + 16 * n <= len mem -> apart in_ out (16 * n) ->
  let ct := cbc_spec E (Z.to_nat n) iv (text mem in_ n) in
  c68k_aes_cbc_encrypt built v asm a iv mem in_ out n = Val (next_iv iv ct, splice mem out ct) /\ block (next_iv iv ct) /\ bytes_ok ct /\ length ct = (16 * Z.to_nat n)%nat.
Proof.
  intros Hp [Bi Li] Hb Hz Hi Ho Hl Hl' Ha. unfold c68k_aes_cbc_encrypt. destruct (load_state_val iv 0 Bi) as (-> & Q & Eq); [lia|lia|]. cbn [obind].
  rewrite slice_all in Q, Eq |- * by lia.
  destruct (enc_loop (enc v asm) E (enc_cipher v asm Hp) (Z.to_nat n) (quad_of iv) mem in_ out) as (Lc & Bc & st & R & Qs & Vs);
    [done|done|lia|lia|lia|lia|by rewrite Z2Nat.id|]. rewrite R. cbn [obind]. rewrite Z2Nat.id in * by lia. rewrite Eq in Lc, Bc, Vs |- *.
  split; [|split; [rewrite <- Vs; apply bytes_block|done]]. destruct (n =? 0) eqn:E0; cbn [negb].
  - apply Z.eqb_eq in E0 as ->. change (Z.to_nat 0) with 0%nat in *. cbn [cbc_spec] in *. by rewrite next_iv_nil.
  - rewrite store_state_val by lia. cbn [obind]. rewrite splice_whole by (rewrite bytes_of_length; lia). by rewrite Vs.
Qed.

Lemma cbc_decrypt_val v asm iv mem in_ out n data : portable v asm -> block iv -> bytes_ok mem -> 0 <= n -> 0 <= in_ -> 0 <= out ->
  in_ + 16 * n <= len mem -> out + 16 * n <= len mem -> apart in_ out (16 * n) -> bytes_ok data -> len data = 16 * n -> text mem in_ n = cbc_spec E (Z.to_nat n) iv data ->
  c68k_aes_cbc_decrypt built v asm a iv mem in_ out n = Val (next_iv iv (text mem in_ n), splice mem out data).
Proof.
  intros Hp [Bi Li] Hb Hz Hi Ho Hl Hl' Ha Bd Ld Hm. unfold c68k_aes_cbc_decrypt. destruct (load_state_val iv 0 Bi) as (-> & Q & Eq); [lia|lia|]. cbn [obind].
  rewrite slice_all in Q, Eq |- * by lia.
  destruct (dec_loop (enc v asm) (dec v asm) E (enc_cipher v asm Hp) (dec_cipher v v asm asm Hp Hp) (Z.to_nat n) (quad_of iv) mem in_ out data) as (st & R & Qs & Vs);
    [done|done|lia|lia|lia|lia|by rewrite Z2Nat.id|done|lia|rewrite Z2Nat.id by lia; by rewrite Eq|].
  rewrite R. cbn [obind]. rewrite Eq in Vs. rewrite Hm. destruct (n =? 0) eqn:E0; cbn [negb].
  - apply Z.eqb_eq in E0 as ->. change (Z.to_nat 0) with 0%nat in *. cbn [cbc_spec obind]. by rewrite next_iv_nil.
  - rewrite store_state_val by lia. cbn [obind]. rewrite splice_whole by (rewrite bytes_of_length; lia). by rewrite Vs.
Qed.

(** Any number of calls. *)
Lemma encrypt_calls v asm counts : portable v asm -> forall iv mem in_ out, Forall (fun n => 0 <= n) counts ->
  block iv -> bytes_ok mem -> 0 <= in_ -> 0 <= out -> in_ + 16 * total counts <= len mem -> out + 16 * total counts <= len mem -> apart in_ out (16 * total counts) ->
  let ct := cbc_spec E (Z.to_nat (total counts)) iv (text mem in_ (total counts)) in
  cbc_calls (c68k_aes_cbc_encrypt built v asm a) iv mem in_ out counts = Val (next_iv iv ct, splice mem out ct) /\ bytes_ok ct /\ len ct = 16 * total counts.
Proof.
  intros Hp. induction counts as [|n l IH]; intros iv mem in_ out Hc Hi Hb Zi Zo Hl Hl' Ha; cbn [cbc_calls].
  { cbn [total foldr]. change (Z.to_nat 0) with 0%nat. cbn [cbc_spec]. rewrite next_iv_nil, splice_empty. split; [done|]. split; [constructor|done]. }
  apply Forall_cons in Hc as [Hz Hc]. pose proof (total_nonneg l Hc) as Ht. change (total (n :: l)) with (n + total l) in *.
  destruct (cbc_encrypt_val v asm iv mem in_ out n Hp Hi Hb Hz Zi Zo) as (-> & Hi1 & Bc & Lc); [lia|lia|unfold apart in *; lia|]. cbn [obind].
  set (c1 := cbc_spec E (Z.to_nat n) iv (text mem in_ n)) in *.
  assert (L : length (splice mem out c1) = length mem) by (apply splice_length; lia).
  destruct (IH (next_iv iv c1) (splice mem out c1) (in_ + 16 * n) (out + 16 * n)) as (R & Bc2 & Lc2);
    [done|done|by apply splice_bytes|lia|lia|lia|lia|unfold apart in *; lia|]. rewrite R. clear IH R.
  rewrite slice_splice_out in Bc2, Lc2 |- * by (unfold apart in Ha; lia).
  set (c2 := cbc_spec E (Z.to_nat (total l)) (next_iv iv c1) (text mem (in_ + 16 * n) (total l))) in *.
  assert (Ec : cbc_spec E (Z.to_nat (n + total l)) iv (text mem in_ (n + total l)) = c1 ++ c2).
  { rewrite Z2Nat.inj_add, cbc_spec_app by (lia || apply Hi || apply spec_length). rewrite Z.mul_add_distr_l, slice_more by lia.
    rewrite <- (cbc_spec_take E (Z.to_nat n) iv _ (Z.to_nat (16 * n))) by lia.
    assert (Ls : length (text mem in_ n) = Z.to_nat (16 * n)) by (apply Nat2Z.inj; rewrite slice_length by lia; lia).
    rewrite take_app_length' by (symmetry; exact Ls). fold c1. rewrite drop_app_length' by lia. done. }
  rewrite Ec, next_iv_app. clearbody c1 c2. split; [|split; [by apply Forall_app|rewrite length_app; lia]]. f_equal. f_equal.
  replace (out + 16 * n) with (out + len c1) by lia. apply splice_splice; lia.
Qed.

Lemma decrypt_calls v asm counts : portable v asm -> forall iv mem in_ out data, Forall (fun n => 0 <= n) counts ->
  block iv -> bytes_ok mem -> 0 <= in_ -> 0 <= out -> in_ + 16 * total counts <= len mem -> out + 16 * total counts <= len mem -> apart in_ out (16 * total counts) ->
  bytes_ok data -> len data = 16 * total counts -> text mem in_ (total counts) = cbc_spec E (Z.to_nat (total counts)) iv data ->
  cbc_calls (c68k_aes_cbc_decrypt built v asm a) iv mem in_ out counts = Val (next_iv iv (text mem in_ (total counts)), splice mem out data).
Proof.
  intros Hp. induction counts as [|n l IH]; intros iv mem in_ out data Hc Hi Hb Zi Zo Hl Hl' Ha Bd Ld Hm; cbn [cbc_calls].
  { rewrite Hm. cbn [total foldr] in *. change (Z.to_nat 0) with 0%nat. cbn [cbc_spec]. rewrite next_iv_nil. destruct data; [by rewrite splice_empty|simpl in Ld; lia]. }
  apply Forall_cons in Hc as [Hz Hc]. pose proof (total_nonneg l Hc) as Ht. change (total (n :: l)) with (n + total l) in *.
  set (d1 := take (Z.to_nat (16 * n)) data). set (d2 := drop (Z.to_nat (16 * n)) data).
  assert (L1 : len d1 = 16 * n) by (unfold d1; rewrite length_take; lia). assert (L2 : len d2 = 16 * total l) by (unfold d2; rewrite length_drop; lia).
  rewrite Z2Nat.inj_add, cbc_spec_app in Hm by (lia || apply Hi || apply spec_length). rewrite Z.mul_add_distr_l, slice_more in Hm |- * by lia.
  rewrite <- (cbc_spec_take E (Z.to_nat n) iv data (Z.to_nat (16 * n))) in Hm by lia. fold d1 in Hm.
  replace (16 * Z.to_nat n)%nat with (Z.to_nat (16 * n)) in Hm by lia. fold d2 in Hm.
  apply app_inj_1 in Hm as [Hm1 Hm2]; [|rewrite cbc_spec_length by apply spec_length; apply Nat2Z.inj; rewrite slice_length by lia; lia].
  assert (Bd1 : bytes_ok d1) by by apply bytes_take. assert (Bd2 : bytes_ok d2) by by apply bytes_drop.
  rewrite (cbc_decrypt_val v asm iv mem in_ out n d1) by (done || unfold apart in *; lia). cbn [obind].
  rewrite <- Hm1 in Hm2. assert (L : length (splice mem out d1) = length mem) by (apply splice_length; lia).
  assert (Eo : text (splice mem out d1) (in_ + 16 * n) (total l) = text mem (in_ + 16 * n) (total l)) by (apply slice_splice_out; unfold apart in Ha; lia).
  rewrite (IH _ (splice mem out d1) (in_ + 16 * n) (out + 16 * n) d2);
    [|done|by apply next_iv_block, bytes_slice|by apply splice_bytes|lia|lia|lia|lia|unfold apart in *; lia|done|done|by rewrite Eo].
  rewrite Eo, next_iv_app. f_equal. f_equal. replace (out + 16 * n) with (out + len d1) by lia. rewrite splice_splice by lia. unfold d1, d2. by rewrite take_drop.
Qed.
End keyed.

Section claims.
Context (NX_CRYPTO_SUCCESS NX_CRYPTO_PTR_ERROR NX_CRYPTO_INVALID_PARAMETER : Z).
Local Abbreviation key_set := (c68k_aes_key_set NX_CRYPTO_SUCCESS NX_CRYPTO_PTR_ERROR NX_CRYPTO_INVALID_PARAMETER).

(** C27 A key of 128, 192 or 256 bits is accepted, the shared tables come out the same
    whether this call built them or found them built, and every portable core then
    computes the cipher of FIPS 197 under that key: a block encrypted, from anywhere in
    memory to anywhere, misaligned or in place, is the standard's; a block that is the
    encryption of [b] decrypts to [b], whichever core encrypted it. *)
Theorem aes_block v asm T aes key key_bits mem in_ out b
  (Hv : portable v asm) (Htables : T = tables0 \/ T = c68k_aes_tables_init tables0) (Hbits : aes_bits key_bits)
  (Haes : AES_OK aes) (Hkey : bytes_ok key) (Lkey : key_bits / 8 <= len key)
  (Hmem : bytes_ok mem) (Hin : 0 <= in_) (Lin : in_ + 16 <= len mem) (Hout : 0 <= out) (Lout : out + 16 <= len mem) (Hb : block b) :
  exists a, key_set T (Some aes) (Some key) key_bits = Val (NX_CRYPTO_SUCCESS, built, Some a) /\
    c68k_aes_encrypt_block built v asm a mem in_ out = Val (splice mem out (aes_spec key_bits key (slice mem in_ 16))) /\
    (slice mem in_ 16 = aes_spec key_bits key b -> c68k_aes_decrypt_block built v asm a mem in_ out = Val (splice mem out b)).
Proof.
  destruct (key_set_ok NX_CRYPTO_SUCCESS NX_CRYPTO_PTR_ERROR NX_CRYPTO_INVALID_PARAMETER T aes key key_bits Htables Hbits Haes Hkey Lkey) as (a & Ea & Hs & Hn).
  exists a. split; [exact Ea|]. destruct (load_state_val mem in_ Hmem Hin Lin) as (El & Q & Eq).
  unfold c68k_aes_encrypt_block, c68k_aes_decrypt_block. rewrite El. cbn [obind]. rewrite !store_state_val by done. split.
  - destruct (enc_cipher key_bits key a Hs v asm Hv _ Q) as [_ ->]. by rewrite Eq.
  - intros E. destruct (block_quad b Hb) as [Qb Eb]. destruct (enc_cipher key_bits key a Hs v asm Hv _ Qb) as [Qe Ee]. rewrite E, <- Eb, <- Ee.
    rewrite (quad_of_bytes _ Qe). by rewrite (dec_cipher key_bits key a Hs v v asm asm Hv Hv _ Qb).
Qed.

(** A record encrypted in any number of calls, empty ones included, in place or to
    a place that does not run into blocks still to be read, is the cipher block chaining
    of FIPS 197's cipher over the whole record: where it is cut does not show, and the
    vector left behind is the last block written. *)
Theorem aes_cbc v asm T aes key key_bits iv mem in_ out counts
  (Hv : portable v asm) (Htables : T = tables0 \/ T = c68k_aes_tables_init tables0) (Hbits : aes_bits key_bits)
  (Haes : AES_OK aes) (Hkey : bytes_ok key) (Lkey : key_bits / 8 <= len key)
  (Hiv : block iv) (Hmem : bytes_ok mem) (Hin : 0 <= in_) (Hout : 0 <= out) (Hcounts : Forall (fun n => 0 <= n) counts)
  (Lin : in_ + 16 * total counts <= len mem) (Lout : out + 16 * total counts <= len mem) (Hapart : apart in_ out (16 * total counts)) :
  exists a, key_set T (Some aes) (Some key) key_bits = Val (NX_CRYPTO_SUCCESS, built, Some a) /\
    let ct := cbc_spec (aes_spec key_bits key) (Z.to_nat (total counts)) iv (slice mem in_ (16 * total counts)) in
    cbc_calls (c68k_aes_cbc_encrypt built v asm a) iv mem in_ out counts = Val (next_iv iv ct, splice mem out ct).
Proof.
  destruct (key_set_ok NX_CRYPTO_SUCCESS NX_CRYPTO_PTR_ERROR NX_CRYPTO_INVALID_PARAMETER T aes key key_bits Htables Hbits Haes Hkey Lkey) as (a & Ea & Hs & Hn).
  exists a. split; [exact Ea|]. by apply (encrypt_calls key_bits key a Hs v asm counts Hv).
Qed.

(** C28 A record chained by the sender in any number of calls and opened by the receiver
    in any other division into calls, with any portable core on either side, is the record
    that was sent, and both ends are left with the same vector for the next one. *)
Theorem aes_cbc_roundtrip v w asm asm' T aes key key_bits iv mem in_ out back counts counts'
  (Hv : portable v asm) (Hw : portable w asm') (Htables : T = tables0 \/ T = c68k_aes_tables_init tables0) (Hbits : aes_bits key_bits)
  (Haes : AES_OK aes) (Hkey : bytes_ok key) (Lkey : key_bits / 8 <= len key)
  (Hiv : block iv) (Hmem : bytes_ok mem) (Hin : 0 <= in_) (Hout : 0 <= out) (Hback : 0 <= back)
  (Hcounts : Forall (fun n => 0 <= n) counts) (Hcounts' : Forall (fun n => 0 <= n) counts') (Hsame : total counts' = total counts)
  (Lin : in_ + 16 * total counts <= len mem) (Lout : out + 16 * total counts <= len mem) (Lback : back + 16 * total counts <= len mem)
  (Hapart : apart in_ out (16 * total counts)) (Hapart' : apart out back (16 * total counts)) :
  exists a iv' sent, key_set T (Some aes) (Some key) key_bits = Val (NX_CRYPTO_SUCCESS, built, Some a) /\
    cbc_calls (c68k_aes_cbc_encrypt built v asm a) iv mem in_ out counts = Val (iv', sent) /\
    cbc_calls (c68k_aes_cbc_decrypt built w asm' a) iv sent out back counts' = Val (iv', splice sent back (slice mem in_ (16 * total counts))).
Proof.
  destruct (key_set_ok NX_CRYPTO_SUCCESS NX_CRYPTO_PTR_ERROR NX_CRYPTO_INVALID_PARAMETER T aes key key_bits Htables Hbits Haes Hkey Lkey) as (a & Ea & Hs & Hn).
  destruct (encrypt_calls key_bits key a Hs v asm counts Hv iv mem in_ out) as (R & Bc & Lc); try done.
  pose proof (total_nonneg counts Hcounts) as Ht.
  set (ct := cbc_spec _ _ _ _) in *. exists a, (next_iv iv ct), (splice mem out ct). split; [exact Ea|]. split; [exact R|].
  assert (L : length (splice mem out ct) = length mem) by (apply splice_length; lia).
  assert (Es : slice (splice mem out ct) out (16 * total counts) = ct) by (rewrite <- Lc; apply slice_splice_same; lia).
  rewrite (decrypt_calls key_bits key a Hs w asm' counts' Hw iv (splice mem out ct) out back (slice mem in_ (16 * total counts)));
    rewrite ?Hsame; [by rewrite Es|done|done|by apply splice_bytes|lia|lia|lia|lia|done|by apply bytes_slice|by rewrite slice_length by lia|by rewrite Es].
Qed.
End claims.

(** The vector of appendix C.1 of FIPS 197, and the first two blocks of F.2.1 of SP 800-38A. *)
Definition ex_fips_key : list Z := [0x00; 0x01; 0x02; 0x03; 0x04; 0x05; 0x06; 0x07; 0x08; 0x09; 0x0a; 0x0b; 0x0c; 0x0d; 0x0e; 0x0f].
Definition ex_fips_plain : list Z := [0x00; 0x11; 0x22; 0x33; 0x44; 0x55; 0x66; 0x77; 0x88; 0x99; 0xaa; 0xbb; 0xcc; 0xdd; 0xee; 0xff].
Definition ex_fips_cipher : list Z := [0x69; 0xc4; 0xe0; 0xd8; 0x6a; 0x7b; 0x04; 0x30; 0xd8; 0xcd; 0xb7; 0x80; 0x70; 0xb4; 0xc5; 0x5a].
Definition ex_cbc_key : list Z := [0x2b; 0x7e; 0x15; 0x16; 0x28; 0xae; 0xd2; 0xa6; 0xab; 0xf7; 0x15; 0x88; 0x09; 0xcf; 0x4f; 0x3c].
Definition ex_cbc_iv : list Z := [0x00; 0x01; 0x02; 0x03; 0x04; 0x05; 0x06; 0x07; 0x08; 0x09; 0x0a; 0x0b; 0x0c; 0x0d; 0x0e; 0x0f].
Definition ex_cbc_plain : list Z := [0x6b; 0xc1; 0xbe; 0xe2; 0x2e; 0x40; 0x9f; 0x96; 0xe9; 0x3d; 0x7e; 0x11; 0x73; 0x93; 0x17; 0x2a; 0xae; 0x2d; 0x8a; 0x57; 0x1e; 0x03; 0xac; 0x9c; 0x9e; 0xb7; 0x6f; 0xac; 0x45; 0xaf; 0x8e; 0x51].
Definition ex_cbc_cipher : list Z := [0x76; 0x49; 0xab; 0xac; 0x81; 0x19; 0xb2; 0x46; 0xce; 0xe9; 0x8e; 0x9b; 0x12; 0xe9; 0x19; 0x7d; 0x50; 0x86; 0xcb; 0x9b; 0x50; 0x72; 0x19; 0xee; 0x95; 0xdb; 0x11; 0x3a; 0x91; 0x76; 0x78; 0xb2].
Definition ex_fresh : C68K_AES := AesCtx (replicate 60 0) (replicate 60 0) 0.

Lemma ex_fips_value : aes_spec 128 ex_fips_key ex_fips_plain = ex_fips_cipher.
Proof. vm_compute. reflexivity. Qed.
Lemma ex_cbc_value : cbc_spec (aes_spec 128 ex_cbc_key) 2 ex_cbc_iv ex_cbc_plain = ex_cbc_cipher.
Proof. vm_compute. reflexivity. Qed.

Lemma ex_fresh_ok : AES_OK ex_fresh.
Proof. split; [by apply Forall_replicate..|done]. Qed.

Lemma aes_block_witness : exists a, c68k_aes_key_set 0 7 9 tables0 (Some ex_fresh) (Some ex_fips_key) 128 = Val (0, built, Some a) /\
  c68k_aes_decrypt_block built C68K_AES_V_T1_C None a (replicate 16 0 ++ ex_fips_cipher) 16 0 = Val (ex_fips_plain ++ ex_fips_cipher).
Proof.
  destruct (aes_block 0 7 9 C68K_AES_V_T1_C None tables0 ex_fresh ex_fips_key 128 (replicate 16 0 ++ ex_fips_cipher) 16 0 ex_fips_plain) as (a & Ek & _ & Ed).
  - by left.
  - by left.
  - by left.
  - exact ex_fresh_ok.
  - exact (bytes_okb_ok ex_fips_key eq_refl).
  - done.
  - exact (bytes_okb_ok (replicate 16 0 ++ ex_fips_cipher) eq_refl).
  - done.
  - done.
  - done.
  - done.
  - exact (conj (bytes_okb_ok ex_fips_plain eq_refl) eq_refl).
  - exists a. split; [exact Ek|]. exact (Ed (eq_sym ex_fips_value)).
Defined.

Lemma aes_cbc_witness : exists a, c68k_aes_key_set 0 7 9 tables0 (Some ex_fresh) (Some ex_cbc_key) 128 = Val (0, built, Some a) /\
  cbc_calls (c68k_aes_cbc_encrypt built C68K_AES_V_T4_C None a) ex_cbc_iv ex_cbc_plain 0 0 [1; 0; 1] = Val (drop 16 ex_cbc_cipher, ex_cbc_cipher).
Proof.
  destruct (aes_cbc 0 7 9 C68K_AES_V_T4_C None tables0 ex_fresh ex_cbc_key 128 ex_cbc_iv ex_cbc_plain 0 0 [1; 0; 1]) as (a & Ek & Ec).
  - by left.
  - by left.
  - by left.
  - exact ex_fresh_ok.
  - exact (bytes_okb_ok ex_cbc_key eq_refl).
  - done.
  - exact (conj (bytes_okb_ok ex_cbc_iv eq_refl) eq_refl).
  - exact (bytes_okb_ok ex_cbc_plain eq_refl).
  - done.
  - done.
  - repeat (constructor; [lia|]). constructor.
  - done.
  - done.
  - by left.
  - exists a. split; [exact Ek|].
    change (Z.to_nat (total [1; 0; 1])) with 2%nat in Ec. change (slice ex_cbc_plain 0 (16 * total [1; 0; 1])) with ex_cbc_plain in Ec.
    rewrite ex_cbc_value in Ec. exact Ec.
Defined.

Lemma aes_cbc_roundtrip_witness : exists a iv' sent, c68k_aes_key_set 0 7 9 built (Some ex_fresh) (Some ex_cbc_key) 128 = Val (0, built, Some a) /\
  cbc_calls (c68k_aes_cbc_encrypt built C68K_AES_V_T4_C None a) ex_cbc_iv ex_cbc_plain 0 0 [1; 1] = Val (iv', sent) /\
  cbc_calls (c68k_aes_cbc_decrypt built C68K_AES_V_SBOX_C None a) ex_cbc_iv sent 0 0 [2] = Val (iv', splice sent 0 ex_cbc_plain).
Proof.
  apply (aes_cbc_roundtrip 0 7 9 C68K_AES_V_T4_C C68K_AES_V_SBOX_C None None built ex_fresh ex_cbc_key 128 ex_cbc_iv ex_cbc_plain 0 0 0 [1; 1] [2]).
  - by left.
  - by left.
  - right. by rewrite built_once.
  - by left.
  - exact ex_fresh_ok.
  - exact (bytes_okb_ok ex_cbc_key eq_refl).
  - done.
  - exact (conj (bytes_okb_ok ex_cbc_iv eq_refl) eq_refl).
  - exact (bytes_okb_ok ex_cbc_plain eq_refl).
  - done.
  - done.
  - done.
  - repeat (constructor; [lia|]). constructor.
  - repeat (constructor; [lia|]). constructor.
  - done.
  - done.
  - done.
  - done.
  - by left.
  - by left.
Defined.
