(* ===== verification/Fe25519.v ===== *)
(** * Field elements of curve 25519 (src/src/crypto68k/c68k_25519.c)

    A field element is eight little-endian 32-bit limbs, any value below 2^256.  The
    portable operations, and the interface through which the rest of the file calls
    them: the run-time choice of a kernel is a choice of instance.  Arrays of constant
    size are lists read below their length; a destination that is also an operand is
    written behind the read of the same limb, so a call is a function of the operands. *)

From Stdlib Require Import ZArith Lia.
From stdpp Require Import base numbers list.
From S2P Require Import Prelude.
#[local] Open Scope Z_scope.

Abbreviation fe := (list Z).

Definition fe_zero : fe := [0; 0; 0; 0; 0; 0; 0; 0].
Definition fe_one : fe := [1; 0; 0; 0; 0; 0; 0; 0].

(** ** Folding: 2^256 = 38 *)

(** The inner loop: the word [t] added in, limb by limb, until nothing is carried. *)
Fixpoint fold_round (r : list Z) (t : Z) : list Z * Z :=
  match r with
  | [] => ([], t)
  | x :: r =>
      if t =? 0 then (x :: r, 0)
      else
        let t := u64 (t + x) in
        let '(r, t') := fold_round r (Z.shiftr t 32) in
        (u32 t :: r, t')
  end.

Fixpoint fold_loop (fuel : nat) (r : list Z) (t : Z) : outcome fe :=
  if t =? 0 then Val r
  else
    match fuel with
    | O => Spin
    | S fuel => let '(r, t) := fold_round r t in fold_loop fuel r (u64 (t * 38))
    end.

(** Two turns are enough for every carry of the callers. *)
Definition fe_fold (r : fe) (c : Z) : outcome fe := fold_loop 2 r (u64 (c * 38)).

(** ** Addition and subtraction *)

Fixpoint add_limbs (a b : list Z) (t : Z) : list Z * Z :=
  match a, b with
  | x :: a, y :: b =>
      let t := u64 (t + u64 (x + y)) in
      let '(r, t') := add_limbs a b (Z.shiftr t 32) in
      (u32 t :: r, t')
  | _, _ => ([], t)
  end.

Definition fe_add_c (a b : fe) : outcome fe :=
  let '(r, t) := add_limbs a b 0 in
  fe_fold r (u32 t).

(** [t] is the borrow, in bit 63. *)
Fixpoint sub_limbs (a b : list Z) (t : Z) : list Z * Z :=
  match a, b with
  | x :: a, y :: b =>
      let v := u64 (u64 (x - y) - (if Z.shiftr t 63 =? 0 then 0 else 1)) in
      let t := if Z.land (Z.shiftr v 32) 1 =? 0 then 0 else 2 ^ 63 in
      let '(r, t') := sub_limbs a b t in
      (u32 v :: r, t')
  | _, _ => ([], t)
  end.

Fixpoint sub_round (r : list Z) (s : Z) : list Z * Z :=
  match r with
  | [] => ([], s)
  | x :: r =>
      let v := u64 (x - u32 s) in
      let s := Z.land (Z.shiftr v 32) 1 in
      if s =? 0 then (u32 v :: r, 0)
      else let '(r, s') := sub_round r s in (u32 v :: r, s')
  end.

Fixpoint sub_loop (fuel : nat) (r : list Z) (t : Z) : outcome fe :=
  if t =? 0 then Val r
  else
    match fuel with
    | O => Spin
    | S fuel => let '(r, t) := sub_round r 38 in sub_loop fuel r t
    end.

Definition fe_sub_c (a b : fe) : outcome fe :=
  let '(r, t) := sub_limbs a b 0 in
  sub_loop 2 r t.

(** ** Multiplication *)

(** One row: the product of [ai] and [b] added to [t], the carry stored behind it. *)
Fixpoint mac_row (ai : Z) (b t : list Z) (c : Z) : list Z :=
  match b, t with
  | y :: b, x :: t =>
      let v := u64 (u64 (u64 (ai * y) + x) + c) in
      u32 v :: mac_row ai b t (u32 (Z.shiftr v 32))
  | _, x :: t => c :: t
  | _, [] => []
  end.

(** Row [i] starts at word [i]. *)
Fixpoint mul_rows (a b t : list Z) : list Z :=
  match a with
  | [] => t
  | ai :: a =>
      match mac_row ai b t 0 with
      | x :: t => x :: mul_rows a b t
      | [] => []
      end
  end.

(** The low half and 38 times the high half. *)
Fixpoint fold_high (low high : list Z) (v : Z) : list Z * Z :=
  match low, high with
  | x :: low, y :: high =>
      let v := u64 (v + u64 (u64 (y * 38) + x)) in
      let '(r, v') := fold_high low high (Z.shiftr v 32) in
      (u32 v :: r, v')
  | _, _ => ([], v)
  end.

Definition reduce (t : list Z) : outcome fe :=
  let '(r, v) := fold_high (take 8 t) (drop 8 t) 0 in
  fe_fold r (u32 v).

Definition fe_mul_c (a b : fe) : outcome fe := reduce (mul_rows a b (replicate 16 0)).

(** Row [i] of the square starts at word [2 i + 1]; [t] starts at word [2 i]. *)
Fixpoint sqr_rows (a t : list Z) : list Z :=
  match a, t with
  | ai :: a, x :: t =>
      match mac_row ai a t 0 with
      | y :: t => x :: y :: sqr_rows a t
      | [] => [x]
      end
  | _, _ => t
  end.

Fixpoint double_words (t : list Z) (c : Z) : list Z :=
  match t with
  | [] => []
  | x :: t => Z.lor (x <<w 1) c :: double_words t (Z.shiftr x 31)
  end.

Fixpoint add_squares (a t : list Z) (v : Z) : list Z :=
  match a, t with
  | ai :: a, x :: y :: t =>
      let v := u64 (v + u64 (u64 (ai * ai) + x)) in
      let w := u64 (Z.shiftr v 32 + y) in
      u32 v :: u32 w :: add_squares a t (Z.shiftr w 32)
  | _, _ => t
  end.

Definition fe_sqr_c (a : fe) : outcome fe :=
  reduce (add_squares a (double_words (sqr_rows a (replicate 16 0)) 0) 0).

(** ** The interface *)

Class FieldOps := {
  fe_add : fe -> fe -> outcome fe;
  fe_sub : fe -> fe -> outcome fe;
  fe_mul : fe -> fe -> outcome fe;
  fe_sqr : fe -> outcome fe
}.

#[export] Instance portable_ops : FieldOps := {|
  fe_add := fe_add_c; fe_sub := fe_sub_c; fe_mul := fe_mul_c; fe_sqr := fe_sqr_c
|}.

(** ** The rest of the field *)

Fixpoint mul_word (a : list Z) (k v : Z) : list Z * Z :=
  match a with
  | [] => ([], v)
  | x :: a =>
      let v := u64 (v + u64 (x * k)) in
      let '(r, v') := mul_word a k (Z.shiftr v 32) in
      (u32 v :: r, v')
  end.

Definition fe_mul_small (a : fe) (k : Z) : outcome fe :=
  let '(r, v) := mul_word a k 0 in
  fe_fold r (u32 v).

(** Both arrays, swapped under the mask. *)
Definition fe_cswap (a b : fe) (bit : Z) : fe * fe :=
  let mask := u32 (0 - bit) in
  let t := zip_with (fun x y => Z.land mask (Z.lxor x y)) a b in
  (zip_with Z.lxor a t, zip_with Z.lxor b t).

Definition load_word (b : list Z) (i : nat) : Z :=
  Z.lor (Z.lor (Z.lor (b !!! (4 * i)%nat) (b !!! (4 * i + 1)%nat <<w 8)) (b !!! (4 * i + 2)%nat <<w 16)) (b !!! (4 * i + 3)%nat <<w 24).

Definition fe_frombytes (b : list Z) : fe :=
  let r := map (load_word b) (List.seq 0 8) in
  <[7%nat := Z.land (r !!! 7%nat) 0x7fffffff]> r.

(** Bit 255 folded back in. *)
Definition fold_top (t : fe) : fe :=
  let c := Z.shiftr (t !!! 7%nat) 31 in
  let t := <[7%nat := Z.land (t !!! 7%nat) 0x7fffffff]> t in
  (fold_round t (u64 (c * 19))).1.

Fixpoint add_word (t : list Z) (v : Z) : list Z :=
  match t with
  | [] => []
  | x :: t => let v := u64 (v + x) in u32 v :: add_word t (Z.shiftr v 32)
  end.

Definition word_bytes (w : Z) : list Z := [u8 w; u8 (Z.shiftr w 8); u8 (Z.shiftr w 16); u8 (Z.shiftr w 24)].

Definition fe_tobytes (a : fe) : list Z :=
  let t := fold_top (fold_top a) in
  let s := add_word t 19 in
  let mask := u32 (0 - Z.shiftr (s !!! 7%nat) 31) in
  let s := <[7%nat := Z.land (s !!! 7%nat) 0x7fffffff]> s in
  let t := zip_with (fun x y => Z.lxor x (Z.land mask (Z.lxor x y))) t s in
  concat (map word_bytes t).

Definition fe_isnonzero (a : fe) : bool := negb (foldl Z.lor 0 (fe_tobytes a) =? 0).
Definition fe_isodd (a : fe) : Z := Z.land (fe_tobytes a !!! 0%nat) 1.

Section field.
Context `{FieldOps}.

Definition fe_neg (a : fe) : outcome fe := fe_sub fe_zero a.

Fixpoint sqr_times (n : nat) (t : fe) : outcome fe :=
  match n with
  | O => Val t
  | S n => let! t := fe_sqr t in sqr_times n t
  end.

Definition fe_pow_2n_mul (a : fe) (n : nat) (m : fe) : outcome fe :=
  let! t := sqr_times n a in
  fe_mul t m.

Definition fe_invert (z : fe) : outcome fe :=
  let! t0 := fe_sqr z in
  let! t1 := fe_sqr t0 in
  let! t1 := fe_sqr t1 in
  let! t1 := fe_mul z t1 in
  let! t0 := fe_mul t0 t1 in
  let! t2 := fe_sqr t0 in
  let! t1 := fe_mul t1 t2 in
  let! t1 := fe_pow_2n_mul t1 5 t1 in
  let! t2 := fe_pow_2n_mul t1 10 t1 in
  let! t3 := fe_pow_2n_mul t2 20 t2 in
  let! t1 := fe_pow_2n_mul t3 10 t1 in
  let! t2 := fe_pow_2n_mul t1 50 t1 in
  let! t3 := fe_pow_2n_mul t2 100 t2 in
  let! t1 := fe_pow_2n_mul t3 50 t1 in
  let! t2 := sqr_times 5 t1 in
  fe_mul t2 t0.

Definition fe_pow22523 (z : fe) : outcome fe :=
  let! t0 := fe_sqr z in
  let! t1 := fe_sqr t0 in
  let! t1 := fe_sqr t1 in
  let! t1 := fe_mul z t1 in
  let! t0 := fe_mul t0 t1 in
  let! t0 := fe_sqr t0 in
  let! t0 := fe_mul t1 t0 in
  let! t0 := fe_pow_2n_mul t0 5 t0 in
  let! t1 := fe_pow_2n_mul t0 10 t0 in
  let! t2 := fe_pow_2n_mul t1 20 t1 in
  let! t0 := fe_pow_2n_mul t2 10 t0 in
  let! t1 := fe_pow_2n_mul t0 50 t0 in
  let! t2 := fe_pow_2n_mul t1 100 t1 in
  let! t0 := fe_pow_2n_mul t2 50 t0 in
  let! t3 := sqr_times 2 t0 in
  fe_mul t3 z.
End field.
