(* ===== verification/FeSpec.v ===== *)
(** * The field operations modulo 2^255 - 19

    Every loop ends, every result is eight limbs, and its value is the operation on
    the values, modulo the prime. *)

From Stdlib Require Import ZArith Lia.
From stdpp Require Import base numbers list.
From S2P Require Import Prelude Limbs Fe25519.
#[local] Open Scope Z_scope.

(** ** Words and sums *)

Lemma word_split t : 0 <= t < 2 ^ 64 -> t = u32 t + 2 ^ 32 * Z.shiftr t 32 /\ is_u32 (u32 t) /\ is_u32 (Z.shiftr t 32).
Proof.
  intros Ht. rewrite Z.shiftr_div_pow2 by lia. unfold u32, is_u32. pose proof (Z.div_mod t (2 ^ 32) ltac:(lia)). pose proof (Z.mod_pos_bound t (2 ^ 32) ltac:(lia)).
  split; [lia|]. split; [done|]. split; [apply Z.div_pos; lia|apply Z.div_lt_upper_bound; lia].
Qed.

Lemma mem_cons x l : mem_ok (x :: l) <-> is_u32 x /\ mem_ok l.
Proof. apply Forall_cons. Qed.

Lemma W_cons {A} (x : A) l : W (Z.of_nat (length (x :: l))) = 2 ^ 32 * W (Z.of_nat (length l)).
Proof. cbn [length]. replace (Z.of_nat (S (length l))) with (Z.of_nat (length l) + 1) by lia. by rewrite W_S by lia. Qed.

(** A carry chain: [r] and the carry [c] spell [n]. *)
Definition spells (k : nat) (rc : list Z * Z) (n : Z) : Prop :=
  length rc.1 = k /\ mem_ok rc.1 /\ val rc.1 + W (Z.of_nat k) * rc.2 = n.

Lemma spells_cons w r c k n m : is_u32 w -> spells k (r, c) m -> n = w + 2 ^ 32 * m -> spells (S k) (w :: r, c) n.
Proof.
  intros Hw (L & M & V) ->. cbn [fst snd] in *. split; [cbn [fst length]; lia|]. split; [by apply mem_cons|]. cbn [fst snd val].
  replace (Z.of_nat (S k)) with (Z.of_nat k + 1) by lia. rewrite W_S by lia. rewrite <- V. ring.
Qed.

Lemma spells_nil c : spells 0 ([], c) c.
Proof. split; [done|]. split; [constructor|]. cbn [fst snd val]. change (W (Z.of_nat 0)) with 1. lia. Qed.

Lemma fold_round_spells r : forall t, mem_ok r -> 0 <= t < 2 ^ 40 -> spells (length r) (fold_round r t) (val r + t) /\ 0 <= (fold_round r t).2.
Proof.
  induction r as [|x r IH]; intros t Hr Ht; cbn [fold_round]; [split; [apply (spells_nil t)|cbn; lia]|].
  apply mem_cons in Hr as [Hx Hr]. destruct (t =? 0) eqn:E.
  - apply Z.eqb_eq in E as ->. split; [|done]. split; [done|]. split; [by apply mem_cons|]. cbn [fst snd]. lia.
  - clear E. unfold is_u32 in Hx. rewrite (u64_small (t + x)) by (unfold is_u64; lia). destruct (word_split (t + x)) as (Es & H1 & H2); [lia|].
    destruct (IH (Z.shiftr (t + x) 32) Hr) as [Sp Hc]; [unfold is_u32 in H2; lia|]. destruct (fold_round r (Z.shiftr (t + x) 32)) as [r' c]. cbn [snd] in Hc.
    split; [|done]. apply (spells_cons _ _ _ _ _ _ H1 Sp). cbn [val]. lia.
Qed.

Lemma add_limbs_spells a : forall b t, length a = length b -> mem_ok a -> mem_ok b -> 0 <= t <= 1 ->
  spells (length a) (add_limbs a b t) (val a + val b + t) /\ 0 <= (add_limbs a b t).2 <= 1.
Proof.
  induction a as [|x a IH]; intros [|y b] t L Ha Hb Ht; try done; cbn [add_limbs]; [split; [apply (spells_nil t)|cbn; lia]|].
  apply mem_cons in Ha as [Hx Ha]. apply mem_cons in Hb as [Hy Hb]. unfold is_u32 in Hx, Hy.
  rewrite (u64_small (x + y)), u64_small by (rewrite ?(u64_small (x + y)); unfold is_u64; lia).
  destruct (word_split (t + (x + y))) as (Es & H1 & H2); [lia|]. unfold is_u32 in H1, H2.
  destruct (IH b (Z.shiftr (t + (x + y)) 32)) as [Sp Hc]; [by injection L|done|done|lia|]. destruct (add_limbs a b _) as [r' c]. cbn [snd] in Hc.
  split; [|done]. apply (spells_cons _ _ _ _ _ _ H1 Sp). cbn [val]. lia.
Qed.

(** A difference: the borrow of a limb is bit 32 of the word. *)
Lemma borrow_split x s : is_u32 x -> 0 <= s <= 2 ^ 32 ->
  let v := u64 (x - s) in let b := Z.land (Z.shiftr v 32) 1 in
  is_u32 (u32 v) /\ u32 v = x - s + 2 ^ 32 * b /\ (b = 0 \/ b = 1).
Proof.
  intros Hx Hs. cbv zeta. unfold is_u32 in *. change (Z.land ?z 1) with (Z.land z (Z.ones 1)). rewrite Z.land_ones, Z.shiftr_div_pow2 by lia.
  destruct (Z_lt_dec x s) as [H|H].
  - assert (E : u64 (x - s) = 2 ^ 64 + x - s) by (unfold u64; symmetry; apply (Z.mod_unique_pos _ _ (-1)); lia). rewrite E.
    assert (Eq : (2 ^ 64 + x - s) / 2 ^ 32 = 2 ^ 32 - 1) by (symmetry; apply (Z.div_unique_pos _ _ _ (x - s + 2 ^ 32)); lia). rewrite Eq.
    change ((2 ^ 32 - 1) mod 2 ^ 1) with 1. unfold u32. assert (Em : (2 ^ 64 + x - s) mod 2 ^ 32 = x - s + 2 ^ 32) by (symmetry; apply (Z.mod_unique_pos _ _ (2 ^ 32 - 1)); lia). lia.
  - assert (E : u64 (x - s) = x - s) by (unfold u64; apply Z.mod_small; lia). rewrite E. rewrite Z.div_small by lia.
    change (0 mod 2 ^ 1) with 0. rewrite u32_small by (unfold is_u32; lia). lia.
Qed.

Lemma sub_limbs_spells a : forall b t, length a = length b -> mem_ok a -> mem_ok b -> t = 0 \/ t = 2 ^ 63 ->
  let bit t := if t =? 0 then 0 else 1 in
  exists r t', sub_limbs a b t = (r, t') /\ (t' = 0 \/ t' = 2 ^ 63) /\ spells (length a) (r, - bit t') (val a - val b - bit t).
Proof.
  induction a as [|x a IH]; intros [|y b] t L Ha Hb Ht; try done; cbn [sub_limbs]; cbv zeta.
  { eexists _, _. split; [reflexivity|]. split; [done|]. replace (val [] - val [] - _) with (- (if t =? 0 then 0 else 1)) by (cbn [val]; lia). apply spells_nil. }
  apply mem_cons in Ha as [Hx Ha]. apply mem_cons in Hb as [Hy Hb].
  assert (Eb : (if Z.shiftr t 63 =? 0 then 0 else 1) = (if t =? 0 then 0 else 1)) by (destruct Ht as [->| ->]; reflexivity). rewrite Eb. clear Eb.
  set (bt := if t =? 0 then 0 else 1). assert (Hbt : 0 <= bt <= 1) by (unfold bt; destruct (t =? 0); lia). clearbody bt. clear Ht.
  assert (Ev : u64 (u64 (x - y) - bt) = u64 (x - (y + bt))) by (unfold u64; rewrite Zminus_mod_idemp_l; f_equal; lia). rewrite Ev. clear Ev.
  destruct (borrow_split x (y + bt) Hx) as (H1 & E1 & Hb1); [unfold is_u32 in Hy; lia|]. set (v := u64 (x - (y + bt))) in *. clearbody v.
  set (b1 := Z.land (Z.shiftr v 32) 1) in *. clearbody b1.
  destruct (IH b (if b1 =? 0 then 0 else 2 ^ 63)) as (r & t' & -> & Ht' & Sp); [by injection L|done|done|destruct (b1 =? 0); [by left|by right]|].
  cbv zeta in Sp. assert (Em : (if (if b1 =? 0 then 0 else 2 ^ 63) =? 0 then 0 else 1) = b1) by (destruct Hb1 as [->| ->]; reflexivity). rewrite Em in Sp.
  eexists _, _. split; [reflexivity|]. split; [done|]. apply (spells_cons _ _ _ _ _ _ H1 Sp). cbn [val].
  lia.
Qed.

Lemma sub_round_spells r : forall s, mem_ok r -> 0 <= s <= 2 ^ 31 -> r <> [] ->
  exists r' b, sub_round r s = (r', b) /\ (b = 0 \/ b = 1) /\ spells (length r) (r', - b) (val r - s).
Proof.
  induction r as [|x r IH]; intros s Hr Hs Hne; [done|]. cbn [sub_round]. apply mem_cons in Hr as [Hx Hr].
  rewrite (u32_small s) by (unfold is_u32; lia). destruct (borrow_split x s Hx) as (H1 & E1 & Hb1); [lia|].
  set (v := u64 (x - s)) in *. clearbody v. set (b1 := Z.land (Z.shiftr v 32) 1) in *. clearbody b1. cbv zeta. destruct Hb1 as [->| ->]; cbn [Z.eqb].
  - eexists _, _. split; [reflexivity|]. split; [by left|]. split; [done|]. split; [by apply mem_cons|]. cbn [fst snd val]. lia.
  - destruct r as [|z r].
    + cbn [sub_round]. eexists _, _. split; [reflexivity|]. split; [by right|]. split; [done|]. split; [by apply mem_cons|]. cbn [fst snd val length].
      change (W (Z.of_nat 1)) with (2 ^ 32). lia.
    + destruct (IH 1 Hr ltac:(lia) ltac:(done)) as (r' & b & -> & Hb & Sp). eexists _, _. split; [reflexivity|]. split; [done|].
      apply (spells_cons _ _ _ _ _ _ H1 Sp). cbn [val]. lia.
Qed.

(** ** Values modulo the prime *)

Definition p25519 : Z := 2 ^ 255 - 19.
Definition fe_ok (a : fe) : Prop := length a = 8%nat /\ mem_ok a.
(** [a] stands for the residue [x]. *)
Definition rep (a : fe) (x : Z) : Prop := fe_ok a /\ val a mod p25519 = x.

Definition returns {A} (m : outcome A) (P : A -> Prop) : Prop := exists r, m = Val r /\ P r.

Lemma returns_val {A} (x : A) (P : A -> Prop) : P x -> returns (Val x) P.
Proof. intros H. by exists x. Qed.
Lemma returns_bind {A B} (m : outcome A) (f : A -> outcome B) P Q :
  returns m P -> (forall x, P x -> returns (f x) Q) -> returns (obind m f) Q.
Proof. intros (x & -> & Hx) Hf. exact (Hf x Hx). Qed.
Lemma returns_weaken {A} (m : outcome A) (P Q : A -> Prop) : returns m P -> (forall x, P x -> Q x) -> returns m Q.
Proof. intros (x & -> & Hx) H. exists x. auto. Qed.

Lemma modp a b k : a = b + k * p25519 -> a mod p25519 = b mod p25519.
Proof. intros ->. by apply Z.mod_add. Qed.

Lemma W8 : W 8 = 38 + 2 * p25519.
Proof. reflexivity. Qed.

Lemma fe_range a : fe_ok a -> 0 <= val a < W 8.
Proof. intros [L M]. pose proof (val_range a M) as R. rewrite L in R. exact R. Qed.

Lemma fold_spec r c : fe_ok r -> 0 <= c < 2 ^ 32 -> returns (fe_fold r c) (fun r' => rep r' ((val r + W 8 * c) mod p25519)).
Proof.
  intros Hr Hc. pose proof (fe_range r Hr) as R. destruct Hr as [L M]. unfold fe_fold. rewrite u64_small by (unfold is_u64; lia).
  assert (E : forall k, rep r ((val r + k) mod p25519) -> k = 0 -> True) by done. clear E.
  cbn [fold_loop]. destruct (c * 38 =? 0) eqn:E0.
  { apply Z.eqb_eq in E0. assert (c = 0) as -> by lia. apply returns_val. split; [done|]. by rewrite Z.mul_0_r, Z.add_0_r. }
  destruct (fold_round_spells r (c * 38) M ltac:(lia)) as [S1 P1]. destruct (fold_round r (c * 38)) as [r1 t1]. destruct S1 as (L1 & M1 & V1). cbn [fst snd] in *.
  rewrite L in L1, V1. change (W (Z.of_nat 8)) with (W 8) in V1. pose proof (fe_range r1 (conj L1 M1)) as R1.
  assert (BW : 2 ^ 200 < W 8) by reflexivity.
  assert (Ht : t1 = 0 \/ t1 = 1) by nia. destruct Ht as [-> | ->].
  { cbn [Z.mul Z.eqb]. change (u64 0) with 0. cbn [fold_loop Z.eqb]. apply returns_val. split; [done|]. apply (modp _ _ (- (2 * c))). rewrite W8 in *. lia. }
  change (u64 (1 * 38)) with 38. cbn [fold_loop Z.eqb].
  destruct (fold_round_spells r1 38 M1 ltac:(lia)) as [S2 P2]. destruct (fold_round r1 38) as [r2 t2]. destruct S2 as (L2 & M2 & V2). cbn [fst snd] in *.
  rewrite L1 in L2, V2. change (W (Z.of_nat 8)) with (W 8) in V2. pose proof (fe_range r2 (conj L2 M2)) as R2.
  assert (t2 = 0) as -> by nia. change (u64 (0 * 38)) with 0. cbn [Z.eqb]. apply returns_val. split; [done|].
  apply (modp _ _ (- (2 * c) - 2)). rewrite W8 in *. lia.
Qed.

(** ** Sums *)

Lemma add_spec_fe a b : fe_ok a -> fe_ok b -> returns (fe_add_c a b) (fun r => rep r ((val a + val b) mod p25519)).
Proof.
  intros [La Ma] [Lb Mb]. unfold fe_add_c. destruct (add_limbs_spells a b 0) as [S Hc]; [lia|done|done|lia|].
  destruct (add_limbs a b 0) as [r t]. destruct S as (L & M & V). cbn [fst snd] in *. rewrite La in *. rewrite u32_small by (unfold is_u32; lia).
  apply (returns_weaken _ _ _ (fold_spec r t (conj L M) ltac:(lia))). intros x Hx. rewrite <- (Z.add_0_r (val a + val b)), <- V. exact Hx.
Qed.

Lemma sub_spec_fe a b : fe_ok a -> fe_ok b -> returns (fe_sub_c a b) (fun r => rep r ((val a - val b) mod p25519)).
Proof.
  intros Ha Hb. pose proof (fe_range a Ha) as Ra. pose proof (fe_range b Hb) as Rb. destruct Ha as [La Ma], Hb as [Lb Mb]. unfold fe_sub_c.
  destruct (sub_limbs_spells a b 0) as (r & t & -> & Ht & L & M & V); [lia|done|done|by left|]. cbn [fst snd] in *. rewrite La in *.
  change (W (Z.of_nat 8)) with (W 8) in V. change (if 0 =? 0 then 0 else 1) with 0 in V. pose proof (fe_range r (conj L M)) as R. assert (BW : 2 ^ 200 < W 8) by reflexivity.
  destruct Ht as [-> | ->].
  { cbn [sub_loop Z.eqb]. apply returns_val. split; [done|]. f_equal. cbn [Z.eqb] in V. lia. }
  change (2 ^ 63 =? 0) with false in V. cbn [sub_loop]. change (2 ^ 63 =? 0) with false. cbn iota.
  assert (Hne : forall l : list Z, length l = 8%nat -> l <> []) by (intros [|] Hl; done).
  destruct (sub_round_spells r 38 M ltac:(lia) (Hne r L)) as (r1 & b1 & -> & Hb1 & L1 & M1 & V1). cbn [fst snd] in *. rewrite L in *.
  change (W (Z.of_nat 8)) with (W 8) in V1. pose proof (fe_range r1 (conj L1 M1)) as R1. destruct Hb1 as [-> | ->].
  { cbn [sub_loop Z.eqb]. apply returns_val. split; [done|]. apply (modp _ _ 2). rewrite W8 in *. lia. }
  cbn [sub_loop Z.eqb]. destruct (sub_round_spells r1 38 M1 ltac:(lia) (Hne r1 L1)) as (r2 & b2 & -> & Hb2 & L2 & M2 & V2). cbn [fst snd] in *. rewrite L1 in *.
  change (W (Z.of_nat 8)) with (W 8) in V2. pose proof (fe_range r2 (conj L2 M2)) as R2. assert (b2 = 0) as -> by nia.
  cbn [Z.eqb]. apply returns_val. split; [done|]. apply (modp _ _ 4). rewrite W8 in *. lia.
Qed.

(** ** Products *)

Lemma mul_bound x y : is_u32 x -> is_u32 y -> 0 <= x * y <= (2 ^ 32 - 1) * (2 ^ 32 - 1).
Proof. unfold is_u32. intros Hx Hy. split; [nia|]. apply Z.mul_le_mono_nonneg; lia. Qed.

Lemma mac_row_spec ai b : forall ts rest c, is_u32 ai -> mem_ok b -> mem_ok ts -> is_u32 c -> length ts = length b ->
  exists us, mac_row ai b (ts ++ 0 :: rest) c = us ++ rest /\ length us = S (length b) /\ mem_ok us /\ val us = val ts + ai * val b + c.
Proof.
  induction b as [|y b IH]; intros [|x ts] rest c Ha Hb Hts Hc L; try done; cbn [mac_row app].
  { exists [c]. split; [done|]. split; [done|]. split; [by apply mem_cons|]. cbn [val]. lia. }
  apply mem_cons in Hb as [Hy Hb]. apply mem_cons in Hts as [Hx Hts]. pose proof (mul_bound ai y Ha Hy) as B. pose proof Hx as Hx'. pose proof Hc as Hc'. unfold is_u32 in Hx', Hc'.
  rewrite (u64_small (ai * y)) by (unfold is_u64; lia). rewrite (u64_small (ai * y + x)) by (unfold is_u64; lia). rewrite u64_small by (unfold is_u64; lia).
  set (v := ai * y + x + c). destruct (word_split v) as (Es & H1 & H2); [unfold v; lia|]. rewrite (u32_small (Z.shiftr v 32)) by done.
  destruct (IH ts rest (Z.shiftr v 32)) as (us & -> & Lu & Mu & Vu); [done|done|done|done|by injection L|].
  exists (u32 v :: us). split; [done|]. split; [cbn [length]; lia|]. split; [by apply mem_cons|]. cbn [val]. rewrite Vu. unfold v in *. clearbody v. nia.
Qed.

Lemma split_first {A} (us : list A) n : length us = S n -> exists x ts, us = x :: ts /\ length ts = n.
Proof. destruct us as [|x ts]; [done|]. intros [= L]. by exists x, ts. Qed.

Lemma mul_rows_spec b (Hb : mem_ok b) a : forall ts, mem_ok a -> mem_ok ts -> length ts = length b ->
  let r := mul_rows a b (ts ++ replicate (length a) 0) in length r = (length a + length b)%nat /\ mem_ok r /\ val r = val ts + val a * val b.
Proof.
  induction a as [|ai a IH]; intros ts Ha Hts L; cbv zeta; cbn [mul_rows length replicate].
  { rewrite app_nil_r. split; [done|]. split; [done|]. cbn [val]. lia. }
  apply mem_cons in Ha as [Hai Ha]. destruct (mac_row_spec ai b ts (replicate (length a) 0) 0 Hai Hb Hts) as (us & -> & Lu & Mu & Vu); [done|done|].
  destruct (split_first us _ Lu) as (x & ts' & -> & Lt). cbn [app]. apply mem_cons in Mu as [Hx Mt]. destruct (IH ts' Ha Mt Lt) as (Lr & Mr & Vr).
  split; [cbn [length]; lia|]. split; [by apply mem_cons|]. cbn [val] in *. rewrite Vr. lia.
Qed.

Fixpoint cross (a : list Z) : Z := match a with [] => 0 | ai :: a => 2 ^ 32 * (ai * val a) + 2 ^ 64 * cross a end.
Fixpoint squares (a : list Z) : Z := match a with [] => 0 | ai :: a => ai * ai + 2 ^ 64 * squares a end.

Lemma square_parts a : val a * val a = 2 * cross a + squares a.
Proof. induction a as [|x a IH]; [done|]. cbn [val cross squares]. lia. Qed.

Lemma fe_sqr_rows_spec a : forall ts, mem_ok a -> mem_ok ts -> length ts = length a ->
  let r := sqr_rows a (ts ++ replicate (length a) 0) in length r = (2 * length a)%nat /\ mem_ok r /\ val r = val ts + cross a.
Proof.
  induction a as [|ai a IH]; intros [|x ts] Ha Hts L; try done; cbv zeta; cbn [sqr_rows length replicate app].
  apply mem_cons in Ha as [Hai Ha]. apply mem_cons in Hts as [Hx Hts].
  destruct (mac_row_spec ai a ts (replicate (length a) 0) 0 Hai Ha Hts) as (us & -> & Lu & Mu & Vu); [done|by injection L|].
  destruct (split_first us _ Lu) as (y & ts' & -> & Lt). cbn [app]. apply mem_cons in Mu as [Hy Mt]. destruct (IH ts' Ha Mt Lt) as (Lr & Mr & Vr).
  split; [cbn [length]; lia|]. split; [by repeat (apply mem_cons; split)|]. cbn [val cross] in *. rewrite Vr. lia.
Qed.

Lemma double_words_spec t : forall c, mem_ok t -> 0 <= c <= 1 ->
  length (double_words t c) = length t /\ mem_ok (double_words t c) /\ exists k, 0 <= k /\ val (double_words t c) + W (Z.of_nat (length t)) * k = 2 * val t + c.
Proof.
  induction t as [|x t IH]; intros c Ht Hc; cbn [double_words].
  { split; [done|]. split; [constructor|]. exists c. cbn [val length]. change (W (Z.of_nat 0)) with 1. lia. }
  apply mem_cons in Ht as [Hx Ht]. unfold is_u32 in Hx.
  assert (Ed : Z.shiftr x 31 = x / 2 ^ 31) by (by rewrite Z.shiftr_div_pow2). rewrite Ed.
  assert (Hq : 0 <= x / 2 ^ 31 <= 1) by (split; [apply Z.div_pos; lia|apply Z.lt_succ_r, Z.div_lt_upper_bound; lia]).
  destruct (IH (x / 2 ^ 31) Ht Hq) as (L & M & k & Hk & V).
  assert (Ew : Z.lor (x <<w 1) c = 2 * x - 2 ^ 32 * (x / 2 ^ 31) + c).
  { unfold u32. rewrite Z.shiftl_mul_pow2 by lia. assert (Em : (x * 2 ^ 1) mod 2 ^ 32 = Z.shiftl (x mod 2 ^ 31) 1).
    { rewrite Z.shiftl_mul_pow2 by lia. change (2 ^ 32) with (2 ^ 31 * 2 ^ 1). by rewrite Zmult_mod_distr_r. }
    rewrite Em, lor_shift_add, Z.mod_eq by lia. lia. }
  rewrite Ew. pose proof (Z.mod_eq x (2 ^ 31) ltac:(lia)). pose proof (Z.mod_pos_bound x (2 ^ 31) ltac:(lia)).
  split; [cbn [length]; lia|]. split; [apply mem_cons; split; [unfold is_u32; lia|done]|]. exists k. split; [done|]. rewrite W_cons. cbn [val]. lia.
Qed.

Lemma add_squares_spec a : forall t v, mem_ok a -> mem_ok t -> length t = (2 * length a)%nat -> 0 <= v <= 1 ->
  length (add_squares a t v) = length t /\ mem_ok (add_squares a t v) /\ exists k, 0 <= k /\ val (add_squares a t v) + W (Z.of_nat (length t)) * k = val t + squares a + v.
Proof.
  induction a as [|ai a IH]; intros [|x [|y t]] v Ha Ht L Hv; try (cbn [length] in L; lia); cbn [add_squares].
  { split; [done|]. split; [constructor|]. exists v. cbn [val squares length]. change (W (Z.of_nat 0)) with 1. lia. }
  apply mem_cons in Ha as [Hai Ha]. apply mem_cons in Ht as [Hx Ht]. apply mem_cons in Ht as [Hy Ht].
  pose proof (mul_bound ai ai Hai Hai) as B. unfold is_u32 in Hx, Hy.
  rewrite (u64_small (ai * ai)) by (unfold is_u64; lia). rewrite (u64_small (ai * ai + x)) by (unfold is_u64; lia).
  rewrite (u64_small (v + (ai * ai + x))) by (unfold is_u64; lia). set (w := v + (ai * ai + x)). destruct (word_split w) as (Es & H1 & H2); [unfold w; lia|].
  unfold is_u32 in H2. rewrite (u64_small (Z.shiftr w 32 + y)) by (unfold is_u64; lia). destruct (word_split (Z.shiftr w 32 + y)) as (Es' & H1' & H2'); [lia|].
  pose proof H2' as H2r. pose proof H1' as H1r. unfold is_u32 in H2r, H1r.
  destruct (IH t (Z.shiftr (Z.shiftr w 32 + y) 32)) as (Lr & Mr & k & Hk & V); [done|done|cbn [length] in L; lia|lia|].
  split; [cbn [length]; lia|]. split; [by repeat (apply mem_cons; split)|]. exists k. split; [done|]. rewrite !W_cons. cbn [val squares].
  set (r := add_squares _ _ _) in *. clearbody r. assert (Ew : w = v + (ai * ai + x)) by done. clearbody w. lia.
Qed.

Lemma fold_high_spells low : forall high v, length low = length high -> mem_ok low -> mem_ok high -> 0 <= v <= 38 ->
  spells (length low) (fold_high low high v) (val low + 38 * val high + v) /\ 0 <= (fold_high low high v).2 <= 38.
Proof.
  induction low as [|x low IH]; intros [|y high] v L Hl Hh Hv; try done; cbn [fold_high]; [split; [apply (spells_nil v)|cbn; lia]|].
  apply mem_cons in Hl as [Hx Hl]. apply mem_cons in Hh as [Hy Hh]. unfold is_u32 in Hx, Hy.
  rewrite (u64_small (y * 38)) by (unfold is_u64; lia). rewrite (u64_small (y * 38 + x)) by (unfold is_u64; lia). rewrite u64_small by (unfold is_u64; lia).
  destruct (word_split (v + (y * 38 + x))) as (Es & H1 & H2); [lia|]. pose proof H1 as H1r. unfold is_u32 in H1r.
  destruct (IH high (Z.shiftr (v + (y * 38 + x)) 32)) as [Sp Hc]; [by injection L|done|done|lia|]. destruct (fold_high low high _) as [r c]. cbn [snd] in Hc.
  split; [|done]. apply (spells_cons _ _ _ _ _ _ H1 Sp). cbn [val]. lia.
Qed.

Lemma reduce_spec t : length t = 16%nat -> mem_ok t -> returns (reduce t) (fun r => rep r (val t mod p25519)).
Proof.
  intros L M. unfold reduce. assert (Ml : mem_ok (take 8 t)) by by apply Forall_take. assert (Mh : mem_ok (drop 8 t)) by by apply Forall_drop.
  assert (Ll : length (take 8 t) = 8%nat) by (rewrite length_take; lia). assert (Lh : length (drop 8 t) = 8%nat) by (rewrite length_drop; lia).
  destruct (fold_high_spells (take 8 t) (drop 8 t) 0) as [S Hc]; [lia|done|done|lia|]. destruct (fold_high (take 8 t) (drop 8 t) 0) as [r v].
  destruct S as (Lr & Mr & V). cbn [fst snd] in *. rewrite Ll in *. change (W (Z.of_nat 8)) with (W 8) in V. rewrite u32_small by (unfold is_u32; lia).
  apply (returns_weaken _ _ _ (fold_spec r v (conj Lr Mr) ltac:(lia))). intros x [Ox Vx]. split; [done|]. rewrite Vx, V.
  assert (Ev : val t = val (take 8 t) + W 8 * val (drop 8 t)) by (rewrite <- (take_drop 8 t) at 1; rewrite val_app, Ll; reflexivity).
  rewrite Ev. apply (modp _ _ (- (2 * val (drop 8 t)))). rewrite W8. lia.
Qed.

Lemma mul_spec_fe a b : fe_ok a -> fe_ok b -> returns (fe_mul_c a b) (fun r => rep r ((val a * val b) mod p25519)).
Proof.
  intros [La Ma] [Lb Mb]. unfold fe_mul_c. change (replicate 16 0) with (replicate 8 0 ++ replicate 8 0). rewrite <- La at 2.
  destruct (mul_rows_spec b Mb a (replicate 8 0) Ma) as (Lr & Mr & Vr); [by apply Forall_replicate|by rewrite Lb|].
  rewrite val_replicate, Z.add_0_l in Vr. rewrite <- Vr. apply reduce_spec; [lia|exact Mr].
Qed.

Lemma sqr_spec_fe a : fe_ok a -> returns (fe_sqr_c a) (fun r => rep r ((val a * val a) mod p25519)).
Proof.
  intros Ha. pose proof (fe_range a Ha) as Ra. destruct Ha as [La Ma]. unfold fe_sqr_c. change (replicate 16 0) with (replicate 8 0 ++ replicate 8 0). rewrite <- La at 2.
  destruct (fe_sqr_rows_spec a (replicate 8 0) Ma) as (Lr & Mr & Vr); [by apply Forall_replicate|by rewrite La|]. rewrite val_replicate in Vr.
  set (t := sqr_rows _ _) in *. clearbody t. destruct (double_words_spec t 0 Mr ltac:(lia)) as (Ld & Md & k & Hk & Vd).
  set (d := double_words t 0) in *. clearbody d. destruct (add_squares_spec a d 0 Ma Md ltac:(lia) ltac:(lia)) as (Ls & Ms & j & Hj & Vs).
  set (s := add_squares a d 0) in *. clearbody s. assert (Es : val s = val a * val a); [|rewrite <- Es; apply reduce_spec; [lia|exact Ms]].
  rewrite square_parts.
  pose proof (val_range s Ms) as Rs. pose proof (val_range d Md) as Rd. rewrite Ls, Ld, Lr, La in *.
  change (W (Z.of_nat (2 * 8))) with (W 8 * W 8) in *. assert (Sq : val a * val a < W 8 * W 8) by (apply Z.mul_lt_mono_nonneg; lia).
  rewrite square_parts in Sq. assert (BW : 0 < W 8 * W 8) by reflexivity. set (B := W 8 * W 8) in *. clearbody B. assert (Hkj : B * (k + j) < B * 1) by lia. apply Z.mul_lt_mono_pos_l in Hkj; [|lia]. assert (k = 0) as -> by lia. assert (j = 0) as -> by lia. lia.
Qed.

Lemma mul_word_spells a : forall k v, mem_ok a -> is_u32 k -> is_u32 v -> spells (length a) (mul_word a k v) (val a * k + v) /\ is_u32 (mul_word a k v).2.
Proof.
  induction a as [|x a IH]; intros k v Ha Hk Hv; cbn [mul_word]; [split; [apply (spells_nil v)|done]|].
  apply mem_cons in Ha as [Hx Ha]. pose proof (mul_bound x k Hx Hk) as B. pose proof Hv as Hv'. unfold is_u32 in Hv'.
  rewrite (u64_small (x * k)) by (unfold is_u64; lia). rewrite u64_small by (unfold is_u64; lia).
  destruct (word_split (v + x * k)) as (Es & H1 & H2); [lia|]. destruct (IH k (Z.shiftr (v + x * k) 32) Ha Hk H2) as [Sp Hc].
  destruct (mul_word a k _) as [r c]. split; [|done]. apply (spells_cons _ _ _ _ _ _ H1 Sp). cbn [val]. lia.
Qed.

Lemma mul_small_spec a k : fe_ok a -> is_u32 k -> returns (fe_mul_small a k) (fun r => rep r ((val a * k) mod p25519)).
Proof.
  intros [La Ma] Hk. unfold fe_mul_small. destruct (mul_word_spells a k 0 Ma Hk) as [S Hc]; [by unfold is_u32; lia|].
  destruct (mul_word a k 0) as [r v]. destruct S as (L & M & V). cbn [fst snd] in *. rewrite La in *. rewrite u32_small by done.
  apply (returns_weaken _ _ _ (fold_spec r v (conj L M) Hc)). intros x Hx. rewrite <- (Z.add_0_r (val a * k)), <- V. exact Hx.
Qed.
