(* ===== verification/FeField.v ===== *)
(** * The field 2^255 - 19 behind its interface

    Residues, what an implementation of the four operations promises, and the
    serialisation, inversion and exponentiation built on that promise. *)

From Stdlib Require Import ZArith Lia.
From stdpp Require Import base numbers list.
From S2P Require Import Prelude RxSpec Poly1305Spec Limbs Fe25519 FeSpec.
#[local] Open Scope Z_scope.

(** ** Residues *)

Definition fadd (x y : Z) : Z := (x + y) mod p25519.
Definition fsub (x y : Z) : Z := (x - y) mod p25519.
Definition fmul (x y : Z) : Z := (x * y) mod p25519.
Definition fneg (x : Z) : Z := fsub 0 x.
Definition fpow (x n : Z) : Z := (x ^ n) mod p25519.

(** What the operations promise. *)
Class FieldSound (F : FieldOps) : Prop := {
  add_sound a b x y : rep a x -> rep b y -> returns (fe_add a b) (fun r => rep r (fadd x y));
  sub_sound a b x y : rep a x -> rep b y -> returns (fe_sub a b) (fun r => rep r (fsub x y));
  mul_sound a b x y : rep a x -> rep b y -> returns (fe_mul a b) (fun r => rep r (fmul x y));
  sqr_sound a x : rep a x -> returns (fe_sqr a) (fun r => rep r (fmul x x))
}.

#[export] Instance portable_sound : FieldSound portable_ops.
Proof.
  split.
  - intros a b x y [Ha <-] [Hb <-]. unfold fadd. rewrite <- Zplus_mod. by apply add_spec_fe.
  - intros a b x y [Ha <-] [Hb <-]. unfold fsub. rewrite <- Zminus_mod. by apply sub_spec_fe.
  - intros a b x y [Ha <-] [Hb <-]. unfold fmul. rewrite <- Zmult_mod. by apply mul_spec_fe.
  - intros a x [Ha <-]. unfold fmul. rewrite <- Zmult_mod. by apply sqr_spec_fe.
Qed.

Lemma rep_zero : rep fe_zero 0.
Proof. split; [|reflexivity]. split; [done|]. by repeat constructor. Qed.
Lemma rep_one : rep fe_one 1.
Proof. split; [|reflexivity]. split; [done|]. by repeat constructor. Qed.

Lemma mul_small_sound a x k : rep a x -> is_u32 k -> returns (fe_mul_small a k) (fun r => rep r (fmul x k)).
Proof. intros [Ha <-] Hk. unfold fmul. rewrite Zmult_mod_idemp_l. by apply mul_small_spec. Qed.

(** ** Limb seven *)

Lemma val_top t : length t = 8%nat -> val t = val (take 7 t) + W 7 * (t !!! 7%nat) /\ forall w, val (<[7%nat := w]> t) = val (take 7 t) + W 7 * w.
Proof.
  intros L. destruct t as [|z0 [|z1 [|z2 [|z3 [|z4 [|z5 [|z6 [|z7 [|? ?]]]]]]]]]; try done. change (W 7) with (2 ^ 224).
  change ([z0; z1; z2; z3; z4; z5; z6; z7] !!! 7%nat) with z7. split; [|intros w; change (<[7%nat := w]> _) with [z0; z1; z2; z3; z4; z5; z6; w]]; cbn [val take]; lia.
Qed.

Lemma mask_top t : fe_ok t ->
  let t' := <[7%nat := Z.land (t !!! 7%nat) 0x7fffffff]> t in
  fe_ok t' /\ val t' = val t mod 2 ^ 255 /\ Z.shiftr (t !!! 7%nat) 31 = val t / 2 ^ 255.
Proof.
  intros [L M]. cbv zeta. destruct (val_top t L) as [E E']. assert (Hw : is_u32 (t !!! 7%nat)).
  { destruct (lookup_lt_is_Some_2 t 7) as [w Hw]; [lia|]. rewrite (list_lookup_total_correct _ _ _ Hw). apply (Forall_lookup_1 _ _ _ _ M Hw). }
  set (w := t !!! 7%nat) in *. clearbody w.
  assert (R : 0 <= val (take 7 t) < W 7). { assert (Mt : mem_ok (take 7 t)) by by apply Forall_take. pose proof (val_range _ Mt) as R. rewrite length_take, L in R. exact R. }
  change 0x7fffffff with (Z.ones 31). rewrite Z.land_ones, Z.shiftr_div_pow2 by lia. unfold is_u32 in Hw.
  pose proof (Z.div_mod w (2 ^ 31) ltac:(lia)) as D. pose proof (Z.mod_pos_bound w (2 ^ 31) ltac:(lia)) as B.
  split; [split; [by rewrite length_insert|apply Forall_insert; [done|unfold is_u32; lia]]|]. rewrite E', E. change (W 7) with (2 ^ 224) in *.
  set (q := w / 2 ^ 31) in *. set (m := w mod 2 ^ 31) in *. clearbody q m. set (l := val (take 7 t)) in *. clearbody l.
  split; [apply (Z.mod_unique_pos _ _ q); lia|]. apply (Z.div_unique_pos _ _ _ (l + 2 ^ 224 * m)); lia.
Qed.

Lemma fold_top_spec t : fe_ok t -> fe_ok (fold_top t) /\ val (fold_top t) = val t mod 2 ^ 255 + 19 * (val t / 2 ^ 255).
Proof.
  intros Ht. pose proof (fe_range t Ht) as R. change (W 8) with (2 ^ 256) in R. destruct (mask_top t Ht) as (Ok & V & Es). unfold fold_top. rewrite Es. cbv zeta.
  set (t' := <[7%nat := _]> t) in *. clearbody t'. assert (Hq : 0 <= val t / 2 ^ 255 <= 1) by (split; [apply Z.div_pos; lia|apply Z.lt_succ_r, Z.div_lt_upper_bound; lia]).
  pose proof (Z.mod_pos_bound (val t) (2 ^ 255) ltac:(lia)) as Hm. rewrite <- V in Hm |- *. set (q := val t / 2 ^ 255) in *. clearbody q.
  rewrite u64_small by (unfold is_u64; lia). destruct Ok as [L M].
  destruct (fold_round_spells t' (q * 19) M) as [S Hc]; [lia|]. destruct (fold_round t' (q * 19)) as [r c]. destruct S as (Lr & Mr & Vr). cbn [fst snd] in *. rewrite L in *.
  change (W (Z.of_nat 8)) with (2 ^ 256) in Vr. pose proof (fe_range r (conj Lr Mr)) as Rr. assert (c = 0) as -> by lia. split; [done|]. lia.
Qed.

Lemma add_word_spec t : forall v, mem_ok t -> 0 <= v < 2 ^ 32 ->
  length (add_word t v) = length t /\ mem_ok (add_word t v) /\ exists k, 0 <= k /\ val (add_word t v) + W (Z.of_nat (length t)) * k = val t + v.
Proof.
  induction t as [|x t IH]; intros v Ht Hv; cbn [add_word].
  { split; [done|]. split; [constructor|]. exists v. cbn [val length]. change (W (Z.of_nat 0)) with 1. lia. }
  apply mem_cons in Ht as [Hx Ht]. unfold is_u32 in Hx. rewrite u64_small by (unfold is_u64; lia). destruct (word_split (v + x)) as (Es & H1 & H2); [lia|].
  unfold is_u32 in H2. destruct (IH (Z.shiftr (v + x) 32) Ht ltac:(lia)) as (L & M & k & Hk & V).
  split; [cbn [length]; lia|]. split; [by apply mem_cons|]. exists k. split; [done|]. rewrite W_cons. cbn [val]. lia.
Qed.

(** The fully reduced value, in eight limbs. *)
Lemma select_words bit t s : length t = length s -> mem_ok t -> mem_ok s -> bit = 0 \/ bit = 1 ->
  zip_with (fun x y => Z.lxor x (Z.land (u32 (0 - bit)) (Z.lxor x y))) t s = if bit =? 0 then t else s.
Proof.
  intros L Ht Hs Hb. revert s L Hs. induction t as [|x t IH]; intros [|y s] L Hs; try done; [by destruct Hb as [-> | ->]|].
  apply mem_cons in Ht as [Hx Ht]. apply mem_cons in Hs as [Hy Hs]. cbn [zip_with]. rewrite IH by (done || by injection L).
  destruct Hb as [-> | ->]; cbn [Z.eqb].
  - change (u32 (0 - 0)) with 0. by rewrite Z.land_0_l, Z.lxor_0_r.
  - change (u32 (0 - 1)) with (Z.ones 32). rewrite Z.land_comm, Z.land_ones by lia. f_equal.
    assert (Hxy : is_u32 (Z.lxor x y)).
    { unfold is_u32 in *. rewrite <- (Z.mod_small x (2 ^ 32)), <- (Z.mod_small y (2 ^ 32)), <- !Z.land_ones by lia.
      replace (Z.lxor (Z.land x (Z.ones 32)) (Z.land y (Z.ones 32))) with (Z.land (Z.lxor x y) (Z.ones 32)).
      - rewrite Z.land_ones by lia. apply Z.mod_pos_bound. lia.
      - apply Z.bits_inj'. intros n _. rewrite !Z.lxor_spec, !Z.land_spec, !Z.lxor_spec. by destruct (Z.testbit x n), (Z.testbit y n), (Z.testbit (Z.ones 32) n). }
    rewrite Z.mod_small by exact Hxy. rewrite <- Z.lxor_assoc, Z.lxor_nilpotent, Z.lxor_0_l. done.
Qed.

Lemma word_bytes_le w k v : is_u32 w -> word_bytes w ++ le_bytes k v = le_bytes (4 + k) (w + 2 ^ 32 * v).
Proof.
  intros Hw. unfold word_bytes, u8. rewrite !Z.shiftr_div_pow2 by lia. unfold is_u32 in Hw. cbn [Nat.add le_bytes app]. change (2 ^ 8) with 256. rewrite !Z.div_div by lia.
  change (256 * 256) with (2 ^ 16). change (2 ^ 16 * 256) with (2 ^ 24). change (2 ^ 24 * 256) with (2 ^ 32).
  assert (E : forall j m, 0 <= j -> 0 <= m -> j + m = 24 -> (w / 2 ^ j) mod 256 = ((w + 2 ^ 32 * v) / 2 ^ j) mod 256).
  { intros j m Hj Hm Hjm. replace (w + 2 ^ 32 * v) with (w + (256 * 2 ^ m * v) * 2 ^ j).
    - rewrite Z.div_add by (apply Z.pow_nonzero; lia). replace (w / 2 ^ j + 256 * 2 ^ m * v) with (w / 2 ^ j + (2 ^ m * v) * 256) by ring. by rewrite Z.mod_add by lia.
    - replace (2 ^ 32) with (256 * 2 ^ m * 2 ^ j); [ring|]. change 256 with (2 ^ 8). rewrite <- !Z.pow_add_r by lia. f_equal. lia. }
  assert (E0 : w mod 256 = (w + 2 ^ 32 * v) mod 256) by (pose proof (E 0 24 ltac:(lia) ltac:(lia) ltac:(lia)) as E0; change (2 ^ 0) with 1 in E0; by rewrite !Z.div_1_r in E0).
  pose proof (E 8 16 ltac:(lia) ltac:(lia) ltac:(lia)) as E8. change (2 ^ 8) with 256 in E8. rewrite E0, E8, (E 16 8), (E 24 0) by lia. do 4 f_equal.
  f_equal. f_equal. rewrite Z.mul_comm, Z.div_add by lia. rewrite Z.div_small by lia. lia.
Qed.

Lemma words_le t : mem_ok t -> concat (map word_bytes t) = le_bytes (4 * length t) (val t).
Proof.
  induction t as [|w t IH]; intros H; [done|]. apply mem_cons in H as [Hw Ht]. cbn [map concat length val]. rewrite (IH Ht), (word_bytes_le w) by done. f_equal. lia.
Qed.

Lemma tobytes_val a : fe_ok a -> fe_tobytes a = le_bytes 32 (val a mod p25519).
Proof.
  intros Ha. destruct (fold_top_spec a Ha) as [O1 V1]. destruct (fold_top_spec _ O1) as [O2 V2]. unfold fe_tobytes. cbv zeta.
  set (t := fold_top (fold_top a)) in *. pose proof (fe_range a Ha) as Ra. change (W 8) with (2 ^ 256) in Ra.
  assert (Vt : val t mod p25519 = val a mod p25519 /\ 0 <= val t < 2 ^ 255).
  { assert (Q : forall v, v = v mod 2 ^ 255 + 2 ^ 255 * (v / 2 ^ 255) /\ 0 <= v mod 2 ^ 255 < 2 ^ 255) by (intros v; pose proof (Z.div_mod v (2 ^ 255) ltac:(lia)); pose proof (Z.mod_pos_bound v (2 ^ 255) ltac:(lia)); lia).
    destruct (Q (val a)) as [Ea Ba]. assert (Hqa : 0 <= val a / 2 ^ 255 <= 1) by (split; [apply Z.div_pos; lia|apply Z.lt_succ_r, Z.div_lt_upper_bound; lia]).
    set (v1 := val (fold_top a)) in *. clearbody v1. destruct (Q v1) as [E1 B1]. set (qa := val a / 2 ^ 255) in *. set (ma := val a mod 2 ^ 255) in *. clearbody qa ma.
    assert (Hq1 : 0 <= v1 / 2 ^ 255 <= 1) by (split; [apply Z.div_pos; lia|apply Z.lt_succ_r, Z.div_lt_upper_bound; lia]).
    set (q1 := v1 / 2 ^ 255) in *. set (m1 := v1 mod 2 ^ 255) in *. clearbody q1 m1. rewrite V2. split; [|lia]. apply (modp _ _ (- qa - q1)). unfold p25519. lia. }
  clearbody t. destruct Vt as [<- Rt]. clear a Ha O1 V1 V2 Ra. destruct O2 as [Lt Mt].
  destruct (add_word_spec t 19 Mt ltac:(lia)) as (Ls & Ms & k & Hk & Vs). rewrite Lt in *. change (W (Z.of_nat 8)) with (2 ^ 256) in Vs.
  set (s := add_word t 19) in *. clearbody s. pose proof (fe_range s (conj Ls Ms)) as Rs. assert (k = 0) as -> by lia.
  destruct (mask_top s (conj Ls Ms)) as ([Ls' Ms'] & Vs' & ->). set (s' := <[7%nat := _]> s) in *. clearbody s'. replace (val s) with (val t + 19) in * by lia.
  assert (Hb : (val t + 19) / 2 ^ 255 = 0 /\ val t < p25519 \/ (val t + 19) / 2 ^ 255 = 1 /\ p25519 <= val t /\ val s' = val t - p25519).
  { rewrite Vs'. unfold p25519. destruct (Z_lt_dec (val t) (2 ^ 255 - 19)) as [H|H]; [left; split; [apply Z.div_small; lia|lia]|right].
    split; [symmetry; apply (Z.div_unique_pos _ _ _ (val t + 19 - 2 ^ 255)); lia|]. split; [lia|]. symmetry. apply (Z.mod_unique_pos _ _ 1); lia. }
  rewrite select_words by (lia || done || destruct Hb as [[-> _] | [-> _]]; auto). destruct Hb as [[-> H] | (-> & H & E)]; cbn [Z.eqb].
  - rewrite words_le, Lt by done. by rewrite Z.mod_small by lia.
  - rewrite words_le, Ls' by done. f_equal. rewrite E. apply (Z.mod_unique_pos _ _ 1); unfold p25519 in *; lia.
Qed.

Lemma tobytes_rep a x : rep a x -> fe_tobytes a = le_bytes 32 x /\ 0 <= x < p25519.
Proof. intros [Ha <-]. split; [by apply tobytes_val|]. by apply Z.mod_pos_bound. Qed.

(** ** Bytes in, and the tests on bytes *)

Lemma le_val_le n : forall v, 0 <= v < 256 ^ Z.of_nat n -> le_val (le_bytes n v) = v.
Proof.
  induction n as [|n IH]; intros v Hv; [change (256 ^ Z.of_nat 0) with 1 in Hv; cbn; lia|]. rewrite Nat2Z.inj_succ, Z.pow_succ_r in Hv by lia.
  cbn [le_bytes le_val]. rewrite IH by (split; [apply Z.div_pos; lia|apply Z.div_lt_upper_bound; lia]). pose proof (Z.div_mod v 256 ltac:(lia)). lia.
Qed.

Lemma load_word_val b i : bytes_ok b -> (4 * i + 4 <= length b)%nat ->
  is_u32 (load_word b i) /\ le_val (drop (4 * i) b) = load_word b i + 2 ^ 32 * le_val (drop (4 * (i + 1)) b).
Proof.
  intros Hb Hl. assert (D : forall k, (k < length b)%nat -> drop k b = b !!! k :: drop (S k) b /\ is_u8 (b !!! k)).
  { intros k Hk. destruct (lookup_lt_is_Some_2 b k Hk) as [x Hx]. rewrite (list_lookup_total_correct _ _ _ Hx). split; [by apply drop_S|]. apply (Forall_lookup_1 _ _ _ _ Hb Hx). }
  destruct (D (4 * i)%nat) as [D0 B0]; [lia|]. destruct (D (4 * i + 1)%nat) as [D1 B1]; [lia|]. destruct (D (4 * i + 2)%nat) as [D2 B2]; [lia|]. destruct (D (4 * i + 3)%nat) as [D3 B3]; [lia|].
  rewrite D0. replace (S (4 * i)) with (4 * i + 1)%nat by lia. rewrite D1. replace (S (4 * i + 1)) with (4 * i + 2)%nat by lia. rewrite D2.
  replace (S (4 * i + 2)) with (4 * i + 3)%nat by lia. rewrite D3. replace (S (4 * i + 3)) with (4 * (i + 1))%nat by lia. cbn [le_val].
  unfold load_word. set (b0 := b !!! (4 * i)%nat) in *. set (b1 := b !!! (4 * i + 1)%nat) in *. set (b2 := b !!! (4 * i + 2)%nat) in *. set (b3 := b !!! (4 * i + 3)%nat) in *.
  clearbody b0 b1 b2 b3. clear D D0 D1 D2 D3. unfold is_u8 in *.
  assert (E : Z.lor (Z.lor (Z.lor b0 (b1 <<w 8)) (b2 <<w 16)) (b3 <<w 24) = b0 + 256 * (b1 + 256 * (b2 + 256 * b3))).
  { rewrite !u32_small by (rewrite Z.shiftl_mul_pow2 by lia; unfold is_u32; lia).
    rewrite (Z.lor_comm _ (Z.shiftl b3 24)), (Z.lor_comm _ (Z.shiftl b2 16)), (Z.lor_comm _ (Z.shiftl b1 8)).
    rewrite (lor_shift_add 8) by lia. rewrite (lor_shift_add 16) by lia. rewrite (lor_shift_add 24) by lia. lia. }
  rewrite E. unfold is_u32. lia.
Qed.

Lemma fe_words_val b n : forall i, bytes_ok b -> (4 * (i + n) <= length b)%nat ->
  let r := map (load_word b) (List.seq i n) in
  length r = n /\ mem_ok r /\ le_val (drop (4 * i) b) = val r + W (Z.of_nat n) * le_val (drop (4 * (i + n)) b).
Proof.
  induction n as [|n IH]; intros i Hb Hl; cbv zeta; cbn [List.seq map].
  { split; [done|]. split; [constructor|]. rewrite Nat.add_0_r. cbn [val]. change (W (Z.of_nat 0)) with 1. lia. }
  destruct (load_word_val b i Hb) as [Hw E]; [lia|]. destruct (IH (S i) Hb) as (L & M & V); [lia|]. cbv zeta in L, M, V.
  split; [cbn [length]; lia|]. split; [by apply mem_cons|]. rewrite E. replace (i + 1)%nat with (S i) by lia. rewrite V. cbn [val]. replace (S i + n)%nat with (i + S n)%nat by lia.
  replace (Z.of_nat (S n)) with (Z.of_nat n + 1) by lia. rewrite W_S by lia. ring.
Qed.

Lemma frombytes_val b : bytes_ok b -> length b = 32%nat -> fe_ok (fe_frombytes b) /\ val (fe_frombytes b) = le_val b mod 2 ^ 255.
Proof.
  intros Hb L. destruct (fe_words_val b 8 0 Hb) as (Lr & Mr & V); [lia|]. unfold fe_frombytes. set (r := map (load_word b) (List.seq 0 8)) in *. clearbody r.
  destruct (mask_top r (conj Lr Mr)) as (Ok & Vt & _). cbv zeta in Ok, Vt. cbv zeta. split; [exact Ok|]. rewrite Vt. f_equal.
  change (4 * 0)%nat with 0%nat in V. change (4 * (0 + 8))%nat with 32%nat in V. rewrite (drop_ge b 32) in V by lia. rewrite drop_0 in V. cbn [le_val] in V. lia.
Qed.

Lemma le_bytes_ok n : forall v, bytes_ok (le_bytes n v).
Proof. induction n as [|n IH]; intros v; [constructor|]. constructor; [|apply IH]. unfold is_u8. apply Z.mod_pos_bound. lia. Qed.

Lemma lor_bytes_zero l : forall a, 0 <= a -> bytes_ok l -> (foldl Z.lor a l = 0 <-> a = 0 /\ le_val l = 0) /\ 0 <= foldl Z.lor a l.
Proof.
  induction l as [|b l IH]; intros a Ha Hl; cbn [foldl le_val]; [split; [tauto|done]|].
  apply Forall_cons in Hl as [Hb Hl]. unfold is_u8 in Hb. pose proof (le_val_range l Hl) as R. assert (Hab : 0 <= Z.lor a b) by (apply Z.lor_nonneg; lia).
  destruct (IH (Z.lor a b) Hab Hl) as [H1 H2]. split; [|done]. rewrite H1, Z.lor_eq_0_iff. lia.
Qed.

Lemma pow_bound : p25519 < 256 ^ Z.of_nat 32.
Proof. reflexivity. Qed.

Lemma nonzero_rep a x : rep a x -> fe_isnonzero a = negb (x =? 0).
Proof.
  intros Hr. destruct (tobytes_rep a x Hr) as [E R]. unfold fe_isnonzero. rewrite E. f_equal.
  destruct (lor_bytes_zero (le_bytes 32 x) 0 ltac:(lia) (le_bytes_ok 32 x)) as [H _]. rewrite (le_val_le 32 x) in H by (pose proof pow_bound; lia).
  destruct (Z.eqb_spec (foldl Z.lor 0 (le_bytes 32 x)) 0) as [e|e], (Z.eqb_spec x 0) as [e'|e']; try done; tauto.
Qed.

Lemma isodd_rep a x : rep a x -> fe_isodd a = x mod 2.
Proof.
  intros Hr. destruct (tobytes_rep a x Hr) as [E R]. unfold fe_isodd. rewrite E. change (le_bytes 32 x !!! 0%nat) with (x mod 256).
  change 1 with (Z.ones 1) at 1. rewrite Z.land_ones by lia. change (2 ^ 1) with 2. apply Z.mod_mod_divide. by exists 128.
Qed.

Lemma cswap_words bit a b : length a = length b -> mem_ok a -> mem_ok b -> bit = 0 \/ bit = 1 -> fe_cswap a b bit = if bit =? 0 then (a, b) else (b, a).
Proof.
  intros L Ha Hb Hbit. unfold fe_cswap. cbv zeta.
  assert (E : zip_with Z.lxor a (zip_with (fun x y => Z.land (u32 (0 - bit)) (Z.lxor x y)) a b) = (if bit =? 0 then a else b) /\
    zip_with Z.lxor b (zip_with (fun x y => Z.land (u32 (0 - bit)) (Z.lxor x y)) a b) = (if bit =? 0 then b else a)).
  { rewrite <- (select_words bit a b), <- (select_words bit b a) by done. revert b L Hb. induction Ha as [|x a Hx Ha IH]; intros [|y b] L Hb; try done.
    apply mem_cons in Hb as [_ Hb]. cbn [zip_with]. destruct (IH b) as [-> ->]; [by injection L|done|]. by rewrite (Z.lxor_comm y x). }
  destruct E as [-> ->]. by destruct Hbit as [-> | ->].
Qed.

Lemma cswap_rep bit a b x y : rep a x -> rep b y -> bit = 0 \/ bit = 1 ->
  exists a' b', fe_cswap a b bit = (a', b') /\ rep a' (if bit =? 0 then x else y) /\ rep b' (if bit =? 0 then y else x).
Proof.
  intros Ha Hb Hbit. pose proof Ha as [[La Ma] _]. pose proof Hb as [[Lb Mb] _]. rewrite cswap_words by (lia || done).
  destruct (bit =? 0); eexists _, _; done.
Qed.

(** ** Powers *)

Lemma rep_range a x : rep a x -> 0 <= x < p25519.
Proof. intros [_ <-]. by apply Z.mod_pos_bound. Qed.

Lemma fpow_1 x : 0 <= x < p25519 -> fpow x 1 = x.
Proof. intros H. unfold fpow. rewrite Z.pow_1_r. by apply Z.mod_small. Qed.

Lemma fpow_add x m n : 0 <= m -> 0 <= n -> fmul (fpow x m) (fpow x n) = fpow x (m + n).
Proof. intros Hm Hn. unfold fmul, fpow. rewrite <- Zmult_mod. by rewrite Z.pow_add_r. Qed.

#[local] Opaque fpow fmul.

Section powers.
Context (F : FieldOps) {HF : FieldSound F}.

Lemma neg_sound a x : rep a x -> returns (fe_neg a) (fun r => rep r (fneg x)).
Proof. intros Ha. apply sub_sound; [apply rep_zero|done]. Qed.

Lemma sqr_pow a x m e : rep a (fpow x m) -> 0 <= m -> e = 2 * m -> returns (fe_sqr a) (fun r => rep r (fpow x e)).
Proof. intros Ha Hm ->. replace (2 * m) with (m + m) by lia. rewrite <- fpow_add by done. by apply sqr_sound. Qed.

Lemma mul_pow a b x m n e : rep a (fpow x m) -> rep b (fpow x n) -> 0 <= m -> 0 <= n -> e = m + n -> returns (fe_mul a b) (fun r => rep r (fpow x e)).
Proof. intros Ha Hb Hm Hn ->. rewrite <- fpow_add by done. by apply mul_sound. Qed.

Lemma sqr_times_pow n : forall a x m e, rep a (fpow x m) -> 0 <= m -> e = 2 ^ Z.of_nat n * m -> returns (sqr_times n a) (fun r => rep r (fpow x e)).
Proof.
  induction n as [|n IH]; intros a x m e Ha Hm ->; cbn [sqr_times].
  { change (2 ^ Z.of_nat 0) with 1. rewrite Z.mul_1_l. by apply returns_val. }
  eapply returns_bind; [by apply (sqr_pow a x m (2 * m))|]. intros t Ht. apply (IH t x (2 * m)); [done|lia|]. rewrite Nat2Z.inj_succ, Z.pow_succ_r by lia. ring.
Qed.

Lemma pow_2n_mul a b x n m k e : rep a (fpow x m) -> rep b (fpow x k) -> 0 <= m -> 0 <= k -> e = 2 ^ Z.of_nat n * m + k ->
  returns (fe_pow_2n_mul a n b) (fun r => rep r (fpow x e)).
Proof.
  intros Ha Hb Hm Hk ->. unfold fe_pow_2n_mul. eapply returns_bind; [by apply (sqr_times_pow n a x m (2 ^ Z.of_nat n * m))|].
  intros t Ht. apply (mul_pow t b x _ _ _ Ht Hb); [|done|done]. pose proof (Z.pow_nonneg 2 (Z.of_nat n)). nia.
Qed.

Local Ltac next r H e := eapply returns_bind;
  [first [eapply (sqr_pow _ _ _ e); [eassumption|lia|reflexivity] | eapply (mul_pow _ _ _ _ _ e); [eassumption|eassumption|lia|lia|reflexivity]
         | eapply (pow_2n_mul _ _ _ _ _ _ e); [eassumption|eassumption|lia|lia|reflexivity] | eapply (sqr_times_pow _ _ _ _ e); [eassumption|lia|reflexivity]]|];
  intros r H; cbv beta in H.

(** The inverse of RFC 7748: the power p - 2. *)
Lemma invert_sound z x : rep z x -> returns (fe_invert z) (fun r => rep r (fpow x (p25519 - 2))).
Proof.
  intros Hz. pose proof (rep_range z x Hz) as Rx. rewrite <- (fpow_1 x Rx) in Hz. unfold fe_invert.
  next a0 A0 2. next a1 A1 4. next a2 A2 8. next a3 A3 9. next a4 A4 11. next a5 A5 22. next a6 A6 (2 ^ 5 - 1).
  next a7 A7 (2 ^ 10 - 1). next a8 A8 (2 ^ 20 - 1). next a9 A9 (2 ^ 40 - 1). next b1 B1 (2 ^ 50 - 1). next b2 B2 (2 ^ 100 - 1). next b3 B3 (2 ^ 200 - 1). next b4 B4 (2 ^ 250 - 1).
  next b5 B5 (2 ^ 255 - 32). apply (mul_pow b5 a4 x (2 ^ 255 - 32) 11); (done || lia).
Qed.

Lemma pow22523_sound z x : rep z x -> returns (fe_pow22523 z) (fun r => rep r (fpow x ((p25519 - 5) / 8))).
Proof.
  intros Hz. pose proof (rep_range z x Hz) as Rx. rewrite <- (fpow_1 x Rx) in Hz. unfold fe_pow22523.
  next a0 A0 2. next a1 A1 4. next a2 A2 8. next a3 A3 9. next a4 A4 11. next a5 A5 22. next a6 A6 (2 ^ 5 - 1).
  next a7 A7 (2 ^ 10 - 1). next a8 A8 (2 ^ 20 - 1). next a9 A9 (2 ^ 40 - 1). next b1 B1 (2 ^ 50 - 1). next b2 B2 (2 ^ 100 - 1). next b3 B3 (2 ^ 200 - 1). next b4 B4 (2 ^ 250 - 1).
  next b5 B5 (2 ^ 252 - 4). apply (mul_pow b5 z x (2 ^ 252 - 4) 1); (done || lia).
Qed.
End powers.
