(* ===== verification/X25519.v ===== *)
(** * X25519 (src/src/crypto68k/c68k_25519.c)

    The Montgomery ladder over any implementation of the field, and the function of
    RFC 7748. *)

From Stdlib Require Import ZArith Lia.
From stdpp Require Import base numbers list.
From S2P Require Import Prelude RxSpec Poly1305Spec Limbs Fe25519 FeSpec FeField.
#[local] Open Scope Z_scope.

Record ladder := Ladder { l_x2 : fe; l_z2 : fe; l_x3 : fe; l_z3 : fe; l_swap : Z }.

(** Bit [pos] of a little-endian scalar. *)
Definition scalar_bit (e : list Z) (pos : nat) : Z := Z.land (Z.shiftr (e !!! (pos / 8)%nat) (Z.of_nat (pos mod 8))) 1.

Section ladder.
Context `{FieldOps}.

Definition ladder_step (e : list Z) (x1 : fe) (pos : nat) (l : ladder) : outcome ladder :=
  let bit := scalar_bit e pos in
  let swap := Z.lxor (l_swap l) bit in
  let '(x2, x3) := fe_cswap (l_x2 l) (l_x3 l) swap in
  let '(z2, z3) := fe_cswap (l_z2 l) (l_z3 l) swap in
  let! a := fe_add x2 z2 in
  let! aa := fe_sqr a in
  let! b := fe_sub x2 z2 in
  let! bb := fe_sqr b in
  let! ee := fe_sub aa bb in
  let! c := fe_add x3 z3 in
  let! d := fe_sub x3 z3 in
  let! da := fe_mul d a in
  let! cb := fe_mul c b in
  let! t := fe_add da cb in
  let! x3 := fe_sqr t in
  let! t := fe_sub da cb in
  let! t := fe_sqr t in
  let! z3 := fe_mul x1 t in
  let! x2 := fe_mul aa bb in
  let! t := fe_mul_small ee 121665 in
  let! t := fe_add aa t in
  let! z2 := fe_mul ee t in
  Val (Ladder x2 z2 x3 z3 bit).

(** Positions [n - 1] down to 0. *)
Fixpoint ladder_loop (n : nat) (e : list Z) (x1 : fe) (l : ladder) : outcome ladder :=
  match n with
  | O => Val l
  | S pos => let! l := ladder_step e x1 pos l in ladder_loop pos e x1 l
  end.

Definition x25519_core (e : list Z) (x1 : fe) : outcome fe :=
  let! l := ladder_loop 255 e x1 (Ladder fe_one fe_zero x1 fe_one 0) in
  let '(x2, _) := fe_cswap (l_x2 l) (l_x3 l) (l_swap l) in
  let '(z2, _) := fe_cswap (l_z2 l) (l_z3 l) (l_swap l) in
  let! z2 := fe_invert z2 in
  fe_mul x2 z2.

Definition x25519_clamp (n : list Z) : list Z :=
  let e := <[0%nat := Z.land (n !!! 0%nat) 248]> n in
  let e := <[31%nat := Z.land (e !!! 31%nat) 127]> e in
  <[31%nat := Z.lor (e !!! 31%nat) 64]> e.

(** The status and the 32 bytes written. *)
Definition c68k_x25519 (n p : list Z) : outcome (Z * list Z) :=
  let! r := x25519_core (x25519_clamp n) (fe_frombytes p) in
  let q := fe_tobytes r in
  Val (if negb (foldl Z.lor 0 q =? 0) then 0 else -1, q).

Definition c68k_x25519_base (n : list Z) : outcome (Z * list Z) := c68k_x25519 n (9 :: replicate 31 0).
End ladder.

(** ** RFC 7748, section 5 *)

Record residues := Residues { r_x2 : Z; r_z2 : Z; r_x3 : Z; r_z3 : Z; r_swap : Z }.

Definition rfc_step (k x1 : Z) (pos : nat) (l : residues) : residues :=
  let kt := (k / 2 ^ Z.of_nat pos) mod 2 in
  let swap := Z.lxor (r_swap l) kt in
  let x2 := if swap =? 0 then r_x2 l else r_x3 l in
  let x3 := if swap =? 0 then r_x3 l else r_x2 l in
  let z2 := if swap =? 0 then r_z2 l else r_z3 l in
  let z3 := if swap =? 0 then r_z3 l else r_z2 l in
  let a := fadd x2 z2 in
  let aa := fmul a a in
  let b := fsub x2 z2 in
  let bb := fmul b b in
  let e := fsub aa bb in
  let c := fadd x3 z3 in
  let d := fsub x3 z3 in
  let da := fmul d a in
  let cb := fmul c b in
  let x3 := fmul (fadd da cb) (fadd da cb) in
  let z3 := fmul x1 (fmul (fsub da cb) (fsub da cb)) in
  let x2 := fmul aa bb in
  let z2 := fmul e (fadd aa (fmul e 121665)) in
  Residues x2 z2 x3 z3 kt.

Fixpoint rfc_loop (n : nat) (k x1 : Z) (l : residues) : residues :=
  match n with O => l | S pos => rfc_loop pos k x1 (rfc_step k x1 pos l) end.

Definition x25519_rfc (k u : Z) : Z :=
  let l := rfc_loop 255 k u (Residues 1 0 u 1 0) in
  let x2 := if r_swap l =? 0 then r_x2 l else r_x3 l in
  let z2 := if r_swap l =? 0 then r_z2 l else r_z3 l in
  fmul x2 (fpow z2 (p25519 - 2)).

(** decodeScalar25519: bits 0, 1, 2 and 255 cleared, bit 254 set. *)
Definition decode_scalar (n : list Z) : Z := 2 ^ 254 + 8 * ((le_val n mod 2 ^ 254) / 8).
(** decodeUCoordinate: bit 255 ignored, then the residue. *)
Definition decode_u (p : list Z) : Z := (le_val p mod 2 ^ 255) mod p25519.

(** ** The ladder refines it *)

Lemma scalar_bit_val e : forall pos, bytes_ok e -> (pos < 8 * length e)%nat -> scalar_bit e pos = (le_val e / 2 ^ Z.of_nat pos) mod 2.
Proof.
  unfold scalar_bit. change 1 with (Z.ones 1). intros pos He Hp. rewrite Z.land_ones by lia. change (2 ^ 1) with 2. revert pos Hp.
  induction He as [|b e Hb He IH]; intros pos Hp; [cbn in Hp; lia|]. cbn [le_val]. unfold is_u8 in Hb. rewrite Z.shiftr_div_pow2 in * by lia.
  destruct (Nat.lt_ge_cases pos 8) as [H|H].
  - rewrite Nat.div_small, Nat.mod_small by lia. change ((b :: e) !!! 0%nat) with b.
    replace (b + 256 * le_val e) with (b + (2 ^ (8 - Z.of_nat pos - 1) * le_val e * 2) * 2 ^ Z.of_nat pos).
    + rewrite Z.div_add by (apply Z.pow_nonzero; lia). by rewrite Z.mod_add by lia.
    + replace (2 ^ (8 - Z.of_nat pos - 1) * le_val e * 2 * 2 ^ Z.of_nat pos) with (2 ^ (8 - Z.of_nat pos - 1) * 2 ^ 1 * 2 ^ Z.of_nat pos * le_val e) by ring.
      rewrite <- !Z.pow_add_r by lia. replace (8 - Z.of_nat pos - 1 + 1 + Z.of_nat pos) with 8 by lia. reflexivity.
  - assert (Ed : (pos / 8 = S ((pos - 8) / 8))%nat) by (replace pos with (pos - 8 + 1 * 8)%nat at 1 by lia; rewrite Nat.div_add by lia; lia).
    assert (Em : (pos mod 8 = (pos - 8) mod 8)%nat) by (replace pos with (pos - 8 + 1 * 8)%nat at 1 by lia; by rewrite Nat.Div0.mod_add).
    rewrite Ed, Em. change ((b :: e) !!! S ((pos - 8) / 8)%nat) with (e !!! ((pos - 8) / 8)%nat).
    specialize (IH (pos - 8)%nat). rewrite Z.shiftr_div_pow2 in IH by lia. rewrite IH by (cbn [length] in Hp; lia).
    replace (2 ^ Z.of_nat pos) with (256 * 2 ^ Z.of_nat (pos - 8)) by (change 256 with (2 ^ 8); rewrite <- Z.pow_add_r by lia; f_equal; lia).
    rewrite <- Z.div_div by lia. replace ((b + 256 * le_val e) / 256) with (le_val e) by (apply (Z.div_unique_pos _ _ _ b); lia). done.
Qed.

Lemma le_val_bit_range v pos : (v / 2 ^ Z.of_nat pos) mod 2 = 0 \/ (v / 2 ^ Z.of_nat pos) mod 2 = 1.
Proof. pose proof (Z.mod_pos_bound (v / 2 ^ Z.of_nat pos) 2 ltac:(lia)). lia. Qed.

Record ladder_rep (l : ladder) (r : residues) : Prop := LadderRep {
  lr_x2 : rep (l_x2 l) (r_x2 r); lr_z2 : rep (l_z2 l) (r_z2 r); lr_x3 : rep (l_x3 l) (r_x3 r); lr_z3 : rep (l_z3 l) (r_z3 r);
  lr_swap : l_swap l = r_swap r /\ (r_swap r = 0 \/ r_swap r = 1)
}.

(** One call of the field, by what it promises. *)
Ltac field_step :=
  eapply returns_bind;
  [first [eapply add_sound | eapply sub_sound | eapply mul_sound | eapply sqr_sound | eapply mul_small_sound]; try eassumption; try (unfold is_u32; lia)|];
  cbv beta; let r := fresh "r" in let H := fresh "R" in intros r H.

Section refinement.
Context (F : FieldOps) {HF : FieldSound F}.

Lemma ladder_step_rep e k x1 u pos l r : scalar_bit e pos = (k / 2 ^ Z.of_nat pos) mod 2 -> rep x1 u -> ladder_rep l r ->
  returns (ladder_step e x1 pos l) (fun l' => ladder_rep l' (rfc_step k u pos r)).
Proof.
  intros Hbit H1 [Hx2 Hz2 Hx3 Hz3 [Hs Hs01]]. unfold ladder_step, rfc_step. rewrite Hbit, Hs. cbv zeta.
  pose proof (le_val_bit_range k pos) as Hb. set (bit := (k / 2 ^ Z.of_nat pos) mod 2) in *. clearbody bit.
  assert (Hsw : Z.lxor (r_swap r) bit = 0 \/ Z.lxor (r_swap r) bit = 1) by (destruct Hs01 as [-> | ->], Hb as [-> | ->]; cbn; tauto).
  set (swap := Z.lxor (r_swap r) bit) in *. clearbody swap.
  destruct (cswap_rep swap _ _ _ _ Hx2 Hx3 Hsw) as (x2 & x3 & -> & Rx2 & Rx3). destruct (cswap_rep swap _ _ _ _ Hz2 Hz3 Hsw) as (z2 & z3 & -> & Rz2 & Rz3).
  set (sx2 := if swap =? 0 then r_x2 r else r_x3 r) in *. set (sx3 := if swap =? 0 then r_x3 r else r_x2 r) in *.
  set (sz2 := if swap =? 0 then r_z2 r else r_z3 r) in *. set (sz3 := if swap =? 0 then r_z3 r else r_z2 r) in *. clearbody sx2 sx3 sz2 sz3. clear - HF H1 Rx2 Rx3 Rz2 Rz3 Hb.
  do 18 field_step. apply returns_val. split; cbn [l_x2 l_z2 l_x3 l_z3 l_swap r_x2 r_z2 r_x3 r_z3 r_swap]; try eassumption. done.
Qed.

Lemma ladder_loop_rep e k x1 u n : rep x1 u -> (forall pos, (pos < n)%nat -> scalar_bit e pos = (k / 2 ^ Z.of_nat pos) mod 2) ->
  forall l r, ladder_rep l r -> returns (ladder_loop n e x1 l) (fun l' => ladder_rep l' (rfc_loop n k u r)).
Proof.
  intros H1. induction n as [|n IH]; intros Hbit l r Hl; cbn [ladder_loop rfc_loop]; [by apply returns_val|].
  eapply returns_bind; [apply (ladder_step_rep e k x1 u n l r); [apply Hbit; lia|done|done]|]. intros l' Hl'. apply IH; [intros pos Hp; apply Hbit; lia|done].
Qed.

Lemma core_rep e k x1 u : bytes_ok e -> length e = 32%nat -> k = le_val e -> rep x1 u -> returns (x25519_core e x1) (fun r => rep r (x25519_rfc k u)).
Proof.
  intros He L -> H1. pose proof (rep_range x1 u H1) as Ru. unfold x25519_core, x25519_rfc. cbv zeta.
  eapply returns_bind; [apply (ladder_loop_rep e (le_val e) x1 u 255 H1) with (r := Residues 1 0 u 1 0); [intros pos Hp; apply scalar_bit_val; [done|lia]|]|].
  { split; cbn [l_x2 l_z2 l_x3 l_z3 l_swap r_x2 r_z2 r_x3 r_z3 r_swap]; [exact rep_one|exact rep_zero|exact H1|exact rep_one|by split; [|left]]. }
  cbv beta. intros l [Hx2 Hz2 Hx3 Hz3 [-> Hs]]. set (r := rfc_loop 255 _ _ _) in *. clearbody r.
  destruct (cswap_rep (r_swap r) _ _ _ _ Hx2 Hx3 Hs) as (x2 & x3 & -> & Rx2 & _). destruct (cswap_rep (r_swap r) _ _ _ _ Hz2 Hz3 Hs) as (z2 & z3 & -> & Rz2 & _).
  eapply returns_bind; [by apply invert_sound|]. cbv beta. intros zi Rzi. by apply mul_sound.
Qed.
End refinement.

Lemma byte_clamp b : is_u8 b -> Z.land b 248 = b - b mod 8 /\ Z.lor (Z.land b 127) 64 = 64 + b mod 64 /\ is_u8 (Z.land b 248) /\ is_u8 (Z.lor (Z.land b 127) 64).
Proof.
  intros Hb. set (f b := (Z.land b 248 =? b - b mod 8) && (Z.lor (Z.land b 127) 64 =? 64 + b mod 64)).
  assert (Hf : f b = true).
  { assert (H : forallb (fun n => f (Z.of_nat n)) (List.seq 0 256) = true) by (vm_compute; reflexivity). rewrite List.forallb_forall in H.
    unfold is_u8 in Hb. rewrite <- (Z2Nat.id b) by lia. apply H, List.in_seq. lia. }
  unfold f in Hf. apply andb_prop in Hf as [E1 E2]. apply Z.eqb_eq in E1, E2. rewrite E1, E2. unfold is_u8 in *.
  pose proof (Z.mod_pos_bound b 8 ltac:(lia)). pose proof (Z.mod_le b 8 ltac:(lia) ltac:(lia)). pose proof (Z.mod_pos_bound b 64 ltac:(lia)). lia.
Qed.

Lemma clamp_scalar n : bytes_ok n -> length n = 32%nat -> bytes_ok (x25519_clamp n) /\ length (x25519_clamp n) = 32%nat /\ le_val (x25519_clamp n) = decode_scalar n.
Proof.
  intros Hn L. destruct n as [|b0 n]; [done|]. assert (Em : exists m b31, n = m ++ [b31] /\ length m = 30%nat).
  { destruct (rev_ind (fun n => n = [] \/ exists m b, n = m ++ [b]) ltac:(by left) ltac:(intros x l _; right; by exists l, x) n) as [-> |(m & b & ->)]; [done|].
    exists m, b. split; [done|]. cbn [length] in L. rewrite length_app in L. cbn [length] in L. lia. }
  destruct Em as (m & b31 & -> & Lm). apply Forall_cons in Hn as [H0 Hn]. apply Forall_app in Hn as [Hm H31]. apply Forall_cons in H31 as [H31 _].
  destruct (byte_clamp b0 H0) as (E0 & _ & U0 & _). destruct (byte_clamp b31 H31) as (_ & E31 & _ & U31).
  assert (Ec : x25519_clamp (b0 :: m ++ [b31]) = Z.land b0 248 :: m ++ [Z.lor (Z.land b31 127) 64]).
  { unfold x25519_clamp. cbv zeta. change (<[0%nat := Z.land ((b0 :: m ++ [b31]) !!! 0%nat) 248]> (b0 :: m ++ [b31])) with (Z.land b0 248 :: m ++ [b31]).
    set (c := Z.land b0 248). assert (A : forall y, <[31%nat := y]> (c :: m ++ [b31]) = c :: m ++ [y]).
    { intros y. change (<[31%nat := y]> (c :: m ++ [b31])) with (c :: <[30%nat := y]> (m ++ [b31])). f_equal. rewrite <- Lm. replace (length m) with (length m + 0)%nat by lia. by rewrite insert_app_r. }
    assert (B : forall y, (c :: m ++ [y]) !!! 31%nat = y).
    { intros y. change ((c :: m ++ [y]) !!! 31%nat) with ((m ++ [y]) !!! 30%nat). rewrite <- Lm. apply list_lookup_total_middle. done. }
    rewrite B. assert (A' : forall x y, <[31%nat := y]> (c :: m ++ [x]) = c :: m ++ [y]).
    { intros x y. change (<[31%nat := y]> (c :: m ++ [x])) with (c :: <[30%nat := y]> (m ++ [x])). f_equal. rewrite <- Lm. replace (length m) with (length m + 0)%nat by lia. by rewrite insert_app_r. }
    by rewrite A', B, A'. }
  rewrite Ec. split; [apply Forall_cons; split; [done|]; apply Forall_app; split; [done|by apply Forall_singleton]|].
  split; [cbn [length]; rewrite length_app; cbn [length]; lia|]. unfold decode_scalar. cbn [le_val]. rewrite !le_val_app. cbn [le_val]. rewrite Lm, E0, E31.
  change (256 ^ Z.of_nat 30) with (2 ^ 240). unfold is_u8 in H0, H31. pose proof (le_val_range m Hm) as Rm. rewrite Lm in Rm. change (256 ^ Z.of_nat 30) with (2 ^ 240) in Rm.
  pose proof (Z.mod_pos_bound b0 8 ltac:(lia)) as M0. pose proof (Z.div_mod b0 8 ltac:(lia)) as D0. pose proof (Z.mod_pos_bound b31 64 ltac:(lia)) as M1. pose proof (Z.div_mod b31 64 ltac:(lia)) as D1.
  set (v := le_val m) in *. clearbody v. set (r0 := b0 mod 8) in *. set (q0 := b0 / 8) in *. set (r1 := b31 mod 64) in *. set (q1 := b31 / 64) in *. clearbody r0 q0 r1 q1.
  assert (Em2 : (b0 + 256 * (v + 2 ^ 240 * (b31 + 256 * 0))) mod 2 ^ 254 = b0 + 256 * v + 2 ^ 248 * r1) by (symmetry; apply (Z.mod_unique_pos _ _ q1); lia).
  rewrite Em2. assert (Ed : (b0 + 256 * v + 2 ^ 248 * r1) / 8 = q0 + 32 * v + 2 ^ 245 * r1) by (symmetry; apply (Z.div_unique_pos _ _ _ r0); lia).
  rewrite Ed. lia.
Qed.
