(* ===== verification/Ed25519.v ===== *)
(** * Ed25519 (src/src/crypto68k/c68k_25519.c)

    Points of the Edwards curve in extended coordinates, scalars modulo the group
    order, and the three entry points.  The 64-bit accumulators of the scalar reduction
    are read back in two's complement after every operation.  The hash is the caller's
    callback, an argument of the operations that use it. *)

From Stdlib Require Import ZArith Lia.
From stdpp Require Import base numbers list.
From S2P Require Import Prelude Fe25519 X25519.
#[local] Open Scope Z_scope.

(** ** Constants *)

Definition fe_d : fe := [0x135978a3; 0x75eb4dca; 0x4141d8ab; 0x00700a4d; 0x7779e898; 0x8cc74079; 0x2b6ffe73; 0x52036cee].
Definition fe_d2 : fe := [0x26b2f159; 0xebd69b94; 0x8283b156; 0x00e0149a; 0xeef3d130; 0x198e80f2; 0x56dffce7; 0x2406d9dc].
Definition fe_sqrtm1 : fe := [0x4a0ea0b0; 0xc4ee1b27; 0xad2fe478; 0x2f431806; 0x3dfbd7a7; 0x2b4d0099; 0x4fc1df0b; 0x2b832480].
Definition ge_base_x : fe := [0x8f25d51a; 0xc9562d60; 0x9525a7b2; 0x692cc760; 0xfdd6dc5c; 0xc0a4e231; 0xcd6e53fe; 0x216936d3].
Definition ge_base_y : fe := [0x66666658; 0x66666666; 0x66666666; 0x66666666; 0x66666666; 0x66666666; 0x66666666; 0x66666666].
Definition ge_base_t : fe := [0xa5b7dda3; 0x6dde8ab3; 0x775152f5; 0x20f09f80; 0x64abe37d; 0x66ea4e8e; 0xd78b7665; 0x67875f0f].

(** ** Points *)

Record ge := Ge { ge_X : fe; ge_Y : fe; ge_Z : fe; ge_T : fe }.

Definition ge_zero : ge := Ge fe_zero fe_one fe_one fe_zero.
Definition ge_base : ge := Ge ge_base_x ge_base_y fe_one ge_base_t.

Definition ge_cswap (p q : ge) (bit : Z) : ge * ge :=
  let '(px, qx) := fe_cswap (ge_X p) (ge_X q) bit in
  let '(py, qy) := fe_cswap (ge_Y p) (ge_Y q) bit in
  let '(pz, qz) := fe_cswap (ge_Z p) (ge_Z q) bit in
  let '(pt, qt) := fe_cswap (ge_T p) (ge_T q) bit in
  (Ge px py pz pt, Ge qx qy qz qt).

Section points.
Context `{FieldOps}.

Definition ge_add (p q : ge) : outcome ge :=
  let! a := fe_sub (ge_Y p) (ge_X p) in
  let! t := fe_sub (ge_Y q) (ge_X q) in
  let! a := fe_mul a t in
  let! b := fe_add (ge_Y p) (ge_X p) in
  let! t := fe_add (ge_Y q) (ge_X q) in
  let! b := fe_mul b t in
  let! c := fe_mul (ge_T p) (ge_T q) in
  let! c := fe_mul c fe_d2 in
  let! d := fe_mul (ge_Z p) (ge_Z q) in
  let! d := fe_add d d in
  let! e := fe_sub b a in
  let! f := fe_sub d c in
  let! g := fe_add d c in
  let! h := fe_add b a in
  let! x := fe_mul e f in
  let! y := fe_mul g h in
  let! t := fe_mul e h in
  let! z := fe_mul f g in
  Val (Ge x y z t).

Definition ge_dbl (p : ge) : outcome ge :=
  let! a := fe_sqr (ge_X p) in
  let! b := fe_sqr (ge_Y p) in
  let! c := fe_sqr (ge_Z p) in
  let! c := fe_add c c in
  let! t := fe_add (ge_X p) (ge_Y p) in
  let! e := fe_sqr t in
  let! e := fe_sub e a in
  let! e := fe_sub e b in
  let! g := fe_sub b a in
  let! f := fe_sub g c in
  let! h := fe_add a b in
  let! h := fe_neg h in
  let! x := fe_mul e f in
  let! y := fe_mul g h in
  let! t := fe_mul e h in
  let! z := fe_mul f g in
  Val (Ge x y z t).

Definition ge_pack (p : ge) : outcome (list Z) :=
  let! zi := fe_invert (ge_Z p) in
  let! x := fe_mul (ge_X p) zi in
  let! y := fe_mul (ge_Y p) zi in
  let out := fe_tobytes y in
  Val (<[31%nat := Z.lxor (out !!! 31%nat) (u8 (Z.shiftl (fe_isodd x) 7))]> out).

(** The bits below [n], from the top; [p] and [t] as the loop keeps them. *)
Fixpoint scalarmult_loop (n : nat) (s : list Z) (p t : ge) : outcome ge :=
  match n with
  | O => Val p
  | S i =>
      let bit := scalar_bit s i in
      let '(p, t) := ge_cswap p t bit in
      let! t := ge_add t p in
      let! p := ge_dbl p in
      let '(p, t) := ge_cswap p t bit in
      scalarmult_loop i s p t
  end.

Definition ge_scalarmult (q : ge) (s : list Z) : outcome ge := scalarmult_loop 256 s ge_zero q.
Definition ge_scalarmult_base (s : list Z) : outcome ge := ge_scalarmult ge_base s.

(** A square root of [u / v], or [None]. *)
Definition ratio_root (u v : fe) : outcome (option fe) :=
  let! v3 := fe_sqr v in
  let! v3 := fe_mul v3 v in
  let! x := fe_sqr v3 in
  let! x := fe_mul x v in
  let! x := fe_mul x u in
  let! x := fe_pow22523 x in
  let! x := fe_mul x v3 in
  let! x := fe_mul x u in
  let! vxx := fe_sqr x in
  let! vxx := fe_mul vxx v in
  let! check := fe_sub vxx u in
  if fe_isnonzero check then
    let! check := fe_add vxx u in
    if fe_isnonzero check then Val None
    else let! x := fe_mul x fe_sqrtm1 in Val (Some x)
  else Val (Some x).

(** The negated point, [None] for the status -1. *)
Definition ge_unpack_neg (p : list Z) : outcome (option ge) :=
  let y := fe_frombytes p in
  let! u := fe_sqr y in
  let! v := fe_mul u fe_d in
  let! u := fe_sub u fe_one in
  let! v := fe_add v fe_one in
  let! r := ratio_root u v in
  match r with
  | None => Val None
  | Some x =>
      let! x := (if negb (fe_isodd x =? Z.shiftr (p !!! 31%nat) 7) then fe_neg x else Val x) in
      let! nx := fe_neg x in
      let! t := fe_mul nx y in
      Val (Some (Ge nx y fe_one t))
  end.
End points.

(** ** Scalars modulo the group order *)

Definition sc_L : list Z := [0xed; 0xd3; 0xf5; 0x5c; 0x1a; 0x63; 0x12; 0x58; 0xd6; 0x9c; 0xf7; 0xa2; 0xde; 0xf9; 0xde; 0x14;
  0; 0; 0; 0; 0; 0; 0; 0; 0; 0; 0; 0; 0; 0; 0; 0x10].

(** One row of the reduction, from word [i - 32] on: 16 [xi] times the order taken away,
    the words balanced, the last carry added to the word behind them. *)
Fixpoint sub_row (xi : Z) (l x : list Z) (carry : Z) : list Z :=
  match l, x with
  | m :: l, y :: x =>
      let y := s64 (y + s64 (carry - s64 (s64 (16 * xi) * m))) in
      let carry := Z.shiftr (s64 (y + 128)) 8 in
      s64 (y - s64 (carry * 256)) :: sub_row xi l x carry
  | [], y :: x => s64 (y + carry) :: x
  | _, [] => []
  end.

Definition mod_row (i : nat) (x : list Z) : list Z :=
  <[i := 0]> (take (i - 32) x ++ sub_row (x !!! i) (take 20 sc_L) (drop (i - 32) x) 0).

(** Rows [n + 31] down to 32. *)
Fixpoint mod_rows (n : nat) (x : list Z) : list Z :=
  match n with O => x | S n => mod_rows n (mod_row (n + 32) x) end.

(** [q] times the order taken away, the words made bytes. *)
Fixpoint sub_multiple (q : Z) (l x : list Z) (carry : Z) : list Z * Z :=
  match l, x with
  | m :: l, y :: x =>
      let y := s64 (y + s64 (carry - s64 (q * m))) in
      let '(r, c) := sub_multiple q l x (Z.shiftr y 8) in
      (Z.land y 255 :: r, c)
  | _, _ => ([], carry)
  end.

(** The bytes, with the carries between them; what passes byte 31 stays in the array. *)
Fixpoint carry_bytes (x : list Z) (c : Z) : list Z :=
  match x with
  | [] => []
  | y :: x => let y := s64 (y + c) in u8 (Z.land y 255) :: carry_bytes x (Z.shiftr y 8)
  end.

Definition sc_modL (x : list Z) : list Z :=
  let x := mod_rows 32 x in
  let '(x, carry) := sub_multiple (Z.shiftr (x !!! 31%nat) 4) sc_L (take 32 x) 0 in
  carry_bytes (zip_with (fun y m => s64 (y - s64 (carry * m))) x sc_L) 0.

(** The low 32 bytes are the result, the rest zero. *)
Definition sc_reduce (r : list Z) : list Z := sc_modL r ++ replicate 32 0.

(** Row [ai] of a product added in. *)
Fixpoint add_products (ai : Z) (b x : list Z) : list Z :=
  match b, x with
  | y :: b, v :: x => s64 (v + s64 (ai * y)) :: add_products ai b x
  | _, _ => x
  end.
Fixpoint product_rows (a b x : list Z) : list Z :=
  match a with
  | [] => x
  | ai :: a =>
      match add_products ai b x with
      | v :: x => v :: product_rows a b x
      | [] => []
      end
  end.

Definition sc_muladd (a b c : list Z) : list Z := sc_modL (product_rows a b (c ++ replicate 32 0)).

(** ** Keys and signatures *)

Section ed25519.
Context `{FieldOps} (sha512 : list Z -> list Z -> list Z -> list Z).

Definition ed25519_expand (sk : list Z) : list Z :=
  let d := sha512 sk [] [] in
  let d := <[0%nat := Z.land (d !!! 0%nat) 248]> d in
  let d := <[31%nat := Z.land (d !!! 31%nat) 127]> d in
  <[31%nat := Z.lor (d !!! 31%nat) 64]> d.

Definition c68k_ed25519_pubkey (sk : list Z) : outcome (list Z) :=
  let d := ed25519_expand sk in
  let! a := ge_scalarmult_base (take 32 d) in
  ge_pack a.

Definition c68k_ed25519_sign (m sk pk : list Z) : outcome (list Z) :=
  let d := ed25519_expand sk in
  let r := sc_reduce (sha512 (drop 32 d) m []) in
  let! p := ge_scalarmult_base (take 32 r) in
  let! sig := ge_pack p in
  let h := sc_reduce (sha512 sig pk m) in
  Val (sig ++ sc_muladd (take 32 h) (take 32 d) (take 32 r)).

(** [S] below the order, from the top byte down. *)
Fixpoint below_order (n : nat) (s : list Z) : bool :=
  match n with
  | O => true
  | S i =>
      let v := s !!! i in
      let m := sc_L !!! i in
      if v <? m then true
      else if m <? v then false
      else if (i =? 0)%nat then false
      else below_order i s
  end.

Definition c68k_ed25519_verify (m sig pk : list Z) : outcome Z :=
  if negb (below_order 32 (drop 32 sig)) then Val (-1)
  else
    let! a := ge_unpack_neg pk in
    match a with
    | None => Val (-1)
    | Some a =>
        let h := sc_reduce (sha512 (take 32 sig) pk m) in
        let! p := ge_scalarmult a (take 32 h) in
        let! q := ge_scalarmult_base (drop 32 sig) in
        let! p := ge_add p q in
        let! check := ge_pack p in
        Val (if forallb (fun c => c.1 =? c.2) (zip check (take 32 sig)) then 0 else -1)
    end.
End ed25519.
