(* ===== verification/EdScalar.v ===== *)
(** * Scalars modulo the group order

    The reduction of [sc_modL] is exact and never leaves 64 bits: its rows keep the
    words balanced, so what is left after them is small enough for the two corrections
    behind them to give the residue itself. *)

From Stdlib Require Import ZArith Lia.
From stdpp Require Import base numbers list.
From S2P Require Import Prelude RxSpec Poly1305Spec Fe25519 FeField X25519 Ed25519.
#[local] Open Scope Z_scope.

(** The order of the base point. *)
Definition order : Z := 2 ^ 252 + 27742317777372353535851937790883648493.

Lemma sc_L_val : le_val sc_L = order.
Proof. reflexivity. Qed.

Lemma s64_id z : - 2 ^ 63 <= z < 2 ^ 63 -> s64 z = z.
Proof.
  intros Hz. unfold s64, sext. cbv zeta. change (64 - 1) with 63. destruct (Z_lt_dec z 0) as [H|H].
  - assert (E : z mod 2 ^ 64 = z + 2 ^ 64) by (symmetry; apply (Z.mod_unique_pos _ _ (-1)); lia). rewrite E. destruct (Z.ltb_spec (z + 2 ^ 64) (2 ^ 63)); lia.
  - rewrite Z.mod_small by lia. destruct (Z.ltb_spec z (2 ^ 63)); lia.
Qed.

Definition within (b y : Z) : Prop := - b <= y <= b.
Definition balanced (y : Z) : Prop := -128 <= y <= 127.

Lemma le_val_within b l : 0 <= b -> Forall (within b) l -> within (b * (256 ^ Z.of_nat (length l) - 1)) (255 * le_val l).
Proof.
  intros Hb H. induction H as [|y l Hy _ IH]; unfold within in *; [cbn; lia|]. cbn [le_val length]. rewrite Nat2Z.inj_succ, Z.pow_succ_r by lia.
  set (w := 256 ^ Z.of_nat (length l)) in *. clearbody w. set (v := le_val l) in *. clearbody v.
  replace (b * (256 * w - 1)) with (256 * (b * (w - 1)) + 255 * b) by ring. lia.
Qed.

Lemma balanced_within l : Forall balanced l -> Forall (within 128) l.
Proof. intros H. apply (Forall_impl _ _ _ H). unfold balanced, within. lia. Qed.
Lemma within_more a b l : a <= b -> Forall (within a) l -> Forall (within b) l.
Proof. intros Hab H. apply (Forall_impl _ _ _ H). unfold within. lia. Qed.

Lemma round_split y : let c := Z.shiftr (y + 128) 8 in balanced (y - c * 256) /\ forall b, 0 <= b -> within b y -> within (b / 256 + 1) c.
Proof.
  cbv zeta. rewrite Z.shiftr_div_pow2 by lia. change (2 ^ 8) with 256. pose proof (Z.div_mod (y + 128) 256 ltac:(lia)) as D. pose proof (Z.mod_pos_bound (y + 128) 256 ltac:(lia)) as B.
  set (c := (y + 128) / 256) in *. clearbody c. split; [unfold balanced; lia|]. intros b Hb Hy. unfold within in *.
  pose proof (Z.div_mod b 256 ltac:(lia)) as Db. pose proof (Z.mod_pos_bound b 256 ltac:(lia)) as Bb. lia.
Qed.

(** ** One row *)

Lemma sub_row_spec xi l : forall win y rest c, within (2 ^ 23) xi -> bytes_ok l -> length win = length l -> Forall (within (2 ^ 23)) win -> within (2 ^ 23) y -> within (2 ^ 29) c ->
  exists us c', sub_row xi l (win ++ y :: rest) c = us ++ (y + c') :: rest /\ length us = length l /\ Forall balanced us /\
    le_val us + 256 ^ Z.of_nat (length l) * c' = le_val win + c - 16 * xi * le_val l.
Proof.
  induction l as [|m l IH]; intros [|w win] y rest c Hxi Hl L Hwin Hy Hc; try done; cbn [sub_row app].
  { exists [], c. rewrite s64_id by (unfold within in *; lia). split; [done|]. split; [done|]. split; [constructor|]. cbn [le_val length]. change (256 ^ Z.of_nat 0) with 1. lia. }
  apply Forall_cons in Hl as [Hm Hl]. apply Forall_cons in Hwin as [Hw Hwin]. unfold is_u8 in Hm.
  assert (Bp : within (2 ^ 23 * 16 * 255) (16 * xi * m)) by (unfold within in *; nia).
  rewrite (s64_id (16 * xi)) by (unfold within in *; lia). rewrite (s64_id (16 * xi * m)) by (unfold within in *; lia). rewrite (s64_id (c - 16 * xi * m)) by (unfold within in *; lia).
  rewrite (s64_id (w + (c - 16 * xi * m))) by (unfold within in *; lia). set (v := w + (c - 16 * xi * m)). assert (Hv : within (2 ^ 36) v) by (unfold v, within in *; lia).
  rewrite (s64_id (v + 128)) by (unfold within in *; lia). destruct (round_split v) as [Hb Hq]. pose proof (Hq (2 ^ 36) ltac:(lia) Hv) as Hc1. change (2 ^ 36 / 256 + 1) with (2 ^ 28 + 1) in Hc1. clear Hq.
  set (c1 := Z.shiftr (v + 128) 8) in *. clearbody c1. rewrite (s64_id (c1 * 256)) by (unfold within in *; lia). rewrite s64_id by (unfold balanced in Hb; lia).
  destruct (IH win y rest c1) as (us & c' & -> & Lu & Bu & V); [done|done|by injection L|done|done|unfold within in *; lia|].
  exists (v - c1 * 256 :: us), c'. split; [done|]. split; [cbn [length]; lia|]. split; [by constructor|].
  cbn [le_val length]. rewrite Nat2Z.inj_succ, Z.pow_succ_r by lia. unfold v. lia.
Qed.

Definition L20 : list Z := take 20 sc_L.
Definition tail : Z := le_val L20.

Lemma insert_middle (a b : list Z) x v : <[length a := v]> (a ++ x :: b) = a ++ v :: b.
Proof. induction a as [|z a IH]; [done|]. cbn [app length]. change (<[S (length a) := v]> (z :: a ++ x :: b)) with (z :: <[length a := v]> (a ++ x :: b)). by rewrite IH. Qed.

Lemma mod_row_spec i lo win y mid xi zs :
  length lo = (i - 32)%nat -> (32 <= i)%nat -> length win = 20%nat -> length mid = 11%nat ->
  within (2 ^ 23) xi -> Forall (within (2 ^ 23)) win -> within (2 ^ 23) y ->
  exists us c', mod_row i (lo ++ win ++ y :: mid ++ xi :: zs) = lo ++ us ++ (y + c') :: mid ++ 0 :: zs /\ length us = 20%nat /\ Forall balanced us /\
    le_val us + 2 ^ 160 * c' = le_val win - 16 * xi * tail.
Proof.
  intros Ll Hi Lw Lm Hxi Hwin Hy. unfold mod_row.
  assert (Ex : (lo ++ win ++ y :: mid ++ xi :: zs) !!! i = xi).
  { rewrite list_lookup_total_alt. rewrite lookup_app_r by lia. rewrite lookup_app_r by lia. rewrite lookup_cons_ne_0 by lia. rewrite lookup_app_r by lia.
    replace (Init.Nat.pred (i - length lo - length win) - length mid)%nat with 0%nat by lia. reflexivity. }
  rewrite Ex, take_app_length' by lia. rewrite drop_app_length' by lia.
  destruct (sub_row_spec xi L20 win y (mid ++ xi :: zs) 0) as (us & c' & E & Lu & Bu & V); [done|exact (bytes_okb_ok L20 eq_refl)|done|done|done|unfold within; lia|].
  change (take 20 sc_L) with L20. rewrite E. exists us, c'. split; [|split; [exact Lu|split; [exact Bu|]]].
  - assert (R : forall z : Z, lo ++ us ++ (y + c') :: mid ++ z :: zs = (lo ++ us ++ (y + c') :: mid) ++ z :: zs) by (intros z; by rewrite <- !app_assoc).
    change (length L20) with 20%nat in Lu. assert (Li : i = length (lo ++ us ++ (y + c') :: mid)) by (rewrite !length_app; cbn [length]; lia).
    rewrite !R. rewrite Li at 1. apply insert_middle.
  - change (256 ^ Z.of_nat (length L20)) with (2 ^ 160) in V. unfold tail. lia.
Qed.

(** What a row does to the number: a multiple of the order goes. *)
Lemma row_value lo win us y c' mid xi zs : length win = 20%nat -> length us = 20%nat -> length mid = 11%nat ->
  le_val us + 2 ^ 160 * c' = le_val win - 16 * xi * tail ->
  le_val (lo ++ us ++ (y + c') :: mid ++ 0 :: zs) = le_val (lo ++ win ++ y :: mid ++ xi :: zs) - (16 * xi * 256 ^ Z.of_nat (length lo)) * order.
Proof.
  intros Lw Lu Lm E. rewrite !le_val_app. cbn [le_val]. rewrite !le_val_app. cbn [le_val]. rewrite Lw, Lu, Lm.
  change (256 ^ Z.of_nat 20) with (2 ^ 160). change (256 ^ Z.of_nat 11) with (2 ^ 88). set (w := 256 ^ Z.of_nat (length lo)). clearbody w.
  assert (Eo : 16 * order = 16 * tail + 2 ^ 256) by reflexivity. set (T := tail) in *. set (O := order) in *. clearbody T O.
  set (m := le_val mid). set (z := le_val zs). set (a := le_val us) in *. set (b := le_val win) in *. clearbody m z a b.
  replace a with (b - 16 * xi * T - 2 ^ 160 * c') by lia. replace (16 * xi * w * O) with (xi * w * (16 * O)) by ring. rewrite Eo. ring.
Qed.

(** ** All rows *)

(** [n] rows left: the words below the next window, the window the last row balanced,
    the twelve words above it, and zeroes. *)
Record rows_left (n : nat) (x lo bal hi : list Z) : Prop := RowsLeft {
  rl_x : x = lo ++ bal ++ hi ++ replicate (32 - n) 0;
  rl_lengths : length lo = n /\ length bal = 20%nat /\ length hi = 12%nat;
  rl_lo : Forall (within (2 ^ 23)) lo;
  rl_bal : Forall balanced bal;
  rl_hi : Forall (within (2 ^ 23)) hi;
  rl_pushed : Forall (within 129) (take (31 - n) hi)
}.

Lemma split_last {A} (l : list A) n : length l = S n -> exists a x, l = a ++ [x] /\ length a = n.
Proof.
  intros L. exists (take n l). destruct (lookup_lt_is_Some_2 l n) as [x Hx]; [lia|]. exists x. split; [|rewrite length_take; lia].
  rewrite <- (take_S_r _ _ _ Hx). symmetry. apply take_ge. lia.
Qed.

Lemma mod_row_left n x lo bal hi : (n < 31)%nat -> rows_left (S n) x lo bal hi ->
  exists lo' bal' hi', rows_left n (mod_row (n + 32) x) lo' bal' hi' /\ exists k, le_val (mod_row (n + 32) x) = le_val x - k * order.
Proof.
  intros Hn [-> (Ll & Lb & Lh) Hlo Hbal Hhi Hp]. destruct (split_last lo _ Ll) as (lo' & a & -> & Ll'). destruct (split_last bal _ Lb) as (bal' & y & -> & Lb').
  destruct (split_last hi _ Lh) as (mid & xi & -> & Lm). clear Ll Lb Lh.
  apply Forall_app in Hlo as [Hlo Ha]. rewrite Forall_singleton in Ha. apply Forall_app in Hbal as [Hbal Hy]. rewrite Forall_singleton in Hy.
  apply Forall_app in Hhi as [Hmid Hxi]. rewrite Forall_singleton in Hxi.
  assert (Hw : Forall (within (2 ^ 23)) (a :: bal')) by (constructor; [done|by apply (within_more 128); [lia|apply balanced_within]]).
  assert (Hy' : within (2 ^ 23) y) by (unfold balanced, within in *; lia).
  replace ((lo' ++ [a]) ++ (bal' ++ [y]) ++ (mid ++ [xi]) ++ replicate (32 - S n) 0) with (lo' ++ (a :: bal') ++ y :: mid ++ xi :: replicate (32 - S n) 0) by (by rewrite <- !app_assoc).
  destruct (mod_row_spec (n + 32) lo' (a :: bal') y mid xi (replicate (32 - S n) 0)) as (us & c' & E & Lu & Bu & V); [lia|lia|cbn [length]; lia|done|done|done|done|].
  exists lo', us, ((y + c') :: mid). rewrite E.
  assert (Hc : within 1 c').
  { pose proof (le_val_within 128 us ltac:(lia) (balanced_within _ Bu)) as Wu. pose proof (le_val_within 128 bal' ltac:(lia) (balanced_within _ Hbal)) as Wb.
    rewrite Lu in Wu. rewrite Lb' in Wb. change (256 ^ Z.of_nat 20) with (2 ^ 160) in Wu. change (256 ^ Z.of_nat 19) with (2 ^ 152) in Wb. cbn [le_val] in V.
    set (u := le_val us) in *. set (b := le_val bal') in *. clearbody u b. assert (Ht : 0 <= tail < 2 ^ 125) by (split; [discriminate|reflexivity]).
    assert (Hxt : within (2 ^ 148) (xi * tail)) by (unfold within in *; set (t := tail) in *; clearbody t; nia). set (q := xi * tail) in *.
    replace (16 * xi * tail) with (16 * q) in V by (unfold q; ring). clearbody q. unfold within in *. lia. }
  split.
  - split.
    + do 2 f_equal. cbn [app]. do 2 f_equal. replace (32 - n)%nat with (S (32 - S n)) by lia. reflexivity.
    + cbn [length]. lia.
    + done.
    + done.
    + constructor; [unfold balanced, within in *; lia|done].
    + replace (31 - n)%nat with (S (31 - S n)) by lia. cbn [take]. constructor; [unfold balanced, within in *; lia|].
      rewrite take_app in Hp. by apply Forall_app in Hp as [Hp _].
  - eexists. by apply row_value; [cbn [length]; lia|..].
Qed.

Lemma mod_rows_left n : forall x lo bal hi, (n <= 31)%nat -> rows_left n x lo bal hi ->
  exists bal' hi', rows_left 0 (mod_rows n x) [] bal' hi' /\ exists k, le_val (mod_rows n x) = le_val x - k * order.
Proof.
  induction n as [|n IH]; intros x lo bal hi Hn H; cbn [mod_rows].
  { destruct H as [E [L0 Ls] H1 H2 H3 H4]. destruct lo; [|done]. exists bal, hi. split; [by split|]. exists 0. lia. }
  destruct (mod_row_left n x lo bal hi) as (lo' & bal' & hi' & H' & k & Ek); [lia|done|].
  destruct (IH _ _ _ _ ltac:(lia) H') as (bal2 & hi2 & H2 & k2 & Ek2). exists bal2, hi2. split; [done|]. exists (k + k2). rewrite Ek2, Ek. ring.
Qed.

Lemma first_row x : length x = 64%nat -> Forall (within (2 ^ 22)) x ->
  exists lo bal hi, rows_left 31 (mod_row 63 x) lo bal hi /\ exists k, le_val (mod_row 63 x) = le_val x - k * order.
Proof.
  intros L H. destruct (split_last x 63 L) as (x1 & xi & -> & L1). apply Forall_app in H as [H Hxi]. rewrite Forall_singleton in Hxi.
  rewrite <- (take_drop 31 x1) in H |- *. set (lo := take 31 x1) in *. rewrite <- (take_drop 20 (drop 31 x1)) in H |- *. set (win := take 20 (drop 31 x1)) in *.
  assert (Lr : length (drop 20 (drop 31 x1)) = 12%nat) by (rewrite !length_drop; lia). destruct (drop 20 (drop 31 x1)) as [|y mid]; [done|]. injection Lr as Lm.
  assert (Ll : length lo = 31%nat) by (unfold lo; rewrite length_take; lia). assert (Lw : length win = 20%nat) by (unfold win; rewrite length_take, length_drop; lia).
  clearbody lo win. clear L L1 x1. apply Forall_app in H as [Hlo H]. apply Forall_app in H as [Hwin H]. apply Forall_cons in H as [Hy Hmid].
  rewrite <- !app_assoc. cbn [app].
  destruct (mod_row_spec 63 lo win y mid xi []) as (us & c' & E & Lu & Bu & V);
    [done|lia|done|done|unfold within in *; lia|by apply (within_more (2 ^ 22)); [lia|]|unfold within in *; lia|].
  exists lo, us, ((y + c') :: mid). rewrite E.
  assert (Hc : within (2 ^ 22) c').
  { pose proof (le_val_within 128 us ltac:(lia) (balanced_within _ Bu)) as Wu. pose proof (le_val_within (2 ^ 22) win ltac:(lia) Hwin) as Wb.
    rewrite Lu in Wu. rewrite Lw in Wb. change (256 ^ Z.of_nat 20) with (2 ^ 160) in Wu, Wb.
    set (u := le_val us) in *. set (b := le_val win) in *. clearbody u b. assert (Ht : 0 <= tail < 2 ^ 125) by (split; [discriminate|reflexivity]).
    assert (Hxt : within (2 ^ 147) (xi * tail)) by (unfold within in *; set (t := tail) in *; clearbody t; nia). set (q := xi * tail) in *.
    replace (16 * xi * tail) with (16 * q) in V by (unfold q; ring). clearbody q. unfold within in *. lia. }
  split.
  - split.
    + reflexivity.
    + cbn [length]. lia.
    + by apply (within_more (2 ^ 22)); [lia|].
    + done.
    + constructor; [unfold within in *; lia|by apply (within_more (2 ^ 22)); [lia|]].
    + constructor.
  - eexists. by apply row_value.
Qed.

(** ** The corrections *)

Lemma sub_multiple_spec q l : forall x c, within 16 q -> bytes_ok l -> length x = length l -> Forall (within 129) x -> within (2 ^ 20) c ->
  length (sub_multiple q l x c).1 = length l /\ bytes_ok (sub_multiple q l x c).1 /\
  le_val (sub_multiple q l x c).1 + 256 ^ Z.of_nat (length l) * (sub_multiple q l x c).2 = le_val x + c - q * le_val l.
Proof.
  induction l as [|m l IH]; intros [|y x] c Hq Hl L Hx Hc; try done; cbn [sub_multiple].
  { split; [done|]. split; [constructor|]. cbn [fst snd le_val length]. change (256 ^ Z.of_nat 0) with 1. lia. }
  apply Forall_cons in Hl as [Hm Hl]. apply Forall_cons in Hx as [Hy Hx]. unfold is_u8 in Hm.
  assert (Bp : within (16 * 255) (q * m)) by (unfold within in *; nia). rewrite (s64_id (q * m)) by (unfold within in *; lia). rewrite (s64_id (c - q * m)) by (unfold within in *; lia).
  rewrite s64_id by (unfold within in *; lia). set (v := y + (c - q * m)). assert (Hv : within (2 ^ 21) v) by (unfold v, within in *; lia).
  change 255 with (Z.ones 8). rewrite Z.land_ones, Z.shiftr_div_pow2 by lia. change (2 ^ 8) with 256. pose proof (Z.div_mod v 256 ltac:(lia)) as D. pose proof (Z.mod_pos_bound v 256 ltac:(lia)) as B.
  destruct (IH x (v / 256) Hq Hl) as (Lr & Br & V); [by injection L|done|unfold within in *; lia|]. destruct (sub_multiple q l x (v / 256)) as [r c']. cbn [fst snd] in *.
  split; [cbn [length]; lia|]. split; [by constructor|]. cbn [le_val length]. rewrite Nat2Z.inj_succ, Z.pow_succ_r by lia. unfold v in *. clearbody v. lia.
Qed.

Lemma carry_bytes_spec x : forall c, Forall (within 1024) x -> within 1024 c ->
  length (carry_bytes x c) = length x /\ bytes_ok (carry_bytes x c) /\ exists k, le_val (carry_bytes x c) + 256 ^ Z.of_nat (length x) * k = le_val x + c.
Proof.
  induction x as [|y x IH]; intros c Hx Hc; cbn [carry_bytes].
  { split; [done|]. split; [constructor|]. exists c. cbn [le_val length]. change (256 ^ Z.of_nat 0) with 1. lia. }
  apply Forall_cons in Hx as [Hy Hx]. rewrite s64_id by (unfold within in *; lia). change 255 with (Z.ones 8). rewrite Z.land_ones, Z.shiftr_div_pow2 by lia. change (2 ^ 8) with 256.
  pose proof (Z.div_mod (y + c) 256 ltac:(lia)) as D. pose proof (Z.mod_pos_bound (y + c) 256 ltac:(lia)) as B. rewrite (u8_small (_ mod 256)) by done.
  destruct (IH ((y + c) / 256) Hx) as (L & Bk & k & V); [unfold within in *; lia|]. split; [cbn [length]; lia|]. split; [by constructor|]. exists k.
  cbn [le_val length]. rewrite Nat2Z.inj_succ, Z.pow_succ_r by lia. lia.
Qed.

Lemma sub_order_spec carry l : forall x, length x = length l -> bytes_ok l -> bytes_ok x -> within 2 carry ->
  let r := zip_with (fun y m => s64 (y - s64 (carry * m))) x l in
  length r = length l /\ Forall (within 1024) r /\ le_val r = le_val x - carry * le_val l.
Proof.
  induction l as [|m l IH]; intros [|y x] L Hl Hx Hc; try done; cbv zeta; cbn [zip_with].
  { split; [done|]. split; [constructor|]. cbn. lia. }
  apply Forall_cons in Hl as [Hm Hl]. apply Forall_cons in Hx as [Hy Hx]. unfold is_u8 in Hm, Hy. assert (Bp : within 510 (carry * m)) by (unfold within in *; nia).
  rewrite (s64_id (carry * m)), s64_id by (rewrite ?(s64_id (carry * m)); unfold within in *; lia).
  destruct (IH x ltac:(by injection L) Hl Hx Hc) as (Lr & Wr & V). cbv zeta in Lr, Wr, V. split; [cbn [length]; lia|]. split; [constructor; [unfold within in *; lia|done]|].
  cbn [le_val]. rewrite V. lia.
Qed.

Lemma mod_rows_S n x : mod_rows (S n) x = mod_rows n (mod_row (n + 32) x).
Proof. reflexivity. Qed.
#[local] Opaque mod_rows mod_row.

(** The residue, in 32 bytes. *)
Lemma modL_spec x : length x = 64%nat -> Forall (within (2 ^ 22)) x -> sc_modL x = le_bytes 32 (le_val x mod order).
Proof.
  intros L H. unfold sc_modL. rewrite (mod_rows_S 31 x : mod_rows 32 x = _). change (31 + 32)%nat with 63%nat.
  destruct (first_row x L H) as (lo & bal & hi & H1 & k1 & E1). destruct (mod_rows_left 31 _ _ _ _ ltac:(lia) H1) as (bal' & hi' & [Ex (_ & Lb & Lh) _ Hb _ Hp] & k2 & E2).
  set (x2 := mod_rows 31 (mod_row 63 x)) in *. clearbody x2. rewrite take_ge in Hp by lia. cbn [app] in Ex. change (32 - 0)%nat with 32%nat in Ex.
  set (w := bal' ++ hi'). assert (Lw : length w = 32%nat) by (unfold w; rewrite length_app; lia).
  assert (Ww : Forall (within 129) w) by (apply Forall_app; split; [by apply (within_more 128); [lia|apply balanced_within]|done]).
  assert (Ex2 : x2 = w ++ replicate 32 0) by (unfold w; by rewrite Ex, <- app_assoc). clearbody w. clear Ex bal' hi' Lb Lh Hb Hp. subst x2.
  rewrite take_app_length' by lia. rewrite lookup_total_app_l by lia. assert (Vw : le_val w = le_val x - (k1 + k2) * order).
  { rewrite le_val_app in E2. rewrite le_val_zeros, Z.mul_0_r, Z.add_0_r in E2. rewrite E2, E1. ring. }
  destruct (split_last w 31 Lw) as (w0 & t & -> & L0). apply Forall_app in Ww as [W0 Wt]. rewrite Forall_singleton in Wt.
  assert (Et : (w0 ++ [t]) !!! 31%nat = t) by (rewrite <- L0; by apply list_lookup_total_middle). rewrite Et.
  rewrite Z.shiftr_div_pow2 by lia. change (2 ^ 4) with 16. pose proof (Z.div_mod t 16 ltac:(lia)) as D. pose proof (Z.mod_pos_bound t 16 ltac:(lia)) as B. set (q := t / 16) in *. clearbody q.
  assert (Hq : within 9 q) by (unfold within in *; lia).
  destruct (sub_multiple_spec q sc_L (w0 ++ [t]) 0) as (Ls & Bs & Vs); [unfold within in *; lia|exact (bytes_okb_ok sc_L eq_refl)|done|apply Forall_app; split; [done|by apply Forall_singleton]|unfold within; lia|].
  destruct (sub_multiple q sc_L (w0 ++ [t]) 0) as [s carry]. cbn [fst snd] in *. rewrite sc_L_val in Vs. change (length sc_L) with 32%nat in *. change (256 ^ Z.of_nat 32) with (2 ^ 256) in Vs.
  pose proof (le_val_within 129 w0 ltac:(lia) W0) as R0. rewrite L0 in R0. change (256 ^ Z.of_nat 31) with (2 ^ 248) in R0.
  pose proof (le_val_range s Bs) as Rs. rewrite Ls in Rs. change (256 ^ Z.of_nat 32) with (2 ^ 256) in Rs.
  assert (Ew : le_val (w0 ++ [t]) = le_val w0 + 2 ^ 248 * t) by (rewrite le_val_app, L0; cbn [le_val]; change (256 ^ Z.of_nat 31) with (2 ^ 248); lia).
  rewrite Ew in Vs, Vw. set (v0 := le_val w0) in *. clearbody v0. set (sv := le_val s) in *.
  assert (Eo : order = 2 ^ 252 + 27742317777372353535851937790883648493) by reflexivity. 
  assert (Hc : carry = 0 /\ sv < order \/ carry = -1) by (rewrite Eo in Vs |- *; unfold within in *; lia).
  destruct (sub_order_spec carry sc_L s) as (Lz & Wz & Vz); [done|exact (bytes_okb_ok sc_L eq_refl)|done|destruct Hc as [[-> _]| ->]; unfold within; lia|]. cbv zeta in Lz, Wz, Vz.
  set (z := zip_with _ s sc_L) in *. clearbody z. rewrite sc_L_val in Vz. fold sv in Vz. clearbody sv.
  destruct (carry_bytes_spec z 0 Wz) as (Lr & Br & k & Vr); [unfold within; lia|]. set (r := carry_bytes z 0) in *. clearbody r. rewrite Lz in *. change (length sc_L) with 32%nat in *.
  change (256 ^ Z.of_nat 32) with (2 ^ 256) in Vr. pose proof (le_val_range r Br) as Rr. rewrite Lr in Rr. change (256 ^ Z.of_nat 32) with (2 ^ 256) in Rr.
  assert (Ev : le_val r = le_val x mod order).
  { destruct Hc as [[-> Hs]| ->].
    - assert (k = 0) as -> by lia. apply (Z.mod_unique_pos _ _ (k1 + k2 + q)); [rewrite Eo in *; lia|lia].
    - assert (Hk : 2 ^ 256 * (k - 1) = sv - 2 ^ 256 + order - le_val r) by lia. assert (k = 1) as -> by (rewrite Eo in *; unfold within in *; lia).
      apply (Z.mod_unique_pos _ _ (k1 + k2 + q - 1)); [rewrite Eo in *; unfold within in *; lia|lia]. }
  rewrite <- Ev. symmetry. assert (G : forall l, bytes_ok l -> le_bytes (length l) (le_val l) = l); [|rewrite <- Lr; by apply G].
  intros l Hl. induction Hl as [|b l Hb _ IH]; [done|]. cbn [length le_bytes le_val]. unfold is_u8 in Hb.
  assert (E3 : (b + 256 * le_val l) mod 256 = b) by (rewrite Z.mul_comm, Z.mod_add by lia; by apply Z.mod_small).
  assert (E4 : (b + 256 * le_val l) / 256 = le_val l) by (symmetry; apply (Z.div_unique_pos _ _ _ b); lia). by rewrite E3, E4, IH.
Qed.
