(* ===== verification/EdSpec.v ===== *)
(** * Points and signatures over residues

    RFC 8032's formulas and procedures on residues modulo the prime, and the limb
    operations as their implementation, over any sound field. *)

From Stdlib Require Import ZArith Lia Zpow_facts.
From stdpp Require Import base numbers list.
From S2P Require Import Prelude RxSpec Poly1305Spec Limbs Fe25519 FeSpec FeField X25519 Ed25519 EdScalar.

#[local] Open Scope Z_scope.

(** ** Points of section 5.1.4, in extended coordinates *)

Record point := Point { pX : Z; pY : Z; pZ : Z; pT : Z }.

Definition curve_d : Z := 37095705934669439343138083508754565189542113879843219016388785533085940283555.

Definition neutral : point := Point 0 1 1 0.
Definition base_x : Z := 15112221349535400772501151409588531511454012693041857206046113283949847762202.
Definition base_y : Z := 46316835694926478169428394003475163141307993866256225615783033603165251855960.
Definition base_point : point := Point base_x base_y 1 (fmul base_x base_y).

Definition point_add (p q : point) : point :=
  let a := fmul (fsub (pY p) (pX p)) (fsub (pY q) (pX q)) in
  let b := fmul (fadd (pY p) (pX p)) (fadd (pY q) (pX q)) in
  let c := fmul (fmul (pT p) (pT q)) (fmul 2 curve_d) in
  let d := fmul 2 (fmul (pZ p) (pZ q)) in
  let e := fsub b a in
  let f := fsub d c in
  let g := fadd d c in
  let h := fadd b a in
  Point (fmul e f) (fmul g h) (fmul f g) (fmul e h).

Definition point_double (p : point) : point :=
  let a := fmul (pX p) (pX p) in
  let b := fmul (pY p) (pY p) in
  let c := fmul 2 (fmul (pZ p) (pZ p)) in
  let h := fadd a b in
  let e := fsub h (fmul (fadd (pX p) (pY p)) (fadd (pX p) (pY p))) in
  let g := fsub a b in
  let f := fadd c g in
  Point (fmul e f) (fmul g h) (fmul f g) (fmul e h).

(** [(n P, (n + 1) P)] kept from the top bit down. *)
Fixpoint multiples (n : nat) (k : Z) (pq : point * point) : point * point :=
  match n with
  | O => pq
  | S i =>
      let '(p, q) := pq in
      multiples i k (if (k / 2 ^ Z.of_nat i) mod 2 =? 0 then (point_double p, point_add q p) else (point_add p q, point_double q))
  end.
Definition point_mult (k : Z) (p : point) : point := (multiples 256 k (neutral, p)).1.

(** Section 5.1.2: y, with the low bit of x above it. *)
Definition point_encode (p : point) : list Z :=
  let zi := fpow (pZ p) (p25519 - 2) in
  le_bytes 32 (fmul (pY p) zi + 2 ^ 255 * (fmul (pX p) zi mod 2)).

(** Section 5.1.3, steps 2 to 4, the point negated; [y] is reduced. *)
Definition root_of_ratio (u v : Z) : option Z :=
  let x := fmul (fmul u (fpow v 3)) (fpow (fmul u (fpow v 7)) ((p25519 - 5) / 8)) in
  let vxx := fmul v (fmul x x) in
  if vxx =? u then Some x
  else if vxx =? fneg u then Some (fmul x (fpow 2 ((p25519 - 1) / 4)))
  else None.
Definition point_decode_neg (b : list Z) : option point :=
  let y := (le_val b mod 2 ^ 255) mod p25519 in
  let sign := le_val b / 2 ^ 255 in
  match root_of_ratio (fsub (fmul y y) 1) (fadd (fmul curve_d (fmul y y)) 1) with
  | None => None
  | Some x =>
      let x := if x mod 2 =? sign then x else fneg x in
      Some (Point (fneg x) y 1 (fmul (fneg x) y))
  end.

(** ** The constants *)

Lemma rep_d : rep fe_d curve_d.
Proof. split; [split; [done|]|vm_compute; reflexivity]. repeat (constructor; [done|]). constructor. Qed.
Lemma rep_d2 : rep fe_d2 (fmul 2 curve_d).
Proof. split; [split; [done|]|vm_compute; reflexivity]. repeat (constructor; [done|]). constructor. Qed.
Lemma rep_sqrtm1 : rep fe_sqrtm1 (fpow 2 ((p25519 - 1) / 4)).
Proof.
  split; [split; [done|]; repeat (constructor; [done|]); constructor|]. unfold fpow.
  rewrite <- (Zpow_mod_correct 2 ((p25519 - 1) / 4) p25519) by done. vm_compute. reflexivity.
Qed.
Lemma rep_base_x : rep ge_base_x base_x.
Proof. split; [split; [done|]|vm_compute; reflexivity]. repeat (constructor; [done|]). constructor. Qed.
Lemma rep_base_y : rep ge_base_y base_y.
Proof. split; [split; [done|]|vm_compute; reflexivity]. repeat (constructor; [done|]). constructor. Qed.
Lemma rep_base_t : rep ge_base_t (fmul base_x base_y).
Proof. split; [split; [done|]|vm_compute; reflexivity]. repeat (constructor; [done|]). constructor. Qed.

(** The base point is on the curve, with y = 4 / 5. *)
Lemma base_on_curve : fsub (fmul base_y base_y) (fmul base_x base_x) = fadd 1 (fmul curve_d (fmul (fmul base_x base_x) (fmul base_y base_y))) /\ fmul 5 base_y = 4.
Proof. vm_compute. done. Qed.

(** ** Residue arithmetic *)

Lemma residue_range x : 0 <= x mod p25519 < p25519.
Proof. by apply Z.mod_pos_bound. Qed.

(** Inner reductions go. *)
Ltac fring :=
  unfold fneg, fadd, fsub, fmul;
  repeat first [rewrite Zplus_mod_idemp_l | rewrite Zplus_mod_idemp_r | rewrite Zminus_mod_idemp_l | rewrite Zminus_mod_idemp_r | rewrite Zmult_mod_idemp_l | rewrite Zmult_mod_idemp_r];
  f_equal; ring.

Lemma fmul_comm x y : fmul x y = fmul y x.
Proof. fring. Qed.
Lemma fmul_assoc x y z : fmul x (fmul y z) = fmul (fmul x y) z.
Proof. fring. Qed.
Lemma fmul_double x : fmul 2 x = fadd x x.
Proof. fring. Qed.
Lemma fmul_neg_neg x y : fmul (fneg x) (fneg y) = fmul x y.
Proof. fring. Qed.

Lemma fsub_zero x y : 0 <= x < p25519 -> 0 <= y < p25519 -> fsub x y = 0 <-> x = y.
Proof.
  intros Hx Hy. unfold fsub. split; [|intros ->; by rewrite Z.sub_diag]. intros H. apply Z.mod_divide in H as [k Hk]; [|done].
  assert (Hp : 0 < p25519) by done. set (p := p25519) in *. clearbody p. assert (k = 0) by nia. lia.
Qed.
Lemma fadd_zero x y : 0 <= x < p25519 -> 0 <= y < p25519 -> fadd x y = 0 <-> x = fneg y.
Proof.
  intros Hx Hy. assert (E : fadd x y = fsub x (fneg y)) by fring. rewrite E. apply fsub_zero; [done|]. apply residue_range.
Qed.

Lemma fpow_2 x : 0 <= x < p25519 -> fpow x 2 = fmul x x.
Proof. intros H. rewrite <- (fpow_1 x H) at 2 3. by rewrite fpow_add. Qed.
Lemma fpow_3 x : 0 <= x < p25519 -> fpow x 3 = fmul (fmul x x) x.
Proof. intros H. rewrite <- fpow_2 by done. rewrite <- (fpow_1 x H) at 3. by rewrite fpow_add. Qed.
Lemma fpow_7 x : 0 <= x < p25519 -> fpow x 7 = fmul (fmul (fpow x 3) (fpow x 3)) x.
Proof. intros H. rewrite <- (fpow_1 x H) at 4. by rewrite !fpow_add. Qed.

#[local] Opaque fadd fsub fmul fpow.

(** ** Points *)

Record prep (g : ge) (p : point) : Prop := Prep {
  pr_X : rep (ge_X g) (pX p); pr_Y : rep (ge_Y g) (pY p); pr_Z : rep (ge_Z g) (pZ p); pr_T : rep (ge_T g) (pT p)
}.

Lemma prep_neutral : prep ge_zero neutral.
Proof. split; first [exact rep_zero | exact rep_one]. Qed.
Lemma prep_base : prep ge_base base_point.
Proof. split; [exact rep_base_x|exact rep_base_y|exact rep_one|exact rep_base_t]. Qed.

Lemma ge_cswap_rep bit g h p q : prep g p -> prep h q -> bit = 0 \/ bit = 1 ->
  exists g' h', ge_cswap g h bit = (g', h') /\ prep g' (if bit =? 0 then p else q) /\ prep h' (if bit =? 0 then q else p).
Proof.
  intros [X1 Y1 Z1 T1] [X2 Y2 Z2 T2] Hb. unfold ge_cswap.
  destruct (cswap_rep bit _ _ _ _ X1 X2 Hb) as (x1 & x2 & -> & RX1 & RX2). destruct (cswap_rep bit _ _ _ _ Y1 Y2 Hb) as (y1 & y2 & -> & RY1 & RY2).
  destruct (cswap_rep bit _ _ _ _ Z1 Z2 Hb) as (z1 & z2 & -> & RZ1 & RZ2). destruct (cswap_rep bit _ _ _ _ T1 T2 Hb) as (t1 & t2 & -> & RT1 & RT2).
  eexists _, _. split; [reflexivity|]. split; destruct (bit =? 0); by split.
Qed.

Section points.
Context (F : FieldOps) {HF : FieldSound F}.

Lemma ge_add_rep g h p q : prep g p -> prep h q -> returns (ge_add g h) (fun r => prep r (point_add p q)).
Proof.
  intros [X1 Y1 Z1 T1] [X2 Y2 Z2 T2]. pose proof rep_d2 as Hd. unfold ge_add.
  do 18 field_step. apply returns_val. unfold point_add. cbv zeta. rewrite (fmul_double (fmul (pZ p) (pZ q))). split; cbn [ge_X ge_Y ge_Z ge_T pX pY pZ pT]; assumption.
Qed.

Lemma ge_dbl_rep g p : prep g p -> returns (ge_dbl g) (fun r => prep r (point_double p)).
Proof.
  intros [X1 Y1 Z1 T1]. unfold ge_dbl. do 11 field_step. eapply returns_bind; [eapply neg_sound; eassumption|]. cbv beta. intros h Rh.
  do 4 field_step. apply returns_val. unfold point_double. cbv zeta. rewrite (fmul_double (fmul (pZ p) (pZ p))).
  set (a := fmul (pX p) (pX p)) in *. set (b := fmul (pY p) (pY p)) in *. set (s := fmul (fadd (pX p) (pY p)) (fadd (pX p) (pY p))) in *.
  set (c := fadd (fmul (pZ p) (pZ p)) (fmul (pZ p) (pZ p))) in *. clearbody a b s c.
  assert (Ee : fsub (fsub s a) b = fneg (fsub (fadd a b) s)) by (with_strategy transparent [fadd fsub fmul] fring).
  assert (Eg : fsub b a = fneg (fsub a b)) by (with_strategy transparent [fadd fsub fmul] fring).
  assert (Ef : fsub (fsub b a) c = fneg (fadd c (fsub a b))) by (with_strategy transparent [fadd fsub fmul] fring).
  rewrite Ef, ?Ee, ?Eg in *. rewrite !fmul_neg_neg in *. split; cbn [ge_X ge_Y ge_Z ge_T pX pY pZ pT]; assumption.
Qed.

Lemma scalarmult_rep s k n : (forall i, (i < n)%nat -> scalar_bit s i = (k / 2 ^ Z.of_nat i) mod 2) ->
  forall g h p q, prep g p -> prep h q -> returns (scalarmult_loop n s g h) (fun r => prep r (multiples n k (p, q)).1).
Proof.
  induction n as [|n IH]; intros Hb g h p q Hg Hh; cbn [scalarmult_loop multiples]; [by apply returns_val|].
  rewrite Hb by lia. pose proof (le_val_bit_range k n) as Hbit. set (bit := (k / 2 ^ Z.of_nat n) mod 2) in *. clearbody bit. cbv zeta.
  destruct (ge_cswap_rep bit g h p q Hg Hh Hbit) as (g1 & h1 & -> & G1 & H1).
  eapply returns_bind; [by apply ge_add_rep|]. cbv beta. intros h2 H2. eapply returns_bind; [by apply ge_dbl_rep|]. cbv beta. intros g2 G2.
  destruct (ge_cswap_rep bit g2 h2 _ _ G2 H2 Hbit) as (g3 & h3 & -> & G3 & H3). destruct Hbit as [-> | ->]; cbn [Z.eqb] in *; apply IH; (intros; apply Hb; lia) || done.
Qed.

Lemma ge_scalarmult_rep g p s : bytes_ok s -> length s = 32%nat -> prep g p -> returns (ge_scalarmult g s) (fun r => prep r (point_mult (le_val s) p)).
Proof.
  intros Hs L Hg. unfold ge_scalarmult, point_mult. apply (scalarmult_rep s (le_val s) 256); [|exact prep_neutral|done].
  intros i Hi. apply scalar_bit_val; [done|lia].
Qed.
End points.

(** * Encoding, decoding and the scalars of a signature *)

#[local] Opaque fadd fsub fmul fpow.

(** ** Bytes *)

Lemma le_bytes_val l : bytes_ok l -> le_bytes (length l) (le_val l) = l.
Proof.
  intros Hl. induction Hl as [|b l Hb _ IH]; [done|]. cbn [length le_bytes le_val]. unfold is_u8 in Hb.
  assert (E3 : (b + 256 * le_val l) mod 256 = b) by (rewrite Z.mul_comm, Z.mod_add by lia; by apply Z.mod_small).
  assert (E4 : (b + 256 * le_val l) / 256 = le_val l) by (symmetry; apply (Z.div_unique_pos _ _ _ b); lia). by rewrite E3, E4, IH.
Qed.

Lemma le_bytes_len n v : length (le_bytes n v) = n.
Proof. revert v. induction n as [|n IH]; intros v; [done|]. cbn [le_bytes length]. by rewrite IH. Qed.

(** The sign in bit 255. *)
Lemma sign_byte y b : 0 <= y < 2 ^ 255 -> b = 0 \/ b = 1 ->
  <[31%nat := Z.lxor (le_bytes 32 y !!! 31%nat) (u8 (Z.shiftl b 7))]> (le_bytes 32 y) = le_bytes 32 (y + 2 ^ 255 * b).
Proof.
  intros Hy Hb. assert (Ev : le_val (le_bytes 32 y) = y) by (apply le_val_le; change (256 ^ Z.of_nat 32) with (2 ^ 256); lia).
  pose proof (le_bytes_ok 32 y) as Hok. pose proof (le_bytes_len 32 y) as L. set (l := le_bytes 32 y) in *. clearbody l.
  destruct (split_last l 31 L) as (a & t & -> & La). apply Forall_app in Hok as [Ha Ht]. rewrite Forall_singleton in Ht. unfold is_u8 in Ht.
  assert (Et : (a ++ [t]) !!! 31%nat = t) by (rewrite <- La; by apply list_lookup_total_middle). rewrite Et.
  rewrite le_val_app, La in Ev. cbn [le_val] in Ev. change (256 ^ Z.of_nat 31) with (2 ^ 248) in Ev. pose proof (le_val_range a Ha) as Ra. rewrite La in Ra. change (256 ^ Z.of_nat 31) with (2 ^ 248) in Ra.
  assert (Ht7 : 0 <= t < 128) by lia.
  assert (Ex : Z.lxor t (u8 (Z.shiftl b 7)) = t + 128 * b).
  { destruct Hb as [-> | ->]; [change (u8 (Z.shiftl 0 7)) with 0; rewrite Z.lxor_0_r; lia|]. change (u8 (Z.shiftl 1 7)) with (Z.shiftl 1 7).
    rewrite Z.lxor_comm. rewrite Z.lxor_lor; [rewrite lor_shift_add by lia; lia|].
    apply Z.bits_inj'. intros n Hn. rewrite Z.land_spec, Z.bits_0. destruct (Z_lt_dec n 7); [by rewrite Z.shiftl_spec_low|].
    rewrite <- (Z.mod_small t (2 ^ 7)) by lia. by rewrite Z.mod_pow2_bits_high, andb_false_r by lia. }
  rewrite Ex. replace 31%nat with (length a) by done. rewrite (insert_middle a [] t).
  assert (Hn : bytes_ok (a ++ [t + 128 * b])) by (apply Forall_app; split; [done|]; apply Forall_singleton; unfold is_u8; lia).
  rewrite <- (le_bytes_val _ Hn). rewrite length_app, La. cbn [length Nat.add]. f_equal. rewrite le_val_app, La. cbn [le_val]. change (256 ^ Z.of_nat 31) with (2 ^ 248). lia.
Qed.

Section field.
Context (F : FieldOps) {HF : FieldSound F}.

Lemma ge_pack_rep g p : prep g p -> returns (ge_pack g) (fun out => out = point_encode p).
Proof.
  intros [X1 Y1 Z1 T1]. unfold ge_pack, point_encode. cbv zeta. eapply returns_bind; [by apply invert_sound|]. cbv beta. intros zi Rz.
  field_step. field_step. apply returns_val. set (x := fmul (pX p) (fpow (pZ p) (p25519 - 2))) in *. set (y := fmul (pY p) (fpow (pZ p) (p25519 - 2))) in *.
  match goal with H1 : rep ?a x, H2 : rep ?b y |- _ => destruct (tobytes_rep b y H2) as [Ey Ry]; rewrite Ey, (isodd_rep a x H1) end.
  apply sign_byte; [|pose proof (Z.mod_pos_bound x 2 ltac:(lia)); lia]. assert (Ep : p25519 = 2 ^ 255 - 19) by reflexivity. rewrite Ep in Ry. lia.
Qed.

(** ** Decoding *)

Lemma ratio_root_rep u v x y : rep u x -> rep v y ->
  returns (ratio_root u v) (fun r => match r, root_of_ratio x y with Some a, Some z => rep a z | None, None => True | _, _ => False end).
Proof.
  intros Hu Hv. pose proof (rep_range u x Hu) as Rx. pose proof (rep_range v y Hv) as Ry. unfold ratio_root.
  do 5 field_step. eapply returns_bind; [by apply pow22523_sound|]. cbv beta. intros w Rw. do 5 field_step.
  set (v3 := fmul (fmul y y) y) in *.
  assert (Ez : fmul (fmul (fpow (fmul (fmul (fmul v3 v3) y) x) ((p25519 - 5) / 8)) v3) x = fmul (fmul x (fpow y 3)) (fpow (fmul x (fpow y 7)) ((p25519 - 5) / 8))).
  { rewrite (fpow_7 y Ry), (fpow_3 y Ry). fold v3. rewrite (fmul_comm x (fmul (fmul v3 v3) y)), (fmul_comm x v3).
    set (q := fpow _ _). rewrite <- fmul_assoc. apply fmul_comm. }
  unfold root_of_ratio. rewrite <- Ez. clear Ez. set (z := fmul (fmul (fpow _ _) v3) x) in *. clearbody z v3. cbv zeta. rewrite (fmul_comm y (fmul z z)). set (vxx := fmul (fmul z z) y) in *.
  assert (Rv : 0 <= vxx < p25519) by (match goal with H : rep _ vxx |- _ => apply (rep_range _ _ H) end). clearbody vxx.
  match goal with |- context [fe_isnonzero ?c] => match goal with H : rep c ?e |- _ => rewrite (nonzero_rep c e H) end end.
  destruct (Z.eqb_spec vxx x) as [->|Hne].
  { assert (E : fsub x x = 0) by (by apply (proj2 (fsub_zero x x Rx Rx))). rewrite E. cbn [negb Z.eqb]. apply returns_val. assumption. }
  assert (E : fsub vxx x <> 0) by (intros E; apply Hne; exact (proj1 (fsub_zero _ _ Rv Rx) E)). apply Z.eqb_neq in E. rewrite E. cbn [negb].
  field_step. match goal with |- context [fe_isnonzero ?c] => match goal with H : rep c ?e |- _ => rewrite (nonzero_rep c e H) end end.
  destruct (Z.eqb_spec vxx (fneg x)) as [->|Hne2].
  { assert (E2 : fadd (fneg x) x = 0) by (by apply (proj2 (fadd_zero (fneg x) x Rv Rx))). rewrite E2. cbn [negb Z.eqb]. eapply returns_bind; [apply mul_sound; [eassumption|exact rep_sqrtm1]|]. cbv beta. intros w2 Rw2. by apply returns_val. }
  assert (E2 : fadd vxx x <> 0) by (intros E2; apply Hne2; exact (proj1 (fadd_zero _ _ Rv Rx) E2)). apply Z.eqb_neq in E2. rewrite E2. cbn [negb]. by apply returns_val.
Qed.

Lemma top_bit b : bytes_ok b -> length b = 32%nat -> Z.shiftr (b !!! 31%nat) 7 = le_val b / 2 ^ 255.
Proof.
  intros Hb L. destruct (split_last b 31 L) as (a & t & -> & La). apply Forall_app in Hb as [Ha Ht]. rewrite Forall_singleton in Ht. unfold is_u8 in Ht.
  assert (Et : (a ++ [t]) !!! 31%nat = t) by (rewrite <- La; by apply list_lookup_total_middle). rewrite Et.
  rewrite le_val_app, La. cbn [le_val]. pose proof (le_val_range a Ha) as Ra. rewrite La in Ra. change (256 ^ Z.of_nat 31) with (2 ^ 248) in *.
  rewrite Z.shiftr_div_pow2 by lia. pose proof (Z.div_mod t (2 ^ 7) ltac:(lia)) as D. pose proof (Z.mod_pos_bound t (2 ^ 7) ltac:(lia)) as B.
  apply (Z.div_unique_pos _ _ _ (le_val a + 2 ^ 248 * (t mod 2 ^ 7))); lia.
Qed.

Lemma unpack_rep b : bytes_ok b -> length b = 32%nat ->
  returns (ge_unpack_neg b) (fun r => match r, point_decode_neg b with Some g, Some p => prep g p | None, None => True | _, _ => False end).
Proof.
  intros Hb L. destruct (frombytes_val b Hb L) as [Oy Vy]. set (y := (le_val b mod 2 ^ 255) mod p25519). assert (Ry : rep (fe_frombytes b) y) by (split; [done|by rewrite Vy]).
  pose proof rep_d as Hd. pose proof rep_one as H1. unfold ge_unpack_neg, point_decode_neg. fold y. cbv zeta. clearbody y. do 4 field_step.
  rewrite (fmul_comm curve_d (fmul y y)).
  eapply returns_bind; [eapply ratio_root_rep; eassumption|]. cbv beta. intros ro Hr. destruct (root_of_ratio _ _) as [x|], ro as [a|]; try done; [|by apply returns_val].
  rewrite (isodd_rep a x Hr), (top_bit b Hb L). set (s := le_val b / 2 ^ 255). clearbody s.
  eapply returns_bind with (P := fun a' => rep a' (if x mod 2 =? s then x else fneg x)).
  { destruct (x mod 2 =? s); cbn [negb]; [by apply returns_val|by apply neg_sound]. }
  intros a' Ra. eapply returns_bind; [by apply neg_sound|]. cbv beta. intros nx Rn. field_step. apply returns_val. by split.
Qed.
End field.

(** ** Scalars *)

Lemma below_order_spec n s : bytes_ok s -> (n <= length s)%nat -> (n <= 32)%nat -> (0 < n)%nat -> below_order n s = (le_val (take n s) <? le_val (take n sc_L)).
Proof.
  intros Hs. induction n as [|n IH]; intros Ln L32 H0; [lia|]. clear H0. cbn [below_order].
  destruct (lookup_lt_is_Some_2 s n) as [v Hv]; [lia|]. destruct (lookup_lt_is_Some_2 sc_L n) as [m Hm]; [change (length sc_L) with 32%nat; lia|].
  rewrite (list_lookup_total_correct _ _ _ Hv), (list_lookup_total_correct _ _ _ Hm), (take_S_r _ _ _ Hv), (take_S_r _ _ _ Hm). rewrite !le_val_app. cbn [le_val].
  assert (HL : bytes_ok sc_L) by exact (bytes_okb_ok sc_L eq_refl).
  pose proof (le_val_range (take n s) (Forall_take _ n s Hs)) as R1. pose proof (le_val_range (take n sc_L) (Forall_take _ n sc_L HL)) as R2.
  assert (E1 : length (take n s) = n) by (rewrite length_take; lia). assert (E2 : length (take n sc_L) = n) by (rewrite length_take; change (length sc_L) with 32%nat; lia). rewrite E1, E2 in *.
  set (w := 256 ^ Z.of_nat n) in *. set (a := le_val (take n s)) in *. set (b := le_val (take n sc_L)) in *.
  destruct (Z.ltb_spec v m); [symmetry; apply Z.ltb_lt; nia|]. destruct (Z.ltb_spec m v); [symmetry; apply Z.ltb_ge; nia|]. assert (v = m) as -> by lia.
  destruct n as [|n]; [cbn [Nat.eqb]; symmetry; apply Z.ltb_ge; cbn in a, b; unfold a, b; lia|]. cbn [Nat.eqb]. rewrite IH by lia. fold a b.
  destruct (Z.ltb_spec a b), (Z.ltb_spec (a + w * (m + 256 * 0)) (b + w * (m + 256 * 0))); lia.
Qed.

Lemma canonical_spec s : bytes_ok s -> length s = 32%nat -> below_order 32 s = (le_val s <? order).
Proof.
  intros Hs L. rewrite below_order_spec by (done || lia). rewrite take_ge by lia. rewrite take_ge by (change (length sc_L) with 32%nat; lia). by rewrite sc_L_val.
Qed.

Lemma add_products_spec ai b : forall x B, is_u8 ai -> bytes_ok b -> (length b <= length x)%nat -> 0 <= B <= 2 ^ 30 -> Forall (within B) x ->
  length (add_products ai b x) = length x /\ Forall (within (B + 65025)) (add_products ai b x) /\ le_val (add_products ai b x) = le_val x + ai * le_val b.
Proof.
  induction b as [|y b IH]; intros x B Ha Hb L HB Hx.
  { assert (E : add_products ai [] x = x) by (by destruct x). rewrite E. split; [done|]. split; [apply (within_more B); [lia|done]|]. cbn [le_val]. lia. }
  destruct x as [|v x]; [cbn [length] in L; lia|]. cbn [add_products]. apply Forall_cons in Hb as [Hy Hb]. apply Forall_cons in Hx as [Hv Hx].
  assert (Bp : 0 <= ai * y <= 65025) by (unfold is_u8 in *; nia). rewrite (s64_id (ai * y)) by lia. rewrite s64_id by (unfold within in *; lia).
  destruct (IH x B Ha Hb ltac:(cbn [length] in L; lia) HB Hx) as (Lr & Wr & V). split; [cbn [length]; lia|]. split; [constructor; [unfold within in *; lia|done]|].
  cbn [le_val]. rewrite V. lia.
Qed.

Lemma product_rows_spec b (Hb : bytes_ok b) a : forall x B, bytes_ok a -> (length a + length b <= length x)%nat -> 0 <= B -> B + 65025 * Z.of_nat (length a) <= 2 ^ 30 -> Forall (within B) x ->
  length (product_rows a b x) = length x /\ Forall (within (B + 65025 * Z.of_nat (length a))) (product_rows a b x) /\ le_val (product_rows a b x) = le_val x + le_val a * le_val b.
Proof.
  induction a as [|ai a IH]; intros x B Ha L HB HB2 Hx; cbn [product_rows].
  { split; [done|]. split; [apply (within_more B); [lia|done]|]. cbn [le_val]. lia. }
  apply Forall_cons in Ha as [Hai Ha]. cbn [length] in *. destruct (add_products_spec ai b x B Hai Hb ltac:(lia) ltac:(lia) Hx) as (Lp & Wp & Vp).
  destruct (add_products ai b x) as [|v x']; [cbn [length] in Lp; lia|]. apply Forall_cons in Wp as [Wv Wx]. cbn [length] in Lp.
  destruct (IH x' (B + 65025) Ha ltac:(lia) ltac:(lia) ltac:(lia) Wx) as (Lr & Wr & V). split; [cbn [length]; lia|].
  replace (B + 65025 * Z.of_nat (S (length a))) with (B + 65025 + 65025 * Z.of_nat (length a)) by lia.
  split; [constructor; [unfold within in *; lia|done]|]. cbn [le_val] in *. rewrite V. lia.
Qed.

Lemma bytes_within l B : 255 <= B -> bytes_ok l -> Forall (within B) l.
Proof. intros HB H. apply (Forall_impl _ _ _ H). unfold is_u8, within. lia. Qed.

Lemma sc_reduce_spec r : bytes_ok r -> length r = 64%nat -> take 32 (sc_reduce r) = le_bytes 32 (le_val r mod order).
Proof.
  intros Hr L. unfold sc_reduce. rewrite modL_spec by (done || by apply bytes_within). by rewrite take_app_length' by (by rewrite le_bytes_len).
Qed.

Lemma sc_muladd_spec a b c : bytes_ok a -> bytes_ok b -> bytes_ok c -> length a = 32%nat -> length b = 32%nat -> length c = 32%nat ->
  sc_muladd a b c = le_bytes 32 ((le_val a * le_val b + le_val c) mod order).
Proof.
  intros Ha Hb Hc La Lb Lc. unfold sc_muladd.
  destruct (product_rows_spec b Hb a (c ++ replicate 32 0) 255 Ha) as (L & W & V); [rewrite length_app, length_replicate; lia|lia|rewrite La; lia|apply Forall_app; split; [by apply bytes_within|by apply Forall_replicate]|].
  rewrite La in W. rewrite modL_spec by (rewrite L, length_app, length_replicate; lia) || (apply (within_more (255 + 65025 * Z.of_nat 32)); [lia|done]).
  rewrite V, le_val_app, le_val_zeros. do 2 f_equal. lia.
Qed.
