(* ===== verification/EdClaims.v ===== *)
(** * What X25519 and Ed25519 guarantee

    Whatever sound field the build or the processor chose: the key exchange of RFC
    7748, and the keys, signatures and verdicts of RFC 8032. *)

From Stdlib Require Import ZArith Lia.
From stdpp Require Import base numbers list.
From S2P Require Import Prelude RxSpec Poly1305Spec Limbs Fe25519 FeSpec FeField X25519 Ed25519 EdScalar EdSpec.
#[local] Open Scope Z_scope.

(** C24 For every scalar and every point, the result is the function of RFC 7748: the 32
    bytes of the canonical residue, with status 0, or -1 exactly when it is zero, the
    case the protocol must refuse.  A scalar is decoded and a coordinate masked as the
    RFC says, non-canonical coordinates included, and every carry loop ends. *)
Theorem x25519_correct (F : FieldOps) (n p : list Z)
  (HF : FieldSound F) (Hn : bytes_ok n) (Ln : length n = 32%nat) (Hp : bytes_ok p) (Lp : length p = 32%nat) :
  let r := x25519_rfc (decode_scalar n) (decode_u p) in
  c68k_x25519 n p = Val (if r =? 0 then -1 else 0, le_bytes 32 r) /\ 0 <= r < p25519.
Proof.
  destruct (clamp_scalar n Hn Ln) as (Hc & Lc & Vc). destruct (frombytes_val p Hp Lp) as [Op Vp].
  assert (Hu : rep (fe_frombytes p) (decode_u p)) by (split; [done|by rewrite Vp]).
  destruct (core_rep F (x25519_clamp n) (decode_scalar n) (fe_frombytes p) (decode_u p) Hc Lc (eq_sym Vc) Hu) as (a & E & Hr).
  cbv zeta. set (r := x25519_rfc (decode_scalar n) (decode_u p)) in *. clearbody r. destruct (tobytes_rep a r Hr) as [Et Rr]. split; [|exact Rr].
  unfold c68k_x25519. rewrite E. cbn [obind]. cbv zeta. pose proof (nonzero_rep a r Hr) as Hz. unfold fe_isnonzero in Hz. rewrite Hz, Et. by destruct (r =? 0).
Qed.

Lemma fpow_zero n : 0 < n -> fpow 0 n = 0.
Proof. intros Hn. unfold fpow. by rewrite Z.pow_0_l. Qed.

Lemma zero_point_refused : let l := rfc_loop 255 (decode_scalar (replicate 32 1)) 0 (Residues 1 0 0 1 0) in (if r_swap l =? 0 then r_z2 l else r_z3 l) = 0.
Proof. vm_compute. reflexivity. Qed.

Lemma ex_zero_value : x25519_rfc (decode_scalar (replicate 32 1)) (decode_u (replicate 32 0)) = 0.
Proof.
  change (decode_u (replicate 32 0)) with 0. unfold x25519_rfc. pose proof zero_point_refused as E. cbv zeta in E |- *. rewrite E, (fpow_zero (p25519 - 2)) by done.
  unfold fmul. by rewrite Z.mul_0_r.
Qed.

Lemma x25519_correct_witness : c68k_x25519 (H := portable_ops) (replicate 32 1) (replicate 32 0) = Val (-1, replicate 32 0).
Proof.
  destruct (x25519_correct portable_ops (replicate 32 1) (replicate 32 0) portable_sound (bytes_okb_ok (replicate 32 1) eq_refl) eq_refl
    (bytes_okb_ok (replicate 32 0) eq_refl) eq_refl) as [E _].
  rewrite ex_zero_value in E. exact E.
Defined.

(** ** Ed25519 *)

(** The callback hashes the concatenation of its chunks to 64 bytes. *)
Record sha512_law (sha512 : list Z -> list Z -> list Z -> list Z) (H : list Z -> list Z) : Prop := Sha512Law {
  sl_concat a b c : sha512 a b c = H (a ++ b ++ c);
  sl_length m : length (H m) = 64%nat;
  sl_bytes m : bytes_ok (H m)
}.

(** Section 5.1.5 and 5.1.6. *)
Definition secret_scalar (H : list Z -> list Z) (sk : list Z) : Z := decode_scalar (take 32 (H sk)).
Definition public_key (H : list Z -> list Z) (sk : list Z) : list Z := point_encode (point_mult (secret_scalar H sk) base_point).
Definition signature (H : list Z -> list Z) (m sk pk : list Z) : list Z :=
  let r := le_val (H (drop 32 (H sk) ++ m)) mod order in
  let R := point_encode (point_mult r base_point) in
  let k := le_val (H (R ++ pk ++ m)) mod order in
  R ++ le_bytes 32 ((r + k * secret_scalar H sk) mod order).

(** Section 5.1.7, the equation checked on encodings. *)
Definition verified (H : list Z -> list Z) (m sig pk : list Z) : Prop :=
  let R := take 32 sig in
  let S := le_val (drop 32 sig) in
  S < order /\
  exists A, point_decode_neg pk = Some A /\
    R = point_encode (point_add (point_mult (le_val (H (R ++ pk ++ m)) mod order) A) (point_mult S base_point)).

Lemma expand_spec sha512 H sk : sha512_law sha512 H ->
  take 32 (ed25519_expand sha512 sk) = x25519_clamp (take 32 (H sk)) /\ drop 32 (ed25519_expand sha512 sk) = drop 32 (H sk).
Proof.
  intros [Hc HL _]. pose proof (HL sk) as L. assert (E : ed25519_expand sha512 sk = x25519_clamp (H sk)) by (unfold ed25519_expand; by rewrite Hc, !app_nil_r).
  rewrite E. set (h := H sk) in *. clearbody h. rewrite <- (take_drop 32 h) at 1 3.
  set (a := take 32 h). set (b := drop 32 h). assert (La : length a = 32%nat) by (unfold a; rewrite length_take; lia). clearbody a b.
  assert (Ec : x25519_clamp (a ++ b) = x25519_clamp a ++ b).
  { unfold x25519_clamp. cbv zeta. assert (A : forall (c : list Z) i v, length c = 32%nat -> (i < 32)%nat -> <[i := v]> (c ++ b) = <[i := v]> c ++ b) by (intros; apply insert_app_l; lia).
    assert (T : forall (c : list Z) i, length c = 32%nat -> (i < 32)%nat -> (c ++ b) !!! i = c !!! i) by (intros; apply lookup_total_app_l; lia).
    rewrite (T a), A, T, A, T, A by (rewrite ?length_insert; lia). reflexivity. }
  rewrite Ec. assert (Lc : length (x25519_clamp a) = 32%nat) by (unfold x25519_clamp; cbv zeta; by rewrite !length_insert).
  by rewrite take_app_length', drop_app_length' by done.
Qed.

Lemma mod_order_bytes v : le_val (le_bytes 32 (v mod order)) = v mod order.
Proof. apply le_val_le. pose proof (Z.mod_pos_bound v order ltac:(done)) as R. assert (Eo : order < 256 ^ Z.of_nat 32) by reflexivity. lia. Qed.

Lemma mult_base (F : FieldOps) (HF : FieldSound F) s : bytes_ok s -> length s = 32%nat -> returns (ge_scalarmult_base s) (fun r => prep r (point_mult (le_val s) base_point)).
Proof. intros Hs L. apply ge_scalarmult_rep; [exact HF|done|done|exact prep_base]. Qed.

(** C26 A public key is the encoding of the clamped secret scalar times the base point,
    and a signature is R and S of RFC 8032 section 5.1.6, byte for byte: the scalar
    arithmetic modulo the order is exact, and stays inside 64 bits on the way. *)
Theorem ed25519_sign_exact (F : FieldOps) sha512 H m sk pk (HF : FieldSound F) (HH : sha512_law sha512 H) :
  c68k_ed25519_pubkey sha512 sk = Val (public_key H sk) /\
  c68k_ed25519_sign sha512 m sk pk = Val (signature H m sk pk).
Proof.
  destruct (expand_spec sha512 H sk HH) as [E1 E2]. destruct HH as [Hc HL Hb].
  assert (B1 : bytes_ok (take 32 (H sk))) by (apply Forall_take, Hb). assert (L1 : length (take 32 (H sk)) = 32%nat) by (rewrite length_take, HL; lia).
  destruct (clamp_scalar _ B1 L1) as (Bc & Lc & Vc). split.
  - unfold c68k_ed25519_pubkey, public_key. cbv zeta. rewrite E1. destruct (mult_base F HF _ Bc Lc) as (a & -> & Pa). cbn [obind].
    destruct (ge_pack_rep F a _ Pa) as (out & -> & ->). rewrite Vc. done.
  - unfold c68k_ed25519_sign, signature. cbv zeta. rewrite E1, E2, Hc, app_nil_r. set (r := le_val (H (drop 32 (H sk) ++ m)) mod order).
    rewrite sc_reduce_spec by (apply Hb || apply HL). fold r. assert (Vr : le_val (le_bytes 32 r) = r) by apply mod_order_bytes.
    destruct (mult_base F HF (le_bytes 32 r) (le_bytes_ok 32 r) (le_bytes_len 32 r)) as (p & -> & Pp). cbn [obind]. rewrite Vr in Pp.
    destruct (ge_pack_rep F p _ Pp) as (R & -> & ->). cbn [obind]. rewrite Hc. set (R := point_encode (point_mult r base_point)).
    rewrite sc_reduce_spec by (apply Hb || apply HL). set (k := le_val (H (R ++ pk ++ m)) mod order). assert (Vk : le_val (le_bytes 32 k) = k) by apply mod_order_bytes.
    rewrite sc_muladd_spec by (apply le_bytes_ok || apply le_bytes_len || done). rewrite Vk, Vr, Vc. unfold secret_scalar. do 3 f_equal. f_equal. ring.
Qed.

Lemma same_bytes a b : length a = length b -> forallb (fun c => c.1 =? c.2) (zip a b) = true <-> a = b.
Proof.
  revert b. induction a as [|x a IH]; intros [|y b] L; try done. cbn [zip_with forallb fst snd]. rewrite andb_true_iff, Z.eqb_eq, IH by (by injection L).
  split; [by intros [-> ->]|by intros [= -> ->]].
Qed.

(** C25 A signature is accepted exactly when its S is below the group order, the public
    key decodes, and the encoding of [S]B + [h](-A) is its R; everything else, on every
    branch, is the status -1. *)
Theorem ed25519_verify_exact (F : FieldOps) sha512 H m sig pk (HF : FieldSound F) (HH : sha512_law sha512 H)
  (Hsig : bytes_ok sig) (Lsig : length sig = 64%nat) (Hpk : bytes_ok pk) (Lpk : length pk = 32%nat) :
  exists status, c68k_ed25519_verify sha512 m sig pk = Val status /\ (status = 0 /\ verified H m sig pk \/ status = -1 /\ ~ verified H m sig pk).
Proof.
  assert (BS : bytes_ok (drop 32 sig)) by by apply Forall_drop. assert (LS : length (drop 32 sig) = 32%nat) by (rewrite length_drop; lia).
  unfold c68k_ed25519_verify, verified. cbv zeta. rewrite (canonical_spec _ BS LS). set (S := le_val (drop 32 sig)). destruct (Z.ltb_spec S order) as [HS|HS]; cbn [negb].
  2: { exists (-1). split; [done|right]. split; [done|]. intros [H1 _]. lia. }
  destruct (unpack_rep F pk Hpk Lpk) as (r & -> & Hr). cbn [obind]. destruct r as [a|], (point_decode_neg pk) as [A|]; try done.
  2: { exists (-1). split; [done|right]. split; [done|]. by intros (_ & A & [=] & _). }
  destruct HH as [Hc HL Hb]. rewrite Hc. rewrite sc_reduce_spec by (apply Hb || apply HL). set (R := take 32 sig). set (k := le_val (H (R ++ pk ++ m)) mod order).
  assert (Vk : le_val (le_bytes 32 k) = k) by apply mod_order_bytes.
  destruct (ge_scalarmult_rep F a A (le_bytes 32 k) (le_bytes_ok 32 k) (le_bytes_len 32 k) Hr) as (p & -> & Pp). cbn [obind]. rewrite Vk in Pp.
  destruct (mult_base F HF (drop 32 sig) BS LS) as (q & -> & Pq). cbn [obind]. fold S in Pq.
  destruct (ge_add_rep F p q _ _ Pp Pq) as (s & -> & Ps). cbn [obind]. destruct (ge_pack_rep F s _ Ps) as (check & -> & ->). cbn [obind].
  set (C := point_encode _). assert (LR : length C = length R) by (unfold C, R, point_encode; cbv zeta; rewrite le_bytes_len, length_take; lia). pose proof (same_bytes C R LR) as Hsame.
  destruct (forallb _ _); eexists; (split; [reflexivity|]).
  - left. split; [done|]. split; [done|]. exists A. split; [done|]. symmetry. by apply Hsame.
  - right. split; [done|]. intros (_ & A' & [= <-] & E). fold C in E. symmetry in E. apply Hsame in E. done.
Qed.

Lemma fmul_0 v : fmul 0 v = 0.
Proof. unfold fmul. by rewrite Z.mul_0_l. Qed.

(** Keys that section 5.1.3 tells a decoder to refuse, y not below the prime, or x zero
    with the sign bit set, are decoded. *)
Lemma unchecked_keys : Forall (fun b => exists A, point_decode_neg b = Some A) [le_bytes 32 (p25519 + 1); le_bytes 32 (1 + 2 ^ 255)].
Proof.
  assert (Z0 : forall v, root_of_ratio 0 v = Some 0).
  { intros v. unfold root_of_ratio. set (x := fmul (fmul 0 (fpow v 3)) (fpow (fmul 0 (fpow v 7)) ((p25519 - 5) / 8))).
    assert (Ex : x = 0) by (unfold x; by rewrite !fmul_0). rewrite Ex. cbv zeta.
    assert (E0 : fmul v (fmul 0 0) = 0) by (rewrite fmul_0; unfold fmul; by rewrite Z.mul_0_r). by rewrite E0. }
  assert (G : forall b, fsub (fmul ((le_val b mod 2 ^ 255) mod p25519) ((le_val b mod 2 ^ 255) mod p25519)) 1 = 0 -> exists A, point_decode_neg b = Some A).
  { intros b E. unfold point_decode_neg. cbv zeta. rewrite E, Z0. by eexists. }
  repeat constructor; apply G; vm_compute; reflexivity.
Qed.

Lemma ex_hash_law : sha512_law (fun _ _ _ => replicate 64 7) (fun _ => replicate 64 7).
Proof. split; [done|done|]. intros m. exact (bytes_okb_ok (replicate 64 7) eq_refl). Qed.

Lemma ed25519_sign_exact_witness :
  c68k_ed25519_sign (H := portable_ops) (fun _ _ _ => replicate 64 7) [1; 2; 3] (replicate 32 5) (replicate 32 9) =
    Val (signature (fun _ => replicate 64 7) [1; 2; 3] (replicate 32 5) (replicate 32 9)).
Proof.
  destruct (ed25519_sign_exact portable_ops (fun _ _ _ => replicate 64 7) (fun _ => replicate 64 7) [1; 2; 3] (replicate 32 5) (replicate 32 9) portable_sound ex_hash_law) as [_ E].
  exact E.
Defined.

Lemma ed25519_verify_exact_witness :
  c68k_ed25519_verify (H := portable_ops) (fun _ _ _ => replicate 64 7) [1; 2; 3] (replicate 64 255) (replicate 32 9) = Val (-1).
Proof.
  destruct (ed25519_verify_exact portable_ops (fun _ _ _ => replicate 64 7) (fun _ => replicate 64 7) [1; 2; 3] (replicate 64 255) (replicate 32 9) portable_sound ex_hash_law
    (bytes_okb_ok (replicate 64 255) eq_refl) eq_refl (bytes_okb_ok (replicate 32 9) eq_refl) eq_refl) as (st & E & [[_ [Hs _]] | [-> _]]); [|exact E].
  exfalso. revert Hs. change (drop 32 (replicate 64 255)) with (replicate 32 255). vm_compute. discriminate.
Defined.
